(* ===== verification/_CoqProject ===== *)
-Q . S2P
Prelude.v
GoStrings.v
Ini.v
GoTime.v
HBA.v
Cluster.v
Parameters.v
Patroni.v
Prog.v
Errors.v
Naming.v
Objects.v
Client.v
Psql.v
Passwords.v
Pki.v
Lease.v
BackupUtils.v
BackupLease.v
Instances.v
ObservedInstances.v
CertManager.v
PgBouncer.v
Rollout.v
ScaleInstances.v
PatroniControl.v
ClusterStatus.v
Upgrade.v
PerconaUpgrade.v
PGBackRest.v
RepoBackups.v
Certificates.v
KeyProvider.v
Databases.v
Users.v
Watchers.v
ClusterDeletion.v
Schedules.v
Snapshots.v
BackupJob.v
WALWatcher.v
ClusterBackups.v
BackupController.v
Restore.v
SnapshotRestore.v
RestoreController.v
RestoreInPlace.v
LogicalReplication.v
LogicalReplicas.v
ReplicaLifecycle.v
