(* ===== verification/Prelude.v ===== *)
(** * Percona Operator for PostgreSQL: verification development

    The operator turns the custom resources of a PostgreSQL cluster into
    Kubernetes objects, keeps the instances of the cluster running, and drives
    backups, restores and upgrades of it.  This library models parts of its Go
    code (paths are relative to [src/]) and proves what they promise.

    ** The program and its parts

    - The configuration of PostgreSQL: [internal/controller/postgrescluster]
      asks a handful of packages for pg_hba.conf records
      ([internal/postgres/hba.go], [internal/pmm], [internal/pgmonitor],
      [internal/pgbouncer], [internal/logicalreplica]) and for parameters
      ([internal/postgres/parameters.go], [internal/pgbackrest],
      [internal/pgtde], the extension packages), and [internal/patroni] merges
      both with the user's own settings into the dynamic configuration that
      Patroni applies.
    - Names: [internal/naming] and [percona/naming] derive the names, labels,
      selectors and DNS names by which the controllers find their objects.
    - Instances: [internal/controller/postgrescluster/instance.go] observes the
      pods and StatefulSets of a cluster, scales the instance sets, and
      redeploys outdated pods; [patroni.go] and [internal/patroni/api.go] ask
      Patroni for switchovers, restarts and its status.
    - pgBackRest: [internal/pgbackrest] writes the option files and the commands,
      and [internal/controller/postgrescluster/pgbackrest.go] looks after the
      repositories, the stanzas and the jobs for backups, and restores a
      cluster in place.
    - Backups: [percona/controller/pgbackup] is a state machine per
      PerconaPGBackup.  A lease ([percona/k8s/lease.go]) lets one backup of a
      cluster proceed at a time; a backup runs with pgBackRest, through
      annotations of the cluster object and a job, or as volume snapshots of a
      suspended instance ([snapshots/]).
    - Restores: [percona/controller/pgrestore], a state machine per
      PerconaPGRestore, with pgBackRest ([utils/]) or from volume snapshots
      ([snapshot/]).
    - The cluster of the user: [percona/controller/pgcluster] publishes the
      status, computes the standby lag, schedules backups, creates
      PerconaPGBackups for jobs, deletes clusters, and starts a watcher of
      write-ahead logs per cluster ([percona/watcher]).
    - Upgrades: [internal/controller/pgupgrade] and
      [percona/controller/pgupgrade] stop a cluster, run the upgrade jobs and
      start it again.
    - Secrets: [internal/postgres/password] makes and digests passwords,
      [internal/pki] makes certificates and decides when to renew them,
      [percona/certmanager] asks cert-manager for them instead, and
      [internal/controller/postgrescluster/pki.go] chooses between the two.
    - Databases and extensions: SQL that is hashed first and runs, when its hash
      is a new one, in a writable instance.
    - Encryption: [internal/pgtde] installs pg_tde, configures the vault that
      holds its keys, and replaces the credentials of that vault in two phases.
    - PgBouncer: [internal/pgbouncer] writes the files of the connection pooler.
    - Logical replicas: [percona/controller/pgcluster/logicalreplica.go] seeds a
      copy of the primary with a Job, converts it into a subscriber, runs and
      watches it, and stops it while the cluster is restored or paused.

    ** The files

    Foundations:
    - Prelude.v: tactics, pointers, list lemmas and record updates.
    - GoStrings.v: the functions of Go's [strings], [path], [slices], [fmt]
      and [strconv] packages that are used, on byte strings.
    - GoTime.v: the layouts of Go's [time] package that are used.
    - Ini.v: option sets with several values per key, their text, and a reader
      of that text.
    - Prog.v: programs that call an environment.  [prog] is a tree of calls
      and continuations; [exec] relates a program to its finished executions,
      [run] executes it against a concrete server, and [wps G h p Q] says that
      [p], started after the history [h], makes only calls that [G] allows at
      that point and ends with [Q], whatever the answers.
    - Errors.v: Go errors as the code can tell them apart ([errors.Is],
      [IsNotFound] and the like).
    - Objects.v: the Kubernetes objects, with the fields the code uses.
    - Client.v: the operations of the Kubernetes client, of the executor of
      pod commands and of the clock, as the calls of Prog.v; sequencing with
      Go's early return on errors; the class [ControllerRuntime], which states
      what is relied on of client-go and controller-runtime (retries, polling,
      CreateOrUpdate, finalizers, owner references), with a concrete instance;
      [Grows], the facts about a history that stay true.

    PostgreSQL configuration:
    - HBA.v: records of pg_hba.conf, their rendering, and every package that
      contributes records.
    - Cluster.v: the specification of a cluster as far as it is configuration;
      the classes [GoVersion] (version comparison) and [MetaConditions]
      (status conditions).
    - Parameters.v: parameter sets and every package that contributes
      parameters.
    - Patroni.v: [DynamicConfiguration], the assembly of its inputs, and the
      meaning of pg_hba.conf as the first match of a connection.

    Names:
    - Naming.v: names, labels, selectors (class [LabelMatching]), annotations,
      DNS names (class [SafeEncode]).

    Instances of a PostgresCluster:
    - ObservedInstances.v: [newObservedInstances], what an instance's pod says,
      the status of the instance sets (class [Quantities]).
    - Rollout.v: which pods are redeployed, and in which order (class
      [SortPackage]); rounds of rolling updates.
    - ScaleInstances.v: scaling up and down, names of new instances.
    - PatroniControl.v: switchovers, restarts and the status of Patroni (class
      [PatroniJSON]).

    pgBackRest in a PostgresCluster:
    - PGBackRest.v: the files of the instances and of the repository host, the
      hashes of external repositories, the commands for stanzas.
    - RepoBackups.v: whether backups may be removed, what is deleted, the status
      of the repositories, stanzas, and the jobs for the first, manual and
      scheduled backups.
    - RestoreInPlace.v: data sources and restores of a running cluster.

    The cluster of the user:
    - ClusterStatus.v: the status of a PerconaPGCluster and the standby lag.
    - Watchers.v, WALWatcher.v: the registry of watchers, and what one does.
    - ClusterDeletion.v: finalizers and the order of a deletion.
    - Schedules.v: the cron entries of a cluster (class [CronLibrary]).
    - ClusterBackups.v: PerconaPGBackups for the jobs that exist.

    Secrets and PgBouncer:
    - Passwords.v: random passwords and their digests (classes [Random]
      and [Digests]).
    - Pki.v: certificates, their validity, names and text (class [X509]).
    - CertManager.v: what is asked of cert-manager (class [CertManager]);
      Certificates.v: the root, the certificate of the services, and the
      condition about TLS Secrets.
    - KeyProvider.v: the encryption extension pg_tde: its key provider, the
      phases of a change of its credentials, and the volume that holds them.
    - Databases.v: databases and extensions, and the SQL of the user; what a
      program runs ([script]) and the run that only hashes it.
    - Users.v: the users of PostgreSQL, as SQL (class [PgQuery]).
    - PgBouncer.v: the files of PgBouncer, its users and its queries.

    Logical replicas:
    - LogicalReplication.v: names, statements, scripts and configuration, and
      how a shell and PostgreSQL read them.
    - LogicalReplicas.v: the controller; ReplicaLifecycle.v: what it may do.

    Upgrades:
    - Upgrade.v: the PGUpgrade controller; PerconaUpgrade.v: the
      PerconaPGUpgrade controller above it.

    Backups and restores:
    - Psql.v: [internal/postgres/exec.go], psql command lines.
    - Lease.v, BackupLease.v: the lease, and how backups use it.
    - BackupUtils.v: [percona/controller/utils.go], status updates, the search
      for the latest backup.
    - Instances.v: pods of a cluster, suspension of instances.
    - Snapshots.v: volume snapshot backups: the state machine against the
      class [ExecutorSpec] of executors, and the offline executor, which
      implements it.
    - BackupJob.v, BackupController.v: the functions of the backup controller,
      then its [Reconcile], one definition per state.
    - Restore.v, SnapshotRestore.v, RestoreController.v: the same for
      restores.

    Definitions keep the names of the Go functions.  Where a Go function is
    long, its parts are definitions of their own, composed as the function
    composes them.

    ** How state and concurrency are modelled

    A controller keeps no state between two calls of [Reconcile]; the state is
    in the API server, which others write too.  A reconcile is therefore a
    program of Prog.v, and nothing relates the answers of different calls: a
    theorem with [wps] covers stale caches, conflicts, lost updates, failures
    at any point and every interleaving with other controllers.  What a
    program may do is stated from its history: a state is written only after
    the reads that justify it, and so on.  Local copies of objects are values;
    where the code changes a local copy and uses it later (finalizers, the
    backup's state after a failure, the cluster whose status is written at the
    end) the definitions return the copy.

    A panic (a nil dereference) is recovered by controller-runtime and ends the
    reconcile with an error, and so it is modelled.  Log lines are left out.
    The order in which Go visits a map is an answer of the environment, or an
    argument that is a permutation of the keys.  Times are integers
    (nanoseconds or seconds).  Loops are structural recursions; retries and
    polling are bounded by the library and come with rules instead of fuel.
    The only fuel is that of the search for a fresh instance name, which the
    code repeats without a bound: [ScaleInstances.scale_up_terminates] gives a
    bound from the names that are taken.

    ** The theorems

    Each theorem that is a property of the program has a comment that starts
    with its number.  In order of the components:
    - instances: [Rollout.rolling_update_plan], [Rollout.rolling_update_calls]
      and [Rollout.rolling_update_terminates] for rolling updates;
      [ObservedInstances.observed_instances_well_formed];
      [ScaleInstances.scale_down_calls], [ScaleInstances.pods_to_keep_reference]
      and [ScaleInstances.scale_up_terminates] for scaling;
      [PatroniControl.Requests.one_switchover_per_request],
      [PatroniControl.switchover_calls] and [PatroniControl.restarts_calls];
    - pgBackRest: what is written ([PGBackRest.instance_file_reads_back],
      [PGBackRest.repository_host_agrees]), what may be deleted
      ([RepoBackups.removal_needs_two_keys]), and when which job is made
      ([RepoBackups.manual_backup_calls], [RepoBackups.replica_create_calls],
      [RepoBackups.scheduled_backup_calls], [RepoBackups.stanza_calls]);
    - backups: [BackupController.Reconcile_safe] and
      [BackupController.pgbackrest_state_machine] bound every call of the
      backup controller; [BackupLease.handleLease_safe] gives the lease
      protocol, [BackupLease.lease_holder_roundtrip] the identity of holders;
      [Snapshots.snapshot_state_machine] the snapshot state machine for every
      executor, [Snapshots.offline_snapshot_backups] with the offline one;
      [BackupUtils.GetLatestBackup_spec] the search for the latest backup;
    - restores: [RestoreController.restore_state_machine],
      [SnapshotRestore.snapshot_restore_state_machine],
      [SnapshotRestore.prepare_job_paths], and RestoreInPlace.v below them;
    - the cluster of the user: [ClusterStatus.status_is_published],
      [ClusterStatus.lag_signal_follows_condition],
      [ClusterDeletion.deletion_order], [Schedules.schedules_consistent],
      [ClusterBackups.backups_and_jobs_agree], [WALWatcher.tick_triggers];
    - upgrades: [Upgrade.upgrade_calls] and
      [PerconaUpgrade.percona_upgrade_calls];
    - secrets: [Passwords.generated_passwords] and
      [Passwords.scram_password_logs_in]; [Pki.leaf_is_good], [Pki.leaf_is_kept]
      and [Pki.certificate_text_roundtrip]; which certificates are written, and
      by whom ([CertManager.leaf_certificate_calls], [CertManager.issuing_chain],
      [Certificates.root_calls], [Certificates.cluster_certificate_calls]);
    - encryption: every call about the key provider and when its revision
      changes ([KeyProvider.key_provider_calls]), that a change of credentials
      ends ([KeyProvider.change_goes_through]), whose volume is kept meanwhile
      ([KeyProvider.volume_is_held]), and what is asked of a standby
      ([KeyProvider.standby_is_only_asked]);
    - databases and extensions: what is recorded of the SQL that ran
      ([Databases.recorded_sql_was_applied]), and the names that arrive
      ([Databases.database_names_are_read]); which SQL about users runs, and
      which of its failures count ([Users.users_are_written]);
    - PgBouncer: [PgBouncer.auth_file_reads_back];
    - logical replicas: what the texts mean to those who read them
      ([LogicalReplication.bootstrap_commands_read_as_meant],
      [LogicalReplication.replica_configuration]); every call of the controller
      ([ReplicaLifecycle.logical_replica_calls]), how a status evolves
      ([ReplicaLifecycle.replica_status_evolves]), the teardown
      ([ReplicaLifecycle.removed_replicas_are_accounted]) and the suspension
      ([ReplicaLifecycle.suspension_of_a_replica]);
    - configuration: who can connect ([Patroni.service_users_need_TLS],
      [Patroni.plaintext_decided_by_user_records]), what is rendered
      ([Patroni.pg_hba_sections], [HBA.quote_is_one_token],
      [Parameters.params_string_roundtrip]), and which parameters win
      ([Patroni.parameters_precedence], [Patroni.archiving_parameters],
      [Patroni.preloaded_libraries], [Patroni.standby_cluster_section],
      [Parameters.parameter_set_laws]);
    - names: uniqueness, selection, bounds and round trips (Naming.v);
    - what goes wrong: theorems on single behaviours that the code surely does
      not intend, such as [Snapshots.suspension_can_leak],
      [SnapshotRestore.failed_replay_blocks_restores],
      [RepoBackups.manual_backup_outcome_is_lost] or
      [ReplicaLifecycle.waiting_replica_forgets_later].

    ** Not modelled

    Third-party code (client-go, controller-runtime, cryptography, hashing, JSON
    and YAML encoding, the cron parser) is a parameter, with laws where
    something is relied on.  Left out is:
    - what only builds Kubernetes objects field by field: pod specs of the
      instances and of the repository host, services, disruption budgets,
      roles, and the conversion of a PerconaPGCluster into a PostgresCluster;
      a model of it would restate the code;
    - programs and text for other software: pgAdmin, monitoring and logging
      sidecars, and the Secrets of the users of PostgreSQL, whose passwords are
      modelled;
    - what talks to something else: the hosted Crunchy Bridge, the version
      service, feature gates, flags, logging and the start of the operator;
    - of pgBackRest, the growth of volumes and the copies of certificates; of
      the instances, their pods and volumes. *)
From Stdlib Require Export Ascii.
From stdpp Require Export base gmap strings list sorting pretty.
From Stdlib Require Export ZArith Lia.

#[global] Open Scope stdpp_scope.

(** ** Tactics shared by the development *)

(** Case analysis on the first condition or scrutinee found in the goal. *)
Ltac case_goal :=
  match goal with
  | |- context [match ?x with _ => _ end] =>
      lazymatch x with
      | context [match _ with _ => _ end] => fail
      | _ => let E := fresh "E" in destruct x eqn:E
      end
  end.

(** Case analysis on the first condition or scrutinee found in [H]. *)
Ltac case_hyp H :=
  match type of H with
  | context [match ?x with _ => _ end] =>
      lazymatch x with
      | context [match _ with _ => _ end] => fail
      | _ => let E := fresh "E" in destruct x eqn:E
      end
  end.

(** Turn boolean hypotheses about [bool_decide], [&&], [||] and [negb]
    into propositions. *)
Ltac bool_to_prop :=
  repeat match goal with
  | H : bool_decide _ = true |- _ => apply bool_decide_eq_true in H
  | H : bool_decide _ = false |- _ => apply bool_decide_eq_false in H
  | H : (_ && _)%bool = true |- _ => apply andb_true_iff in H; destruct H
  | H : (_ || _)%bool = false |- _ => apply orb_false_iff in H; destruct H
  | H : negb _ = true |- _ => apply negb_true_iff in H
  | H : negb _ = false |- _ => apply negb_false_iff in H
  end.

Create HintDb operator.

(** ** Pointers

    A Go pointer that is only read is an [option]; [deref] is
    [k8s.io/utils/ptr.Deref]. *)
Definition deref {A} (p : option A) (d : A) : A := default d p.

(** The conversion to [int32]. *)
Definition int32 (z : Z) : Z := ((z + 2 ^ 31) mod 2 ^ 32 - 2 ^ 31)%Z.

Lemma int32_id z : (- 2 ^ 31 <= z < 2 ^ 31)%Z -> int32 z = z.
Proof. intros Hz. unfold int32. rewrite Z.mod_small; lia. Qed.

(** ** Lists *)

Section ListLemmas.
Context {A : Type}.
Implicit Types (l k : list A) (P : A -> Prop).

Lemma Forall_snoc P l x : Forall P l -> P x -> Forall P (l ++ [x]).
Proof. intros. apply Forall_app; auto. Qed.

(** A list that has [l] as a prefix still has it when extended. *)
Lemma prefix_app_grow l k1 k2 : l `prefix_of` k1 -> l `prefix_of` k1 ++ k2.
Proof. intros [m ->]. rewrite <- app_assoc. eexists; reflexivity. Qed.

Lemma find_app_none (f : A -> bool) l k :
  List.find f l = None -> List.find f (l ++ k) = List.find f k.
Proof.
  induction l as [|x l IH]; simpl; [done|]. destruct (f x); [done|auto].
Qed.

Lemma find_app_some (f : A -> bool) l k x :
  List.find f l = Some x -> List.find f (l ++ k) = Some x.
Proof.
  induction l as [|y l IH]; simpl; [done|]. destruct (f y); [done|auto].
Qed.

Lemma elem_of_bfilter (f : A -> bool) l x : x ∈ List.filter f l <-> x ∈ l /\ f x = true.
Proof. rewrite !list_elem_of_In. apply filter_In. Qed.

Lemma StronglySorted_sublist (R : A -> A -> Prop) l k :
  l `sublist_of` k -> StronglySorted R k -> StronglySorted R l.
Proof.
  induction 1 as [|x l k Hs IH|x l k Hs IH]; intros Hk; [constructor|..];
    apply StronglySorted_inv in Hk as [Hk Hx]; [|by apply IH].
  constructor; [by apply IH|]. rewrite Forall_forall in Hx |- *. intros y Hy.
  apply Hx. by eapply elem_of_sublist.
Qed.

#[export] Instance bfilter_Permutation (f : A -> bool) :
  Proper (Permutation ==> Permutation) (List.filter f).
Proof.
  induction 1; simpl; repeat case_goal; eauto using Permutation.
Qed.

Lemma bfilter_sublist (f : A -> bool) l : List.filter f l `sublist_of` l.
Proof. induction l as [|x l IH]; simpl; [done|]. destruct (f x); by constructor. Qed.

Lemma existsb_false (f : A -> bool) l : existsb f l = false <-> forall x, x ∈ l -> f x = false.
Proof.
  split.
  - intros He x Hx. destruct (f x) eqn:E; [|done]. rewrite <- He. symmetry. apply existsb_exists. exists x.
    split; [by apply list_elem_of_In|done].
  - intros Hf. destruct (existsb f l) eqn:E; [|done]. apply existsb_exists in E as (x & Hx & E).
    rewrite Hf in E; [done|by apply list_elem_of_In].
Qed.
End ListLemmas.

#[export] Hint Resolve Forall_snoc prefix_app_grow : operator.

(** ** Updating one field of a record

    [r <| f := v |>] is [r] with field [f] set to [v].  A record supplies its
    eta-expansion ([Eta]); the setters are derived from it.  Records with
    primitive projections make the fields of an updated record reduce. *)
Class Eta (R : Type) := eta : R -> R.
Class Setter {R T : Type} (proj : R -> T) := set_field : (T -> T) -> R -> R.
Arguments set_field {R T} proj {_} f r.

Ltac derive_setter :=
  lazymatch goal with
  | |- @Setter ?R ?T ?proj =>
    let i := constr:(_ : Eta R) in
    let i := eval red in i in
    exact (fun (f : T -> T) (r : R) => ltac:(
       let x := eval cbv beta in (i r) in
       lazymatch eval pattern (proj r) in x with
       | ?g _ => let y := eval cbv beta in (g (f (proj r))) in exact y
       end))
  end.

#[export] Hint Extern 1 (Setter _) => derive_setter : typeclass_instances.

#[warnings="-postfix-notation-not-level-1"]
Notation "r <| proj := v |>" := (set_field proj (fun _ => v) r)
  (at level 12, left associativity).
#[warnings="-postfix-notation-not-level-1"]
Notation "r <| proj ::= f |>" := (set_field proj f r)
  (at level 12, left associativity).
