(* ===== verification/GoStrings.v ===== *)
(** * The part of Go's [strings], [slices] and [fmt] packages the operator uses.

    A Go string is a sequence of bytes, here a [string] (a list of 8-bit
    [ascii]).  Case mapping and space trimming are the ASCII ones. *)
From S2P Require Import Prelude.

(** ** Characters *)

Definition code (c : ascii) : N := N_of_ascii c.

Definition dquote : ascii := "034"%char.
Definition squote : ascii := "039"%char.
Definition newline : ascii := "010"%char.

Definition char (c : ascii) : string := String c EmptyString.

Definition is_upper (c : ascii) : bool := (65 <=? code c)%N && (code c <=? 90)%N.
Definition is_lower (c : ascii) : bool := (97 <=? code c)%N && (code c <=? 122)%N.
Definition is_digit (c : ascii) : bool := (48 <=? code c)%N && (code c <=? 57)%N.

Definition lower_char (c : ascii) : ascii :=
  if is_upper c then ascii_of_N (code c + 32) else c.

(** [unicode.IsSpace] on ASCII. *)
Definition is_space (c : ascii) : bool :=
  ((9 <=? code c)%N && (code c <=? 13)%N) || (code c =? 32)%N.

(** ** Functions over strings *)

Fixpoint map_string (f : ascii -> ascii) (s : string) : string :=
  match s with
  | EmptyString => EmptyString
  | String c s => String (f c) (map_string f s)
  end.

(** Replace every character by a string. *)
Fixpoint bind_string (f : ascii -> string) (s : string) : string :=
  match s with
  | EmptyString => EmptyString
  | String c s => f c +:+ bind_string f s
  end.

Fixpoint all_chars (f : ascii -> bool) (s : string) : bool :=
  match s with
  | EmptyString => true
  | String c s => f c && all_chars f s
  end.

Definition nonempty (s : string) : bool := match s with EmptyString => false | _ => true end.

(** Shell text, written with a back quote for each double quote; the scripts
    of the operator have no back quote of their own. *)
Definition sh (s : string) : string := map_string (fun c => if bool_decide (c = "`"%char) then dquote else c) s.

(** [strings.ToLower] *)
Definition ToLower : string -> string := map_string lower_char.

(** [strings.ReplaceAll(s, c, new)] for a one-character [c] *)
Definition ReplaceAll (c : ascii) (new : string) : string -> string :=
  bind_string (fun d => if decide (d = c) then new else char d).

(** [strings.HasPrefix] *)
Fixpoint HasPrefix (s p : string) {struct p} : bool :=
  match p, s with
  | EmptyString, _ => true
  | String _ _, EmptyString => false
  | String a p', String b s' => bool_decide (a = b) && HasPrefix s' p'
  end.

Fixpoint drop_string (n : nat) (s : string) : string :=
  match n, s with
  | O, _ => s
  | S n, String _ s => drop_string n s
  | S _, EmptyString => EmptyString
  end.

(** [strings.CutPrefix] *)
Definition CutPrefix (s p : string) : string * bool :=
  if HasPrefix s p then (drop_string (String.length p) s, true) else (s, false).

(** [strings.TrimPrefix] *)
Definition TrimPrefix (s p : string) : string :=
  if HasPrefix s p then drop_string (String.length p) s else s.

(** [strings.Contains] *)
Fixpoint Contains (s sub : string) : bool :=
  HasPrefix s sub || match s with EmptyString => false | String _ s' => Contains s' sub end.

(** [strings.HasSuffix] *)
Fixpoint HasSuffix (s suf : string) : bool :=
  bool_decide (s = suf) || match s with EmptyString => false | String _ s' => HasSuffix s' suf end.

(** [s[:n]] *)
Fixpoint take_string (n : nat) (s : string) : string :=
  match n, s with
  | S n, String c s' => String c (take_string n s')
  | _, _ => EmptyString
  end.

(** [strings.TrimSuffix] *)
Definition TrimSuffix (s suf : string) : string :=
  if HasSuffix s suf then take_string (String.length s - String.length suf) s else s.

(** [strings.Join] *)
Fixpoint Join (l : list string) (sep : string) : string :=
  match l with
  | [] => EmptyString
  | [s] => s
  | s :: l => s +:+ sep +:+ Join l sep
  end.

(** [strings.Split] for a one-character separator *)
Fixpoint Split (s : string) (sep : ascii) : list string :=
  match s with
  | EmptyString => [EmptyString]
  | String c s' =>
      if decide (c = sep) then EmptyString :: Split s' sep
      else match Split s' sep with
           | [] => [char c]
           | w :: ws => String c w :: ws
           end
  end.

Fixpoint trim_left (f : ascii -> bool) (s : string) : string :=
  match s with
  | EmptyString => EmptyString
  | String c s' => if f c then trim_left f s' else s
  end.

Fixpoint trim_right (f : ascii -> bool) (s : string) : string :=
  match s with
  | EmptyString => EmptyString
  | String c s' =>
      match trim_right f s' with
      | EmptyString => if f c then EmptyString else char c
      | t => String c t
      end
  end.

(** [path.Clean] and [path.Join]: the components of the result, last first.
    An empty component and "." are dropped; ".." removes the component before
    it, is dropped at the root, and is kept at the start of a relative path. *)
Fixpoint clean_components (rooted : bool) (acc l : list string) : list string :=
  match l with
  | [] => acc
  | c :: l =>
      if decide (c = "" \/ c = ".") then clean_components rooted acc l
      else if decide (c = "..") then
        match acc with
        | a :: acc' =>
            if decide (a = "..") then clean_components rooted (c :: acc) l
            else clean_components rooted acc' l
        | [] => clean_components rooted (if rooted then [] else [c]) l
        end
      else clean_components rooted (c :: acc) l
  end.

Definition path_Clean (s : string) : string :=
  let rooted := HasPrefix s "/" in
  let out := (if rooted then "/" else "") +:+
             Join (rev (clean_components rooted [] (Split s "/"))) "/" in
  if nonempty out then out else ".".

Definition path_Join (elems : list string) : string :=
  match List.filter nonempty elems with
  | [] => ""
  | elems => path_Clean (Join elems "/")
  end.

(** [strconv.Quote], the verb %q.  Bytes outside ASCII are kept, as those of
    printable text are. *)
Definition hex_digit (n : N) : ascii :=
  if (n <? 10)%N then ascii_of_N (48 + n) else ascii_of_N (87 + n).

Definition quote_char (c : ascii) : string :=
  let backslash := "092"%char in
  let escaped d := String backslash (char d) in
  if decide (c = dquote) then escaped dquote
  else if decide (c = backslash) then escaped backslash
  else match N.to_nat (code c) with
       | 7 => escaped "a"%char
       | 8 => escaped "b"%char
       | 9 => escaped "t"%char
       | 10 => escaped "n"%char
       | 11 => escaped "v"%char
       | 12 => escaped "f"%char
       | 13 => escaped "r"%char
       | _ => if (code c <? 32)%N || (code c =? 127)%N
              then escaped "x"%char +:+ char (hex_digit (code c / 16)) +:+ char (hex_digit (code c mod 16))
              else char c
       end.

Definition Quote (s : string) : string := char dquote +:+ bind_string quote_char s +:+ char dquote.


(** [strings.TrimFunc] *)
Definition TrimFunc (f : ascii -> bool) (s : string) : string := trim_right f (trim_left f s).

(** [strings.TrimSpace] *)
Definition TrimSpace : string -> string := TrimFunc is_space.

(** [slices.Sorted(maps.Keys(m))]: the keys in increasing byte order *)
Definition SortedKeys {V} (m : gmap string V) : list string :=
  merge_sort String.le (map fst (map_to_list m)).

(** [fmt.Sprint] of a boolean *)
Definition show_bool (b : bool) : string := if b then "true" else "false".

(** ** Lemmas *)

Lemma app_nil_l_str (s : string) : EmptyString +:+ s = s.
Proof. done. Qed.

Lemma app_cons_str c (s t : string) : String c s +:+ t = String c (s +:+ t).
Proof. done. Qed.

Lemma char_app c (s : string) : char c +:+ s = String c s.
Proof. done. Qed.

Lemma app_nil_r_str (s : string) : s +:+ EmptyString = s.
Proof. induction s as [|c s IH]; [done|]. rewrite app_cons_str. by f_equal. Qed.

Lemma app_assoc_str (s t u : string) : (s +:+ t) +:+ u = s +:+ (t +:+ u).
Proof. induction s as [|c s IH]; [done|]. rewrite !app_cons_str. by f_equal. Qed.

Lemma app_inj_l_str (s t u : string) : s +:+ t = s +:+ u -> t = u.
Proof. induction s as [|c s IH]; [done|]. rewrite !app_cons_str. intros [= H]. auto. Qed.

Lemma length_app_str (s t : string) :
  String.length (s +:+ t) = String.length s + String.length t.
Proof. induction s as [|c s IH]; [done|]. rewrite app_cons_str. simpl. by rewrite IH. Qed.

Lemma app_inj_r_str (s t u : string) : s +:+ u = t +:+ u -> s = t.
Proof.
  revert t. induction s as [|c s IH]; intros [|d t]; rewrite ?app_cons_str; try done.
  - rewrite app_nil_l_str. intros H. apply (f_equal String.length) in H.
    simpl in H. rewrite length_app_str in H. lia.
  - rewrite app_nil_l_str. intros H. apply (f_equal String.length) in H.
    simpl in H. rewrite length_app_str in H. lia.
  - intros [= -> H]. f_equal. auto.
Qed.

Lemma all_chars_app f (s t : string) : all_chars f (s +:+ t) = all_chars f s && all_chars f t.
Proof.
  induction s as [|c s IH]; [done|]. rewrite app_cons_str. simpl. rewrite IH.
  by rewrite andb_assoc.
Qed.

Lemma all_chars_impl (f g : ascii -> bool) s :
  (forall c, f c = true -> g c = true) -> all_chars f s = true -> all_chars g s = true.
Proof.
  intros Hfg. induction s as [|c s IH]; simpl; [done|].
  intros [H1 H2]%andb_true_iff. by rewrite Hfg, IH.
Qed.

Lemma HasPrefix_spec s p : HasPrefix s p = true <-> exists t, s = p +:+ t.
Proof.
  revert s. induction p as [|a p IH]; intros s; simpl.
  - split; [|done]. intros _. by exists s.
  - destruct s as [|b s]; [split; [done|intros [t Ht]; done]|].
    rewrite andb_true_iff, bool_decide_eq_true, IH. split.
    + intros [-> [t ->]]. by exists t.
    + intros [t Ht]. rewrite app_cons_str in Ht. injection Ht as -> ->. eauto.
Qed.

Lemma HasPrefix_app p t : HasPrefix (p +:+ t) p = true.
Proof. apply HasPrefix_spec. by exists t. Qed.

Lemma drop_string_app p t : drop_string (String.length p) (p +:+ t) = t.
Proof. induction p as [|a p IH]; [done|]. rewrite app_cons_str. simpl. done. Qed.

Lemma TrimPrefix_app p t : TrimPrefix (p +:+ t) p = t.
Proof. unfold TrimPrefix. by rewrite HasPrefix_app, drop_string_app. Qed.

Lemma CutPrefix_app p t : CutPrefix (p +:+ t) p = (t, true).
Proof. unfold CutPrefix. by rewrite HasPrefix_app, drop_string_app. Qed.

Lemma HasSuffix_app s suf : HasSuffix (s +:+ suf) suf = true.
Proof.
  induction s as [|c s IH]; simpl.
  - destruct suf; simpl; [done|]. by rewrite bool_decide_eq_true_2.
  - rewrite IH. by rewrite orb_true_r.
Qed.

Lemma take_string_app s t : take_string (String.length s) (s +:+ t) = s.
Proof. induction s as [|c s IH]; simpl; [done|]. by rewrite IH. Qed.

Lemma app_inj_length_str (s s' t t' : string) :
  String.length t = String.length t' -> s +:+ t = s' +:+ t' -> s = s' /\ t = t'.
Proof.
  intros Hl He. assert (Hs : String.length s = String.length s').
  { pose proof (f_equal String.length He) as Hlen. rewrite !length_app_str in Hlen. lia. }
  assert (s = s') as <-; [|split; [done|by eapply app_inj_l_str]].
  rewrite <- (take_string_app s t), <- (take_string_app s' t'), Hs. by rewrite He.
Qed.

Lemma take_string_prefix n s : exists t, s = take_string n s +:+ t.
Proof.
  revert s. induction n as [|n IH]; intros [|c s]; [by eexists.. |]. simpl.
  destruct (IH s) as [t Ht]. exists t.
  change (String c s = String c (take_string n s +:+ t)). congruence.
Qed.

Lemma length_take_string n s : String.length (take_string n s) = n `min` String.length s.
Proof. revert s. induction n as [|n IH]; intros [|c s]; simpl; [done..|]. by rewrite IH. Qed.

Lemma TrimSuffix_app s suf : TrimSuffix (s +:+ suf) suf = s.
Proof.
  unfold TrimSuffix. rewrite HasSuffix_app, length_app_str.
  replace (String.length s + String.length suf - String.length suf) with (String.length s) by lia.
  apply take_string_app.
Qed.

Lemma HasSuffix_spec s suf : HasSuffix s suf = true -> exists t, s = t +:+ suf.
Proof.
  induction s as [|c s IH]; simpl; intros [E|E]%orb_true_iff; try done.
  - bool_to_prop. subst. by exists EmptyString.
  - bool_to_prop. subst. by exists EmptyString.
  - destruct (IH E) as [t ->]. by exists (String c t).
Qed.

Lemma map_string_idemp f s :
  (forall c, f (f c) = f c) -> map_string f (map_string f s) = map_string f s.
Proof. intros Hf. induction s as [|c s IH]; simpl; [done|]. by rewrite Hf, IH. Qed.

Lemma lower_char_idemp c : lower_char (lower_char c) = lower_char c.
Proof. by destruct c as [[] [] [] [] [] [] [] []]. Qed.

(** Normalising a name twice is normalising it once. *)
Lemma ToLower_idemp s : ToLower (ToLower s) = ToLower s.
Proof. apply map_string_idemp, lower_char_idemp. Qed.

Lemma bind_string_app f (s t : string) :
  bind_string f (s +:+ t) = bind_string f s +:+ bind_string f t.
Proof.
  induction s as [|c s IH]; [done|]. rewrite app_cons_str. simpl. rewrite IH.
  by rewrite app_assoc_str.
Qed.

Lemma ReplaceAll_nil c new : ReplaceAll c new EmptyString = EmptyString.
Proof. done. Qed.

Lemma ReplaceAll_same c new s : ReplaceAll c new (String c s) = new +:+ ReplaceAll c new s.
Proof. unfold ReplaceAll. simpl. by rewrite decide_True. Qed.

Lemma ReplaceAll_other c d new s :
  d <> c -> ReplaceAll c new (String d s) = String d (ReplaceAll c new s).
Proof. intros. unfold ReplaceAll. simpl. by rewrite decide_False. Qed.

Definition first_not (f : ascii -> bool) (s : string) : bool :=
  match s with EmptyString => true | String c _ => negb (f c) end.

Fixpoint last_not (f : ascii -> bool) (s : string) : bool :=
  match s with
  | EmptyString => true
  | String c EmptyString => negb (f c)
  | String _ s => last_not f s
  end.

Lemma trim_left_first f s : first_not f (trim_left f s) = true.
Proof. induction s as [|c s IH]; simpl; [done|]. destruct (f c) eqn:E; simpl; [done|by rewrite E]. Qed.

Lemma trim_right_last f s : last_not f (trim_right f s) = true.
Proof.
  induction s as [|c s IH]; simpl; [done|].
  destruct (trim_right f s) as [|d t]; [|done].
  destruct (f c) eqn:E; simpl; [done|by rewrite E].
Qed.

Lemma trim_right_prefix f s : exists t, s = trim_right f s +:+ t.
Proof.
  induction s as [|c s [t IH]]; simpl; [by exists EmptyString|].
  destruct (trim_right f s) as [|d u] eqn:E.
  - destruct (f c); [by exists (String c s)|]. exists t. by rewrite IH at 1.
  - exists t. by rewrite IH at 1.
Qed.

Lemma length_prefix s r t : s = r +:+ t -> String.length r <= String.length s.
Proof. intros ->. rewrite length_app_str. lia. Qed.

Lemma trim_right_first f s : first_not f s = true -> first_not f (trim_right f s) = true.
Proof.
  destruct s as [|c s]; simpl; [done|]. intros H.
  destruct (trim_right f s); simpl; [|done].
  destruct (f c) eqn:E; simpl; [done|by rewrite E].
Qed.

(** A trimmed string neither starts nor ends with a trimmed character. *)
Lemma TrimFunc_ends f s :
  first_not f (TrimFunc f s) = true /\ last_not f (TrimFunc f s) = true.
Proof.
  split; [apply trim_right_first, trim_left_first | apply trim_right_last].
Qed.

Lemma trim_left_id f s : first_not f s = true -> trim_left f s = s.
Proof. destruct s as [|c s]; simpl; [done|]. by intros ->%negb_true_iff. Qed.

Lemma trim_right_id f s : last_not f s = true -> trim_right f s = s.
Proof.
  induction s as [|c s IH]; simpl; [done|].
  destruct s as [|d s]; simpl in *.
  - by intros ->%negb_true_iff.
  - intros H. by rewrite IH.
Qed.

Lemma TrimFunc_id f s :
  first_not f s = true -> last_not f s = true -> TrimFunc f s = s.
Proof. intros. unfold TrimFunc. by rewrite trim_left_id, trim_right_id. Qed.

Lemma last_not_app f (s t : string) :
  t <> EmptyString -> last_not f (s +:+ t) = last_not f t.
Proof.
  intros Ht. induction s as [|c s IH]; [done|]. rewrite app_cons_str. simpl.
  destruct (s +:+ t) eqn:E; [|done].
  destruct s; [by rewrite app_nil_l_str in E | done].
Qed.

Lemma SortedKeys_sorted {V} (m : gmap string V) : StronglySorted String.le (SortedKeys m).
Proof. apply StronglySorted_merge_sort; apply _. Qed.

Lemma elem_of_SortedKeys {V} (m : gmap string V) k : k ∈ SortedKeys m <-> is_Some (m !! k).
Proof.
  unfold SortedKeys. rewrite merge_sort_Permutation.
  rewrite list_elem_of_fmap. split.
  - intros ([k' v] & -> & H). apply elem_of_map_to_list in H. by eexists.
  - intros [v H]. exists (k, v). split; [done|]. by apply elem_of_map_to_list.
Qed.

Lemma NoDup_SortedKeys {V} (m : gmap string V) : NoDup (SortedKeys m).
Proof. unfold SortedKeys. rewrite merge_sort_Permutation. apply NoDup_fst_map_to_list. Qed.

(** ** Splitting *)
Lemma Split_no_sep s sep : all_chars (fun c => negb (bool_decide (c = sep))) s = true ->
  Split s sep = [s].
Proof.
  induction s as [|c s IH]; simpl; [done|]. intros [Hc Hs]%andb_true_iff. bool_to_prop.
  rewrite decide_False by done. by rewrite (IH Hs).
Qed.

Lemma Split_app s t sep : all_chars (fun c => negb (bool_decide (c = sep))) s = true ->
  Split (s +:+ char sep +:+ t) sep = s :: Split t sep.
Proof.
  induction s as [|c s IH]; intros Hs.
  - simpl. by rewrite decide_True.
  - simpl in Hs. apply andb_true_iff in Hs as [Hc Hs]. bool_to_prop. rewrite app_cons_str.
    change (Split (String c (s +:+ char sep +:+ t)) sep) with
      (if decide (c = sep) then EmptyString :: Split (s +:+ char sep +:+ t) sep
       else match Split (s +:+ char sep +:+ t) sep with
            | [] => [char c]
            | w :: ws => String c w :: ws
            end).
    rewrite decide_False by done. by rewrite (IH Hs).
Qed.

Lemma Split_nonempty s sep : Split s sep <> [].
Proof. destruct s; simpl; [done|]. case_decide; [done|]. by destruct (Split s sep). Qed.

Lemma Split_concat s t sep : Split (s +:+ char sep +:+ t) sep = Split s sep ++ Split t sep.
Proof.
  induction s as [|c s IH].
  - rewrite app_nil_l_str, char_app. cbn [Split]. by rewrite decide_True.
  - rewrite app_cons_str. cbn [Split]. rewrite IH. case_decide; [done|].
    destruct (Split s sep) as [|w ws] eqn:E; [by destruct (Split_nonempty s sep)|done].
Qed.

(** What a string that splits in two looks like. *)
Lemma Split_inv s sep a b : Split s sep = [a; b] -> s = a +:+ char sep +:+ b.
Proof.
  revert a. induction s as [|c s IH]; simpl; [done|]. intros a. case_decide as E.
  - subst c. intros [= <- E]. rewrite app_nil_l_str, char_app. f_equal.
    clear IH. revert b E. induction s as [|c s IH]; simpl; intros b.
    + by intros [= <-].
    + case_decide; [intros [= _ E]; by destruct (Split_nonempty s sep)|].
      destruct (Split s sep) as [|w ws] eqn:Es; [intros [= <-]; by destruct (Split_nonempty s sep)|].
      intros [= <- ->]. f_equal. by apply IH.
  - destruct (Split s sep) as [|w ws] eqn:Es; [done|]. intros [= <- ->].
    rewrite app_cons_str. f_equal. by apply IH.
Qed.

(** ** Quoting by doubling

    How PostgreSQL reads a quoted text after its opening quote [q]: a doubled
    quote stands for a quote, a single one ends the text. *)
Fixpoint lex_body (q : ascii) (s : string) : option (string * string) :=
  match s with
  | EmptyString => None
  | String c s' =>
      if decide (c = q) then
        match s' with
        | String d s'' =>
            if decide (d = q) then prod_map (String q) id <$> lex_body q s''
            else Some (EmptyString, s')
        | EmptyString => Some (EmptyString, EmptyString)
        end
      else prod_map (String c) id <$> lex_body q s'
  end.

Lemma lex_body_quoted q v rest :
  first_not (fun c => bool_decide (c = q)) rest = true ->
  lex_body q (ReplaceAll q (char q +:+ char q) v +:+ char q +:+ rest) = Some (v, rest).
Proof.
  intros Hrest. induction v as [|c v IH].
  - rewrite ReplaceAll_nil, char_app, app_nil_l_str. simpl. rewrite decide_True by done.
    destruct rest as [|d rest]; [done|]. simpl in *.
    apply negb_true_iff, bool_decide_eq_false in Hrest.
    by rewrite decide_False by done.
  - destruct (decide (c = q)) as [->|Hc].
    + rewrite ReplaceAll_same, !app_assoc_str.
      rewrite (char_app q (char q +:+ _)), (char_app q (ReplaceAll _ _ _ +:+ _)).
      simpl. rewrite !decide_True by done. by rewrite IH.
    + rewrite ReplaceAll_other by done. rewrite app_cons_str. simpl.
      rewrite decide_False by done. by rewrite IH.
Qed.

(** Normalise nested appends. *)
Ltac str_norm := rewrite ?app_assoc_str, ?char_app, ?app_cons_str, ?app_nil_l_str, ?app_nil_r_str.
