(* ===== verification/Ini.v ===== *)
(** * Texts of options in sections

    [internal/pgbackrest/options.go] and the [iniValueSet] of
    [internal/pgbouncer/config.go]: how options are printed, and a reader of
    such texts, against which the printing is proved. *)
From S2P Require Import Prelude GoStrings.

(** ** Sets of options *)

(** The values of each key, in order. *)
Abbreviation iniMultiSet := (gmap string (list string)).

Definition ini_Add (key value : string) (ms : iniMultiSet) : iniMultiSet :=
  <[key := default [] (ms !! key) ++ [value]]> ms.

Definition ini_Set (key : string) (values : list string) (ms : iniMultiSet) : iniMultiSet := <[key := values]> ms.

Definition ini_Values (ms : iniMultiSet) (key : string) : list string := default [] (ms !! key).

(** A sequence of calls of [Set], and [for k, v := range m { ms.Set(k, v) }] *)
Definition setEach (l : list (string * string)) (ms : iniMultiSet) : iniMultiSet :=
  fold_left (fun ms kv => ini_Set kv.1 [kv.2] ms) l ms.

Definition ini_SetAll (m : gmap string string) (ms : iniMultiSet) : iniMultiSet := setEach (map_to_list m) ms.

(** ** Printing *)
Definition Concat : list string -> string := fold_right (fun s t => s +:+ t) EmptyString.

Definition ini_line (k v : string) : string :=
  if nonempty v then k +:+ " = " +:+ v +:+ char newline else k +:+ " =" +:+ char newline.

(** [iniMultiSet.String] *)
Definition ini_String (ms : iniMultiSet) : string :=
  Concat (map (fun k => Concat (map (ini_line k) (ini_Values ms k))) (SortedKeys ms)).

Abbreviation iniSectionSet := (gmap string iniMultiSet).

Definition is_global (section : string) : bool := bool_decide (section = "global") || HasPrefix section "global:".

(** The sections of general options come first. *)
Definition section_order (sections : iniSectionSet) : list string :=
  List.filter is_global (SortedKeys sections) ++ List.filter (fun k => negb (is_global k)) (SortedKeys sections).

Definition section_String (k : string) (ms : iniMultiSet) : string :=
  char newline +:+ "[" +:+ k +:+ "]" +:+ char newline +:+ ini_String ms.

(** [iniSectionSet.String] *)
Definition sections_String (sections : iniSectionSet) : string :=
  Concat (map (fun k => section_String k (default ∅ (sections !! k))) (section_order sections)).

(** [iniValueSet], with its [String] *)
Abbreviation iniValueSet := (gmap string string).

Definition valueSet_String (vs : iniValueSet) : string :=
  Concat (map (fun k => ini_line k (default "" (vs !! k))) (SortedKeys vs)).

(** ** Reading

    A line without its surrounding space is empty, a comment, a directive (of
    PgBouncer, after a percent sign), the name of a section, or an option whose
    key ends at the first equals sign. *)
Fixpoint cut (c : ascii) (s : string) : option (string * string) :=
  match s with
  | EmptyString => None
  | String d s =>
      if decide (d = c) then Some (EmptyString, s)
      else match cut c s with Some (a, b) => Some (String d a, b) | None => None end
  end.

Inductive line := Skip | Section (name : string) | Option (key value : string) | Malformed.

Definition read_line (s : string) : line :=
  match TrimSpace s with
  | EmptyString => Skip
  | String c t as s =>
      if decide (c = "#"%char) then Skip
      else if decide (c = "%"%char) then Skip
      else if decide (c = "["%char) then Section (TrimSuffix t "]")
      else match cut "="%char s with
           | Some (k, v) => Option (TrimSpace k) (TrimSpace v)
           | None => Malformed
           end
  end.

Fixpoint read_lines (section : string) (l : list string) : option (list (string * string * string)) :=
  match l with
  | [] => Some []
  | s :: l =>
      match read_line s with
      | Skip => read_lines section l
      | Section name => read_lines name l
      | Option k v => cons (section, k, v) <$> read_lines section l
      | Malformed => None
      end
  end.

(** The options of a text: section, key and value, in order. *)
Definition read_ini (s : string) : option (list (string * string * string)) := read_lines "" (Split s newline).

(** The values of a key of a section. *)
Definition values (l : list (string * string * string)) (section key : string) : list string :=
  map snd (List.filter (fun e => bool_decide (e.1 = (section, key))) l).

(** ** What can be printed *)
Definition line_char (c : ascii) : bool := negb (bool_decide (c = newline)).

Definition trimmed (s : string) : bool := first_not is_space s && last_not is_space s.

Definition plain_value (v : string) : bool := all_chars line_char v && trimmed v.

Definition plain_key (k : string) : bool :=
  nonempty k && all_chars (fun c => line_char c && negb (bool_decide (c = "="%char))) k && trimmed k &&
  first_not (fun c => bool_decide (c ∈ ["#"%char; "%"%char; "["%char])) k.

Definition plain (ms : iniMultiSet) : Prop :=
  forall k vs, ms !! k = Some vs -> plain_key k = true /\ forall v, v ∈ vs -> plain_value v = true.

Definition plain_sections (sections : iniSectionSet) : Prop :=
  forall k ms, sections !! k = Some ms -> all_chars line_char k = true /\ plain ms.

(** ** Texts as lines *)
Definition Lines (l : list string) : string := Concat (map (fun s => s +:+ char newline) l).

Lemma Concat_app l k : Concat (l ++ k) = Concat l +:+ Concat k.
Proof. induction l as [|s l IH]; simpl; [done|]. by rewrite IH, app_assoc_str. Qed.

Lemma Lines_app l k : Lines (l ++ k) = Lines l +:+ Lines k.
Proof. unfold Lines. by rewrite map_app, Concat_app. Qed.

Lemma Lines_flat_map {A} (f : A -> list string) l : Lines (flat_map f l) = Concat (map (fun x => Lines (f x)) l).
Proof. induction l as [|x l IH]; simpl; [done|]. by rewrite Lines_app, IH. Qed.

Lemma Split_line s t : all_chars line_char s = true -> Split (s +:+ String newline t) newline = s :: Split t newline.
Proof. intros Hs. rewrite <- char_app. by apply Split_app. Qed.

Lemma Split_Lines l t : Forall (fun s => all_chars line_char s = true) l -> Split (Lines l +:+ t) newline = l ++ Split t newline.
Proof.
  induction 1 as [|s l Hs Hl IH]; [done|].
  change (Lines (s :: l)) with ((s +:+ char newline) +:+ Lines l). rewrite !app_assoc_str. unfold char at 1.
  rewrite app_cons_str, app_nil_l_str, Split_line by done. by rewrite IH.
Qed.

Definition option_line (k v : string) : string := if nonempty v then k +:+ " = " +:+ v else k +:+ " =".

Lemma ini_line_Lines k v : ini_line k v = Lines [option_line k v].
Proof. unfold ini_line, option_line, Lines. simpl. destruct (nonempty v); by rewrite app_nil_r_str, ?app_assoc_str. Qed.

Definition ini_lines (ms : iniMultiSet) : list string :=
  flat_map (fun k => map (option_line k) (ini_Values ms k)) (SortedKeys ms).

Lemma ini_String_lines ms : ini_String ms = Lines (ini_lines ms).
Proof.
  unfold ini_String, ini_lines. rewrite Lines_flat_map. f_equal. apply map_ext. intros k. unfold Lines.
  rewrite map_map. f_equal. apply map_ext. intros v. rewrite ini_line_Lines. unfold Lines. simpl. by rewrite app_nil_r_str.
Qed.

Definition section_lines (k : string) (ms : iniMultiSet) : list string := "" :: ("[" +:+ k +:+ "]") :: ini_lines ms.

Lemma section_String_lines k ms : section_String k ms = Lines (section_lines k ms).
Proof.
  unfold section_String, section_lines. rewrite ini_String_lines.
  change (Lines ("" :: ("[" +:+ k +:+ "]") :: ini_lines ms)) with
    (char newline +:+ (("[" +:+ k +:+ "]") +:+ char newline) +:+ Lines (ini_lines ms)).
  by rewrite !app_assoc_str.
Qed.

Definition sections_lines (sections : iniSectionSet) : list string :=
  flat_map (fun k => section_lines k (default ∅ (sections !! k))) (section_order sections).

Lemma sections_String_lines sections : sections_String sections = Lines (sections_lines sections).
Proof.
  unfold sections_String, sections_lines. rewrite Lines_flat_map. f_equal. apply map_ext. intros k.
  apply section_String_lines.
Qed.

Lemma valueSet_String_lines vs : valueSet_String vs = Lines (ini_lines ((fun v => [v]) <$> vs)).
Proof.
  rewrite <- ini_String_lines. unfold valueSet_String, ini_String. f_equal.
  assert (Hk : SortedKeys ((fun v => [v]) <$> vs) = SortedKeys vs).
  { unfold SortedKeys. rewrite map_to_list_fmap, map_map. done. }
  rewrite Hk. apply map_ext_in. intros k Hin%list_elem_of_In%elem_of_SortedKeys. destruct Hin as [v Hv].
  unfold ini_Values. rewrite lookup_fmap, Hv. simpl. by rewrite app_nil_r_str.
Qed.

(** ** Reading what was printed *)
Lemma trim_left_app_space f c s : f c = true -> trim_left f (String c s) = trim_left f s.
Proof. simpl. by intros ->. Qed.

Lemma trim_right_snoc f s c : f c = true -> trim_right f (s +:+ char c) = trim_right f s.
Proof.
  intros Hc. induction s as [|d s IH]; [simpl; by rewrite Hc|]. rewrite app_cons_str. simpl. by rewrite IH.
Qed.

Lemma cut_first c s t : all_chars (fun d => negb (bool_decide (d = c))) s = true -> cut c (s +:+ String c t) = Some (s, t).
Proof.
  induction s as [|d s IH]; rewrite ?app_nil_l_str, ?app_cons_str; simpl; [by rewrite decide_True|].
  intros [Hd%negb_true_iff%bool_decide_eq_false Hs]%andb_true_iff. by rewrite decide_False, IH.
Qed.

Lemma trimmed_id s : trimmed s = true -> TrimSpace s = s.
Proof. unfold trimmed. intros [??]%andb_true_iff. by apply TrimFunc_id. Qed.

Lemma first_not_app f s t : nonempty s = true -> first_not f (s +:+ t) = first_not f s.
Proof. by destruct s. Qed.

Lemma read_option k v : plain_key k = true -> plain_value v = true -> read_line (option_line k v) = Option k v.
Proof.
  unfold plain_key, plain_value. intros [[[Hne Hc]%andb_true_iff Hk]%andb_true_iff Hf]%andb_true_iff [_ Hv]%andb_true_iff.
  assert (Hcut : forall t, cut "=" (k +:+ " =" +:+ t) = Some (k +:+ " ", t)).
  { intros t. change (" =" +:+ t) with (" " +:+ String "=" t). rewrite <- app_assoc_str. apply cut_first.
    rewrite all_chars_app. apply andb_true_iff. split; [|done].
    eapply all_chars_impl; [|exact Hc]. intros c [_ Hd]%andb_true_iff. exact Hd. }
  assert (Hks : TrimSpace (k +:+ " ") = k).
  { unfold trimmed in Hk. apply andb_true_iff in Hk as [H1 H2]. unfold TrimSpace, TrimFunc.
    rewrite trim_left_id by (by rewrite first_not_app). change " " with (char " "). by rewrite trim_right_snoc, trim_right_id. }
  assert (Hline : exists t, option_line k v = k +:+ " =" +:+ t /\ TrimSpace t = v /\
    trimmed (option_line k v) = true).
  { unfold option_line, trimmed in *. apply andb_true_iff in Hk as [H1 H2]. apply andb_true_iff in Hv as [H3 H4].
    destruct v as [|c v]; simpl nonempty; cbn iota.
    - exists "". rewrite app_nil_r_str. split_and!; [done|done|]. apply andb_true_iff. split; [by rewrite first_not_app|].
      by rewrite last_not_app.
    - exists (" " +:+ String c v). split_and!; [done| |].
      + change (" " +:+ String c v) with (String " " (String c v)). unfold TrimSpace, TrimFunc.
        rewrite trim_left_app_space by done. by rewrite trim_left_id, trim_right_id.
      + apply andb_true_iff. split; [by rewrite first_not_app|]. rewrite last_not_app by done. by rewrite last_not_app. }
  destruct Hline as (t & Heq & Ht & Htr). unfold read_line. rewrite (trimmed_id _ Htr), Heq.
  destruct k as [|c k]; [done|]. rewrite app_cons_str, <- app_cons_str.
  simpl in Hf. apply negb_true_iff, bool_decide_eq_false in Hf. rewrite !elem_of_cons in Hf.
  change ((String c k) +:+ " =" +:+ t) with (String c (k +:+ " =" +:+ t)) at 1.
  rewrite !decide_False by tauto.
  rewrite (Hcut t : cut "=" (String c (k +:+ " =" +:+ t)) = _). by rewrite Hks, Ht.
Qed.

Lemma option_line_char k v : plain_key k = true -> plain_value v = true -> all_chars line_char (option_line k v) = true.
Proof.
  unfold plain_key, plain_value, option_line. intros [[[_ Hc]%andb_true_iff _]%andb_true_iff _]%andb_true_iff [Hv _]%andb_true_iff.
  assert (Hk : all_chars line_char k = true) by (eapply all_chars_impl; [|exact Hc]; by intros c [? _]%andb_true_iff).
  destruct (nonempty v); by rewrite !all_chars_app, Hk, ?Hv.
Qed.

(** The options of a section, in the order in which they are printed. *)
Definition entries (section : string) (ms : iniMultiSet) : list (string * string * string) :=
  flat_map (fun k => map (fun v => (section, k, v)) (ini_Values ms k)) (SortedKeys ms).

Lemma fmap_app_options {A} (l k : list A) (o : option (list A)) :
  app l <$> (app k <$> o) = app (l ++ k) <$> o.
Proof. destruct o as [m|]; simpl; [by rewrite app_assoc|done]. Qed.

Lemma read_options section k vs rest : plain_key k = true -> (forall v, v ∈ vs -> plain_value v = true) ->
  read_lines section (map (option_line k) vs ++ rest) =
  app (map (fun v => (section, k, v)) vs) <$> read_lines section rest.
Proof.
  intros Hk. induction vs as [|v vs IH]; intros Hv; [simpl; by destruct (read_lines section rest)|].
  cbn [map app read_lines]. rewrite read_option by (try done; apply Hv; left).
  rewrite IH by (intros w Hw; apply Hv; by right). simpl. by destruct (read_lines section rest).
Qed.

Lemma plain_values ms k : plain ms -> k ∈ SortedKeys ms ->
  plain_key k = true /\ forall v, v ∈ ini_Values ms k -> plain_value v = true.
Proof. intros Hms [vs Hk]%elem_of_SortedKeys. unfold ini_Values. rewrite Hk. by apply Hms. Qed.

Lemma read_ini_lines section ms rest : plain ms ->
  read_lines section (ini_lines ms ++ rest) = app (entries section ms) <$> read_lines section rest.
Proof.
  intros Hms. unfold ini_lines, entries. pose proof (plain_values ms) as Hp. revert Hp.
  generalize (SortedKeys ms) as ks. induction ks as [|k ks IH]; intros Hp.
  - simpl. by destruct (read_lines section rest).
  - simpl. rewrite <- app_assoc. destruct (Hp k Hms ltac:(left)) as [Hk Hv].
    rewrite read_options by done. rewrite IH, fmap_app_options; [done|]. intros k' _ Hin. apply Hp; [done|by right].
Qed.

Lemma read_section section k ms rest : all_chars line_char k = true -> plain ms ->
  read_lines section (section_lines k ms ++ rest) = app (entries k ms) <$> read_lines k rest.
Proof.
  intros Hk Hms. unfold section_lines. cbn [app read_lines].
  assert (Hs : read_line ("[" +:+ k +:+ "]") = Section k).
  { unfold read_line. rewrite trimmed_id.
    - transitivity (Section (TrimSuffix (k +:+ "]") "]")); [reflexivity|by rewrite TrimSuffix_app].
    - unfold trimmed. apply andb_true_iff. split; [done|]. by rewrite !last_not_app by (by destruct k). }
  rewrite Hs. by apply read_ini_lines.
Qed.

Lemma read_sections sections order section rest : plain_sections sections ->
  (forall s, read_lines s rest = Some []) ->
  (forall k, k ∈ order -> is_Some (sections !! k)) ->
  read_lines section (flat_map (fun k => section_lines k (default ∅ (sections !! k))) order ++ rest) =
  Some (flat_map (fun k => entries k (default ∅ (sections !! k))) order).
Proof.
  intros Hp Hr. revert section. induction order as [|k order IH]; intros section Ho; [apply Hr|].
  cbn [flat_map]. rewrite <- app_assoc. destruct (Ho k ltac:(left)) as [ms Hk]. rewrite Hk. simpl default.
  destruct (Hp k ms Hk) as [Hc Hms]. rewrite read_section by done.
  rewrite IH by (intros k' Hk'; apply Ho; by right). done.
Qed.

Lemma values_app l k section key : values (l ++ k) section key = values l section key ++ values k section key.
Proof. unfold values. by rewrite List.filter_app, map_app. Qed.

(** Only one element of the list has values of the key. *)
Lemma values_flat_map `{EqDecision A} (f : A -> list (string * string * string)) (l : list A) x section key :
  NoDup l -> (forall y, y ∈ l -> y <> x -> values (f y) section key = []) ->
  (x ∉ l -> values (f x) section key = []) ->
  values (flat_map f l) section key = values (f x) section key.
Proof.
  intros Hnd Hf Hx. induction l as [|y l IH]; [symmetry; apply Hx, not_elem_of_nil|].
  apply NoDup_cons in Hnd as [Hy Hnd]. cbn [flat_map]. rewrite values_app.
  assert (Hrest : x ∉ l -> values (flat_map f l) section key = []).
  { clear -Hf. induction l as [|z l IH]; intros Hx; [done|]. cbn [flat_map]. rewrite values_app.
    apply not_elem_of_cons in Hx as [Hz Hx]. rewrite Hf by (try (right; left); congruence). apply IH; [|done].
    intros w Hw. apply Hf. apply elem_of_cons in Hw as [->|Hw]; [by left|right; by right]. }
  destruct (decide (x ∈ l)) as [Hin|Hin].
  - rewrite Hf; [|left|by intros ->]. apply IH; [done| |done]. intros z Hz. apply Hf. by right.
  - rewrite (Hrest Hin), app_nil_r. destruct (decide (y = x)) as [->|Hne]; [done|].
    rewrite Hf by (try left; done). symmetry. apply Hx. by apply not_elem_of_cons.
Qed.

Lemma values_map section section' key k vs :
  values (map (fun v => (section', k, v)) vs) section key =
  if bool_decide (section' = section /\ k = key) then vs else [].
Proof.
  unfold values. induction vs as [|v vs IH]; [by case_bool_decide|]. cbn [map List.filter].
  assert (He : bool_decide ((section', k, v).1 = (section, key)) = bool_decide (section' = section /\ k = key)).
  { apply bool_decide_ext. simpl. naive_solver. }
  rewrite He. destruct (bool_decide _); simpl in *; by rewrite IH.
Qed.

Lemma values_entries section section' ms key :
  values (entries section' ms) section key = if bool_decide (section' = section) then ini_Values ms key else [].
Proof.
  unfold entries. rewrite (values_flat_map _ _ key); [|apply NoDup_SortedKeys| |].
  - rewrite values_map. repeat case_bool_decide; tauto.
  - intros k _ Hk. rewrite values_map, bool_decide_eq_false_2; [done|]. by intros [_ ?].
  - intros Hn. rewrite values_map. unfold ini_Values. destruct (ms !! key) eqn:E.
    + exfalso. apply Hn, elem_of_SortedKeys. by eexists.
    + by case_bool_decide.
Qed.

Lemma section_order_spec sections :
  NoDup (section_order sections) /\ forall k, k ∈ section_order sections <-> is_Some (sections !! k).
Proof.
  unfold section_order. split.
  - apply NoDup_app. split_and!; [apply NoDup_ListNoDup, List.NoDup_filter, NoDup_ListNoDup, NoDup_SortedKeys| |
      apply NoDup_ListNoDup, List.NoDup_filter, NoDup_ListNoDup, NoDup_SortedKeys].
    intros k [_ H1]%elem_of_bfilter [_ H2]%elem_of_bfilter. by rewrite H1 in H2.
  - intros k. rewrite elem_of_app, !elem_of_bfilter, elem_of_SortedKeys. destruct (is_global k); naive_solver.
Qed.

Lemma section_lines_char k ms : all_chars line_char k = true -> plain ms ->
  Forall (fun s => all_chars line_char s = true) (section_lines k ms).
Proof.
  intros Hk Hms. unfold section_lines. constructor; [done|]. constructor; [by rewrite !all_chars_app, Hk|].
  apply Forall_forall. intros s Hs. unfold ini_lines in Hs. apply list_elem_of_In, in_flat_map in Hs as (k' & Hk' & Hs).
  apply list_elem_of_In in Hk', Hs. apply list_elem_of_fmap in Hs as (v & -> & Hv).
  destruct (plain_values ms k' Hms Hk') as [Hp Hvs]. apply option_line_char; [done|by apply Hvs].
Qed.

(** What is printed after comments reads back: each option of each section
    has its values, in their order, and nothing else is there. *)
Lemma read_sections_String comments sections :
  plain_sections sections ->
  Forall (fun s => all_chars line_char s = true /\ HasPrefix s "#" = true) comments ->
  exists l, read_ini (Lines comments +:+ sections_String sections) = Some l /\
    forall section key, values l section key = ini_Values (default ∅ (sections !! section)) key.
Proof.
  intros Hp Hc. exists (flat_map (fun k => entries k (default ∅ (sections !! k))) (section_order sections)).
  destruct (section_order_spec sections) as [Hnd Ho]. split.
  - unfold read_ini. rewrite sections_String_lines, <- Lines_app.
    rewrite <- (app_nil_r_str (Lines _)), Split_Lines.
    2: { apply Forall_app. split; [eapply Forall_impl; [exact Hc|]; by intros s [? _]|]. apply Forall_forall.
      intros s Hs. unfold sections_lines in Hs. apply list_elem_of_In, in_flat_map in Hs as (k & Hk & Hs).
      apply list_elem_of_In, Ho in Hk as [ms Hk]. rewrite Hk in Hs. destruct (Hp k ms Hk) as [Hkc Hms].
      apply list_elem_of_In in Hs. pose proof (section_lines_char k ms Hkc Hms) as Hf. rewrite Forall_forall in Hf. by apply Hf. }
    rewrite <- app_assoc. assert (Hcomments : forall rest, read_lines "" (comments ++ rest) = read_lines "" rest).
    { intros rest. induction Hc as [|s l [_ Hs] _ IH]; [done|]. cbn [app read_lines].
      apply HasPrefix_spec in Hs as [t ->]. assert (Hskip : read_line ("#" +:+ t) = Skip).
      { unfold read_line, TrimSpace, TrimFunc. change ("#" +:+ t) with (String "#" t).
        rewrite trim_left_id by done. simpl. by destruct (trim_right is_space t). }
      by rewrite Hskip. }
    rewrite Hcomments. apply read_sections; [done|done|]. intros k. apply Ho.
  - intros section key. rewrite (values_flat_map _ _ section).
    + by rewrite values_entries, bool_decide_eq_true_2.
    + done.
    + intros k _ Hk. by rewrite values_entries, bool_decide_eq_false_2.
    + intros Hn. rewrite values_entries, bool_decide_eq_true_2 by done. destruct (sections !! section) eqn:E; [|done].
      exfalso. apply Hn, Ho. by eexists.
Qed.

(** ** Laws of the option sets *)
Lemma setEach_app l k ms : setEach (l ++ k) ms = setEach k (setEach l ms).
Proof. unfold setEach. by rewrite fold_left_app. Qed.

Lemma setEach_flat_map {A} (f : A -> list (string * string)) l ms :
  fold_left (fun ms x => setEach (f x) ms) l ms = setEach (flat_map f l) ms.
Proof. revert ms. induction l as [|x l IH]; intros ms; simpl; [done|]. by rewrite IH, setEach_app. Qed.

Lemma setEach_cases l ms k :
  (exists v, (k, v) ∈ l /\ setEach l ms !! k = Some [v]) \/ (k ∉ map fst l /\ setEach l ms !! k = ms !! k).
Proof.
  revert ms. induction l as [|[k' v] l IH]; intros ms; [right; by split; [apply not_elem_of_nil|]|].
  change (setEach ((k', v) :: l) ms) with (setEach l (ini_Set k' [v] ms)).
  destruct (IH (ini_Set k' [v] ms)) as [(w & Hin & Hw)|[Hn Hl]]; [left; exists w; by split; [right|]|].
  destruct (decide (k' = k)) as [->|Hne].
  - left. exists v. split; [left|]. rewrite Hl. unfold ini_Set. by rewrite lookup_insert, decide_True.
  - right. split; [by apply not_elem_of_cons|]. rewrite Hl. unfold ini_Set. by rewrite lookup_insert_ne.
Qed.

Lemma setEach_unique l ms k v : (k, v) ∈ l -> (forall w, (k, w) ∈ l -> w = v) -> setEach l ms !! k = Some [v].
Proof.
  intros Hin Hu. destruct (setEach_cases l ms k) as [(w & Hw & ->)|[Hn _]]; [by rewrite (Hu w)|].
  destruct Hn. apply list_elem_of_fmap. by exists (k, v).
Qed.

Lemma setEach_other l ms k : k ∉ map fst l -> setEach l ms !! k = ms !! k.
Proof.
  intros Hk. destruct (setEach_cases l ms k) as [(w & Hw & _)|[_ ?]]; [|done]. destruct Hk. apply list_elem_of_fmap.
  by exists (k, w).
Qed.

Lemma setEach_lookup_NoDup l ms k : NoDup (map fst l) ->
  setEach l ms !! k = match list_to_map (M := gmap string string) l !! k with Some v => Some [v] | None => ms !! k end.
Proof.
  intros Hnd. destruct (list_to_map l !! k) as [v|] eqn:E.
  - apply elem_of_list_to_map_2 in E as Hin. apply setEach_unique; [done|]. intros w Hw.
    apply (elem_of_list_to_map_1 (M := gmap string)) in Hw; [by simplify_eq|done].
  - apply setEach_other. by apply not_elem_of_list_to_map_2 in E.
Qed.

(** The order in which a map is visited does not matter. *)
Lemma ini_SetAll_order (m : gmap string string) l ms : l ≡ₚ map_to_list m -> setEach l ms = ini_SetAll m ms.
Proof.
  intros Hl. apply map_eq. intros k. unfold ini_SetAll.
  assert (Hnd : NoDup (map fst l)) by (rewrite Hl; apply NoDup_fst_map_to_list).
  rewrite !setEach_lookup_NoDup by (try done; apply NoDup_fst_map_to_list).
  by rewrite (list_to_map_proper l (map_to_list m)).
Qed.

Lemma ini_SetAll_list l ms : NoDup (map fst l) -> ini_SetAll (list_to_map l) ms = setEach l ms.
Proof. intros Hnd. symmetry. apply ini_SetAll_order. by rewrite map_to_list_to_map. Qed.

Lemma ini_SetAll_lookup (m : gmap string string) ms k :
  ini_SetAll m ms !! k = match m !! k with Some v => Some [v] | None => ms !! k end.
Proof.
  unfold ini_SetAll. rewrite setEach_lookup_NoDup by apply NoDup_fst_map_to_list.
  by rewrite list_to_map_to_list.
Qed.

(** *** Options that can be printed *)
Definition plain_option (kv : string * string) : bool := plain_key kv.1 && plain_value kv.2.

Lemma plain_setEach l ms : plain ms -> Forall (fun kv => plain_option kv = true) l -> plain (setEach l ms).
Proof.
  intros Hms Hl k vs Hk. rewrite Forall_forall in Hl.
  destruct (setEach_cases l ms k) as [(v & Hin & Hv)|[_ Hv]]; rewrite Hv in Hk; [|by apply Hms].
  specialize (Hl _ Hin). apply andb_true_iff in Hl as [Hpk Hpv]. simplify_eq. split; [done|].
  intros w ->%list_elem_of_singleton. done.
Qed.

Lemma plain_SetAll (m : gmap string string) ms :
  plain ms -> map_Forall (fun k v => plain_option (k, v) = true) m -> plain (ini_SetAll m ms).
Proof.
  intros Hms Hm k vs. rewrite ini_SetAll_lookup. destruct (m !! k) as [v|] eqn:E; [|apply Hms]. intros [= <-].
  apply Hm in E. apply andb_true_iff in E as [??]. split; [done|]. by intros w ->%list_elem_of_singleton.
Qed.

Lemma plain_empty : plain ∅.
Proof. intros k vs. by rewrite lookup_empty. Qed.

(** ** Words: what the operator generates of keys and values *)
Definition word_char (c : ascii) : bool := negb (is_space c || bool_decide (c = "="%char)).
Definition word (s : string) : bool := all_chars word_char s.

Lemma pretty_N_digits (n : N) : all_chars is_digit (pretty n) = true.
Proof.
  assert (Hgo : forall n s, all_chars is_digit s = true -> all_chars is_digit (pretty_N_go n s) = true).
  { intros m. induction (N.lt_wf_0 m) as [m _ IH]; intros s Hs.
    destruct (decide (0 < m)%N) as [Hm|Hm]; [|assert (m = 0%N) as -> by lia; by rewrite pretty_N_go_0].
    rewrite pretty_N_go_step by done. apply IH; [by apply N.div_lt|]. simpl. rewrite Hs, andb_true_r.
    unfold pretty_N_char. by repeat case_match. }
  unfold pretty, pretty_N. case_decide; [done|]. by apply Hgo.
Qed.

Lemma pretty_nat_digits (n : nat) : all_chars is_digit (pretty n) = true.
Proof. apply pretty_N_digits. Qed.

Lemma digits_word s : all_chars is_digit s = true -> word s = true.
Proof.
  apply all_chars_impl. unfold is_digit, word_char, is_space. intros c Hc.
  destruct c as [[] [] [] [] [] [] [] []]; by vm_compute in Hc |- *.
Qed.

Lemma pretty_Z_word (z : Z) : word (pretty z) = true.
Proof.
  destruct z; [done|apply (digits_word _ (pretty_N_digits (Npos _)))|].
  change (word ("-" +:+ pretty (Npos p)) = true). unfold word. rewrite all_chars_app. simpl.
  apply (digits_word _ (pretty_N_digits (Npos p))).
Qed.

Lemma last_not_all f s : all_chars (fun c => negb (f c)) s = true -> last_not f s = true.
Proof. induction s as [|c s IH]; [done|]. cbn [all_chars]. intros [Hc Hs]%andb_true_iff.
  destruct s; [exact Hc|exact (IH Hs)]. Qed.

Lemma word_trimmed s : word s = true -> trimmed s = true.
Proof.
  intros Hs. assert (Hn : all_chars (fun c => negb (is_space c)) s = true).
  { eapply all_chars_impl; [|exact Hs]. intros c. unfold word_char. by destruct (is_space c). }
  unfold trimmed. rewrite (last_not_all _ _ Hn), andb_true_r. destruct s; [done|]. by apply andb_true_iff in Hn as [??].
Qed.

Lemma word_line s : word s = true -> all_chars line_char s = true.
Proof.
  apply all_chars_impl. unfold word_char, line_char. intros c Hc.
  destruct (decide (c = newline)) as [->|Hn]; [done|by rewrite bool_decide_eq_false_2].
Qed.

Lemma word_value s : word s = true -> plain_value s = true.
Proof. intros Hs. unfold plain_value. by rewrite word_line, word_trimmed. Qed.

Lemma word_key c s : is_lower c = true -> word s = true -> plain_key (String c s) = true.
Proof.
  intros Hc Hs. assert (Hw : word (String c s) = true).
  { unfold word. simpl. apply andb_true_iff. split; [|done]. unfold word_char.
    destruct c as [[] [] [] [] [] [] [] []]; by vm_compute in Hc |- *. }
  unfold plain_key. rewrite word_trimmed by done. repeat rewrite andb_true_iff. split_and!; [done| |done|].
  - eapply all_chars_impl; [|exact Hw]. unfold word_char, line_char. intros d Hd.
    destruct (decide (d = newline)) as [->|Hn]; [done|]. rewrite bool_decide_eq_false_2 by done.
    destruct (is_space d); [done|]. exact Hd.
  - simpl. apply negb_true_iff, bool_decide_eq_false. rewrite !elem_of_cons. intros Hin.
    destruct Hin as [->|[->|[->|Hin]]]; [done..|]. by apply elem_of_nil in Hin.
Qed.
