(* ===== verification/GoTime.v ===== *)
(** * Calendar time of the Go standard library

    The parts of [time] that the program uses: instants as nanoseconds since
    1970, and [time.Parse] with the layout of commit timestamps. *)
From S2P Require Import Prelude GoStrings.

Definition second : Z := (1000 * 1000 * 1000)%Z.

(** ** The calendar *)
#[local] Open Scope Z_scope.

Definition isLeap (year : Z) : bool :=
  (year mod 4 =? 0) && (negb (year mod 100 =? 0) || (year mod 400 =? 0)).

Definition daysIn (m year : Z) : Z :=
  if m =? 2 then if isLeap year then 29 else 28
  else if (m =? 4) || (m =? 6) || (m =? 9) || (m =? 11) then 30 else 31.

(** Days of a common year before a month. *)
Definition daysBefore (m : Z) : Z :=
  nth (Z.to_nat (m - 1)) [0; 31; 59; 90; 120; 151; 181; 212; 243; 273; 304; 334] 0.

(** Days before the first of January of a year, from that of 1970. *)
Definition daysSinceEpoch (year : Z) : Z :=
  let y := year - 1 in 365 * y + y / 4 - y / 100 + y / 400 - 719162.

Definition dayNumber (year month day : Z) : Z :=
  daysSinceEpoch year + daysBefore month + (if isLeap year && (3 <=? month) then 1 else 0) + (day - 1).

(** [time.Date] in UTC *)
Definition Date (year month day hour min sec nsec : Z) : Z :=
  (((dayNumber year month day * 24 + hour) * 60 + min) * 60 + sec) * second + nsec.

(** ** Numbers *)
Definition digit (c : ascii) : option Z :=
  if is_digit c then Some (Z.of_N (code c) - 48) else None.

(** One digit only where the layout allows it. *)
Definition getnum (s : string) (fixed : bool) : option (Z * string) :=
  match s with
  | EmptyString => None
  | String a s =>
      a ← digit a;
      match s with
      | EmptyString => if fixed then None else Some (a, s)
      | String b rest =>
          match digit b with
          | Some b => Some (a * 10 + b, rest)
          | None => if fixed then None else Some (a, s)
          end
      end
  end.

Fixpoint digits (acc : Z) (s : string) : option Z :=
  match s with
  | EmptyString => Some acc
  | String c s => d ← digit c; digits (acc * 10 + d) s
  end.

(** With a sign, as [atoi] reads it. *)
Definition atoi (s : string) : option Z :=
  match s with
  | String "-" s => Z.opp <$> digits 0 s
  | String "+" s => digits 0 s
  | _ => digits 0 s
  end.

Definition skip (value prefix : string) : option string :=
  if HasPrefix value prefix then Some (drop_string (String.length prefix) value) else None.

Definition within (lo hi n : Z) : option unit := if (lo <=? n) && (n <=? hi) then Some tt else None.

(** ** [time.Parse] with 2006-01-02T15:04:05.000000Z07 *)

(** 2006 *)
Definition parseYear (value : string) : option (Z * string) :=
  match value with
  | String c _ =>
      _ ← digit c;
      if bool_decide (4 <= String.length value)%nat
      then y ← atoi (take_string 4 value); Some (y, drop_string 4 value)
      else None
  | EmptyString => None
  end.

(** .000000 *)
Definition parseMicroseconds (value : string) : option (Z * string) :=
  match value with
  | String c rest =>
      if bool_decide (c = "."%char \/ c = ","%char) && bool_decide (7 <= String.length value)%nat
      then n ← atoi (take_string 6 rest);
           if n <? 0 then None else Some (n * 1000, drop_string 6 rest)
      else None
  | EmptyString => None
  end.

(** Z07: the offset in seconds *)
Definition parseZone (value : string) : option (Z * string) :=
  match value with
  | String "Z" rest => Some (0, rest)
  | String c rest =>
      if bool_decide (2 <= String.length rest)%nat then
        '(hr, _) ← getnum (take_string 2 rest) true;
        _ ← within 0 24 hr;
        if bool_decide (c = "+"%char) then Some (hr * 3600, drop_string 2 rest)
        else if bool_decide (c = "-"%char) then Some (- (hr * 3600), drop_string 2 rest)
        else None
      else None
  | EmptyString => None
  end.

Definition parseCommitTime (value : string) : option Z :=
  '(year, value) ← parseYear value;
  value ← skip value "-";
  '(month, value) ← getnum value true;
  _ ← within 1 12 month;
  value ← skip value "-";
  '(day, value) ← getnum value true;
  value ← skip value "T";
  '(hour, value) ← getnum value false;
  _ ← within 0 23 hour;
  value ← skip value ":";
  '(min, value) ← getnum value true;
  _ ← within 0 59 min;
  value ← skip value ":";
  '(sec, value) ← getnum value true;
  _ ← within 0 59 sec;
  '(nsec, value) ← parseMicroseconds value;
  '(offset, value) ← parseZone value;
  _ ← within 1 (daysIn month year) day;
  if nonempty value then None
  else Some (Date year month day hour min sec nsec - offset * second).

(** ** The calendar is right *)
Definition nextDay (year month day : Z) : Z * Z * Z :=
  if day <? daysIn month year then (year, month, day + 1)
  else if month <? 12 then (year, month + 1, 1)
  else (year + 1, 1, 1).

Lemma daysSinceEpoch_next y : daysSinceEpoch (y + 1) = daysSinceEpoch y + (if isLeap y then 366 else 365).
Proof.
  unfold daysSinceEpoch, isLeap. destruct (Z.eqb_spec (y mod 4) 0), (Z.eqb_spec (y mod 100) 0), (Z.eqb_spec (y mod 400) 0);
    simpl; Z.div_mod_to_equations; lia.
Qed.

Lemma month_cases m : 1 <= m <= 12 -> m ∈ seqZ 1 12.
Proof. intros Hm. apply elem_of_seqZ. lia. Qed.

Lemma daysBefore_next m : 1 <= m < 12 -> daysBefore (m + 1) = daysBefore m + daysIn m 1.
Proof.
  intros Hm. assert (Hc : 1 <= m <= 12) by lia. apply month_cases in Hc. simpl in Hc.
  repeat (apply elem_of_cons in Hc as [->|Hc]; [first [reflexivity|lia]|]). by apply elem_of_nil in Hc.
Qed.

Lemma daysIn_leap m y : daysIn m y = daysIn m 1 + (if (m =? 2) && isLeap y then 1 else 0).
Proof. unfold daysIn. change (isLeap 1) with false. destruct (m =? 2), (isLeap y); simpl; lia. Qed.

(** The number of the day after a date is one more: the calendar is the one
    that [nextDay] describes. *)
Lemma dayNumber_next y m d : 1 <= m <= 12 -> 1 <= d <= daysIn m y ->
  let '(y', m', d') := nextDay y m d in dayNumber y' m' d' = dayNumber y m d + 1.
Proof.
  intros Hm Hd. unfold nextDay. destruct (Z.ltb_spec d (daysIn m y)) as [Hlt|Hge]; [unfold dayNumber; lia|].
  assert (d = daysIn m y) as -> by lia. rewrite daysIn_leap. unfold dayNumber. clear Hd Hge.
  destruct (Z.ltb_spec m 12) as [Hl|Hl].
  - rewrite daysBefore_next by lia.
    destruct (isLeap y), (Z.eqb_spec m 2), (Z.leb_spec 3 m), (Z.leb_spec 3 (m + 1)); simpl; lia.
  - assert (m = 12) as -> by lia. rewrite daysSinceEpoch_next.
    change (daysBefore 1) with 0. change (daysBefore 12) with 334. change (daysIn 12 1) with 31.
    change (3 <=? 1) with false. rewrite andb_false_r. change (3 <=? 12) with true. rewrite andb_true_r.
    change (12 =? 2) with false. simpl. destruct (isLeap y); lia.
Qed.

Lemma epoch : dayNumber 1970 1 1 = 0.
Proof. reflexivity. Qed.

(** ** Printing *)
Definition digit_char (n : Z) : ascii := ascii_of_N (Z.to_N (n + 48)).

(** A number with a fixed count of digits. *)
Fixpoint padded (width : nat) (n : Z) : string :=
  match width with
  | O => EmptyString
  | S w => padded w (n / 10) +:+ char (digit_char (n mod 10))
  end.

Definition printZone (hours : Z) : string :=
  if hours =? 0 then "Z" else (if hours <? 0 then "-" else "+") +:+ padded 2 (Z.abs hours).

(** A timestamp with microseconds and an offset of whole hours. *)
Definition printTime (year month day hour min sec usec offset : Z) : string :=
  padded 4 year +:+ "-" +:+ padded 2 month +:+ "-" +:+ padded 2 day +:+ "T" +:+
  padded 2 hour +:+ ":" +:+ padded 2 min +:+ ":" +:+ padded 2 sec +:+ "." +:+ padded 6 usec +:+ printZone offset.

Lemma digit_digit_char n : 0 <= n < 10 -> digit (digit_char n) = Some n.
Proof.
  intros Hn. assert (Hm : n ∈ seqZ 0 10) by (apply elem_of_seqZ; lia). simpl in Hm.
  repeat (apply elem_of_cons in Hm as [->|Hm]; [reflexivity|]). by apply elem_of_nil in Hm.
Qed.

Lemma length_padded w : forall n, String.length (padded w n) = w.
Proof. induction w as [|w IH]; intros n; simpl; [done|]. rewrite length_app_str, IH. simpl. lia. Qed.

Lemma digits_app s : forall acc t, digits acc (s +:+ t) = a ← digits acc s; digits a t.
Proof.
  induction s as [|c s IH]; intros acc t; [done|]. rewrite app_cons_str. simpl. destruct (digit c); simpl; [apply IH|done].
Qed.

Lemma digits_padded w : forall n acc, 0 <= n < 10 ^ Z.of_nat w ->
  digits acc (padded w n) = Some (acc * 10 ^ Z.of_nat w + n).
Proof.
  induction w as [|w IH]; intros n acc Hn; [simpl in *; f_equal; lia|].
  rewrite Nat2Z.inj_succ, Z.pow_succ_r in Hn by lia. simpl padded. rewrite digits_app, IH; cycle 1.
  { split; [apply Z.div_pos; lia|]. apply Z.div_lt_upper_bound; lia. }
  simpl. rewrite digit_digit_char by (apply Z.mod_pos_bound; lia). simpl. f_equal.
  rewrite Nat2Z.inj_succ, Z.pow_succ_r by lia. pose proof (Z.div_mod n 10). lia.
Qed.

Lemma padded_digit w n : 0 <= n -> exists c s, padded (S w) n = String c s /\ is_digit c = true.
Proof.
  revert n. induction w as [|w IH]; intros n Hn.
  - exists (digit_char (n mod 10)), EmptyString. split; [done|].
    pose proof (digit_digit_char (n mod 10) ltac:(apply Z.mod_pos_bound; lia)) as Hd. unfold digit in Hd. by case_match.
  - destruct (IH (n / 10) ltac:(apply Z.div_pos; lia)) as (c & s & E & Hc).
    exists c, (s +:+ char (digit_char (n mod 10))). split; [|done].
    change (padded (S (S w)) n) with (padded (S w) (n / 10) +:+ char (digit_char (n mod 10))). by rewrite E.
Qed.

Lemma getnum_padded fixed n t : 0 <= n < 100 -> getnum (padded 2 n +:+ t) fixed = Some (n, t).
Proof.
  intros Hn. change (padded 2 n +:+ t) with
    (String (digit_char (n / 10 mod 10)) (String (digit_char (n mod 10)) t)). unfold getnum.
  pose proof (Z.div_mod n 10 ltac:(done)). pose proof (Z.div_lt_upper_bound n 10 10 ltac:(lia) ltac:(lia)).
  pose proof (Z.div_pos n 10 ltac:(lia) ltac:(lia)). rewrite (Z.mod_small (n / 10)) by lia.
  rewrite !digit_digit_char by (try apply Z.mod_pos_bound; lia). simpl. repeat f_equal. lia.
Qed.

Lemma atoi_padded w n : 0 <= n < 10 ^ Z.of_nat (S w) -> atoi (padded (S w) n) = Some n.
Proof.
  intros Hn. pose proof (digits_padded (S w) n 0 Hn) as Hd. rewrite Z.mul_0_l, Z.add_0_l in Hd. rewrite <- Hd.
  destruct (padded_digit w n) as (c & s & E & Hc); [lia|]. rewrite E. unfold atoi.
  destruct c as [[] [] [] [] [] [] [] []]; done.
Qed.

Lemma skip_app prefix t : skip (prefix +:+ t) prefix = Some t.
Proof. unfold skip. by rewrite HasPrefix_app, drop_string_app. Qed.

Lemma within_true lo hi n : lo <= n <= hi -> within lo hi n = Some tt.
Proof. intros [H1 H2]. unfold within. apply Z.leb_le in H1, H2. by rewrite H1, H2. Qed.

Lemma take_padded w n t : take_string w (padded w n +:+ t) = padded w n.
Proof. rewrite <- (length_padded w n) at 1. apply take_string_app. Qed.

Lemma drop_padded w n t : drop_string w (padded w n +:+ t) = t.
Proof. rewrite <- (length_padded w n) at 1. apply drop_string_app. Qed.

Lemma parseYear_padded y t : 0 <= y < 10000 -> parseYear (padded 4 y +:+ t) = Some (y, t).
Proof.
  intros Hy. unfold parseYear. rewrite take_padded, drop_padded, length_app_str, length_padded, atoi_padded by done.
  rewrite bool_decide_eq_true_2 by lia.
  destruct (padded_digit 3 y) as (c & s & E & Hc); [lia|]. rewrite E, app_cons_str. unfold digit. by rewrite Hc.
Qed.

Lemma parseMicroseconds_padded us t : 0 <= us < 1000000 ->
  parseMicroseconds ("." +:+ padded 6 us +:+ t) = Some (us * 1000, t).
Proof.
  intros Hu. change ("." +:+ ?s) with (String "." s). unfold parseMicroseconds.
  rewrite take_padded, drop_padded, atoi_padded by done.
  rewrite !bool_decide_eq_true_2; [|cbn [String.length]; rewrite length_app_str, length_padded; lia|by left].
  simpl. destruct (Z.ltb_spec us 0); [lia|done].
Qed.

Lemma parseZone_print h : -24 <= h <= 24 -> parseZone (printZone h) = Some (h * 3600, EmptyString).
Proof.
  intros Hh. unfold printZone. destruct (Z.eqb_spec h 0) as [->|Hn]; [done|].
  pose proof (getnum_padded true (Z.abs h) EmptyString ltac:(lia)) as Hg. rewrite app_nil_r_str in Hg.
  pose proof (take_padded 2 (Z.abs h) EmptyString) as Ht. pose proof (drop_padded 2 (Z.abs h) EmptyString) as Hd.
  rewrite app_nil_r_str in Ht, Hd. pose proof (length_padded 2 (Z.abs h)) as Hl.
  destruct (Z.ltb_spec h 0); [change ("-" +:+ ?s) with (String "-" s)|change ("+" +:+ ?s) with (String "+" s)];
    cbn [parseZone]; rewrite Ht, Hd, Hl, Hg; cbn -[within Z.mul Z.abs]; rewrite within_true by lia; cbn -[Z.mul Z.abs];
    repeat f_equal; lia.
Qed.

(** A printed timestamp is read back as its instant. *)
Lemma parse_printTime year month day hour min sec usec offset :
  0 <= year < 10000 -> 1 <= month <= 12 -> 1 <= day <= daysIn month year ->
  0 <= hour < 24 -> 0 <= min < 60 -> 0 <= sec < 60 -> 0 <= usec < 1000000 -> -24 <= offset <= 24 ->
  parseCommitTime (printTime year month day hour min sec usec offset) =
  Some (Date year month day hour min sec (usec * 1000) - offset * 3600 * second).
Proof.
  intros Hy Hm Hd Hh Hmi Hs Hu Ho. unfold parseCommitTime, printTime.
  assert (Hd31 : day < 100) by (unfold daysIn in Hd; repeat case_match; lia).
  rewrite parseYear_padded by done. cbn [mbind option_bind]. rewrite skip_app. cbn [mbind option_bind].
  do 2 (rewrite getnum_padded by lia; cbn [mbind option_bind]; rewrite ?within_true by lia; cbn [mbind option_bind];
    rewrite skip_app; cbn [mbind option_bind]).
  do 2 (rewrite getnum_padded by lia; cbn [mbind option_bind]; rewrite within_true by lia; cbn [mbind option_bind];
    rewrite skip_app; cbn [mbind option_bind]).
  rewrite getnum_padded by lia. cbn [mbind option_bind]. rewrite within_true by lia. cbn [mbind option_bind].
  rewrite parseMicroseconds_padded by done. cbn [mbind option_bind].
  rewrite parseZone_print by done. cbn [mbind option_bind]. done.
Qed.

(** ** A line of text *)
Lemma trim_right_newline s : last_not is_space s = true -> trim_right is_space (s +:+ char newline) = s.
Proof.
  induction s as [|c s IH]; intros Hl; [done|]. rewrite app_cons_str. simpl.
  destruct s as [|d s]; [simpl in *; by apply negb_true_iff in Hl as ->|].
  rewrite IH by done. done.
Qed.

Lemma TrimSpace_line s : first_not is_space s = true -> last_not is_space s = true -> s <> EmptyString ->
  TrimSpace (s +:+ char newline) = s.
Proof.
  intros Hf Hl Hn. unfold TrimSpace, TrimFunc. rewrite trim_left_id; [by apply trim_right_newline|].
  by destruct s.
Qed.

Lemma digit_no_space c : is_digit c = true -> is_space c = false.
Proof. by destruct c as [[] [] [] [] [] [] [] []]. Qed.

Lemma padded_last w n : last_not is_space (padded (S w) n) = true.
Proof.
  simpl. rewrite last_not_app by done. simpl. apply negb_true_iff, digit_no_space.
  pose proof (digit_digit_char (n mod 10) ltac:(apply Z.mod_pos_bound; lia)) as Hd. unfold digit in Hd. by case_match.
Qed.

Lemma printZone_last h : last_not is_space (printZone h) = true /\ printZone h <> EmptyString.
Proof.
  unfold printZone. destruct (h =? 0); [done|].
  assert (Hp : padded 2 (Z.abs h) <> EmptyString) by (intros E; by pose proof (length_padded 2 (Z.abs h)) as Hl; rewrite E in Hl).
  split; [rewrite last_not_app by done; apply padded_last|]. by destruct (h <? 0).
Qed.

Lemma TrimSpace_printTime year month day hour min sec usec offset : 0 <= year ->
  let s := printTime year month day hour min sec usec offset in TrimSpace (s +:+ char newline) = s.
Proof.
  intros Hy. destruct (printZone_last offset) as [Hl Hn]. destruct (padded_digit 3 year Hy) as (c & r & E & Hc).
  apply TrimSpace_line.
  - unfold printTime. rewrite E. simpl. by rewrite digit_no_space.
  - unfold printTime. rewrite <- !app_assoc_str. by rewrite last_not_app.
  - unfold printTime. by rewrite E.
Qed.
