(* ===== verification/HBA.v ===== *)
(** * Host-based authentication records

    Models [internal/postgres/hba.go] (records, rendering, [OrderedHBAs]) and
    the functions of other packages that add records to [HBAs]:
    [internal/pmm/hba.go], [internal/pgmonitor/postgres.go],
    [internal/pgbouncer/postgres.go], [internal/logicalreplica/postgres.go]
    and [hbaFromSpec] of [internal/patroni/config.go]. *)
From S2P Require Import Prelude GoStrings.

(** ** Records *)

Record HostBasedAuthentication := mkHBA {
  origin : string;
  database : string;
  user : string;
  address : string;
  method : string;
  options : string
}.

Record HBAs := mkHBAs {
  Mandatory : list HostBasedAuthentication;
  Default : list HostBasedAuthentication
}.

#[export] Instance HostBasedAuthentication_eq_dec : EqDecision HostBasedAuthentication.
Proof. solve_decision. Defined.

(** ** Quoting *)

(** [HostBasedAuthentication.quote] *)
Definition quote (value : string) : string :=
  char dquote +:+ ReplaceAll dquote (char dquote +:+ char dquote) value +:+ char dquote.

(** The UTF-8 encodings of the runes of a string, as [range] and [regexp] see
    them; a byte that starts no valid encoding is a rune by itself. *)
Definition is_cont (c : ascii) : bool := (128 <=? code c)%N && (code c <=? 191)%N.

Definition between (lo hi : N) (c : ascii) : bool := (lo <=? code c)%N && (code c <=? hi)%N.

Definition rune_len (s : string) : nat :=
  match s with
  | String a (String b (String c (String d _))) =>
      if between 194 223 a && is_cont b then 2
      else if ((between 224 224 a && between 160 191 b) ||
               (between 225 236 a && is_cont b) || (between 237 237 a && between 128 159 b) ||
               (between 238 239 a && is_cont b)) && is_cont c then 3
      else if ((between 240 240 a && between 144 191 b) ||
               (between 241 243 a && is_cont b) || (between 244 244 a && between 128 143 b))
              && is_cont c && is_cont d then 4
      else 1
  | String a (String b (String c EmptyString)) =>
      if between 194 223 a && is_cont b then 2
      else if ((between 224 224 a && between 160 191 b) ||
               (between 225 236 a && is_cont b) || (between 237 237 a && between 128 159 b) ||
               (between 238 239 a && is_cont b)) && is_cont c then 3
      else 1
  | String a (String b EmptyString) => if between 194 223 a && is_cont b then 2 else 1
  | _ => 1
  end.

Fixpoint take_string (n : nat) (s : string) : string :=
  match n, s with
  | S n, String c s => String c (take_string n s)
  | _, _ => EmptyString
  end.

(** [n] bounds the number of runes; [String.length s] is enough. *)
Fixpoint runes_fuel (n : nat) (s : string) : list string :=
  match n, s with
  | O, _ => []
  | S _, EmptyString => []
  | S n, _ => take_string (rune_len s) s :: runes_fuel n (drop_string (rune_len s) s)
  end.

Definition runes (s : string) : list string := runes_fuel (String.length s) s.

Section Unicode.
(** The Unicode classes [\pL] and [\pN] on runes outside ASCII, by their
    UTF-8 encoding. *)
Context (unicode_LN : string -> bool).

(** [[^\pL\pN_]] *)
Definition hbaRegexSpecialCharacters (r : string) : bool :=
  match r with
  | String c EmptyString =>
      negb (is_upper c || is_lower c || is_digit c || (code c =? 95)%N)
  | _ => negb (unicode_LN r)
  end.

(** [ReplaceAllStringFunc]: every special rune is put in brackets *)
Definition bracket_special (name : string) : string :=
  Join (map (fun r => if hbaRegexSpecialCharacters r then "[" +:+ r +:+ "]" else r) (runes name))
       EmptyString.

Definition quoteDatabase (name : string) : string :=
  quote (if HasPrefix name "/" then "/^" +:+ bracket_special name +:+ "$" else name).

Definition quoteUser (name : string) : string :=
  quote (if HasPrefix name "/" then "/^" +:+ bracket_special name +:+ "$" else name).

(** ** Constructors and modifiers *)

Definition AllDatabases (h : HostBasedAuthentication) :=
  mkHBA (origin h) "all" (user h) (address h) (method h) (options h).
Definition AllNetworks (h : HostBasedAuthentication) :=
  mkHBA (origin h) (database h) (user h) "all" (method h) (options h).
Definition AllUsers (h : HostBasedAuthentication) :=
  mkHBA (origin h) (database h) "all" (address h) (method h) (options h).

Definition NewHBA : HostBasedAuthentication :=
  AllUsers (AllNetworks (AllDatabases (mkHBA "" "" "" "" "" ""))).

Definition Databases (name : string) (names : list string) (h : HostBasedAuthentication) :=
  mkHBA (origin h)
    (fold_left (fun db n => db +:+ "," +:+ quoteDatabase n) names (quoteDatabase name))
    (user h) (address h) (method h) (options h).

Definition setOrigin (o : string) (h : HostBasedAuthentication) :=
  mkHBA o (database h) (user h) (address h) (method h) (options h).

Definition Local : HostBasedAuthentication -> HostBasedAuthentication := setOrigin "local".
Definition NoSSL : HostBasedAuthentication -> HostBasedAuthentication := setOrigin "hostnossl".
Definition TLS : HostBasedAuthentication -> HostBasedAuthentication := setOrigin "hostssl".
Definition TCP : HostBasedAuthentication -> HostBasedAuthentication := setOrigin "host".
Definition Origin (name : string) : HostBasedAuthentication -> HostBasedAuthentication :=
  setOrigin (quote name).

Definition Method (name : string) (h : HostBasedAuthentication) :=
  mkHBA (origin h) (database h) (user h) (address h) name (options h).

Definition Network (block : string) (h : HostBasedAuthentication) :=
  mkHBA (origin h) (database h) (user h) (quote block) (method h) (options h).

Definition Options (opts : gmap string string) (h : HostBasedAuthentication) :=
  mkHBA (origin h) (database h) (user h) (address h) (method h)
    (fold_left (fun acc k => acc +:+ " " +:+ quote k +:+ "=" +:+ quote (default "" (opts !! k)))
       (SortedKeys opts) "").

Definition Replication (h : HostBasedAuthentication) :=
  mkHBA (origin h) "replication" (user h) (address h) (method h) (options h).

Definition SameNetwork (h : HostBasedAuthentication) :=
  mkHBA (origin h) (database h) (user h) "samenet" (method h) (options h).

Definition TLSOnly (h : HostBasedAuthentication) : HostBasedAuthentication :=
  if decide (origin h = "host" \/ origin h = "hostnossl") then setOrigin "hostssl" h else h.

Definition Users (name : string) (names : list string) (h : HostBasedAuthentication) :=
  mkHBA (origin h) (database h)
    (fold_left (fun u n => u +:+ "," +:+ quoteUser n) names (quoteUser name))
    (address h) (method h) (options h).

(** [HostBasedAuthentication.String] *)
Definition hba_string (h : HostBasedAuthentication) : string :=
  if decide (origin h = "local") then
    TrimSpace ("local " +:+ database h +:+ " " +:+ user h +:+ " " +:+ method h +:+ " " +:+ options h)
  else
    TrimSpace (origin h +:+ " " +:+ database h +:+ " " +:+ user h +:+ " " +:+ address h +:+ " " +:+
               method h +:+ " " +:+ options h).

(** ** Records required by the operator's packages *)

Definition ReplicationUser : string := "_crunchyrepl".

Definition NewHBAs : HBAs := mkHBAs
  [ Method "peer" (Users "postgres" [] (Local NewHBA));
    Replication (Method "cert" (Users ReplicationUser [] (TLS NewHBA)));
    Databases "postgres" [] (Method "cert" (Users ReplicationUser [] (TLS NewHBA)));
    Method "reject" (Users ReplicationUser [] (TCP NewHBA)) ]
  [ Method "scram-sha-256" (TLS NewHBA) ].

Definition appendMandatory (l : list HostBasedAuthentication) (h : HBAs) : HBAs :=
  mkHBAs (Mandatory h ++ l) (Default h).

(** The three records that keep a monitoring user on local connections. *)
Definition monitoringHBAs (u : string) : list HostBasedAuthentication :=
  [ Network "127.0.0.0/8" (Method "scram-sha-256" (Users u [] (TCP NewHBA)));
    Network "::1/128" (Method "scram-sha-256" (Users u [] (TCP NewHBA)));
    Method "reject" (Users u [] (TCP NewHBA)) ].

Definition pmm_MonitoringUser : string := "monitor".
Definition pgmonitor_MonitoringUser : string := "ccp_monitoring".

Definition pmm_PostgreSQLHBAs (h : HBAs) : HBAs :=
  appendMandatory (monitoringHBAs pmm_MonitoringUser) h.

Definition pgmonitor_PostgreSQLHBAs (exporterEnabled : bool) (h : HBAs) : HBAs :=
  if exporterEnabled then appendMandatory (monitoringHBAs pgmonitor_MonitoringUser) h else h.

Definition pgbouncer_postgresqlUser : string := "_crunchypgbouncer".

Definition pgbouncer_postgresqlHBAs : list HostBasedAuthentication :=
  [ Method "scram-sha-256" (TLS (Users pgbouncer_postgresqlUser [] NewHBA));
    Method "reject" (TCP (Users pgbouncer_postgresqlUser [] NewHBA)) ].

Definition pgbouncer_PostgreSQL (pgBouncerEnabled : bool) (h : HBAs) : HBAs :=
  if pgBouncerEnabled then appendMandatory pgbouncer_postgresqlHBAs h else h.

Definition logicalreplica_ReplicationUser : string := "logicalrepl".

Definition logicalreplica_PostgreSQLHBAs (enabled : bool) (h : HBAs) : HBAs :=
  if enabled then
    appendMandatory
      [ Replication (Method "scram-sha-256" (Users logicalreplica_ReplicationUser [] (TLS NewHBA)));
        Method "scram-sha-256" (Users logicalreplica_ReplicationUser [] (TLS NewHBA));
        Method "reject" (Users logicalreplica_ReplicationUser [] (TCP NewHBA)) ] h
  else h.

(** ** Rules of the cluster's specification *)

Record PostgresHBARule := mkRule {
  Connection : string;
  rule_Method : string;
  rule_Databases : list string;
  rule_Users : list string;
  (** The option values as [intstr.IntOrString.String] prints them. *)
  rule_Options : gmap string string
}.

Record PostgresAuthenticationRule := mkAuthRule {
  rule : PostgresHBARule;
  rule_HBA : string
}.

Definition hbaFromSpec (spec : PostgresHBARule) : HostBasedAuthentication :=
  let result := Origin (Connection spec) NewHBA in
  let result := if decide (rule_Method spec = "password")
                then Method "scram-sha-256" result
                else Method (rule_Method spec) result in
  let result := match rule_Databases spec with
                | [] => result
                | d :: ds => Databases d ds result
                end in
  let result := match rule_Users spec with
                | [] => result
                | u :: us => Users u us result
                end in
  if decide (rule_Options spec = ∅) then result else Options (rule_Options spec) result.
End Unicode.

(** ** [OrderedHBAs], an append-only sequence of lines *)

Record OrderedHBAs := mkOrdered { records : list string }.

(** [Append]: [None] is a nil pointer. *)
Definition Append (o : OrderedHBAs) (hbas : list (option HostBasedAuthentication)) : OrderedHBAs :=
  fold_left (fun o h => match h with
                        | Some h => mkOrdered (records o ++ [hba_string h])
                        | None => o
                        end) hbas o.

(** Control characters, space, backslash and everything above [~]. *)
Definition unstructured_trim (c : ascii) : bool :=
  (126 <? code c)%N || (code c <? 33)%N || (code c =? 92)%N.

Definition AppendUnstructured (o : OrderedHBAs) (hbas : list string) : OrderedHBAs :=
  fold_left (fun o h =>
               let h := TrimFunc unstructured_trim h in
               if nonempty h && negb (HasPrefix h "include")
               then mkOrdered (records o ++ [h]) else o) hbas o.

Definition AsStrings (o : OrderedHBAs) : list string := records o.
Definition Length (o : OrderedHBAs) : nat := length (records o).

(** ** Specifications *)

(** How PostgreSQL reads a quoted token. *)
Definition lex_quoted (s : string) : option (string * string) :=
  match s with
  | String c s' => if decide (c = dquote) then lex_body dquote s' else None
  | EmptyString => None
  end.

(** The strings PostgreSQL compares a connection type with, quoted or not. *)
Definition origin_is (h : HostBasedAuthentication) (o : string) : bool :=
  bool_decide (origin h = o) || bool_decide (origin h = quote o).

Inductive transport := UnixSocket | PlainTCP | TLSTCP.

#[export] Instance transport_eq_dec : EqDecision transport.
Proof. solve_decision. Defined.

Record connection := mkConn {
  c_transport : transport;
  c_physical_replication : bool;
  c_database : string;
  c_user : string;
  c_address : string
}.

Definition origin_matches (h : HostBasedAuthentication) (t : transport) : bool :=
  match t with
  | UnixSocket => origin_is h "local"
  | PlainTCP => origin_is h "host" || origin_is h "hostnossl"
  | TLSTCP => origin_is h "host" || origin_is h "hostssl"
  end.

Section Evaluation.
(** How PostgreSQL matches a user or database field and an address field. *)
Context (name_match : string -> string -> bool) (address_match : string -> string -> bool).

Definition database_matches (field : string) (c : connection) : bool :=
  if c_physical_replication c then bool_decide (field = "replication")
  else bool_decide (field <> "replication") && name_match field (c_database c).

Definition hba_matches (c : connection) (h : HostBasedAuthentication) : bool :=
  origin_matches h (c_transport c) && database_matches (database h) c &&
  name_match (user h) (c_user c) &&
  match c_transport c with UnixSocket => true | _ => address_match (address h) (c_address c) end.

(** The method of the first matching record; [None] rejects the connection. *)
Definition authenticate (l : list HostBasedAuthentication) (c : connection) : option string :=
  method <$> List.find (hba_matches c) l.
End Evaluation.

(** A name with a quote in it, for the examples. *)
Definition dq_name : string := "a" +:+ char dquote +:+ " all".

(** ** Lemmas *)

Lemma lex_quote v rest :
  first_not (fun c => bool_decide (c = dquote)) rest = true ->
  lex_quoted (quote v +:+ rest) = Some (v, rest).
Proof.
  intros Hrest. unfold quote. str_norm. simpl. apply lex_body_quoted, Hrest.
Qed.

#[export] Instance quote_inj : Inj (=) (=) quote.
Proof.
  intros v w H.
  pose proof (lex_quote v EmptyString eq_refl) as Hv.
  pose proof (lex_quote w EmptyString eq_refl) as Hw.
  rewrite H, Hw in Hv. by injection Hv.
Qed.

Lemma quote_first v : exists s, quote v = String dquote s.
Proof. eexists. unfold quote. by rewrite char_app. Qed.

Lemma TLSOnly_origin h :
  origin (TLSOnly h) <> "host" /\ origin (TLSOnly h) <> "hostnossl".
Proof. unfold TLSOnly. case_decide; [done|]. tauto. Qed.

Lemma TLSOnly_idemp h : TLSOnly (TLSOnly h) = TLSOnly h.
Proof. unfold TLSOnly at 1. rewrite decide_False; [done|]. pose proof (TLSOnly_origin h). tauto. Qed.

Lemma Append_records o hbas :
  records (Append o hbas) = records o ++ map hba_string (omap id hbas).
Proof.
  unfold Append. revert o. induction hbas as [|[h|] hbas IH]; intros o; simpl.
  - by rewrite app_nil_r.
  - rewrite IH. simpl. by rewrite <- app_assoc.
  - apply IH.
Qed.

Lemma AppendUnstructured_records o hbas :
  records (AppendUnstructured o hbas) =
  records o ++ List.filter (fun h => nonempty h && negb (HasPrefix h "include"))
                 (map (TrimFunc unstructured_trim) hbas).
Proof.
  unfold AppendUnstructured. revert o. induction hbas as [|h hbas IH]; intros o; simpl.
  - by rewrite app_nil_r.
  - rewrite IH. destruct (_ && _); simpl; [by rewrite <- app_assoc | done].
Qed.

(** ** Properties *)

(** A quoted value is exactly one token of pg_hba.conf: reading it back
    gives the value, whatever characters it has, and leaves the rest of the
    line alone, so a name cannot reach into another field. *)
Theorem quote_is_one_token (v rest : string)
    (Hrest : first_not (fun c => bool_decide (c = dquote)) rest = true) :
  lex_quoted (quote v +:+ rest) = Some (v, rest).
Proof. by apply lex_quote. Qed.

Lemma quote_is_one_token_witness :
  lex_quoted (quote (dq_name) +:+ " all peer") = Some (dq_name, " all peer").
Proof. apply (quote_is_one_token dq_name " all peer"). vm_compute. reflexivity. Defined.

(** [OrderedHBAs] only grows; the lines [AppendUnstructured] adds are not
    empty, start and end with a printable character that is neither a space
    nor a backslash, and never start with an include directive. *)
Theorem AppendUnstructured_safe (o : OrderedHBAs) (hbas : list string) :
  AsStrings o `prefix_of` AsStrings (AppendUnstructured o hbas) /\
  Length (AppendUnstructured o hbas) <= Length o + length hbas /\
  Forall (fun l => nonempty l = true /\ HasPrefix l "include" = false /\
                   first_not unstructured_trim l = true /\ last_not unstructured_trim l = true)
         (drop (Length o) (AsStrings (AppendUnstructured o hbas))).
Proof.
  unfold Length, AsStrings. rewrite AppendUnstructured_records. split_and!.
  - by eexists.
  - rewrite length_app. apply Nat.add_le_mono_l.
    etrans; [apply List.filter_length_le|]. by rewrite length_map.
  - rewrite drop_app_length. apply List.Forall_forall. intros l [Hin Hok]%List.filter_In.
    apply List.in_map_iff in Hin as (x & <- & _).
    apply andb_true_iff in Hok as [? ?%negb_true_iff].
    pose proof (TrimFunc_ends unstructured_trim x). tauto.
Qed.
