(* ===== verification/Cluster.v ===== *)
(** * The parts of the [PostgresCluster] object the modelled code reads

    Models the fields of [pkg/apis/upstream.pgv2.percona.com/v1beta1] used by
    the configuration generators, with untyped JSON values ([any]).
    The version arithmetic of [github.com/hashicorp/go-version] is an
    interface, [GoVersion]. *)
From S2P Require Import Prelude GoStrings HBA.

#[local] Set Warnings "-register-all".

(** ** JSON values: Go's [any] as produced by a JSON decoder *)
Inductive any : Type :=
| ANil
| ABool (b : bool)
| AInt (z : Z)
| AString (s : string)
| AList (l : list any)
| AMap (m : gmap string any).

(** The type assertions [v.(T)] of the code, on the result of a map lookup. *)
Definition as_map (v : option any) : option (gmap string any) :=
  match v with Some (AMap m) => Some m | _ => None end.
Definition as_list (v : option any) : option (list any) :=
  match v with Some (AList l) => Some l | _ => None end.
Definition as_string (v : option any) : option string :=
  match v with Some (AString s) => Some s | _ => None end.

(** ** Versions *)
Class GoVersion := {
  version : Type;
  NewVersion : string -> option version;
  (** [Must(NewVersion s)] *)
  Must : string -> version;
  Compare : version -> version -> Z;
  Must_ok : forall s v, NewVersion s = Some v -> Must s = v
}.

(** Versions as dotted numbers, for the examples. *)
Module DottedVersions.
Definition digit (n : N) (c : ascii) : N := (10 * n + (code c - 48))%N.

Fixpoint number (n : N) (s : string) : option N :=
  match s with
  | EmptyString => Some n
  | String c s => if is_digit c then number (digit n c) s else None
  end.

Fixpoint compare (v w : list N) : Z :=
  match v, w with
  | [], [] => 0
  | [], _ => (-1)%Z
  | _, [] => 1
  | x :: v, y :: w => match (x ?= y)%N with Lt => (-1)%Z | Gt => 1%Z | Eq => compare v w end
  end.

Definition parse (s : string) : option (list N) := mapM (number 0) (Split s ".").

Definition versions : GoVersion := {|
  version := list N;
  NewVersion := parse;
  Must s := default [] (parse s);
  Compare := compare;
  Must_ok s v Hs := eq_trans (f_equal (default []) Hs) eq_refl
|}.
End DottedVersions.

(** ** Conditions: [metav1.Condition] *)
Inductive ConditionStatus := ConditionTrue | ConditionFalse | ConditionUnknown.

#[export] Instance ConditionStatus_eq_dec : EqDecision ConditionStatus.
Proof. solve_decision. Defined.

Record Condition := mkCondition {
  cond_Type : string;
  cond_Status : ConditionStatus;
  cond_Reason : string;
  cond_Message : string;
  cond_ObservedGeneration : Z;
  cond_LastTransitionTime : Z
}.

#[export] Instance Condition_eq_dec : EqDecision Condition.
Proof. solve_decision. Defined.

(** [k8s.io/apimachinery/pkg/api/meta]: condition lists.  [SetStatusCondition]
    is given the clock reading it takes for a changed status. *)
Class MetaConditions := {
  FindStatusCondition : list Condition -> string -> option Condition;
  IsStatusConditionPresentAndEqual : list Condition -> string -> ConditionStatus -> bool;
  SetStatusCondition : Z -> list Condition -> Condition -> list Condition;
  RemoveStatusCondition : list Condition -> string -> list Condition;
  FindStatusCondition_Some l t c :
    FindStatusCondition l t = Some c -> c ∈ l /\ cond_Type c = t;
  FindStatusCondition_None l t :
    FindStatusCondition l t = None -> forall c, c ∈ l -> cond_Type c <> t;
  IsStatusConditionPresentAndEqual_spec l t s :
    IsStatusConditionPresentAndEqual l t s =
      match FindStatusCondition l t with
      | Some c => bool_decide (cond_Status c = s)
      | None => false
      end;
  SetStatusCondition_same now l c :
    exists time, FindStatusCondition (SetStatusCondition now l c) (cond_Type c) =
      Some (mkCondition (cond_Type c) (cond_Status c) (cond_Reason c) (cond_Message c)
              (cond_ObservedGeneration c) time);
  SetStatusCondition_other now l c t :
    t <> cond_Type c ->
    FindStatusCondition (SetStatusCondition now l c) t = FindStatusCondition l t;
  RemoveStatusCondition_same l t : FindStatusCondition (RemoveStatusCondition l t) t = None;
  RemoveStatusCondition_other l t t' :
    t' <> t -> FindStatusCondition (RemoveStatusCondition l t) t' = FindStatusCondition l t'
}.

Section ConditionQueries.
Context `{MetaConditions}.

(** [meta.IsStatusConditionTrue] and [meta.IsStatusConditionFalse] *)
Definition IsStatusConditionTrue l t := IsStatusConditionPresentAndEqual l t ConditionTrue.
Definition IsStatusConditionFalse l t := IsStatusConditionPresentAndEqual l t ConditionFalse.
End ConditionQueries.

(** A list implementation of the interface, for the examples. *)
Module ListConditions.
Definition find (l : list Condition) (t : string) : option Condition :=
  List.find (fun c => bool_decide (cond_Type c = t)) l.

Definition is_equal (l : list Condition) (t : string) (s : ConditionStatus) : bool :=
  match find l t with Some c => bool_decide (cond_Status c = s) | None => false end.

Definition at_time (c : Condition) (time : Z) : Condition :=
  mkCondition (cond_Type c) (cond_Status c) (cond_Reason c) (cond_Message c)
    (cond_ObservedGeneration c) time.

Fixpoint set (now : Z) (l : list Condition) (c : Condition) : list Condition :=
  match l with
  | [] => [at_time c now]
  | d :: l =>
      if decide (cond_Type d = cond_Type c)
      then at_time c (if decide (cond_Status d = cond_Status c)
                      then cond_LastTransitionTime d else now) :: l
      else d :: set now l c
  end.

Definition remove (l : list Condition) (t : string) : list Condition :=
  List.filter (fun c => negb (bool_decide (cond_Type c = t))) l.

Lemma find_set_same now l c :
  exists time, find (set now l c) (cond_Type c) = Some (at_time c time).
Proof.
  unfold find. induction l as [|d l IH]; simpl.
  - exists now. by rewrite bool_decide_eq_true_2.
  - case_decide as E; simpl; [eexists; by rewrite bool_decide_eq_true_2|].
    by rewrite bool_decide_eq_false_2.
Qed.

Lemma find_set_other now l c t : t <> cond_Type c -> find (set now l c) t = find l t.
Proof.
  intros Ht. unfold find. induction l as [|d l IH]; simpl.
  - rewrite bool_decide_eq_false_2; [done|congruence].
  - case_decide as E; simpl.
    + rewrite !bool_decide_eq_false_2; [done|congruence|congruence].
    + by rewrite IH.
Qed.

Lemma find_remove_same l t : find (remove l t) t = None.
Proof.
  unfold find, remove. induction l as [|d l IH]; simpl; [done|].
  case_bool_decide as E; simpl; [done|]. by rewrite bool_decide_eq_false_2.
Qed.

Lemma find_remove_other l t t' : t' <> t -> find (remove l t) t' = find l t'.
Proof.
  intros Ht. unfold find, remove. induction l as [|d l IH]; simpl; [done|].
  case_bool_decide as E; simpl; [|by rewrite IH].
  rewrite IH. rewrite (bool_decide_eq_false_2 (cond_Type d = t')); [done|congruence].
Qed.

Definition conditions : MetaConditions.
Proof.
  refine (Build_MetaConditions find is_equal set remove _ _ _ find_set_same find_set_other
            find_remove_same find_remove_other).
  - intros l t c [Hin Ht]%List.find_some. split; [by apply list_elem_of_In|by bool_to_prop].
  - intros l t Hn c Hc. apply list_elem_of_In in Hc. pose proof (List.find_none _ _ Hn c Hc) as E.
    simpl in E. by bool_to_prop.
  - done.
Defined.
End ListConditions.

(** ** [PostgresClusterSpec] *)
Record PostgresStandbySpec := mkStandby {
  standby_Enabled : bool;
  standby_Host : string;
  standby_Port : option Z;
  standby_RepoName : string
}.

Record PatroniSpec := mkPatroni {
  DynamicConfigurationSpec : option (gmap string any);
  LeaderLeaseDurationSeconds : Z;
  SyncPeriodSeconds : Z
}.

Record ExtensionsSpec := mkExtensions {
  ext_PGStatStatements : bool;
  ext_PGStatMonitor : bool;
  ext_PGAudit : bool;
  ext_PGCron : bool;
  ext_SetUser : bool;
  ext_PGTDE_Enabled : bool;
  ext_PGTDE_WALEncryption : bool
}.

(** [v1beta1.Metadata] *)
Record Metadata := mkMetadata {
  md_Labels : gmap string string;
  md_Annotations : gmap string string
}.

(** A projection of a Secret or a ConfigMap: its name, its items (a key and the
    path of its file) and whether it is optional. *)
Record Projection := mkFileProjection {
  prj_Name : string;
  prj_Items : list (string * string);
  prj_Optional : option bool
}.

(** [corev1.VolumeProjection]; other kinds of sources by a name *)
Inductive FileSource := SecretFiles (p : Projection) | ConfigMapFiles (p : Projection) | OtherFiles (name : string).

Record PGBouncerConfiguration := mkPGBouncerConfiguration {
  pgc_Files : list FileSource;
  pgc_Global : gmap string string;
  pgc_Databases : gmap string string;
  pgc_Users : gmap string string
}.

Record PGBouncerPodSpec := mkPGBouncer {
  pgb_Replicas : option Z;
  pgb_Paused : option bool;
  pgb_Metadata : Metadata;
  pgb_Config : PGBouncerConfiguration;
  pgb_CustomTLSSecret : option Projection;
  (** the names of Secrets *)
  pgb_AdditionalTrustedCAs : list string;
  pgb_UsersSecret : option string;
  pgb_ExposeSuperusers : bool;
  pgb_Port : option Z
}.
#[export] Instance PGBouncerPodSpec_eta : Eta PGBouncerPodSpec := fun b =>
  mkPGBouncer (pgb_Replicas b) (pgb_Paused b) (pgb_Metadata b) (pgb_Config b) (pgb_CustomTLSSecret b)
    (pgb_AdditionalTrustedCAs b) (pgb_UsersSecret b) (pgb_ExposeSuperusers b) (pgb_Port b).

(** PgBouncer with the defaults of the API. *)
Definition defaultPGBouncer : PGBouncerPodSpec :=
  mkPGBouncer (Some 1%Z) None (mkMetadata ∅ ∅) (mkPGBouncerConfiguration [] ∅ ∅ ∅) None [] None false (Some 5432%Z).

Record PostgresProxySpec := mkProxy { proxy_PGBouncer : option PGBouncerPodSpec }.

Record PostgresCluster := mkCluster {
  pc_Name : string;
  pc_Namespace : string;
  pc_Labels : gmap string string;
  pc_PostgresVersion : Z;
  pc_TLSOnly : bool;
  (** [spec.monitoring], its [pgmonitor] and that one's [exporter] *)
  pc_Monitoring : option (option (option unit));
  pc_Proxy : option PostgresProxySpec;
  pc_LogicalReplicas : list string;
  pc_Authentication : option (list PostgresAuthenticationRule);
  pc_Patroni : option PatroniSpec;
  pc_Standby : option PostgresStandbySpec;
  pc_Extensions : ExtensionsSpec;
  pc_TrackLatestRestorableTime : option bool;
  (** [spec.instances[].resources.limits], in units of each resource *)
  pc_InstanceLimits : list (gmap string Z);
  pc_Conditions : list Condition
}.

#[export] Instance PostgresCluster_eta : Eta PostgresCluster := fun c =>
  mkCluster (pc_Name c) (pc_Namespace c) (pc_Labels c) (pc_PostgresVersion c) (pc_TLSOnly c)
    (pc_Monitoring c) (pc_Proxy c) (pc_LogicalReplicas c) (pc_Authentication c) (pc_Patroni c)
    (pc_Standby c) (pc_Extensions c) (pc_TrackLatestRestorableTime c) (pc_InstanceLimits c)
    (pc_Conditions c).

Definition LabelVersion : string := "pgv2.percona.com/version".

Section CompareVersion.
Context `{GoVersion}.

(** [PostgresCluster.CompareVersion] *)
Definition CompareVersion (cr : PostgresCluster) (ver : string) : Z :=
  match NewVersion (default "" (pc_Labels cr !! LabelVersion)) with
  | None => -2
  | Some crVersion => Compare crVersion (Must ver)
  end.
End CompareVersion.

(** [PostgresCluster.IsStandby] *)
Definition IsStandby (cr : PostgresCluster) : bool :=
  match pc_Standby cr with Some s => standby_Enabled s | None => false end.

(** [PostgresProxySpec.PGBouncerEnabled] *)
Definition PGBouncerEnabled (s : option PostgresProxySpec) : bool :=
  match s with
  | Some p => match proxy_PGBouncer p with
              | Some b => match pgb_Replicas b with Some n => bool_decide (n <> 0%Z) | None => true end
              | None => false
              end
  | None => false
  end.

(** [PostgresProxySpec.PGBouncerPaused] *)
Definition PGBouncerPaused (s : option PostgresProxySpec) : bool :=
  match s with
  | Some p => match proxy_PGBouncer p with
              | Some b => default false (pgb_Paused b)
              | None => false
              end
  | None => false
  end.

(** [pgmonitor.ExporterEnabled] *)
Definition ExporterEnabled (cluster : PostgresCluster) : bool :=
  match pc_Monitoring cluster with
  | None => false
  | Some None => false
  | Some (Some None) => false
  | Some (Some (Some _)) => true
  end.

(** [logicalreplica.Enabled] *)
Definition logicalreplica_Enabled (cluster : PostgresCluster) : bool :=
  negb (bool_decide (pc_LogicalReplicas cluster = [])).
