(* ===== verification/Parameters.v ===== *)
(** * PostgreSQL parameters

    Models [internal/postgres/parameters.go], [internal/postgres/huge_pages.go],
    the parameters the extension packages require and
    [internal/pgbackrest/postgres.go] (archive and restore commands). *)
From S2P Require Import Prelude GoStrings HBA Cluster.

(** ** Parameter sets *)

Record ParameterSet := mkParams { values : gmap string string }.

Record ParameterSets := mkParameters {
  MandatoryP : option ParameterSet;
  DefaultP : option ParameterSet
}.

Definition NewParameterSet : ParameterSet := mkParams ∅.

Definition AsMap (ps : ParameterSet) : gmap string string := values ps.
Definition DeepCopy (ps : ParameterSet) : ParameterSet := mkParams (AsMap ps).

Definition normalize (name : string) : string := ToLower name.

Definition Add (name value : string) (ps : ParameterSet) : ParameterSet :=
  mkParams (<[normalize name := value]> (values ps)).

Definition Get (name : string) (ps : ParameterSet) : option string := values ps !! normalize name.
Definition Has (name : string) (ps : ParameterSet) : bool := bool_decide (is_Some (Get name ps)).
Definition Value (name : string) (ps : ParameterSet) : string := default "" (Get name ps).

Definition AppendToList (name : string) (value : list string) (ps : ParameterSet) : ParameterSet :=
  let result := Value name ps in
  let result :=
    match value with
    | [] => result
    | _ => if nonempty result then result +:+ "," +:+ Join value "," else Join value ","
    end in
  Add name result ps.

(** [strings.NewReplacer("'", "''").Replace] *)
Definition escapeParameterQuotes : string -> string :=
  ReplaceAll squote (char squote +:+ char squote).

Definition param_line (k v : string) : string :=
  k +:+ " = " +:+ char squote +:+ escapeParameterQuotes v +:+ char squote +:+ char newline.

(** [ParameterSet.String] *)
Definition params_string (ps : ParameterSet) : string :=
  fold_left (fun b k => b +:+ param_line k (default "" (values ps !! k)))
    (SortedKeys (values ps)) "".

(** A string between double quotes. *)
Definition dq (s : string) : string := char dquote +:+ s +:+ char dquote.

(** ** Updating a pair of sets; a nil set is left alone *)
Definition onMandatory (f : ParameterSet -> ParameterSet) (p : ParameterSets) : ParameterSets :=
  mkParameters (f <$> MandatoryP p) (DefaultP p).
Definition onDefault (f : ParameterSet -> ParameterSet) (p : ParameterSets) : ParameterSets :=
  mkParameters (MandatoryP p) (f <$> DefaultP p).

Definition SocketDirectory : string := "/tmp/postgres".

Definition NewParameters : ParameterSets := mkParameters
  (Some (Add "ssl_ca_file" "/pgconf/tls/ca.crt"
        (Add "ssl_key_file" "/pgconf/tls/tls.key"
        (Add "ssl_cert_file" "/pgconf/tls/tls.crt"
        (Add "ssl" "on"
        (Add "unix_socket_directories" SocketDirectory NewParameterSet))))))
  (Some (Add "password_encryption" "scram-sha-256"
        (Add "jit" "off"
        (Add "wal_level" "logical" NewParameterSet)))).

(** ** Extensions *)

Definition spl : string := "shared_preload_libraries".

Definition pgstatstatements_Parameters (p : ParameterSets) : ParameterSets :=
  onMandatory (fun m => Add "pg_stat_statements.track" "all"
                          (AppendToList spl ["pg_stat_statements"] m)) p.

Definition pgstatmonitor_Parameters (p : ParameterSets) : ParameterSets :=
  onMandatory (fun m => Add "pg_stat_monitor.pgsm_query_max_len" "2048"
                          (Add "pg_stat_monitor.pgsm_enable_overflow" "off"
                          (AppendToList spl ["pg_stat_monitor"] m))) p.

Definition pgaudit_Parameters (p : ParameterSets) : ParameterSets :=
  onMandatory (AppendToList spl ["pgaudit"]) p.

Definition pgcron_Parameters (p : ParameterSets) : ParameterSets :=
  onMandatory (fun m => Add "cron.database_name" "postgres" (AppendToList spl ["pg_cron"] m)) p.

Definition setuser_Parameters (p : ParameterSets) : ParameterSets :=
  onMandatory (AppendToList spl ["set_user"]) p.

Definition PGTDEEnabled : string := "PGTDEEnabled".
Definition PGTDEVaultProviderReady : string := "PGTDEVaultProviderReady".

Definition pgtde_Parameters `{MetaConditions} (cluster : PostgresCluster) (p : ParameterSets) : ParameterSets :=
  let canEnableWALEncryption :=
    if IsStandby cluster
    then negb (IsStatusConditionFalse (pc_Conditions cluster) PGTDEEnabled)
    else IsStatusConditionTrue (pc_Conditions cluster) PGTDEEnabled &&
         IsStatusConditionTrue (pc_Conditions cluster) PGTDEVaultProviderReady in
  onMandatory (fun m =>
    let m := AppendToList spl ["pg_tde"] m in
    if ext_PGTDE_WALEncryption (pc_Extensions cluster) && canEnableWALEncryption
    then Add "pg_tde.wal_encrypt" "on" m
    else Add "pg_tde.wal_encrypt" "off" m) p.

Definition DownwardAPIMountPath : string := "/etc/database-containerinfo".

Definition pgmonitor_Parameters (cluster : PostgresCluster) (p : ParameterSets) : ParameterSets :=
  if ExporterEnabled cluster then
    onMandatory (fun m => Add "pgnodemx.kdapi_path" DownwardAPIMountPath
                            (AppendToList spl ["pg_stat_statements"; "pgnodemx"] m)) p
  else p.

(** ** Huge pages *)

Definition HugePagesRequestedOf (r : string) (cluster : PostgresCluster) : bool :=
  existsb (fun limits : gmap string Z =>
             match limits !! r with Some q => (0 <? q)%Z | None => false end)
          (pc_InstanceLimits cluster).

Definition HugePages2MiRequested := HugePagesRequestedOf "hugepages-2Mi".
Definition HugePages1GiRequested := HugePagesRequestedOf "hugepages-1Gi".

Definition HugePagesRequested (cluster : PostgresCluster) : bool :=
  HugePages2MiRequested cluster || HugePages1GiRequested cluster.

Definition SetHugePages (cluster : PostgresCluster) (p : ParameterSets) : ParameterSets :=
  if HugePagesRequested cluster
  then onDefault (Add "huge_pages" "try") p
  else onDefault (Add "huge_pages" "off") p.

(** ** Archiving and restoring WAL with pgBackRest *)

Definition DefaultStanzaName : string := "db".

(** [WALEncryptRestoreCommand]; the backslashes are those of the command. *)
Definition WALEncryptRestoreCommand (repoOption : string) : string :=
  "pg_tde_restore_encrypt %f %p " +:+
  dq ("pgbackrest --stanza=" +:+ DefaultStanzaName +:+ " archive-get %%f \" +:+ char dquote +:+
      "%%p\" +:+ char dquote +:+ repoOption).

Definition fixTimezone : string :=
  "sed -E " +:+
  dq "s/([0-9]{4}-[0-9]{2}-[0-9]{2}) ([0-9]{2}:[0-9]{2}:[0-9]{2}\.[0-9]{6}) (UTC|[\\+\\-][0-9]{2})/\1T\2\3/"
  +:+ " | sed " +:+ dq "s/UTC/Z/".

Definition extractCommitTime : string :=
  "grep -oP " +:+ dq "COMMIT \K[^;]+" +:+ " | " +:+ fixTimezone.

Definition validateCommitTime : string :=
  "grep -E " +:+
  dq "^[0-9]{4}-[0-9]{2}-[0-9]{2}T[0-9]{2}:[0-9]{2}:[0-9]{2}\.[0-9]{6}(Z|[\+\-][0-9]{2})$".

Definition updateCommandRestorableTime (archive : string) (walEncryption : bool) : string :=
  let waldump := if walEncryption then "pg_tde_waldump -k $PGDATA/pg_tde" else "pg_waldump" in
  archive +:+
  " && timestamp=$(" +:+ waldump +:+ " -r Transaction " +:+ dq "%p" +:+ " | " +:+
  extractCommitTime +:+ " | tail -n 1 | " +:+ validateCommitTime +:+ ");" +:+
  " if [ ! -z ${timestamp} ]; then echo ${timestamp} > /pgdata/latest_commit_timestamp.txt; fi".

Section PgBackRest.
Context `{GoVersion, MetaConditions}.
Context (cluster : PostgresCluster).

Definition walEncryption : bool := ext_PGTDE_WALEncryption (pc_Extensions cluster).

Definition baseArchive : string :=
  if walEncryption
  then "pg_tde_archive_decrypt %f %p " +:+
       dq ("pgbackrest --stanza=" +:+ DefaultStanzaName +:+ " archive-push %%p")
  else "pgbackrest --stanza=" +:+ DefaultStanzaName +:+ " archive-push " +:+ dq "%p".

(** Whether the archive command also records the commit time. *)
Definition tracksRestorableTime : bool :=
  if (0 <=? CompareVersion cluster "2.8.0")%Z
  then default false (pc_TrackLatestRestorableTime cluster)
  else true.

Definition archiveCommand : string :=
  if tracksRestorableTime then updateCommandRestorableTime baseArchive walEncryption
  else baseArchive.

Definition archiveGet (repoOption : string) : string :=
  if walEncryption then WALEncryptRestoreCommand repoOption
  else "pgbackrest --stanza=" +:+ DefaultStanzaName +:+ " archive-get %f " +:+ dq "%p"
       +:+ repoOption.

Definition wrapRestore (command : string) : string :=
  if (0 <=? CompareVersion cluster "2.9.0")%Z
  then "/opt/crunchy/bin/restore-command-wrapper.sh " +:+ command
  else command.

(** The user's own restore_command, when there is one. *)
Definition restoreOverride : option string :=
  match pc_Patroni cluster with
  | Some pat =>
      match DynamicConfigurationSpec pat with
      | Some conf =>
          match as_map (conf !! "postgresql") with
          | Some pg => match as_map (pg !! "parameters") with
                       | Some params => as_string (params !! "restore_command")
                       | None => None
                       end
          | None => None
          end
      | None => None
      end
  | None => None
  end.

Definition ensureSets (p : ParameterSets) : ParameterSets :=
  mkParameters (Some (default NewParameterSet (MandatoryP p)))
               (Some (default NewParameterSet (DefaultP p))).

(** [pgbackrest.PostgreSQL] *)
Definition pgbackrest_PostgreSQL (p : ParameterSets) (backupsEnabled : bool) : ParameterSets :=
  let p := ensureSets p in
  let p := if (0 <=? CompareVersion cluster "2.8.0")%Z && tracksRestorableTime
           then onMandatory (Add "track_commit_timestamp" "true") p else p in
  let p := onMandatory (Add "archive_mode" "on") p in
  let p := if backupsEnabled then onMandatory (Add "archive_command" archiveCommand) p
           else onMandatory (Add "archive_command" "true") p in
  let p := if (CompareVersion cluster "2.8.0" <? 0)%Z
           then onMandatory (Add "track_commit_timestamp" "true") p else p in
  let p := onDefault (Add "archive_timeout" "60s") p in
  let restore := default (wrapRestore (archiveGet "")) restoreOverride in
  let restoreOverridden := bool_decide (is_Some restoreOverride) in
  let p := if backupsEnabled || restoreOverridden
           then onMandatory (Add "restore_command" restore) p else p in
  match pc_Standby cluster with
  | Some s =>
      if standby_Enabled s && nonempty (standby_RepoName s) then
        let repoOption := " --repo=" +:+ TrimPrefix (standby_RepoName s) "repo" in
        let restore := if restoreOverridden then restore +:+ repoOption
                       else wrapRestore (archiveGet repoOption) in
        onMandatory (Add "restore_command" restore) p
      else p
  | None => p
  end.
End PgBackRest.

(** ** Specifications *)

(** Every name in a set is in lower case. *)
Definition wf_params (ps : ParameterSet) : Prop :=
  forall k, is_Some (values ps !! k) -> normalize k = k.

(** Parameter [n] of [ps] is the comma-separated list [l]; the empty list is an
    absent parameter. *)
Definition list_param (n : string) (ps : ParameterSet) (l : list string) : Prop :=
  Forall (fun s => nonempty s = true) l /\
  Get n ps = match l with [] => None | _ => Some (Join l ",") end.

(** The libraries a cluster must preload, in loading order. *)
Definition requiredLibraries `{MetaConditions} (cluster : PostgresCluster) : list string :=
  let ext := pc_Extensions cluster in
  (if ext_PGStatStatements ext then ["pg_stat_statements"] else []) ++
  (if ext_PGStatMonitor ext then ["pg_stat_monitor"] else []) ++
  (if ext_PGAudit ext then ["pgaudit"] else []) ++
  (if ext_PGCron ext then ["pg_cron"] else []) ++
  (if ext_SetUser ext then ["set_user"] else []) ++
  (if ext_PGTDE_Enabled ext || IsStatusConditionTrue (pc_Conditions cluster) PGTDEEnabled
   then ["pg_tde"] else []) ++
  (if ExporterEnabled cluster then ["pg_stat_statements"; "pgnodemx"] else []).

(** ** Lemmas *)

Lemma Get_Add n m v ps :
  Get n (Add m v ps) = if decide (normalize m = normalize n) then Some v else Get n ps.
Proof. unfold Get, Add. simpl. by rewrite lookup_insert. Qed.

Lemma Get_Add_ne n m v ps : normalize m <> normalize n -> Get n (Add m v ps) = Get n ps.
Proof. intros. rewrite Get_Add. by rewrite decide_False. Qed.

Lemma wf_NewParameterSet : wf_params NewParameterSet.
Proof. intros k [v Hv]. done. Qed.

Lemma wf_Add n v ps : wf_params ps -> wf_params (Add n v ps).
Proof.
  intros Hwf k Hk. unfold Add in Hk. simpl in Hk.
  destruct (decide (normalize n = k)) as [<-|Hne]; [apply ToLower_idemp|].
  rewrite lookup_insert_ne in Hk by done. by apply Hwf.
Qed.

Lemma wf_AppendToList n l ps : wf_params ps -> wf_params (AppendToList n l ps).
Proof. apply wf_Add. Qed.

#[export] Hint Resolve wf_NewParameterSet wf_Add wf_AppendToList : operator.

Lemma Join_app (l k : list string) sep :
  l <> [] -> k <> [] -> Join (l ++ k) sep = Join l sep +:+ sep +:+ Join k sep.
Proof.
  intros Hl Hk. induction l as [|s l IH]; [done|].
  destruct l as [|t l]; [simpl; by destruct k|].
  change ((s :: t :: l) ++ k) with (s :: t :: (l ++ k)).
  change (Join (s :: t :: l ++ k) sep) with (s +:+ sep +:+ Join ((t :: l) ++ k) sep).
  change (Join (s :: t :: l) sep) with (s +:+ sep +:+ Join (t :: l) sep).
  rewrite IH by done. by rewrite !app_assoc_str.
Qed.

Lemma Join_nonempty (l : list string) sep :
  l <> [] -> Forall (fun s => nonempty s = true) l -> nonempty (Join l sep) = true.
Proof.
  destruct l as [|s [|t l]]; intros Hl Hf; [done| |]; inversion Hf; subst; [done|].
  simpl. destruct s; [done|]. by rewrite app_cons_str.
Qed.

Lemma AppendToList_Get n l ps k :
  list_param n ps l -> Forall (fun s => nonempty s = true) k -> k <> [] ->
  list_param n (AppendToList n k ps) (l ++ k).
Proof.
  intros [Hl Hget] Hk Hne. split; [by apply Forall_app|].
  assert (Get n (AppendToList n k ps) = Some (Join (l ++ k) ",")) as ->.
  { unfold AppendToList. rewrite Get_Add, decide_True by done. unfold Value. rewrite Hget.
    destruct k as [|s k]; [done|].
    destruct l as [|t l]; [done|].
    cbn [from_option id]. rewrite (Join_nonempty (t :: l) ",") by done.
    by rewrite (Join_app (t :: l) (s :: k) ",") by done. }
  by destruct l, k.
Qed.

Lemma list_param_Add_ne n m v ps l :
  normalize m <> normalize n -> list_param n ps l -> list_param n (Add m v ps) l.
Proof. intros Hne [Hl Hget]. split; [done|]. by rewrite Get_Add_ne. Qed.

(** [list_param] for a possibly nil set *)
Definition olist_param (n : string) (p : ParameterSets) (l : list string) : Prop :=
  exists m, MandatoryP p = Some m /\ list_param n m l.

Lemma olist_onMandatory n p l l' f :
  olist_param n p l -> (forall m, list_param n m l -> list_param n (f m) l') ->
  olist_param n (onMandatory f p) l'.
Proof. intros (m & Hm & Hl) Hf. exists (f m). split; [simpl; by rewrite Hm | auto]. Qed.

Lemma olist_onDefault n p l f : olist_param n p l -> olist_param n (onDefault f p) l.
Proof. done. Qed.

Lemma olist_if n (b : bool) p q l l' :
  (olist_param n p l) -> (olist_param n p l -> olist_param n q (l ++ l')) ->
  olist_param n (if b then q else p) (l ++ if b then l' else []).
Proof. intros Hp Hq. destruct b; [auto | by rewrite app_nil_r]. Qed.

Ltac list_param_tac :=
  repeat match goal with
  | |- list_param _ (Add _ _ _) _ => apply list_param_Add_ne; [by vm_compute|]
  | |- list_param _ (AppendToList _ _ _) _ =>
      apply AppendToList_Get; [done | repeat constructor | done]
  | |- context [if ?b then _ else _] => destruct b
  end; try done.

(** Conditional additions: the mandatory set [pgbackrest_PostgreSQL] leaves
    behind as a chain of them. *)
Definition addIf (b : bool) (k v : string) (m : ParameterSet) : ParameterSet :=
  if b then Add k v m else m.

Lemma Get_addIf n b k v m :
  normalize k = k -> normalize n = n ->
  Get n (addIf b k v m) = if b && bool_decide (k = n) then Some v else Get n m.
Proof.
  intros Hk Hn. unfold addIf. destruct b; [|done]. rewrite Get_Add, Hk, Hn. simpl.
  by case_decide; case_bool_decide.
Qed.

Section PgBackRestLemmas.
Context `{GoVersion, MetaConditions}.
Context (cluster : PostgresCluster).

(** A standby that restores from a repository, and that repository's option. *)
Definition standbyRepo : option string :=
  match pc_Standby cluster with
  | Some s => if standby_Enabled s && nonempty (standby_RepoName s)
              then Some (" --repo=" +:+ TrimPrefix (standby_RepoName s) "repo") else None
  | None => None
  end.

Definition standbyRestore (repo : string) : string :=
  match restoreOverride cluster with
  | Some r => r +:+ repo
  | None => wrapRestore cluster (archiveGet cluster repo)
  end.

Lemma pgbackrest_chain m d backups :
  MandatoryP (pgbackrest_PostgreSQL cluster (mkParameters (Some m) d) backups) =
  Some (addIf (bool_decide (is_Some standbyRepo)) "restore_command"
          (default "" (standbyRestore <$> standbyRepo))
       (addIf (backups || bool_decide (is_Some (restoreOverride cluster))) "restore_command"
          (default (wrapRestore cluster (archiveGet cluster "")) (restoreOverride cluster))
       (addIf (CompareVersion cluster "2.8.0" <? 0)%Z "track_commit_timestamp" "true"
       (addIf true "archive_command" (if backups then archiveCommand cluster else "true")
       (addIf true "archive_mode" "on"
       (addIf ((0 <=? CompareVersion cluster "2.8.0")%Z && tracksRestorableTime cluster)
          "track_commit_timestamp" "true" m)))))).
Proof.
  unfold pgbackrest_PostgreSQL, standbyRepo, standbyRestore.
  generalize (archiveCommand cluster), (tracksRestorableTime cluster),
    (wrapRestore cluster (archiveGet cluster "")); intros ac tr wr.
  destruct ((0 <=? CompareVersion cluster "2.8.0")%Z && tr), (CompareVersion cluster "2.8.0" <? 0)%Z,
    backups, (restoreOverride cluster) as [r|], (pc_Standby cluster) as [s|]; try reflexivity;
  destruct (standby_Enabled s && nonempty (standby_RepoName s)) eqn:E;
  cbv zeta; rewrite ?E; reflexivity.
Qed.

Lemma track_commit_timestamp_eq :
  ((CompareVersion cluster "2.8.0" <? 0)%Z ||
   ((0 <=? CompareVersion cluster "2.8.0")%Z && tracksRestorableTime cluster))
  = tracksRestorableTime cluster.
Proof.
  unfold tracksRestorableTime.
  destruct (Z.leb_spec 0 (CompareVersion cluster "2.8.0")) as [Hv|Hv];
    [rewrite (proj2 (Z.ltb_ge _ _)) by lia | rewrite (proj2 (Z.ltb_lt _ _)) by lia]; done.
Qed.

Lemma pgbackrest_MandatoryP m d backups :
  exists m', MandatoryP (pgbackrest_PostgreSQL cluster (mkParameters (Some m) d) backups) = Some m' /\
    Get "archive_mode" m' = Some "on" /\
    Get "archive_command" m' = Some (if backups then archiveCommand cluster else "true") /\
    Get "track_commit_timestamp" m' =
      (if tracksRestorableTime cluster then Some "true" else Get "track_commit_timestamp" m) /\
    Get "restore_command" m' =
      match standbyRepo with
      | Some repo => Some (standbyRestore repo)
      | None =>
          if backups || bool_decide (is_Some (restoreOverride cluster))
          then Some (default (wrapRestore cluster (archiveGet cluster "")) (restoreOverride cluster))
          else Get "restore_command" m
      end.
Proof.
  rewrite pgbackrest_chain. eexists. split; [reflexivity|].
  rewrite !Get_addIf by (vm_compute; reflexivity).
  rewrite !(bool_decide_eq_false_2 (_ = _)), !(bool_decide_eq_true_2 (_ = _)) by done.
  rewrite !andb_false_r, !andb_true_r. split_and!; [done|done| |].
  - pose proof track_commit_timestamp_eq as Ht.
    by destruct (_ <? _)%Z, (_ && _); simpl in Ht; rewrite <- Ht.
  - by destruct standbyRepo.
Qed.

Lemma pgbackrest_Get_other m d backups n :
  normalize n = n ->
  n ∉ (["archive_mode"; "archive_command"; "track_commit_timestamp"; "restore_command"] : list string) ->
  exists m', MandatoryP (pgbackrest_PostgreSQL cluster (mkParameters (Some m) d) backups) = Some m' /\
             Get n m' = Get n m.
Proof.
  intros Hn Hin. rewrite pgbackrest_chain. eexists. split; [reflexivity|].
  rewrite !Get_addIf by (done || (vm_compute; reflexivity)).
  rewrite !(bool_decide_eq_false_2 (_ = n)), !andb_false_r by set_solver. done.
Qed.
End PgBackRestLemmas.

(** ** Reading a rendered set back *)

Fixpoint span_string (f : ascii -> bool) (s : string) : string * string :=
  match s with
  | EmptyString => (EmptyString, EmptyString)
  | String c s' => if f c then prod_map (String c) id (span_string f s') else (EmptyString, s)
  end.

Definition not_blank (c : ascii) : bool := negb (code c =? 32)%N.

(** One line of a configuration file: a name, an equals sign, a quoted value. *)
Definition parse_line (s : string) : option (string * string * string) :=
  let '(k, rest) := span_string not_blank s in
  let '(rest, ok) := CutPrefix rest (" = " +:+ char squote) in
  if ok then
    '(v, rest) ← lex_body squote rest;
    match rest with String c rest => if decide (c = newline) then Some (k, v, rest) else None
                  | EmptyString => None end
  else None.

Fixpoint parse_lines (n : nat) (s : string) : option (list (string * string)) :=
  match n, s with
  | _, EmptyString => Some []
  | O, _ => None
  | S n, _ => '(k, v, rest) ← parse_line s; cons (k, v) <$> parse_lines n rest
  end.

Lemma span_string_app f k s :
  all_chars f k = true -> first_not f s = true -> span_string f (k +:+ s) = (k, s).
Proof.
  intros Hk Hs. induction k as [|c k IH]; rewrite ?app_nil_l_str, ?app_cons_str.
  - destruct s as [|d s]; [done|]. simpl in *. by apply negb_true_iff in Hs as ->.
  - simpl in *. apply andb_true_iff in Hk as [-> Hk]. by rewrite IH.
Qed.

Lemma parse_line_ok k v rest :
  all_chars not_blank k = true -> parse_line (param_line k v +:+ rest) = Some (k, v, rest).
Proof.
  intros Hk. unfold parse_line, param_line, escapeParameterQuotes. rewrite !app_assoc_str.
  rewrite span_string_app by done. cbv beta iota zeta.
  rewrite <- (app_assoc_str " = " (char squote)), CutPrefix_app. cbv beta iota zeta.
  rewrite lex_body_quoted by done. done.
Qed.

Lemma fold_lines_app (f : string -> string) l acc :
  fold_left (fun b k => b +:+ f k) l acc = acc +:+ fold_left (fun b k => b +:+ f k) l EmptyString.
Proof.
  revert acc. induction l as [|k l IH]; intros acc; simpl; [by rewrite app_nil_r_str|].
  rewrite IH, (IH (EmptyString +:+ f k)), app_nil_l_str. by rewrite app_assoc_str.
Qed.

Lemma parse_lines_ok (f : string -> string) l n :
  Forall (fun k => all_chars not_blank k = true) l -> length l <= n ->
  parse_lines n (fold_left (fun b k => b +:+ param_line k (f k)) l EmptyString)
  = Some (map (fun k => (k, f k)) l).
Proof.
  intros Hl. revert n. induction Hl as [|k l Hk Hl IH]; intros n Hn; [by destruct n|].
  simpl in *. rewrite fold_lines_app, app_nil_l_str. destruct n as [|n]; [lia|].
  simpl. rewrite parse_line_ok by done. simpl. rewrite IH by lia.
  destruct (param_line k (f k)) eqn:E; [|by rewrite app_cons_str].
  exfalso. apply (f_equal String.length) in E. unfold param_line in E.
  rewrite !length_app_str in E. simpl in E. lia.
Qed.

(** ** Properties *)

(** A rendered parameter set can be read back: the lines are the
    parameters in the order of their names, each with its own value, whatever
    quotes or line breaks the values contain. *)
Theorem params_string_roundtrip (ps : ParameterSet)
    (Hnames : forall k, is_Some (values ps !! k) -> all_chars not_blank k = true) :
  StronglySorted String.le (SortedKeys (values ps)) /\
  parse_lines (size (values ps)) (params_string ps) =
  Some (map (fun k => (k, default "" (values ps !! k))) (SortedKeys (values ps))).
Proof.
  split; [apply SortedKeys_sorted|]. apply parse_lines_ok.
  - apply Forall_forall. intros k Hk. apply Hnames. by apply elem_of_SortedKeys.
  - unfold SortedKeys. rewrite merge_sort_Permutation, length_map, length_map_to_list. lia.
Qed.

Definition exampleParams : ParameterSet :=
  Add "search_path" ("a" +:+ char squote +:+ "b" +:+ char newline) (Add "JIT" "off" NewParameterSet).

Lemma params_string_roundtrip_witness :
  parse_lines 2 (params_string exampleParams) =
  Some [("jit", "off"); ("search_path", "a" +:+ char squote +:+ "b" +:+ char newline)].
Proof.
  refine (eq_trans (proj2 (params_string_roundtrip exampleParams _)) _); [|vm_compute; reflexivity].
  intros k [v Hv]. unfold exampleParams, Add in Hv. cbn [values NewParameterSet] in Hv.
  apply lookup_insert_Some in Hv as [[<- _]|[_ Hv]]; [reflexivity|].
  apply lookup_insert_Some in Hv as [[<- _]|[_ Hv]]; [reflexivity|]. discriminate Hv.
Defined.

(** Parameter names are case-insensitive and sets are closed under the
    operations: what was last added under any spelling of a name is what is
    found, other names are not affected, every stored name is in lower case,
    and [AppendToList] extends a list on the right. *)
Theorem parameter_set_laws (ps : ParameterSet) (n m v : string) (l k : list string)
    (Hwf : wf_params ps) (Hl : list_param n ps l)
    (Hk : Forall (fun s => nonempty s = true) k) (Hne : k <> []) :
  Get m (Add n v ps) = (if decide (ToLower n = ToLower m) then Some v else Get m ps) /\
  Get (ToLower n) ps = Get n ps /\
  wf_params (Add n v ps) /\ wf_params (AppendToList n k ps) /\
  AsMap (DeepCopy ps) = values ps /\
  list_param n (AppendToList n k ps) (l ++ k).
Proof.
  split_and!; [apply Get_Add | | auto with operator | auto with operator | done |
               by apply AppendToList_Get].
  unfold Get, normalize. by rewrite ToLower_idemp.
Qed.

Lemma parameter_set_laws_witness :
  Get "Shared_Preload_Libraries" (AppendToList spl ["b"; "c"] (Add spl "a" NewParameterSet))
  = Some "a,b,c".
Proof.
  refine (proj2 (proj2 (proj2 (proj2 (proj2 (proj2
    (parameter_set_laws (Add spl "a" NewParameterSet) "Shared_Preload_Libraries" spl "x" ["a"]
       ["b"; "c"] _ _ _ _))))))); [apply wf_Add, wf_NewParameterSet | | | discriminate].
  - split; [repeat constructor|]. reflexivity.
  - repeat constructor.
Defined.
