(* ===== verification/Patroni.v ===== *)
(** * PostgreSQL settings handed to Patroni

    Models [DynamicConfiguration] of [internal/patroni/config.go],
    [IgnoreSlotsMatchers] of [internal/logicalreplica/postgres.go] and the part
    of [Reconcile] in [internal/controller/postgrescluster/controller.go] that
    assembles the records and parameters. *)
From S2P Require Import Prelude GoStrings HBA Cluster Parameters.

(** [maps.Copy(dst, src)]: the entries of [src] win. *)
Definition maps_Copy {V} (dst src : gmap string V) : gmap string V := src ∪ dst.

Definition basebackupCreateReplicaMethod : string := "basebackup".
Definition pgBackRestCreateReplicaMethod : string := "pgbackrest".

Definition IgnoreSlotsMatchers (cluster : PostgresCluster) : list any :=
  if logicalreplica_Enabled cluster
  then [AMap {[ "type" := AString "logical"; "plugin" := AString "pgoutput" ]}]
  else [].

(** The value a mandatory parameter [k] takes over the [current] ones. *)
Definition mandatoryValue (current : gmap string any) (k v : string) : string :=
  if decide (k = "shared_preload_libraries") then
    let v := match as_string (current !! k) with
             | Some s => if nonempty s then s +:+ "," +:+ v else v
             | None => v
             end in
    if Contains v "citus" then "citus," +:+ v else v
  else v.

Definition mergeParameters (p : ParameterSets) (postgresql : gmap string any) : gmap string any :=
  let parameters : gmap string any :=
    match DefaultP p with Some d => AString <$> AsMap d | None => ∅ end in
  let parameters :=
    match as_map (postgresql !! "parameters") with
    | Some section => maps_Copy parameters section
    | None => parameters
    end in
  match MandatoryP p with
  | Some m => map_fold (fun k v acc => <[k := AString (mandatoryValue acc k v)]> acc)
                       parameters (AsMap m)
  | None => parameters
  end.

Section WithUnicode.
Context (unicode_LN : string -> bool).

(** The records of [spec.authentication.rules]: a raw line is kept as it is *)
Definition ruleLines (cluster : PostgresCluster) : list string :=
  match pc_Authentication cluster with
  | None => []
  | Some rules =>
      map (fun r => if nonempty (rule_HBA r) then rule_HBA r
                    else hba_string (hbaFromSpec unicode_LN (rule r))) rules
  end.

(** The strings of the user's [postgresql.pg_hba] section *)
Definition sectionLines (postgresql : gmap string any) : list string :=
  match as_list (postgresql !! "pg_hba") with
  | Some section => omap (fun v => as_string (Some v)) section
  | None => []
  end.

Definition hbaLines (cluster : PostgresCluster) (pgHBAs : HBAs)
    (postgresql : gmap string any) : list string :=
  let hba := map hba_string (Mandatory pgHBAs) ++ ruleLines cluster ++ sectionLines postgresql in
  if bool_decide (length hba = length (Mandatory pgHBAs))
  then hba ++ map hba_string (Default pgHBAs) else hba.

Definition standbySection (s : PostgresStandbySpec) (p : ParameterSets)
    (root : gmap string any) : gmap string any :=
  let standby : gmap string any :=
    match as_map (root !! "standby_cluster") with Some section => section | None => ∅ end in
  let standby := delete "restore_command" standby in
  let '(standby, methods) :=
    if nonempty (standby_Host s) then
      let standby := <["host" := AString (standby_Host s)]> standby in
      let standby := match standby_Port s with
                     | Some port => <["port" := AInt port]> standby
                     | None => standby
                     end in
      (standby, [basebackupCreateReplicaMethod])
    else (standby, []) in
  let '(standby, methods) :=
    if nonempty (standby_RepoName s) then
      (<["restore_command" := AString (default "" (Value "restore_command" <$> MandatoryP p))]> standby,
       pgBackRestCreateReplicaMethod :: methods)
    else (standby, methods) in
  <["create_replica_methods" := AList (map AString methods)]> standby.

(** [DynamicConfiguration], for a cluster whose [spec.patroni] is set; the
    code dereferences it, so it panics otherwise ([None]). *)
Definition DynamicConfiguration (cluster : PostgresCluster)
    (configuration : gmap string any) (pgHBAs : HBAs) (pgParameters : ParameterSets)
    : option (gmap string any) :=
  patroni ← pc_Patroni cluster;
  let root := configuration in
  let root := <["ttl" := AInt (LeaderLeaseDurationSeconds patroni)]> root in
  let root := <["loop_wait" := AInt (SyncPeriodSeconds patroni)]> root in
  let postgresql : gmap string any := {[ "use_slots" := ABool false ]} in
  let postgresql := match as_map (root !! "postgresql") with
                    | Some section => maps_Copy postgresql section
                    | None => postgresql
                    end in
  let parameters := mergeParameters pgParameters postgresql in
  let postgresql := <["parameters" := AMap parameters]> postgresql in
  let postgresql := <["pg_hba" := AList (map AString (hbaLines cluster pgHBAs postgresql))]> postgresql in
  let postgresql := <["use_pg_rewind" := ABool (10 <? pc_PostgresVersion cluster)%Z]> postgresql in
  let root := <["postgresql" := AMap postgresql]> root in
  let root := match pc_Standby cluster with
              | Some s => if standby_Enabled s
                          then <["standby_cluster" := AMap (standbySection s pgParameters root)]> root
                          else root
              | None => root
              end in
  Some (match IgnoreSlotsMatchers cluster with
        | [] => root
        | matchers =>
            <["ignore_slots" := AList (default [] (as_list (root !! "ignore_slots")) ++ matchers)]> root
        end).

(** ** What [Reconcile] passes to it *)

Definition clusterHBAs (cluster : PostgresCluster) : HBAs :=
  let pgHBAs := NewHBAs unicode_LN in
  let pgHBAs := pmm_PostgreSQLHBAs unicode_LN pgHBAs in
  let pgHBAs := pgmonitor_PostgreSQLHBAs unicode_LN (ExporterEnabled cluster) pgHBAs in
  let pgHBAs := pgbouncer_PostgreSQL unicode_LN (PGBouncerEnabled (pc_Proxy cluster)) pgHBAs in
  let pgHBAs := logicalreplica_PostgreSQLHBAs unicode_LN (logicalreplica_Enabled cluster) pgHBAs in
  if pc_TLSOnly cluster
  then mkHBAs (map TLSOnly (Mandatory pgHBAs)) (map TLSOnly (Default pgHBAs))
  else pgHBAs.
End WithUnicode.

Section ClusterParameters.
Context `{GoVersion, MetaConditions}.

Definition clusterParameters (cluster : PostgresCluster) (backupsSpecFound : bool)
    : ParameterSets :=
  let ext := pc_Extensions cluster in
  let p := NewParameters in
  let p := if ext_PGStatStatements ext then pgstatstatements_Parameters p else p in
  let p := if ext_PGStatMonitor ext then pgstatmonitor_Parameters p else p in
  let p := if ext_PGAudit ext then pgaudit_Parameters p else p in
  let p := if ext_PGCron ext then pgcron_Parameters p else p in
  let p := if ext_SetUser ext then setuser_Parameters p else p in
  let p := if ext_PGTDE_Enabled ext || IsStatusConditionTrue (pc_Conditions cluster) PGTDEEnabled
           then pgtde_Parameters cluster p else p in
  let p := pgbackrest_PostgreSQL cluster p backupsSpecFound in
  let p := pgmonitor_Parameters cluster p in
  SetHugePages cluster p.
End ClusterParameters.

(** ** Lemmas *)

Lemma mandatory_fold_lookup (m : gmap string string) (cur : gmap string any) k :
  map_fold (fun k v acc => <[k := AString (mandatoryValue acc k v)]> acc) cur m !! k =
  match m !! k with
  | Some v => Some (AString (mandatoryValue cur k v))
  | None => cur !! k
  end.
Proof.
  apply (map_fold_weak_ind (fun (acc : gmap string any) (m : gmap string string) => acc !! k =
    match m !! k with Some v => Some (AString (mandatoryValue cur k v)) | None => cur !! k end)).
  - by rewrite lookup_empty.
  - intros i v m' acc Hi IH. destruct (decide (i = k)) as [->|Hne].
    + rewrite !lookup_insert_eq. rewrite Hi in IH. do 2 f_equal. unfold mandatoryValue.
      by rewrite IH.
    + by rewrite !lookup_insert_ne.
Qed.

Lemma mergeParameters_lookup p postgresql k :
  mergeParameters p postgresql !! k =
  let user := as_map (postgresql !! "parameters") in
  let base : gmap string any :=
    default ∅ user ∪ (match DefaultP p with Some d => AString <$> AsMap d | None => ∅ end) in
  match (match MandatoryP p with Some m => AsMap m !! k | None => None end) with
  | Some v => Some (AString (mandatoryValue base k v))
  | None => base !! k
  end.
Proof.
  unfold mergeParameters, maps_Copy.
  destruct (as_map _) as [u|]; simpl; [|rewrite (left_id_L ∅ (∪))];
    (destruct (MandatoryP p) as [m|]; [apply mandatory_fold_lookup | done]).
Qed.

Section HBALemmas.
Context (unicode_LN : string -> bool).
Context (name_match address_match : string -> string -> bool).
Abbreviation authenticate := (authenticate name_match address_match).
Abbreviation hba_matches := (hba_matches name_match address_match).

Lemma authenticate_app l k c :
  authenticate (l ++ k) c =
  match authenticate l c with Some m => Some m | None => authenticate k c end.
Proof.
  unfold HBA.authenticate. destruct (List.find (hba_matches c) l) as [h|] eqn:E.
  - by rewrite (find_app_some _ _ _ _ E).
  - by rewrite find_app_none.
Qed.

Lemma authenticate_cons h l c :
  authenticate (h :: l) c = if hba_matches c h then Some (method h) else authenticate l c.
Proof. unfold HBA.authenticate. simpl. by destruct (hba_matches c h). Qed.

Lemma hba_matches_user_false c h :
  name_match (user h) (c_user c) = false -> hba_matches c h = false.
Proof. intros Hu. unfold HBA.hba_matches. rewrite Hu. by rewrite andb_false_r. Qed.

Lemma authenticate_other_user l c :
  Forall (fun h => name_match (user h) (c_user c) = false) l -> authenticate l c = None.
Proof.
  induction 1 as [|h l Hh Hl IH]; [done|].
  by rewrite authenticate_cons, hba_matches_user_false.
Qed.

(** No record that went through [TLSOnly] and that names its origin by
    keyword matches a plain TCP connection. *)
Lemma TLSOnly_no_plain c h :
  c_transport c = PlainTCP -> first_not (fun x => bool_decide (x = dquote)) (origin h) = true ->
  hba_matches c (TLSOnly h) = false.
Proof.
  intros Ht Hq. unfold HBA.hba_matches, origin_matches, origin_is. rewrite Ht.
  destruct (TLSOnly_origin h) as [H1 H2].
  assert (first_not (fun x => bool_decide (x = dquote)) (origin (TLSOnly h)) = true) as Hq'.
  { unfold TLSOnly. by case_decide. }
  assert (forall v, origin (TLSOnly h) <> quote v) as Hne.
  { intros v Heq. destruct (quote_first v) as [s Hs]. by rewrite Heq, Hs in Hq'. }
  by rewrite !bool_decide_eq_false_2.
Qed.

Lemma authenticate_TLSOnly l c :
  c_transport c = PlainTCP ->
  Forall (fun h => first_not (fun x => bool_decide (x = dquote)) (origin h) = true) l ->
  authenticate (map TLSOnly l) c = None.
Proof.
  intros Ht. induction 1 as [|h l Hh Hl IH]; [done|]. simpl.
  by rewrite authenticate_cons, TLSOnly_no_plain.
Qed.
End HBALemmas.

(** The records before [spec.tlsOnly] is applied. *)
Definition plainHBAs (unicode_LN : string -> bool) (cluster : PostgresCluster) : HBAs :=
  logicalreplica_PostgreSQLHBAs unicode_LN (logicalreplica_Enabled cluster)
    (pgbouncer_PostgreSQL unicode_LN (PGBouncerEnabled (pc_Proxy cluster))
      (pgmonitor_PostgreSQLHBAs unicode_LN (ExporterEnabled cluster)
        (pmm_PostgreSQLHBAs unicode_LN (NewHBAs unicode_LN)))).

Lemma clusterHBAs_eq u cluster :
  clusterHBAs u cluster =
  if pc_TLSOnly cluster
  then mkHBAs (map TLSOnly (Mandatory (plainHBAs u cluster))) (map TLSOnly (Default (plainHBAs u cluster)))
  else plainHBAs u cluster.
Proof. done. Qed.

Lemma plainHBAs_Mandatory u cluster :
  Mandatory (plainHBAs u cluster) =
  Mandatory (NewHBAs u) ++ monitoringHBAs u pmm_MonitoringUser ++
  (if ExporterEnabled cluster then monitoringHBAs u pgmonitor_MonitoringUser else []) ++
  (if PGBouncerEnabled (pc_Proxy cluster) then pgbouncer_postgresqlHBAs u else []) ++
  (if logicalreplica_Enabled cluster
   then Mandatory (logicalreplica_PostgreSQLHBAs u true (mkHBAs [] [])) else []).
Proof.
  unfold plainHBAs, logicalreplica_PostgreSQLHBAs, pgbouncer_PostgreSQL, pgmonitor_PostgreSQLHBAs.
  destruct (logicalreplica_Enabled cluster), (PGBouncerEnabled (pc_Proxy cluster)),
    (ExporterEnabled cluster); reflexivity.
Qed.

Lemma plainHBAs_Default u cluster : Default (plainHBAs u cluster) = Default (NewHBAs u).
Proof.
  unfold plainHBAs, logicalreplica_PostgreSQLHBAs, pgbouncer_PostgreSQL, pgmonitor_PostgreSQLHBAs.
  by destruct (logicalreplica_Enabled cluster), (PGBouncerEnabled (pc_Proxy cluster)),
    (ExporterEnabled cluster).
Qed.

Lemma plainHBAs_keyword_origins u cluster :
  Forall (fun h => first_not (fun x => bool_decide (x = dquote)) (origin h) = true)
    (Mandatory (plainHBAs u cluster) ++ Default (plainHBAs u cluster)).
Proof.
  rewrite plainHBAs_Mandatory, plainHBAs_Default.
  destruct (ExporterEnabled cluster), (PGBouncerEnabled (pc_Proxy cluster)),
    (logicalreplica_Enabled cluster); repeat (constructor; [by vm_compute|]); constructor.
Qed.

Lemma origin_matches_hostssl h t :
  origin h = "hostssl" -> origin_matches h t = bool_decide (t = TLSTCP).
Proof. unfold origin_matches, origin_is. intros ->. by destruct t. Qed.

Lemma origin_matches_host h t :
  origin h = "host" -> origin_matches h t = bool_decide (t <> UnixSocket).
Proof. unfold origin_matches, origin_is. intros ->. by destruct t. Qed.

Lemma NewHBAs_Mandatory_app u l :
  Mandatory (NewHBAs u) ++ l =
  Method "peer" (Users u "postgres" [] (Local NewHBA)) ::
  Replication (Method "cert" (Users u ReplicationUser [] (TLS NewHBA))) ::
  Databases u "postgres" [] (Method "cert" (Users u ReplicationUser [] (TLS NewHBA))) ::
  Method "reject" (Users u ReplicationUser [] (TCP NewHBA)) :: l.
Proof. done. Qed.

(** PostgreSQL's matching of a name field and of an address field: the keyword
    all matches everything, a quoted name that is not a regular expression
    matches that name only. *)
Definition name_match_spec (name_match address_match : string -> string -> bool) : Prop :=
  (forall n, name_match "all" n = true) /\
  (forall m n, HasPrefix m "/" = false -> name_match (quote m) n = bool_decide (m = n)) /\
  (forall a, address_match "all" a = true).

Section ServiceUsers.
Context (unicode_LN : string -> bool) (name_match address_match : string -> string -> bool).
Context (Hspec : name_match_spec name_match address_match).
Context (c : connection) (Hphys : c_physical_replication c = false).
Abbreviation authenticate := (authenticate name_match address_match).

Lemma quoted_user_other u :
  HasPrefix u "/" = false -> c_user c <> u -> name_match (quoteUser unicode_LN u) (c_user c) = false.
Proof.
  destruct Hspec as (_ & Hq & _). intros Hu Hne. unfold quoteUser. rewrite Hu, Hq by done.
  by rewrite bool_decide_eq_false_2.
Qed.

(** Records of another user decide nothing. *)
Lemma authenticate_skip u hs l :
  Forall (fun h => user h = quoteUser unicode_LN u) hs -> HasPrefix u "/" = false ->
  c_user c <> u -> authenticate (hs ++ l) c = authenticate l c.
Proof.
  intros Hhs Hu Hne. rewrite authenticate_app, authenticate_other_user; [done|].
  eapply Forall_impl; [exact Hhs|]. intros h ->. by apply quoted_user_other.
Qed.

(** A TLS record followed by a reject record, both for the user of [c]. *)
Lemma authenticate_TLS_or_reject u l m :
  HasPrefix u "/" = false -> c_user c = u -> c_transport c <> UnixSocket ->
  authenticate (Method m (Users unicode_LN u [] (TLS NewHBA)) ::
                Method "reject" (Users unicode_LN u [] (TCP NewHBA)) :: l) c
  = Some (if decide (c_transport c = TLSTCP) then m else "reject").
Proof.
  destruct Hspec as (Hall & Hq & Haddr). intros Hu Hc Ht.
  rewrite !authenticate_cons. unfold hba_matches, database_matches.
  rewrite origin_matches_hostssl, origin_matches_host, Hphys by done. simpl.
  unfold quoteUser. rewrite Hu, !Hall, !Hq, !Haddr, Hc by done.
  rewrite (bool_decide_eq_true_2 (u = u)) by done.
  by destruct (c_transport c).
Qed.

Lemma authenticate_replication_records l :
  c_user c = ReplicationUser -> c_transport c <> UnixSocket ->
  authenticate (Mandatory (NewHBAs unicode_LN) ++ l) c =
  Some (if decide (c_transport c = TLSTCP /\ c_database c = "postgres") then "cert" else "reject").
Proof.
  destruct Hspec as (Hall & Hq & Haddr). intros Hu Ht.
  rewrite NewHBAs_Mandatory_app, !authenticate_cons.
  rewrite hba_matches_user_false by (apply quoted_user_other; [done | by rewrite Hu]).
  unfold hba_matches, database_matches.
  rewrite !origin_matches_hostssl, origin_matches_host, Hphys by done.
  change (quoteUser unicode_LN ReplicationUser) with (quote ReplicationUser).
  cbn [database user address method Method Databases Users TLS TCP setOrigin NewHBA AllUsers
       AllNetworks AllDatabases fold_left Replication].
  change (quoteUser unicode_LN ReplicationUser) with (quote ReplicationUser).
  change (quoteDatabase unicode_LN "postgres") with (quote "postgres").
  rewrite !Hall, !Hq, !Haddr, Hu, !(bool_decide_eq_true_2 (ReplicationUser = _)) by done.
  destruct (c_transport c); [done| |];
    destruct (decide (c_database c = "postgres")) as [->|Hdb]; try done.
  rewrite (bool_decide_eq_false_2 ("postgres" = _)) by done.
  by rewrite decide_False by tauto.
Qed.
End ServiceUsers.

Lemma authenticate_skip_NewHBAs u nm am c l :
  name_match_spec nm am -> c_user c <> "postgres" -> c_user c <> ReplicationUser ->
  authenticate nm am (Mandatory (NewHBAs u) ++ l) c = authenticate nm am l c.
Proof.
  intros Hspec H1 H2. rewrite NewHBAs_Mandatory_app, !authenticate_cons.
  rewrite !hba_matches_user_false
    by (apply (quoted_user_other u _ _ Hspec); done). done.
Qed.

Lemma monitoring_users u m : Forall (fun h => user h = quoteUser u m) (monitoringHBAs u m).
Proof. repeat constructor. Qed.

Lemma exporter_users u (b : bool) :
  Forall (fun h => user h = quoteUser u pgmonitor_MonitoringUser)
    (if b then monitoringHBAs u pgmonitor_MonitoringUser else []).
Proof. destruct b; [apply monitoring_users | constructor]. Qed.

Lemma pgbouncer_users u (b : bool) :
  Forall (fun h => user h = quoteUser u pgbouncer_postgresqlUser)
    (if b then pgbouncer_postgresqlHBAs u else []).
Proof. destruct b; repeat constructor. Qed.

(** Any user but the operator's monitoring and replication users passes the
    records in front of PgBouncer's. *)
Lemma authenticate_skip_front u nm am c (b : bool) l :
  name_match_spec nm am -> c_user c ∉ (["postgres"; ReplicationUser; pmm_MonitoringUser;
    pgmonitor_MonitoringUser] : list string) ->
  authenticate nm am (Mandatory (NewHBAs u) ++ monitoringHBAs u pmm_MonitoringUser ++
    (if b then monitoringHBAs u pgmonitor_MonitoringUser else []) ++ l) c = authenticate nm am l c.
Proof.
  intros Hspec Hu. rewrite authenticate_skip_NewHBAs by (done || set_solver).
  rewrite (authenticate_skip u _ _ Hspec c pmm_MonitoringUser) by
    (apply monitoring_users || done || set_solver).
  by rewrite (authenticate_skip u _ _ Hspec c pgmonitor_MonitoringUser) by
    (apply exporter_users || done || set_solver).
Qed.

(** ** Properties *)

(** Who may connect over TCP as one of the operator's own users, whatever
    records follow the mandatory ones, when [spec.tlsOnly] is not set: the
    replication user needs TLS and a certificate and only reaches the postgres
    database, PgBouncer's and the logical replication users need TLS and a
    SCRAM password; anything else those users try is rejected.  (Physical
    replication connections are the subject of the next property.) *)
Theorem service_users_need_TLS (unicode_LN : string -> bool)
    (name_match address_match : string -> string -> bool)
    (Hspec : name_match_spec name_match address_match)
    (cluster : PostgresCluster) (l : list HostBasedAuthentication) (c : connection)
    (Htls : pc_TLSOnly cluster = false)
    (Htcp : c_transport c <> UnixSocket) (Hphys : c_physical_replication c = false) :
  let decision :=
    authenticate name_match address_match (Mandatory (clusterHBAs unicode_LN cluster) ++ l) c in
  (c_user c = ReplicationUser ->
     decision = Some (if decide (c_transport c = TLSTCP /\ c_database c = "postgres")
                      then "cert" else "reject")) /\
  (c_user c = pgbouncer_postgresqlUser -> PGBouncerEnabled (pc_Proxy cluster) = true ->
     decision = Some (if decide (c_transport c = TLSTCP) then "scram-sha-256" else "reject")) /\
  (c_user c = logicalreplica_ReplicationUser -> logicalreplica_Enabled cluster = true ->
     decision = Some (if decide (c_transport c = TLSTCP) then "scram-sha-256" else "reject")).
Proof.
  intros decision. subst decision. rewrite clusterHBAs_eq, Htls, plainHBAs_Mandatory.
  rewrite <- !app_assoc. split_and!; intros Hu.
  - by apply authenticate_replication_records.
  - intros ->. rewrite authenticate_skip_front by (done || by rewrite Hu; apply (bool_decide_unpack _)).
    by apply authenticate_TLS_or_reject.
  - intros ->. rewrite authenticate_skip_front by (done || by rewrite Hu; apply (bool_decide_unpack _)).
    rewrite (authenticate_skip unicode_LN _ _ Hspec c pgbouncer_postgresqlUser)
      by (apply pgbouncer_users || done || by rewrite Hu).
    simpl. rewrite authenticate_cons. unfold hba_matches at 1, database_matches.
    rewrite Hphys. simpl. rewrite andb_false_r. by apply authenticate_TLS_or_reject.
Qed.

(** A matching of names that satisfies the specification, for the examples. *)
Definition plain_match (field n : string) : bool :=
  bool_decide (field = "all") || bool_decide (field = quote n).

Lemma plain_match_spec : name_match_spec plain_match plain_match.
Proof.
  unfold plain_match. split_and!; try done. intros m n _.
  rewrite (bool_decide_eq_false_2 (quote m = "all"))
    by (destruct (quote_first m) as [s ->]; done).
  simpl. apply bool_decide_ext. split; [apply (inj quote) | by intros ->].
Qed.

(** A cluster that runs PgBouncer and logical replicas, for the examples. *)
Definition exampleCluster (tlsOnly : bool) : PostgresCluster := mkCluster "hippo" "ns" ∅ 17 tlsOnly
  None (Some (mkProxy (Some defaultPGBouncer))) ["lr"] None (Some (mkPatroni None 30 10))
  None (mkExtensions true true false false false false false) None [] [].

Definition exampleConn (u : string) : connection := mkConn PlainTCP false "app" u "10.0.0.1".

Lemma service_users_need_TLS_witness :
  authenticate plain_match plain_match
    (Mandatory (clusterHBAs (fun _ => false) (exampleCluster false)) ++ [])
    (exampleConn ReplicationUser) = Some "reject".
Proof.
  exact (proj1 (service_users_need_TLS (fun _ => false) plain_match plain_match plain_match_spec
                  (exampleCluster false) [] (exampleConn ReplicationUser) eq_refl
                  ltac:(discriminate) eq_refl) eq_refl).
Defined.

Lemma authenticate_plain_replication nm am l c :
  c_transport c = PlainTCP -> c_physical_replication c = true ->
  Forall (fun h => database h <> "replication" \/ origin h = "hostssl") l ->
  authenticate nm am l c = None.
Proof.
  intros Ht Hp. induction 1 as [|h l Hh Hl IH]; [done|]. rewrite authenticate_cons.
  unfold hba_matches, database_matches. rewrite Ht, Hp. destruct Hh as [Hh|Hh].
  - by rewrite (bool_decide_eq_false_2 _ Hh), andb_false_r.
  - by rewrite origin_matches_hostssl.
Qed.

Lemma plainHBAs_no_plain_replication u cluster :
  Forall (fun h => database h <> "replication" \/ origin h = "hostssl")
    (Mandatory (plainHBAs u cluster) ++ Default (plainHBAs u cluster)).
Proof.
  rewrite plainHBAs_Mandatory, plainHBAs_Default.
  destruct (ExporterEnabled cluster), (PGBouncerEnabled (pc_Proxy cluster)),
    (logicalreplica_Enabled cluster);
    repeat (constructor; [first [by right | by left]|]); constructor.
Qed.

Lemma plaintext_undecided (u : string -> bool) nm am cluster c :
  c_transport c = PlainTCP -> pc_TLSOnly cluster = true \/ c_physical_replication c = true ->
  authenticate nm am (Mandatory (clusterHBAs u cluster)) c = None /\
  authenticate nm am (Default (clusterHBAs u cluster)) c = None.
Proof.
  intros Ht Hcase. rewrite clusterHBAs_eq.
  pose proof (plainHBAs_keyword_origins u cluster) as [Hm Hd]%Forall_app.
  pose proof (plainHBAs_no_plain_replication u cluster) as [Hm' Hd']%Forall_app.
  destruct (pc_TLSOnly cluster).
  - split; by apply authenticate_TLSOnly.
  - destruct Hcase; [done|]. split; by eapply authenticate_plain_replication.
Qed.

(** Connections over TCP without TLS, when [spec.tlsOnly] is set or the
    connection is a physical replication one.  The records the operator
    generates accept none of them: alone they reject the connection.  They do
    not reject it either when records of the user follow: those decide alone,
    so the reject records for the operator's own users protect them only when
    [spec.tlsOnly] is not set and the connection is not a replication one. *)
Theorem plaintext_decided_by_user_records (unicode_LN : string -> bool)
    (name_match address_match : string -> string -> bool)
    (cluster : PostgresCluster) (c : connection) (l : list HostBasedAuthentication)
    (Hplain : c_transport c = PlainTCP)
    (Hcase : pc_TLSOnly cluster = true \/ c_physical_replication c = true) :
  let hbas := clusterHBAs unicode_LN cluster in
  authenticate name_match address_match (Mandatory hbas ++ Default hbas) c = None /\
  authenticate name_match address_match (Mandatory hbas ++ l) c =
  authenticate name_match address_match l c.
Proof.
  intros hbas. destruct (plaintext_undecided unicode_LN name_match address_match cluster c Hplain Hcase)
    as [Hm Hd]. rewrite !authenticate_app. subst hbas. by rewrite Hm, Hd.
Qed.

Definition trustRule : PostgresHBARule := mkRule "host" "trust" [] [] ∅.

(** With [spec.tlsOnly], one rule of the user lets the logical replication
    superuser in without TLS and without a password. *)
Lemma plaintext_decided_by_user_records_witness :
  authenticate plain_match plain_match
    (Mandatory (clusterHBAs (fun _ => false) (exampleCluster true)) ++
     [hbaFromSpec (fun _ => false) trustRule])
    (exampleConn logicalreplica_ReplicationUser) = Some "trust".
Proof.
  rewrite (proj2 (plaintext_decided_by_user_records (fun _ => false) plain_match plain_match
                    (exampleCluster true) (exampleConn logicalreplica_ReplicationUser)
                    [hbaFromSpec (fun _ => false) trustRule] eq_refl (or_introl eq_refl))).
  vm_compute. reflexivity.
Defined.

(** The user's [postgresql] section, with the operator's default for slots. *)
Definition userPostgresql (configuration : gmap string any) : gmap string any :=
  default ∅ (as_map (configuration !! "postgresql")) ∪ {[ "use_slots" := ABool false ]}.

Lemma userPostgresql_lookup configuration k :
  k <> "use_slots" ->
  userPostgresql configuration !! k = default ∅ (as_map (configuration !! "postgresql")) !! k.
Proof.
  intros Hk. unfold userPostgresql. rewrite lookup_union, lookup_singleton_ne by done.
  by rewrite (right_id_L None (∪)).
Qed.

(** The [postgresql] section and every other key of the result. *)
Lemma DynamicConfiguration_sections u cluster configuration h p root :
  DynamicConfiguration u cluster configuration h p = Some root ->
  let pg := userPostgresql configuration in
  as_map (root !! "postgresql") =
    Some (<["use_pg_rewind" := ABool (10 <? pc_PostgresVersion cluster)%Z]>
         (<["pg_hba" := AList (map AString (hbaLines u cluster h pg))]>
         (<["parameters" := AMap (mergeParameters p pg)]> pg))) /\
  (forall k, k ∉ (["ttl"; "loop_wait"; "postgresql"; "standby_cluster"; "ignore_slots"] : list string) ->
     root !! k = configuration !! k).
Proof.
  intros Hok pg. unfold DynamicConfiguration in Hok.
  destruct (pc_Patroni cluster) as [patroni|]; [|done]. simpl in Hok. injection Hok as <-.
  rewrite !lookup_insert_ne by done.
  assert (hbaLines u cluster h (<["parameters" := AMap (mergeParameters p pg)]> pg)
          = hbaLines u cluster h pg) as <-.
  { unfold hbaLines, sectionLines. by rewrite lookup_insert_ne. }
  subst pg. unfold userPostgresql, maps_Copy.
  destruct (as_map (configuration !! "postgresql")) as [sec|]; simpl;
    rewrite ?(left_id_L ∅ (∪)); (split; [|intros k Hk]);
    destruct (IgnoreSlotsMatchers cluster), (pc_Standby cluster) as [s|];
    try destruct (standby_Enabled s);
    rewrite ?lookup_insert_ne by (done || set_solver); rewrite ?lookup_insert_eq; done.
Qed.

(** The pg_hba section [DynamicConfiguration] renders is the mandatory
    records, then the rules of [spec.authentication], then the strings of the
    user's own section, in that order; the default records come last and only
    when the user gave neither rules nor strings. *)
Theorem pg_hba_sections (unicode_LN : string -> bool) (cluster : PostgresCluster)
    (configuration : gmap string any) (pgHBAs : HBAs) (p : ParameterSets) (root : gmap string any)
    (Hok : DynamicConfiguration unicode_LN cluster configuration pgHBAs p = Some root) :
  let rules := ruleLines unicode_LN cluster in
  let strings := sectionLines (default ∅ (as_map (configuration !! "postgresql"))) in
  exists postgresql,
    as_map (root !! "postgresql") = Some postgresql /\
    postgresql !! "pg_hba" = Some (AList (map AString
      (map hba_string (Mandatory pgHBAs) ++ rules ++ strings ++
       (if decide (rules = [] /\ strings = []) then map hba_string (Default pgHBAs) else [])))).
Proof.
  intros rules strings. apply DynamicConfiguration_sections in Hok as [Hpg _].
  eexists. split; [exact Hpg|]. rewrite lookup_insert_ne, lookup_insert_eq by done.
  do 3 f_equal. unfold hbaLines.
  assert (sectionLines (userPostgresql configuration) = strings) as ->.
  { unfold sectionLines. by rewrite userPostgresql_lookup. }
  fold rules. rewrite !length_app, length_map.
  case_bool_decide as Hlen; case_decide as Hnil.
  - by rewrite <- !app_assoc.
  - destruct Hnil. destruct rules, strings; simpl in Hlen; by try lia.
  - destruct Hnil as [-> ->]. simpl in Hlen. lia.
  - by rewrite app_nil_r.
Qed.

Lemma pg_hba_sections_witness :
  exists postgresql : gmap string any,
    postgresql !! "pg_hba" = Some (AList (map AString
      [hba_string (Method "scram-sha-256" (TLS NewHBA)); "host all all all md5"])).
Proof.
  destruct (pg_hba_sections (fun _ => false) (exampleCluster false)
    {[ "postgresql" := AMap {[ "pg_hba" := AList [AString "host all all all md5"; AInt 3] ]} ]}
    (mkHBAs [Method "scram-sha-256" (TLS NewHBA)] []) (mkParameters None None) _ eq_refl)
    as (pg & _ & Hhba).
  exists pg. exact Hhba.
Defined.

(** Which value every parameter ends up with: a mandatory parameter
    overrides the user's value, except that the libraries to preload are
    appended to the user's (and citus is put in front); any other parameter
    keeps the user's value or else takes the operator's default. *)
Theorem parameters_precedence (unicode_LN : string -> bool) (cluster : PostgresCluster)
    (configuration : gmap string any) (pgHBAs : HBAs) (m d : ParameterSet) (root : gmap string any)
    (Hok : DynamicConfiguration unicode_LN cluster configuration pgHBAs
             (mkParameters (Some m) (Some d)) = Some root) (k : string) :
  let user : gmap string any := default ∅ (as_map
    (default ∅ (as_map (configuration !! "postgresql")) !! "parameters")) in
  exists postgresql parameters,
    as_map (root !! "postgresql") = Some postgresql /\
    as_map (postgresql !! "parameters") = Some parameters /\
    parameters !! k =
      match values m !! k with
      | Some v =>
          if decide (k = "shared_preload_libraries") then
            let prefix := match as_string (match user !! k with
                                           | Some x => Some x
                                           | None => AString <$> values d !! k end) with
                          | Some s => if nonempty s then s +:+ "," else ""
                          | None => ""
                          end in
            Some (AString ((if Contains (prefix +:+ v) "citus" then "citus," else "") +:+ prefix +:+ v))
          else Some (AString v)
      | None => match user !! k with
                | Some x => Some x
                | None => AString <$> values d !! k
                end
      end.
Proof.
  intros user. apply DynamicConfiguration_sections in Hok as [Hpg _].
  eexists _, _. split; [exact Hpg|]. split.
  { rewrite !lookup_insert_ne, lookup_insert_eq by done. reflexivity. }
  rewrite mergeParameters_lookup. cbv zeta. unfold AsMap. cbn [MandatoryP DefaultP].
  rewrite userPostgresql_lookup by done. fold user.
  assert ((user ∪ (AString <$> values d)) !! k =
    match user !! k with Some x => Some x | None => AString <$> values d !! k end) as Hbase.
  { rewrite lookup_union, lookup_fmap. by destruct (user !! k), (values d !! k). }
  destruct (values m !! k) as [v|]; [|exact Hbase].
  unfold mandatoryValue. rewrite Hbase. case_decide; [|done].
  destruct (as_string _) as [s|]; [destruct (nonempty s)|]; rewrite ?app_nil_l_str, ?app_assoc_str;
    by destruct (Contains _ _).
Qed.

Lemma parameters_precedence_witness :
  exists parameters : gmap string any,
    parameters !! "shared_preload_libraries" = Some (AString "citus,citus,timescaledb,pgaudit").
Proof.
  destruct (parameters_precedence (fun _ => false) (exampleCluster false)
    {[ "postgresql" := AMap {[ "parameters" :=
         AMap {[ "shared_preload_libraries" := AString "citus,timescaledb" ]} ]} ]}
    (mkHBAs [] []) (AppendToList spl ["pgaudit"] NewParameterSet) NewParameterSet _ eq_refl
    "shared_preload_libraries") as (pg & ps & _ & _ & Hk).
  exists ps. rewrite Hk. vm_compute. reflexivity.
Defined.

Lemma olist_ext n p l (b : bool) l' f :
  (forall q k, olist_param n q k -> olist_param n (f q) (k ++ l')) -> olist_param n p l ->
  olist_param n (if b then f p else p) (l ++ if b then l' else []).
Proof. intros Hf Hp. destruct b; [auto | by rewrite app_nil_r]. Qed.

Ltac olist_tac :=
  intros q k Hq; eapply olist_onMandatory; [exact Hq|]; intros m Hm; cbv zeta; list_param_tac.

(** The libraries a cluster preloads are those its extensions need, in
    this order (pg_stat_statements ahead of pg_stat_monitor), and the
    parameter is absent when none is needed. *)
Theorem preloaded_libraries `{GoVersion, MetaConditions} (cluster : PostgresCluster) (backups : bool) :
  olist_param spl (clusterParameters cluster backups) (requiredLibraries cluster).
Proof.
  unfold clusterParameters, requiredLibraries. rewrite !app_assoc. unfold SetHugePages.
  assert (forall p l, olist_param spl p l ->
    olist_param spl (pgbackrest_PostgreSQL cluster p backups) l) as Hbackrest.
  { intros p l (m & Hm & Hl & Hget). destruct p as [mp d]. simpl in Hm. subst mp.
    destruct (pgbackrest_Get_other cluster m d backups spl) as (m' & Hm' & Hget');
      [done | by apply (bool_decide_unpack _)|].
    exists m'. split; [done|]. split; [done|]. by rewrite Hget', Hget. }
  assert (forall p l, olist_param spl p l ->
    olist_param spl (pgmonitor_Parameters cluster p)
      (l ++ if ExporterEnabled cluster then ["pg_stat_statements"; "pgnodemx"] else [])) as Hmon.
  { intros p l Hp. unfold pgmonitor_Parameters.
    destruct (ExporterEnabled cluster); [|by rewrite app_nil_r]. revert p l Hp. olist_tac. }
  destruct (HugePagesRequested cluster); apply olist_onDefault, Hmon, Hbackrest.
  all: rewrite <- (app_nil_l (if ext_PGStatStatements _ then _ else _)).
  all: repeat (apply olist_ext; [olist_tac|]).
  all: eexists; split; [reflexivity|]; split; [constructor|]; reflexivity.
Qed.

(** The mandatory parameters in [names] are those of [p]'s set. *)
Definition same_mandatory (names : list string) (p q : ParameterSets) : Prop :=
  exists m m', MandatoryP p = Some m /\ MandatoryP q = Some m' /\
    Forall (fun n => Get n m' = Get n m) names.

Lemma same_mandatory_refl names p m : MandatoryP p = Some m -> same_mandatory names p p.
Proof. intros Hm. exists m, m. split_and!; [done..|]. by apply Forall_true. Qed.

Lemma same_mandatory_trans names p q r :
  same_mandatory names p q -> same_mandatory names q r -> same_mandatory names p r.
Proof.
  intros (m & m1 & Hm & Hm1 & H1) (m1' & m2 & Hm1' & Hm2 & H2). simplify_eq.
  exists m, m2. split_and!; [done..|]. rewrite Forall_forall in *. intros n Hn.
  by rewrite H2, H1.
Qed.

Lemma same_mandatory_if names p (b : bool) f m :
  MandatoryP p = Some m ->
  (forall q k, MandatoryP q = Some k -> same_mandatory names q (f q)) ->
  same_mandatory names p (if b then f p else p).
Proof. intros Hm Hf. destruct b; [by eapply Hf | by eapply same_mandatory_refl]. Qed.

Lemma same_mandatory_on names p m f :
  MandatoryP p = Some m -> Forall (fun n => Get n (f m) = Get n m) names ->
  same_mandatory names p (onMandatory f p).
Proof. intros Hm Hf. exists m, (f m). split_and!; [done| |done]. simpl. by rewrite Hm. Qed.

Definition archiveNames : list string :=
  ["archive_mode"; "archive_command"; "track_commit_timestamp"; "restore_command"].

(** Adding a parameter with another name, under conditions. *)
Ltac archive_names_tac :=
  repeat (constructor;
    [unfold AppendToList; repeat case_match; rewrite ?Get_Add_ne by (by vm_compute); reflexivity|]);
  constructor.

Lemma extensions_archiveNames `{MetaConditions} (cluster : PostgresCluster) :
  Forall (fun f => forall p m, MandatoryP p = Some m -> same_mandatory archiveNames p (f p))
    [pgstatstatements_Parameters; pgstatmonitor_Parameters; pgaudit_Parameters; pgcron_Parameters;
     setuser_Parameters; pgtde_Parameters cluster; pgmonitor_Parameters cluster;
     SetHugePages cluster].
Proof.
  repeat apply Forall_cons_2; try apply Forall_nil_2; intros p m Hm;
    try (eapply same_mandatory_on; [exact Hm|]; archive_names_tac).
  - unfold pgmonitor_Parameters. case_match; [|by eapply same_mandatory_refl].
    eapply same_mandatory_on; [exact Hm|]; archive_names_tac.
  - unfold SetHugePages. exists m, m. split_and!; [done | by case_match |].
    by apply Forall_true.
Qed.

(** The archiving parameters on every branch.  WAL is archived with
    pgBackRest (through the decrypting wrapper when WAL is encrypted) or thrown
    away when backups are disabled; commit timestamps are tracked when the
    archive command records them; restore_command is the user's or
    pgBackRest's, is taken from the standby's repository on a standby, and
    stays unset when backups are disabled and the user gave none. *)
Theorem archiving_parameters `{GoVersion, MetaConditions} (cluster : PostgresCluster) (backups : bool) :
  exists m, MandatoryP (clusterParameters cluster backups) = Some m /\
    Value "archive_mode" m = "on" /\
    Value "archive_command" m = (if backups then archiveCommand cluster else "true") /\
    Get "track_commit_timestamp" m = (if tracksRestorableTime cluster then Some "true" else None) /\
    Get "restore_command" m =
      match standbyRepo cluster with
      | Some repo => Some (standbyRestore cluster repo)
      | None =>
          if backups || bool_decide (is_Some (restoreOverride cluster))
          then Some (default (wrapRestore cluster (archiveGet cluster "")) (restoreOverride cluster))
          else None
      end.
Proof.
  pose proof (extensions_archiveNames cluster) as Hext. rewrite !Forall_cons in Hext.
  destruct Hext as (Hss & Hsm & Hau & Hcr & Hsu & Htde & Hmon & Hhp & _).
  unfold clusterParameters.
  match goal with |- context [pgbackrest_PostgreSQL cluster ?p backups] => set (p0 := p) end.
  assert (same_mandatory archiveNames NewParameters p0) as (m & m0 & Hm & Hm0 & Hsame).
  { assert (forall p q (b : bool) f, same_mandatory archiveNames p q ->
      (forall r k, MandatoryP r = Some k -> same_mandatory archiveNames r (f r)) ->
      same_mandatory archiveNames p (if b then f q else q)) as Hstep.
    { intros p q b f Hp Hf. eapply same_mandatory_trans; [exact Hp|].
      destruct Hp as (? & m' & _ & Hm' & _). by eapply same_mandatory_if. }
    subst p0. repeat (apply Hstep; [|assumption]). by eapply same_mandatory_refl. }
  destruct p0 as [mp d]. simpl in Hm0. subst mp.
  destruct (pgbackrest_MandatoryP cluster m0 d backups) as (m1 & Hm1 & Ham & Hac & Htr & Hre).
  destruct (Hmon _ _ Hm1) as (m1' & m2 & Hm1' & Hm2 & Hs2).
  destruct (Hhp _ _ Hm2) as (m2' & m3 & Hm2' & Hm3 & Hs3). simplify_eq.
  exists m3. split; [exact Hm3|]. unfold archiveNames in *. rewrite !Forall_cons in *.
  destruct Hs2 as (Hs2a & Hs2b & Hs2c & Hs2d & _), Hs3 as (Hs3a & Hs3b & Hs3c & Hs3d & _),
    Hsame as (_ & _ & Hsc & Hsd & _).
  unfold Value. rewrite Hs3a, Hs2a, Hs3b, Hs2b, Hs3c, Hs2c, Hs3d, Hs2d, Ham, Hac, Htr, Hre, Hsc, Hsd.
  by injection Hm as <-.
Qed.

Lemma standbySection_spec s p root (configuration : gmap string any) :
  root !! "standby_cluster" = configuration !! "standby_cluster" ->
  let sec := standbySection s p root in
  sec !! "restore_command" =
    (if nonempty (standby_RepoName s)
     then Some (AString (default "" (Value "restore_command" <$> MandatoryP p))) else None) /\
  sec !! "create_replica_methods" = Some (AList (map AString
    ((if nonempty (standby_RepoName s) then ["pgbackrest"] else []) ++
     (if nonempty (standby_Host s) then ["basebackup"] else [])))) /\
  (nonempty (standby_Host s) = true -> sec !! "host" = Some (AString (standby_Host s))) /\
  (forall k, k ∉ (["restore_command"; "host"; "port"; "create_replica_methods"] : list string) ->
     sec !! k = default ∅ (as_map (configuration !! "standby_cluster")) !! k).
Proof.
  intros Hroot. unfold standbySection. rewrite Hroot. cbv zeta. split_and!; [| | |intros k Hk; rewrite !not_elem_of_cons in Hk;
    destruct Hk as (H1 & H2 & H3 & H4 & _)];
    destruct (nonempty (standby_Host s)), (nonempty (standby_RepoName s)), (standby_Port s);
    intros; rewrite ?lookup_insert_ne, ?lookup_delete_ne, ?lookup_insert_eq, ?lookup_delete_eq by done;
    try done; by destruct (as_map _).
Qed.

(** The standby section.  A standby cluster names its host (and port)
    and its replica creation methods, pgBackRest first; restore_command is the
    operator's when a repository is given and is removed otherwise, whatever
    the user configured; other keys of the user stay.  Without
    [spec.standby] the user's section is left alone. *)
Theorem standby_cluster_section (unicode_LN : string -> bool) (cluster : PostgresCluster)
    (configuration : gmap string any) (h : HBAs) (p : ParameterSets) (root : gmap string any)
    (Hok : DynamicConfiguration unicode_LN cluster configuration h p = Some root) :
  match pc_Standby cluster with
  | Some s =>
      if standby_Enabled s then
        exists sec, root !! "standby_cluster" = Some (AMap sec) /\
          sec !! "restore_command" =
            (if nonempty (standby_RepoName s)
             then Some (AString (default "" (Value "restore_command" <$> MandatoryP p))) else None) /\
          sec !! "create_replica_methods" = Some (AList (map AString
            ((if nonempty (standby_RepoName s) then ["pgbackrest"] else []) ++
             (if nonempty (standby_Host s) then ["basebackup"] else [])))) /\
          (nonempty (standby_Host s) = true -> sec !! "host" = Some (AString (standby_Host s))) /\
          (forall k, k ∉ (["restore_command"; "host"; "port"; "create_replica_methods"] : list string) ->
             sec !! k = default ∅ (as_map (configuration !! "standby_cluster")) !! k)
      else root !! "standby_cluster" = configuration !! "standby_cluster"
  | None => root !! "standby_cluster" = configuration !! "standby_cluster"
  end.
Proof.
  unfold DynamicConfiguration in Hok.
  destruct (pc_Patroni cluster) as [patroni|]; [|done]. cbn [mbind option_bind] in Hok.
  injection Hok as Hok. apply (f_equal (fun r : gmap string any => r !! "standby_cluster")) in Hok.
  destruct (pc_Standby cluster) as [s|]; [destruct (standby_Enabled s)|];
    destruct (IgnoreSlotsMatchers cluster); rewrite <- Hok, ?lookup_insert_ne, ?lookup_insert_eq by done;
    try done.
  all: eexists; split; [reflexivity|].
  all: apply standbySection_spec; by rewrite ?lookup_insert_ne.
Qed.

Lemma standby_cluster_section_witness :
  exists sec : gmap string any, sec !! "restore_command" = None /\ sec !! "host" = Some (AString "h").
Proof.
  destruct (standby_cluster_section (fun _ => false)
    (mkCluster "hippo" "ns" ∅ 17 false None None [] None (Some (mkPatroni None 30 10))
       (Some (mkStandby true "h" None EmptyString)) (mkExtensions false false false false false false false)
       None [] [])
    {[ "standby_cluster" := AMap {[ "restore_command" := AString "cp" ]} ]}
    (mkHBAs [] []) (mkParameters None None) _ eq_refl) as (sec & _ & Hrc & _ & Hhost & _).
  exists sec. split; [exact Hrc | exact (Hhost eq_refl)].
Defined.

(** ** What modelling showed *)

(** A rule of [spec.authentication] for local connections is rendered with an
    address, which a local record does not have: its origin is quoted, so
    [String] does not recognise it. *)
Lemma local_rule_has_address (unicode_LN : string -> bool) (m : string) :
  m <> "password" ->
  hba_string (hbaFromSpec unicode_LN (mkRule "local" m [] [] ∅)) =
  TrimSpace (quote "local" +:+ " all all all " +:+ m +:+ " ").
Proof.
  intros Hm. unfold hbaFromSpec. cbn [rule_Method rule_Databases rule_Users rule_Options Connection].
  destruct (decide (m = "password")) as [|_]; [done|].
  destruct (decide (∅ = ∅)) as [_|[]]; [|done].
  unfold hba_string, Origin, setOrigin, Method. cbn [origin database user address method options].
  destruct (decide (quote "local" = "local")) as [Hq|_]; [by vm_compute in Hq|].
  f_equal.
Qed.

(** A database or user whose name starts with a slash and contains a caret is
    rendered with an unterminated bracket expression. *)
Lemma slash_name_with_caret :
  quoteUser (fun _ => false) "/a^b" = quote "/^[/]a[^]b$".
Proof. reflexivity. Qed.

(** A user's parameter spelled in another case is not overridden by the
    mandatory one: both reach Patroni. *)
Lemma parameters_keep_other_spelling :
  let user := {[ "parameters" := AMap {[ "SSL" := AString "off" ]} ]} : gmap string any in
  mergeParameters NewParameters user !! "SSL" = Some (AString "off") /\
  mergeParameters NewParameters user !! "ssl" = Some (AString "on").
Proof. intros user. rewrite !mergeParameters_lookup. split; vm_compute; reflexivity. Qed.
