(* ===== verification/Prog.v ===== *)
(** * Programs that call an environment

    Controller code is a sequence of calls to the Kubernetes API and to other
    services, whose answers it cannot predict.  Such code is a value of [prog]:
    a tree of calls whose continuation depends on the answer.  Nothing is
    assumed about the answers unless a theorem says so: [exec] ranges over
    every sequence of answers, failures and stale data included, and [run]
    executes a program against a concrete handler, for examples.

    [wps G h p Q] says that [p], started after the calls of [h], only makes
    calls that [G] allows at that point and ends in a history and a result
    that satisfy [Q], whatever the environment answers. *)
From S2P Require Import Prelude.

Section Prog.
Context {Op : Type} {Resp : Op -> Type}.

Inductive prog (A : Type) : Type :=
| Ret (a : A)
| Call (o : Op) (k : Resp o -> prog A).

Inductive event : Type := Ev (o : Op) (r : Resp o).

Definition trace : Type := list event.

End Prog.

Arguments prog {Op} Resp A.
Arguments Ret {Op Resp A} a.
Arguments Call {Op Resp A} o k.
Arguments event {Op} Resp.
Arguments trace {Op} Resp.

Section Semantics.
Context {Op : Type} {Resp : Op -> Type}.
Abbreviation prog := (prog Resp).
Abbreviation trace := (trace Resp).

Fixpoint bind {A B} (p : prog A) (f : A -> prog B) : prog B :=
  match p with
  | Ret a => f a
  | Call o k => Call o (fun r => bind (k r) f)
  end.

Definition call (o : Op) : prog (Resp o) := Call o Ret.

(** Every finished execution: its calls with their answers, and its result. *)
Fixpoint exec {A} (p : prog A) (tr : trace) (a : A) : Prop :=
  match p with
  | Ret b => tr = [] /\ a = b
  | Call o k => exists r tr', tr = Ev o r :: tr' /\ exec (k r) tr' a
  end.

Definition ev_op (e : event Resp) : Op := let '(Ev o _) := e in o.

(** Execution against a handler with a state. *)
Fixpoint run {W A} (h : forall o, W -> W * Resp o) (p : prog A) (w : W) : W * trace * A :=
  match p with
  | Ret a => (w, [], a)
  | Call o k =>
      let '(w, r) := h o w in
      let '(w, tr, a) := run h (k r) w in
      (w, Ev o r :: tr, a)
  end.

(** Safety and partial correctness with the history of calls. *)
Fixpoint wps {A} (G : trace -> Op -> Prop) (h : trace) (p : prog A) (Q : trace -> A -> Prop) : Prop :=
  match p with
  | Ret a => Q h a
  | Call o k => G h o /\ forall r, wps G (h ++ [Ev o r]) (k r) Q
  end.

(** Correctness of the results alone. *)
Definition wp {A} (h : trace) (p : prog A) (Q : trace -> A -> Prop) : Prop :=
  wps (fun _ _ => True) h p Q.

Lemma run_exec {W A} h (p : prog A) (w : W) :
  let '(_, tr, a) := run h p w in exec p tr a.
Proof.
  revert w. induction p as [a|o k IH]; intros w; simpl; [done|].
  destruct (h o w) as [w' r]. specialize (IH r w').
  destruct (run h (k r) w') as [[w'' tr] a]. by exists r, tr.
Qed.

Lemma wps_mono {A} (G G' : trace -> Op -> Prop) h (p : prog A) (Q Q' : trace -> A -> Prop) :
  (forall h o, G h o -> G' h o) -> (forall h a, Q h a -> Q' h a) -> wps G h p Q -> wps G' h p Q'.
Proof.
  intros HG HQ. revert h. induction p as [a|o k IH]; intros h; simpl; [auto|].
  intros [Ho Hk]. split; auto.
Qed.

Lemma wps_conseq {A} G h (p : prog A) (Q Q' : trace -> A -> Prop) :
  wps G h p Q -> (forall h a, Q h a -> Q' h a) -> wps G h p Q'.
Proof. intros Hp HQ. eapply wps_mono; [|exact HQ|exact Hp]. auto. Qed.

Lemma wps_bind {A B} G h (p : prog A) (f : A -> prog B) Q :
  wps G h (bind p f) Q <-> wps G h p (fun h a => wps G h (f a) Q).
Proof.
  revert h. induction p as [a|o k IH]; intros h; simpl; [done|].
  split; intros [Ho Hk]; (split; [done|]); intros r; by apply IH.
Qed.

Lemma wps_call G h o Q :
  wps G h (call o) Q <-> G h o /\ forall r, Q (h ++ [Ev o r]) r.
Proof. done. Qed.

(** [wps] and executions: results, and every call along the way. *)
Lemma wps_exec {A} G h (p : prog A) Q tr a :
  wps G h p Q -> exec p tr a -> Q (h ++ tr) a.
Proof.
  revert h tr. induction p as [b|o k IH]; simpl; intros h tr Hp Hex.
  - destruct Hex as [-> ->]. by rewrite app_nil_r.
  - destruct Hp as [_ Hp], Hex as (r & tr' & -> & Hex).
    specialize (IH r _ _ (Hp r) Hex). by rewrite <- app_assoc in IH.
Qed.

Lemma wps_exec_calls {A} G h (p : prog A) Q tr a pre e post :
  wps G h p Q -> exec p tr a -> tr = pre ++ e :: post -> G (h ++ pre) (ev_op e).
Proof.
  revert h tr pre. induction p as [b|o k IH]; simpl; intros h tr pre Hp Hex Heq.
  - destruct Hex as [-> _]. by destruct pre.
  - destruct Hp as [Ho Hp], Hex as (r & tr' & -> & Hex).
    destruct pre as [|e' pre]; injection Heq as <- Htr.
    + by rewrite app_nil_r.
    + specialize (IH r (h ++ [Ev o r]) tr' pre (Hp r) Hex Htr). by rewrite <- app_assoc in IH.
Qed.

Lemma wp_exec {A} (p : prog A) Q tr a : wp [] p Q -> exec p tr a -> Q tr a.
Proof. apply wps_exec. Qed.

(** The history only grows. *)
Lemma wps_prefix {A} G h (p : prog A) (Q : trace -> A -> Prop) :
  wps G h p Q -> wps G h p (fun h' a => h `prefix_of` h' /\ Q h' a).
Proof.
  assert (Hgen : forall h0, h0 `prefix_of` h -> wps G h p Q ->
            wps G h p (fun h' a => h0 `prefix_of` h' /\ Q h' a)).
  { revert h. induction p as [a|o k IH]; intros h h0 Hp; simpl; [done|].
    intros [Ho Hk]. split; [done|]. intros r. apply IH; [|done]. by apply prefix_app_r. }
  by apply Hgen.
Qed.

(** What holds of every later history holds at every call. *)
Lemma wps_invariant {A} (G : trace -> Op -> Prop) (I : trace -> Prop) h (p : prog A)
    (Q : trace -> A -> Prop) :
  (forall h', h `prefix_of` h' -> I h') -> wps G h p Q -> wps (fun h o => I h /\ G h o) h p Q.
Proof.
  revert h. induction p as [a|o k IH]; intros h HI; simpl; [done|]. intros [Ho Hk]. split.
  - split; [by apply HI|done].
  - intros r. apply IH; [|done]. intros h' Hp. apply HI. etransitivity; [|done]. by apply prefix_app_r.
Qed.

(** Two properties of the same program. *)
Lemma wps_and {A} (G1 G2 : trace -> Op -> Prop) h (p : prog A) (Q1 Q2 : trace -> A -> Prop) :
  wps G1 h p Q1 -> wps G2 h p Q2 ->
  wps (fun h o => G1 h o /\ G2 h o) h p (fun h a => Q1 h a /\ Q2 h a).
Proof.
  revert h. induction p as [a|o k IH]; intros h; simpl; [done|].
  intros [H1 K1] [H2 K2]. split; [done|]. intros r. by apply IH.
Qed.

(** A part of a program sees only its own part of the history. *)
Definition on_suffix {A : Type} (h1 : trace) (P : trace -> A -> Prop) (h : trace) (a : A) : Prop :=
  exists h2, h = h1 ++ h2 /\ P h2 a.

Lemma wps_suffix {A} G h1 h2 (p : prog A) (Q : trace -> A -> Prop) :
  wps G h2 p Q -> wps (on_suffix h1 G) (h1 ++ h2) p (on_suffix h1 Q).
Proof.
  revert h2. induction p as [a|o k IH]; intros h2; simpl; [by exists h2|].
  intros [Ho Hk]. split; [by exists h2|]. intros r. rewrite <- app_assoc. by apply IH.
Qed.

(** A program that starts with an empty history of its own. *)
Lemma wps_own {A} G h (p : prog A) (Q : trace -> A -> Prop) :
  wps G [] p Q -> wps (on_suffix h G) h p (on_suffix h Q).
Proof. intros Hp. pose proof (wps_suffix _ h [] _ _ Hp) as Hs. by rewrite app_nil_r in Hs. Qed.

(** Composition of executions. *)
Lemma exec_bind {A B} (p : prog A) (f : A -> prog B) tr b :
  exec (bind p f) tr b <-> exists tr1 a tr2, tr = tr1 ++ tr2 /\ exec p tr1 a /\ exec (f a) tr2 b.
Proof.
  revert tr. induction p as [a|o k IH]; simpl; intros tr.
  - split; [intros Hex; by exists [], a, tr|]. by intros (? & ? & ? & -> & [-> ->] & Hex).
  - split.
    + intros (r & tr' & -> & (tr1 & a & tr2 & -> & H1 & H2)%IH).
      exists (Ev o r :: tr1), a, tr2. split_and!; [done| |done]. by exists r, tr1.
    + intros (tr1 & a & tr2 & -> & (r & tr' & -> & H1) & H2).
      exists r, (tr' ++ tr2). split; [done|]. apply IH. by exists tr', a, tr2.
Qed.

Lemma exec_call_bind {A} o (r : Resp o) (k : Resp o -> prog A) tr a :
  exec (k r) tr a -> exec (bind (call o) k) (Ev o r :: tr) a.
Proof. intros Hex. by exists r, tr. Qed.

#[export] Instance wps_Proper {A} (G : trace -> Op -> Prop) h (p : prog A) :
  Proper (pointwise_relation _ (pointwise_relation _ iff) ==> iff) (wps G h p).
Proof.
  intros Q Q' HQ. split; intros H; eapply wps_conseq; try exact H; intros; by apply HQ.
Qed.
End Semantics.

(** Sequencing, and the early return on an error that Go code writes after
    almost every call. *)
Declare Scope prog_scope.
Delimit Scope prog_scope with prog.

Notation "'let!' x ':=' p 'in' k" := (bind p (fun x => k))
  (at level 10, x pattern, p at level 100, k at level 200) : prog_scope.

#[global] Open Scope prog_scope.

(** The rule for one more step of a [wps] goal. *)
Ltac wps_step :=
  match goal with
  | |- wps _ _ (bind _ _) _ => apply wps_bind
  | |- wps _ _ (call _) _ => apply wps_call; split; [|intros ?]
  | |- wps _ _ (Ret _) _ => simpl
  | |- wps _ _ (Call _ _) _ => simpl; split; [|intros ?]
  end.
