(* ===== verification/Errors.v ===== *)
(** * Go errors

    An error value is what the code can observe of it: an answer of the
    Kubernetes API with its reason, a package-level sentinel, a message, or a
    wrapped error ([errors.Wrap]).  [Is] is [errors.Is] against a sentinel and
    the [IsNotFound] family are those of [k8s.io/apimachinery/pkg/api/errors];
    all of them look through wrapping, as documented. *)
From S2P Require Import Prelude GoStrings.

Inductive api_reason := NotFound | AlreadyExists | Conflict | OtherReason (r : string).

Inductive error :=
| ApiError (reason : api_reason)
| Sentinel (name : string)
| New (msg : string)
| Wrap (msg : string) (e : error).

#[export] Instance api_reason_eq_dec : EqDecision api_reason.
Proof. solve_decision. Defined.

#[export] Instance error_eq_dec : EqDecision error.
Proof. solve_decision. Defined.

Fixpoint reason_of (e : error) : option api_reason :=
  match e with
  | ApiError r => Some r
  | Wrap _ e => reason_of e
  | _ => None
  end.

Definition IsNotFound (e : error) : bool := bool_decide (reason_of e = Some NotFound).
Definition IsAlreadyExists (e : error) : bool := bool_decide (reason_of e = Some AlreadyExists).
(** [IsForbidden] *)
Definition IsForbidden (e : error) : bool := bool_decide (reason_of e = Some (OtherReason "Forbidden")).
Definition IsConflict (e : error) : bool := bool_decide (reason_of e = Some Conflict).

Fixpoint Is (e : error) (sentinel : string) : bool :=
  match e with
  | Sentinel s => bool_decide (s = sentinel)
  | Wrap _ e => Is e sentinel
  | _ => false
  end.

(** [client.IgnoreNotFound] and [client.IgnoreAlreadyExists] on a returned error *)
Definition IgnoreNotFound (e : option error) : option error :=
  match e with Some e => if IsNotFound e then None else Some e | None => None end.
Definition IgnoreAlreadyExists (e : option error) : option error :=
  match e with Some e => if IsAlreadyExists e then None else Some e | None => None end.

(** A pair (value, error) of which the code uses the value only when the error
    is nil. *)
Inductive result (A : Type) := Ok (a : A) | Err (e : error).
Arguments Ok {A} a.
Arguments Err {A} e.

Definition err_of {A} (r : result A) : option error :=
  match r with Ok _ => None | Err e => Some e end.

Lemma Wrap_transparent msg e :
  IsNotFound (Wrap msg e) = IsNotFound e /\ IsConflict (Wrap msg e) = IsConflict e /\
  forall s, Is (Wrap msg e) s = Is e s.
Proof. done. Qed.

Lemma Is_not_api s e : Is e s = true -> reason_of e = None.
Proof. induction e; simpl; auto; done. Qed.
