(* ===== verification/Naming.v ===== *)
(** * Names, labels, selectors and DNS names

    Models [internal/naming] (annotations.go, labels.go, selectors.go, names.go,
    dns.go) and [percona/naming].  Label selectors are those of
    [k8s.io/apimachinery]: their matching is the interface [LabelMatching].
    The random and hash-encoding functions of
    [k8s.io/apimachinery/pkg/util/rand] are arguments. *)
From S2P Require Import Prelude GoStrings Cluster Errors.

(** ** Constants *)

Definition PrefixPercona : string := "percona.com/".
Definition PrefixPerconaInternal : string := "internal." +:+ PrefixPercona.
Definition PrefixPerconaPGV2 : string := "pgv2.percona.com/".
Definition PrefixCrunchy : string := "postgres-operator.crunchydata.com/".
Definition labelPrefix : string := "postgres-operator.crunchydata.com/".
Definition perconaLabelPrefix : string := "pgv2.percona.com/".
Definition appK8sPrefix : string := "app.kubernetes.io/".
Definition LabelPerconaComponent : string := appK8sPrefix +:+ "component".
Definition LabelPerconaManagedBy : string := appK8sPrefix +:+ "managed-by".
Definition LabelPerconaPartOf : string := appK8sPrefix +:+ "part-of".
Definition LabelPerconaName : string := appK8sPrefix +:+ "name".
Definition LabelPerconaInstance : string := appK8sPrefix +:+ "instance".
Definition LabelPerconaManagedByValue : string := "percona-postgresql-operator".
Definition LabelCluster : string := labelPrefix +:+ "cluster".
Definition LabelInstance : string := labelPrefix +:+ "instance".
Definition LabelInstanceSet : string := labelPrefix +:+ "instance-set".
Definition LabelRepoName : string := labelPrefix +:+ "name".
Definition LabelPatroni : string := labelPrefix +:+ "patroni".
Definition LabelRole : string := labelPrefix +:+ "role".
Definition LabelClusterCertificate : string := labelPrefix +:+ "cluster-certificate".
Definition LabelData : string := labelPrefix +:+ "data".
Definition LabelMoveJob : string := labelPrefix +:+ "move-job".
Definition LabelMovePGBackRestRepoDir : string := labelPrefix +:+ "move-pgbackrest-repo-dir".
Definition LabelMovePGDataDir : string := labelPrefix +:+ "move-pgdata-dir".
Definition LabelMovePGWalDir : string := labelPrefix +:+ "move-pgwal-dir".
Definition LabelPGBackRest : string := labelPrefix +:+ "pgbackrest".
Definition LabelPGBackRestBackup : string := labelPrefix +:+ "pgbackrest-backup".
Definition LabelPGBackRestConfig : string := labelPrefix +:+ "pgbackrest-config".
Definition LabelPGBackRestDedicated : string := labelPrefix +:+ "pgbackrest-dedicated".
Definition LabelPGBackRestRepo : string := labelPrefix +:+ "pgbackrest-repo".
Definition LabelPGBackRestRepoVolume : string := labelPrefix +:+ "pgbackrest-volume".
Definition LabelPGBackRestCronJob : string := labelPrefix +:+ "pgbackrest-cronjob".
Definition LabelPGBackRestRestore : string := labelPrefix +:+ "pgbackrest-restore".
Definition LabelPGBackRestRestoreConfig : string := labelPrefix +:+ "pgbackrest-restore-config".
Definition LabelPGMonitorDiscovery : string := labelPrefix +:+ "crunchy-postgres-exporter".
Definition LabelPostgresUser : string := labelPrefix +:+ "pguser".
Definition LabelStartupInstance : string := labelPrefix +:+ "startup-instance".
Definition RolePrimary : string := "primary".
Definition RoleReplica : string := "replica".
Definition RolePatroniLeader : string := "primary".
Definition RolePatroniLeaderDeprecated : string := "master".
Definition RolePatroniReplica : string := "replica".
Definition RolePGBouncer : string := "pgbouncer".
Definition RolePGAdmin : string := "pgadmin".
Definition RolePostgresData : string := "pgdata".
Definition RolePostgresUser : string := "pguser".
Definition RolePostgresWAL : string := "pgwal".
Definition RoleMonitoring : string := "monitoring".
Definition RoleSnapshot : string := "snapshot".
Definition RoleTablespace : string := "tablespace".
Definition LabelCrunchyBridgeClusterPostgresRole : string := labelPrefix +:+ "cbc-pgrole".
Definition RoleCrunchyBridgeClusterPostgresRole : string := "cbc-pgrole".
Definition DataPGAdmin : string := "pgadmin".
Definition DataPGBackRest : string := "pgbackrest".
Definition DataPostgres : string := "postgres".
Definition BackupManual : string := "manual".
Definition BackupReplicaCreate : string := "replica-create".
Definition BackupScheduled : string := "scheduled".
Definition LabelStandalonePGAdmin : string := labelPrefix +:+ "pgadmin".
Definition Finalizer : string := labelPrefix +:+ "finalizer".
Definition PatroniSwitchover : string := labelPrefix +:+ "trigger-switchover".
Definition PGBackRestBackup : string := labelPrefix +:+ "pgbackrest-backup".
Definition PGBackRestBackupJobCompletion : string := labelPrefix +:+ "pgbackrest-backup-job-completion".
Definition PGBackRestConfigHash : string := labelPrefix +:+ "pgbackrest-hash".
Definition PGBackRestRestore : string := labelPrefix +:+ "pgbackrest-restore".
Definition PGBackRestIPVersion : string := labelPrefix +:+ "pgbackrest-ip-version".
Definition PostgresExporterCollectorsAnnotation : string := labelPrefix +:+ "postgres-exporter-collectors".
Definition CrunchyBridgeClusterAdoptionAnnotation : string := labelPrefix +:+ "adopt-bridge-cluster".
Definition AutoCreateUserSchemaAnnotation : string := labelPrefix +:+ "autoCreateUserSchema".
Definition AuthorizeBackupRemovalAnnotation : string := labelPrefix +:+ "authorizeBackupRemoval".
Definition DefaultContainerAnnotation : string := "kubectl.kubernetes.io/default-container".
Definition OverrideConfigAnnotation : string := perconaLabelPrefix +:+ "override-config".
Definition SuggestedPGBackRestRepoVolumeSizeAnnotationPrefix : string := "suggested-pgbackrest-".
Definition TDEInstalledAnnotation : string := perconaLabelPrefix +:+ "tde-installed".
Definition TDEWALEncryptionAnnotation : string := perconaLabelPrefix +:+ "tde-wal-encryption".
Definition AnnotationPGBackrestBackup : string := PrefixPerconaPGV2 +:+ "pgbackrest-backup".
Definition AnnotationPGBackrestBackupJobName : string := AnnotationPGBackrestBackup +:+ "-job-name".
Definition AnnotationPGBackrestBackupJobType : string := AnnotationPGBackrestBackup +:+ "-job-type".
Definition AnnotationPGBackRestRestore : string := PrefixPerconaPGV2 +:+ "pgbackrest-restore".
Definition AnnotationPMMSecretHash : string := PrefixPerconaPGV2 +:+ "pmm-secret-hash".
Definition AnnotationMonitorUserSecretHash : string := PrefixPerconaPGV2 +:+ "monitor-user-secret-hash".
Definition AnnotationEnvVarsSecretHash : string := PrefixPerconaPGV2 +:+ "env-secret-config-hash".
Definition AnnotationLogCollectorConfigHash : string := PrefixPerconaPGV2 +:+ "logcollector-config-hash".
Definition AnnotationBackupInProgress : string := PrefixPerconaPGV2 +:+ "backup-in-progress".
Definition AnnotationClusterBootstrapRestore : string := PrefixPerconaPGV2 +:+ "cluster-bootstrap-restore".
Definition AnnotationPatroniVersion : string := PrefixPerconaPGV2 +:+ "patroni-version".
Definition AnnotationCustomPatroniVersion : string := PrefixPerconaPGV2 +:+ "custom-patroni-version".
Definition AnnotationReplicationMainSite : string := PrefixPerconaPGV2 +:+ "replication-main-site".
Definition AnnotationInstanceSuspended : string := PrefixPerconaPGV2 +:+ "instance-suspended".
Definition AnnotationSnapshotRestore : string := PrefixPerconaPGV2 +:+ "snapshot-restore".
Definition AnnotationPVCsPreparedAt : string := PrefixPerconaPGV2 +:+ "pvcs-prepared-at".
Definition ConditionClusterIsReadyForBackup : string := "ReadyForBackup".
Definition ConditionAPIGroupMigration : string := "APIGroupMigration".
Definition ConditionStandbyLagging : string := "StandbyLagging".
Definition ConditionReadyForLogicalReplication : string := "ReadyForLogicalReplication".
Definition FinalizerDeletePVC : string := PrefixPercona +:+ "delete-pvc".
Definition FinalizerDeleteSSL : string := PrefixPercona +:+ "delete-ssl".
Definition FinalizerStopWatchers : string := PrefixPerconaInternal +:+ "stop-watchers".
Definition FinalizerDeleteBackups : string := PrefixPercona +:+ "delete-backups".
Definition FinalizerStopWatchersDeprecated : string := PrefixPercona +:+ "stop-watchers".
Definition FinalizerDeleteRestore : string := PrefixPerconaInternal +:+ "delete-restore".
Definition FinalizerDeleteBackup : string := PrefixPerconaInternal +:+ "delete-backup".
Definition FinalizerSnapshotInProgress : string := PrefixPercona +:+ "snapshot-in-progress".
Definition FinalizerKeepJob : string := PrefixPerconaInternal +:+ "keep-job".
Definition FinalizerSnapshotRestore : string := PrefixPerconaInternal +:+ "snapshot-restore".
Definition LabelOperatorVersion : string := PrefixPerconaPGV2 +:+ "version".
Definition LabelLogicalReplica : string := PrefixPerconaPGV2 +:+ "logical-replica".

Definition ContainerDatabase : string := "database".

(** ** [percona/naming/prefix.go] *)
Definition replacePrefix (s oldPrefix newPrefix : string) : string :=
  let '(s', found) := CutPrefix s oldPrefix in
  if found then newPrefix +:+ s' else s'.

Definition ToCrunchyAnnotation (annotation : string) : string :=
  replacePrefix annotation PrefixPerconaPGV2 PrefixCrunchy.

(** ** [annotations.go]: requested repository volume sizes *)
Definition SuggestedPGBackRestRepoVolumeSizeAnnotation (repoName : string) : string :=
  SuggestedPGBackRestRepoVolumeSizeAnnotationPrefix +:+ repoName +:+ "-pvc-size".

Definition PGBackRestRepoFromVolumeSizeAnnotation (annotation : string) : string * bool :=
  if negb (HasPrefix annotation SuggestedPGBackRestRepoVolumeSizeAnnotationPrefix) ||
     negb (HasSuffix annotation "-pvc-size")
  then ("", false)
  else
    let repoName :=
      TrimSuffix (TrimPrefix annotation SuggestedPGBackRestRepoVolumeSizeAnnotationPrefix)
        "-pvc-size" in
    (repoName, nonempty repoName).

(** ** Label sets and selectors *)
Inductive SelectorOp := OpIn (values : list string) | OpExists.

Record LabelSelector := mkSelector {
  MatchLabels : gmap string string;
  MatchExpressions : list (string * SelectorOp)
}.

(** A [labels.Selector], by the way it was made: from a [labels.Set] or from a
    [metav1.LabelSelector]. *)
Inductive Selector := SetSelector (s : gmap string string) | ParsedSelector (s : LabelSelector).

(** [k8s.io/apimachinery/pkg/labels] and [metav1.LabelSelectorAsSelector] *)
Class LabelMatching := {
  labels_Merge : gmap string string -> gmap string string -> gmap string string;
  (** the error of an ill-formed selector, for example one with a bad value *)
  selectorError : LabelSelector -> option error;
  Matches : Selector -> gmap string string -> bool;
  labels_Merge_spec m1 m2 k :
    labels_Merge m1 m2 !! k = match m2 !! k with Some v => Some v | None => m1 !! k end;
  Matches_set s l :
    Matches (SetSelector s) l = true <-> forall k v, s !! k = Some v -> l !! k = Some v;
  Matches_parsed s l :
    Matches (ParsedSelector s) l = true <->
      (forall k v, MatchLabels s !! k = Some v -> l !! k = Some v) /\
      Forall (fun '(k, op) =>
        match op with
        | OpIn vs => exists v, l !! k = Some v /\ v ∈ vs
        | OpExists => is_Some (l !! k)
        end) (MatchExpressions s)
}.

(** [AsSelector] *)
Definition AsSelector `{LabelMatching} (s : LabelSelector) : result Selector :=
  match selectorError s with Some e => Err e | None => Ok (ParsedSelector s) end.

(** *** [selectors.go] *)
Definition AnyCluster : LabelSelector := mkSelector ∅ [(LabelCluster, OpExists)].
Definition Cluster (cluster : string) : LabelSelector := mkSelector {[LabelCluster := cluster]} [].
Definition ClusterRestoreJobs (cluster : string) : LabelSelector :=
  mkSelector {[LabelCluster := cluster]} [(LabelPGBackRestRestore, OpExists)].
Definition ClusterBackupJobs (cluster : string) : LabelSelector :=
  mkSelector {[LabelCluster := cluster]} [(LabelPGBackRestBackup, OpExists)].
Definition ClusterDataForPostgresAndPGBackRest (cluster : string) : LabelSelector :=
  mkSelector {[LabelCluster := cluster]} [(LabelData, OpIn [DataPostgres; DataPGBackRest])].
Definition ClusterInstance (cluster instance : string) : LabelSelector :=
  mkSelector {[LabelCluster := cluster; LabelInstance := instance]} [].
Definition ClusterInstances (cluster : string) : LabelSelector :=
  mkSelector {[LabelCluster := cluster]} [(LabelInstance, OpExists)].
Definition ClusterInstanceSet (cluster set : string) : LabelSelector :=
  mkSelector {[LabelCluster := cluster; LabelInstanceSet := set]} [].
Definition ClusterInstanceSets (cluster : string) : LabelSelector :=
  mkSelector {[LabelCluster := cluster]} [(LabelInstanceSet, OpExists)].

(** [PatroniScope] *)
Definition PatroniScope (cluster : PostgresCluster) : string := pc_Name cluster +:+ "-ha".

Definition ClusterPatronis (cluster : PostgresCluster) : LabelSelector :=
  mkSelector {[LabelCluster := pc_Name cluster; LabelPatroni := PatroniScope cluster]} [].
Definition ClusterPGBouncerSelector (cluster : PostgresCluster) : LabelSelector :=
  mkSelector {[LabelCluster := pc_Name cluster; LabelRole := RolePGBouncer]} [].
Definition ClusterPostgresUsers (cluster : string) : LabelSelector :=
  mkSelector {[LabelCluster := cluster]} [(LabelPostgresUser, OpExists)].
Definition CrunchyBridgeClusterPostgresRoles (clusterName : string) : LabelSelector :=
  mkSelector {[LabelCluster := clusterName; LabelRole := RoleCrunchyBridgeClusterPostgresRole]} [].

(** *** [labels.go] *)
Section Labels.
Context `{LabelMatching}.

Definition Merge (sets : list (gmap string string)) : gmap string string :=
  fold_left labels_Merge sets ∅.

Definition DirectoryMoveJobLabels (clusterName : string) : gmap string string :=
  {[LabelCluster := clusterName; LabelMoveJob := ""]}.

Definition PGBackRestLabels (clusterName : string) : gmap string string :=
  {[LabelCluster := clusterName; LabelPGBackRest := ""]}.

Definition PGBackRestBackupJobLabels (clusterName repoName backupType : string)
    : gmap string string :=
  let repoLabels := PGBackRestLabels clusterName in
  let jobLabels := {[LabelPGBackRestRepo := repoName; LabelPGBackRestBackup := backupType]} in
  labels_Merge jobLabels repoLabels.

Definition PGBackRestBackupJobSelector (clusterName repoName backupType : string) : Selector :=
  SetSelector (PGBackRestBackupJobLabels clusterName repoName backupType).

Definition PGBackRestRestoreConfigLabels (clusterName : string) : gmap string string :=
  labels_Merge {[LabelPGBackRestRestoreConfig := ""]} (PGBackRestLabels clusterName).

Definition PGBackRestRestoreConfigSelector (clusterName : string) : Selector :=
  SetSelector (PGBackRestRestoreConfigLabels clusterName).

Definition PGBackRestRestoreJobLabels (clusterName : string) : gmap string string :=
  labels_Merge {[LabelPGBackRestRestore := ""]} (PGBackRestLabels clusterName).

Definition PGBackRestRestoreJobSelector (clusterName : string) : Selector :=
  SetSelector (PGBackRestRestoreJobLabels clusterName).

Definition PGBackRestRepoLabels (clusterName repoName : string) : gmap string string :=
  labels_Merge (PGBackRestLabels clusterName) {[LabelPGBackRestRepo := repoName]}.

Definition PGBackRestSelector (clusterName : string) : Selector :=
  SetSelector (PGBackRestLabels clusterName).

Definition PGBackRestConfigLabels (clusterName : string) : gmap string string :=
  labels_Merge (PGBackRestLabels clusterName) {[LabelPGBackRestConfig := ""]}.

Definition PGBackRestCronJobLabels (clusterName repoName backupType : string)
    : gmap string string :=
  labels_Merge (PGBackRestLabels clusterName)
    {[LabelPGBackRestRepo := repoName; LabelPGBackRestCronJob := backupType;
      LabelPGBackRestBackup := BackupScheduled]}.

Definition PGBackRestDedicatedLabels (clusterName : string) : gmap string string :=
  labels_Merge (PGBackRestLabels clusterName) {[LabelPGBackRestDedicated := ""]}.

Definition PGBackRestDedicatedSelector (clusterName : string) : Selector :=
  SetSelector (PGBackRestDedicatedLabels clusterName).

Definition PGBackRestRepoVolumeLabels (clusterName repoName : string) : gmap string string :=
  labels_Merge (PGBackRestRepoLabels clusterName repoName)
    {[LabelPGBackRestRepoVolume := ""; LabelData := DataPGBackRest]}.

(** [WithPerconaLabels]; [LessThan] is a negative [Compare]. *)
Definition WithPerconaLabels `{GoVersion} (set : gmap string string)
    (clusterName component crVersion : string) : gmap string string :=
  let old := match NewVersion crVersion with
             | None => true
             | Some v => bool_decide (Compare v (Must "2.3.0") < 0)%Z
             end in
  if old then set else
  let ls := {[LabelPerconaManagedBy := LabelPerconaManagedByValue;
              LabelPerconaName := "percona-postgresql";
              LabelPerconaPartOf := "percona-postgresql"]} in
  let ls := if nonempty clusterName then <[LabelPerconaInstance := clusterName]> ls else ls in
  let ls := if nonempty component then <[LabelPerconaComponent := component]> ls else ls in
  labels_Merge set ls.

Definition StandalonePGAdminLabels (pgAdminName : string) : gmap string string :=
  {[LabelStandalonePGAdmin := pgAdminName; LabelRole := RolePGAdmin]}.

Definition StandalonePGAdminSelector (pgAdminName : string) : Selector :=
  SetSelector (StandalonePGAdminLabels pgAdminName).

Definition StandalonePGAdminDataLabels (pgAdminName : string) : gmap string string :=
  labels_Merge (StandalonePGAdminLabels pgAdminName) {[LabelData := DataPGAdmin]}.

Definition StandalonePGAdminDataSelector (pgAdmiName : string) : Selector :=
  SetSelector (StandalonePGAdminDataLabels pgAdmiName).
End Labels.

(** ** DNS names: [dns.go] *)
Definition maxDNSSafeLength : nat := 63.

Definition is_hyphen (c : ascii) : bool := bool_decide (c = "-"%char).

Definition SafeDNSName (name : string) : string :=
  let name := trim_right is_hyphen name in
  if String.length name <=? maxDNSSafeLength then name
  else trim_right is_hyphen (take_string maxDNSSafeLength name).

(** The 32-bit FNV hashes of Go's [hash/fnv]: [New32] multiplies before the
    exclusive or, [New32a] after it. *)
Definition fnv_prime32 : N := 16777619.
Definition fnv_offset32 : N := 2166136261.
Definition mul32 (a b : N) : N := (a * b) mod 2 ^ 32.

Fixpoint fnv32a_from (h : N) (s : string) : N :=
  match s with
  | EmptyString => h
  | String c s' => fnv32a_from (mul32 (N.lxor h (code c)) fnv_prime32) s'
  end.
Definition fnv32a (s : string) : N := fnv32a_from fnv_offset32 s.

Fixpoint fnv32_from (h : N) (s : string) : N :=
  match s with
  | EmptyString => h
  | String c s' => fnv32_from (N.lxor (mul32 h fnv_prime32) (code c)) s'
  end.
Definition fnv32 (s : string) : N := fnv32_from fnv_offset32 s.

(** [s[:n]], which panics when [s] is shorter *)
Definition slice_to (n : nat) (s : string) : option string :=
  if n <=? String.length s then Some (take_string n s) else None.

(** [k8s.io/apimachinery/pkg/util/rand.SafeEncodeString] encodes a string
    character by character with the alphabet of [rand.String], which has no
    hyphen. *)
Class SafeEncode := {
  SafeEncodeString : string -> string;
  SafeEncodeString_length s : String.length (SafeEncodeString s) = String.length s;
  SafeEncodeString_chars s : all_chars (fun c => is_lower c || is_digit c) (SafeEncodeString s) = true
}.

(** [None] is a panic. *)
Definition SafeDNSUniqueName `{SafeEncode} (name : string) : option string :=
  let name := trim_right is_hyphen name in
  if String.length name <=? maxDNSSafeLength then Some name
  else
    let prefix := trim_right is_hyphen (take_string (maxDNSSafeLength - 5) name) in
    match slice_to 4 (SafeEncodeString (pretty (fnv32a name))) with
    | None => None
    | Some suffix => Some (prefix +:+ "-" +:+ suffix)
    end.

(** [KubernetesClusterDomain]; [cname] is the answer of [net.LookupCNAME]. *)
Definition KubernetesClusterDomain (cname : option string) (override : string) : string :=
  if nonempty override then override
  else match cname with
       | Some cname => TrimSuffix (TrimPrefix cname ("kubernetes.default.svc" +:+ ".")) "."
       | None => "cluster.local"
       end.

(** A StatefulSet or Service, by the fields the DNS names are made of. *)
Record Named := mkNamed { nm_Namespace : string; nm_Name : string; nm_ServiceName : string }.

Definition dnsNames (name namespace domain : string) : list string :=
  [name +:+ "." +:+ namespace +:+ ".svc." +:+ domain;
   name +:+ "." +:+ namespace +:+ ".svc";
   name +:+ "." +:+ namespace;
   name].

Definition InstancePodDNSNames (cname : option string) (instance : Named) (dnsSuffix : string)
    : list string :=
  dnsNames (nm_Name instance +:+ "-0." +:+ nm_ServiceName instance) (nm_Namespace instance)
    (KubernetesClusterDomain cname dnsSuffix).

Definition RepoHostPodDNSNames (cname : option string) (repoHost : Named) (dnsSuffix : string)
    : result (list string) :=
  if negb (nonempty (nm_Namespace repoHost)) then Err (New "repoHost.Namespace is empty")
  else if negb (nonempty (nm_Name repoHost)) then Err (New "repoHost.Name is empty")
  else if negb (nonempty (nm_ServiceName repoHost)) then Err (New "repoHost.Spec.ServiceName is empty")
  else Ok (dnsNames (nm_Name repoHost +:+ "-0." +:+ nm_ServiceName repoHost)
             (nm_Namespace repoHost) (KubernetesClusterDomain cname dnsSuffix)).

Definition ServiceDNSNames (cname : option string) (service : Named) (dnsSuffix : string)
    : result (list string) :=
  if negb (nonempty (nm_Name service)) then Err (New "service.Name is empty")
  else if negb (nonempty (nm_Namespace service)) then Err (New "service.Namespace is empty")
  else Ok (dnsNames (nm_Name service) (nm_Namespace service)
             (KubernetesClusterDomain cname dnsSuffix)).

(** ** Object names: [names.go]

    An [ObjectMeta] with a namespace and a name only.  [rnd] is the value of
    [rand.String(4)]; [PGONamespace] is the operator's namespace. *)
Record NamedMeta := mkNM { meta_Namespace : string; meta_Name : string }.

Definition AsObjectKey (m : NamedMeta) : string * string := (meta_Namespace m, meta_Name m).

Definition ofCluster (cluster : PostgresCluster) (name : string) : NamedMeta :=
  mkNM (pc_Namespace cluster) name.

Definition ClusterConfigMap (cluster : PostgresCluster) : NamedMeta :=
  ofCluster cluster (pc_Name cluster +:+ "-config").
Definition ClusterInstanceRBAC (cluster : PostgresCluster) : NamedMeta :=
  ofCluster cluster (pc_Name cluster +:+ "-instance").
Definition ClusterPGAdmin (cluster : PostgresCluster) : NamedMeta :=
  ofCluster cluster (pc_Name cluster +:+ "-pgadmin").
Definition ClusterPGBouncer (cluster : PostgresCluster) : NamedMeta :=
  ofCluster cluster (pc_Name cluster +:+ "-pgbouncer").
Definition ClusterPodService (cluster : PostgresCluster) : NamedMeta :=
  ofCluster cluster (pc_Name cluster +:+ "-pods").
Definition ClusterPrimaryService (cluster : PostgresCluster) : NamedMeta :=
  ofCluster cluster (pc_Name cluster +:+ "-primary").
Definition ClusterReplicaService (cluster : PostgresCluster) : NamedMeta :=
  ofCluster cluster (pc_Name cluster +:+ "-replicas").
Definition ClusterDedicatedSnapshotVolume (cluster : PostgresCluster) : NamedMeta :=
  ofCluster cluster (pc_Name cluster +:+ "-snapshot").
Definition ClusterVolumeSnapshot (rnd : string) (cluster : PostgresCluster) : NamedMeta :=
  ofCluster cluster (pc_Name cluster +:+ "-pgdata-snapshot-" +:+ rnd).
Definition MonitoringUserSecret (cluster : PostgresCluster) : NamedMeta :=
  ofCluster cluster (pc_Name cluster +:+ "-monitoring").
Definition ExporterWebConfigMap (cluster : PostgresCluster) : NamedMeta :=
  ofCluster cluster (pc_Name cluster +:+ "-exporter-web-config").
Definition ExporterQueriesConfigMap (cluster : PostgresCluster) : NamedMeta :=
  ofCluster cluster (pc_Name cluster +:+ "-exporter-queries-config").
Definition ReplicationClientCertSecret (cluster : PostgresCluster) : NamedMeta :=
  ofCluster cluster (pc_Name cluster +:+ "-replication-cert").
Definition PatroniDistributedConfiguration (cluster : PostgresCluster) : NamedMeta :=
  ofCluster cluster (PatroniScope cluster +:+ "-config").
Definition PatroniLeaderConfigMap (cluster : PostgresCluster) : NamedMeta :=
  ofCluster cluster (PatroniScope cluster +:+ "-leader").
Definition PatroniLeaderEndpoints (cluster : PostgresCluster) : NamedMeta :=
  ofCluster cluster (PatroniScope cluster).
Definition PatroniTrigger (cluster : PostgresCluster) : NamedMeta :=
  ofCluster cluster (PatroniScope cluster +:+ "-failover").
Definition PGBackRestConfig (cluster : PostgresCluster) : NamedMeta :=
  ofCluster cluster (pc_Name cluster +:+ "-pgbackrest-config").
Definition PGBackRestBackupJob (rnd : string) (cluster : PostgresCluster) : NamedMeta :=
  ofCluster cluster (pc_Name cluster +:+ "-backup-" +:+ rnd).
Definition VolumeSnapshotCronJob (cluster : PostgresCluster) : NamedMeta :=
  ofCluster cluster (pc_Name cluster +:+ "-snapshot").
Definition PGBackRestRestoreJob (cluster : PostgresCluster) : NamedMeta :=
  ofCluster cluster (pc_Name cluster +:+ "-pgbackrest-restore").
Definition PGBackRestRBAC (cluster : PostgresCluster) : NamedMeta :=
  ofCluster cluster (pc_Name cluster +:+ "-pgbackrest").
Definition PGBackRestSSHConfig (cluster : PostgresCluster) : NamedMeta :=
  ofCluster cluster (pc_Name cluster +:+ "-ssh-config").
Definition PGBackRestSSHSecret (cluster : PostgresCluster) : NamedMeta :=
  ofCluster cluster (pc_Name cluster +:+ "-ssh").
Definition PGBackRestSecret (cluster : PostgresCluster) : NamedMeta :=
  ofCluster cluster (pc_Name cluster +:+ "-pgbackrest").
Definition PGBackRestClientCertSecret (cluster : PostgresCluster) : NamedMeta :=
  ofCluster cluster (pc_Name cluster +:+ "-pgbackrest-client-tls").
Definition PGBackRestRepoCertSecret (cluster : PostgresCluster) : NamedMeta :=
  ofCluster cluster (pc_Name cluster +:+ "-pgbackrest-repo-tls").
Definition DeprecatedPostgresUserSecret (cluster : PostgresCluster) : NamedMeta :=
  ofCluster cluster (pc_Name cluster +:+ "-pguser").
Definition PostgresRootCASecret (cluster : PostgresCluster) : NamedMeta :=
  ofCluster cluster (pc_Name cluster +:+ "-cluster-ca-cert").
Definition PostgresTLSSecret (cluster : PostgresCluster) : NamedMeta :=
  ofCluster cluster (pc_Name cluster +:+ "-cluster-cert").
Definition MovePGDataDirJob (cluster : PostgresCluster) : NamedMeta :=
  ofCluster cluster (pc_Name cluster +:+ "-move-pgdata-dir").
Definition MovePGWALDirJob (cluster : PostgresCluster) : NamedMeta :=
  ofCluster cluster (pc_Name cluster +:+ "-move-pgwal-dir").
Definition MovePGBackRestRepoDirJob (cluster : PostgresCluster) : NamedMeta :=
  ofCluster cluster (pc_Name cluster +:+ "-move-pgbackrest-repo-dir").
Definition CAIssuer (cluster : PostgresCluster) : NamedMeta :=
  ofCluster cluster (pc_Name cluster +:+ "-ca-issuer").
Definition TLSIssuer (cluster : PostgresCluster) : NamedMeta :=
  ofCluster cluster (pc_Name cluster +:+ "-tls-issuer").

Definition GenerateInstance (rnd : string) (cluster : PostgresCluster) (set : string) : NamedMeta :=
  ofCluster cluster (pc_Name cluster +:+ "-" +:+ set +:+ "-" +:+ rnd).

(** [None] is a panic, as in [SafeDNSUniqueName]. *)
Definition GenerateStartupInstance `{SafeEncode} (cluster : PostgresCluster) (set : string)
    : option NamedMeta :=
  match slice_to 4 (SafeEncodeString (pretty (fnv32 (pc_Name cluster +:+ set)))) with
  | None => None
  | Some suffix => Some (ofCluster cluster (pc_Name cluster +:+ "-" +:+ set +:+ "-" +:+ suffix))
  end.

Definition InstanceConfigMap (instance : Named) : NamedMeta :=
  mkNM (nm_Namespace instance) (nm_Name instance +:+ "-config").
Definition InstanceCertificates (instance : Named) : NamedMeta :=
  mkNM (nm_Namespace instance) (nm_Name instance +:+ "-certs").
Definition InstanceSet (cluster : PostgresCluster) (set : string) : NamedMeta :=
  ofCluster cluster (pc_Name cluster +:+ "-set-" +:+ set).
Definition InstancePostgresDataVolume (instance : Named) : NamedMeta :=
  mkNM (nm_Namespace instance) (nm_Name instance +:+ "-pgdata").
Definition InstanceTablespaceDataVolume (instance : Named) (tablespaceName : string) : NamedMeta :=
  mkNM (nm_Namespace instance) (nm_Name instance +:+ "-" +:+ tablespaceName +:+ "-tablespace").
Definition InstancePostgresWALVolume (instance : Named) : NamedMeta :=
  mkNM (nm_Namespace instance) (nm_Name instance +:+ "-pgwal").
Definition OperatorConfigurationSecret (PGONamespace : string) : NamedMeta :=
  mkNM PGONamespace "pgo-config".
Definition PGBackRestCronJob (cluster : PostgresCluster) (backuptype repoName : string) : NamedMeta :=
  ofCluster cluster (pc_Name cluster +:+ "-" +:+ repoName +:+ "-" +:+ backuptype).
Definition PGBackRestRepoVolume (cluster : PostgresCluster) (repoName : string) : NamedMeta :=
  ofCluster cluster (pc_Name cluster +:+ "-" +:+ repoName).
Definition PostgresUserSecret (cluster : PostgresCluster) (username : string) : NamedMeta :=
  ofCluster cluster (pc_Name cluster +:+ "-pguser-" +:+ username).
Definition PostgresCustomUserSecretName (cluster : PostgresCluster) (name : string) : NamedMeta :=
  ofCluster cluster name.
(** [uid] is the UID of the PGAdmin object. *)
Definition StandalonePGAdmin (namespace uid : string) : NamedMeta :=
  mkNM namespace ("pgadmin-" +:+ uid).
Definition UpgradeCheckConfigMap (PGONamespace : string) : NamedMeta :=
  mkNM PGONamespace "pgo-upgrade-check".
(** [issuer] is [cluster.Spec.TLS.IssuerConf.Name]. *)
Definition ClusterCAIssuer (issuer : string) : NamedMeta := mkNM "" (issuer +:+ "-ca-issuer").
Definition ClusterCACertSecret (issuer certManagerNamespace : string) : NamedMeta :=
  mkNM certManagerNamespace (issuer +:+ "-ca-cert").

(** ** Lemmas *)

Lemma names_NoDup (cluster : PostgresCluster) (sufs : list string) (l : list NamedMeta) :
  map meta_Name l = map (String.append (pc_Name cluster)) sufs -> NoDup sufs ->
  NoDup (map meta_Name l).
Proof.
  intros -> Hn. apply NoDup_fmap_2; [|done]. intros s t. apply app_inj_l_str.
Qed.

Lemma append_ne (s t : string) : t <> EmptyString -> s +:+ t <> s.
Proof.
  intros Ht E. apply Ht. apply (app_inj_l_str s). by rewrite app_nil_r_str.
Qed.

(** A label set is below another when its pairs are. *)
Lemma subset_pairs (m l : gmap string string) :
  (forall k v, m !! k = Some v -> l !! k = Some v) <->
  Forall (fun '(k, v) => l !! k = Some v) (map_to_list m).
Proof.
  rewrite Forall_forall. split.
  - intros H [k v] Hin. apply H. by apply elem_of_map_to_list.
  - intros H k v Hk. by apply (H (k, v)), elem_of_map_to_list.
Qed.

Section LabelLemmas.
Context `{LabelMatching}.

Lemma labels_Merge_union m1 m2 : labels_Merge m1 m2 = m2 ∪ m1.
Proof.
  apply map_eq. intros k. rewrite labels_Merge_spec, lookup_union.
  by destruct (m2 !! k), (m1 !! k).
Qed.

Lemma Matches_set_pairs s l :
  Matches (SetSelector s) l = true <-> Forall (fun '(k, v) => l !! k = Some v) (map_to_list s).
Proof. by rewrite Matches_set, subset_pairs. Qed.

Lemma Matches_parsed_pairs s l :
  Matches (ParsedSelector s) l = true <->
    Forall (fun '(k, v) => l !! k = Some v) (map_to_list (MatchLabels s)) /\
    Forall (fun '(k, op) =>
      match op with
      | OpIn vs => exists v, l !! k = Some v /\ v ∈ vs
      | OpExists => is_Some (l !! k)
      end) (MatchExpressions s).
Proof. by rewrite Matches_parsed, subset_pairs. Qed.
End LabelLemmas.

(** Evaluate the label sets of a matching goal, whose keys are constants, into
    equations between the values. *)
Ltac labels_eval :=
  rewrite ?Matches_set_pairs, ?Matches_parsed_pairs;
  unfold PGBackRestBackupJobSelector, PGBackRestRestoreConfigSelector,
    PGBackRestRestoreJobSelector, PGBackRestSelector, PGBackRestDedicatedSelector,
    PGBackRestBackupJobLabels, PGBackRestRestoreConfigLabels, PGBackRestRestoreJobLabels,
    PGBackRestRepoVolumeLabels, PGBackRestRepoLabels, PGBackRestConfigLabels,
    PGBackRestCronJobLabels, PGBackRestDedicatedLabels in *;
  rewrite ?Matches_set_pairs, ?Matches_parsed_pairs, ?labels_Merge_union.

(** The conjunction a list of pairs stands for. *)
Fixpoint all_pairs (l : list (string * string)) (m : gmap string string) : Prop :=
  match l with
  | [] => True
  | (k, v) :: l => m !! k = Some v /\ all_pairs l m
  end.

Lemma all_pairs_Forall l m : Forall (fun '(k, v) => m !! k = Some v) l <-> all_pairs l m.
Proof.
  induction l as [|[k v] l IH]; simpl; [by rewrite Forall_nil|]. by rewrite Forall_cons, IH.
Qed.

(** A concrete matching of the interface, for the examples. *)
Module ConcreteLabels.
Definition holds (l : gmap string string) (p : string * string) : bool :=
  bool_decide (l !! p.1 = Some p.2).

Definition expression (l : gmap string string) (e : string * SelectorOp) : bool :=
  match e.2 with
  | OpIn vs => match l !! e.1 with Some v => bool_decide (v ∈ vs) | None => false end
  | OpExists => bool_decide (is_Some (l !! e.1))
  end.

Definition matches (s : Selector) (l : gmap string string) : bool :=
  match s with
  | SetSelector m => forallb (holds l) (map_to_list m)
  | ParsedSelector s =>
      forallb (holds l) (map_to_list (MatchLabels s)) && forallb (expression l) (MatchExpressions s)
  end.

Lemma forallb_holds l m :
  forallb (holds l) (map_to_list m) = true <-> forall k v, m !! k = Some v -> l !! k = Some v.
Proof.
  rewrite subset_pairs, forallb_forall, Forall_forall. unfold holds.
  split; intros H [k v] Hin.
  - apply (bool_decide_eq_true_1 _ (H (k, v) (proj1 (list_elem_of_In _ _) Hin))).
  - apply bool_decide_eq_true_2. apply (H (k, v)). by apply list_elem_of_In.
Qed.

Lemma expression_spec l e :
  expression l e = true <->
  (let '(k, op) := e in
   match op with
   | OpIn vs => exists v, l !! k = Some v /\ v ∈ vs
   | OpExists => is_Some (l !! k)
   end).
Proof.
  destruct e as [k [vs|]]; unfold expression; simpl; [|by rewrite bool_decide_eq_true].
  destruct (l !! k) as [v|]; [rewrite bool_decide_eq_true|].
  - split; [intros Hv; by exists v|]. by intros (v' & [= ->] & Hv).
  - split; [done|]. by intros (? & ? & _).
Qed.

Definition matching : LabelMatching.
Proof.
  refine (Build_LabelMatching (fun m1 m2 => m2 ∪ m1) (fun _ => None) matches _
            (fun s l => forallb_holds l s) _).
  - intros m1 m2 k. rewrite lookup_union. by destruct (m2 !! k), (m1 !! k).
  - intros s l. simpl. rewrite andb_true_iff, forallb_holds, forallb_forall, Forall_forall.
    by setoid_rewrite expression_spec; setoid_rewrite list_elem_of_In.
Defined.
End ConcreteLabels.

(** ** Properties *)

(** The selectors of the pgBackRest jobs separate what the code treats
    differently.  The selector of a cluster's backup jobs for a repository and
    a type selects exactly the jobs labelled with that cluster, repository and
    type; no manual or replica-create selector selects a scheduled job; backup
    and restore jobs are told apart by the cluster-wide selectors; and the
    selector of all pgBackRest objects of a cluster selects the backup, restore
    and scheduled jobs of that cluster and of no other. *)
Theorem job_selectors_separate `{LabelMatching} (c r t c' r' t' : string) :
  (Matches (PGBackRestBackupJobSelector c r t) (PGBackRestBackupJobLabels c' r' t') = true <->
     c' = c /\ r' = r /\ t' = t) /\
  (Matches (PGBackRestBackupJobSelector c r t) (PGBackRestCronJobLabels c' r' t') = true <->
     c' = c /\ r' = r /\ t = BackupScheduled) /\
  (Matches (ParsedSelector (ClusterBackupJobs c)) (PGBackRestBackupJobLabels c' r' t') = true <->
     c' = c) /\
  (Matches (ParsedSelector (ClusterRestoreJobs c)) (PGBackRestRestoreJobLabels c') = true <->
     c' = c) /\
  Matches (ParsedSelector (ClusterRestoreJobs c)) (PGBackRestBackupJobLabels c' r' t') = false /\
  Matches (ParsedSelector (ClusterBackupJobs c)) (PGBackRestRestoreJobLabels c') = false /\
  Matches (PGBackRestRestoreJobSelector c) (PGBackRestBackupJobLabels c' r' t') = false /\
  (Matches (PGBackRestSelector c) (PGBackRestBackupJobLabels c' r' t') = true <-> c' = c) /\
  (Matches (PGBackRestSelector c) (PGBackRestRestoreJobLabels c') = true <-> c' = c) /\
  (Matches (PGBackRestSelector c) (PGBackRestCronJobLabels c' r' t') = true <-> c' = c).
Proof.
  split_and!; rewrite <- ?not_true_iff_false; labels_eval; rewrite ?all_pairs_Forall;
    unfold ClusterBackupJobs, ClusterRestoreJobs; cbn [MatchExpressions MatchLabels];
    rewrite ?Forall_singleton.
  all: vm_compute; intuition (subst; eauto;
    repeat match goal with H : ex _ |- _ => destruct H end; congruence).
Qed.


(** The names a cluster gives to the objects of one kind; [rnd] is a random
    suffix and [users] are the database users. *)
Section NameGroups.
Context (cluster : PostgresCluster) (rnd : string) (users : list string).

Definition configMapNames : list NamedMeta :=
  [ClusterConfigMap cluster; ClusterPGAdmin cluster; ClusterPGBouncer cluster;
   PatroniDistributedConfiguration cluster; PatroniLeaderConfigMap cluster; PatroniTrigger cluster;
   PGBackRestConfig cluster; PGBackRestSSHConfig cluster; ExporterWebConfigMap cluster;
   ExporterQueriesConfigMap cluster].

Definition secretNames : list NamedMeta :=
  [ClusterPGBouncer cluster; DeprecatedPostgresUserSecret cluster; PostgresTLSSecret cluster;
   PostgresRootCASecret cluster; ReplicationClientCertSecret cluster; PGBackRestSSHSecret cluster;
   PGBackRestSecret cluster; PGBackRestClientCertSecret cluster; PGBackRestRepoCertSecret cluster;
   MonitoringUserSecret cluster].

Definition serviceNames : list NamedMeta :=
  [ClusterPGBouncer cluster; ClusterPGAdmin cluster; ClusterPodService cluster;
   ClusterPrimaryService cluster; ClusterReplicaService cluster;
   PatroniDistributedConfiguration cluster; PatroniLeaderEndpoints cluster;
   PatroniTrigger cluster].

Definition jobNames : list NamedMeta :=
  [PGBackRestBackupJob rnd cluster; PGBackRestRestoreJob cluster; MovePGDataDirJob cluster;
   MovePGWALDirJob cluster; MovePGBackRestRepoDirJob cluster].

Definition roleNames : list NamedMeta := [ClusterInstanceRBAC cluster; PGBackRestRBAC cluster].

Definition issuerNames : list NamedMeta := [CAIssuer cluster; TLSIssuer cluster].

Definition userSecretNames : list NamedMeta := map (PostgresUserSecret cluster) users.
End NameGroups.

Lemma group_unique (cluster : PostgresCluster) (sufs : list string) (l : list NamedMeta) :
  l = map (fun s => ofCluster cluster (pc_Name cluster +:+ s)) sufs ->
  NoDup sufs -> EmptyString ∉ sufs ->
  NoDup (map AsObjectKey l) /\
  Forall (fun m => meta_Namespace m = pc_Namespace cluster /\ meta_Name m <> pc_Name cluster) l.
Proof.
  intros -> Hn He. split.
  - rewrite map_map. apply NoDup_fmap_2; [|done]. intros s t E. injection E.
    apply app_inj_l_str.
  - apply Forall_forall. intros m (s & -> & Hs)%list_elem_of_fmap. split; [done|].
    simpl. apply append_ne. by intros ->.
Qed.

(** A suffix list made of constants. *)
Ltac names_distinct := apply (bool_decide_unpack _); vm_compute; exact I.
Ltac fresh_const := rewrite ?not_elem_of_cons; split_and?; first [done | apply not_elem_of_nil].
Ltac names_eq :=
  unfold configMapNames, serviceNames, jobNames, roleNames, issuerNames;
  cbv [map PatroniDistributedConfiguration PatroniLeaderConfigMap PatroniTrigger
       PatroniLeaderEndpoints PatroniScope];
  rewrite ?app_assoc_str; reflexivity.

(** No fixed suffix of a secret starts like that of a user. *)
Lemma user_suffix_fresh u :
  "-pguser-" +:+ u ∉
    ["-pgbouncer"; "-pguser"; "-cluster-cert"; "-cluster-ca-cert"; "-replication-cert"; "-ssh";
     "-pgbackrest"; "-pgbackrest-client-tls"; "-pgbackrest-repo-tls"; "-monitoring"].
Proof. fresh_const. Qed.

(** An example. *)
Definition exampleCluster : PostgresCluster :=
  mkCluster "cluster1" "default" ∅ 17 false None None [] None None None
    (mkExtensions false false false false false false false) None [] [].

(** Within each kind of object the names a cluster derives are distinct,
    are in the cluster's namespace and differ from the cluster's own name;
    the secrets of distinct users are distinct, and none of them is one of the
    cluster's other secrets. *)
Theorem resource_names_unique (cluster : PostgresCluster) (rnd : string) (users : list string) :
  NoDup users ->
  Forall (fun group =>
      NoDup (map AsObjectKey group) /\
      Forall (fun m => meta_Namespace m = pc_Namespace cluster /\
                       meta_Name m <> pc_Name cluster) group)
    [configMapNames cluster; secretNames cluster ++ userSecretNames cluster users;
     serviceNames cluster; jobNames cluster rnd; roleNames cluster; issuerNames cluster].
Proof.
  intros Hu.
  repeat apply Forall_cons_2; [..|apply Forall_nil_2].
  - apply (group_unique cluster
      ["-config"; "-pgadmin"; "-pgbouncer"; "-ha-config"; "-ha-leader"; "-ha-failover";
       "-pgbackrest-config"; "-ssh-config"; "-exporter-web-config"; "-exporter-queries-config"]);
      [names_eq|names_distinct..].
  - pose (fixed := ["-pgbouncer"; "-pguser"; "-cluster-cert"; "-cluster-ca-cert";
      "-replication-cert"; "-ssh"; "-pgbackrest"; "-pgbackrest-client-tls";
      "-pgbackrest-repo-tls"; "-monitoring"]).
    apply (group_unique cluster (fixed ++ map (String.append "-pguser-") users)).
    + rewrite map_app. f_equal. unfold userSecretNames. by rewrite map_map.
    + apply NoDup_app. split_and!; [names_distinct| |].
      * intros s Hs (u & -> & _)%list_elem_of_fmap. revert Hs. apply user_suffix_fresh.
      * apply NoDup_fmap_2; [|done]. intros ??. apply app_inj_l_str.
    + rewrite elem_of_app. intros [Hs|(u & E & _)%list_elem_of_fmap]; [|done].
      revert Hs. names_distinct.
  - apply (group_unique cluster
      ["-pgbouncer"; "-pgadmin"; "-pods"; "-primary"; "-replicas"; "-ha-config"; "-ha";
       "-ha-failover"]); [names_eq|names_distinct..].
  - apply (group_unique cluster
      ["-backup-" +:+ rnd; "-pgbackrest-restore"; "-move-pgdata-dir"; "-move-pgwal-dir";
       "-move-pgbackrest-repo-dir"]); [names_eq| |fresh_const].
    apply NoDup_cons. split; [|names_distinct].
    fresh_const.
  - apply (group_unique cluster ["-instance"; "-pgbackrest"]); [names_eq|names_distinct..].
  - apply (group_unique cluster ["-ca-issuer"; "-tls-issuer"]); [names_eq|names_distinct..].
Qed.

Lemma resource_names_unique_witness :
  NoDup ["app"; "postgres"] /\
  Forall (fun group =>
      NoDup (map AsObjectKey group) /\
      Forall (fun m => meta_Namespace m = pc_Namespace exampleCluster /\
                       meta_Name m <> pc_Name exampleCluster) group)
    [configMapNames exampleCluster;
     secretNames exampleCluster ++ userSecretNames exampleCluster ["app"; "postgres"];
     serviceNames exampleCluster; jobNames exampleCluster "x7d2"; roleNames exampleCluster;
     issuerNames exampleCluster].
Proof.
  assert (Hu : NoDup ["app"; "postgres"]) by (apply (bool_decide_unpack _); vm_compute; exact I).
  split; [exact Hu|]. exact (resource_names_unique exampleCluster "x7d2" _ Hu).
Defined.
Lemma safe_truncated_at n name :
  let r := trim_right is_hyphen (take_string n (trim_right is_hyphen name)) in
  String.length r <= n /\ last_not is_hyphen r = true /\ exists t, name = r +:+ t.
Proof.
  simpl. set (m := trim_right is_hyphen name).
  destruct (trim_right_prefix is_hyphen (take_string n m)) as [t Ht].
  destruct (take_string_prefix n m) as [u Hu]. destruct (trim_right_prefix is_hyphen name) as [v Hv].
  split_and!; [|apply trim_right_last|].
  - apply length_prefix in Ht. rewrite length_take_string in Ht. lia.
  - exists (t +:+ u +:+ v). fold m in Hv. rewrite Hv at 1. rewrite Hu at 1. rewrite Ht at 1.
    by rewrite !app_assoc_str.
Qed.

Lemma safe_truncated name :
  let r := trim_right is_hyphen (take_string maxDNSSafeLength (trim_right is_hyphen name)) in
  String.length r <= maxDNSSafeLength /\ last_not is_hyphen r = true /\ exists t, name = r +:+ t.
Proof. apply safe_truncated_at. Qed.

(** A SafeDNSName is at most 63 bytes long, is a prefix of the name, does
    not end in a hyphen, and is the name itself, trailing hyphens stripped,
    when that fits; applying it twice changes nothing. *)
Theorem SafeDNSName_spec (name : string) :
  let r := SafeDNSName name in
  String.length r <= maxDNSSafeLength /\ last_not is_hyphen r = true /\
  (exists t, name = r +:+ t) /\
  (String.length (trim_right is_hyphen name) <= maxDNSSafeLength -> r = trim_right is_hyphen name) /\
  SafeDNSName r = r.
Proof.
  simpl. unfold SafeDNSName. case_match eqn:E.
  - apply Nat.leb_le in E. rewrite (trim_right_id is_hyphen (trim_right is_hyphen name)) by
      apply trim_right_last.
    split_and!; [done|apply trim_right_last|apply trim_right_prefix|done|].
    by apply Nat.leb_le in E as ->.
  - apply Nat.leb_gt in E. pose proof (safe_truncated name) as (Hl & Hlast & Hp).
    rewrite (trim_right_id is_hyphen (trim_right _ (take_string _ _))) by done.
    split_and!; [done..|lia|]. by apply Nat.leb_le in Hl as ->.
Qed.

(** A string without hyphens does not end in one. *)
Lemma no_hyphen_last s :
  all_chars (fun c => is_lower c || is_digit c) s = true -> last_not is_hyphen s = true.
Proof.
  induction s as [|c s IH]; simpl; [done|]. intros [Hc Hs]%andb_true_iff.
  destruct s; [|by apply IH]. unfold is_hyphen. apply negb_true_iff, bool_decide_eq_false.
  by intros ->.
Qed.

Lemma all_chars_take f n s : all_chars f s = true -> all_chars f (take_string n s) = true.
Proof.
  intros H. destruct (take_string_prefix n s) as [t Ht]. rewrite Ht, all_chars_app in H.
  by apply andb_true_iff in H as [? _].
Qed.

(** SafeDNSUniqueName panics exactly for the long names whose 32-bit FNV-1a
    hash has fewer than four decimal digits; otherwise the result is at most
    63 bytes long, does not end in a hyphen, is the name itself, trailing
    hyphens stripped, when that fits, and is a prefix of the name followed by
    a hyphen and four characters otherwise. *)
Theorem SafeDNSUniqueName_spec `{SafeEncode} (name : string) :
  let m := trim_right is_hyphen name in
  match SafeDNSUniqueName name with
  | None => maxDNSSafeLength < String.length m /\ String.length (pretty (fnv32a m)) < 4
  | Some r =>
      String.length r <= maxDNSSafeLength /\ last_not is_hyphen r = true /\
      (String.length m <= maxDNSSafeLength -> r = m) /\
      (maxDNSSafeLength < String.length m ->
         exists p t suffix, r = p +:+ "-" +:+ suffix /\ name = p +:+ t /\
           String.length suffix = 4 /\ 4 <= String.length (pretty (fnv32a m)))
  end.
Proof.
  simpl. unfold SafeDNSUniqueName. set (m := trim_right is_hyphen name).
  destruct (String.length m <=? maxDNSSafeLength) eqn:E.
  - apply Nat.leb_le in E. split_and!; [done|apply trim_right_last|done|lia].
  - apply Nat.leb_gt in E. unfold slice_to. rewrite SafeEncodeString_length.
    set (h := pretty (fnv32a m)). destruct (4 <=? String.length h) eqn:E4.
    + apply Nat.leb_le in E4. set (suffix := take_string 4 (SafeEncodeString h)).
      pose proof (safe_truncated_at (maxDNSSafeLength - 5) name) as (Hl & _ & [t Ht]).
      fold m in Hl, Ht.
      assert (Hs : String.length suffix = 4).
      { unfold suffix. rewrite length_take_string, SafeEncodeString_length. lia. }
      split_and!; [| |lia|].
      * rewrite !length_app_str, Hs. change (String.length "-") with 1. unfold maxDNSSafeLength in *. lia.
      * assert (Hc : last_not is_hyphen suffix = true)
          by apply no_hyphen_last, all_chars_take, SafeEncodeString_chars.
        rewrite <- app_assoc_str, last_not_app; [done|]. by intros E'; rewrite E' in Hs.
      * intros _. by exists (trim_right is_hyphen (take_string (maxDNSSafeLength - 5) m)), t, suffix.
    + apply Nat.leb_gt in E4. done.
Qed.

(** Encoding of the interface used by the examples: the identity on digits. *)
Module ConcreteEncode.
Definition safe_char (c : ascii) : ascii := if is_lower c || is_digit c then c else "x"%char.

Definition encode : SafeEncode.
Proof.
  refine (Build_SafeEncode (map_string safe_char) _ _).
  - intros s. induction s as [|c s IH]; simpl; [done|]. by rewrite IH.
  - intros s. induction s as [|c s IH]; simpl; [done|]. rewrite IH.
    unfold safe_char. by destruct (is_lower c || is_digit c) eqn:E; rewrite ?E.
Defined.
End ConcreteEncode.

(** There are names on which SafeDNSUniqueName panics, whatever the
    encoding: the hash of this one is 282. *)
Theorem SafeDNSUniqueName_panics `{SafeEncode} :
  SafeDNSUniqueName
    "cluster1-aaaaaaaaaaaaaaaaaaaaaaaaaaaaaaaaaaaaaaaaaaaaaaaaaaaaalrcw" = None.
Proof.
  unfold SafeDNSUniqueName, slice_to. rewrite SafeEncodeString_length. vm_compute. reflexivity.
Qed.

Lemma drop_string_prefix s p : HasPrefix s p = true -> s = p +:+ TrimPrefix s p.
Proof. intros [t ->]%HasPrefix_spec. by rewrite TrimPrefix_app. Qed.

Lemma TrimSuffix_inv s suf : HasSuffix s suf = true -> s = TrimSuffix s suf +:+ suf.
Proof. intros [t ->]%HasSuffix_spec. by rewrite TrimSuffix_app. Qed.

Lemma append_split (a b c d : string) :
  a +:+ b = c +:+ d ->
  (exists u, a = c +:+ u /\ d = u +:+ b) \/ (exists u, c = a +:+ u /\ b = u +:+ d).
Proof.
  revert c. induction a as [|x a IH]; intros c E.
  - right. by exists c.
  - destruct c as [|y c]; [left; by exists (String x a)|]. injection E as -> E.
    destruct (IH c E) as [(u & -> & ->)|(u & -> & ->)]; [left|right]; by exists u.
Qed.

(** The prefix and the suffix of a size annotation overlap in one way. *)
Lemma overlap r t :
  SuggestedPGBackRestRepoVolumeSizeAnnotationPrefix +:+ r = t +:+ "-pvc-size" ->
  HasSuffix r "-pvc-size" = false -> nonempty r = true -> r = "pvc-size".
Proof.
  intros [(u & HP & HS)|(u & _ & ->)]%append_split Hns Hne; [|by rewrite HasSuffix_app in Hns].
  assert (Hu : HasSuffix SuggestedPGBackRestRepoVolumeSizeAnnotationPrefix u = true)
    by (rewrite HP; apply HasSuffix_app).
  clear HP. destruct u as [|? u]; [by rewrite app_nil_l_str in HS; subst r|]. injection HS as <- HS.
  repeat (destruct u as [|? u];
    [rewrite app_nil_l_str in HS; subst r; first [done | by vm_compute in Hu]|injection HS as <- HS]).
  done.
Qed.

(** The annotation that suggests a repository volume size determines the
    repository: reading the annotation of a repository gives the repository
    back, and every annotation that is read belongs to the repository it is
    read as, except the one whose prefix and suffix overlap. *)
Theorem suggested_size_annotation_roundtrip (annotation repo : string) :
  PGBackRestRepoFromVolumeSizeAnnotation (SuggestedPGBackRestRepoVolumeSizeAnnotation repo) =
    (repo, nonempty repo) /\
  (PGBackRestRepoFromVolumeSizeAnnotation annotation = (repo, true) ->
   annotation = SuggestedPGBackRestRepoVolumeSizeAnnotation repo \/
   annotation = "suggested-pgbackrest-pvc-size" /\ repo = "pvc-size").
Proof.
  unfold PGBackRestRepoFromVolumeSizeAnnotation, SuggestedPGBackRestRepoVolumeSizeAnnotation.
  set (P := SuggestedPGBackRestRepoVolumeSizeAnnotationPrefix). split.
  - rewrite HasPrefix_app, <- app_assoc_str, HasSuffix_app, app_assoc_str, TrimPrefix_app,
      TrimSuffix_app. done.
  - destruct (HasPrefix annotation P) eqn:EP; [|done].
    destruct (HasSuffix annotation "-pvc-size") eqn:ES; [|done]. simpl. intros E.
    injection E as E Hne. apply drop_string_prefix in EP. set (r := TrimPrefix annotation P) in *.
    unfold TrimSuffix in E, Hne. destruct (HasSuffix r "-pvc-size") eqn:ER.
    + left. apply TrimSuffix_inv in ER. unfold TrimSuffix in ER.
      rewrite EP, ER. destruct (HasSuffix r "-pvc-size") eqn:ER'; [by rewrite E|].
      by rewrite ER, HasSuffix_app in ER'.
    + right. apply HasSuffix_spec in ES as [t Ht]. rewrite EP in Ht.
      assert (r = "pvc-size") as Hr by (by eapply overlap).
      by rewrite EP, Hr, <- E, Hr.
Qed.

Lemma suggested_size_annotation_roundtrip_witness :
  PGBackRestRepoFromVolumeSizeAnnotation "suggested-pgbackrest-repo1-pvc-size" = ("repo1", true) /\
  ("suggested-pgbackrest-repo1-pvc-size" = SuggestedPGBackRestRepoVolumeSizeAnnotation "repo1" \/
   "suggested-pgbackrest-repo1-pvc-size" = "suggested-pgbackrest-pvc-size" /\ "repo1" = "pvc-size").
Proof.
  split; [vm_compute; reflexivity|].
  apply (suggested_size_annotation_roundtrip "suggested-pgbackrest-repo1-pvc-size" "repo1").
  vm_compute. reflexivity.
Defined.

(** ToCrunchyAnnotation is injective on the annotations with Percona's
    prefix, leaves the others alone, and maps the backup and restore
    annotations of a PerconaPGCluster to those the upstream controller
    reads. *)
Theorem ToCrunchyAnnotation_spec (a b : string) :
  (HasPrefix a PrefixPerconaPGV2 = true -> HasPrefix b PrefixPerconaPGV2 = true ->
     ToCrunchyAnnotation a = ToCrunchyAnnotation b -> a = b) /\
  (HasPrefix a PrefixPerconaPGV2 = false -> ToCrunchyAnnotation a = a) /\
  ToCrunchyAnnotation AnnotationPGBackrestBackup = PGBackRestBackup /\
  ToCrunchyAnnotation AnnotationPGBackRestRestore = PGBackRestRestore.
Proof.
  split_and!; [| |by vm_compute..].
  - intros [s ->]%HasPrefix_spec [t ->]%HasPrefix_spec.
    unfold ToCrunchyAnnotation, replacePrefix. rewrite !CutPrefix_app. by intros ->%app_inj_l_str.
  - intros E. unfold ToCrunchyAnnotation, replacePrefix, CutPrefix. by rewrite E.
Qed.

Lemma ToCrunchyAnnotation_spec_witness :
  HasPrefix AnnotationBackupInProgress PrefixPerconaPGV2 = true /\
  ToCrunchyAnnotation LabelPerconaName = LabelPerconaName.
Proof.
  split; [by vm_compute|].
  apply (proj1 (proj2 (ToCrunchyAnnotation_spec LabelPerconaName ""))). by vm_compute.
Defined.

(** The cluster domain is the override when there is one, the domain of
    the looked-up service without the root dot, or the default; and the DNS
    names of a service are its names in that domain, most specific first,
    unless its name or namespace is missing. *)
Theorem ServiceDNSNames_spec (cname : option string) (svc : Named) (domain override : string) :
  last_not (fun c => bool_decide (c = "."%char)) domain = true ->
  KubernetesClusterDomain (Some ("kubernetes.default.svc." +:+ domain)) "" = domain /\
  KubernetesClusterDomain (Some ("kubernetes.default.svc." +:+ domain +:+ ".")) "" = domain /\
  KubernetesClusterDomain None "" = "cluster.local" /\
  (override <> "" -> KubernetesClusterDomain cname override = override) /\
  (nm_Name svc <> "" -> nm_Namespace svc <> "" ->
   exists fqdn qualified short,
     ServiceDNSNames cname svc override = Ok [fqdn; qualified; short; nm_Name svc] /\
     fqdn = qualified +:+ "." +:+ KubernetesClusterDomain cname override /\
     qualified = short +:+ ".svc" /\ short = nm_Name svc +:+ "." +:+ nm_Namespace svc) /\
  (nm_Name svc = "" \/ nm_Namespace svc = "" -> exists e, ServiceDNSNames cname svc override = Err e).
Proof.
  intros Hd. unfold KubernetesClusterDomain, ServiceDNSNames. simpl. split_and!.
  - rewrite TrimPrefix_app. unfold TrimSuffix.
    destruct (HasSuffix domain ".") eqn:E; [|done]. apply HasSuffix_spec in E as [t ->].
    by rewrite last_not_app in Hd.
  - by rewrite TrimPrefix_app, TrimSuffix_app.
  - done.
  - by destruct override.
  - intros Hn Hns. destruct (nm_Name svc) eqn:EN; [done|]. destruct (nm_Namespace svc) eqn:ENS; [done|].
    simpl negb. cbv iota. unfold dnsNames. eexists _, _, _. split; [reflexivity|].
    by rewrite !app_assoc_str.
  - intros [-> | ->]; [by eexists|]. destruct (nm_Name svc); by eexists.
Qed.

Lemma ServiceDNSNames_spec_witness :
  last_not (fun c => bool_decide (c = "."%char)) "cluster.local" = true /\
  KubernetesClusterDomain (Some "kubernetes.default.svc.cluster.local.") "" = "cluster.local".
Proof.
  assert (H : last_not (fun c => bool_decide (c = "."%char)) "cluster.local" = true)
    by (vm_compute; reflexivity).
  split; [exact H|].
  exact (proj1 (proj2 (ServiceDNSNames_spec None (mkNamed "ns" "svc" "") "cluster.local" "" H))).
Defined.
