(* ===== verification/Objects.v ===== *)
(** * Kubernetes objects

    The fields of the API objects the modelled controllers read or write:
    [pkg/apis/pgv2.percona.com/v2] (PerconaPGBackup, PerconaPGCluster) and the
    built-in kinds.  A time is an integer number of nanoseconds; a nil pointer
    or a zero time is [None]. *)
From S2P Require Import Prelude GoStrings Cluster Errors.

#[local] Set Primitive Projections.

Definition key : Type := string * string.

(** ** Metadata *)
Record ObjectMeta := mkMeta {
  om_Name : string;
  om_Namespace : string;
  om_UID : string;
  om_ResourceVersion : string;
  om_Generation : Z;
  om_CreationTimestamp : Z;
  om_DeletionTimestamp : option Z;
  om_Labels : gmap string string;
  om_Annotations : gmap string string;
  om_Finalizers : list string;
  (** UID of the controlling owner *)
  om_Controller : option string;
  om_GenerateName : string
}.
#[export] Instance ObjectMeta_eta : Eta ObjectMeta := fun m =>
  mkMeta (om_Name m) (om_Namespace m) (om_UID m) (om_ResourceVersion m) (om_Generation m)
    (om_CreationTimestamp m) (om_DeletionTimestamp m) (om_Labels m) (om_Annotations m)
    (om_Finalizers m) (om_Controller m) (om_GenerateName m).

#[export] Instance ObjectMeta_eq_dec : EqDecision ObjectMeta.
Proof. solve_decision. Defined.

Definition objectKey (m : ObjectMeta) : key := (om_Namespace m, om_Name m).

(** An annotation that is absent reads as the empty string. *)
Definition annotation (m : ObjectMeta) (k : string) : string := default "" (om_Annotations m !! k).
Definition label (m : ObjectMeta) (k : string) : string := default "" (om_Labels m !! k).

Definition isDeleting (m : ObjectMeta) : bool := bool_decide (is_Some (om_DeletionTimestamp m)).

(** A volume claim: what it requests, and the VolumeSnapshot it is filled
    from. *)
Record ClaimSpec := mkClaim { claim_Request : string; claim_Snapshot : option string }.
#[export] Instance ClaimSpec_eta : Eta ClaimSpec := fun c =>
  mkClaim (claim_Request c) (claim_Snapshot c).

#[export] Instance ClaimSpec_eq_dec : EqDecision ClaimSpec.
Proof. solve_decision. Defined.

(** ** Repositories: [v1beta1.PGBackRestRepo]; the bucket or container of
    each storage that is set *)
Record RepoS3 := mkS3 { s3_Bucket : string; s3_Endpoint : string; s3_Region : string }.

Record PGBackRestBackupSchedules := mkSchedules {
  sched_Full : option string;
  sched_Differential : option string;
  sched_Incremental : option string
}.

Record PGBackRestRepo := mkRepo {
  repo_Name : string;
  repo_S3 : option RepoS3;
  repo_GCS : option string;
  repo_Azure : option string;
  repo_Volume : option ClaimSpec;
  repo_Schedules : option PGBackRestBackupSchedules
}.

(** ** PerconaPGBackup *)
Inductive PGBackupState := BackupNew | BackupStarting | BackupRunning | BackupFailed
                         | BackupSucceeded | BackupOtherState (s : string).

#[export] Instance PGBackupState_eq_dec : EqDecision PGBackupState.
Proof. solve_decision. Defined.

Inductive BackupMethod := BackupMethodPGBackrest | BackupMethodVolumeSnapshot.

#[export] Instance BackupMethod_eq_dec : EqDecision BackupMethod.
Proof. solve_decision. Defined.

Inductive StorageType := StorageFilesystem | StorageAzure | StorageGCS | StorageS3.

(** [PGBackupState.IsTerminal] *)
Definition IsTerminal (s : PGBackupState) : bool :=
  match s with BackupFailed | BackupSucceeded => true | _ => false end.

Record SnapshotStatus := mkSnapshotStatus {
  snap_Data : option string;
  snap_WAL : option string;
  snap_Tablespaces : gmap string string
}.
#[export] Instance SnapshotStatus_eta : Eta SnapshotStatus := fun s =>
  mkSnapshotStatus (snap_Data s) (snap_WAL s) (snap_Tablespaces s).

Record PerconaPGBackupStatus := mkBackupStatus {
  bs_JobName : string;
  bs_State : PGBackupState;
  bs_Error : string;
  bs_CompletedAt : option Z;
  bs_Destination : string;
  bs_BackupType : string;
  bs_StorageType : option StorageType;
  bs_Repo : option PGBackRestRepo;
  bs_Image : string;
  bs_BackupName : string;
  bs_Size : Z;
  bs_CRVersion : string;
  bs_LatestRestorableTime : option Z;
  bs_Snapshot : option SnapshotStatus;
  bs_Conditions : list Condition
}.
#[export] Instance PerconaPGBackupStatus_eta : Eta PerconaPGBackupStatus := fun s =>
  mkBackupStatus (bs_JobName s) (bs_State s) (bs_Error s) (bs_CompletedAt s) (bs_Destination s)
    (bs_BackupType s) (bs_StorageType s) (bs_Repo s) (bs_Image s) (bs_BackupName s) (bs_Size s)
    (bs_CRVersion s) (bs_LatestRestorableTime s) (bs_Snapshot s) (bs_Conditions s).

Record PerconaPGBackup := mkBackup {
  b_Meta : ObjectMeta;
  b_PGCluster : string;
  b_RepoName : option string;
  b_Method : option BackupMethod;
  b_Options : list string;
  (** [spec.containerOptions]: its environment *)
  b_Env : list string;
  b_EnvFrom : list string;
  b_Status : PerconaPGBackupStatus
}.
#[export] Instance PerconaPGBackup_eta : Eta PerconaPGBackup := fun b =>
  mkBackup (b_Meta b) (b_PGCluster b) (b_RepoName b) (b_Method b) (b_Options b) (b_Env b)
    (b_EnvFrom b) (b_Status b).

Definition b_Name (b : PerconaPGBackup) : string := om_Name (b_Meta b).
Definition b_Namespace (b : PerconaPGBackup) : string := om_Namespace (b_Meta b).
Definition b_State (b : PerconaPGBackup) : PGBackupState := bs_State (b_Status b).

(** ** Pods that are rendered in full

    Resources, affinity and tolerations are opaque; security contexts are left
    out. *)
Record Probe := mkProbe {
  (** the command of [exec] *)
  pr_Command : option (list string);
  pr_InitialDelaySeconds : Z;
  pr_PeriodSeconds : Z;
  pr_FailureThreshold : Z;
  pr_SuccessThreshold : Z;
  pr_TimeoutSeconds : Z
}.
#[export] Instance Probe_eta : Eta Probe := fun p =>
  mkProbe (pr_Command p) (pr_InitialDelaySeconds p) (pr_PeriodSeconds p) (pr_FailureThreshold p)
    (pr_SuccessThreshold p) (pr_TimeoutSeconds p).

(** An environment variable with a value or the value of a key of a Secret, or
    an entry of a list of the specification *)
Inductive EnvVar :=
| EnvValue (name value : string)
| EnvSecret (name secret key_ : string)
| EnvEntry (entry : string).

Record VolumeMount := mkMount { vm_Name : string; vm_MountPath : string; vm_ReadOnly : bool }.

(** The sources of volumes: a Secret with the mode of its files, a claim, an
    empty directory (in memory or not), a ConfigMap, projections *)
Inductive VolumeSource :=
| FromSecret (name : string) (mode : Z)
| FromClaim (claim : string)
| EmptyDir (memory : bool)
| FromConfigMap (name : string)
| Projected (sources : list FileSource).

Record Container := mkContainer {
  ct_Name : string;
  ct_Image : string;
  ct_ImagePullPolicy : string;
  ct_Command : list string;
  ct_Env : list EnvVar;
  ct_Resources : string;
  ct_Ports : list (string * Z);
  ct_VolumeMounts : list VolumeMount;
  ct_StartupProbe : option Probe;
  ct_LivenessProbe : option Probe;
  ct_ReadinessProbe : option Probe
}.
#[export] Instance Container_eta : Eta Container := fun c =>
  mkContainer (ct_Name c) (ct_Image c) (ct_ImagePullPolicy c) (ct_Command c) (ct_Env c) (ct_Resources c)
    (ct_Ports c) (ct_VolumeMounts c) (ct_StartupProbe c) (ct_LivenessProbe c) (ct_ReadinessProbe c).

Record PodSpec := mkPodSpec {
  psp_Labels : gmap string string;
  psp_Annotations : gmap string string;
  psp_RestartPolicy : string;
  psp_InitContainers : list Container;
  psp_Containers : list Container;
  psp_Volumes : list (string * VolumeSource);
  psp_ImagePullSecrets : list string;
  psp_Affinity : option string;
  psp_Tolerations : list string;
  psp_AutomountServiceAccountToken : option bool;
  psp_EnableServiceLinks : option bool;
  psp_PriorityClassName : string
}.
#[export] Instance PodSpec_eta : Eta PodSpec := fun p =>
  mkPodSpec (psp_Labels p) (psp_Annotations p) (psp_RestartPolicy p) (psp_InitContainers p) (psp_Containers p)
    (psp_Volumes p) (psp_ImagePullSecrets p) (psp_Affinity p) (psp_Tolerations p)
    (psp_AutomountServiceAccountToken p) (psp_EnableServiceLinks p) (psp_PriorityClassName p).

#[export] Instance FileSource_eq_dec : EqDecision FileSource.
Proof. assert (EqDecision Projection) by solve_decision. solve_decision. Defined.

#[export] Instance PodSpec_eq_dec : EqDecision PodSpec.
Proof.
  assert (EqDecision Probe) by solve_decision. assert (EqDecision EnvVar) by solve_decision.
  assert (EqDecision VolumeMount) by solve_decision. assert (EqDecision VolumeSource) by solve_decision.
  assert (EqDecision Container) by solve_decision. solve_decision.
Defined.

(** ** PerconaPGCluster *)
Inductive AppState := AppStateInit | AppStatePaused | AppStateStopping | AppStateReady
                    | AppStateOther (s : string).

#[export] Instance AppState_eq_dec : EqDecision AppState.
Proof. solve_decision. Defined.

Record CheckpointConfig := mkCheckpoint {
  cp_Enabled : option bool;
  cp_TimeoutSeconds : option Z
}.

Record OfflineSnapshotConfig := mkOffline { off_Checkpoint : option CheckpointConfig }.

Record VolumeSnapshotsSpec := mkVolumeSnapshots {
  vs_Schedule : option string;
  vs_Mode : string;
  vs_ClassName : string;
  vs_OfflineConfig : option OfflineSnapshotConfig;
  (** [jobs.tolerations] *)
  vs_JobTolerations : list string
}.

Record PGBackRestManualBackup := mkManual {
  man_RepoName : string;
  man_Options : list string;
  man_Env : list string;
  man_EnvFrom : list string
}.

(** [v1beta1.PostgresClusterDataSource]; a nil slice of tolerations is
    [None]. *)
Record DataSource := mkSource {
  ds_ClusterName : string;
  ds_ClusterNamespace : string;
  ds_RepoName : string;
  ds_Options : list string;
  ds_Tolerations : option (list string);
  ds_Env : list string;
  ds_EnvFrom : list string
}.
#[export] Instance DataSource_eta : Eta DataSource := fun d =>
  mkSource (ds_ClusterName d) (ds_ClusterNamespace d) (ds_RepoName d) (ds_Options d) (ds_Tolerations d) (ds_Env d) (ds_EnvFrom d).

(** [v1beta1.PGBackRestRestore] *)
Record PGBackRestRestoreSpec := mkRestoreSpec {
  rs_Enabled : option bool;
  rs_Source : option DataSource
}.
#[export] Instance PGBackRestRestoreSpec_eta : Eta PGBackRestRestoreSpec := fun r =>
  mkRestoreSpec (rs_Enabled r) (rs_Source r).

(** [v1beta1.PGBackRestJobStatus] *)
Record PGBackRestJobStatus := mkJobStatus {
  jst_ID : string;
  jst_Finished : bool;
  jst_Succeeded : Z;
  jst_Failed : Z;
  jst_CompletionTime : option Z;
  jst_StartTime : option Z;
  jst_Active : Z
}.

Record BackupsSpec := mkBackups {
  bk_Enabled : option bool;
  bk_Image : string;
  bk_Global : gmap string string;
  bk_Repos : list PGBackRestRepo;
  bk_Manual : option PGBackRestManualBackup;
  bk_VolumeSnapshots : option VolumeSnapshotsSpec;
  bk_Restore : option PGBackRestRestoreSpec;
  (** [pgbackrest.jobs] and its tolerations *)
  bk_JobTolerations : option (option (list string));
  bk_TrackLatestRestorableTime : option bool
}.
#[export] Instance BackupsSpec_eta : Eta BackupsSpec := fun b =>
  mkBackups (bk_Enabled b) (bk_Image b) (bk_Global b) (bk_Repos b) (bk_Manual b)
    (bk_VolumeSnapshots b) (bk_Restore b) (bk_JobTolerations b) (bk_TrackLatestRestorableTime b).

(** [PGInstanceSetSpec]: its name and volumes *)
Record PGInstanceSetSpec := mkInstanceSet {
  set_Name : string;
  set_DataVolume : ClaimSpec;
  set_WALVolume : option ClaimSpec;
  set_Tablespaces : list (string * ClaimSpec)
}.

(** [status.patroni] *)
Record PatroniStatus := mkPatroniStatus {
  pt_SystemIdentifier : string;
  pt_Switchover : option string;
  pt_SwitchoverTimeline : option Z
}.
#[export] Instance PatroniStatus_eta : Eta PatroniStatus := fun s =>
  mkPatroniStatus (pt_SystemIdentifier s) (pt_Switchover s) (pt_SwitchoverTimeline s).

(** [resource.Quantity]: the number [q_Unscaled * 10 ^ q_Scale] *)
Record Quantity := mkQuantity { q_Unscaled : Z; q_Scale : Z }.

Record StandbySpec := mkStandbySpec {
  sb_Enabled : bool;
  sb_RepoName : string;
  sb_Host : string;
  sb_MaxAcceptableLag : option Quantity
}.

(** [pb_Expose] is the type of [expose]. *)
Record PGBouncerSpec := mkPGBouncerSpec {
  pb_Replicas : option Z;
  pb_Expose : option string;
  pb_Image : string
}.
#[export] Instance PGBouncerSpec_eta : Eta PGBouncerSpec := fun p =>
  mkPGBouncerSpec (pb_Replicas p) (pb_Expose p) (pb_Image p).

(** [corev1.SecretProjection]: its items are pairs of a key and a path. *)
Record SecretProjection := mkProjection { proj_Name : string; proj_Items : list (string * string) }.

Record SecretsSpec := mkSecrets {
  sec_CustomRootCATLSSecret : option SecretProjection;
  sec_CustomTLSSecret : option SecretProjection;
  sec_CustomReplicationClientTLSSecret : option SecretProjection
}.

Record StandbyStatus := mkStandbyStatus { sbs_LagLastComputedAt : option Z; sbs_LagBytes : Z }.
#[export] Instance StandbyStatus_eta : Eta StandbyStatus := fun s =>
  mkStandbyStatus (sbs_LagLastComputedAt s) (sbs_LagBytes s).

(** The rest of [PerconaPGClusterStatus]: sizes are pairs of size and ready
    counts, with the name for each instance set; [os_Patroni] is
    [status.patroni.status]. *)
Record ObservedStatus := mkObservedStatus {
  os_Postgres : Z * Z;
  os_InstanceSets : list (string * Z * Z);
  os_PGBouncer : Z * Z;
  os_Host : string;
  os_InstalledCustomExtensions : list string;
  os_ObservedGeneration : Z;
  os_Standby : option StandbyStatus;
  os_Patroni : option PatroniStatus
}.
#[export] Instance ObservedStatus_eta : Eta ObservedStatus := fun s =>
  mkObservedStatus (os_Postgres s) (os_InstanceSets s) (os_PGBouncer s) (os_Host s)
    (os_InstalledCustomExtensions s) (os_ObservedGeneration s) (os_Standby s) (os_Patroni s).

(** [ServiceExpose]: its metadata, type and source ranges *)
Record ServiceExpose := mkExpose {
  ex_Metadata : Metadata;
  ex_Type : string;
  ex_LoadBalancerSourceRanges : list string
}.

(** [LogicalReplicaSpec] *)
Record LogicalReplicaSpec := mkReplicaSpec {
  lr_Name : string;
  lr_Databases : list string;
  lr_BootstrapMethod : string;
  lr_DataVolumeClaimSpec : ClaimSpec;
  lr_Metadata : option Metadata;
  lr_Resources : string;
  lr_Affinity : option string;
  lr_Tolerations : list string;
  lr_PriorityClassName : option string;
  lr_Expose : option ServiceExpose;
  lr_StartupProbe : option Probe;
  lr_LivenessProbe : option Probe;
  lr_ReadinessProbe : option Probe
}.

(** [LogicalReplicaState] *)
Inductive LogicalReplicaState := ReplicaBootstrapping | ReplicaReady | ReplicaBroken | ReplicaSuspended
                               | ReplicaOtherState (s : string).

#[export] Instance LogicalReplicaState_eq_dec : EqDecision LogicalReplicaState.
Proof. solve_decision. Defined.

(** [LogicalReplicaStatus] *)
Record LogicalReplicaStatus := mkReplicaStatus {
  ls_Name : string;
  ls_State : LogicalReplicaState;
  ls_Reason : string;
  ls_Message : string;
  ls_Databases : list string;
  ls_SeededAt : option Z;
  ls_PostgresVersion : Z;
  ls_InvalidatedAt : option Z
}.
#[export] Instance LogicalReplicaStatus_eta : Eta LogicalReplicaStatus := fun s =>
  mkReplicaStatus (ls_Name s) (ls_State s) (ls_Reason s) (ls_Message s) (ls_Databases s) (ls_SeededAt s)
    (ls_PostgresVersion s) (ls_InvalidatedAt s).

#[export] Instance LogicalReplicaStatus_eq_dec : EqDecision LogicalReplicaStatus.
Proof. solve_decision. Defined.

Record PerconaPGCluster := mkPGCluster {
  c_Meta : ObjectMeta;
  c_CRVersion : string;
  c_Unmanaged : option bool;
  c_Pause : option bool;
  c_Backups : BackupsSpec;
  c_State : AppState;
  c_PatroniVersion : string;
  c_Conditions : list Condition;
  c_InstanceSets : list PGInstanceSetSpec;
  c_PostgresVersion : Z;
  c_Image : string;
  (** [status.pgbackrest.restore]; [None] when any of the two is nil *)
  c_RestoreStatus : option PGBackRestJobStatus;
  c_Standby : option StandbySpec;
  (** [spec.proxy.pgBouncer]; [None] when either is nil *)
  c_PGBouncer : option PGBouncerSpec;
  c_Secrets : SecretsSpec;
  (** the names of [spec.extensions.custom] *)
  c_CustomExtensions : list string;
  c_Metadata : option Metadata;
  c_Observed : ObservedStatus;
  (** whether [spec.extensions.storage.secret] is set *)
  c_ExtensionStorage : bool;
  c_Port : option Z;
  c_ImagePullPolicy : string;
  c_ImagePullSecrets : list string;
  (** [spec.logicalReplicas] and [status.logicalReplicas] *)
  c_LogicalReplicas : list LogicalReplicaSpec;
  c_LogicalReplicaStatuses : list LogicalReplicaStatus
}.
#[export] Instance PerconaPGCluster_eta : Eta PerconaPGCluster := fun c =>
  mkPGCluster (c_Meta c) (c_CRVersion c) (c_Unmanaged c) (c_Pause c) (c_Backups c) (c_State c)
    (c_PatroniVersion c) (c_Conditions c) (c_InstanceSets c) (c_PostgresVersion c) (c_Image c)
    (c_RestoreStatus c) (c_Standby c) (c_PGBouncer c) (c_Secrets c) (c_CustomExtensions c)
    (c_Metadata c) (c_Observed c) (c_ExtensionStorage c) (c_Port c) (c_ImagePullPolicy c)
    (c_ImagePullSecrets c) (c_LogicalReplicas c) (c_LogicalReplicaStatuses c).

(** [PGBackrestAnnotationBackupName] *)
Definition PGBackrestAnnotationBackupName : string := "percona.com/backup-name".
Definition PGBackrestAnnotationJobName : string := "percona.com/backup-job-name".
Definition PGBackrestAnnotationJobType : string := "percona.com/backup-job-type".

(** [PerconaPGBackup.Default]; the option reads
    --annotation="percona.com/backup-name"="NAME". *)
Definition Default (b : PerconaPGBackup) : PerconaPGBackup :=
  let b := match b_Method b with
           | None => b <| b_Method := Some BackupMethodPGBackrest |>
           | Some _ => b
           end in
  if bool_decide (b_Method b = Some BackupMethodPGBackrest)
  then b <| b_Options ::= fun l => l ++
         ["--annotation=" +:+ char dquote +:+ PGBackrestAnnotationBackupName +:+ char dquote +:+
          "=" +:+ char dquote +:+ b_Name b +:+ char dquote] |>
  else b.

Definition c_Name (c : PerconaPGCluster) : string := om_Name (c_Meta c).
Definition c_Namespace (c : PerconaPGCluster) : string := om_Namespace (c_Meta c).

(** [Backups.IsVolumeSnapshotsEnabled] *)
Definition IsVolumeSnapshotsEnabled (b : BackupsSpec) : bool :=
  match bk_VolumeSnapshots b with Some v => nonempty (vs_ClassName v) | None => false end.

(** [Backups.IsEnabled] *)
Definition IsEnabled (b : BackupsSpec) : bool :=
  match bk_Enabled b with None => true | Some e => e end.

(** [DefaultOfflineSnapshotConfig] *)
Definition DefaultOfflineSnapshotConfig : OfflineSnapshotConfig :=
  mkOffline (Some (mkCheckpoint (Some true) (Some 300%Z))).

(** ** The upstream PostgresCluster object *)

(** [v1beta1.RepoStatus] *)
Record RepoStatus := mkRepoStatus {
  rst_Name : string;
  rst_Bound : bool;
  rst_VolumeName : string;
  rst_StanzaCreated : bool;
  rst_ReplicaCreateBackupComplete : bool;
  rst_RepoOptionsHash : string;
  rst_DesiredRepoVolume : string
}.
#[export] Instance RepoStatus_eta : Eta RepoStatus := fun s =>
  mkRepoStatus (rst_Name s) (rst_Bound s) (rst_VolumeName s) (rst_StanzaCreated s)
    (rst_ReplicaCreateBackupComplete s) (rst_RepoOptionsHash s) (rst_DesiredRepoVolume s).

#[export] Instance RepoStatus_eq_dec : EqDecision RepoStatus.
Proof. solve_decision. Defined.

(** [status.pgbackrest]: [manualBackup], [restore], whether the repository host
    is ready, and the repositories *)
Record PGBackRestStatus := mkPGBackRestStatus {
  ps_ManualBackup : option PGBackRestJobStatus;
  ps_Restore : option PGBackRestJobStatus;
  ps_RepoHostReady : option bool;
  ps_Repos : list RepoStatus
}.
#[export] Instance PGBackRestStatus_eta : Eta PGBackRestStatus := fun s =>
  mkPGBackRestStatus (ps_ManualBackup s) (ps_Restore s) (ps_RepoHostReady s) (ps_Repos s).

(** [v1beta1.PostgresInstanceSetSpec]: [replicas] has a default, so the pointer
    is never nil; whether there is a WAL volume, and the storage limit of the
    data volume (0 when there is none). *)
Record PostgresInstanceSetSpec := mkSetSpec {
  is_Name : string;
  is_Replicas : Z;
  is_WALVolume : bool;
  is_StorageLimit : Z
}.

(** [v1beta1.PostgresInstanceSetStatus] *)
Record PostgresInstanceSetStatus := mkSetStatus {
  iss_Name : string;
  iss_Replicas : Z;
  iss_ReadyReplicas : Z;
  iss_UpdatedReplicas : Z;
  iss_DesiredPGDataVolume : gmap string string
}.
#[export] Instance PostgresInstanceSetStatus_eta : Eta PostgresInstanceSetStatus := fun s =>
  mkSetStatus (iss_Name s) (iss_Replicas s) (iss_ReadyReplicas s) (iss_UpdatedReplicas s)
    (iss_DesiredPGDataVolume s).

(** [v1beta1.PGBackRestDataSource] *)
Record CloudDataSource := mkCloudSource {
  cl_Stanza : string;
  cl_Repo : PGBackRestRepo;
  cl_Options : list string
}.

(** [spec.dataSource]: [postgresCluster] and [pgbackrest] *)
Record ClusterDataSource := mkClusterSource {
  cds_PostgresCluster : option DataSource;
  cds_PGBackRest : option CloudDataSource
}.

(** An item of [spec.backups.pgbackrest.configuration], as far as it projects a
    Secret or a ConfigMap: its name, and whether it is optional. *)
Record ResourceProjection := mkResourceProjection { rp_Name : string; rp_Optional : option bool }.
#[export] Instance ResourceProjection_eta : Eta ResourceProjection := fun p =>
  mkResourceProjection (rp_Name p) (rp_Optional p).

Record VolumeProjection := mkVolumeProjection {
  vp_Secret : option ResourceProjection;
  vp_ConfigMap : option ResourceProjection
}.
#[export] Instance VolumeProjection_eta : Eta VolumeProjection := fun p =>
  mkVolumeProjection (vp_Secret p) (vp_ConfigMap p).

(** [v1beta1.PatroniSwitchover]; the type is Switchover or Failover *)
Record PatroniSwitchoverSpec := mkSwitchover {
  sw_Enabled : bool;
  sw_TargetInstance : option string;
  sw_Type : string
}.

(** [v1beta1.PGBackRestArchive]: [spec.backups.pgbackrest] *)
Record PGBackRestArchive := mkArchive {
  pa_Metadata : Metadata;
  pa_Global : gmap string string;
  pa_Repos : list PGBackRestRepo;
  pa_Manual : option PGBackRestManualBackup;
  pa_Restore : option PGBackRestRestoreSpec;
  pa_Image : string;
  (** [initContainer.image] *)
  pa_InitImage : string;
  (** [jobs.tolerations] *)
  pa_JobTolerations : list string;
  pa_Env : list string;
  pa_EnvFrom : list string;
  (** [manual.initialDelaySeconds], 0 without [manual] *)
  pa_InitialDelay : Z;
  pa_Configuration : list VolumeProjection
}.
#[export] Instance PGBackRestArchive_eta : Eta PGBackRestArchive := fun a =>
  mkArchive (pa_Metadata a) (pa_Global a) (pa_Repos a) (pa_Manual a) (pa_Restore a) (pa_Image a)
    (pa_InitImage a) (pa_JobTolerations a) (pa_Env a) (pa_EnvFrom a) (pa_InitialDelay a)
    (pa_Configuration a).

(** ** TLS: [v1beta1.TLSSpec]; durations are in nanoseconds *)
Record IssuerReference := mkIssuerRef { ir_Name : string; ir_Kind : string; ir_Group : string }.

#[export] Instance IssuerReference_eq_dec : EqDecision IssuerReference.
Proof. solve_decision. Defined.

Record TLSSpec := mkTLS {
  tls_CertValidityDuration : option Z;
  tls_CAValidityDuration : option Z;
  tls_PGBackRestCertValidityDuration : option Z;
  tls_CertManagementPolicy : string;
  tls_IssuerConf : option IssuerReference
}.

Definition CertManagementAuto : string := "auto".
Definition CertManagementUserProvidedOnly : string := "userProvidedOnly".
Definition CertManagementOperatorProvidedOnly : string := "operatorProvidedOnly".

Definition GetCertManagementPolicy (s : option TLSSpec) : string :=
  match s with
  | Some s => if nonempty (tls_CertManagementPolicy s) then tls_CertManagementPolicy s else CertManagementAuto
  | None => CertManagementAuto
  end.

(** [PGTDEVaultSpec]: its secrets are names with a key. *)
Record PGTDEVaultSpec := mkVault {
  va_Host : string;
  va_MountPath : string;
  va_TokenSecret : string * string;
  va_CASecret : string * string
}.

(** [PostgresUserSpec]; the databases may be nil, and [u_PasswordType] is
    [None] when the password is nil. *)
Record PostgresUserSpec := mkUser {
  u_Name : string;
  u_Databases : option (list string);
  u_Options : string;
  u_PasswordType : option string;
  u_SecretName : string;
  u_GrantPublicSchemaAccess : option bool
}.

(** [cc_Config] is the specification as far as Cluster.v models it. *)
Record CrunchyCluster := mkCrunchy {
  cc_Meta : ObjectMeta;
  cc_Config : PostgresCluster;
  cc_Metadata : Metadata;
  cc_Port : option Z;
  (** [spec.clusterServiceDNSSuffix] *)
  cc_DNSSuffix : string;
  cc_Backups : PGBackRestArchive;
  (** whether [spec.backups] is not its zero value, [spec.backups.enabled], and
      whether [spec.backups.snapshots] is there *)
  cc_BackupsSpec : bool;
  cc_BackupsEnabled : option bool;
  cc_Snapshots : bool;
  (** [spec.initContainer.image] *)
  cc_InitImage : string;
  cc_InstanceSets : list PostgresInstanceSetSpec;
  cc_Shutdown : option bool;
  (** [spec.patroni.switchover]; [None] when either is nil *)
  cc_Switchover : option PatroniSwitchoverSpec;
  cc_PGBackRest : option PGBackRestStatus;
  cc_StatusSets : list PostgresInstanceSetStatus;
  cc_StartupInstance : string;
  cc_StartupInstanceSet : string;
  cc_Patroni : PatroniStatus;
  (** [status.proxy.pgBouncer]: replicas, and those that are ready *)
  cc_PGBouncer : Z * Z;
  cc_Paused : option bool;
  (** [status.postgresVersion] and [status.observedGeneration] *)
  cc_StatusVersion : Z;
  cc_ObservedGeneration : Z;
  cc_DataSource : option ClusterDataSource;
  (** [status.proxy.pgBouncer.postgresRevision] and
      [status.monitoring.exporterConfiguration] *)
  cc_PGBouncerRevision : string;
  cc_ExporterConfiguration : string;
  cc_TLS : option TLSSpec;
  (** [spec.config.files] *)
  cc_ConfigFiles : list FileSource;
  cc_CustomRootCATLSSecret : option Projection;
  cc_CustomTLSSecret : option Projection;
  cc_CustomReplicationClientTLSSecret : option Projection;
  (** [status.databaseRevision] *)
  cc_DatabaseRevision : string;
  (** [spec.initContainer.resources] *)
  cc_InitResources : option string;
  (** [spec.extensions.pg_tde.vault] and [status.pgTDERevision] *)
  cc_Vault : option PGTDEVaultSpec;
  cc_PGTDERevision : string;
  (** [spec.users], which may be nil, and [status.usersRevision] *)
  cc_Users : option (list PostgresUserSpec);
  cc_UsersRevision : string;
  (** [spec.databaseInitSQL]: a name and a key; [status.databaseInitSQL] *)
  cc_DatabaseInitSQL : option (string * string);
  cc_StatusDatabaseInitSQL : option string;
  cc_PostGISVersion : string;
  (** of [spec.extensions] *)
  cc_PGVector : bool;
  cc_PGRepack : bool
}.
#[export] Instance CrunchyCluster_eta : Eta CrunchyCluster := fun c =>
  mkCrunchy (cc_Meta c) (cc_Config c) (cc_Metadata c) (cc_Port c) (cc_DNSSuffix c) (cc_Backups c)
    (cc_BackupsSpec c) (cc_BackupsEnabled c) (cc_Snapshots c) (cc_InitImage c) (cc_InstanceSets c) (cc_Shutdown c) (cc_Switchover c)
    (cc_PGBackRest c) (cc_StatusSets c) (cc_StartupInstance c) (cc_StartupInstanceSet c)
    (cc_Patroni c) (cc_PGBouncer c) (cc_Paused c)
    (cc_StatusVersion c) (cc_ObservedGeneration c) (cc_DataSource c) (cc_PGBouncerRevision c)
    (cc_ExporterConfiguration c) (cc_TLS c) (cc_ConfigFiles c)
    (cc_CustomRootCATLSSecret c) (cc_CustomTLSSecret c) (cc_CustomReplicationClientTLSSecret c)
    (cc_DatabaseRevision c) (cc_InitResources c) (cc_Vault c) (cc_PGTDERevision c) (cc_Users c) (cc_UsersRevision c)
    (cc_DatabaseInitSQL c) (cc_StatusDatabaseInitSQL c) (cc_PostGISVersion c) (cc_PGVector c) (cc_PGRepack c).

Definition cc_Name (c : CrunchyCluster) : string := om_Name (cc_Meta c).
Definition cc_Namespace (c : CrunchyCluster) : string := om_Namespace (cc_Meta c).

(** The cluster as Cluster.v and Naming.v see it. *)
Definition config (c : CrunchyCluster) : PostgresCluster :=
  cc_Config c <| pc_Name := cc_Name c |> <| pc_Namespace := cc_Namespace c |>
              <| pc_Labels := om_Labels (cc_Meta c) |>.

(** A PostgresCluster of which only the name and the namespace are set, as the
    Percona controllers make it to find names. *)
Definition namedCluster (namespace name : string) : PostgresCluster :=
  mkCluster name namespace ∅ 0 false None None [] None None None
    (mkExtensions false false false false false false false) None [] [].

(** ** PerconaPGRestore *)
Inductive PGRestoreState := RestoreNew | RestoreStarting | RestoreRunning | RestoreFailed
                          | RestoreSucceeded | RestoreOtherState (s : string).

#[export] Instance PGRestoreState_eq_dec : EqDecision PGRestoreState.
Proof. solve_decision. Defined.

Record PerconaPGRestore := mkRestore {
  r_Meta : ObjectMeta;
  r_PGCluster : string;
  r_RepoName : option string;
  r_VolumeSnapshotBackupName : string;
  r_Options : list string;
  r_Env : list string;
  r_EnvFrom : list string;
  r_State : PGRestoreState;
  r_CompletedAt : option Z
}.
#[export] Instance PerconaPGRestore_eta : Eta PerconaPGRestore := fun r =>
  mkRestore (r_Meta r) (r_PGCluster r) (r_RepoName r) (r_VolumeSnapshotBackupName r) (r_Options r)
    (r_Env r) (r_EnvFrom r) (r_State r) (r_CompletedAt r).

Definition r_Name (r : PerconaPGRestore) : string := om_Name (r_Meta r).

(** [PerconaPGRestore.IsCompleted] *)
Definition IsCompleted (r : PerconaPGRestore) : bool :=
  bool_decide (r_State r = RestoreSucceeded) || bool_decide (r_State r = RestoreFailed).

(** ** Upgrades of the major version *)

(** What [PGUpgradeSpec] and [PerconaPGUpgradeSpec] share: [us_CPU] are the
    limit and the request in thousandths of a CPU; init containers are named,
    mounts are pairs of a volume and a path. *)
Record UpgradeSpec := mkUpgradeSpec {
  us_Metadata : Metadata;
  us_PostgresClusterName : string;
  us_Image : option string;
  us_FromPostgresVersion : Z;
  us_ToPostgresVersion : Z;
  us_ToPostgresImage : string;
  us_CPU : Z * Z;
  us_Tolerations : list string;
  us_InitContainers : list string;
  us_VolumeMounts : list (string * string)
}.
#[export] Instance UpgradeSpec_eta : Eta UpgradeSpec := fun s =>
  mkUpgradeSpec (us_Metadata s) (us_PostgresClusterName s) (us_Image s) (us_FromPostgresVersion s)
    (us_ToPostgresVersion s) (us_ToPostgresImage s) (us_CPU s) (us_Tolerations s) (us_InitContainers s)
    (us_VolumeMounts s).

(** The upstream [PGUpgrade] *)
Record PGUpgrade := mkPGUpgrade {
  up_Meta : ObjectMeta;
  up_Spec : UpgradeSpec;
  up_Conditions : list Condition
}.
#[export] Instance PGUpgrade_eta : Eta PGUpgrade := fun u => mkPGUpgrade (up_Meta u) (up_Spec u) (up_Conditions u).

Record PerconaPGUpgrade := mkPerconaPGUpgrade {
  pu_Meta : ObjectMeta;
  pu_Spec : UpgradeSpec;
  pu_ToPgBouncerImage : string;
  pu_ToPgBackRestImage : string;
  pu_Conditions : list Condition;
  pu_ObservedGeneration : Z
}.
#[export] Instance PerconaPGUpgrade_eta : Eta PerconaPGUpgrade := fun u =>
  mkPerconaPGUpgrade (pu_Meta u) (pu_Spec u) (pu_ToPgBouncerImage u) (pu_ToPgBackRestImage u)
    (pu_Conditions u) (pu_ObservedGeneration u).

(** A [PGUpgrade] of the former API group, read without a type: what
    [NestedSlice] says of its conditions, and the type of each that is a map. *)
Record LegacyUpgrade := mkLegacy { lu_Meta : ObjectMeta; lu_Conditions : result (option (list (option string))) }.
#[export] Instance LegacyUpgrade_eta : Eta LegacyUpgrade := fun l => mkLegacy (lu_Meta l) (lu_Conditions l).

(** ** Built-in kinds *)

(** The parts of a job's pod that the operator generates: image, command,
    environment, the claims of its volumes and where they are mounted. *)
Record JobSpec := mkJobSpec {
  js_Image : string;
  js_Command : list string;
  js_Volumes : list (string * string);
  js_Mounts : list (string * string);
  js_Tolerations : list string;
  (** the names of the init containers *)
  js_InitContainers : list string;
  (** the image of the init container that the operator adds *)
  js_InitImage : string;
  js_Env : list EnvVar;
  js_EnvFrom : list string;
  js_ServiceAccount : string;
  js_Labels : gmap string string;
  js_Annotations : gmap string string
}.

(** A job of which the rest of the pod is not generated by its function. *)
Definition plainJobSpec (image : string) (command : list string) (volumes mounts : list (string * string))
    (tolerations initContainers : list string) : JobSpec :=
  mkJobSpec image command volumes mounts tolerations initContainers "" [] [] "" ∅ ∅.

Record Job := mkJob {
  j_Meta : ObjectMeta;
  j_Conditions : list (string * ConditionStatus);
  j_CompletionTime : option Z;
  j_Succeeded : Z;
  j_Failed : Z;
  j_Spec : option JobSpec;
  j_StartTime : option Z;
  j_Active : Z;
  (** [backoffLimit], and the pod of a job that is rendered in full *)
  j_BackoffLimit : option Z;
  j_Pod : option PodSpec;
  (** the message of the condition Failed *)
  j_FailedMessage : string
}.
#[export] Instance Job_eta : Eta Job := fun j =>
  mkJob (j_Meta j) (j_Conditions j) (j_CompletionTime j) (j_Succeeded j) (j_Failed j) (j_Spec j)
    (j_StartTime j) (j_Active j) (j_BackoffLimit j) (j_Pod j) (j_FailedMessage j).

Record CronJob := mkCronJob {
  cj_Meta : ObjectMeta;
  cj_Schedule : string;
  cj_Suspend : bool;
  (** whether runs that overlap are forbidden *)
  cj_Forbid : bool;
  cj_Spec : option JobSpec
}.
#[export] Instance CronJob_eta : Eta CronJob := fun c =>
  mkCronJob (cj_Meta c) (cj_Schedule c) (cj_Suspend c) (cj_Forbid c) (cj_Spec c).

(** A ServiceAccount, a Role or a RoleBinding *)
Record MetaObject := mkMetaObject { mo_Meta : ObjectMeta }.
#[export] Instance MetaObject_eta : Eta MetaObject := fun m => mkMetaObject (mo_Meta m).

Record Endpoints := mkEndpoints { ep_Meta : ObjectMeta; ep_Subsets : list string }.
#[export] Instance Endpoints_eta : Eta Endpoints := fun e => mkEndpoints (ep_Meta e) (ep_Subsets e).

Record Lease := mkLease {
  l_Meta : ObjectMeta;
  l_HolderIdentity : option string;
  l_AcquireTime : option Z
}.
#[export] Instance Lease_eta : Eta Lease := fun l =>
  mkLease (l_Meta l) (l_HolderIdentity l) (l_AcquireTime l).

Record VolumeSnapshotError := mkSnapError { vse_Time : option Z; vse_Message : option string }.
Record VolumeSnapshotStatus := mkSnapStatus {
  vss_ReadyToUse : option bool;
  vss_Error : option VolumeSnapshotError
}.
Record VolumeSnapshot := mkSnapshot {
  s_Meta : ObjectMeta;
  s_ClassName : option string;
  s_SourcePVC : option string;
  s_Status : option VolumeSnapshotStatus
}.
#[export] Instance VolumeSnapshot_eta : Eta VolumeSnapshot := fun s =>
  mkSnapshot (s_Meta s) (s_ClassName s) (s_SourcePVC s) (s_Status s).

(** Containers are listed with whether their state is running; [p_Owner] is
    the kind and the name of the controlling owner. *)
Record Pod := mkPod {
  p_Meta : ObjectMeta;
  p_Phase : string;
  p_Conditions : list (string * ConditionStatus);
  p_ContainerStatuses : list (string * bool);
  p_InitContainerStatuses : list (string * bool);
  p_TerminationGracePeriodSeconds : option Z;
  p_Owner : option (string * string);
  (** the images of the containers *)
  p_Images : list (string * string);
  (** the containers whose startup probe has succeeded *)
  p_Started : list string
}.

#[export] Instance Pod_eta : Eta Pod := fun p =>
  mkPod (p_Meta p) (p_Phase p) (p_Conditions p) (p_ContainerStatuses p)
    (p_InitContainerStatuses p) (p_TerminationGracePeriodSeconds p) (p_Owner p) (p_Images p)
    (p_Started p).

(** The parts of a pod template that other pods copy: containers with their
    mounts, the names of the init containers, the claims of the volumes. *)
Record PodTemplate := mkTemplate {
  tpl_Containers : list (string * list (string * string));
  tpl_InitContainers : list string;
  tpl_Volumes : list (string * string)
}.

Record StatefulSet := mkSts {
  st_Meta : ObjectMeta;
  st_Replicas : Z;
  st_ReadyReplicas : Z;
  st_ObservedGeneration : Z;
  st_UpdateRevision : string;
  st_Template : PodTemplate;
  st_ServiceName : string;
  st_Selector : gmap string string;
  (** the template, where it is rendered in full *)
  st_Pod : option PodSpec
}.
#[export] Instance StatefulSet_eta : Eta StatefulSet := fun s =>
  mkSts (st_Meta s) (st_Replicas s) (st_ReadyReplicas s) (st_ObservedGeneration s)
    (st_UpdateRevision s) (st_Template s) (st_ServiceName s) (st_Selector s) (st_Pod s).

(** A Service, with the address and the host name of each ingress of its load
    balancer; a port with its name, number and target *)
Record Service := mkService {
  svc_Meta : ObjectMeta;
  svc_Ingress : list (string * string);
  svc_Selector : gmap string string;
  svc_Ports : list (string * Z * string);
  svc_Type : string;
  svc_LoadBalancerSourceRanges : list string
}.
#[export] Instance Service_eta : Eta Service := fun s =>
  mkService (svc_Meta s) (svc_Ingress s) (svc_Selector s) (svc_Ports s) (svc_Type s)
    (svc_LoadBalancerSourceRanges s).

(** A ConfigMap or a Secret *)
Record DataObject := mkData { d_Meta : ObjectMeta; d_Data : gmap string string }.
#[export] Instance DataObject_eta : Eta DataObject := fun d => mkData (d_Meta d) (d_Data d).

Record PodDisruptionBudget := mkPDB { pdb_Meta : ObjectMeta }.
#[export] Instance PodDisruptionBudget_eta : Eta PodDisruptionBudget := fun p => mkPDB (pdb_Meta p).

(** A PersistentVolumeClaim, with its volume and whether it is bound *)
Record PVC := mkPVC { pvc_Meta : ObjectMeta; pvc_Spec : ClaimSpec; pvc_VolumeName : string; pvc_Bound : bool }.
#[export] Instance PVC_eta : Eta PVC := fun p => mkPVC (pvc_Meta p) (pvc_Spec p) (pvc_VolumeName p) (pvc_Bound p).

(** ** cert-manager *)

(** [metav1.OwnerReference], its API version in its two parts *)
Record OwnerReference := mkOwner {
  or_Group : string;
  or_Version : string;
  or_Kind : string;
  or_Name : string;
  or_UID : string;
  or_Controller : bool;
  or_BlockOwnerDeletion : bool
}.

#[export] Instance OwnerReference_eq_dec : EqDecision OwnerReference.
Proof. solve_decision. Defined.

(** How an issuer issues *)
Inductive IssuerConfig := SelfSigned | CA (secretName : string) | OtherIssuer (name : string).

(** An Issuer or a ClusterIssuer *)
Record Issuer := mkIssuer { is_Meta : ObjectMeta; is_Owners : list OwnerReference; is_Config : IssuerConfig }.
#[export] Instance Issuer_eta : Eta Issuer := fun i => mkIssuer (is_Meta i) (is_Owners i) (is_Config i).

(** [spec.privateKey]: algorithm, size and rotation policy *)
Record CertificatePrivateKey := mkCertKey { ck_Algorithm : string; ck_Size : Z; ck_RotationPolicy : string }.

Record CertificateSpec := mkCertSpec {
  cs_SecretName : string;
  cs_CommonName : string;
  cs_DNSNames : list string;
  cs_IsCA : bool;
  cs_IssuerRef : IssuerReference;
  cs_Duration : option Z;
  cs_RenewBefore : option Z;
  cs_PrivateKey : option CertificatePrivateKey;
  cs_Usages : list string;
  (** the labels of [spec.secretTemplate] *)
  cs_SecretLabels : option (gmap string string)
}.
#[export] Instance CertificateSpec_eta : Eta CertificateSpec := fun c =>
  mkCertSpec (cs_SecretName c) (cs_CommonName c) (cs_DNSNames c) (cs_IsCA c) (cs_IssuerRef c) (cs_Duration c)
    (cs_RenewBefore c) (cs_PrivateKey c) (cs_Usages c) (cs_SecretLabels c).

(** The Certificate resource *)
Record CertificateObject := mkCertObject {
  ce_Meta : ObjectMeta; ce_Owners : list OwnerReference; ce_Spec : CertificateSpec
}.
#[export] Instance CertificateObject_eta : Eta CertificateObject := fun c =>
  mkCertObject (ce_Meta c) (ce_Owners c) (ce_Spec c).
