(* ===== verification/Client.v ===== *)
(** * The Kubernetes client

    The calls controllers make, as the operations of [Prog]: the
    [client.Client] of controller-runtime on each kind of object, commands run
    in containers, the clock, and the order in which Go visits a map.  An
    answer is a value or an error; nothing relates the answers of different
    calls, so a theorem about all executions covers stale reads, conflicts,
    lost updates by others and failures.

    Helpers of client-go and controller-runtime that take a callback
    ([retry.RetryOnConflict], [wait.PollUntilContextTimeout],
    [controllerutil.CreateOrUpdate]) and the finalizer functions are the
    interface [ControllerRuntime], with their documented behaviour as laws. *)
From S2P Require Import Prelude GoStrings Cluster Prog Errors Naming Objects.

(** ** Kinds *)
Inductive kind := KBackup | KPGCluster | KCrunchy | KJob | KLease | KSnapshot | KPod | KSts | KPVC
               | KRestore | KEndpoints | KConfigMap | KSecret | KPDB | KService
               | KPGUpgrade | KPerconaPGUpgrade | KLegacyUpgrade
               | KCronJob | KServiceAccount | KRole | KRoleBinding
               | KIssuer | KClusterIssuer | KCertificate.

Definition obj (k : kind) : Type :=
  match k with
  | KBackup => PerconaPGBackup
  | KPGCluster => PerconaPGCluster
  | KCrunchy => CrunchyCluster
  | KJob => Job
  | KLease => Lease
  | KSnapshot => VolumeSnapshot
  | KPod => Pod
  | KSts => StatefulSet
  | KPVC => PVC
  | KRestore => PerconaPGRestore
  | KEndpoints => Endpoints
  | KConfigMap | KSecret => DataObject
  | KPDB => PodDisruptionBudget
  | KService => Service
  | KPGUpgrade => PGUpgrade
  | KPerconaPGUpgrade => PerconaPGUpgrade
  | KLegacyUpgrade => LegacyUpgrade
  | KCronJob => CronJob
  | KServiceAccount | KRole | KRoleBinding => MetaObject
  | KIssuer | KClusterIssuer => Issuer
  | KCertificate => CertificateObject
  end.

Definition meta {k} : obj k -> ObjectMeta :=
  match k with
  | KBackup => b_Meta
  | KPGCluster => c_Meta
  | KCrunchy => cc_Meta
  | KJob => j_Meta
  | KLease => l_Meta
  | KSnapshot => s_Meta
  | KPod => p_Meta
  | KSts => st_Meta
  | KPVC => pvc_Meta
  | KRestore => r_Meta
  | KEndpoints => ep_Meta
  | KConfigMap | KSecret => d_Meta
  | KPDB => pdb_Meta
  | KService => svc_Meta
  | KPGUpgrade => up_Meta
  | KPerconaPGUpgrade => pu_Meta
  | KLegacyUpgrade => lu_Meta
  | KCronJob => cj_Meta
  | KServiceAccount | KRole | KRoleBinding => mo_Meta
  | KIssuer | KClusterIssuer => is_Meta
  | KCertificate => ce_Meta
  end.

Definition onMeta {k} (f : ObjectMeta -> ObjectMeta) : obj k -> obj k :=
  match k return obj k -> obj k with
  | KBackup => fun o : PerconaPGBackup => o <| b_Meta ::= f |>
  | KPGCluster => fun o : PerconaPGCluster => o <| c_Meta ::= f |>
  | KCrunchy => fun o : CrunchyCluster => o <| cc_Meta ::= f |>
  | KJob => fun o : Job => o <| j_Meta ::= f |>
  | KLease => fun o : Lease => o <| l_Meta ::= f |>
  | KSnapshot => fun o : VolumeSnapshot => o <| s_Meta ::= f |>
  | KPod => fun o : Pod => o <| p_Meta ::= f |>
  | KSts => fun o : StatefulSet => o <| st_Meta ::= f |>
  | KPVC => fun o : PVC => o <| pvc_Meta ::= f |>
  | KRestore => fun o : PerconaPGRestore => o <| r_Meta ::= f |>
  | KEndpoints => fun o : Endpoints => o <| ep_Meta ::= f |>
  | KConfigMap | KSecret => fun o : DataObject => o <| d_Meta ::= f |>
  | KPDB => fun o : PodDisruptionBudget => o <| pdb_Meta ::= f |>
  | KService => fun o : Service => o <| svc_Meta ::= f |>
  | KPGUpgrade => fun o : PGUpgrade => o <| up_Meta ::= f |>
  | KPerconaPGUpgrade => fun o : PerconaPGUpgrade => o <| pu_Meta ::= f |>
  | KLegacyUpgrade => fun o : LegacyUpgrade => o <| lu_Meta ::= f |>
  | KCronJob => fun o : CronJob => o <| cj_Meta ::= f |>
  | KServiceAccount | KRole | KRoleBinding => fun o : MetaObject => o <| mo_Meta ::= f |>
  | KIssuer | KClusterIssuer => fun o : Issuer => o <| is_Meta ::= f |>
  | KCertificate => fun o : CertificateObject => o <| ce_Meta ::= f |>
  end.

(** How a List call selects: by labels, by the field [spec.pgCluster], or
    everything in the namespace. *)
Inductive ListSelector := ByLabels (s : Selector) | ByPGCluster (name : string) | Everything.

Inductive DeleteOptions :=
| NoOptions
| Foreground
| Background
(** UID and ResourceVersion preconditions *)
| Preconditions (uid resourceVersion : string).

(** ** Operations and their answers *)
Inductive op :=
| Get (k : kind) (at_ : key)
| ListAll (k : kind) (namespace : string) (sel : ListSelector)
| Create (k : kind) (o : obj k)
| Update (k : kind) (o : obj k)
| StatusUpdate (k : kind) (o : obj k)
(** [Patch] with [client.MergeFrom(orig)] *)
| Patch (k : kind) (orig o : obj k)
(** [Status().Patch] *)
| StatusPatch (k : kind) (orig o : obj k)
(** [Patch] with a merge patch given as text *)
| RawPatch (k : kind) (at_ : key) (body : string)
(** a server-side apply of the whole object *)
| Apply (k : kind) (o : obj k)
(** whether the API server has a kind, by its group and name *)
| RESTMapping (group kind_ : string)
| Delete (k : kind) (at_ : key) (opts : DeleteOptions)
| DeleteAllOf (k : kind) (namespace : string) (sel : ListSelector)
(** [clientcmd.NewClient] *)
| NewExecClient
| Exec (pod : key) (container : string) (stdin : option string) (command : list string)
(** the [LatestCommitGetter] of the backup controller *)
| LatestCommit (cluster : PerconaPGCluster) (backup : PerconaPGBackup)
| Now
(** [Recorder.Event] on the object that is reconciled *)
| Event (type_ reason : string)
(** [rand.String] *)
| Rand (n : nat)
(** the registry of watchers of the operator, a map in its memory *)
| WatcherExists (name : string)
| AddWatcher (name : string)
| RemoveWatcher (name : string)
| WatcherNames
(** [go watcherFunc(...)] for a cluster *)
| GoWatch (cluster : key)
(** a non-blocking send on the channel that stops watchers: whether one of
    them received it *)
| SendStop (cluster : key)
(** [cmapichecker.New], and the [Check] of such a checker, in a namespace *)
| NewChecker (namespace : string)
| CheckCertManager (namespace : string)
(** the order in which a map with these keys is visited *)
| RangeOrder (keys : list string).

(** Case analysis on a call and, where that matters, on its kind. *)
Ltac case_op o :=
  destruct o; try done; try match goal with k : kind |- _ => destruct k; try done end.

Record ExecOutput := mkExecOutput { out_Stdout : string; out_Stderr : string; out_Err : option error }.

Definition resp (o : op) : Type :=
  match o with
  | Get k _ => result (obj k)
  | ListAll k _ _ => result (list (obj k))
  | Create k _ | Update k _ | StatusUpdate k _ | Patch k _ _ | StatusPatch k _ _ => result (obj k)
  | RawPatch k _ _ | Apply k _ => result (obj k)
  | RESTMapping _ _ => result unit
  | Delete _ _ _ | DeleteAllOf _ _ _ => result unit
  | Event _ _ => unit
  | Rand _ => string
  | NewExecClient => result unit
  | Exec _ _ _ _ => ExecOutput
  | LatestCommit _ _ => result (option Z)
  | Now => Z
  | WatcherExists _ | SendStop _ => bool
  | AddWatcher _ => result unit
  | RemoveWatcher _ | GoWatch _ => unit
  | WatcherNames => list string
  | NewChecker _ | CheckCertManager _ => result unit
  | RangeOrder keys => { l : list string | l ≡ₚ keys }
  end.

Abbreviation history := (trace resp).
Abbreviation program A := (prog resp A).
(** A Go function with a final [error] result. *)
Abbreviation action A := (prog resp (result A)).

(** ** Errors in sequences of calls *)
Section Sequencing.
Context {A B : Type}.

(** Go's [if err != nil { return errors.Wrap(err, ...) }]. *)
Definition bindr (p : action A) (w : error -> error) (k : A -> action B) : action B :=
  bind p (fun r => match r with Ok a => k a | Err e => Ret (Err (w e)) end).

(** A call whose result object is not used. *)
Definition ignore (p : action A) : action unit :=
  bind p (fun r => Ret (match r with Ok _ => Ok tt | Err e => Err e end)).
End Sequencing.

Notation "'do!' x ':=' p 'or' m 'in' k" := (bindr p (Wrap m) (fun x => k))
  (at level 10, x pattern, p at level 100, m at level 9, k at level 200) : prog_scope.
Notation "'do!' x ':=' p 'in' k" := (bindr p id (fun x => k))
  (at level 10, x pattern, p at level 100, k at level 200) : prog_scope.

(** ** Helpers of client-go and controller-runtime *)
Class ControllerRuntime := {
  RetryOnConflict : action unit -> action unit;
  PollUntilContextTimeout : action bool -> action unit;
  CreateOrUpdateLease : Lease -> (Lease -> action Lease) -> action unit;
  ContainsFinalizer : list string -> string -> bool;
  (** the new list, and whether it differs *)
  AddFinalizer : list string -> string -> list string * bool;
  RemoveFinalizer : list string -> string -> list string * bool;
  (** owner, object; the error of an unknown kind or of another controller *)
  SetControllerReference : ObjectMeta -> ObjectMeta -> result ObjectMeta;

  (** reruns the function while it answers a conflict, a bounded number of
      times, and returns its last answer *)
  RetryOnConflict_wps (G : history -> op -> Prop) (I : history -> Prop) fn Q h :
    I h ->
    (forall h, I h -> wps G h fn (fun h' r =>
       Q h' r /\ match r with Err e => IsConflict e = true -> I h' | Ok _ => True end)) ->
    wps G h (RetryOnConflict fn) Q;

  (** runs the condition, at least once, until it answers true, answers an
      error or the time is over *)
  PollUntilContextTimeout_wps (G : history -> op -> Prop) (I : history -> Prop) cond Q h :
    I h ->
    (forall h, I h -> wps G h cond (fun h' r =>
       match r with
       | Ok true => Q h' (Ok tt)
       | Ok false => I h' /\ Q h' (Err (Sentinel "context deadline exceeded"))
       | Err e => Q h' (Err e)
       end)) ->
    wps G h (PollUntilContextTimeout cond) Q;

  (** fetches the object; mutates the given one and creates it when there is
      none, or mutates the fetched one and updates it when that changed it *)
  CreateOrUpdateLease_wps (G : history -> op -> Prop) (o : Lease) (f : Lease -> action Lease) Q h :
    G h (Get KLease (objectKey (l_Meta o))) ->
    (forall r : result Lease,
       let h1 := h ++ [Ev (Get KLease (objectKey (l_Meta o)) : op) r] in
       match r with
       | Err e =>
           if IsNotFound e
           then wps G h1 (f o) (fun h2 r2 => match r2 with
             | Err e => Q h2 (Err e)
             | Ok o' => G h2 (Create KLease o') /\
                 forall r3 : result Lease, Q (h2 ++ [Ev (Create KLease o' : op) r3])
                   (match r3 with Ok _ => Ok tt | Err e => Err e end)
             end)
           else Q h1 (Err e)
       | Ok cur =>
           wps G h1 (f cur) (fun h2 r2 => match r2 with
             | Err e => Q h2 (Err e)
             | Ok o' => (o' = cur -> Q h2 (Ok tt)) /\
                 (o' <> cur -> G h2 (Update KLease o') /\
                   forall r3 : result Lease, Q (h2 ++ [Ev (Update KLease o' : op) r3])
                     (match r3 with Ok _ => Ok tt | Err e => Err e end))
             end)
       end) ->
    wps G h (CreateOrUpdateLease o f) Q;

  ContainsFinalizer_spec l f : ContainsFinalizer l f = bool_decide (f ∈ l);
  AddFinalizer_spec l f :
    (AddFinalizer l f).2 = negb (bool_decide (f ∈ l)) /\
    ((AddFinalizer l f).2 = false -> (AddFinalizer l f).1 = l) /\
    forall g, g ∈ (AddFinalizer l f).1 <-> g = f \/ g ∈ l;
  RemoveFinalizer_spec l f :
    (RemoveFinalizer l f).2 = bool_decide (f ∈ l) /\
    ((RemoveFinalizer l f).2 = false -> (RemoveFinalizer l f).1 = l) /\
    forall g, g ∈ (RemoveFinalizer l f).1 <-> g <> f /\ g ∈ l;
  SetControllerReference_spec owner m m' :
    SetControllerReference owner m = Ok m' -> m' = m <| om_Controller := Some (om_UID owner) |>;
  (** its errors are none of the operator's sentinels *)
  SetControllerReference_error owner m e s : SetControllerReference owner m = Err e -> Is e s = false
}.

(** [controllerutil.CreateOrUpdate] with a function that changes the object, or
    fails, without calls of its own.  It fetches the object; changes the given
    one and creates it when there is none, or changes the fetched one and
    updates it, unless it finds nothing to update.  The function keeps the name
    and the namespace. *)
Class CreateOrUpdates := {
  CreateOrUpdate (k : kind) : obj k -> (obj k -> result (obj k)) -> action unit;
  CreateOrUpdate_wps (G : history -> op -> Prop) (k : kind) (o : obj k) (f : obj k -> result (obj k)) Q h :
    (forall x x', f x = Ok x' -> objectKey (meta x') = objectKey (meta x)) ->
    G h (Get k (objectKey (meta o))) ->
    (forall r : result (obj k),
       let h1 := h ++ [Ev (Get k (objectKey (meta o)) : op) r] in
       match r with
       | Err e =>
           if IsNotFound e
           then match f o with
                | Err e => Q h1 (Err e)
                | Ok o' => G h1 (Create k o') /\
                    forall r2 : result (obj k), Q (h1 ++ [Ev (Create k o' : op) r2])
                      (match r2 with Ok _ => Ok tt | Err e => Err e end)
                end
           else Q h1 (Err e)
       | Ok cur =>
           match f cur with
           | Err e => Q h1 (Err e)
           | Ok o' => Q h1 (Ok tt) /\ G h1 (Update k o') /\
               forall r2 : result (obj k), Q (h1 ++ [Ev (Update k o' : op) r2])
                 (match r2 with Ok _ => Ok tt | Err e => Err e end)
           end
       end) ->
    wps G h (CreateOrUpdate k o f) Q
}.

(** ** Rules *)
Section Rules.
Context {A B : Type}.

Lemma wps_bindr G h (p : action A) w (k : A -> action B) Q :
  wps G h (bindr p w k) Q <->
  wps G h p (fun h r => match r with Ok a => wps G h (k a) Q | Err e => Q h (Err (w e)) end).
Proof.
  unfold bindr. rewrite wps_bind.
  split; intros H; eapply wps_conseq; try exact H; intros h' [a|e]; done.
Qed.

Lemma wps_call_bind G h (o : op) (k : resp o -> program B) Q :
  wps G h (bind (call o) k) Q <-> G h o /\ forall r, wps G (h ++ [Ev o r]) (k r) Q.
Proof. done. Qed.

Lemma wps_ignore G h (p : action A) Q :
  wps G h (ignore p) Q <->
  wps G h p (fun h r => Q h (match r with Ok _ => Ok tt | Err e => Err e end)).
Proof. unfold ignore. by rewrite wps_bind. Qed.
End Rules.

(** The outcome of a call without its object. *)
Definition outcome {A} (r : result A) : result unit := match r with Ok _ => Ok tt | Err e => Err e end.

(** Read-modify-write: get an object, change it, write it back, until there is
    no conflict.  The retried function sees a fresh object each time. *)
Section ReadModifyWrite.
Context `{ControllerRuntime}.

Lemma RetryOnConflict_prefix (G : history -> op -> Prop) fn (Q : history -> result unit -> Prop) h :
  (forall h', h `prefix_of` h' -> wps G h' fn Q) -> wps G h (RetryOnConflict fn) Q.
Proof.
  intros Hfn. apply (RetryOnConflict_wps G (prefix h)); [done|].
  intros h' Hp. eapply wps_conseq; [apply wps_prefix, Hfn, Hp|].
  intros h2 r [Hp2 HQ]. split; [done|]. destruct r; [done|]. intros _. by transitivity h'.
Qed.
End ReadModifyWrite.

(** ** Reading a history *)

(** The error an event answers, if any. *)
Definition answer_err (e : event resp) : option error :=
  let '(Ev o r) := e in
  match o return resp o -> option error with
  | Get _ _ => fun r => err_of r
  | ListAll _ _ _ => fun r => err_of r
  | Create _ _ => fun r => err_of r
  | Update _ _ => fun r => err_of r
  | StatusUpdate _ _ => fun r => err_of r
  | Patch _ _ _ => fun r => err_of r
  | StatusPatch _ _ _ => fun r => err_of r
  | RawPatch _ _ _ => fun r => err_of r
  | Apply _ _ => fun r => err_of r
  | RESTMapping _ _ => fun r => err_of r
  | Delete _ _ _ => fun r => err_of r
  | DeleteAllOf _ _ _ => fun r => err_of r
  | Event _ _ => fun _ => None
  | Rand _ => fun _ => None
  | NewExecClient => fun r => err_of r
  | Exec _ _ _ _ => fun r => out_Err r
  | LatestCommit _ _ => fun r => err_of r
  | Now => fun _ => None
  | WatcherExists _ | SendStop _ => fun _ => None
  | AddWatcher _ => fun r => err_of r
  | RemoveWatcher _ | GoWatch _ => fun _ => None
  | WatcherNames => fun _ => None
  | NewChecker _ | CheckCertManager _ => fun r => err_of r
  | RangeOrder _ => fun _ => None
  end r.

(** [got k at_ r]: the answer [r] to a Get call. *)
Definition got (k : kind) (at_ : key) (r : result (obj k)) : event resp :=
  Ev (Get k at_ : op) (r : resp (Get k at_)).

(** [read h k at_ o]: the object [o] was read at [at_] in the history [h]. *)
Definition read (h : history) (k : kind) (at_ : key) (o : obj k) : Prop :=
  got k at_ (Ok o) ∈ h.

Lemma elem_of_grow (h h' : history) e : e ∈ h -> h `prefix_of` h' -> e ∈ h'.
Proof. intros Hin [t ->]. apply elem_of_app. by left. Qed.

Lemma elem_of_snoc (h : history) e : e ∈ h ++ [e].
Proof. apply elem_of_app. right. by apply list_elem_of_singleton. Qed.

#[export] Hint Resolve elem_of_snoc : operator.

(** ** What stays true as the history grows *)
Class Grows (P : history -> Prop) := grows h h' : P h -> h `prefix_of` h' -> P h'.

#[export] Instance grows_elem (e : event resp) : Grows (elem_of e).
Proof. intros h h'. apply elem_of_grow. Qed.

#[export] Instance grows_elem_eta (e : event resp) : Grows (fun h => e ∈ h).
Proof. intros h h'. apply elem_of_grow. Qed.

#[export] Instance grows_read k at_ o : Grows (fun h => read h k at_ o).
Proof. intros h h'. apply elem_of_grow. Qed.

#[export] Instance grows_const (P : Prop) : Grows (fun _ => P) | 20.
Proof. by intros h h' HP _. Qed.

#[export] Instance grows_and P Q : Grows P -> Grows Q -> Grows (fun h => P h /\ Q h).
Proof. intros HP HQ h h' [??] Hp. split; by eapply grows. Qed.

#[export] Instance grows_or P Q : Grows P -> Grows Q -> Grows (fun h => P h \/ Q h).
Proof. intros HP HQ h h' [?|?] Hp; [left|right]; by eapply grows. Qed.

#[export] Instance grows_exist {A} (P : A -> history -> Prop) :
  (forall x, Grows (P x)) -> Grows (fun h => exists x, P x h).
Proof. intros HP h h' [x ?] Hp. exists x. by eapply grows. Qed.

#[export] Instance grows_forall {A} (P : A -> history -> Prop) :
  (forall x, Grows (P x)) -> Grows (fun h => forall x, P x h).
Proof. intros HP h h' Hx Hp x. eapply grows; [apply Hx|done]. Qed.

#[export] Instance grows_impl (A : Prop) P : Grows P -> Grows (fun h => A -> P h).
Proof. intros HP h h' Hx Hp a. eapply grows; [by apply Hx|done]. Qed.

(** ** Calls whose error is returned *)
Section CallRules.
Context {B : Type} (G : history -> op -> Prop) (h : history) (w : error -> error).
Context (Q : history -> result B -> Prop).

Lemma wps_get_bindr k at_ (f : obj k -> action B) :
  wps G h (bindr (call (Get k at_)) w f) Q <->
  G h (Get k at_) /\
  forall r : result (obj k), wps G (h ++ [got k at_ r])
    (match r with Ok a => f a | Err e => Ret (Err (w e)) end) Q.
Proof. done. Qed.

Lemma wps_list_bindr k ns sel (f : list (obj k) -> action B) :
  wps G h (bindr (call (ListAll k ns sel)) w f) Q <->
  G h (ListAll k ns sel) /\
  forall r : result (list (obj k)), wps G (h ++ [Ev (ListAll k ns sel : op) r])
    (match r with Ok a => f a | Err e => Ret (Err (w e)) end) Q.
Proof. done. Qed.
End CallRules.

Lemma error_seen_last (h : history) e : is_Some (answer_err e) ->
  exists ev, ev ∈ h ++ [e] /\ is_Some (answer_err ev).
Proof. intros He. exists e. split; [apply elem_of_snoc|done]. Qed.

#[export] Hint Resolve error_seen_last : operator.

(** ** A concrete implementation of the helpers, for the examples *)
#[export] Instance Lease_eq_dec : EqDecision Lease.
Proof.
  assert (EqDecision ObjectMeta) by solve_decision. solve_decision.
Defined.

Module ConcreteRuntime.
(** [retry.DefaultBackoff] tries four times. *)
Fixpoint retry (n : nat) (fn : action unit) : action unit :=
  bind fn (fun r =>
    match r, n with
    | Err e, S n => if IsConflict e then retry n fn else Ret r
    | _, _ => Ret r
    end).

Fixpoint poll (n : nat) (cond : action bool) : action unit :=
  bind cond (fun r =>
    match r with
    | Ok true => Ret (Ok tt)
    | Err e => Ret (Err e)
    | Ok false => match n with
                  | S n => poll n cond
                  | O => Ret (Err (Sentinel "context deadline exceeded"))
                  end
    end).

Definition createOrUpdate (o : Lease) (f : Lease -> action Lease) : action unit :=
  let! r := call (Get KLease (objectKey (l_Meta o))) in
  match r with
  | Ok cur =>
      do! o' := f cur in
      if decide (o' = cur) then Ret (Ok tt) else ignore (call (Update KLease o'))
  | Err e =>
      if IsNotFound e then do! o' := f o in ignore (call (Create KLease o'))
      else Ret (Err e)
  end.

Definition contains (l : list string) (f : string) : bool := bool_decide (f ∈ l).
Definition add (l : list string) (f : string) : list string * bool :=
  if contains l f then (l, false) else (l ++ [f], true).
Definition remove (l : list string) (f : string) : list string * bool :=
  (filter (fun g => g <> f) l, contains l f).

Lemma retry_wps n : forall (G : history -> op -> Prop) (I : history -> Prop) fn Q h,
  I h ->
  (forall h, I h -> wps G h fn (fun h' r =>
     Q h' r /\ match r with Err e => IsConflict e = true -> I h' | Ok _ => True end)) ->
  wps G h (retry n fn) Q.
Proof.
  induction n as [|n IH]; intros G I fn Q h HI Hfn; simpl; rewrite wps_bind;
    (eapply wps_conseq; [by apply Hfn|]); intros h' [a|e] [HQ Hc]; try done.
  destruct (IsConflict e) eqn:E; [|done]. apply (IH G I); [by apply Hc|done].
Qed.

Lemma poll_wps n : forall (G : history -> op -> Prop) (I : history -> Prop) cond Q h,
  I h ->
  (forall h, I h -> wps G h cond (fun h' r =>
     match r with
     | Ok true => Q h' (Ok tt)
     | Ok false => I h' /\ Q h' (Err (Sentinel "context deadline exceeded"))
     | Err e => Q h' (Err e)
     end)) ->
  wps G h (poll n cond) Q.
Proof.
  induction n as [|n IH]; intros G I cond Q h HI Hc; simpl; rewrite wps_bind;
    (eapply wps_conseq; [by apply Hc|]); intros h' [[|]|e] Hr; simpl; try done.
  - by destruct Hr.
  - destruct Hr as [HI' _]. by apply (IH G I).
Qed.

Definition runtime : ControllerRuntime.
Proof.
  refine (Build_ControllerRuntime (retry 3) (poll 100) createOrUpdate contains add remove
    (fun owner m => Ok (m <| om_Controller := Some (om_UID owner) |>)) _ _ _ _ _ _ _ _).
  - apply retry_wps.
  - apply poll_wps.
  - intros G o f Q h HG Hr. unfold createOrUpdate. apply wps_call_bind. split; [done|].
    intros r. specialize (Hr r). destruct r as [cur|e]; cbv beta iota zeta in Hr |- *.
    + rewrite wps_bindr. eapply wps_conseq; [exact Hr|]. intros h2 [o'|e] H2; [|done].
      destruct H2 as [Heq Hne]. case_decide as E; [by apply Heq|]. rewrite wps_ignore.
      destruct (Hne E) as [HG2 HQ]. split; [done|]. intros r3. specialize (HQ r3). by destruct r3.
    + destruct (IsNotFound e); [|done]. rewrite wps_bindr. eapply wps_conseq; [exact Hr|].
      intros h2 [o'|e2] H2; [|done]. rewrite wps_ignore. destruct H2 as [HG2 HQ].
      split; [done|]. intros r3. specialize (HQ r3). by destruct r3.
  - done.
  - intros l f. unfold add, contains. case_bool_decide as E; simpl; split_and!; try done.
    + intros g. split; [by right|]. by intros [->|?].
    + intros g. rewrite elem_of_app, list_elem_of_singleton. tauto.
  - intros l f. unfold remove, contains. simpl. split_and!; [done| |].
    + intros E. bool_to_prop. induction l as [|g l IH]; [done|].
      apply not_elem_of_cons in E as [Hne Hl]. rewrite filter_cons_True by done. by rewrite IH.
    + intros g. by rewrite list_elem_of_filter.
  - by intros owner m m' [= <-].
  - done.
Defined.

(** One that always finds something to update. *)
Definition createOrUpdateObject (k : kind) (o : obj k) (f : obj k -> result (obj k)) : action unit :=
  let! r := call (Get k (objectKey (meta o))) in
  match r with
  | Ok cur => match f cur with Ok o' => ignore (call (Update k o')) | Err e => Ret (Err e) end
  | Err e =>
      if IsNotFound e then match f o with Ok o' => ignore (call (Create k o')) | Err e => Ret (Err e) end
      else Ret (Err e)
  end.

Definition createOrUpdates : CreateOrUpdates.
Proof.
  refine {| CreateOrUpdate := createOrUpdateObject |}. intros G k o f Q h _ HG Hr. unfold createOrUpdateObject.
  apply wps_call_bind. split; [done|]. intros r. specialize (Hr r). destruct r as [cur|e]; cbv beta iota zeta in Hr |- *.
  - destruct (f cur); [|done]. by destruct Hr as [_ Hr].
  - destruct (IsNotFound e); [|done]. by destruct (f o).
Defined.
End ConcreteRuntime.
