(* ===== verification/Psql.v ===== *)
(** * Commands run in database containers

    [internal/postgres/exec.go]: the psql command lines, and how they are sent
    to a container; [internal/postgres/sql.go]: literals in SQL. *)
From S2P Require Import Prelude GoStrings Cluster Prog Errors Naming Objects Client.

(** [sort.Strings] *)
Definition sortStrings : list string -> list string := merge_sort String.le.

(** How the caller's executor runs a command: standard input and arguments. *)
Definition Executor : Type := option string -> list string -> program ExecOutput.

(** An executor of [runtime.PodExecutor] for one container. *)
Definition podExecutor (pod : key) (container : string) : Executor :=
  fun stdin command => call (Exec pod container stdin command).

(** The arguments that set the variables, in the order of the map's iteration. *)
Definition setArgs (vars : gmap string string) (order : list string) : list string :=
  map (fun k => "--set=" +:+ k +:+ "=" +:+ default "" (vars !! k)) order.

Definition keys {V} (vars : gmap string V) : list string := (map_to_list vars).*1.

Lemma elem_of_keys {V} (vars : gmap string V) k : k ∈ keys vars <-> is_Some (vars !! k).
Proof.
  unfold keys. rewrite list_elem_of_fmap. split.
  - intros ([k' v] & -> & Hin%elem_of_map_to_list). by exists v.
  - intros [v Hv]. exists (k, v). split; [done|]. by apply elem_of_map_to_list.
Qed.

(** [Executor.Exec] *)
Definition ExecPsql (exec : Executor) (sql : string) (variables : gmap string string)
    (psqlArgs : list string) : program ExecOutput :=
  let! order := call (RangeOrder (keys variables)) in
  let args := setArgs variables (proj1_sig order) ++ psqlArgs in
  exec (Some sql) (["psql"; "-Xw"; "--file=-"] ++ sortStrings args).

Definition line (s : string) : string := s +:+ char newline.

Definition databasesScript : string :=
  char newline +:+
  line "sql_target=$(< /dev/stdin)" +:+
  line ("sql_databases=" +:+ char dquote +:+ "$1" +:+ char dquote) +:+
  line "shift 1" +:+
  line "" +:+
  line ("databases=$(psql " +:+ char dquote +:+ "$@" +:+ char dquote +:+
        " -Xw -Aqt --file=- <<< " +:+ char dquote +:+ "${sql_databases}" +:+ char dquote +:+ ")") +:+
  line "while IFS= read -r database; do" +:+
  line (char "009"%char +:+ "PGDATABASE=" +:+ char dquote +:+ "${database}" +:+ char dquote +:+
        " psql " +:+ char dquote +:+ "$@" +:+ char dquote +:+ " -Xw --file=- <<< " +:+
        char dquote +:+ "${sql_target}" +:+ char dquote) +:+
  line ("done <<< " +:+ char dquote +:+ "${databases}" +:+ char dquote).

(** [Executor.ExecInDatabasesFromQuery] *)
Definition ExecInDatabasesFromQuery (exec : Executor) (databases sql : string)
    (variables : gmap string string) : program ExecOutput :=
  let! order := call (RangeOrder (keys variables)) in
  let args := databases :: sortStrings (setArgs variables (proj1_sig order)) in
  exec (Some sql) (["bash"; "-ceu"; "--"; databasesScript; "-"] ++ args).

(** [Executor.ExecInAllDatabases] *)
Definition ExecInAllDatabases (exec : Executor) (sql : string) (variables : gmap string string)
    : program ExecOutput :=
  let databases := "SET search_path = '';" +:+
    "SELECT datname FROM pg_catalog.pg_database" +:+
    " WHERE datallowconn AND datname NOT IN ('template0')" in
  ExecInDatabasesFromQuery exec databases sql variables.

(** ** Literals: [QuoteLiteral] *)
Definition backslash : ascii := "\"%char.

Definition escape_char (c : ascii) : string :=
  if decide (c = squote) then char squote +:+ char squote
  else if decide (c = backslash) then char backslash +:+ char backslash
  else char c.

Definition escapeLiteral : string -> string := bind_string escape_char.

Definition QuoteLiteral (v : string) : string := " E'" +:+ escapeLiteral v +:+ "'".

(** How PostgreSQL reads the body of an escape string, after its opening quote,
    as far as such a literal can have escapes: the text and what follows. *)
Fixpoint lex_escape (s : string) : option (string * string) :=
  match s with
  | EmptyString => None
  | String c s' =>
      match s' with
      | String d s'' =>
          if decide (c = squote) then
            if decide (d = squote) then prod_map (String squote) id <$> lex_escape s'' else Some (EmptyString, s')
          else if decide (c = backslash) then
            if decide (d = backslash) then prod_map (String backslash) id <$> lex_escape s'' else None
          else prod_map (String c) id <$> lex_escape s'
      | EmptyString => if decide (c = squote) then Some (EmptyString, EmptyString) else None
      end
  end.

(** A literal reads back, whatever it holds, when no quote follows it. *)
Lemma lex_QuoteLiteral v rest : first_not (fun c => bool_decide (c = squote)) rest = true ->
  lex_escape (escapeLiteral v +:+ String squote rest) = Some (v, rest).
Proof.
  intros Hrest. induction v as [|c v IH].
  - change (escapeLiteral "" +:+ String squote rest) with (String squote rest).
    destruct rest as [|d rest]; [done|]. simpl in *. apply negb_true_iff, bool_decide_eq_false in Hrest.
    by rewrite decide_False by done.
  - change (escapeLiteral (String c v)) with (escape_char c +:+ escapeLiteral v). rewrite app_assoc_str.
    assert (Hne : exists d t, escapeLiteral v +:+ String squote rest = String d t).
    { destruct (escapeLiteral v) as [|d t]; [by exists squote, rest|]. by eexists d, _. }
    destruct Hne as (d & t & E). set (X := escapeLiteral v +:+ String squote rest) in *. clearbody X. unfold escape_char.
    destruct (decide (c = squote)) as [->|Hq]; [rewrite app_assoc_str, !char_app; simpl; by rewrite IH|].
    destruct (decide (c = backslash)) as [->|Hb]; [rewrite app_assoc_str, !char_app; simpl; by rewrite IH|].
    rewrite char_app. subst X. cbn [lex_escape]. cbn [lex_escape] in IH. rewrite (decide_False (P := c = squote)) by done.
    rewrite (decide_False (P := c = backslash)) by done. by rewrite IH.
Qed.

(** ** Properties *)

Lemma sortStrings_Permutation l k : l ≡ₚ k -> sortStrings l = sortStrings k.
Proof.
  intros Hp. unfold sortStrings. apply (StronglySorted_unique String.le).
  - apply (StronglySorted_merge_sort String.le).
  - apply (StronglySorted_merge_sort String.le).
  - by rewrite !merge_sort_Permutation.
Qed.

(** The commands that a program may send, whatever the visiting order. *)
Definition only_command (pod : key) (container : string) (stdin : string) (command : list string)
    (h : history) (o : op) : Prop :=
  match o with
  | RangeOrder _ => True
  | Exec p c i cmd => p = pod /\ c = container /\ i = Some stdin /\ cmd = command
  | _ => False
  end.

(** The psql commands are deterministic: whatever order Go visits the
    variables in, the only command run is the one with the variables in sorted
    order, for a single database, for the databases of a query and for all
    databases that allow connections. *)
Theorem psql_commands_deterministic (pod : key) (container sql databases : string)
    (vars : gmap string string) (psqlArgs : list string) :
  let exec := podExecutor pod container in
  let set := setArgs vars (keys vars) in
  let many query := ["bash"; "-ceu"; "--"; databasesScript; "-"; query] ++ sortStrings set in
  wps (only_command pod container sql
         (["psql"; "-Xw"; "--file=-"] ++ sortStrings (set ++ psqlArgs)))
    [] (ExecPsql exec sql vars psqlArgs) (fun _ _ => True) /\
  wps (only_command pod container sql (many databases))
    [] (ExecInDatabasesFromQuery exec databases sql vars) (fun _ _ => True) /\
  wps (only_command pod container sql (many ("SET search_path = '';" +:+
      "SELECT datname FROM pg_catalog.pg_database" +:+
      " WHERE datallowconn AND datname NOT IN ('template0')")))
    [] (ExecInAllDatabases exec sql vars) (fun _ _ => True).
Proof.
  intros exec set many.
  assert (Hset : forall order, order ≡ₚ keys vars -> setArgs vars order ≡ₚ set)
    by (intros order Ho; unfold set, setArgs; by rewrite Ho).
  split_and!; apply wps_call_bind; (split; [done|]); intros [order Ho]; simpl;
    (split; [|done]); split_and!; try done.
  - do 3 f_equal. apply sortStrings_Permutation. by rewrite (Hset order Ho).
  - unfold many. simpl. do 6 f_equal. by apply sortStrings_Permutation, Hset.
  - unfold many. simpl. do 6 f_equal. by apply sortStrings_Permutation, Hset.
Qed.
