(* ===== verification/Passwords.v ===== *)
(** * Passwords

    [internal/util/secrets.go]: passwords of random characters of a class.
    [internal/postgres/password]: the password texts PostgreSQL stores, MD5 and
    SCRAM.  The source of randomness ([crypto/rand]) is the class [Random], the
    digests and the normalisation of [stringprep] the class [Digests]; Base64
    is written out. *)
From S2P Require Import Prelude GoStrings Cluster Errors HBA.

(** ** Randomness

    A source is read by the functions of [crypto/rand], which may fail. *)
Class Random := {
  source : Type;
  (** [rand.Int], of a positive bound *)
  Int : N -> source -> result N * source;
  (** [rand.Read] of a number of bytes *)
  Read : nat -> source -> result string * source;
  Int_lt max s i s' : (0 < max)%N -> Int max s = (Ok i, s') -> (i < max)%N;
  Read_length n s bytes s' : Read n s = (Ok bytes, s') -> String.length bytes = n
}.

Section Generate.
Context `{Random}.

(** [accumulate] *)
Fixpoint accumulate (n : nat) (f : source -> result ascii * source) (s : source) : result string * source :=
  match n with
  | O => (Ok "", s)
  | S n =>
      match f s with
      | (Err e, s) => (Err e, s)
      | (Ok b, s) =>
          match accumulate n f s with
          | (Err e, s) => (Err e, s)
          | (Ok result, s) => (Ok (String b result), s)
          end
      end
  end.

(** [randomCharacter]; an index beyond the class would panic *)
Definition randomCharacter (class : string) (s : source) : result ascii * source :=
  match Int (N.of_nat (String.length class)) s with
  | (Err e, s) => (Err e, s)
  | (Ok i, s) =>
      match String.get (N.to_nat i) class with
      | Some c => (Ok c, s)
      | None => (Err (New "panic: index out of range"), s)
      end
  end.

Definition upper : string := "ABCDEFGHIJKLMNOPQRSTUVWXYZ".
Definition lower : string := "abcdefghijklmnopqrstuvwxyz".
Definition decimals : string := "0123456789".

Definition randomAlphaNumeric : source -> result ascii * source := randomCharacter (upper +:+ lower +:+ decimals).

Definition GenerateAlphaNumericPassword (length : nat) : source -> result string * source :=
  accumulate length randomAlphaNumeric.

Definition policyASCII : string := "()*+,-./" +:+ ":;<=>?@" +:+ "[]^_" +:+ "{|}" +:+ upper +:+ lower +:+ decimals.

Definition randomASCII : source -> result ascii * source := randomCharacter policyASCII.

Definition GenerateASCIIPassword (length : nat) : source -> result string * source := accumulate length randomASCII.
End Generate.

(** ** Base64: [base64.StdEncoding] *)
Definition base64_alphabet : string := upper +:+ lower +:+ decimals +:+ "+/".

Definition base64_char (n : N) : ascii := default "="%char (String.get (N.to_nat n) base64_alphabet).

(** Three bytes, or what is left of them, are four characters. *)
Fixpoint EncodeToString (s : string) : string :=
  match s with
  | EmptyString => EmptyString
  | String a EmptyString =>
      let n := (65536 * code a)%N in
      String (base64_char (n / 262144)) (String (base64_char (n / 4096 mod 64)) "==")
  | String a (String b EmptyString) =>
      let n := (65536 * code a + 256 * code b)%N in
      String (base64_char (n / 262144)) (String (base64_char (n / 4096 mod 64))
        (String (base64_char (n / 64 mod 64)) "="))
  | String a (String b (String c s)) =>
      let n := (65536 * code a + 256 * code b + code c)%N in
      String (base64_char (n / 262144)) (String (base64_char (n / 4096 mod 64))
        (String (base64_char (n / 64 mod 64)) (String (base64_char (n mod 64)) (EncodeToString s))))
  end.

Fixpoint index_of (c : ascii) (s : string) : option N :=
  match s with
  | EmptyString => None
  | String d s => if decide (c = d) then Some 0%N else N.succ <$> index_of c s
  end.

Definition base64_value (c : ascii) : option N := index_of c base64_alphabet.

Definition byte (n : N) : ascii := ascii_of_N n.

(** A reader of Base64. *)
Fixpoint DecodeString (s : string) : option string :=
  match s with
  | EmptyString => Some EmptyString
  | String w (String x (String y (String z s))) =>
      w ← base64_value w;
      x ← base64_value x;
      let a := byte (4 * w + x / 16) in
      match base64_value y, base64_value z with
      | Some y, Some z =>
          rest ← DecodeString s;
          Some (String a (String (byte (x mod 16 * 16 + y / 4)) (String (byte (y mod 4 * 64 + z)) rest)))
      | Some y, None => if decide (z = "="%char /\ s = EmptyString)
                        then Some (String a (char (byte (x mod 16 * 16 + y / 4)))) else None
      | None, _ => if decide (y = "="%char /\ z = "="%char /\ s = EmptyString) then Some (char a) else None
      end
  | _ => None
  end.

(** ** PostgreSQL's passwords *)
Class Digests := {
  sha256 : string -> string;
  hmac_sha256 (key message : string) : string;
  (** [pbkdf2.Key] with SHA-256, its first 32 bytes *)
  pbkdf2 (password salt : string) (iterations : N) : string;
  md5_Sum : string -> string;
  (** [stringprep.SASLprep.Prepare] *)
  SASLprep : string -> result string;
  hmac_length k m : String.length (hmac_sha256 k m) = 32;
  sha256_length s : String.length (sha256 s) = 32
}.

Section Build.
Context `{Random} `{Digests}.

Definition scramDefaultIterations : N := 4096.
Definition scramDefaultSaltLength : nat := 16.
Definition scramClientKeyMessage : string := "Client Key".
Definition scramServerKeyMessage : string := "Server Key".

(** [scramGenerateSalt] *)
Definition scramGenerateSalt (length : nat) (s : source) : result string * source :=
  if length <? 1 then (Err (Sentinel "ErrSCRAMSaltLengthInvalid"), s) else Read length s.

Record SCRAMPassword := mkSCRAM { Iterations : N; SaltLength : nat; scram_password : string }.

Definition NewSCRAMPassword (password : string) : SCRAMPassword :=
  mkSCRAM scramDefaultIterations scramDefaultSaltLength password.

Definition isASCII (p : string) : bool := all_chars (fun c => (code c <=? 127)%N) p.

(** [utf8.ValidString]: a byte that starts no encoding is a rune by itself *)
Definition ValidString (p : string) : bool := forallb (fun r => isASCII r || (1 <? String.length r)) (runes p).

(** [SCRAMPassword.saslPrep] *)
Definition saslPrep (p : string) : string :=
  if isASCII p || negb (ValidString p) then p
  else match SASLprep p with
       | Ok cleanedPassword => if nonempty cleanedPassword then cleanedPassword else p
       | Err _ => p
       end.

(** [SCRAMPassword.Build] *)
Definition scram_Build (p : SCRAMPassword) (s : source) : result string * source :=
  match scramGenerateSalt (SaltLength p) s with
  | (Err e, s) => (Err e, s)
  | (Ok salt, s) =>
      let saltedPassword := pbkdf2 (saslPrep (scram_password p)) salt (Iterations p) in
      let clientKey := hmac_sha256 saltedPassword scramClientKeyMessage in
      let serverKey := hmac_sha256 saltedPassword scramServerKeyMessage in
      let storedKey := sha256 clientKey in
      (Ok ("SCRAM-SHA-256$" +:+ pretty (Iterations p) +:+ ":" +:+ EncodeToString salt +:+ "$" +:+
           EncodeToString storedKey +:+ ":" +:+ EncodeToString serverKey), s)
  end.

(** The verb [%x] *)
Definition hex : string -> string :=
  bind_string (fun c => char (hex_digit (code c / 16)) +:+ char (hex_digit (code c mod 16))).

(** [MD5Password.Build] *)
Definition md5_Build (username password : string) : string := "md5" +:+ hex (md5_Sum (password +:+ username)).

Inductive PostgresPassword := MD5Password (username password : string) | SCRAM (p : SCRAMPassword).

(** [NewPostgresPassword]; the types are the constants 0 (MD5) and 1 (SCRAM) *)
Definition NewPostgresPassword (passwordType : Z) (username password : string) : result PostgresPassword :=
  if bool_decide (passwordType = 0%Z) then Ok (MD5Password username password)
  else if bool_decide (passwordType = 1%Z) then Ok (SCRAM (NewSCRAMPassword password))
  else Err (Sentinel "ErrPasswordType").

Definition Build (p : PostgresPassword) (s : source) : result string * source :=
  match p with
  | MD5Password username password => (Ok (md5_Build username password), s)
  | SCRAM p => scram_Build p s
  end.

End Build.

(** ** Logging in

    How PostgreSQL reads a stored password, and the messages of RFC 5802 that
    matter for a login: the client proves that it knows the password, and the
    server that it knows the stored text. *)
Record Verifier := mkVerifier { v_Iterations : N; v_Salt : string; v_StoredKey : string; v_ServerKey : string }.

Definition parse_verifier (s : string) : option Verifier :=
  match Split s "$" with
  | [scheme; parameters; keys] =>
      guard (scheme = "SCRAM-SHA-256");;
      match Split parameters ":", Split keys ":" with
      | [iterations; salt], [stored; server] =>
          iterations ← DottedVersions.number 0 iterations;
          salt ← DecodeString salt;
          stored ← DecodeString stored;
          server ← DecodeString server;
          Some (mkVerifier iterations salt stored server)
      | _, _ => None
      end
  | _ => None
  end.

Fixpoint xor_string (s t : string) : string :=
  match s, t with
  | String c s, String d t => String (ascii_of_N (N.lxor (code c) (code d))) (xor_string s t)
  | _, _ => EmptyString
  end.

Section Login.
Context `{Digests}.

Definition saltedPassword (v : Verifier) (password : string) : string :=
  pbkdf2 (saslPrep password) (v_Salt v) (v_Iterations v).

(** The client learns the salt and the iterations from the server. *)
Definition clientProof (v : Verifier) (password auth : string) : string :=
  let clientKey := hmac_sha256 (saltedPassword v password) scramClientKeyMessage in
  xor_string clientKey (hmac_sha256 (sha256 clientKey) auth).

Definition server_accepts (v : Verifier) (proof auth : string) : bool :=
  bool_decide (sha256 (xor_string proof (hmac_sha256 (v_StoredKey v) auth)) = v_StoredKey v).

Definition client_accepts (v : Verifier) (password signature auth : string) : bool :=
  bool_decide (hmac_sha256 (hmac_sha256 (saltedPassword v password) scramServerKeyMessage) auth = signature).
End Login.

(** ** Properties *)
Lemma get_all_chars f (s : string) n c : String.get n s = Some c -> all_chars f s = true -> f c = true.
Proof.
  revert n. induction s as [|d s IH]; intros n; [done|]. intros Hg [Hd Hs]%andb_true_iff.
  destruct n as [|n]; [by injection Hg as <-|]. by eapply IH.
Qed.

Lemma get_lt (s : string) n : n < String.length s -> exists c, String.get n s = Some c.
Proof.
  revert n. induction s as [|d s IH]; intros n Hn; [by apply Nat.nlt_0_r in Hn|].
  destruct n as [|n]; [by exists d|]. apply IH. simpl in Hn. lia.
Qed.

Section GeneratedPasswords.
Context `{Random}.

Lemma randomCharacter_spec class s : 0 < String.length class ->
  match randomCharacter class s with
  | (Ok c, _) => forall f, all_chars f class = true -> f c = true
  | (Err e, s') => Int (N.of_nat (String.length class)) s = (Err e, s')
  end.
Proof.
  intros Hc. unfold randomCharacter. destruct (Int _ s) as [[i|e] s'] eqn:Hi; [|done].
  apply Int_lt in Hi; [|lia].
  destruct (get_lt class (N.to_nat i)) as [c Hg]; [lia|]. rewrite Hg. intros f. by apply get_all_chars with (n := N.to_nat i).
Qed.

Lemma accumulate_spec class n s : 0 < String.length class ->
  match accumulate n (randomCharacter class) s with
  | (Ok p, _) => String.length p = n /\ forall f, all_chars f class = true -> all_chars f p = true
  | (Err e, s') => exists s0, Int (N.of_nat (String.length class)) s0 = (Err e, s')
  end.
Proof.
  intros Hc. revert s. induction n as [|n IH]; intros s; [done|]. cbn [accumulate].
  pose proof (randomCharacter_spec class s Hc) as Hr. destruct (randomCharacter class s) as [[c|e] s1].
  - specialize (IH s1). destruct (accumulate n (randomCharacter class) s1) as [[p|e] s2]; [|done].
    destruct IH as [<- Hp]. split; [done|]. intros f Hf. simpl. by rewrite Hr, Hp.
  - by exists s.
Qed.

(** C22: A generated password has the length that was asked for and only
    characters of its class, which has neither white space nor quotes,
    backslashes or anything else that the files and connection strings it is
    written to would need escaped; generating fails only when the source of
    randomness does. *)
Theorem generated_passwords n (s : source) :
  let safe c := (33 <=? code c)%N && (code c <=? 126)%N &&
                negb (bool_decide (c ∈ [dquote; squote; "\"%char; "`"%char; "$"%char; "#"%char; "%"%char; "&"%char])) in
  (match GenerateASCIIPassword n s with
   | (Ok p, _) => String.length p = n /\ all_chars safe p = true
   | (Err e, s') => exists s0 max, Int max s0 = (Err e, s')
   end) /\
  match GenerateAlphaNumericPassword n s with
  | (Ok p, _) => String.length p = n /\ all_chars (fun c => is_upper c || is_lower c || is_digit c) p = true
  | (Err e, s') => exists s0 max, Int max s0 = (Err e, s')
  end.
Proof.
  intros safe.
  pose proof (accumulate_spec policyASCII n s ltac:(vm_compute; lia)) as Ha.
  pose proof (accumulate_spec (upper +:+ lower +:+ decimals) n s ltac:(vm_compute; lia)) as Hb.
  unfold GenerateASCIIPassword, randomASCII, GenerateAlphaNumericPassword, randomAlphaNumeric.
  destruct (accumulate n (randomCharacter policyASCII) s) as [[p|e] s1];
    destruct (accumulate n (randomCharacter (upper +:+ lower +:+ decimals)) s) as [[q|e'] s2];
    repeat match goal with H : exists _, _ |- _ => destruct H | H : _ /\ _ |- _ => destruct H end;
    split; eauto; split; auto.
Qed.
End GeneratedPasswords.

(** ** Base64 *)
Lemma base64_value_char n : (n < 64)%N -> base64_value (base64_char n) = Some n.
Proof.
  intros Hn. rewrite <- (N2Nat.id n). assert (Hm : N.to_nat n < 64) by lia. generalize dependent (N.to_nat n).
  clear n Hn. intros m Hm. do 64 (destruct m as [|m]; [by vm_compute|]). lia.
Qed.

Lemma code_lt c : (code c < 256)%N.
Proof. apply N_ascii_bounded. Qed.

Lemma byte_code c n : n = code c -> byte n = c.
Proof. intros ->. apply ascii_N_embedding. Qed.

(** Arithmetic with division and remainder by constants. *)
Ltac div_lia := zify; Z.to_euclidean_division_equations; lia.

Lemma Decode_Encode (s : string) : DecodeString (EncodeToString s) = Some s.
Proof.
  enough (Hlen : forall n s, String.length s < n -> DecodeString (EncodeToString s) = Some s) by (apply (Hlen (S (String.length s))); lia).
  clear s. induction n as [|n IH]; intros s Hs; [lia|].
  destruct s as [|a [|b [|c s]]]; cbn [EncodeToString DecodeString]; [done| | |];
    pose proof (code_lt a) as Ha; try pose proof (code_lt b) as Hb; try pose proof (code_lt c) as Hc;
    rewrite !base64_value_char by div_lia; cbn [mbind option_bind].
  - rewrite !decide_True by done. by rewrite (byte_code a) by div_lia.
  - rewrite !decide_True by done. by rewrite (byte_code a), (byte_code b) by div_lia.
  - rewrite IH by (simpl in Hs; lia). cbn [mbind option_bind].
    by rewrite (byte_code a), (byte_code b), (byte_code c) by div_lia.
Qed.

Lemma index_of_alphabet n c : base64_char n = c -> (c = "="%char \/ is_Some (base64_value c)).
Proof.
  intros <-. unfold base64_char. destruct (String.get _ _) as [c|] eqn:Hg; [|by left]. right. simpl.
  assert (Hall : all_chars (fun c => bool_decide (is_Some (base64_value c))) base64_alphabet = true) by by vm_compute.
  apply (get_all_chars _ _ _ _ Hg) in Hall. by apply bool_decide_eq_true in Hall.
Qed.

(** Base64 has no character that separates the parts of a stored password. *)
Definition base64_or_pad (c : ascii) : bool := bool_decide (c = "="%char \/ is_Some (base64_value c)).

Lemma base64_char_chars n : base64_or_pad (base64_char n) = true.
Proof. apply bool_decide_eq_true. by eapply index_of_alphabet. Qed.

Lemma Encode_chars (s : string) : all_chars base64_or_pad (EncodeToString s) = true.
Proof.
  enough (Hlen : forall n s, String.length s < n -> all_chars base64_or_pad (EncodeToString s) = true)
    by (apply (Hlen (S (String.length s))); lia).
  clear s. induction n as [|n IH]; intros s Hs; [lia|].
  destruct s as [|a [|b [|c s]]]; cbn [EncodeToString all_chars]; rewrite ?base64_char_chars; [done|done|done|].
  rewrite IH by (simpl in Hs; lia). done.
Qed.

Lemma Encode_no (d : ascii) (s : string) : base64_or_pad d = false ->
  all_chars (fun c => negb (bool_decide (c = d))) (EncodeToString s) = true.
Proof.
  intros Hd. eapply all_chars_impl; [|apply Encode_chars]. intros c Hc. apply negb_true_iff, bool_decide_eq_false.
  intros ->. by rewrite Hc in Hd.
Qed.

(** ** Logging in *)
Lemma parse_printed (salt stored server : string) :
  parse_verifier ("SCRAM-SHA-256$" +:+ pretty 4096%N +:+ ":" +:+ EncodeToString salt +:+ "$" +:+
                  EncodeToString stored +:+ ":" +:+ EncodeToString server) =
  Some (mkVerifier 4096 salt stored server).
Proof.
  set (e1 := EncodeToString salt). set (e2 := EncodeToString stored). set (e3 := EncodeToString server).
  assert (E : "SCRAM-SHA-256$" +:+ pretty 4096%N +:+ ":" +:+ e1 +:+ "$" +:+ e2 +:+ ":" +:+ e3 =
    "SCRAM-SHA-256" +:+ char "$" +:+ (("4096" +:+ char ":" +:+ e1) +:+ char "$" +:+ (e2 +:+ char ":" +:+ e3)))
    by by rewrite !app_assoc_str.
  rewrite E. clear E. subst e1 e2 e3. unfold parse_verifier. rewrite Split_app by done.
  rewrite Split_app by (rewrite !all_chars_app, Encode_no by (by vm_compute); done).
  rewrite Split_no_sep by (rewrite !all_chars_app, !Encode_no by (by vm_compute); done).
  rewrite option_guard_True by done.
  rewrite !Split_app, !Split_no_sep by (try apply Encode_no; by vm_compute).
  rewrite !Decode_Encode. done.
Qed.

Lemma xor_string_involutive (s t : string) : String.length s = String.length t -> xor_string (xor_string s t) t = s.
Proof.
  revert t. induction s as [|c s IH]; intros [|d t]; try done. intros [= Hl]. cbn [xor_string]. rewrite IH by done.
  f_equal. unfold code. rewrite N_ascii_embedding.
  - rewrite N.lxor_assoc, N.lxor_nilpotent, N.lxor_0_r. apply ascii_N_embedding.
  - assert (H8 : forall c, (N.log2 (N_of_ascii c) < 8)%N \/ N_of_ascii c = 0%N).
    { intros e. pose proof (N_ascii_bounded e). destruct (N.eq_dec (N_of_ascii e) 0) as [E|E]; [by right|left].
      apply N.log2_lt_pow2; [lia|]. done. }
    destruct (N.eq_dec (N.lxor (N_of_ascii c) (N_of_ascii d)) 0) as [->|E]; [done|].
    change 256%N with (2 ^ 8)%N. apply N.log2_lt_pow2; [lia|].
    eapply N.le_lt_trans; [apply N.log2_lxor|].
    destruct (H8 c) as [?|Ec], (H8 d) as [?|Ed]; rewrite ?Ec, ?Ed in *; simpl in *; try lia; done.
Qed.

Section LoginProperties.
Context `{Random} `{Digests}.

(** C23: What is built for a password is a text that PostgreSQL reads as 4096
    iterations, a salt of 16 bytes and two keys; with it a client that has the
    password is let in, whatever the messages that are authenticated, and the
    server convinces the client.  Building fails only when no salt can be
    read. *)
Theorem scram_password_logs_in (password : string) (s : source) :
  match scram_Build (NewSCRAMPassword password) s with
  | (Ok text, _) =>
      exists v, parse_verifier text = Some v /\ v_Iterations v = 4096%N /\ String.length (v_Salt v) = 16 /\
        forall auth, server_accepts v (clientProof v password auth) auth = true /\
                     client_accepts v password (hmac_sha256 (v_ServerKey v) auth) auth = true
  | (Err e, s') => Read 16 s = (Err e, s')
  end.
Proof.
  unfold scram_Build, scramGenerateSalt, NewSCRAMPassword. cbn [SaltLength Iterations scram_password].
  change (scramDefaultSaltLength <? 1) with false. cbv iota. unfold scramDefaultSaltLength.
  destruct (Read 16 s) as [[salt|e] s'] eqn:Hr; [|done]. apply Read_length in Hr. cbv zeta.
  eexists. split; [apply parse_printed|]. cbn [v_Iterations v_Salt]. split_and!; [done|done|]. intros auth.
  unfold server_accepts, client_accepts, clientProof, saltedPassword. cbn [v_Iterations v_Salt v_StoredKey v_ServerKey].
  rewrite xor_string_involutive by by rewrite !hmac_length.
  split; by apply bool_decide_eq_true.
Qed.
End LoginProperties.

(** ** A source and digests, for the examples *)
Module ConcreteRandom.
Fixpoint zeros (n : nat) : string := match n with O => EmptyString | S n => String "0" (zeros n) end.

Lemma length_zeros n : String.length (zeros n) = n.
Proof. induction n; simpl; congruence. Qed.

(** A counter. *)
Definition counter : Random.
Proof.
  refine {| source := N; Int max s := (Ok (s mod max)%N, N.succ s); Read n s := (Ok (zeros n), N.succ s) |}.
  - intros max s i s' Hm [= <- _]. apply N.mod_lt. lia.
  - intros n s bytes s' [= <- _]. apply length_zeros.
Defined.

Definition pad (s : string) : string := GoStrings.take_string 32 (s +:+ zeros 32).

Lemma length_pad s : String.length (pad s) = 32.
Proof. unfold pad. rewrite length_take_string, length_app_str, length_zeros. lia. Qed.

Definition digests : Digests := {|
  sha256 := pad;
  hmac_sha256 k m := pad (m +:+ k);
  pbkdf2 p salt i := pad (p +:+ salt);
  md5_Sum s := GoStrings.take_string 16 (pad s);
  SASLprep := Ok;
  hmac_length k m := length_pad (m +:+ k);
  sha256_length := length_pad
|}.
End ConcreteRandom.
