(* ===== verification/Pki.v ===== *)
(** * The internal public key infrastructure

    [internal/pki]: roots, leaves, the policies for both, and their text.
    Keys, signatures, chains and the PEM format are those of Go's [crypto] and
    [encoding/pem] packages: the class [X509], with what the code relies on as
    its laws.  Times are in nanoseconds. *)
From S2P Require Import Prelude GoStrings Errors HBA Passwords.
#[local] Open Scope Z_scope.

Definition second : Z := 1000000000.
Definition hour : Z := 3600 * second.

(** The fields of [x509.Certificate] that the code uses; [x_Raw] is the DER
    encoding, [x_PublicKey] that of a public key. *)
Record x509Certificate := mkX509 {
  x_Raw : string;
  x_CommonName : string;
  x_DNSNames : list string;
  x_NotBefore : Z;
  x_NotAfter : Z;
  x_BasicConstraintsValid : bool;
  x_IsCA : bool;
  x_SubjectKeyId : string;
  x_PublicKey : string
}.

#[export] Instance x509Certificate_eq_dec : EqDecision x509Certificate.
Proof. solve_decision. Defined.

(** What is signed: the subject, the validity and the kind of a certificate. *)
Record template := mkTemplate {
  t_CommonName : string;
  t_DNSNames : list string;
  t_NotBefore : Z;
  t_NotAfter : Z;
  t_IsCA : bool;
  t_SerialNumber : N
}.

(** A DER encoding has whole seconds. *)
Definition truncate (t : Z) : Z := t - t mod second.

(** A certificate, parsed, says what was signed. *)
Definition made_from (t : template) (publicKey der : string) (c : x509Certificate) : Prop :=
  x_Raw c = der /\ x_CommonName c = t_CommonName t /\ x_DNSNames c = t_DNSNames t /\
  x_NotBefore c = truncate (t_NotBefore t) /\ x_NotAfter c = truncate (t_NotAfter t) /\
  x_BasicConstraintsValid c = true /\ x_IsCA c = t_IsCA t /\
  (t_IsCA t = true -> nonempty (x_SubjectKeyId c) = true) /\ x_PublicKey c = publicKey.

Definition valid_at (now : Z) (c : x509Certificate) : Prop := x_NotBefore c <= now <= x_NotAfter c.

Class X509 `{Random} := {
  (** [ecdsa.PrivateKey]s on the curve P-256, and their public keys *)
  ecdsaKey : Type;
  public : ecdsaKey -> string;
  ecdsa_Equal : ecdsaKey -> ecdsaKey -> bool;
  GenerateKey : source -> result ecdsaKey * source;
  MarshalECPrivateKey : ecdsaKey -> result string;
  ParseECPrivateKey : string -> result ecdsaKey;
  (** [x509.CreateCertificate] of a leaf, with a certificate and a key that
      sign; and of a root, which signs itself *)
  CreateCertificate : template -> x509Certificate -> string -> ecdsaKey -> source -> result string * source;
  CreateSelfSigned : template -> ecdsaKey -> source -> result string * source;
  ParseCertificate : string -> result x509Certificate;
  (** [Certificate.Verify], trusting one certificate, at a time *)
  Verify : x509Certificate -> x509Certificate -> Z -> option error;
  (** [pem.EncodeToMemory] of a block, its type and its bytes; [pem.Decode]:
      the first block and what follows it.  Blocks have no headers here. *)
  pem_Encode : string -> string -> string;
  pem_Decode : string -> option (string * string * string);

  ecdsa_Equal_true k l : ecdsa_Equal k l = true <-> public k = public l;
  Marshal_Parse k der : MarshalECPrivateKey k = Ok der -> ParseECPrivateKey der = Ok k;
  Generate_Marshal s k s' : GenerateKey s = (Ok k, s') -> exists der, MarshalECPrivateKey k = Ok der;
  Parse_Raw der c : ParseCertificate der = Ok c -> x_Raw c = der /\ nonempty der = true;
  Parse_nothing : exists e, ParseCertificate "" = Err e;
  Create_Parse t parent pub k s der s' :
    CreateCertificate t parent pub k s = (Ok der, s') ->
    exists c, ParseCertificate der = Ok c /\ made_from t pub der c;
  CreateSelf_Parse t k s der s' :
    CreateSelfSigned t k s = (Ok der, s') -> exists c, ParseCertificate der = Ok c /\ made_from t (public k) der c;
  (** A leaf that an authority has signed with its own key is accepted while
      both are valid. *)
  Verify_signed t root k pub s der s' c now :
    CreateCertificate t root pub k s = (Ok der, s') -> ParseCertificate der = Ok c -> t_IsCA t = false ->
    x_PublicKey root = public k -> x_IsCA root = true -> x_BasicConstraintsValid root = true ->
    valid_at now root -> valid_at now c -> Verify root c now = None;
  Verify_self t k s der s' c now :
    CreateSelfSigned t k s = (Ok der, s') -> ParseCertificate der = Ok c -> t_IsCA t = true ->
    valid_at now c -> Verify c c now = None;
  (** Nothing is accepted outside its validity. *)
  Verify_time root c now : Verify root c now = None -> valid_at now c /\ valid_at now root;

  pem_Decode_Encode label bytes rest : pem_Decode (pem_Encode label bytes +:+ rest) = Some (label, bytes, rest);
  pem_Decode_nothing : pem_Decode "" = None;
  pem_Decode_shorter s label bytes rest : pem_Decode s = Some (label, bytes, rest) -> (String.length rest < String.length s)%nat
}.

Section Pki.
Context `{X509}.

Definition renewalRatio : Z := 3.

(** ** Certificates and keys *)

(** A certificate that may not be there, and the text of those that followed
    it in a bundle. *)
Record Certificate := mkCertificate { x509 : option x509Certificate; chain : string }.
Record PrivateKey := mkPrivateKey { ecdsa : option ecdsaKey }.

Definition noCertificate : Certificate := mkCertificate None "".
Definition noKey : PrivateKey := mkPrivateKey None.

Definition CommonName (c : Certificate) : string := match x509 c with Some c => x_CommonName c | None => "" end.
Definition DNSNames (c : Certificate) : list string := match x509 c with Some c => x_DNSNames c | None => [] end.

(** [Certificate.hasSubject]; the names are compared one by one *)
Definition hasSubject (c : Certificate) (commonName : string) (dnsNames : list string) : bool :=
  match x509 c with
  | Some c => bool_decide (x_CommonName c = commonName) && bool_decide (length (x_DNSNames c) = length dnsNames) &&
              forallb (fun p => bool_decide (fst p = snd p)) (zip (x_DNSNames c) dnsNames)
  | None => false
  end.

(** [Certificate.Equal]: [x509.Certificate.Equal] compares the raw bytes *)
Definition cert_Equal (c d : Certificate) : bool :=
  match x509 c, x509 d with
  | Some c, Some d => bool_decide (x_Raw c = x_Raw d)
  | None, None => true
  | _, _ => false
  end.

Definition key_Equal (k l : PrivateKey) : bool :=
  match ecdsa k, ecdsa l with
  | Some k, Some l => ecdsa_Equal k l
  | None, None => true
  | _, _ => false
  end.

Record LeafCertificate := mkLeaf { leaf_Certificate : Certificate; leaf_PrivateKey : PrivateKey }.
Record RootCertificateAuthority := mkRoot { root_Certificate : Certificate; root_PrivateKey : PrivateKey }.

(** ** Text: [encoding.go] *)
Definition pemLabelCertificate : string := "CERTIFICATE".
Definition pemLabelECDSAKey : string := "EC PRIVATE KEY".

(** [Certificate.MarshalText]: without a certificate the error is that of
    parsing nothing *)
Definition cert_MarshalText (c : Certificate) : result string :=
  match x509 c with
  | Some x => if nonempty (x_Raw x) then Ok (pem_Encode pemLabelCertificate (x_Raw x) +:+ chain c)
              else match ParseCertificate "" with Ok _ => Ok "" | Err e => Err e end
  | None => match ParseCertificate "" with Ok _ => Ok "" | Err e => Err e end
  end.

(** The loop over the rest of a bundle; every block is shorter than what is
    left, so the length of the text is enough fuel. *)
Fixpoint readChain (fuel : nat) (rest chain : string) : string :=
  match fuel with
  | O => chain
  | S fuel =>
      match pem_Decode rest with
      | None => chain
      | Some (label, bytes, rest) =>
          readChain fuel rest
            (if bool_decide (label = pemLabelCertificate) then chain +:+ pem_Encode label bytes else chain)
      end
  end.

(** [Certificate.UnmarshalText]: the certificate, which is left as it was on
    an error *)
Definition cert_UnmarshalText (data : string) (c : Certificate) : Certificate * option error :=
  match pem_Decode data with
  | Some (label, bytes, rest) =>
      if bool_decide (label = pemLabelCertificate) then
        match ParseCertificate bytes with
        | Err e => (c, Some e)
        | Ok parsed => (mkCertificate (Some parsed) (readChain (S (String.length rest)) rest ""), None)
        end
      else (c, Some (New "not a PEM-encoded certificate"))
  | None => (c, Some (New "not a PEM-encoded certificate"))
  end.

(** [PrivateKey.MarshalText]; the zero key is not on a curve *)
Definition key_MarshalText (k : PrivateKey) : result string :=
  match ecdsa k with
  | Some k => match MarshalECPrivateKey k with
              | Ok der => Ok (pem_Encode pemLabelECDSAKey der)
              | Err e => Err e
              end
  | None => Err (New "x509: unknown elliptic curve")
  end.

Definition key_UnmarshalText (data : string) (k : PrivateKey) : PrivateKey * option error :=
  match pem_Decode data with
  | Some (label, bytes, _) =>
      if bool_decide (label = pemLabelECDSAKey) then
        match ParseECPrivateKey bytes with
        | Ok key => (mkPrivateKey (Some key), None)
        | Err e => (k, Some e)
        end
      else (k, Some (New "not a PEM-encoded private key"))
  | None => (k, Some (New "not a PEM-encoded private key"))
  end.

(** ** Generating: [common.go] *)
Definition generateSerialNumber (s : source) : result N * source := Int (2 ^ 128)%N s.

Definition parsed (r : result string * source) (parse_message : string) : result x509Certificate * source :=
  match r with
  | (Err e, s) => (Err (Wrap "error creating certificate" e), s)
  | (Ok bytes, s) =>
      (match ParseCertificate bytes with Ok c => Ok c | Err e => Err (Wrap parse_message e) end, s)
  end.

Definition leafTemplate (now : Z) (serialNumber : N) (commonName : string) (dnsNames : list string) : template :=
  mkTemplate commonName dnsNames (now - hour) (now + hour * 24 * 365) false serialNumber.

Definition generateLeafCertificate (now : Z) (signer : x509Certificate) (signerPrivate : ecdsaKey)
    (signeePublic : string) (serialNumber : N) (commonName : string) (dnsNames : list string) (s : source)
    : result x509Certificate * source :=
  parsed (CreateCertificate (leafTemplate now serialNumber commonName dnsNames) signer signeePublic signerPrivate s)
    ("error parsing certificate with dns names: [" +:+ Join dnsNames " " +:+ "]").

Definition rootTemplate (now : Z) (serialNumber : N) : template :=
  mkTemplate "postgres-operator-ca" [] (now - hour) (now + hour * 24 * 365 * 10) true serialNumber.

Definition generateRootCertificate (now : Z) (privateKey : ecdsaKey) (serialNumber : N) (s : source)
    : result x509Certificate * source :=
  parsed (CreateSelfSigned (rootTemplate now serialNumber) privateKey s) "error parsing certificate".

(** ** Policies: [pki.go] *)
Definition NewRootCertificateAuthority (now : Z) (s : source) : result RootCertificateAuthority * source :=
  match GenerateKey s with
  | (Err e, s) => (Err e, s)
  | (Ok key, s) =>
      match generateSerialNumber s with
      | (Err e, s) => (Err e, s)
      | (Ok serial, s) =>
          match generateRootCertificate now key serial s with
          | (Err e, s) => (Err e, s)
          | (Ok c, s) => (Ok (mkRoot (mkCertificate (Some c) "") (mkPrivateKey (Some key))), s)
          end
      end
  end.

Definition signedBy (k : PrivateKey) (c : x509Certificate) : bool :=
  match ecdsa k with Some k => bool_decide (public k = x_PublicKey c) | None => false end.

Definition verified (o : option error) : bool := match o with None => true | Some _ => false end.

Definition RootIsValid (now : Z) (root : RootCertificateAuthority) : bool :=
  match x509 (root_Certificate root) with
  | None => false
  | Some c =>
      verified (Verify c c now) &&
      (x_BasicConstraintsValid c && x_IsCA c && nonempty (x_SubjectKeyId c)) &&
      signedBy (root_PrivateKey root) c
  end.

(** [GenerateLeafCertificate]; an authority without a certificate or a key is
    a nil dereference *)
Definition GenerateLeafCertificate (now : Z) (root : RootCertificateAuthority) (commonName : string)
    (dnsNames : list string) (s : source) : result LeafCertificate * source :=
  match GenerateKey s with
  | (Err e, s) => (Err e, s)
  | (Ok key, s) =>
      match generateSerialNumber s with
      | (Err e, s) => (Err e, s)
      | (Ok serial, s) =>
          match x509 (root_Certificate root), ecdsa (root_PrivateKey root) with
          | Some signer, Some signerPrivate =>
              match generateLeafCertificate now signer signerPrivate (public key) serial commonName dnsNames s with
              | (Err e, s) => (Err e, s)
              | (Ok c, s) => (Ok (mkLeaf (mkCertificate (Some c) "") (mkPrivateKey (Some key))), s)
              end
          | _, _ => (Err (New "panic: nil pointer dereference"), s)
          end
      end
  end.

Definition renewalTime (before after : Z) : Z := after + -1 * ((after - before) ÷ renewalRatio).

Definition isBeforeRenewalTime (now before after : Z) : bool := bool_decide (now < renewalTime before after).

Definition leafIsValid (now : Z) (root : RootCertificateAuthority) (leaf : LeafCertificate) : bool :=
  match x509 (root_Certificate root), x509 (leaf_Certificate leaf) with
  | Some trusted, Some c =>
      verified (Verify trusted c now) && (x_BasicConstraintsValid c && negb (x_IsCA c)) &&
      signedBy (leaf_PrivateKey leaf) c && isBeforeRenewalTime now (x_NotBefore c) (x_NotAfter c)
  | _, _ => false
  end.

Definition RegenerateLeafWhenNecessary (now : Z) (root : RootCertificateAuthority) (leaf : LeafCertificate)
    (commonName : string) (dnsNames : list string) (s : source) : result LeafCertificate * source :=
  if leafIsValid now root leaf && hasSubject (leaf_Certificate leaf) commonName dnsNames then (Ok leaf, s)
  else GenerateLeafCertificate now root commonName dnsNames s.
End Pki.

(** ** Properties *)
Section PkiProperties.
Context `{X509}.

Lemma truncate_bounds t : t - second < truncate t <= t.
Proof. unfold truncate, second. pose proof (Z.mod_pos_bound t 1000000000). lia. Qed.

Lemma renewalTime_bounds before after : before <= after ->
  before <= renewalTime before after <= after /\
  3 * (after - renewalTime before after) <= after - before < 3 * (after - renewalTime before after) + 3.
Proof.
  intros Hle. unfold renewalTime, renewalRatio. rewrite Z.quot_div_nonneg by lia.
  pose proof (Z.div_mod (after - before) 3). pose proof (Z.mod_pos_bound (after - before) 3). lia.
Qed.

(** When the certificate of a leaf that is made at [t0] has to be renewed. *)
Definition leafRenewal (t0 : Z) : Z := renewalTime (truncate (t0 - hour)) (truncate (t0 + hour * 24 * 365)).

Lemma leafRenewal_bounds t0 : t0 + hour * 24 * 243 <= leafRenewal t0 <= t0 + hour * 24 * 244.
Proof.
  unfold leafRenewal. pose proof (truncate_bounds (t0 - hour)) as Hb. pose proof (truncate_bounds (t0 + hour * 24 * 365)) as Ha.
  pose proof (renewalTime_bounds (truncate (t0 - hour)) (truncate (t0 + hour * 24 * 365))) as Hr.
  unfold hour, second in *. lia.
Qed.

Lemma parsed_inv r m c s : parsed r m = (Ok c, s) -> exists der, r = (Ok der, s) /\ ParseCertificate der = Ok c.
Proof.
  unfold parsed. destruct r as [[der|e] s']; [|done]. destruct (ParseCertificate der) as [c'|e] eqn:E; [|done].
  intros [= -> ->]. by exists der.
Qed.

(** How a leaf comes to be. *)
Definition generatedLeaf (t0 : Z) (root : RootCertificateAuthority) (commonName : string) (dnsNames : list string)
    (leaf : LeafCertificate) : Prop :=
  exists signer signerKey key serial der s s' c,
    x509 (root_Certificate root) = Some signer /\ ecdsa (root_PrivateKey root) = Some signerKey /\
    CreateCertificate (leafTemplate t0 serial commonName dnsNames) signer (public key) signerKey s = (Ok der, s') /\
    ParseCertificate der = Ok c /\ made_from (leafTemplate t0 serial commonName dnsNames) (public key) der c /\
    leaf = mkLeaf (mkCertificate (Some c) "") (mkPrivateKey (Some key)).

Lemma GenerateLeafCertificate_inv t0 root commonName dnsNames s leaf s' :
  GenerateLeafCertificate t0 root commonName dnsNames s = (Ok leaf, s') -> generatedLeaf t0 root commonName dnsNames leaf.
Proof.
  unfold GenerateLeafCertificate. destruct (GenerateKey s) as [[key|e] s1]; [|done].
  destruct (generateSerialNumber s1) as [[serial|e] s2]; [|done].
  destruct (x509 (root_Certificate root)) as [signer|] eqn:Hs; [|done].
  destruct (ecdsa (root_PrivateKey root)) as [signerKey|] eqn:Hk; [|done].
  unfold generateLeafCertificate.
  destruct (parsed _ _) as [[c|e] s3] eqn:Hp; [|done]. intros [= <- <-].
  apply parsed_inv in Hp as (der & Hc & Hparse). destruct (Create_Parse _ _ _ _ _ _ _ Hc) as (c' & Hparse' & Hm).
  rewrite Hparse in Hparse'. injection Hparse' as <-.
  by exists signer, signerKey, key, serial, der, s2, s3, c.
Qed.

Lemma hasSubject_self c : hasSubject c (CommonName c) (DNSNames c) = bool_decide (is_Some (x509 c)).
Proof.
  unfold hasSubject, CommonName, DNSNames. destruct (x509 c) as [x|]; [|done].
  rewrite !bool_decide_eq_true_2 by (done || by eexists). cbn [andb]. induction (x_DNSNames x) as [|n l IH]; [done|].
  cbn [zip zip_with forallb fst snd]. rewrite bool_decide_eq_true_2 by done. exact IH.
Qed.

Lemma hasSubject_eq c commonName dnsNames : hasSubject c commonName dnsNames = true ->
  CommonName c = commonName /\ DNSNames c = dnsNames.
Proof.
  unfold hasSubject, CommonName, DNSNames. destruct (x509 c) as [x|]; [|done].
  intros [[Hc%bool_decide_eq_true Hl%bool_decide_eq_true]%andb_true_iff Hf]%andb_true_iff. split; [done|].
  revert dnsNames Hl Hf. induction (x_DNSNames x) as [|n l IH]; intros [|m k]; try done.
  intros [= Hl]. cbn [zip zip_with forallb fst snd]. intros [Hn%bool_decide_eq_true Hf]%andb_true_iff.
  rewrite Hn. f_equal. by apply IH.
Qed.

Lemma RootIsValid_inv now root : RootIsValid now root = true ->
  exists c k, x509 (root_Certificate root) = Some c /\ ecdsa (root_PrivateKey root) = Some k /\ public k = x_PublicKey c /\
    x_IsCA c = true /\ x_BasicConstraintsValid c = true /\ valid_at now c.
Proof.
  unfold RootIsValid, signedBy. destruct (x509 (root_Certificate root)) as [c|]; [|done].
  intros [[Hv [[Hb Hca]%andb_true_iff _]%andb_true_iff]%andb_true_iff Hk]%andb_true_iff.
  destruct (ecdsa (root_PrivateKey root)) as [k|]; [|done]. apply bool_decide_eq_true in Hk.
  destruct (Verify c c now) eqn:E; [done|]. apply Verify_time in E as [? _]. by exists c, k.
Qed.

(** A leaf is good from the moment it is made until it has to be renewed, as
    long as its root is. *)
Lemma generated_leaf_valid t0 root commonName dnsNames leaf t :
  generatedLeaf t0 root commonName dnsNames leaf -> RootIsValid t root = true -> t0 - hour <= t ->
  hasSubject (leaf_Certificate leaf) commonName dnsNames = true /\
  leafIsValid t root leaf = bool_decide (t < leafRenewal t0).
Proof.
  intros (signer & signerKey & key & serial & der & s & s' & c & Hs & Hk & Hc & Hp & Hm & ->) Hroot Ht.
  apply RootIsValid_inv in Hroot as (signer' & signerKey' & Hs' & Hk' & Hpub & Hca & Hbc & Hvalid).
  rewrite Hs in Hs'. injection Hs' as <-. rewrite Hk in Hk'. injection Hk' as <-.
  pose proof Hm as (Hraw & Hcn & Hdns & Hnb & Hna & Hb & Hisca & _ & Hkey).
  split.
  - cbn [leafTemplate t_CommonName t_DNSNames] in Hcn, Hdns.
    pose proof (hasSubject_self (mkCertificate (Some c) "")) as E. unfold CommonName, DNSNames in E. cbn [x509] in E.
    rewrite Hcn, Hdns in E. cbn [leaf_Certificate]. rewrite E. by apply bool_decide_eq_true_2.
  - unfold leafIsValid, isBeforeRenewalTime, signedBy. cbn [x509 leaf_Certificate leaf_PrivateKey ecdsa]. rewrite Hs.
    rewrite Hb, Hisca, Hkey, Hnb, Hna. cbn [t_IsCA leafTemplate t_NotBefore t_NotAfter negb].
    rewrite (bool_decide_eq_true_2 (public key = public key)) by done. fold (leafRenewal t0).
    case_bool_decide as Hr; [|by rewrite andb_false_r].
    assert (Hv : Verify signer c t = None).
    { eapply (Verify_signed _ _ signerKey); try done. unfold valid_at. rewrite Hnb, Hna. cbn [t_NotBefore t_NotAfter leafTemplate].
      pose proof (truncate_bounds (t0 - hour)). pose proof (truncate_bounds (t0 + hour * 24 * 365)).
      pose proof (renewalTime_bounds (truncate (t0 - hour)) (truncate (t0 + hour * 24 * 365))) as Hb'.
      unfold leafRenewal in Hr. unfold hour, second in *. lia. }
    by rewrite Hv.
Qed.

(** What a leaf has to be: signed by the root, not an authority, with its own
    key, with exactly the names asked for, and with more than a third of its
    life left. *)
Definition goodLeaf (now : Z) (root : RootCertificateAuthority) (leaf : LeafCertificate) (commonName : string)
    (dnsNames : list string) : Prop :=
  exists trusted c k,
    x509 (root_Certificate root) = Some trusted /\ x509 (leaf_Certificate leaf) = Some c /\ ecdsa (leaf_PrivateKey leaf) = Some k /\
    Verify trusted c now = None /\ x_BasicConstraintsValid c = true /\ x_IsCA c = false /\ public k = x_PublicKey c /\
    x_CommonName c = commonName /\ x_DNSNames c = dnsNames /\ 3 * (x_NotAfter c - now) > x_NotAfter c - x_NotBefore c.

Lemma goodLeaf_iff now root leaf commonName dnsNames :
  goodLeaf now root leaf commonName dnsNames <->
  leafIsValid now root leaf && hasSubject (leaf_Certificate leaf) commonName dnsNames = true.
Proof.
  unfold goodLeaf, leafIsValid, isBeforeRenewalTime, signedBy. split.
  - intros (trusted & c & k & -> & Hc & -> & Hv & Hb & Hca & Hk & <- & <- & Hr). rewrite Hc, Hv, Hb, Hca, Hk.
    apply Verify_time in Hv as [Hv _]. unfold valid_at in Hv.
    pose proof (renewalTime_bounds (x_NotBefore c) (x_NotAfter c)) as Ht.
    rewrite !bool_decide_eq_true_2 by (done || lia). cbn [verified andb negb].
    pose proof (hasSubject_self (leaf_Certificate leaf)) as Hs. unfold CommonName, DNSNames in Hs. rewrite Hc in Hs.
    rewrite Hs. apply bool_decide_eq_true_2. by eexists.
  - destruct (x509 (root_Certificate root)) as [trusted|]; [|done].
    destruct (x509 (leaf_Certificate leaf)) as [c|] eqn:Hc; [|done]. rewrite !andb_true_iff.
    intros [[[[Hv [Hb Hca%negb_true_iff]] Hk] Hr%bool_decide_eq_true] Hs%hasSubject_eq].
    destruct (ecdsa (leaf_PrivateKey leaf)) as [k|]; [|done]. apply bool_decide_eq_true in Hk.
    unfold CommonName, DNSNames in Hs. rewrite Hc in Hs. destruct Hs as [Hcn Hdns].
    destruct (Verify trusted c now) eqn:E; [done|]. pose proof (Verify_time _ _ _ E) as [Ht _]. unfold valid_at in Ht.
    pose proof (renewalTime_bounds (x_NotBefore c) (x_NotAfter c)). exists trusted, c, k. split_and!; try done. lia.
Qed.

Lemma generated_good now root commonName dnsNames leaf :
  generatedLeaf now root commonName dnsNames leaf -> RootIsValid now root = true -> goodLeaf now root leaf commonName dnsNames.
Proof.
  intros Hg Hroot. destruct (generated_leaf_valid _ _ _ _ _ now Hg Hroot) as [Hs Hv]; [unfold hour, second; lia|].
  apply goodLeaf_iff. rewrite Hs, Hv, bool_decide_eq_true_2; [done|].
  pose proof (leafRenewal_bounds now). unfold hour, second in *. lia.
Qed.

(** What is returned is the leaf itself, when it is good, or a new one. *)
Lemma RegenerateLeaf_inv now root leaf commonName dnsNames s leaf' s' :
  RegenerateLeafWhenNecessary now root leaf commonName dnsNames s = (Ok leaf', s') ->
  leaf' = leaf /\ s' = s /\ goodLeaf now root leaf commonName dnsNames \/
  generatedLeaf now root commonName dnsNames leaf' /\ ~ goodLeaf now root leaf commonName dnsNames.
Proof.
  pose proof (goodLeaf_iff now root leaf commonName dnsNames) as Hi. unfold RegenerateLeafWhenNecessary.
  destruct (leafIsValid now root leaf && hasSubject _ _ _).
  - intros [= <- <-]. left. split_and!; [done|done|by apply Hi].
  - intros Hg%GenerateLeafCertificate_inv. right. split; [done|]. by intros ?%Hi.
Qed.

(** C24: A certificate that is kept or made for a service is good: it is signed
    by the root, is not an authority, belongs to its private key, has exactly
    the names asked for, and has more than a third of its life left.  One that is
    already good is returned as it is, without any randomness, and never leads
    to an error. *)
Theorem leaf_is_good now root leaf commonName dnsNames s : RootIsValid now root = true ->
  match RegenerateLeafWhenNecessary now root leaf commonName dnsNames s with
  | (Ok leaf', s') =>
      goodLeaf now root leaf' commonName dnsNames /\
      (goodLeaf now root leaf commonName dnsNames -> leaf' = leaf /\ s' = s)
  | (Err _, _) => ~ goodLeaf now root leaf commonName dnsNames
  end.
Proof.
  intros Hroot. destruct (RegenerateLeafWhenNecessary now root leaf commonName dnsNames s) as [[leaf'|e] s'] eqn:E.
  - destruct (RegenerateLeaf_inv _ _ _ _ _ _ _ _ E) as [(-> & -> & Hg)|[Hg Hn]]; [done|].
    split; [by apply generated_good|done].
  - intros Hg%goodLeaf_iff. unfold RegenerateLeafWhenNecessary in E. by rewrite Hg in E.
Qed.

(** A certificate that is made now is kept for 243 days, as long as the
    root and the names stay the same, and is made again from then on; it is
    made again at once for other names. *)
Theorem leaf_is_kept t0 root commonName dnsNames leaf s s' t :
  GenerateLeafCertificate t0 root commonName dnsNames s = (Ok leaf, s') -> RootIsValid t root = true -> t0 <= t ->
  (t < t0 + hour * 24 * 243 -> forall s, RegenerateLeafWhenNecessary t root leaf commonName dnsNames s = (Ok leaf, s)) /\
  (t0 + hour * 24 * 244 <= t -> forall s, RegenerateLeafWhenNecessary t root leaf commonName dnsNames s =
     GenerateLeafCertificate t root commonName dnsNames s) /\
  (forall names s, names <> dnsNames -> RegenerateLeafWhenNecessary t root leaf commonName names s =
     GenerateLeafCertificate t root commonName names s).
Proof.
  intros Hg%GenerateLeafCertificate_inv Hroot Ht.
  destruct (generated_leaf_valid _ _ _ _ _ t Hg Hroot) as [Hs Hv]; [unfold hour, second; lia|].
  pose proof (leafRenewal_bounds t0) as Hr. unfold RegenerateLeafWhenNecessary. rewrite Hv. split_and!.
  - intros Hlt s1. rewrite bool_decide_eq_true_2 by lia. by rewrite Hs.
  - intros Hge s1. by rewrite bool_decide_eq_false_2 by lia.
  - intros names s1 Hne. destruct (hasSubject (leaf_Certificate leaf) commonName names) eqn:E; [|by rewrite andb_false_r].
    apply hasSubject_eq in E as [_ E]. apply hasSubject_eq in Hs as [_ Hs]. congruence.
Qed.

(** A new root is good for ten years and not any longer; unlike a leaf it is
    not renewed before that. *)
Theorem new_root_is_valid t0 s root s' :
  NewRootCertificateAuthority t0 s = (Ok root, s') ->
  forall t, (t0 <= t <= t0 + hour * 24 * 365 * 10 - second -> RootIsValid t root = true) /\
            (t0 + hour * 24 * 365 * 10 < t -> RootIsValid t root = false).
Proof.
  unfold NewRootCertificateAuthority. destruct (GenerateKey s) as [[key|e] s1]; [|done].
  destruct (generateSerialNumber s1) as [[serial|e] s2]; [|done]. unfold generateRootCertificate.
  destruct (parsed _ _) as [[c|e] s3] eqn:Hp; [|done]. intros [= <- <-] t.
  apply parsed_inv in Hp as (der & Hc & Hparse). destruct (CreateSelf_Parse _ _ _ _ _ Hc) as (c' & Hparse' & Hm).
  rewrite Hparse in Hparse'. injection Hparse' as <-. destruct Hm as (_ & _ & _ & Hnb & Hna & Hb & Hca & Hski & Hkey).
  cbn [rootTemplate t_NotBefore t_NotAfter t_IsCA] in *.
  pose proof (truncate_bounds (t0 - hour)). pose proof (truncate_bounds (t0 + hour * 24 * 365 * 10)).
  unfold RootIsValid, signedBy. cbn [x509 ecdsa root_Certificate root_PrivateKey]. split; intros Ht.
  - assert (Hv : Verify c c t = None).
    { eapply Verify_self; try done. unfold valid_at. rewrite Hnb, Hna. unfold hour, second in *. lia. }
    by rewrite Hv, Hb, Hca, Hski, Hkey, bool_decide_eq_true_2 by done.
  - destruct (Verify c c t) eqn:Hv; [done|]. apply Verify_time in Hv as [Hv _]. unfold valid_at in Hv. rewrite Hna in Hv.
    unfold hour, second in *. lia.
Qed.

(** ** Text *)
Fixpoint blocks (l : list string) : string :=
  match l with [] => EmptyString | bytes :: l => pem_Encode pemLabelCertificate bytes +:+ blocks l end.

Lemma readChain_blocks l fuel acc : (String.length (blocks l) < fuel)%nat -> readChain fuel (blocks l) acc = acc +:+ blocks l.
Proof.
  revert fuel acc. induction l as [|bytes l IH]; intros fuel acc Hf; (destruct fuel as [|fuel]; [lia|]).
  - cbn [readChain blocks]. by rewrite pem_Decode_nothing, app_nil_r_str.
  - cbn [readChain blocks] in *. pose proof (pem_Decode_Encode pemLabelCertificate bytes (blocks l)) as Hd.
    rewrite Hd. apply pem_Decode_shorter in Hd. rewrite bool_decide_eq_true_2 by done.
    rewrite IH by lia. by rewrite app_assoc_str.
Qed.

(** The blocks of a text in order, with their labels. *)
Inductive pem_blocks : string -> list (string * string) -> Prop :=
| pem_blocks_end data : pem_Decode data = None -> pem_blocks data []
| pem_blocks_next data label bytes rest l :
    pem_Decode data = Some (label, bytes, rest) -> pem_blocks rest l -> pem_blocks data ((label, bytes) :: l).

Definition certificates (l : list (string * string)) : list string :=
  map snd (filter (fun block => fst block = pemLabelCertificate) l).

Lemma pem_blocks_total data : exists l, pem_blocks data l.
Proof.
  induction (Nat.lt_wf_0_projected String.length data) as [data _ IH].
  destruct (pem_Decode data) as [[[label bytes] rest]|] eqn:E; [|by exists []; constructor].
  destruct (IH rest) as [l Hl]; [by eapply pem_Decode_shorter|]. exists ((label, bytes) :: l). by econstructor.
Qed.

(** The loop keeps every certificate, and nothing else. *)
Lemma readChain_pem_blocks fuel rest acc l : (String.length rest < fuel)%nat -> pem_blocks rest l ->
  readChain fuel rest acc = acc +:+ blocks (certificates l).
Proof.
  intros Hf Hl. revert fuel acc Hf. induction Hl as [rest Hd|rest label bytes rest' l Hd Hl IH]; intros fuel acc Hf;
    (destruct fuel as [|fuel]; [lia|]); cbn [readChain]; rewrite Hd; [by rewrite app_nil_r_str|].
  apply pem_Decode_shorter in Hd. rewrite IH by lia. unfold certificates. rewrite filter_cons. cbn [fst].
  case_bool_decide as E; [rewrite decide_True by done|by rewrite decide_False by done].
  cbn [map snd blocks]. by rewrite E, app_assoc_str.
Qed.

(** What a text that is read consists of. *)
Lemma Unmarshal_blocks data old c : cert_UnmarshalText data old = (c, None) ->
  exists first others x, pem_blocks data ((pemLabelCertificate, first) :: others) /\
    ParseCertificate first = Ok x /\ c = mkCertificate (Some x) (blocks (certificates others)).
Proof.
  unfold cert_UnmarshalText. destruct (pem_Decode data) as [[[label bytes] rest]|] eqn:Ed; [|done].
  case_bool_decide as El; [subst label|done]. destruct (ParseCertificate bytes) as [x|e] eqn:Ep; [|done]. intros Hc%(f_equal fst).
  cbn [fst] in Hc. subst c. destruct (pem_blocks_total rest) as [l Hl]. exists bytes, l, x. split_and!; [by econstructor|done|].
  f_equal. rewrite (readChain_pem_blocks _ _ _ l) by (lia || done). apply app_nil_l_str.
Qed.

(** Certificates whose text reads back. *)
Definition readable (c : Certificate) : Prop :=
  exists x l, x509 c = Some x /\ ParseCertificate (x_Raw x) = Ok x /\ chain c = blocks l.

Lemma Unmarshal_readable data c c' : cert_UnmarshalText data c = (c', None) -> readable c'.
Proof.
  intros (first & others & x & _ & Hp & ->)%Unmarshal_blocks. exists x, (certificates others).
  destruct (Parse_Raw _ _ Hp) as [Hraw _]. split_and!; [done|by rewrite Hraw|done].
Qed.

Lemma generated_readable t0 root commonName dnsNames leaf :
  generatedLeaf t0 root commonName dnsNames leaf -> readable (leaf_Certificate leaf).
Proof.
  intros (signer & signerKey & key & serial & der & s & s' & c & _ & _ & _ & Hp & _ & ->). exists c, [].
  destruct (Parse_Raw _ _ Hp) as [Hraw _]. split_and!; [done|by rewrite Hraw|done].
Qed.

Lemma readable_text c : readable c -> exists text, cert_MarshalText c = Ok text /\ nonempty text = true /\
  forall old, cert_UnmarshalText text old = (c, None).
Proof.
  intros (x & l & Hx & Hp & Hl). destruct (Parse_Raw _ _ Hp) as [_ Hne]. unfold cert_MarshalText. rewrite Hx, Hne.
  eexists. split; [done|].
  pose proof (pem_Decode_Encode pemLabelCertificate (x_Raw x) (chain c)) as Hd. split.
  - destruct (_ +:+ _) eqn:E; [|done]. by rewrite pem_Decode_nothing in Hd.
  - intros old. unfold cert_UnmarshalText. rewrite Hd, bool_decide_eq_true_2, Hp by done.
    rewrite Hl, readChain_blocks by lia. rewrite app_nil_l_str. destruct c as [x' ch]. cbn in *. by subst.
Qed.

Lemma key_text k der : MarshalECPrivateKey k = Ok der -> exists text, key_MarshalText (mkPrivateKey (Some k)) = Ok text /\
  nonempty text = true /\ forall old, key_UnmarshalText text old = (mkPrivateKey (Some k), None).
Proof.
  intros Hm. unfold key_MarshalText. cbn [ecdsa]. rewrite Hm. eexists. split; [done|].
  pose proof (pem_Decode_Encode pemLabelECDSAKey der "") as Hd. rewrite app_nil_r_str in Hd. split.
  - destruct (pem_Encode _ _) eqn:E; [|done]. by rewrite pem_Decode_nothing in Hd.
  - intros old. unfold key_UnmarshalText. rewrite Hd, bool_decide_eq_true_2 by done. by rewrite (Marshal_Parse _ _ Hm).
Qed.

(** C25: A certificate that is read from a text, a bundle included, is written
    with nothing lost and nothing added.  Reading succeeds exactly when the
    first block of the text is a certificate that parses; this is the
    certificate that is used, and every later certificate of the text is kept,
    in order, while blocks of any other label are dropped.  What is written is
    the first certificate and then the others, and it reads back as the same
    certificate with the same chain, so that what the operator stores stays
    what it is, however often it is read and written.  A text that is not read
    leaves the certificate as it was. *)
Theorem certificate_text_roundtrip data old :
  match cert_UnmarshalText data old with
  | (c, None) => exists first others x,
      pem_blocks data ((pemLabelCertificate, first) :: others) /\ ParseCertificate first = Ok x /\
      x509 c = Some x /\ chain c = blocks (certificates others) /\
      exists text, cert_MarshalText c = Ok text /\ text = blocks (first :: certificates others) /\
        forall old', cert_UnmarshalText text old' = (c, None)
  | (c, Some _) => c = old /\ forall first others,
      pem_blocks data ((pemLabelCertificate, first) :: others) -> verified (err_of (ParseCertificate first)) = false
  end.
Proof.
  destruct (cert_UnmarshalText data old) as [c [e|]] eqn:E.
  - unfold cert_UnmarshalText in E. destruct (pem_Decode data) as [[[label bytes] rest]|] eqn:Ed; cycle 1.
    { injection E as <- <-. split; [done|]. intros first others Hb. inversion Hb; congruence. }
    case_bool_decide as El; [subst label; destruct (ParseCertificate bytes) eqn:Ep; [done|]|]; injection E as <- <-;
      (split; [done|]); intros first others Hb; inversion Hb; simplify_eq; by rewrite ?Ep.
  - destruct (Unmarshal_blocks _ _ _ E) as (first & others & x & Hb & Hp & Hc). exists first, others, x.
    rewrite Hc. split_and!; [done..|]. rewrite <- Hc.
    destruct (readable_text _ (Unmarshal_readable _ _ _ E)) as (text & Ht & _ & Hr). exists text. split_and!; [done| |done].
    rewrite Hc in Ht. unfold cert_MarshalText in Ht. cbn [x509 chain] in Ht. destruct (Parse_Raw _ _ Hp) as [Hraw Hne].
    rewrite Hraw, Hne in Ht. by injection Ht as <-.
Qed.
End PkiProperties.

(** ** Certificates as plain data, for the examples *)
Module ConcreteX509.
Fixpoint bits (p : positive) : string :=
  match p with xH => "H" | xO p => String "O" (bits p) | xI p => String "I" (bits p) end.

Fixpoint read_bits (s : string) : option positive :=
  match s with
  | String "H" EmptyString => Some xH
  | String "O" s => xO <$> read_bits s
  | String "I" s => xI <$> read_bits s
  | _ => None
  end.

Lemma read_bits_bits p : read_bits (bits p) = Some p.
Proof. induction p; simpl; rewrite ?IHp; done. Qed.

(** Subject, names, validity, kind, key and the key that signed. *)
Record body := mkBody {
  b_CommonName : string; b_DNSNames : list string; b_NotBefore : Z; b_NotAfter : Z; b_IsCA : bool;
  b_PublicKey : string; b_Signer : string
}.

Definition write (b : body) : string :=
  bits (positives_flatten [encode (b_CommonName b); encode (b_DNSNames b); encode (b_NotBefore b); encode (b_NotAfter b);
                encode (b_IsCA b); encode (b_PublicKey b); encode (b_Signer b)]).

Definition read (s : string) : option body :=
  p ← read_bits s;
  l ← positives_unflatten p;
  match l with
  | [cn; names; before; after; ca; publicKey; signer] =>
      cn ← decode cn; names ← decode names; before ← decode before; after ← decode after; ca ← decode ca;
      publicKey ← decode publicKey; signer ← decode signer;
      Some (mkBody cn names before after ca publicKey signer)
  | _ => None
  end.

Lemma read_write b : read (write b) = Some b.
Proof.
  unfold read, write. rewrite read_bits_bits. cbn [mbind option_bind]. rewrite positives_unflatten_flatten. cbn [mbind option_bind].
  repeat (rewrite decode_encode; cbn [mbind option_bind]). by destruct b.
Qed.

Definition der (t : template) (publicKey signer : string) : string :=
  write (mkBody (t_CommonName t) (t_DNSNames t) (truncate (t_NotBefore t)) (truncate (t_NotAfter t)) (t_IsCA t) publicKey signer).

Lemma read_der t publicKey signer : read (der t publicKey signer) =
  Some (mkBody (t_CommonName t) (t_DNSNames t) (truncate (t_NotBefore t)) (truncate (t_NotAfter t)) (t_IsCA t) publicKey signer).
Proof. apply read_write. Qed.

Definition parse (s : string) : result x509Certificate :=
  match read s with
  | Some (mkBody cn names before after ca publicKey _) => Ok (mkX509 s cn names before after true ca "id" publicKey)
  | None => Err (New "x509: malformed certificate")
  end.

Definition verify (root c : x509Certificate) (now : Z) : option error :=
  match read (x_Raw c) with
  | Some b =>
      if bool_decide (b_Signer b = x_PublicKey root) && bool_decide (x_NotBefore c <= now <= x_NotAfter c) &&
         bool_decide (x_NotBefore root <= now <= x_NotAfter root) then None else Some (New "x509: not valid")
  | None => Some (New "x509: malformed certificate")
  end.

Definition pem (label bytes : string) : string := quote label +:+ ":" +:+ quote bytes +:+ ".".

Definition unpem (s : string) : option (string * string * string) :=
  match lex_quoted s with
  | Some (label, String ":" s) =>
      match lex_quoted s with Some (bytes, String "." rest) => Some (label, bytes, rest) | _ => None end
  | _ => None
  end.

Lemma unpem_pem label bytes rest : unpem (pem label bytes +:+ rest) = Some (label, bytes, rest).
Proof.
  unfold unpem, pem. rewrite !app_assoc_str. rewrite lex_quote by done. change (":" +:+ ?t) with (String ":" t). cbv iota beta.
  rewrite lex_quote; done.
Qed.

Lemma lex_body_shorter q s v rest : lex_body q s = Some (v, rest) -> (String.length rest < String.length s)%nat.
Proof.
  enough (Hn : forall n s v, (String.length s < n)%nat -> lex_body q s = Some (v, rest) -> (String.length rest < String.length s)%nat)
    by (apply (Hn (S (String.length s))); lia).
  clear. induction n as [|n IH]; intros s v Hl; [lia|]. destruct s as [|c s]; [done|]. cbn [lex_body String.length] in *.
  case_decide.
  - destruct s as [|d s]; [intros [= _ <-]; simpl; lia|]. cbn [String.length] in *. case_decide.
    + destruct (lex_body q s) as [[v' r]|] eqn:E; [|done]. intros [= _ <-]. apply IH in E; simpl in *; lia.
    + intros [= _ <-]. simpl. lia.
  - destruct (lex_body q s) as [[v' r]|] eqn:E; [|done]. intros [= _ <-]. apply IH in E; simpl in *; lia.
Qed.

Lemma lex_quoted_shorter s v rest : lex_quoted s = Some (v, rest) -> (String.length rest < String.length s)%nat.
Proof.
  destruct s as [|c s]; [done|]. cbn [lex_quoted]. case_decide; [|done]. intros Hl%lex_body_shorter. simpl. lia.
Qed.

Lemma unpem_shorter s label bytes rest : unpem s = Some (label, bytes, rest) -> (String.length rest < String.length s)%nat.
Proof.
  unfold unpem. destruct (lex_quoted s) as [[l r]|] eqn:E; [|done]. apply lex_quoted_shorter in E.
  destruct r as [|c r]; [done|]. destruct (decide (c = ":"%char)) as [->|Hc].
  - destruct (lex_quoted r) as [[b r']|] eqn:E'; [|done]. apply lex_quoted_shorter in E'.
    destruct r' as [|d r']; [done|]. destruct (decide (d = "."%char)) as [->|Hd].
    + intros [= _ _ <-]. simpl in *. lia.
    + intros Hx. exfalso. destruct d as [[] [] [] [] [] [] [] []]; done.
  - intros Hx. exfalso. destruct c as [[] [] [] [] [] [] [] []]; done.
Qed.

#[local] Existing Instance ConcreteRandom.counter.

Definition key_der (k : N) : string := bits (encode k).

Definition x509s : X509.
Proof.
  refine {|
    ecdsaKey := N; public := fun k => bits (encode k); ecdsa_Equal k l := bool_decide (k = l);
    GenerateKey s := (Ok s, N.succ s);
    MarshalECPrivateKey k := Ok (key_der k);
    ParseECPrivateKey s := match p ← read_bits s; decode p with Some k => Ok k | None => Err (New "malformed") end;
    CreateCertificate t parent publicKey k s := (Ok (der t publicKey (bits (encode k))), s);
    CreateSelfSigned t k s := (Ok (der t (bits (encode k)) (bits (encode k))), s);
    ParseCertificate := parse; Verify := verify; pem_Encode := pem; pem_Decode := unpem
  |}; unfold parse, verify, key_der.
  - intros k l. rewrite bool_decide_eq_true. split; [by intros ->|]. intros E.
    apply (f_equal read_bits) in E. rewrite !read_bits_bits in E. injection E as E.
    by apply (inj encode) in E.
  - intros k d [= <-]. rewrite read_bits_bits. cbn [mbind option_bind]. by rewrite decode_encode.
  - intros s k s' [= <- _]. by eexists.
  - intros d c. destruct (read d) as [[]|] eqn:E; [|done].
    intros [= <-]. split; [done|]. destruct d; [done|done].
  - by eexists.
  - intros t parent pub k s d s' [= <- _]. rewrite read_der. eexists. split; [done|]. by repeat split.
  - intros t k s d s' [= <- _]. rewrite read_der. eexists. split; [done|]. by repeat split.
  - intros t root k pub s d s' c now [= <- _]. rewrite read_der. intros [= <-] _ Hk _ _ Hr Hc. cbn [x_Raw]. rewrite read_der.
    rewrite Hk. unfold valid_at in *. by rewrite !bool_decide_eq_true_2.
  - intros t k s d s' c now [= <- _]. rewrite read_der. intros [= <-] _ Hc. cbn [x_Raw x_PublicKey]. rewrite read_der.
    unfold valid_at in *. by rewrite !bool_decide_eq_true_2.
  - intros root c now. destruct (read (x_Raw c)); [|done].
    destruct (_ && _) eqn:E; [|done]. apply andb_true_iff in E as [[_ E1%bool_decide_eq_true]%andb_true_iff E2%bool_decide_eq_true].
    done.
  - intros label bytes rest. apply unpem_pem.
  - done.
  - intros s label bytes rest. apply unpem_shorter.
Defined.
End ConcreteX509.

#[local] Existing Instances ConcreteRandom.counter ConcreteX509.x509s.

(** A root that is made now, for the examples. *)
Definition exampleNow : Z := 2000000000 * second.

Definition exampleRoot : RootCertificateAuthority :=
  match fst (NewRootCertificateAuthority exampleNow 7%N) with Ok root => root | Err _ => mkRoot noCertificate noKey end.

Definition exampleLeaf : LeafCertificate :=
  match fst (GenerateLeafCertificate exampleNow exampleRoot "hippo-primary" ["hippo-primary"] 8%N) with
  | Ok leaf => leaf
  | Err _ => mkLeaf noCertificate noKey
  end.

(** Whether a result is one that [f] accepts; unlike the result itself, the
    answer is computed without the laws of the instance. *)
Definition accepts {A} (f : A -> bool) (r : result A * N) : bool :=
  match r with (Ok a, _) => f a | (Err _, _) => false end.

Lemma leaf_is_good_witness :
  match RegenerateLeafWhenNecessary exampleNow exampleRoot exampleLeaf "hippo-replicas" ["hippo-replicas"] 9%N with
  | (Ok leaf, _) => goodLeaf exampleNow exampleRoot leaf "hippo-replicas" ["hippo-replicas"]
  | (Err _, _) => False
  end.
Proof.
  pose proof (leaf_is_good exampleNow exampleRoot exampleLeaf "hippo-replicas" ["hippo-replicas"] 9%N ltac:(by vm_compute)) as Hg.
  assert (Hok : accepts (fun _ => true)
    (RegenerateLeafWhenNecessary exampleNow exampleRoot exampleLeaf "hippo-replicas" ["hippo-replicas"] 9%N) = true)
    by by vm_compute.
  destruct (RegenerateLeafWhenNecessary exampleNow exampleRoot exampleLeaf "hippo-replicas" ["hippo-replicas"] 9%N)
    as [[leaf|e] s]; [apply Hg|done].
Defined.

Lemma exampleLeaf_made :
  GenerateLeafCertificate exampleNow exampleRoot "hippo-primary" ["hippo-primary"] 8%N =
  (Ok exampleLeaf, snd (GenerateLeafCertificate exampleNow exampleRoot "hippo-primary" ["hippo-primary"] 8%N)).
Proof.
  assert (Hok : accepts (fun _ => true)
    (GenerateLeafCertificate exampleNow exampleRoot "hippo-primary" ["hippo-primary"] 8%N) = true) by by vm_compute.
  unfold exampleLeaf. by destruct (GenerateLeafCertificate exampleNow exampleRoot _ _ 8%N) as [[leaf|e] s].
Qed.

Lemma leaf_is_kept_witness :
  RegenerateLeafWhenNecessary (exampleNow + hour * 24 * 100) exampleRoot exampleLeaf "hippo-primary" ["hippo-primary"] 11%N =
    (Ok exampleLeaf, 11%N).
Proof.
  refine (proj1 (leaf_is_kept exampleNow exampleRoot "hippo-primary" ["hippo-primary"] exampleLeaf 8%N _
    (exampleNow + hour * 24 * 100) exampleLeaf_made _ _) _ 11%N); [by vm_compute|done|done].
Defined.

Definition exampleText : string :=
  match cert_MarshalText (leaf_Certificate exampleLeaf) with Ok text => text | Err _ => "" end.

Lemma certificate_text_roundtrip_witness :
  match cert_UnmarshalText exampleText noCertificate with
  | (c, None) => nonempty exampleText = true /\ exists again, cert_MarshalText c = Ok again
  | _ => False
  end.
Proof.
  assert (Hn : verified (snd (cert_UnmarshalText exampleText noCertificate)) = true) by by vm_compute.
  pose proof (certificate_text_roundtrip exampleText noCertificate) as Hr.
  destruct (cert_UnmarshalText exampleText noCertificate) as [c [e|]]; [done|].
  destruct Hr as (first & others & x & _ & _ & _ & _ & again & Ha & _).
  assert (nonempty exampleText = true) by by vm_compute. split; [done|by exists again].
Defined.
