(* ===== verification/Lease.v ===== *)
(** * Leases: [percona/k8s/lease.go]

    A lease is taken by writing the holder into it with optimistic
    concurrency, and given back by a conditional delete. *)
From S2P Require Import Prelude GoStrings Cluster Prog Errors Naming Objects Client.

Definition ErrLeaseAlreadyHeld : error := Sentinel "lease held by another holder".

Section Lease.
Context `{ControllerRuntime}.

(** [IsHolderStaleFunc] *)
Definition IsHolderStaleFunc : Type := string -> action bool.

Definition GetLease (leaseName namespace : string) : action Lease :=
  call (Get KLease (namespace, leaseName)).

Definition emptyMeta (name namespace : string) : ObjectMeta :=
  mkMeta name namespace "" "" 0 0 None ∅ ∅ [] None "".

(** The last lines of the callback: the lease is the caller's from now on. *)
Definition takeLease (holder : string) (lease : Lease) : action Lease :=
  let! now := call Now in
  Ret (Ok (lease <| l_HolderIdentity := Some holder |> <| l_AcquireTime := Some now |>)).

Definition AcquireLease (leaseName holder namespace : string)
    (checkStale : option IsHolderStaleFunc) : action unit :=
  let lease := mkLease (emptyMeta leaseName namespace) None None in
  CreateOrUpdateLease lease (fun lease =>
    match l_HolderIdentity lease with
    | Some current =>
        if decide (current = holder) then Ret (Ok lease)
        else match checkStale with
             | None => Ret (Err ErrLeaseAlreadyHeld)
             | Some checkStale =>
                 do! stale := checkStale current or "failed to check if lease holder is stale" in
                 if negb stale then Ret (Err ErrLeaseAlreadyHeld) else takeLease holder lease
             end
    | None => takeLease holder lease
    end).

Definition ReleaseLease (leaseName holder namespace : string) : action unit :=
  let! r := GetLease leaseName namespace in
  match r with
  | Err e => if IsNotFound e then Ret (Ok tt) else Ret (Err e)
  | Ok lease =>
      let other := match l_HolderIdentity lease with
                   | Some holderID => negb (bool_decide (holderID = holder))
                   | None => false
                   end in
      if other then Ret (Err ErrLeaseAlreadyHeld) else
      let! r := call (Delete KLease (objectKey (l_Meta lease))
                        (Preconditions (om_UID (l_Meta lease)) (om_ResourceVersion (l_Meta lease)))) in
      match r with
      | Ok _ => Ret (Ok tt)
      | Err e => if IsNotFound e || IsConflict e then Ret (Ok tt)
                 else Ret (Err (Wrap "delete lease" e))
      end
  end.

(** ** Rules *)

(** A write of a lease that is allowed after the calls [h]: the creation of
    the lease, or the update of the lease that was read in [h] and was free
    or, in the judgement of [stale], abandoned by its holder. *)
Definition lease_write_ok (leaseName holder namespace : string)
    (stale : history -> string -> Prop) (h : history) (o : op) : Prop :=
  match o with
  | Create KLease l =>
      l_HolderIdentity l = Some holder /\ objectKey (l_Meta l) = (namespace, leaseName)
  | Update KLease l =>
      l_HolderIdentity l = Some holder /\
      exists old : Lease, read h KLease (namespace, leaseName) old /\ l_Meta old = l_Meta l /\
        (l_HolderIdentity old = None \/
         exists current, l_HolderIdentity old = Some current /\ current <> holder /\ stale h current)
  | Delete KLease at_ opts =>
      exists old : Lease, read h KLease (namespace, leaseName) old /\ at_ = objectKey (l_Meta old) /\
        opts = Preconditions (om_UID (l_Meta old)) (om_ResourceVersion (l_Meta old)) /\
        (l_HolderIdentity old = None \/ l_HolderIdentity old = Some holder)
  | _ => True
  end.

(** The holder has the lease: it was read as the holder's, or written so. *)
Definition lease_granted (leaseName holder namespace : string) (h : history) : Prop :=
  (exists old : Lease, read h KLease (namespace, leaseName) old /\
                       l_HolderIdentity old = Some holder) \/
  (exists l l' : Lease, l_HolderIdentity l = Some holder /\
     ((Ev (Create KLease l : op) (Ok l' : result Lease)) ∈ h \/
      (Ev (Update KLease l : op) (Ok l' : result Lease)) ∈ h)).

(** Another holder, that is alive, has the lease. *)
Definition lease_blocked (leaseName holder namespace : string)
    (alive : history -> string -> Prop) (h : history) : Prop :=
  exists (old : Lease) current, read h KLease (namespace, leaseName) old /\
    l_HolderIdentity old = Some current /\ current <> holder /\ alive h current.

(** A refusal has a reason: an error answer, or another holder that is alive. *)
Definition lease_refused (leaseName holder namespace : string)
    (alive : history -> string -> Prop) (h : history) : Prop :=
  (exists e, e ∈ h /\ is_Some (answer_err e)) \/ lease_blocked leaseName holder namespace alive h.

Lemma lease_granted_grow leaseName holder namespace h h' :
  lease_granted leaseName holder namespace h -> h `prefix_of` h' ->
  lease_granted leaseName holder namespace h'.
Proof.
  intros [(old & Hr & Hh)|(l & l' & Hh & [Hin|Hin])] Hp.
  - left. exists old. split; [by eapply elem_of_grow|done].
  - right. exists l, l'. split; [done|]. left. by eapply elem_of_grow.
  - right. exists l, l'. split; [done|]. right. by eapply elem_of_grow.
Qed.

Lemma error_seen_grow (h h' : history) :
  (exists e, e ∈ h /\ is_Some (answer_err e)) -> h `prefix_of` h' ->
  exists e, e ∈ h' /\ is_Some (answer_err e).
Proof. intros (e & Hin & He) Hp. exists e. split; [by eapply elem_of_grow|done]. Qed.

Lemma lease_refused_grow leaseName holder namespace alive h h' :
  (forall h h' c, alive h c -> h `prefix_of` h' -> alive h' c) ->
  lease_refused leaseName holder namespace alive h -> h `prefix_of` h' ->
  lease_refused leaseName holder namespace alive h'.
Proof.
  intros Ha [He|(old & c & Hr & Hh & Hne & Hc)] Hp; [left; by eapply error_seen_grow|].
  right. exists old, c. split_and!; [by eapply elem_of_grow|done..|by eapply Ha].
Qed.

Section AcquireRule.
Context (leaseName holder namespace : string).
Context (stale alive : history -> string -> Prop).
Context (G : history -> op -> Prop).
Context (checkStale : IsHolderStaleFunc).
Hypothesis G_get : forall h at_, G h (Get KLease at_).
Hypothesis G_now : forall h, G h Now.
Hypothesis G_write : forall h o, lease_write_ok leaseName holder namespace stale h o ->
  match o with Create KLease _ | Update KLease _ => True | _ => False end -> G h o.
Hypothesis stale_grow : forall h h' c, stale h c -> h `prefix_of` h' -> stale h' c.
Hypothesis check_ok : forall h current, current <> holder ->
  wps G h (checkStale current) (fun h' r =>
    match r with
    | Ok true => stale h' current
    | Ok false => alive h' current
    | Err _ => exists e, e ∈ h' /\ is_Some (answer_err e)
    end).

Definition acquired_post (h : history) (r : result unit) : Prop :=
  match r with
  | Ok _ => lease_granted leaseName holder namespace h
  | Err e => (exists ev, ev ∈ h /\ is_Some (answer_err ev)) \/
             (e = ErrLeaseAlreadyHeld /\ lease_blocked leaseName holder namespace alive h)
  end.

(** Writing the taken lease, as an update of [cur] read before or as a new one. *)
Definition taken (l l' : Lease) : Prop :=
  l_HolderIdentity l' = Some holder /\ l_Meta l' = l_Meta l.

Lemma takeLease_wps h l (Q : history -> result Lease -> Prop) :
  (forall h' l', h `prefix_of` h' -> taken l l' -> Q h' (Ok l')) -> wps G h (takeLease holder l) Q.
Proof.
  intros HQ. split; [apply G_now|]. intros now. apply HQ; [|done]. by apply prefix_app_r.
Qed.

Lemma update_taken h cur l' :
  read h KLease (namespace, leaseName) cur -> taken cur l' ->
  l_HolderIdentity cur = None \/
    (exists current, l_HolderIdentity cur = Some current /\ current <> holder /\ stale h current) ->
  (l' = cur -> acquired_post h (Ok tt)) /\
  (l' <> cur -> G h (Update KLease l') /\
     forall r : result Lease, acquired_post (h ++ [Ev (Update KLease l' : op) r]) (outcome r)).
Proof.
  intros Hread [Hh Hm] Hold. split.
  - intros ->. left. by exists cur.
  - intros _. split.
    + apply G_write; [|done]. split; [done|]. by exists cur.
    + intros [l2|e]; simpl.
      * right. exists l', l2. split; [done|]. right. apply elem_of_snoc.
      * left. exists (Ev (Update KLease l' : op) (Err e : result Lease)). split; [apply elem_of_snoc|].
        simpl. by eexists.
Qed.

Lemma AcquireLease_wps h :
  wps G h (AcquireLease leaseName holder namespace (Some checkStale)) acquired_post.
Proof.
  unfold AcquireLease. apply CreateOrUpdateLease_wps; [apply G_get|].
  change (objectKey (l_Meta _)) with (namespace, leaseName). cbn [l_HolderIdentity]. cbv zeta.
  intros [cur|e].
  - set (h1 := h ++ _).
    assert (Hread : read h1 KLease (namespace, leaseName) cur) by apply elem_of_snoc.
    destruct (l_HolderIdentity cur) as [current|] eqn:Ecur.
    + case_decide as Ed; simpl.
      * split; [|done]. intros _. left. exists cur. by subst.
      * rewrite wps_bindr. eapply wps_conseq; [apply wps_prefix, check_ok, Ed|].
        intros h2 [[|]|e] [Hp Hst]; cbn [negb].
        -- apply takeLease_wps. intros h3 l' Hp3 Ht. apply update_taken; [|done|].
           ++ eapply elem_of_grow; [exact Hread|]. by transitivity h2.
           ++ right. exists current. split_and!; [done..|]. by apply (stale_grow h2).
        -- right. split; [done|]. exists cur, current. split_and!; [by eapply elem_of_grow|done..].
        -- by left.
    + apply takeLease_wps. intros h2 l' Hp Ht. apply update_taken; [|done|by left].
      by eapply elem_of_grow.
  - set (h1 := h ++ _). destruct (IsNotFound e).
    + apply takeLease_wps. intros h2 l' Hp [Hh Hm]. split.
      * apply G_write; [|done]. split; [done|]. by rewrite Hm.
      * intros [l2|e2]; simpl.
        -- right. exists l', l2. split; [done|]. left. apply elem_of_snoc.
        -- left. exists (Ev (Create KLease l' : op) (Err e2 : result Lease)).
           split; [apply elem_of_snoc|]. simpl. by eexists.
    + left. exists (got KLease (namespace, leaseName) (Err e)). split; [apply elem_of_snoc|].
      simpl. by eexists.
Qed.
End AcquireRule.

(** A lease is deleted only when it was read as free or as the caller's, and
    with that version's preconditions. *)
Lemma ReleaseLease_wps leaseName holder namespace stale (G : history -> op -> Prop) h :
  (forall h at_, G h (Get KLease at_)) ->
  (forall h o, lease_write_ok leaseName holder namespace stale h o ->
     match o with Delete KLease _ _ => True | _ => False end -> G h o) ->
  wps G h (ReleaseLease leaseName holder namespace) (fun h' r =>
    match r with
    | Ok _ => True
    | Err _ => (exists e, e ∈ h' /\ is_Some (answer_err e)) \/
        exists (l : Lease) other, read h' KLease (namespace, leaseName) l /\
          l_HolderIdentity l = Some other /\ other <> holder
    end).
Proof.
  intros G_get G_del. unfold ReleaseLease. apply wps_call_bind. split; [apply G_get|].
  intros [l|e]; cbv beta iota.
  2:{ simpl. destruct (IsNotFound e); [done|]. left.
      exists (got KLease (namespace, leaseName) (Err e)). split; [apply elem_of_snoc|]. by eexists. }
  cbv zeta. match goal with |- context [if ?c then _ else _] => destruct c eqn:Eo end.
  { right. destruct (l_HolderIdentity l) as [other|] eqn:El; [|done]. exists l, other.
    split_and!; [apply elem_of_snoc|done|]. by bool_to_prop. }
  split.
  - apply G_del; [|done]. simpl. exists l. split_and!; [apply elem_of_snoc|done|done|].
    destruct (l_HolderIdentity l); [|by left]. right. by bool_to_prop; subst.
  - intros [[]|e]; simpl; [done|]. destruct (IsNotFound e || IsConflict e); [done|]. left.
    eexists. split; [apply elem_of_snoc|]. simpl. by eexists.
Qed.
End Lease.
