(* ===== verification/BackupUtils.v ===== *)
(** * Helpers of the backup controller

    [percona/controller/utils.go], the status update of
    [perconapgbackup_types.go] and [percona/k8s/backup.go]. *)
From S2P Require Import Prelude GoStrings Cluster Prog Errors Naming Objects Client.

(** A nil dereference: controller-runtime recovers the panic and reports an
    error, so nothing runs after it. *)
Definition panic : error := New "panic".

Section Utils.
Context `{ControllerRuntime}.

(** ** Status updates *)

(** [UpdateStatus] with a callback that may read the clock, or panic ([None]). *)
Definition UpdateStatusM (pgBackup : PerconaPGBackup)
    (updateFunc : PerconaPGBackup -> program (option PerconaPGBackup)) : action unit :=
  RetryOnConflict (
    do! bcp := call (Get KBackup (objectKey (b_Meta pgBackup))) or "get PGBackup" in
    let! bcp := updateFunc bcp in
    match bcp with
    | Some bcp => ignore (call (StatusUpdate KBackup bcp))
    | None => Ret (Err panic)
    end).

Definition UpdateStatus (pgBackup : PerconaPGBackup)
    (updateFunc : PerconaPGBackup -> PerconaPGBackup) : action unit :=
  UpdateStatusM pgBackup (fun bcp => Ret (Some (updateFunc bcp))).

(** ** Jobs *)

(** The status of the first condition of a type is [True]. *)
Definition firstConditionTrue (t : string) (l : list (string * ConditionStatus)) : bool :=
  match List.find (fun c => bool_decide (c.1 = t)) l with
  | Some c => bool_decide (c.2 = ConditionTrue)
  | None => false
  end.

Definition JobCompleted (job : Job) : bool := firstConditionTrue "Complete" (j_Conditions job).
Definition JobFailed (job : Job) : bool := firstConditionTrue "Failed" (j_Conditions job).

Definition RemoveKeepJobFinalizer (job : Job) : action unit :=
  RetryOnConflict (
    let! r := call (Get KJob (objectKey (j_Meta job))) in
    match r with
    | Err e => Ret (match IgnoreNotFound (Some e) with Some e => Err e | None => Ok tt end)
    | Ok j =>
        let '(fs, changed) := RemoveFinalizer (om_Finalizers (j_Meta j)) FinalizerKeepJob in
        if negb changed then Ret (Ok tt)
        else ignore (call (Update KJob (j <| j_Meta ::= fun m => m <| om_Finalizers := fs |> |>)))
    end).

(** ** Pods *)
Definition podReady (pod : Pod) : bool :=
  existsb (fun c => bool_decide (c = ("Ready", ConditionTrue))) (p_Conditions pod).

Definition GetReadyInstancePod `{LabelMatching} (clusterName namespace : string) : action Pod :=
  match AsSelector (ClusterInstances clusterName) with
  | Err e => Ret (Err e)
  | Ok selector =>
      do! pods := call (ListAll KPod namespace (ByLabels selector)) or "list pods" in
      match List.find (fun pod => bool_decide (p_Phase pod = "Running") && podReady pod) pods with
      | Some pod => Ret (Ok pod)
      | None => Ret (Err (New "no running instance found"))
      end
  end.

(** ** Finalizers *)
Definition ErrFinalizerPending : error := Sentinel "finalizer pending".
Definition isPending (e : error) : bool := Is e "finalizer pending".

(** The object is the caller's: the Go code changes it in place, so it is
    returned. *)
Definition RunFinalizer {k} (o : obj k) (finalizer : string) (f : obj k -> action unit)
    : program (obj k * result bool) :=
  if negb (ContainsFinalizer (om_Finalizers (meta o)) finalizer) then Ret (o, Ok true) else
  let! r := f o in
  match r with
  | Err e =>
      if isPending e then Ret (o, Ok false)
      else Ret (o, Err (Wrap ("run finalizer " +:+ finalizer) e))
  | Ok _ =>
      let '(fs, changed) := RemoveFinalizer (om_Finalizers (meta o)) finalizer in
      if changed then
        let o' := onMeta (fun m => m <| om_Finalizers := fs |>) o in
        let! r := call (Patch k o o') in
        match r with
        | Ok o'' => Ret (o'', Ok true)
        | Err e => if IsNotFound e then Ret (o', Ok true)
                   else Ret (o', Err (Wrap "remove finalizers" e))
        end
      else Ret (o, Ok true)
  end.

(** ** The latest backup of a cluster: [GetLatestBackup] *)
Definition ErrRunningBackup : error := Sentinel "backups are running".
Definition ErrNoBackups : error := Sentinel "no backups found".

(** One iteration of the loop: the latest backup so far and whether one that
    is not finished was seen. *)
Definition latestStep (acc : option PerconaPGBackup * bool) (backup : PerconaPGBackup)
    : option PerconaPGBackup * bool :=
  let '(latest, running) := acc in
  if bool_decide (deref (b_Method backup) BackupMethodPGBackrest = BackupMethodVolumeSnapshot)
  then acc else
  match b_State backup with
  | BackupSucceeded =>
      let completedAt := match bs_CompletedAt (b_Status backup) with
                         | Some t => t
                         | None => om_CreationTimestamp (b_Meta backup)
                         end in
      match (latest ≫= fun l => bs_CompletedAt (b_Status l)) with
      | None => (Some backup, running)
      | Some t => if bool_decide (t < completedAt)%Z then (Some backup, running) else acc
      end
  | BackupFailed => acc
  | _ => (latest, true)
  end.

(** The loop and the code after it. *)
Definition latestOf (items : list PerconaPGBackup) : result PerconaPGBackup :=
  let '(latest, running) := fold_left latestStep items (None, false) in
  match latest with
  | Some l =>
      match bs_CompletedAt (b_Status l) with
      | Some _ => Ok l
      | None => if running then Err ErrRunningBackup else Err (New "no completed backups found")
      end
  | None => if running then Err ErrRunningBackup else Err (New "no completed backups found")
  end.

Definition GetLatestBackup (cr : PerconaPGCluster) : action PerconaPGBackup :=
  do! items := call (ListAll KBackup (c_Namespace cr) (ByPGCluster (c_Name cr))) in
  match items with
  | [] => Ret (Err ErrNoBackups)
  | _ => Ret (latestOf items)
  end.
End Utils.

(** ** Rules for the helpers *)
Section Rules.
Context `{ControllerRuntime}.
Implicit Types (G : history -> op -> Prop) (Q : history -> result unit -> Prop).

(** The event of a successful status write. *)
Definition statusWritten (b : PerconaPGBackup) (r : result PerconaPGBackup) : event resp :=
  Ev (StatusUpdate KBackup b : op) (r : resp (StatusUpdate KBackup b)).

Definition gotBackup (at_ : key) (r : result PerconaPGBackup) : event resp :=
  Ev (Get KBackup at_ : op) (r : resp (Get KBackup at_)).

Lemma UpdateStatus_wps G (b : PerconaPGBackup) f Q h :
  (forall h', h `prefix_of` h' ->
     G h' (Get KBackup (objectKey (b_Meta b))) /\
     forall r, let h1 := h' ++ [gotBackup (objectKey (b_Meta b)) r] in
       match r with
       | Err e => Q h1 (Err (Wrap "get PGBackup" e))
       | Ok bcp => G h1 (StatusUpdate KBackup (f bcp)) /\
                   forall r2, Q (h1 ++ [statusWritten (f bcp) r2]) (outcome r2)
       end) ->
  wps G h (UpdateStatus b f) Q.
Proof.
  intros Hstep. unfold UpdateStatus, UpdateStatusM. apply RetryOnConflict_prefix. intros h' Hp.
  destruct (Hstep h' Hp) as [HG Hr]. rewrite wps_bindr. simpl. split; [done|].
  intros r. specialize (Hr r). destruct r as [bcp|e]; [|done]. simpl. exact Hr.
Qed.

(** [RunFinalizer] on a backup: the finalizer is removed, by a patch, only
    after its function has succeeded. *)
Lemma RunFinalizer_wps G (b : PerconaPGBackup) finalizer (f : PerconaPGBackup -> action unit)
    (Q : history -> PerconaPGBackup * result bool -> Prop) h :
  (finalizer ∉ om_Finalizers (b_Meta b) -> Q h (b, Ok true)) ->
  (finalizer ∈ om_Finalizers (b_Meta b) ->
   wps G h (f b) (fun h1 r =>
     match r with
     | Err e => Q h1 (b, if isPending e then Ok false
                         else Err (Wrap ("run finalizer " +:+ finalizer) e))
     | Ok _ =>
         forall fs, (forall g, g ∈ fs <-> g <> finalizer /\ g ∈ om_Finalizers (b_Meta b)) ->
         let b' := b <| b_Meta ::= fun m => m <| om_Finalizers := fs |> |> in
         G h1 (Patch KBackup b b') /\
         forall r2 : result PerconaPGBackup,
           Q (h1 ++ [Ev (Patch KBackup b b' : op) (r2 : resp (Patch KBackup b b'))])
             match r2 with
             | Ok o => (o, Ok true)
             | Err e => (b', if IsNotFound e then Ok true else Err (Wrap "remove finalizers" e))
             end
     end)) ->
  wps G h (RunFinalizer (k := KBackup) b finalizer f) Q.
Proof.
  intros Habs Hin. unfold RunFinalizer. rewrite ContainsFinalizer_spec.
  case_bool_decide as E; simpl; [|by apply Habs].
  rewrite wps_bind. eapply wps_conseq; [by apply Hin|]. intros h1 [[]|e].
  - match goal with |- context [RemoveFinalizer ?l finalizer] =>
      pose proof (RemoveFinalizer_spec l finalizer) as HRF; revert HRF;
      destruct (RemoveFinalizer l finalizer) as [fs ch]
    end.
    intros (Hc & _ & Hg) HQ. simpl in Hc, Hg.
    rewrite bool_decide_eq_true_2 in Hc by done. subst ch.
    destruct (HQ fs Hg) as [HG Hr]. simpl. split; [exact HG|]. intros r. specialize (Hr r).
    destruct r as [o|e]; simpl; [done|]. by destruct (IsNotFound e).
  - intros HQ. simpl. by destruct (isPending e).
Qed.
End Rules.

(** ** The latest backup *)
Definition isCandidate (b : PerconaPGBackup) : Prop :=
  deref (b_Method b) BackupMethodPGBackrest = BackupMethodPGBackrest /\ b_State b = BackupSucceeded.

Definition isUnfinished (b : PerconaPGBackup) : Prop :=
  deref (b_Method b) BackupMethodPGBackrest = BackupMethodPGBackrest /\
  IsTerminal (b_State b) = false.

(** What the loop has established after the backups [seen]. *)
Definition latest_ok (seen : list PerconaPGBackup) (latest : option PerconaPGBackup) : Prop :=
  match latest with
  | Some l => l ∈ seen /\ isCandidate l /\
      exists t, bs_CompletedAt (b_Status l) = Some t /\
      forall b t', b ∈ seen -> isCandidate b -> bs_CompletedAt (b_Status b) = Some t' -> (t' <= t)%Z
  | None => forall b, b ∈ seen -> ~ isCandidate b
  end.

Definition running_ok (seen : list PerconaPGBackup) (running : bool) : Prop :=
  running = true <-> exists b, b ∈ seen /\ isUnfinished b.

Lemma latest_ok_skip seen latest b :
  ~ isCandidate b -> latest_ok seen latest -> latest_ok (seen ++ [b]) latest.
Proof.
  intros Hb. destruct latest as [l|]; simpl.
  - intros (Hl & Hc & t & Ht & Hmax). split_and!; [apply elem_of_app; by left|done|].
    exists t. split; [done|]. intros b' t' [Hin| ->%list_elem_of_singleton]%elem_of_app; [|done].
    by apply Hmax.
  - intros Hn b' [Hin| ->%list_elem_of_singleton]%elem_of_app; [|done]. by apply Hn.
Qed.

Lemma running_ok_skip seen running b :
  ~ isUnfinished b -> running_ok seen running -> running_ok (seen ++ [b]) running.
Proof.
  intros Hb Hr. unfold running_ok in *. rewrite Hr. split.
  - intros (b' & Hin & Hu). exists b'. by rewrite elem_of_app; auto.
  - intros (b' & [Hin| ->%list_elem_of_singleton]%elem_of_app & Hu); [by exists b'|done].
Qed.

Lemma running_ok_set seen b : isUnfinished b -> running_ok (seen ++ [b]) true.
Proof.
  intros Hb. split; [|done]. intros _. exists b. by rewrite elem_of_app, list_elem_of_singleton; auto.
Qed.

(** A candidate that becomes the latest. *)
Lemma latest_ok_take seen latest b t :
  isCandidate b -> bs_CompletedAt (b_Status b) = Some t -> latest_ok seen latest ->
  (forall l t', latest = Some l -> bs_CompletedAt (b_Status l) = Some t' -> (t' <= t)%Z) ->
  latest_ok (seen ++ [b]) (Some b).
Proof.
  intros Hb Ht Hl Hle. simpl. rewrite elem_of_app, list_elem_of_singleton.
  split_and!; [by right|done|]. exists t. split; [done|].
  intros b' t' [Hin| ->%list_elem_of_singleton]%elem_of_app Hc Ht'; [|by simplify_eq].
  destruct latest as [l|]; [|by destruct (Hl b' Hin)].
  destruct Hl as (_ & _ & u & Hu & Hmax). specialize (Hle l u eq_refl Hu).
  specialize (Hmax b' t' Hin Hc Ht'). lia.
Qed.

(** A candidate that does not. *)
Lemma latest_ok_keep seen l b t t' :
  bs_CompletedAt (b_Status l) = Some t -> bs_CompletedAt (b_Status b) = Some t' -> (t' <= t)%Z ->
  latest_ok seen (Some l) -> latest_ok (seen ++ [b]) (Some l).
Proof.
  intros Ht Ht' Hle (Hl & Hc & u & Hu & Hmax). simplify_eq.
  split_and!; [apply elem_of_app; by left|done|]. eexists. split; [done|].
  intros b' t2 [Hin| ->%list_elem_of_singleton]%elem_of_app Hc' Ht2; [by eapply Hmax|by simplify_eq].
Qed.

Lemma latestStep_ok seen latest running b :
  (isCandidate b -> is_Some (bs_CompletedAt (b_Status b))) ->
  latest_ok seen latest -> running_ok seen running ->
  let acc := latestStep (latest, running) b in
  latest_ok (seen ++ [b]) acc.1 /\ running_ok (seen ++ [b]) acc.2.
Proof.
  intros Hcomp Hl Hr. unfold latestStep.
  case_bool_decide as Hm; simpl.
  { split; [apply latest_ok_skip; [|done]|apply running_ok_skip; [|done]]; intros [? _]; congruence. }
  assert (Hm' : deref (b_Method b) BackupMethodPGBackrest = BackupMethodPGBackrest)
    by (destruct (b_Method b) as [[]|]; done).
  destruct (b_State b) eqn:ES; simpl;
    try (split; [apply latest_ok_skip; [|done]; intros [_ ?]; congruence|
                 apply running_ok_set; split; [done|by rewrite ES]]).
  - split; [apply latest_ok_skip; [|done]|apply running_ok_skip; [|done]]; intros [_ E];
      rewrite ES in E; done.
  - assert (Hc : isCandidate b) by done. destruct (Hcomp Hc) as [t Ht]. rewrite Ht.
    assert (Hu : ~ isUnfinished b) by (intros [_ E]; by rewrite ES in E).
    destruct latest as [l|]; simpl.
    + destruct (bs_CompletedAt (b_Status l)) as [t0|] eqn:Et0.
      * case_bool_decide; simpl; (split; [|by apply running_ok_skip]).
        -- apply (latest_ok_take _ (Some l) _ t); [done..|]. intros ?? [= <-] ?. simplify_eq. lia.
        -- apply (latest_ok_keep _ _ _ t0 t); [done..|lia|done].
      * destruct Hl as (_ & _ & u & Hu' & _). congruence.
    + split; [|by apply running_ok_skip]. by apply (latest_ok_take _ None _ t).
Qed.

Lemma latest_fold_ok items : forall seen latest running,
  Forall (fun b => isCandidate b -> is_Some (bs_CompletedAt (b_Status b))) items ->
  latest_ok seen latest -> running_ok seen running ->
  let acc := fold_left latestStep items (latest, running) in
  latest_ok (seen ++ items) acc.1 /\ running_ok (seen ++ items) acc.2.
Proof.
  induction items as [|b items IH]; intros seen latest running HF Hl Hr.
  - simpl. by rewrite app_nil_r.
  - apply Forall_cons in HF as [Hb HF].
    destruct (latestStep_ok seen latest running b Hb Hl Hr) as [Hl' Hr'].
    change (fold_left latestStep (b :: items) (latest, running))
      with (fold_left latestStep items (latestStep (latest, running) b)).
    destruct (latestStep (latest, running) b) as [latest' running'].
    specialize (IH (seen ++ [b]) latest' running' HF Hl' Hr').
    rewrite <- app_assoc in IH. exact IH.
Qed.

(** What the answer [r] of [GetLatestBackup] says of the listed backups. *)
Definition latest_answer (items : list PerconaPGBackup) (r : result PerconaPGBackup) : Prop :=
  match r with
  | Ok l => l ∈ items /\ isCandidate l /\
      exists t, bs_CompletedAt (b_Status l) = Some t /\
      forall b t', b ∈ items -> isCandidate b -> bs_CompletedAt (b_Status b) = Some t' -> (t' <= t)%Z
  | Err e => (forall b, b ∈ items -> ~ isCandidate b) /\
      (e = ErrRunningBackup <-> exists b, b ∈ items /\ isUnfinished b)
  end.

Lemma latestOf_answer items :
  Forall (fun b => isCandidate b -> is_Some (bs_CompletedAt (b_Status b))) items ->
  latest_answer items (latestOf items).
Proof.
  intros HF. unfold latestOf.
  destruct (latest_fold_ok items [] None false HF) as [Hl Hr];
    [by intros ? ?%not_elem_of_nil|split; [done|]; by intros (? & ?%not_elem_of_nil & _)|].
  destruct (fold_left latestStep items (None, false)) as [[l|] running]; simpl in Hl, Hr.
  - destruct Hl as (Hin & Hc & t & Ht & Hmax). rewrite Ht. split_and!; [done|done|]. by exists t.
  - unfold running_ok in Hr. destruct running; (split; [done|]); rewrite <- Hr; done.
Qed.

(** The latest backup of a cluster.  When every succeeded backup has a
    completion time, the answer is one of the listed pgBackRest backups that
    succeeded, and none of those completed later; without such a backup the
    error says whether some backup is still unfinished. *)
Theorem GetLatestBackup_spec (cr : PerconaPGCluster) (tr : history) (r : result PerconaPGBackup) :
  exec (GetLatestBackup cr) tr r ->
  exists ans : result (list PerconaPGBackup),
    tr = [Ev (ListAll KBackup (c_Namespace cr) (ByPGCluster (c_Name cr)) : op) ans] /\
    match ans with
    | Err e => r = Err e
    | Ok items =>
        Forall (fun b => isCandidate b -> is_Some (bs_CompletedAt (b_Status b))) items ->
        latest_answer items r
    end.
Proof.
  intros (ans & tr' & -> & Hex). exists ans. destruct ans as [[|b items]|e].
  - destruct Hex as [-> ->]. split; [done|]. intros _. simpl. split; [by intros ? ?%not_elem_of_nil|].
    split; [done|]. by intros (? & ?%not_elem_of_nil & _).
  - destruct Hex as [-> ->]. split; [done|]. apply latestOf_answer.
  - by destruct Hex as [-> ->].
Qed.

(** *** Examples *)
Definition exampleMeta (name : string) : ObjectMeta :=
  mkMeta name "default" ("uid-" +:+ name) "1" 1 200 None ∅ ∅ [] None "".

Definition exampleStatus (s : PGBackupState) (t : option Z) : PerconaPGBackupStatus :=
  mkBackupStatus "" s "" t "" "" None None "" "" 0 "" None None [].

Definition exampleBackup (name : string) (s : PGBackupState) (t : option Z) : PerconaPGBackup :=
  mkBackup (exampleMeta name) "cluster1" (Some "repo1") None [] [] [] (exampleStatus s t).

Definition exampleBackups : BackupsSpec := mkBackups None "image" ∅ [] None None None None None.

Definition examplePGCluster : PerconaPGCluster :=
  mkPGCluster (exampleMeta "cluster1") "2.8.0" None None exampleBackups AppStateReady "4.0.0" []
    [] 17 "image" None None None (mkSecrets None None None) [] None
    (mkObservedStatus (0, 0)%Z [] (0, 0)%Z "" [] 0 None None) false (Some 5432%Z) "" [] [] [].

Lemma GetLatestBackup_spec_witness :
  let items := [exampleBackup "b1" BackupSucceeded (Some 100%Z);
                exampleBackup "b2" BackupRunning None;
                exampleBackup "b3" BackupSucceeded (Some 50%Z)] in
  let tr := [Ev (ListAll KBackup "default" (ByPGCluster "cluster1") : op)
               (Ok items : result (list PerconaPGBackup))] in
  let r := Ok (exampleBackup "b1" BackupSucceeded (Some 100%Z)) in
  exec (GetLatestBackup examplePGCluster) tr r /\
  exists ans : result (list PerconaPGBackup),
    tr = [Ev (ListAll KBackup "default" (ByPGCluster "cluster1") : op) ans] /\
    match ans with
    | Err e => r = Err e
    | Ok items =>
        Forall (fun b => isCandidate b -> is_Some (bs_CompletedAt (b_Status b))) items ->
        latest_answer items r
    end.
Proof.
  intros items tr r.
  assert (Hex : exec (GetLatestBackup examplePGCluster) tr r).
  { exists (Ok items), []. split; [reflexivity|]. vm_compute. split; reflexivity. }
  split; [exact Hex|]. exact (GetLatestBackup_spec examplePGCluster tr r Hex).
Defined.

(** Without that condition the answer can be wrong: a succeeded backup
    that has no completion time is compared by its creation time, and then
    makes any later element of the list win, or the search fail. *)
Theorem GetLatestBackup_without_completion_time :
  let b1 := exampleBackup "b1" BackupSucceeded (Some 100%Z) in
  let b2 := exampleBackup "b2" BackupSucceeded None in
  let b3 := exampleBackup "b3" BackupSucceeded (Some 50%Z) in
  latestOf [b1; b2; b3] = Ok b3 /\ latestOf [b1; b2] = Err (New "no completed backups found").
Proof. by vm_compute. Qed.
