(* ===== verification/BackupLease.v ===== *)
(** * The backup lease of a cluster

    The lease functions of [percona/controller/pgbackup/controller.go]: one
    backup of a cluster at a time may run, and it holds the cluster's lease. *)
From S2P Require Import Prelude GoStrings Cluster Prog Errors Naming Objects Client Lease BackupUtils.

Definition ConditionBackupLeaseAcquired : string := "BackupLeaseAcquired".

Definition backupLeaseName (clusterName : string) : string := "pg-" +:+ clusterName +:+ "-backup-lock".

Definition backupLeaseHolder (backup : PerconaPGBackup) : string :=
  b_Name backup +:+ "|" +:+ om_UID (b_Meta backup).

Definition parseBackupLeaseHolder (holder : string) : string * string :=
  match Split holder "|" with
  | [name; uid] => (name, uid)
  | _ => ("", "")
  end.

Section BackupLease.
Context `{ControllerRuntime, MetaConditions}.

(** The callback of [tryAcquireLease]. *)
Definition checkStale (backup : PerconaPGBackup) (currentHolder : string) : action bool :=
  let '(backupName, backupUID) := parseBackupLeaseHolder currentHolder in
  if negb (nonempty backupName) || negb (nonempty backupUID) then Ret (Ok true) else
  let! r := call (Get KBackup (b_Namespace backup, backupName)) in
  match r with
  | Err e => if IsNotFound e then Ret (Ok true) else Ret (Err (Wrap "failed to get backup" e))
  | Ok holderBackup =>
      if negb (bool_decide (om_UID (b_Meta holderBackup) = backupUID)) then Ret (Ok true)
      else Ret (Ok (IsTerminal (b_State holderBackup) &&
                    negb (ContainsFinalizer (om_Finalizers (b_Meta holderBackup))
                            FinalizerSnapshotInProgress)))
  end.

Definition leaseCondition (backup : PerconaPGBackup) (acquired : bool) : Condition :=
  mkCondition ConditionBackupLeaseAcquired
    (if acquired then ConditionTrue else ConditionFalse)
    (if acquired then "LeaseAcquired" else "LeaseAlreadyHeld") ""
    (om_Generation (b_Meta backup)) 0.

(** The condition's transition time is read from the clock by
    [SetStatusCondition]. *)
Definition setLeaseCondition (cond : Condition) (bcp : PerconaPGBackup)
    : program (option PerconaPGBackup) :=
  let! now := call Now in
  Ret (Some (bcp <| b_Status ::= fun s =>
    s <| bs_Conditions := SetStatusCondition now (bs_Conditions s) cond |> |>)).

(** The part of [tryAcquireLease] after the attempt: record the outcome in the
    lease condition when it changed. *)
Definition recordLease (backup : PerconaPGBackup) (acquired : bool) : action bool :=
  let cond := leaseCondition backup acquired in
  if negb (IsStatusConditionPresentAndEqual (bs_Conditions (b_Status backup))
             ConditionBackupLeaseAcquired (cond_Status cond))
  then do! _ := UpdateStatusM backup (setLeaseCondition cond) or "failed to update backup status" in
       Ret (Ok acquired)
  else Ret (Ok acquired).

Definition tryAcquireLease (backup : PerconaPGBackup) : action bool :=
  let leaseName := backupLeaseName (b_PGCluster backup) in
  let leaseHolderID := backupLeaseHolder backup in
  let! r := AcquireLease leaseName leaseHolderID (b_Namespace backup) (Some (checkStale backup)) in
  match r with
  | Ok _ => recordLease backup true
  | Err e =>
      if Is e "lease held by another holder" || IsAlreadyExists e || IsConflict e
      then recordLease backup false
      else Ret (Err (Wrap "failed to acquire lease" e))
  end.

Definition releaseLeaseIfNeeded (backup : PerconaPGBackup) : action unit :=
  if negb (IsStatusConditionPresentAndEqual (bs_Conditions (b_Status backup))
             ConditionBackupLeaseAcquired ConditionTrue)
  then Ret (Ok tt)
  else
    do! _ := ReleaseLease (backupLeaseName (b_PGCluster backup)) (backupLeaseHolder backup)
               (b_Namespace backup) or "failed to release lease" in
    do! _ := UpdateStatus backup (fun bcp => bcp <| b_Status ::= fun s =>
               s <| bs_Conditions := RemoveStatusCondition (bs_Conditions s) ConditionBackupLeaseAcquired |> |>)
             or "failed to update backup status" in
    Ret (Ok tt).

Definition handleLease (cluster : option PerconaPGCluster) (backup : PerconaPGBackup) : action bool :=
  if (IsTerminal (b_State backup) || isDeleting (b_Meta backup)) &&
     (bool_decide (cluster = None) ||
      negb (ContainsFinalizer (om_Finalizers (b_Meta backup)) FinalizerSnapshotInProgress))
  then
    do! _ := releaseLeaseIfNeeded backup or "failed to release lease" in
    Ret (Ok true)
  else
    do! acquired := tryAcquireLease backup or "failed to acquire lease" in
    Ret (Ok acquired).
End BackupLease.

(** ** Lemmas *)

Definition no_bar (s : string) : bool := all_chars (fun c => negb (bool_decide (c = "|"%char))) s.

(** ** Properties *)

(** A lease holder reads back as the name and the UID of its backup, which
    hold no bar (a Kubernetes name or UID never does); so distinct backups have
    distinct holders, and nothing else reads as this backup. *)
Theorem lease_holder_roundtrip (b b' : PerconaPGBackup) (holder : string) :
  no_bar (b_Name b) = true -> no_bar (om_UID (b_Meta b)) = true ->
  no_bar (b_Name b') = true -> no_bar (om_UID (b_Meta b')) = true ->
  parseBackupLeaseHolder (backupLeaseHolder b) = (b_Name b, om_UID (b_Meta b)) /\
  (backupLeaseHolder b = backupLeaseHolder b' ->
   b_Name b = b_Name b' /\ om_UID (b_Meta b) = om_UID (b_Meta b')) /\
  (b_Name b <> "" ->
   parseBackupLeaseHolder holder = (b_Name b, om_UID (b_Meta b)) -> holder = backupLeaseHolder b).
Proof.
  intros H1 H2 H3 H4.
  assert (Hp : forall x, no_bar (b_Name x) = true -> no_bar (om_UID (b_Meta x)) = true ->
            Split (backupLeaseHolder x) "|" = [b_Name x; om_UID (b_Meta x)]).
  { intros x Hx1 Hx2. unfold backupLeaseHolder. change "|" with (char "|").
    rewrite Split_app by done. by rewrite Split_no_sep. }
  unfold parseBackupLeaseHolder. split_and!.
  - by rewrite Hp.
  - intros E. pose proof (Hp b H1 H2) as Eb. rewrite E, (Hp b' H3 H4) in Eb. by simplify_eq.
  - intros Hne E. destruct (Split holder "|") as [|x [|y [|? ?]]] eqn:Es; simplify_eq; try done.
    apply Split_inv in Es. by rewrite Es.
Qed.

Lemma lease_holder_roundtrip_witness :
  let b := exampleBackup "b1" BackupNew None in
  let b' := exampleBackup "b2" BackupNew None in
  (no_bar (b_Name b) = true /\ no_bar (om_UID (b_Meta b)) = true) /\
  parseBackupLeaseHolder (backupLeaseHolder b) = ("b1", "uid-b1") /\
  (backupLeaseHolder b = backupLeaseHolder b' -> "b1" = "b2" /\ "uid-b1" = "uid-b2") /\
  ("b1" <> "" -> parseBackupLeaseHolder "b1|uid-b1" = ("b1", "uid-b1") ->
   "b1|uid-b1" = backupLeaseHolder b).
Proof.
  split; [split; reflexivity|].
  exact (lease_holder_roundtrip (exampleBackup "b1" BackupNew None)
    (exampleBackup "b2" BackupNew None) "b1|uid-b1" eq_refl eq_refl eq_refl eq_refl).
Defined.

Section Safety.
Context `{ControllerRuntime, MetaConditions}.

(** What the code takes as proof that a holder has given up: its name is
    malformed, or it was read as gone, as another backup of the same name, or
    as finished with nothing left to undo. *)
Definition stale_backup (namespace : string) (h : history) (current : string) : Prop :=
  let '(name, uid) := parseBackupLeaseHolder current in
  name = "" \/ uid = "" \/
  (exists e, got KBackup (namespace, name) (Err e) ∈ h /\ IsNotFound e = true) \/
  (exists b : PerconaPGBackup, read h KBackup (namespace, name) b /\
     (om_UID (b_Meta b) <> uid \/
      (IsTerminal (b_State b) = true /\
       FinalizerSnapshotInProgress ∉ om_Finalizers (b_Meta b)))).

Definition alive_backup (namespace : string) (h : history) (current : string) : Prop :=
  let '(name, uid) := parseBackupLeaseHolder current in
  exists b : PerconaPGBackup, read h KBackup (namespace, name) b /\ om_UID (b_Meta b) = uid /\
    (IsTerminal (b_State b) = false \/ FinalizerSnapshotInProgress ∈ om_Finalizers (b_Meta b)).

(** The calls of the lease code: reads, the clock, the cluster's lease, and
    status writes that change only the lease condition. *)
Definition lease_call_ok (backup : PerconaPGBackup) (h : history) (o : op) : Prop :=
  lease_write_ok (backupLeaseName (b_PGCluster backup)) (backupLeaseHolder backup)
    (b_Namespace backup) (stale_backup (b_Namespace backup)) h o /\
  match o with
  | Get _ _ | Now | Create KLease _ | Update KLease _ | Delete KLease _ _ => True
  | StatusUpdate KBackup b =>
      exists b0 conds, read h KBackup (objectKey (b_Meta backup)) b0 /\
        b = b0 <| b_Status ::= fun s => s <| bs_Conditions := conds |> |> /\
        forall t, t <> ConditionBackupLeaseAcquired ->
          FindStatusCondition conds t = FindStatusCondition (bs_Conditions (b_Status b0)) t
  | _ => False
  end.

Lemma stale_backup_grow ns h h' c :
  stale_backup ns h c -> h `prefix_of` h' -> stale_backup ns h' c.
Proof.
  unfold stale_backup. destruct (parseBackupLeaseHolder c) as [name uid].
  intros Hs Hp. destruct Hs as [?|[?|[(e & Hin & ?)|(b & Hin & ?)]]]; [by left|by right; left|..].
  - right. right. left. exists e. split; [by eapply elem_of_grow|done].
  - right. right. right. exists b. split; [by eapply elem_of_grow|done].
Qed.

Lemma alive_backup_grow ns h h' c :
  alive_backup ns h c -> h `prefix_of` h' -> alive_backup ns h' c.
Proof.
  unfold alive_backup. destruct (parseBackupLeaseHolder c) as [name uid].
  intros (b & Hin & ?) Hp. exists b. split; [by eapply elem_of_grow|done].
Qed.

Lemma checkStale_wps backup h current :
  wps (lease_call_ok backup) h (checkStale backup current) (fun h' r =>
    match r with
    | Ok true => stale_backup (b_Namespace backup) h' current
    | Ok false => alive_backup (b_Namespace backup) h' current
    | Err _ => exists e, e ∈ h' /\ is_Some (answer_err e)
    end).
Proof.
  unfold checkStale, stale_backup, alive_backup.
  destruct (parseBackupLeaseHolder current) as [name uid].
  destruct name as [|c name]; [by left|]. destruct uid as [|d uid]; [by right; left|].
  cbn [nonempty negb orb]. apply wps_call_bind. split; [done|]. intros [b|e]; cbv beta iota.
  - case_bool_decide as Eu; simpl.
    + destruct (IsTerminal (b_State b) && _) eqn:Et.
      * right. right. right. exists b. split; [apply elem_of_snoc|]. right.
        apply andb_true_iff in Et as [Et Ef]. rewrite ContainsFinalizer_spec in Ef.
        by bool_to_prop.
      * exists b. split_and!; [apply elem_of_snoc|done|].
        apply andb_false_iff in Et as [Et|Ef]; [by left|right].
        rewrite ContainsFinalizer_spec in Ef. by bool_to_prop.
    + right. right. right. exists b. split; [apply elem_of_snoc|by left].
  - destruct (IsNotFound e) eqn:En; simpl.
    + right. right. left. exists e. split; [apply elem_of_snoc|done].
    + eexists. split; [apply elem_of_snoc|]. simpl. by eexists.
Qed.

(** The writes of the lease condition. *)
Lemma condition_write_wps backup h (f : PerconaPGBackup -> program (option PerconaPGBackup)) :
  (forall h' b0 (Q : history -> option PerconaPGBackup -> Prop),
     (forall h2 conds, h' `prefix_of` h2 ->
        (forall t, t <> ConditionBackupLeaseAcquired ->
           FindStatusCondition conds t = FindStatusCondition (bs_Conditions (b_Status b0)) t) ->
        Q h2 (Some (b0 <| b_Status ::= fun s => s <| bs_Conditions := conds |> |>))) ->
     wps (lease_call_ok backup) h' (f b0) Q) ->
  wps (lease_call_ok backup) h (UpdateStatusM backup f) (fun h' r =>
    h `prefix_of` h' /\
    match r with Ok _ => True | Err _ => exists e, e ∈ h' /\ is_Some (answer_err e) end).
Proof.
  intros Hf. apply wps_prefix. unfold UpdateStatusM. apply RetryOnConflict_prefix.
  intros h' Hp. apply wps_get_bindr. split; [done|]. intros [b0|e]; cbv beta iota.
  - rewrite wps_bind. apply Hf. intros h2 conds Hp2 Hconds. cbv beta iota. rewrite wps_ignore.
    split.
    + split; [done|]. exists b0, conds. split_and!; [|done|done].
      by eapply elem_of_grow; [apply elem_of_snoc|].
    + intros [b'|e]; simpl; [done|]. eexists. split; [apply elem_of_snoc|]. simpl. by eexists.
  - eexists. split; [apply elem_of_snoc|]. simpl. by eexists.
Qed.

Lemma setLeaseCondition_wps backup h' b0 acquired (Q : history -> option PerconaPGBackup -> Prop) :
  (forall h2 conds, h' `prefix_of` h2 ->
     (forall t, t <> ConditionBackupLeaseAcquired ->
        FindStatusCondition conds t = FindStatusCondition (bs_Conditions (b_Status b0)) t) ->
     Q h2 (Some (b0 <| b_Status ::= fun s => s <| bs_Conditions := conds |> |>))) ->
  wps (lease_call_ok backup) h' (setLeaseCondition (leaseCondition backup acquired) b0) Q.
Proof.
  intros HQ. split; [done|]. intros now. apply HQ; [by apply prefix_app_r|].
  intros t Ht. by apply SetStatusCondition_other.
Qed.

Lemma recordLease_wps backup h acquired :
  wps (lease_call_ok backup) h (recordLease backup acquired) (fun h' r =>
    h `prefix_of` h' /\
    match r with Ok a => a = acquired | Err _ => exists e, e ∈ h' /\ is_Some (answer_err e) end).
Proof.
  unfold recordLease. case_match; [|by simpl]. rewrite wps_bindr.
  eapply wps_conseq; [apply condition_write_wps|].
  - intros h' b0 Q. apply setLeaseCondition_wps.
  - by intros h' [[]|e] [Hp He]; simpl.
Qed.

Lemma tryAcquireLease_wps backup :
  let name := backupLeaseName (b_PGCluster backup) in
  wps (lease_call_ok backup) [] (tryAcquireLease backup) (fun h r =>
    match r with
    | Ok true => lease_granted name (backupLeaseHolder backup) (b_Namespace backup) h
    | Ok false => lease_refused name (backupLeaseHolder backup) (b_Namespace backup)
                    (alive_backup (b_Namespace backup)) h
    | Err _ => exists e, e ∈ h /\ is_Some (answer_err e)
    end).
Proof.
  intros name. unfold tryAcquireLease. rewrite wps_bind. fold name.
  set (holder := backupLeaseHolder backup).
  eapply wps_conseq.
  { apply (AcquireLease_wps name holder (b_Namespace backup) (stale_backup (b_Namespace backup))
             (alive_backup (b_Namespace backup)) (lease_call_ok backup)); try done.
    - intros h o Hw Ho. split; [exact Hw|]. by case_op o.
    - apply stale_backup_grow.
    - intros h current _. apply checkStale_wps. }
  intros h r Hr.
  destruct r as [[]|e]; simpl in Hr.
  - eapply wps_conseq; [apply recordLease_wps|]. intros h' [a|e] [Hp He]; [subst|done].
    by eapply lease_granted_grow.
  - destruct (Is e "lease held by another holder" || IsAlreadyExists e || IsConflict e) eqn:Ee.
    + eapply wps_conseq; [apply recordLease_wps|]. intros h' [a|e'] [Hp He]; [subst|done].
      eapply lease_refused_grow; [apply alive_backup_grow| |exact Hp].
      destruct Hr as [?|[_ ?]]; [by left|by right].
    + destruct Hr as [?|[-> _]]; [done|]. done.
Qed.

(** A backup that needs no lease: it has finished, or is being deleted, with
    nothing left to undo. *)
Definition needs_no_lease (cluster : option PerconaPGCluster) (backup : PerconaPGBackup) : Prop :=
  (IsTerminal (b_State backup) || isDeleting (b_Meta backup)) = true /\
  (cluster = None \/ FinalizerSnapshotInProgress ∉ om_Finalizers (b_Meta backup)).

Definition lease_outcome (cluster : option PerconaPGCluster) (backup : PerconaPGBackup)
    (h : history) (r : result bool) : Prop :=
  let name := backupLeaseName (b_PGCluster backup) in
  match r with
  | Ok true => needs_no_lease cluster backup \/
      lease_granted name (backupLeaseHolder backup) (b_Namespace backup) h
  | Ok false => ~ needs_no_lease cluster backup /\
      lease_refused name (backupLeaseHolder backup) (b_Namespace backup)
        (alive_backup (b_Namespace backup)) h
  | Err _ => (exists e, e ∈ h /\ is_Some (answer_err e)) \/
      (needs_no_lease cluster backup /\ exists (l : Lease) other,
         read h KLease (b_Namespace backup, name) l /\
         l_HolderIdentity l = Some other /\ other <> backupLeaseHolder backup)
  end.

Lemma handleLease_wps (cluster : option PerconaPGCluster) (backup : PerconaPGBackup) :
  wps (lease_call_ok backup) [] (handleLease cluster backup) (lease_outcome cluster backup).
Proof.
  unfold handleLease, lease_outcome. rewrite ContainsFinalizer_spec.
  destruct (_ && _) eqn:Ef.
  - assert (Hfin : (IsTerminal (b_State backup) || isDeleting (b_Meta backup)) = true /\
              (cluster = None \/ FinalizerSnapshotInProgress ∉ om_Finalizers (b_Meta backup))).
    { apply andb_true_iff in Ef as [E1 E2]. split; [done|].
      apply orb_true_iff in E2 as [E2|E2]; [left|right]; by bool_to_prop. }
    clear Ef. cbv zeta. rewrite wps_bindr. unfold releaseLeaseIfNeeded.
    case_match; [by left|]. rewrite wps_bindr. eapply wps_conseq.
    { apply (ReleaseLease_wps _ _ _ (stale_backup (b_Namespace backup)) (lease_call_ok backup));
        [done|].
      intros h o Hw Ho. split; [exact Hw|]. case_op o. }
    intros h [[]|e] Hr; cbv beta iota.
    + rewrite wps_bindr. eapply wps_conseq; [apply condition_write_wps|].
      * intros h' b0 Q HQ. apply HQ; [done|]. intros t Ht. by apply RemoveStatusCondition_other.
      * intros h' [[]|e] [_ He]; [by left|by left].
    + destruct Hr as [He|(l & other & Hl)]; [by left|]. right. split; [done|]. by exists l, other.
  - assert (Hn : ~ ((IsTerminal (b_State backup) || isDeleting (b_Meta backup)) = true /\
              (cluster = None \/ FinalizerSnapshotInProgress ∉ om_Finalizers (b_Meta backup)))).
    { intros [E1 E2]. rewrite E1 in Ef. simpl in Ef. bool_to_prop. by destruct E2. }
    clear Ef. cbv zeta. rewrite wps_bindr. eapply wps_conseq; [apply tryAcquireLease_wps|].
    intros h [[|]|e] Hr; simpl; [by right|done|by left].
Qed.

(** C8: the lease protocol of a backup, in every execution.  The lease is
    created, or updated after it was read free or held by a holder that was
    seen to have given up; it is deleted only as read, and when it was free or
    the backup's own.  The caller may go on only when the backup has the lease
    or is finished (or being deleted) with nothing left to undo; it is sent
    back only for another live holder or an error answer, and fails only for
    an error answer or, when it is finished, because the lease has become
    another's.  Of the backup only
    the lease condition is written. *)
Theorem handleLease_safe (cluster : option PerconaPGCluster) (backup : PerconaPGBackup) :
  wps (lease_call_ok backup) [] (handleLease cluster backup) (lease_outcome cluster backup).
Proof. apply handleLease_wps. Qed.
End Safety.

#[local] Existing Instance ConcreteRuntime.runtime.
#[local] Existing Instance ListConditions.conditions.

Lemma handleLease_safe_witness :
  let b := exampleBackup "b1" BackupNew None in
  wps (lease_call_ok b) [] (handleLease (Some examplePGCluster) b)
    (lease_outcome (Some examplePGCluster) b).
Proof. exact (handleLease_safe (Some examplePGCluster) (exampleBackup "b1" BackupNew None)). Defined.
