(* ===== verification/Instances.v ===== *)
(** * Pods and instances of a cluster: [percona/postgres/common.go] *)
From S2P Require Import Prelude GoStrings Cluster Prog Errors Naming Objects Client BackupUtils.

Definition patroniVersion4 : string := "4.0.0".

Section Instances.
Context `{ControllerRuntime, GoVersion}.

(** [version.Version]: the trimmed contents of version.txt *)
Definition operatorVersion : string := TrimSpace ("3.2.0" +:+ char newline).

(** [PerconaPGCluster.Version] and [PerconaPGCluster.CompareVersion] *)
Definition Version (cr : PerconaPGCluster) : version :=
  let crVersion := c_CRVersion cr in
  let crVersion := if nonempty crVersion then crVersion else operatorVersion in
  Must crVersion.

Definition c_CompareVersion (cr : PerconaPGCluster) (ver : string) : Z :=
  Compare (Version cr) (Must ver).

Definition determineVersion (cr : PerconaPGCluster) : string :=
  if bool_decide (c_CompareVersion cr "2.7.0" <= 0)%Z then c_PatroniVersion cr else patroniVersion4.

Definition rolePods (cr : PerconaPGCluster) (role : string) : action (list Pod) :=
  call (ListAll KPod (c_Namespace cr) (ByLabels (SetSelector
    {["app.kubernetes.io/instance" := c_Name cr;
      "postgres-operator.crunchydata.com/role" := role]}))).

Definition GetPrimaryPod (cr : PerconaPGCluster) : action Pod :=
  match NewVersion (determineVersion cr) with
  | None => Ret (Err (Wrap "failed to get patroni version" (New "malformed version")))
  | Some patroniVer =>
      let patroniVer4 := bool_decide (0 <= Compare patroniVer (Must "4.0.0"))%Z in
      let role := if patroniVer4 then "primary" else "master" in
      do! podList := rolePods cr role or "failed to list pods" in
      match podList with
      | [] => Ret (Err (New "no primary pod found"))
      | [pod] => Ret (Ok pod)
      | _ => Ret (Err (New "multiple primary pods found"))
      end
  end.

Definition GetReplicaPods (cr : PerconaPGCluster) : action (list Pod) :=
  do! podList := rolePods cr RolePatroniReplica or "failed to list pods" in
  Ret (Ok podList).

Definition isSuspended (sts : StatefulSet) : bool :=
  bool_decide (is_Some (om_Annotations (st_Meta sts) !! AnnotationInstanceSuspended)).

(** The annotation is written with a fresh copy of the StatefulSet. *)
Definition patchAnnotations (instanceKey : key) (f : gmap string string -> gmap string string)
    : action unit :=
  RetryOnConflict (
    do! sts := call (Get KSts instanceKey) or "failed to get stateful set" in
    ignore (call (Patch KSts sts
      (sts <| st_Meta ::= fun m => m <| om_Annotations ::= f |> |>)))).

Definition SuspendInstance (instanceKey : key) : action bool :=
  do! sts := call (Get KSts instanceKey) or "failed to get stateful set" in
  if isSuspended sts
  then Ret (Ok (bool_decide (st_Replicas sts = 0%Z) && bool_decide (st_ReadyReplicas sts = 0%Z)))
  else
    do! _ := patchAnnotations instanceKey (fun m => <[AnnotationInstanceSuspended := ""]> m)
             or "failed to update stateful set annotations" in
    Ret (Ok false).

Definition UnsuspendInstance (instanceKey : key) : action bool :=
  do! sts := call (Get KSts instanceKey) or "failed to get stateful set" in
  if negb (isSuspended sts)
  then Ret (Ok (bool_decide (0 < st_Replicas sts)%Z && bool_decide (0 < st_ReadyReplicas sts)%Z))
  else
    do! _ := patchAnnotations instanceKey (fun m => delete AnnotationInstanceSuspended m)
             or "failed to update stateful set annotations" in
    Ret (Ok false).
End Instances.

(** ** Rules *)
Section InstanceRules.
Context `{ControllerRuntime}.
Context (instanceKey : key) (G : history -> op -> Prop).

(** An instance that was seen running: not suspended, with ready pods. *)
Definition seen_running (h : history) : Prop :=
  exists sts : StatefulSet, read h KSts instanceKey sts /\ isSuspended sts = false /\
    (0 < st_Replicas sts)%Z /\ (0 < st_ReadyReplicas sts)%Z.

(** An instance that was seen suspended, without pods. *)
Definition seen_suspended (h : history) : Prop :=
  exists sts : StatefulSet, read h KSts instanceKey sts /\ isSuspended sts = true /\
    st_Replicas sts = 0%Z /\ st_ReadyReplicas sts = 0%Z.

(** A patch of the suspension annotation of a StatefulSet that was just read:
    [on] suspends, otherwise resumes. *)
Definition suspension_patch (on : bool) (h : history) (o : op) : Prop :=
  match o with
  | Patch KSts sts sts' =>
      read h KSts instanceKey sts /\ isSuspended sts' = on /\
      exists a, sts' = sts <| st_Meta ::= fun m => m <| om_Annotations := a |> |> /\
        forall k, k <> AnnotationInstanceSuspended -> a !! k = om_Annotations (st_Meta sts) !! k
  | _ => False
  end.

Hypothesis G_get : forall h, G h (Get KSts instanceKey).
Hypothesis G_suspend : forall h o, suspension_patch true h o -> G h o.
Hypothesis G_resume : forall h o, suspension_patch false h o -> G h o.

Lemma patchAnnotations_wps on f h :
  (forall h o, suspension_patch on h o -> G h o) ->
  (forall m : gmap string string,
     bool_decide (is_Some (f m !! AnnotationInstanceSuspended)) = on) ->
  (forall m k, k <> AnnotationInstanceSuspended -> f m !! k = m !! k) ->
  wps G h (patchAnnotations instanceKey f) (fun _ _ => True).
Proof.
  intros HG Hon Hf. unfold patchAnnotations. apply RetryOnConflict_prefix. intros h' _.
  apply wps_get_bindr. split; [apply G_get|]. intros [sts|e]; [|done].
  rewrite wps_ignore. split; [|done]. apply HG. simpl. split; [apply elem_of_snoc|]. split; [apply Hon|].
  eexists. split; [done|]. intros k Hk. by apply Hf.
Qed.

Lemma SuspendInstance_wps h :
  wps G h (SuspendInstance instanceKey) (fun h' r =>
    match r with Ok true => seen_suspended h' | _ => True end).
Proof.
  unfold SuspendInstance. apply wps_get_bindr. split; [apply G_get|].
  intros [sts|e]; [|done]. destruct (isSuspended sts) eqn:Es.
  - simpl. destruct (_ && _) eqn:Er; [|done]. bool_to_prop.
    exists sts. split_and!; [apply elem_of_snoc|done..].
  - rewrite wps_bindr. eapply wps_conseq; [apply (patchAnnotations_wps true)|].
    + apply G_suspend.
    + intros m. rewrite lookup_insert. by apply bool_decide_eq_true_2.
    + intros m k Hk. by rewrite lookup_insert_ne.
    + by intros h' [[]|e] _.
Qed.

Lemma UnsuspendInstance_wps h :
  wps G h (UnsuspendInstance instanceKey) (fun h' r =>
    match r with Ok true => seen_running h' | _ => True end).
Proof.
  unfold UnsuspendInstance. apply wps_get_bindr. split; [apply G_get|].
  intros [sts|e]; [|done]. destruct (isSuspended sts) eqn:Es; cbn [negb].
  - rewrite wps_bindr. eapply wps_conseq; [apply (patchAnnotations_wps false)|].
    + apply G_resume.
    + intros m. rewrite lookup_delete. by apply bool_decide_eq_false_2; intros [? ?].
    + intros m k Hk. by rewrite lookup_delete_ne.
    + by intros h' [[]|e] _.
  - simpl. destruct (_ && _) eqn:Er; [|done]. bool_to_prop.
    exists sts. split_and!; [apply elem_of_snoc|done..].
Qed.

(** Polling until an instance answers true. *)
Lemma instance_poll_wps (cond : action bool) (P : history -> Prop) h :
  (forall h, wps G h cond (fun h' r => match r with Ok true => P h' | _ => True end)) ->
  wps G h (PollUntilContextTimeout cond) (fun h' r => match r with Ok _ => P h' | Err _ => True end).
Proof.
  intros Hc. apply (PollUntilContextTimeout_wps G (fun _ => True)); [done|].
  intros h' _. eapply wps_conseq; [apply Hc|]. by intros h2 [[|]|e] Hr.
Qed.
End InstanceRules.
