(* ===== verification/ObservedInstances.v ===== *)
(** * The instances of a cluster: what is observed of them

    The first half of [internal/controller/postgrescluster/instance.go]: the
    questions asked of one instance, the index of all instances that a
    reconcile works with, the status computed from it, and the searches for a
    pod to run commands in. *)
From S2P Require Import Prelude GoStrings Cluster Prog Errors Naming Objects Client Psql.

(** ** One instance *)
Record Instance := mkInstance {
  i_Name : string;
  i_Pods : list Pod;
  i_Runner : option StatefulSet;
  i_Spec : option PostgresInstanceSetSpec
}.
#[export] Instance Instance_eta : Eta Instance := fun i =>
  mkInstance (i_Name i) (i_Pods i) (i_Runner i) (i_Spec i).

#[export] Instance Instance_eq_dec : EqDecision Instance.
Proof.
  assert (EqDecision Pod) by solve_decision. assert (EqDecision PodTemplate) by solve_decision.
  assert (EqDecision StatefulSet) by solve_decision.
  assert (EqDecision PostgresInstanceSetSpec) by solve_decision. solve_decision.
Defined.

(** A Go pair (value, known). *)
Definition known_true (r : bool * bool) : bool := r.1 && r.2.
Definition known_false (r : bool * bool) : bool := negb r.1 && r.2.
Definition unknown : bool * bool := (false, false).

Definition podRole (p : Pod) : string := label (p_Meta p) LabelRole.

Definition isLeaderRole (role : string) : bool :=
  bool_decide (role = RolePatroniLeader) || bool_decide (role = RolePatroniLeaderDeprecated).

Definition IsPrimary (i : Instance) : bool * bool :=
  match i_Pods i with [p] => (isLeaderRole (podRole p), true) | _ => unknown end.

Definition IsReady (i : Instance) : bool * bool :=
  match i_Pods i with
  | [p] =>
      match List.find (fun c => bool_decide (c.1 = "Ready")) (p_Conditions p) with
      | Some c => (bool_decide (c.2 = ConditionTrue), true)
      | None => unknown
      end
  | _ => unknown
  end.

Definition named {A} (name : string) (l : list (string * A)) : option (string * A) :=
  List.find (fun c => bool_decide (c.1 = name)) l.

Definition IsRunning (i : Instance) (container : string) : bool * bool :=
  match i_Pods i with
  | [p] =>
      match named container (p_ContainerStatuses p) with
      | Some c => (c.2, true)
      | None =>
          match named container (p_InitContainerStatuses p) with
          | Some c => (c.2, true)
          | None => unknown
          end
      end
  | _ => unknown
  end.

Definition IsTerminating (i : Instance) : bool * bool :=
  match i_Pods i with [p] => (isDeleting (p_Meta p), true) | _ => unknown end.

Definition IsAvailable (i : Instance) : bool * bool :=
  let (terminating, knownTerminating) := IsTerminating i in
  let (ready, knownReady) := IsReady i in
  (ready && negb terminating, knownReady && knownTerminating).

(** The string from the first occurrence of [sub] on: [s[strings.Index(s, sub):]]. *)
Fixpoint from_Index (s sub : string) : option string :=
  if HasPrefix s sub then Some s
  else match s with EmptyString => None | String _ s => from_Index s sub end.

(** "name": and "name":"value", as in compact JSON *)
Definition jsonKey (k : string) : string := char dquote +:+ k +:+ char dquote +:+ ":".
Definition jsonString (k v : string) : string := jsonKey k +:+ char dquote +:+ v +:+ char dquote.

Definition IsWritable (i : Instance) : bool * bool :=
  match i_Pods i with
  | [p] =>
      match from_Index (annotation (p_Meta p) "status") (jsonKey "role") with
      | Some member =>
          (HasPrefix member (jsonString "role" "master")
           || HasPrefix member (jsonString "role" "primary"), true)
      | None => unknown
      end
  | _ => unknown
  end.

(** [appsv1.StatefulSetRevisionLabel] *)
Definition StatefulSetRevisionLabel : string := "controller-revision-hash".

Definition PodMatchesPodTemplate (i : Instance) : bool * bool :=
  match i_Runner i, i_Pods i with
  | Some runner, [p] =>
      if negb (bool_decide (st_ObservedGeneration runner = om_Generation (st_Meta runner)))
      then unknown
      else (bool_decide (label (p_Meta p) StatefulSetRevisionLabel = st_UpdateRevision runner), true)
  | _, _ => unknown
  end.

(** [patroni.PodIsStandbyLeader] and [patroni.PodRequiresRestart] *)
Definition PodIsStandbyLeader (p : Pod) : bool :=
  Contains (annotation (p_Meta p) "status") (jsonString "role" "standby_leader").
Definition PodRequiresRestart (p : Pod) : bool :=
  Contains (annotation (p_Meta p) "status") (jsonKey "pending_restart" +:+ "true").

(** ** All instances of a cluster

    Go shares one [*Instance] between the slice and the maps.  The slice is
    the store here and a pointer is an index of it: an instance changed through
    one map is changed for all. *)
Record observedInstances := mkObserved {
  forCluster : list Instance;
  byName : gmap string nat;
  bySet : gmap string (list nat);
  setNames : gset string
}.

Definition pointees (o : observedInstances) (l : list nat) : list Instance :=
  omap (fun n => forCluster o !! n) l.

(** [observed.byName[name]] and [observed.bySet[name]] *)
Definition instanceNamed (o : observedInstances) (name : string) : option Instance :=
  match byName o !! name with Some n => forCluster o !! n | None => None end.
Definition instancesOfSet (o : observedInstances) (name : string) : list Instance :=
  pointees o (default [] (bySet o !! name)).

(** A new instance of the set [s], as both loops add it. *)
Definition addInstance (s : string) (i : Instance) (o : observedInstances) : observedInstances :=
  let n := length (forCluster o) in
  mkObserved (forCluster o ++ [i]) (<[i_Name i := n]> (byName o))
    (<[s := default [] (bySet o !! s) ++ [n]]> (bySet o)) ({[s]} ∪ setNames o).

Definition addRunner (sets : gmap string PostgresInstanceSetSpec) (o : observedInstances)
    (runner : StatefulSet) : observedInstances :=
  let rs := label (st_Meta runner) LabelInstanceSet in
  addInstance rs (mkInstance (om_Name (st_Meta runner)) [] (Some runner) (sets !! rs)) o.

Definition appendPod (n : nat) (p : Pod) (o : observedInstances) : observedInstances :=
  mkObserved (alter (fun i => i <| i_Pods ::= fun l => l ++ [p] |>) n (forCluster o))
    (byName o) (bySet o) (setNames o).

Definition addPod (sets : gmap string PostgresInstanceSetSpec) (o : observedInstances)
    (p : Pod) : observedInstances :=
  let pi := label (p_Meta p) LabelInstance in
  let ps := label (p_Meta p) LabelInstanceSet in
  match byName o !! pi with
  | Some n => appendPod n p o
  | None => appendPod (length (forCluster o)) p
              (addInstance ps (mkInstance pi [] None (sets !! ps)) o)
  end.

(** The sets of the specification by name; of two with one name the last. *)
Definition setsByName (cluster : CrunchyCluster) : gmap string PostgresInstanceSetSpec :=
  fold_left (fun m s => <[is_Name s := s]> m) (cc_InstanceSets cluster) ∅.

Definition newObservedInstances (cluster : CrunchyCluster) (runners : list StatefulSet)
    (pods : list Pod) : observedInstances :=
  let sets := setsByName cluster in
  let empty := mkObserved [] ∅ ∅ (list_to_set (map is_Name (cc_InstanceSets cluster))) in
  fold_left (addPod sets) pods (fold_left (addRunner sets) runners empty).

(** *** Pods to run commands in *)
Definition writable (container : string) (i : Instance) : bool :=
  known_false (IsTerminating i) && known_true (IsWritable i) && known_true (IsRunning i container).

Definition firstPod (i : Instance) : option (Pod * Instance) :=
  match i_Pods i with p :: _ => Some (p, i) | [] => None end.

Definition writablePod (o : observedInstances) (container : string) : option (Pod * Instance) :=
  match List.find (writable container) (forCluster o) with Some i => firstPod i | None => None end.

Definition standbyLeader (container : string) (i : Instance) : bool :=
  known_false (IsTerminating i)
  && match i_Pods i with [p] => PodIsStandbyLeader p | _ => false end
  && known_true (IsRunning i container).

Definition standbyLeaderPod (o : observedInstances) (container : string) : option (Pod * Instance) :=
  match List.find (standbyLeader container) (forCluster o) with
  | Some i => firstPod i
  | None => None
  end.

(** One round of the loop of [runningPods]. *)
Definition runningStep (container : string) (acc : list Pod * bool) (i : Instance)
    : list Pod * bool :=
  if negb (known_false (IsTerminating i)) then (acc.1, false)
  else if negb (known_true (IsRunning i container)) then (acc.1, false)
  else match i_Pods i with p :: _ => (acc.1 ++ [p], acc.2) | [] => (acc.1, false) end.

Definition runningPods (o : observedInstances) (container : string) : list Pod * bool :=
  fold_left (runningStep container) (forCluster o) ([], true).

(** *** The status of the instance sets *)

(** [resource.ParseQuantity] followed by [Value]; the empty string is not a
    quantity. *)
Class Quantities := {
  ParseQuantity : string -> option Z;
  ParseQuantity_empty : ParseQuantity "" = None
}.

Definition AnnotationSuggestedSize : string := "suggested-pgdata-pvc-size".

Section Observe.
Context `{LabelMatching, Quantities}.

(** A request and its value; one that is unset or cannot be parsed is unset and
    zero. *)
Definition parsedRequest (s : string) : string * Z :=
  match ParseQuantity s with Some v => (s, v) | None => ("", 0%Z) end.

(** The limit of the last set with the name. *)
Definition limitSet (cluster : CrunchyCluster) (instanceSetName : string) : bool :=
  fold_left (fun acc s => if bool_decide (is_Name s = instanceSetName)
                          then negb (bool_decide (is_StorageLimit s = 0%Z)) else acc)
    (cc_InstanceSets cluster) false.

Definition storeDesiredRequest (cluster : CrunchyCluster)
    (instanceSetName desiredRequest desiredRequestBackup : string) : program string :=
  let (desiredRequest, current) := parsedRequest desiredRequest in
  let (desiredRequestBackup, previous) := parsedRequest desiredRequestBackup in
  let result := if nonempty desiredRequest then desiredRequest else desiredRequestBackup in
  if limitSet cluster instanceSetName && bool_decide (previous < current)%Z
  then let! _ := call (Event "Normal" "VolumeAutoGrow") in Ret result
  else Ret result.

(** The sizes that the pods of an instance ask for. *)
Definition suggestedSize (i : Instance) (m : gmap string string) : gmap string string :=
  fold_left (fun m p =>
      let size := annotation (p_Meta p) AnnotationSuggestedSize in
      if nonempty size then <[i_Name i := size]> m else m)
    (i_Pods i) m.

(** One round of the loop over the instances of a set. *)
Definition countInstance (autogrow : bool) (st : PostgresInstanceSetStatus) (i : Instance)
    : PostgresInstanceSetStatus :=
  let st := st <| iss_Replicas ::= fun n => int32 (n + int32 (Z.of_nat (length (i_Pods i)))) |> in
  let st := if known_true (IsReady i)
            then st <| iss_ReadyReplicas ::= fun n => int32 (n + 1) |> else st in
  let st := if known_true (PodMatchesPodTemplate i)
            then st <| iss_UpdatedReplicas ::= fun n => int32 (n + 1) |> else st in
  if autogrow then st <| iss_DesiredPGDataVolume ::= suggestedSize i |> else st.

(** The second loop over the instances of a set. *)
Fixpoint storeRequests (cluster : CrunchyCluster) (setName : string)
    (previous : gmap string string) (l : list Instance) (st : PostgresInstanceSetStatus)
    : program PostgresInstanceSetStatus :=
  match l with
  | [] => Ret st
  | i :: l =>
      let! size := storeDesiredRequest cluster setName
                     (default "" (iss_DesiredPGDataVolume st !! i_Name i))
                     (default "" (previous !! i_Name i)) in
      storeRequests cluster setName previous l
        (st <| iss_DesiredPGDataVolume ::= <[i_Name i := size]> |>)
  end.

Definition setStatus (autogrow : bool) (cluster : CrunchyCluster) (previous : gmap string string)
    (o : observedInstances) (name : string) : program PostgresInstanceSetStatus :=
  let st := fold_left (countInstance autogrow) (instancesOfSet o name) (mkSetStatus name 0 0 0 ∅) in
  if autogrow then storeRequests cluster name previous (instancesOfSet o name) st else Ret st.

Fixpoint setStatuses (autogrow : bool) (cluster : CrunchyCluster) (previous : gmap string string)
    (o : observedInstances) (names : list string) : program (list PostgresInstanceSetStatus) :=
  match names with
  | [] => Ret []
  | name :: names =>
      let! st := setStatus autogrow cluster previous o name in
      let! sts := setStatuses autogrow cluster previous o names in
      Ret (st :: sts)
  end.

(** The sizes saved in the status so far. *)
Definition previousDesiredRequests (cluster : CrunchyCluster) : gmap string string :=
  fold_left (fun m st => iss_DesiredPGDataVolume st ∪ m) (cc_StatusSets cluster) ∅.

Definition observed (autogrow : bool) (cluster : CrunchyCluster) (runners : list StatefulSet)
    (pods : list Pod) (err : option error)
    : program (CrunchyCluster * observedInstances * option error) :=
  let o := newObservedInstances cluster runners pods in
  let previous := if autogrow then previousDesiredRequests cluster else ∅ in
  let! statuses := setStatuses autogrow cluster previous o
                     (sortStrings (elements (setNames o))) in
  Ret (cluster <| cc_StatusSets := statuses |>, o, err).

(** The status is computed even when a list could not be read. *)
Definition observeInstances (autogrow : bool) (cluster : CrunchyCluster)
    : program (CrunchyCluster * observedInstances * option error) :=
  match AsSelector (ClusterInstances (cc_Name cluster)) with
  | Err e => observed autogrow cluster [] [] (Some e)
  | Ok selector =>
      let! pods := call (ListAll KPod (cc_Namespace cluster) (ByLabels selector)) in
      match pods with
      | Err e => observed autogrow cluster [] [] (Some e)
      | Ok pods =>
          let! runners := call (ListAll KSts (cc_Namespace cluster) (ByLabels selector)) in
          match runners with
          | Err e => observed autogrow cluster [] pods (Some e)
          | Ok runners => observed autogrow cluster runners pods None
          end
      end
  end.
End Observe.

(** ** The index is consistent

    [indexed o pods]: names are unique and resolved by [byName], every instance
    is in exactly one set, and has exactly the pods labelled with its name. *)
Section Index.
Context (sets : gmap string PostgresInstanceSetSpec).

Definition podsOf (name : string) (pods : list Pod) : list Pod :=
  filter (fun p => label (p_Meta p) LabelInstance = name) pods.

(** The instances of all sets, in the order of [l]. *)
Definition indicesOf (o : observedInstances) (l : list string) : list nat :=
  mjoin (map (fun s => default [] (bySet o !! s)) l).

Record indexed (o : observedInstances) (pods : list Pod) : Prop := {
  ix_names : NoDup (map i_Name (forCluster o));
  ix_byName : forall name n, byName o !! name = Some n <->
    exists i, forCluster o !! n = Some i /\ i_Name i = name;
  ix_bySet : indicesOf o (elements (setNames o)) ≡ₚ seq 0 (length (forCluster o));
  ix_setNames : forall s, is_Some (bySet o !! s) -> s ∈ setNames o;
  ix_pods : Forall (fun i => i_Pods i = podsOf (i_Name i) pods) (forCluster o);
  ix_all : mjoin (map i_Pods (forCluster o)) ≡ₚ pods
}.

Lemma elements_insert (s : string) (X : gset string) :
  elements ({[s]} ∪ X) ≡ₚ s :: elements (X ∖ {[s]}).
Proof.
  replace ({[s]} ∪ X) with ({[s]} ∪ X ∖ {[s]}) by (apply set_eq; intros x; destruct (decide (x = s)); set_solver).
  rewrite elements_disj_union by set_solver. by rewrite elements_singleton.
Qed.

Lemma indicesOf_ext o o' l :
  (forall s, s ∈ l -> bySet o !! s = bySet o' !! s) -> indicesOf o l = indicesOf o' l.
Proof.
  intros Hs. unfold indicesOf. f_equal. apply map_ext_in. intros s Hin.
  rewrite Hs; [done|]. by apply list_elem_of_In.
Qed.

Lemma indicesOf_Permutation o l l' : l ≡ₚ l' -> indicesOf o l ≡ₚ indicesOf o l'.
Proof. unfold indicesOf. intros Hl. by rewrite Hl. Qed.

Lemma indicesOf_split o s :
  (forall s, is_Some (bySet o !! s) -> s ∈ setNames o) ->
  indicesOf o (elements (setNames o)) ≡ₚ
  default [] (bySet o !! s) ++ indicesOf o (elements (setNames o ∖ {[s]})).
Proof.
  intros Hdom. destruct (decide (s ∈ setNames o)) as [Hin|Hnin].
  - replace (setNames o) with ({[s]} ∪ setNames o) at 1 by set_solver.
    by rewrite (indicesOf_Permutation _ _ _ (elements_insert s _)).
  - replace (setNames o ∖ {[s]}) with (setNames o) by set_solver.
    destruct (bySet o !! s) eqn:E; [|done]. exfalso. apply Hnin, Hdom. by rewrite E.
Qed.

Lemma addInstance_indexed s i o pods :
  indexed o pods -> i_Pods i = podsOf (i_Name i) pods -> podsOf (i_Name i) pods = [] ->
  i_Name i ∉ map i_Name (forCluster o) ->
  indexed (addInstance s i o) pods.
Proof.
  intros [Hn Hb Hs Hd Hp Ha] Hi Hnil Hfresh. unfold addInstance.
  set (n := length (forCluster o)).
  constructor; cbn [forCluster byName bySet setNames].
  - rewrite map_app. apply NoDup_app. split_and!; [done| |apply NoDup_singleton].
    intros x Hx Hx2. apply list_elem_of_singleton in Hx2. by subst.
  - intros name k. destruct (decide (name = i_Name i)) as [->|Hne].
    + rewrite lookup_insert. case_decide; [|done]. split.
      * intros [= <-]. exists i. by rewrite lookup_app_r, Nat.sub_diag by done.
      * intros (i' & Hl & He). f_equal. apply lookup_app_Some in Hl as [Hl|[Hge Hl]].
        -- exfalso. apply Hfresh. rewrite <- He. apply list_elem_of_fmap. exists i'. split; [done|].
           by eapply list_elem_of_lookup_2.
        -- destruct (k - length (forCluster o)) as [|m] eqn:E; [subst n; lia|].
           simpl in Hl. done.
    + rewrite lookup_insert_ne by done. rewrite Hb. split; intros (i' & Hl & He); exists i'; (split; [|done]).
      * by apply lookup_app_l_Some.
      * apply lookup_app_Some in Hl as [Hl|[Hge Hl]]; [done|].
        destruct (k - length (forCluster o)) as [|m]; simpl in Hl; [|done]. naive_solver.
  - rewrite length_app. change (length [i]) with 1. rewrite seq_app. simpl.
    rewrite <- Hs, (indicesOf_split o s) by done.
    rewrite (indicesOf_Permutation _ _ _ (elements_insert s _)).
    match goal with |- context [indicesOf ?o' (s :: ?l)] =>
      assert (Hext : indicesOf o' (s :: l) = (default [] (bySet o !! s) ++ [n]) ++ indicesOf o l) end.
    { unfold indicesOf at 1. simpl. rewrite lookup_insert. case_decide; [|done]. simpl. f_equal.
      unfold indicesOf. f_equal. apply map_ext_in. intros s' Hs'%list_elem_of_In.
      rewrite lookup_insert_ne; [done|]. set_solver. }
    rewrite Hext, <- !app_assoc. f_equiv. by rewrite Permutation_app_comm.
  - intros s' Hs'. destruct (decide (s' = s)) as [->|Hne]; [set_solver|].
    rewrite lookup_insert_ne in Hs' by done. apply elem_of_union_r. by apply Hd.
  - by apply Forall_snoc.
  - rewrite map_app, join_app. simpl. rewrite Hi, Hnil. by rewrite !app_nil_r.
Qed.

Lemma lookup_alter_map {A} (f : A -> A) (g : A -> string) n (l : list A) :
  (forall x, g (f x) = g x) -> map g (alter f n l) = map g l.
Proof.
  intros Hg. revert n. induction l as [|x l IH]; intros [|n]; simpl; try done.
  - by rewrite Hg.
  - f_equal. apply IH.
Qed.

Lemma length_alter_list {A} (f : A -> A) n (l : list A) : length (alter f n l) = length l.
Proof. apply length_alter. Qed.

Lemma podsOf_snoc name pods p :
  podsOf name (pods ++ [p]) =
  podsOf name pods ++ if decide (label (p_Meta p) LabelInstance = name) then [p] else [].
Proof. unfold podsOf. by rewrite filter_app. Qed.

Lemma map_alter_pods n p l i :
  l !! n = Some i ->
  mjoin (map i_Pods (alter (fun i => i <| i_Pods ::= fun l => l ++ [p] |>) n l)) ≡ₚ
  mjoin (map i_Pods l) ++ [p].
Proof.
  revert n. induction l as [|x l IH]; intros [|n] Hn; simpl in Hn |- *; try done.
  - change (i_Pods (x <| i_Pods ::= fun l => l ++ [p] |>)) with (i_Pods x ++ [p]).
    rewrite <- !app_assoc. f_equiv. by rewrite Permutation_app_comm.
  - rewrite <- app_assoc. f_equiv. by apply IH.
Qed.

(** The pod whose instance is known. *)
Lemma appendPod_indexed o pods p n :
  indexed o pods -> byName o !! label (p_Meta p) LabelInstance = Some n ->
  indexed (appendPod n p o) (pods ++ [p]).
Proof.
  intros [Hn Hb Hs Hd Hp Ha] Hl. pose proof Hl as (i & Hi & Hname)%Hb.
  set (f := fun i : Instance => i <| i_Pods ::= fun l => l ++ [p] |>).
  assert (Hmap : map i_Name (alter f n (forCluster o)) = map i_Name (forCluster o))
    by by apply lookup_alter_map.
  unfold appendPod. fold f.
  constructor; cbn [forCluster byName bySet setNames].
  - by rewrite Hmap.
  - intros name k. rewrite Hb. destruct (decide (k = n)) as [->|Hne].
    + rewrite list_lookup_alter_eq, Hi. simpl. naive_solver.
    + by rewrite list_lookup_alter_ne.
  - rewrite length_alter_list. exact Hs.
  - done.
  - rewrite Forall_lookup in Hp |- *. intros k j. rewrite podsOf_snoc.
    destruct (decide (k = n)) as [->|Hne].
    + rewrite list_lookup_alter_eq, Hi. simpl. intros [= <-]. simpl.
      change (i_Name (f i)) with (i_Name i). change (i_Pods (f i)) with (i_Pods i ++ [p]).
      rewrite decide_True by done. by rewrite (Hp n i Hi).
    + rewrite list_lookup_alter_ne by done. intros Hk. rewrite (Hp k j Hk).
      rewrite decide_False; [by rewrite app_nil_r|]. intros He.
      apply Hne. assert (Hkn : byName o !! label (p_Meta p) LabelInstance = Some k) by (apply Hb; eauto).
      congruence.
  - unfold f. rewrite (map_alter_pods n p _ i Hi). by f_equiv.
Qed.

Lemma addPod_indexed o pods p : indexed o pods -> indexed (addPod sets o p) (pods ++ [p]).
Proof.
  intros Ho. unfold addPod. destruct (byName o !! label (p_Meta p) LabelInstance) as [n|] eqn:E.
  - by apply appendPod_indexed.
  - set (i := mkInstance (label (p_Meta p) LabelInstance) [] None (sets !! _)).
    assert (Hfresh : i_Name i ∉ map i_Name (forCluster o)).
    { intros (i' & Hname & (k & Hk)%list_elem_of_lookup)%list_elem_of_fmap.
      enough (byName o !! i_Name i = Some k) by (subst i; cbn [i_Name] in *; congruence).
      apply (ix_byName _ _ Ho). eauto. }
    assert (Hnil : podsOf (i_Name i) pods = []).
    { unfold podsOf. destruct (filter _ pods) as [|q l] eqn:Eq; [done|]. exfalso.
      assert (Hq : q ∈ filter (fun p => label (p_Meta p) LabelInstance = i_Name i) pods)
        by (rewrite Eq; left).
      apply list_elem_of_filter in Hq as [Hq Hin].
      rewrite <- (ix_all _ _ Ho) in Hin. apply list_elem_of_join in Hin as (ps & Hin & (j & -> & Hj)%list_elem_of_fmap).
      pose proof (ix_pods _ _ Ho) as Hp. rewrite Forall_forall in Hp. rewrite (Hp j Hj) in Hin.
      apply list_elem_of_filter in Hin as [Hq' _]. apply Hfresh. apply list_elem_of_fmap.
      exists j. split; [congruence|done]. }
    apply appendPod_indexed.
    + by apply addInstance_indexed.
    + unfold addInstance. cbn [byName]. simpl. rewrite lookup_insert. by case_decide.
Qed.

Lemma addPods_indexed todo : forall o pods,
  indexed o pods -> indexed (fold_left (addPod sets) todo o) (pods ++ todo).
Proof.
  induction todo as [|p todo IH]; intros o pods Ho; simpl; [by rewrite app_nil_r|].
  rewrite cons_middle, app_assoc. by apply IH, addPod_indexed.
Qed.

Definition runnerName (r : StatefulSet) : string := om_Name (st_Meta r).

(** The instances of StatefulSets come first, in order. *)
Definition starts_with (o : observedInstances) (runners : list StatefulSet) : Prop :=
  omap i_Runner (forCluster o) = runners /\
  take (length runners) (map i_Name (forCluster o)) = map runnerName runners.

Lemma addRunners_indexed runners : forall o,
  indexed o [] -> NoDup (map runnerName runners) ->
  (forall r, r ∈ runners -> runnerName r ∉ map i_Name (forCluster o)) ->
  indexed (fold_left (addRunner sets) runners o) [].
Proof.
  induction runners as [|r runners IH]; intros o Ho Hnd Hfresh; simpl; [done|].
  apply NoDup_cons in Hnd as [Hr Hnd]. apply IH; [|done|].
  - apply addInstance_indexed; try done. by apply Hfresh; left.
  - intros r' Hr'. unfold addRunner, addInstance. cbn [forCluster]. rewrite map_app.
    cbn [map]. rewrite elem_of_app. intros [Hin|He%list_elem_of_singleton].
    + apply (Hfresh r'); [by right|done].
    + apply Hr, list_elem_of_fmap. exists r'. split; [exact (eq_sym He)|done].
Qed.

Lemma addRunners_forCluster runners : forall o,
  forCluster (fold_left (addRunner sets) runners o) =
  forCluster o ++ map (fun r => mkInstance (runnerName r) [] (Some r)
                         (sets !! label (st_Meta r) LabelInstanceSet)) runners.
Proof.
  induction runners as [|r runners IH]; intros o; simpl; [by rewrite app_nil_r|].
  rewrite IH. unfold addRunner, addInstance. cbn [forCluster]. by rewrite <- app_assoc.
Qed.

(** Adding pods keeps runners and names, and adds instances without runner. *)
Lemma addPods_runners pods : forall o,
  omap i_Runner (forCluster (fold_left (addPod sets) pods o)) = omap i_Runner (forCluster o) /\
  exists l, map i_Name (forCluster (fold_left (addPod sets) pods o)) = map i_Name (forCluster o) ++ l.
Proof.
  assert (Happ : forall n p o, omap i_Runner (forCluster (appendPod n p o)) = omap i_Runner (forCluster o) /\
            map i_Name (forCluster (appendPod n p o)) = map i_Name (forCluster o)).
  { intros n p o. split; [|by apply lookup_alter_map].
    unfold appendPod. cbn [forCluster]. revert n.
    induction (forCluster o) as [|i l IH]; intros [|n]; try done.
    simpl. destruct (i_Runner i); [f_equal|]; apply (IH n). }
  induction pods as [|p pods IH]; intros o; simpl; [split; [done|exists []; by rewrite app_nil_r]|].
  destruct (IH (addPod sets o p)) as [Hr [l Hl]]. rewrite Hr, Hl. unfold addPod.
  destruct (byName o !! label (p_Meta p) LabelInstance) as [n|].
  - destruct (Happ n p o) as [-> ->]. eauto.
  - match goal with |- context [appendPod ?n p ?o'] => destruct (Happ n p o') as [-> ->] end.
    unfold addInstance. cbn [forCluster]. rewrite omap_app, map_app. simpl. rewrite app_nil_r.
    split; [done|]. eexists. by rewrite <- app_assoc.
Qed.
End Index.

Lemma newObservedInstances_indexed cluster runners pods :
  NoDup (map runnerName runners) ->
  indexed (newObservedInstances cluster runners pods) pods.
Proof.
  intros Hnd. unfold newObservedInstances. apply (addPods_indexed _ pods _ []).
  apply addRunners_indexed; [|done|].
  - constructor; cbn [forCluster byName bySet setNames].
    + apply NoDup_nil_2.
    + intros name n. rewrite lookup_empty. split; [done|]. by intros (i & ? & _).
    + unfold indicesOf. cbn [bySet]. induction (elements _) as [|s l IH]; simpl; [done|].
      by rewrite lookup_empty.
    + intros s. rewrite lookup_empty. by intros [? ?].
    + constructor.
    + done.
  - intros r _. apply not_elem_of_nil.
Qed.

Lemma omap_lookup_seq {A} (k : list A) : forall a,
  omap (fun n => (a ++ k) !! n) (seq (length a) (length k)) = k.
Proof.
  induction k as [|i k IH]; intros a; simpl; [done|].
  rewrite list_lookup_middle by done. simpl. f_equal.
  specialize (IH (a ++ [i])). rewrite length_app in IH. simpl in IH.
  rewrite Nat.add_1_r, <- app_assoc in IH. exact IH.
Qed.

Lemma pointees_seq o l : l ≡ₚ seq 0 (length (forCluster o)) -> pointees o l ≡ₚ forCluster o.
Proof.
  intros Hl. unfold pointees. rewrite Hl. apply reflexive_eq. apply (omap_lookup_seq _ []).
Qed.

Lemma pointees_join o l :
  mjoin (map (fun s => pointees o (default [] (bySet o !! s))) l) = pointees o (indicesOf o l).
Proof.
  unfold pointees, indicesOf. induction l as [|s l IH]; simpl; [done|]. by rewrite omap_app, IH.
Qed.

(** C9: the index of the observed instances is well-formed: names are
    unique and resolve to their instance; every instance is in exactly one of
    the known sets; the instances with a StatefulSet are those of the given
    StatefulSets, in order; and the given pods are distributed to the
    instances whose name they are labelled with, in order, none lost and none
    twice. *)
Theorem observed_instances_well_formed cluster runners pods :
  NoDup (map runnerName runners) ->
  let o := newObservedInstances cluster runners pods in
  NoDup (map i_Name (forCluster o)) /\
  (forall name i, instanceNamed o name = Some i <-> i ∈ forCluster o /\ i_Name i = name) /\
  mjoin (map (instancesOfSet o) (elements (setNames o))) ≡ₚ forCluster o /\
  omap i_Runner (forCluster o) = runners /\
  take (length runners) (map i_Name (forCluster o)) = map runnerName runners /\
  (forall i, i ∈ forCluster o -> i_Pods i = podsOf (i_Name i) pods) /\
  mjoin (map i_Pods (forCluster o)) ≡ₚ pods.
Proof.
  intros Hnd o. pose proof (newObservedInstances_indexed cluster _ pods Hnd) as Ho. fold o in Ho.
  pose proof Ho as [Hn Hb Hs Hd Hp Ha].
  split_and!; [done| | | | | |done].
  - intros name i. unfold instanceNamed. split.
    + destruct (byName o !! name) as [n|] eqn:E; [|done]. intros Hi.
      apply Hb in E as (i' & Hi' & Hname). rewrite Hi in Hi'. injection Hi' as <-.
      split; [by eapply list_elem_of_lookup_2|done].
    + intros [(n & Hi)%list_elem_of_lookup Hname].
      assert (byName o !! name = Some n) as -> by (apply Hb; eauto). done.
  - unfold instancesOfSet. rewrite pointees_join. by apply pointees_seq.
  - unfold o, newObservedInstances. destruct (addPods_runners (setsByName cluster) pods
      (fold_left (addRunner (setsByName cluster)) runners (mkObserved [] ∅ ∅
         (list_to_set (map is_Name (cc_InstanceSets cluster)))))) as [-> _].
    rewrite addRunners_forCluster. cbn [forCluster]. simpl.
    clear. induction runners as [|r l IH]; simpl; [done|]. by f_equal.
  - unfold o, newObservedInstances. destruct (addPods_runners (setsByName cluster) pods
      (fold_left (addRunner (setsByName cluster)) runners (mkObserved [] ∅ ∅
         (list_to_set (map is_Name (cc_InstanceSets cluster)))))) as [_ [l ->]].
    rewrite addRunners_forCluster. cbn [forCluster]. simpl. rewrite map_map. cbn [i_Name].
    rewrite take_app_le by by rewrite length_map.
    apply take_ge. by rewrite length_map.
  - intros i Hi. rewrite Forall_forall in Hp. by apply Hp.
Qed.

(** ** The status computed from the index *)
Definition sumZ (l : list Z) : Z := foldr Z.add 0%Z l.

Definition podCount (i : Instance) : Z := Z.of_nat (length (i_Pods i)).
Definition countTrue (f : Instance -> bool * bool) (l : list Instance) : Z :=
  sumZ (map (fun i => if known_true (f i) then 1 else 0)%Z l).

Lemma sumZ_app l k : sumZ (l ++ k) = (sumZ l + sumZ k)%Z.
Proof. induction l; simpl; [done|]. rewrite IHl. lia. Qed.

Lemma sumZ_Permutation l k : l ≡ₚ k -> sumZ l = sumZ k.
Proof. induction 1; simpl; lia. Qed.

#[export] Instance sumZ_Proper : Proper (Permutation ==> eq) sumZ.
Proof. intros l k. apply sumZ_Permutation. Qed.

Lemma sum_podCount l : sumZ (map podCount l) = Z.of_nat (length (mjoin (map i_Pods l))).
Proof. induction l; simpl; [done|]. rewrite length_app, IHl. unfold podCount. lia. Qed.

(** Readiness and revision are only known of an instance with one pod. *)
Lemma known_has_pod i :
  (known_true (IsReady i) = true -> podCount i = 1%Z) /\
  (known_true (PodMatchesPodTemplate i) = true -> podCount i = 1%Z).
Proof.
  unfold IsReady, PodMatchesPodTemplate, podCount.
  destruct (i_Pods i) as [|p [|]]; try done; destruct (i_Runner i); done.
Qed.

Lemma countTrue_bound f l :
  (forall i, known_true (f i) = true -> podCount i = 1%Z) ->
  (0 <= countTrue f l <= sumZ (map podCount l))%Z.
Proof.
  intros Hf. unfold countTrue. induction l as [|i l IH]; simpl; [done|].
  specialize (Hf i). assert (0 <= podCount i)%Z by (unfold podCount; lia).
  destruct (known_true (f i)); [rewrite Hf by done|]; lia.
Qed.

Section Status.
Context `{LabelMatching, Quantities}.
Context (autogrow : bool).

Lemma countInstances_counts l : forall st,
  (0 <= iss_ReadyReplicas st <= iss_Replicas st)%Z ->
  (0 <= iss_UpdatedReplicas st <= iss_Replicas st)%Z ->
  (iss_Replicas st + sumZ (map podCount l) < 2 ^ 31)%Z ->
  let st' := fold_left (countInstance autogrow) l st in
  iss_Name st' = iss_Name st /\
  iss_Replicas st' = (iss_Replicas st + sumZ (map podCount l))%Z /\
  iss_ReadyReplicas st' = (iss_ReadyReplicas st + countTrue IsReady l)%Z /\
  iss_UpdatedReplicas st' = (iss_UpdatedReplicas st + countTrue PodMatchesPodTemplate l)%Z.
Proof.
  induction l as [|i l IH]; intros st Hr Hu Hb; simpl in Hb |- *.
  { unfold countTrue. simpl. by rewrite !Z.add_0_r. }
  assert (Hnn : (0 <= sumZ (map podCount l))%Z) by (rewrite sum_podCount; lia).
  assert (Hi : (0 <= podCount i)%Z) by (unfold podCount; lia).
  destruct (known_has_pod i) as [Kr Ku].
  unfold countTrue. simpl. fold (countTrue IsReady l) (countTrue PodMatchesPodTemplate l).
  set (st1 := countInstance autogrow st i).
  assert (Hst1 : iss_Name st1 = iss_Name st /\
    iss_Replicas st1 = (iss_Replicas st + podCount i)%Z /\
    iss_ReadyReplicas st1 =
      (iss_ReadyReplicas st + (if known_true (IsReady i) then 1 else 0))%Z /\
    iss_UpdatedReplicas st1 =
      (iss_UpdatedReplicas st + (if known_true (PodMatchesPodTemplate i) then 1 else 0))%Z).
  { unfold st1, countInstance.
    destruct (known_true (IsReady i)), (known_true (PodMatchesPodTemplate i)), autogrow;
      try specialize (Kr eq_refl); try specialize (Ku eq_refl); cbn; fold (podCount i);
      rewrite ?(int32_id (podCount i)), ?int32_id, ?Z.add_0_r by lia; done. }
  destruct Hst1 as (N1 & R1 & Rr1 & U1).
  destruct (IH st1) as (N2 & R2 & Rr2 & U2).
  - rewrite Rr1, R1. destruct (known_true (IsReady i)); [rewrite Kr by done|]; lia.
  - rewrite U1, R1. destruct (known_true (PodMatchesPodTemplate i)); [rewrite Ku by done|]; lia.
  - rewrite R1. lia.
  - rewrite N2, N1, R2, R1, Rr2, Rr1, U2, U1. split_and!; [done|lia..].
Qed.

(** Saving sizes changes nothing else. *)
Lemma storeRequests_counts cluster name previous l : forall st h,
  wp h (storeRequests cluster name previous l st) (fun _ st' =>
    st' = st <| iss_DesiredPGDataVolume := iss_DesiredPGDataVolume st' |>).
Proof.
  unfold wp. induction l as [|i l IH]; intros st h; simpl; [done|].
  rewrite wps_bind. apply (wps_conseq _ _ _ (fun _ _ => True)).
  - unfold storeDesiredRequest. repeat destruct (parsedRequest _). by destruct (_ && _).
  - intros h' size _. eapply wps_conseq; [apply IH|]. intros h2 st' ->. done.
Qed.

(** The size an instance's pods ask for: of two the last. *)
Definition suggestion (i : Instance) : string :=
  fold_left (fun acc p => let size := annotation (p_Meta p) AnnotationSuggestedSize in
                          if nonempty size then size else acc) (i_Pods i) "".

Lemma suggestedSize_lookup i m name :
  suggestedSize i m !! name =
  if decide (name = i_Name i /\ nonempty (suggestion i) = true) then Some (suggestion i) else m !! name.
Proof.
  unfold suggestedSize, suggestion. generalize (i_Pods i) as l.
  assert (Hgen : forall l acc (m0 : gmap string string),
    (forall name, m0 !! name = if decide (name = i_Name i /\ nonempty acc = true)
                               then Some acc else m !! name) ->
    forall name, fold_left (fun m p => let size := annotation (p_Meta p) AnnotationSuggestedSize in
                    if nonempty size then <[i_Name i := size]> m else m) l m0 !! name =
      let acc := fold_left (fun acc p => let size := annotation (p_Meta p) AnnotationSuggestedSize in
                    if nonempty size then size else acc) l acc in
      if decide (name = i_Name i /\ nonempty acc = true) then Some acc else m !! name).
  { induction l as [|p l IH]; intros acc m0 Hm n; simpl; [apply Hm|]. apply IH. intros n'.
    destruct (nonempty (annotation (p_Meta p) AnnotationSuggestedSize)) eqn:E; [|apply Hm].
    destruct (decide (n' = i_Name i)) as [->|Hne].
    - rewrite lookup_insert, !decide_True by done. done.
    - rewrite lookup_insert_ne, Hm, !decide_False by naive_solver. done. }
  intros l. apply Hgen. intros n. rewrite decide_False; [done|]. naive_solver.
Qed.

Lemma countInstances_desired l : forall st name,
  iss_DesiredPGDataVolume (fold_left (countInstance true) l st) !! name =
  iss_DesiredPGDataVolume (fold_left (fun st i => st <| iss_DesiredPGDataVolume ::= suggestedSize i |>) l st) !! name.
Proof.
  assert (Hgen : forall l st st', iss_DesiredPGDataVolume st = iss_DesiredPGDataVolume st' ->
    iss_DesiredPGDataVolume (fold_left (countInstance true) l st) =
    iss_DesiredPGDataVolume (fold_left (fun st i => st <| iss_DesiredPGDataVolume ::= suggestedSize i |>) l st')).
  { clear. induction l as [|i l IH]; intros st st' Hd; simpl; [done|]. apply IH.
    unfold countInstance. destruct (known_true _), (known_true _); cbn; by rewrite Hd. }
  intros st name. by rewrite (Hgen l st st).
Qed.

Lemma desired_other l : forall st name, name ∉ map i_Name l ->
  iss_DesiredPGDataVolume
    (fold_left (fun st i => st <| iss_DesiredPGDataVolume ::= suggestedSize i |>) l st) !! name =
  iss_DesiredPGDataVolume st !! name.
Proof.
  induction l as [|i l IH]; intros st name Hn; simpl in Hn |- *; [done|].
  apply not_elem_of_cons in Hn as [Hne Hn]. rewrite IH by done. cbn.
  rewrite suggestedSize_lookup, decide_False by naive_solver. done.
Qed.

Lemma desired_here l i : forall st, NoDup (map i_Name l) -> i ∈ l ->
  iss_DesiredPGDataVolume st !! i_Name i = None ->
  default "" (iss_DesiredPGDataVolume
    (fold_left (fun st i => st <| iss_DesiredPGDataVolume ::= suggestedSize i |>) l st) !! i_Name i) =
  suggestion i.
Proof.
  induction l as [|j l IH]; intros st Hnd Hi Hst; [by apply elem_of_nil in Hi|].
  simpl. apply NoDup_cons in Hnd as [Hj Hnd]. apply elem_of_cons in Hi as [<-|Hi].
  - rewrite desired_other by done. cbn. rewrite suggestedSize_lookup.
    case_decide as E; [done|]. rewrite Hst. destruct (suggestion i) eqn:Es; [done|]. naive_solver.
  - apply IH; [done..|]. cbn. rewrite suggestedSize_lookup, decide_False; [done|].
    intros [He _]. apply Hj. rewrite <- He. by apply list_elem_of_fmap_2.
Qed.

(** The size kept for an instance: what its pods ask for, or what was saved,
    each when it can be parsed. *)
Definition keptSize (previous : gmap string string) (i : Instance) : string :=
  let sug := (parsedRequest (suggestion i)).1 in
  if nonempty sug then sug else (parsedRequest (default "" (previous !! i_Name i))).1.

Lemma storeDesiredRequest_wp cluster name a b h :
  wp h (storeDesiredRequest cluster name a b) (fun _ r =>
    r = if nonempty (parsedRequest a).1 then (parsedRequest a).1 else (parsedRequest b).1).
Proof.
  unfold wp, storeDesiredRequest. destruct (parsedRequest a), (parsedRequest b). simpl.
  by destruct (_ && _).
Qed.

Lemma storeRequests_desired cluster name previous l : forall st h, NoDup (map i_Name l) ->
  (forall i, i ∈ l -> default "" (iss_DesiredPGDataVolume st !! i_Name i) = suggestion i) ->
  wp h (storeRequests cluster name previous l st) (fun _ st' =>
    (forall i, i ∈ l -> iss_DesiredPGDataVolume st' !! i_Name i = Some (keptSize previous i)) /\
    (forall n, n ∉ map i_Name l ->
       iss_DesiredPGDataVolume st' !! n = iss_DesiredPGDataVolume st !! n)).
Proof.
  induction l as [|i l IH]; intros st h Hnd Hst.
  { simpl. split; [|done]. intros i Hi. by apply elem_of_nil in Hi. }
  apply NoDup_cons in Hnd as [Hi Hnd]. unfold wp in *. simpl. rewrite wps_bind.
  eapply wps_conseq; [apply storeDesiredRequest_wp|]. intros h1 size ->.
  rewrite Hst by left. fold (keptSize previous i).
  eapply wps_conseq; [apply (IH (st <| iss_DesiredPGDataVolume ::= fun m => <[i_Name i := keptSize previous i]> m |>)); [done|]|].
  - intros j Hj. cbn. rewrite lookup_insert_ne; [apply Hst; by right|].
    intros He. apply Hi. rewrite He. by apply list_elem_of_fmap_2.
  - intros h2 st' [Hin Hout]. split.
    + intros j [->|Hj]%elem_of_cons; [|by apply Hin].
      rewrite Hout by done. cbn. by rewrite lookup_insert, decide_True.
    + intros n Hn. apply not_elem_of_cons in Hn as [Hne Hn]. rewrite Hout by done. cbn.
      by rewrite lookup_insert_ne.
Qed.

Lemma setStatus_wp cluster previous o name h :
  (sumZ (map podCount (instancesOfSet o name)) < 2 ^ 31)%Z ->
  wp h (setStatus autogrow cluster previous o name) (fun _ st =>
    let l := instancesOfSet o name in
    iss_Name st = name /\ iss_Replicas st = sumZ (map podCount l) /\
    iss_ReadyReplicas st = countTrue IsReady l /\
    iss_UpdatedReplicas st = countTrue PodMatchesPodTemplate l /\
    (autogrow = true -> NoDup (map i_Name l) -> forall i, i ∈ l ->
       iss_DesiredPGDataVolume st !! i_Name i = Some (keptSize previous i))).
Proof.
  intros Hb. set (l := instancesOfSet o name).
  destruct (countInstances_counts l (mkSetStatus name 0 0 0 ∅)) as (Hn & Hr & Hrr & Hu);
    [done..|exact Hb|].
  unfold wp, setStatus. fold l. destruct autogrow eqn:Ea.
  2:{ simpl. rewrite Hn, Hr, Hrr, Hu. split_and!; [done..|]. done. }
  set (st := fold_left (countInstance true) l _) in *.
  assert (Hst : forall i, NoDup (map i_Name l) -> i ∈ l ->
            default "" (iss_DesiredPGDataVolume st !! i_Name i) = suggestion i).
  { intros i Hnd Hi. unfold st. rewrite countInstances_desired. by apply desired_here. }
  pose proof (storeRequests_counts cluster name previous l st h) as Hc.
  destruct (decide (NoDup (map i_Name l))) as [Hnd|Hnd].
  - pose proof (storeRequests_desired cluster name previous l st h Hnd
      (fun i Hi => Hst i Hnd Hi)) as Hd.
    eapply wps_mono; [| |exact (wps_and _ _ _ _ _ _ Hc Hd)]; [done|].
    intros h' st' [-> [Hin _]]. cbn in Hin |- *. rewrite Hn, Hr, Hrr, Hu. split_and!; [done..|].
    intros _ _. exact Hin.
  - eapply wps_conseq; [exact Hc|]. intros h' st' ->. cbn. rewrite Hn, Hr, Hrr, Hu.
    split_and!; [done..|]. intros _ ?. done.
Qed.

(** What the status says of one set. *)
Definition status_of_set (previous : gmap string string) (o : observedInstances)
    (st : PostgresInstanceSetStatus) : Prop :=
  let l := instancesOfSet o (iss_Name st) in
  iss_Replicas st = sumZ (map podCount l) /\
  (0 <= iss_ReadyReplicas st <= iss_Replicas st)%Z /\
  (0 <= iss_UpdatedReplicas st <= iss_Replicas st)%Z /\
  iss_ReadyReplicas st = countTrue IsReady l /\
  iss_UpdatedReplicas st = countTrue PodMatchesPodTemplate l /\
  (autogrow = true -> forall i, i ∈ l ->
     iss_DesiredPGDataVolume st !! i_Name i = Some (keptSize previous i)).

Lemma setStatuses_wp cluster previous o names : forall h,
  (forall name, name ∈ names -> sumZ (map podCount (instancesOfSet o name)) < 2 ^ 31)%Z ->
  (forall name, name ∈ names -> NoDup (map i_Name (instancesOfSet o name))) ->
  wp h (setStatuses autogrow cluster previous o names) (fun _ sts =>
    map iss_Name sts = names /\ Forall (status_of_set previous o) sts).
Proof.
  unfold wp. induction names as [|name names IH]; intros h Hb Hnd; simpl; [done|].
  rewrite wps_bind. eapply wps_conseq; [apply setStatus_wp, Hb; left|].
  intros h1 st (Hn & Hr & Hrr & Hu & Hd). rewrite wps_bind.
  eapply wps_conseq; [apply IH|].
  - intros n Hn'. apply Hb. by right.
  - intros n Hn'. apply Hnd. by right.
  - intros h2 sts [Hs Hf]. split; [cbn; by f_equal|]. constructor; [|done].
    unfold status_of_set. rewrite Hn, Hr, Hrr, Hu. split_and!; try done.
    1-4: apply countTrue_bound; intros i; apply known_has_pod.
    intros Ha i Hi. apply Hd; [done| |done]. apply Hnd. by left.
Qed.

Lemma sum_over_sets o sts l :
  Forall (fun st => iss_Replicas st = sumZ (map podCount (instancesOfSet o (iss_Name st)))) sts ->
  map iss_Name sts ≡ₚ l ->
  sumZ (map iss_Replicas sts) = sumZ (map podCount (mjoin (map (instancesOfSet o) l))).
Proof.
  intros Hf <-. induction Hf as [|st sts Hst Hf IH]; simpl; [done|].
  rewrite map_app, sumZ_app, <- IH. f_equal. exact Hst.
Qed.

(** The status of the instance sets adds up: whenever the StatefulSets of
    the namespace have distinct names and there are fewer than 2^31 pods, the
    status lists every known set once, in order; the replicas of all sets
    together are the pods that were found; of each set, no more are ready or
    up to date than there are; and with volumes that grow on their own, the
    size asked for by an instance's pods is kept, and otherwise the size saved
    before. *)
Theorem instance_status_adds_up cluster runners pods err h :
  NoDup (map runnerName runners) -> (Z.of_nat (length pods) < 2 ^ 31)%Z ->
  wp h (observed autogrow cluster runners pods err) (fun _ r =>
    let '(cluster', o, err') := r in
    o = newObservedInstances cluster runners pods /\ err' = err /\
    map iss_Name (cc_StatusSets cluster') = sortStrings (elements (setNames o)) /\
    sumZ (map iss_Replicas (cc_StatusSets cluster')) = Z.of_nat (length pods) /\
    Forall (status_of_set (if autogrow then previousDesiredRequests cluster else ∅) o)
      (cc_StatusSets cluster')).
Proof.
  intros Hnd Hb. pose proof (newObservedInstances_indexed cluster _ pods Hnd) as [Hn _ Hs _ _ Ha].
  unfold wp, observed. set (o := newObservedInstances cluster runners pods) in *.
  assert (Hjoin : mjoin (map (instancesOfSet o) (elements (setNames o))) ≡ₚ forCluster o).
  { unfold instancesOfSet. rewrite pointees_join. by apply pointees_seq. }
  assert (Hpart : forall name, name ∈ setNames o -> exists rest,
            instancesOfSet o name ++ rest ≡ₚ forCluster o).
  { intros name Hin%elem_of_elements. apply list_elem_of_split in Hin as (l1 & l2 & He).
    rewrite He in Hjoin. exists (mjoin (map (instancesOfSet o) (l1 ++ l2))). rewrite <- Hjoin.
    rewrite !map_app, !join_app. simpl. rewrite Permutation_app_swap_app. done. }
  assert (Hin : forall name, name ∈ sortStrings (elements (setNames o)) -> name ∈ setNames o).
  { intros name. unfold sortStrings. rewrite merge_sort_Permutation. apply elem_of_elements. }
  assert (Hlen : sumZ (map podCount (forCluster o)) = Z.of_nat (length pods))
    by by rewrite sum_podCount, Ha.
  rewrite wps_bind. eapply wps_conseq; [apply setStatuses_wp|].
  - intros name Hname%Hin. destruct (Hpart name Hname) as [rest Hrest].
    assert (Hsum : sumZ (map podCount (instancesOfSet o name ++ rest)) = Z.of_nat (length pods))
      by (rewrite <- Hlen; apply sumZ_Permutation; by rewrite Hrest).
    rewrite map_app, sumZ_app, (sum_podCount rest) in Hsum. lia.
  - intros name Hname%Hin. destruct (Hpart name Hname) as [rest Hrest].
    rewrite <- Hrest, map_app in Hn. by apply NoDup_app in Hn as [? _].
  - intros h' sts [Hnames Hf]. simpl. split_and!; try done.
    rewrite (sum_over_sets o sts (elements (setNames o))).
    + rewrite <- Hlen. apply sumZ_Permutation. by rewrite Hjoin.
    + eapply Forall_impl; [exact Hf|]. by intros st [? _].
    + rewrite Hnames. apply merge_sort_Permutation.
Qed.
End Status.

(** ** Examples *)
Module ExampleInstances.
Definition meta (name : string) (labels annotations : gmap string string) : ObjectMeta :=
  mkMeta name "postgres-operator" ("uid-" +:+ name) "1" 1 0 None labels annotations [] None "".

(** The pod of the instance [name] of [set1], ready, of a revision. *)
Definition pod (name role revision : string) : Pod :=
  mkPod (meta (name +:+ "-0")
      {[LabelInstance := name; LabelInstanceSet := "set1"; LabelRole := role;
        StatefulSetRevisionLabel := revision]}
      {[AnnotationSuggestedSize := "2Gi"]})
    "Running" [("Ready", ConditionTrue)] [("database", true)] [] None (Some ("StatefulSet", name)) [] [].

Definition runner (name : string) : StatefulSet :=
  mkSts (meta name {[LabelInstanceSet := "set1"]} ∅) 1 1 1 "new" (mkTemplate [("database", [])] [] []) "" ∅ None.

Definition set1 (replicas : Z) : PostgresInstanceSetSpec := mkSetSpec "set1" replicas false 0.

Definition instance (name role revision : string) : Instance :=
  mkInstance name [pod name role revision] (Some (runner name)) (Some (set1 2)).

Definition cluster (sets : list PostgresInstanceSetSpec) : CrunchyCluster :=
  mkCrunchy (meta "hippo" ∅ ∅)
    (mkCluster "hippo" "postgres-operator" ∅ 17 false None None [] None None None
       (mkExtensions false false false false false false false) None [] [])
    (mkMetadata ∅ ∅) (Some 5432%Z) "" (mkArchive (mkMetadata ∅ ∅) ∅ [] None None "" "" [] [] [] 0 []) true None false "" sets None None None [] "" "" (mkPatroniStatus "" None None) (0, 0)%Z None 17 1 None "" "" None []
    None None None "" None None "" None "" None None "" false false.

(** Quantities of whole numbers of Gi, for the examples. *)
Definition quantities : Quantities.
Proof.
  refine (Build_Quantities (fun s =>
    if bool_decide (s = "1Gi") then Some 1%Z else if bool_decide (s = "2Gi") then Some 2%Z else None) _).
  by vm_compute.
Defined.
End ExampleInstances.

#[local] Existing Instance ExampleInstances.quantities.
#[local] Existing Instance ConcreteLabels.matching.

Lemma observed_instances_well_formed_witness :
  let o := newObservedInstances (ExampleInstances.cluster [ExampleInstances.set1 2])
             [ExampleInstances.runner "a"; ExampleInstances.runner "b"]
             [ExampleInstances.pod "b" "primary" "new"; ExampleInstances.pod "c" "replica" "old"] in
  map i_Name (forCluster o) = ["a"; "b"; "c"] /\ NoDup (map i_Name (forCluster o)) /\
  mjoin (map i_Pods (forCluster o)) ≡ₚ
    [ExampleInstances.pod "b" "primary" "new"; ExampleInstances.pod "c" "replica" "old"].
Proof.
  intros o. split; [by vm_compute|].
  assert (Hnd : NoDup (map runnerName [ExampleInstances.runner "a"; ExampleInstances.runner "b"]))
    by (apply (bool_decide_eq_true_1 _); by vm_compute).
  destruct (observed_instances_well_formed (ExampleInstances.cluster [ExampleInstances.set1 2]) _
    [ExampleInstances.pod "b" "primary" "new"; ExampleInstances.pod "c" "replica" "old"] Hnd)
    as (Hn & _ & _ & _ & _ & _ & Hp).
  split; [exact Hn|exact Hp].
Defined.

Lemma instance_status_adds_up_witness :
  let pods := [ExampleInstances.pod "a" "primary" "new"; ExampleInstances.pod "b" "replica" "old"] in
  wp [] (observed true (ExampleInstances.cluster [ExampleInstances.set1 2])
           [ExampleInstances.runner "a"; ExampleInstances.runner "b"] pods None)
    (fun _ r => sumZ (map iss_Replicas (cc_StatusSets r.1.1)) = 2%Z).
Proof.
  intros pods. eapply wps_conseq.
  - apply instance_status_adds_up; [|by vm_compute].
    apply (bool_decide_eq_true_1 _). by vm_compute.
  - by intros h [[c o] e] (_ & _ & _ & Hsum & _).
Defined.
