(* ===== verification/CertManager.v ===== *)
(** * cert-manager

    [percona/certmanager]: which issuer a cluster uses, and the issuers and
    Certificate resources that the operator keeps for it.  The checker of
    cert-manager and the owner references of controller-runtime are the class
    [CertManager]. *)
From S2P Require Import Prelude GoStrings Cluster Prog Errors Naming Objects Client Lease.

(** [365 * 24 * time.Hour] and [30 * 24 * time.Hour] *)
Definition DefaultCertDuration : Z := 365 * 24 * 3600000000000.
Definition DefaultRenewBefore : Z := 30 * 24 * 3600000000000.

Definition IssuerKind : string := "Issuer".
Definition ClusterIssuerKind : string := "ClusterIssuer".
Definition GroupName : string := "cert-manager.io".

Inductive IssuerMode := IssuerModeManagedNamespaced | IssuerModeManagedCluster | IssuerModeExternal.

#[export] Instance IssuerMode_eq_dec : EqDecision IssuerMode.
Proof. solve_decision. Defined.

(** The kind PostgresCluster of [v1beta1], and a reference to a cluster *)
Definition postgresClusterGroup : string := "upstream.pgv2.percona.com".
Definition ownerOf (cluster : CrunchyCluster) : OwnerReference :=
  mkOwner postgresClusterGroup "v1beta1" "PostgresCluster" (cc_Name cluster) (om_UID (cc_Meta cluster)) true true.

Definition refersTo (cluster : CrunchyCluster) (r : OwnerReference) : Prop :=
  or_Group r = postgresClusterGroup /\ or_Kind r = "PostgresCluster" /\ or_Name r = cc_Name cluster.

Class CertManager := {
  (** [controllerutil.HasOwnerReference]: by group, kind and name *)
  HasOwnerReference : list OwnerReference -> CrunchyCluster -> result bool;
  (** [cmapichecker.TranslateToSimpleError] *)
  TranslateToSimpleError : error -> option error;
  HasOwnerReference_own cluster : HasOwnerReference [ownerOf cluster] cluster = Ok true;
  HasOwnerReference_spec l cluster b :
    HasOwnerReference l cluster = Ok b -> b = true <-> Exists (refersTo cluster) l
}.

(** ** Names: [names.go] *)
Definition ClusterCertificateName (cluster : CrunchyCluster) : string := meta_Name (PostgresTLSSecret (config cluster)).
Definition InstanceCertificateName (instanceName : string) : string := instanceName +:+ "-cert".
Definition ReplicationCertificateName (cluster : CrunchyCluster) : string :=
  meta_Name (ReplicationClientCertSecret (config cluster)).
Definition PGBouncerCertificateName (cluster : CrunchyCluster) : string := cc_Name cluster +:+ "-pgbouncer-cert".
Definition PGBackRestClientCertificateName (cluster : CrunchyCluster) : string :=
  cc_Name cluster +:+ "-pgbackrest-client-cert".
Definition PGBackRestRepoCertificateName (cluster : CrunchyCluster) : string := cc_Name cluster +:+ "-pgbackrest-repo-cert".

Definition maxCommonNameLength : nat := 64.

(** The suffixes are shorter than a common name. *)
Definition truncateForCommonName (clusterName suffix : string) : string :=
  let maxLen := (maxCommonNameLength - String.length suffix)%nat in
  (if bool_decide (maxLen < String.length clusterName)%nat then String.substring 0 maxLen clusterName else clusterName) +:+ suffix.

(** ** Issuers *)

(** [env] is the variable [CERTMANAGER_NAMESPACE]. *)
Definition CertManagerNamespace (env : string) : string := if nonempty env then env else "cert-manager".

Definition issuerConf (cluster : CrunchyCluster) : option IssuerReference :=
  match cc_TLS cluster with None => None | Some tls => tls_IssuerConf tls end.

(** [cluster.Spec.TLS.IssuerConf.Name], where it is known to be there *)
Definition issuerConfName (cluster : CrunchyCluster) : string :=
  match issuerConf cluster with Some ic => ir_Name ic | None => "" end.

Definition isManaged (m : ObjectMeta) : bool :=
  bool_decide (om_Labels m !! LabelPerconaManagedBy = Some LabelPerconaManagedByValue).

(** What the answer about a ClusterIssuer says. *)
Definition modeOf (r : result Issuer) : result IssuerMode :=
  match r with
  | Ok existing => Ok (if isManaged (is_Meta existing) then IssuerModeManagedCluster else IssuerModeExternal)
  | Err e => if IsNotFound e then Ok IssuerModeManagedCluster
             else if IsForbidden e then Ok IssuerModeExternal
             else Err (Wrap "failed to get cluster issuer" e)
  end.

(** The mode, or the name of the ClusterIssuer that decides it *)
Definition specifiedMode (cluster : CrunchyCluster) : IssuerMode + string :=
  if negb (bool_decide (GetCertManagementPolicy (cc_TLS cluster) = CertManagementAuto)) then inl IssuerModeManagedNamespaced
  else match issuerConf cluster with
       | None => inl IssuerModeManagedNamespaced
       | Some ic =>
           if bool_decide (ir_Kind ic = "") || bool_decide (ir_Kind ic = IssuerKind) then inl IssuerModeManagedNamespaced
           else if bool_decide (ir_Kind ic = ClusterIssuerKind) then inr (ir_Name ic)
           else inl IssuerModeExternal
       end.

Definition ResolveIssuerMode (cluster : CrunchyCluster) : action IssuerMode :=
  match specifiedMode cluster with
  | inl mode => Ret (Ok mode)
  | inr name => let! r := call (Get KClusterIssuer ("", name)) in Ret (modeOf r)
  end.

Definition issuerRef (cluster : CrunchyCluster) (mode : IssuerMode) : IssuerReference :=
  match mode with
  | IssuerModeExternal =>
      match issuerConf cluster with
      | Some ic => mkIssuerRef (ir_Name ic) (ir_Kind ic) (if nonempty (ir_Group ic) then ir_Group ic else GroupName)
      | None => mkIssuerRef "" "" GroupName
      end
  | IssuerModeManagedCluster => mkIssuerRef (issuerConfName cluster) ClusterIssuerKind GroupName
  | IssuerModeManagedNamespaced =>
      let name := meta_Name (TLSIssuer (config cluster)) in
      mkIssuerRef (if nonempty (issuerConfName cluster) then issuerConfName cluster else name) IssuerKind GroupName
  end.

Section CertManagerController.
Context `{ControllerRuntime} `{CertManager} `{LabelMatching} `{GoVersion}.
(** The variable [CERTMANAGER_NAMESPACE], and [err.Error()] *)
Context (env : string) (errorText : error -> string).

(** ** Whether cert-manager is there *)
Definition crdsMapping3Error : string :=
  "error finding the scope of the object: failed to get restmapping: unable to retrieve the complete list of server APIs: cert-manager.io/v1: no matches for cert-manager.io/v1, Resource=".

Definition ErrCertManagerNotFound : error := Sentinel "cert-manager is not found".
Definition ErrCertManagerNotReady : error := Sentinel "cert-manager is not ready".

(** A pattern of quoted text between its anchors matches that text only. *)
Definition translateCheckError (e : error) : option error :=
  if bool_decide (errorText e = crdsMapping3Error) then Some (Sentinel "cmapichecker.ErrCertManagerCRDsNotFound")
  else TranslateToSimpleError e.

Definition isOneOf (e : option error) (sentinels : list string) : bool :=
  match e with Some e => existsb (Is e) sentinels | None => false end.

Definition Check (ns : string) : action unit :=
  do! _ := call (NewChecker ns) in
  let! r := call (CheckCertManager ns) in
  match r with
  | Ok _ => Ret (Ok tt)
  | Err e =>
      let simple := translateCheckError e in
      if isOneOf simple ["cmapichecker.ErrCertManagerCRDsNotFound"] then Ret (Err ErrCertManagerNotFound)
      else if isOneOf simple ["cmapichecker.ErrWebhookCertificateFailure"; "cmapichecker.ErrWebhookServiceFailure";
                              "cmapichecker.ErrWebhookDeploymentFailure"] then Ret (Err ErrCertManagerNotReady)
      else Ret (Err e)
  end.

Definition CertificateExists (namespace certName : string) : action bool :=
  let! r := call (Get KCertificate (namespace, certName)) in
  match r with
  | Ok _ => Ret (Ok true)
  | Err e => if IsNotFound e then Ret (Ok false) else Ret (Err (Wrap ("get certificate/" +:+ certName) e))
  end.

(** ** Issuers *)
Definition metaOf (m : NamedMeta) : ObjectMeta := emptyMeta (meta_Name m) (meta_Namespace m).

(** A ClusterIssuer that is created when there is none; an existing one stays
    as it is. *)
Definition applyClusterIssuer (name getting creating : string) (how : IssuerConfig) : action unit :=
  let! r := call (Get KClusterIssuer ("", name)) in
  match r with
  | Ok _ => Ret (Ok tt)
  | Err e =>
      if negb (IsNotFound e) then Ret (Err (Wrap getting e))
      else
        let issuer := mkIssuer (emptyMeta name "" <| om_Labels := {[LabelPerconaManagedBy := LabelPerconaManagedByValue]} |>) [] how in
        do! _ := call (Create KClusterIssuer issuer) or creating in
        Ret (Ok tt)
  end.

(** An Issuer that is created when there is none; an existing one becomes the
    cluster's, whoever made it. *)
Definition applyNamespacedIssuer (cluster : CrunchyCluster) (m : ObjectMeta) (getting creating : string) (how : IssuerConfig)
    : action unit :=
  let! r := call (Get KIssuer (objectKey m)) in
  match r with
  | Ok existing =>
      match HasOwnerReference (is_Owners existing) cluster with
      | Err e => Ret (Err (Wrap "check owner reference" e))
      | Ok true => Ret (Ok tt)
      | Ok false =>
          let existing := existing <| is_Owners := [ownerOf cluster] |>
                                   <| is_Meta ::= fun m => m <| om_Controller := Some (om_UID (cc_Meta cluster)) |> |> in
          do! _ := call (Update KIssuer existing) or "failed to update issuer" in
          Ret (Ok tt)
      end
  | Err e =>
      if negb (IsNotFound e) then Ret (Err (Wrap getting e))
      else match SetControllerReference (cc_Meta cluster) m with
           | Err e => Ret (Err (Wrap "failed to set controller reference" e))
           | Ok m =>
               do! _ := call (Create KIssuer (mkIssuer m [ownerOf cluster] how)) or creating in
               Ret (Ok tt)
           end
  end.

Definition ApplyIssuer (cluster : CrunchyCluster) : action unit :=
  do! mode := ResolveIssuerMode cluster or "failed to resolve issuer mode" in
  match mode with
  | IssuerModeExternal => Ret (Ok tt)
  | IssuerModeManagedCluster =>
      let caSecretName := meta_Name (ClusterCACertSecret (issuerConfName cluster) (CertManagerNamespace env)) in
      applyClusterIssuer (ir_Name (issuerRef cluster mode)) "failed to get cluster issuer" "failed to create cluster issuer"
        (CA caSecretName)
  | IssuerModeManagedNamespaced =>
      let m := metaOf (TLSIssuer (config cluster)) in
      let m := if nonempty (issuerConfName cluster) then m <| om_Name := issuerConfName cluster |> else m in
      applyNamespacedIssuer cluster m "failed to get issuer" "failed to create issuer"
        (CA (meta_Name (PostgresRootCASecret (config cluster))))
  end.

Definition ApplyCAIssuer (cluster : CrunchyCluster) : action unit :=
  do! mode := ResolveIssuerMode cluster or "failed to resolve issuer mode" in
  match mode with
  | IssuerModeExternal => Ret (Ok tt)
  | IssuerModeManagedCluster =>
      applyClusterIssuer (meta_Name (ClusterCAIssuer (issuerConfName cluster))) "failed to get CA cluster issuer"
        "failed to create ca cluster issuer" SelfSigned
  | IssuerModeManagedNamespaced =>
      applyNamespacedIssuer cluster (metaOf (CAIssuer (config cluster))) "failed to get CA issuer" "failed to create ca issuer"
        SelfSigned
  end.

(** ** Certificates *)

(** What a Certificate of the cluster has to be: whether it belongs to the
    cluster, its duration, its common name and its issuer, where they count. *)
Record certificateWish := mkWish {
  wish_Owned : bool;
  wish_Duration : Z;
  wish_CommonName : option string;
  wish_IssuerRef : option IssuerReference
}.

Definition wishOwner (cluster : CrunchyCluster) (w : certificateWish) (o : CertificateObject) : result (CertificateObject * bool) :=
  if wish_Owned w then
    match HasOwnerReference (ce_Owners o) cluster with
    | Err e => Err (Wrap "check owner reference" e)
    | Ok true => Ok (o, false)
    | Ok false => Ok (o <| ce_Owners := [ownerOf cluster] |>
                        <| ce_Meta ::= fun m => m <| om_Controller := Some (om_UID (cc_Meta cluster)) |> |>, true)
    end
  else Ok (o, false).

Definition wishDuration (w : certificateWish) (o : CertificateObject) : CertificateObject * bool :=
  match cs_Duration (ce_Spec o) with
  | Some d => if bool_decide (d = wish_Duration w) then (o, false)
              else (o <| ce_Spec ::= fun s => s <| cs_Duration := Some (wish_Duration w) |> |>, true)
  | None => (o, false)
  end.

Definition wishCommonName (w : certificateWish) (o : CertificateObject) : CertificateObject * bool :=
  match wish_CommonName w with
  | Some cn => if bool_decide (cs_CommonName (ce_Spec o) = cn) then (o, false)
               else (o <| ce_Spec ::= fun s => s <| cs_CommonName := cn |> <| cs_DNSNames := [cn] |> |>, true)
  | None => (o, false)
  end.

Definition wishIssuer (w : certificateWish) (o : CertificateObject) : CertificateObject * bool :=
  match wish_IssuerRef w with
  | Some ref => if bool_decide (cs_IssuerRef (ce_Spec o) = ref) then (o, false)
                else (o <| ce_Spec ::= fun s => s <| cs_IssuerRef := ref |> |>, true)
  | None => (o, false)
  end.

(** The existing Certificate as it has to be, and whether it has changed. *)
Definition wished (cluster : CrunchyCluster) (w : certificateWish) (o : CertificateObject) : result (CertificateObject * bool) :=
  match wishOwner cluster w o with
  | Err e => Err e
  | Ok (o, b1) =>
      let '(o, b2) := wishDuration w o in
      let '(o, b3) := wishCommonName w o in
      let '(o, b4) := wishIssuer w o in
      Ok (o, b1 || b2 || b3 || b4)
  end.

(** The part that all functions share: [getting] and [what] are the words of
    their messages. *)
Definition applyCertificate (cluster : CrunchyCluster) (getting what : string) (w : certificateWish) (cert : CertificateObject)
    : action unit :=
  let! r := call (Get KCertificate (objectKey (ce_Meta cert))) in
  match r with
  | Ok existing =>
      match wished cluster w existing with
      | Err e => Ret (Err e)
      | Ok (existing, needsUpdate) =>
          if negb needsUpdate then Ret (Ok tt)
          else
            do! _ := call (Update KCertificate existing) or ("failed to update " +:+ what) in
            Ret (Ok tt)
      end
  | Err e =>
      if negb (IsNotFound e) then Ret (Err (Wrap ("failed to get " +:+ getting) e))
      else match (if wish_Owned w then SetControllerReference (cc_Meta cluster) (ce_Meta cert) else Ok (ce_Meta cert)) with
           | Err e => Ret (Err (Wrap "failed to set controller reference" e))
           | Ok m =>
               let cert := cert <| ce_Meta := m |> <| ce_Owners := if wish_Owned w then [ownerOf cluster] else [] |> in
               do! _ := call (Create KCertificate cert) or ("failed to create " +:+ what) in
               Ret (Ok tt)
           end
  end.

Definition privateKey : CertificatePrivateKey := mkCertKey "ECDSA" 256 "Never".
Definition serverUsages : list string := ["server auth"; "client auth"; "digital signature"; "key encipherment"].
Definition clientUsages : list string := ["client auth"; "digital signature"; "key encipherment"].
Definition repositoryUsages : list string := ["server auth"; "digital signature"; "key encipherment"].

Definition certificateLabels (cluster : CrunchyCluster) (own : gmap string string) (component : string) : gmap string string :=
  WithPerconaLabels own (cc_Name cluster) component (label (cc_Meta cluster) LabelVersion).

(** A Certificate of a leaf with these labels, which its Secret gets as well. *)
Definition leafCertificate (cluster : CrunchyCluster) (certName secretName commonName : string) (dnsNames : list string)
    (ref : IssuerReference) (duration : Z) (usages : list string) (labels : gmap string string) : CertificateObject :=
  mkCertObject (emptyMeta certName (cc_Namespace cluster) <| om_Labels := labels |>) []
    (mkCertSpec secretName commonName dnsNames false ref (Some duration) (Some DefaultRenewBefore) (Some privateKey) usages (Some labels)).

Definition certDuration (cluster : CrunchyCluster) (f : TLSSpec -> option Z) : Z :=
  match cc_TLS cluster with
  | Some tls => match f tls with Some d => d | None => DefaultCertDuration end
  | None => DefaultCertDuration
  end.

(** The Secret of the root and the issuer that signs it *)
Definition caSecret (cluster : CrunchyCluster) (mode : IssuerMode) : NamedMeta :=
  match mode with
  | IssuerModeManagedCluster => ClusterCACertSecret (issuerConfName cluster) (CertManagerNamespace env)
  | _ => PostgresRootCASecret (config cluster)
  end.

Definition caIssuerRef (cluster : CrunchyCluster) (mode : IssuerMode) : IssuerReference :=
  match mode with
  | IssuerModeManagedCluster => mkIssuerRef (meta_Name (ClusterCAIssuer (issuerConfName cluster))) ClusterIssuerKind ""
  | _ => mkIssuerRef (meta_Name (CAIssuer (config cluster))) IssuerKind ""
  end.

Definition ApplyCACertificate (cluster : CrunchyCluster) : action unit :=
  do! mode := ResolveIssuerMode cluster or "failed to resolve issuer mode" in
  if bool_decide (mode = IssuerModeExternal) then Ret (Ok tt)
  else
    let caDuration := certDuration cluster tls_CAValidityDuration in
    let clusterScoped := bool_decide (mode = IssuerModeManagedCluster) in
    let secretMeta := caSecret cluster mode in
    let labels := certificateLabels cluster {[LabelCluster := cc_Name cluster]} "" in
    applyCertificate cluster "CA certificate" "ca certificate" (mkWish (negb clusterScoped) caDuration None None)
      (mkCertObject (metaOf secretMeta <| om_Labels := labels |>) []
         (mkCertSpec (meta_Name secretMeta) (cc_Name cluster +:+ "-ca") [] true (caIssuerRef cluster mode) (Some caDuration)
            (Some DefaultRenewBefore) (Some privateKey) [] (Some labels))).

Definition emptyNames : error := New "dnsNames cannot be empty".

(** A leaf of the cluster, for the issuer that is resolved *)
Definition applyLeaf (cluster : CrunchyCluster) (what : string) (commonName : option string)
    (cert : IssuerReference -> CertificateObject) (duration : Z) : action unit :=
  do! mode := ResolveIssuerMode cluster or "failed to resolve issuer mode" in
  let wantIssuerRef := issuerRef cluster mode in
  applyCertificate cluster what what (mkWish true duration commonName (Some wantIssuerRef)) (cert wantIssuerRef).

Definition ApplyClusterCertificate (cluster : CrunchyCluster) (dnsNames : list string) : action unit :=
  if bool_decide (dnsNames = []) then Ret (Err emptyNames)
  else
    let certName := ClusterCertificateName cluster in
    let duration := certDuration cluster tls_CertValidityDuration in
    applyLeaf cluster "cluster certificate" None (fun ref =>
      leafCertificate cluster certName certName (cc_Name cluster +:+ "-postgres") dnsNames ref duration serverUsages
        (certificateLabels cluster {[LabelCluster := cc_Name cluster; LabelClusterCertificate := "postgres-tls"]} "")) duration.

Definition ApplyInstanceCertificate (cluster : CrunchyCluster) (instanceName : string) (dnsNames : list string) : action unit :=
  if bool_decide (dnsNames = []) then Ret (Err emptyNames)
  else
    let certName := InstanceCertificateName instanceName in
    let secretName := instanceName +:+ "-certs" in
    let duration := certDuration cluster tls_CertValidityDuration in
    applyLeaf cluster "instance certificate" None (fun ref =>
      leafCertificate cluster certName secretName instanceName dnsNames ref duration serverUsages
        (certificateLabels cluster {[LabelCluster := cc_Name cluster; LabelInstance := instanceName]} "")) duration.

Definition ApplyPGBouncerCertificate (cluster : CrunchyCluster) (dnsNames : list string) : action unit :=
  if bool_decide (dnsNames = []) then Ret (Err emptyNames)
  else
    let secretName := meta_Name (ClusterPGBouncer (config cluster)) +:+ "-frontend-tls" in
    let certName := PGBouncerCertificateName cluster in
    let duration := certDuration cluster tls_CertValidityDuration in
    applyLeaf cluster "pgbouncer certificate" None (fun ref =>
      leafCertificate cluster certName secretName (truncateForCommonName (cc_Name cluster) "-pgbouncer") dnsNames ref duration
        serverUsages (certificateLabels cluster {[LabelCluster := cc_Name cluster; LabelRole := RolePGBouncer]} "pgbouncer"))
      duration.

Definition ApplyReplicationCertificate (cluster : CrunchyCluster) : action unit :=
  let secretName := meta_Name (ReplicationClientCertSecret (config cluster)) in
  let certName := ReplicationCertificateName cluster in
  let commonName := "_crunchyrepl" in
  let duration := certDuration cluster tls_CertValidityDuration in
  applyLeaf cluster "replication certificate" None (fun ref =>
    leafCertificate cluster certName secretName commonName [commonName] ref duration clientUsages
      (certificateLabels cluster {[LabelCluster := cc_Name cluster; LabelClusterCertificate := "replication-client-tls"]} ""))
    duration.

Definition ApplyPGBackRestClientCertificate (cluster : CrunchyCluster) : action unit :=
  let secretName := meta_Name (PGBackRestClientCertSecret (config cluster)) in
  let certName := PGBackRestClientCertificateName cluster in
  let duration := certDuration cluster tls_PGBackRestCertValidityDuration in
  let commonName := "pgbackrest@" +:+ om_UID (cc_Meta cluster) in
  applyLeaf cluster "pgbackrest client certificate" (Some commonName) (fun ref =>
    leafCertificate cluster certName secretName commonName [commonName] ref duration clientUsages
      (certificateLabels cluster {[LabelCluster := cc_Name cluster]} "")) duration.

Definition ApplyPGBackRestRepoCertificate (cluster : CrunchyCluster) (dnsNames : list string) : action unit :=
  if bool_decide (dnsNames = []) then Ret (Err emptyNames)
  else
    let secretName := meta_Name (PGBackRestRepoCertSecret (config cluster)) in
    let certName := PGBackRestRepoCertificateName cluster in
    let duration := certDuration cluster tls_PGBackRestCertValidityDuration in
    applyLeaf cluster "pgbackrest repo certificate" None (fun ref =>
      leafCertificate cluster certName secretName (truncateForCommonName (cc_Name cluster) "-pgbackrest-repo") dnsNames ref duration
        repositoryUsages (certificateLabels cluster {[LabelCluster := cc_Name cluster]} "")) duration.
End CertManagerController.

(** ** Properties *)
Section CertManagerProperties.
Context `{ControllerRuntime} `{CertManager} `{LabelMatching} `{GoVersion}.
Context (env : string) (cluster : CrunchyCluster).

(** The mode that the answers so far give *)
Definition resolved (h : history) (mode : IssuerMode) : Prop :=
  match specifiedMode cluster with
  | inl m => mode = m
  | inr name => exists r, got KClusterIssuer ("", name) r ∈ h /\ modeOf r = Ok mode
  end.

#[export] Instance grows_resolved mode : Grows (fun h => resolved h mode).
Proof. unfold resolved. destruct (specifiedMode cluster); apply _. Qed.

Lemma resolve_wps G h Q :
  (forall name, specifiedMode cluster = inr name -> G h (Get KClusterIssuer ("", name))) ->
  (forall h' mode, h `prefix_of` h' -> resolved h' mode -> Q h' (Ok mode)) ->
  (forall h' e, Q h' (Err e)) ->
  wps G h (ResolveIssuerMode cluster) Q.
Proof.
  intros HG HO HE. unfold ResolveIssuerMode. pose proof (HO h) as HO'. unfold resolved in HO, HO'.
  destruct (specifiedMode cluster) as [mode|name]; [by apply HO'|].
  apply wps_call_bind. split; [by apply HG|]. intros r. simpl. destruct (modeOf r) as [mode|e] eqn:E; [|by apply HE].
  apply HO; [by apply prefix_app_r|]. exists r. split; [apply elem_of_snoc|done].
Qed.

(** A ClusterIssuer decides the mode by its label; without one it is the
    operator's to make. *)
Lemma specified_conf name : specifiedMode cluster = inr name ->
  exists ic, issuerConf cluster = Some ic /\ name = ir_Name ic /\ issuerConfName cluster = name /\ ir_Kind ic = ClusterIssuerKind.
Proof.
  unfold specifiedMode, issuerConfName. destruct (negb _); [done|]. destruct (issuerConf cluster) as [ic|]; [|done].
  destruct (_ || _); [done|]. case_bool_decide as E; [|done]. intros [= <-]. by exists ic.
Qed.

(** A Certificate that is as it has to be *)
Definition settled (w : certificateWish) (o : CertificateObject) : Prop :=
  (wish_Owned w = true -> HasOwnerReference (ce_Owners o) cluster = Ok true) /\
  (forall d, cs_Duration (ce_Spec o) = Some d -> d = wish_Duration w) /\
  (forall cn, wish_CommonName w = Some cn -> cs_CommonName (ce_Spec o) = cn) /\
  (forall ref, wish_IssuerRef w = Some ref -> cs_IssuerRef (ce_Spec o) = ref).

(** A Certificate that is to belong to the cluster and does not *)
Definition foreign (w : certificateWish) (o : CertificateObject) : bool :=
  wish_Owned w && match HasOwnerReference (ce_Owners o) cluster with Ok owned => negb owned | Err _ => false end.

(** What an update may write: the owner where it is not the cluster, the
    duration where there is one, the issuer and the common name that are
    wished, and with another common name that as the only DNS name; all the
    rest stays. *)
Definition sameRequest (w : certificateWish) (old new : CertificateObject) : Prop :=
  ce_Owners new = (if foreign w old then [ownerOf cluster] else ce_Owners old) /\
  ce_Meta new = ce_Meta old <| om_Controller :=
    if foreign w old then Some (om_UID (cc_Meta cluster)) else om_Controller (ce_Meta old) |> /\
  cs_Duration (ce_Spec new) = (fun _ => wish_Duration w) <$> cs_Duration (ce_Spec old) /\
  cs_IssuerRef (ce_Spec new) = default (cs_IssuerRef (ce_Spec old)) (wish_IssuerRef w) /\
  cs_CommonName (ce_Spec new) = default (cs_CommonName (ce_Spec old)) (wish_CommonName w) /\
  cs_DNSNames (ce_Spec new) = (if decide (cs_CommonName (ce_Spec new) = cs_CommonName (ce_Spec old))
                               then cs_DNSNames (ce_Spec old) else [cs_CommonName (ce_Spec new)]) /\
  cs_SecretName (ce_Spec new) = cs_SecretName (ce_Spec old) /\ cs_IsCA (ce_Spec new) = cs_IsCA (ce_Spec old) /\
  cs_RenewBefore (ce_Spec new) = cs_RenewBefore (ce_Spec old) /\ cs_PrivateKey (ce_Spec new) = cs_PrivateKey (ce_Spec old) /\
  cs_Usages (ce_Spec new) = cs_Usages (ce_Spec old) /\ cs_SecretLabels (ce_Spec new) = cs_SecretLabels (ce_Spec old).

Lemma wishOwner_spec w o o' b : wishOwner cluster w o = Ok (o', b) ->
  o' = (if foreign w o then o <| ce_Owners := [ownerOf cluster] |>
                              <| ce_Meta ::= fun m => m <| om_Controller := Some (om_UID (cc_Meta cluster)) |> |> else o) /\
  (wish_Owned w = true -> HasOwnerReference (ce_Owners o') cluster = Ok true) /\
  (b = false <-> (wish_Owned w = true -> HasOwnerReference (ce_Owners o) cluster = Ok true)).
Proof.
  unfold wishOwner, foreign. destruct (wish_Owned w); cbn [andb].
  - destruct (HasOwnerReference (ce_Owners o) cluster) as [[]|e] eqn:E; [| |done]; intros [= <- <-].
    + by split_and!.
    + split_and!; [done|intros _; apply HasOwnerReference_own|by split; [|intros Hx; specialize (Hx eq_refl)]].
  - by intros [= <- <-].
Qed.

Lemma wishDuration_spec w o o' b : wishDuration w o = (o', b) ->
  o' = o <| ce_Spec ::= fun s => s <| cs_Duration := (fun _ => wish_Duration w) <$> cs_Duration (ce_Spec o) |> |> /\
  (b = false <-> forall d, cs_Duration (ce_Spec o) = Some d -> d = wish_Duration w).
Proof.
  unfold wishDuration. destruct (cs_Duration (ce_Spec o)) as [d|] eqn:E.
  - case_bool_decide as Ed; intros [= <- <-].
    + split; [simpl; by rewrite <- Ed, <- E|]. split; [|done]. by intros _ ? [= <-].
    + split; [done|]. split; [done|]. intros Hx. by destruct (Ed (Hx _ eq_refl)).
  - intros [= <- <-]. split; [simpl; by rewrite <- E|done].
Qed.

Lemma wishCommonName_spec w o o' b : wishCommonName w o = (o', b) ->
  let cn := default (cs_CommonName (ce_Spec o)) (wish_CommonName w) in
  o' = o <| ce_Spec ::= fun s => s <| cs_CommonName := cn |>
              <| cs_DNSNames := if decide (cn = cs_CommonName (ce_Spec o)) then cs_DNSNames (ce_Spec o) else [cn] |> |> /\
  (b = false <-> forall cn, wish_CommonName w = Some cn -> cs_CommonName (ce_Spec o) = cn).
Proof.
  unfold wishCommonName. destruct (wish_CommonName w) as [cn|] eqn:E; cbn [default from_option id].
  - case_bool_decide as Ed; intros [= <- <-].
    + rewrite decide_True by done. split; [by rewrite <- Ed|]. split; [|done]. by intros _ ? [= <-].
    + rewrite decide_False by done. split; [done|]. split; [done|]. intros Hx. by destruct (Ed (Hx _ eq_refl)).
  - intros [= <- <-]. by rewrite decide_True by done.
Qed.

Lemma wishIssuer_spec w o o' b : wishIssuer w o = (o', b) ->
  o' = o <| ce_Spec ::= fun s => s <| cs_IssuerRef := default (cs_IssuerRef (ce_Spec o)) (wish_IssuerRef w) |> |> /\
  (b = false <-> forall ref, wish_IssuerRef w = Some ref -> cs_IssuerRef (ce_Spec o) = ref).
Proof.
  unfold wishIssuer. destruct (wish_IssuerRef w) as [ref|] eqn:E.
  - case_bool_decide as Ed; intros [= <- <-].
    + split; [by rewrite <- Ed|]. split; [|done]. by intros _ ? [= <-].
    + split; [done|]. split; [done|]. intros Hx. by destruct (Ed (Hx _ eq_refl)).
  - by intros [= <- <-].
Qed.

Lemma wished_spec w o o' b : wished cluster w o = Ok (o', b) ->
  settled w o' /\ sameRequest w o o' /\ (b = false <-> settled w o).
Proof.
  unfold wished. destruct (wishOwner cluster w o) as [[o1 b1]|e] eqn:E1; [|done].
  destruct (wishDuration w o1) as [o2 b2] eqn:E2, (wishCommonName w o2) as [o3 b3] eqn:E3, (wishIssuer w o3) as [o4 b4] eqn:E4.
  intros [= <- <-]. apply wishOwner_spec in E1 as (E1 & Ho & Hb1).
  assert (Hs1 : ce_Spec o1 = ce_Spec o) by (rewrite E1; by destruct (foreign w o)).
  apply wishDuration_spec in E2 as (-> & Hb2). apply wishCommonName_spec in E3 as (-> & Hb3).
  apply wishIssuer_spec in E4 as (-> & Hb4). simpl in *. rewrite Hs1 in *. split_and!.
  - unfold settled. simpl. rewrite ?Hs1. split_and!; [done|..].
    + by intros d (d' & _ & ->)%fmap_Some_1.
    + by intros cn ->.
    + by intros ref ->.
  - unfold sameRequest. simpl. rewrite ?Hs1, E1. by destruct (foreign w o); split_and!.
  - rewrite !orb_false_iff. unfold settled. tauto.
Qed.

(** A Certificate that is settled is left alone. *)
Lemma settled_done w o : settled w o -> wished cluster w o = Ok (o, false).
Proof.
  intros (Ho & Hd & Hc & Hr). unfold wished, wishOwner, wishDuration, wishCommonName, wishIssuer.
  destruct (wish_Owned w).
  1: rewrite Ho by done.
  all: destruct (cs_Duration (ce_Spec o)) as [d|] eqn:Ed; rewrite ?(bool_decide_eq_true_2 (d = _)) by auto;
    destruct (wish_CommonName w) as [cn|] eqn:Ec; rewrite ?(bool_decide_eq_true_2 (_ = cn)) by auto;
    destruct (wish_IssuerRef w) as [ref|] eqn:Er; rewrite ?(bool_decide_eq_true_2 (_ = ref)) by auto; done.
Qed.

(** ** Calls *)

(** That nothing was found at a key *)
Definition absent (h : history) (k : kind) (at_ : key) : Prop :=
  exists e, got k at_ (Err e) ∈ h /\ IsNotFound e = true.

#[local] Instance grows_absent k at_ : Grows (fun h => absent h k at_).
Proof. unfold absent. apply _. Qed.

(** What the functions may ask and write: a Certificate is created as [fresh]
    says where there was none, and updated where it was read and has to be. *)
Definition certificate_call (at_ : key) (fresh : history -> CertificateObject -> Prop)
    (wish : IssuerMode -> certificateWish) (h : history) (o : op) : Prop :=
  match o with
  | Get KClusterIssuer at_ => at_ = ("", issuerConfName cluster)
  | Get KCertificate k => k = at_
  | Create KCertificate new => absent h KCertificate at_ /\ objectKey (ce_Meta new) = at_ /\ fresh h new
  | Update KCertificate new =>
      exists mode old, resolved h mode /\ read h KCertificate at_ old /\ ~ settled (wish mode) old /\
        settled (wish mode) new /\ sameRequest (wish mode) old new
  | _ => False
  end.

(** In the end the Certificate is as it has to be: it was read so, or written
    so with success. *)
Definition certificate_done (at_ : key) (wish : IssuerMode -> certificateWish) (h : history) (r : result unit) : Prop :=
  r = Ok tt ->
  exists mode o, resolved h mode /\ settled (wish mode) o /\
    (read h KCertificate at_ o \/ (exists a, (Ev (Update KCertificate o : op) (Ok a : result CertificateObject) : event resp) ∈ h) \/
     (exists a, (Ev (Create KCertificate o : op) (Ok a : result CertificateObject) : event resp) ∈ h)).

Lemma applyCertificate_wps at_ (fresh : history -> CertificateObject -> Prop) wish h mode getting what cert :
  resolved h mode -> objectKey (ce_Meta cert) = at_ ->
  (forall h' m, h `prefix_of` h' -> objectKey m = objectKey (ce_Meta cert) ->
     m = (if wish_Owned (wish mode) then ce_Meta cert <| om_Controller := Some (om_UID (cc_Meta cluster)) |> else ce_Meta cert) ->
     let new := cert <| ce_Meta := m |> <| ce_Owners := if wish_Owned (wish mode) then [ownerOf cluster] else [] |> in
     fresh h' new /\ settled (wish mode) new) ->
  wps (certificate_call at_ fresh wish) h (applyCertificate cluster getting what (wish mode) cert) (certificate_done at_ wish).
Proof.
  intros Hm Hk Hf. unfold applyCertificate. apply wps_call_bind. rewrite Hk. split; [done|]. intros r.
  set (h1 := h ++ _). assert (Hp : h `prefix_of` h1) by by apply prefix_app_r.
  assert (Hm1 : resolved h1 mode) by by eapply (grows (P := fun h => resolved h mode)).
  assert (Hin : got KCertificate at_ r ∈ h1) by apply elem_of_snoc. clearbody h1. destruct r as [old|e].
  - destruct (wished cluster (wish mode) old) as [[new b]|e] eqn:Ew; [|done].
    apply wished_spec in Ew as (Hs & Hsame & Hb). destruct b; cbn [negb].
    + rewrite wps_bindr. split.
      * exists mode, old. split_and!; try done. by intros ?%Hb.
      * intros [a|e]; simpl; [|done]. intros _. exists mode, new.
        split_and!; [by eapply (grows (P := fun h => resolved h mode)), prefix_app_r|done|]. right. left. eexists. apply elem_of_snoc.
    + intros _. exists mode, old. split_and!; [done|by apply Hb|by left].
  - destruct (IsNotFound e) eqn:En; cbn [negb]; [|done].
    assert (Habs : absent h1 KCertificate at_) by by exists e.
    assert (Hc : forall m, (if wish_Owned (wish mode) then SetControllerReference (cc_Meta cluster) (ce_Meta cert) else Ok (ce_Meta cert)) = Ok m ->
       m = (if wish_Owned (wish mode) then ce_Meta cert <| om_Controller := Some (om_UID (cc_Meta cluster)) |> else ce_Meta cert)).
    { intros m. destruct (wish_Owned (wish mode)); [apply SetControllerReference_spec|by intros [= <-]]. }
    destruct (if wish_Owned (wish mode) then SetControllerReference _ _ else _) as [m|e'] eqn:Es; [|done]. specialize (Hc m eq_refl).
    assert (Hkm : objectKey m = objectKey (ce_Meta cert)) by (rewrite Hc; by destruct (wish_Owned _)).
    destruct (Hf h1 m Hp Hkm Hc) as [Hfresh Hs]. rewrite wps_bindr. split.
    + split_and!; [done|by rewrite <- Hk|done].
    + intros [a|e2]; simpl; [|done]. intros _. eexists mode, _.
      split_and!; [by eapply (grows (P := fun h => resolved h mode)), prefix_app_r|exact Hs|]. right. right. eexists. apply elem_of_snoc.
Qed.

(** ** Leaves *)
Definition leafWish (duration : Z) (commonName : option string) (mode : IssuerMode) : certificateWish :=
  mkWish true duration commonName (Some (issuerRef cluster mode)).

(** A new leaf: of the cluster, with a Secret of its own, the common name and
    the names asked for, a private key that stays, and the issuer of the mode *)
Definition freshLeaf (secretName cn : string) (names usages : list string) (duration : Z) (commonName : option string)
    (h : history) (new : CertificateObject) : Prop :=
  exists mode, resolved h mode /\ settled (leafWish duration commonName mode) new /\
    ce_Owners new = [ownerOf cluster] /\ om_Controller (ce_Meta new) = Some (om_UID (cc_Meta cluster)) /\
    cs_SecretName (ce_Spec new) = secretName /\ cs_CommonName (ce_Spec new) = cn /\
    cs_DNSNames (ce_Spec new) = names /\ names <> [] /\ cs_IsCA (ce_Spec new) = false /\
    cs_Usages (ce_Spec new) = usages /\ cs_Duration (ce_Spec new) = Some duration /\
    cs_RenewBefore (ce_Spec new) = Some DefaultRenewBefore /\ cs_PrivateKey (ce_Spec new) = Some privateKey /\ cs_SecretLabels (ce_Spec new) = Some (om_Labels (ce_Meta new)).

Definition leaf_ok (certName secretName cn : string) (names usages : list string) (duration : Z)
    (commonName : option string) (p : action unit) : Prop :=
  let at_ := (cc_Namespace cluster, certName) in
  let wish := leafWish duration commonName in
  forall h, wps (certificate_call at_ (freshLeaf secretName cn names usages duration commonName) wish) h p (certificate_done at_ wish).

Lemma applyLeaf_ok what certName secretName cn names duration commonName usages labels :
  names <> [] -> (forall c, commonName = Some c -> cn = c) ->
  leaf_ok certName secretName cn names usages duration commonName
    (applyLeaf cluster what commonName (fun ref =>
       leafCertificate cluster certName secretName cn names ref duration usages labels) duration).
Proof.
  intros Hne Hcn h0. unfold applyLeaf. rewrite wps_bindr. apply resolve_wps; [|intros h mode _ Hm|done].
  - intros name (ic & _ & _ & <- & _)%specified_conf. done.
  - apply (applyCertificate_wps _ _ (leafWish duration commonName) h mode); [done|done|].
    intros h' m Hp _ -> new. assert (Hs : settled (leafWish duration commonName mode) new).
    { split_and!; simpl; [intros _; apply HasOwnerReference_own|by intros ? [= <-]|exact Hcn|by intros ? [= <-]]. }
    split; [|done]. exists mode. split_and!; try done. by eapply (grows (P := fun h => resolved h mode)).
Qed.

Lemma emptyNames_ok certName secretName cn names usages duration commonName p :
  (names <> [] -> leaf_ok certName secretName cn names usages duration commonName p) ->
  leaf_ok certName secretName cn names usages duration commonName (if bool_decide (names = []) then Ret (Err emptyNames) else p).
Proof. intros Hp. case_bool_decide as E; [done|by apply Hp]. Qed.

Lemma ApplyClusterCertificate_ok names :
  leaf_ok (ClusterCertificateName cluster) (ClusterCertificateName cluster) (cc_Name cluster +:+ "-postgres") names serverUsages
    (certDuration cluster tls_CertValidityDuration) None
    (ApplyClusterCertificate cluster names).
Proof. apply emptyNames_ok. intros Hne. by apply applyLeaf_ok. Qed.

(** C26: Each function that applies the Certificate of a leaf touches only that
    Certificate.  It creates it only where there was none, with the common name,
    the names and the usages asked for, never without a name, with its own
    Secret, owned by the cluster and of the issuer that was resolved.  It updates
    one only where it was read and was not as it has to be, and leaves it so that
    the next run changes nothing: the owner is replaced where it is not the
    cluster, a duration and the issuer are set, and nothing else changes, except
    that the Certificate of the pgBackRest client gets its common name, with that
    as its only DNS name.  It succeeds only when the Certificate was read as it
    has to be, or was created or updated so with success. *)
Theorem leaf_certificate_calls (dnsNames : list string) (instanceName : string) :
  let duration := certDuration cluster tls_CertValidityDuration in
  let backupDuration := certDuration cluster tls_PGBackRestCertValidityDuration in
  let forServers := ["server auth"; "client auth"; "digital signature"; "key encipherment"] in
  let forClients := ["client auth"; "digital signature"; "key encipherment"] in
  let forRepository := ["server auth"; "digital signature"; "key encipherment"] in
  let client := "pgbackrest@" +:+ om_UID (cc_Meta cluster) in
  leaf_ok (ClusterCertificateName cluster) (cc_Name cluster +:+ "-cluster-cert") (cc_Name cluster +:+ "-postgres")
    dnsNames forServers duration None
    (ApplyClusterCertificate cluster dnsNames) /\
  leaf_ok (instanceName +:+ "-cert") (instanceName +:+ "-certs") instanceName dnsNames forServers duration None
    (ApplyInstanceCertificate cluster instanceName dnsNames) /\
  leaf_ok (cc_Name cluster +:+ "-pgbouncer-cert") (cc_Name cluster +:+ "-pgbouncer-frontend-tls")
    (truncateForCommonName (cc_Name cluster) "-pgbouncer") dnsNames forServers duration None
    (ApplyPGBouncerCertificate cluster dnsNames) /\
  leaf_ok (ReplicationCertificateName cluster) (cc_Name cluster +:+ "-replication-cert") "_crunchyrepl"
    ["_crunchyrepl"] forClients duration None
    (ApplyReplicationCertificate cluster) /\
  leaf_ok (cc_Name cluster +:+ "-pgbackrest-client-cert") (cc_Name cluster +:+ "-pgbackrest-client-tls") client
    [client] forClients backupDuration (Some client) (ApplyPGBackRestClientCertificate cluster) /\
  leaf_ok (cc_Name cluster +:+ "-pgbackrest-repo-cert") (cc_Name cluster +:+ "-pgbackrest-repo-tls")
    (truncateForCommonName (cc_Name cluster) "-pgbackrest-repo") dnsNames forRepository backupDuration None
    (ApplyPGBackRestRepoCertificate cluster dnsNames).
Proof.
  split_and!; try (apply emptyNames_ok; intros Hne); try by apply applyLeaf_ok.
  - pose proof (app_assoc_str (cc_Name cluster) "-pgbouncer" "-frontend-tls") as E.
    change ("-pgbouncer" +:+ "-frontend-tls") with "-pgbouncer-frontend-tls" in E. rewrite <- E. by apply applyLeaf_ok.
  - apply applyLeaf_ok; [done|by intros ? [= <-]].
Qed.

(** ** The chain of issuers *)

(** What may be asked and written for the issuer that [ref] names, which
    issues as [how] says *)
Definition issuer_call (ref : IssuerMode -> IssuerReference) (how : IssuerMode -> IssuerConfig) (h : history) (o : op) : Prop :=
  match o with
  | Get KClusterIssuer at_ => fst at_ = ""
  | Get KIssuer at_ => fst at_ = cc_Namespace cluster
  | Create KClusterIssuer new =>
      let mode := IssuerModeManagedCluster in
      resolved h mode /\ absent h KClusterIssuer (objectKey (is_Meta new)) /\
      objectKey (is_Meta new) = ("", ir_Name (ref mode)) /\ ir_Kind (ref mode) = ClusterIssuerKind /\
      is_Config new = how mode /\ modeOf (Ok new) = Ok mode
  | Create KIssuer new =>
      let mode := IssuerModeManagedNamespaced in
      resolved h mode /\ absent h KIssuer (objectKey (is_Meta new)) /\
      objectKey (is_Meta new) = (cc_Namespace cluster, ir_Name (ref mode)) /\ ir_Kind (ref mode) = IssuerKind /\
      is_Config new = how mode /\ om_Controller (is_Meta new) = Some (om_UID (cc_Meta cluster))
  | Update KIssuer new =>
      let mode := IssuerModeManagedNamespaced in
      exists old, resolved h mode /\ read h KIssuer (cc_Namespace cluster, ir_Name (ref mode)) old /\
        HasOwnerReference (is_Owners old) cluster = Ok false /\ is_Owners new = [ownerOf cluster] /\
        is_Config new = is_Config old
  | _ => False
  end.

Lemma applyClusterIssuer_wps ref how h getting creating Q :
  resolved h IssuerModeManagedCluster -> ir_Kind (ref IssuerModeManagedCluster) = ClusterIssuerKind ->
  (forall h r, Q h r) ->
  wps (issuer_call ref how) h
    (applyClusterIssuer (ir_Name (ref IssuerModeManagedCluster)) getting creating (how IssuerModeManagedCluster)) Q.
Proof.
  intros Hm Hk HQ. unfold applyClusterIssuer. apply wps_call_bind. split; [done|]. intros [old|e]; [by apply HQ|].
  destruct (IsNotFound e) eqn:En; cbn [negb]; [|by apply HQ]. rewrite wps_bindr. split; [|intros [a|e']; by apply HQ].
  split_and!; try done.
  - by eapply (grows (P := fun h => resolved h _)), prefix_app_r.
  - exists e. split; [apply elem_of_snoc|done].
Qed.

Lemma applyNamespacedIssuer_wps ref how h m getting creating Q :
  resolved h IssuerModeManagedNamespaced -> ir_Kind (ref IssuerModeManagedNamespaced) = IssuerKind ->
  objectKey m = (cc_Namespace cluster, ir_Name (ref IssuerModeManagedNamespaced)) -> (forall h r, Q h r) ->
  wps (issuer_call ref how) h
    (applyNamespacedIssuer cluster m getting creating (how IssuerModeManagedNamespaced)) Q.
Proof.
  intros Hm Hk Hkey HQ. unfold applyNamespacedIssuer. apply wps_call_bind. rewrite Hkey. split; [done|]. intros r.
  assert (Hm1 : resolved (h ++ [got KIssuer (cc_Namespace cluster, ir_Name (ref IssuerModeManagedNamespaced)) r])
                  IssuerModeManagedNamespaced)
    by by eapply (grows (P := fun h => resolved h _)), prefix_app_r.
  destruct r as [old|e].
  - destruct (HasOwnerReference (is_Owners old) cluster) as [[]|e] eqn:Eo; [by apply HQ| |by apply HQ].
    rewrite wps_bindr. split; [|intros [a|e']; by apply HQ]. exists old. split_and!; try done. apply elem_of_snoc.
  - destruct (IsNotFound e) eqn:En; cbn [negb]; [|by apply HQ].
    destruct (SetControllerReference (cc_Meta cluster) m) as [m'|e'] eqn:Es; [|by apply HQ].
    apply SetControllerReference_spec in Es as ->. rewrite wps_bindr. split; [|intros [a|e']; by apply HQ].
    split_and!; try done. exists e. split; [|done]. unfold objectKey in *. simpl. rewrite Hkey. apply elem_of_snoc.
Qed.

(** What may be asked and written for the certificate of the root *)
Definition caWish (mode : IssuerMode) : certificateWish :=
  mkWish (negb (bool_decide (mode = IssuerModeManagedCluster))) (certDuration cluster tls_CAValidityDuration) None None.

Definition freshCA (mode : IssuerMode) (h : history) (new : CertificateObject) : Prop :=
  resolved h mode /\ mode <> IssuerModeExternal /\ settled (caWish mode) new /\
  cs_SecretName (ce_Spec new) = meta_Name (caSecret env cluster mode) /\ cs_IsCA (ce_Spec new) = true /\
  cs_IssuerRef (ce_Spec new) = caIssuerRef cluster mode /\ (ce_Owners new = [] <-> mode = IssuerModeManagedCluster).

Definition ca_call (h : history) (o : op) : Prop :=
  exists mode, certificate_call (AsObjectKey (caSecret env cluster mode)) (freshCA mode) caWish h o.

Lemma ApplyCAIssuer_wps h :
  wps (issuer_call (caIssuerRef cluster) (fun _ => SelfSigned)) h (ApplyCAIssuer cluster) (fun _ _ => True).
Proof.
  unfold ApplyCAIssuer. rewrite wps_bindr. apply resolve_wps; [done| |done]. intros h0 mode _ Hm. destruct mode; [| |done].
  - by apply (applyNamespacedIssuer_wps (caIssuerRef cluster) (fun _ => SelfSigned)).
  - by apply (applyClusterIssuer_wps (caIssuerRef cluster) (fun _ => SelfSigned)).
Qed.

Lemma ApplyCACertificate_wps h : wps ca_call h (ApplyCACertificate env cluster) (fun _ _ => True).
Proof.
  unfold ApplyCACertificate. rewrite wps_bindr. apply resolve_wps; [| |done].
  - intros name (ic & _ & _ & <- & _)%specified_conf. by exists IssuerModeManagedNamespaced.
  - intros h0 mode _ Hm. case_bool_decide as Hx; [done|].
    apply (wps_mono (certificate_call (AsObjectKey (caSecret env cluster mode)) (freshCA mode) caWish) _ _ _
      (certificate_done (AsObjectKey (caSecret env cluster mode)) caWish) _); [by intros; exists mode|done|].
    apply (applyCertificate_wps _ (freshCA mode) caWish h0 mode); [done|done|]. intros h' m Hp _ -> new.
    assert (Hs : settled (caWish mode) new).
    { split_and!; simpl; [|by intros ? [= <-]|done|done]. case_bool_decide; [done|]. intros _. apply HasOwnerReference_own. }
    split; [|done]. split_and!; try done; [by eapply (grows (P := fun h => resolved h mode))|].
    simpl. case_bool_decide; by split.
Qed.

Lemma ApplyIssuer_wps h :
  wps (issuer_call (issuerRef cluster) (fun mode => CA (meta_Name (caSecret env cluster mode)))) h
    (ApplyIssuer env cluster) (fun _ _ => True).
Proof.
  unfold ApplyIssuer. rewrite wps_bindr. apply resolve_wps; [done| |done]. intros h0 mode _ Hm. destruct mode; [| |done].
  - apply (applyNamespacedIssuer_wps (issuerRef cluster) (fun mode => CA (meta_Name (caSecret env cluster mode)))); try done.
    unfold metaOf. cbn [issuerRef ir_Name]. by destruct (nonempty (issuerConfName cluster)).
  - by apply (applyClusterIssuer_wps (issuerRef cluster) (fun mode => CA (meta_Name (caSecret env cluster mode)))).
Qed.

(** The issuers and the root form a chain, in each mode: the certificate
    of the root is of the self-signed issuer that is applied for it and goes
    into the Secret from which the issuer of the leaves issues, and the leaves
    name that issuer.  What is in the scope of the whole Kubernetes cluster has
    no owner, has the label that makes the next run take it for the operator's,
    and an existing one is never changed; with an issuer from outside nothing
    is written. *)
Theorem issuing_chain h :
  wps (issuer_call (caIssuerRef cluster) (fun _ => SelfSigned)) h (ApplyCAIssuer cluster) (fun _ _ => True) /\
  wps ca_call h (ApplyCACertificate env cluster) (fun _ _ => True) /\
  wps (issuer_call (issuerRef cluster) (fun mode => CA (meta_Name (caSecret env cluster mode)))) h
    (ApplyIssuer env cluster) (fun _ _ => True).
Proof. split_and!; [apply ApplyCAIssuer_wps|apply ApplyCACertificate_wps|apply ApplyIssuer_wps]. Qed.

(** An Issuer that somebody else made, and that the cluster names, becomes the
    cluster's: the references to its owners are replaced, and it goes away
    with the cluster. *)
Lemma foreign_issuer_taken_over name (old a : Issuer) :
  specifiedMode cluster = inl IssuerModeManagedNamespaced -> issuerConfName cluster = name -> nonempty name = true ->
  HasOwnerReference (is_Owners old) cluster = Ok false ->
  let new := old <| is_Owners := [ownerOf cluster] |>
                 <| is_Meta ::= fun m => m <| om_Controller := Some (om_UID (cc_Meta cluster)) |> |> in
  exec (ApplyIssuer env cluster)
    [got KIssuer (cc_Namespace cluster, name) (Ok old); Ev (Update KIssuer new : op) (Ok a : resp (Update KIssuer new))] (Ok tt).
Proof.
  intros Hm Hn Hne Ho new. unfold ApplyIssuer, ResolveIssuerMode. rewrite Hm. cbn [bindr bind]. rewrite Hn, Hne.
  unfold applyNamespacedIssuer. apply exec_call_bind. rewrite Ho. unfold bindr. by apply exec_call_bind.
Qed.
End CertManagerProperties.

(** ** A concrete implementation, for the examples *)
Module ConcreteCertManager.
#[local] Instance refersTo_dec cluster r : Decision (refersTo cluster r).
Proof. unfold refersTo. apply _. Defined.

Definition certManager : CertManager.
Proof.
  refine (Build_CertManager (fun l cluster => Ok (bool_decide (Exists (refersTo cluster) l))) (fun _ => None) _ _).
  - intros cluster. rewrite bool_decide_eq_true_2; [done|]. by constructor.
  - intros l cluster b [= <-]. apply bool_decide_eq_true.
Defined.
End ConcreteCertManager.

(** A common name is at most as long as a certificate allows, and keeps its
    suffix. *)
Lemma truncateForCommonName_length clusterName suffix : (String.length suffix <= maxCommonNameLength)%nat ->
  (String.length (truncateForCommonName clusterName suffix) <= maxCommonNameLength)%nat /\
  exists prefix, truncateForCommonName clusterName suffix = prefix +:+ suffix.
Proof.
  intros Hs. unfold truncateForCommonName. split; [|by eexists]. rewrite length_app_str. case_bool_decide as E; [|lia].
  enough (String.length (String.substring 0 (maxCommonNameLength - String.length suffix) clusterName) <=
          maxCommonNameLength - String.length suffix)%nat by lia.
  generalize (maxCommonNameLength - String.length suffix)%nat as n. clear. intros n. revert n.
  induction clusterName as [|c s IH]; intros [|n]; simpl; try lia. specialize (IH n). lia.
Qed.
