(* ===== verification/PgBouncer.v ===== *)
(** * PgBouncer: its configuration and its objects in PostgreSQL

    [internal/pgbouncer]: [config.go] (the settings, the user database, the HBA
    file), [certificates.go] (the projections of certificates), [postgres.go]
    (the function through which PgBouncer reads passwords) and the ConfigMap of
    [reconcile.go].  The Secret and the controller are in PgBouncerControl.v. *)
From S2P Require Import Prelude GoStrings Ini HBA Cluster Patroni Prog Errors Naming Objects Client Psql ObservedInstances.

(** ** Names of files and keys *)
Definition configDirectory : string := "/etc/pgbouncer".
Definition authFileProjectionPath : string := "~postgres-operator/users.txt".
Definition emptyFileProjectionPath : string := "pgbouncer.ini".
Definition iniFileProjectionPath : string := "~postgres-operator.ini".
Definition hbaFileProjectionPath : string := "~postgres-operator/pgbouncer_hba.conf".
Definition inConfigDirectory (path : string) : string := configDirectory +:+ "/" +:+ path.
Definition authFileAbsolutePath : string := inConfigDirectory authFileProjectionPath.
Definition emptyFileAbsolutePath : string := inConfigDirectory emptyFileProjectionPath.
Definition iniFileAbsolutePath : string := inConfigDirectory iniFileProjectionPath.
Definition hbaFileAbsolutePath : string := inConfigDirectory hbaFileProjectionPath.

Definition certBackendAuthorityProjectionPath : string := "~postgres-operator/backend-ca.crt".
Definition certFrontendAuthorityProjectionPath : string := "~postgres-operator/frontend-ca.crt".
Definition certFrontendPrivateKeyProjectionPath : string := "~postgres-operator/frontend-tls.key".
Definition certFrontendProjectionPath : string := "~postgres-operator/frontend-tls.crt".
Definition certBackendAuthorityAbsolutePath : string := inConfigDirectory certBackendAuthorityProjectionPath.
Definition certFrontendAuthorityAbsolutePath : string := inConfigDirectory certFrontendAuthorityProjectionPath.
Definition certFrontendPrivateKeyAbsolutePath : string := inConfigDirectory certFrontendPrivateKeyProjectionPath.
Definition certFrontendAbsolutePath : string := inConfigDirectory certFrontendProjectionPath.

Definition tlsAuthoritySecretKey : string := "ca.crt".
Definition tlsCertificateSecretKey : string := "tls.crt".
Definition tlsPrivateKeySecretKey : string := "tls.key".
Definition CertFrontendAuthoritySecretKey : string := "pgbouncer-frontend.ca-roots".
Definition CertFrontendPrivateKeySecretKey : string := "pgbouncer-frontend.key".
Definition CertFrontendSecretKey : string := "pgbouncer-frontend.crt".

Definition authFileSecretKey : string := "pgbouncer-users.txt".
Definition passwordSecretKey : string := "pgbouncer-password".
Definition verifierSecretKey : string := "pgbouncer-verifier".
Definition AdminPasswordSecretKey : string := "pgbouncer-admin-password".
Definition emptyConfigMapKey : string := "pgbouncer-empty".
Definition iniFileConfigMapKey : string := "pgbouncer.ini".
Definition hbaFileConfigMapKey : string := "pgbouncer-hba.conf".
Definition pausedConfigMapKey : string := "pgbouncer-paused".
Definition pausedFileProjectionPath : string := "pgbouncer-paused".
Definition AdminUser : string := "_crunchypgbounceradmin".
Definition PausedValue : string := "1".
Definition adminUsersSetting : string := "admin_users".
Definition postgresqlSchema : string := "pgbouncer".
Definition postgresqlUser : string := pgbouncer_postgresqlUser.

Definition iniGeneratedWarning : string :=
  "# Generated by postgres-operator. DO NOT EDIT UNLESS YOU KNOW WHAT YOU'RE DOING." +:+ char newline +:+
  "# If you want to override the config, annotate this ConfigMap with " +:+ OverrideConfigAnnotation +:+ "=true" +:+
  char newline.

(** ** The user database *)

(** [quote] of [authFileContents] *)
Definition quote_field : string -> string := HBA.quote.

Definition auth_line (user password : string) : string := quote_field user +:+ " " +:+ quote_field password +:+ char newline.

Definition reserved (adminPassword name : string) : bool :=
  bool_decide (name = postgresqlUser) || bool_decide (name = logicalreplica_ReplicationUser) ||
  (nonempty adminPassword && bool_decide (name = AdminUser)).

Definition has_newline (s : string) : bool :=
  negb (all_chars (fun c => negb (bool_decide (c = "013"%char)) && negb (bool_decide (c = newline))) s).

(** The loop over the user Secret, whose entries Go visits in any order. *)
Fixpoint copyUsers (adminPassword secretName : string) (data : gmap string string) (order : list string)
    (users : gmap string string) : result (gmap string string) :=
  match order with
  | [] => Ok users
  | name :: order =>
      let password := default "" (data !! name) in
      if reserved adminPassword name
      then Err (New ("pgbouncer user " +:+ Quote name +:+ " in Secret " +:+ Quote secretName +:+
                     " conflicts with the reserved operator user"))
      else if has_newline password
      then Err (New ("pgbouncer user " +:+ Quote name +:+ " in Secret " +:+ Quote secretName +:+ " contains a newline"))
      else copyUsers adminPassword secretName data order (<[name := password]> users)
  end.

(** [authFileContents]; the user Secret may be absent. *)
Definition authFileContents (password adminPassword : string) (userSecret : option (string * gmap string string))
    (order : list string) : result string :=
  let users := match userSecret with
               | None => Ok ∅
               | Some (secretName, data) => copyUsers adminPassword secretName data order ∅
               end in
  match users with
  | Err e => Err e
  | Ok users =>
      Ok (auth_line postgresqlUser password +:+
          (if nonempty adminPassword then auth_line AdminUser adminPassword else "") +:+
          Concat (map (fun name => auth_line name (default "" (users !! name))) (SortedKeys users)))
  end.

(** ** Settings *)

(** [ensureListed]: an entry that is there already, or nothing but space and
    commas, in a list with commas *)
Fixpoint listed (user : string) (entries : list string) (empty : bool) : bool * bool :=
  match entries with
  | [] => (false, empty)
  | entry :: entries =>
      let entry := TrimSpace entry in
      if bool_decide (entry = user) then (true, empty)
      else listed user entries (empty && negb (nonempty entry))
  end.

Definition ensureListed (list user : string) : string :=
  match listed user (Split list ",") true with
  | (true, _) => list
  | (false, true) => user
  | (false, false) => list +:+ "," +:+ user
  end.

Definition isLDAP (r : PostgresAuthenticationRule) : bool := bool_decide (rule_Method (rule r) = "ldap").

Definition hasLDAPRules (cluster : PostgresCluster) : bool :=
  match pc_Authentication cluster with None => false | Some rules => existsb isLDAP rules end.

Section HBAFile.
Context (unicode_LN : string -> bool).

(** The record for a rule without a text of its own. *)
Definition ldapRecord (r : PostgresHBARule) : HostBasedAuthentication :=
  let hba := if bool_decide (Connection r = "hostssl") then TLS NewHBA
             else if bool_decide (Connection r = "hostnossl") then NoSSL NewHBA
             else if bool_decide (Connection r = "local") then Local NewHBA
             else TCP NewHBA in
  let hba := Method (rule_Method r) hba in
  let hba := match rule_Databases r with [] => hba | d :: ds => Databases unicode_LN d ds hba end in
  let hba := match rule_Users r with [] => hba | u :: us => Users unicode_LN u us hba end in
  if bool_decide (rule_Options r = ∅) then hba else Options (rule_Options r) hba.

Definition hbaLine (r : PostgresAuthenticationRule) : option string :=
  if nonempty (rule_HBA r) then (if isLDAP r then Some (rule_HBA r) else None)
  else if isLDAP r then Some (hba_string (ldapRecord (rule r))) else None.

Definition pgbouncerHBAFileContents (cluster : PostgresCluster) : string :=
  let lines := match pc_Authentication cluster with Some rules => omap hbaLine rules | None => [] end in
  Join (lines ++ ["host all all all scram-sha-256"]) (char newline) +:+ char newline.
End HBAFile.

(** [cluster.Spec.Proxy.PGBouncer] *)
Definition pgBouncer (cluster : PostgresCluster) : option PGBouncerPodSpec :=
  p ← pc_Proxy cluster; proxy_PGBouncer p.

Section Settings.
Context `{GoVersion}.

Definition defaultSettings (cluster : PostgresCluster) (pgBouncerPort : Z) : iniValueSet :=
  let global : iniValueSet := {[
    "ignore_startup_parameters" := "extra_float_digits";
    "auth_file" := authFileAbsolutePath;
    "auth_query" := "SELECT username, password from pgbouncer.get_auth($1)";
    "auth_user" := postgresqlUser;
    "client_tls_sslmode" := "require";
    "client_tls_cert_file" := certFrontendAbsolutePath;
    "client_tls_key_file" := certFrontendPrivateKeyAbsolutePath;
    "client_tls_ca_file" := certFrontendAuthorityAbsolutePath;
    "listen_addr" := "*";
    "listen_port" := pretty pgBouncerPort;
    "server_tls_sslmode" := "verify-full";
    "server_tls_ca_file" := certBackendAuthorityAbsolutePath;
    "unix_socket_dir" := ""]} in
  let global := if hasLDAPRules cluster
                then <["auth_hba_file" := hbaFileAbsolutePath]> (<["auth_type" := "hba"]> global) else global in
  if bool_decide (0 <= CompareVersion cluster "3.1.0")%Z then <[adminUsersSetting := AdminUser]> global else global.

(** [maps.Copy(global, specified)], and what the user cannot change *)
Definition globalSettings (cluster : PostgresCluster) (pgBouncerPort : Z) (specified : iniValueSet) : iniValueSet :=
  let global : iniValueSet := specified ∪ defaultSettings cluster pgBouncerPort in
  let global : iniValueSet :=
    if bool_decide (0 <= CompareVersion cluster "3.1.0")%Z
    then <[adminUsersSetting := ensureListed (default "" (global !! adminUsersSetting)) AdminUser]> global else global in
  <["conffile" := iniFileAbsolutePath]> global.

Definition databaseSettings (cluster : PostgresCluster) (postgresPort : Z) (specified : iniValueSet) : iniValueSet :=
  if bool_decide (specified = ∅)
  then {["*" := "host=" +:+ meta_Name (ClusterPrimaryService cluster) +:+ " port=" +:+ pretty postgresPort]}
  else specified.

(** [clusterINI]; [None] is a nil dereference: the API has defaults for ports. *)
Definition clusterINI (c : CrunchyCluster) : option string :=
  let cluster := config c in
  b ← pgBouncer cluster;
  pgBouncerPort ← pgb_Port b;
  postgresPort ← cc_Port c;
  let global := globalSettings cluster pgBouncerPort (pgc_Global (pgb_Config b)) in
  let databases := databaseSettings cluster postgresPort (pgc_Databases (pgb_Config b)) in
  let users := pgc_Users (pgb_Config b) in
  Some (iniGeneratedWarning +:+
        char newline +:+ "[pgbouncer]" +:+
        char newline +:+ "%include " +:+ emptyFileAbsolutePath +:+
        char newline +:+ char newline +:+ "[pgbouncer]" +:+ char newline +:+ valueSet_String global +:+
        char newline +:+ "[databases]" +:+ char newline +:+ valueSet_String databases +:+
        (if bool_decide (users = ∅) then "" else char newline +:+ "[users]" +:+ char newline +:+ valueSet_String users)).

(** ** The ConfigMap: the data after, from the data before *)
Definition ConfigMap (unicode_LN : string -> bool) (c : CrunchyCluster) (data : gmap string string)
    : option (gmap string string) :=
  let cluster := config c in
  if negb (PGBouncerEnabled (pc_Proxy cluster)) then Some data
  else
    ini ← clusterINI c;
    let data := <[iniFileConfigMapKey := ini]> (<[emptyConfigMapKey := ""]> data) in
    let data := if hasLDAPRules cluster
                then <[hbaFileConfigMapKey := pgbouncerHBAFileContents unicode_LN cluster]> data
                else delete hbaFileConfigMapKey data in
    Some (if bool_decide (0 <= CompareVersion cluster "3.1.0")%Z && PGBouncerPaused (pc_Proxy cluster)
          then <[pausedConfigMapKey := PausedValue]> data else delete pausedConfigMapKey data).
End Settings.

(** ** Files in the container *)
Definition item (key path : string) : string * string := (key, path).

Definition oneFile (name key path : string) : Projection := mkFileProjection name [item key path] None.

Section Files.
Context `{GoVersion}.

(** [podConfigFiles], from the ConfigMap and the name of the Secret *)
Definition podConfigFiles (cluster : PostgresCluster) (files : list FileSource) (configmap : string)
    (data : gmap string string) (secret : string) : list FileSource :=
  [ConfigMapFiles (oneFile configmap emptyConfigMapKey emptyFileProjectionPath)] ++ files ++
  [ConfigMapFiles (oneFile configmap iniFileConfigMapKey iniFileProjectionPath);
   SecretFiles (oneFile secret authFileSecretKey authFileProjectionPath)] ++
  (if bool_decide (0 <= CompareVersion cluster "3.1.0")%Z
   then [ConfigMapFiles (mkFileProjection configmap [item pausedConfigMapKey pausedFileProjectionPath] (Some true))]
   else []) ++
  (if bool_decide (is_Some (data !! hbaFileConfigMapKey))
   then [ConfigMapFiles (oneFile configmap hbaFileConfigMapKey hbaFileProjectionPath)] else []).

(** [backendAuthority] *)
Definition backendAuthority (postgres : Projection) : FileSource :=
  let items := omap (fun i => if bool_decide (snd i = tlsAuthoritySecretKey)
                              then Some (item (fst i) certBackendAuthorityProjectionPath) else None) (prj_Items postgres) in
  SecretFiles (mkFileProjection (prj_Name postgres)
    (if bool_decide (items = []) then [item tlsAuthoritySecretKey certBackendAuthorityProjectionPath] else items)
    (prj_Optional postgres)).

Definition CustomTLSAuthorityKey (p : Projection) : string :=
  match List.find (fun i => bool_decide (snd i = tlsAuthoritySecretKey)) (prj_Items p) with
  | Some i => fst i
  | None => tlsAuthoritySecretKey
  end.

(** What an item of the custom projection is mounted as. *)
Definition customItem (additionalCAs : bool) (i : string * string) : option (string * string) :=
  if bool_decide (snd i = tlsAuthoritySecretKey) then
    (if additionalCAs then None else Some (item (fst i) certFrontendAuthorityProjectionPath))
  else if bool_decide (snd i = tlsCertificateSecretKey) then Some (item (fst i) certFrontendProjectionPath)
  else if bool_decide (snd i = tlsPrivateKeySecretKey) then Some (item (fst i) certFrontendPrivateKeyProjectionPath)
  else None.

(** [frontendCertificate]; [secret] is the name of the operator's Secret *)
Definition frontendCertificate (custom : option Projection) (secret : string) (additionalCAs : bool) : list FileSource :=
  match custom with
  | None =>
      [SecretFiles (mkFileProjection secret
         [item CertFrontendAuthoritySecretKey certFrontendAuthorityProjectionPath;
          item CertFrontendPrivateKeySecretKey certFrontendPrivateKeyProjectionPath;
          item CertFrontendSecretKey certFrontendProjectionPath] None)]
  | Some custom =>
      let items := omap (customItem additionalCAs) (prj_Items custom) in
      let items := if bool_decide (items = [])
                   then (if additionalCAs then [] else [item tlsAuthoritySecretKey certFrontendAuthorityProjectionPath]) ++
                        [item tlsPrivateKeySecretKey certFrontendPrivateKeyProjectionPath;
                         item tlsCertificateSecretKey certFrontendProjectionPath]
                   else items in
      SecretFiles (mkFileProjection (prj_Name custom) items (prj_Optional custom)) ::
      (if additionalCAs
       then [SecretFiles (oneFile secret CertFrontendAuthoritySecretKey certFrontendAuthorityProjectionPath)] else [])
  end.

(** The sources of the configuration volume, in [Pod] *)
Definition configSources (c : CrunchyCluster) (b : PGBouncerPodSpec) (configmap : string) (data : gmap string string)
    (secret : string) (postgres : Projection) : list FileSource :=
  podConfigFiles (config c) (pgc_Files (pgb_Config b)) configmap data secret ++
  frontendCertificate (pgb_CustomTLSSecret b) secret (negb (bool_decide (pgb_AdditionalTrustedCAs b = []))) ++
  [backendAuthority postgres] ++
  (if hasLDAPRules (config c) then cc_ConfigFiles c else []).
End Files.

(** ** Objects in PostgreSQL: [postgres.go] *)
Definition canLogin : string := "pg_authid.rolcanlogin".
Definition notSuper : string := "NOT pg_authid.rolsuper".
Definition notReplicator : string := "NOT pg_authid.rolreplication".
Definition notReplicatorOrPostgres : string :=
  "(NOT pg_authid.rolreplication OR pg_authid.rolname = 'postgres')".
Definition notPgBouncer : string := "pg_authid.rolname <> " +:+ QuoteLiteral postgresqlUser.
Definition notExpired : string :=
  "(pg_authid.rolvaliduntil IS NULL OR pg_authid.rolvaliduntil >= CURRENT_TIMESTAMP)".

Definition authConditions (exposeSuperusers : bool) : list string :=
  let conditions := [canLogin; notSuper; notReplicator; notPgBouncer; notExpired] in
  if exposeSuperusers then
    let conditions := <[2 := notReplicatorOrPostgres]> conditions in
    take 1 conditions ++ drop 2 conditions
  else conditions.

(** The body of the function *)
Definition authBody (exposeSuperusers : bool) : string :=
  "
  SELECT rolname::TEXT, rolpassword::TEXT
  FROM pg_catalog.pg_authid
  WHERE pg_authid.rolname = $1
    AND " +:+ Join (authConditions exposeSuperusers) (char newline +:+ "    AND ").

Definition authHeader (sqlFunctionName : string) : string :=
  "
CREATE OR REPLACE FUNCTION " +:+ sqlFunctionName +:+ "(username TEXT)
RETURNS TABLE(username TEXT, password TEXT) AS ".

Definition authFooter : string := "
LANGUAGE SQL STABLE SECURITY DEFINER;".

Definition sqlAuthenticationQuery (sqlFunctionName : string) (exposeSuperusers : bool) : string :=
  TrimSpace (authHeader sqlFunctionName +:+ QuoteLiteral (authBody exposeSuperusers) +:+ authFooter).

Definition sqlVariables : gmap string string :=
  {["username" := postgresqlUser; "namespace" := postgresqlSchema; "ON_ERROR_STOP" := "on"; "QUIET" := "on"]}.

(** [DisableInPostgreSQL] *)
Definition disableScript : string :=
  Join ["SET client_min_messages = WARNING;";
        "BEGIN;";
        sh "DROP FUNCTION IF EXISTS :`namespace`.get_auth(username TEXT);";
        sh "DROP SCHEMA IF EXISTS :`namespace` CASCADE;";
        TrimSpace "
SELECT pg_catalog.format('DROP OWNED BY %I CASCADE', :'username')
 WHERE EXISTS (SELECT 1 FROM pg_catalog.pg_roles WHERE rolname = :'username')
\gexec";
        "COMMIT;"] (char newline).

Definition DisableInPostgreSQL (exec : Executor) : program (option error) :=
  let! out := ExecInAllDatabases exec disableScript sqlVariables in
  match out_Err out with
  | Some e => Ret (Some e)
  | None =>
      let! out := ExecInDatabasesFromQuery exec "SELECT pg_catalog.current_database()"
        (sh "SET client_min_messages = WARNING; DROP ROLE IF EXISTS :`username`;") sqlVariables in
      Ret (out_Err out)
  end.

(** [EnableInPostgreSQL], from the verifier in the cluster's Secret *)
Definition enableScript (exposeSuperusers : bool) : string :=
  Join ["SET client_min_messages = WARNING;";
        "BEGIN;";
        TrimSpace "
SELECT pg_catalog.format('CREATE ROLE %I NOLOGIN', :'username')
 WHERE NOT EXISTS (SELECT 1 FROM pg_catalog.pg_roles WHERE rolname = :'username')
\gexec";
        TrimSpace "
SELECT pg_catalog.format('REVOKE ALL PRIVILEGES ON SCHEMA %I FROM %I', nspname, :'username')
  FROM pg_catalog.pg_namespace
 WHERE pg_catalog.has_schema_privilege(:'username', oid, 'CREATE, USAGE')
   AND nspname NOT IN ('pg_catalog', :'namespace')
\gexec";
        TrimSpace (sh "
CREATE SCHEMA IF NOT EXISTS :`namespace`;
REVOKE ALL PRIVILEGES
    ON SCHEMA :`namespace` FROM PUBLIC, :`username`;
 GRANT USAGE
    ON SCHEMA :`namespace` TO :`username`;");
        sqlAuthenticationQuery (sh ":`namespace`.get_auth") exposeSuperusers;
        TrimSpace (sh "
REVOKE ALL PRIVILEGES
    ON FUNCTION :`namespace`.get_auth(username TEXT) FROM PUBLIC, :`username`;
 GRANT EXECUTE
    ON FUNCTION :`namespace`.get_auth(username TEXT) TO :`username`;");
        sh "ALTER ROLE :`username` SET search_path TO :'namespace';";
        sh "ALTER ROLE :`username` LOGIN PASSWORD :'verifier';";
        "COMMIT;"] (char newline).

Definition EnableInPostgreSQL (exec : Executor) (verifier : string) (exposeSuperusers : bool) : program (option error) :=
  let! out := ExecInAllDatabases exec (enableScript exposeSuperusers) (<["verifier" := verifier]> sqlVariables) in
  Ret (out_Err out).

(** ** Reading the user database

    The documented format: two fields in double quotes, in which a doubled quote
    stands for a quote; empty lines do not matter. *)
Definition read_entry (s : string) : option (string * string) :=
  match s with
  | String q s =>
      guard (q = dquote);;
      '(user, s) ← lex_body dquote s;
      match s with
      | String sp (String q s) =>
          guard (sp = " "%char /\ q = dquote);;
          '(password, s) ← lex_body dquote s;
          guard (s = EmptyString);;
          Some (user, password)
      | _ => None
      end
  | EmptyString => None
  end.

Definition read_auth_file (s : string) : option (list (string * string)) :=
  mapM read_entry (List.filter nonempty (Split s newline)).

Definition auth_entry (e : string * string) : string := quote_field (fst e) +:+ " " +:+ quote_field (snd e).

Lemma lex_quoted v rest : first_not (fun c => bool_decide (c = dquote)) rest = true ->
  HBA.quote v +:+ rest = String dquote (ReplaceAll dquote (char dquote +:+ char dquote) v +:+ char dquote +:+ rest) /\
  lex_body dquote (ReplaceAll dquote (char dquote +:+ char dquote) v +:+ char dquote +:+ rest) = Some (v, rest).
Proof. intros Hr. split; [unfold HBA.quote; by str_norm|by apply lex_body_quoted]. Qed.

Lemma read_auth_entry e : read_entry (auth_entry e) = Some e.
Proof.
  destruct e as [user password]. unfold auth_entry, quote_field. cbn [fst snd].
  rewrite <- (app_nil_r_str (HBA.quote password)).
  destruct (lex_quoted password "") as [E2 L2]; [done|]. rewrite E2.
  set (t := ReplaceAll dquote (char dquote +:+ char dquote) password +:+ char dquote +:+ "") in *.
  change (" " +:+ String dquote t) with (String " " (String dquote t)).
  destruct (lex_quoted user (String " " (String dquote t))) as [E1 L1]; [done|]. rewrite E1.
  cbn [read_entry]. rewrite option_guard_True by done. rewrite L1. cbn [mbind option_bind].
  rewrite option_guard_True by done. rewrite L2. cbn [mbind option_bind]. by rewrite option_guard_True.
Qed.

Definition one_line (s : string) : bool := all_chars line_char s.

Lemma one_line_quote s : one_line s = true -> one_line (HBA.quote s) = true.
Proof.
  intros Hs. unfold one_line, HBA.quote. rewrite !all_chars_app. cbn [all_chars char].
  assert (Hb : all_chars line_char (ReplaceAll dquote (char dquote +:+ char dquote) s) = true).
  { clear -Hs. induction s as [|c s IH]; [done|]. apply andb_true_iff in Hs as [Hc Hs].
    unfold ReplaceAll. cbn [bind_string]. rewrite all_chars_app. apply andb_true_iff. split; [|by apply IH].
    case_decide; [done|]. simpl. by rewrite Hc. }
  by rewrite Hb.
Qed.

Lemma read_auth_lines (entries : list (string * string)) :
  Forall (fun e => one_line (fst e) = true /\ one_line (snd e) = true) entries ->
  read_auth_file (Lines (map auth_entry entries)) = Some entries.
Proof.
  intros Hf. unfold read_auth_file. rewrite <- (app_nil_r_str (Lines _)). rewrite Split_Lines.
  - rewrite List.filter_app. cbn [Split List.filter nonempty]. rewrite app_nil_r.
    clear Hf. induction entries as [|e entries IH]; [done|]. cbn [map List.filter].
    replace (nonempty (auth_entry e)) with true by (unfold auth_entry, quote_field, HBA.quote; by str_norm).
    cbn [mapM]. by rewrite read_auth_entry, IH.
  - apply Forall_map. eapply Forall_impl; [exact Hf|]. intros [u p] [Hu Hp]. unfold auth_entry, quote_field.
    cbn [fst snd] in *. rewrite !all_chars_app. change (all_chars line_char) with one_line.
    by rewrite !one_line_quote.
Qed.

Lemma copyUsers_spec adminPassword secretName data order users :
  match copyUsers adminPassword secretName data order users with
  | Ok users' =>
      Forall (fun k => reserved adminPassword k = false /\ has_newline (default "" (data !! k)) = false) order /\
      forall k, users' !! k = if decide (k ∈ order) then Some (default "" (data !! k)) else users !! k
  | Err _ => Exists (fun k => reserved adminPassword k = true \/ has_newline (default "" (data !! k)) = true) order
  end.
Proof.
  revert users. induction order as [|name order IH]; intros users; cbn [copyUsers].
  - split; [done|]. intros k. by rewrite decide_False by apply not_elem_of_nil.
  - cbv zeta. destruct (reserved adminPassword name) eqn:Hr; [by left; left|].
    destruct (has_newline _) eqn:Hn; [by left; right|].
    specialize (IH (<[name := default "" (data !! name)]> users)).
    destruct (copyUsers _ _ _ order _) as [users'|e]; [|by right].
    destruct IH as [Hf Hu]. split; [by constructor|]. intros k. rewrite Hu.
    destruct (decide (k = name)) as [->|Hk].
    + rewrite lookup_insert_eq. rewrite (decide_True (P := name ∈ name :: order)) by left. by case_decide.
    + rewrite lookup_insert_ne by done. apply decide_ext. rewrite elem_of_cons. naive_solver.
Qed.

Lemma has_newline_one_line s : has_newline s = false -> one_line s = true.
Proof.
  unfold has_newline. intros Hs%negb_false_iff. eapply all_chars_impl; [|exact Hs]. by intros c [_ ?]%andb_true_iff.
Qed.

(** The users of the operator: PgBouncer itself, and its administrator. *)
Definition operatorUsers (password adminPassword : string) : list (string * string) :=
  (postgresqlUser, password) :: (if nonempty adminPassword then [(AdminUser, adminPassword)] else []).

Lemma authFileContents_lines password adminPassword users :
  auth_line postgresqlUser password +:+
  (if nonempty adminPassword then auth_line AdminUser adminPassword else "") +:+
  Concat (map (fun name => auth_line name (default "" (users !! name))) (SortedKeys users)) =
  Lines (map auth_entry (operatorUsers password adminPassword ++
    map (fun name => (name, default "" (users !! name))) (SortedKeys users))).
Proof.
  assert (Hl : forall u p, auth_line u p = Lines (map auth_entry [(u, p)])).
  { intros u p. unfold Lines, auth_line, auth_entry. simpl. by rewrite app_nil_r_str, !app_assoc_str. }
  rewrite map_app, Lines_app. unfold operatorUsers. cbn [map].
  change (auth_entry (postgresqlUser, password) :: ?l) with ([auth_entry (postgresqlUser, password)] ++ l).
  rewrite Lines_app, app_assoc_str. rewrite (Hl postgresqlUser). f_equal. f_equal.
  - by destruct (nonempty adminPassword).
  - unfold Lines. rewrite !map_map. f_equal. apply map_ext. intros n. unfold auth_line, auth_entry. by rewrite !app_assoc_str.
Qed.

(** C28: The user database reads back as the operator's users with the
    operator's passwords, followed by the users of the user Secret in
    alphabetical order, whatever the passwords contain and in whatever order
    the Secret is visited; no name occurs twice, so no user replaces one of
    the operator's.  It is refused exactly when the Secret has one of their
    names or a password with a line break. *)
Theorem auth_file_reads_back password adminPassword secretName (data : gmap string string) order :
  order ≡ₚ keys data -> one_line password = true -> one_line adminPassword = true ->
  (forall name, is_Some (data !! name) -> one_line name = true) ->
  let accepted := forall name p, data !! name = Some p -> reserved adminPassword name = false /\ has_newline p = false in
  let entries := operatorUsers password adminPassword ++ map (fun n => (n, default "" (data !! n))) (SortedKeys data) in
  match authFileContents password adminPassword (Some (secretName, data)) order with
  | Ok text => accepted /\ read_auth_file text = Some entries /\ NoDup entries.*1
  | Err _ => ~ accepted
  end.
Proof.
  intros Ho Hp Ha Hk accepted entries. unfold authFileContents.
  pose proof (copyUsers_spec adminPassword secretName data order ∅) as Hc.
  assert (Hin : forall k, k ∈ order <-> is_Some (data !! k)) by (intros k; rewrite Ho; apply elem_of_keys).
  destruct (copyUsers _ _ _ _ _) as [users|e]; cbv zeta iota beta.
  - destruct Hc as [Hf Hu].
    assert (Hdata : users = data).
    { apply map_eq. intros k. rewrite Hu. destruct (data !! k) as [v|] eqn:E.
      - rewrite decide_True; [done|]. apply Hin. by rewrite E.
      - rewrite decide_False; [done|]. rewrite Hin, E. by intros [? ?]. }
    subst users.
    assert (Hacc : accepted).
    { intros name p Hn. rewrite List.Forall_forall in Hf.
      specialize (Hf name). rewrite Hn in Hf. apply Hf, list_elem_of_In, Hin. by rewrite Hn. }
    rewrite authFileContents_lines. fold entries. split_and!; [done| |].
    + apply read_auth_lines. apply Forall_app. split.
      { unfold operatorUsers. constructor; [done|]. destruct (nonempty adminPassword); [by constructor|constructor]. }
      apply Forall_map, Forall_forall. intros name Hn%elem_of_SortedKeys. split; [by apply Hk|].
      destruct Hn as [p Hn]. cbn [snd]. rewrite Hn. apply has_newline_one_line. by eapply Hacc.
    + unfold entries. rewrite fmap_app. change (fmap fst ?l) with (map (@fst string string) l) at 2.
      rewrite map_map. cbn [fst]. rewrite map_id. apply NoDup_app. split_and!.
      * unfold operatorUsers. destruct (nonempty adminPassword); (apply (bool_decide_eq_true_1 _); by vm_compute).
      * intros n Hn [v Hv]%elem_of_SortedKeys. destruct (Hacc _ _ Hv) as [Hr _]. unfold reserved in Hr.
        apply orb_false_iff in Hr as [[Hr1 _]%orb_false_iff Hr2]. unfold operatorUsers in Hn.
        apply bool_decide_eq_false in Hr1. destruct (nonempty adminPassword); cbn in Hn; cbn [andb] in Hr2;
          try apply bool_decide_eq_false in Hr2; set_solver.
      * apply NoDup_SortedKeys.
  - intros Hacc. rewrite List.Exists_exists in Hc. destruct Hc as (k & Hkin & Hbad).
    apply list_elem_of_In, Hin in Hkin as [v Hv]. destruct (Hacc _ _ Hv) as [H1 H2]. rewrite Hv in Hbad. change (default "" (Some v)) with v in Hbad.
    destruct Hbad as [Hb|Hb]; congruence.
Qed.

(** ** Lists with commas *)

(** The entries of a list, as PgBouncer reads them. *)
Definition entries_of (text : string) : list string := List.filter nonempty (map TrimSpace (Split text ",")).

Lemma listed_spec user es empty :
  (user ∈ map TrimSpace es -> (listed user es empty).1 = true) /\
  (user ∉ map TrimSpace es ->
   listed user es empty = (false, empty && bool_decide (List.filter nonempty (map TrimSpace es) = []))).
Proof.
  revert empty. induction es as [|e es IH]; intros empty.
  - split; [by intros ?%elem_of_nil|]. intros _. simpl. by rewrite andb_true_r.
  - cbn [listed map List.filter]. cbv zeta. rewrite elem_of_cons.
    destruct (IH (empty && negb (nonempty (TrimSpace e)))) as [IH1 IH2].
    destruct (decide (TrimSpace e = user)) as [He|He];
      [rewrite bool_decide_eq_true_2 by done; split; [done|]; intros Hu; destruct Hu; by left|].
    rewrite (bool_decide_eq_false_2 (TrimSpace e = user)) by done.
    split; [intros [Hu|Hu]; [by destruct He|by apply IH1]|].
    intros Hu. rewrite IH2 by tauto. destruct (nonempty (TrimSpace e)); simpl; [by rewrite andb_false_r|by rewrite andb_true_r].
Qed.

Lemma Split_user user : word user = true -> all_chars (fun c => negb (bool_decide (c = ","%char))) user = true ->
  map TrimSpace (Split user ",") = [user].
Proof. intros Hw Hc. rewrite Split_no_sep by done. cbn [map]. by rewrite trimmed_id by by apply word_trimmed. Qed.

(** The user is listed in the end, nobody else is added or removed, and a list
    that has the user is not changed. *)
Lemma ensureListed_spec text user :
  word user = true -> nonempty user = true -> all_chars (fun c => negb (bool_decide (c = ","%char))) user = true ->
  (user ∈ entries_of text -> ensureListed text user = text) /\
  (user ∉ entries_of text -> entries_of (ensureListed text user) = entries_of text ++ [user]).
Proof.
  intros Hw Hn Hc. unfold ensureListed. destruct (listed_spec user (Split text ",") true) as [L1 L2].
  assert (Hin : user ∈ map TrimSpace (Split text ",") <-> user ∈ entries_of text).
  { unfold entries_of. rewrite !list_elem_of_In, filter_In. tauto. }
  rewrite <- Hin. split; [intros Hu; specialize (L1 Hu); revert L1; clear; by destruct (listed _ _ _) as [[] ?]|].
  intros Hu. rewrite (L2 Hu). cbn [andb]. case_bool_decide as He.
  - unfold entries_of. rewrite (Split_user user) by done. cbn [List.filter]. by rewrite Hn, He.
  - unfold entries_of. change (text +:+ "," +:+ user) with (text +:+ char "," +:+ user).
    rewrite Split_concat, map_app, List.filter_app, (Split_user user) by done. cbn [List.filter]. by rewrite Hn.
Qed.

Lemma last_not_app_word s u : word u = true -> nonempty u = true -> last_not is_space (s +:+ u) = true.
Proof.
  intros Hw Hn. rewrite last_not_app by (by destruct u). apply word_trimmed in Hw. unfold trimmed in Hw.
  by apply andb_true_iff in Hw as [_ ?].
Qed.

Lemma ensureListed_plain text user : word user = true -> nonempty user = true ->
  plain_value text = true -> plain_value (ensureListed text user) = true.
Proof.
  intros Hw Hn Hl. unfold ensureListed. destruct (listed user (Split text ",") true) as [[] []]; [done|done|by apply word_value|].
  unfold plain_value, trimmed in *. apply andb_true_iff in Hl as [Hc [Hf _]%andb_true_iff].
  rewrite !all_chars_app, Hc, (word_line user) by done. cbn [all_chars andb].
  replace (text +:+ "," +:+ user) with ((text +:+ ",") +:+ user) by by rewrite app_assoc_str.
  rewrite last_not_app_word, andb_true_r by done. destruct text as [|c l]; [by rewrite app_nil_l_str|].
  rewrite !app_cons_str. change (first_not is_space (String c l) && true = true). by rewrite Hf.
Qed.

(** ** The settings read back *)
Definition multi (vs : iniValueSet) : iniMultiSet := (fun v => [v]) <$> vs.

Definition plain_settings (vs : iniValueSet) : Prop := map_Forall (fun k v => plain_option (k, v) = true) vs.

Lemma plain_multi vs : plain_settings vs -> plain (multi vs).
Proof.
  intros Hp k l. unfold multi. rewrite lookup_fmap. destruct (vs !! k) as [v|] eqn:E; [|done]. intros [= <-].
  apply Hp in E. apply andb_true_iff in E as [??]. split; [done|]. by intros w ->%list_elem_of_singleton.
Qed.

Lemma values_multi vs k : ini_Values (multi vs) k = match vs !! k with Some v => [v] | None => [] end.
Proof. unfold ini_Values, multi. rewrite lookup_fmap. by destruct (vs !! k). Qed.

Definition commentLines : list string :=
  ["# Generated by postgres-operator. DO NOT EDIT UNLESS YOU KNOW WHAT YOU'RE DOING.";
   "# If you want to override the config, annotate this ConfigMap with " +:+ OverrideConfigAnnotation +:+ "=true";
   ""; "[pgbouncer]"; "%include " +:+ emptyFileAbsolutePath].

Lemma ini_text_lines global databases users :
  iniGeneratedWarning +:+
  char newline +:+ "[pgbouncer]" +:+
  char newline +:+ "%include " +:+ emptyFileAbsolutePath +:+
  char newline +:+ char newline +:+ "[pgbouncer]" +:+ char newline +:+ valueSet_String global +:+
  char newline +:+ "[databases]" +:+ char newline +:+ valueSet_String databases +:+
  (if bool_decide (users = ∅) then "" else char newline +:+ "[users]" +:+ char newline +:+ valueSet_String users) =
  Lines (commentLines ++ section_lines "pgbouncer" (multi global) ++ section_lines "databases" (multi databases) ++
         (if bool_decide (users = ∅) then [] else section_lines "users" (multi users))).
Proof.
  assert (Hs : forall a l, Lines (a :: l) = a +:+ char newline +:+ Lines l).
  { intros a l. unfold Lines. cbn [map Concat fold_right]. by rewrite app_assoc_str. }
  rewrite !Lines_app, !valueSet_String_lines. fold (multi global) (multi databases) (multi users).
  unfold section_lines, commentLines, iniGeneratedWarning. rewrite !Hs, <- !app_assoc_str. f_equal.
  - rewrite !app_assoc_str. change (Lines []) with "". by rewrite ?app_nil_l_str, ?app_nil_r_str.
  - case_bool_decide; [done|]. rewrite !Hs. by str_norm.
Qed.

Lemma plain_insert k v vs : plain_option (k, v) = true -> plain_settings vs -> plain_settings (<[k := v]> vs).
Proof. intros Hk Hvs. by apply map_Forall_insert_2. Qed.

Lemma plain_union vs ws : plain_settings vs -> plain_settings ws -> plain_settings (vs ∪ ws).
Proof. apply map_Forall_union_2. Qed.

Lemma read_settings global databases users : plain_settings global -> plain_settings databases -> plain_settings users ->
  exists l, read_ini (Lines (commentLines ++ section_lines "pgbouncer" (multi global) ++
      section_lines "databases" (multi databases) ++
      (if bool_decide (users = ∅) then [] else section_lines "users" (multi users)))) = Some l /\
    (forall k, Ini.values l "pgbouncer" k = match global !! k with Some v => [v] | None => [] end) /\
    (forall k, Ini.values l "databases" k = match databases !! k with Some v => [v] | None => [] end) /\
    (forall k, Ini.values l "users" k = match users !! k with Some v => [v] | None => [] end).
Proof.
  intros Hg%plain_multi Hd%plain_multi Hu%plain_multi.
  exists (entries "pgbouncer" (multi global) ++ entries "databases" (multi databases) ++ entries "users" (multi users)).
  split.
  - unfold read_ini. rewrite <- (app_nil_r_str (Lines _)), Split_Lines.
    + rewrite <- !app_assoc.
      change (read_lines "" (commentLines ++ ?r)) with (read_lines "pgbouncer" r).
      rewrite read_section, read_section by done. case_bool_decide as E.
      * subst users. change (entries "users" (multi ∅)) with (@nil (string * string * string)).
        cbn. by rewrite !app_nil_r.
      * rewrite read_section by done. cbn [app Split]. cbn. by rewrite !app_nil_r.
    + rewrite !Forall_app. split_and!; [|by apply section_lines_char..|].
      * repeat constructor.
      * case_bool_decide; [constructor|by apply section_lines_char].
  - split_and!; intros k; rewrite !values_app, !values_entries;
      rewrite !values_multi; repeat (rewrite bool_decide_eq_true_2 by done || rewrite bool_decide_eq_false_2 by done);
      by rewrite ?app_nil_r.
Qed.

Section SettingsProperties.
Context `{GoVersion}.

Lemma plain_defaultSettings cluster port : plain_settings (defaultSettings cluster port).
Proof.
  assert (Hp : plain_option ("listen_port", pretty port) = true)
    by (unfold plain_option; simpl; apply word_value, pretty_Z_word).
  unfold defaultSettings. case_bool_decide; [apply plain_insert; [by vm_compute|]|];
    destruct (hasLDAPRules cluster); repeat (apply plain_insert; [done || by vm_compute|]);
    apply map_Forall_empty.
Qed.

Lemma globalSettings_lookup cluster port specified k :
  globalSettings cluster port specified !! k =
  if bool_decide (k = "conffile") then Some iniFileAbsolutePath
  else if bool_decide (k = adminUsersSetting /\ (0 <= CompareVersion cluster "3.1.0")%Z)
       then Some (ensureListed (default AdminUser (specified !! adminUsersSetting)) AdminUser)
       else match specified !! k with Some v => Some v | None => defaultSettings cluster port !! k end.
Proof.
  unfold globalSettings. destruct (decide (k = "conffile")) as [->|E1]; [by rewrite lookup_insert_eq|].
  rewrite (bool_decide_eq_false_2 (k = _)), lookup_insert_ne by done.
  assert (Hu : forall j, (specified ∪ defaultSettings cluster port) !! j =
      match specified !! j with Some v => Some v | None => defaultSettings cluster port !! j end).
  { intros j. rewrite lookup_union. destruct (specified !! j), (defaultSettings cluster port !! j); done. }
  destruct (decide (0 <= CompareVersion cluster "3.1.0")%Z) as [Hv|Hv].
  - rewrite (bool_decide_eq_true_2 (0 <= _)%Z) by done. destruct (decide (k = adminUsersSetting)) as [->|E2].
    + rewrite bool_decide_eq_true_2 by done. rewrite lookup_insert_eq, Hu. f_equal.
      destruct (specified !! adminUsersSetting); [done|]. unfold defaultSettings.
      by rewrite bool_decide_eq_true_2, lookup_insert_eq by done.
    + rewrite bool_decide_eq_false_2 by tauto. rewrite lookup_insert_ne by done. apply Hu.
  - rewrite (bool_decide_eq_false_2 (0 <= _)%Z) by done. rewrite bool_decide_eq_false_2 by tauto. apply Hu.
Qed.

Lemma plain_globalSettings cluster port specified :
  plain_settings specified -> plain_settings (globalSettings cluster port specified).
Proof.
  intros Hs. pose proof (plain_union _ _ Hs (plain_defaultSettings cluster port)) as Hu.
  unfold globalSettings. apply plain_insert; [by vm_compute|]. case_bool_decide; [|done].
  apply plain_insert; [|done]. unfold plain_option. cbn [fst snd]. apply andb_true_iff. split; [by vm_compute|].
  apply ensureListed_plain; [by vm_compute|done|].
  destruct ((specified ∪ _) !! adminUsersSetting) as [v|] eqn:E; [|done]. apply Hu in E.
  by apply andb_true_iff in E as [_ ?].
Qed.
End SettingsProperties.

(** The address of the primary service is a plain value. *)
Lemma values_plain name port : word name = true ->
  plain_value ("host=" +:+ (name +:+ "-primary") +:+ " port=" +:+ pretty (port : Z)) = true.
Proof.
  intros Hn. pose proof (pretty_Z_word port) as Hp. generalize dependent (pretty port). intros p Hp.
  unfold plain_value, trimmed. rewrite !all_chars_app, (word_line name), (word_line p) by done.
  replace ("host=" +:+ (name +:+ "-primary") +:+ " port=" +:+ p)
    with ("host=" +:+ (name +:+ "-primary " +:+ ("port=" +:+ p))) by by rewrite !app_assoc_str.
  rewrite <- (app_assoc_str name), <- app_assoc_str.
  rewrite last_not_app, last_not_all; [by rewrite !app_cons_str| |by rewrite !app_cons_str].
  rewrite all_chars_app. apply andb_true_iff. split; [done|]. eapply all_chars_impl; [|exact Hp].
  intros d. unfold word_char. by destruct (is_space d).
Qed.

Section ReadBack.
Context `{GoVersion}.

Lemma admins_entries specified u :
  u ∈ entries_of (ensureListed (default AdminUser specified) AdminUser) <->
  u = AdminUser \/ exists t, specified = Some t /\ u ∈ entries_of t.
Proof.
  destruct (ensureListed_spec (default AdminUser specified) AdminUser) as [Hin Hnew]; [by vm_compute|done|by vm_compute|].
  assert (Ha : entries_of AdminUser = [AdminUser]) by by vm_compute.
  destruct specified as [t|]; cbn [default from_option id] in *.
  - destruct (decide (AdminUser ∈ entries_of t)) as [E|E].
    + rewrite (Hin E). split; [intros Hu; right; by exists t|]. intros [->|(t' & [= <-] & Hu)]; done.
    + rewrite (Hnew E), elem_of_app, list_elem_of_singleton. split.
      * intros [Hu| ->]; [right; by exists t|by left].
      * intros [->|(t' & [= <-] & Hu)]; [by right|by left].
  - rewrite Hin, Ha by (rewrite Ha; by left). rewrite list_elem_of_singleton. split; [by left|].
    intros [->|(t & [=] & _)]; done.
Qed.

(** The configuration file reads back as what the cluster specifies.
    Whatever the user sets, the main configuration file is the operator's and,
    from 3.1.0, the operator's administrator is one of the administrators,
    with those of the user and nobody else; every other setting has the user's
    value, or the operator's where the user gives none.  The databases of the
    user replace the one for the primary service. *)
Theorem settings_read_back (c : CrunchyCluster) b text :
  pgBouncer (config c) = Some b -> clusterINI c = Some text -> word (cc_Name c) = true ->
  plain_settings (pgc_Global (pgb_Config b)) -> plain_settings (pgc_Databases (pgb_Config b)) ->
  plain_settings (pgc_Users (pgb_Config b)) ->
  let specified := pgc_Global (pgb_Config b) in
  exists l pgBouncerPort postgresPort, read_ini text = Some l /\ pgb_Port b = Some pgBouncerPort /\ cc_Port c = Some postgresPort /\
    Ini.values l "pgbouncer" "conffile" = [iniFileAbsolutePath] /\
    ((0 <= CompareVersion (config c) "3.1.0")%Z -> exists admins,
       Ini.values l "pgbouncer" adminUsersSetting = [admins] /\
       forall u, u ∈ entries_of admins <->
         u = AdminUser \/ exists t, specified !! adminUsersSetting = Some t /\ u ∈ entries_of t) /\
    (forall k, k <> "conffile" -> k <> adminUsersSetting ->
       Ini.values l "pgbouncer" k =
       match specified !! k with Some v => [v] | None =>
         match defaultSettings (config c) pgBouncerPort !! k with Some v => [v] | None => [] end end) /\
    (pgc_Databases (pgb_Config b) = ∅ ->
       Ini.values l "databases" "*" = ["host=" +:+ cc_Name c +:+ "-primary port=" +:+ pretty postgresPort]) /\
    (forall k v, pgc_Databases (pgb_Config b) !! k = Some v -> Ini.values l "databases" k = [v]) /\
    (forall k v, pgc_Users (pgb_Config b) !! k = Some v -> Ini.values l "users" k = [v]).
Proof.
  intros Hb Htext Hn Hg Hd Hu specified. unfold clusterINI in Htext. cbv zeta in Htext. rewrite Hb in Htext.
  cbn [mbind option_bind] in Htext.
  destruct (pgb_Port b) as [pgBouncerPort|]; [|done]. destruct (cc_Port c) as [postgresPort|]; [|done].
  cbn [mbind option_bind] in Htext. injection Htext as <-. rewrite ini_text_lines. fold specified in Hg |- *.
  destruct (read_settings (globalSettings (config c) pgBouncerPort specified)
    (databaseSettings (config c) postgresPort (pgc_Databases (pgb_Config b))) (pgc_Users (pgb_Config b)))
    as (l & Hl & Vg & Vd & Vu); [by apply plain_globalSettings| |done|].
  { unfold databaseSettings. case_bool_decide; [|done]. apply map_Forall_singleton. unfold plain_option. cbn [fst snd].
    apply andb_true_iff. split; [by vm_compute|]. change (meta_Name _) with (cc_Name c +:+ "-primary").
    apply values_plain; done. }
  exists l, pgBouncerPort, postgresPort. split_and!; [done|done|done| | | | | |].
  - rewrite Vg, globalSettings_lookup. by rewrite bool_decide_eq_true_2.
  - intros Hv. eexists. split; [rewrite Vg, globalSettings_lookup|].
    + rewrite bool_decide_eq_false_2, bool_decide_eq_true_2 by done. reflexivity.
    + intros u. apply admins_entries.
  - intros k H1 H2. rewrite Vg, globalSettings_lookup. rewrite !bool_decide_eq_false_2 by tauto. by destruct (specified !! k).
  - intros E. rewrite Vd. unfold databaseSettings. rewrite bool_decide_eq_true_2 by done.
    rewrite lookup_singleton_eq. change (meta_Name _) with (cc_Name c +:+ "-primary"). by rewrite !app_assoc_str.
  - intros k v E. rewrite Vd. unfold databaseSettings. rewrite bool_decide_eq_false_2; [by rewrite E|].
    intros E'. by rewrite E', lookup_empty in E.
  - intros k v E. by rewrite Vu, E.
Qed.
End ReadBack.

(** ** The HBA file *)
Section HBAProperties.
Context (unicode_LN : string -> bool) (name_match address_match : string -> string -> bool).

Definition fallbackRecord : HostBasedAuthentication := Method "scram-sha-256" (TCP NewHBA).

Definition ldapRecords (rules : list PostgresAuthenticationRule) : list HostBasedAuthentication :=
  map (fun r => ldapRecord unicode_LN (rule r)) (List.filter isLDAP rules).

Lemma ldapRecord_method r : method (ldapRecord unicode_LN r) = rule_Method r.
Proof.
  unfold ldapRecord. cbv zeta. case_bool_decide; destruct (rule_Databases r), (rule_Users r); done.
Qed.

Lemma hba_file_lines cluster rules : pc_Authentication cluster = Some rules -> Forall (fun r => rule_HBA r = "") rules ->
  pgbouncerHBAFileContents unicode_LN cluster = Lines (map hba_string (ldapRecords rules ++ [fallbackRecord])).
Proof.
  intros Hr Hf. unfold pgbouncerHBAFileContents. rewrite Hr.
  assert (Ho : omap (hbaLine unicode_LN) rules = map hba_string (ldapRecords rules)).
  { clear Hr. induction Hf as [|r rules He Hf IH]; [done|]. cbn. unfold hbaLine at 1. rewrite He. cbn [nonempty].
    unfold ldapRecords. cbn [List.filter]. destruct (isLDAP r); cbn [map]; [by rewrite IH|done]. }
  rewrite Ho, map_app. generalize (map hba_string (ldapRecords rules)) as l. intros l.
  change (map hba_string [fallbackRecord]) with ["host all all all scram-sha-256"].
  rewrite Lines_app. change (Lines ["host all all all scram-sha-256"]) with ("host all all all scram-sha-256" +:+ char newline).
  induction l as [|s l IH]; [done|].
  assert (Hj : Join ((s :: l) ++ ["host all all all scram-sha-256"]) (char newline) =
    s +:+ char newline +:+ Join (l ++ ["host all all all scram-sha-256"]) (char newline)) by by destruct l.
  rewrite Hj, !app_assoc_str, IH. change (Lines (s :: l)) with ((s +:+ char newline) +:+ Lines l). by rewrite !app_assoc_str.
Qed.

Context (Hspec : name_match_spec name_match address_match).

Lemma fallback_matches c : c_transport c <> UnixSocket -> c_physical_replication c = false ->
  hba_matches name_match address_match c fallbackRecord = true.
Proof.
  intros Ht Hp. destruct Hspec as (Hn & _ & Ha). unfold hba_matches, database_matches. rewrite Hp.
  cbn [origin database user address fallbackRecord Method TCP setOrigin NewHBA AllUsers AllNetworks AllDatabases].
  rewrite !Hn, Ha. destruct (c_transport c); done.
Qed.

(** The HBA file of PgBouncer is the structured LDAP rules, in their order,
    and a record that asks everybody else for a password; so a connection over
    the network is let in by LDAP or by its SCRAM password, and by nothing else.
    A rule that names no users and no databases decides for every encrypted
    connection: also for those of the operator's administrator, which has only
    a password. *)
Theorem ldap_rules_decide cluster rules (c : connection) :
  pc_Authentication cluster = Some rules -> Forall (fun r => rule_HBA r = "") rules ->
  c_transport c <> UnixSocket -> c_physical_replication c = false ->
  let decision := authenticate name_match address_match (ldapRecords rules ++ [fallbackRecord]) c in
  pgbouncerHBAFileContents unicode_LN cluster = Lines (map hba_string (ldapRecords rules ++ [fallbackRecord])) /\
  decision = Some (if existsb (hba_matches name_match address_match c) (ldapRecords rules) then "ldap" else "scram-sha-256") /\
  (forall r, r ∈ rules -> isLDAP r = true -> c_transport c = TLSTCP -> Connection (rule r) <> "hostnossl" ->
     Connection (rule r) <> "local" -> rule_Databases (rule r) = [] -> rule_Users (rule r) = [] -> decision = Some "ldap").
Proof.
  intros Hr Hf Ht Hp decision. split; [by apply hba_file_lines|].
  assert (Hd : decision = Some (if existsb (hba_matches name_match address_match c) (ldapRecords rules)
                                then "ldap" else "scram-sha-256")).
  { unfold decision, authenticate. clear Hr Hf. unfold ldapRecords. induction rules as [|r rules IH].
    - cbn. by rewrite fallback_matches by done.
    - cbn [List.filter]. destruct (isLDAP r) eqn:E; [|done]. cbn [map app List.find existsb].
      destruct (hba_matches _ _ c _); [|done]. cbn. rewrite ldapRecord_method. by apply bool_decide_eq_true in E as ->. }
  split; [done|]. intros r Hin Hl Htls Hn Hloc Hdb Hu. rewrite Hd.
  replace (existsb _ _) with true; [done|]. symmetry. apply existsb_exists. exists (ldapRecord unicode_LN (rule r)). split.
  - apply in_map_iff. exists r. split; [done|]. apply filter_In. split; [by apply list_elem_of_In|done].
  - destruct Hspec as (Hall & _ & Ha). unfold ldapRecord, hba_matches, database_matches. rewrite Hp, Htls, Hdb, Hu.
    rewrite (bool_decide_eq_false_2 (_ = "hostnossl")), (bool_decide_eq_false_2 (_ = "local")) by done.
    case_bool_decide; case_bool_decide; cbn; by rewrite ?Hall, ?Ha.
Qed.
End HBAProperties.

(** A raw line is documented to be used as it is, its structured fields
    ignored: PostgreSQL's records are the same whatever its method says, but
    PgBouncer's file has the line only when it says "ldap". *)
Theorem method_of_a_raw_line_counts unicode_LN cluster line connection databases users options m :
  nonempty line = true -> m <> "ldap" ->
  let with_method m := cluster <| pc_Authentication :=
    Some [mkAuthRule (mkRule connection m databases users options) line] |> in
  ruleLines unicode_LN (with_method "ldap") = ruleLines unicode_LN (with_method m) /\
  pgbouncerHBAFileContents unicode_LN (with_method "ldap") = Lines [line; "host all all all scram-sha-256"] /\
  pgbouncerHBAFileContents unicode_LN (with_method m) = Lines ["host all all all scram-sha-256"] /\
  hasLDAPRules (with_method "ldap") = true /\ hasLDAPRules (with_method m) = false.
Proof.
  intros Hl Hm with_method. unfold ruleLines, pgbouncerHBAFileContents, hasLDAPRules, with_method. cbn.
  unfold hbaLine, isLDAP. cbn. rewrite Hl. rewrite (bool_decide_eq_false_2 (m = "ldap")) by done.
  rewrite (bool_decide_eq_true_2 ("ldap" = "ldap")) by done. cbn.
  split_and!; try done. unfold Lines. cbn. by rewrite !app_assoc_str, app_nil_r_str.
Qed.

(** ** Whose passwords PgBouncer can read *)
Record role := mkRole {
  rolname : string;
  rolcanlogin : bool;
  rolsuper : bool;
  rolreplication : bool;
  (** [rolvaliduntil], null for no expiration *)
  rolvaliduntil : option Z
}.

(** What each condition says of a role. *)
Definition holds (now : Z) (r : role) (condition : string) : option bool :=
  if bool_decide (condition = canLogin) then Some (rolcanlogin r)
  else if bool_decide (condition = notSuper) then Some (negb (rolsuper r))
  else if bool_decide (condition = notReplicator) then Some (negb (rolreplication r))
  else if bool_decide (condition = notReplicatorOrPostgres)
       then Some (negb (rolreplication r) || bool_decide (rolname r = "postgres"))
  else if bool_decide (condition = notPgBouncer) then Some (negb (bool_decide (rolname r = postgresqlUser)))
  else if bool_decide (condition = notExpired)
       then Some (match rolvaliduntil r with None => true | Some t => bool_decide (now <= t)%Z end)
  else None.

Lemma TrimSpace_newline x : trimmed x = true -> TrimSpace (String newline x) = x.
Proof.
  intros Ht. unfold TrimSpace, TrimFunc. rewrite trim_left_app_space by done.
  by apply trimmed_id in Ht.
Qed.

Definition not_expired (now : Z) (r : role) : bool :=
  match rolvaliduntil r with None => true | Some t => bool_decide (now <= t)%Z end.

(** The values of the conditions, in their order. *)
Definition condition_values (exposeSuperusers : bool) (now : Z) (r : role) : list bool :=
  if exposeSuperusers then
    [rolcanlogin r; negb (rolreplication r) || bool_decide (rolname r = "postgres");
     negb (bool_decide (rolname r = postgresqlUser)); not_expired now r]
  else [rolcanlogin r; negb (rolsuper r); negb (rolreplication r);
        negb (bool_decide (rolname r = postgresqlUser)); not_expired now r].

Lemma conditions_values exposeSuperusers now r :
  mapM (holds now r) (authConditions exposeSuperusers) = Some (condition_values exposeSuperusers now r).
Proof. by destruct exposeSuperusers. Qed.

Lemma conditions_spec exposeSuperusers now r :
  forallb id (condition_values exposeSuperusers now r) = true <->
  rolcanlogin r = true /\ rolname r <> postgresqlUser /\
  (forall t, rolvaliduntil r = Some t -> (now <= t)%Z) /\
  if exposeSuperusers then rolreplication r = false \/ rolname r = "postgres"
  else rolsuper r = false /\ rolreplication r = false.
Proof.
  assert (He : not_expired now r = true <-> forall t, rolvaliduntil r = Some t -> (now <= t)%Z).
  { unfold not_expired. destruct (rolvaliduntil r) as [t|]; [rewrite bool_decide_eq_true|]; naive_solver. }
  rewrite <- He. unfold condition_values, id.
  destruct exposeSuperusers; cbn [forallb];
    rewrite !andb_true_iff, ?orb_true_iff, ?negb_true_iff, ?bool_decide_eq_true, bool_decide_eq_false; tauto.
Qed.

(** The function PgBouncer reads passwords with is one statement: whatever
    the conditions contain, its body is one literal, the query for a role that
    meets all of them.  It gives a role's password exactly when the role may
    log in, is not PgBouncer's own and has not expired, and is neither a
    superuser nor a replicator; with [exposeSuperusers], superusers that do
    not replicate and "postgres" are added, and nobody else. *)
Theorem auth_query_exposes fn exposeSuperusers :
  (exists rest, sqlAuthenticationQuery fn exposeSuperusers =
     "CREATE OR REPLACE FUNCTION " +:+ fn +:+ "(username TEXT)" +:+ char newline +:+
     "RETURNS TABLE(username TEXT, password TEXT) AS  E'" +:+ rest /\
     lex_escape rest = Some (authBody exposeSuperusers, authFooter)) /\
  forall now r, exists values, mapM (holds now r) (authConditions exposeSuperusers) = Some values /\
    (forallb id values = true <->
     rolcanlogin r = true /\ rolname r <> postgresqlUser /\
     (forall t, rolvaliduntil r = Some t -> (now <= t)%Z) /\
     if exposeSuperusers then rolreplication r = false \/ rolname r = "postgres"
     else rolsuper r = false /\ rolreplication r = false).
Proof.
  split.
  - exists (escapeLiteral (authBody exposeSuperusers) +:+ String squote authFooter).
    split; [|by apply lex_QuoteLiteral].
    unfold sqlAuthenticationQuery, QuoteLiteral.
    match goal with |- TrimSpace ?s = ?t => assert (E : s = String newline t) end.
    { unfold authHeader. rewrite !app_assoc_str. rewrite !app_cons_str, ?app_nil_l_str. done. }
    rewrite E. apply TrimSpace_newline. clear E. unfold trimmed. apply andb_true_iff. split; [by rewrite app_cons_str|].
    rewrite <- !app_assoc_str.
    change (String squote authFooter) with ("'" +:+ authFooter). rewrite <- app_assoc_str.
    by rewrite last_not_app.
  - intros now r. eexists. split; [apply conditions_values|]. apply conditions_spec.
Qed.

(** ** The ConfigMap *)
Ltac lookups :=
  repeat (rewrite lookup_insert_eq || rewrite lookup_delete_eq ||
          (rewrite lookup_insert_ne by done) || (rewrite lookup_delete_ne by done)).

Section ConfigMapProperties.
Context `{GoVersion} (unicode_LN : string -> bool) (c : CrunchyCluster).

(** The keys of the ConfigMap are what the cluster says now, whatever was in it
    before: the HBA file is there only with LDAP rules and the mark of a pause
    only while PgBouncer is paused; other keys are left alone, and writing it
    again changes nothing. *)
Theorem config_map_keys data data' :
  PGBouncerEnabled (pc_Proxy (config c)) = true -> ConfigMap unicode_LN c data = Some data' ->
  data' !! iniFileConfigMapKey = clusterINI c /\ data' !! emptyConfigMapKey = Some "" /\
  data' !! hbaFileConfigMapKey = (if hasLDAPRules (config c) then Some (pgbouncerHBAFileContents unicode_LN (config c)) else None) /\
  data' !! pausedConfigMapKey =
    (if bool_decide (0 <= CompareVersion (config c) "3.1.0")%Z && PGBouncerPaused (pc_Proxy (config c))
     then Some PausedValue else None) /\
  (forall k, k ∉ [iniFileConfigMapKey; emptyConfigMapKey; hbaFileConfigMapKey; pausedConfigMapKey] -> data' !! k = data !! k) /\
  ConfigMap unicode_LN c data' = Some data'.
Proof.
  intros He Hc. unfold ConfigMap in *. rewrite He in *. cbn [negb] in *.
  destruct (clusterINI c) as [ini|]; [|done]. cbn [mbind option_bind] in *.
  assert (Hk : data' !! iniFileConfigMapKey = Some ini /\ data' !! emptyConfigMapKey = Some "" /\
    data' !! hbaFileConfigMapKey = (if hasLDAPRules (config c) then Some (pgbouncerHBAFileContents unicode_LN (config c)) else None) /\
    data' !! pausedConfigMapKey =
      (if bool_decide (0 <= CompareVersion (config c) "3.1.0")%Z && PGBouncerPaused (pc_Proxy (config c))
       then Some PausedValue else None) /\
    (forall k, k ∉ [iniFileConfigMapKey; emptyConfigMapKey; hbaFileConfigMapKey; pausedConfigMapKey] -> data' !! k = data !! k)).
  { injection Hc as <-. destruct (_ && _), (hasLDAPRules (config c)); split_and!;
      try (intros k Hk; rewrite !not_elem_of_cons in Hk; destruct Hk as (? & ? & ? & ? & _));
      lookups;
      done. }
  destruct Hk as (H1 & H2 & H3 & H4 & H5). split_and!; try done. f_equal. apply map_eq. intros k.
  destruct (decide (k = pausedConfigMapKey)) as [->|N4];
    [rewrite H4; destruct (_ && _); [by rewrite lookup_insert_eq|by rewrite lookup_delete_eq]|].
  destruct (decide (k = hbaFileConfigMapKey)) as [->|N3];
    [rewrite H3; destruct (_ && _), (hasLDAPRules (config c));
     by lookups|].
  destruct (_ && _), (hasLDAPRules (config c));
    repeat ((rewrite lookup_insert_ne by done) || (rewrite lookup_delete_ne by done));
    (destruct (decide (k = iniFileConfigMapKey)) as [->|N1]; [by rewrite lookup_insert_eq|]);
    rewrite lookup_insert_ne by done;
    (destruct (decide (k = emptyConfigMapKey)) as [->|N2]; [by rewrite lookup_insert_eq|]);
    by rewrite lookup_insert_ne by done.
Qed.
End ConfigMapProperties.

(** ** Certificates of the frontend *)

(** The Secrets and keys that are mounted at a path. *)
Definition mounted (path : string) (sources : list FileSource) : list (string * string) :=
  flat_map (fun s => match s with
                     | SecretFiles p => omap (fun i => if bool_decide (snd i = path) then Some (prj_Name p, fst i) else None) (prj_Items p)
                     | _ => []
                     end) sources.

Lemma mounted_secret path p sources :
  mounted path (SecretFiles p :: sources) =
  omap (fun i => if bool_decide (snd i = path) then Some (prj_Name p, fst i) else None) (prj_Items p) ++ mounted path sources.
Proof. done. Qed.

Lemma omap_customItem path additionalCAs (name : string) (items : list (string * string)) (want : string) :
  (forall i, customItem additionalCAs i = None \/ exists t, customItem additionalCAs i = Some t /\
     (snd t = path <-> snd i = want) /\ fst t = fst i) ->
  (forall i, snd i = want -> customItem additionalCAs i <> None) ->
  omap (fun i => if bool_decide (snd i = path) then Some (name, fst i) else None) (omap (customItem additionalCAs) items) =
  omap (fun i => if bool_decide (snd i = want) then Some (name, fst i) else None) items.
Proof.
  intros Hc Hw. induction items as [|i items IH]; [done|].
  change (i :: items) with ([i] ++ items). rewrite !omap_app, IH. f_equal. cbn.
  destruct (Hc i) as [E|(t & E & Hp & Hf)]; rewrite E; cbn.
  - rewrite bool_decide_eq_false_2; [done|]. intros Hi. by apply (Hw i Hi).
  - rewrite Hf. rewrite (bool_decide_ext _ _ Hp). done.
Qed.

Section Certificates.
Context (custom : Projection) (secret : string).

(** The keys of the custom Secret for a file. *)
Definition customKeys (path : string) : list (string * string) :=
  omap (fun i => if bool_decide (snd i = path) then Some (prj_Name custom, fst i) else None) (prj_Items custom).

Definition typicalPath (path : string) : Prop :=
  path ∈ [tlsAuthoritySecretKey; tlsCertificateSecretKey; tlsPrivateKeySecretKey].

Definition mountPath (path : string) : string :=
  if bool_decide (path = tlsAuthoritySecretKey) then certFrontendAuthorityProjectionPath
  else if bool_decide (path = tlsCertificateSecretKey) then certFrontendProjectionPath
  else certFrontendPrivateKeyProjectionPath.

Lemma customKeys_items path additionalCAs : typicalPath path -> additionalCAs && bool_decide (path = tlsAuthoritySecretKey) = false ->
  omap (fun i => if bool_decide (snd i = mountPath path) then Some (prj_Name custom, fst i) else None)
    (omap (customItem additionalCAs) (prj_Items custom)) = customKeys path.
Proof.
  intros Hp Ha. apply omap_customItem.
  - intros i. unfold customItem, item, mountPath. unfold typicalPath in Hp. rewrite !elem_of_cons in Hp.
    destruct (decide (snd i = tlsAuthoritySecretKey)) as [E1|E1];
      [rewrite bool_decide_eq_true_2 by done|rewrite bool_decide_eq_false_2 by done].
    + destruct additionalCAs; [by left|]. right. eexists. split; [done|]. cbn [fst snd]. split; [|done]. rewrite E1.
      destruct Hp as [->|[->|[->|Hn]]]; [done|done|done|by apply elem_of_nil in Hn].
    + destruct (decide (snd i = tlsCertificateSecretKey)) as [E2|E2];
        [rewrite bool_decide_eq_true_2 by done|rewrite bool_decide_eq_false_2 by done].
      { right. eexists. split; [done|]. cbn [fst snd]. split; [|done]. rewrite E2.
        destruct Hp as [->|[->|[->|Hn]]]; [done|done|done|by apply elem_of_nil in Hn]. }
      destruct (decide (snd i = tlsPrivateKeySecretKey)) as [E3|E3];
        [rewrite bool_decide_eq_true_2 by done|rewrite bool_decide_eq_false_2 by done; by left].
      right. eexists. split; [done|]. cbn [fst snd]. split; [|done]. rewrite E3.
      destruct Hp as [->|[->|[->|Hn]]]; [done|done|done|by apply elem_of_nil in Hn].
  - intros i <-. unfold customItem. destruct (decide (snd i = tlsAuthoritySecretKey)) as [E1|E1].
    + rewrite !bool_decide_eq_true_2 in * by done. rewrite andb_true_r in Ha. by rewrite Ha.
    + rewrite bool_decide_eq_false_2 by done. unfold typicalPath in Hp. rewrite !elem_of_cons in Hp.
      destruct Hp as [Hq|[Hq|[Hq|Hn]]]; [by destruct E1| | |by apply elem_of_nil in Hn]; rewrite Hq;
        repeat case_bool_decide; done.
Qed.

(** The files of a custom certificate: each typical path is mounted where
    PgBouncer expects it from the keys that the projection has for it, or, when
    the projection has none at all, from the key of that name.  With additional
    authorities the authority comes from the operator's Secret and from nowhere
    else. *)
Theorem custom_certificate_files additionalCAs path : typicalPath path ->
  let sources := frontendCertificate (Some custom) secret additionalCAs in
  let authority := bool_decide (path = tlsAuthoritySecretKey) in
  mounted (mountPath path) sources =
  if additionalCAs && authority then [(secret, CertFrontendAuthoritySecretKey)]
  else if bool_decide (omap (customItem additionalCAs) (prj_Items custom) = []) then [(prj_Name custom, path)]
  else customKeys path.
Proof.
  intros Hp sources authority. unfold sources, frontendCertificate.
  set (items := omap (customItem additionalCAs) (prj_Items custom)) in *.
  assert (Hm : forall p, mounted p (if additionalCAs
      then [SecretFiles (oneFile secret CertFrontendAuthoritySecretKey certFrontendAuthorityProjectionPath)] else []) =
      if additionalCAs && bool_decide (certFrontendAuthorityProjectionPath = p) then [(secret, CertFrontendAuthoritySecretKey)] else []).
  { intros p. destruct additionalCAs; [|done]. unfold mounted. cbn. rewrite app_nil_r. by case_bool_decide. }
  rewrite mounted_secret, Hm. cbn [prj_Name prj_Items].
  destruct (additionalCAs && authority) eqn:Ea.
  - apply andb_true_iff in Ea as [Ea Hauth]. destruct additionalCAs; [|done]. apply bool_decide_eq_true in Hauth as ->.
    unfold authority in *. cbn [andb]. case_bool_decide as E; [done|].
    assert (Hno : omap (fun i => if bool_decide (snd i = mountPath tlsAuthoritySecretKey) then Some (prj_Name custom, fst i) else None) items = []).
    { unfold items. clear. induction (prj_Items custom) as [|i l IH]; [done|]. change (i :: l) with ([i] ++ l).
      rewrite !omap_app, IH, app_nil_r.
      cbn. unfold customItem, item. destruct (decide (snd i = tlsAuthoritySecretKey));
        [by rewrite bool_decide_eq_true_2|rewrite bool_decide_eq_false_2 by done].
      destruct (decide (snd i = tlsCertificateSecretKey));
        [by rewrite bool_decide_eq_true_2|rewrite (bool_decide_eq_false_2 (_ = tlsCertificateSecretKey)) by done].
      destruct (decide (snd i = tlsPrivateKeySecretKey));
        [by rewrite bool_decide_eq_true_2|by rewrite bool_decide_eq_false_2]. }
    by rewrite Hno.
  - assert (Hnot : additionalCAs && bool_decide (certFrontendAuthorityProjectionPath = mountPath path) = false).
    { destruct additionalCAs; [|done]. cbn [andb] in *. apply bool_decide_eq_false in Ea. unfold mountPath.
      rewrite (bool_decide_eq_false_2 (path = tlsAuthoritySecretKey)) by done.
      by destruct (bool_decide (path = tlsCertificateSecretKey)). }
    rewrite Hnot, app_nil_r. clear Hnot. destruct (decide (items = [])) as [E|E];
      [rewrite bool_decide_eq_true_2 by done|rewrite bool_decide_eq_false_2 by done; by apply customKeys_items].
    unfold typicalPath in Hp. rewrite !elem_of_cons in Hp.
    destruct Hp as [->|[->|[->|Hn]]]; [| | |by apply elem_of_nil in Hn]; destruct additionalCAs;
      first [by vm_compute in Ea | by vm_compute].
Qed.
End Certificates.

(** ** Examples *)
Module ExamplePgBouncer.
Definition settings (global : gmap string string) : PGBouncerPodSpec :=
  defaultPGBouncer <| pgb_Config := mkPGBouncerConfiguration [] global ∅ {["app" := "max_user_connections=10"]} |>.

Definition cluster (b : PGBouncerPodSpec) : CrunchyCluster :=
  ExampleInstances.cluster []
    <| cc_Meta ::= (fun m => m <| om_Labels := {[LabelVersion := "3.1.0"]} |>) |>
    <| cc_Config ::= (fun c => c <| pc_Proxy := Some (mkProxy (Some b)) |>) |>.

Definition global : gmap string string := {["admin_users" := "ops, dba"; "pool_mode" := "transaction"; "conffile" := "/tmp/mine.ini"]}.

Definition ldapRule : PostgresAuthenticationRule := mkAuthRule (mkRule "hostssl" "ldap" [] [] {["ldapserver" := "ldap.example.com"]}) "".

Definition admin : connection := mkConn TLSTCP false "pgbouncer" AdminUser "10.0.0.1".
End ExamplePgBouncer.

#[local] Existing Instance DottedVersions.versions.

Lemma auth_file_reads_back_witness :
  exists text, authFileContents "s3cret" "adm1n" (Some ("users", {["app" := "pa" +:+ char dquote +:+ "ss"]})) ["app"] = Ok text /\
    read_auth_file text = Some [(postgresqlUser, "s3cret"); (AdminUser, "adm1n"); ("app", "pa" +:+ char dquote +:+ "ss")].
Proof.
  eexists. split; [vm_compute; reflexivity|].
  refine (proj1 (proj2 (auth_file_reads_back "s3cret" "adm1n" "users" {["app" := "pa" +:+ char dquote +:+ "ss"]} ["app"]
    _ eq_refl eq_refl _))).
  - by vm_compute.
  - intros name [v Hv]. apply lookup_singleton_Some in Hv as [<- _]. by vm_compute.
Defined.

Lemma settings_read_back_witness :
  let c := ExamplePgBouncer.cluster (ExamplePgBouncer.settings ExamplePgBouncer.global) in
  exists text l admins, clusterINI c = Some text /\ read_ini text = Some l /\
    Ini.values l "pgbouncer" "conffile" = [iniFileAbsolutePath] /\
    Ini.values l "pgbouncer" adminUsersSetting = [admins] /\ AdminUser ∈ entries_of admins /\ "dba" ∈ entries_of admins.
Proof.
  intros c.
  assert (Ht : exists text, clusterINI c = Some text) by (eexists; vm_compute; reflexivity).
  destruct Ht as [text Ht].
  destruct (settings_read_back c (ExamplePgBouncer.settings ExamplePgBouncer.global) text eq_refl Ht eq_refl)
    as (l & p & q & Hl & _ & _ & Hc & Ha & _).
  - apply (bool_decide_eq_true_1 _). by vm_compute.
  - apply map_Forall_empty.
  - apply (bool_decide_eq_true_1 _). by vm_compute.
  - destruct Ha as (admins & Ha & Hu); [by vm_compute|]. exists text, l, admins. split_and!; try done.
    + apply Hu. by left.
    + apply Hu. right. exists "ops, dba". split; [done|]. apply (bool_decide_eq_true_1 _). by vm_compute.
Defined.

(** An LDAP rule for everybody: the operator's own administrator would have to
    be in LDAP to pause PgBouncer. *)
Lemma ldap_rules_decide_witness :
  authenticate plain_match plain_match (ldapRecords (fun _ => false) [ExamplePgBouncer.ldapRule] ++ [fallbackRecord])
    ExamplePgBouncer.admin = Some "ldap".
Proof.
  refine (proj2 (proj2 (ldap_rules_decide (fun _ => false) plain_match plain_match plain_match_spec
    (cc_Config (ExamplePgBouncer.cluster defaultPGBouncer) <| pc_Authentication := Some [ExamplePgBouncer.ldapRule] |>)
    [ExamplePgBouncer.ldapRule] ExamplePgBouncer.admin eq_refl _ _ eq_refl))
    ExamplePgBouncer.ldapRule _ _ eq_refl _ _ eq_refl eq_refl); try done.
  - by constructor.
  - by left.
Defined.

(** A setting with a line break is not one setting: what follows it is read as
    more settings, and the last one counts, here another main file. *)
Example line_break_in_a_setting :
  exists text l, clusterINI (ExamplePgBouncer.cluster (ExamplePgBouncer.settings
      {["verbose" := "0" +:+ char newline +:+ "conffile = /tmp/mine.ini"]})) = Some text /\
    read_ini text = Some l /\ Ini.values l "pgbouncer" "conffile" = [iniFileAbsolutePath; "/tmp/mine.ini"].
Proof. do 2 eexists. split_and!; [vm_compute; reflexivity..|by vm_compute]. Qed.
