(* ===== verification/Rollout.v ===== *)
(** * Updating the instances of a cluster

    The rolling update of [internal/controller/postgrescluster/instance.go]: the
    order in which changed instances are redeployed, and how one is redeployed;
    with the part of [internal/patroni/api.go] that changes the primary.

    [sort.Sort] promises a sorted permutation for a strict weak order and is not
    stable: it is the interface [SortPackage]. *)
From S2P Require Import Prelude GoStrings Cluster Prog Errors Naming Objects Client Psql.
From S2P Require Import ObservedInstances.

(** ** [sort.Sort] *)
Record StrictWeakOrder {A} (less : A -> A -> bool) : Prop := {
  swo_irrefl : forall a, less a a = false;
  swo_trans : forall a b c, less a b = true -> less b c = true -> less a c = true;
  (** what is not before [b] and not after it is like [b] *)
  swo_weak : forall a b c, less a c = true -> less a b = true \/ less b c = true
}.

Class SortPackage := {
  Sort : forall {A}, (A -> A -> bool) -> list A -> list A;
  Sort_Permutation : forall {A} (less : A -> A -> bool) l, Sort less l ≡ₚ l;
  Sort_sorted : forall {A} (less : A -> A -> bool) l, StrictWeakOrder less ->
    StronglySorted (fun a b => less b a = false) (Sort less l)
}.

(** ** Which instance keeps running longest *)
Definition stringLess (a b : string) : bool := bool_decide (String.le a b /\ a <> b).

(** [byPriority]: [Less] *)
Definition byPriority (a b : Instance) : bool :=
  if known_true (IsPrimary a) then false
  else if known_true (IsPrimary b) then true
  else if known_true (IsAvailable a) then false
  else if known_true (IsAvailable b) then true
  else stringLess (i_Name a) (i_Name b).

(** ** [internal/patroni/api.go] *)
Section PatroniAPI.
Context (exec : Executor).

Definition switchedOver (out : ExecOutput) : bool := Contains (out_Stdout out) "switched over".

(** The answer of these functions: success, and the error. *)
Definition ChangePrimaryAndWait (current next : string) (patroniVer4 : bool)
    : program (bool * option error) :=
  let cmd := ["patronictl"; "switchover"; "--scheduled=now"; "--force"; "--candidate=" +:+ next] in
  let cmd := cmd ++ [if patroniVer4 then "--primary=" +:+ current else "--master=" +:+ current] in
  let! out := exec None cmd in
  Ret (switchedOver out, out_Err out).
End PatroniAPI.

Section Rollout.
Context `{GoVersion, LabelMatching, SortPackage}.

(** [pNaming.ToCrunchyAnnotation(pNaming.AnnotationPatroniVersion)] *)
Definition crunchyPatroniVersion : string := ToCrunchyAnnotation AnnotationPatroniVersion.

(** [PostgresCluster.CompareVersion] of the object's labels *)
Definition compareVersion (cluster : CrunchyCluster) (ver : string) : Z :=
  match NewVersion (default "" (om_Labels (cc_Meta cluster) !! LabelVersion)) with
  | None => -2
  | Some crVersion => Compare crVersion (Must ver)
  end.

(** [PostgresCluster.IsPatroniVer4] *)
Definition IsPatroniVer4 (cluster : CrunchyCluster) : result bool :=
  match om_Annotations (cc_Meta cluster) !! crunchyPatroniVersion with
  | None =>
      if bool_decide (0 <= compareVersion cluster "2.7.0")%Z then Ok true
      else Err (New "patroni version annotation was not found")
  | Some s =>
      match NewVersion s with
      | None => Err (Wrap "failed to get patroni ver" (New "malformed version"))
      | Some v => Ok (bool_decide (0 <= Compare v (Must "4.0.0"))%Z)
      end
  end.

(** *** Redeploying one instance *)
Definition DefaultTerminationGracePeriodSeconds : Z := 30.

(** A checkpoint, and how long it took. *)
Definition checkpoint (exec : Executor) (graceSeconds : Z) : program (Z * option error) :=
  let! start := call Now in
  let! out := ExecInDatabasesFromQuery exec "SELECT pg_catalog.current_database()"
    "SET statement_timeout = :'timeout'; CHECKPOINT;"
    {["timeout" := pretty graceSeconds +:+ "s"; "ON_ERROR_STOP" := "on"; "QUIET" := "on"]} in
  let! stop := call Now in
  Ret ((stop - start)%Z, out_Err out).

(** [graceSeconds/2] truncates; a time.Duration counts nanoseconds. *)
Definition checkpointThreshold (graceSeconds : Z) : Z := (graceSeconds ÷ 2 * 1000000000)%Z.

(** One checkpoint or two before the only instance is shut down; a failure is
    only reported. *)
Definition checkpointPrimary (exec : Executor) (graceSeconds : Z) : program unit :=
  let threshold := checkpointThreshold graceSeconds in
  let! first := checkpoint exec graceSeconds in
  let! last :=
    match first with
    | (duration, None) =>
        if bool_decide (threshold < duration)%Z then checkpoint exec graceSeconds else Ret first
    | (_, Some _) => Ret first
    end in
  match last with
  | (_, Some _) => call (Event "Warning" "NoCheckpoint")
  | (duration, None) =>
      if bool_decide (threshold < duration)%Z then call (Event "Warning" "SlowCheckpoint") else Ret tt
  end.

Definition deletePod (pod : Pod) : action unit :=
  call (Delete KPod (objectKey (p_Meta pod))
    (Preconditions (om_UID (p_Meta pod)) (om_ResourceVersion (p_Meta pod)))).

Definition rolloutInstance (cluster : CrunchyCluster) (instances : observedInstances)
    (instance : Instance) : action unit :=
  match i_Runner instance, i_Pods instance with
  | Some _, [pod] =>
      let exec := podExecutor (objectKey (p_Meta pod)) ContainerDatabase in
      let primary := known_true (IsPrimary instance) in
      if primary && (1 <? length (forCluster instances))%nat then
        match IsPatroniVer4 cluster with
        | Err e => Ret (Err (Wrap "failed to check if patroni v4 is used" e))
        | Ok patroniVer4 =>
            let! r := ChangePrimaryAndWait exec (om_Name (p_Meta pod)) "" patroniVer4 in
            match r with
            | (_, Some e) => Ret (Err e)
            | (false, None) => Ret (Err (New "unable to switchover"))
            | (true, None) => Ret (Ok tt)
            end
        end
      else
        let! _ := if primary
                  then checkpointPrimary exec
                         (default DefaultTerminationGracePeriodSeconds
                            (p_TerminationGracePeriodSeconds pod))
                  else Ret tt in
        deletePod pod
  | _, _ => Ret (Err (New "unexpected instance state during rollout"))
  end.

(** *** Redeploying the instances that changed *)
Definition numSpecified (cluster : CrunchyCluster) : Z :=
  foldr Z.add 0%Z (map is_Replicas (cc_InstanceSets cluster)).

(** Instances that count: in the specification and known not to terminate. *)
Definition counted (i : Instance) : bool :=
  match i_Spec i with Some _ => known_false (IsTerminating i) | None => false end.

(** One round of the first loop: the number of available instances, and those
    to consider. *)
Definition observeRollout (acc : Z * list Instance) (i : Instance) : Z * list Instance :=
  if negb (counted i) then acc
  else
    let acc := if known_true (IsAvailable i) then ((acc.1 + 1)%Z, acc.2) else acc in
    if known_false (PodMatchesPodTemplate i) then (acc.1, acc.2 ++ [i]) else acc.

Definition maxUnavailable : Z := 1.

(** The second loop. *)
Fixpoint redeployLoop (redeploy : Instance -> action unit) (numUnavailable : Z)
    (consider : list Instance) : action unit :=
  match consider with
  | [] => Ret (Ok tt)
  | i :: consider =>
      if known_false (IsAvailable i) then
        do! _ := redeploy i in redeployLoop redeploy numUnavailable consider
      else if bool_decide (numUnavailable < maxUnavailable)%Z then
        do! _ := redeploy i in redeployLoop redeploy (numUnavailable + 1) consider
      else redeployLoop redeploy numUnavailable consider
  end.

Definition considered (instances : observedInstances) : list Instance :=
  let consider := (fold_left observeRollout (forCluster instances) (0%Z, [])).2 in
  if (1 <? length consider)%nat then Sort byPriority consider else consider.

Definition rolloutInstances (cluster : CrunchyCluster) (instances : observedInstances)
    (redeploy : Instance -> action unit) : action unit :=
  let numAvailable := (fold_left observeRollout (forCluster instances) (0%Z, [])).1 in
  redeployLoop redeploy (numSpecified cluster - numAvailable) (considered instances).

End Rollout.

(** ** Priorities *)
Definition rank (i : Instance) : nat :=
  if known_true (IsPrimary i) then 2 else if known_true (IsAvailable i) then 1 else 0.

Lemma byPriority_rank a b :
  byPriority a b = (rank a <? rank b)%nat ||
                   ((rank a =? 0)%nat && (rank b =? 0)%nat && stringLess (i_Name a) (i_Name b)).
Proof.
  unfold byPriority, rank.
  destruct (known_true (IsPrimary a)), (known_true (IsPrimary b)), (known_true (IsAvailable a)),
    (known_true (IsAvailable b)); done.
Qed.

Lemma stringLess_order : StrictWeakOrder stringLess.
Proof.
  unfold stringLess. constructor.
  - intros a. apply bool_decide_eq_false. by intros [_ ?].
  - intros a b c [Hab Nab]%bool_decide_eq_true [Hbc Nbc]%bool_decide_eq_true.
    apply bool_decide_eq_true. split; [by transitivity b|]. intros ->. apply Nbc.
    by apply (anti_symm String.le).
  - intros a b c [Hac Nac]%bool_decide_eq_true. rewrite !bool_decide_eq_true.
    destruct (decide (a = b)) as [->|Nab]; [by right|].
    destruct (total String.le a b) as [Hab|Hba]; [by left|]. right. split; [by transitivity a|].
    intros ->. apply Nac. by apply (anti_symm String.le).
Qed.

Lemma byPriority_order : StrictWeakOrder byPriority.
Proof.
  pose proof stringLess_order as [Hi Ht Hw]. constructor.
  - intros a. rewrite byPriority_rank, Nat.ltb_irrefl, Hi. by rewrite andb_false_r.
  - intros a b c. rewrite !byPriority_rank, !orb_true_iff, !andb_true_iff, !Nat.ltb_lt, !Nat.eqb_eq.
    intros [?|[[? ?] ?]] [?|[[? ?] ?]]; [left; lia|left; lia|left; lia|]. right. eauto.
  - intros a b c. rewrite !byPriority_rank, !orb_true_iff, !andb_true_iff, !Nat.ltb_lt, !Nat.eqb_eq.
    intros [?|[[? ?] Hac]].
    + destruct (decide (rank a < rank b)%nat); [left; by left|]. right; left. lia.
    + destruct (decide (rank b = 0)%nat) as [Eb|Nb]; [|left; left; lia].
      destruct (Hw _ (i_Name b) _ Hac); [left|right]; right; done.
Qed.

(** The priorities of instances are a strict weak order, so that sorting by
    them is well-defined, with the primary above the available instances and
    those above the others; names order only the others: of two available
    instances neither comes first. *)
Theorem priorities_are_an_order :
  StrictWeakOrder byPriority /\
  (forall a b, known_true (IsPrimary a) = true -> byPriority a b = false) /\
  (forall a b, known_true (IsPrimary a) = false -> known_true (IsPrimary b) = true ->
     byPriority a b = true) /\
  (forall a b, rank a = 0%nat -> rank b = 1%nat -> byPriority a b = true) /\
  (forall a b, rank a = 0%nat -> rank b = 0%nat -> i_Name a <> i_Name b ->
     byPriority a b = negb (byPriority b a)) /\
  (forall a b, rank a = 1%nat -> rank b = 1%nat -> byPriority a b = false).
Proof.
  split_and!; [exact byPriority_order|..].
  - intros a b Ha. unfold byPriority. by rewrite Ha.
  - intros a b Ha Hb. unfold byPriority. by rewrite Ha, Hb.
  - intros a b Ha Hb. by rewrite byPriority_rank, Ha, Hb.
  - intros a b Ha Hb Hne. rewrite !byPriority_rank, Ha, Hb. simpl.
    unfold stringLess. destruct (total String.le (i_Name a) (i_Name b)) as [Hle|Hle].
    + rewrite bool_decide_eq_true_2 by done. rewrite bool_decide_eq_false_2; [done|].
      intros [Hge _]. apply Hne. by apply (anti_symm String.le).
    + rewrite bool_decide_eq_false_2, bool_decide_eq_true_2; [done|by split; [|apply not_eq_sym]|].
      intros [Hge _]. apply Hne. by apply (anti_symm String.le).
  - intros a b Ha Hb. by rewrite byPriority_rank, Ha, Hb.
Qed.

(** ** What a rolling update redeploys *)

(** An instance to redeploy: counted, and its pod is known to be outdated. *)
Definition outdated (i : Instance) : bool := counted i && known_false (PodMatchesPodTemplate i).

(** Not known to be unavailable: redeploying it can cost availability. *)
Definition disruptive (i : Instance) : bool := negb (known_false (IsAvailable i)).

Definition available (i : Instance) : bool := counted i && known_true (IsAvailable i).

Definition numAvailable (o : observedInstances) : Z :=
  Z.of_nat (length (List.filter available (forCluster o))).

Lemma observeRollout_spec l : forall n c,
  fold_left observeRollout l (n, c) =
  ((n + Z.of_nat (length (List.filter available l)))%Z, c ++ List.filter outdated l).
Proof.
  induction l as [|i l IH]; intros n c; simpl; [by rewrite Z.add_0_r, app_nil_r|].
  change (available i) with (counted i && known_true (IsAvailable i)).
  change (outdated i) with (counted i && known_false (PodMatchesPodTemplate i)).
  unfold observeRollout at 2. simpl. destruct (counted i); simpl; [|by rewrite IH].
  destruct (known_true (IsAvailable i)), (known_false (PodMatchesPodTemplate i)); simpl;
    rewrite IH; simpl; rewrite <- ?app_assoc; apply pair_equal_spec; (split; [lia|done]).
Qed.

(** The two numbers of an instance's availability are exclusive. *)
Lemma available_disruptive i : available i = true -> disruptive i = true.
Proof.
  unfold available, disruptive, known_true, known_false. destruct (IsAvailable i) as [[] []]; simpl;
    by rewrite ?andb_false_r.
Qed.

Section Plan.
Context `{SortPackage}.

(** How many disruptive redeployments are allowed. *)
Definition budget (cluster : CrunchyCluster) (o : observedInstances) : nat :=
  Z.to_nat (maxUnavailable - (numSpecified cluster - numAvailable o)).

(** All instances that are known to be unavailable, and the first others. *)
Fixpoint pick (n : nat) (l : list Instance) : list Instance :=
  match l with
  | [] => []
  | i :: l =>
      if disruptive i then match n with S n => i :: pick n l | O => pick 0 l end
      else i :: pick n l
  end.

Definition plan (cluster : CrunchyCluster) (o : observedInstances) : list Instance :=
  pick (budget cluster o) (considered o).

(** Redeploy until one fails. *)
Fixpoint redeployAll (redeploy : Instance -> action unit) (l : list Instance) : action unit :=
  match l with
  | [] => Ret (Ok tt)
  | i :: l => do! _ := redeploy i in redeployAll redeploy l
  end.

(** Equality of programs up to the answers of the environment. *)
Inductive same {A} : action A -> action A -> Prop :=
| same_Ret a : same (Ret a) (Ret a)
| same_Call o (k k' : resp o -> action A) :
    (forall r, same (k r) (k' r)) -> same (Call o k) (Call o k').

Lemma same_refl {A} (p : action A) : same p p.
Proof. induction p; by constructor. Qed.

Lemma same_bindr {A B} (p : action A) w (k k' : A -> action B) :
  (forall a, same (k a) (k' a)) -> same (bindr p w k) (bindr p w k').
Proof.
  intros Hk. unfold bindr. induction p as [[a|e]|o q IH]; simpl; [apply Hk|constructor|].
  constructor. exact IH.
Qed.

Lemma redeployLoop_pick redeploy l : forall n,
  same (redeployLoop redeploy n l) (redeployAll redeploy (pick (Z.to_nat (maxUnavailable - n)) l)).
Proof.
  unfold maxUnavailable. induction l as [|i l IH]; intros n; simpl; [constructor|].
  unfold disruptive. destruct (known_false (IsAvailable i)); simpl.
  - apply same_bindr. intros []. apply IH.
  - case_bool_decide as Hn; unfold maxUnavailable in Hn.
    + destruct (Z.to_nat (1 - n)) as [|b] eqn:Eb; [lia|]. simpl. apply same_bindr. intros [].
      replace b with (Z.to_nat (1 - (n + 1))) by lia. apply IH.
    + replace (Z.to_nat (1 - n)) with 0 by lia.
      replace 0 with (Z.to_nat (1 - n)) at 1 by lia. apply IH.
Qed.

Lemma pick_spec l : forall n,
  pick n l `sublist_of` l /\
  List.filter (fun i => negb (disruptive i)) (pick n l) =
    List.filter (fun i => negb (disruptive i)) l /\
  List.filter disruptive (pick n l) = take n (List.filter disruptive l).
Proof.
  induction l as [|i l IH]; intros n; simpl; [by rewrite take_nil|].
  destruct (disruptive i) eqn:E; [destruct n as [|n]|]; simpl; rewrite ?E; simpl.
  - destruct (IH 0) as (? & ? & ->). split_and!; [by apply sublist_cons|done|done].
  - destruct (IH n) as (? & ? & ->). split_and!; [by apply sublist_skip|done|done].
  - destruct (IH n) as (? & -> & ->). split_and!; [by apply sublist_skip|done|done].
Qed.

Lemma considered_Permutation o : considered o ≡ₚ List.filter outdated (forCluster o).
Proof.
  unfold considered. rewrite observeRollout_spec. simpl.
  destruct (1 <? _)%nat; [apply Sort_Permutation|done].
Qed.

Lemma considered_sorted o : StronglySorted (fun a b => byPriority b a = false) (considered o).
Proof.
  unfold considered. rewrite observeRollout_spec. simpl.
  destruct (List.filter outdated (forCluster o)) as [|i [|j l]]; simpl.
  - constructor.
  - repeat constructor.
  - apply Sort_sorted, byPriority_order.
Qed.

Lemma plan_spec cluster o :
  plan cluster o `sublist_of` considered o /\
  List.filter (fun i => negb (disruptive i)) (plan cluster o) =
    List.filter (fun i => negb (disruptive i)) (considered o) /\
  List.filter disruptive (plan cluster o) =
    take (budget cluster o) (List.filter disruptive (considered o)).
Proof. apply pick_spec. Qed.

Lemma elem_of_considered o i : i ∈ considered o <-> i ∈ forCluster o /\ outdated i = true.
Proof. rewrite considered_Permutation. apply elem_of_bfilter. Qed.

Lemma plan_elem cluster o i : i ∈ plan cluster o -> i ∈ forCluster o /\ outdated i = true.
Proof.
  intros Hi. apply elem_of_considered. destruct (plan_spec cluster o) as (Hs & _).
  by eapply elem_of_sublist.
Qed.

Lemma plan_has_unavailable cluster o i :
  i ∈ forCluster o -> outdated i = true -> disruptive i = false -> i ∈ plan cluster o.
Proof.
  intros Hi Ho Hd. destruct (plan_spec cluster o) as (_ & Hu & _).
  apply (elem_of_bfilter (fun i => negb (disruptive i))). rewrite Hu.
  apply elem_of_bfilter. rewrite Hd. split; [by apply elem_of_considered|done].
Qed.

(** What is left out has no lower priority than what is taken. *)
Lemma plan_priority cluster o i j :
  i ∈ plan cluster o -> disruptive i = true -> j ∈ forCluster o -> outdated j = true ->
  j ∉ plan cluster o -> byPriority j i = false.
Proof.
  intros Hi Hdi Hj Hoj Hnj. destruct (plan_spec cluster o) as (_ & _ & Hd).
  assert (Hdj : disruptive j = true).
  { destruct (disruptive j) eqn:E; [done|]. exfalso. by apply Hnj, plan_has_unavailable. }
  set (D := List.filter disruptive (considered o)) in *.
  assert (Hi' : i ∈ take (budget cluster o) D) by (rewrite <- Hd; by apply elem_of_bfilter).
  assert (Hj' : j ∈ drop (budget cluster o) D).
  { assert (HjD : j ∈ D) by (apply elem_of_bfilter; split; [by apply elem_of_considered|done]).
    rewrite <- (take_drop (budget cluster o) D) in HjD. apply elem_of_app in HjD as [HjD|HjD]; [|done].
    rewrite <- Hd in HjD. by apply elem_of_bfilter in HjD as [? _]. }
  assert (HS : StronglySorted (fun a b => byPriority b a = false) D)
    by (eapply StronglySorted_sublist, considered_sorted; apply bfilter_sublist).
  rewrite <- (take_drop (budget cluster o) D) in HS.
  exact (StronglySorted_app_1_elem_of (fun a b => byPriority b a = false) _ _ i j HS Hi' Hj').
Qed.

Lemma plan_availability cluster o :
  (Z.of_nat (length (List.filter available (plan cluster o))) <=
   Z.max 0 (maxUnavailable - (numSpecified cluster - numAvailable o)))%Z.
Proof.
  destruct (plan_spec cluster o) as (_ & _ & Hd).
  assert (Hle : (length (List.filter available (plan cluster o)) <=
                 length (List.filter disruptive (plan cluster o)))%nat).
  { generalize (plan cluster o) as l. induction l as [|i l IH]; simpl; [done|].
    destruct (available i) eqn:E; [rewrite (available_disruptive i E); simpl; lia|].
    destruct (disruptive i); simpl; lia. }
  rewrite Hd, length_take in Hle. unfold budget in Hle. lia.
Qed.

(** C2: a rolling update redeploys, until one fails, the instances of a plan:
    outdated instances only, in order of priority; all that are known to be
    unavailable, and of the others as many as the budget allows, those of least
    priority.  As many instances stay available as there were, or at least all
    that are specified but one, and an available primary is redeployed only
    with all other outdated instances. *)
Theorem rolling_update_plan cluster o redeploy :
  let p := plan cluster o in
  same (rolloutInstances cluster o redeploy) (redeployAll redeploy p) /\
  StronglySorted (fun a b => byPriority b a = false) p /\
  (forall i, i ∈ p -> i ∈ forCluster o /\ outdated i = true) /\
  (forall i, i ∈ forCluster o -> outdated i = true -> known_false (IsAvailable i) = true -> i ∈ p) /\
  length (List.filter disruptive p) =
    (budget cluster o `min` length (List.filter disruptive (List.filter outdated (forCluster o))))%nat /\
  (forall i j, i ∈ p -> disruptive i = true -> j ∈ forCluster o -> outdated j = true -> j ∉ p ->
     byPriority j i = false) /\
  (Z.min (numAvailable o) (numSpecified cluster - maxUnavailable) <=
   numAvailable o - Z.of_nat (length (List.filter available p)))%Z /\
  (forall i j, i ∈ p -> disruptive i = true -> known_true (IsPrimary i) = true ->
     j ∈ forCluster o -> outdated j = true -> known_true (IsPrimary j) = false -> j ∈ p).
Proof.
  intros p. destruct (plan_spec cluster o) as (Hs & Hu & Hd). split_and!.
  - unfold rolloutInstances. rewrite observeRollout_spec. apply redeployLoop_pick.
  - eapply StronglySorted_sublist; [exact Hs|apply considered_sorted].
  - apply plan_elem.
  - intros i Hi Ho Ha. apply plan_has_unavailable; [done..|]. unfold disruptive. by rewrite Ha.
  - unfold p. rewrite Hd, length_take. f_equal. apply Permutation_length.
    by rewrite (considered_Permutation o).
  - apply plan_priority.
  - pose proof (plan_availability cluster o) as Ha. fold p in Ha. unfold maxUnavailable in *.
    assert (0 <= Z.of_nat (length (List.filter available p)))%Z by lia. lia.
  - intros i j Hi Hdi Hpi Hj Hoj Hpj. destruct (decide (j ∈ p)) as [|Hnj]; [done|].
    pose proof (plan_priority cluster o i j Hi Hdi Hj Hoj Hnj) as Hp.
    unfold byPriority in Hp. by rewrite Hpj, Hpi in Hp.
Qed.
End Plan.

(** ** The calls of a rolling update *)
Section RolloutCalls.
Context `{GoVersion, SortPackage}.

Definition patronictl (cmd : list string) : Prop := head cmd = Some "patronictl".

(** [rollout_call o h c]: the pod of an outdated instance is deleted, exactly as
    observed, and never the primary's while there are other instances; the
    primary of such a cluster is asked to switch over; only the one of a
    cluster with a single instance runs a checkpoint. *)
Definition rollout_call (o : observedInstances) (_ : history) (c : op) : Prop :=
  match c with
  | Delete KPod at_ opts => exists i p,
      i ∈ forCluster o /\ outdated i = true /\ i_Pods i = [p] /\ at_ = objectKey (p_Meta p) /\
      opts = Preconditions (om_UID (p_Meta p)) (om_ResourceVersion (p_Meta p)) /\
      (known_true (IsPrimary i) = true -> (length (forCluster o) <= 1)%nat)
  | Exec at_ container _ cmd => container = ContainerDatabase /\ exists i p,
      i ∈ forCluster o /\ outdated i = true /\ i_Pods i = [p] /\ at_ = objectKey (p_Meta p) /\
      known_true (IsPrimary i) = true /\
      (patronictl cmd <-> (1 < length (forCluster o))%nat)
  | Event "Warning" _ | Now | RangeOrder _ => True
  | _ => False
  end.

Lemma rolloutInstance_calls cluster o i h :
  i ∈ forCluster o -> outdated i = true ->
  wps (rollout_call o) h (rolloutInstance cluster o i) (fun _ _ => True).
Proof.
  intros Hi Ho. unfold rolloutInstance. destruct (i_Runner i); [|done].
  destruct (i_Pods i) as [|p [|]] eqn:Ep; try done.
  destruct (known_true (IsPrimary i)) eqn:Epr; cbn [andb].
  - destruct (1 <? _)%nat eqn:El; [apply Nat.ltb_lt in El|apply Nat.ltb_ge in El].
    + destruct (IsPatroniVer4 cluster) as [v|e]; [|done].
      rewrite wps_bind. unfold ChangePrimaryAndWait, podExecutor. rewrite wps_bind. simpl. split.
      * split; [done|]. exists i, p. split_and!; done.
      * intros out. by destruct (switchedOver out), (out_Err out).
    + assert (Hexec : forall stdin cmd, ~ patronictl cmd -> forall h,
                rollout_call o h (Exec (objectKey (p_Meta p)) ContainerDatabase stdin cmd)).
      { intros stdin cmd Hc h'. split; [done|]. exists i, p. split_and!; try done. split; [done|lia]. }
      assert (Hdel : forall h, wps (rollout_call o) h (deletePod p) (fun _ _ => True)).
      { intros h'. split; [|done]. exists i, p. split_and!; done. }
      assert (Hck : forall g h, wps (rollout_call o) h
                (checkpoint (podExecutor (objectKey (p_Meta p)) ContainerDatabase) g) (fun _ _ => True)).
      { intros g h'. unfold checkpoint, ExecInDatabasesFromQuery, podExecutor. simpl.
        split; [done|]. intros _. split; [done|]. intros ord. split; [refine (Hexec None _ _ []); by intros [=]|]. intros out. split; done. }
      rewrite wps_bind. unfold checkpointPrimary. rewrite wps_bind.
      eapply wps_conseq; [apply Hck|]. intros h1 [d1 e1] _. rewrite wps_bind.
      apply (wps_conseq _ _ _ (fun _ _ => True)).
      * destruct e1; [done|]. case_bool_decide; [exact (Hck _ _)|done].
      * intros h2 [d2 [e2|]] _; simpl; [split; [done|intros; exact (Hdel [])]|].
        case_bool_decide; simpl; [split; [done|intros; exact (Hdel [])]|exact (Hdel [])].
  - split; [|done]. exists i, p. split_and!; try done. by rewrite Epr.
Qed.

(** C3: whatever the environment answers, a rolling update deletes only pods of
    outdated instances, as they were observed, and never the primary's pod
    while the cluster has other instances: that primary is asked to switch
    over.  Checkpoints run only in the primary of a cluster of one. *)
Theorem rolling_update_calls cluster o h :
  wps (rollout_call o) h (rolloutInstances cluster o (rolloutInstance cluster o)) (fun _ _ => True).
Proof.
  unfold rolloutInstances. rewrite observeRollout_spec. simpl.
  match goal with |- context [redeployLoop _ ?m] => generalize m as n end.
  assert (Hc : Forall (fun i => i ∈ forCluster o /\ outdated i = true) (considered o)).
  { apply Forall_forall. intros i. apply elem_of_considered. }
  induction Hc as [|i l [Hi Ho] Hl IH] in h |- *; intros n; simpl; [done|].
  assert (Hr : forall h n, wps (rollout_call o) h
            (do! _ := rolloutInstance cluster o i in
             redeployLoop (rolloutInstance cluster o) n l) (fun _ _ => True)).
  { intros h' n'. rewrite wps_bindr. eapply wps_conseq; [by apply rolloutInstance_calls|].
    intros h2 [[]|e] _; [apply IH|done]. }
  destruct (known_false _); [apply Hr|]. case_bool_decide; [apply Hr|apply IH].
Qed.
End RolloutCalls.

(** ** Rolling updates finish

    Between two rolling updates the cluster settles: the pod that was deleted
    comes back up to date, an asked-for switchover has made another instance
    the primary, and all instances are available again.  [settles] says this
    and nothing else of the environment. *)
Section Rounds.
Context `{SortPackage} (cluster : CrunchyCluster).

Definition primary (i : Instance) : bool := known_true (IsPrimary i).
Definition healthyInstance (i : Instance) : Prop :=
  counted i = true /\ known_true (IsAvailable i) = true.

Record healthyCluster (o : observedInstances) : Prop := {
  hc_size : numSpecified cluster = Z.of_nat (length (forCluster o));
  hc_names : NoDup (map i_Name (forCluster o));
  hc_healthy : Forall healthyInstance (forCluster o);
  hc_primary : exists p, p ∈ forCluster o /\ primary p = true;
  hc_unique : forall p q, p ∈ forCluster o -> q ∈ forCluster o ->
    primary p = true -> primary q = true -> p = q
}.

(** The redeployed instance is demoted instead of recreated. *)
Definition switches (o : observedInstances) (i : Instance) : Prop :=
  i ∈ plan cluster o /\ primary i = true /\ (1 < length (forCluster o))%nat.

Definition recreated (o : observedInstances) (i : Instance) : Prop :=
  i ∈ plan cluster o /\ ~ switches o i.

Record settles (o o' : observedInstances) : Prop := {
  st_instances : Forall2 (fun i i' => i_Name i' = i_Name i /\
      (outdated i' = true <-> outdated i = true /\ ~ recreated o i) /\
      (switches o i -> primary i' = false) /\
      ((forall j, ~ switches o j) -> primary i' = primary i))
    (forCluster o) (forCluster o');
  st_healthy : Forall healthyInstance (forCluster o');
  st_primary : exists p, p ∈ forCluster o' /\ primary p = true;
  st_unique : forall p q, p ∈ forCluster o' -> q ∈ forCluster o' ->
    primary p = true -> primary q = true -> p = q
}.

Definition numOutdated (o : observedInstances) : nat :=
  length (List.filter outdated (forCluster o)).

(** Whether a switchover is still to come. *)
Definition primaryOutdated (o : observedInstances) : bool :=
  existsb (fun i => outdated i && primary i) (forCluster o).

Definition roundsLeft (o : observedInstances) : nat :=
  numOutdated o + if primaryOutdated o then 1 else 0.

Lemma settles_healthy o o' : healthyCluster o -> settles o o' -> healthyCluster o'.
Proof.
  intros [Hs Hn Hh Hp Hu] [Hf Hh' Hp' Hu']. constructor; try done.
  - by rewrite <- (Forall2_length _ _ _ Hf).
  - replace (map i_Name (forCluster o')) with (map i_Name (forCluster o)); [done|].
    clear -Hf. induction Hf as [|i i' l l' (He & _) _ IH]; simpl; [done|].
    f_equal; [exact (eq_sym He)|exact IH].
Qed.

(** One instance at a time. *)
Lemma healthy_plan o : healthyCluster o -> plan cluster o = take 1 (considered o).
Proof.
  intros [Hs _ Hh _ _]. destruct (plan_spec cluster o) as (_ & _ & Hd).
  assert (Havail : List.filter available (forCluster o) = forCluster o).
  { clear Hd Hs. induction Hh as [|i l [Hc Ha] _ IH]; simpl; [done|].
    unfold available at 1. rewrite Hc, Ha. simpl. by rewrite IH. }
  assert (Hall : forall l, (forall i, i ∈ l -> i ∈ forCluster o) -> List.filter disruptive l = l).
  { rewrite Forall_forall in Hh. induction l as [|i l IH]; intros Hl; simpl; [done|].
    destruct (Hh i) as [Hc Ha]; [apply Hl; left|].
    rewrite available_disruptive by (unfold available; by rewrite Hc, Ha).
    rewrite IH; [done|]. intros j Hj. apply Hl. by right. }
  rewrite (Hall (plan cluster o)) in Hd by (intros i Hi; by apply plan_elem in Hi as [? _]).
  rewrite (Hall (considered o)) in Hd by (intros i Hi; by apply elem_of_considered in Hi as [? _]).
  rewrite Hd. f_equal. unfold budget, numAvailable, maxUnavailable. rewrite Havail, Hs. lia.
Qed.

Lemma count_outdated o o' x :
  NoDup (forCluster o) -> x ∈ forCluster o -> outdated x = true ->
  Forall2 (fun i i' => outdated i' = true <-> outdated i = true /\ i <> x)
    (forCluster o) (forCluster o') ->
  numOutdated o = S (numOutdated o').
Proof.
  unfold numOutdated. generalize (forCluster o), (forCluster o'). intros l l' Hnd Hx Ho Hf.
  assert (Hsame : forall l l', x ∉ l ->
    Forall2 (fun i i' => outdated i' = true <-> outdated i = true /\ i <> x) l l' ->
    length (List.filter outdated l) = length (List.filter outdated l')).
  { clear. intros l l' Hx Hf. induction Hf as [|i i' l l' He _ IH]; simpl; [done|].
    apply not_elem_of_cons in Hx as [Hne Hx]. specialize (IH Hx).
    destruct (outdated i) eqn:E, (outdated i') eqn:E'; simpl; naive_solver lia. }
  induction Hf as [|i i' l l' He Hf IH]; [by apply elem_of_nil in Hx|].
  apply NoDup_cons in Hnd as [Hi Hnd]. simpl. apply elem_of_cons in Hx as [->|Hx].
  - rewrite Ho. assert (outdated i' = false) as ->.
    { destruct (outdated i') eqn:E; [|done]. exfalso. by destruct (proj1 He eq_refl). }
    simpl. by rewrite (Hsame l l').
  - assert (i <> x) by (intros ->; done). specialize (IH Hnd Hx).
    destruct (outdated i) eqn:E, (outdated i') eqn:E'; simpl; naive_solver lia.
Qed.

Lemma primaryOutdated_spec o :
  primaryOutdated o = true <-> exists i, i ∈ forCluster o /\ outdated i = true /\ primary i = true.
Proof.
  unfold primaryOutdated. rewrite existsb_exists. split; intros (i & Hi & Hb); exists i.
  - apply andb_true_iff in Hb. by rewrite list_elem_of_In.
  - apply andb_true_iff in Hb. by rewrite <- list_elem_of_In.
Qed.

Lemma Forall2_from {A B} (P : A -> B -> Prop) l k y :
  Forall2 P l k -> y ∈ k -> exists x, x ∈ l /\ P x y.
Proof.
  induction 1 as [|x z l k Hp _ IH]; intros Hy; [by apply elem_of_nil in Hy|].
  apply elem_of_cons in Hy as [->|Hy]; [exists x; split; [left|done]|].
  destruct (IH Hy) as (x' & ? & ?). exists x'. split; [by right|done].
Qed.

(** A round redeploys one instance, and one round less is left. *)
Lemma round_progress o o' :
  healthyCluster o -> settles o o' -> numOutdated o <> 0 ->
  length (plan cluster o) = 1 /\ (roundsLeft o' < roundsLeft o)%nat.
Proof.
  intros Hc [Hf _ _ _] Hne. pose proof Hc as [_ Hn _ _ Hu]. pose proof (healthy_plan o Hc) as Hplan.
  assert (Hnd : NoDup (forCluster o)) by by eapply (NoDup_fmap_1 i_Name).
  unfold numOutdated in Hne. rewrite <- considered_Permutation in Hne.
  destruct (considered o) as [|x rest] eqn:Ec; [done|]. simpl in Hplan. rewrite take_0 in Hplan.
  assert (Hx : x ∈ forCluster o /\ outdated x = true) by (apply elem_of_considered; rewrite Ec; left).
  destruct Hx as [Hx Ho]. split; [by rewrite Hplan|].
  assert (Hin : forall i, i ∈ plan cluster o <-> i = x) by (intros i; by rewrite Hplan, list_elem_of_singleton).
  destruct (decide (switches o x)) as [Hsw|Hns].
  - (* the primary is the only outdated instance, and is demoted *)
    pose proof Hsw as (_ & Hpx & _).
    assert (Honly : forall j, j ∈ forCluster o -> outdated j = true -> j = x).
    { intros j Hj Hoj. destruct (decide (j ∈ plan cluster o)) as [Hjp|Hjp]; [by apply Hin|].
      exfalso. pose proof Hc as [_ _ Hh _ _]. rewrite Forall_forall in Hh. destruct (Hh x Hx) as [Hcx Hax].
      assert (Hdx : disruptive x = true) by (apply available_disruptive; unfold available; by rewrite Hcx, Hax).
      pose proof (plan_priority cluster o x j (proj2 (Hin x) eq_refl) Hdx Hj Hoj Hjp) as Hpr.
      unfold byPriority in Hpr. fold (primary j) (primary x) in Hpr. rewrite Hpx in Hpr.
      destruct (primary j) eqn:Ej; [|done]. apply Hjp, Hin. by apply Hu. }
    assert (H1 : primaryOutdated o = true) by (apply primaryOutdated_spec; by exists x).
    assert (H2 : primaryOutdated o' = false).
    { destruct (primaryOutdated o') eqn:E; [|done]. exfalso.
      apply primaryOutdated_spec in E as (i' & Hi' & Hoi' & Hpi').
      destruct (Forall2_from _ _ _ _ Hf Hi') as (i & Hi & _ & Hoi & Hdem & _).
      apply Hoi in Hoi' as [Hoi' _]. rewrite (Honly i Hi Hoi') in Hdem. by rewrite Hdem in Hpi'. }
    assert (H3 : numOutdated o = numOutdated o').
    { unfold numOutdated. clear -Hf Hin Hsw. induction Hf as [|i i' l l' (_ & He & _) _ IH]; simpl; [done|].
      assert (outdated i' = outdated i) as ->; [|by destruct (outdated i); simpl; rewrite IH].
      apply eq_iff_eq_true. rewrite He. split; [by intros [? _]|]. intros Hi. split; [done|].
      intros [Hp Hnsw]. apply Hin in Hp as ->. done. }
    unfold roundsLeft. rewrite H1, H2, H3. lia.
  - (* the instance is recreated *)
    assert (Hnone : forall j, ~ switches o j) by (intros j Hj; pose proof Hj as [->%Hin _]; done).
    assert (H1 : numOutdated o = S (numOutdated o')).
    { apply (count_outdated o o' x); [done..|]. eapply Forall2_impl; [exact Hf|].
      intros i i' (_ & He & _). rewrite He. unfold recreated. rewrite Hin. naive_solver. }
    assert (H2 : primaryOutdated o' = true -> primaryOutdated o = true).
    { rewrite !primaryOutdated_spec. intros (i' & Hi' & Hoi' & Hpi').
      destruct (Forall2_from _ _ _ _ Hf Hi') as (i & Hi & _ & Hoi & _ & Hrole).
      apply Hoi in Hoi' as [Hoi' _]. exists i. by rewrite <- Hrole. }
    unfold roundsLeft. rewrite H1. destruct (primaryOutdated o'); [rewrite H2 by done|]; lia.
Qed.

Lemma updated_stays o o' : settles o o' -> numOutdated o = 0 -> numOutdated o' = 0.
Proof.
  intros [Hf _ _ _]. unfold numOutdated. intros H0.
  destruct (List.filter outdated (forCluster o')) as [|i' l] eqn:E; [done|]. exfalso.
  assert (Hi' : i' ∈ List.filter outdated (forCluster o')) by (rewrite E; left).
  apply elem_of_bfilter in Hi' as [Hi' Ho'].
  destruct (Forall2_from _ _ _ _ Hf Hi') as (i & Hi & _ & Hoi & _).
  destruct (proj1 Hoi Ho') as [Hoi' _].
  assert (Hin : i ∈ List.filter outdated (forCluster o)) by by apply elem_of_bfilter.
  destruct (List.filter outdated (forCluster o)); [by apply elem_of_nil in Hin|done].
Qed.

(** C4: rolling updates finish.  When all instances of a cluster are available
    and the cluster settles after every rolling update, each update redeploys
    exactly one instance while any is outdated, and after as many updates as
    there are outdated instances, and one more for a switchover, none is. *)
Theorem rolling_update_terminates o k o' :
  healthyCluster o -> nsteps settles k o o' ->
  healthyCluster o' /\
  (numOutdated o' <> 0 -> length (plan cluster o') = 1 /\ (k + roundsLeft o' <= roundsLeft o)%nat) /\
  ((numOutdated o < k)%nat -> numOutdated o' = 0).
Proof.
  intros Hc Hk.
  assert (Hinv : healthyCluster o' /\ (numOutdated o' <> 0 -> (k + roundsLeft o' <= roundsLeft o)%nat)).
  { revert Hc. induction Hk as [o|k o o1 o2 Hstep Hk IH]; intros Hc; [done|].
    pose proof (settles_healthy _ _ Hc Hstep) as Hc1. destruct (IH Hc1) as [Hc2 Hle].
    split; [done|]. intros Hne. specialize (Hle Hne).
    destruct (decide (numOutdated o = 0)) as [H0|H0].
    - exfalso. apply Hne. assert (H1 : numOutdated o1 = 0) by by eapply updated_stays.
      clear -Hk H1. induction Hk as [|k o1 o2 o3 Hs Hk IH]; [done|]. apply IH. by eapply updated_stays.
    - destruct (round_progress _ _ Hc Hstep H0) as [_ Hlt]. lia. }
  destruct Hinv as [Hc' Hle]. split; [done|split].
  - intros Hne. split; [|by apply Hle]. rewrite (healthy_plan _ Hc'), length_take.
    unfold numOutdated in Hne. rewrite <- considered_Permutation in Hne. lia.
  - intros Hlt. destruct (decide (numOutdated o' = 0)) as [|Hne]; [done|]. specialize (Hle Hne).
    exfalso. unfold roundsLeft in Hle. destruct (primaryOutdated o), (primaryOutdated o'); lia.
Qed.
End Rounds.

(** ** Examples *)
Module MergeSort.
Definition sort {A} (less : A -> A -> bool) : list A -> list A :=
  @merge_sort A (fun a b => less b a = false) (fun a b => decide (less b a = false)).

Definition package : SortPackage.
Proof.
  refine (Build_SortPackage (@sort) _ _).
  - intros A less l. apply merge_sort_Permutation.
  - intros A less l [Hi Ht Hw]. apply StronglySorted_merge_sort.
    + intros a b c Hba Hcb. destruct (less c a) eqn:E; [|done].
      destruct (Hw _ b _ E) as [H'|H']; congruence.
    + intros a b. destruct (less b a) eqn:E; [right|by left].
      destruct (less a b) eqn:E'; [|done]. pose proof (Ht a b a E' E). pose proof (Hi a). congruence.
Defined.
End MergeSort.

#[local] Existing Instance MergeSort.package.

(** A cluster of two whose primary is outdated: a switchover, then a new pod. *)
Module ExampleRollout.
Definition cluster : CrunchyCluster := ExampleInstances.cluster [ExampleInstances.set1 2].
Definition a (role revision : string) : Instance := ExampleInstances.instance "a" role revision.
Definition b (role : string) : Instance := ExampleInstances.instance "b" role "new".
Definition observed (roleA revisionA roleB : string) : observedInstances :=
  mkObserved [a roleA revisionA; b roleB] ∅ ∅ ∅.

Definition before : observedInstances := observed "primary" "old" "replica".
Definition demoted : observedInstances := observed "replica" "old" "primary".
Definition after : observedInstances := observed "replica" "new" "primary".

(** One primary, case by case. *)
Ltac unique_primary :=
  intros p q [->|[->|Hp%elem_of_nil]%elem_of_cons]%elem_of_cons
             [->|[->|Hq%elem_of_nil]%elem_of_cons]%elem_of_cons Hpp Hpq;
  vm_compute in Hpp, Hpq; done.

(** An instance that is up to date, before and after. *)
Ltac up_to_date := split; [intros Hx; by vm_compute in Hx|intros [Hx _]; by vm_compute in Hx].

Lemma healthy_before : healthyCluster cluster before.
Proof.
  constructor.
  - by vm_compute.
  - apply (bool_decide_eq_true_1 _). by vm_compute.
  - repeat constructor.
  - eexists. split; [left|by vm_compute].
  - unique_primary.
Qed.

Lemma plan_before : plan cluster before = [a "primary" "old"].
Proof. by vm_compute. Qed.
Lemma plan_demoted : plan cluster demoted = [a "replica" "old"].
Proof. by vm_compute. Qed.

Lemma switches_before i : switches cluster before i <-> i = a "primary" "old".
Proof.
  unfold switches. rewrite plan_before, list_elem_of_singleton. split; [by intros [? _]|].
  intros ->. split_and!; [done|by vm_compute|simpl; lia].
Qed.

Lemma switches_demoted i : ~ switches cluster demoted i.
Proof. unfold switches. rewrite plan_demoted, list_elem_of_singleton. by intros (-> & ? & _). Qed.

Lemma switchover : settles cluster before demoted.
Proof.
  constructor.
  - constructor; [|constructor; [|constructor]]; unfold recreated; rewrite switches_before.
    + split_and!; [done| |done|]; [split; [|done]; intros _; split; [done|tauto]|].
      intros Hn. exfalso. by apply (Hn (a "primary" "old")), switches_before.
    + split_and!; [done|up_to_date|done|].
      intros Hn. exfalso. by apply (Hn (a "primary" "old")), switches_before.
  - repeat constructor.
  - exists (b "primary"). split; [right; left|by vm_compute].
  - unique_primary.
Qed.

Lemma recreation : settles cluster demoted after.
Proof.
  constructor.
  - constructor; [|constructor; [|constructor]]; unfold recreated; rewrite plan_demoted.
    + split_and!; [done| |done|done]. split; [done|]. intros [_ Hn]. exfalso. apply Hn.
      split; [left|apply switches_demoted].
    + split_and!; [done|up_to_date|by intros ?%switches_demoted|done].
  - repeat constructor.
  - exists (b "primary"). split; [right; left|by vm_compute].
  - unique_primary.
Qed.
End ExampleRollout.

Lemma rolling_update_terminates_witness :
  numOutdated ExampleRollout.before = 1%nat /\
  healthyCluster ExampleRollout.cluster ExampleRollout.after /\
  numOutdated ExampleRollout.after = 0%nat.
Proof.
  split; [by vm_compute|].
  destruct (rolling_update_terminates ExampleRollout.cluster ExampleRollout.before 2 ExampleRollout.after
    ExampleRollout.healthy_before) as (Hh & _ & Hz).
  - eapply nsteps_l; [exact ExampleRollout.switchover|].
    eapply nsteps_l; [exact ExampleRollout.recreation|]. constructor.
  - split; [exact Hh|]. apply Hz. vm_compute. lia.
Defined.
