(* ===== verification/ScaleInstances.v ===== *)
(** * Adding, removing and stopping instances of a cluster

    The rest of [internal/controller/postgrescluster/instance.go] that decides:
    which instances a cluster keeps when it shrinks, how those of a deleted
    cluster are stopped, in which order a cluster shuts down and starts, and
    how new instances are named.  The construction of an instance's objects
    ([reconcileInstance]) is a parameter. *)
From S2P Require Import Prelude GoStrings Cluster Prog Errors Naming Objects Client Psql.
From S2P Require Import ObservedInstances Rollout.

Section ScaleDown.
Context `{LabelMatching}.

(** ** Removing instances *)

(** [podsToKeep], for one set *)
Definition keepOfSet (instances : list Pod) (want : Z) : list Pod :=
  let keep := if bool_decide (0 < want)%Z
              then List.filter (fun p => isLeaderRole (podRole p)) instances else [] in
  fold_left (fun keep p =>
      if negb (isLeaderRole (podRole p)) && bool_decide (Z.of_nat (length keep) < want)%Z
      then keep ++ [p] else keep)
    instances keep.

(** [podsToKeep], visiting the sets in the order [sets] *)
Definition podsToKeep (sets : list string) (instances : list Pod) (want : gmap string Z) : list Pod :=
  mjoin (map (fun name =>
      keepOfSet (List.filter (fun p => bool_decide (label (p_Meta p) LabelInstanceSet = name)) instances)
        (default 0%Z (want !! name))) sets).

(** [deleteControlled] *)
Definition deleteControlled (cluster : CrunchyCluster) {k} (object : obj k) : action unit :=
  if bool_decide (om_Controller (meta object) = Some (om_UID (cc_Meta cluster)))
  then call (Delete k (objectKey (meta object))
         (Preconditions (om_UID (meta object)) (om_ResourceVersion (meta object))))
  else Ret (Ok tt).

Definition ignoreNotFound (p : action unit) : action unit :=
  let! r := p in
  Ret (match r with Err e => if IsNotFound e then Ok tt else Err e | Ok _ => Ok tt end).

Fixpoint deleteAllControlled (cluster : CrunchyCluster) {k} (l : list (obj k)) : action unit :=
  match l with
  | [] => Ret (Ok tt)
  | o :: l => do! _ := ignoreNotFound (deleteControlled cluster o) in deleteAllControlled cluster l
  end.

Fixpoint deleteKinds (cluster : CrunchyCluster) (selector : Selector) (kinds : list kind)
    : action unit :=
  match kinds with
  | [] => Ret (Ok tt)
  | k :: kinds =>
      do! l := call (ListAll k (cc_Namespace cluster) (ByLabels selector)) in
      do! _ := deleteAllControlled cluster l in
      deleteKinds cluster selector kinds
  end.

Definition deleteInstance (cluster : CrunchyCluster) (instanceName : string) : action unit :=
  match AsSelector (ClusterInstance (cc_Name cluster) instanceName) with
  | Err e => Ret (Err e)
  | Ok selector => deleteKinds cluster selector [KConfigMap; KSecret; KSts; KPVC]
  end.

Definition wantOf (cluster : CrunchyCluster) : gmap string Z :=
  fold_left (fun m s => <[is_Name s := is_Replicas s]> m) (cc_InstanceSets cluster) ∅.

Definition podInstance (p : Pod) : string := label (p_Meta p) LabelInstance.

Fixpoint deleteUnkept (cluster : CrunchyCluster) (namesToKeep : list string) (pods : list Pod)
    : action unit :=
  match pods with
  | [] => Ret (Ok tt)
  | p :: pods =>
      if bool_decide (podInstance p ∈ namesToKeep) then deleteUnkept cluster namesToKeep pods
      else do! _ := deleteInstance cluster (podInstance p) in
           deleteUnkept cluster namesToKeep pods
  end.

Definition scaleDownInstances (cluster : CrunchyCluster) (o : observedInstances) : action unit :=
  let want := wantOf cluster in
  let pods := mjoin (map i_Pods (forCluster o)) in
  let! sets := call (RangeOrder (keys want)) in
  deleteUnkept cluster (map podInstance (podsToKeep (proj1_sig sets) pods want)) pods.
End ScaleDown.

(** ** Stopping the instances of a deleted cluster *)

(** [reconcile.Result]; times in nanoseconds *)
Record Result := mkResult { res_Requeue : bool; res_RequeueAfter : Z }.
#[export] Instance Result_eta : Eta Result := fun r => mkResult (res_Requeue r) (res_RequeueAfter r).

Definition second : Z := 1000000000.

(** [runtime.RequeueWithoutBackoff] *)
Definition RequeueWithoutBackoff (delay : Z) : Result :=
  mkResult true (if bool_decide (delay <= 0)%Z then 1 else delay)%Z.

(** {"spec":{"replicas":0}} *)
Definition noReplicas : string :=
  "{" +:+ jsonKey "spec" +:+ "{" +:+ jsonKey "replicas" +:+ "0}}".

(** The closure [stop], with the result it changes. *)
Definition stop (cluster : CrunchyCluster) (pod : Pod) (result : Result)
    : program (Result * option error) :=
  match p_Owner pod with
  | None => Ret (result, Some (New "pod has no owner"))
  | Some (kind, name) =>
      if bool_decide (kind = "StatefulSet") then
        let! r := call (RawPatch KSts (cc_Namespace cluster, name) noReplicas) in
        match r with
        | Ok _ => Ret (result, None)
        | Err e => Ret (RequeueWithoutBackoff (10 * second), IgnoreNotFound (Some e))
        end
      else Ret (result, Some (New "unexpected kind"))
  end.

(** The body of the loop over several pods: both conditions in turn. *)
Definition stopWhen (cluster : CrunchyCluster) (cond : bool) (pod : Pod)
    (acc : Result * option error) : program (Result * option error) :=
  match acc with
  | (result, None) =>
      if cond then
        let! r := stop cluster pod result in
        Ret (r.1 <| res_RequeueAfter := 0%Z |>, r.2)
      else Ret acc
  | (_, Some _) => Ret acc
  end.

Fixpoint stopReplicas (cluster : CrunchyCluster) (pods : list Pod) (acc : Result * option error)
    : program (Result * option error) :=
  match pods with
  | [] => Ret acc
  | p :: pods =>
      let role := podRole p in
      let! acc := stopWhen cluster (bool_decide (role = RolePatroniReplica)) p acc in
      let! acc := stopWhen cluster (negb (nonempty role)) p acc in
      stopReplicas cluster pods acc
  end.

(** A nil result, nil error: there are no instances any more. *)
Definition deleteInstances `{LabelMatching} (cluster : CrunchyCluster)
    : program (option Result * option error) :=
  match AsSelector (ClusterInstances (cc_Name cluster)) with
  | Err e => Ret (None, Some e)
  | Ok selector =>
      let! r := call (ListAll KPod (cc_Namespace cluster) (ByLabels selector)) in
      match r with
      | Err e => Ret (None, Some e)
      | Ok [] => Ret (None, None)
      | Ok [pod] =>
          let! r := stop cluster pod (mkResult false 0) in Ret (Some r.1, r.2)
      | Ok pods =>
          let! r := stopReplicas cluster pods (mkResult false second, None) in Ret (Some r.1, r.2)
      end
  end.

(** ** Shutting down and starting a cluster *)

(** [reconcileInstanceSets]: the loop that remembers the primary of a cluster
    that shuts down.  [None] is a panic: the primary's set is nil. *)
Definition rememberPrimary (cluster : CrunchyCluster) (i : Instance) : option CrunchyCluster :=
  if known_true (IsPrimary i) then
    if default false (cc_Shutdown cluster) then
      match i_Spec i with
      | Some set => Some (cluster <| cc_StartupInstance := i_Name i |>
                                  <| cc_StartupInstanceSet := is_Name set |>)
      | None => None
      end
    else Some (cluster <| cc_StartupInstance := "" |> <| cc_StartupInstanceSet := "" |>)
  else Some cluster.

Definition startupInstance (cluster : CrunchyCluster) (o : observedInstances)
    : option CrunchyCluster :=
  fold_left (fun c i => match c with Some c => rememberPrimary c i | None => None end)
    (forCluster o) (Some cluster).

Definition numInstancePods (o : observedInstances) : Z :=
  foldr Z.add 0%Z (map (fun i => Z.of_nat (length (i_Pods i))) (forCluster o)).

(** [generateInstanceStatefulSetIntent]: [sts.Spec.Replicas] *)
Definition intendedReplicas (cluster : CrunchyCluster) (stsName : string) (numInstancePods : Z)
    (suspend : bool) : Z :=
  let replicas :=
    if bool_decide (cc_StartupInstance cluster = "") then 1%Z
    else if negb (bool_decide (cc_StartupInstance cluster = stsName)) then 0%Z
    else if default false (cc_Shutdown cluster) && bool_decide (numInstancePods <= 1)%Z then 0%Z
    else 1%Z in
  if suspend then 0%Z else replicas.

(** ** Adding instances *)
Section ScaleUp.
Context (cluster : CrunchyCluster) (o : observedInstances) (set : PostgresInstanceSetSpec).

(** Volumes of the set with a role that are not terminating. *)
Definition setVolumes (role : string) (volumes : list PVC) : list PVC :=
  List.filter (fun v =>
      negb (isDeleting (pvc_Meta v))
      && bool_decide (label (pvc_Meta v) LabelRole = role)
      && bool_decide (label (pvc_Meta v) LabelInstanceSet = is_Name set))
    volumes.

Definition volumeInstance (v : PVC) : string := label (pvc_Meta v) LabelInstance.

(** No instance, or one without a StatefulSet. *)
Definition withoutRunner (name : string) : bool :=
  match instanceNamed o name with
  | Some i => match i_Runner i with Some _ => false | None => true end
  | None => true
  end.

Definition findAvailableInstanceNames (clusterVolumes : list PVC) : list string :=
  let volumes := setVolumes RolePostgresData clusterVolumes in
  let volumes :=
    if is_WALVolume set
    then mjoin (map (fun v =>
           List.filter (fun w => bool_decide (volumeInstance w = volumeInstance v))
             (setVolumes RolePostgresWAL clusterVolumes)) volumes)
    else volumes in
  List.filter withoutRunner (map volumeInstance volumes).

(** The object of a StatefulSet that does not exist yet. *)
Definition emptySts (m : NamedMeta) : StatefulSet :=
  mkSts (mkMeta (meta_Name m) (meta_Namespace m) "" "" 0 0 None ∅ ∅ [] None "") 0 0 0 "" (mkTemplate [] [] []) "" ∅ None.

Definition generate (rnd : string) : StatefulSet :=
  emptySts (GenerateInstance rnd (config cluster) (is_Name set)).

(** [for instanceNames.Has(next.Name)]: at most [fuel] more draws; [None] when
    they do not suffice. *)
Fixpoint freshInstance (fuel : nat) (names : list string) (next : StatefulSet)
    : program (option StatefulSet) :=
  if bool_decide (runnerName next ∈ names) then
    match fuel with
    | S fuel => let! rnd := call (Rand 4) in freshInstance fuel names (generate rnd)
    | O => Ret None
    end
  else Ret (Some next).

(** [n] more instances. *)
Fixpoint newInstances (fuel n : nat) (available names : list string)
    : program (option (list StatefulSet)) :=
  match n with
  | O => Ret (Some [])
  | S n =>
      let! rnd := call (Rand 4) in
      let next := generate rnd in
      let! next :=
        match available with
        | name :: _ => Ret (Some (emptySts (mkNM (cc_Namespace cluster) name)))
        | [] => freshInstance fuel names next
        end in
      match next with
      | None => Ret None
      | Some next =>
          let! more := newInstances fuel n (tail available) (names ++ [runnerName next]) in
          Ret (match more with Some more => Some (next :: more) | None => None end)
      end
  end.

(** The StatefulSets of the set that are there. *)
Definition existingRunners : list StatefulSet := omap i_Runner (instancesOfSet o (is_Name set)).
Definition existingNames : list string :=
  map i_Name (List.filter (fun i => match i_Runner i with Some _ => true | None => false end)
    (instancesOfSet o (is_Name set))).

(** Every instance is reconciled; the error is that of the last one. *)
Fixpoint reconcileAll (reconcileInstance : StatefulSet -> action unit) (l : list StatefulSet)
    (err : option error) : program (option error) :=
  match l with
  | [] => Ret err
  | i :: l =>
      let! r := reconcileInstance i in reconcileAll reconcileInstance l (err_of r)
  end.

Definition scaleUpInstances (reconcileInstance : StatefulSet -> action unit) (fuel : nat)
    (availableInstanceNames : list string) : program (option (list StatefulSet * option error)) :=
  let missing := Z.to_nat (is_Replicas set - Z.of_nat (length existingRunners)) in
  let! new := newInstances fuel missing availableInstanceNames existingNames in
  match new with
  | None => Ret None
  | Some new =>
      let instances := existingRunners ++ new in
      let! err := reconcileAll reconcileInstance instances None in
      Ret (Some (instances, err))
  end.
End ScaleUp.

(** ** All instance sets *)
Section InstanceSets.
Context `{GoVersion, LabelMatching, SortPackage}.

Fixpoint deleteStalePDBs (cluster : CrunchyCluster) (l : list PodDisruptionBudget) : action unit :=
  match l with
  | [] => Ret (Ok tt)
  | pdb :: l =>
      if bool_decide (label (pdb_Meta pdb) LabelInstanceSet ∈ map is_Name (cc_InstanceSets cluster))
      then deleteStalePDBs cluster l
      else do! _ := ignoreNotFound (deleteControlled cluster (k := KPDB) pdb) in
           deleteStalePDBs cluster l
  end.

Definition cleanupPodDisruptionBudgets (cluster : CrunchyCluster) : action unit :=
  match AsSelector (ClusterInstanceSets (cc_Name cluster)) with
  | Err e => ignoreNotFound (Ret (Err e))
  | Ok selector =>
      ignoreNotFound (
        do! l := call (ListAll KPDB (cc_Namespace cluster) (ByLabels selector)) in
        deleteStalePDBs cluster l)
  end.

(** What reconciles one StatefulSet of a set, and the set's PodDisruptionBudget. *)
Context (reconcileInstance : CrunchyCluster -> PostgresInstanceSetSpec -> StatefulSet -> action unit).
Context (reconcileInstanceSetPodDisruptionBudget : CrunchyCluster -> PostgresInstanceSetSpec -> action unit).

(** [None]: no free name was found with the [fuel]. *)
Fixpoint scaleUpSets (fuel : nat) (cluster : CrunchyCluster) (o : observedInstances)
    (clusterVolumes : list PVC) (sets : list PostgresInstanceSetSpec) : program (option (result unit)) :=
  match sets with
  | [] => Ret (Some (Ok tt))
  | set :: sets =>
      let! r := scaleUpInstances cluster o set (reconcileInstance cluster set) fuel
                  (findAvailableInstanceNames o set clusterVolumes) in
      match r with
      | None => Ret None
      | Some (_, Some e) => Ret (Some (Err e))
      | Some (_, None) =>
          let! r := reconcileInstanceSetPodDisruptionBudget cluster set in
          match r with
          | Err e => Ret (Some (Err e))
          | Ok _ => scaleUpSets fuel cluster o clusterVolumes sets
          end
      end
  end.

(** The rest, once every set has been scaled up. *)
Definition shrinkAndRollout (cluster : CrunchyCluster) (o : observedInstances) : action unit :=
  do! _ := scaleDownInstances cluster o in
  do! _ := cleanupPodDisruptionBudgets cluster in
  rolloutInstances cluster o (rolloutInstance cluster o).

Definition reconcileInstanceSets (fuel : nat) (cluster : CrunchyCluster) (o : observedInstances)
    (clusterVolumes : list PVC) : program (option (CrunchyCluster * result unit)) :=
  match startupInstance cluster o with
  | None => Ret (Some (cluster, Err (New "nil pointer dereference")))
  | Some cluster =>
      let! r := scaleUpSets fuel cluster o clusterVolumes (cc_InstanceSets cluster) in
      match r with
      | None => Ret None
      | Some (Err e) => Ret (Some (cluster, Err e))
      | Some (Ok _) => let! r := shrinkAndRollout cluster o in Ret (Some (cluster, r))
      end
  end.
End InstanceSets.

(** ** Which pods are kept *)
Definition leaders (l : list Pod) : list Pod := List.filter (fun p => isLeaderRole (podRole p)) l.
Definition others (l : list Pod) : list Pod := List.filter (fun p => negb (isLeaderRole (podRole p))) l.

Lemma keepOthers want l : forall keep,
  fold_left (fun keep p =>
      if negb (isLeaderRole (podRole p)) && bool_decide (Z.of_nat (length keep) < want)%Z
      then keep ++ [p] else keep) l keep =
  keep ++ take (Z.to_nat want - length keep) (others l).
Proof.
  induction l as [|p l IH]; intros keep; simpl; [by rewrite take_nil, app_nil_r|].
  rewrite IH. destruct (isLeaderRole (podRole p)); simpl; [done|].
  case_bool_decide as Hlt.
  - rewrite length_app. simpl.
    replace (Z.to_nat want - length keep) with (S (Z.to_nat want - (length keep + 1))) by lia.
    simpl. by rewrite <- app_assoc.
  - replace (Z.to_nat want - length keep) with 0 by lia. done.
Qed.

Lemma leaders_others_length l : length (leaders l) + length (others l) = length l.
Proof. induction l as [|p l IH]; simpl; [done|]. destruct (isLeaderRole _); simpl; lia. Qed.

Lemma keepOfSet_spec l want :
  keepOfSet l want =
  if bool_decide (0 < want)%Z
  then leaders l ++ take (Z.to_nat want - length (leaders l)) (others l) else [].
Proof.
  unfold keepOfSet. rewrite keepOthers. fold (leaders l).
  case_bool_decide as Hw; [done|]. simpl. by replace (Z.to_nat want - 0) with 0 by lia.
Qed.

(** The pods of a set, and whether a pod is kept. *)
Definition podSet (p : Pod) : string := label (p_Meta p) LabelInstanceSet.
Definition ofSet (name : string) (pods : list Pod) : list Pod :=
  List.filter (fun p => bool_decide (podSet p = name)) pods.

Definition kept (pods : list Pod) (want : gmap string Z) (p : Pod) : Prop :=
  p ∈ keepOfSet (ofSet (podSet p) pods) (default 0%Z (want !! podSet p)).

Lemma keepOfSet_sub l want p : p ∈ keepOfSet l want -> p ∈ l.
Proof.
  rewrite keepOfSet_spec. case_bool_decide; [|by intros ?%elem_of_nil].
  rewrite elem_of_app. intros [Hp|Hp].
  - by apply elem_of_bfilter in Hp as [? _].
  - apply elem_of_take in Hp as (n & Hp & _). apply list_elem_of_lookup_2 in Hp.
    by apply elem_of_bfilter in Hp as [? _].
Qed.

Lemma elem_of_podsToKeep (sets : list string) pods (want : gmap string Z) p :
  sets ≡ₚ keys want -> p ∈ podsToKeep sets pods want <-> kept pods want p.
Proof.
  intros Hs. unfold podsToKeep, kept. rewrite list_elem_of_join. split.
  - intros (l & Hp & (name & -> & Hname)%list_elem_of_fmap).
    pose proof (keepOfSet_sub _ _ _ Hp) as [_ Heq]%elem_of_bfilter.
    apply bool_decide_eq_true in Heq. unfold podSet. by rewrite Heq.
  - intros Hp. eexists. split; [exact Hp|]. apply list_elem_of_fmap. exists (podSet p). split; [done|].
    rewrite Hs. apply elem_of_keys. destruct (want !! podSet p) as [w|] eqn:E; [by exists w|].
    exfalso. rewrite keepOfSet_spec in Hp. simpl in Hp. by apply elem_of_nil in Hp.
Qed.

(** When a cluster shrinks, [podsToKeep] keeps of every set what a direct
    definition says: nothing of a set that wants none, and otherwise all
    primaries and the first other pods up to the wanted number; so it keeps
    the wanted number of pods, fewer only when there are fewer and more only
    when there are more primaries; the order in which Go visits the map of
    sets does not matter. *)
Theorem pods_to_keep_reference (sets : list string) pods (want : gmap string Z) :
  sets ≡ₚ keys want ->
  (forall p, p ∈ podsToKeep sets pods want <->
     let l := ofSet (podSet p) pods in
     let w := default 0%Z (want !! podSet p) in
     (0 < w)%Z /\ p ∈ leaders l ++ take (Z.to_nat w - length (leaders l)) (others l)) /\
  (forall name, let l := ofSet name pods in
     length (keepOfSet l (default 0%Z (want !! name))) =
     match want !! name with
     | Some w => if bool_decide (0 < w)%Z
                 then length (leaders l) `max` (Z.to_nat w `min` length l) else 0
     | None => 0
     end).
Proof.
  intros Hs. split.
  - intros p. rewrite elem_of_podsToKeep by done. unfold kept. rewrite keepOfSet_spec.
    case_bool_decide as Hw; [naive_solver|]. rewrite elem_of_nil. naive_solver.
  - intros name l. destruct (want !! name) as [w|]; simpl; rewrite keepOfSet_spec; [|done].
    case_bool_decide as Hw; [|done].
    rewrite length_app, length_take. pose proof (leaders_others_length l). lia.
Qed.

(** ** The calls that remove instances *)
Section ScaleDownCalls.
Context `{LabelMatching} (cluster : CrunchyCluster).

(** An observed instance none of whose pods is kept. *)
Definition doomed (pods : list Pod) (name : string) : Prop :=
  (exists p, p ∈ pods /\ podInstance p = name) /\
  forall p, p ∈ pods -> podInstance p = name -> ~ kept pods (wantOf cluster) p.

(** Objects of a doomed instance are listed, and those that the cluster controls
    deleted as they were listed. *)
Definition scale_down_call (pods : list Pod) (h : history) (c : op) : Prop :=
  match c with
  | RangeOrder _ => True
  | ListAll k ns sel => k ∈ [KConfigMap; KSecret; KSts; KPVC] /\ ns = cc_Namespace cluster /\
      exists name s, doomed pods name /\ sel = ByLabels s /\
        AsSelector (ClusterInstance (cc_Name cluster) name) = Ok s
  | Delete k at_ opts => exists name s (l : list (obj k)) (o : obj k),
      doomed pods name /\ AsSelector (ClusterInstance (cc_Name cluster) name) = Ok s /\
      (Ev (ListAll k (cc_Namespace cluster) (ByLabels s) : op) (Ok l : resp (ListAll k _ _))) ∈ h /\
      o ∈ l /\ om_Controller (meta o) = Some (om_UID (cc_Meta cluster)) /\
      at_ = objectKey (meta o) /\
      opts = Preconditions (om_UID (meta o)) (om_ResourceVersion (meta o))
  | _ => False
  end.

Section OneInstance.
Context (pods : list Pod) (name : string) (s : Selector).
Hypothesis Hdoomed : doomed pods name.
Hypothesis Hsel : AsSelector (ClusterInstance (cc_Name cluster) name) = Ok s.

Lemma deleteAllControlled_calls k (all l : list (obj k)) : forall h,
  (Ev (ListAll k (cc_Namespace cluster) (ByLabels s) : op) (Ok all : resp (ListAll k _ _))) ∈ h ->
  (forall o, o ∈ l -> o ∈ all) ->
  wps (scale_down_call pods) h (deleteAllControlled cluster l) (fun _ _ => True).
Proof.
  induction l as [|o l IH]; intros h Hin Hsub; simpl; [done|].
  rewrite wps_bindr. unfold ignoreNotFound. rewrite wps_bind.
  assert (Hrest : forall h', h `prefix_of` h' ->
    wps (scale_down_call pods) h' (deleteAllControlled cluster l) (fun _ _ => True)).
  { intros h' Hp. apply IH; [by eapply elem_of_grow|]. intros o' Ho'. apply Hsub. by right. }
  unfold deleteControlled. case_bool_decide as Hc; simpl; [|by apply Hrest].
  split.
  - exists name, s, all, o. split_and!; try done. apply Hsub. left.
  - intros [[]|e]; simpl; [by apply Hrest, prefix_app_r|].
    destruct (IsNotFound e); [by apply Hrest, prefix_app_r|done].
Qed.

Lemma deleteKinds_calls kinds : forall h,
  (forall k, k ∈ kinds -> k ∈ [KConfigMap; KSecret; KSts; KPVC]) ->
  wps (scale_down_call pods) h (deleteKinds cluster s kinds) (fun _ _ => True).
Proof.
  induction kinds as [|k kinds IH]; intros h Hk; simpl; [done|]. split.
  - split_and!; [apply Hk; left|done|]. by exists name, s.
  - intros [l|e]; [|done]. rewrite wps_bindr.
    eapply wps_conseq; [apply (deleteAllControlled_calls k l); [apply elem_of_snoc|done]|].
    intros h' [[]|e] _; [|done]. apply IH. intros k' Hk'. apply Hk. by right.
Qed.
End OneInstance.

Lemma deleteUnkept_calls names pods : 
  (forall p, p ∈ pods -> podInstance p ∉ names -> doomed pods (podInstance p)) ->
  forall todo h, (forall p, p ∈ todo -> p ∈ pods) ->
  wps (scale_down_call pods) h (deleteUnkept cluster names todo) (fun _ _ => True).
Proof.
  intros Hn. induction todo as [|p todo IH]; intros h Hsub; simpl; [done|].
  assert (Hrest : forall h, wps (scale_down_call pods) h (deleteUnkept cluster names todo) (fun _ _ => True)).
  { intros h'. apply IH. intros q Hq. apply Hsub. by right. }
  case_bool_decide as Hin; [apply Hrest|].
  rewrite wps_bindr. unfold deleteInstance.
  destruct (AsSelector (ClusterInstance (cc_Name cluster) (podInstance p))) as [s|e] eqn:Es; [|done].
  eapply wps_conseq; [apply (deleteKinds_calls pods (podInstance p) s); [|done|done]|].
  - apply Hn; [|done]. apply Hsub. left.
  - intros h' [[]|e] _; [apply Hrest|done].
Qed.

(** C10: shrinking a cluster deletes only objects of instances none of whose
    pods is kept, those that the cluster controls, exactly as they were listed;
    in particular no instance with a primary pod whose set wants a replica. *)
Theorem scale_down_calls o h :
  let pods := mjoin (map i_Pods (forCluster o)) in
  wps (scale_down_call pods) h (scaleDownInstances cluster o) (fun _ _ => True) /\
  forall p, p ∈ pods -> isLeaderRole (podRole p) = true ->
    (0 < default 0 (wantOf cluster !! podSet p))%Z -> ~ doomed pods (podInstance p).
Proof.
  intros pods. split.
  - unfold scaleDownInstances. fold pods. simpl. split; [done|]. intros [sets Hs]. simpl.
    apply deleteUnkept_calls; [|done]. intros p Hp Hnk. split; [by exists p|].
    intros q Hq Hname Hk. apply Hnk. rewrite <- Hname. apply list_elem_of_fmap_2.
    by apply elem_of_podsToKeep.
  - intros p Hp Hl Hw [_ Hno]. apply (Hno p Hp eq_refl). unfold kept. rewrite keepOfSet_spec.
    rewrite bool_decide_eq_true_2 by done. apply elem_of_app. left.
    apply elem_of_bfilter. split; [|done]. apply elem_of_bfilter. split; [done|].
    by apply bool_decide_eq_true.
Qed.
End ScaleDownCalls.

(** ** Stopping: which pods, and the result *)
Section StopCalls.
Context `{LabelMatching} (cluster : CrunchyCluster).

(** The StatefulSet of a listed pod is scaled down; of several pods only those
    of replicas and of instances without a role. *)
Definition stop_call (h : history) (c : op) : Prop :=
  match c with
  | ListAll KPod ns _ => ns = cc_Namespace cluster
  | RawPatch KSts at_ body => body = noReplicas /\ exists sel (pods : list Pod) p name,
      (Ev (ListAll KPod (cc_Namespace cluster) sel : op) (Ok pods : resp (ListAll KPod _ _))) ∈ h /\
      p ∈ pods /\ p_Owner p = Some ("StatefulSet", name) /\ at_ = (cc_Namespace cluster, name) /\
      (pods = [p] \/ podRole p = RolePatroniReplica \/ podRole p = "")
  | _ => False
  end.

Section Pods.
Context (sel : ListSelector) (pods : list Pod).
Abbreviation listed := (Ev (ListAll KPod (cc_Namespace cluster) sel : op)
                     (Ok pods : resp (ListAll KPod _ _))).

Lemma stop_calls p result h :
  listed ∈ h -> p ∈ pods ->
  (pods = [p] \/ podRole p = RolePatroniReplica \/ podRole p = "") ->
  wps stop_call h (stop cluster p result) (fun _ _ => True).
Proof.
  intros Hl Hp Hr. unfold stop. destruct (p_Owner p) as [[kind name]|] eqn:Eo; [|done].
  case_bool_decide as Hk; [|done]. subst kind. simpl. split.
  - split; [done|]. by exists sel, pods, p, name.
  - by intros [?|?].
Qed.

Lemma stopWhen_calls cond p acc h :
  listed ∈ h -> p ∈ pods ->
  (cond = true -> podRole p = RolePatroniReplica \/ podRole p = "") ->
  wps stop_call h (stopWhen cluster cond p acc) (fun h' _ => listed ∈ h').
Proof.
  intros Hl Hp Hc. unfold stopWhen. destruct acc as [result [e|]]; [done|].
  destruct cond; [|done]. rewrite wps_bind.
  eapply wps_conseq; [apply wps_prefix, (stop_calls p); [done..|by right; apply Hc]|].
  intros h' r [Hp' _]. by eapply elem_of_grow.
Qed.

Lemma stopReplicas_calls todo : forall acc h,
  listed ∈ h -> (forall p, p ∈ todo -> p ∈ pods) ->
  wps stop_call h (stopReplicas cluster todo acc) (fun _ _ => True).
Proof.
  induction todo as [|p todo IH]; intros acc h Hl Hsub; simpl; [done|].
  assert (Hp : p ∈ pods) by (apply Hsub; left).
  rewrite wps_bind. eapply wps_conseq; [apply (stopWhen_calls _ p); [done..|]|].
  { intros Hr%bool_decide_eq_true. by left. }
  intros h1 acc1 Hl1. rewrite wps_bind.
  eapply wps_conseq; [apply (stopWhen_calls _ p); [done..|]|].
  { intros Hr. right. destruct (podRole p); [done|]. by apply negb_true_iff in Hr. }
  intros h2 acc2 Hl2. apply IH; [done|]. intros q Hq. apply Hsub. by right.
Qed.
End Pods.

(** Deleting a cluster stops its instances in order: the StatefulSet of a
    primary is scaled down only when its pod is the last one; before that only
    those of replicas and of instances without a role are. *)
Theorem delete_instances_calls h :
  wps stop_call h (deleteInstances cluster) (fun h' r =>
    r = (None, None) -> exists sel,
      (Ev (ListAll KPod (cc_Namespace cluster) sel : op) (Ok [] : resp (ListAll KPod _ _))) ∈ h').
Proof.
  unfold deleteInstances. destruct (AsSelector _) as [sel|e]; [|done]. simpl. split; [done|].
  intros [pods|e]; [|done].
  set (h1 := h ++ _). assert (Hl : (Ev (ListAll KPod (cc_Namespace cluster) (ByLabels sel) : op)
    (Ok pods : resp (ListAll KPod _ _))) ∈ h1) by apply elem_of_snoc.
  destruct pods as [|p [|q pods]].
  - simpl. intros _. by exists (ByLabels sel).
  - rewrite wps_bind. eapply wps_conseq; [apply (stop_calls (ByLabels sel) [p] p); [done|left|by left]|].
    by intros h' [].
  - rewrite wps_bind.
    eapply wps_conseq; [apply (stopReplicas_calls (ByLabels sel) (p :: q :: pods)); [done|done]|].
    by intros h' [].
Qed.
End StopCalls.

(** A pod that is stopped when there are others. *)
Definition stoppable (p : Pod) : Prop :=
  (exists name, p_Owner p = Some ("StatefulSet", name)) /\
  (podRole p = RolePatroniReplica \/ podRole p = "").

(** Every call was answered "not found". *)
Definition all_missing (h : history) : Prop :=
  forall e, e ∈ h -> answer_err e = Some (ApiError NotFound).

Lemma all_missing_app h h' : all_missing (h ++ h') -> all_missing h.
Proof. intros Hm e He. apply Hm, elem_of_app. by left. Qed.

Lemma stop_missing cluster p result h :
  (exists name, p_Owner p = Some ("StatefulSet", name)) ->
  wp h (stop cluster p result) (fun h' r => h `prefix_of` h' /\
    (all_missing h' -> r = (mkResult true (10 * second), None))).
Proof.
  intros [name Ho]. unfold wp, stop. rewrite Ho. simpl. split; [done|]. intros [st|e]; simpl.
  - split; [by apply prefix_app_r|]. intros Hm. by specialize (Hm _ (elem_of_snoc _ _)).
  - split; [by apply prefix_app_r|]. intros Hm. specialize (Hm _ (elem_of_snoc _ _)).
    simpl in Hm. by injection Hm as ->.
Qed.

Lemma stopWhen_missing cluster p result h :
  stoppable p ->
  wp h (let! acc := stopWhen cluster (bool_decide (podRole p = RolePatroniReplica)) p (result, None) in
        stopWhen cluster (negb (nonempty (podRole p))) p acc)
    (fun h' r => h `prefix_of` h' /\ (all_missing h' -> r = (mkResult true 0, None))).
Proof.
  intros [Ho Hr]. unfold wp. rewrite wps_bind.
  assert (Hstop : wp h (stopWhen cluster true p (result, None)) (fun h' r =>
            h `prefix_of` h' /\ (all_missing h' -> r = (mkResult true 0, None)))).
  { unfold wp. simpl. rewrite wps_bind. eapply wps_conseq; [by apply stop_missing|].
    intros h' r [Hp Hm]. split; [done|]. intros Hall. by rewrite (Hm Hall). }
  destruct Hr as [-> | ->]; cbn.
  - eapply wps_conseq; [exact Hstop|]. intros h' [r [e|]] Hx; exact Hx.
  - exact Hstop.
Qed.

Lemma stopReplicas_failed cluster pods r e :
  stopReplicas cluster pods (r, Some e) = Ret (r, Some e).
Proof. induction pods as [|p pods IH]; simpl; [done|exact IH]. Qed.

Lemma stopReplicas_missing cluster pods : Forall stoppable pods -> forall result h,
  wp h (stopReplicas cluster pods (result, None)) (fun h' r => h `prefix_of` h' /\
    (all_missing h' -> r = match pods with [] => (result, None) | _ => (mkResult true 0, None) end)).
Proof.
  induction 1 as [|p pods Hp Hf IH]; intros result h; [done|].
  unfold wp in *. cbn [stopReplicas].
  pose proof (stopWhen_missing cluster p result h Hp) as Hs. unfold wp in Hs.
  rewrite wps_bind in Hs |- *. eapply wps_conseq; [exact Hs|]. intros h1 acc1 Hs1. rewrite wps_bind.
  eapply wps_conseq; [exact Hs1|]. intros h2 [r2 [e2|]] [Hp2 Hm2].
  - rewrite stopReplicas_failed. split; [done|]. intros Hall. by specialize (Hm2 Hall).
  - eapply wps_conseq; [apply IH|]. intros h3 r [Hp3 Hm3]. split; [by transitivity h2|].
    intros Hall. rewrite (Hm3 Hall). destruct pods; [|done]. destruct Hp3 as [t ->].
    exact (Hm2 (all_missing_app _ _ Hall)).
Qed.

(** The delay asked for when the StatefulSet of a pod is missing (10
    seconds, so that a deluge of delete events is not rate-limited) is lost as
    soon as the cluster has several pods: when every StatefulSet is missing the
    result asks to be queued again at once, with the rate limit.  With one pod
    the delay is kept. *)
Theorem missing_controller_delay_is_lost cluster pods p h :
  Forall stoppable pods -> pods <> [] -> stoppable p ->
  wp h (stopReplicas cluster pods (mkResult false second, None)) (fun h' r =>
    all_missing h' -> r = (mkResult true 0, None)) /\
  wp h (stop cluster p (mkResult false 0)) (fun h' r =>
    all_missing h' -> r = (mkResult true (10 * second), None)).
Proof.
  intros Hf Hne Hp. split.
  - eapply wps_conseq; [by apply stopReplicas_missing|]. intros h' r [_ Hr] Hall.
    rewrite (Hr Hall). by destruct pods.
  - eapply wps_conseq; [apply stop_missing, Hp|]. intros h' r [_ Hr]. exact Hr.
Qed.

(** ** The order of shutting down and starting *)
Definition onlyPrimary (o : observedInstances) (p : Instance) : Prop :=
  p ∈ forCluster o /\ known_true (IsPrimary p) = true /\
  forall q, q ∈ forCluster o -> known_true (IsPrimary q) = true -> q = p.

Lemma startup_fold p (f : CrunchyCluster -> option CrunchyCluster) l :
  (forall c i, i ∈ l -> rememberPrimary c i = if decide (i = p) then f c else Some c) ->
  (forall c c', f c = Some c' -> f c' = Some c') ->
  forall c, fold_left (fun c i => match c with Some c => rememberPrimary c i | None => None end)
    l (Some c) = if decide (p ∈ l) then f c else Some c.
Proof.
  intros Hr Hidem.
  assert (Hnone : forall l, fold_left (fun c i => match c with Some c => rememberPrimary c i | None => None end)
    l None = None) by (induction l0; simpl; auto).
  induction l as [|i l IH]; intros c; [done|simpl].
  rewrite Hr by left. assert (Hr' : forall c j, j ∈ l ->
    rememberPrimary c j = if decide (j = p) then f c else Some c) by (intros c' j Hj; apply Hr; by right).
  destruct (decide (i = p)) as [->|Hne].
  - rewrite (decide_True (P := p ∈ p :: l)) by left. destruct (f c) as [c'|] eqn:E; [|apply Hnone].
    rewrite IH by done. case_decide; [by apply (Hidem c)|done].
  - rewrite IH by done. destruct (decide (p ∈ l)) as [Hin|Hin].
    + by rewrite decide_True by by right.
    + rewrite decide_False; [done|]. by intros [->|?]%elem_of_cons.
Qed.

Lemma startup_of_primary cluster o p :
  onlyPrimary o p -> startupInstance cluster o = rememberPrimary cluster p.
Proof.
  intros (Hp & Hpp & Hu). unfold startupInstance.
  rewrite (startup_fold p (fun c => rememberPrimary c p)).
  - by rewrite decide_True.
  - intros c i Hi. case_decide as E; [by subst|]. unfold rememberPrimary.
    destruct (known_true (IsPrimary i)) eqn:Ei; [|done]. exfalso. by apply E, Hu.
  - intros c c'. unfold rememberPrimary. rewrite Hpp. destruct (default false (cc_Shutdown c)) eqn:Es.
    + destruct (i_Spec p); [|done]. intros [= <-]. cbn. by rewrite Es.
    + intros [= <-]. cbn. by rewrite Es.
Qed.

Lemma startup_without_primary cluster o :
  (forall i, i ∈ forCluster o -> known_true (IsPrimary i) = false) ->
  startupInstance cluster o = Some cluster.
Proof.
  unfold startupInstance. induction (forCluster o) as [|i l IH]; intros Hn; simpl; [done|].
  unfold rememberPrimary at 2. rewrite Hn by left. apply IH. intros j Hj. apply Hn. by right.
Qed.

(** A cluster shuts down with its primary last and starts with it first.
    While it shuts down and has a primary, every other instance is scaled to
    zero at once and the primary only when at most one pod is left; while it
    starts, that instance alone runs until it is the primary, and then all run.
    Suspended instances never run.  The primary is remembered through its set:
    when that is no longer in the specification, shutting down panics. *)
Theorem shutdown_and_startup_order cluster o :
  (forall p, onlyPrimary o p -> i_Name p <> "" ->
     (cc_Shutdown cluster = Some true ->
        match i_Spec p, startupInstance cluster o with
        | Some set, Some c =>
            cc_StartupInstance c = i_Name p /\ cc_StartupInstanceSet c = is_Name set /\
            forall name pods suspend, intendedReplicas c name pods suspend =
              (if suspend then 0 else if decide (name = i_Name p)
               then if bool_decide (pods <= 1)%Z then 0 else 1 else 0)%Z
        | None, None => True
        | _, _ => False
        end) /\
     (cc_Shutdown cluster <> Some true -> exists c, startupInstance cluster o = Some c /\
        cc_StartupInstance c = "" /\
        forall name pods, intendedReplicas c name pods false = 1%Z)) /\
  ((forall i, i ∈ forCluster o -> known_true (IsPrimary i) = false) ->
     startupInstance cluster o = Some cluster /\
     (cc_Shutdown cluster <> Some true -> cc_StartupInstance cluster <> "" ->
      forall name pods, intendedReplicas cluster name pods false =
        (if decide (name = cc_StartupInstance cluster) then 1 else 0)%Z)) /\
  (forall c name pods, intendedReplicas c name pods true = 0%Z).
Proof.
  split_and!; [| |done].
  - intros p Hp Hne. pose proof Hp as (_ & Hpp & _). split.
    + intros Hs. rewrite (startup_of_primary _ _ _ Hp). unfold rememberPrimary. rewrite Hpp, Hs. simpl.
      destruct (i_Spec p) as [set|]; [|done]. split_and!; [done..|].
      intros name pods suspend. unfold intendedReplicas. cbn. destruct suspend; [done|].
      rewrite bool_decide_eq_false_2 by done. rewrite Hs. simpl.
      destruct (decide (name = i_Name p)) as [->|Hn].
      * by rewrite bool_decide_eq_true_2.
      * by rewrite bool_decide_eq_false_2 by congruence.
    + intros Hs. rewrite (startup_of_primary _ _ _ Hp). unfold rememberPrimary. rewrite Hpp.
      assert (default false (cc_Shutdown cluster) = false) as -> by by destruct (cc_Shutdown cluster) as [[]|].
      eexists. split_and!; [done..|]. done.
  - intros Hn. split; [by apply startup_without_primary|]. intros Hs Hne name pods.
    unfold intendedReplicas. rewrite bool_decide_eq_false_2 by done.
    assert (default false (cc_Shutdown cluster) = false) as -> by by destruct (cc_Shutdown cluster) as [[]|].
    simpl. destruct (decide (name = cc_StartupInstance cluster)) as [->|Hn'].
    + by rewrite bool_decide_eq_true_2.
    + by rewrite bool_decide_eq_false_2 by congruence.
Qed.

(** ** New instances have names of their own *)
Definition draws (h : history) : list string :=
  omap (fun e : event resp => match e with Ev (Rand _) r => Some r | _ => None end) h.

Lemma draws_app h h' : draws (h ++ h') = draws h ++ draws h'.
Proof. apply omap_app. Qed.

Section Names.
Context (cluster : CrunchyCluster) (set : PostgresInstanceSetSpec).
Abbreviation gen := (generate cluster set).

Definition generatedName (rnd : string) : string := runnerName (gen rnd).

#[local] Instance generatedName_inj : Inj (=) (=) generatedName.
Proof.
  intros a b Heq. unfold generatedName, runnerName, generate, GenerateInstance, emptySts in Heq.
  cbn in Heq. by do 4 apply app_inj_l_str in Heq.
Qed.

Lemma freshInstance_exec fuel names : forall next h r,
  exec (freshInstance cluster set fuel names next) h r ->
  match r with
  | Some s => runnerName s ∉ names /\ (s = next \/ exists rnd, s = gen rnd)
  | None => length (draws h) = fuel /\ runnerName next ∈ names /\
            Forall (fun rnd => generatedName rnd ∈ names) (draws h)
  end.
Proof.
  induction fuel as [|fuel IH]; intros next h r; simpl; case_bool_decide as Hin; simpl.
  - intros [-> ->]. split_and!; [done|done|constructor].
  - intros [-> ->]. split; [done|by left].
  - intros (rnd & h' & -> & Hex). specialize (IH _ _ _ Hex). destruct r as [s|].
    + destruct IH as [? [->|?]]; (split; [done|right; eauto]).
    + destruct IH as (Hl & Hg & Hf). split_and!; [simpl; by rewrite Hl|done|]. by constructor.
  - intros [-> ->]. split; [done|by left].
Qed.

(** Consecutive draws that all gave taken names. *)
Definition unlucky (fuel bound : nat) (h : history) : Prop :=
  exists a w b, draws h = a ++ w ++ b /\ length w = S fuel /\
    (size (list_to_set w : gset string) <= bound)%nat.

Lemma unlucky_app fuel bound h1 h2 h3 : unlucky fuel bound h2 -> unlucky fuel bound (h1 ++ h2 ++ h3).
Proof.
  intros (a & w & b & Hd & Hw & Hs). exists (draws h1 ++ a), w, (b ++ draws h3).
  rewrite !draws_app, Hd. split_and!; [by rewrite <- !app_assoc|done..].
Qed.

Lemma unlucky_mono fuel n m h : (n <= m)%nat -> unlucky fuel n h -> unlucky fuel m h.
Proof. intros Hle (a & w & b & ? & ? & ?). exists a, w, b. split_and!; [done..|lia]. Qed.

Lemma taken_names w names :
  Forall (fun rnd => generatedName rnd ∈ names) w ->
  (size (list_to_set w : gset string) <= length names)%nat.
Proof.
  intros Hf. change (length (elements (list_to_set w : gset string)) <= length names)%nat.
  rewrite <- (length_map generatedName). apply submseteq_length, NoDup_submseteq.
  - apply (NoDup_fmap_2 generatedName), NoDup_elements.
  - intros x (rnd & -> & Hr)%list_elem_of_fmap. rewrite elem_of_elements, elem_of_list_to_set in Hr.
    rewrite Forall_forall in Hf. by apply Hf.
Qed.

Lemma newInstances_exec fuel n : forall available names h r,
  exec (newInstances cluster set fuel n available names) h r ->
  match r with
  | Some new => length new = n /\
      (NoDup (names ++ available) -> NoDup (names ++ map runnerName new)) /\
      Forall (fun s => runnerName s ∈ available \/ exists rnd, s = gen rnd) new
  | None => unlucky fuel (length names + n) h
  end.
Proof.
  induction n as [|n IH]; intros available names h r; simpl.
  { intros [-> ->]. split_and!; [done| |constructor]. simpl. rewrite app_nil_r.
    by intros [? _]%NoDup_app. }
  intros (rnd & h' & -> & Hex). apply exec_bind in Hex as (h1 & next & h2 & -> & H1 & H2).
  destruct next as [next|].
  - apply exec_bind in H2 as (h3 & more & h4 & -> & H3 & [-> ->]). specialize (IH _ _ _ _ H3).
    assert (Hnext : match available with
                    | a :: _ => runnerName next = a
                    | [] => runnerName next ∉ names /\ exists rnd, next = gen rnd
                    end).
    { destruct available as [|a available].
      - apply freshInstance_exec in H1 as [Hn [->|Hg]]; (split; [done|]); eauto.
      - by destruct H1 as [_ [= ->]]. }
    destruct more as [new|].
    + destruct IH as (Hl & Hnd & Hf). split_and!.
      * simpl. by rewrite Hl.
      * intros Hd. simpl. rewrite cons_middle, app_assoc. apply Hnd.
        destruct available as [|a available]; simpl.
        -- destruct Hnext as [Hn _]. rewrite app_nil_r in Hd |- *. apply NoDup_app.
           split_and!; [done| |apply NoDup_singleton]. intros x Hx. by intros ->%list_elem_of_singleton.
        -- rewrite Hnext, <- app_assoc. done.
      * constructor; [destruct available; [right; apply Hnext|left; rewrite Hnext; left]|].
        eapply Forall_impl; [exact Hf|]. intros s [Hs|Hs]; [left|by right].
        destruct available; [by apply elem_of_nil in Hs|by right].
    + rewrite length_app in IH. simpl in IH. rewrite app_nil_r.
      apply (unlucky_mono _ (length names + 1 + n)); [lia|].
      pose proof (unlucky_app _ _ (Ev (Rand 4 : op) rnd :: h1) h3 [] IH) as Hu.
      by rewrite app_nil_r in Hu.
  - destruct H2 as [-> ->]. rewrite app_nil_r. destruct available as [|a available]; [|by destruct H1].
    apply freshInstance_exec in H1 as (Hl & Hg & Hf). exists [], (rnd :: draws h1), [].
    split_and!; [by rewrite app_nil_r|simpl; by rewrite Hl|].
    transitivity (length names); [apply taken_names; by constructor|lia].
Qed.
End Names.

(** ** Scaling up *)

(** The name of an instance is that of its StatefulSet. *)
Lemma observed_runner_name cluster runners pods i r :
  i ∈ forCluster (newObservedInstances cluster runners pods) -> i_Runner i = Some r ->
  i_Name i = runnerName r.
Proof.
  set (P := fun o => Forall (fun i => forall r, i_Runner i = Some r -> i_Name i = runnerName r) (forCluster o)).
  enough (HP : P (newObservedInstances cluster runners pods)).
  { unfold P in HP. rewrite Forall_forall in HP. intros Hi Hr. by apply (HP i). }
  assert (Halter : forall n p o, P o -> P (appendPod n p o)).
  { intros n p o Ho. unfold P, appendPod in *. cbn [forCluster] in *. rewrite Forall_lookup in Ho |- *.
    intros m j. rewrite list_lookup_alter. case_decide as E; [|apply Ho]. subst m.
    destruct (forCluster o !! n) as [k|] eqn:Ek; [|done]. intros [= <-]. cbn. apply (Ho n k Ek). }
  unfold newObservedInstances.
  assert (Hpods : forall l o, P o -> P (fold_left (addPod (setsByName cluster)) l o)).
  { induction l as [|p l IH]; intros o Ho; simpl; [done|]. apply IH. unfold addPod.
    destruct (byName o !! _); [by apply Halter|]. apply Halter. apply Forall_snoc; [done|]. done. }
  apply Hpods. assert (Hrs : forall l o, P o -> P (fold_left (addRunner (setsByName cluster)) l o)).
  { induction l as [|q l IH]; intros o Ho; simpl; [done|]. apply IH. apply Forall_snoc; [done|].
    by intros ? [= <-]. }
  apply Hrs. constructor.
Qed.

Section ScaleUpTheorems.
Context (cluster : CrunchyCluster) (set : PostgresInstanceSetSpec).

Lemma existing_lengths o : length (existingRunners o set) = length (existingNames o set).
Proof.
  unfold existingRunners, existingNames. rewrite length_map.
  induction (instancesOfSet o (is_Name set)) as [|i l IH]; simpl; [done|].
  destruct (i_Runner i); simpl; [by f_equal|done].
Qed.

(** Naming new instances terminates: the search for a free name only runs
    out of [fuel] further draws when so many consecutive random names take no
    more values than there are instances; otherwise there are as many
    instances afterwards as the set wants, or as there were before. *)
Theorem scale_up_terminates o reconcileInstance fuel available tr r :
  exec (scaleUpInstances cluster o set reconcileInstance fuel available) tr r ->
  ~ unlucky fuel (length (existingRunners o set) `max` Z.to_nat (is_Replicas set)) tr ->
  exists instances err, r = Some (instances, err) /\
    length instances = length (existingRunners o set) `max` Z.to_nat (is_Replicas set).
Proof.
  unfold scaleUpInstances. set (n := Z.to_nat _). intros (h1 & new & h2 & -> & H1 & H2)%exec_bind Hlucky.
  apply newInstances_exec in H1. destruct new as [new|].
  - destruct H1 as (Hl & _). apply exec_bind in H2 as (h3 & err & h4 & -> & _ & [_ ->]).
    eexists _, _. split; [done|]. rewrite length_app, Hl. unfold n. lia.
  - exfalso. apply Hlucky. apply (unlucky_app _ _ [] h1 h2). eapply unlucky_mono; [|exact H1].
    rewrite <- existing_lengths. unfold n. lia.
Qed.

(** A volume per role and instance. *)
Definition one_volume_each (volumes : list PVC) : Prop :=
  NoDup (map volumeInstance (setVolumes set RolePostgresData volumes)) /\
  NoDup (map volumeInstance (setVolumes set RolePostgresWAL volumes)).

Lemma NoDup_map_bfilter {A} (f : A -> string) (g : A -> bool) l :
  NoDup (map f l) -> NoDup (map f (List.filter g l)).
Proof.
  intros Hnd. eapply sublist_NoDup; [exact Hnd|]. 
  induction l as [|x l IH]; simpl; [done|]. apply NoDup_cons in Hnd as [_ Hnd].
  destruct (g x); simpl; constructor; by apply IH.
Qed.

Lemma NoDup_bfilter {A} (f : A -> bool) l : NoDup l -> NoDup (List.filter f l).
Proof. intros Hnd. eapply sublist_NoDup; [exact Hnd|apply bfilter_sublist]. Qed.

Lemma same_instance_sublist walVolumes name :
  NoDup (map volumeInstance walVolumes) ->
  map volumeInstance (List.filter (fun w => bool_decide (volumeInstance w = name)) walVolumes)
    `sublist_of` [name].
Proof.
  intros Hnd. apply (NoDup_map_bfilter _ (fun w => bool_decide (volumeInstance w = name))) in Hnd.
  assert (Hall : Forall (fun n => n = name) (map volumeInstance
    (List.filter (fun w => bool_decide (volumeInstance w = name)) walVolumes))).
  { apply Forall_forall. intros n (w & -> & [_ Hw]%elem_of_bfilter)%list_elem_of_fmap.
    by apply bool_decide_eq_true in Hw. }
  destruct Hall as [|n l -> Hl]; [apply sublist_nil_l|]. destruct Hl as [|m l -> _]; [done|].
  apply NoDup_cons in Hnd as [Hn _]. exfalso. apply Hn. left.
Qed.

Lemma findAvailable_spec o volumes :
  one_volume_each volumes ->
  NoDup (findAvailableInstanceNames o set volumes) /\
  forall name, name ∈ findAvailableInstanceNames o set volumes -> withoutRunner o name = true.
Proof.
  intros [Hd Hw]. unfold findAvailableInstanceNames. split.
  2:{ intros name. by intros [_ ?]%elem_of_bfilter. }
  apply NoDup_bfilter. destruct (is_WALVolume set); [|done].
  eapply sublist_NoDup; [exact Hd|].
  induction (setVolumes set RolePostgresData volumes) as [|v l IH]; simpl; [done|].
  apply NoDup_cons in Hd as [_ Hd]. rewrite map_app. apply (sublist_app _ [volumeInstance v]).
  - by apply same_instance_sublist.
  - by apply IH.
Qed.

(** All instances of a set have names of their own after scaling up: for the
    instances observed of StatefulSets with distinct names, and with one volume
    per role and instance, neither a name reused for its volumes nor a random
    one is that of another instance.  Each is a name of the set. *)
Theorem scale_up_unique_names runners pods volumes reconcileInstance fuel tr instances err :
  NoDup (map runnerName runners) -> one_volume_each volumes ->
  let o := newObservedInstances cluster runners pods in
  let available := findAvailableInstanceNames o set volumes in
  exec (scaleUpInstances cluster o set reconcileInstance fuel available) tr (Some (instances, err)) ->
  NoDup (map runnerName instances) /\
  Forall (fun s => s ∈ runners \/ runnerName s ∈ available \/
                   exists rnd, s = generate cluster set rnd) instances.
Proof.
  intros Hnd Hv o available Hex. pose proof (newObservedInstances_indexed cluster _ pods Hnd) as Ho.
  fold o in Ho. unfold scaleUpInstances in Hex.
  apply exec_bind in Hex as (h1 & new & h2 & -> & H1 & H2). apply newInstances_exec in H1.
  destruct new as [new|]; [|by destruct H2]. destruct H1 as (_ & Hnew & Hf).
  apply exec_bind in H2 as (h3 & err' & h4 & -> & _ & [_ [= -> ->]]).
  destruct (findAvailable_spec o volumes Hv) as [Ha Hav].
  assert (Hin : forall i, i ∈ instancesOfSet o (is_Name set) -> i ∈ forCluster o).
  { unfold instancesOfSet, pointees. intros i (n & _ & Hn)%list_elem_of_omap.
    by eapply list_elem_of_lookup_2. }
  assert (Hnames : map runnerName (existingRunners o set) = existingNames o set).
  { unfold existingRunners, existingNames. induction (instancesOfSet o (is_Name set)) as [|i l IH]; [done|].
    simpl. destruct (i_Runner i) as [r|] eqn:Er; simpl; [f_equal|]; try (apply IH; intros; apply Hin; by right).
    symmetry. apply (observed_runner_name cluster runners pods); [|done]. apply Hin. left. }
  assert (Hexist : NoDup (existingNames o set)).
  { unfold existingNames. apply NoDup_map_bfilter.
    pose proof (ix_names _ _ Ho) as Hn. destruct (decide (is_Name set ∈ setNames o)) as [Hs|Hs].
    - pose proof (ix_bySet _ _ Ho) as Hb. rewrite (indicesOf_split o (is_Name set)) in Hb by apply Ho.
      apply (pointees_seq o) in Hb. unfold pointees in Hb. rewrite omap_app in Hb.
      rewrite <- Hb, map_app in Hn. by apply NoDup_app in Hn as [? _].
    - unfold instancesOfSet, pointees. destruct (bySet o !! is_Name set) eqn:E; [|apply NoDup_nil_2].
      exfalso. apply Hs, (ix_setNames _ _ Ho). by rewrite E. }
  split.
  - rewrite map_app, Hnames. apply Hnew. apply NoDup_app. split_and!; [done| |done].
    intros name (i & -> & [Hi Hr]%elem_of_bfilter)%list_elem_of_fmap Hname%Hav.
    unfold withoutRunner in Hname. apply Hin in Hi.
    assert (instanceNamed o (i_Name i) = Some i) as Hi'.
    { apply list_elem_of_lookup in Hi as [n Hn]. unfold instanceNamed.
      assert (byName o !! i_Name i = Some n) as -> by (apply (ix_byName _ _ Ho); eauto). done. }
    rewrite Hi' in Hname. by destruct (i_Runner i).
  - apply Forall_app. split.
    + apply Forall_forall. intros s Hs. left. unfold existingRunners in Hs.
      apply list_elem_of_omap in Hs as (i & Hi%Hin & Hr).
      destruct (addPods_runners (setsByName cluster) pods (fold_left (addRunner (setsByName cluster)) runners
        (mkObserved [] ∅ ∅ (list_to_set (map is_Name (cc_InstanceSets cluster)))))) as [Hom _].
      assert (Hs : s ∈ omap i_Runner (forCluster o)) by (apply list_elem_of_omap; eauto).
      unfold o, newObservedInstances in Hs. rewrite Hom, addRunners_forCluster in Hs. simpl in Hs.
      apply list_elem_of_omap in Hs as (j & (r & -> & Hr')%list_elem_of_fmap & [= <-]). done.
    + eapply Forall_impl; [exact Hf|]. intros s [?|?]; auto.
Qed.

(** An error of any instance but the last is lost: whatever the others
    answered, what scaling up returns is the answer for the last instance. *)
Theorem scale_up_returns_last_error reconcileInstance l i err tr r :
  exec (reconcileAll reconcileInstance (l ++ [i]) err) tr r <->
  exists tr1 before tr2 last, tr = tr1 ++ tr2 /\
    exec (reconcileAll reconcileInstance l err) tr1 before /\
    exec (reconcileInstance i) tr2 last /\ r = err_of last.
Proof.
  revert err tr. induction l as [|j l IH]; intros err tr; cbn [app reconcileAll].
  - rewrite exec_bind. split.
    + intros (tr1 & last & tr2 & -> & H1 & [-> ->]). exists [], err, tr1, last.
      rewrite app_nil_r. done.
    + intros (tr1 & before & tr2 & last & -> & [-> ->] & H2 & ->). exists tr2, last, [].
      by rewrite app_nil_r.
  - rewrite exec_bind. split.
    + intros (tr1 & a & tr2 & -> & H1 & (tr3 & before & tr4 & last & -> & H3 & H4 & ->)%IH).
      exists (tr1 ++ tr3), before, tr4, last. rewrite app_assoc. split_and!; [done| |done|done].
      apply exec_bind. by exists tr1, a, tr3.
    + intros (tr1 & before & tr2 & last & -> & (tr3 & a & tr4 & -> & H3 & H4)%exec_bind & H2 & ->).
      exists tr3, a, (tr4 ++ tr2). rewrite app_assoc. split_and!; [done|done|]. apply IH.
      by exists tr4, before, tr2, last.
Qed.
End ScaleUpTheorems.

(** ** Examples *)
#[local] Existing Instance ConcreteLabels.matching.

Module ExampleScale.
Definition cluster : CrunchyCluster := ExampleInstances.cluster [ExampleInstances.set1 1].
Definition pods : list Pod :=
  [ExampleInstances.pod "a" "replica" "new"; ExampleInstances.pod "b" "primary" "new"].
Definition observed : observedInstances :=
  newObservedInstances cluster [ExampleInstances.runner "a"; ExampleInstances.runner "b"] pods.

(** What reconciles an instance, in the examples: nothing. *)
Definition reconcile (_ : StatefulSet) : action unit := Ret (Ok tt).
End ExampleScale.

Lemma pods_to_keep_reference_witness :
  keys (wantOf ExampleScale.cluster) = ["set1"] /\
  ExampleInstances.pod "b" "primary" "new" ∈
    podsToKeep ["set1"] ExampleScale.pods (wantOf ExampleScale.cluster).
Proof.
  assert (Hk : keys (wantOf ExampleScale.cluster) = ["set1"]) by by vm_compute.
  split; [exact Hk|].
  apply (pods_to_keep_reference ["set1"] ExampleScale.pods (wantOf ExampleScale.cluster));
    [by rewrite Hk|].
  split; [by vm_compute|]. vm_compute. left.
Defined.

Lemma missing_controller_delay_is_lost_witness :
  wp [] (stopReplicas ExampleScale.cluster
           [ExampleInstances.pod "a" "replica" "new"; ExampleInstances.pod "c" "" "new"]
           (mkResult false second, None))
    (fun h r => all_missing h -> r = (mkResult true 0, None)).
Proof.
  refine (proj1 (missing_controller_delay_is_lost ExampleScale.cluster
    [ExampleInstances.pod "a" "replica" "new"; ExampleInstances.pod "c" "" "new"]
    (ExampleInstances.pod "a" "replica" "new") [] _ _ _)); [|done|].
  - constructor; [split; [by eexists|by left]|]. constructor; [split; [by eexists|by right]|constructor].
  - split; [by eexists|by left].
Defined.

Lemma scale_up_terminates_witness :
  exists instances err,
    Some ([ExampleInstances.runner "a"; generate ExampleScale.cluster (ExampleInstances.set1 2) "wxyz"], None)
      = Some (instances, err : option error) /\ length instances = 2.
Proof.
  apply (scale_up_terminates ExampleScale.cluster (ExampleInstances.set1 2)
    (newObservedInstances ExampleScale.cluster [ExampleInstances.runner "a"] []) ExampleScale.reconcile 7 []
    [Ev (Rand 4 : op) ("wxyz" : resp (Rand 4))]).
  - eexists _, _. split; [reflexivity|]. by vm_compute.
  - intros (a & w & b & Hd & Hw & _). simpl in Hd.
    assert (length [("wxyz" : string)] = length (a ++ w ++ b)) as Hl by by rewrite <- Hd.
    rewrite !length_app in Hl. simpl in Hl. lia.
Defined.

Lemma scale_up_unique_names_witness :
  NoDup ["a"; "hippo-set1-wxyz"].
Proof.
  assert (Hnd : NoDup (map runnerName [ExampleInstances.runner "a"]))
    by (apply (bool_decide_eq_true_1 _); by vm_compute).
  assert (Hv : one_volume_each (ExampleInstances.set1 2) []) by (split; constructor).
  apply (scale_up_unique_names ExampleScale.cluster (ExampleInstances.set1 2) _ [] []
    ExampleScale.reconcile 7 [Ev (Rand 4 : op) ("wxyz" : resp (Rand 4))]
    [ExampleInstances.runner "a"; generate ExampleScale.cluster (ExampleInstances.set1 2) "wxyz"] None Hnd Hv).
  eexists _, _. split; [reflexivity|]. by vm_compute.
Defined.
