(* ===== verification/PatroniControl.v ===== *)
(** * Controlling Patroni

    [internal/controller/postgrescluster/patroni.go] and the executor of
    [internal/patroni/api.go]: restarts of members, the dynamic configuration,
    the cluster's status, and switchovers on request. *)
From S2P Require Import Prelude GoStrings HBA Cluster Parameters Patroni Prog Errors Naming Objects.
From S2P Require Import Client Psql ObservedInstances Rollout.

(** ** [encoding/json], as far as patronictl needs it *)

(** A member as [patronictl list --format json] prints it. *)
Record Member := mkMember { mem_Role : string; mem_State : string; mem_Timeline : Z }.

Class PatroniJSON := {
  (** [json.NewEncoder(...).Encode] of a configuration *)
  EncodeConfiguration : gmap string any -> string;
  (** [json.Unmarshal] into a list of members *)
  UnmarshalMembers : string -> option (list Member)
}.

(** ** The executor *)
Section Executor.
Context `{PatroniJSON} (exec : Executor).

Definition SwitchoverAndWait (target : string) : program (bool * option error) :=
  let! out := exec None ["patronictl"; "switchover"; "--scheduled=now"; "--force";
                         "--candidate=" +:+ target] in
  Ret (Contains (out_Stdout out) "switched over", out_Err out).

Definition FailoverAndWait (target : string) : program (bool * option error) :=
  let! out := exec None ["patronictl"; "failover"; "--force"; "--candidate=" +:+ target] in
  Ret (Contains (out_Stdout out) "failed over", out_Err out).

Definition ReplaceConfiguration (configuration : gmap string any) : action unit :=
  let! out := exec (Some (EncodeConfiguration configuration))
                ["patronictl"; "edit-config"; "--replace=-"; "--force"] in
  Ret (match out_Err out with Some e => Err e | None => Ok tt end).

Definition restartCommand (role scope : string) : list string :=
  ["patronictl"; "restart"; "--pending"; "--force"; "--role=" +:+ role; scope].

Definition RestartPendingMembers (role scope : string) : action unit :=
  let! out := exec None (restartCommand role scope) in
  Ret (match out_Err out with Some e => Err e | None => Ok tt end).

Definition listCommand : list string := ["patronictl"; "list"; "--format"; "json"].

Definition runningLeader (m : Member) : bool :=
  bool_decide (mem_Role m = "Leader") && bool_decide (mem_State m = "running").

(** What an answer of [patronictl list] says of the timeline. *)
Definition timelineOf (out : ExecOutput) : Z * option error :=
  match out_Err out with
  | Some e => (0%Z, Some e)
  | None =>
      if nonempty (out_Stderr out) then (0%Z, Some (New (out_Stderr out)))
      else match UnmarshalMembers (out_Stdout out) with
           | None => (0%Z, Some (New "invalid JSON"))
           | Some members =>
               match List.find runningLeader members with
               | Some m => (mem_Timeline m, None)
               | None => (0%Z, None)
               end
           end
  end.

Definition GetTimeline : program (Z * option error) :=
  let! out := exec None listCommand in Ret (timelineOf out).
End Executor.

Definition databaseExecutor (pod : Pod) : Executor :=
  podExecutor (objectKey (p_Meta pod)) ContainerDatabase.

(** ** Restarts *)

(** An instance whose PostgreSQL waits for a restart and can be reached. *)
Definition needsRestart (i : Instance) : bool :=
  match i_Pods i with
  | p :: _ => PodRequiresRestart p
  | [] => false
  end && known_false (IsTerminating i) && known_true (IsRunning i ContainerDatabase).

(** The last primary and the last replica that need a restart, until there is
    one of both. *)
Fixpoint findRestarts (l : list Instance) (primary replica : option Instance)
    : option Instance * option Instance :=
  match l with
  | [] => (primary, replica)
  | i :: l =>
      if needsRestart i then
        let '(primary, replica) :=
          if fst (IsPrimary i) then (Some i, replica) else (primary, Some i) in
        match primary, replica with
        | Some _, Some _ => (primary, replica)
        | _, _ => findRestarts l primary replica
        end
      else findRestarts l primary replica
  end.

Section Patroni.
Context `{GoVersion, LabelMatching, PatroniJSON}.
Context (unicode_LN : string -> bool).

Definition handlePatroniRestarts (cluster : CrunchyCluster) (o : observedInstances) : action unit :=
  let '(primary, replica) := findRestarts (forCluster o) None None in
  let scope := PatroniScope (config cluster) in
  match primary with
  | Some i =>
      match i_Pods i with
      | pod :: _ =>
          match IsPatroniVer4 cluster with
          | Err e => Ret (Err (Wrap "failed to check if patroni v4 is used" e))
          | Ok patroniVer4 =>
              RestartPendingMembers (databaseExecutor pod)
                (if patroniVer4 then "primary" else "master") scope
          end
      | [] => Ret (Err (New "index out of range"))
      end
  | None =>
      match replica with
      | Some i =>
          match i_Pods i with
          | pod :: _ => RestartPendingMembers (databaseExecutor pod) "replica" scope
          | [] => Ret (Err (New "index out of range"))
          end
      | None => Ret (Ok tt)
      end
  end.

(** ** Configuration, artifacts and status *)
Definition deletePatroniArtifacts (cluster : CrunchyCluster) : action unit :=
  match AsSelector (ClusterPatronis (config cluster)) with
  | Err e => Ret (Err e)
  | Ok selector => call (DeleteAllOf KEndpoints (cc_Namespace cluster) (ByLabels selector))
  end.

(** [patroni.ClusterBootstrapped] *)
Definition ClusterBootstrapped (cluster : CrunchyCluster) : bool :=
  nonempty (pt_SystemIdentifier (cc_Patroni cluster)).

Definition reachable (i : Instance) : bool :=
  known_false (IsTerminating i) && known_true (IsRunning i ContainerDatabase).

Definition reconcilePatroniDynamicConfiguration (cluster : CrunchyCluster) (o : observedInstances)
    (pgHBAs : HBAs) (pgParameters : ParameterSets) : action unit :=
  if negb (ClusterBootstrapped cluster) then Ret (Ok tt)
  else
    match List.find reachable (forCluster o) with
    | None => Ret (Ok tt)
    | Some i =>
        match i_Pods i with
        | [] => Ret (Ok tt)
        | pod :: _ =>
            let configuration :=
              match pc_Patroni (config cluster) with
              | Some p => default ∅ (DynamicConfigurationSpec p)
              | None => ∅
              end in
            match DynamicConfiguration unicode_LN (config cluster) configuration pgHBAs pgParameters with
            | None => Ret (Err (New "nil pointer dereference"))
            | Some configuration => ReplaceConfiguration (databaseExecutor pod) configuration
            end
        end
    end.

(** The new status, the time after which to requeue, and the error. *)
Definition reconcilePatroniStatus (cluster : CrunchyCluster) (o : observedInstances)
    : program (PatroniStatus * Z * option error) :=
  let readyInstance := existsb (fun i => fst (IsReady i)) (forCluster o) in
  let meta := PatroniDistributedConfiguration (config cluster) in
  let! r := call (Get KEndpoints (meta_Namespace meta, meta_Name meta)) in
  let status := cc_Patroni cluster in
  let initialize :=
    match r with
    | Ok dcs => Ok (annotation (ep_Meta dcs) "initialize")
    | Err e => if IsNotFound e then Ok "" else Err e
    end in
  Ret (match initialize with
       | Err e => (status, 0%Z, Some e)
       | Ok "" => (status, if readyInstance then 1000000000%Z else 0%Z, None)
       | Ok id => (status <| pt_SystemIdentifier := id |>, 0%Z, None)
       end).

(** ** Switchover on request *)
Definition typeFailover : string := "Failover".

(** The target instance of the specification: the last of that name. *)
Definition findTarget (o : observedInstances) (target : option string) : result (option Instance) :=
  match target with
  | None | Some "" => Ok None
  | Some name =>
      match fold_left (fun acc i => if bool_decide (name = i_Name i) then Some i else acc)
              (forCluster o) None with
      | None => Err (New "TargetInstance was specified but not found in the cluster")
      | Some i =>
          if bool_decide (length (i_Pods i) = 1%nat) then Ok (Some i)
          else Err (New "TargetInstance should have one pod")
      end
  end.

Definition switchoverPod (o : observedInstances) : option Pod :=
  match List.find (fun i => known_true (IsRunning i ContainerDatabase)
                            && bool_decide (length (i_Pods i) = 1%nat)) (forCluster o) with
  | Some i => head (i_Pods i)
  | None => None
  end.

(** The action itself, on a pod, with the name of the next primary. *)
Definition changeLeader (spec : PatroniSwitchoverSpec) (pod : Pod) (next : string)
    : program (option error) :=
  let! r := (if bool_decide (sw_Type spec = typeFailover) then FailoverAndWait else SwitchoverAndWait)
              (databaseExecutor pod) next in
  Ret (match r with
       | (_, Some e) => Some e
       | (false, None) => Some (New "unable to switchover")
       | (true, None) => None
       end).

(** A timeline that was recorded: neither nil nor zero. *)
Definition recordedTimeline (status : PatroniStatus) : option Z :=
  match pt_SwitchoverTimeline status with
  | Some t => if bool_decide (t = 0%Z) then None else Some t
  | None => None
  end.

Definition completed (annotation : string) (status : PatroniStatus) : PatroniStatus :=
  status <| pt_Switchover := Some annotation |> <| pt_SwitchoverTimeline := None |>.

(** Once the timeline is known. *)
Definition switchAtTimeline (spec : PatroniSwitchoverSpec) (annotation : string)
    (status : PatroniStatus) (pod : Pod) (target : option Instance) (timeline : Z)
    : program (PatroniStatus * option error) :=
  match recordedTimeline status with
  | None => Ret (status <| pt_SwitchoverTimeline := Some timeline |>, None)
  | Some recorded =>
      if negb (bool_decide (recorded = timeline)) then Ret (completed annotation status, None)
      else
        let next := match target with
                    | Some i => match i_Pods i with p :: _ => om_Name (p_Meta p) | [] => "" end
                    | None => ""
                    end in
        let! err := changeLeader spec pod next in
        Ret (match err with None => completed annotation status | Some _ => status end, err)
  end.

(** The status of [status.patroni] afterwards, and the error. *)
Definition reconcilePatroniSwitchover (cluster : CrunchyCluster) (o : observedInstances)
    : program (PatroniStatus * option error) :=
  let status := cc_Patroni cluster in
  match cc_Switchover cluster with
  | Some spec =>
      if negb (sw_Enabled spec)
      then Ret (status <| pt_Switchover := None |> <| pt_SwitchoverTimeline := None |>, None)
      else
        let annotation := annotation (cc_Meta cluster) PatroniSwitchover in
        if bool_decide (annotation = "") || bool_decide (pt_Switchover status = Some annotation)
        then Ret (status <| pt_SwitchoverTimeline := None |>, None)
        else if (length (forCluster o) <=? 1)%nat
        then Ret (status, Some (New "Need more than one instance to switchover"))
        else if bool_decide (sw_Type spec = typeFailover)
                && negb (nonempty (default "" (sw_TargetInstance spec)))
        then Ret (status, Some (New "TargetInstance required when running failover"))
        else
          match findTarget o (sw_TargetInstance spec) with
          | Err e => Ret (status, Some e)
          | Ok target =>
              match switchoverPod o with
              | None => Ret (status, Some (New "Could not find a running pod when attempting switchover."))
              | Some pod =>
                  let! r := GetTimeline (databaseExecutor pod) in
                  match r with
                  | (_, Some e) => Ret (status, Some e)
                  | (timeline, None) =>
                      if bool_decide (timeline = 0%Z)
                      then Ret (status, Some (New "error getting and parsing current timeline"))
                      else switchAtTimeline spec annotation status pod target timeline
                  end
              end
          end
  | None => Ret (status <| pt_Switchover := None |> <| pt_SwitchoverTimeline := None |>, None)
  end.
End Patroni.

(** ** Restarts: which, and where *)
Definition primaryRestart (l : list Instance) (i : Instance) : Prop :=
  i ∈ l /\ needsRestart i = true /\ fst (IsPrimary i) = true.

Definition replicaRestart (l : list Instance) (i : Instance) : Prop :=
  i ∈ l /\ needsRestart i = true /\ fst (IsPrimary i) = false.

Definition soundRestarts (l : list Instance) (pr : option Instance * option Instance) : Prop :=
  (forall i, pr.1 = Some i -> primaryRestart l i) /\ (forall i, pr.2 = Some i -> replicaRestart l i).

Lemma findRestarts_sound l0 l : forall p r,
  (forall i, i ∈ l -> i ∈ l0) -> soundRestarts l0 (p, r) -> soundRestarts l0 (findRestarts l p r).
Proof.
  induction l as [|i l IH]; intros p r Hl Hs; [done|]. simpl.
  assert (Hl' : forall j, j ∈ l -> j ∈ l0) by (intros j Hj; apply Hl; by right).
  assert (Hi : i ∈ l0) by (apply Hl; left).
  destruct (needsRestart i) eqn:En; [|by apply IH].
  assert (Hs' : soundRestarts l0 (if fst (IsPrimary i) then (Some i, r) else (p, Some i))).
  { destruct Hs as [H1 H2]. destruct (fst (IsPrimary i)) eqn:Ep; split; simpl; try done; by intros j [= <-]. }
  destruct (if fst (IsPrimary i) then _ else _) as [[p'|] [r'|]]; [done|by apply IH..].
Qed.

(** Only when nothing of a kind needs a restart is none found. *)
Lemma findRestarts_complete l : forall p r,
  ((findRestarts l p r).1 = None -> p = None /\ forall i, ~ primaryRestart l i) /\
  (findRestarts l p r = (None, None) -> (p, r) = (None, None) /\ forall i, i ∈ l -> needsRestart i = false).
Proof.
  assert (Hcons : forall (P : Instance -> Prop) i l, P i -> (forall j, j ∈ l -> P j) -> forall j, j ∈ i :: l -> P j).
  { intros P i l0 Hi Hl0 j [->|Hj]%elem_of_cons; auto. }
  induction l as [|i l IH]; intros p r; simpl.
  { split; [intros ->|intros [= -> ->]]; (split; [done|]); [intros i [Hi _]|intros i Hi]; by apply elem_of_nil in Hi. }
  unfold primaryRestart in IH |- *.
  assert (Hstep : forall p' r', (p' = None -> p = None /\ needsRestart i && fst (IsPrimary i) = false) ->
    ((p', r') = (None, None) -> (p, r) = (None, None) /\ needsRestart i = false) ->
    ((findRestarts l p' r').1 = None -> p = None /\ forall j, ~ primaryRestart (i :: l) j) /\
    (findRestarts l p' r' = (None, None) -> (p, r) = (None, None) /\ forall j, j ∈ i :: l -> needsRestart j = false)).
  { intros p' r' H1 H2. destruct (IH p' r') as [IH1 IH2]. split.
    - intros Hn. destruct (IH1 Hn) as [Hp' Hl]. destruct (H1 Hp') as [Hp Hi]. split; [done|].
      intros j (Hj & Hjn & Hjp). apply elem_of_cons in Hj as [->|Hj]; [by rewrite Hjn, Hjp in Hi|by apply (Hl j)].
    - intros Hn. destruct (IH2 Hn) as [Hpr Hl]. destruct (H2 Hpr) as [Hp Hi]. split; [done|].
      by apply Hcons. }
  destruct (needsRestart i) eqn:En; [|by apply Hstep].
  destruct (fst (IsPrimary i)) eqn:Ep.
  - destruct r; [done|]. by apply Hstep.
  - destruct p as [q|]; [done|]. by apply Hstep.
Qed.

(** ** Switchover: the calls and their results *)
Section Requests.
Context `{PatroniJSON}.

Definition leaderCommand (spec : PatroniSwitchoverSpec) (next : string) : list string :=
  if bool_decide (sw_Type spec = typeFailover)
  then ["patronictl"; "failover"; "--force"; "--candidate=" +:+ next]
  else ["patronictl"; "switchover"; "--scheduled=now"; "--force"; "--candidate=" +:+ next].

Definition reportsSuccess (spec : PatroniSwitchoverSpec) (out : ExecOutput) : bool :=
  bool_decide (out_Err out = None) &&
  Contains (out_Stdout out)
    (if bool_decide (sw_Type spec = typeFailover) then "failed over" else "switched over").

(** A command that ran in the database container of a pod, and its output. *)
Definition commanded (pod : Pod) (command : list string) (out : ExecOutput) : event resp :=
  Ev (Exec (objectKey (p_Meta pod)) ContainerDatabase None command : op) out.

Definition listed (pod : Pod) (out : ExecOutput) : event resp := commanded pod listCommand out.

(** The request [A] is to be acted upon. *)
Definition requested (cluster : CrunchyCluster) (o : observedInstances) (A : string)
    (spec : PatroniSwitchoverSpec) : Prop :=
  cc_Switchover cluster = Some spec /\ sw_Enabled spec = true /\
  annotation (cc_Meta cluster) PatroniSwitchover = A /\ A <> "" /\
  pt_Switchover (cc_Patroni cluster) <> Some A /\ (2 <= length (forCluster o))%nat /\
  (sw_Type spec = typeFailover -> default "" (sw_TargetInstance spec) <> "").

(** The name given to patronictl: the pod of the target, or nothing. *)
Definition nextLeader (o : observedInstances) (spec : PatroniSwitchoverSpec) (next : string) : Prop :=
  match sw_TargetInstance spec with
  | None | Some "" => next = ""
  | Some name => exists i p, i ∈ forCluster o /\ i_Name i = name /\ i_Pods i = [p] /\
                             next = om_Name (p_Meta p)
  end.

Definition switchover_call (cluster : CrunchyCluster) (o : observedInstances) (h : history) (c : op) : Prop :=
  exists pod i spec A, requested cluster o A spec /\ i ∈ forCluster o /\ i_Pods i = [pod] /\
    IsRunning i ContainerDatabase = (true, true) /\
    ((h = [] /\ c = Exec (objectKey (p_Meta pod)) ContainerDatabase None listCommand) \/
     (exists out t next, h = [listed pod out] /\ timelineOf out = (t, None) /\ t <> 0%Z /\
        pt_SwitchoverTimeline (cc_Patroni cluster) = Some t /\ nextLeader o spec next /\
        c = Exec (objectKey (p_Meta pod)) ContainerDatabase None (leaderCommand spec next))).

(** The status afterwards. *)
Definition switchover_result (cluster : CrunchyCluster) (o : observedInstances) (h : history)
    (r : PatroniStatus * option error) : Prop :=
  let status := cc_Patroni cluster in
  match h with
  | [] =>
      (r.1 = status /\ is_Some r.2) \/
      (r.2 = None /\ exists spec, cc_Switchover cluster = Some spec /\ sw_Enabled spec = true /\
         (annotation (cc_Meta cluster) PatroniSwitchover = "" \/
          pt_Switchover status = Some (annotation (cc_Meta cluster) PatroniSwitchover)) /\
         r.1 = status <| pt_SwitchoverTimeline := None |>) \/
      (r.2 = None /\ (forall spec, cc_Switchover cluster = Some spec -> sw_Enabled spec = false) /\
         r.1 = status <| pt_Switchover := None |> <| pt_SwitchoverTimeline := None |>)
  | e :: h =>
      exists pod out spec A, e = listed pod out /\ requested cluster o A spec /\
      match h with
      | [] =>
          (r.1 = status /\ is_Some r.2) \/
          (exists t, timelineOf out = (t, None) /\ t <> 0%Z /\ r.2 = None /\
             ((recordedTimeline status = None /\ r.1 = status <| pt_SwitchoverTimeline := Some t |>) \/
              (exists t', recordedTimeline status = Some t' /\ t' <> t /\ r.1 = completed A status)))
      | e2 :: h2 => h2 = [] /\
          exists out2 next, e2 = commanded pod (leaderCommand spec next) out2 /\
            recordedTimeline status = Some (timelineOf out).1 /\ snd (timelineOf out) = None /\
            if reportsSuccess spec out2 then r = (completed A status, None)
            else r.1 = status /\ is_Some r.2
      end
  end.
End Requests.

Lemma recordedTimeline_Some status t :
  recordedTimeline status = Some t -> pt_SwitchoverTimeline status = Some t /\ t <> 0%Z.
Proof. unfold recordedTimeline. destruct (pt_SwitchoverTimeline status); [|done]. case_bool_decide; [done|]. by intros [= ->]. Qed.

Lemma find_last_name (name : string) (l : list Instance) : forall acc i,
  fold_left (fun acc i => if bool_decide (name = i_Name i) then Some i else acc) l acc = Some i ->
  acc = Some i \/ (i ∈ l /\ i_Name i = name).
Proof.
  induction l as [|j l IH]; intros acc i; simpl; [by left|]. intros [Hi|[Hi Hn]]%IH.
  - case_bool_decide; [|by left]. injection Hi as ->. right. split; [left|done].
  - right. split; [by right|done].
Qed.

Lemma findTarget_next o spec target :
  findTarget o (sw_TargetInstance spec) = Ok target ->
  nextLeader o spec match target with
                    | Some i => match i_Pods i with p :: _ => om_Name (p_Meta p) | [] => "" end
                    | None => ""
                    end.
Proof.
  unfold findTarget, nextLeader. destruct (sw_TargetInstance spec) as [[|a s]|]; [by intros [= <-]| |by intros [= <-]].
  destruct (fold_left _ _ _) as [i|] eqn:E; [|done]. case_bool_decide as Hl; [|done]. intros [= <-].
  apply find_last_name in E as [?|[Hi Hn]]; [done|].
  destruct (i_Pods i) as [|p [|]] eqn:Ep; try done. by exists i, p.
Qed.

Lemma switchoverPod_spec o pod : switchoverPod o = Some pod ->
  exists i, i ∈ forCluster o /\ i_Pods i = [pod] /\ IsRunning i ContainerDatabase = (true, true).
Proof.
  unfold switchoverPod. destruct (List.find _ _) as [i|] eqn:E; [|done].
  apply List.find_some in E as [Hin Hb]. apply andb_true_iff in Hb as [Hr Hl]. bool_to_prop.
  destruct (i_Pods i) as [|p [|]] eqn:Ep; try done. intros [= <-]. exists i. split_and!; [by apply list_elem_of_In|done|].
  unfold known_true in Hr. by destruct (IsRunning i ContainerDatabase) as [[] []].
Qed.

(** The command itself: whichever it is, one call and the text that is looked for. *)
Lemma changeLeader_wps (G : history -> op -> Prop) h spec pod next (Q : history -> option error -> Prop) :
  G h (Exec (objectKey (p_Meta pod)) ContainerDatabase None (leaderCommand spec next)) ->
  (forall out, Q (h ++ [commanded pod (leaderCommand spec next) out])
     (if reportsSuccess spec out then None
      else Some (default (New "unable to switchover") (out_Err out)))) ->
  wps G h (changeLeader spec pod next) Q.
Proof.
  unfold changeLeader, leaderCommand, reportsSuccess.
  case_bool_decide; simpl; intros HG HQ; (split; [done|]); intros out; specialize (HQ out);
    destruct out as [so se [e|]]; simpl in *; try done; by destruct (Contains _ _).
Qed.

Section SwitchoverRule.
Context `{PatroniJSON} (cluster : CrunchyCluster) (o : observedInstances).
Abbreviation status := (cc_Patroni cluster).
Abbreviation G := (switchover_call cluster o).
Abbreviation Q := (switchover_result cluster o).

Lemma switchAtTimeline_wps spec A i pod target t out :
  requested cluster o A spec -> i ∈ forCluster o -> i_Pods i = [pod] ->
  IsRunning i ContainerDatabase = (true, true) ->
  findTarget o (sw_TargetInstance spec) = Ok target ->
  timelineOf out = (t, None) -> t <> 0%Z ->
  wps G [listed pod out] (switchAtTimeline spec A status pod target t) Q.
Proof.
  intros Hreq Hi Hip Hrun Htar Ht Hz. unfold switchAtTimeline.
  destruct (recordedTimeline status) as [t'|] eqn:Er; cycle 1.
  { exists pod, out, spec, A. split_and!; [done|done|]. right. exists t. split_and!; [done..|]. by left. }
  case_bool_decide as Htt; cbv [negb]; cycle 1.
  { exists pod, out, spec, A. split_and!; [done|done|]. right. exists t. split_and!; [done..|].
    right. by exists t'. }
  subst t'. pose proof (findTarget_next o spec target Htar) as Hnext.
  set (next := match target with Some _ => _ | None => _ end) in *. rewrite wps_bind. apply changeLeader_wps.
  - exists pod, i, spec, A. split_and!; [done..|]. right. exists out, t, next. split_and!; [done..| |done|done].
    by apply recordedTimeline_Some.
  - intros out2. exists pod, out, spec, A. split_and!; [done|done|]. split; [done|].
    exists out2, next. rewrite Ht. split_and!; [done..|]. destruct (reportsSuccess spec out2); simpl; [done|].
    by destruct (out_Err out2).
Qed.

Lemma switchover_wps : wps G [] (reconcilePatroniSwitchover cluster o) Q.
Proof.
  unfold reconcilePatroniSwitchover. destruct (cc_Switchover cluster) as [spec|] eqn:Es; cycle 1.
  { right. right. split_and!; [done|by rewrite Es|done]. }
  destruct (sw_Enabled spec) eqn:Een; cbv [negb]; cycle 1.
  { right. right. split_and!; [done| |done]. intros s'. rewrite Es. by intros [= <-]. }
  set (A := annotation _ _). destruct (bool_decide (A = "") || _) eqn:E0.
  { right. left. split; [done|]. exists spec. split_and!; [done..| |done].
    apply orb_true_iff in E0 as [E|E]; bool_to_prop; [by left|by right]. }
  apply orb_false_iff in E0 as [EA Est]. bool_to_prop.
  destruct (length (forCluster o) <=? 1)%nat eqn:El; [by left|]. apply Nat.leb_gt in El.
  destruct (bool_decide (sw_Type spec = typeFailover) && _) eqn:Ef; [by left|].
  assert (Hreq : requested cluster o A spec).
  { split_and!; [done..|lia|]. intros Ht. rewrite (bool_decide_eq_true_2 _ Ht) in Ef. simpl in Ef.
    unfold nonempty in Ef. by destruct (default "" (sw_TargetInstance spec)). }
  destruct (findTarget o (sw_TargetInstance spec)) as [target|e] eqn:Etar; [|by left].
  destruct (switchoverPod o) as [pod|] eqn:Epod; [|by left].
  apply switchoverPod_spec in Epod as (i & Hi & Hip & Hrun).
  unfold GetTimeline. rewrite wps_bind, wps_bind. split.
  { exists pod, i, spec, A. split_and!; [done..|]. by left. }
  intros out. simpl. destruct (timelineOf out) as [t [e|]] eqn:Et.
  { exists pod, out, spec, A. split_and!; [done|done|]. by left. }
  destruct (decide (t = 0%Z)) as [Hz|Hz].
  { rewrite (bool_decide_eq_true_2 _ Hz). exists pod, out, spec, A. split_and!; [done|done|]. by left. }
  rewrite (bool_decide_eq_false_2 _ Hz). by apply (switchAtTimeline_wps spec A i).
Qed.
End SwitchoverRule.

(** C7: the only commands of a switchover on request.  Nothing is sent unless
    the switchover is enabled, the trigger annotation is set and differs from the
    one in the status, there are two instances, and a failover names its target.
    First the members are listed, in the only pod of an instance whose database
    runs; the leader is changed only when that answer gives the timeline that the
    status recorded before, with the subcommand and the candidate that the
    specification asks for.  The request is marked as done exactly when the
    command reports success or when the timeline has moved; every other outcome
    leaves the status, records the timeline, or is an error. *)
Theorem switchover_calls `{PatroniJSON} cluster o :
  wps (switchover_call cluster o) [] (reconcilePatroniSwitchover cluster o) (switchover_result cluster o).
Proof. apply switchover_wps. Qed.

(** ** Restarts: the calls *)
Section RestartRule.
Context (cluster : CrunchyCluster) (o : observedInstances).

(** Members of the role restart, through an instance that needs it. *)
Definition restart_call (role : string) (i : Instance) (c : op) : Prop :=
  exists pod, i_Pods i = [pod] /\ IsRunning i ContainerDatabase = (true, true) /\
    IsTerminating i = (false, true) /\ PodRequiresRestart pod = true /\
    c = Exec (objectKey (p_Meta pod)) ContainerDatabase None
          (restartCommand role (PatroniScope (config cluster))).

Lemma needsRestart_call role i : needsRestart i = true ->
  exists pod, i_Pods i = [pod] /\
    restart_call role i (Exec (objectKey (p_Meta pod)) ContainerDatabase None
                          (restartCommand role (PatroniScope (config cluster)))).
Proof.
  unfold needsRestart, restart_call. intros Hn.
  apply andb_true_iff in Hn as [Hn Hrun]. apply andb_true_iff in Hn as [Hp Hterm].
  assert (Hr : IsRunning i ContainerDatabase = (true, true))
    by (unfold known_true in Hrun; by destruct (IsRunning i ContainerDatabase) as [[] []]).
  assert (Ht : IsTerminating i = (false, true))
    by (unfold known_false in Hterm; by destruct (IsTerminating i) as [[] []]).
  assert (Hl : exists p, i_Pods i = [p]).
  { unfold IsRunning in Hr. destruct (i_Pods i) as [|p [|]]; try done. by exists p. }
  destruct Hl as [p Hl]. rewrite Hl in Hp. exists p. split; [done|]. by exists p.
Qed.

(** Restarts disturb as little as they can.  At most one command is sent;
    it restarts pending members of one role, through a running instance that is
    not terminating and needs a restart itself.  When a primary needs one, the
    primaries are restarted, under the name the Patroni version knows; replicas
    are restarted only when no primary needs it; and when nothing is sent and
    there is no error, no instance needs a restart. *)
Theorem restarts_calls `{GoVersion} :
  wps (fun h c => h = [] /\
        ((exists i role, primaryRestart (forCluster o) i /\ restart_call role i c /\
            exists v, IsPatroniVer4 cluster = Ok v /\ role = if v then "primary" else "master") \/
         (exists i, replicaRestart (forCluster o) i /\ restart_call "replica" i c /\
            forall j, ~ primaryRestart (forCluster o) j)))
    [] (handlePatroniRestarts cluster o)
    (fun h r => (length h <= 1)%nat /\
       (h = [] -> r = Ok tt -> forall i, i ∈ forCluster o -> needsRestart i = false) /\
       (forall i, primaryRestart (forCluster o) i -> h = [] -> exists e, IsPatroniVer4 cluster = Err e)).
Proof.
  unfold handlePatroniRestarts.
  destruct (findRestarts_sound (forCluster o) (forCluster o) None None) as [Hp Hr]; [done|by split|].
  destruct (findRestarts_complete (forCluster o) None None) as [Hc1 Hc2].
  destruct (findRestarts (forCluster o) None None) as [[i|] r]; simpl in *.
  - specialize (Hp i eq_refl). pose proof Hp as (_ & Hn & _).
    pose proof (fun role => needsRestart_call role i Hn) as Hcall.
    destruct (Hcall "") as (pod & Hpod & _). rewrite Hpod.
    destruct (IsPatroniVer4 cluster) as [v|e] eqn:Ev; simpl; [|split_and!; [lia|done|]; intros; by exists e].
    split; [|intros out; simpl; split_and!; [lia|done|done]]. split; [done|]. left.
    destruct (Hcall (if v then "primary" else "master")) as (pod' & Hpod' & Hrc).
    rewrite Hpod in Hpod'. injection Hpod' as <-. exists i, (if v then "primary" else "master").
    split_and!; [done|done|by exists v].
  - destruct (Hc1 eq_refl) as [_ Hno]. destruct r as [i|].
    + specialize (Hr i eq_refl). pose proof Hr as (_ & Hn & _).
      destruct (needsRestart_call "replica" i Hn) as (pod & Hpod & Hrc). rewrite Hpod. simpl.
      split; [split; [done|]; right; by exists i|]. intros out. simpl. split_and!; [lia|done|done].
    + simpl. split_and!; [lia| |].
      * intros _ _. by apply Hc2.
      * intros j Hj. by destruct (Hno j).
Qed.
End RestartRule.

(** ** One switchover per request

    The operator keeps what it knows of a request in the status alone.  It reads
    the status from a cache that may be behind, and writes it as a merge patch
    that may be lost; commands may take effect without an answer that says so. *)
Module Requests.
Section Requests.
Context `{PatroniJSON} (A : string) (A_set : A <> "").

Record World := mkWorld {
  (** the timeline of the leader *)
  w_Timeline : Z;
  (** every version of the status, the stored one last *)
  w_Versions : list PatroniStatus;
  (** the version read last: a cache never goes back *)
  w_Read : nat;
  (** commands that changed the leader *)
  w_Performed : nat
}.

(** What commands do to the timeline, and how many changed the leader: the
    timeline never decreases, also on its own, and a change of leader starts a
    new one; the list of members has the timeline of the running leader, or
    none. *)
Inductive effect : Z -> history -> Z -> nat -> Prop :=
| effect_nil t : effect t [] t 0
| effect_elapse t t' h t'' n : (t <= t')%Z -> effect t' h t'' n -> effect t h t'' n
| effect_list pod out t h t' n :
    (timelineOf out).1 = t \/ (timelineOf out).1 = 0%Z ->
    effect t h t' n -> effect t (listed pod out :: h) t' n
| effect_performed pod command out t t' h t'' n :
    command <> listCommand -> (t < t')%Z ->
    effect t' h t'' n -> effect t (commanded pod command out :: h) t'' (S n)
| effect_refused pod command out t h t' n :
    command <> listCommand -> effect t h t' n -> effect t (commanded pod command out :: h) t' n.

(** The fields that were changed are written over those that are stored. *)
Definition merge (before after stored : PatroniStatus) : PatroniStatus :=
  mkPatroniStatus
    (if decide (pt_SystemIdentifier after = pt_SystemIdentifier before)
     then pt_SystemIdentifier stored else pt_SystemIdentifier after)
    (if decide (pt_Switchover after = pt_Switchover before) then pt_Switchover stored else pt_Switchover after)
    (if decide (pt_SwitchoverTimeline after = pt_SwitchoverTimeline before)
     then pt_SwitchoverTimeline stored else pt_SwitchoverTimeline after).

(** The request stands: it is enabled, and its annotation is [A]. *)
Definition stands (cluster : CrunchyCluster) : Prop :=
  annotation (cc_Meta cluster) PatroniSwitchover = A /\
  exists spec, cc_Switchover cluster = Some spec /\ sw_Enabled spec = true.

(** One reconcile, of any cluster in which the request stands, with any
    instances and any answers. *)
Inductive step : World -> World -> Prop :=
| step_reconcile cluster o i h r t vs stored rd n t' k vs' :
    stands cluster -> vs !! i = Some (cc_Patroni cluster) -> (rd <= i)%nat -> last vs = Some stored ->
    exec (reconcilePatroniSwitchover cluster o) h r -> effect t h t' k ->
    (vs' = vs \/ vs' = vs ++ [merge (cc_Patroni cluster) r.1 stored]) ->
    step (mkWorld t vs rd n) (mkWorld t' vs' i (n + k)).

Definition pending (s : PatroniStatus) : Prop := pt_Switchover s <> Some A.

(** Before the first change of leader: once a timeline is recorded it stays
    recorded until the request is done, and it is not ahead.  After it: what can
    still be read is done or has an older timeline. *)
Definition settled (t : Z) (s : PatroniStatus) : Prop :=
  pending s -> exists t', pt_SwitchoverTimeline s = Some t' /\ t' <> 0%Z /\ (t' < t)%Z.

Definition ordered (t : Z) (vs : list PatroniStatus) : Prop :=
  (forall s t', s ∈ vs -> pt_SwitchoverTimeline s = Some t' -> (t' <= t)%Z) /\
  (forall i j a b, (i <= j)%nat -> vs !! i = Some a -> vs !! j = Some b ->
     (~ pending a -> ~ pending b) /\
     (is_Some (recordedTimeline a) -> pending b -> is_Some (recordedTimeline b))).

Definition inv (w : World) : Prop :=
  ordered (w_Timeline w) (w_Versions w) /\
  (w_Performed w = 0 \/
   (w_Performed w = 1 /\ forall i s, (w_Read w <= i)%nat -> w_Versions w !! i = Some s ->
      settled (w_Timeline w) s))%nat.

Lemma effect_timeline t h t' n : effect t h t' n -> (t <= t')%Z.
Proof. induction 1; lia. Qed.

(** A recorded timeline decides what a reconcile can do. *)
Lemma effect_cons t e h t' n : effect t (e :: h) t' n ->
  exists t1, (t <= t1)%Z /\
    ((exists pod out, e = listed pod out /\
        ((timelineOf out).1 = t1 \/ (timelineOf out).1 = 0%Z) /\ effect t1 h t' n) \/
     (exists pod command out, e = commanded pod command out /\ command <> listCommand /\
        ((exists t2 m, n = S m /\ (t1 < t2)%Z /\ effect t2 h t' m) \/ effect t1 h t' n))).
Proof.
  remember (e :: h) as eh eqn:Heq. intros He. revert Heq. induction He as
    [t|t t1 h1 t'' n Hle He IH|pod out t h1 t' n Ho He IH|pod c out t t1 h1 t'' n Hc Hlt He IH|pod c out t h1 t' n Hc He IH];
    intros Heq; [done| |injection Heq as <- <-; exists t; (split; [lia|])..].
  - destruct (IH Heq) as (t2 & Hle2 & Hcase). exists t2. split; [lia|done].
  - left. by exists pod, out.
  - right. exists pod, c, out. split_and!; [done..|]. left. by exists t1, n.
  - right. exists pod, c, out. split_and!; [done..|]. by right.
Qed.

Lemma effect_none t t' n : effect t [] t' n -> n = 0%nat.
Proof. remember [] as h eqn:Eh. induction 1; [done|by auto|done..]. Qed.

(** The output of a command, whatever the pod. *)
Definition output (e : event resp) : option (list string * ExecOutput) :=
  match e with Ev (Exec _ _ _ command) out => Some (command, out) | _ => None end.

Lemma effect_listed t pod out h t' n : effect t (listed pod out :: h) t' n ->
  exists t1, (t <= t1)%Z /\ ((timelineOf out).1 = t1 \/ (timelineOf out).1 = 0%Z) /\ effect t1 h t' n.
Proof.
  intros (t1 & Hle & [(pod' & out' & Heq & Ht & He)|(pod' & c & out' & Heq & Hne & _)])%effect_cons;
    apply (f_equal output) in Heq.
  - injection Heq as <-. by exists t1.
  - injection Heq as Hc _. by destruct Hne.
Qed.

Lemma effect_commanded t pod c out t' n : c <> listCommand -> effect t [commanded pod c out] t' n ->
  (n = 0%nat /\ (t <= t')%Z) \/ (n = 1%nat /\ (t < t')%Z).
Proof.
  intros Hne (t1 & Hle & [(pod' & out' & Heq & _)|(_ & _ & _ & _ & _ & [(t2 & m & -> & Hlt & He)|He])])%effect_cons.
  - apply (f_equal output) in Heq. by injection Heq as Hc Ho.
  - right. pose proof (effect_none _ _ _ He) as ->. apply effect_timeline in He. split; [done|lia].
  - left. pose proof (effect_none _ _ _ He) as ->. apply effect_timeline in He. split; [done|lia].
Qed.

(** What one reconcile does to the status it read. *)
Lemma reconcile_cases cluster o h r t t' k :
  let s := cc_Patroni cluster in
  stands cluster -> exec (reconcilePatroniSwitchover cluster o) h r -> effect t h t' k ->
  (k = 0%nat /\
     (r.1 = s \/ (~ pending s /\ r.1 = s <| pt_SwitchoverTimeline := None |>) \/
      (pending s /\ recordedTimeline s = None /\
         exists t1, t1 <> 0%Z /\ (t1 <= t')%Z /\ r.1 = s <| pt_SwitchoverTimeline := Some t1 |>) \/
      (pending s /\ is_Some (recordedTimeline s) /\ r.1 = completed A s))) \/
  (k = 1%nat /\ pending s /\
     exists t1, recordedTimeline s = Some t1 /\ (t <= t1 < t')%Z /\ (r.1 = s \/ r.1 = completed A s)).
Proof.
  intros s (HA & spec0 & Hspec0 & Hen0) Hex Heff.
  pose proof (wps_exec _ [] _ _ _ _ (switchover_wps cluster o) Hex) as HQ. simpl in HQ.
  destruct h as [|e h]; simpl in HQ.
  { apply effect_none in Heff as ->. left. split; [done|].
    destruct HQ as [[-> _]|[(_ & spec & _ & _ & Ha & ->)|(_ & Hno & _)]]; [by left| |].
    - right. left. rewrite HA in Ha. destruct Ha as [?|Ha]; [done|]. split; [|done]. by intros Hp.
    - by rewrite (Hno _ Hspec0) in Hen0. }
  destruct HQ as (pod & out & spec & A' & -> & Hreq & HQ).
  assert (A' = A /\ pending s) as [-> Hpend].
  { destruct Hreq as (_ & _ & Ha & _ & Hp & _). rewrite HA in Ha. by subst A'. }
  apply effect_listed in Heff as (t1 & Hle & Ht1 & Heff). destruct h as [|e h].
  { pose proof (effect_none _ _ _ Heff) as ->. apply effect_timeline in Heff. left. split; [done|].
    destruct HQ as [[-> _]|(t2 & Ht2 & Hz & _ & [[Hr ->]|(t3 & Hr & Hne & ->)])]; [by left| |].
    - right. right. left. split_and!; [done..|]. exists t2. rewrite Ht2 in Ht1. simpl in Ht1.
      split_and!; [done| |done]. destruct Ht1; [lia|done].
    - right. right. right. split_and!; [done|by exists t3|done]. }
  destruct HQ as (-> & out2 & next & -> & Hr & _ & Hres).
  apply effect_commanded in Heff as Hk; [|by unfold leaderCommand; case_bool_decide].
  pose proof (recordedTimeline_Some _ _ Hr) as [_ Hz]. destruct Ht1 as [Ht1|?]; [|done]. subst t1.
  assert (Hr1 : r.1 = s \/ r.1 = completed A s) by (destruct (reportsSuccess spec out2); [subst r; by right|left; by destruct Hres]).
  destruct Hk as [[-> Hlt]|[-> Hlt]].
  - left. split; [done|]. destruct Hr1 as [?|?]; [by left|]. right. right. right. split_and!; [done|by eexists|done].
  - right. split_and!; [done..|]. exists (timelineOf out).1. split_and!; [done|done|lia|done].
Qed.

Lemma merge_same s stored : merge s s stored = stored.
Proof. unfold merge. rewrite !decide_True by done. by destruct stored. Qed.

Lemma merge_completed s stored : pending s -> ~ pending (merge s (completed A s) stored).
Proof.
  intros Hp Hm. apply Hm. unfold merge, completed. simpl.
  rewrite (decide_False (P := Some A = pt_Switchover s)); [done|]. intros Heq. by apply Hp.
Qed.

Lemma merge_timeline s t1 stored : recordedTimeline s = None -> t1 <> 0%Z ->
  merge s (s <| pt_SwitchoverTimeline := Some t1 |>) stored = stored <| pt_SwitchoverTimeline := Some t1 |>.
Proof.
  intros Hr Hz. unfold merge. simpl. rewrite !(decide_True (P := _ s = _ s)) by done.
  rewrite (decide_False (P := Some t1 = _)); [by destruct stored|].
  intros Heq. unfold recordedTimeline in Hr. rewrite <- Heq in Hr. by rewrite bool_decide_eq_false_2 in Hr.
Qed.

Lemma merge_forget s stored :
  pt_Switchover (merge s (s <| pt_SwitchoverTimeline := None |>) stored) = pt_Switchover stored.
Proof. unfold merge. simpl. by rewrite decide_True. Qed.

Definition bounded (t : Z) (s : PatroniStatus) : Prop :=
  forall t', pt_SwitchoverTimeline s = Some t' -> (t' <= t)%Z.

Lemma merge_bounded t s after stored :
  bounded t after -> bounded t stored -> bounded t (merge s after stored).
Proof. intros Ha Hs t'. unfold merge. simpl. case_decide; [apply Hs|apply Ha]. Qed.

(** [b] may be a later version than [a]. *)
Definition later (a b : PatroniStatus) : Prop :=
  (~ pending a -> ~ pending b) /\
  (is_Some (recordedTimeline a) -> pending b -> is_Some (recordedTimeline b)).

Lemma later_trans a b c : later a b -> later b c -> later a c.
Proof.
  intros [H1 H2] [H3 H4]. split; [auto|]. intros Ha Hc. destruct (decide (pt_Switchover b = Some A)) as [Hb|Hb].
  - exfalso. apply H3 in Hc; [done|]. by intros Hp.
  - by apply H4, Hc; apply H2.
Qed.

Lemma later_done a b : ~ pending b -> later a b.
Proof. by split. Qed.

Lemma later_recorded t1 stored : t1 <> 0%Z -> later stored (stored <| pt_SwitchoverTimeline := Some t1 |>).
Proof.
  intros Hz. split; [done|]. intros _ _. unfold recordedTimeline. simpl.
  rewrite bool_decide_eq_false_2 by done. by eexists.
Qed.

Lemma bounded_mono t t' s : (t <= t')%Z -> bounded t s -> bounded t' s.
Proof. intros Hle Hb x Hx. specialize (Hb x Hx). lia. Qed.

(** The version that a reconcile writes. *)
Lemma written_version cluster o h r t t' k stored :
  stands cluster -> exec (reconcilePatroniSwitchover cluster o) h r -> effect t h t' k ->
  bounded t (cc_Patroni cluster) -> bounded t stored -> later (cc_Patroni cluster) stored ->
  let new := merge (cc_Patroni cluster) r.1 stored in bounded t' new /\ later stored new.
Proof.
  intros Hst Hex Heff Hbs Hbst Hl. pose proof (effect_timeline _ _ _ _ Heff) as Hle.
  assert (Hsame : bounded t' (merge (cc_Patroni cluster) (cc_Patroni cluster) stored) /\
                  later stored (merge (cc_Patroni cluster) (cc_Patroni cluster) stored)).
  { rewrite merge_same. split; [by eapply bounded_mono|by split]. }
  assert (Hdone : pending (cc_Patroni cluster) ->
    bounded t' (merge (cc_Patroni cluster) (completed A (cc_Patroni cluster)) stored) /\
    later stored (merge (cc_Patroni cluster) (completed A (cc_Patroni cluster)) stored)).
  { intros Hp. split; [|by apply later_done, merge_completed].
    apply merge_bounded; [by intros x Hx|by eapply bounded_mono]. }
  destruct (reconcile_cases _ _ _ _ _ _ _ Hst Hex Heff)
    as [[_ [->|[[Hnp ->]|[(Hp & Hr & t1 & Hz & Ht1 & ->)|(Hp & _ & ->)]]]]|(_ & Hp & t1 & _ & _ & [->| ->])];
    cbv zeta; auto.
  - split; [apply merge_bounded; [done|by eapply bounded_mono]|].
    apply later_done. unfold pending. rewrite merge_forget. destruct Hl as [Hl _]. by apply Hl.
  - rewrite (merge_timeline _ _ _ Hr Hz). split; [by intros x [= <-]|by apply later_recorded].
Qed.

Lemma ordered_snoc t vs stored new :
  ordered t vs -> last vs = Some stored -> bounded t new -> later stored new -> ordered t (vs ++ [new]).
Proof.
  intros [Hb Hl] Hlast Hbn Hln.
  assert (Hsn : later new new) by by split.
  rewrite last_lookup in Hlast. split.
  - intros s x [Hs|Hs]%elem_of_app; [by apply Hb|]. apply list_elem_of_singleton in Hs as ->. apply Hbn.
  - intros i j a b Hij Ha Hbj. fold (later a b). apply lookup_app_Some in Ha as [Ha|[Hi Ha]].
    + apply lookup_app_Some in Hbj as [Hbj|[Hj Hbj]]; [by apply (Hl i j)|].
      apply list_lookup_singleton_Some in Hbj as [_ <-]. apply (later_trans _ stored); [|done].
      apply (Hl i (pred (length vs))); [|done|done]. apply lookup_lt_Some in Ha. lia.
    + apply list_lookup_singleton_Some in Ha as [_ <-]. apply lookup_app_Some in Hbj as [Hbj|[Hj Hbj]].
      * apply lookup_lt_Some in Hbj. lia.
      * by apply list_lookup_singleton_Some in Hbj as [_ <-].
Qed.

Lemma ordered_mono t t' vs : (t <= t')%Z -> ordered t vs -> ordered t' vs.
Proof. intros Hle [Hb Hl]. split; [|done]. intros s x Hs Hx. specialize (Hb s x Hs Hx). lia. Qed.

Lemma settled_mono t t' s : (t <= t')%Z -> settled t s -> settled t' s.
Proof. intros Hle Hs Hp. destruct (Hs Hp) as (x & ? & ? & ?). exists x. split_and!; [done..|lia]. Qed.

Lemma settled_later t t' a b : later a b -> is_Some (recordedTimeline a) -> bounded t b -> (t < t')%Z -> settled t' b.
Proof.
  intros [_ Hl] Ha Hb Hlt Hp. destruct (Hl Ha Hp) as [x Hx]. apply recordedTimeline_Some in Hx as [Hx Hz].
  exists x. split_and!; [done..|]. specialize (Hb x Hx). lia.
Qed.

Lemma settled_recorded t s : settled t s -> pending s ->
  exists t', recordedTimeline s = Some t' /\ (t' < t)%Z.
Proof.
  intros Hs Hp. destruct (Hs Hp) as (x & Hx & Hz & Hlt). exists x. split; [|done].
  unfold recordedTimeline. rewrite Hx. by rewrite bool_decide_eq_false_2.
Qed.

Section Step.
Context (cluster : CrunchyCluster) (o : observedInstances) (h : history) (r : PatroniStatus * option error).
Context (t t' : Z) (k i rd : nat) (vs : list PatroniStatus) (stored : PatroniStatus).
Context (Hst : stands cluster) (Hs : vs !! i = Some (cc_Patroni cluster)) (Hrd : (rd <= i)%nat).
Context (Hlast : last vs = Some stored) (Hord : ordered t vs).
Context (Hex : exec (reconcilePatroniSwitchover cluster o) h r) (Heff : effect t h t' k).
Abbreviation new := (merge (cc_Patroni cluster) r.1 stored).

Lemma stored_at : exists j, (i <= j)%nat /\ vs !! j = Some stored.
Proof.
  rewrite last_lookup in Hlast. exists (pred (length vs)). split; [|done].
  apply lookup_lt_Some in Hs. lia.
Qed.

Lemma version_bounded j s : vs !! j = Some s -> bounded t s.
Proof. intros Hj x Hx. apply (proj1 Hord s); [by apply list_elem_of_lookup_2 with j|done]. Qed.

Lemma version_later j s : (i <= j)%nat -> vs !! j = Some s -> later (cc_Patroni cluster) s.
Proof. intros Hle Hj. by apply (proj2 Hord i j). Qed.

Lemma step_ordered : ordered t' vs /\ ordered t' (vs ++ [new]).
Proof.
  pose proof (effect_timeline _ _ _ _ Heff) as Hle. split; [by eapply ordered_mono|].
  destruct stored_at as (j & Hij & Hj).
  destruct (written_version _ _ _ _ _ _ _ stored Hst Hex Heff) as [Hb Hl];
    [by eapply version_bounded|by eapply version_bounded|by eapply version_later|].
  eapply ordered_snoc; [by eapply ordered_mono|done..].
Qed.

(** The change of leader: everything that can still be read is settled. *)
Lemma first_change : k = 1%nat ->
  forall j s, (i <= j)%nat -> (vs ++ [new]) !! j = Some s -> settled t' s.
Proof.
  intros Hk j s Hij Hj.
  destruct (reconcile_cases _ _ _ _ _ _ _ Hst Hex Heff) as [[? _]|(_ & Hp & t1 & Hr & Ht1 & Hr1)]; [lia|].
  assert (Hold : forall j s, (i <= j)%nat -> vs !! j = Some s -> settled t' s).
  { intros j' s' Hij' Hj'. apply (settled_later t t' (cc_Patroni cluster)); [by eapply version_later|by exists t1| |lia].
    by eapply version_bounded. }
  apply lookup_app_Some in Hj as [Hj|[_ Hj]]; [by eapply Hold|].
  apply list_lookup_singleton_Some in Hj as [_ <-]. destruct Hr1 as [->| ->].
  - rewrite merge_same. destruct stored_at as (j' & ? & ?). by eapply Hold.
  - intros Hn. by destruct (merge_completed (cc_Patroni cluster) stored Hp Hn).
Qed.

(** No other follows. *)
Lemma no_second_change :
  (forall j s, (rd <= j)%nat -> vs !! j = Some s -> settled t s) ->
  k = 0%nat /\ forall j s, (i <= j)%nat -> (vs ++ [new]) !! j = Some s -> settled t' s.
Proof.
  intros Hset. pose proof (effect_timeline _ _ _ _ Heff) as Hle.
  pose proof (Hset i _ Hrd Hs) as Hsi.
  assert (Hstored : settled t' stored).
  { destruct stored_at as (j & ? & Hj). eapply settled_mono; [done|]. apply (Hset j); [lia|done]. }
  assert (Hnew : k = 0%nat /\ settled t' new).
  { destruct (reconcile_cases _ _ _ _ _ _ _ Hst Hex Heff)
      as [[-> [->|[[Hnp ->]|[(Hp & Hr & _)|(Hp & _ & ->)]]]]|(_ & Hp & t1 & Hr & Ht1 & _)].
    - by rewrite merge_same.
    - split; [done|]. unfold settled, pending. rewrite merge_forget. destruct stored_at as (j & ? & Hj).
      intros Hps. exfalso. by apply (proj1 (version_later j stored ltac:(lia) Hj)).
    - destruct (settled_recorded _ _ Hsi Hp) as (x & Hx & _). by rewrite Hx in Hr.
    - split; [done|]. intros Hn. by destruct (merge_completed (cc_Patroni cluster) stored Hp Hn).
    - destruct (settled_recorded _ _ Hsi Hp) as (x & Hx & Hlt). rewrite Hx in Hr. injection Hr as ->. lia. }
  destruct Hnew as [-> Hnew]. split; [done|]. intros j s Hij [Hj|[_ Hj]]%lookup_app_Some.
  - eapply settled_mono; [done|]. apply (Hset j); [lia|done].
  - by apply list_lookup_singleton_Some in Hj as [_ <-].
Qed.
End Step.

Lemma step_inv w w' : step w w' -> inv w -> inv w'.
Proof.
  intros Hstep. destruct Hstep as [cluster o i h r t vs stored rd n t' k vs' Hst Hs Hrd Hlast Hex Heff Hvs].
  intros [Hord Hperf]. simpl in *.
  destruct (step_ordered cluster o h r t t' k i rd vs stored Hst Hs Hrd Hlast Hord Hex Heff) as [Ho1 Ho2].
  split; simpl; [by destruct Hvs as [->| ->]|].
  assert (Hsub : forall j s, vs' !! j = Some s -> (vs ++ [merge (cc_Patroni cluster) r.1 stored]) !! j = Some s).
  { intros j s Hj. destruct Hvs as [->| ->]; [by apply lookup_app_l_Some|done]. }
  destruct Hperf as [->|[-> Hset]].
  - destruct (reconcile_cases _ _ _ _ _ _ _ Hst Hex Heff) as [[-> _]|(-> & _)]; [by left|]. right. split; [done|].
    intros j s Hij Hj%Hsub.
    by apply (first_change cluster o h r t t' 1 i rd vs stored Hst Hs Hrd Hlast Hord Hex Heff eq_refl j).
  - destruct (no_second_change cluster o h r t t' k i rd vs stored Hst Hs Hrd Hlast Hord Hex Heff Hset) as [-> Hnew].
    right. split; [done|]. intros j s Hij Hj%Hsub. by apply (Hnew j).
Qed.

(** Where a request starts: one version of the status, not the request's, and a
    recorded timeline, if any, that is not ahead of the leader's. *)
Definition initial (w : World) : Prop :=
  exists s, w_Versions w = [s] /\ bounded (w_Timeline w) s /\ w_Read w = 0%nat /\ w_Performed w = 0%nat.

Lemma reachable_inv w w' : initial w -> rtc step w w' -> inv w'.
Proof.
  intros (s & Hv & Hb & _ & Hp) Hrtc.
  assert (Hi : inv w).
  { split; [|by left]. rewrite Hv. split.
    - intros s' x Hs. apply list_elem_of_singleton in Hs as ->. apply Hb.
    - intros i j a b _ [_ <-]%list_lookup_singleton_Some [_ <-]%list_lookup_singleton_Some. by split. }
  clear Hv Hb Hp. induction Hrtc as [w|w w1 w2 Hs Hr IH]; [done|]. apply IH. by eapply step_inv.
Qed.

(** C6: a request changes the leader at most once.  However often the operator
    reconciles, with whatever stale version of the status it reads (never one
    older than it read before), when writes are lost or merged over others, when
    commands take effect without saying so or say so without effect, and when the
    timeline moves on its own: as long as the annotation stays the same and the
    switchover is enabled, at most one command has changed the leader.  For that
    the timeline is recorded before the command is sent. *)
Theorem one_switchover_per_request w w' :
  initial w -> rtc step w w' -> (w_Performed w' <= 1)%nat.
Proof. intros Hi Hr. destruct (reachable_inv w w' Hi Hr) as [_ [->|[-> _]]]; lia. Qed.
End Requests.
End Requests.

(** A request on a cluster of two instances: the timeline is recorded, the
    switchover takes effect but its status is lost, and the next reconcile, which
    reads the version of before, takes the new timeline for its success. *)
Module ExampleSwitchover.
Definition json : PatroniJSON := {|
  EncodeConfiguration := fun _ => "{}";
  UnmarshalMembers := fun s =>
    if bool_decide (s = "TL 5") then Some [mkMember "Leader" "running" 5]
    else if bool_decide (s = "TL 6") then Some [mkMember "Replica" "running" 5; mkMember "Leader" "running" 6]
    else None
|}.

Definition cluster (status : PatroniStatus) : CrunchyCluster :=
  ExampleInstances.cluster [ExampleInstances.set1 2]
    <| cc_Meta ::= fun m => m <| om_Annotations := {[PatroniSwitchover := "now"]} |> |>
    <| cc_Switchover := Some (mkSwitchover true None "Switchover") |> <| cc_Patroni := status |>.

Definition observed : observedInstances :=
  mkObserved
    [ExampleInstances.instance "a" "primary" "new"; ExampleInstances.instance "b" "replica" "new"]
    {["a" := 0%nat; "b" := 1%nat]} {["set1" := [0; 1]%nat]} {["set1"]}.

Definition pod : Pod := ExampleInstances.pod "a" "primary" "new".
Definition answer (s : string) : ExecOutput := mkExecOutput s "" None.
Definition fresh : PatroniStatus := mkPatroniStatus "" None None.
Definition recorded : PatroniStatus := mkPatroniStatus "" None (Some 5%Z).
Definition done : PatroniStatus := mkPatroniStatus "" (Some "now") None.
Definition switch : list string := ["patronictl"; "switchover"; "--scheduled=now"; "--force"; "--candidate="].

#[local] Existing Instance json.
Import Requests.

Lemma stands_now status : stands "now" (cluster status).
Proof. split; [by vm_compute|]. by eexists. Qed.

Lemma first : step "now" (mkWorld 5 [fresh] 0 0) (mkWorld 5 [fresh; recorded] 0 (0 + 0)).
Proof.
  eapply (step_reconcile "now" (cluster fresh) observed 0 [listed pod (answer "TL 5")] (recorded, None));
    [apply stands_now|done|lia|done| |by eauto using effect|by right].
  by exists (answer "TL 5"), [].
Qed.

Lemma second : step "now" (mkWorld 5 [fresh; recorded] 0 0) (mkWorld 6 [fresh; recorded] 1 (0 + 1)).
Proof.
  eapply (step_reconcile "now" (cluster recorded) observed 1
    [listed pod (answer "TL 5"); commanded pod switch (answer "switched over")] (done, None));
    [apply stands_now|done|lia|done| | |by left].
  - exists (answer "TL 5"), [commanded pod switch (answer "switched over")]. split; [done|].
    by exists (answer "switched over"), [].
  - apply effect_list; [by left|]. apply (effect_performed _ _ _ _ 6); [done|lia|constructor].
Qed.

Lemma third : step "now" (mkWorld 6 [fresh; recorded] 1 1) (mkWorld 6 [fresh; recorded; done] 1 (1 + 0)).
Proof.
  eapply (step_reconcile "now" (cluster recorded) observed 1 [listed pod (answer "TL 6")] (done, None));
    [apply stands_now|done|lia|done| |by eauto using effect|by right].
  by exists (answer "TL 6"), [].
Qed.
End ExampleSwitchover.

Lemma one_switchover_per_request_witness :
  let H := ExampleSwitchover.json in
  exists w, rtc (Requests.step "now") (Requests.mkWorld 5 [ExampleSwitchover.fresh] 0 0) w /\
    last (Requests.w_Versions w) = Some ExampleSwitchover.done /\ Requests.w_Performed w = 1%nat /\
    (Requests.w_Performed w <= 1)%nat.
Proof.
  intros H. assert (Hr : rtc (Requests.step "now") (Requests.mkWorld 5 [ExampleSwitchover.fresh] 0 0)
    (Requests.mkWorld 6 [ExampleSwitchover.fresh; ExampleSwitchover.recorded; ExampleSwitchover.done] 1 1)).
  { eapply rtc_l; [exact ExampleSwitchover.first|]. eapply rtc_l; [exact ExampleSwitchover.second|].
    eapply rtc_l; [exact ExampleSwitchover.third|]. reflexivity. }
  eexists. split; [exact Hr|]. split_and!; [done..|].
  refine (Requests.one_switchover_per_request "now" _ _ _ _ Hr); [done|].
  exists ExampleSwitchover.fresh. by split_and!.
Defined.
