(* ===== verification/ClusterStatus.v ===== *)
(** * The status of a PerconaPGCluster

    [percona/controller/pgcluster/status.go]: what is published of the
    PostgresCluster below, and [standby.go]: how far a standby cluster lags
    behind, which is part of the status and of the readiness of its pods. *)
From S2P Require Import Prelude GoStrings Cluster Prog Errors Naming Objects.
From S2P Require Import Client BackupUtils Psql Instances ObservedInstances.

(** [postgrescluster.ConditionRepoHostReady], [ConditionReplicaCreate] and
    [v2.ConditionPMMReady] *)
Definition ConditionRepoHostReady : string := "PGBackRestRepoHostReady".
Definition ConditionReplicaCreate : string := "PGBackRestReplicaCreate".
Definition ConditionPMMReady : string := "PMMReady".

(** The conditions and the rest of the status, without the metadata. *)
Definition onConditions (f : list Condition -> list Condition) (cr : PerconaPGCluster) : PerconaPGCluster :=
  cr <| c_Conditions ::= f |>.

Definition onObserved (f : ObservedStatus -> ObservedStatus) (cr : PerconaPGCluster) : PerconaPGCluster :=
  cr <| c_Observed ::= f |>.

(** ** Where to connect *)
Definition svcFQDN (svcName ns : string) : string := svcName +:+ "." +:+ ns +:+ ".svc".

(** [PGProxySpec.PGBouncerEnabled] *)
Definition c_PGBouncerEnabled (cr : PerconaPGCluster) : option PGBouncerSpec :=
  match c_PGBouncer cr with
  | Some p => if bool_decide (pb_Replicas p = Some 0%Z) then None else Some p
  | None => None
  end.

(** The last ingress; its host name rather than its address. *)
Definition ingressHost (ingress : list (string * string)) : string :=
  fold_left (fun _ i => if nonempty (snd i) then snd i else fst i) ingress "".

Definition getHost (cr : PerconaPGCluster) : action string :=
  let postgresCluster := namedCluster (c_Namespace cr) (c_Name cr) in
  match c_PGBouncerEnabled cr with
  | None => Ret (Ok (svcFQDN (meta_Name (ClusterPrimaryService postgresCluster)) (c_Namespace cr)))
  | Some p =>
      let svcName := meta_Name (ClusterPGBouncer postgresCluster) in
      if negb (bool_decide (pb_Expose p = Some "LoadBalancer"))
      then Ret (Ok (svcFQDN svcName (c_Namespace cr)))
      else
        do! svc := call (Get KService (c_Namespace cr, svcName)) or "get service" in
        Ret (Ok (ingressHost (svc_Ingress svc)))
  end.

(** ** The state *)
Definition int32_sum (l : list Z) : Z := fold_left (fun acc n => int32 (acc + n)) l 0%Z.

Definition getState (cr : PerconaPGCluster) (status : ObservedStatus) (crunchy : CrunchyCluster) : AppState :=
  if bool_decide (c_Pause cr = Some true)
  then if bool_decide (0 < snd (os_Postgres status))%Z then AppStateStopping else AppStatePaused
  else if bool_decide ((cc_PGBackRest crunchy ≫= ps_RepoHostReady) = Some false) then AppStateInit
  else if negb (bool_decide (snd (os_PGBouncer status) = fst (os_PGBouncer status))) then AppStateInit
  else if negb (bool_decide (snd (os_Postgres status) = fst (os_Postgres status))) then AppStateInit
  else if negb (bool_decide (int32_sum (map iss_UpdatedReplicas (cc_StatusSets crunchy)) =
                             fst (os_Postgres status))) then AppStateInit
  else if bool_decide (fst (os_Postgres status) = 0%Z) then AppStateInit
  else AppStateReady.

(** The counts of the instance sets and of PgBouncer. *)
Definition observedSizes (host : string) (extensions : list string) (crunchy : CrunchyCluster)
    (status : ObservedStatus) : ObservedStatus :=
  let sets := cc_StatusSets crunchy in
  status <| os_Postgres := (int32_sum (map iss_Replicas sets), int32_sum (map iss_ReadyReplicas sets)) |>
         <| os_InstanceSets := map (fun s => (iss_Name s, iss_Replicas s, iss_ReadyReplicas s)) sets |>
         <| os_PGBouncer := cc_PGBouncer crunchy |>
         <| os_Host := host |>
         <| os_InstalledCustomExtensions := extensions |>.

(** ** Conditions *)
Definition perconaOwnedConditions : list string :=
  [ConditionClusterIsReadyForBackup; ConditionAPIGroupMigration; ConditionStandbyLagging;
   ConditionReadyForLogicalReplication; ConditionPMMReady].

Section Conditions.
Context `{MetaConditions}.

(** A condition of the PostgresCluster, which has its own transition time. *)
Definition mirrorCondition (generation : Z) (l : list Condition) (c : Condition) : list Condition :=
  SetStatusCondition (cond_LastTransitionTime c) l
    (mkCondition (cond_Type c) (cond_Status c) (cond_Reason c) (cond_Message c) generation
       (cond_LastTransitionTime c)).

Definition staleCondition (crunchy : list Condition) (c : Condition) : bool :=
  negb (existsb (fun d => bool_decide (cond_Type d = cond_Type c)) crunchy)
  && negb (bool_decide (cond_Type c ∈ perconaOwnedConditions)).

Definition syncConditions (generation : Z) (crunchy l : list Condition) : list Condition :=
  let l := fold_left (mirrorCondition generation) crunchy l in
  let stale := map cond_Type (List.filter (staleCondition crunchy) l) in
  fold_left RemoveStatusCondition stale l.

Definition syncConditionsFromPostgresToPercona (postgres : CrunchyCluster) (cr : PerconaPGCluster)
    : PerconaPGCluster :=
  onConditions (syncConditions (om_Generation (c_Meta cr)) (pc_Conditions (cc_Config postgres))) cr.

Definition syncPatroni (postgres status : PatroniStatus) : PatroniStatus :=
  let status := if nonempty (pt_SystemIdentifier postgres)
                then status <| pt_SystemIdentifier := pt_SystemIdentifier postgres |> else status in
  let status := match pt_SwitchoverTimeline postgres with
                | Some t => status <| pt_SwitchoverTimeline := Some t |>
                | None => status
                end in
  match pt_Switchover postgres with
  | Some s => status <| pt_Switchover := Some s |>
  | None => status
  end.

Definition syncPatroniFromPostgresToPercona (postgres : CrunchyCluster) (cr : PerconaPGCluster)
    : PerconaPGCluster :=
  onObserved (fun s => s <| os_Patroni ::= fun p =>
    Some (syncPatroni (cc_Patroni postgres) (default (mkPatroniStatus "" None None) p)) |>) cr.

Definition syncPgbackrestFromPostgresToPercona (postgres : CrunchyCluster) (cr : PerconaPGCluster)
    : PerconaPGCluster :=
  match cc_PGBackRest postgres with
  | Some status => cr <| c_RestoreStatus := ps_Restore status |>
  | None => cr
  end.

(** Whether the condition is there and its status is True. *)
Definition conditionHolds (l : list Condition) (t : string) : bool :=
  match FindStatusCondition l t with
  | Some c => bool_decide (cond_Status c = ConditionTrue)
  | None => false
  end.

Definition setClusterNotReadyCondition (cr : PerconaPGCluster) (status : ConditionStatus) (reason : string)
    : program PerconaPGCluster :=
  let current := FindStatusCondition (c_Conditions cr) ConditionClusterIsReadyForBackup in
  let generation := om_Generation (c_Meta cr) in
  let same := match current with
              | Some c => bool_decide (cond_Status c = status) && bool_decide (cond_Reason c = reason)
                          && bool_decide (cond_ObservedGeneration c = generation)
              | None => false
              end in
  if same then Ret cr
  else let! now := call Now in
       Ret (onConditions (fun l => SetStatusCondition now l
         (mkCondition ConditionClusterIsReadyForBackup status reason "" generation now)) cr).

Definition readyForBackup (l : list Condition) : ConditionStatus * string :=
  if negb (conditionHolds l ConditionRepoHostReady) then (ConditionFalse, ConditionRepoHostReady)
  else if negb (conditionHolds l ConditionReplicaCreate) then (ConditionFalse, ConditionReplicaCreate)
  else (ConditionTrue, "AllConditionsAreTrue").

Definition updateConditions (cr : PerconaPGCluster) (status : CrunchyCluster) : program PerconaPGCluster :=
  let cr := syncPgbackrestFromPostgresToPercona status
              (syncPatroniFromPostgresToPercona status
                 (syncConditionsFromPostgresToPercona status cr)) in
  let '(s, reason) := readyForBackup (c_Conditions cr) in
  setClusterNotReadyCondition cr s reason.

(** The condition on monitoring is the reconciled object's. *)
Definition copyPMMCondition (cr cluster : PerconaPGCluster) : PerconaPGCluster :=
  onConditions (fun l =>
    match FindStatusCondition (c_Conditions cr) ConditionPMMReady with
    | Some c => SetStatusCondition (cond_LastTransitionTime c) l c
    | None => RemoveStatusCondition l ConditionPMMReady
    end) cluster.
End Conditions.

(** ** [strconv.ParseInt(s, 10, 64)] *)
Fixpoint digits (acc : Z) (s : string) : option Z :=
  match s with
  | EmptyString => Some acc
  | String c s => if is_digit c then digits (10 * acc + (Z.of_N (code c) - 48))%Z s else None
  end.

Definition in_int64 (z : Z) : bool := bool_decide (- 2 ^ 63 <= z)%Z && bool_decide (z < 2 ^ 63)%Z.

Definition ParseInt (s : string) : option Z :=
  let z := match s with
           | EmptyString => None
           | String "-" s => if nonempty s then Z.opp <$> digits 0 s else None
           | String "+" s => if nonempty s then digits 0 s else None
           | _ => digits 0 s
           end in
  match z with
  | Some z => if in_int64 z then Some z else None
  | None => None
  end.

(** Two's complement of 64 bits *)
Definition int64 (z : Z) : Z := ((z + 2 ^ 63) mod 2 ^ 64 - 2 ^ 63)%Z.

(** ** Standby lag *)
Definition minute : Z := (60 * 1000 * 1000 * 1000)%Z.
Definition defaultReplicationLagDetectionInterval : Z := (5 * minute)%Z.
Definition laggedReplicationInterval : Z := minute.
Definition replicationLagSignalFile : string := "/pgdata/replication-lag-detected".

Definition ErrPrimaryPodNotFound : error := Sentinel "primary pod not found".
Definition ErrInvalidLagQueryOutput : error := Sentinel "invalid lag query output".

(** The error of [getStandbyLag]: one error, or a [multierror]. *)
Inductive lagError := Single (e : error) | Multi (l : list error).

(** [errors.Is], which looks into a multierror. *)
Definition lagIs (e : lagError) (sentinel : string) : bool :=
  match e with Single e => Is e sentinel | Multi l => existsb (fun e => Is e sentinel) l end.

(** [MaxAcceptableLag.AsDec().UnscaledBig().Int64()]: the digits, without the
    scale. *)
Definition lagThreshold (q : Quantity) : Z := int64 (q_Unscaled q).

Section Standby.
Context `{ControllerRuntime, GoVersion, MetaConditions}.
(** the text of an error *)
Context (errorText : lagError -> string).

(** [PerconaPGCluster.ShouldCheckStandbyLag] *)
Definition ShouldCheckStandbyLag (cr : PerconaPGCluster) : option (StandbySpec * Quantity) :=
  if bool_decide (0 <= c_CompareVersion cr "2.9.0")%Z then
    match c_Standby cr with
    | Some s => if sb_Enabled s then match sb_MaxAcceptableLag s with
                                     | Some q => Some (s, q)
                                     | None => None
                                     end
                else None
    | None => None
    end
  else None.

Definition isLagging (cr : PerconaPGCluster) : bool :=
  IsStatusConditionTrue (c_Conditions cr) ConditionStandbyLagging.

Definition setLagging (cr : PerconaPGCluster) (status : ConditionStatus) (reason message : string)
    : program PerconaPGCluster :=
  let! now := call Now in
  Ret (onConditions (fun l => SetStatusCondition now l
    (mkCondition ConditionStandbyLagging status reason message 0 0)) cr).

Definition lagInterval (cr : PerconaPGCluster) : Z :=
  if isLagging cr then laggedReplicationInterval else defaultReplicationLagDetectionInterval.

Definition shouldSkipLagCheck (cr : PerconaPGCluster) : program bool :=
  match os_Standby (c_Observed cr) ≫= sbs_LagLastComputedAt with
  | None => Ret false
  | Some t => let! now := call Now in Ret (bool_decide (now < t + lagInterval cr)%Z)
  end.

Definition databaseOf (pod : Pod) : Executor := podExecutor (objectKey (p_Meta pod)) ContainerDatabase.

Definition signalCommand (ready : bool) : list string :=
  if ready then ["rm"; "-f"; replicationLagSignalFile] else ["touch"; replicationLagSignalFile].

Definition setPodReplicationLagSignal (cr : PerconaPGCluster) (ready : bool) : action unit :=
  do! primary := GetPrimaryPod cr or "get primary pod" in
  let! out := databaseOf primary None (signalCommand ready) in
  Ret (match out_Err out with Some e => Err e | None => Ok tt end).

(** A query on the primary pod, and its trimmed output. *)
Definition queryPrimary (cr : PerconaPGCluster) (sql : string) : action string :=
  let! r := GetPrimaryPod cr in
  match r with
  | Err e => Ret (Err (Wrap "get primary pod" ErrPrimaryPodNotFound))
  | Ok primary =>
      let! out := ExecPsql (databaseOf primary) sql {["ON_ERROR_STOP" := "on"; "QUIET" := "on"]} ["-t"] in
      Ret (match out_Err out with
           | Some e => Err (Wrap "execute query" e)
           | None => Ok (TrimSpace (out_Stdout out))
           end)
  end.

Definition parseLag (s : string) : result Z :=
  match ParseInt s with
  | Some z => Ok z
  | None => Err (Wrap "parse lag bytes" (New "invalid syntax"))
  end.

Definition streamingLagQuery : string :=
  "SELECT latest_end_lsn - pg_last_wal_replay_lsn() AS value from pg_catalog.pg_stat_wal_receiver;".

Definition getLagFromStreamingHost (standby : PerconaPGCluster) : action Z :=
  do! lagStr := queryPrimary standby streamingLagQuery in
  Ret (if nonempty lagStr then parseLag lagStr
       else Err (Wrap "failed to get lag from streaming host" ErrInvalidLagQueryOutput)).

Definition getWALLagBytes (currentWALLSN : string) (standby : PerconaPGCluster) : action Z :=
  do! lagBytesStr := queryPrimary standby
    ("SELECT pg_wal_lsn_diff('" +:+ currentWALLSN +:+ "'::pg_lsn, pg_last_wal_replay_lsn());") in
  Ret (parseLag lagBytesStr).

Definition getCurrentWALLSN (cr : PerconaPGCluster) : action string :=
  do! lsn := queryPrimary cr "SELECT pg_current_wal_lsn();" in
  Ret (if nonempty lsn then Ok lsn else Err (New "empty WAL LSN result")).

Definition getLagFromMainSite (standby : PerconaPGCluster) : action Z :=
  let mainSiteNN := annotation (c_Meta standby) AnnotationReplicationMainSite in
  if negb (nonempty mainSiteNN) then Ret (Err (New "annotation is missing or empty"))
  else
    match Split mainSiteNN "/" with
    | [namespace; name] =>
        do! mainSite := call (Get KPGCluster (namespace, name))
          or "get main site for replication lag calculation" in
        do! curWALLSN := getCurrentWALLSN mainSite or "get current WAL SN" in
        do! lagBytes := getWALLagBytes curWALLSN standby or "get WAL lag bytes" in
        Ret (Ok lagBytes)
    | _ => Ret (Err (New "invalid format for annotation"))
    end.

Definition getStandbyLag (standby : PerconaPGCluster) (spec : StandbySpec) : program (Z + lagError) :=
  let mainSite (errs : list error) :=
    let! r := getLagFromMainSite standby in
    Ret (match r with
         | Ok lag => inl lag
         | Err e => inr (Multi (errs ++ [Wrap "get lag from main site" e]))
         end) in
  if nonempty (sb_Host spec) then
    let! r := getLagFromStreamingHost standby in
    match r with
    | Ok lag => Ret (inl lag)
    | Err e =>
        if negb (nonempty (sb_RepoName spec)) then Ret (inr (Single e))
        else mainSite [Wrap "get lag from streaming host" e]
    end
  else mainSite [].

(** The condition of an unknown lag. *)
Definition lagErrorMessage (e : lagError) : string :=
  if lagIs e "invalid lag query output"
  then "Invalid output from lag query. The WAL receiver may not be active"
  else if lagIs e "primary pod not found" then "Cannot find primary for replication lag calculation"
  else errorText e.

Definition lagUnknown (cr : PerconaPGCluster) (e : lagError) : program (PerconaPGCluster * option error) :=
  let! r := (if isLagging cr then setPodReplicationLagSignal cr true else Ret (Ok tt)) in
  match r with
  | Err e => Ret (cr, Some (Wrap "set pod replication readiness signal" e))
  | Ok _ =>
      let! cr := setLagging cr ConditionUnknown "ErrorGettingLag" (lagErrorMessage e) in
      Ret (cr, None)
  end.

Definition lagMessage (lagBytes maxLag : Z) : string :=
  "WAL is lagging by " +:+ pretty lagBytes +:+ " bytes (threshold: " +:+ pretty maxLag +:+ " bytes)".

Definition lagKnown (cr : PerconaPGCluster) (lagBytes maxLag : Z) : program (PerconaPGCluster * option error) :=
  let lagDetected := bool_decide (maxLag < lagBytes)%Z in
  let status := if lagDetected then ConditionTrue else ConditionFalse in
  let! r := (if IsStatusConditionPresentAndEqual (c_Conditions cr) ConditionStandbyLagging status
             then Ret (Ok tt) else setPodReplicationLagSignal cr (negb lagDetected)) in
  match r with
  | Err e => Ret (cr, Some (Wrap "set pod replication readiness signal" e))
  | Ok _ =>
      let! cr := (if lagDetected then setLagging cr ConditionTrue "LagDetected" (lagMessage lagBytes maxLag)
                  else setLagging cr ConditionFalse "LagNotDetected" "") in
      let! now := call Now in
      Ret (onObserved (fun s => s <| os_Standby := Some (mkStandbyStatus (Some now) lagBytes) |>) cr, None)
  end.

(** Only the pgBackRest repository is followed, and no cluster is known that
    writes it. *)
Definition noMainSite (cr : PerconaPGCluster) (spec : StandbySpec) : bool :=
  nonempty (sb_RepoName spec) && negb (nonempty (sb_Host spec))
  && negb (nonempty (annotation (c_Meta cr) AnnotationReplicationMainSite)).

(** The changed copy of the object, and the error, which is only logged. *)
Definition reconcileStandbyLag (cr : PerconaPGCluster) : program (PerconaPGCluster * option error) :=
  match ShouldCheckStandbyLag cr with
  | None => Ret (cr, None)
  | Some (spec, maxAcceptableLag) =>
      let cr := onObserved (fun s => s <| os_Standby ::= fun o =>
                  Some (default (mkStandbyStatus None 0) o) |>) cr in
      if noMainSite cr spec then
        let! cr := setLagging cr ConditionUnknown "MainSiteNotFound"
                     "Cannot find main site for replication lag calculation" in
        Ret (cr, None)
      else
        let isCondPresent :=
          bool_decide (is_Some (FindStatusCondition (c_Conditions cr) ConditionStandbyLagging)) in
        if negb (bool_decide (c_State cr = AppStateReady)) && negb isCondPresent then Ret (cr, None)
        else
          let! skip := shouldSkipLagCheck cr in
          if skip : bool then Ret (cr, None)
          else
            let! r := getStandbyLag cr spec in
            match r with
            | inr e => lagUnknown cr e
            | inl lagBytes => lagKnown cr lagBytes (lagThreshold maxAcceptableLag)
            end
  end.

(** *** The cluster that a standby follows *)
Definition StorageEquals (r other : PGBackRestRepo) : bool :=
  match repo_Azure r, repo_Azure other with
  | Some a, Some b => bool_decide (a = b)
  | _, _ =>
  match repo_GCS r, repo_GCS other with
  | Some a, Some b => bool_decide (a = b)
  | _, _ =>
  match repo_S3 r, repo_S3 other with
  | Some a, Some b => bool_decide (s3_Bucket a = s3_Bucket b) && bool_decide (s3_Endpoint a = s3_Endpoint b)
                      && bool_decide (s3_Region a = s3_Region b)
  | _, _ =>
  match repo_Volume r, repo_Volume other with
  | Some a, Some b => bool_decide (a = b)
  | _, _ => false
  end end end end.

Definition isMainSite (cr : PerconaPGCluster) (targetRepo : PGBackRestRepo) (cluster : PerconaPGCluster) : bool :=
  negb (bool_decide (c_Name cluster = c_Name cr))
  && negb (match c_Standby cluster with Some s => sb_Enabled s | None => false end)
  && existsb (StorageEquals targetRepo) (bk_Repos (c_Backups cluster)).

(** [WatchNamespace] names exactly one namespace. *)
Context (watchOne : bool).

Definition getStandbyMainSite (cr : PerconaPGCluster) (spec : StandbySpec) : action (option PerconaPGCluster) :=
  match List.find (fun repo => bool_decide (repo_Name repo = sb_RepoName spec)) (bk_Repos (c_Backups cr)) with
  | None => Ret (Err (New "standby repo name not found in list of repos"))
  | Some targetRepo =>
      do! clusters := call (ListAll KPGCluster (if watchOne then c_Namespace cr else "") Everything)
        or "list clusters" in
      Ret (Ok (List.find (isMainSite cr targetRepo) clusters))
  end.

Definition reconcileStandbyMainSiteAnnotation (cr : PerconaPGCluster) : action unit :=
  match ShouldCheckStandbyLag cr with
  | None => Ret (Ok tt)
  | Some (spec, _) =>
      if negb (nonempty (sb_RepoName spec)) then Ret (Ok tt)
      else if bool_decide (is_Some (om_Annotations (c_Meta cr) !! AnnotationReplicationMainSite))
      then Ret (Ok tt)
      else
        do! mainSite := getStandbyMainSite cr spec or "get standby main site" in
        let mainSiteVal := match mainSite with
                           | Some c => c_Namespace c +:+ "/" +:+ c_Name c
                           | None => ""
                           end in
        do! crCopy := call (Get KPGCluster (objectKey (c_Meta cr)))
          or "get cluster for main site annotation update" in
        do! _ := call (Update KPGCluster (crCopy <| c_Meta ::= fun m =>
                   m <| om_Annotations ::= <[AnnotationReplicationMainSite := mainSiteVal]> |> |>))
          or "update standby main site annotation" in
        Ret (Ok tt)
  end.

(** One tick of [pollAndRequeueStandbys]: the clusters that are queued. *)
Fixpoint dueStandbys (clusters : list PerconaPGCluster) : program (list key) :=
  match clusters with
  | [] => Ret []
  | cluster :: clusters =>
      match ShouldCheckStandbyLag cluster, os_Standby (c_Observed cluster) with
      | Some _, Some _ =>
          let! skip := shouldSkipLagCheck cluster in
          let! due := dueStandbys clusters in
          Ret (if skip : bool then due else objectKey (c_Meta cluster) :: due)
      | _, _ => dueStandbys clusters
      end
  end.

Definition pollStandbys (namespace : string) : program (list key) :=
  let! r := call (ListAll KPGCluster namespace Everything) in
  match r with
  | Err _ => Ret []
  | Ok clusters => dueStandbys clusters
  end.

(** ** The whole status *)
Definition observeCluster (cr : PerconaPGCluster) (host : string) (status : CrunchyCluster)
    (cluster : PerconaPGCluster) : PerconaPGCluster :=
  let cluster := onObserved (observedSizes host (c_CustomExtensions cr) status) cluster in
  cluster <| c_State := getState cr (c_Observed cluster) status |>.

Definition publish (cr : PerconaPGCluster) (host : string) (status : CrunchyCluster) : action unit :=
  do! cluster := call (Get KPGCluster (objectKey (c_Meta cr))) or "get PerconaPGCluster" in
  let! lag := reconcileStandbyLag (observeCluster cr host status cluster) in
  let cluster := fst lag in
  let cluster := onObserved (fun s => s <| os_ObservedGeneration := om_Generation (c_Meta cluster) |>) cluster in
  let! cluster := updateConditions (copyPMMCondition cr cluster) status in
  ignore (call (StatusUpdate KPGCluster cluster)).

Definition updateStatus (cr : PerconaPGCluster) (status : CrunchyCluster) : action unit :=
  do! host := getHost cr or "get app host" in
  do! _ := RetryOnConflict (publish cr host status) or "update PerconaPGCluster status" in
  Ret (Ok tt).
End Standby.

(** ** Conditions: what is mirrored *)
Section ConditionRules.
Context `{MetaConditions}.

(** The last condition of a type. *)
Definition lastOf (l : list Condition) (t : string) : option Condition :=
  last (filter (fun c => cond_Type c = t) l).

Lemma lastOf_snoc l c t : lastOf (l ++ [c]) t = if decide (cond_Type c = t) then Some c else lastOf l t.
Proof.
  unfold lastOf. rewrite filter_app, filter_cons, filter_nil. case_decide.
  - by rewrite last_snoc.
  - by rewrite app_nil_r.
Qed.

Lemma lastOf_spec l t :
  match lastOf l t with
  | Some c => c ∈ l /\ cond_Type c = t
  | None => forall c, c ∈ l -> cond_Type c <> t
  end.
Proof.
  induction l as [|c l IH] using rev_ind; [by intros c ?%elem_of_nil|]. rewrite lastOf_snoc.
  case_decide as E; [by split; [apply elem_of_app; right; left|]|].
  destruct (lastOf l t) as [d|].
  - destruct IH. split; [apply elem_of_app; by left|done].
  - intros d [Hd|Hd]%elem_of_app; [by apply IH|]. by apply list_elem_of_singleton in Hd as ->.
Qed.

(** The mirrored form of a condition. *)
Definition mirrorOf (gen : Z) (c : Condition) (r : option Condition) : Prop :=
  exists time, r = Some (mkCondition (cond_Type c) (cond_Status c) (cond_Reason c) (cond_Message c) gen time).

Lemma mirror_all gen crunchy l t :
  let l' := fold_left (mirrorCondition gen) crunchy l in
  match lastOf crunchy t with
  | Some c => mirrorOf gen c (FindStatusCondition l' t)
  | None => FindStatusCondition l' t = FindStatusCondition l t
  end.
Proof.
  induction crunchy as [|c crunchy IH] using rev_ind; [done|].
  rewrite fold_left_app, lastOf_snoc. simpl. case_decide as E.
  - subst t. apply (SetStatusCondition_same _ _ (mkCondition (cond_Type c) (cond_Status c)
      (cond_Reason c) (cond_Message c) gen (cond_LastTransitionTime c))).
  - assert (Ho : forall k, FindStatusCondition (mirrorCondition gen k c) t = FindStatusCondition k t).
    { intros k. apply SetStatusCondition_other. by intros ->. }
    destruct (lastOf crunchy t) as [d|]; simpl in *.
    + destruct IH as [time IH]. exists time. by rewrite Ho.
    + by rewrite Ho.
Qed.

Lemma remove_all stale : forall l t,
  FindStatusCondition (fold_left RemoveStatusCondition stale l) t =
    if decide (t ∈ stale) then None else FindStatusCondition l t.
Proof.
  induction stale as [|s stale IH]; intros l t; simpl; [done|]. rewrite IH.
  destruct (decide (t = s)) as [->|Hne].
  - rewrite RemoveStatusCondition_same. rewrite (decide_True (P := s ∈ s :: stale)) by left. by case_decide.
  - rewrite RemoveStatusCondition_other by done.
    destruct (decide (t ∈ stale)) as [Hs|Hs]; [by rewrite decide_True by by right|].
    rewrite decide_False; [done|]. by intros [->|?]%elem_of_cons.
Qed.

Lemma staleCondition_spec crunchy c :
  staleCondition crunchy c = true <->
  lastOf crunchy (cond_Type c) = None /\ cond_Type c ∉ perconaOwnedConditions.
Proof.
  unfold staleCondition. rewrite andb_true_iff, !negb_true_iff, bool_decide_eq_false.
  pose proof (lastOf_spec crunchy (cond_Type c)) as Hl. destruct (lastOf crunchy (cond_Type c)) as [d|].
  - split; [|by intros [? _]]. intros [Hf _]. destruct Hl as [Hd Ht].
    assert (Hx : existsb (fun d => bool_decide (cond_Type d = cond_Type c)) crunchy = true).
    { apply existsb_exists. exists d. split; [by apply list_elem_of_In|by apply bool_decide_eq_true_2]. }
    by rewrite Hf in Hx.
  - split; [by intros [_ ?]|]. intros [_ ?]. split; [|done]. apply not_true_iff_false.
    intros (d & Hd%list_elem_of_In & Ht)%existsb_exists. bool_to_prop. by apply (Hl d).
Qed.

(** The stale types are those that are present, not the PostgresCluster's and
    not Percona's own. *)
Lemma stale_types crunchy l t :
  t ∈ map cond_Type (List.filter (staleCondition crunchy) l) <->
  is_Some (FindStatusCondition l t) /\ lastOf crunchy t = None /\ t ∉ perconaOwnedConditions.
Proof.
  rewrite list_elem_of_fmap. split.
  - intros (c & -> & Hc). apply list_elem_of_In, List.filter_In in Hc as [Hc%list_elem_of_In Hs].
    apply staleCondition_spec in Hs as [Hl Ho]. split_and!; [|done..].
    destruct (FindStatusCondition l (cond_Type c)) eqn:E; [by eexists|]. by destruct (FindStatusCondition_None _ _ E c Hc).
  - intros ((c & Hf) & Hl & Ho). apply FindStatusCondition_Some in Hf as [Hc <-].
    exists c. split; [done|]. apply list_elem_of_In, List.filter_In.
    split; [by apply list_elem_of_In|]. by apply staleCondition_spec.
Qed.


(** What one sees of a type afterwards: the PostgresCluster's last condition of
    it; else Percona's own; else nothing. *)
Lemma syncConditions_spec gen crunchy l t :
  let r := FindStatusCondition (syncConditions gen crunchy l) t in
  match lastOf crunchy t with
  | Some c => mirrorOf gen c r
  | None => r = if decide (t ∈ perconaOwnedConditions) then FindStatusCondition l t else None
  end.
Proof.
  unfold syncConditions. cbv zeta. rewrite remove_all.
  pose proof (mirror_all gen crunchy l t) as Hm. cbv zeta in Hm.
  set (l2 := fold_left (mirrorCondition gen) crunchy l) in *.
  destruct (lastOf crunchy t) as [c|] eqn:El.
  - rewrite decide_False; [done|]. rewrite stale_types. intros (_ & Hn & _). by rewrite El in Hn.
  - rewrite Hm. destruct (decide (t ∈ perconaOwnedConditions)) as [Ho|Ho].
    + rewrite decide_False; [done|]. rewrite stale_types. by intros (_ & _ & ?).
    + destruct (FindStatusCondition l t) as [c|] eqn:Ef.
      * rewrite decide_True; [done|]. rewrite stale_types, Hm. split_and!; [by eexists|done|done].
      * by case_decide.
Qed.

(** A condition of the PostgresCluster holds above when it holds below. *)
Lemma conditionHolds_sync gen crunchy l t : t ∉ perconaOwnedConditions ->
  conditionHolds (syncConditions gen crunchy l) t = true <->
  exists c, lastOf crunchy t = Some c /\ cond_Status c = ConditionTrue.
Proof.
  intros Ho. unfold conditionHolds. pose proof (syncConditions_spec gen crunchy l t) as Hs. cbv zeta in Hs.
  destruct (lastOf crunchy t) as [c|].
  - destruct Hs as [time ->]. simpl. rewrite bool_decide_eq_true. split; [by exists c|]. by intros (d & [= <-] & ?).
  - rewrite Hs, decide_False by done. split; [done|]. by intros (d & ? & _).
Qed.
End ConditionRules.

(** ** Standby lag: the calls *)
Section LagRules.
Context `{ControllerRuntime, GoVersion, MetaConditions}.
Context (errorText : lagError -> string).

(** The text [s] was printed by a query that ran in a database container. *)
Definition printed (h : history) (s : string) : Prop :=
  exists pod sql command (out : ExecOutput),
    (Ev (Exec pod ContainerDatabase (Some sql) command : op) out : event resp) ∈ h /\
    out_Err out = None /\ TrimSpace (out_Stdout out) = s.

(** A lag that was computed. *)
Definition measured (h : history) (lag : Z) : Prop := exists s, printed h s /\ ParseInt s = Some lag.

(** The file was written or removed. *)
Definition signalled (h : history) (ready : bool) : Prop :=
  exists pod (out : ExecOutput),
    (Ev (Exec pod ContainerDatabase None (signalCommand ready) : op) out : event resp) ∈ h /\
    out_Err out = None.

#[export] Instance grows_measured lag : Grows (fun h => measured h lag).
Proof. unfold measured, printed. apply _. Qed.

Context (cr : PerconaPGCluster) (threshold : Z).

(** Commands of the check are psql, with its script, and the change of the
    file: it is written only when a lag beyond the threshold was measured and
    the condition was not True, removed only when the condition was not False. *)
Definition lag_call (h : history) (o : op) : Prop :=
  match o with
  | Get KPGCluster _ | ListAll KPod _ _ | Now | RangeOrder _ => True
  | Exec _ container (Some _) command => container = ContainerDatabase /\ head command = Some "psql"
  | Exec _ container None command => container = ContainerDatabase /\
      ((command = signalCommand false /\ isLagging cr = false /\
          exists lag, measured h lag /\ (threshold < lag)%Z) \/
       (command = signalCommand true /\
          IsStatusConditionPresentAndEqual (c_Conditions cr) ConditionStandbyLagging ConditionFalse = false))
  | _ => False
  end.

Lemma GetPrimaryPod_lag c h (Q : history -> result Pod -> Prop) :
  (forall h' r, h `prefix_of` h' -> Q h' r) -> wps lag_call h (GetPrimaryPod c) Q.
Proof.
  intros HQ. unfold GetPrimaryPod. destruct (NewVersion _) as [v|]; [|by apply HQ].
  unfold rolePods. apply wps_list_bindr. split; [done|]. intros [pods|e]; [|by apply HQ, prefix_app_r].
  destruct pods as [|p [|]]; by apply HQ, prefix_app_r.
Qed.

Lemma queryPrimary_lag c sql h :
  wps lag_call h (queryPrimary c sql) (fun h' r => h `prefix_of` h' /\
    match r with Ok s => printed h' s | Err _ => True end).
Proof.
  unfold queryPrimary. rewrite wps_bind. apply GetPrimaryPod_lag. intros h1 [primary|e] Hp; [|done].
  unfold ExecPsql. rewrite wps_bind, wps_call_bind. split; [done|]. intros order.
  simpl. split; [done|]. intros out.
  split; [do 2 apply prefix_app_r; done|].
  destruct (out_Err out) eqn:E; [done|]. do 4 eexists. split_and!; [apply elem_of_snoc|done|done].
Qed.

Lemma measured_intro h s lag : printed h s -> parseLag s = Ok lag -> measured h lag.
Proof. unfold parseLag. intros Hp. destruct (ParseInt s) as [z|] eqn:E; [|done]. intros [= <-]. by exists s. Qed.

Lemma getLagFromStreamingHost_lag c h :
  wps lag_call h (getLagFromStreamingHost c) (fun h' r => h `prefix_of` h' /\
    match r with Ok lag => measured h' lag | Err _ => True end).
Proof.
  unfold getLagFromStreamingHost. rewrite wps_bindr. eapply wps_conseq; [apply queryPrimary_lag|].
  intros h1 [s|e] [Hp Hs]; [|done]. simpl. split; [done|]. destruct (nonempty s); [|done].
  destruct (parseLag s) eqn:E; [|done]. by eapply measured_intro.
Qed.

Lemma getLagFromMainSite_lag c h :
  wps lag_call h (getLagFromMainSite c) (fun h' r => h `prefix_of` h' /\
    match r with Ok lag => measured h' lag | Err _ => True end).
Proof.
  unfold getLagFromMainSite. destruct (negb _); [done|].
  destruct (Split _ _) as [|ns [|name [|]]]; try done.
  apply wps_get_bindr. split; [done|]. intros [site|e]; [|by split; [apply prefix_app_r|]].
  unfold getCurrentWALLSN. rewrite wps_bindr, wps_bindr. eapply wps_conseq; [apply queryPrimary_lag|].
  intros h1 [s|e] [Hp _]; (assert (Hp1 : h `prefix_of` h1) by (etransitivity; [|exact Hp]; by apply prefix_app_r));
    [|done]. simpl. destruct (nonempty s); [|done].
  unfold getWALLagBytes. rewrite wps_bindr, wps_bindr. eapply wps_conseq; [apply queryPrimary_lag|].
  intros h2 [s2|e] [Hp2 Hs2]; (assert (Hp3 : h `prefix_of` h2) by by transitivity h1); [|done].
  simpl. destruct (parseLag s2) eqn:E; [|done]. split; [done|]. by eapply measured_intro.
Qed.

Lemma getStandbyLag_lag c spec h :
  wps lag_call h (getStandbyLag c spec) (fun h' r => h `prefix_of` h' /\
    match r with inl lag => measured h' lag | inr _ => True end).
Proof.
  unfold getStandbyLag.
  assert (Hmain : forall errs h0, h `prefix_of` h0 ->
    wps lag_call h0 (let! r := getLagFromMainSite c in
      Ret (match r with Ok lag => inl lag | Err e => inr (Multi (errs ++ [Wrap "get lag from main site" e])) end))
      (fun h' r => h `prefix_of` h' /\ match r with inl lag => measured h' lag | inr _ => True end)).
  { intros errs h0 Hp0. rewrite wps_bind. eapply wps_conseq; [apply getLagFromMainSite_lag|].
    intros h1 r [Hp1 Hr]. split; [by transitivity h0|]. by destruct r. }
  destruct (nonempty (sb_Host spec)); [|by apply Hmain].
  rewrite wps_bind. eapply wps_conseq; [apply getLagFromStreamingHost_lag|]. intros h1 [lag|e] [Hp Hl]; [done|].
  destruct (negb _); [done|]. by apply Hmain.
Qed.

(** The check changes one condition and [status.standby]. *)
Definition onlyLag (c c' : PerconaPGCluster) : Prop :=
  exists conds standby, c' = onConditions (fun _ => conds) (onObserved (fun s => s <| os_Standby := standby |>) c) /\
    forall t, t <> ConditionStandbyLagging -> FindStatusCondition conds t = FindStatusCondition (c_Conditions c) t.

Lemma onlyLag_refl c : onlyLag c c.
Proof. exists (c_Conditions c), (os_Standby (c_Observed c)). split; [|done]. by destruct c as [? ? ? ? ? ? ? ? ? ? ? ? ? ? ? ? ? []]. Qed.

Lemma onlyLag_trans a b c : onlyLag a b -> onlyLag b c -> onlyLag a c.
Proof.
  intros (k1 & s1 & -> & Hk1) (k2 & s2 & -> & Hk2). exists k2, s2. split; [done|].
  intros t Ht. rewrite Hk2 by done. by apply Hk1.
Qed.

Lemma onlyLag_standby c f : onlyLag c (onObserved (fun s => s <| os_Standby ::= f |>) c).
Proof. exists (c_Conditions c), (f (os_Standby (c_Observed c))). split; [|done]. by destruct c. Qed.

Lemma setLagging_lag c status reason message h (Q : history -> PerconaPGCluster -> Prop) :
  (forall (now : Z) c',
     onlyLag c c' -> isLagging c' = bool_decide (status = ConditionTrue) -> Q (h ++ [Ev (Now : op) (now : resp Now)]) c') ->
  wps lag_call h (setLagging c status reason message) Q.
Proof.
  intros HQ. unfold setLagging. apply wps_call_bind. split; [done|]. intros now. simpl. apply HQ.
  - eexists _, (os_Standby (c_Observed c)). split; [by destruct c as [? ? ? ? ? ? ? ? ? ? ? ? ? ? ? ? ? []]|].
    intros t Ht. by apply SetStatusCondition_other.
  - unfold isLagging, IsStatusConditionTrue. rewrite IsStatusConditionPresentAndEqual_spec. simpl.
    destruct (SetStatusCondition_same now (c_Conditions c)
      (mkCondition ConditionStandbyLagging status reason message 0 0)) as [time Ht]. simpl in Ht.
    by rewrite Ht.
Qed.

Lemma setSignal_lag c ready h :
  (forall h', h `prefix_of` h' -> forall pod,
     lag_call h' (Exec pod ContainerDatabase None (signalCommand ready))) ->
  wps lag_call h (setPodReplicationLagSignal c ready) (fun h' r => h `prefix_of` h' /\
    match r with Ok _ => signalled h' ready | Err _ => True end).
Proof.
  intros HG. unfold setPodReplicationLagSignal. rewrite wps_bindr. apply GetPrimaryPod_lag.
  intros h1 [primary|e] Hp; [|done]. rewrite wps_bind. simpl. split; [exact (HG h1 Hp (objectKey (p_Meta primary)))|]. intros out.
  split; [by apply prefix_app_r|]. destruct (out_Err out) eqn:E; [done|].
  do 2 eexists. split; [apply elem_of_snoc|done].
Qed.

(** The outcome of a check that got as far as the measurement. *)
Definition lag_outcome (h : history) (r : PerconaPGCluster * option error) : Prop :=
  onlyLag cr r.1 /\
  (isLagging r.1 = true -> isLagging cr = true \/
     (signalled h false /\ exists lag, measured h lag /\ (threshold < lag)%Z)) /\
  (isLagging cr = true -> isLagging r.1 = true \/ signalled h true).

Lemma lag_outcome_unchanged c h e : onlyLag cr c -> isLagging c = isLagging cr -> lag_outcome h (c, e).
Proof. intros Ho Hl. split_and!; simpl; rewrite ?Hl; auto. Qed.

Context (c : PerconaPGCluster) (Hc : onlyLag cr c) (Hcond : c_Conditions c = c_Conditions cr).

Lemma same_lagging : isLagging c = isLagging cr.
Proof. unfold isLagging. by rewrite Hcond. Qed.

Lemma lagUnknown_lag e h : wps lag_call h (lagUnknown errorText c e) (fun h' r => lag_outcome h' r).
Proof.
  unfold lagUnknown. rewrite wps_bind. pose proof same_lagging as Hs. rewrite Hs.
  assert (Hset : forall h1, (isLagging cr = true -> signalled h1 true) ->
    wps lag_call h1 (let! c := setLagging c ConditionUnknown "ErrorGettingLag" (lagErrorMessage errorText e) in
      Ret (c, None)) (fun h' r => lag_outcome h' r)).
  { intros h1 H1'. rewrite wps_bind. apply setLagging_lag. intros now c' Ho Hl.
    rewrite bool_decide_eq_false_2 in Hl by done.
    split_and!; simpl; [by eapply onlyLag_trans|by rewrite Hl|]. intros Ht. right.
    destruct (H1' Ht) as (pod & out & Hin & Hok). exists pod, out. split; [|done]. apply elem_of_app. by left. }
  destruct (isLagging cr) eqn:El.
  - eapply wps_conseq; [apply setSignal_lag|].
    + intros h' _ pod. split; [done|]. right. split; [done|].
      unfold isLagging, IsStatusConditionTrue in El. rewrite !IsStatusConditionPresentAndEqual_spec in El |- *.
      destruct (FindStatusCondition _ _) as [k|]; [|done]. bool_to_prop. by rewrite El.
    + intros h1 [[]|e'] [Hp Hr]; [by apply Hset|]. apply lag_outcome_unchanged; [done|by rewrite Hs].
  - apply Hset. done.
Qed.

Lemma lagKnown_lag lag h : measured h lag ->
  wps lag_call h (lagKnown c lag threshold) (fun h' r => lag_outcome h' r).
Proof.
  intros Hm. unfold lagKnown. rewrite wps_bind, Hcond. pose proof same_lagging as Hs.
  set (detected := bool_decide (threshold < lag)%Z). set (status := if detected then _ else _).
  assert (Hset : forall h1, h `prefix_of` h1 ->
    (IsStatusConditionPresentAndEqual (c_Conditions cr) ConditionStandbyLagging status = true \/
     signalled h1 (negb detected)) ->
    wps lag_call h1 (let! c := (if detected then setLagging c ConditionTrue "LagDetected" (lagMessage lag threshold)
                               else setLagging c ConditionFalse "LagNotDetected" "") in
      let! now := call Now in
      Ret (onObserved (fun s => s <| os_Standby := Some (mkStandbyStatus (Some now) lag) |>) c, None))
      (fun h' r => lag_outcome h' r)).
  { intros h1 Hp1 Hsig. rewrite wps_bind.
    assert (Hfin : forall (now : Z) c', onlyLag c c' -> isLagging c' = detected ->
      wps lag_call (h1 ++ [Ev (Now : op) (now : resp Now)]) (let! now := call Now in
        Ret (onObserved (fun s => s <| os_Standby := Some (mkStandbyStatus (Some now) lag) |>) c', None))
      (fun h' r => lag_outcome h' r)).
    { intros now c' Ho Hl. rewrite wps_call_bind. split; [done|]. intros now2. simpl.
      set (h2 := (h1 ++ _) ++ _). assert (Hp2 : h1 `prefix_of` h2) by (by do 2 apply prefix_app_r).
      assert (Hgrow : forall b, signalled h1 b -> signalled h2 b).
      { intros b (pod & out & Hin & Hok). exists pod, out. split; [by eapply elem_of_grow|done]. }
      assert (Hle : isLagging (onObserved (fun s => s <| os_Standby := Some (mkStandbyStatus (Some now2) lag) |>) c')
                    = detected) by exact Hl.
      split_and!.
      - eapply onlyLag_trans; [exact Hc|]. eapply onlyLag_trans; [exact Ho|]. apply (onlyLag_standby c' (fun _ => _)).
      - intros Hd0. assert (Hd : detected = true) by (rewrite <- Hle; exact Hd0). destruct Hsig as [Hsig|Hsig].
        + left. unfold isLagging, IsStatusConditionTrue. unfold status in Hsig. by rewrite Hd in Hsig.
        + right. rewrite Hd in Hsig. split; [by apply Hgrow|]. exists lag. split; [by eapply grows_measured; [|etransitivity]|].
          unfold detected in Hd. by bool_to_prop.
      - intros Ht. destruct detected eqn:Hd; [left; exact Hle|right]. destruct Hsig as [Hsig|Hsig]; [|by apply Hgrow].
        exfalso. unfold isLagging, IsStatusConditionTrue in Ht. unfold status in Hsig.
        rewrite !IsStatusConditionPresentAndEqual_spec in Ht, Hsig. destruct (FindStatusCondition _ _); [|done].
        bool_to_prop. by rewrite Ht in Hsig. }
    destruct detected; apply setLagging_lag; intros now c' Ho Hl; apply Hfin; (done || by rewrite Hl). }
  destruct (IsStatusConditionPresentAndEqual _ _ status) eqn:Epe; [by apply Hset; [|left]|].
  eapply wps_conseq; [apply setSignal_lag|].
  - intros h' Hp pod. split; [done|]. unfold status in Epe. destruct detected eqn:Hd; [left|right]; (split; [done|]).
    + split; [exact Epe|]. exists lag. split; [by eapply grows_measured|]. unfold detected in Hd. by bool_to_prop.
    + exact Epe.
  - intros h1 [[]|e'] [Hp Hr]; [by apply Hset; [|right]|]. by apply lag_outcome_unchanged.
Qed.
End LagRules.

Section LagTheorems.
Context `{ControllerRuntime, GoVersion, MetaConditions}.
Context (errorText : lagError -> string).

Lemma shouldSkip_lag cr threshold c h (Q : history -> bool -> Prop) :
  (forall h' b, h `prefix_of` h' -> Q h' b) -> wps (lag_call cr threshold) h (shouldSkipLagCheck c) Q.
Proof.
  intros HQ. unfold shouldSkipLagCheck. destruct (_ ≫= _) as [t|]; [|by apply HQ].
  apply wps_call_bind. split; [done|]. intros now. by apply HQ, prefix_app_r.
Qed.

(** What a check does to the condition. *)
Definition lag_result (cr : PerconaPGCluster) (spec : StandbySpec) (threshold : Z)
    (h : history) (r : PerconaPGCluster * option error) : Prop :=
  onlyLag cr r.1 /\
  (isLagging r.1 = true -> isLagging cr = true \/
     (signalled h false /\ exists lag, measured h lag /\ (threshold < lag)%Z)) /\
  (isLagging cr = true -> isLagging r.1 = true \/ signalled h true \/ noMainSite cr spec = true).

Lemma reconcileStandbyLag_wps cr spec q h :
  ShouldCheckStandbyLag cr = Some (spec, q) ->
  wps (lag_call cr (lagThreshold q)) h (reconcileStandbyLag errorText cr)
    (lag_result cr spec (lagThreshold q)).
Proof.
  intros Hs. unfold reconcileStandbyLag. rewrite Hs.
  set (c := onObserved _ cr).
  assert (Hc : onlyLag cr c) by apply onlyLag_standby.
  assert (Hsame : forall h e, lag_result cr spec (lagThreshold q) h (c, e)).
  { intros h1 e. split_and!; [done|by left|by left]. }
  destruct (noMainSite c spec) eqn:En.
  { rewrite wps_bind. apply setLagging_lag. intros now c' Ho Hl. rewrite bool_decide_eq_false_2 in Hl by done.
    split_and!; simpl; [exact (onlyLag_trans _ _ _ Hc Ho)|by rewrite Hl|]. intros _. right. by right. }
  destruct (negb (bool_decide (c_State c = AppStateReady)) && _); [by apply Hsame|].
  rewrite wps_bind. apply shouldSkip_lag. intros h1 [] Hp; [by apply Hsame|].
  rewrite wps_bind. eapply wps_conseq; [apply getStandbyLag_lag|]. intros h2 [lag|e] [Hp2 Hm].
  - eapply wps_conseq; [by apply lagKnown_lag|]. intros h3 r (H1' & H2' & H3').
    split_and!; [done|done|]. intros Hl. destruct (H3' Hl); [by left|right; by left].
  - eapply wps_conseq; [by apply lagUnknown_lag|]. intros h3 r (H1' & H2' & H3').
    split_and!; [done|done|]. intros Hl. destruct (H3' Hl); [by left|right; by left].
Qed.

(** The condition on lag and the file that makes the readiness probe fail
    are changed together, in this order.  A check sends only psql queries and
    the change of the file, in database containers; it creates the file only
    when a lag beyond the threshold was measured and the cluster was not known
    to lag, and removes it only when it was not known to be in time.  The
    condition becomes True only after the file was written; it stops being True
    only after the file was removed - or, without a change of the file, when
    the main site is not known.  And when a cluster stops being a standby whose
    lag is checked, nothing happens at all: the condition and the file stay. *)
Theorem lag_signal_follows_condition cr :
  match ShouldCheckStandbyLag cr with
  | Some (spec, q) =>
      wps (lag_call cr (lagThreshold q)) [] (reconcileStandbyLag errorText cr)
        (lag_result cr spec (lagThreshold q))
  | None => reconcileStandbyLag errorText cr = Ret (cr, None)
  end.
Proof.
  destruct (ShouldCheckStandbyLag cr) as [[spec q]|] eqn:E; [by apply reconcileStandbyLag_wps|].
  unfold reconcileStandbyLag. by rewrite E.
Qed.

Lemma int64_id z : (- 2 ^ 63 <= z < 2 ^ 63)%Z -> int64 z = z.
Proof. intros Hz. unfold int64. rewrite Z.mod_small; lia. Qed.

Lemma pow10_gt s : (0 < s)%Z -> (1 < 10 ^ s)%Z.
Proof. intros Hs. apply Z.pow_gt_1; lia. Qed.

Lemma pow10_pos s : (0 <= s)%Z -> (0 < 10 ^ s)%Z.
Proof. intros Hs. apply Z.pow_pos_nonneg; lia. Qed.

(** The acceptable lag is read without its scale.  For a quantity of
    [u * 10 ^ s] bytes, which is how a number with a decimal suffix such as 10M
    is kept, the threshold is [u]: right only when there is no scale.  A
    standby that lags by more than [u] bytes is marked as lagging, and its pod
    as not ready, although the lag is acceptable. *)
Theorem lag_limit_ignores_scale q :
  (0 < q_Unscaled q)%Z -> (0 <= q_Scale q)%Z -> (q_Unscaled q * 10 ^ q_Scale q < 2 ^ 63)%Z ->
  (lagThreshold q = (q_Unscaled q * 10 ^ q_Scale q)%Z <-> q_Scale q = 0%Z) /\
  forall cr lag h, (q_Unscaled q < lag <= q_Unscaled q * 10 ^ q_Scale q)%Z ->
    wp h (lagKnown cr lag (lagThreshold q)) (fun _ r => r.2 = None -> isLagging r.1 = true).
Proof.
  destruct q as [u s]. simpl. intros Hu Hs Hb. pose proof (pow10_pos s Hs) as Hpos.
  assert (Hid : lagThreshold (mkQuantity u s) = u) by (apply int64_id; simpl; nia). rewrite Hid.
  split.
  - split; [|intros ->; simpl; lia]. intros Heq. destruct (decide (s = 0%Z)) as [|Hne]; [done|].
    pose proof (pow10_gt s ltac:(lia)). nia.
  - intros cr lag h Hlag. unfold lagKnown. rewrite bool_decide_eq_true_2 by lia.
    unfold wp. rewrite wps_bind. eapply (wps_conseq _ _ _ (fun _ _ => True)).
    { destruct (IsStatusConditionPresentAndEqual _ _ _); [done|]. unfold setPodReplicationLagSignal.
      rewrite wps_bindr. unfold GetPrimaryPod. destruct (NewVersion _); [|done].
      apply wps_list_bindr. split; [done|]. by intros [[|p [|]]|e]. }
    intros h1 [[]|e] _; [|done]. simpl. split; [done|]. intros now. simpl. split; [done|]. intros now2. simpl.
    intros _. unfold isLagging, IsStatusConditionTrue. rewrite IsStatusConditionPresentAndEqual_spec. simpl.
    destruct (SetStatusCondition_same now (c_Conditions cr)
      (mkCondition ConditionStandbyLagging ConditionTrue "LagDetected" (lagMessage lag u) 0 0)) as [time Ht].
    simpl in Ht. by rewrite Ht.
Qed.
End LagTheorems.

(** ** The published status *)
Section StatusTheorems.
Context `{ControllerRuntime, GoVersion, MetaConditions}.
Context (errorText : lagError -> string).

(** The PostgresCluster's condition of the type is True. *)
Definition holdsBelow (status : CrunchyCluster) (t : string) : Prop :=
  exists c, lastOf (pc_Conditions (cc_Config status)) t = Some c /\ cond_Status c = ConditionTrue.

(** What is written over the object [c0] that was read: nothing but its status,
    with the counts, the state and the conditions of the PostgresCluster. *)
Definition published (cr : PerconaPGCluster) (status : CrunchyCluster) (c0 c : PerconaPGCluster) : Prop :=
  let sets := cc_StatusSets status in
  c_Meta c = c_Meta c0 /\
  os_ObservedGeneration (c_Observed c) = om_Generation (c_Meta c0) /\
  os_Postgres (c_Observed c) = (int32_sum (map iss_Replicas sets), int32_sum (map iss_ReadyReplicas sets)) /\
  os_PGBouncer (c_Observed c) = cc_PGBouncer status /\
  c_State c = getState cr (c_Observed c) status /\
  (exists k, FindStatusCondition (c_Conditions c) ConditionClusterIsReadyForBackup = Some k /\
     (cond_Status k = ConditionTrue <->
      holdsBelow status ConditionRepoHostReady /\ holdsBelow status ConditionReplicaCreate)) /\
  (forall t, t ∉ perconaOwnedConditions ->
     match lastOf (pc_Conditions (cc_Config status)) t with
     | Some d => mirrorOf (om_Generation (c_Meta c0)) d (FindStatusCondition (c_Conditions c) t)
     | None => FindStatusCondition (c_Conditions c) t = None
     end).

Lemma readyForBackup_spec gen status l :
  fst (readyForBackup (syncConditions gen (pc_Conditions (cc_Config status)) l)) = ConditionTrue <->
  holdsBelow status ConditionRepoHostReady /\ holdsBelow status ConditionReplicaCreate.
Proof.
  unfold readyForBackup, holdsBelow.
  rewrite <- !(conditionHolds_sync gen _ l) by (apply (bool_decide_eq_true_1 _); by vm_compute).
  destruct (conditionHolds _ ConditionRepoHostReady), (conditionHolds _ ConditionReplicaCreate); simpl; naive_solver.
Qed.

(** The steps from the object that the lag check left to the one that is
    written. *)
Lemma updateConditions_wps (G : history -> op -> Prop) h c0 status (Q : history -> PerconaPGCluster -> Prop) :
  (forall h, G h Now) ->
  (forall h' c conds, h `prefix_of` h' ->
     c = onConditions (fun _ => conds) (syncPgbackrestFromPostgresToPercona status
           (syncPatroniFromPostgresToPercona status c0)) ->
     (exists k, FindStatusCondition conds ConditionClusterIsReadyForBackup = Some k /\
        (cond_Status k = ConditionTrue <->
         holdsBelow status ConditionRepoHostReady /\ holdsBelow status ConditionReplicaCreate)) ->
     (forall t, t <> ConditionClusterIsReadyForBackup ->
        FindStatusCondition conds t = FindStatusCondition (syncConditions (om_Generation (c_Meta c0))
          (pc_Conditions (cc_Config status)) (c_Conditions c0)) t) -> Q h' c) ->
  wps G h (updateConditions c0 status) Q.
Proof.
  intros HG HQ. unfold updateConditions.
  pose proof (readyForBackup_spec (om_Generation (c_Meta c0)) status (c_Conditions c0)) as Hr.
  set (conds := syncConditions _ _ _) in Hr.
  set (cr := syncPgbackrestFromPostgresToPercona _ _).
  assert (Hcr : cr = onConditions (fun _ => conds) (syncPgbackrestFromPostgresToPercona status
           (syncPatroniFromPostgresToPercona status c0))).
  { unfold cr, syncPgbackrestFromPostgresToPercona. by destruct (cc_PGBackRest status). }
  assert (Hcc : c_Conditions cr = conds) by by rewrite Hcr.
  rewrite Hcc. destruct (readyForBackup conds) as [s reason]. simpl in Hr.
  unfold setClusterNotReadyCondition. rewrite Hcc.
  destruct (match FindStatusCondition conds _ with Some _ => _ | None => _ end) eqn:E.
  - apply (HQ h cr conds); [done|done| |done].
    destruct (FindStatusCondition conds _) as [k|]; [|done]. exists k. split; [done|].
    apply andb_true_iff in E as [E _]. apply andb_true_iff in E as [E _]. bool_to_prop. by rewrite E.
  - apply wps_call_bind. split; [done|]. intros now. simpl.
    set (k := mkCondition _ s reason "" _ now).
    apply (HQ _ _ (SetStatusCondition now conds k)); [by apply prefix_app_r| | |].
    + by rewrite Hcr.
    + destruct (SetStatusCondition_same now conds k) as [time Ht]. eexists. split; [exact Ht|done].
    + intros t Ht. by apply SetStatusCondition_other.
Qed.

Definition status_call (cr : PerconaPGCluster) (status : CrunchyCluster) (h : history) (o : op) : Prop :=
  match o with
  | StatusUpdate KPGCluster c =>
      exists c0, read h KPGCluster (objectKey (c_Meta cr)) c0 /\ published cr status c0 c
  | Get _ _ | ListAll _ _ _ | Now | RangeOrder _ => True
  | Exec _ container _ _ => container = ContainerDatabase
  | _ => False
  end.

Lemma lag_in_status cr status h c :
  wps (status_call cr status) h (reconcileStandbyLag errorText c) (fun h' r =>
    h `prefix_of` h' /\ onlyLag c r.1).
Proof.
  apply wps_prefix.
  destruct (ShouldCheckStandbyLag c) as [[spec q]|] eqn:E.
  - eapply wps_mono; [| |by apply (reconcileStandbyLag_wps errorText c spec q)].
    + intros h' o. case_op o. by destruct stdin; simpl; intros [? _].
    + by intros h' r [Ho _].
  - unfold reconcileStandbyLag. rewrite E. apply onlyLag_refl.
Qed.

(** Everything but the status comes from the object that was read. *)
Lemma published_intro cr host status c0 c1 conds c2 :
  onlyLag (observeCluster cr host status c0) c1 ->
  c2 = copyPMMCondition cr (onObserved (fun s => s <| os_ObservedGeneration := om_Generation (c_Meta c1) |>) c1) ->
  (exists k, FindStatusCondition conds ConditionClusterIsReadyForBackup = Some k /\
     (cond_Status k = ConditionTrue <->
      holdsBelow status ConditionRepoHostReady /\ holdsBelow status ConditionReplicaCreate)) ->
  (forall t, t <> ConditionClusterIsReadyForBackup ->
     FindStatusCondition conds t = FindStatusCondition (syncConditions (om_Generation (c_Meta c2))
       (pc_Conditions (cc_Config status)) (c_Conditions c2)) t) ->
  published cr status c0 (onConditions (fun _ => conds) (syncPgbackrestFromPostgresToPercona status
    (syncPatroniFromPostgresToPercona status c2))).
Proof.
  intros (conds1 & standby & -> & _) -> Hready Hother.
  set (c := onConditions _ (syncPgbackrestFromPostgresToPercona _ _)).
  assert (Hc : c_Meta c = c_Meta c0 /\ c_Conditions c = conds /\
    c_State c = c_State (observeCluster cr host status c0) /\
    os_Postgres (c_Observed c) = os_Postgres (c_Observed (observeCluster cr host status c0)) /\
    os_PGBouncer (c_Observed c) = cc_PGBouncer status /\
    os_ObservedGeneration (c_Observed c) = om_Generation (c_Meta c0)).
  { unfold c, syncPgbackrestFromPostgresToPercona. by destruct (cc_PGBackRest status). }
  destruct Hc as (Hm & Hcc & Hst & Hpg & Hpb & Hog). split_and!; [done|done|by rewrite Hpg|done| |by rewrite Hcc|].
  - rewrite Hst. unfold getState. by rewrite Hpg, Hpb.
  - intros t Ht. rewrite Hcc, Hother.
    + pose proof (syncConditions_spec (om_Generation (c_Meta c0)) (pc_Conditions (cc_Config status))
        (c_Conditions (copyPMMCondition cr (onObserved (fun s => s <| os_ObservedGeneration := om_Generation (c_Meta c0) |>)
          (onConditions (fun _ => conds1) (onObserved (fun s => s <| os_Standby := standby |>)
            (observeCluster cr host status c0)))))) t) as Hs. cbv zeta in Hs.
      destruct (lastOf _ t); [exact Hs|]. by rewrite decide_False in Hs.
    + intros ->. by apply Ht, (bool_decide_eq_true_1 _); vm_compute.
Qed.

(** C20: what the operator publishes.  The status is the only thing written; it
    is written over an object that was read after the last conflict, and keeps
    the rest of it.  The counts are the sums of the PostgresCluster's instance
    sets and its PgBouncer, the state follows from them, a condition of the
    PostgresCluster is there as it is below and is gone when it is gone below,
    and the cluster is ready for backup exactly when the repository host is
    ready and the first backup for replicas exists. *)
Theorem status_is_published cr status :
  wps (status_call cr status) [] (updateStatus errorText cr status) (fun _ _ => True).
Proof.
  unfold updateStatus. rewrite wps_bindr. eapply (wps_conseq _ _ _ (fun _ _ => True)).
  { unfold getHost. destruct (c_PGBouncerEnabled cr) as [p|]; [|done]. destruct (negb _); [done|].
    apply wps_get_bindr. split; [done|]. by intros [svc|e]. }
  intros h [host|e] _; [|done]. rewrite wps_bindr. apply RetryOnConflict_prefix. intros h0 Hp.
  unfold publish. apply wps_get_bindr. split; [done|]. intros [c0|e]; [|done].
  set (h1 := h0 ++ _). assert (Hread : read h1 KPGCluster (objectKey (c_Meta cr)) c0) by apply elem_of_snoc.
  rewrite wps_bind. eapply wps_conseq; [apply lag_in_status|]. intros h2 [c1 err] [Hp2 Ho].
  rewrite wps_bind. apply updateConditions_wps; [done|]. intros h3 c conds Hp3 -> Hready Hother.
  rewrite wps_ignore. split.
  - exists c0. split; [eapply elem_of_grow; [exact Hread|by etransitivity]|].
    exact (published_intro cr host status c0 c1 conds _ Ho eq_refl Hready Hother).
  - by intros [c|e].
Qed.
End StatusTheorems.

(** ** The state *)
Section State.
(** Counts of a set as they are observed: of its pods, so many are ready and so
    many are updated. *)
Definition validCounts (s : PostgresInstanceSetStatus) : Prop :=
  (0 <= iss_ReadyReplicas s <= iss_Replicas s)%Z /\ (0 <= iss_UpdatedReplicas s <= iss_Replicas s)%Z.

Lemma int32_sum_id (l : list Z) :
  Forall (fun n => 0 <= n)%Z l -> (sumZ l < 2 ^ 31)%Z -> int32_sum l = sumZ l.
Proof.
  unfold int32_sum. intros Hf Hb.
  assert (Hgen : forall acc, (0 <= acc)%Z -> (acc + sumZ l < 2 ^ 31)%Z ->
    fold_left (fun acc n => int32 (acc + n)) l acc = (acc + sumZ l)%Z).
  { clear Hb. induction Hf as [|n l Hn Hf IH]; intros acc Ha Hs; simpl in *; [lia|].
    assert (0 <= sumZ l)%Z by (clear -Hf; induction Hf; simpl; lia).
    rewrite IH by (rewrite int32_id; lia). rewrite int32_id by lia. lia. }
  rewrite Hgen by lia. lia.
Qed.

Lemma sum_below (f g : PostgresInstanceSetStatus -> Z) l :
  Forall (fun s => 0 <= f s <= g s)%Z l ->
  (0 <= sumZ (map f l) <= sumZ (map g l))%Z /\
  (sumZ (map f l) = sumZ (map g l) <-> Forall (fun s => f s = g s) l).
Proof.
  induction 1 as [|s l Hs Hf [IHb IH]]; simpl; [split; [lia|done]|]. split; [lia|]. split.
  - intros Heq. constructor; [lia|]. apply IH. lia.
  - intros [Hfg Hrest]%Forall_cons. apply IH in Hrest. lia.
Qed.

(** A cluster is Ready when everything is.  When the counts are those of
    fewer than 2^31 pods, the published state is Ready exactly when the cluster
    is not paused, its repository host is not known to be unready, all pods of
    PgBouncer are ready, every instance set has all its pods ready and updated,
    and there is at least one.  A paused cluster is Stopping while pods are
    ready and Paused after. *)
Theorem ready_state_spec cr host extensions status observed :
  let sets := cc_StatusSets status in
  let state := getState cr (observedSizes host extensions status observed) status in
  Forall validCounts sets -> (sumZ (map iss_Replicas sets) < 2 ^ 31)%Z ->
  (state = AppStateReady <->
     c_Pause cr <> Some true /\ (cc_PGBackRest status ≫= ps_RepoHostReady) <> Some false /\
     snd (cc_PGBouncer status) = fst (cc_PGBouncer status) /\
     Forall (fun s => iss_ReadyReplicas s = iss_Replicas s /\ iss_UpdatedReplicas s = iss_Replicas s) sets /\
     exists s, s ∈ sets /\ (0 < iss_Replicas s)%Z) /\
  (c_Pause cr = Some true ->
     state = if bool_decide (0 < sumZ (map iss_ReadyReplicas sets))%Z then AppStateStopping else AppStatePaused).
Proof.
  intros sets state Hf Hb. subst state.
  assert (Hr : Forall (fun s => 0 <= iss_ReadyReplicas s <= iss_Replicas s)%Z sets)
    by (eapply Forall_impl; [exact Hf|]; by intros s [? _]).
  assert (Hu : Forall (fun s => 0 <= iss_UpdatedReplicas s <= iss_Replicas s)%Z sets)
    by (eapply Forall_impl; [exact Hf|]; by intros s [_ ?]).
  pose proof (sum_below iss_ReadyReplicas iss_Replicas sets Hr) as [Hrb Hre].
  pose proof (sum_below iss_UpdatedReplicas iss_Replicas sets Hu) as [Hub Hue].
  assert (Hn : forall f : PostgresInstanceSetStatus -> Z, Forall (fun s => 0 <= f s <= iss_Replicas s)%Z sets ->
    (sumZ (map f sets) <= sumZ (map iss_Replicas sets))%Z -> int32_sum (map f sets) = sumZ (map f sets)).
  { intros f Hff Hle. apply int32_sum_id; [|lia]. apply Forall_map. eapply Forall_impl; [exact Hff|]. simpl. lia. }
  assert (Hpos : Forall (fun s => 0 <= iss_Replicas s)%Z sets) by (eapply Forall_impl; [exact Hr|]; simpl; lia).
  assert (Hs : int32_sum (map iss_Replicas sets) = sumZ (map iss_Replicas sets))
    by (apply int32_sum_id; [by apply Forall_map|done]).
  unfold getState, observedSizes. simpl. fold sets. rewrite Hs, (Hn iss_ReadyReplicas Hr), (Hn iss_UpdatedReplicas Hu) by lia.
  assert (Hz : sumZ (map iss_Replicas sets) = 0%Z <-> ~ exists s, s ∈ sets /\ (0 < iss_Replicas s)%Z).
  { clear -Hpos. induction Hpos as [|s l Hs Hf [IH1 IH2]]; simpl.
    - split; [|done]. intros _ (s & Hin & _). by apply elem_of_nil in Hin.
    - assert (0 <= sumZ (map iss_Replicas l))%Z by (clear -Hf; induction Hf; simpl; lia). split.
      + intros Heq (t & [->|Ht]%elem_of_cons & Hpos); [lia|]. apply IH1; [lia|]. by exists t.
      + intros Hno. assert (iss_Replicas s = 0)%Z.
        { destruct (decide (0 < iss_Replicas s)%Z); [|lia]. exfalso. apply Hno. exists s. split; [left|done]. }
        rewrite IH2; [lia|]. intros (t & Ht & Hpos). apply Hno. exists t. split; [by right|done]. }
  split.
  - rewrite Forall_and, <- Hre, <- Hue.
    case_bool_decide as Hpause; [split; [by case_bool_decide|tauto]|].
    case_bool_decide as Hrepo; [split; [done|tauto]|].
    case_bool_decide as Hpgb; simpl; [|split; [done|tauto]].
    case_bool_decide as Hready; simpl; [|split; [done|tauto]].
    case_bool_decide as Hupd; simpl; [|split; [done|tauto]].
    case_bool_decide as Hzero; [split; [done|tauto]|]. split; [|done]. intros _.
    split_and!; [done..|]. destruct (decide (Exists (fun s => 0 < iss_Replicas s)%Z sets)) as [Hex|Hex].
    + by apply Exists_exists.
    + exfalso. apply Hzero, Hz. by rewrite <- Exists_exists.
  - intros Hp. by rewrite bool_decide_eq_true_2.
Qed.
End State.

(** ** Examples *)
#[local] Existing Instance ConcreteRuntime.runtime.
#[local] Existing Instance ListConditions.conditions.
#[local] Existing Instance DottedVersions.versions.

(** 10M, as [resource.ParseQuantity] keeps it *)
Lemma lag_limit_ignores_scale_witness :
  let q := mkQuantity 10 6 in
  lagThreshold q <> 10000000%Z /\
  wp [] (lagKnown examplePGCluster 4096 (lagThreshold q)) (fun _ r => r.2 = None -> isLagging r.1 = true).
Proof.
  intros q. destruct (lag_limit_ignores_scale q ltac:(simpl; lia) ltac:(simpl; lia) ltac:(simpl; lia)) as [Hs Hl].
  split; [by vm_compute|]. apply Hl. simpl. lia.
Defined.

Lemma ready_state_spec_witness :
  let sets ready := [mkSetStatus "set1" 2 ready 2 ∅; mkSetStatus "set2" 1 1 1 ∅] in
  let status ready := ExampleInstances.cluster [] <| cc_StatusSets := sets ready |> <| cc_PGBouncer := (3, 3)%Z |> in
  let state ready := getState examplePGCluster (observedSizes "" [] (status ready) (c_Observed examplePGCluster)) (status ready) in
  state 2%Z = AppStateReady /\ state 1%Z <> AppStateReady.
Proof.
  intros sets status state.
  assert (Hc : forall n, (0 <= n <= 2)%Z -> Forall validCounts (sets n))
    by (intros n Hn; repeat constructor; simpl; lia).
  destruct (ready_state_spec examplePGCluster "" [] (status 2%Z) (c_Observed examplePGCluster)) as [H2 _];
    [by apply Hc|by vm_compute|].
  destruct (ready_state_spec examplePGCluster "" [] (status 1%Z) (c_Observed examplePGCluster)) as [H1 _];
    [by apply Hc|by vm_compute|].
  split.
  - apply H2. split_and!; [done|done|done|by repeat constructor|]. exists (mkSetStatus "set1" 2 2 2 ∅).
    split; [left|done].
  - intros Hr. apply H1 in Hr as (_ & _ & _ & Hf & _). apply Forall_cons in Hf as [[Hf _] _]. done.
Defined.
