(* ===== verification/Upgrade.v ===== *)
(** * Upgrades of the major version: the upstream controller

    [internal/controller/pgupgrade]: the state of the world that an upgrade
    needs ([world.go]), its jobs ([jobs.go]) and its reconciliation
    ([pgupgrade_controller.go]). *)
From S2P Require Import Prelude GoStrings Cluster Prog Errors Naming Objects Client Psql BackupUtils.

Definition AnnotationAllowUpgrade : string := "postgres-operator.crunchydata.com/allow-upgrade".
Definition ConditionPGUpgradeProgressing : string := "Progressing".
Definition ConditionPGUpgradeSucceeded : string := "Succeeded".

Definition upgradeLabelPrefix : string := "postgres-operator.crunchydata.com/".
Definition LabelPGUpgrade : string := upgradeLabelPrefix +:+ "pgupgrade".
Definition LabelUpgradeVersion : string := upgradeLabelPrefix +:+ "version".
Definition LabelUpgradePatroni : string := upgradeLabelPrefix +:+ "patroni".
Definition UpgradeReplicaCreate : string := "replica-create".
Definition pgUpgrade : string := "pgupgrade".
Definition removeData : string := "removedata".

Definition up_Name (u : PGUpgrade) : string := om_Name (up_Meta u).
Definition up_Namespace (u : PGUpgrade) : string := om_Namespace (up_Meta u).
Definition fromVersion (u : PGUpgrade) : Z := us_FromPostgresVersion (up_Spec u).
Definition toVersion (u : PGUpgrade) : Z := us_ToPostgresVersion (up_Spec u).
Definition clusterName (u : PGUpgrade) : string := us_PostgresClusterName (up_Spec u).

(** ** The world: [world.go] *)
Record World := mkWorld {
  w_Cluster : option CrunchyCluster;
  w_ClusterNotFound : option error;
  w_ClusterPrimary : option StatefulSet;
  w_ClusterReplicas : list StatefulSet;
  w_ClusterShutdown : bool;
  w_ReplicasExpected : Z;
  w_PatroniEndpoints : list Endpoints;
  w_Jobs : gmap string Job
}.
#[export] Instance World_eta : Eta World := fun w =>
  mkWorld (w_Cluster w) (w_ClusterNotFound w) (w_ClusterPrimary w) (w_ClusterReplicas w) (w_ClusterShutdown w)
    (w_ReplicasExpected w) (w_PatroniEndpoints w) (w_Jobs w).

Definition NewWorld : World := mkWorld None None None [] false 0 [] ∅.

Definition populateCluster (w : World) (r : result CrunchyCluster) : World * option error :=
  match r with
  | Ok cluster => (w <| w_Cluster := Some cluster |> <| w_ClusterNotFound := None |>, None)
  | Err e => if IsNotFound e then (w <| w_Cluster := None |> <| w_ClusterNotFound := Some e |>, None) else (w, Some e)
  end.

Definition populatePatroniEndpoints (w : World) (endpoints : list Endpoints) : World :=
  w <| w_PatroniEndpoints ::= fun l =>
    l ++ List.filter (fun e => nonempty (label (ep_Meta e) LabelUpgradePatroni)) endpoints |>.

Definition instanceSts (l : list StatefulSet) : list StatefulSet :=
  List.filter (fun sts => nonempty (label (st_Meta sts) LabelInstance)) l.

(** One stateful set of an instance; without a startup instance none is taken
    for the primary or a replica. *)
Definition populateSts (startup : string) (w : World) (sts : StatefulSet) : World :=
  let w := w <| w_ReplicasExpected ::= Z.succ |> in
  if negb (nonempty startup) then w
  else if bool_decide (om_Name (st_Meta sts) = startup) then w <| w_ClusterPrimary := Some sts |>
  else w <| w_ClusterReplicas ::= fun l => l ++ [sts] |>.

Definition populateStatefulSets (w : World) (statefulSets : list StatefulSet) : World :=
  let w := w <| w_ReplicasExpected := (-1)%Z |> in
  match w_Cluster w with
  | None => w
  | Some cluster => fold_left (populateSts (cc_StartupInstance cluster)) (instanceSts statefulSets) w
  end.

(** Specified, observed, and without running instances. *)
Definition clusterShutdown (cluster : CrunchyCluster) : bool :=
  default false (cc_Shutdown cluster) && bool_decide (cc_ObservedGeneration cluster = om_Generation (cc_Meta cluster)) &&
  forallb (fun set => bool_decide (iss_Replicas set = 0%Z)) (cc_StatusSets cluster).

Definition populateShutdown (w : World) : World :=
  match w_Cluster w with
  | None => w
  | Some cluster => w <| w_ClusterShutdown := clusterShutdown cluster |>
  end.

Definition selectCluster (u : PGUpgrade) : ListSelector := ByLabels (SetSelector {[LabelCluster := clusterName u]}).

Definition jobsByName (l : list Job) : gmap string Job :=
  fold_left (fun m job => <[om_Name (j_Meta job) := job]> m) l ∅.

Definition observeWorld (u : PGUpgrade) : action World :=
  let! r := call (Get KCrunchy (up_Namespace u, clusterName u)) in
  match populateCluster NewWorld r with
  | (_, Some e) => Ret (Err e)
  | (w, None) =>
      do! endpoints := call (ListAll KEndpoints (up_Namespace u) (selectCluster u)) in
      let w := populatePatroniEndpoints w endpoints in
      do! jobs := call (ListAll KJob (up_Namespace u) (selectCluster u)) in
      let w := w <| w_Jobs := jobsByName jobs |> in
      do! statefulsets := call (ListAll KSts (up_Namespace u) (selectCluster u)) in
      Ret (Ok (populateShutdown (populateStatefulSets w statefulsets)))
  end.

(** ** Conditions *)
Section Conditions.
Context `{MetaConditions}.

Definition setCondition (u : PGUpgrade) (type : string) (status : ConditionStatus) (reason message : string)
    : program PGUpgrade :=
  let! now := call Now in
  Ret (u <| up_Conditions ::= fun l => SetStatusCondition now l
    (mkCondition type status reason message (om_Generation (up_Meta u)) 0) |>).

Definition setStatusToProgressingIfReasonWas (reason : string) (u : PGUpgrade) : program PGUpgrade :=
  if match FindStatusCondition (up_Conditions u) ConditionPGUpgradeProgressing with
     | None => true
     | Some progressing => bool_decide (cond_Reason progressing = reason)
     end
  then setCondition u ConditionPGUpgradeProgressing ConditionTrue "PGUpgradeProgressing"
         ("Upgrade progressing for cluster " +:+ clusterName u)
  else Ret u.
End Conditions.

(** ** The jobs: [jobs.go] *)

Definition initdb : string := sh "/usr/pgsql-`${new_version}`/bin/initdb -k -D /pgdata/pg`${new_version}`".

Definition upgradeScript (upgradeBinary argJobs : string) : list string :=
  [sh "declare -r data_volume='/pgdata' old_version=`$1` new_version=`$2`";
   sh "printf 'Performing PostgreSQL upgrade from version `%s` to `%s` ...\n\n' `$@`";
   sh "gid=$(id -G); NSS_WRAPPER_GROUP=$(mktemp)";
   sh "(sed `/^postgres:x:/ d; /^[^:]*:x:${gid%% *}:/ d` /etc/group";
   sh "echo `postgres:x:${gid%% *}:`) > `${NSS_WRAPPER_GROUP}`";
   sh "uid=$(id -u); NSS_WRAPPER_PASSWD=$(mktemp)";
   sh "(sed `/^postgres:x:/ d; /^[^:]*:x:${uid}:/ d` /etc/passwd";
   sh "echo `postgres:x:${uid}:${gid%% *}::${data_volume}:`) > `${NSS_WRAPPER_PASSWD}`";
   sh "export LD_PRELOAD='libnss_wrapper.so' NSS_WRAPPER_GROUP NSS_WRAPPER_PASSWD";
   sh "cd /pgdata || exit";
   sh "echo -e `Step 1: Making new pgdata directory...\n`";
   sh "mkdir /pgdata/pg`${new_version}`";
   sh "echo -e `Step 2: Initializing new pgdata directory...\n`";
   initdb;
   sh "echo -e `\nStep 3: Setting the expected permissions on the old pgdata directory...\n`";
   sh "chmod 700 /pgdata/pg`${old_version}`";
   sh "echo -e `Step 4: Copying shared_preload_libraries setting to new postgresql.conf file...\n`";
   sh "echo `shared_preload_libraries = '$(/usr/pgsql-```${old_version}```/bin/postgres -D \";
   sh "/pgdata/pg```${old_version}``` -C shared_preload_libraries)'` >> /pgdata/pg`${new_version}`/postgresql.conf";
   sh "echo -e `Step 4b: Copying logical replication settings to new postgresql.conf file...\n`";
   sh "echo `wal_level = '$(/usr/pgsql-```${old_version}```/bin/postgres -D \";
   sh "/pgdata/pg```${old_version}``` -C wal_level)'` >> /pgdata/pg`${new_version}`/postgresql.conf";
   sh "echo `max_replication_slots = '$(/usr/pgsql-```${old_version}```/bin/postgres -D \";
   sh "/pgdata/pg```${old_version}``` -C max_replication_slots)'` >> /pgdata/pg`${new_version}`/postgresql.conf";
   sh "echo -e `Step 5: Running " +:+ upgradeBinary +:+ sh " check...\n`";
   sh "time /usr/pgsql-`${new_version}`/bin/" +:+ upgradeBinary +:+ sh " --old-bindir /usr/pgsql-`${old_version}`/bin \";
   sh "--new-bindir /usr/pgsql-`${new_version}`/bin --old-datadir /pgdata/pg`${old_version}`\";
   sh " --new-datadir /pgdata/pg`${new_version}` --link --check" +:+ argJobs;
   sh "echo -e `\nStep 6: Running " +:+ upgradeBinary +:+ sh "...\n`";
   sh "time /usr/pgsql-`${new_version}`/bin/" +:+ upgradeBinary +:+ sh " --old-bindir /usr/pgsql-`${old_version}`/bin \";
   sh "--new-bindir /usr/pgsql-`${new_version}`/bin --old-datadir /pgdata/pg`${old_version}` \";
   sh "--new-datadir /pgdata/pg`${new_version}` --link" +:+ argJobs;
   sh "echo -e `\nStep 7: Copying patroni.dynamic.json...\n`";
   sh "cp /pgdata/pg`${old_version}`/patroni.dynamic.json /pgdata/pg`${new_version}`";
   sh "echo -e `\npg_upgrade Job Complete!`"].

Definition upgradeCommand (oldVersion newVersion availableCPUs : Z) (pgTDE : bool) : list string :=
  let argJobs := " --jobs=" +:+ pretty (Z.max 1 (availableCPUs - 1)) in
  let upgradeBinary := if pgTDE then "pg_tde_upgrade" else "pg_upgrade" in
  ["bash"; "-ceu"; "--"; Join (upgradeScript upgradeBinary argJobs) (char newline); "upgrade";
   pretty oldVersion; pretty newVersion].

Definition largestWholeCPU (resources : Z * Z) : Z :=
  Z.max (Z.max (fst resources `quot` 1000) (snd resources `quot` 1000)) 0.

Definition removeDataScript : list string :=
  [sh "declare -r old_version=`$1`";
   sh "printf 'Removing PostgreSQL data dir for pg%s...\n\n' `$@`";
   sh "echo -e `Checking the directory exists and isn't being used...\n`";
   sh "cd /pgdata || exit";
   sh "if [ `$(/usr/pgsql-`${old_version}`/bin/pg_controldata /pgdata/pg`${old_version}` | grep -c `shut down in recovery`)` -ne 1 ]; then echo -e `Directory in use, cannot remove...`; exit 1; fi";
   sh "echo -e `Removing old pgdata directory...\n`";
   sh "rm -rf /pgdata/pg`${old_version}` `$(realpath /pgdata/pg${old_version}/pg_wal)`";
   sh "echo -e `Remove Data Job Complete!`"].

Definition removeDataCommand (u : PGUpgrade) : list string :=
  ["bash"; "-ceu"; "--"; Join removeDataScript (char newline); "remove"; pretty (fromVersion u)].

Section Jobs.
Context `{SafeEncode, LabelMatching}.
(** the feature gate PGUpgradeCPUConcurrency, and RELATED_IMAGE_PGUPGRADE in the
    environment *)
Context (CPUConcurrency : bool) (RELATED_IMAGE_PGUPGRADE : string).

(** [None] is a panic of [SafeDNSUniqueName]. *)
Definition commonLabels (role : string) (u : PGUpgrade) : option (gmap string string) :=
  name ← SafeDNSUniqueName (up_Name u);
  Some {[LabelPGUpgrade := name; LabelCluster := clusterName u; LabelRole := role]}.

Definition pgUpgradeContainerImage (u : PGUpgrade) : string :=
  let image := default "" (us_Image (up_Spec u)) in
  if nonempty image then image else RELATED_IMAGE_PGUPGRADE.

Definition verifyUpgradeImageValue (u : PGUpgrade) : result unit :=
  if nonempty (pgUpgradeContainerImage u) then Ok tt else Err (New "Missing crunchy-upgrade image").

(** The last container with the name, and its mounts; [None] is a nil
    dereference later on. *)
Definition databaseContainer (t : PodTemplate) : option (string * list (string * string)) :=
  last (List.filter (fun c => bool_decide (fst c = ContainerDatabase)) (tpl_Containers t)).

Definition upgradeJobMeta (u : PGUpgrade) (name container : string) (labels : gmap string string) : ObjectMeta :=
  mkMeta name (up_Namespace u) "" "" 0 0 None labels
    (Merge [md_Annotations (us_Metadata (up_Spec u)); {[DefaultContainerAnnotation := container]}]) []
    (Some (om_UID (up_Meta u))) "".

(** The init container of the database, and those of the specification. *)
Definition upgradeInitContainers (u : PGUpgrade) (t : PodTemplate) : list string :=
  take 1 (List.filter (fun name => bool_decide (name = ContainerDatabase +:+ "-init")) (tpl_InitContainers t)) ++
  us_InitContainers (up_Spec u).

Definition generateUpgradeJob (u : PGUpgrade) (startup : StatefulSet) (pgTDE : bool) : option Job :=
  name ← SafeDNSUniqueName (up_Name u +:+ "-pgdata");
  common ← commonLabels pgUpgrade u;
  database ← databaseContainer (st_Template startup);
  let labels := Merge [md_Labels (us_Metadata (up_Spec u)); common; {[LabelUpgradeVersion := pretty (toVersion u)]}] in
  let wholeCPUs := if CPUConcurrency then largestWholeCPU (us_CPU (up_Spec u)) else 0%Z in
  Some (mkJob (upgradeJobMeta u name (fst database) labels) [] None 0 0
    (Some (plainJobSpec (pgUpgradeContainerImage u) (upgradeCommand (fromVersion u) (toVersion u) wholeCPUs pgTDE)
      (tpl_Volumes (st_Template startup)) (snd database ++ us_VolumeMounts (up_Spec u))
      (us_Tolerations (up_Spec u)) (upgradeInitContainers u (st_Template startup)))) None 0 None None "").

Definition generateRemoveDataJob (u : PGUpgrade) (sts : StatefulSet) : option Job :=
  name ← SafeDNSUniqueName (up_Name u +:+ "-" +:+ om_Name (st_Meta sts));
  common ← commonLabels removeData u;
  database ← databaseContainer (st_Template sts);
  let labels := labels_Merge (md_Labels (us_Metadata (up_Spec u))) common in
  Some (mkJob (upgradeJobMeta u name (fst database) labels) [] None 0 0
    (Some (plainJobSpec (pgUpgradeContainerImage u) (removeDataCommand u)
      (tpl_Volumes (st_Template sts)) (snd database) (us_Tolerations (up_Spec u)) [])) None 0 None None "").
End Jobs.

(** ** The reconciliation: [pgupgrade_controller.go] *)
Section Reconcile.
Context `{SafeEncode, LabelMatching, MetaConditions}.
Context (CPUConcurrency : bool) (RELATED_IMAGE_PGUPGRADE : string) (errorText : error -> string).

(** The upgrade with its conditions, whether to come back, and the error. *)
Definition Outcome : Type := PGUpgrade * (bool * option error).

Definition done (u : PGUpgrade) : program Outcome := Ret (u, (false, None)).

(** Not progressing, for a reason, and the end. *)
Definition stop (u : PGUpgrade) (reason message : string) : program Outcome :=
  let! u := setCondition u ConditionPGUpgradeProgressing ConditionFalse reason message in done u.

Definition hasRole (role : string) (job : Job) : bool := bool_decide (label (j_Meta job) LabelRole = role).

Definition ofUpgrade (name role : string) (job : Job) : bool :=
  hasRole role job && bool_decide (label (j_Meta job) LabelPGUpgrade = name).

(** The jobs, in the order in which the map is visited. *)
Definition rangeJobs (jobs : gmap string Job) : program (list Job) :=
  let! order := call (RangeOrder (keys jobs)) in
  Ret (omap (fun name => jobs !! name) (proj1_sig order)).

(** The count of completed jobs, and whether one failed, which ends the loop. *)
Fixpoint removeDataJobs (name : string) (jobs : list Job) : Z * bool :=
  match jobs with
  | [] => (0%Z, false)
  | job :: jobs =>
      if ofUpgrade name removeData job then
        if JobCompleted job then let '(n, failed) := removeDataJobs name jobs in (Z.succ n, failed)
        else if JobFailed job then (0%Z, true)
        else removeDataJobs name jobs
      else removeDataJobs name jobs
  end.

(** *** All is done: a new backup for the replicas, and the version *)
Fixpoint deleteReplicaCreate (jobs : list Job) : action unit :=
  match jobs with
  | [] => Ret (Ok tt)
  | job :: jobs =>
      if bool_decide (label (j_Meta job) LabelPGBackRestBackup = UpgradeReplicaCreate) then
        let! r := call (Delete KJob (objectKey (j_Meta job))
                          (Preconditions (om_UID (j_Meta job)) (om_ResourceVersion (j_Meta job)))) in
        match IgnoreNotFound (err_of r) with
        | Some e => Ret (Err e)
        | None => deleteReplicaCreate jobs
        end
      else deleteReplicaCreate jobs
  end.

Definition recordVersion (u : PGUpgrade) (cluster : CrunchyCluster) : action unit :=
  match cc_PGBackRest cluster with
  | None => Ret (Err panic)
  | Some status =>
      ignore (call (StatusPatch KCrunchy cluster
        (cluster <| cc_StatusVersion := toVersion u |> <| cc_PGBackRest := Some (status <| ps_Repos := [] |>) |>)))
  end.

(** *** The jobs; [None] is a panic while a job is generated *)
Definition applyJob (job : option Job) : program (option (result unit)) :=
  match job with
  | None => Ret None
  | Some job => let! r := ignore (call (Apply KJob job)) in Ret (Some r)
  end.

Fixpoint applyRemoveData (u : PGUpgrade) (replicas : list StatefulSet) : program (option (result unit)) :=
  match replicas with
  | [] => Ret (Some (Ok tt))
  | sts :: replicas =>
      let! r := applyJob (generateRemoveDataJob RELATED_IMAGE_PGUPGRADE u sts) in
      match r with
      | Some (Ok _) => applyRemoveData u replicas
      | other => Ret other
      end
  end.

(** Each deletion replaces the error of the one before, and that of the jobs. *)
Fixpoint deleteEndpoints (err : option error) (l : list Endpoints) : program (option error) :=
  match l with
  | [] => Ret err
  | e :: l =>
      let! r := call (Delete KEndpoints (objectKey (ep_Meta e))
                        (Preconditions (om_UID (ep_Meta e)) (om_ResourceVersion (ep_Meta e)))) in
      deleteEndpoints (IgnoreNotFound (err_of r)) l
  end.

Definition runUpgrade (u : PGUpgrade) (w : World) (cluster : CrunchyCluster) (primary : StatefulSet)
    (upgradeJobComplete removeDataJobsComplete : bool) : program (bool * option error) :=
  let! r := (if negb upgradeJobComplete
             then applyJob (generateUpgradeJob CPUConcurrency RELATED_IMAGE_PGUPGRADE u primary
                              (ext_PGTDE_Enabled (pc_Extensions (cc_Config cluster))))
             else if negb removeDataJobsComplete then applyRemoveData u (w_ClusterReplicas w)
             else Ret (Some (Ok tt))) in
  match r with
  | None => Ret (false, Some panic)
  | Some r =>
      match w_PatroniEndpoints w with
      | [] => Ret (false, err_of r)
      | endpoints => let! err := deleteEndpoints (err_of r) endpoints in Ret (true, err)
      end
  end.

(** *** What the jobs say of the upgrade *)
Record Progress := mkProgress {
  pr_UpgradeComplete : bool;
  pr_UpgradeFailed : bool;
  pr_RemoveDataComplete : bool;
  pr_RemoveDataFailed : bool
}.

(** [None] is a panic: a job with a role is there, but the upgrade's name has
    no label. *)
Definition observeProgress (u : PGUpgrade) (w : World) : program (option Progress) :=
  let! jobs := rangeJobs (w_Jobs w) in
  let! jobs2 := rangeJobs (w_Jobs w) in
  match SafeDNSUniqueName (up_Name u) with
  | None =>
      Ret (if existsb (fun job => hasRole pgUpgrade job || hasRole removeData job) jobs then None
           else Some (mkProgress false false (bool_decide (w_ReplicasExpected w = 0%Z)) false))
  | Some name =>
      let upgradeJob := List.find (ofUpgrade name pgUpgrade) jobs in
      let '(completed, failed) := removeDataJobs name jobs2 in
      Ret (Some (mkProgress (match upgradeJob with Some job => JobCompleted job | None => false end)
                   (match upgradeJob with Some job => JobFailed job | None => false end)
                   (bool_decide (completed = w_ReplicasExpected w)) failed))
  end.

(** From the check that the cluster is shut down. *)
Definition reconcileShutdown (u : PGUpgrade) (w : World) (cluster : CrunchyCluster) (p : Progress) : program Outcome :=
  if negb (w_ClusterShutdown w) then stop u "PGClusterNotShutdown" "PostgresCluster instances still running"
  else
    let! u := setStatusToProgressingIfReasonWas "PGClusterNotShutdown" u in
    match w_ClusterPrimary w with
    | None => stop u "PGClusterPrimaryNotIdentified" "PostgresCluster primary instance not identified"
    | Some primary =>
        let! u := setStatusToProgressingIfReasonWas "PGClusterPrimaryNotIdentified" u in
        if negb (bool_decide (annotation (cc_Meta cluster) AnnotationAllowUpgrade = up_Name u))
        then stop u "PGClusterMissingRequiredAnnotation"
               ("PostgresCluster " +:+ clusterName u +:+ " lacks annotation for upgrade " +:+ up_Name u)
        else
          let! u := setStatusToProgressingIfReasonWas "PGClusterMissingRequiredAnnotation" u in
          if pr_UpgradeFailed p || pr_RemoveDataFailed p then
            let! u := setCondition u ConditionPGUpgradeSucceeded ConditionFalse "PGUpgradeFailed"
                        "Upgrade jobs failed, please check individual pod logs" in
            done u
          else if pr_UpgradeComplete p && pr_RemoveDataComplete p then
            let! jobs := rangeJobs (w_Jobs w) in
            let! r := (do! _ := deleteReplicaCreate jobs in recordVersion u cluster) in
            Ret (u, (false, err_of r))
          else
            let! r := runUpgrade u w cluster primary (pr_UpgradeComplete p) (pr_RemoveDataComplete p) in
            Ret (u, r)
    end.

(** From the versions of the cluster. *)
Definition reconcileCluster (u : PGUpgrade) (w : World) (cluster : CrunchyCluster) : program Outcome :=
  let version := pc_PostgresVersion (cc_Config cluster) in
  let statusVersion := cc_StatusVersion cluster in
  let! p := observeProgress u w in
  match p with
  | None => Ret (u, (false, Some panic))
  | Some p =>
      if bool_decide (version = toVersion u) && negb (pr_UpgradeComplete p)
      then stop u "PGUpgradeResolved"
             ("PostgresCluster " +:+ clusterName u +:+ " is already running version " +:+ pretty (toVersion u))
      else
        let! u := setStatusToProgressingIfReasonWas "PGUpgradeResolved" u in
        if bool_decide (statusVersion = toVersion u) then
          let! u := setCondition u ConditionPGUpgradeProgressing ConditionFalse "PGUpgradeCompleted"
                      ("PostgresCluster " +:+ clusterName u +:+ " is running version " +:+ pretty (toVersion u)) in
          if pr_UpgradeComplete p && pr_RemoveDataComplete p then
            let! u := setCondition u ConditionPGUpgradeSucceeded ConditionTrue "PGUpgradeSucceeded"
                        ("PostgresCluster " +:+ clusterName u +:+ " is ready to complete upgrade to version " +:+
                         pretty (toVersion u)) in
            done u
          else done u
        else if negb (bool_decide (version = fromVersion u))
        then stop u "PGUpgradeInvalidForCluster"
               ("Current postgres version is " +:+ pretty version +:+ ", but upgrade expected " +:+ pretty (fromVersion u))
        else
          let! u := setStatusToProgressingIfReasonWas "PGUpgradeInvalidForCluster" u in
          reconcileShutdown u w cluster p
  end.

(** From the checks of the specification. *)
Definition reconcileSpec (u : PGUpgrade) : program Outcome :=
  let! u := setStatusToProgressingIfReasonWas "" u in
  if bool_decide (toVersion u <= fromVersion u)%Z
  then stop u "PGUpgradeInvalid"
         ("Cannot upgrade from postgres version " +:+ pretty (fromVersion u) +:+ " to " +:+ pretty (toVersion u))
  else
    match verifyUpgradeImageValue RELATED_IMAGE_PGUPGRADE u with
    | Err e => stop u "PGUpgradeInvalid" ("Error: " +:+ errorText e)
    | Ok _ =>
        let! u := setStatusToProgressingIfReasonWas "PGUpgradeInvalid" u in
        let! w := observeWorld u in
        match w with
        | Err e =>
            let! u := setCondition u ConditionPGUpgradeProgressing ConditionFalse
                        "PGClusterErrorWhenObservingWorld" (errorText e) in
            Ret (u, (false, Some e))
        | Ok w =>
            let! u := setStatusToProgressingIfReasonWas "PGClusterErrorWhenObservingWorld" u in
            match w_ClusterNotFound w, w_Cluster w with
            | Some e, _ => stop u "PGClusterNotFound" (errorText e)
            | None, None => Ret (u, (false, Some panic))
            | None, Some cluster =>
                let! u := setStatusToProgressingIfReasonWas "PGClusterNotFound" u in
                reconcileCluster u w cluster
            end
        end
    end.

Definition reconcileUpgrade (u : PGUpgrade) : program Outcome :=
  if match FindStatusCondition (up_Conditions u) ConditionPGUpgradeSucceeded with
     | Some succeeded => bool_decide (cond_Reason succeeded = "PGUpgradeSucceeded")
     | None => false
     end
  then done u else reconcileSpec u.

(** The status is written on the way out, also after a panic. *)
Definition Reconcile (req : key) : program (bool * option error) :=
  let! r := call (Get KPGUpgrade req) in
  match r with
  | Err e => Ret (false, IgnoreNotFound (Some e))
  | Ok upgrade =>
      let! (after, result) := reconcileUpgrade upgrade in
      if bool_decide (up_Conditions upgrade = up_Conditions after) then Ret result
      else
        let! r := call (StatusPatch KPGUpgrade upgrade after) in
        Ret (fst result, match snd result with Some e => Some e | None => err_of r end)
  end.
End Reconcile.

(** ** The calls of an upgrade *)
Section UpgradeCalls.
Context `{SafeEncode, LabelMatching, MetaConditions}.
Context (CPUConcurrency : bool) (RELATED_IMAGE_PGUPGRADE : string) (errorText : error -> string) (req : key).

Definition upgrade_read (h : history) (u : PGUpgrade) : Prop := got KPGUpgrade req (Ok u) ∈ h.

(** What was read of the world. *)
Definition cluster_seen (h : history) (u : PGUpgrade) (cluster : CrunchyCluster) : Prop :=
  read h KCrunchy (up_Namespace u, clusterName u) cluster.

Definition listed (h : history) (k : kind) (u : PGUpgrade) (o : obj k) : Prop :=
  exists l : list (obj k), o ∈ l /\
    (Ev (ListAll k (up_Namespace u) (selectCluster u) : op) (Ok l : result (list (obj k))) : event resp) ∈ h.

(** The cluster is shut down, belongs to this upgrade, and runs the version that
    is to be upgraded. *)
Definition may_upgrade (h : history) (u : PGUpgrade) (cluster : CrunchyCluster) : Prop :=
  cluster_seen h u cluster /\ (fromVersion u < toVersion u)%Z /\
  cc_Shutdown cluster = Some true /\ cc_ObservedGeneration cluster = om_Generation (cc_Meta cluster) /\
  (forall set, set ∈ cc_StatusSets cluster -> iss_Replicas set = 0%Z) /\
  annotation (cc_Meta cluster) AnnotationAllowUpgrade = up_Name u /\
  pc_PostgresVersion (cc_Config cluster) = fromVersion u /\ cc_StatusVersion cluster <> toVersion u /\
  cc_StartupInstance cluster <> "".

(** A stateful set of an instance of the cluster. *)
Definition instance_seen (h : history) (u : PGUpgrade) (sts : StatefulSet) : Prop :=
  listed h KSts u sts /\ label (st_Meta sts) LabelInstance <> "".

(** A completed job of the upgrade with a role. *)
Definition job_completed (h : history) (u : PGUpgrade) (role : string) (job : Job) : Prop :=
  listed h KJob u job /\ label (j_Meta job) LabelRole = role /\
  Some (label (j_Meta job) LabelPGUpgrade) = SafeDNSUniqueName (up_Name u) /\ JobCompleted job = true.

(** The upgrade job is complete, and one job for each other instance. *)
Definition finished (h : history) (u : PGUpgrade) : Prop :=
  (exists job, job_completed h u pgUpgrade job) /\
  exists (jobs : list Job) (l : list StatefulSet),
    (Ev (ListAll KSts (up_Namespace u) (selectCluster u) : op) (Ok l : result (list StatefulSet)) : event resp) ∈ h /\
    NoDup (map (fun j => om_Name (j_Meta j)) jobs) /\ (forall job, job ∈ jobs -> job_completed h u removeData job) /\
    Z.of_nat (length jobs) = (Z.of_nat (length (instanceSts l)) - 1)%Z.

(** The cluster runs the new version after the jobs. *)
Definition complete (h : history) (u : PGUpgrade) : Prop :=
  finished h u /\ exists cluster, cluster_seen h u cluster /\ cc_StatusVersion cluster = toVersion u.

Definition upgrade_call (h : history) (o : op) : Prop :=
  match o with
  | Get KPGUpgrade k => k = req
  | Get KCrunchy _ | ListAll KEndpoints _ _ | ListAll KJob _ _ | ListAll KSts _ _ | Now | RangeOrder _ => True
  | Apply KJob job => exists u cluster sts, upgrade_read h u /\ may_upgrade h u cluster /\ instance_seen h u sts /\
      ((om_Name (st_Meta sts) = cc_StartupInstance cluster /\
        Some job = generateUpgradeJob CPUConcurrency RELATED_IMAGE_PGUPGRADE u sts
                     (ext_PGTDE_Enabled (pc_Extensions (cc_Config cluster)))) \/
       (om_Name (st_Meta sts) <> cc_StartupInstance cluster /\
        Some job = generateRemoveDataJob RELATED_IMAGE_PGUPGRADE u sts /\ exists j, job_completed h u pgUpgrade j))
  | Delete KEndpoints k opts => exists u cluster e, upgrade_read h u /\ may_upgrade h u cluster /\
      listed h KEndpoints u e /\ label (ep_Meta e) LabelUpgradePatroni <> "" /\ k = objectKey (ep_Meta e) /\
      opts = Preconditions (om_UID (ep_Meta e)) (om_ResourceVersion (ep_Meta e))
  | Delete KJob k opts => exists u cluster job, upgrade_read h u /\ may_upgrade h u cluster /\ finished h u /\
      listed h KJob u job /\ label (j_Meta job) LabelPGBackRestBackup = UpgradeReplicaCreate /\
      k = objectKey (j_Meta job) /\ opts = Preconditions (om_UID (j_Meta job)) (om_ResourceVersion (j_Meta job))
  | StatusPatch KCrunchy c c' => exists u status, upgrade_read h u /\ may_upgrade h u c /\ finished h u /\
      cc_PGBackRest c = Some status /\
      c' = c <| cc_StatusVersion := toVersion u |> <| cc_PGBackRest := Some (status <| ps_Repos := [] |>) |>
  | StatusPatch KPGUpgrade u u' => upgrade_read h u /\ (exists l, u' = u <| up_Conditions := l |>) /\
      forall c, FindStatusCondition (up_Conditions u') ConditionPGUpgradeSucceeded = Some c ->
        cond_Status c = ConditionTrue ->
        FindStatusCondition (up_Conditions u) ConditionPGUpgradeSucceeded = Some c \/ complete h u
  | _ => False
  end.

Abbreviation safe := (wps upgrade_call).

#[export] Instance grows_cluster_seen u c : Grows (fun h => cluster_seen h u c).
Proof. unfold cluster_seen. apply _. Qed.
#[export] Instance grows_listed k u o : Grows (fun h => listed h k u o).
Proof. unfold listed. apply _. Qed.
#[export] Instance grows_may_upgrade u c : Grows (fun h => may_upgrade h u c).
Proof. unfold may_upgrade. apply _. Qed.
#[export] Instance grows_instance_seen u sts : Grows (fun h => instance_seen h u sts).
Proof. unfold instance_seen. apply _. Qed.
#[export] Instance grows_job_completed u r j : Grows (fun h => job_completed h u r j).
Proof. unfold job_completed. apply _. Qed.
#[export] Instance grows_finished u : Grows (fun h => finished h u).
Proof. unfold finished. apply _. Qed.
#[export] Instance grows_complete u : Grows (fun h => complete h u).
Proof. unfold complete. apply _. Qed.

(** *** The world is what was read *)
Definition world_ok (h : history) (u : PGUpgrade) (w : World) : Prop :=
  (forall name job, w_Jobs w !! name = Some job -> om_Name (j_Meta job) = name /\ listed h KJob u job) /\
  (forall e, e ∈ w_PatroniEndpoints w -> listed h KEndpoints u e /\ label (ep_Meta e) LabelUpgradePatroni <> "") /\
  forall cluster, w_Cluster w = Some cluster ->
    cluster_seen h u cluster /\ w_ClusterShutdown w = clusterShutdown cluster /\
    exists l : list StatefulSet,
      (Ev (ListAll KSts (up_Namespace u) (selectCluster u) : op) (Ok l : result (list StatefulSet)) : event resp) ∈ h /\
      w_ReplicasExpected w = (Z.of_nat (length (instanceSts l)) - 1)%Z /\
      (forall sts, w_ClusterPrimary w = Some sts ->
         sts ∈ instanceSts l /\ om_Name (st_Meta sts) = cc_StartupInstance cluster /\ cc_StartupInstance cluster <> "") /\
      (forall sts, sts ∈ w_ClusterReplicas w ->
         sts ∈ instanceSts l /\ om_Name (st_Meta sts) <> cc_StartupInstance cluster).

#[export] Instance grows_world_ok u w : Grows (fun h => world_ok h u w).
Proof. unfold world_ok. apply _. Qed.

Lemma jobsByName_lookup l name job : jobsByName l !! name = Some job -> om_Name (j_Meta job) = name /\ job ∈ l.
Proof.
  unfold jobsByName. assert (Hg : forall l (m : gmap string Job), (forall n j, m !! n = Some j -> om_Name (j_Meta j) = n) ->
    fold_left (fun m job => <[om_Name (j_Meta job) := job]> m) l m !! name = Some job ->
    om_Name (j_Meta job) = name /\ (job ∈ l \/ m !! name = Some job)).
  { clear. induction l as [|a l IH]; intros m Hm Hl; [split; [by apply Hm|by right]|]. simpl in Hl.
    destruct (IH (<[om_Name (j_Meta a) := a]> m)) as [Hn [Hin|Hin]]; [|exact Hl| |].
    - intros n j [[<- <-]|[_ Hl']]%lookup_insert_Some; [done|by apply Hm].
    - split; [done|]. left. by right.
    - apply lookup_insert_Some in Hin as [[_ <-]|[_ Hin]]; (split; [done|]); [left; left|by right]. }
  intros Hl. destruct (Hg l ∅) as [Hn [Hin|Hin]]; [by intros ?? ?%lookup_empty_Some|exact Hl|done|by apply lookup_empty_Some in Hin].
Qed.

Lemma populateSts_fold startup l : forall w,
  let w' := fold_left (populateSts startup) l w in
  w_ReplicasExpected w' = (w_ReplicasExpected w + Z.of_nat (length l))%Z /\
  (forall sts, w_ClusterPrimary w' = Some sts ->
     w_ClusterPrimary w = Some sts \/ sts ∈ l /\ om_Name (st_Meta sts) = startup /\ startup <> "") /\
  (forall sts, sts ∈ w_ClusterReplicas w' ->
     sts ∈ w_ClusterReplicas w \/ sts ∈ l /\ om_Name (st_Meta sts) <> startup) /\
  w_Jobs w' = w_Jobs w /\ w_PatroniEndpoints w' = w_PatroniEndpoints w /\ w_Cluster w' = w_Cluster w /\
  w_ClusterNotFound w' = w_ClusterNotFound w.
Proof.
  induction l as [|sts l IH]; intros w; simpl; [split_and!; auto; lia|].
  destruct (IH (populateSts startup w sts)) as (W1 & W2 & W3 & W4 & W5 & W6 & W7).
  assert (Hs : w_ReplicasExpected (populateSts startup w sts) = (w_ReplicasExpected w + 1)%Z /\
    (forall x, w_ClusterPrimary (populateSts startup w sts) = Some x ->
       w_ClusterPrimary w = Some x \/ x = sts /\ om_Name (st_Meta sts) = startup /\ startup <> "") /\
    (forall x, x ∈ w_ClusterReplicas (populateSts startup w sts) ->
       x ∈ w_ClusterReplicas w \/ x = sts /\ om_Name (st_Meta sts) <> startup) /\
    w_Jobs (populateSts startup w sts) = w_Jobs w /\
    w_PatroniEndpoints (populateSts startup w sts) = w_PatroniEndpoints w /\
    w_Cluster (populateSts startup w sts) = w_Cluster w /\
    w_ClusterNotFound (populateSts startup w sts) = w_ClusterNotFound w).
  { unfold populateSts. destruct (nonempty startup) eqn:En; simpl; [|split_and!; auto; lia].
    case_bool_decide as Hn; simpl; split_and!; auto; try lia.
    - intros x [= <-]. right. split_and!; [done|done|]. by intros ->.
    - intros x [Hx| ->%list_elem_of_singleton]%elem_of_app; [by left|by right]. }
  destruct Hs as (S1 & S2 & S3 & S4 & S5 & S6 & S7). split_and!; try congruence; [lia| |].
  - intros x Hx. destruct (W2 x Hx) as [Hp|(Hin & Hr)]; [|right; split; [by right|done]].
    destruct (S2 x Hp) as [?|(-> & Hr)]; [by left|right; split; [by left|done]].
  - intros x Hx. destruct (W3 x Hx) as [Hp|(Hin & Hr)]; [|right; split; [by right|done]].
    destruct (S3 x Hp) as [?|(-> & Hr)]; [by left|right; split; [by left|done]].
Qed.

Lemma observeWorld_safe u h :
  safe h (observeWorld u) (fun h' r => h `prefix_of` h' /\ forall w, r = Ok w -> world_ok h' u w).
Proof.
  apply wps_prefix. unfold observeWorld. apply wps_call_bind. split; [done|].
  change (resp (Get KCrunchy _)) with (result CrunchyCluster). intros r.
  destruct (populateCluster NewWorld r) as [w [e|]] eqn:Ep; [done|].
  apply wps_list_bindr. split; [done|]. intros [endpoints|e]; [|done].
  apply wps_list_bindr. split; [done|]. intros [jobs|e]; [|done].
  apply wps_list_bindr. split; [done|]. intros [sts|e]; [|done]. simpl wps. set (h' := (((h ++ _) ++ _) ++ _) ++ _).
  intros w' [= <-].
  set (w1 := populatePatroniEndpoints w endpoints <| w_Jobs := jobsByName jobs |>).
  set (l := instanceSts sts).
  assert (Hw : w_PatroniEndpoints w = [] /\ w_ClusterPrimary w = None /\ w_ClusterReplicas w = [] /\
    forall c, w_Cluster w = Some c -> r = Ok c).
  { destruct r as [c|e]; simpl in Ep; [injection Ep as <-; split_and!; [done..|by intros c' [= ->]]|].
    destruct (IsNotFound e); [injection Ep as <-; by split_and!|done]. }
  destruct Hw as (He & Hp0 & Hr0 & Hc).
  assert (Hin : forall e, e ∈ [Ev (Get KCrunchy (up_Namespace u, clusterName u) : op) r : event resp;
      Ev (ListAll KEndpoints (up_Namespace u) (selectCluster u) : op) (Ok endpoints : result (list Endpoints)) : event resp;
      Ev (ListAll KJob (up_Namespace u) (selectCluster u) : op) (Ok jobs : result (list Job)) : event resp;
      Ev (ListAll KSts (up_Namespace u) (selectCluster u) : op) (Ok sts : result (list StatefulSet)) : event resp] -> e ∈ h').
  { intros e Hin. unfold h'. rewrite <- !app_assoc. apply elem_of_app. by right. }
  assert (Hstat : forall w2, populateStatefulSets w1 sts = w2 ->
    w_Jobs w2 = jobsByName jobs /\ w_PatroniEndpoints w2 = w_PatroniEndpoints w1 /\ w_Cluster w2 = w_Cluster w /\
    forall c, w_Cluster w = Some c ->
      w_ReplicasExpected w2 = (Z.of_nat (length l) - 1)%Z /\
      (forall x, w_ClusterPrimary w2 = Some x ->
        x ∈ l /\ om_Name (st_Meta x) = cc_StartupInstance c /\ cc_StartupInstance c <> "") /\
      (forall x, x ∈ w_ClusterReplicas w2 -> x ∈ l /\ om_Name (st_Meta x) <> cc_StartupInstance c)).
  { intros w2 <-. unfold populateStatefulSets. change (w_Cluster (w1 <| w_ReplicasExpected := (-1)%Z |>)) with (w_Cluster w).
    destruct (w_Cluster w) as [c|] eqn:Ec; [|by split_and!].
    pose proof (populateSts_fold (cc_StartupInstance c) l (w1 <| w_ReplicasExpected := (-1)%Z |>)) as Hf.
    fold l. cbv zeta in Hf. destruct Hf as (F1 & F2 & F3 & F4 & F5 & F6 & _). rewrite F4, F5, F6. split_and!; try done.
    intros c' [= <-]. rewrite F1. split_and!; [simpl; lia| |].
    - intros x Hx. destruct (F2 x Hx) as [Hp|Hp]; [|exact Hp].
      change (w_ClusterPrimary w = Some x) in Hp. congruence.
    - intros x Hx. destruct (F3 x Hx) as [Hp|Hp]; [|exact Hp].
      change (x ∈ w_ClusterReplicas w) in Hp. rewrite Hr0 in Hp. by apply elem_of_nil in Hp. }
  specialize (Hstat _ eq_refl). set (w2 := populateStatefulSets w1 sts) in *. destruct Hstat as (Hj & Hep & Hcl & Hrest).
  assert (Hsh : w_Jobs (populateShutdown w2) = w_Jobs w2 /\ w_PatroniEndpoints (populateShutdown w2) = w_PatroniEndpoints w2 /\
    w_Cluster (populateShutdown w2) = w_Cluster w2 /\ w_ReplicasExpected (populateShutdown w2) = w_ReplicasExpected w2 /\
    w_ClusterPrimary (populateShutdown w2) = w_ClusterPrimary w2 /\ w_ClusterReplicas (populateShutdown w2) = w_ClusterReplicas w2 /\
    forall c, w_Cluster w2 = Some c -> w_ClusterShutdown (populateShutdown w2) = clusterShutdown c).
  { unfold populateShutdown. destruct (w_Cluster w2) as [c|] eqn:Ec; simpl; split_and!; try done. by intros c' [= ->]. }
  destruct Hsh as (S1 & S2 & S3 & S4 & S5 & S6 & S7). unfold world_ok. rewrite S1, S2, S3, S4, S5, S6. split_and!.
  - rewrite Hj. intros name job Hlk. apply jobsByName_lookup in Hlk as [Hn Hi]. split; [done|]. exists jobs. split; [done|].
    apply Hin. set_solver.
  - rewrite Hep. intros e. unfold w1, populatePatroniEndpoints. simpl. rewrite He. simpl.
    rewrite list_elem_of_In, filter_In. intros [Hi Hn]. split; [|by intros E; rewrite E in Hn].
    exists endpoints. split; [by apply list_elem_of_In|apply Hin; set_solver].
  - intros c Hcc. split_and!; [|by apply S7|].
    + apply Hin. rewrite Hcl in Hcc. rewrite (Hc c Hcc). left.
    + rewrite Hcl in Hcc. exists sts. split; [apply Hin; set_solver|]. by apply Hrest.
Qed.

(** *** The jobs are those that were listed *)
Lemma removeDataJobs_spec name jobs :
  exists done_, sublist done_ jobs /\ fst (removeDataJobs name jobs) = Z.of_nat (length done_) /\
    forall job, job ∈ done_ -> ofUpgrade name removeData job = true /\ JobCompleted job = true.
Proof.
  induction jobs as [|job jobs (l & Hs & Hn & Hl)]; [exists []; split_and!; [constructor|done|by intros ? ?%elem_of_nil]|].
  simpl. destruct (ofUpgrade name removeData job) eqn:Eo; [destruct (JobCompleted job) eqn:Ec; [|destruct (JobFailed job)]|].
  - exists (job :: l). split_and!; [by constructor| |].
    + destruct (removeDataJobs name jobs) as [n f]. simpl in *. lia.
    + intros j [->|Hj]%elem_of_cons; [done|by apply Hl].
  - exists []. split_and!; [apply sublist_nil_l|done|by intros ? ?%elem_of_nil].
  - exists l. split_and!; [by constructor|done|done].
  - exists l. split_and!; [by constructor|done|done].
Qed.

Definition ranged (w : World) (jobs : list Job) : Prop :=
  NoDup (map (fun j => om_Name (j_Meta j)) jobs) /\ forall job, job ∈ jobs -> exists name, w_Jobs w !! name = Some job.

Lemma rangeJobs_safe w h : (forall name job, w_Jobs w !! name = Some job -> om_Name (j_Meta job) = name) ->
  safe h (rangeJobs (w_Jobs w)) (fun h' jobs => h `prefix_of` h' /\ ranged w jobs).
Proof.
  intros Hn. unfold rangeJobs. apply wps_call_bind. split; [done|]. intros [order Ho]. simpl. split; [by apply prefix_app_r|].
  assert (Hnd : NoDup order) by (rewrite Ho; unfold keys; apply NoDup_fst_map_to_list). clear Ho. split.
  - induction order as [|name order IH]; [constructor|]. apply NoDup_cons in Hnd as [Hni Hnd]. simpl.
    destruct (w_Jobs w !! name) as [job|] eqn:E; [|by apply IH]. simpl. constructor; [|by apply IH].
    rewrite (Hn _ _ E). intros (j & Hj & (n & Hin & Hl)%list_elem_of_omap)%list_elem_of_fmap.
    apply Hn in Hl. congruence.
  - intros job (n & _ & Hl)%list_elem_of_omap. by exists n.
Qed.

Definition progress_ok (h : history) (u : PGUpgrade) (w : World) (p : Progress) : Prop :=
  (pr_UpgradeComplete p = true -> exists job, job_completed h u pgUpgrade job) /\
  (pr_RemoveDataComplete p = true -> exists jobs : list Job,
     NoDup (map (fun j => om_Name (j_Meta j)) jobs) /\ (forall job, job ∈ jobs -> job_completed h u removeData job) /\
     Z.of_nat (length jobs) = w_ReplicasExpected w).

#[export] Instance grows_progress_ok u w p : Grows (fun h => progress_ok h u w p).
Proof. unfold progress_ok. apply _. Qed.

Lemma ofUpgrade_completed h u w role name job : world_ok h u w -> SafeDNSUniqueName (up_Name u) = Some name ->
  (exists n, w_Jobs w !! n = Some job) -> ofUpgrade name role job = true -> JobCompleted job = true ->
  job_completed h u role job.
Proof.
  intros (Hj & _) Hs [n Hn] Ho Hc. destruct (Hj _ _ Hn) as [_ Hl]. unfold ofUpgrade, hasRole in Ho.
  apply andb_true_iff in Ho as [Hr%bool_decide_eq_true Hu%bool_decide_eq_true].
  split_and!; [done|done|by rewrite Hu, Hs|done].
Qed.

Lemma observeProgress_safe u w h : world_ok h u w ->
  safe h (observeProgress u w) (fun h' r => h `prefix_of` h' /\ forall p, r = Some p -> progress_ok h' u w p).
Proof.
  intros Hw. assert (Hn : forall name job, w_Jobs w !! name = Some job -> om_Name (j_Meta job) = name) by (intros; by apply (proj1 Hw)).
  apply wps_prefix. unfold observeProgress. rewrite wps_bind. eapply wps_conseq; [by apply rangeJobs_safe|].
  intros h1 jobs [Hp1 [Hnd Hj]]. rewrite wps_bind. eapply wps_conseq; [by apply rangeJobs_safe|].
  intros h2 jobs2 [Hp2 [Hnd2 Hj2]].
  assert (Hw2 : world_ok h2 u w) by (eapply (grows (P := fun h => world_ok h u w)); [exact Hw|by transitivity h1]).
  destruct (SafeDNSUniqueName (up_Name u)) as [name|] eqn:Es.
  - destruct (removeDataJobs_spec name jobs2) as (l & Hsub & Hlen & Hl).
    destruct (removeDataJobs name jobs2) as [n f]. simpl in Hlen. intros p [= <-]. split; simpl.
    + destruct (List.find _ jobs) as [job|] eqn:Ef; [|done]. intros Hc. apply find_some in Ef as [Hin Ho]. exists job.
      eapply ofUpgrade_completed; [done|done|by apply Hj, list_elem_of_In|done|done].
    + intros Hc%bool_decide_eq_true. exists l. split_and!; [|intros job Hin|congruence].
      * eapply sublist_NoDup; [exact Hnd2|]. by apply fmap_sublist.
      * destruct (Hl job Hin) as [Ho Hd]. eapply ofUpgrade_completed; [done|done| |done|done].
        apply Hj2. eapply elem_of_sublist; [exact Hin|exact Hsub].
  - simpl wps. intros p. destruct (existsb _ jobs); [done|]. intros [= <-]. split; simpl; [done|].
    intros Hr%bool_decide_eq_true. exists []. split_and!; [constructor|by intros ? ?%elem_of_nil|done].
Qed.

(** *** The conditions *)

(** The upgrade that was read, with the conditions so far. *)
Definition withConditions (u : PGUpgrade) (l : list Condition) : PGUpgrade := u <| up_Conditions := l |>.

(** Only a complete upgrade is reported as successful. *)
Definition conditions_ok (u : PGUpgrade) (h : history) (l : list Condition) : Prop :=
  forall c, FindStatusCondition l ConditionPGUpgradeSucceeded = Some c -> cond_Status c = ConditionTrue ->
    FindStatusCondition (up_Conditions u) ConditionPGUpgradeSucceeded = Some c \/ complete h u.

#[export] Instance grows_conditions_ok u l : Grows (fun h => conditions_ok u h l).
Proof. unfold conditions_ok. apply _. Qed.

Definition outcome_ok (u : PGUpgrade) (h : history) (r : Outcome) : Prop :=
  exists l, fst r = withConditions u l /\ conditions_ok u h l.

Lemma set_bind {B} u l type status reason message h (k : PGUpgrade -> program B) Q :
  conditions_ok u h l -> (type = ConditionPGUpgradeSucceeded -> status = ConditionTrue -> complete h u) ->
  (forall h' l', h `prefix_of` h' -> conditions_ok u h' l' -> safe h' (k (withConditions u l')) Q) ->
  safe h (bind (setCondition (withConditions u l) type status reason message) k) Q.
Proof.
  intros Hl Hs Hk. unfold setCondition. rewrite wps_bind. apply wps_call_bind. split; [done|]. intros now. cbn [wps].
  apply (Hk _ (SetStatusCondition now l (mkCondition type status reason message (om_Generation (up_Meta u)) 0)));
    [by apply prefix_app_r|].
  intros c Hf Hc. destruct (decide (type = ConditionPGUpgradeSucceeded)) as [->|Ht].
  - destruct (SetStatusCondition_same now l
      (mkCondition ConditionPGUpgradeSucceeded status reason message (om_Generation (up_Meta u)) 0)) as [t Hsame].
    simpl in Hsame. rewrite Hsame in Hf. injection Hf as <-. right.
    eapply (grows (P := fun h => complete h u)); [by apply Hs|by apply prefix_app_r].
  - rewrite SetStatusCondition_other in Hf by (simpl; congruence).
    eapply (grows (P := fun h => conditions_ok u h l)); [exact Hl|by apply prefix_app_r|done|done].
Qed.

Lemma keep_bind {B} u l reason h (k : PGUpgrade -> program B) Q :
  conditions_ok u h l ->
  (forall h' l', h `prefix_of` h' -> conditions_ok u h' l' -> safe h' (k (withConditions u l')) Q) ->
  safe h (bind (setStatusToProgressingIfReasonWas reason (withConditions u l)) k) Q.
Proof.
  intros Hl Hk. unfold setStatusToProgressingIfReasonWas.
  destruct (match FindStatusCondition _ _ with Some _ => _ | None => _ end); [by apply set_bind|by apply Hk].
Qed.

Lemma outcome_done u h l r : conditions_ok u h l -> outcome_ok u h (withConditions u l, r).
Proof. intros Hl. by exists l. Qed.

Lemma stop_safe u l reason message h : conditions_ok u h l ->
  safe h (stop (withConditions u l) reason message) (outcome_ok u).
Proof. intros Hl. unfold stop. apply set_bind; [done|done|]. intros h' l' _ Hl'. by apply outcome_done. Qed.

(** *** The changes *)
Definition upgrading (h : history) (u : PGUpgrade) (cluster : CrunchyCluster) : Prop :=
  upgrade_read h u /\ may_upgrade h u cluster.

#[export] Instance grows_upgrading u c : Grows (fun h => upgrading h u c).
Proof. unfold upgrading, upgrade_read. apply _. Qed.

Lemma deleteReplicaCreate_safe u cluster jobs : forall h, upgrading h u cluster -> finished h u ->
  (forall job, job ∈ jobs -> listed h KJob u job) ->
  safe h (deleteReplicaCreate jobs) (fun _ _ => True).
Proof.
  induction jobs as [|job jobs IH]; intros h Hu Hf Hj; [done|]. cbn [deleteReplicaCreate].
  assert (Hrest : forall h', h `prefix_of` h' -> safe h' (deleteReplicaCreate jobs) (fun _ _ => True)).
  { intros h' Hp. apply IH; [by eapply (grows (P := fun h => upgrading h u cluster))
      |by eapply (grows (P := fun h => finished h u))|].
    intros j Hin. eapply (grows (P := fun h => listed h KJob u j)); [apply Hj; by right|done]. }
  case_bool_decide as Hl; [|by apply Hrest]. apply wps_call_bind. split.
  - exists u, cluster, job. split_and!; try done; [apply Hu..|apply Hj; left].
  - intros r. destruct (IgnoreNotFound (err_of r)); [done|]. by apply Hrest, prefix_app_r.
Qed.

Lemma recordVersion_safe u cluster h : upgrading h u cluster -> finished h u ->
  safe h (recordVersion u cluster) (fun _ _ => True).
Proof.
  intros [Hr Hm] Hf. unfold recordVersion. destruct (cc_PGBackRest cluster) as [status|] eqn:Eb; [|done].
  rewrite wps_ignore. split; [|done]. by exists u, status.
Qed.

Lemma applyRemoveData_safe u cs cluster replicas : forall h, upgrading h u cluster ->
  (exists j, job_completed h u pgUpgrade j) ->
  (forall sts, sts ∈ replicas -> instance_seen h u sts /\ om_Name (st_Meta sts) <> cc_StartupInstance cluster) ->
  safe h (applyRemoveData RELATED_IMAGE_PGUPGRADE (withConditions u cs) replicas) (fun h' _ => h `prefix_of` h').
Proof.
  induction replicas as [|sts replicas IH]; intros h Hu Hj Hs; [by cbn|]. cbn [applyRemoveData]. rewrite wps_bind.
  assert (Hrest : forall h', h `prefix_of` h' -> safe h' (applyRemoveData RELATED_IMAGE_PGUPGRADE (withConditions u cs) replicas)
    (fun h'' _ => h `prefix_of` h'')).
  { intros h' Hp. eapply wps_conseq; [apply IH|by intros h1 r Hp1; transitivity h'].
    - by eapply (grows (P := fun h => upgrading h u cluster)).
    - by eapply (grows (P := fun h => exists j, job_completed h u pgUpgrade j)).
    - intros x Hx. destruct (Hs x) as [Hi Hn]; [by right|]. split; [|done].
      by eapply (grows (P := fun h => instance_seen h u x)). }
  change (generateRemoveDataJob RELATED_IMAGE_PGUPGRADE (withConditions u cs) sts)
    with (generateRemoveDataJob RELATED_IMAGE_PGUPGRADE u sts).
  destruct (generateRemoveDataJob RELATED_IMAGE_PGUPGRADE u sts) as [job|] eqn:Ej; [|by cbn]. unfold applyJob.
  rewrite wps_bind, wps_ignore. destruct (Hs sts) as [Hi Hn]; [left|]. split.
  - exists u, cluster, sts. split_and!; try done; try apply Hu. right. split_and!; [done|by rewrite Ej|done].
  - intros r. destruct r as [o|e]; cbn [wps]; [by apply Hrest, prefix_app_r|by apply prefix_app_r].
Qed.

Lemma deleteEndpoints_safe u cluster l : forall h err, upgrading h u cluster ->
  (forall e, e ∈ l -> listed h KEndpoints u e /\ label (ep_Meta e) LabelUpgradePatroni <> "") ->
  safe h (deleteEndpoints err l) (fun _ _ => True).
Proof.
  induction l as [|e l IH]; intros h err Hu Hl; [done|]. cbn [deleteEndpoints]. apply wps_call_bind.
  destruct (Hl e) as [He Hn]; [left|]. split.
  - exists u, cluster, e. split_and!; try done; apply Hu.
  - intros r. apply IH; [eapply (grows (P := fun h => upgrading h u cluster)); [done|by apply prefix_app_r]|].
    intros x Hx. destruct (Hl x) as [Hi ?]; [by right|]. split; [|done].
    eapply (grows (P := fun h => listed h KEndpoints u x)); [done|by apply prefix_app_r].
Qed.

(** What the world says of the instances and the endpoints. *)
Definition parts_ok (h : history) (u : PGUpgrade) (w : World) (cluster : CrunchyCluster) (primary : StatefulSet) : Prop :=
  (instance_seen h u primary /\ om_Name (st_Meta primary) = cc_StartupInstance cluster) /\
  (forall sts, sts ∈ w_ClusterReplicas w ->
     instance_seen h u sts /\ om_Name (st_Meta sts) <> cc_StartupInstance cluster) /\
  (forall e, e ∈ w_PatroniEndpoints w -> listed h KEndpoints u e /\ label (ep_Meta e) LabelUpgradePatroni <> "").

#[export] Instance grows_parts_ok u w c s : Grows (fun h => parts_ok h u w c s).
Proof. unfold parts_ok. apply _. Qed.

Lemma instanceSts_seen h u (l : list StatefulSet) sts :
  (Ev (ListAll KSts (up_Namespace u) (selectCluster u) : op) (Ok l : result (list StatefulSet)) : event resp) ∈ h ->
  sts ∈ instanceSts l -> instance_seen h u sts.
Proof.
  intros Hl Hin. unfold instanceSts in Hin. apply list_elem_of_In, filter_In in Hin as [Hin Hn].
  split; [by exists l; split; [apply list_elem_of_In|]|]. intros E. by rewrite E in Hn.
Qed.

Lemma world_parts h u w cluster primary : world_ok h u w -> w_Cluster w = Some cluster ->
  w_ClusterPrimary w = Some primary -> parts_ok h u w cluster primary /\ cc_StartupInstance cluster <> "".
Proof.
  intros (_ & He & Hc) Hw Hp. destruct (Hc _ Hw) as (_ & _ & l & Hl & _ & Hprim & Hrep).
  destruct (Hprim _ Hp) as (Hin & Hn & Hs). split; [|done]. split_and!; [by eapply instanceSts_seen|done| |done].
  intros sts Hsts. destruct (Hrep _ Hsts) as [Hi ?]. split; [by eapply instanceSts_seen|done].
Qed.

Lemma runUpgrade_safe u l w cluster primary upgraded removed h :
  upgrading h u cluster -> parts_ok h u w cluster primary ->
  (upgraded = true -> exists j, job_completed h u pgUpgrade j) ->
  safe h (runUpgrade CPUConcurrency RELATED_IMAGE_PGUPGRADE (withConditions u l) w cluster primary upgraded removed)
    (fun h' _ => h `prefix_of` h').
Proof.
  intros Hu Hw Hj. unfold runUpgrade. rewrite wps_bind.
  match goal with |- wps _ _ ?p _ => assert (Hp : safe h p (fun h' _ => h `prefix_of` h')) end.
  { destruct upgraded; simpl negb; cbn iota.
    - destruct removed; simpl negb; cbn iota; [by cbn|]. apply (applyRemoveData_safe u l cluster); [done|by apply Hj|apply Hw].
    - destruct (generateUpgradeJob _ _ _ _ _) as [job|] eqn:Ej; [|by cbn]. unfold applyJob.
      rewrite wps_bind, wps_ignore. split; [|intros r; cbn [wps]; by apply prefix_app_r].
      exists u, cluster, primary. destruct Hw as [[Hi Hn] _]. split_and!; [apply Hu..|done|]. left. split; [done|symmetry; exact Ej]. }
  eapply wps_conseq; [exact Hp|]. clear Hp. intros h1 r Hp1. destruct r as [r|]; [|by cbn].
  destruct (w_PatroniEndpoints w) as [|e endpoints] eqn:Ee; [by cbn|].
  rewrite wps_bind. eapply wps_conseq; [apply wps_prefix, (deleteEndpoints_safe u cluster)|].
  - by eapply (grows (P := fun h => upgrading h u cluster)).
  - intros x Hx. rewrite <- Ee in Hx. destruct Hw as (_ & _ & He). destruct (He x Hx) as [Hi Hn]. split; [|done].
    by eapply (grows (P := fun h => listed h KEndpoints u x)).
  - intros h2 err [Hp2 _]. cbn [wps]. by transitivity h1.
Qed.

(** *** The reconciliation *)
Lemma clusterShutdown_spec cluster : clusterShutdown cluster = true ->
  cc_Shutdown cluster = Some true /\ cc_ObservedGeneration cluster = om_Generation (cc_Meta cluster) /\
  forall set, set ∈ cc_StatusSets cluster -> iss_Replicas set = 0%Z.
Proof.
  unfold clusterShutdown. rewrite !andb_true_iff, forallb_forall. intros [[Hs Hg%bool_decide_eq_true] Hf].
  split_and!; [by destruct (cc_Shutdown cluster) as [[]|]|done|].
  intros set Hin. apply list_elem_of_In, Hf in Hin. by apply bool_decide_eq_true in Hin.
Qed.

(** What holds of the cluster at the check that it is shut down. *)
Definition right_version (h : history) (u : PGUpgrade) (cluster : CrunchyCluster) : Prop :=
  upgrade_read h u /\ (fromVersion u < toVersion u)%Z /\
  pc_PostgresVersion (cc_Config cluster) = fromVersion u /\ cc_StatusVersion cluster <> toVersion u.

Lemma progress_finished h u w cluster p : world_ok h u w -> w_Cluster w = Some cluster -> progress_ok h u w p ->
  pr_UpgradeComplete p = true -> pr_RemoveDataComplete p = true -> finished h u.
Proof.
  intros (_ & _ & Hc) Hw [Hup Hrm] Hu Hr. split; [by apply Hup|].
  destruct (Hc _ Hw) as (_ & _ & l & Hl & Hn & _). destruct (Hrm Hr) as (jobs & Hnd & Hj & Hlen).
  exists jobs, l. split_and!; [done..|lia].
Qed.

Lemma rangeJobs_listed u w h : world_ok h u w ->
  safe h (rangeJobs (w_Jobs w)) (fun h' jobs => h `prefix_of` h' /\ forall job, job ∈ jobs -> listed h' KJob u job).
Proof.
  intros Hw. eapply wps_conseq; [apply rangeJobs_safe; intros; by apply (proj1 Hw)|].
  intros h' jobs [Hp [_ Hj]]. split; [done|]. intros job Hin. destruct (Hj job Hin) as [n Hn].
  eapply (grows (P := fun h => listed h KJob u job)); [by eapply (proj1 Hw)|done].
Qed.

Lemma reconcileShutdown_safe u l w cluster p h :
  conditions_ok u h l -> right_version h u cluster -> world_ok h u w -> w_Cluster w = Some cluster ->
  progress_ok h u w p ->
  safe h (reconcileShutdown CPUConcurrency RELATED_IMAGE_PGUPGRADE (withConditions u l) w cluster p) (outcome_ok u).
Proof.
  intros Hl Hv Hw Hc Hp. unfold reconcileShutdown. destruct (proj2 (proj2 Hw) _ Hc) as (Hseen & Hs & _). rewrite Hs.
  destruct (clusterShutdown cluster) eqn:Esh; [|by apply stop_safe]. apply clusterShutdown_spec in Esh as (Es & Eg & Ei).
  cbn [negb]. apply keep_bind; [done|]. intros h1 l1 Hp1 Hl1. destruct (w_ClusterPrimary w) as [primary|] eqn:Ep; [|by apply stop_safe].
  apply keep_bind; [done|]. intros h2 l2 Hp2 Hl2.
  case_bool_decide as Ha; [|by apply stop_safe]. cbn [negb].
  apply keep_bind; [done|]. intros h3 l3 Hp3 Hl3. assert (Hh : h `prefix_of` h3) by (transitivity h1; [done|by transitivity h2]).
  destruct (world_parts h u w cluster primary Hw Hc Ep) as [Hparts Hst].
  assert (Hu : upgrading h u cluster).
  { destruct Hv as (Hr & Hlt & Hv1 & Hv2). by split. }
  destruct (pr_UpgradeFailed p || pr_RemoveDataFailed p).
  { apply set_bind; [done|done|]. intros h4 l4 _ Hl4. by apply outcome_done. }
  destruct (pr_UpgradeComplete p && pr_RemoveDataComplete p) eqn:Ed.
  - apply andb_true_iff in Ed as [Eu Er]. pose proof (progress_finished h u w cluster p Hw Hc Hp Eu Er) as Hf.
    rewrite wps_bind. eapply wps_conseq; [apply (rangeJobs_listed u); by eapply (grows (P := fun h => world_ok h u w))|].
    intros h4 jobs [Hp4 Hj]. assert (Hh4 : h `prefix_of` h4) by by transitivity h3.
    assert (Hu4 : upgrading h4 u cluster) by by eapply (grows (P := fun h => upgrading h u cluster)).
    assert (Hf4 : finished h4 u) by by eapply (grows (P := fun h => finished h u)).
    rewrite wps_bind, wps_bindr. eapply wps_conseq; [apply wps_prefix, (deleteReplicaCreate_safe u cluster); done|].
    assert (Hend : forall h5 b, h4 `prefix_of` h5 -> outcome_ok u h5 (withConditions u l3, b)).
    { intros h5 b Hp5. apply outcome_done. eapply (grows (P := fun h => conditions_ok u h l3)); [done|by transitivity h4]. }
    intros h5 [[]|e] [Hp5 _]; [|by apply Hend].
    eapply wps_conseq; [apply wps_prefix, (recordVersion_safe u cluster)|].
    + by eapply (grows (P := fun h => upgrading h u cluster)).
    + by eapply (grows (P := fun h => finished h u)).
    + intros h6 r [Hp6 _]. apply Hend. by transitivity h5.
  - rewrite wps_bind. eapply wps_conseq; [apply (runUpgrade_safe u l3)|].
    + by eapply (grows (P := fun h => upgrading h u cluster)).
    + by eapply (grows (P := fun h => parts_ok h u w cluster primary)).
    + intros Hup. eapply (grows (P := fun h => exists j, job_completed h u pgUpgrade j)); [by apply (proj1 Hp)|done].
    + intros h4 r Hp4. apply outcome_done. by eapply (grows (P := fun h => conditions_ok u h l3)).
Qed.

Lemma reconcileCluster_safe u l w cluster h :
  conditions_ok u h l -> upgrade_read h u -> (fromVersion u < toVersion u)%Z -> world_ok h u w ->
  w_Cluster w = Some cluster ->
  safe h (reconcileCluster CPUConcurrency RELATED_IMAGE_PGUPGRADE (withConditions u l) w cluster) (outcome_ok u).
Proof.
  intros Hl Hr Hlt Hw Hc. unfold reconcileCluster. rewrite wps_bind.
  eapply wps_conseq; [by apply (observeProgress_safe u)|]. intros h1 [p|] [Hp1 Hp].
  2: { apply outcome_done. by eapply (grows (P := fun h => conditions_ok u h l)). }
  specialize (Hp p eq_refl). assert (Hl1 : conditions_ok u h1 l) by by eapply (grows (P := fun h => conditions_ok u h l)).
  assert (Hw1 : world_ok h1 u w) by by eapply (grows (P := fun h => world_ok h u w)). cbv zeta.
  destruct (bool_decide _ && _); [by apply stop_safe|].
  apply keep_bind; [done|]. intros h2 l2 Hp2 Hl2. case_bool_decide as Es.
  - apply set_bind; [done|done|]. intros h3 l3 Hp3 Hl3.
    destruct (pr_UpgradeComplete p && pr_RemoveDataComplete p) eqn:Ed; [|by apply outcome_done].
    apply andb_true_iff in Ed as [Eu Er]. apply set_bind; [done| |intros h4 l4 _ Hl4; by apply outcome_done].
    intros _ _. eapply (grows (P := fun h => complete h u)); [|by transitivity h2].
    split; [by eapply (progress_finished h1 u w cluster p)|]. exists cluster. split; [|exact Es].
    by destruct (proj2 (proj2 Hw1) _ Hc).
  - destruct (negb _) eqn:Ev; [by apply stop_safe|]. apply negb_false_iff, bool_decide_eq_true in Ev.
    apply keep_bind; [done|]. intros h3 l3 Hp3 Hl3. assert (Hh : h1 `prefix_of` h3) by by transitivity h2.
    apply reconcileShutdown_safe; [done| |by eapply (grows (P := fun h => world_ok h u w))|done
      |by eapply (grows (P := fun h => progress_ok h u w p))].
    split_and!; [|done..]. eapply (grows (P := fun h => got KPGUpgrade req (Ok u) ∈ h)); [exact Hr|by transitivity h1].
Qed.

Lemma reconcileSpec_safe u h : upgrade_read h u ->
  safe h (reconcileSpec CPUConcurrency RELATED_IMAGE_PGUPGRADE errorText u) (outcome_ok u).
Proof.
  intros Hr. assert (Hl : conditions_ok u h (up_Conditions u)) by (intros c Hf _; by left).
  change u with (withConditions u (up_Conditions u)) at 1. unfold reconcileSpec.
  apply keep_bind; [done|]. intros h1 l1 Hp1 Hl1. case_bool_decide as Hv; [by apply stop_safe|].
  destruct (verifyUpgradeImageValue _ _); [|by apply stop_safe].
  apply keep_bind; [done|]. intros h2 l2 Hp2 Hl2. rewrite wps_bind.
  eapply wps_conseq; [apply (observeWorld_safe u)|]. intros h3 r [Hp3 Hw].
  assert (Hl3 : conditions_ok u h3 l2) by by eapply (grows (P := fun h => conditions_ok u h l2)).
  destruct r as [w|e]; [|apply set_bind; [done|done|]; intros h4 l4 _ Hl4; by apply outcome_done].
  specialize (Hw w eq_refl). apply keep_bind; [done|]. intros h4 l4 Hp4 Hl4.
  destruct (w_ClusterNotFound w); [by apply stop_safe|].
  destruct (w_Cluster w) as [cluster|] eqn:Ec; [|by apply outcome_done].
  apply keep_bind; [done|]. intros h5 l5 Hp5 Hl5. assert (Hh : h3 `prefix_of` h5) by by transitivity h4.
  apply reconcileCluster_safe; [done| | |by eapply (grows (P := fun h => world_ok h u w))|done].
  - eapply (grows (P := fun h => got KPGUpgrade req (Ok u) ∈ h)); [exact Hr|].
    transitivity h1; [done|]. transitivity h2; [done|]. by transitivity h3.
  - assert (Hn : ~ (toVersion u <= fromVersion u)%Z) by exact Hv. lia.
Qed.

(** C16: what an upgrade changes, in every execution, whatever the API server
    answers.  A job is applied only for an instance of a cluster that was read
    shut down, observed, without running instances, annotated for this
    upgrade, configured at the old version and not yet recorded at the new
    one, which is higher: the generated upgrade job for the primary, and the
    job that removes the old data for any other instance, only after a
    completed upgrade job.  The endpoints of Patroni are deleted only then, at
    the version that was listed.  The replica-create backup jobs are deleted
    and the new version recorded, with the repositories reset, only when the
    upgrade job and one job per other instance are complete.  Of the upgrade
    itself only the conditions change, and it becomes successful only when the
    jobs are complete and the cluster was read at the new version. *)
Theorem upgrade_calls :
  wps upgrade_call [] (Reconcile CPUConcurrency RELATED_IMAGE_PGUPGRADE errorText req) (fun _ _ => True).
Proof.
  unfold Reconcile. apply wps_call_bind. split; [done|]. intros [u|e]; [|done].
  set (h := [] ++ _). assert (Hr : upgrade_read h u) by (unfold h; left).
  rewrite wps_bind. eapply wps_conseq with (Q := fun h' r => h `prefix_of` h' /\ outcome_ok u h' r).
  - apply wps_prefix. unfold reconcileUpgrade. destruct (match FindStatusCondition _ _ with Some _ => _ | None => _ end).
    + apply (outcome_done u h (up_Conditions u)). intros c Hf _. by left.
    + by apply reconcileSpec_safe.
  - intros h' [after result] [Hp (l & Ha & Hl)]. simpl in Ha. subst after. case_bool_decide; [done|]. split; [|done].
    split_and!; [by eapply (grows (P := fun h => got KPGUpgrade req (Ok u) ∈ h))|by exists l|exact Hl].
Qed.
End UpgradeCalls.
