(* ===== verification/PerconaUpgrade.v ===== *)
(** * Upgrades of the major version: the Percona controller

    [percona/controller/pgupgrade/controller.go]: it creates the PGUpgrade that
    Upgrade.v reconciles, follows its conditions by pausing and annotating the
    cluster, and gives the cluster its new version and images in the end. *)
From S2P Require Import Prelude GoStrings GoTime Cluster Prog Errors Naming Objects Client Lease BackupUtils.
From S2P Require Import Instances ObservedInstances Upgrade.

Definition perconaAllowUpgrade : string := "pgv2.percona.com/allow-upgrade".
Definition errLegacyUpgradeFinalized : error := Sentinel "legacy upgrade is already finished".

(** [meta.IsNoMatchError] *)
Definition NoMatch : string := "no matches for kind".
Definition IsNoMatchError (e : error) : bool := Is e NoMatch.

Definition pu_Name (u : PerconaPGUpgrade) : string := om_Name (pu_Meta u).
Definition pu_Namespace (u : PerconaPGUpgrade) : string := om_Namespace (pu_Meta u).

(** ** Extensions: [percona/extensions/containers.go], the names of the init
    containers and the mounts *)
Definition RelocatorContainer (postgresVersion : Z) : string := "extension-relocator-" +:+ pretty postgresVersion.
Definition InstallerContainer (postgresVersion : Z) : string := "extension-installer-" +:+ pretty postgresVersion.

Definition extension_VolumeMounts (postgresVersion : Z) : list (string * string) :=
  [("postgres-data", "/usr/pgsql-" +:+ pretty postgresVersion +:+ "/share/extension");
   ("postgres-data", "/usr/pgsql-" +:+ pretty postgresVersion +:+ "/lib")].

Section PerconaUpgrade.
Context `{ControllerRuntime, MetaConditions}.

(** When to come back, in nanoseconds, and the error. *)
Definition Requeue : Type := Z * option error.
Definition later : Requeue := ((5 * second)%Z, None).
Definition finish : Requeue := (0%Z, None).
Definition failed (msg : string) (e : error) : Requeue := (0%Z, Some (Wrap msg e)).

(** ** A PGUpgrade of the former API group *)
Definition legacySucceeded (l : LegacyUpgrade) : bool :=
  match lu_Conditions l with
  | Ok (Some conditions) => existsb (fun c => bool_decide (c = Some "Succeeded")) conditions
  | _ => false
  end.

Definition checkLegacyUpgrade (req : key) : action unit :=
  let! r := call (RESTMapping "postgres-operator.crunchydata.com" "PGUpgrade") in
  match r with
  | Err e => Ret (if IsNoMatchError e then Ok tt else Err (Wrap "discover legacy PGUpgrade GVK" e))
  | Ok _ =>
      let! r := call (Get KLegacyUpgrade req) in
      match r with
      | Err e => Ret (if IsNotFound e then Ok tt else Err (Wrap "get legacy PGUpgrade" e))
      | Ok legacy =>
          match lu_Conditions legacy with
          | Err e => Ret (Err (Wrap "read legacy PGUpgrade status conditions" e))
          | Ok _ => Ret (if legacySucceeded legacy then Err errLegacyUpgradeFinalized else Ok tt)
          end
      end
  end.

(** ** The PGUpgrade *)

(** With custom extensions: init containers for both versions, and the mounts
    of the new one. *)
Definition withExtensions (spec : UpgradeSpec) : UpgradeSpec :=
  fold_left (fun s v => s <| us_InitContainers ::= fun l => l ++ [RelocatorContainer v; InstallerContainer v] |>)
    [us_FromPostgresVersion spec; us_ToPostgresVersion spec] spec
  <| us_VolumeMounts ::= fun l => l ++ extension_VolumeMounts (us_ToPostgresVersion spec) |>.

(** The volume mounts of the Percona object are not copied; [None] is the
    dereference of a nil image. *)
Definition upgradeSpec (cluster : PerconaPGCluster) (u : PerconaPGUpgrade) : option UpgradeSpec :=
  let spec := pu_Spec u <| us_VolumeMounts := [] |> in
  if negb (c_ExtensionStorage cluster) then Some spec
  else match us_Image spec with
       | Some _ => Some (withExtensions spec)
       | None => None
       end.

Definition createPGUpgrade (cluster : PerconaPGCluster) (pgUpgrade : PGUpgrade) (u : PerconaPGUpgrade) : action unit :=
  match upgradeSpec cluster u with
  | None => Ret (Err panic)
  | Some spec => ignore (call (Create KPGUpgrade (pgUpgrade <| up_Spec := spec |>)))
  end.

(** ** The cluster *)
Definition pausedCluster (c : PerconaPGCluster) : PerconaPGCluster := c <| c_Pause := Some true |>.
Definition resumedCluster (c : PerconaPGCluster) : PerconaPGCluster := c <| c_Pause := None |>.

Definition annotatedCluster (c : PerconaPGCluster) (u : PerconaPGUpgrade) : PerconaPGCluster :=
  c <| c_Meta ::= fun m => m <| om_Annotations ::= <[perconaAllowUpgrade := pu_Name u]> |> |>.

(** [None] is a nil dereference: a cluster without a proxy. *)
Definition finalizedCluster (c : PerconaPGCluster) (u : PerconaPGUpgrade) : option PerconaPGCluster :=
  match c_PGBouncer c with
  | None => None
  | Some pgBouncer => Some (
      c <| c_Meta ::= fun m => m <| om_Annotations ::= delete perconaAllowUpgrade |> |>
        <| c_PostgresVersion := us_ToPostgresVersion (pu_Spec u) |>
        <| c_Image := us_ToPostgresImage (pu_Spec u) |>
        <| c_PGBouncer := Some (pgBouncer <| pb_Image := pu_ToPgBouncerImage u |>) |>
        <| c_Backups ::= fun b => b <| bk_Image := pu_ToPgBackRestImage u |> |>)
  end.

Definition pauseCluster (c : PerconaPGCluster) : action unit := ignore (call (Patch KPGCluster c (pausedCluster c))).
Definition resumeCluster (c : PerconaPGCluster) : action unit := ignore (call (Patch KPGCluster c (resumedCluster c))).
Definition annotateCluster (c : PerconaPGCluster) (u : PerconaPGUpgrade) : action unit :=
  ignore (call (Patch KPGCluster c (annotatedCluster c u))).

(** The changed local copy is used afterwards. *)
Definition finalizeUpgrade (c : PerconaPGCluster) (u : PerconaPGUpgrade) : action PerconaPGCluster :=
  match finalizedCluster c u with
  | None => Ret (Err panic)
  | Some c' =>
      let! r := ignore (call (Patch KPGCluster c c')) in
      Ret (match r with Ok _ => Ok c' | Err e => Err e end)
  end.

(** ** The reconciliation *)

(** The deferred update: each retry sends the same object. *)
Definition copyConditions (u : PerconaPGUpgrade) (pgUpgrade : PGUpgrade) : PerconaPGUpgrade :=
  u <| pu_Conditions := up_Conditions pgUpgrade |> <| pu_ObservedGeneration := om_Generation (pu_Meta u) |>.

Definition publishConditions (u : PerconaPGUpgrade) (pgUpgrade : PGUpgrade) : program unit :=
  let! _ := RetryOnConflict (ignore (call (StatusUpdate KPerconaPGUpgrade (copyConditions u pgUpgrade)))) in
  Ret tt.

Definition followSucceeded (c : PerconaPGCluster) (u : PerconaPGUpgrade) (pgUpgrade : PGUpgrade) : program Requeue :=
  match FindStatusCondition (up_Conditions pgUpgrade) ConditionPGUpgradeSucceeded with
  | None => Ret finish
  | Some cond =>
      if bool_decide (cond_Reason cond = "PGUpgradeFailed") then Ret finish
      else if bool_decide (cond_Reason cond = "PGUpgradeSucceeded") then
        let! r := finalizeUpgrade c u in
        match r with
        | Err e => Ret (failed "finalize upgrade" e)
        | Ok c =>
            let! r := resumeCluster c in
            Ret (match r with Err e => failed "resume PGCluster" e | Ok _ => finish end)
        end
      else Ret finish
  end.

Definition followConditions (c : PerconaPGCluster) (u : PerconaPGUpgrade) (pgUpgrade : PGUpgrade) : program Requeue :=
  match FindStatusCondition (up_Conditions pgUpgrade) ConditionPGUpgradeProgressing with
  | None => followSucceeded c u pgUpgrade
  | Some cond =>
      if bool_decide (cond_Status cond = ConditionTrue) then Ret later
      else if bool_decide (cond_Reason cond = "PGUpgradeInvalidForCluster") then Ret finish
      else if bool_decide (cond_Reason cond = "PGClusterNotShutdown") then
        let! r := pauseCluster c in
        Ret (match r with Err e => failed "pause PGCluster" e | Ok _ => later end)
      else if bool_decide (cond_Reason cond = "PGClusterMissingRequiredAnnotation") then
        let! r := annotateCluster c u in
        Ret (match r with Err e => failed "annotate PGCluster" e | Ok _ => later end)
      else followSucceeded c u pgUpgrade
  end.

Definition newPGUpgrade (u : PerconaPGUpgrade) (m : ObjectMeta) : PGUpgrade :=
  mkPGUpgrade m (mkUpgradeSpec (mkMetadata ∅ ∅) "" None 0 0 "" (0%Z, 0%Z) [] [] []) [].

Definition startUpgrade (c : PerconaPGCluster) (u : PerconaPGUpgrade) : program Requeue :=
  match SetControllerReference (pu_Meta u) (emptyMeta (pu_Name u) (pu_Namespace u)) with
  | Err e => Ret (failed "set controller reference" e)
  | Ok m =>
      let! r := createPGUpgrade c (newPGUpgrade u m) u in
      Ret (match r with Err e => failed "create PGUpgrade" e | Ok _ => later end)
  end.

Definition reconcilePerconaUpgrade (u : PerconaPGUpgrade) : program Requeue :=
  let! r := call (Get KPGCluster (pu_Namespace u, us_PostgresClusterName (pu_Spec u))) in
  match r with
  | Err e => Ret (failed "get PerconaPGCluster" e)
  | Ok c =>
      if bool_decide (c_Unmanaged c = Some true) then Ret finish
      else
        let! r := call (Get KPGUpgrade (pu_Namespace u, pu_Name u)) in
        match r with
        | Err e => if IsNotFound e then startUpgrade c u else Ret (failed "get PGUpgrade" e)
        | Ok pgUpgrade =>
            let! r := followConditions c u pgUpgrade in
            let! _ := publishConditions u pgUpgrade in
            Ret r
        end
  end.

Definition PerconaReconcile (req : key) : program Requeue :=
  let! r := call (Get KPerconaPGUpgrade req) in
  match r with
  | Err e => Ret (0%Z, IgnoreNotFound (Some e))
  | Ok u =>
      let! r := checkLegacyUpgrade req in
      match r with
      | Err e =>
          Ret (if Is e "legacy upgrade is already finished" then finish else failed "check legacy upgrade" e)
      | Ok _ => reconcilePerconaUpgrade u
      end
  end.
End PerconaUpgrade.

(** ** The calls of the controller *)
Section PerconaUpgradeCalls.
Context `{ControllerRuntime, MetaConditions} (req : key).

(** No PGUpgrade of the former group is finished. *)
Definition legacy_open (h : history) : Prop :=
  (exists e, IsNoMatchError e = true /\
     (Ev (RESTMapping "postgres-operator.crunchydata.com" "PGUpgrade" : op) (Err e : result unit) : event resp) ∈ h) \/
  (exists e, IsNotFound e = true /\ got KLegacyUpgrade req (Err e) ∈ h) \/
  exists l, got KLegacyUpgrade req (Ok l) ∈ h /\ legacySucceeded l = false.

(** The upgrade and the cluster it is for, which is managed. *)
Definition upgrade_of (h : history) (u : PerconaPGUpgrade) (c : PerconaPGCluster) : Prop :=
  got KPerconaPGUpgrade req (Ok u) ∈ h /\ legacy_open h /\
  got KPGCluster (pu_Namespace u, us_PostgresClusterName (pu_Spec u)) (Ok c) ∈ h /\ c_Unmanaged c <> Some true.

Definition follows (h : history) (u : PerconaPGUpgrade) (pg : PGUpgrade) : Prop :=
  got KPGUpgrade (pu_Namespace u, pu_Name u) (Ok pg) ∈ h.

(** The reason for which a PGUpgrade does not progress. *)
Definition waits_for (pg : PGUpgrade) (reason : string) : Prop :=
  exists cond, FindStatusCondition (up_Conditions pg) ConditionPGUpgradeProgressing = Some cond /\
    cond_Status cond <> ConditionTrue /\ cond_Reason cond = reason.

Definition not_progressing (pg : PGUpgrade) : Prop :=
  forall cond, FindStatusCondition (up_Conditions pg) ConditionPGUpgradeProgressing = Some cond ->
    cond_Status cond <> ConditionTrue.

Definition succeeded (pg : PGUpgrade) : Prop :=
  exists cond, FindStatusCondition (up_Conditions pg) ConditionPGUpgradeSucceeded = Some cond /\
    cond_Reason cond = "PGUpgradeSucceeded".

Definition percona_upgrade_call (h : history) (o : op) : Prop :=
  match o with
  | Get KPerconaPGUpgrade k | Get KLegacyUpgrade k => k = req
  | RESTMapping _ _ | Get KPGCluster _ | Get KPGUpgrade _ => True
  | Create KPGUpgrade pg => exists u c, upgrade_of h u c /\
      (exists e, IsNotFound e = true /\ got KPGUpgrade (pu_Namespace u, pu_Name u) (Err e) ∈ h) /\
      om_Name (up_Meta pg) = pu_Name u /\ om_Namespace (up_Meta pg) = pu_Namespace u /\
      om_Controller (up_Meta pg) = Some (om_UID (pu_Meta u)) /\ upgradeSpec c u = Some (up_Spec pg)
  | Patch KPGCluster c c' => exists u c0 pg, upgrade_of h u c0 /\ follows h u pg /\ not_progressing pg /\
      ((c = c0 /\ c' = pausedCluster c /\ waits_for pg "PGClusterNotShutdown") \/
       (c = c0 /\ c' = annotatedCluster c u /\ waits_for pg "PGClusterMissingRequiredAnnotation") \/
       (c = c0 /\ finalizedCluster c u = Some c' /\ succeeded pg) \/
       (finalizedCluster c0 u = Some c /\ c' = resumedCluster c /\ succeeded pg /\
        exists r, (Ev (Patch KPGCluster c0 c : op) (Ok r : result PerconaPGCluster) : event resp) ∈ h))
  | StatusUpdate KPerconaPGUpgrade u' => exists u c pg, upgrade_of h u c /\ follows h u pg /\ u' = copyConditions u pg
  | _ => False
  end.

Abbreviation safe := (wps percona_upgrade_call).

#[export] Instance grows_upgrade_of u c : Grows (fun h => upgrade_of h u c).
Proof. unfold upgrade_of, legacy_open. apply _. Qed.
#[export] Instance grows_follows u pg : Grows (fun h => follows h u pg).
Proof. unfold follows. apply _. Qed.

Lemma checkLegacyUpgrade_safe h :
  safe h (checkLegacyUpgrade req) (fun h' r => h `prefix_of` h' /\ (r = Ok tt -> legacy_open h')).
Proof.
  apply wps_prefix. unfold checkLegacyUpgrade. apply wps_call_bind. split; [done|].
  change (resp (RESTMapping _ _)) with (result unit). intros [[]|e].
  - apply wps_call_bind. split; [done|]. intros [l|e].
    + destruct (lu_Conditions l) eqn:El; [|done]. destruct (legacySucceeded l) eqn:Es; [done|]. intros _. right. right.
      exists l. split; [apply elem_of_app; right; left|done].
    + destruct (IsNotFound e) eqn:En; [|done]. intros _. right. left. exists e. split; [done|apply elem_of_app; right; left].
  - destruct (IsNoMatchError e) eqn:En; [|done]. intros _. left. exists e. split; [done|apply elem_of_app; right; left].
Qed.

(** The changes that the conditions ask for. *)
Definition followed (h : history) (u : PerconaPGUpgrade) (c : PerconaPGCluster) (pg : PGUpgrade) : Prop :=
  upgrade_of h u c /\ follows h u pg.

#[export] Instance grows_followed u c pg : Grows (fun h => followed h u c pg).
Proof. unfold followed. apply _. Qed.

Lemma followSucceeded_safe h u c pg : followed h u c pg -> not_progressing pg ->
  safe h (followSucceeded c u pg) (fun h' _ => h `prefix_of` h').
Proof.
  intros Hf Hn. unfold followSucceeded. destruct (FindStatusCondition _ _) as [cond|] eqn:Ec; [|by cbn].
  case_bool_decide; [by cbn|]. case_bool_decide as Hs; [|by cbn].
  assert (Hsucc : succeeded pg) by by exists cond.
  rewrite wps_bind. unfold finalizeUpgrade. destruct (finalizedCluster c u) as [c'|] eqn:Ef; [|by cbn].
  rewrite wps_bind, wps_ignore. split.
  - exists u, c, pg. split_and!; [apply Hf..|done|]. right. right. left. done.
  - intros [o|e]; cbn [wps]; [|by apply prefix_app_r]. rewrite wps_bind. unfold resumeCluster. rewrite wps_ignore. split.
    + exists u, c, pg. assert (Hg : followed (h ++ [Ev (Patch KPGCluster c c' : op) (Ok o : result (obj KPGCluster)) : event resp]) u c pg)
        by (eapply (grows (P := fun h => followed h u c pg)); [done|by apply prefix_app_r]).
      split_and!; [apply Hg..|done|]. right. right. right. split_and!; [done|done|done|].
      exists o. apply elem_of_app. right. left.
    + intros [o2|e]; cbn [wps]; (etransitivity; [by apply prefix_app_r|by apply prefix_app_r]).
Qed.

Lemma followConditions_safe h u c pg : followed h u c pg ->
  safe h (followConditions c u pg) (fun h' _ => h `prefix_of` h').
Proof.
  intros Hf. unfold followConditions. destruct (FindStatusCondition _ ConditionPGUpgradeProgressing) as [cond|] eqn:Ec.
  2: { apply followSucceeded_safe; [done|]. intros cond E. congruence. }
  case_bool_decide as Ht; [by cbn|].
  assert (Hn : not_progressing pg) by (intros cond' E; congruence).
  case_bool_decide; [by cbn|].
  case_bool_decide as Hs; [|case_bool_decide as Ha; [|by apply followSucceeded_safe]].
  - rewrite wps_bind. unfold pauseCluster. rewrite wps_ignore. split; [|intros [o|e]; cbn [wps]; by apply prefix_app_r].
    exists u, c, pg. split_and!; [apply Hf..|done|]. left. split_and!; [done|done|by exists cond].
  - rewrite wps_bind. unfold annotateCluster. rewrite wps_ignore. split; [|intros [o|e]; cbn [wps]; by apply prefix_app_r].
    exists u, c, pg. split_and!; [apply Hf..|done|]. right. left. split_and!; [done|done|by exists cond].
Qed.

Lemma startUpgrade_safe h u c e : upgrade_of h u c -> IsNotFound e = true ->
  got KPGUpgrade (pu_Namespace u, pu_Name u) (Err e) ∈ h -> safe h (startUpgrade c u) (fun _ _ => True).
Proof.
  intros Hu He Hg. unfold startUpgrade. destruct (SetControllerReference _ _) as [m|e'] eqn:Em; [|done].
  apply SetControllerReference_spec in Em. rewrite wps_bind. unfold createPGUpgrade.
  destruct (upgradeSpec c u) as [spec|] eqn:Es; [|done]. rewrite wps_ignore. split; [|by intros [?|?]].
  exists u, c. split_and!; [done|by exists e|by subst m|by subst m|by subst m|exact Es].
Qed.

(** C17: what the Percona controller changes for an upgrade, in every execution,
    whatever the API server answers.  Without a managed cluster, or when a
    PGUpgrade of the former API group has finished, nothing.  A PGUpgrade is
    created only when there was none, with the versions and images of the
    Percona object and owned by it.  The cluster is paused, or annotated, only
    when the PGUpgrade waits for that; it gets the new version and images only
    when the PGUpgrade has succeeded and does not progress, and is resumed only
    after that change was made.  The status gets the conditions that were
    read. *)
Theorem percona_upgrade_calls :
  wps percona_upgrade_call [] (PerconaReconcile req) (fun _ _ => True).
Proof.
  unfold PerconaReconcile. apply wps_call_bind. split; [done|]. intros [u|e]; [|done]. set (h := [] ++ _).
  assert (Hr : got KPerconaPGUpgrade req (Ok u) ∈ h) by (unfold h; left).
  rewrite wps_bind. eapply wps_conseq; [apply checkLegacyUpgrade_safe|]. intros h1 r [Hp1 Hl].
  destruct r as [[]|e]; [|by destruct (Is e _)]. specialize (Hl eq_refl). unfold reconcilePerconaUpgrade.
  apply wps_call_bind. split; [done|]. intros [c|e]; [|done]. set (h2 := h1 ++ _). case_bool_decide as Hm; [done|].
  assert (Hu : upgrade_of h2 u c).
  { split_and!; [|eapply (grows (P := legacy_open))|unfold h2; apply elem_of_app; right; left|done].
    - apply (elem_of_grow h); [done|]. etransitivity; [exact Hp1|by apply prefix_app_r].
    - exact Hl.
    - by apply prefix_app_r. }
  apply wps_call_bind. split; [done|]. intros [pg|e].
  - set (h3 := h2 ++ _). assert (Hf : followed h3 u c pg).
    { split; [eapply (grows (P := fun h => upgrade_of h u c)); [done|by apply prefix_app_r]|].
      unfold h3. apply elem_of_app. right. left. }
    rewrite wps_bind. eapply wps_conseq; [by apply followConditions_safe|]. intros h4 r Hp4.
    rewrite wps_bind. unfold publishConditions. rewrite wps_bind. eapply wps_conseq with (Q := fun _ _ => True); [|done].
    apply RetryOnConflict_prefix. intros h5 Hp5. rewrite wps_ignore. split; [|done].
    assert (Hf5 : followed h5 u c pg) by (eapply (grows (P := fun h => followed h u c pg)); [done|by transitivity h4]).
    exists u, c, pg. split_and!; [apply Hf5..|done].
  - destruct (IsNotFound e) eqn:En; [|done]. eapply startUpgrade_safe; [|exact En|apply elem_of_app; right; left].
    eapply (grows (P := fun h => upgrade_of h u c)); [done|by apply prefix_app_r].
Qed.
End PerconaUpgradeCalls.

(** ** The two controllers together *)
Section FailedUpgrade.
Context `{SafeEncode, LabelMatching, MetaConditions, ControllerRuntime}.
Context (CPUConcurrency : bool) (RELATED_IMAGE_PGUPGRADE : string).

(** The condition says that the upgrade progresses. *)
Definition progresses (u : PGUpgrade) : Prop :=
  exists cond, FindStatusCondition (up_Conditions u) ConditionPGUpgradeProgressing = Some cond /\
    cond_Status cond = ConditionTrue.

Definition only_clock (_ : history) (o : op) : Prop := o = Now.

(** [setCondition] for the condition of progress with status true, or for
    another condition. *)
Lemma setCondition_progresses h u type status reason message :
  (type = ConditionPGUpgradeProgressing -> status = ConditionTrue) -> progresses u ->
  wps only_clock h (setCondition u type status reason message)
    (fun _ u' => progresses u' /\ exists l, u' = withConditions u l).
Proof.
  intros Ht Hu. unfold setCondition. apply wps_call_bind. split; [done|]. intros now. cbn [wps].
  split; [|by eexists]. unfold progresses. simpl up_Conditions.
  set (c := mkCondition type status reason message (om_Generation (up_Meta u)) 0).
  destruct (decide (type = ConditionPGUpgradeProgressing)) as [E|E].
  - destruct (SetStatusCondition_same now (up_Conditions u) c) as [t Hs]. unfold c in Hs. simpl cond_Type in Hs.
    rewrite E in Hs. eexists. split; [unfold c; rewrite E; exact Hs|]. by apply Ht.
  - destruct Hu as (cond & Hf & Hc). exists cond. split; [|done]. rewrite SetStatusCondition_other; [exact Hf|].
    simpl. congruence.
Qed.

Lemma keep_progresses h u reason : progresses u ->
  wps only_clock h (setStatusToProgressingIfReasonWas reason u)
    (fun _ u' => progresses u' /\ exists l, u' = withConditions u l).
Proof.
  intros Hu. unfold setStatusToProgressingIfReasonWas. destruct (match FindStatusCondition _ _ with Some _ => _ | None => _ end).
  - by apply setCondition_progresses.
  - split; [exact Hu|]. by exists (up_Conditions u).
Qed.

(** An upgrade whose jobs have failed is not over for the Percona
    controller.  The upstream controller reports the failure in the condition
    Succeeded and leaves Progressing true, as it was; for such conditions the
    Percona controller comes back in five seconds, every time, and its case
    for failed upgrades is not reached. *)
Theorem failed_upgrade_polls (u : PGUpgrade) (w : World) (cluster : CrunchyCluster) (primary : StatefulSet)
    (p : Progress) (h : history) :
  progresses u -> w_ClusterShutdown w = true -> w_ClusterPrimary w = Some primary ->
  annotation (cc_Meta cluster) AnnotationAllowUpgrade = up_Name u ->
  pr_UpgradeFailed p || pr_RemoveDataFailed p = true ->
  wps only_clock h (reconcileShutdown CPUConcurrency RELATED_IMAGE_PGUPGRADE u w cluster p)
    (fun _ r => IsStatusConditionFalse (up_Conditions (fst r)) ConditionPGUpgradeSucceeded = true /\
       snd r = (false, None) /\ forall c pu, followConditions c pu (fst r) = Ret later).
Proof.
  intros Hu Hs Hp Ha Hf. unfold reconcileShutdown. rewrite Hs, Hp, Hf. cbn [negb].
  rewrite wps_bind. eapply wps_conseq; [by apply keep_progresses|]. intros h1 u1 [Hu1 [l1 ->]].
  rewrite wps_bind. eapply wps_conseq; [by apply keep_progresses|]. intros h2 u2 [Hu2 [l2 ->]].
  rewrite bool_decide_eq_true_2 by exact Ha. cbn [negb].
  rewrite wps_bind. eapply wps_conseq; [by apply keep_progresses|]. intros h3 u3 [Hu3 [l3 ->]].
  set (u3 := withConditions _ l3) in *. unfold setCondition. rewrite wps_bind. apply wps_call_bind. split; [done|].
  intros now. cbn [wps done]. unfold done. cbn [wps fst snd].
  set (c := mkCondition ConditionPGUpgradeSucceeded ConditionFalse _ _ _ _). split_and!; [|done|].
  - unfold IsStatusConditionFalse. rewrite IsStatusConditionPresentAndEqual_spec. simpl up_Conditions.
    destruct (SetStatusCondition_same now l3 c) as [t Hsame]. unfold c in *. simpl cond_Type in Hsame. rewrite Hsame.
    by apply bool_decide_eq_true.
  - intros pc pu. destruct Hu3 as (cond & Hfind & Hc). unfold followConditions. simpl up_Conditions.
    rewrite SetStatusCondition_other by done. simpl in Hfind. rewrite Hfind, Hc. done.
Qed.
End FailedUpgrade.

(** ** Examples *)
Module ExampleUpgrade.
Definition meta (name : string) (annotations : gmap string string) : ObjectMeta :=
  ExampleInstances.meta name ∅ annotations.

(** From version 16 to 17, in progress. *)
Definition upgrade : PGUpgrade :=
  mkPGUpgrade (meta "16-to-17" ∅)
    (mkUpgradeSpec (mkMetadata ∅ ∅) "hippo" (Some "upgrade:1") 16 17 "postgres:17" (0%Z, 0%Z) [] [] [])
    [mkCondition ConditionPGUpgradeProgressing ConditionTrue "PGUpgradeProgressing" "" 1 0].

Definition cluster : CrunchyCluster :=
  ExampleInstances.cluster [ExampleInstances.set1 1] <| cc_Meta := meta "hippo" {[AnnotationAllowUpgrade := "16-to-17"]} |>.

(** The primary is known, and the cluster is shut down. *)
Definition world : World :=
  mkWorld (Some cluster) None (Some (ExampleInstances.runner "a")) [] true 0 [] ∅.
End ExampleUpgrade.

#[local] Existing Instance ConcreteRuntime.runtime.
#[local] Existing Instance ListConditions.conditions.
#[local] Existing Instance ConcreteLabels.matching.
#[local] Existing Instance ConcreteEncode.encode.

(** The upgrade job has failed. *)
Lemma failed_upgrade_polls_witness :
  w_ClusterShutdown ExampleUpgrade.world = true /\
  wps only_clock []
    (reconcileShutdown false "" ExampleUpgrade.upgrade ExampleUpgrade.world ExampleUpgrade.cluster
       (mkProgress false true false false))
    (fun _ r => IsStatusConditionFalse (up_Conditions (fst r)) ConditionPGUpgradeSucceeded = true /\
       snd r = (false, None) /\ forall c pu, followConditions c pu (fst r) = Ret later).
Proof.
  split; [reflexivity|].
  apply (failed_upgrade_polls false "" ExampleUpgrade.upgrade ExampleUpgrade.world ExampleUpgrade.cluster
    (ExampleInstances.runner "a")); [|reflexivity|reflexivity|by vm_compute|reflexivity].
  exists (mkCondition ConditionPGUpgradeProgressing ConditionTrue "PGUpgradeProgressing" "" 1 0).
  split; [by vm_compute|reflexivity].
Defined.
