(* ===== verification/PGBackRest.v ===== *)
(** * The configuration of pgBackRest

    [internal/pgbackrest]: the configuration files ([config.go]), the hashes
    by which changes of external repositories are noticed ([util.go]) and the
    creation of stanzas ([pgbackrest.go]). *)
From S2P Require Import Prelude GoStrings Ini Cluster Parameters Prog Errors Naming Objects Client ObservedInstances.

Definition defaultRepo1Path : string := "/pgbackrest/".
Definition CMInstanceKey : string := "pgbackrest_instance.conf".
Definition CMRepoKey : string := "pgbackrest_repo.conf".
Definition configDirectory : string := "/etc/pgbackrest/conf.d".
Definition ConfigHashKey : string := "config-hash".
Definition serverMountPath : string := "/etc/pgbackrest/server".
Definition serverConfigMapKey : string := "pgbackrest-server.conf".

Definition iniGeneratedWarning : string :=
  "# Generated by postgres-operator. DO NOT EDIT UNLESS YOU KNOW WHAT YOU'RE DOING." +:+ char newline +:+
  "# If you want to override the config, annotate this ConfigMap with " +:+ OverrideConfigAnnotation +:+ "=true" +:+
  char newline.

(** ** Certificates: [certificates.go] *)
Definition certAuthorityAbsolutePath : string := configDirectory +:+ "/" +:+ "~postgres-operator/tls-ca.crt".
Definition certClientPrivateKeyAbsolutePath : string := configDirectory +:+ "/" +:+ "~postgres-operator/client-tls.key".
Definition certClientAbsolutePath : string := configDirectory +:+ "/" +:+ "~postgres-operator/client-tls.crt".
Definition certServerPrivateKeyAbsolutePath : string := serverMountPath +:+ "/" +:+ "server-tls.key".
Definition certServerAbsolutePath : string := serverMountPath +:+ "/" +:+ "server-tls.crt".

Definition clientCommonName (m : ObjectMeta) : string := "pgbackrest@" +:+ om_UID m.

(** [naming.PGBackRestPGDataLogPath] and [naming.PGBackRestRepoLogPath] *)
Definition PGBackRestPGDataLogPath : string := "/pgdata/pgbackrest/log".
Definition PGBackRestRepoLogPath (repo : string) : string := "/pgbackrest/" +:+ repo +:+ "/log".

(** [postgres.DataDirectory] *)
Definition DataDirectory (cluster : PostgresCluster) : string := "/pgdata/pg" +:+ pretty (pc_PostgresVersion cluster).

(** ** The files: [config.go] *)
Definition getExternalRepoConfigs (repo : PGBackRestRepo) : gmap string string :=
  match repo_Azure repo, repo_GCS repo, repo_S3 repo with
  | Some container, _, _ =>
      {[repo_Name repo +:+ "-type" := "azure"; repo_Name repo +:+ "-azure-container" := container]}
  | None, Some bucket, _ =>
      {[repo_Name repo +:+ "-type" := "gcs"; repo_Name repo +:+ "-gcs-bucket" := bucket]}
  | None, None, Some s3 =>
      {[repo_Name repo +:+ "-type" := "s3"; repo_Name repo +:+ "-s3-bucket" := s3_Bucket s3;
        repo_Name repo +:+ "-s3-endpoint" := s3_Endpoint s3; repo_Name repo +:+ "-s3-region" := s3_Region s3]}
  | None, None, None => ∅
  end.

Definition isVolume (repo : PGBackRestRepo) : bool := bool_decide (is_Some (repo_Volume repo)).

(** What both kinds of hosts get of a repository. *)
Definition setRepo (global : iniMultiSet) (repo : PGBackRestRepo) : iniMultiSet :=
  let global := ini_Set (repo_Name repo +:+ "-path") [defaultRepo1Path +:+ repo_Name repo] global in
  if isVolume repo then global else ini_SetAll (getExternalRepoConfigs repo) global.

Definition host_options (repo : PGBackRestRepo) (repoHostFQDN : string) : list (string * string) :=
  [(repo_Name repo +:+ "-host", repoHostFQDN); (repo_Name repo +:+ "-host-type", "tls");
   (repo_Name repo +:+ "-host-ca-file", certAuthorityAbsolutePath);
   (repo_Name repo +:+ "-host-cert-file", certClientAbsolutePath);
   (repo_Name repo +:+ "-host-key-file", certClientPrivateKeyAbsolutePath);
   (repo_Name repo +:+ "-host-user", "postgres")].

Definition setInstanceRepo (repoHostName repoHostFQDN : string) (global : iniMultiSet) (repo : PGBackRestRepo) : iniMultiSet :=
  let global := setRepo global repo in
  if nonempty repoHostName && isVolume repo then setEach (host_options repo repoHostFQDN) global else global.

(** The name of a pod behind the service of the pods. *)
Definition podFQDN (cname : option string) (dnsSuffix serviceName serviceNamespace instance : string) : string :=
  instance +:+ "-0." +:+ serviceName +:+ "." +:+ serviceNamespace +:+ ".svc." +:+ KubernetesClusterDomain cname dnsSuffix.

Section Files.
(** The answer of [net.LookupCNAME], the suffix of the specification, and the
    service of the pods. *)
Context (cname : option string) (dnsSuffix serviceName serviceNamespace pgdataDir : string) (pgPort : Z).
Context (repos : list PGBackRestRepo) (globalConfig : gmap string string) (walEncryption : bool).

Definition instance_options : list (string * string) :=
  [("spool-path", "/pgdata/pgbackrest-spool"); ("log-path", PGBackRestPGDataLogPath)] ++
  (if walEncryption then [("archive-async", "n"); ("checksum-page", "n"); ("archive-header-check", "n")]
   else [("archive-async", "y")]).

Definition populatePGInstanceConfigurationMap (repoHostName : string) : iniSectionSet :=
  let repoHostFQDN := podFQDN cname dnsSuffix serviceName serviceNamespace repoHostName in
  let global := setEach instance_options ∅ in
  let global := fold_left (setInstanceRepo repoHostName repoHostFQDN) repos global in
  let global := ini_SetAll globalConfig global in
  let stanza := setEach [("pg1-path", pgdataDir); ("pg1-port", pretty pgPort); ("pg1-socket-path", SocketDirectory)] ∅ in
  {["global" := global; DefaultStanzaName := stanza]}.

(** The log goes to the first volume. *)
Definition setHostRepo (s : iniMultiSet * bool) (repo : PGBackRestRepo) : iniMultiSet * bool :=
  let global := setRepo (fst s) repo in
  if negb (snd s) && isVolume repo then (ini_Set "log-path" [PGBackRestRepoLogPath (repo_Name repo)] global, true)
  else (global, snd s).

Definition pg_key (i : nat) (suffix : string) : string := "pg" +:+ pretty (S i) +:+ suffix.

Definition pg_options (i : nat) (pgHost : string) : list (string * string) :=
  [(pg_key i "-host", podFQDN cname dnsSuffix serviceName serviceNamespace pgHost); (pg_key i "-host-type", "tls");
   (pg_key i "-host-ca-file", certAuthorityAbsolutePath); (pg_key i "-host-cert-file", certClientAbsolutePath);
   (pg_key i "-host-key-file", certClientPrivateKeyAbsolutePath);
   (pg_key i "-path", pgdataDir); (pg_key i "-port", pretty pgPort); (pg_key i "-socket-path", SocketDirectory)].

Definition populateRepoHostConfigurationMap (pgHosts : list string) : iniSectionSet :=
  let '(global, pgBackRestLogPathSet) := fold_left setHostRepo repos (∅, false) in
  let global := if pgBackRestLogPathSet then global else ini_Set "log-level-file" ["off"] global in
  let global := if walEncryption then setEach [("checksum-page", "n"); ("archive-header-check", "n")] global else global in
  let global := ini_SetAll globalConfig global in
  let stanza := setEach (concat (imap pg_options pgHosts)) ∅ in
  {["global" := global; DefaultStanzaName := stanza]}.
End Files.

(** The value of [strings.EqualFold] for a lower-case word. *)
Definition serverConfig (m : ObjectMeta) : iniSectionSet :=
  let global := ini_Set "tls-server-address" ["0.0.0.0"] ∅ in
  let global := if bool_decide (ToLower (annotation m PGBackRestIPVersion) = "ipv6")
                then ini_Set "tls-server-address" ["::"] global else global in
  let global := ini_Add "tls-server-auth" (clientCommonName m +:+ "=*") global in
  let global := setEach [("tls-server-ca-file", certAuthorityAbsolutePath); ("tls-server-cert-file", certServerAbsolutePath);
                         ("tls-server-key-file", certServerPrivateKeyAbsolutePath)] global in
  let server := setEach [("log-level-console", "detail"); ("log-level-stderr", "error"); ("log-level-file", "off");
                         ("log-timestamp", "n")] ∅ in
  {["global" := global; "global:server" := server]}.

Section ConfigMap.
Context `{GoVersion, LabelMatching}.

(** [None] is a nil dereference: the API has a default for the port. *)
Definition CreatePGBackRestConfigMapIntent (cname : option string) (postgresCluster : CrunchyCluster)
    (repoHostName configHash serviceName serviceNamespace : string) (instanceNames : list string) : option DataObject :=
  let cluster := config postgresCluster in
  let archive := cc_Backups postgresCluster in
  let nm := PGBackRestConfig cluster in
  let annotations := Merge [md_Annotations (cc_Metadata postgresCluster); md_Annotations (pa_Metadata archive)] in
  let labels := Merge [md_Labels (cc_Metadata postgresCluster); md_Labels (pa_Metadata archive);
                       WithPerconaLabels (PGBackRestConfigLabels (pc_Name cluster)) (pc_Name cluster) ""
                         (default "" (pc_Labels cluster !! LabelVersion))] in
  pgPort ← cc_Port postgresCluster;
  let instance := populatePGInstanceConfigurationMap cname (cc_DNSSuffix postgresCluster) serviceName serviceNamespace
    (DataDirectory cluster) pgPort (pa_Repos archive) (pa_Global archive)
    (ext_PGTDE_WALEncryption (pc_Extensions cluster)) repoHostName in
  let host := populateRepoHostConfigurationMap cname (cc_DNSSuffix postgresCluster) serviceName serviceNamespace
    (DataDirectory cluster) pgPort (pa_Repos archive) (pa_Global archive)
    (ext_PGTDE_WALEncryption (pc_Extensions cluster)) instanceNames in
  let data : gmap string string := {[CMInstanceKey := iniGeneratedWarning +:+ sections_String instance; serverConfigMapKey := ""]} in
  let data : gmap string string := if nonempty repoHostName
              then <[serverConfigMapKey := iniGeneratedWarning +:+ sections_String (serverConfig (cc_Meta postgresCluster))]>
                     (<[CMRepoKey := iniGeneratedWarning +:+ sections_String host]> data)
              else data in
  Some (mkData (mkMeta (meta_Name nm) (meta_Namespace nm) "" "" 0 0 None labels annotations [] None "")
          (<[ConfigHashKey := configHash]> data)).
End ConfigMap.

Definition RepoHostVolumeDefined (repos : list PGBackRestRepo) : bool := existsb isVolume repos.

(** The path in [MakePGBackrestLogDir] *)
Definition pgBackRestLogPath (repos : list PGBackRestRepo) : string :=
  match List.find isVolume repos with
  | Some repo => PGBackRestRepoLogPath (repo_Name repo)
  | None => ""
  end.

(** ** Hashes of external repositories: [util.go] *)
Definition maxPGBackrestRepos : nat := 4.

Section Hashes.
Context `{SafeEncode}.

(** [safeHash32] of what is written; a hash has no error to return. *)
Definition safeHash32 (content : list string) : string := SafeEncodeString (pretty (fnv32 (Concat content))).

Definition repoHash (repo : PGBackRestRepo) : option string :=
  match repo_Azure repo, repo_GCS repo, repo_S3 repo with
  | Some container, _, _ => Some (safeHash32 [container])
  | None, Some bucket, _ => Some (safeHash32 [bucket])
  | None, None, Some s3 => Some (safeHash32 [s3_Bucket s3; s3_Endpoint s3; s3_Region s3])
  | None, None, None => None
  end.

Fixpoint repoHashes (repos : list PGBackRestRepo) (hashes : gmap string string) : result (gmap string string) :=
  match repos with
  | [] => Ok hashes
  | repo :: repos =>
      if isVolume repo then repoHashes repos hashes
      else match repoHash repo with
           | None => Err (New "found unexpected repo type")
           | Some hash => repoHashes repos (<[repo_Name repo := hash]> hashes)
           end
  end.

Definition configNames : list string := map (fun i => "repo" +:+ pretty (S i)) (seq 0 maxPGBackrestRepos).

(** Each repository's hash, and the hash of the hashes. *)
Definition CalculateConfigHashes (repos : list PGBackRestRepo) : result (gmap string string * string) :=
  match repoHashes repos ∅ with
  | Err e => Err e
  | Ok hashes => Ok (hashes, safeHash32 (omap (fun name => hashes !! name) configNames))
  end.
End Hashes.

(** ** Stanzas: [pgbackrest.go] *)
Definition errMsgConfigHashMismatch : string := "postgres operator error: pgBackRest config hash mismatch".
Definition errMsgStaleReposWithVolumesConfig : string :=
  "postgres operator error: pgBackRest stale volume-backed repo configuration".

Definition stanzaScript : string := Join [
  "";
  sh "declare -r hash=`$1` stanza=`$2` hash_msg=`$3` vol_msg=`$4` check_repo_cmd=`$5`";
  sh "if [[ `$(< /etc/pgbackrest/conf.d/config-hash)` != `${hash}` ]]; then";
  sh "    printf >&2 `%s` `${hash_msg}`; exit 1;";
  sh "elif ! bash -c `${check_repo_cmd}`; then";
  " " +:+ char "009" +:+ sh " printf >&2 `%s` `${vol_msg}`; exit 1;";
  "else";
  sh "    pgbackrest stanza-create --stanza=`${stanza}` || pgbackrest stanza-upgrade --stanza=`${stanza}`";
  "fi";
  ""] (char newline).

Definition checkRepoCmd (repos : list PGBackRestRepo) : string :=
  Join (map (fun repo => "grep " +:+ repo_Name repo +:+ "-path /etc/pgbackrest/conf.d/pgbackrest_instance.conf")
         (List.filter isVolume repos)) " && ".

Definition stanzaCommand (configHash : string) (repos : list PGBackRestRepo) : list string :=
  ["bash"; "-ceu"; "--"; stanzaScript; "-"; configHash; DefaultStanzaName; errMsgConfigHashMismatch;
   errMsgStaleReposWithVolumesConfig; checkRepoCmd repos].

(** Whether the configuration in the pod is stale, or the error. *)
Definition stanzaResult (out : ExecOutput) : result bool :=
  match out_Err out with
  | None => Ok false
  | Some err =>
      let errReturn := out_Stdout out +:+ " " +:+ out_Stderr out in
      if bool_decide (errReturn = errMsgConfigHashMismatch) then Ok true
      else if bool_decide (errReturn = errMsgStaleReposWithVolumesConfig) then Ok true
      else Err (Wrap errReturn err)
  end.

Definition StanzaCreateOrUpgrade (pod : key) (configHash : string) (repos : list PGBackRestRepo) : action bool :=
  let! out := call (Exec pod "database" None (stanzaCommand configHash repos)) in Ret (stanzaResult out).

Definition archivePushScript : string := Join [
  "";
  "set -eu";
  "";
  sh "if [ -z `${PGDATA:-}` ]; then";
  sh "    echo `PGDATA is not set; skipping history file recovery` >&2";
  "    exit 0";
  "fi";
  "";
  "# Use -L so find follows the pg_wal symlink ($PGDATA/pg_wal -> /pgdata/<cluster>_wal).";
  "# Use a temp file to avoid running the push loop in a subshell where set -e is ineffective.";
  "tmplist=$(mktemp)";
  sh "find -L `${PGDATA}/pg_wal` -maxdepth 1 -name '*.history' 2>/dev/null | sort > `${tmplist}`";
  "";
  sh "if [ ! -s `${tmplist}` ]; then";
  sh "    rm -f `${tmplist}`";
  "    exit 0";
  "fi";
  "";
  sh "echo `history files to push:`";
  sh "cat `${tmplist}`";
  "";
  "push_failed=0";
  "while IFS= read -r f; do";
  sh "    if pgbackrest --stanza=db --log-level-console=info archive-push --no-archive-async `${f}`; then";
  sh "        echo `pushed ${f}`";
  "    else";
  sh "        echo `FAILED to push ${f}` >&2";
  "        push_failed=1";
  "    fi";
  sh "done < `${tmplist}`";
  sh "rm -f `${tmplist}`";
  "";
  sh "[ `${push_failed}` -eq 0 ] || exit 1";
  ""] (char newline).

(** The combined output, and the error. *)
Definition ArchivePushHistoryFiles (pod : key) : program (string * option error) :=
  let! out := call (Exec pod "database" None ["bash"; "-ceu"; "--"; archivePushScript]) in
  let combined := out_Stdout out +:+
    (if nonempty (out_Stderr out) then char newline +:+ "stderr: " +:+ out_Stderr out else "") in
  Ret (combined, Wrap combined <$> out_Err out).

(** ** Options of a repository

    The names that the API admits are [repo1] to [repo4], and the keys of a
    repository are its name before one of these suffixes. *)
Definition external_suffixes (repo : PGBackRestRepo) : list (string * string) :=
  match repo_Azure repo, repo_GCS repo, repo_S3 repo with
  | Some container, _, _ => [("-type", "azure"); ("-azure-container", container)]
  | None, Some bucket, _ => [("-type", "gcs"); ("-gcs-bucket", bucket)]
  | None, None, Some s3 =>
      [("-type", "s3"); ("-s3-bucket", s3_Bucket s3); ("-s3-endpoint", s3_Endpoint s3); ("-s3-region", s3_Region s3)]
  | None, None, None => []
  end.

Definition path_suffixes (repo : PGBackRestRepo) : list (string * string) :=
  ("-path", defaultRepo1Path +:+ repo_Name repo) :: if isVolume repo then [] else external_suffixes repo.

Definition host_suffixes (fqdn : string) : list (string * string) :=
  [("-host", fqdn); ("-host-type", "tls"); ("-host-ca-file", certAuthorityAbsolutePath);
   ("-host-cert-file", certClientAbsolutePath); ("-host-key-file", certClientPrivateKeyAbsolutePath);
   ("-host-user", "postgres")].

Definition instance_suffixes (repoHostName fqdn : string) (repo : PGBackRestRepo) : list (string * string) :=
  path_suffixes repo ++ if nonempty repoHostName && isVolume repo then host_suffixes fqdn else [].

Definition prefixed (name : string) (l : list (string * string)) : list (string * string) :=
  map (fun kv => (name +:+ kv.1, kv.2)) l.

(** The order of the repositories decides who sets the path of the log. *)
Fixpoint log_options (done : bool) (repos : list PGBackRestRepo) : list (string * string) :=
  match repos with
  | [] => []
  | repo :: repos =>
      prefixed (repo_Name repo) (path_suffixes repo) ++
      (if negb done && isVolume repo then [("log-path", PGBackRestRepoLogPath (repo_Name repo))] else []) ++
      log_options (done || isVolume repo) repos
  end.

Lemma getExternalRepoConfigs_list repo :
  getExternalRepoConfigs repo = list_to_map (prefixed (repo_Name repo) (external_suffixes repo)).
Proof.
  unfold getExternalRepoConfigs, external_suffixes. by destruct (repo_Azure repo), (repo_GCS repo), (repo_S3 repo).
Qed.

Lemma external_suffixes_NoDup repo : NoDup (map fst (external_suffixes repo)).
Proof.
  unfold external_suffixes. destruct (repo_Azure repo), (repo_GCS repo), (repo_S3 repo); simpl;
    apply (bool_decide_eq_true_1 (NoDup _)); by vm_compute.
Qed.

Lemma prefixed_NoDup name l : NoDup (map fst l) -> NoDup (map fst (prefixed name l)).
Proof.
  intros Hl. unfold prefixed. rewrite map_map. change (map _ l) with (map (fun kv : string * string => name +:+ kv.1) l).
  rewrite <- (map_map fst (fun k => name +:+ k)). apply (NoDup_fmap_2_strong (fun k => name +:+ k)); [|done].
  intros x y _ _. apply app_inj_l_str.
Qed.

Lemma setRepo_list global repo : setRepo global repo = setEach (prefixed (repo_Name repo) (path_suffixes repo)) global.
Proof.
  unfold setRepo, path_suffixes. destruct (isVolume repo); [done|].
  rewrite getExternalRepoConfigs_list, ini_SetAll_list; [done|]. apply prefixed_NoDup, external_suffixes_NoDup.
Qed.

Lemma setInstanceRepo_list host fqdn global repo :
  setInstanceRepo host fqdn global repo =
  setEach (prefixed (repo_Name repo) (instance_suffixes host fqdn repo)) global.
Proof.
  unfold setInstanceRepo, instance_suffixes. rewrite setRepo_list.
  destruct (nonempty host && isVolume repo); [|by rewrite app_nil_r].
  unfold prefixed. by rewrite map_app, setEach_app.
Qed.

Lemma setInstanceRepo_fold host fqdn repos global :
  fold_left (setInstanceRepo host fqdn) repos global =
  setEach (flat_map (fun r => prefixed (repo_Name r) (instance_suffixes host fqdn r)) repos) global.
Proof.
  revert global. induction repos as [|r l IH]; intros global; [done|].
  cbn [fold_left flat_map]. by rewrite setInstanceRepo_list, IH, setEach_app.
Qed.

Lemma setHostRepo_list repos global b :
  fold_left setHostRepo repos (global, b) = (setEach (log_options b repos) global, b || existsb isVolume repos).
Proof.
  revert global b. induction repos as [|repo repos IH]; intros global b;
    cbn [fold_left log_options existsb]; [by rewrite orb_false_r|].
  unfold setHostRepo at 2. cbn [fst snd]. rewrite setRepo_list, !setEach_app.
  generalize (prefixed (repo_Name repo) (path_suffixes repo)) as p. intros p.
  destruct b, (isVolume repo); simpl; by rewrite IH.
Qed.

Lemma elem_of_prefixed name l k v : (k, v) ∈ prefixed name l <-> exists s, k = name +:+ s /\ (s, v) ∈ l.
Proof.
  unfold prefixed. rewrite list_elem_of_fmap. split; [intros ([s w] & E & Hin); simpl in E; simplify_eq; by exists s|].
  intros (s & -> & Hin). by exists (s, v).
Qed.

Lemma valid_name_length n : n ∈ configNames -> String.length n = 5%nat /\ HasPrefix n "repo" = true.
Proof. change configNames with ["repo1"; "repo2"; "repo3"; "repo4"]. set_solver. Qed.

Lemma valid_name_keys n m s t : n ∈ configNames -> m ∈ configNames -> n +:+ s = m +:+ t -> n = m /\ s = t.
Proof.
  intros [Hn _]%valid_name_length [Hm _]%valid_name_length E. apply app_inj_length_str; [|done].
  apply (f_equal String.length) in E. rewrite !length_app_str in E. lia.
Qed.

(** A suffix has one value. *)
Definition functional (l : list (string * string)) : Prop := NoDup (map fst l).

Lemma functional_unique l s v w : functional l -> (s, v) ∈ l -> (s, w) ∈ l -> v = w.
Proof.
  intros Hl Hv Hw. apply (elem_of_list_to_map_1 (M := gmap string)) in Hv, Hw; [by simplify_eq|done..].
Qed.

Lemma instance_suffixes_functional host fqdn repo : functional (instance_suffixes host fqdn repo).
Proof.
  unfold functional, instance_suffixes, path_suffixes, external_suffixes, host_suffixes.
  destruct (isVolume repo), (repo_Azure repo), (repo_GCS repo), (repo_S3 repo), (nonempty host); simpl;
    apply (bool_decide_eq_true_1 (NoDup _)); by vm_compute.
Qed.

(** ** What the files hold *)
Lemma NoDup_map_unique {A B} (f : A -> B) (l : list A) x y : NoDup (map f l) -> x ∈ l -> y ∈ l -> f x = f y -> x = y.
Proof.
  intros Hnd [i Hi]%list_elem_of_lookup_1 [j Hj]%list_elem_of_lookup_1 E.
  assert (i = j) as ->; [|congruence].
  eapply (NoDup_lookup _ i j (f x) Hnd); rewrite list_lookup_fmap; [by rewrite Hi|by rewrite Hj, E].
Qed.

Section Contents.
Context (cname : option string) (dnsSuffix serviceName serviceNamespace : string).
Context (repos : list PGBackRestRepo) (walEncryption : bool).
Hypothesis Hnames : forall r, r ∈ repos -> repo_Name r ∈ configNames.
Hypothesis Hnd : NoDup (map repo_Name repos).

Let fqdn := podFQDN cname dnsSuffix serviceName serviceNamespace.

Definition instance_list (repoHostName : string) : list (string * string) :=
  instance_options walEncryption ++
  flat_map (fun r => prefixed (repo_Name r) (instance_suffixes repoHostName (fqdn repoHostName) r)) repos.

Definition repo_host_list : list (string * string) :=
  log_options false repos ++ (if existsb isVolume repos then [] else [("log-level-file", "off")]) ++
  (if walEncryption then [("checksum-page", "n"); ("archive-header-check", "n")] else []).

Lemma instance_global pgdataDir pgPort globalConfig repoHostName :
  populatePGInstanceConfigurationMap cname dnsSuffix serviceName serviceNamespace pgdataDir pgPort repos globalConfig
    walEncryption repoHostName !! "global" = Some (ini_SetAll globalConfig (setEach (instance_list repoHostName) ∅)).
Proof.
  unfold populatePGInstanceConfigurationMap. cbv zeta. rewrite lookup_insert, decide_True by done.
  do 2 f_equal. unfold instance_list. rewrite setEach_app. by rewrite setInstanceRepo_fold.
Qed.

Lemma host_global pgdataDir pgPort globalConfig pgHosts :
  populateRepoHostConfigurationMap cname dnsSuffix serviceName serviceNamespace pgdataDir pgPort repos globalConfig
    walEncryption pgHosts !! "global" = Some (ini_SetAll globalConfig (setEach repo_host_list ∅)).
Proof.
  unfold populateRepoHostConfigurationMap, repo_host_list. rewrite setHostRepo_list. cbn [orb].
  rewrite lookup_insert, decide_True by done. do 2 f_equal. rewrite !setEach_app.
  by destruct (existsb isVolume repos), walEncryption.
Qed.

Lemma instance_options_keys k v : (k, v) ∈ instance_options walEncryption -> HasPrefix k "repo" = false.
Proof.
  assert (Hf : Forall (fun kv => HasPrefix kv.1 "repo" = false) (instance_options walEncryption)).
  { by destruct walEncryption; repeat constructor. }
  rewrite Forall_forall in Hf. apply (Hf (k, v)).
Qed.

Lemma name_prefix n s : n ∈ configNames -> HasPrefix (n +:+ s) "repo" = true.
Proof.
  intros [_ Hn]%valid_name_length. apply HasPrefix_spec in Hn as [t ->]. rewrite app_assoc_str. apply HasPrefix_app.
Qed.

(** What is said of the repositories, where one list of suffixes goes with each. *)
Definition says (f : PGBackRestRepo -> list (string * string)) (k v : string) : Prop :=
  exists r s, r ∈ repos /\ k = repo_Name r +:+ s /\ (s, v) ∈ f r.

Lemma says_unique f k v w : (forall r, functional (f r)) -> says f k v -> says f k w -> v = w.
Proof.
  intros Hf (r & s & Hr & -> & Hs) (r' & s' & Hr' & E & Hs').
  apply valid_name_keys in E as [E ->]; [|by apply Hnames..].
  rewrite (NoDup_map_unique repo_Name repos r' r) in Hs' by done. by eapply functional_unique.
Qed.

Lemma says_prefix f k v : says f k v -> HasPrefix k "repo" = true.
Proof. intros (r & s & Hr & -> & _). by apply name_prefix, Hnames. Qed.

Lemma elem_of_instance_list h k v : HasPrefix k "repo" = true ->
  (k, v) ∈ instance_list h <-> says (instance_suffixes h (fqdn h)) k v.
Proof.
  intros Hk. unfold instance_list. rewrite elem_of_app. split.
  - intros [Hin|Hin]; [apply instance_options_keys in Hin; congruence|].
    apply list_elem_of_In, in_flat_map in Hin as (r & Hr & Hin). apply list_elem_of_In in Hr, Hin.
    apply elem_of_prefixed in Hin as (s & -> & Hin). by exists r, s.
  - intros (r & s & Hr & -> & Hs). right. apply list_elem_of_In, in_flat_map. exists r.
    split; apply list_elem_of_In; [done|]. apply elem_of_prefixed. by exists s.
Qed.

Lemma elem_of_log_options b k v : HasPrefix k "repo" = true ->
  (k, v) ∈ log_options b repos <-> exists r s, r ∈ repos /\ k = repo_Name r +:+ s /\ (s, v) ∈ path_suffixes r.
Proof.
  intros Hk. clear Hnames Hnd. revert b. induction repos as [|r l IH]; intros b; cbn [log_options].
  { split; [by intros ?%elem_of_nil|by intros (? & ? & ?%elem_of_nil & _)]. }
  rewrite !elem_of_app, IH, elem_of_prefixed. split.
  - intros [(s & -> & Hs)|[Hlog|(r' & s & Hr & -> & Hs)]]; [exists r, s; by split; [left|]| |exists r', s; by split; [right|]].
    destruct (negb b && isVolume r); [|by apply elem_of_nil in Hlog]. apply list_elem_of_singleton in Hlog. by simplify_eq.
  - intros (r' & s & [->|Hr]%elem_of_cons & -> & Hs); [left; by exists s|right; right; by exists r', s].
Qed.

Lemma elem_of_repo_host_list k v : HasPrefix k "repo" = true -> (k, v) ∈ repo_host_list <-> says path_suffixes k v.
Proof.
  intros Hk. unfold repo_host_list. rewrite !elem_of_app, elem_of_log_options by done. split; [|tauto].
  intros [?|[Hin|Hin]]; [done|..].
  - destruct (existsb isVolume repos); [by apply elem_of_nil in Hin|]. apply list_elem_of_singleton in Hin. by simplify_eq.
  - destruct walEncryption; [|by apply elem_of_nil in Hin].
    rewrite !elem_of_cons in Hin. destruct Hin as [?|[?|Hin]]; [by simplify_eq..|by apply elem_of_nil in Hin].
Qed.

Lemma path_suffixes_functional r : functional (path_suffixes r).
Proof.
  pose proof (instance_suffixes_functional "" "" r) as H. unfold instance_suffixes in H. cbn [nonempty andb] in H.
  by rewrite app_nil_r in H.
Qed.

(** Options of a repository that are there and that are not. *)
Lemma instance_option h k v : says (instance_suffixes h (fqdn h)) k v -> setEach (instance_list h) ∅ !! k = Some [v].
Proof.
  intros Hs. pose proof (says_prefix _ _ _ Hs) as Hk. apply setEach_unique; [by apply elem_of_instance_list|].
  intros w Hw%elem_of_instance_list; [|done]. eapply says_unique; [|done|done]. apply instance_suffixes_functional.
Qed.

Lemma host_option k v : says path_suffixes k v -> setEach repo_host_list ∅ !! k = Some [v].
Proof.
  intros Hs. pose proof (says_prefix _ _ _ Hs) as Hk. apply setEach_unique; [by apply elem_of_repo_host_list|].
  intros w Hw%elem_of_repo_host_list; [|done]. eapply says_unique; [|done|done]. apply path_suffixes_functional.
Qed.

Lemma options_agree h k : HasPrefix k "repo" = true ->
  (forall r, r ∈ repos -> HasPrefix k (repo_Name r +:+ "-host") = false) ->
  setEach (instance_list h) ∅ !! k = setEach repo_host_list ∅ !! k.
Proof.
  intros Hk Hh. destruct (setEach_cases repo_host_list ∅ k) as [(v & Hin & ->)|[Hn ->]].
  - apply elem_of_repo_host_list in Hin; [|done]. apply instance_option.
    destruct Hin as (r & s & Hr & -> & Hs). exists r, s. split_and!; [done..|]. apply elem_of_app. by left.
  - destruct (setEach_cases (instance_list h) ∅ k) as [(v & Hin & Hv)|[_ ->]]; [|done].
    exfalso. apply elem_of_instance_list in Hin; [|done]. destruct Hin as (r & s & Hr & -> & Hs).
    apply elem_of_app in Hs as [Hs|Hs].
    + apply Hn, list_elem_of_fmap. exists (repo_Name r +:+ s, v). split; [done|].
      apply elem_of_repo_host_list; [done|]. by exists r, s.
    + specialize (Hh r Hr). destruct (nonempty h && isVolume r); [|by apply elem_of_nil in Hs].
      assert (Hf : Forall (fun kv => HasPrefix kv.1 "-host" = true) (host_suffixes (fqdn h))) by repeat constructor.
      rewrite Forall_forall in Hf. pose proof (Hf _ Hs) as Hp. cbn [fst] in Hp.
      apply HasPrefix_spec in Hp as [t ->]. rewrite <- app_assoc_str, HasPrefix_app in Hh. done.
Qed.
End Contents.

(** ** The stanza of the repository host *)
Definition pg_suffixes (pgdataDir : string) (pgPort : Z) (fqdn : string) : list (string * string) :=
  [("-host", fqdn); ("-host-type", "tls"); ("-host-ca-file", certAuthorityAbsolutePath);
   ("-host-cert-file", certClientAbsolutePath); ("-host-key-file", certClientPrivateKeyAbsolutePath);
   ("-path", pgdataDir); ("-port", pretty pgPort); ("-socket-path", SocketDirectory)].

Lemma pg_key_inj i j s t : pg_key i ("-" +:+ s) = pg_key j ("-" +:+ t) -> i = j /\ s = t.
Proof.
  unfold pg_key. intros E%app_inj_l_str.
  assert (Hcut : forall n u, cut "-" (pretty (S n) +:+ "-" +:+ u) = Some (pretty (S n), u)).
  { intros n u. apply cut_first. eapply all_chars_impl; [|apply pretty_nat_digits]. intros c Hc.
    destruct (decide (c = "-"%char)) as [->|Hn]; [done|by rewrite bool_decide_eq_false_2]. }
  pose proof (Hcut i s) as H. rewrite E, Hcut in H. by simplify_eq.
Qed.

Section Stanza.
Context (cname : option string) (dnsSuffix serviceName serviceNamespace pgdataDir : string) (pgPort : Z).
Let options := pg_options cname dnsSuffix serviceName serviceNamespace pgdataDir pgPort.
Let fqdn := podFQDN cname dnsSuffix serviceName serviceNamespace.

Lemma elem_of_pg_options i h k v : (k, v) ∈ options i h <->
  exists s, k = pg_key i s /\ (s, v) ∈ pg_suffixes pgdataDir pgPort (fqdn h).
Proof.
  change (options i h) with (map (fun kv => (pg_key i kv.1, kv.2)) (pg_suffixes pgdataDir pgPort (fqdn h))).
  rewrite list_elem_of_fmap. split; [intros ([s w] & E & Hin); simpl in E; simplify_eq; by exists s|].
  intros (s & -> & Hin). by exists (s, v).
Qed.

Lemma pg_suffix_hyphen h s v : (s, v) ∈ pg_suffixes pgdataDir pgPort h -> exists t, s = "-" +:+ t.
Proof.
  intros Hin. assert (Hf : Forall (fun kv => HasPrefix kv.1 "-" = true) (pg_suffixes pgdataDir pgPort h)) by repeat constructor.
  rewrite Forall_forall in Hf. apply Hf in Hin. by apply HasPrefix_spec in Hin.
Qed.

Lemma stanza_option pgHosts i h k v : pgHosts !! i = Some h -> (k, v) ∈ options i h ->
  setEach (concat (imap options pgHosts)) ∅ !! k = Some [v].
Proof.
  intros Hi Hin. apply setEach_unique.
  - apply list_elem_of_In, in_concat. exists (options i h). split; apply list_elem_of_In; [|done].
    apply list_elem_of_lookup. exists i. by rewrite list_lookup_imap, Hi.
  - intros w Hw. apply list_elem_of_In, in_concat in Hw as (l & Hl & Hw). apply list_elem_of_In in Hl, Hw.
    apply list_elem_of_lookup in Hl as [j Hj]. rewrite list_lookup_imap in Hj.
    destruct (pgHosts !! j) as [h'|] eqn:Ej; [|done]. simpl in Hj. simplify_eq.
    apply elem_of_pg_options in Hin as (s & -> & Hs), Hw as (s' & E & Hs').
    destruct (pg_suffix_hyphen _ _ _ Hs) as [t ->], (pg_suffix_hyphen _ _ _ Hs') as [t' ->].
    apply pg_key_inj in E as [<- <-]. simplify_eq. eapply functional_unique; [|exact Hs'|exact Hs].
    apply (bool_decide_eq_true_1 (NoDup _)). by vm_compute.
Qed.
End Stanza.

(** ** Everything that is generated can be printed *)
Lemma word_app s t : word (s +:+ t) = word s && word t.
Proof. apply all_chars_app. Qed.

Lemma valid_name_word n : n ∈ configNames -> word n = true.
Proof. change configNames with ["repo1"; "repo2"; "repo3"; "repo4"]. rewrite !elem_of_cons. intros Hn.
  destruct Hn as [->|[->|[->|[->|Hn]]]]; [done..|by apply elem_of_nil in Hn]. Qed.

Lemma name_key n s : n ∈ configNames -> word s = true -> plain_key (n +:+ s) = true.
Proof.
  intros Hn Hs. pose proof (valid_name_word n Hn) as Hw. apply valid_name_length in Hn as [_ Hp].
  apply HasPrefix_spec in Hp as [t ->]. change ("repo" +:+ t) with (String "r" ("epo" +:+ t)) in *.
  rewrite app_cons_str. apply word_key; [done|]. rewrite word_app, Hs, andb_true_r. by apply andb_true_iff in Hw as [_ ?].
Qed.

(** Values of the specification that can be printed on a line. *)
Definition plain_repo (repo : PGBackRestRepo) : Prop :=
  repo_Name repo ∈ configNames /\ map_Forall (fun _ v => plain_value v = true) (getExternalRepoConfigs repo).

Lemma plain_path_suffixes repo : plain_repo repo ->
  Forall (fun kv => word kv.1 = true /\ plain_value kv.2 = true) (path_suffixes repo).
Proof.
  intros [Hn He]. unfold path_suffixes. constructor.
  - cbn [fst snd]. split; [done|]. apply word_value. rewrite word_app, (valid_name_word _ Hn). done.
  - destruct (isVolume repo); [constructor|]. rewrite getExternalRepoConfigs_list in He.
    assert (Hw : Forall (fun kv => word kv.1 = true) (external_suffixes repo)).
    { unfold external_suffixes. destruct (repo_Azure repo), (repo_GCS repo), (repo_S3 repo); by repeat constructor. }
    apply Forall_forall. intros [s v] Hin. rewrite Forall_forall in Hw. split; [by apply (Hw (s, v))|].
    eapply (He (repo_Name repo +:+ s)). apply elem_of_list_to_map_1; [apply prefixed_NoDup, external_suffixes_NoDup|].
    apply elem_of_prefixed. by exists s.
Qed.

Lemma plain_prefixed n l : n ∈ configNames -> Forall (fun kv => word kv.1 = true /\ plain_value kv.2 = true) l ->
  Forall (fun kv => plain_option kv = true) (prefixed n l).
Proof.
  intros Hn Hl. unfold prefixed. apply Forall_map. eapply Forall_impl; [exact Hl|]. intros [s v] [Hs Hv].
  unfold plain_option. simpl in *. by rewrite name_key, Hv.
Qed.

(** What can be printed: a name of a service, for example, has no space. *)
Record plain_cluster (cname : option string) (cluster : CrunchyCluster) (serviceName serviceNamespace : string)
    (hosts : list string) : Prop := {
  plain_repos : Forall plain_repo (pa_Repos (cc_Backups cluster));
  unique_repos : NoDup (map repo_Name (pa_Repos (cc_Backups cluster)));
  plain_global : map_Forall (fun k v => plain_option (k, v) = true) (pa_Global (cc_Backups cluster));
  plain_service : word serviceName = true;
  plain_namespace : word serviceNamespace = true;
  plain_domain : word (KubernetesClusterDomain cname (cc_DNSSuffix cluster)) = true;
  plain_hosts : Forall (fun h => word h = true) hosts
}.

Lemma file_reads_back sections : plain_sections sections ->
  exists l, read_ini (iniGeneratedWarning +:+ sections_String sections) = Some l /\
    forall section key, Ini.values l section key = ini_Values (default ∅ (sections !! section)) key.
Proof.
  intros Hp. change iniGeneratedWarning with (Lines [
    "# Generated by postgres-operator. DO NOT EDIT UNLESS YOU KNOW WHAT YOU'RE DOING.";
    "# If you want to override the config, annotate this ConfigMap with " +:+ OverrideConfigAnnotation +:+ "=true"]).
  apply read_sections_String; [done|]. repeat constructor.
Qed.

Lemma section_values (sections : iniSectionSet) section ms key :
  sections !! section = Some ms -> ini_Values (default ∅ (sections !! section)) key = default [] (ms !! key).
Proof. by intros ->. Qed.

Lemma instance_stanza cname dnsSuffix serviceName serviceNamespace pgdataDir pgPort repos globalConfig walEncryption host l :
  (forall section key, Ini.values l section key = ini_Values (default ∅ (populatePGInstanceConfigurationMap cname dnsSuffix
     serviceName serviceNamespace pgdataDir pgPort repos globalConfig walEncryption host !! section)) key) ->
  Ini.values l DefaultStanzaName "pg1-port" = [pretty pgPort] /\
  Ini.values l DefaultStanzaName "pg1-path" = [pgdataDir] /\
  Ini.values l DefaultStanzaName "pg1-socket-path" = [SocketDirectory].
Proof.
  intros Hv. assert (Hk : forall k, Ini.values l DefaultStanzaName k = default [] (setEach [("pg1-path", pgdataDir);
    ("pg1-port", pretty pgPort); ("pg1-socket-path", SocketDirectory)] ∅ !! k)).
  { intros k. rewrite Hv. apply section_values. unfold populatePGInstanceConfigurationMap. cbv zeta.
    rewrite lookup_insert_ne by done. by rewrite lookup_singleton, decide_True. }
  rewrite !Hk. generalize (pretty pgPort), SocketDirectory. intros port dir.
  rewrite !setEach_lookup_NoDup by (apply (bool_decide_eq_true_1 (NoDup _)); by vm_compute). done.
Qed.

Section Printing.
Context (cname : option string) (cluster : CrunchyCluster) (serviceName serviceNamespace repoHostName : string).
Context (instanceNames : list string) (pgPort : Z).
Hypothesis Hplain : plain_cluster cname cluster serviceName serviceNamespace (repoHostName :: instanceNames).

Let repos := pa_Repos (cc_Backups cluster).
Let globalConfig := pa_Global (cc_Backups cluster).
Let pgdataDir := DataDirectory (config cluster).
Let walEncryption := ext_PGTDE_WALEncryption (pc_Extensions (config cluster)).
Let dnsSuffix := cc_DNSSuffix cluster.

Lemma repos_valid r : r ∈ repos -> repo_Name r ∈ configNames.
Proof. pose proof (plain_repos _ _ _ _ _ Hplain) as H. rewrite Forall_forall in H. intros Hr. by apply H. Qed.

Lemma fqdn_word h : word h = true -> word (podFQDN cname dnsSuffix serviceName serviceNamespace h) = true.
Proof.
  intros Hh. destruct Hplain. unfold podFQDN. rewrite !word_app, Hh, plain_service0, plain_namespace0.
  unfold dnsSuffix. by rewrite plain_domain0.
Qed.

Lemma pgdata_word : word pgdataDir = true.
Proof. unfold pgdataDir, DataDirectory. by rewrite word_app, pretty_Z_word. Qed.

Lemma plain_instance_list :
  Forall (fun kv => plain_option kv = true)
    (instance_list cname dnsSuffix serviceName serviceNamespace repos walEncryption repoHostName).
Proof.
  unfold instance_list. apply Forall_app. split; [by destruct walEncryption; repeat constructor|].
  apply Forall_forall. intros kv Hin. apply list_elem_of_In, in_flat_map in Hin as (r & Hr & Hin).
  apply list_elem_of_In in Hr, Hin. revert kv Hin. apply Forall_forall.
  pose proof (plain_repos _ _ _ _ _ Hplain) as Hp. rewrite Forall_forall in Hp.
  apply plain_prefixed; [by apply repos_valid|]. unfold instance_suffixes. apply Forall_app.
  split; [by apply plain_path_suffixes, Hp|]. destruct (nonempty repoHostName && isVolume r); [|constructor].
  repeat constructor. apply word_value, fqdn_word. pose proof (plain_hosts _ _ _ _ _ Hplain) as Hh. by inversion Hh.
Qed.

Lemma plain_log_options b : Forall (fun kv => plain_option kv = true) (log_options b repos).
Proof.
  pose proof (plain_repos _ _ _ _ _ Hplain) as Hp. fold repos in Hp. revert b.
  induction Hp as [|r l Hr Hl IH]; intros b; cbn [log_options]; [constructor|].
  apply Forall_app. split; [apply plain_prefixed; [apply Hr|by apply plain_path_suffixes]|].
  apply Forall_app. split; [|apply IH]. destruct (negb b && isVolume r); [|constructor]. repeat constructor.
  unfold plain_option. cbn [fst snd]. rewrite word_value; [done|]. unfold PGBackRestRepoLogPath.
  by rewrite !word_app, (valid_name_word _ (proj1 Hr)).
Qed.

Lemma plain_repo_host_list : Forall (fun kv => plain_option kv = true) (repo_host_list repos walEncryption).
Proof.
  unfold repo_host_list. apply Forall_app. split; [apply plain_log_options|].
  by destruct (existsb isVolume repos), walEncryption; repeat constructor.
Qed.

Lemma plain_pg_options i h : word h = true ->
  Forall (fun kv => plain_option kv = true)
    (pg_options cname dnsSuffix serviceName serviceNamespace pgdataDir pgPort i h).
Proof.
  intros Hh. assert (Hk : forall s, word s = true -> plain_key (pg_key i s) = true).
  { intros s Hs. unfold pg_key. change ("pg" +:+ ?t) with (String "p" ("g" +:+ t)). apply word_key; [done|].
    rewrite !word_app, Hs, andb_true_r. apply andb_true_iff. split; [done|]. apply digits_word, pretty_nat_digits. }
  assert (Ho : forall s v, word s = true -> plain_value v = true -> plain_option (pg_key i s, v) = true).
  { intros s v Hs Hv. unfold plain_option. cbn [fst snd]. by rewrite Hk, Hv. }
  repeat constructor; apply Ho; try done; apply word_value;
    [by apply fqdn_word|apply pgdata_word|apply pretty_Z_word].
Qed.

Lemma plain_instance_file :
  plain_sections (populatePGInstanceConfigurationMap cname dnsSuffix serviceName serviceNamespace pgdataDir pgPort
    repos globalConfig walEncryption repoHostName).
Proof.
  intros k ms. pose proof (instance_global cname dnsSuffix serviceName serviceNamespace repos walEncryption
    pgdataDir pgPort globalConfig repoHostName) as Hg.
  destruct (decide (k = "global")) as [->|Hn].
  - rewrite Hg. intros <-%(inj Some). split; [done|]. apply plain_SetAll; [|exact (plain_global _ _ _ _ _ Hplain)].
    apply (plain_setEach _ ∅); [apply plain_empty|apply plain_instance_list].
  - unfold populatePGInstanceConfigurationMap. cbv zeta. rewrite lookup_insert_ne by done.
    intros [<- <-]%lookup_singleton_Some. split; [done|]. apply (plain_setEach _ ∅); [apply plain_empty|].
    repeat constructor; unfold plain_option; cbn [fst snd]; apply andb_true_iff; split; try done; apply word_value;
      [apply pgdata_word|apply pretty_Z_word].
Qed.

Lemma plain_repo_host_file :
  plain_sections (populateRepoHostConfigurationMap cname dnsSuffix serviceName serviceNamespace pgdataDir pgPort
    repos globalConfig walEncryption instanceNames).
Proof.
  intros k ms. pose proof (host_global cname dnsSuffix serviceName serviceNamespace repos walEncryption
    pgdataDir pgPort globalConfig instanceNames) as Hg.
  destruct (decide (k = "global")) as [->|Hn].
  - rewrite Hg. intros <-%(inj Some). split; [done|]. apply plain_SetAll; [|exact (plain_global _ _ _ _ _ Hplain)].
    apply (plain_setEach _ ∅); [apply plain_empty|apply plain_repo_host_list].
  - unfold populateRepoHostConfigurationMap. rewrite setHostRepo_list. rewrite lookup_insert_ne by done.
    intros [<- <-]%lookup_singleton_Some. split; [done|]. apply (plain_setEach _ ∅); [apply plain_empty|].
    apply Forall_concat. apply Forall_lookup. intros i l Hi. rewrite list_lookup_imap in Hi.
    destruct (instanceNames !! i) as [h|] eqn:E; [|done]. simpl in Hi. simplify_eq. apply plain_pg_options.
    pose proof (plain_hosts _ _ _ _ _ Hplain) as Hh. apply Forall_cons in Hh as [_ Hh].
    rewrite Forall_lookup in Hh. by apply (Hh i).
Qed.
End Printing.

Lemma path_suffix_of r : ("-path", defaultRepo1Path +:+ repo_Name r) ∈ path_suffixes r.
Proof. left. Qed.

Lemma external_suffix_of r k v : isVolume r = false -> getExternalRepoConfigs r !! k = Some v ->
  exists s, k = repo_Name r +:+ s /\ (s, v) ∈ path_suffixes r.
Proof.
  intros Hv. rewrite getExternalRepoConfigs_list. intros Hk%elem_of_list_to_map_2.
  apply elem_of_prefixed in Hk as (s & -> & Hs). exists s. split; [done|]. unfold path_suffixes. rewrite Hv. by right.
Qed.

Lemma host_suffix_of r fqdn k v : (k, v) ∈ host_options r fqdn -> exists s, k = repo_Name r +:+ s /\ (s, v) ∈ host_suffixes fqdn.
Proof. change (host_options r fqdn) with (prefixed (repo_Name r) (host_suffixes fqdn)). by intros ?%elem_of_prefixed. Qed.

(** The suffixes of the hosts are no others'. *)
Lemma host_suffix_only r fqdn s v w : (s, v) ∈ host_suffixes fqdn -> (s, w) ∉ path_suffixes r.
Proof.
  intros Hs Hp. pose proof (instance_suffixes_functional "x" fqdn (mkRepo (repo_Name r) (repo_S3 r) (repo_GCS r) (repo_Azure r) None None)) as Hf.
  assert (Hh : Forall (fun kv => HasPrefix kv.1 "-host" = true) (host_suffixes fqdn)) by repeat constructor.
  assert (Hn : Forall (fun kv => HasPrefix kv.1 "-host" = false) (path_suffixes r)).
  { unfold path_suffixes, external_suffixes. destruct (isVolume r), (repo_Azure r), (repo_GCS r), (repo_S3 r); by repeat constructor. }
  rewrite Forall_forall in Hh, Hn. apply Hh in Hs. apply Hn in Hp. simpl in Hs, Hp. congruence.
Qed.

Lemma no_host_option cname dnsSuffix serviceName serviceNamespace repos walEncryption host r fqdn k v :
  (forall r, r ∈ repos -> repo_Name r ∈ configNames) -> NoDup (map repo_Name repos) -> r ∈ repos ->
  nonempty host && isVolume r = false -> (k, v) ∈ host_options r fqdn ->
  setEach (instance_list cname dnsSuffix serviceName serviceNamespace repos walEncryption host) ∅ !! k = None.
Proof.
  intros Hnames Hnd Hr Hv (s & -> & Hs)%host_suffix_of.
  destruct (setEach_cases (instance_list cname dnsSuffix serviceName serviceNamespace repos walEncryption host) ∅
    (repo_Name r +:+ s)) as [(w & Hin & _)|[_ ->]]; [|done].
  apply elem_of_instance_list in Hin; [|by apply name_prefix, Hnames].
  destruct Hin as (r' & s' & Hr' & E & Hs'). apply valid_name_keys in E as [E ->]; [|by apply Hnames..].
  apply (NoDup_map_unique repo_Name repos) in E as ->; [|done..]. unfold instance_suffixes in Hs'.
  rewrite Hv, app_nil_r in Hs'. by destruct (host_suffix_only r' fqdn s' v w).
Qed.

Lemma log_path_of repos b w : ("log-path", w) ∈ log_options b repos -> (forall r, r ∈ repos -> repo_Name r ∈ configNames) ->
  b = false /\ exists r, List.find isVolume repos = Some r /\ w = PGBackRestRepoLogPath (repo_Name r).
Proof.
  revert b. induction repos as [|r l IH]; intros b Hin Hn; [by apply elem_of_nil in Hin|]. cbn [log_options List.find] in *.
  rewrite !elem_of_app in Hin. destruct Hin as [Hin|[Hin|Hin]].
  - apply elem_of_prefixed in Hin as (s & E & _). pose proof (name_prefix (repo_Name r) s) as Hp. rewrite <- E in Hp.
    discriminate Hp. apply Hn. left.
  - destruct b, (isVolume r); try by apply elem_of_nil in Hin. apply list_elem_of_singleton in Hin. simplify_eq. eauto.
  - apply IH in Hin as [Hb Hr]; [|intros r' Hr'; apply Hn; by right]. apply orb_false_iff in Hb as [-> Hv]. by rewrite Hv.
Qed.

Lemma log_path_host_list repos walEncryption w : ("log-path", w) ∈ repo_host_list repos walEncryption ->
  (forall r, r ∈ repos -> repo_Name r ∈ configNames) ->
  exists r, List.find isVolume repos = Some r /\ w = PGBackRestRepoLogPath (repo_Name r).
Proof.
  unfold repo_host_list. rewrite !elem_of_app. intros [Hin|[Hin|Hin]] Hn.
  - by apply log_path_of in Hin as [_ Hr].
  - destruct (existsb isVolume repos); [by apply elem_of_nil in Hin|]. apply list_elem_of_singleton in Hin. by simplify_eq.
  - destruct walEncryption; [|by apply elem_of_nil in Hin]. rewrite !elem_of_cons in Hin.
    destruct Hin as [?|[?|Hin]]; [by simplify_eq..|by apply elem_of_nil in Hin].
Qed.

Lemma log_path_in repos r : List.find isVolume repos = Some r ->
  ("log-path", PGBackRestRepoLogPath (repo_Name r)) ∈ log_options false repos.
Proof.
  induction repos as [|r' l IH]; [done|]. cbn [log_options List.find]. rewrite !elem_of_app.
  destruct (isVolume r'); [intros [= ->]; right; left; left|intros Hr; right; right; by apply IH].
Qed.

(** ** Properties *)
Section Properties.
Context `{GoVersion, LabelMatching}.
Context (cname : option string) (cluster : CrunchyCluster) (repoHostName configHash serviceName serviceNamespace : string).
Context (instanceNames : list string) (cm : DataObject).

Definition generated : Prop :=
  CreatePGBackRestConfigMapIntent cname cluster repoHostName configHash serviceName serviceNamespace instanceNames = Some cm.

Let repos := pa_Repos (cc_Backups cluster).
Let globalConfig := pa_Global (cc_Backups cluster).
Let pgdataDir := DataDirectory (config cluster).
Let walEncryption := ext_PGTDE_WALEncryption (pc_Extensions (config cluster)).
Let dnsSuffix := cc_DNSSuffix cluster.

(** The keys of the ConfigMap, and their texts. *)
Lemma generated_data : generated -> exists pgPort, cc_Port cluster = Some pgPort /\
  d_Data cm !! CMInstanceKey = Some (iniGeneratedWarning +:+ sections_String (populatePGInstanceConfigurationMap cname
    dnsSuffix serviceName serviceNamespace pgdataDir pgPort repos globalConfig walEncryption repoHostName)) /\
  d_Data cm !! ConfigHashKey = Some configHash /\
  (nonempty repoHostName = true -> d_Data cm !! CMRepoKey = Some (iniGeneratedWarning +:+ sections_String
    (populateRepoHostConfigurationMap cname dnsSuffix serviceName serviceNamespace pgdataDir pgPort repos globalConfig
      walEncryption instanceNames))).
Proof.
  unfold generated, CreatePGBackRestConfigMapIntent. cbv zeta. destruct (cc_Port cluster) as [pgPort|]; [|done].
  cbn [mbind option_bind]. intros <-%(inj Some). exists pgPort. cbn [d_Data]. split; [done|].
  rewrite lookup_insert_ne by done. split_and!.
  - destruct (nonempty repoHostName); [do 2 rewrite lookup_insert_ne by done|];
    by rewrite lookup_insert, decide_True.
  - by rewrite lookup_insert, decide_True.
  - intros ->. cbn iota. do 2 rewrite lookup_insert_ne by done. by rewrite lookup_insert, decide_True.
Qed.

Hypothesis Hplain : plain_cluster cname cluster serviceName serviceNamespace (repoHostName :: instanceNames).

(** What the API admits, in one place. *)
Lemma valid_repos : (forall r, r ∈ repos -> repo_Name r ∈ configNames) /\ NoDup (map repo_Name repos).
Proof. split; [|exact (unique_repos _ _ _ _ _ Hplain)]. intros r. by eapply repos_valid. Qed.

(** The configuration of the instances reads back as what the cluster
    specifies.  A reader of the generated file finds each option of
    [spec.backups.pgbackrest.global] with the user's value, whatever the
    operator would have written; otherwise each repository has its path, an
    external repository its type and location, and a repository on a volume
    the address and certificates of the repository host, which no other
    repository has.  The stanza is about the local server.  Nothing in the
    values can break the lines apart. *)
Theorem instance_file_reads_back : generated ->
  exists text l, d_Data cm !! CMInstanceKey = Some text /\ read_ini text = Some l /\
    (forall k v, globalConfig !! k = Some v -> Ini.values l "global" k = [v]) /\
    (forall r k, r ∈ repos -> globalConfig !! k = None ->
       (k = repo_Name r +:+ "-path" -> Ini.values l "global" k = [defaultRepo1Path +:+ repo_Name r]) /\
       (forall v, isVolume r = false -> getExternalRepoConfigs r !! k = Some v -> Ini.values l "global" k = [v]) /\
       (forall v, (k, v) ∈ host_options r (podFQDN cname dnsSuffix serviceName serviceNamespace repoHostName) ->
          Ini.values l "global" k = if nonempty repoHostName && isVolume r then [v] else [])) /\
    exists pgPort, cc_Port cluster = Some pgPort /\ Ini.values l DefaultStanzaName "pg1-port" = [pretty pgPort] /\
      Ini.values l DefaultStanzaName "pg1-path" = [pgdataDir] /\
      Ini.values l DefaultStanzaName "pg1-socket-path" = [SocketDirectory].
Proof.
  intros (pgPort & Hport & Htext & _)%generated_data. destruct valid_repos as [Hnames Hnd].
  destruct (file_reads_back _ (plain_instance_file _ _ _ _ _ _ pgPort Hplain)) as (l & Hl & Hv).
  eexists _, l. split; [exact Htext|]. split; [exact Hl|].
  assert (Hg : forall k, Ini.values l "global" k = default [] (match globalConfig !! k with Some v => Some [v] | None =>
    setEach (instance_list cname dnsSuffix serviceName serviceNamespace repos walEncryption repoHostName) ∅ !! k end)).
  { intros k. rewrite Hv. erewrite section_values by apply instance_global. by rewrite ini_SetAll_lookup. }
  split_and!; [intros k v Hk; by rewrite Hg, Hk| |].
  - intros r k Hr Hk. rewrite Hg, Hk.
    assert (Hset : forall s v, (s, v) ∈ instance_suffixes repoHostName (podFQDN cname dnsSuffix serviceName serviceNamespace repoHostName) r ->
      setEach (instance_list cname dnsSuffix serviceName serviceNamespace repos walEncryption repoHostName) ∅ !!
        (repo_Name r +:+ s) = Some [v]).
    { intros s v Hs. apply instance_option; [exact Hnames|exact Hnd|]. exists r, s. exact (conj Hr (conj eq_refl Hs)). }
    split_and!.
    + intros ->. by rewrite (Hset _ (defaultRepo1Path +:+ repo_Name r)) by (apply elem_of_app; left; apply path_suffix_of).
    + intros v Hvol (s & -> & Hs)%external_suffix_of; [|done]. by rewrite (Hset _ v) by (apply elem_of_app; by left).
    + intros v Ho. destruct (nonempty repoHostName && isVolume r) eqn:E.
      * apply host_suffix_of in Ho as (s & -> & Hs). rewrite (Hset s v); [done|]. unfold instance_suffixes.
        rewrite E. apply elem_of_app. by right.
      * rewrite (no_host_option _ _ _ _ _ _ _ r _ k v Hnames Hnd Hr E Ho). reflexivity.
  - exists pgPort. split; [exact Hport|]. exact (instance_stanza _ _ _ _ _ _ _ _ _ _ _ Hv).
Qed.

(** C18: the repository host and the instances agree on the repositories.
    Except for the options by which the instances reach the repository host,
    every option of a repository has the same values in both files, those that
    the user sets included, so both find the same backups.  The stanza of the
    repository host lists the instances as [pg1], [pg2], ... in the given
    order, each with its own address, and its log goes to the directory that
    the init container of the repository host creates. *)
Theorem repository_host_agrees : generated -> nonempty repoHostName = true ->
  exists instance host l l', d_Data cm !! CMInstanceKey = Some instance /\ read_ini instance = Some l /\
    d_Data cm !! CMRepoKey = Some host /\ read_ini host = Some l' /\
    (forall k, HasPrefix k "repo" = true -> (forall r, r ∈ repos -> HasPrefix k (repo_Name r +:+ "-host") = false) ->
       Ini.values l "global" k = Ini.values l' "global" k) /\
    (exists pgPort, cc_Port cluster = Some pgPort /\ forall i h k v, instanceNames !! i = Some h ->
       (k, v) ∈ pg_options cname dnsSuffix serviceName serviceNamespace pgdataDir pgPort i h ->
       Ini.values l' DefaultStanzaName k = [v]) /\
    (RepoHostVolumeDefined repos = true -> globalConfig !! "log-path" = None ->
       Ini.values l' "global" "log-path" = [pgBackRestLogPath repos]).
Proof.
  intros (pgPort & Hport & Htext & _ & Htext')%generated_data Hhost. destruct valid_repos as [Hnames Hnd].
  destruct (file_reads_back _ (plain_instance_file _ _ _ _ _ _ pgPort Hplain)) as (l & Hl & Hv).
  destruct (file_reads_back _ (plain_repo_host_file _ _ _ _ _ _ pgPort Hplain)) as (l' & Hl' & Hv').
  eexists _, _, l, l'. split; [exact Htext|]. split; [exact Hl|]. split; [exact (Htext' Hhost)|]. split; [exact Hl'|].
  split_and!.
  - intros k Hk Hh. rewrite Hv, Hv'. erewrite section_values by apply instance_global.
    erewrite section_values by apply host_global. rewrite !ini_SetAll_lookup. by rewrite (options_agree cname dnsSuffix serviceName serviceNamespace repos walEncryption).
  - exists pgPort. split; [done|]. intros i h k v Hi Hin. rewrite Hv'.
    rewrite (section_values _ _ (setEach (concat (imap (pg_options cname dnsSuffix serviceName serviceNamespace pgdataDir
      pgPort) instanceNames)) ∅)).
    2: { unfold populateRepoHostConfigurationMap. rewrite setHostRepo_list, lookup_insert_ne by done.
      by rewrite lookup_singleton, decide_True. }
    by rewrite (stanza_option _ _ _ _ _ _ _ i h k v Hi Hin).
  - intros Hvol Hlog. rewrite Hv'. erewrite section_values by apply host_global.
    rewrite ini_SetAll_lookup. fold globalConfig. rewrite Hlog.
    unfold pgBackRestLogPath. destruct (List.find isVolume repos) as [r|] eqn:E.
    + erewrite setEach_unique; [done|apply elem_of_app; left; by apply log_path_in|]. intros w Hin.
      apply log_path_host_list in Hin as (r' & Hr' & ->); [|done]. fold repos in Hr'. by assert (r' = r) as -> by congruence.
    + unfold RepoHostVolumeDefined in Hvol. apply existsb_exists in Hvol as (r & Hr & Hr').
      pose proof (find_none _ _ E r Hr) as Hn. congruence.
Qed.
End Properties.

Section HashProperties.
Context `{SafeEncode}.

(** A repository that is neither on a volume nor of a known type. *)
Definition untyped (repo : PGBackRestRepo) : Prop :=
  isVolume repo = false /\ repo_Azure repo = None /\ repo_GCS repo = None /\ repo_S3 repo = None.

(** The hashes exist unless a repository has no type.  Some changes leave them
    as they are: text that moves from the end of a bucket to the start of the
    endpoint, and a change from Azure to GCS with the same name. *)
Lemma config_hashes repos repo b x e r c :
  ((exists err, CalculateConfigHashes repos = Err err) <-> Exists untyped repos) /\
  CalculateConfigHashes [mkRepo repo (Some (mkS3 (b +:+ x) e r)) None None None None] =
  CalculateConfigHashes [mkRepo repo (Some (mkS3 b (x +:+ e) r)) None None None None] /\
  CalculateConfigHashes [mkRepo repo None None (Some c) None None] =
  CalculateConfigHashes [mkRepo repo None (Some c) None None None].
Proof.
  split_and!.
  - unfold CalculateConfigHashes. generalize (∅ : gmap string string) as hashes.
    induction repos as [|repo' l IH]; intros hashes; simpl; [split; [by intros [??]|by intros ?%Exists_nil]|].
    rewrite Exists_cons. destruct (isVolume repo') eqn:Ev; [rewrite IH; unfold untyped; rewrite Ev; naive_solver|].
    unfold repoHash, untyped. rewrite Ev.
    destruct (repo_Azure repo'), (repo_GCS repo'), (repo_S3 repo'); try (rewrite IH; naive_solver). naive_solver.
  - unfold CalculateConfigHashes, repoHashes, repoHash. simpl.
    assert (E : safeHash32 [b +:+ x; e; r] = safeHash32 [b; x +:+ e; r]).
    { unfold safeHash32. simpl. by rewrite !app_assoc_str. }
    by rewrite E.
  - done.
Qed.
End HashProperties.

(** A stale configuration is reported as a failure.  When the script of
    the stanza finds that the configuration has not reached the pod, it prints
    one of two messages to its error output and nothing else there, and the
    caller is meant to try again.  The messages are compared with the standard
    output, a space and the error output, so they are never recognised: the
    result is an error whatever the standard output is, and with it a warning
    event where a quiet requeue is meant. *)
Theorem stale_configuration_is_an_error out err :
  out_Err out = Some err -> out_Stderr out ∈ [errMsgConfigHashMismatch; errMsgStaleReposWithVolumesConfig] ->
  stanzaResult out = Err (Wrap (out_Stdout out +:+ " " +:+ out_Stderr out) err).
Proof.
  intros Herr Hin. unfold stanzaResult. rewrite Herr.
  assert (Hne : forall s m, out_Stderr out = m -> String.length s = String.length m -> s <> out_Stdout out +:+ " " +:+ out_Stderr out).
  { intros s m -> Hl ->. rewrite !length_app_str in Hl. simpl in Hl. lia. }
  assert (Hends : forall s c, s <> EmptyString -> last_not (fun d => bool_decide (d = c)) (out_Stdout out +:+ " " +:+ s) =
    last_not (fun d => bool_decide (d = c)) s).
  { intros s c Hs. rewrite last_not_app by done. apply last_not_app. by destruct s. }
  rewrite !bool_decide_eq_false_2; [done| |]; intros E; symmetry in E; rewrite !elem_of_cons in Hin;
    destruct Hin as [Hin|[Hin|Hin]]; try by apply elem_of_nil in Hin.
  - apply (f_equal (last_not (fun d => bool_decide (d = "h"%char)))) in E. rewrite Hin, Hends in E by done. by vm_compute in E.
  - by apply (Hne _ _ Hin eq_refl) in E.
  - by apply (Hne _ _ Hin eq_refl) in E.
  - apply (f_equal (last_not (fun d => bool_decide (d = "h"%char)))) in E. rewrite Hin, Hends in E by done. by vm_compute in E.
Qed.

Module ExamplePGBackRest.
Definition repos : list PGBackRestRepo :=
  [mkRepo "repo1" None None None (Some (mkClaim "1Gi" None)) None;
   mkRepo "repo2" (Some (mkS3 "hippo" "s3.example.com" "east")) None None None None].

Definition cluster : CrunchyCluster :=
  ExampleInstances.cluster [ExampleInstances.set1 2]
    <| cc_Backups := mkArchive (mkMetadata ∅ ∅) {["repo1-retention-full" := "14"; "repo2-path" := "/hippo/repo2"]} repos None None "" "" [] [] [] 0 [] |>.

Definition generated : option DataObject :=
  CreatePGBackRestConfigMapIntent (H := DottedVersions.versions) (H0 := ConcreteLabels.matching) None cluster
    "hippo-repo-host" "hash" "hippo-pods" "postgres-operator" ["hippo-a"; "hippo-b"].

Definition configMap : DataObject := default (mkData (ExampleInstances.meta "" ∅ ∅) ∅) generated.

Lemma plain_example : plain_cluster None cluster "hippo-pods" "postgres-operator" ["hippo-repo-host"; "hippo-a"; "hippo-b"].
Proof.
  split.
  - apply (bool_decide_eq_true_1 (Forall _ _)). by vm_compute.
  - apply (bool_decide_eq_true_1 (NoDup _)). by vm_compute.
  - apply (bool_decide_eq_true_1 (map_Forall _ _)). by vm_compute.
  - done.
  - done.
  - done.
  - by repeat constructor.
Defined.
End ExamplePGBackRest.

Lemma instance_file_reads_back_witness :
  exists text l, d_Data ExamplePGBackRest.configMap !! CMInstanceKey = Some text /\ read_ini text = Some l /\
    Ini.values l "global" "repo2-path" = ["/hippo/repo2"] /\ Ini.values l "global" "repo1-path" = ["/pgbackrest/repo1"] /\
    Ini.values l "global" "repo2-s3-endpoint" = ["s3.example.com"] /\ Ini.values l "global" "repo2-host" = [].
Proof.
  assert (Hg : ExamplePGBackRest.generated = Some ExamplePGBackRest.configMap) by (vm_compute; reflexivity).
  destruct (instance_file_reads_back (H := DottedVersions.versions) (H0 := ConcreteLabels.matching) None
    ExamplePGBackRest.cluster "hippo-repo-host" "hash" "hippo-pods" "postgres-operator" ["hippo-a"; "hippo-b"]
    ExamplePGBackRest.configMap ExamplePGBackRest.plain_example Hg) as (text & l & Ht & Hl & Huser & Hrepo & _).
  pose proof (fun i r k H => Hrepo r k (list_elem_of_lookup_2 ExamplePGBackRest.repos i r H)) as Hr.
  exists text, l. split_and!; [exact Ht|exact Hl| | | |].
  - apply Huser. by vm_compute.
  - destruct (Hr 0%nat _ "repo1-path" eq_refl eq_refl) as (Hpath & _). by apply Hpath.
  - destruct (Hr 1%nat _ "repo2-s3-endpoint" eq_refl eq_refl) as (_ & Hext & _). by apply Hext.
  - destruct (Hr 1%nat _ "repo2-host" eq_refl eq_refl) as (_ & _ & Hhost). apply (Hhost _ ltac:(left)).
Defined.

Lemma repository_host_agrees_witness :
  exists host l', d_Data ExamplePGBackRest.configMap !! CMRepoKey = Some host /\ read_ini host = Some l' /\
    Ini.values l' DefaultStanzaName "pg2-path" = ["/pgdata/pg17"] /\
    Ini.values l' "global" "log-path" = ["/pgbackrest/repo1/log"].
Proof.
  assert (Hg : ExamplePGBackRest.generated = Some ExamplePGBackRest.configMap) by (vm_compute; reflexivity).
  destruct (repository_host_agrees (H := DottedVersions.versions) (H0 := ConcreteLabels.matching) None
    ExamplePGBackRest.cluster "hippo-repo-host" "hash" "hippo-pods" "postgres-operator" ["hippo-a"; "hippo-b"]
    ExamplePGBackRest.configMap ExamplePGBackRest.plain_example Hg eq_refl)
    as (_ & host & _ & l' & _ & _ & Hh & Hl & _ & (pgPort & _ & Hpg) & Hlog).
  exists host, l'. split_and!; [exact Hh|exact Hl| |].
  - apply (Hpg 1%nat "hippo-b"); [done|]. do 5 right. left.
  - by apply Hlog.
Defined.

Lemma stale_configuration_is_an_error_witness :
  stanzaResult (mkExecOutput "" errMsgConfigHashMismatch (Some (New "command terminated with exit code 1"))) =
  Err (Wrap (" " +:+ errMsgConfigHashMismatch) (New "command terminated with exit code 1")).
Proof. apply (stale_configuration_is_an_error (mkExecOutput "" _ _)); [reflexivity|left]. Defined.
