(* ===== verification/RepoBackups.v ===== *)
(** * Repositories and backups of a PostgresCluster

    The part of [internal/controller/postgrescluster/pgbackrest.go] that looks
    after repositories: what exists and what is deleted, whether backups may be
    removed at all, the status of each repository, stanzas, and the jobs for
    the first backup, for manual backups and for scheduled ones. *)
From S2P Require Import Prelude GoStrings Cluster Parameters Prog Errors Naming Objects Client BackupUtils ObservedInstances Rollout PatroniControl ClusterStatus PGBackRest.

Definition ConditionManualBackupSuccessful : string := "PGBackRestManualBackupSuccessful".
Definition ConditionReplicaRepoReady : string := "PGBackRestReplicaRepoReady".
Definition PostgresClusterProgressing : string := "Progressing".
Definition EventUnableToCreateStanzas : string := "UnableToCreateStanzas".
Definition EventStanzasCreated : string := "StanzasCreated".
Definition EventUnableToCreatePGBackRestCronJob : string := "UnableToCreatePGBackRestCronJob".

Definition Full : string := "full".
Definition Differential : string := "diff".
Definition Incremental : string := "incr".

(** ** The cluster *)
Definition cc_Conditions (c : CrunchyCluster) : list Condition := pc_Conditions (cc_Config c).

Definition onClusterConditions (f : list Condition -> list Condition) (c : CrunchyCluster) : CrunchyCluster :=
  c <| cc_Config ::= fun p => p <| pc_Conditions ::= f |> |>.

(** A nil [status.pgbackrest] reads as the empty one: [reconcilePGBackRest]
    makes it before anything else. *)
Definition emptyBackRest : PGBackRestStatus := mkPGBackRestStatus None None None [].
Definition backrest (c : CrunchyCluster) : PGBackRestStatus := default emptyBackRest (cc_PGBackRest c).

Definition onBackrest (f : PGBackRestStatus -> PGBackRestStatus) (c : CrunchyCluster) : CrunchyCluster :=
  c <| cc_PGBackRest := Some (f (backrest c)) |>.

Definition specRepos (c : CrunchyCluster) : list PGBackRestRepo := pa_Repos (cc_Backups c).

Definition repoStatus (c : CrunchyCluster) (name : string) : option RepoStatus :=
  List.find (fun s => bool_decide (rst_Name s = name)) (ps_Repos (backrest c)).

(** The first instance that can write. *)
Definition writableInstance (o : observedInstances) : option Instance :=
  List.find (fun i => known_true (IsWritable i)) (forCluster o).

(** ** Whether backups may be removed *)
Section Gate.
Context `{MetaConditions}.

Definition authorizeBackupRemovalAnnotationPresent (c : CrunchyCluster) : bool :=
  bool_decide (om_Annotations (cc_Meta c) !! AuthorizeBackupRemovalAnnotation = Some "true").

Definition backupsSpecFound (c : CrunchyCluster) : bool := cc_BackupsSpec c && deref (cc_BackupsEnabled c) true.

Definition repoHostKey (c : CrunchyCluster) : key := (cc_Namespace c, cc_Name c +:+ "-repo-host").

(** Whether there are backups in the specification, no repository host, and
    the annotation; or the error. *)
Definition ObserveBackupUniverse (c : CrunchyCluster) : program (bool * bool * bool * option error) :=
  let! r := call (Get KSts (repoHostKey c)) in
  match r with
  | Ok _ => Ret (backupsSpecFound c, false, authorizeBackupRemovalAnnotationPresent c, None)
  | Err e =>
      if IsNotFound e then Ret (backupsSpecFound c, true, authorizeBackupRemovalAnnotationPresent c, None)
      else Ret (true, false, false, Some e)
  end.

(** Whether there are backups in the specification, and whether the cluster
    may be reconciled. *)
Definition BackupsEnabled (c : CrunchyCluster) : program (bool * bool * option error) :=
  let! u := ObserveBackupUniverse c in
  let '(specFound, stsNotFound, annotationFound, err) := u in
  Ret (match err with
       | Some e => (false, false, Some e)
       | None =>
           if specFound then (true, true, None)
           else if annotationFound || stsNotFound then (false, true, None)
           else (false, false, None)
       end).

(** What [Reconcile] does about it: [None] goes on with whether there are
    backups; otherwise the status is written and the reconciliation ends with
    that call's error. *)
Definition backupsGate (before c : CrunchyCluster) : program (CrunchyCluster * (bool + option error)) :=
  let! b := BackupsEnabled c in
  let '(found, allowed, err) := b in
  if allowed
  then Ret (onClusterConditions (fun l => RemoveStatusCondition l PostgresClusterProgressing) c, inl found)
  else
    let! now := call Now in
    let c := onClusterConditions (fun l => SetStatusCondition now l
      (mkCondition PostgresClusterProgressing ConditionFalse "Paused"
         ("Reconciliation is paused: please fill in spec.backups " +:+
          "or add the postgres-operator.crunchydata.com/authorizeBackupRemoval " +:+
          "annotation to authorize backup removal.") (om_Generation (cc_Meta c)) now)) c in
    let! r := call (StatusPatch KCrunchy before c) in
    Ret (c, inr (match r with Ok _ => None | Err e => Some e end)).
End Gate.

(** ** What exists, and what is deleted *)
Definition hasLabel (m : ObjectMeta) (l : string) : bool := bool_decide (is_Some (om_Labels m !! l)).

Definition backupScheduleFound (repo : PGBackRestRepo) (backupType : string) : bool :=
  match repo_Schedules repo with
  | Some s =>
      if bool_decide (backupType = Full) then bool_decide (is_Some (sched_Full s))
      else if bool_decide (backupType = Differential) then bool_decide (is_Some (sched_Differential s))
      else if bool_decide (backupType = Incremental) then bool_decide (is_Some (sched_Incremental s))
      else false
  | None => false
  end.

Definition b2n (b : bool) : nat := if b then 1 else 0.

(** How often the object is added to the ones that are kept; never means that
    it is deleted. *)
Definition timesKept (c : CrunchyCluster) (specFound : bool) (m : ObjectMeta) : nat :=
  let named (repo : PGBackRestRepo) := bool_decide (repo_Name repo = label m LabelPGBackRestRepo) in
  if hasLabel m LabelPGBackRestConfig then b2n specFound
  else if hasLabel m LabelPGBackRestDedicated then
    b2n (specFound && negb (bool_decide (om_Name m = meta_Name (PGBackRestSSHConfig (config c))))
         && negb (bool_decide (om_Name m = meta_Name (PGBackRestSSHSecret (config c)))))
  else if hasLabel m LabelPGBackRestRepoVolume then
    if specFound then length (List.filter (fun r => isVolume r && named r) (specRepos c)) else 0
  else if hasLabel m LabelPGBackRestBackup then
    if specFound then length (List.filter named (specRepos c)) else 0
  else if hasLabel m LabelPGBackRestCronJob then
    if specFound then
      match List.find named (specRepos c) with
      | Some repo => b2n (backupScheduleFound repo (label m LabelPGBackRestCronJob))
      | None => 0
      end
    else 0
  else if hasLabel m LabelPGBackRestRestore then
    if specFound then b2n (bool_decide (is_Some (om_Annotations m !! PGBackRestBackupJobCompletion)))
                      + b2n (negb (ClusterBootstrapped c))
    else 0
  else if hasLabel m LabelPGBackRest then b2n specFound
  else 0.

Section Resources.
Context `{LabelMatching}.

Fixpoint cleanupRepoResources (k : kind) (c : CrunchyCluster) (specFound : bool) (owned kept : list (obj k))
    : action (list (obj k)) :=
  match owned with
  | [] => Ret (Ok kept)
  | o :: owned =>
      match timesKept c specFound (meta o) with
      | 0 =>
          do! _ := call (Delete k (objectKey (meta o)) Background) in
          cleanupRepoResources k c specFound owned kept
      | n => cleanupRepoResources k c specFound owned (kept ++ repeat o n)
      end
  end.

Record RepoResources := mkResources {
  rr_hosts : list StatefulSet;
  rr_cronjobs : list CronJob;
  rr_manualBackupJobs : list Job;
  rr_replicaCreateBackupJobs : list Job;
  rr_pvcs : list PVC;
  rr_sas : list MetaObject;
  rr_roles : list MetaObject;
  rr_rolebindings : list MetaObject
}.

(** The body of the loop over the kinds. *)
Definition listOwned (k : kind) (c : CrunchyCluster) (specFound : bool) : action (list (obj k)) :=
  do! items := call (ListAll k (cc_Namespace c) (ByLabels (PGBackRestSelector (cc_Name c)))) in
  match items with
  | [] => Ret (Ok [])
  | _ => cleanupRepoResources k c specFound items []
  end.

Definition backupJobs (type_ : string) (jobs : list Job) : list Job :=
  List.filter (fun j => bool_decide (label (j_Meta j) LabelPGBackRestBackup = type_)) jobs.

Definition getPGBackRestResources (c : CrunchyCluster) (specFound : bool) : action RepoResources :=
  do! hosts := listOwned KSts c specFound in
  do! cronjobs := listOwned KCronJob c specFound in
  do! jobs := listOwned KJob c specFound in
  do! _ := listOwned KConfigMap c specFound in
  do! pvcs := listOwned KPVC c specFound in
  do! _ := listOwned KSecret c specFound in
  do! sas := listOwned KServiceAccount c specFound in
  do! roles := listOwned KRole c specFound in
  do! bindings := listOwned KRoleBinding c specFound in
  Ret (Ok (mkResources hosts cronjobs (backupJobs BackupManual jobs) (backupJobs BackupReplicaCreate jobs)
             pvcs sas roles bindings)).
End Resources.

(** ** The status of the repositories *)
Definition getRepoHostStatus (repoHost : StatefulSet) : bool := bool_decide (0 < st_ReadyReplicas repoHost)%Z.

Section Status.
Context `{SortPackage}.
Context (replicaCreateRepoName : string) (repoStatuses : list RepoStatus).

Definition unready (rs : RepoStatus) : RepoStatus :=
  rs <| rst_StanzaCreated := false |> <| rst_ReplicaCreateBackupComplete := false |>.

(** A status that has a hash was of an external repository. *)
Definition volumeStatus (desiredVolumes : gmap string string) (rv : PVC) : RepoStatus :=
  let repoName := label (pvc_Meta rv) LabelPGBackRestRepo in
  let desired := default "" (desiredVolumes !! repoName) in
  match List.find (fun rs => bool_decide (rst_Name rs = repoName) && negb (nonempty (rst_RepoOptionsHash rs))) repoStatuses with
  | Some rs =>
      let rs := if (rst_ReplicaCreateBackupComplete rs && negb (bool_decide (rst_Name rs = replicaCreateRepoName)))
                   || nonempty (rst_RepoOptionsHash rs)
                then rs <| rst_ReplicaCreateBackupComplete := false |> <| rst_RepoOptionsHash := "" |> else rs in
      let rs := rs <| rst_Bound := pvc_Bound rv |> in
      let rs := if nonempty (rst_VolumeName rs) && negb (bool_decide (rst_VolumeName rs = pvc_VolumeName rv))
                then unready rs else rs in
      rs <| rst_VolumeName := pvc_VolumeName rv |> <| rst_DesiredRepoVolume := desired |>
  | None => mkRepoStatus repoName (pvc_Bound rv) (pvc_VolumeName rv) false false "" desired
  end.

(** A status that has a volume was of a repository on a volume. *)
Definition externalStatus (repoName hash : string) : RepoStatus :=
  match List.find (fun rs => bool_decide (rst_Name rs = repoName) && negb (rst_Bound rs)
                             && negb (nonempty (rst_VolumeName rs))) repoStatuses with
  | Some rs =>
      let rs := if rst_ReplicaCreateBackupComplete rs && negb (bool_decide (rst_Name rs = replicaCreateRepoName))
                then rs <| rst_ReplicaCreateBackupComplete := false |> else rs in
      if bool_decide (rst_RepoOptionsHash rs = hash) then rs
      else unready (rs <| rst_RepoOptionsHash := hash |>)
  | None => mkRepoStatus repoName false "" false false hash ""
  end.

(** [order] is the order in which the map of the hashes is visited. *)
Definition getRepoVolumeStatus (repoVolumes : list PVC) (configHashes : gmap string string)
    (order : list string) (desiredVolumes : gmap string string) : list RepoStatus :=
  Sort (fun a b => stringLess (rst_Name a) (rst_Name b))
    (map (volumeStatus desiredVolumes) repoVolumes ++
     map (fun name => externalStatus name (default "" (configHashes !! name))) order).
End Status.

(** ** Conditions

    Each is set when its function returns, whatever it returns. *)
Section Conditions.
Context `{MetaConditions}.

Definition setCondition (c : CrunchyCluster) (type_ : string) (s : ConditionStatus * string * string)
    : program CrunchyCluster :=
  let! now := call Now in
  Ret (onClusterConditions (fun l => SetStatusCondition now l
    (mkCondition type_ s.1.1 s.1.2 s.2 (om_Generation (cc_Meta c)) now)) c).

Definition repoHostReady (c : CrunchyCluster) : ConditionStatus * string * string :=
  match ps_RepoHostReady (backrest c) with
  | None => (ConditionUnknown, "RepoHostStatusMissing", "pgBackRest dedicated repository host status is missing")
  | Some true => (ConditionTrue, "RepoHostReady", "pgBackRest dedicated repository host is ready")
  | Some false => (ConditionFalse, "RepoHostNotReady", "pgBackRest dedicated repository host is not ready")
  end.

Definition replicaRepoReady (c : CrunchyCluster) (replicaCreateRepoName : string) : ConditionStatus * string * string :=
  match repoStatus c replicaCreateRepoName with
  | None => (ConditionUnknown, "RepoStatusMissing", "Status is missing for the replica creation repo")
  | Some s =>
      if rst_StanzaCreated s
      then (ConditionTrue, "StanzaCreated", "pgBackRest replica create repo is ready for " +:+ "backups")
      else (ConditionFalse, "StanzaNotCreated", "pgBackRest replica create repo is not ready " +:+ "for backups")
  end.

Definition replicaCreate (c : CrunchyCluster) (replicaCreateRepoName : string) : ConditionStatus * string * string :=
  match repoStatus c replicaCreateRepoName with
  | None => (ConditionUnknown, "RepoStatusMissing", "Status is missing for the replica create repo")
  | Some s =>
      if rst_ReplicaCreateBackupComplete s
      then (ConditionTrue, "RepoBackupComplete", "pgBackRest replica creation is now possible")
      else (ConditionFalse, "RepoBackupNotComplete", "pgBackRest replica creation is not currently " +:+ "possible")
  end.

(** ** Stanzas: the result is whether the configuration in the pod is stale. *)
Definition stanzaBody (c : CrunchyCluster) (o : observedInstances) (configHash : string)
    : program (CrunchyCluster * (bool * option error)) :=
  match writableInstance o with
  | None => Ret (c, (false, None))
  | Some i =>
      if forallb rst_StanzaCreated (ps_Repos (backrest c)) then Ret (c, (false, None))
      else
        let pod := (cc_Namespace c, i_Name i +:+ "-0") in
        let! r := StanzaCreateOrUpgrade pod configHash (specRepos c) in
        match r with
        | Err e =>
            let! _ := call (Event "Warning" EventUnableToCreateStanzas) in
            Ret (c, (false, Some e))
        | Ok true => Ret (c, (true, None))
        | Ok false =>
            let! _ := call (Event "Normal" EventStanzasCreated) in
            let! history := ArchivePushHistoryFiles pod in
            let! _ := match snd history with
                      | Some _ => call (Event "Warning" "ArchivePushHistoryFilesFailed")
                      | None => Ret tt
                      end in
            Ret (onBackrest (fun s => s <| ps_Repos ::= map (fun rs => rs <| rst_StanzaCreated := true |>) |>) c,
                 (false, None))
        end
  end.

Definition reconcileStanzaCreate (c : CrunchyCluster) (o : observedInstances) (configHash : string)
    : program (CrunchyCluster * (bool * option error)) :=
  let! r := stanzaBody c o configHash in
  match specRepos c with
  | [] => Ret r
  | repo :: _ =>
      let! c := setCondition (fst r) ConditionReplicaRepoReady (replicaRepoReady (fst r) (repo_Name repo)) in
      Ret (c, snd r)
  end.
End Conditions.

(** ** Jobs *)
Definition operatorVersion : string := "3.2.0".
Definition PGBackRestRepoContainerName : string := "pgbackrest".

(** The digits of the first number in a text: [regexRepoIndex.FindString]. *)
Fixpoint leadingDigits (s : string) : string :=
  match s with
  | String c s => if is_digit c then String c (leadingDigits s) else EmptyString
  | EmptyString => EmptyString
  end.

Fixpoint repoIndex (s : string) : string :=
  match s with
  | String c t => if is_digit c then leadingDigits s else repoIndex t
  | EmptyString => EmptyString
  end.

(** The job that the configuration asks for, as far as [JobSpec] goes.
    [RELATED_IMAGE_PGBACKREST] is the operator's environment, [snapshots] the
    feature gate [VolumeSnapshots], and [operatorPod] the key of the operator's
    own pod: the namespace may be unknown. *)
Section Jobs.
Context `{GoVersion, LabelMatching}.
Context (RELATED_IMAGE_PGBACKREST : string) (snapshots : bool) (operatorPod : result key).
(** [Selector.String] *)
Context (selectorString : Selector -> string).

(** [k8s.InitImage] *)
Definition operatorImage : action string :=
  match operatorPod with
  | Err e => Ret (Err (Wrap "get operator pod" (Wrap "get namespace" e)))
  | Ok at_ =>
      do! pod := call (Get KPod at_) or "get operator pod" in
      match List.find (fun c => bool_decide (c.1 = "operator")) (p_Images pod) with
      | Some c => Ret (Ok c.2)
      | None => Ret (Err (New "manager container not found"))
      end
  end.

Definition InitImage (c : CrunchyCluster) (componentImage : string) : action string :=
  if nonempty componentImage then Ret (Ok componentImage)
  else if nonempty (cc_InitImage c) then Ret (Ok (cc_InitImage c))
  else
    do! image := operatorImage or "get operator image" in
    let crVersion := default "" (om_Labels (cc_Meta c) !! LabelVersion) in
    if negb (nonempty crVersion) then Ret (Ok image)
    else if bool_decide (CompareVersion (config c) operatorVersion = 0%Z) then Ret (Ok image)
    else Ret (Ok (hd "" (Split image ":"%char) +:+ ":" +:+ crVersion)).

Definition since (c : CrunchyCluster) (v : string) : bool := bool_decide (0 <= CompareVersion (config c) v)%Z.

Definition backupCommandOpts (c : CrunchyCluster) (repo : PGBackRestRepo) (opts : list string) : list string :=
  ["--stanza=" +:+ DefaultStanzaName; "--repo=" +:+ repoIndex (repo_Name repo)] ++
  (if cc_Snapshots c && snapshots then ["--archive-copy=y"; "--archive-check=y"] else []) ++ opts.

Definition generateBackupJobSpecIntent (c : CrunchyCluster) (repo : PGBackRestRepo) (serviceAccountName initImage : string)
    (labels annotations : gmap string string) (opts : list string) : JobSpec :=
  let archive := cc_Backups c in
  let image := if nonempty (pa_Image archive) then pa_Image archive else RELATED_IMAGE_PGBACKREST in
  let env := [EnvValue "COMMAND" "backup"; EnvValue "COMMAND_OPTS" (Join (backupCommandOpts c repo opts) " ");
              EnvValue "COMPARE_HASH" "true"; EnvValue "CONTAINER" PGBackRestRepoContainerName;
              EnvValue "NAMESPACE" (cc_Namespace c);
              EnvValue "SELECTOR" (selectorString (PGBackRestDedicatedSelector (cc_Name c)))] in
  let env := if since c "2.7.0" && bool_decide (is_Some (pa_Manual archive)) && negb (bool_decide (pa_InitialDelay archive = 0%Z))
             then env ++ [EnvValue "INITIAL_DELAY_SECS" (pretty (pa_InitialDelay archive))] else env in
  let given (manual : PGBackRestManualBackup -> list string) (always : list string) : list string :=
    if since c "2.9.0" then
      match pa_Manual archive with
      | Some m => if bool_decide (manual m = []) then always else manual m
      | None => always
      end
    else [] in
  mkJobSpec image ["/opt/crunchy/bin/pgbackrest"] []
    (if since c "2.7.0" then [("crunchy-bin", "/opt/crunchy")] else [])
    (pa_JobTolerations archive)
    (if since c "2.7.0" then [PGBackRestRepoContainerName +:+ "-init"] else [])
    (if since c "2.7.0" then initImage else "")
    (env ++ map EnvEntry (given man_Env (pa_Env archive))) (given man_EnvFrom (pa_EnvFrom archive))
    serviceAccountName labels
    (if since c "2.7.0" then <[DefaultContainerAnnotation := PGBackRestRepoContainerName]> annotations else annotations).

Definition backupLabels (c : CrunchyCluster) (own : gmap string string) : gmap string string :=
  Merge [md_Labels (cc_Metadata c); md_Labels (pa_Metadata (cc_Backups c));
         WithPerconaLabels own (cc_Name c) "" (default "" (om_Labels (cc_Meta c) !! LabelVersion))].

Definition backupAnnotations (c : CrunchyCluster) (own : gmap string string) : gmap string string :=
  Merge [md_Annotations (cc_Metadata c); md_Annotations (pa_Metadata (cc_Backups c)); own].

(** A job to apply: it has the name of the current one, if there is one.  Its
    annotations are the map that the pod's are added to. *)
Definition backupJob (name resourceVersion : string) (c : CrunchyCluster) (finalizers : list string) (spec : JobSpec) : Job :=
  mkJob (mkMeta name (cc_Namespace c) "" resourceVersion 0 0 None (js_Labels spec) (js_Annotations spec) finalizers None "")
    [] None 0 0 (Some spec) None 0 None None "".

(** *** The first backup, from which replicas are made *)
Section ReplicaCreate.
Context `{MetaConditions}.

Definition setReplicaCreateComplete (name : string) (l : list RepoStatus) : list RepoStatus :=
  match list_find (fun s => rst_Name s = name) l with
  | Some (i, _) => alter (fun s => s <| rst_ReplicaCreateBackupComplete := true |>) i l
  | None => l
  end.

Definition PGBackrestJobTypeOption : string :=
  "--annotation=" +:+ char dquote +:+ PGBackrestAnnotationJobType +:+ char dquote +:+ "=" +:+
  char dquote +:+ BackupReplicaCreate +:+ char dquote.

Definition applyReplicaCreateBackup (c : CrunchyCluster) (job : option Job) (sa configHash : string)
    (replicaCreateRepo : PGBackRestRepo) : program (option error) :=
  let! rnd := call (Rand 4) in
  let name := match job with Some j => om_Name (j_Meta j) | None => meta_Name (PGBackRestBackupJob rnd (config c)) end in
  match specRepos c with
  | [] => Ret (Some panic)
  | first :: _ =>
      let labels := backupLabels c (PGBackRestBackupJobLabels (cc_Name c) (repo_Name first) BackupReplicaCreate) in
      let annotations := backupAnnotations c {[PGBackRestConfigHash := configHash]} in
      let! image := InitImage c (pa_InitImage (cc_Backups c)) in
      match image with
      | Err e => Ret (Some e)
      | Ok initImage =>
          let! r := call (Apply KJob (backupJob name "" c []
            (generateBackupJobSpecIntent c replicaCreateRepo sa initImage labels annotations [PGBackrestJobTypeOption]))) in
          Ret (match r with Ok _ => None | Err e => Some e end)
      end
  end.

Definition replicaCreateBody (c : CrunchyCluster) (o : observedInstances) (jobs : list Job) (sa configHash : string)
    (replicaCreateRepo : PGBackRestRepo) : program (CrunchyCluster * option error) :=
  match writableInstance o, repoStatus c (repo_Name replicaCreateRepo) with
  | Some _, Some status =>
      if rst_ReplicaCreateBackupComplete status then Ret (c, None)
      else
        let ready t := conditionHolds (cc_Conditions c) t in
        match jobs with
        | job :: _ =>
            if JobFailed job || negb (bool_decide (repo_Name replicaCreateRepo = label (j_Meta job) LabelPGBackRestRepo))
               || negb (bool_decide (annotation (j_Meta job) PGBackRestConfigHash = configHash)) then
              let! r := call (Delete KJob (objectKey (j_Meta job)) Background) in
              Ret (c, match r with Ok _ => None | Err e => Some e end)
            else if JobCompleted job then
              Ret (onBackrest (fun s => s <| ps_Repos ::= setReplicaCreateComplete (repo_Name replicaCreateRepo) |>) c, None)
            else
              let! e := applyReplicaCreateBackup c (Some job) sa configHash replicaCreateRepo in Ret (c, e)
        | [] =>
            if negb (ready ConditionRepoHostReady) || negb (ready ConditionReplicaRepoReady) then Ret (c, None)
            else let! e := applyReplicaCreateBackup c None sa configHash replicaCreateRepo in Ret (c, e)
        end
  | _, _ => Ret (c, None)
  end.

Definition reconcileReplicaCreateBackup (c : CrunchyCluster) (o : observedInstances) (jobs : list Job)
    (sa configHash : string) (replicaCreateRepo : PGBackRestRepo) : program (CrunchyCluster * option error) :=
  let! r := replicaCreateBody c o jobs sa configHash replicaCreateRepo in
  let! c := setCondition (fst r) ConditionReplicaCreate (replicaCreate (fst r) (repo_Name replicaCreateRepo)) in
  Ret (c, snd r).
End ReplicaCreate.

(** *** Manual backups *)
Section Manual.
Context `{MetaConditions}.

(** A job is needed for a backup that exists, belongs to the cluster, is not
    finished and has none. *)
Definition manualBackupJobNeeded (c : CrunchyCluster) (backupName : string) : action bool :=
  let! r := call (Get KBackup (cc_Namespace c, backupName)) in
  Ret (match r with
       | Err e => if IsNotFound e then Ok false else Err e
       | Ok pgBackup =>
           if negb (bool_decide (b_PGCluster pgBackup = cc_Name c)) then Ok false
           else if isDeleting (b_Meta pgBackup) || IsTerminal (b_State pgBackup) then Ok false
           else Ok (negb (nonempty (bs_JobName (b_Status pgBackup))))
       end).

Definition lastNamed {A} (name : A -> string) (n : string) (l : list A) : option A :=
  last (List.filter (fun x => bool_decide (name x = n)) l).

(** [--repo] belongs in the field of its own. *)
Definition hasRepoOption (opts : list string) : bool :=
  existsb (fun opt => Contains opt "--repo=" || Contains opt "--repo ") opts.

Definition applyManualBackup (c : CrunchyCluster) (job : option Job) (sa manualAnnotation : string)
    (manual : PGBackRestManualBackup) (repo : PGBackRestRepo) : program (option error) :=
  let! rnd := call (Rand 4) in
  let name := match job with Some j => om_Name (j_Meta j) | None => meta_Name (PGBackRestBackupJob rnd (config c)) end in
  let version := match job with Some j => om_ResourceVersion (j_Meta j) | None => "" end in
  let labels := backupLabels c (PGBackRestBackupJobLabels (cc_Name c) (man_RepoName manual) BackupManual) in
  let annotations := backupAnnotations c {[PGBackRestBackup := manualAnnotation]} in
  let! image := InitImage c (pa_InitImage (cc_Backups c)) in
  match image with
  | Err e => Ret (Some e)
  | Ok initImage =>
      let! r := call (Apply KJob (backupJob name version c [FinalizerKeepJob]
        (generateBackupJobSpecIntent c repo sa initImage labels annotations (man_Options manual)))) in
      Ret (match r with Ok _ => None | Err e => Some e end)
  end.

(** From the readiness of the repository host on. *)
Definition startManualBackup (c : CrunchyCluster) (job : option Job) (sa manualAnnotation : string)
    (manual : PGBackRestManualBackup) : program (option error) :=
  if negb (conditionHolds (cc_Conditions c) ConditionRepoHostReady) then Ret None
  else if negb (conditionHolds (cc_Conditions c) ConditionReplicaCreate) then Ret None
  else
    match lastNamed rst_Name (man_RepoName manual) (ps_Repos (backrest c)) with
    | None => let! _ := call (Event "Warning" "InvalidBackupRepo") in Ret None
    | Some status =>
        if negb (rst_StanzaCreated status) then let! _ := call (Event "Warning" "StanzaNotCreated") in Ret None
        else
          match lastNamed repo_Name (man_RepoName manual) (specRepos c) with
          | Some repo =>
              if negb (nonempty (repo_Name repo)) then
                Ret (Some (New ("repo " +:+ Quote (man_RepoName manual) +:+ " is not defined for this cluster")))
              else if hasRepoOption (man_Options manual) then
                let! _ := call (Event "Warning" "InvalidManualBackup") in Ret None
              else applyManualBackup c job sa manualAnnotation manual repo
          | None => Ret (Some (New ("repo " +:+ Quote (man_RepoName manual) +:+ " is not defined for this cluster")))
          end
    end.

(** The status of a job, taken over by the status of the backup. *)
Definition followJob (job : Job) (st : PGBackRestJobStatus) : PGBackRestJobStatus :=
  mkJobStatus (jst_ID st) (if JobCompleted job || JobFailed job then true else jst_Finished st)
    (j_Succeeded job) (j_Failed job) (j_CompletionTime job) (j_StartTime job) (j_Active job).

Definition outcomeCondition (job : Job) : option (ConditionStatus * string * string) :=
  if JobCompleted job then Some (ConditionTrue, "ManualBackupComplete", "Manual backup completed successfully")
  else if JobFailed job then Some (ConditionFalse, "ManualBackupFailed", "Manual backup did not complete successfully")
  else None.

(** The status of the current job is recorded in the cluster at hand. *)
Definition observeManualJob (c : CrunchyCluster) (job : Job) : program CrunchyCluster :=
  match ps_ManualBackup (backrest c) with
  | Some st =>
      if bool_decide (jst_ID st = annotation (j_Meta job) PGBackRestBackup) then
        let! c := match outcomeCondition job with
                  | Some s => setCondition c ConditionManualBackupSuccessful s
                  | None => Ret c
                  end in
        Ret (onBackrest (fun s => s <| ps_ManualBackup := Some (followJob job st) |>) c)
      else Ret c
  | None => Ret c
  end.

(** A finished job of another backup than the requested one makes place. *)
Definition supersededJob (manualAnnotation : string) (job : Job) : bool :=
  (JobCompleted job || JobFailed job) && nonempty manualAnnotation
  && negb (bool_decide (annotation (j_Meta job) PGBackRestBackup = manualAnnotation)).

(** The function with the cluster [c] that it works on: the result has that
    cluster, the status of a new backup if there is one, and the error. *)
Definition manualBody (c : CrunchyCluster) (jobs : list Job) (sa : string) (o : observedInstances)
    : program (CrunchyCluster * option PGBackRestJobStatus * option error) :=
  let manualAnnotation := annotation (cc_Meta c) PGBackRestBackup in
  let job := head jobs in
  let! c := match job with Some j => observeManualJob c j | None => Ret c end in
  match (if from_option (supersededJob manualAnnotation) false job then job else None) with
  | Some j =>
      let! r := call (Delete KJob (objectKey (j_Meta j)) Background) in
      Ret (c, None, match r with Ok _ => None | Err e => Some e end)
  | None =>
      match writableInstance o, pa_Manual (cc_Backups c) with
      | Some _, Some manual =>
          if negb (nonempty manualAnnotation) then Ret (c, None, None)
          else
            let status := ps_ManualBackup (backrest c) in
            let known := match status with Some st => bool_decide (jst_ID st = manualAnnotation) | None => false end in
            let new := if known then None else Some (mkJobStatus manualAnnotation false 0 0 None None 0) in
            let c := if known then c
                     else onClusterConditions (fun l => RemoveStatusCondition l ConditionManualBackupSuccessful) c in
            if known && from_option jst_Finished false status then Ret (c, new, None)
            else
              let! needed := match job with
                             | Some _ => Ret (Ok true)
                             | None => manualBackupJobNeeded c manualAnnotation
                             end in
              match needed with
              | Err e => Ret (c, new, Some e)
              | Ok false => Ret (c, new, None)
              | Ok true => let! e := startManualBackup c job sa manualAnnotation manual in Ret (c, new, e)
              end
      | _, _ => Ret (c, None, None)
      end
  end.

Definition recordNew (new : option PGBackRestJobStatus) (c : CrunchyCluster) : CrunchyCluster :=
  match new with Some st => onBackrest (fun s => s <| ps_ManualBackup := Some st |>) c | None => c end.

(** The function works on the cluster as it is read anew, if it has a status,
    and only the status of a new backup is recorded in the cluster that is
    being reconciled. *)
Definition reconcileManualBackup (c : CrunchyCluster) (jobs : list Job) (sa : string) (o : observedInstances)
    : program (CrunchyCluster * option error) :=
  let! r := call (Get KCrunchy (objectKey (cc_Meta c))) in
  let own (_ : unit) :=
    let! b := manualBody c jobs sa o in Ret (recordNew b.1.2 b.1.1, b.2) in
  match r with
  | Err e => if IsNotFound e then own tt else Ret (c, Some e)
  | Ok current =>
      match cc_PGBackRest current with
      | None => own tt
      | Some _ => let! b := manualBody current jobs sa o in Ret (recordNew b.1.2 c, b.2)
      end
  end.
End Manual.

(** *** Scheduled backups *)
Section Scheduled.
Context `{MetaConditions, ControllerRuntime}.

(** The last CronJob that has the labels and is not being deleted. *)
Definition currentCronJob (c : CrunchyCluster) (repoName backupType : string) (cronjobs : list CronJob) : option CronJob :=
  last (List.filter (fun j =>
    negb (isDeleting (cj_Meta j)) && bool_decide (label (cj_Meta j) LabelCluster = cc_Name c)
    && bool_decide (label (cj_Meta j) LabelPGBackRestCronJob = backupType)
    && bool_decide (label (cj_Meta j) LabelPGBackRestRepo = repoName)) cronjobs).

Definition applyCronJob (c : CrunchyCluster) (j : CronJob) : program (option error) :=
  let! err := match SetControllerReference (cc_Meta c) (cj_Meta j) with
              | Err e => Ret (Some e)
              | Ok m =>
                  let! r := call (Apply KCronJob (j <| cj_Meta := m |>)) in
                  Ret (match r with Ok _ => None | Err e => Some e end)
              end in
  let! _ := match err with Some _ => call (Event "Warning" EventUnableToCreatePGBackRestCronJob) | None => Ret tt end in
  Ret err.

Definition reconcilePGBackRestCronJob (c : CrunchyCluster) (repo : PGBackRestRepo) (backupType schedule sa : string)
    (cronjobs : list CronJob) : program (option error) :=
  let annotations := backupAnnotations c ∅ in
  let labels := backupLabels c (PGBackRestCronJobLabels (cc_Name c) (repo_Name repo) backupType) in
  let name := match currentCronJob c (repo_Name repo) backupType cronjobs with
              | Some j => om_Name (cj_Meta j)
              | None => meta_Name (PGBackRestCronJob (config c) backupType (repo_Name repo))
              end in
  if negb (ClusterBootstrapped c) then Ret None
  else if negb (conditionHolds (cc_Conditions c) ConditionReplicaCreate) then Ret None
  else
    match lastNamed rst_Name (repo_Name repo) (ps_Repos (backrest c)) with
    | None => let! _ := call (Event "Warning" "InvalidBackupRepo") in Ret None
    | Some status =>
        if negb (rst_StanzaCreated status) then let! _ := call (Event "Warning" "StanzaNotCreated") in Ret None
        else
          let! image := InitImage c (pa_InitImage (cc_Backups c)) in
          match image with
          | Err e => Ret (Some e)
          | Ok initImage =>
              let spec := generateBackupJobSpecIntent c repo sa initImage labels annotations ["--type=" +:+ backupType] in
              let suspend := deref (cc_Shutdown c) false || IsStandby (config c) in
              applyCronJob c (mkCronJob (mkMeta name (cc_Namespace c) "" "" 0 0 None labels (js_Annotations spec) [] None "")
                                schedule suspend true (Some spec))
          end
    end.

(** Whether to come back. *)
Fixpoint reconcileSchedules (c : CrunchyCluster) (sa : string) (cronjobs : list CronJob)
    (l : list (PGBackRestRepo * string * string)) (requeue : bool) : program bool :=
  match l with
  | [] => Ret requeue
  | (repo, type_, schedule) :: l =>
      let! e := reconcilePGBackRestCronJob c repo type_ schedule sa cronjobs in
      reconcileSchedules c sa cronjobs l (bool_decide (is_Some e) || requeue)
  end.

Definition schedulesOf (repo : PGBackRestRepo) : list (PGBackRestRepo * string * string) :=
  match repo_Schedules repo with
  | None => []
  | Some s =>
      let one type_ (schedule : option string) :=
        match schedule with Some s => [(repo, type_, s)] | None => [] end in
      one Full (sched_Full s) ++ one Differential (sched_Differential s) ++ one Incremental (sched_Incremental s)
  end.

Definition reconcileScheduledBackups (c : CrunchyCluster) (sa : string) (cronjobs : list CronJob) : program bool :=
  reconcileSchedules c sa cronjobs (flat_map schedulesOf (specRepos c)) false.
End Scheduled.

(** *** The end of [reconcilePGBackRest]: the cluster, and after how many
    seconds to come back, 0 for never. *)
Definition reconcileBackups `{MetaConditions, ControllerRuntime} (c : CrunchyCluster) (resources : RepoResources)
    (o : observedInstances) (sa configHash : string) (replicaCreateRepo : PGBackRestRepo) (requeueAfter : Z)
    : program (CrunchyCluster * Z) :=
  let! r := reconcileStanzaCreate c o configHash in
  let '(c, (configHashMismatch, err)) := r in
  let requeueAfter := if bool_decide (is_Some err) then 10%Z else requeueAfter in
  let requeueAfter := if configHashMismatch : bool then 10%Z else requeueAfter in
  let! requeue := reconcileScheduledBackups c sa (rr_cronjobs resources) in
  let requeueAfter := if requeue : bool then 10%Z else requeueAfter in
  let! r := reconcileReplicaCreateBackup c o (rr_replicaCreateBackupJobs resources) sa configHash replicaCreateRepo in
  let '(c, err) := r in
  let requeueAfter := if bool_decide (is_Some err) then 1%Z else requeueAfter in
  let! r := reconcileManualBackup c (rr_manualBackupJobs resources) sa o in
  let '(c, err) := r in
  Ret (c, if bool_decide (is_Some err) then 1%Z else requeueAfter).
End Jobs.

(** ** Deletion *)

(** What the specification still needs of what pgBackRest has. *)
Definition needed (c : CrunchyCluster) (m : ObjectMeta) : Prop :=
  let named (r : PGBackRestRepo) := r ∈ specRepos c /\ repo_Name r = label m LabelPGBackRestRepo in
  if hasLabel m LabelPGBackRestConfig then True
  else if hasLabel m LabelPGBackRestDedicated then
    om_Name m <> meta_Name (PGBackRestSSHConfig (config c)) /\ om_Name m <> meta_Name (PGBackRestSSHSecret (config c))
  else if hasLabel m LabelPGBackRestRepoVolume then exists r, named r /\ is_Some (repo_Volume r)
  else if hasLabel m LabelPGBackRestBackup then exists r, named r
  else if hasLabel m LabelPGBackRestCronJob then
    exists r, List.find (fun r => bool_decide (repo_Name r = label m LabelPGBackRestRepo)) (specRepos c) = Some r /\
      backupScheduleFound r (label m LabelPGBackRestCronJob) = true
  else if hasLabel m LabelPGBackRestRestore then
    is_Some (om_Annotations m !! PGBackRestBackupJobCompletion) \/ ClusterBootstrapped c = false
  else hasLabel m LabelPGBackRest = true.

Lemma length_filter_pos {A} (f : A -> bool) l : length (List.filter f l) <> 0 <-> exists x, x ∈ l /\ f x = true.
Proof.
  split.
  - destruct (List.filter f l) as [|x k] eqn:E; [done|]. intros _. exists x. apply elem_of_bfilter. rewrite E. left.
  - intros (x & Hx & Hf) Hl. assert (Hin : x ∈ List.filter f l) by (by apply elem_of_bfilter).
    destruct (List.filter f l); [by apply elem_of_nil in Hin|done].
Qed.

Lemma b2n_pos b : b2n b <> 0 <-> b = true.
Proof. by destruct b. Qed.

Lemma timesKept_needed c m : timesKept c true m <> 0 <-> needed c m.
Proof.
  unfold timesKept, needed. destruct (hasLabel m LabelPGBackRestConfig); [done|].
  destruct (hasLabel m LabelPGBackRestDedicated).
  { rewrite b2n_pos. simpl. rewrite andb_true_iff, !negb_true_iff, !bool_decide_eq_false. done. }
  destruct (hasLabel m LabelPGBackRestRepoVolume).
  { rewrite length_filter_pos. unfold isVolume. setoid_rewrite andb_true_iff. setoid_rewrite bool_decide_eq_true. naive_solver. }
  destruct (hasLabel m LabelPGBackRestBackup).
  { rewrite length_filter_pos. by setoid_rewrite bool_decide_eq_true. }
  destruct (hasLabel m LabelPGBackRestCronJob).
  { destruct (List.find _ (specRepos c)) as [r|]; [rewrite b2n_pos|]; naive_solver. }
  destruct (hasLabel m LabelPGBackRestRestore).
  { destruct (ClusterBootstrapped c); simpl; case_bool_decide; simpl; naive_solver. }
  apply b2n_pos.
Qed.

Section Deletion.
Context `{LabelMatching} (c : CrunchyCluster) (specFound : bool).

Lemma wps_cleanup G h k owned kept Q :
  (forall o h', o ∈ owned -> timesKept c specFound (meta o) = 0 -> h `prefix_of` h' ->
     G h' (Delete k (objectKey (meta o)) Background)) ->
  (forall h' e, h `prefix_of` h' -> Q h' (Err e)) ->
  (forall h' l, h `prefix_of` h' ->
     (forall o, o ∈ l -> o ∈ kept \/ (o ∈ owned /\ timesKept c specFound (meta o) <> 0)) -> Q h' (Ok l)) ->
  wps G h (cleanupRepoResources k c specFound owned kept) Q.
Proof.
  revert h kept. induction owned as [|o owned IH]; intros h kept Hd He Hq; simpl; [apply Hq; [done|by left]|].
  destruct (timesKept c specFound (meta o)) as [|n] eqn:Et.
  - apply wps_bindr. split; [apply Hd; [left|done|done]|]. intros [[]|e]; [|by apply He, prefix_app_r].
    assert (Hp : h `prefix_of` h ++ [Ev (Delete k (objectKey (meta o)) Background : op) (Ok tt : result unit)])
      by by apply prefix_app_r.
    apply IH.
    + intros o' h' Ho Ht Hp'. apply Hd; [by right|done|by etransitivity].
    + intros h' e Hp'. apply He. by etransitivity.
    + intros h' l Hp' Hl. apply Hq; [by etransitivity|]. intros o' Ho'. destruct (Hl o' Ho') as [?|[??]]; [by left|].
      right. split; [by right|done].
  - apply IH; [intros o' h' Ho; apply Hd; by right|done|]. intros h' l Hp Hl. apply Hq; [done|].
    intros o' Ho'. destruct (Hl o' Ho') as [Hin|[??]]; [|right; by split; [right|]].
    change (o :: repeat o n) with (repeat o (S n)) in Hin. apply elem_of_app in Hin as [?|Hin]; [by left|]. right.
    apply list_elem_of_In, repeat_spec in Hin as ->. split; [left|]. by rewrite Et.
Qed.

(** Everything of a kind is listed by the labels of pgBackRest. *)
Definition ownedList (k : kind) : op := ListAll k (cc_Namespace c) (ByLabels (PGBackRestSelector (cc_Name c))).

Definition listed (h : history) (k : kind) (o : obj k) : Prop :=
  exists items : list (obj k), (Ev (ownedList k) (Ok items : result (list (obj k))) : event resp) ∈ h /\ o ∈ items.

#[export] Instance listed_grows k o : Grows (fun h => listed h k o).
Proof. unfold listed. apply _. Qed.

Lemma wps_listOwned G h k Q :
  G h (ownedList k) ->
  (forall o h', listed h' k o -> timesKept c specFound (meta o) = 0 -> h `prefix_of` h' ->
     G h' (Delete k (objectKey (meta o)) Background)) ->
  (forall h' e, h `prefix_of` h' -> Q h' (Err e)) ->
  (forall h' l, h `prefix_of` h' ->
     (forall o, o ∈ l -> listed h' k o /\ timesKept c specFound (meta o) <> 0) -> Q h' (Ok l)) ->
  wps G h (listOwned k c specFound) Q.
Proof.
  intros Hg Hd He Hq. unfold listOwned. apply wps_list_bindr. split; [done|].
  intros [items|e]; [|by apply He, prefix_app_r].
  set (h1 := h ++ _). assert (Hp : h `prefix_of` h1) by by apply prefix_app_r.
  assert (Hl : forall o, o ∈ items -> listed h1 k o) by (intros o Ho; exists items; split; [apply elem_of_snoc|done]).
  assert (Hcl : wps G h1 (cleanupRepoResources k c specFound items []) Q).
  { apply wps_cleanup.
    - intros o h' Ho Ht Hp'. apply Hd; [|done|by etransitivity].
      eapply (grows (P := fun h => listed h k o)); [by apply Hl|done].
    - intros h' e Hp'. apply He. by etransitivity.
    - intros h' l Hp' Hk. apply Hq; [by etransitivity|]. intros o Ho. destruct (Hk o Ho) as [Hn|[Hi Ht]]; [by apply elem_of_nil in Hn|].
      split; [|done]. eapply (grows (P := fun h => listed h k o)); [by apply Hl|done]. }
  destruct items; [|exact Hcl]. simpl. apply Hq; [done|]. intros o Ho. by apply elem_of_nil in Ho.
Qed.

(** The resources that are handed on. *)
Definition resources_needed (h : history) (r : RepoResources) : Prop :=
  (forall o, o ∈ rr_hosts r -> listed h KSts o /\ timesKept c specFound (st_Meta o) <> 0) /\
  (forall o, o ∈ rr_cronjobs r -> listed h KCronJob o /\ timesKept c specFound (cj_Meta o) <> 0) /\
  (forall o, o ∈ rr_manualBackupJobs r ++ rr_replicaCreateBackupJobs r ->
     listed h KJob o /\ timesKept c specFound (j_Meta o) <> 0) /\
  (forall o, o ∈ rr_pvcs r -> listed h KPVC o /\ timesKept c specFound (pvc_Meta o) <> 0).

Section Chain.
Context (G : history -> op -> Prop) (h0 : history) {B : Type} (Q : history -> result B -> Prop).
Hypothesis Hg : forall h' k, h0 `prefix_of` h' -> G h' (ownedList k).
Hypothesis Hd : forall k o h', listed h' k o -> timesKept c specFound (meta o) = 0 -> h0 `prefix_of` h' ->
  G h' (Delete k (objectKey (meta o)) Background).
Hypothesis He : forall h' e, h0 `prefix_of` h' -> Q h' (Err e).

Definition handed_on (h : history) (k : kind) (l : list (obj k)) : Prop :=
  forall o, o ∈ l -> listed h k o /\ timesKept c specFound (meta o) <> 0.

#[export] Instance handed_on_grows k l : Grows (fun h => handed_on h k l).
Proof. unfold handed_on. apply _. Qed.

Lemma wps_listOwned_bindr h k (f : list (obj k) -> action B) : h0 `prefix_of` h ->
  (forall h' l, h `prefix_of` h' -> handed_on h' k l -> wps G h' (f l) Q) ->
  wps G h (bindr (listOwned k c specFound) id f) Q.
Proof.
  intros Hp Hf. apply wps_bindr, wps_listOwned; [by apply Hg| | |].
  - intros o h' Hl Ht Hp'. apply Hd; [done|done|by etransitivity].
  - intros h' e Hp'. apply He. by etransitivity.
  - intros h' l Hp' Hl. by apply Hf.
Qed.
End Chain.

Lemma wps_resources G h Q :
  (forall h' k, h `prefix_of` h' -> G h' (ownedList k)) ->
  (forall k o h', listed h' k o -> timesKept c specFound (meta o) = 0 -> h `prefix_of` h' ->
     G h' (Delete k (objectKey (meta o)) Background)) ->
  (forall h' e, h `prefix_of` h' -> Q h' (Err e)) ->
  (forall h' r, h `prefix_of` h' -> resources_needed h' r -> Q h' (Ok r)) ->
  wps G h (getPGBackRestResources c specFound) Q.
Proof.
  intros Hg Hd He Hq. unfold getPGBackRestResources.
  apply (wps_listOwned_bindr G h Q Hg Hd He); [done|]. intros h1 hosts P1 K1.
  apply (wps_listOwned_bindr G h Q Hg Hd He); [done|]. intros h2 cronjobs P2 K2.
  assert (h `prefix_of` h2) by (by etransitivity).
  apply (wps_listOwned_bindr G h Q Hg Hd He); [done|]. intros h3 jobs P3 K3.
  assert (h `prefix_of` h3) by (by etransitivity).
  apply (wps_listOwned_bindr G h Q Hg Hd He); [done|]. intros h4 _ P4 _.
  assert (h `prefix_of` h4) by (by etransitivity).
  apply (wps_listOwned_bindr G h Q Hg Hd He); [done|]. intros h5 pvcs P5 K5.
  assert (h `prefix_of` h5) by (by etransitivity).
  do 4 (apply (wps_listOwned_bindr G h Q Hg Hd He); [by repeat (etransitivity; [eassumption|])|]; intros ? ? ? _).
  simpl. apply Hq; [by repeat (etransitivity; [eassumption|])|].
  assert (Hend : h5 `prefix_of` h'2) by (by repeat (etransitivity; [eassumption|])).
  split_and!.
  - eapply (grows (P := fun h => handed_on h KSts hosts)); [exact K1|]. by repeat (etransitivity; [eassumption|]).
  - eapply (grows (P := fun h => handed_on h KCronJob cronjobs)); [exact K2|]. by repeat (etransitivity; [eassumption|]).
  - assert (Hj : handed_on h'2 KJob jobs).
    { eapply (grows (P := fun h => handed_on h KJob jobs)); [exact K3|]. by repeat (etransitivity; [eassumption|]). }
    intros o Ho. apply Hj. simpl in Ho. apply elem_of_app in Ho as [Ho|Ho]; by apply elem_of_bfilter in Ho as [? _].
  - eapply (grows (P := fun h => handed_on h KPVC pvcs)); [exact K5|done].
Qed.
End Deletion.

(** *** CronJobs of a schedule that was removed *)
Definition own_role (l : string) : Prop :=
  l = LabelPGBackRestConfig \/ l = LabelPGBackRestDedicated \/ l = LabelPGBackRestRepoVolume.

Section StaleSchedule.
Context `{GoVersion, LabelMatching} (c : CrunchyCluster).

Definition perconaLabel (l : string) : Prop :=
  l = LabelPerconaManagedBy \/ l = LabelPerconaName \/ l = LabelPerconaPartOf \/ l = LabelPerconaInstance.

Lemma WithPerconaLabels_lookup own name version l :
  ~ perconaLabel l -> WithPerconaLabels own name "" version !! l = own !! l.
Proof.
  intros Hl. unfold WithPerconaLabels. cbv zeta.
  match goal with |- (if ?b then _ else _) !! _ = _ => destruct b end; [done|]. rewrite labels_Merge_spec.
  match goal with |- match ?x with _ => _ end = _ => destruct x as [v|] eqn:Hv; [exfalso|done] end.
  unfold perconaLabel in Hl. cbn [nonempty] in Hv. destruct (nonempty name);
    repeat (apply lookup_insert_Some in Hv as [[<- _]|[_ Hv]]; [tauto|]);
    apply lookup_singleton_Some in Hv as [<- _]; tauto.
Qed.

Lemma cronJobLabels_lookup repo type_ l :
  PGBackRestCronJobLabels (cc_Name c) repo type_ !! l =
  match ({[LabelPGBackRestRepo := repo; LabelPGBackRestCronJob := type_; LabelPGBackRestBackup := BackupScheduled]}
         : gmap string string) !! l with
  | Some v => Some v
  | None => PGBackRestLabels (cc_Name c) !! l
  end.
Proof. apply labels_Merge_spec. Qed.

(** A CronJob outlives its schedule.  The labels that the operator gives to
    CronJobs also mark them as backups, and the clean-up tests that mark first,
    so it never reaches its rule for CronJobs: as long as the repository is in
    the specification, a CronJob that the operator has made is kept and handed
    on, although its schedule is gone. *)
Theorem removed_schedule_keeps_its_cronjob repo type_ (j : CronJob) :
  repo ∈ specRepos c -> backupScheduleFound repo type_ = false ->
  (forall l, own_role l -> md_Labels (cc_Metadata c) !! l = None /\ md_Labels (pa_Metadata (cc_Backups c)) !! l = None) ->
  om_Labels (cj_Meta j) = backupLabels c (PGBackRestCronJobLabels (cc_Name c) (repo_Name repo) type_) ->
  exists n, exec (listOwned KCronJob c true) [Ev (ownedList c KCronJob) (Ok [j] : result (list CronJob)) : event resp]
    (Ok (repeat j (S n))).
Proof.
  intros Hin _ Hu Hl.
  assert (Hlook : forall l, ~ perconaLabel l -> (own_role l -> PGBackRestCronJobLabels (cc_Name c) (repo_Name repo) type_ !! l = None) ->
    match PGBackRestCronJobLabels (cc_Name c) (repo_Name repo) type_ !! l with
    | Some v => om_Labels (cj_Meta j) !! l = Some v
    | None => own_role l -> om_Labels (cj_Meta j) !! l = None
    end).
  { intros l Hp Ho. rewrite Hl. unfold backupLabels, Merge. simpl.
    rewrite labels_Merge_spec, WithPerconaLabels_lookup by done. case_goal; [done|]. intros Hr.
    destruct (Hu l Hr) as [Hu1 Hu2]. by rewrite !labels_Merge_spec, Hu1, Hu2. }
  assert (Hn : forall l, own_role l -> hasLabel (cj_Meta j) l = false).
  { intros l Hr. assert (Hc : PGBackRestCronJobLabels (cc_Name c) (repo_Name repo) type_ !! l = None).
    { rewrite cronJobLabels_lookup. destruct Hr as [->|[->| ->]]; by vm_compute. }
    specialize (Hlook l). rewrite Hc in Hlook. unfold hasLabel. rewrite Hlook; [done|..|done|done].
    destruct Hr as [->|[->| ->]]; by intros [?|[?|[?|?]]]. }
  assert (Hs : forall l v, ~ perconaLabel l -> ~ own_role l ->
    PGBackRestCronJobLabels (cc_Name c) (repo_Name repo) type_ !! l = Some v -> om_Labels (cj_Meta j) !! l = Some v).
  { intros l v Hp Ho Hc. specialize (Hlook l Hp ltac:(done)). by rewrite Hc in Hlook. }
  assert (Hb : om_Labels (cj_Meta j) !! LabelPGBackRestBackup = Some BackupScheduled).
  { apply Hs; [by intros [?|[?|[?|?]]]|by intros [?|[?|?]]|]. by rewrite cronJobLabels_lookup. }
  assert (Hr : om_Labels (cj_Meta j) !! LabelPGBackRestRepo = Some (repo_Name repo)).
  { apply Hs; [by intros [?|[?|[?|?]]]|by intros [?|[?|?]]|]. by rewrite cronJobLabels_lookup. }
  assert (Hk : timesKept c true (cj_Meta j) <> 0).
  { unfold timesKept. rewrite !Hn by (unfold own_role; tauto). unfold hasLabel at 1. rewrite Hb, bool_decide_eq_true_2 by done.
    apply length_filter_pos. exists repo. split; [done|]. apply bool_decide_eq_true_2. unfold label. by rewrite Hr. }
  destruct (timesKept c true (cj_Meta j)) as [|n] eqn:Et; [done|]. exists n.
  unfold listOwned. eexists _, _. split; [reflexivity|].
  change (exec (cleanupRepoResources KCronJob c true [j] []) [] (Ok (repeat j (S n)))).
  cbn [cleanupRepoResources]. change (meta (k := KCronJob) j) with (cj_Meta j). by rewrite Et.
Qed.
End StaleSchedule.

(** ** Removal of backups *)
Section Removal.
Context `{LabelMatching, MetaConditions} (before c : CrunchyCluster).

(** The gate of [Reconcile], then the first step of [reconcilePGBackRest]. *)
Definition gateAndCleanup : program (CrunchyCluster * option (result RepoResources)) :=
  let! g := backupsGate before c in
  match snd g with
  | inl found => let! r := getPGBackRestResources (fst g) found in Ret (fst g, Some r)
  | inr _ => Ret (fst g, None)
  end.

Definition removal_authorized (h : history) : Prop :=
  backupsSpecFound c = false /\
  (om_Annotations (cc_Meta c) !! AuthorizeBackupRemovalAnnotation = Some "true" \/
   exists e, IsNotFound e = true /\ got KSts (repoHostKey c) (Err e) ∈ h).

(** The calls, and what may be deleted. *)
Definition removal_guard (h : history) (o : op) : Prop :=
  match o with
  | Get KSts k => k = repoHostKey c
  | ListAll k ns sel => ListAll k ns sel = ownedList c k
  | Delete k at_ Background => exists o, listed c h k o /\ at_ = objectKey (meta o) /\
      (~ needed c (meta o) \/ removal_authorized h)
  | Now => True
  | StatusPatch KCrunchy b _ => b = before
  | _ => False
  end.

#[export] Instance removal_authorized_grows : Grows removal_authorized.
Proof. unfold removal_authorized. apply _. Qed.

Lemma conditions_change_nothing f m found : timesKept (onClusterConditions f c) found m = timesKept c found m.
Proof. reflexivity. Qed.

Lemma cleanup_guarded h found f :
  (found = false -> removal_authorized h) ->
  wps removal_guard h (getPGBackRestResources (onClusterConditions f c) found)
    (fun h' r => forall res, r = Ok res -> found = true ->
       (forall o, o ∈ rr_hosts res -> needed c (st_Meta o)) /\ (forall o, o ∈ rr_pvcs res -> needed c (pvc_Meta o)) /\
       (forall o, o ∈ rr_cronjobs res -> needed c (cj_Meta o)) /\
       (forall o, o ∈ rr_manualBackupJobs res ++ rr_replicaCreateBackupJobs res -> needed c (j_Meta o))).
Proof.
  intros Ha. apply (wps_resources (onClusterConditions f c) found).
  - done.
  - intros k o h' Hl Ht Hp. exists o. split_and!; [done|done|]. destruct found.
    + left. rewrite <- timesKept_needed. rewrite conditions_change_nothing in Ht. intros Hn. by apply Hn.
    + right. eapply (grows (P := removal_authorized)); [by apply Ha|done].
  - done.
  - intros h' r Hp (H1 & H2 & H3 & H4) res [= <-] ->.
    split_and!; intros o Ho; apply timesKept_needed; [apply H1|apply H4|apply H2|apply H3]; done.
Qed.

Definition gateVerdict (r : result StatefulSet) : bool * bool * option error :=
  match r with
  | Ok _ => if backupsSpecFound c then (true, true, None)
            else if authorizeBackupRemovalAnnotationPresent c then (false, true, None) else (false, false, None)
  | Err e => if IsNotFound e then (backupsSpecFound c, true, None) else (false, false, Some e)
  end.

Lemma gateVerdict_found r err found : gateVerdict r = (found, true, err) -> backupsSpecFound c = true -> found = true.
Proof.
  unfold gateVerdict. intros Hv Hs. rewrite Hs in Hv. destruct r as [sts|e]; [|destruct (IsNotFound e)]; congruence.
Qed.

Lemma wps_BackupsEnabled G h Q :
  G h (Get KSts (repoHostKey c)) ->
  (forall r, let h' := h ++ [got KSts (repoHostKey c) r] in
     ((gateVerdict r).1 = (false, true) -> removal_authorized h') -> Q h' (gateVerdict r)) ->
  wps G h (BackupsEnabled c) Q.
Proof.
  intros Hg Hq. unfold BackupsEnabled, ObserveBackupUniverse. rewrite wps_bind. split; [exact Hg|]. intros r.
  specialize (Hq r). cbv zeta in Hq. unfold gateVerdict, removal_authorized in Hq.
  destruct r as [sts|e]; [|destruct (IsNotFound e) eqn:En]; simpl in *.
  - destruct (backupsSpecFound c); [by apply Hq|].
    destruct (authorizeBackupRemovalAnnotationPresent c) eqn:Ea; simpl; apply Hq; [|done]. intros _. split; [done|]. left.
    by apply bool_decide_eq_true in Ea.
  - rewrite En in *. simpl. rewrite ?orb_true_r. destruct (backupsSpecFound c); simpl; apply Hq; [done|]. intros _. split; [done|]. right.
    exists e. split; [done|]. apply elem_of_snoc.
  - rewrite En in *. simpl. by apply Hq.
Qed.

(** Backups are removed only on purpose.  What pgBackRest has in the
    cluster is found by its labels, and an object that was found is deleted
    only when the specification has no use for it, by its role: a volume of a
    repository that is gone or has no volume any more, a job of a repository
    that is gone, a CronJob without its schedule that is not marked as a backup
    too, what is left of a restore.
    An object that is still needed, such as the volume of a repository, is
    deleted only when the specification has no backups and either the cluster
    has the annotation that authorizes it or there is no repository host.
    What is handed on to the rest of the reconciliation is needed. *)
Theorem removal_needs_two_keys :
  wps removal_guard [] gateAndCleanup (fun h r =>
    forall res, snd r = Some (Ok res) -> backupsSpecFound c = true ->
      (forall o, o ∈ rr_hosts res -> needed c (st_Meta o)) /\ (forall o, o ∈ rr_pvcs res -> needed c (pvc_Meta o)) /\
      (forall o, o ∈ rr_cronjobs res -> needed c (cj_Meta o)) /\
      (forall o, o ∈ rr_manualBackupJobs res ++ rr_replicaCreateBackupJobs res -> needed c (j_Meta o))).
Proof.
  unfold gateAndCleanup, backupsGate. rewrite !wps_bind. apply wps_BackupsEnabled; [done|]. intros r h1 Hv.
  destruct (gateVerdict r) as [[found []] err] eqn:Eg; cbn iota.
  - cbn [wps fst snd]. rewrite wps_bind. eapply wps_conseq; [apply cleanup_guarded; intros ->; by apply Hv|].
    simpl. intros h' r' Hr res [= ->] Hs. apply Hr; [done|]. by apply (gateVerdict_found r err).
  - simpl. split; [done|]. intros now. split; [done|]. by intros rp.
Qed.

(** An error while the repository host is read pauses the cluster.  When
    the read fails for another reason than that there is none, the cluster is
    reported as paused until its backups are filled in or their removal is
    authorized, although nothing is known about them; the error is dropped, and
    if the status can be written the reconciliation ends without an error, so
    that nothing asks for another attempt. *)
Theorem read_error_pauses_cluster e now patched :
  IsNotFound e = false ->
  exists c', exec (backupsGate before c)
    [Ev (Get KSts (repoHostKey c) : op) (Err e : result StatefulSet); Ev (Now : op) now;
     Ev (StatusPatch KCrunchy before c' : op) (Ok patched : result CrunchyCluster)] (c', inr None) /\
    (exists cond, FindStatusCondition (cc_Conditions c') PostgresClusterProgressing = Some cond /\
      cond_Status cond = ConditionFalse /\ cond_Reason cond = "Paused").
Proof.
  intros He. eexists. split.
  - unfold backupsGate, BackupsEnabled, ObserveBackupUniverse. eexists _, _. split; [reflexivity|].
    cbn [bind]. rewrite He. cbn [bind]. eexists _, _. split; [reflexivity|]. eexists _, _. split; [reflexivity|]. by split.
  - edestruct SetStatusCondition_same as [t Ht]. eexists. split; [exact Ht|]. done.
Qed.
End Removal.

(** ** The status of the repositories *)
Section StatusProofs.
Context `{SortPackage} (replicaCreateRepoName : string) (repoStatuses : list RepoStatus).

(** What a status says was said before, of the same configuration. *)
Definition earned (s : RepoStatus) : Prop :=
  rst_StanzaCreated s = true \/ rst_ReplicaCreateBackupComplete s = true ->
  exists old, old ∈ repoStatuses /\ rst_Name old = rst_Name s /\
    rst_RepoOptionsHash old = rst_RepoOptionsHash s /\ rst_VolumeName old ∈ [""; rst_VolumeName s] /\
    (rst_StanzaCreated s = true -> rst_StanzaCreated old = true) /\
    (rst_ReplicaCreateBackupComplete s = true ->
       rst_ReplicaCreateBackupComplete old = true /\ rst_Name s = replicaCreateRepoName).

Lemma volumeStatus_earned desired rv :
  earned (volumeStatus replicaCreateRepoName repoStatuses desired rv) /\
  rst_Name (volumeStatus replicaCreateRepoName repoStatuses desired rv) = label (pvc_Meta rv) LabelPGBackRestRepo.
Proof.
  unfold volumeStatus. destruct (List.find _ repoStatuses) as [rs|] eqn:E; [|split; [by intros [?|?]|done]].
  apply find_some in E as [Hin Hn]. apply list_elem_of_In in Hin.
  apply andb_true_iff in Hn as [Hn%bool_decide_eq_true Hh%negb_true_iff].
  assert (Hhash : rst_RepoOptionsHash rs = "") by (by destruct (rst_RepoOptionsHash rs)).
  rewrite Hhash. cbn [nonempty orb]. rewrite orb_false_r.
  destruct rs as [name bound volume stanza complete hash wanted]. simpl in *. subst hash name.
  split; [|repeat (match goal with |- context [if ?b then _ else _] => destruct b end); reflexivity].
  intros Hs. eexists. split; [exact Hin|].
  destruct complete, (bool_decide (label (pvc_Meta rv) LabelPGBackRestRepo = replicaCreateRepoName)) eqn:Er; simpl in *;
    destruct volume as [|ch volume]; simpl in *; try destruct (bool_decide (String ch volume = pvc_VolumeName rv)) eqn:Ev;
    simpl in *; try (by destruct Hs);
    try apply bool_decide_eq_true in Er; try apply bool_decide_eq_true in Ev;
    (split_and!; [done|done| |done|]); rewrite ?elem_of_cons; try (by left); try (by right; left); naive_solver.
Qed.

Lemma externalStatus_earned name hash :
  earned (externalStatus replicaCreateRepoName repoStatuses name hash) /\
  rst_Name (externalStatus replicaCreateRepoName repoStatuses name hash) = name /\
  rst_RepoOptionsHash (externalStatus replicaCreateRepoName repoStatuses name hash) = hash.
Proof.
  unfold externalStatus. destruct (List.find _ repoStatuses) as [rs|] eqn:E; [|split_and!; [by intros [?|?]|done|done]].
  apply find_some in E as [Hin Hn]. apply list_elem_of_In in Hin.
  apply andb_true_iff in Hn as [[Hn%bool_decide_eq_true Hb]%andb_true_iff Hv%negb_true_iff].
  destruct rs as [name' bound volume stanza complete hash' wanted]. simpl in *. subst name'.
  destruct volume; [|done].
  destruct complete, (bool_decide (name = replicaCreateRepoName)) eqn:Er; simpl;
    destruct (bool_decide (hash' = hash)) eqn:Eh; simpl; try apply bool_decide_eq_true in Er;
    try apply bool_decide_eq_true in Eh; subst;
    (split; [|done]); intros Hs; simpl in *; try (by destruct Hs);
    (eexists; split; [exact Hin|]); simpl; (split_and!; [done|done|left|done|]); naive_solver.
Qed.
End StatusProofs.

Lemma stringLess_name_order : StrictWeakOrder (fun a b => stringLess (rst_Name a) (rst_Name b)).
Proof. destruct stringLess_order as [Hi Ht Hw]. constructor; intros; [apply Hi|by eapply Ht|by eapply Hw]. Qed.

(** The status of the repositories follows their configuration.  There is
    one status for each volume and each external repository, in the order of
    their names; that of an external repository has the current hash.  A status
    says that the stanza is there, or that the first backup is complete, only
    if it said so before of the same configuration: for an external repository
    the hash is unchanged, for a volume it is the same volume, and a repository
    that changes from one to the other starts again.  The first backup counts
    only for the first repository of the specification. *)
Theorem repo_status_follows_configuration `{SortPackage} replicaRepo statuses volumes hashes order desired :
  order ≡ₚ map fst (map_to_list hashes) ->
  let l := getRepoVolumeStatus replicaRepo statuses volumes hashes order desired in
  map rst_Name l ≡ₚ map (fun rv => label (pvc_Meta rv) LabelPGBackRestRepo) volumes ++ map fst (map_to_list hashes) /\
  StronglySorted (fun a b => stringLess (rst_Name b) (rst_Name a) = false) l /\
  Forall (earned replicaRepo statuses) l /\
  (forall name hash, hashes !! name = Some hash -> exists s, s ∈ l /\ rst_Name s = name /\ rst_RepoOptionsHash s = hash).
Proof.
  intros Ho l. pose proof (Sort_Permutation (fun a b => stringLess (rst_Name a) (rst_Name b))) as Hp.
  split_and!.
  - unfold l, getRepoVolumeStatus. rewrite Hp, map_app, !map_map. apply Permutation_app.
    + erewrite map_ext; [reflexivity|]. intros rv. simpl. apply volumeStatus_earned.
    + rewrite <- Ho. erewrite map_ext; [by rewrite map_id|]. intros name. apply externalStatus_earned.
  - apply Sort_sorted, stringLess_name_order.
  - unfold l, getRepoVolumeStatus. rewrite Hp. apply Forall_app. split; apply Forall_map, Forall_forall; intros x _.
    + apply volumeStatus_earned.
    + apply externalStatus_earned.
  - intros name hash Hn. exists (externalStatus replicaRepo statuses name hash). split; [|apply externalStatus_earned].
    unfold l, getRepoVolumeStatus. rewrite Hp. apply elem_of_app. right. apply list_elem_of_fmap. exists name.
    rewrite Hn. split; [done|]. rewrite Ho. apply list_elem_of_fmap. exists (name, hash). split; [done|].
    by apply elem_of_map_to_list.
Qed.

(** ** What the functions for backups call *)
Section JobProofs.
Context `{GoVersion, LabelMatching} (RELATED_IMAGE_PGBACKREST : string) (snapshots : bool) (operatorPod : result key).
Context (selectorString : Selector -> string).
Context `{MetaConditions}.

Lemma wps_InitImage G h c image Q :
  (forall at_, operatorPod = Ok at_ -> G h (Get KPod at_)) ->
  (forall h' r, h `prefix_of` h' -> Q h' r) ->
  wps G h (InitImage operatorPod c image) Q.
Proof.
  intros Hg Hq. unfold InitImage. destruct (nonempty image); [by apply Hq|]. destruct (nonempty (cc_InitImage c)); [by apply Hq|].
  apply wps_bindr. unfold operatorImage. destruct operatorPod as [at_|e]; [|simpl; by apply Hq].
  apply wps_get_bindr. split; [by apply Hg|]. intros r.
  assert (Hp : h `prefix_of` h ++ [got KPod at_ r]) by by apply prefix_app_r.
  destruct r as [pod|e]; [|simpl; by apply Hq]. destruct (List.find _ (p_Images pod)) as [[? im]|]; simpl; [|by apply Hq].
  destruct (negb _); simpl; [by apply Hq|]. case_bool_decide; simpl; by apply Hq.
Qed.

(** The calls of every function here that decide nothing. *)
Definition quiet (o : op) : Prop :=
  match o with
  | Now | Rand 4 => True
  | Get KPod at_ => operatorPod = Ok at_
  | Event _ _ => True
  | _ => False
  end.

Lemma wps_setCondition (G : history -> op -> Prop) h c t s Q :
  (forall h, G h Now) -> (forall h' now, h `prefix_of` h' -> Q h' (onClusterConditions (fun l => SetStatusCondition now l
    (mkCondition t s.1.1 s.1.2 s.2 (om_Generation (cc_Meta c)) now)) c)) ->
  wps G h (setCondition c t s) Q.
Proof. intros Hg Hq. split; [apply Hg|]. intros now. apply Hq. by apply prefix_app_r. Qed.

Lemma repoStatus_conditions f c n : repoStatus (onClusterConditions f c) n = repoStatus c n.
Proof. reflexivity. Qed.

Lemma conditionHolds_set now c t s r m g :
  conditionHolds (cc_Conditions (onClusterConditions (fun l => SetStatusCondition now l (mkCondition t s r m g now)) c)) t =
  bool_decide (s = ConditionTrue).
Proof.
  unfold conditionHolds, cc_Conditions. cbn.
  destruct (SetStatusCondition_same now (pc_Conditions (cc_Config c)) (mkCondition t s r m g now)) as [x Hx].
  cbn [cond_Type] in Hx. by rewrite Hx.
Qed.

(** *** The first backup *)
Section ReplicaCreate.
Context (c : CrunchyCluster) (o : observedInstances) (jobs : list Job) (sa configHash : string) (repo : PGBackRestRepo).

(** The job has the repository and the configuration of the specification. *)
Definition current_job (job : Job) : Prop :=
  label (j_Meta job) LabelPGBackRestRepo = repo_Name repo /\ annotation (j_Meta job) PGBackRestConfigHash = configHash.

Definition replica_create_guard (h : history) (op : op) : Prop :=
  match op with
  | Delete KJob at_ Background => exists job, head jobs = Some job /\ at_ = objectKey (j_Meta job) /\
      (JobFailed job = true \/ ~ current_job job)
  | Apply KJob j => is_Some (writableInstance o) /\
      (exists s, repoStatus c (repo_Name repo) = Some s /\ rst_ReplicaCreateBackupComplete s = false) /\
      annotation (j_Meta j) PGBackRestConfigHash = configHash /\
      match head jobs with
      | Some job => om_Name (j_Meta j) = om_Name (j_Meta job) /\ current_job job /\ JobFailed job = false /\ JobCompleted job = false
      | None => conditionHolds (cc_Conditions c) ConditionRepoHostReady = true /\
                conditionHolds (cc_Conditions c) ConditionReplicaRepoReady = true
      end
  | op => quiet op
  end.

Lemma backupAnnotations_own own k v : own !! k = Some v -> backupAnnotations c own !! k = Some v.
Proof. intros Hk. unfold backupAnnotations, Merge. simpl. by rewrite labels_Merge_spec, Hk. Qed.

Lemma js_Annotations_own c' r s i l own opts k v : k <> DefaultContainerAnnotation -> own !! k = Some v ->
  js_Annotations (generateBackupJobSpecIntent RELATED_IMAGE_PGBACKREST snapshots selectorString c' r s i l own opts) !! k = Some v.
Proof. intros Hn Hk. simpl. destruct (since c' "2.7.0"); [by rewrite lookup_insert_ne|done]. Qed.

Lemma wps_applyReplicaCreate h job Q :
  (forall h' j, annotation (j_Meta j) PGBackRestConfigHash = configHash ->
     (forall job', job = Some job' -> om_Name (j_Meta j) = om_Name (j_Meta job')) -> replica_create_guard h' (Apply KJob j)) ->
  (forall h' r, h `prefix_of` h' -> Q h' r) ->
  wps replica_create_guard h (applyReplicaCreateBackup RELATED_IMAGE_PGBACKREST snapshots operatorPod selectorString c job sa configHash repo) Q.
Proof.
  intros Ha Hq. unfold applyReplicaCreateBackup. rewrite wps_bind. split; [done|]. intros rnd. cbv zeta.
  set (h1 := h ++ _). assert (Hp : h `prefix_of` h1) by by apply prefix_app_r.
  destruct (specRepos c) as [|first l]; [by apply Hq|]. simpl wps at 1. rewrite wps_bind.
  apply wps_InitImage; [done|]. intros h2 [image|e] Hp2; [|apply Hq; by etransitivity].
  split.
  - apply Ha; [|by intros ? ->]. unfold annotation. cbn [backupJob j_Meta om_Annotations].
    erewrite js_Annotations_own; [|done|apply backupAnnotations_own, lookup_singleton_eq]. done.
  - intros r. simpl. apply Hq. etransitivity; [exact Hp|]. etransitivity; [exact Hp2|]. by apply prefix_app_r.
Qed.

Lemma find_setReplicaCreateComplete n l :
  List.find (fun s => bool_decide (rst_Name s = n)) (setReplicaCreateComplete n l) =
  (fun s => s <| rst_ReplicaCreateBackupComplete := true |>) <$> List.find (fun s => bool_decide (rst_Name s = n)) l.
Proof.
  unfold setReplicaCreateComplete. induction l as [|s l IH]; [done|]. simpl.
  destruct (decide (rst_Name s = n)) as [E|E].
  - simpl. rewrite E, bool_decide_eq_true_2 by done. done.
  - rewrite (bool_decide_eq_false_2 (rst_Name s = n)) by done. rewrite <- IH.
    destruct (list_find _ l) as [[i x]|]; simpl; by rewrite bool_decide_eq_false_2.
Qed.

(** When the first backup becomes complete. *)
Definition completes (c' : CrunchyCluster) : Prop :=
  repoStatus c' (repo_Name repo) = repoStatus c (repo_Name repo) \/
  (exists s job, repoStatus c (repo_Name repo) = Some s /\
     repoStatus c' (repo_Name repo) = Some (s <| rst_ReplicaCreateBackupComplete := true |>) /\
     head jobs = Some job /\ current_job job /\ JobCompleted job = true /\ JobFailed job = false).

Lemma replicaCreateBody_calls h :
  wps replica_create_guard h (replicaCreateBody RELATED_IMAGE_PGBACKREST snapshots operatorPod selectorString c o jobs sa configHash repo)
    (fun _ r => completes (fst r)).
Proof.
  unfold replicaCreateBody. destruct (writableInstance o) as [i|] eqn:Ei; [|by left].
  destruct (repoStatus c (repo_Name repo)) as [status|] eqn:Es; [|by left].
  destruct (rst_ReplicaCreateBackupComplete status) eqn:Ec; [by left|]. cbv zeta.
  assert (Happly : forall h' job,
    (match job with
     | Some j => head jobs = Some j /\ current_job j /\ JobFailed j = false /\ JobCompleted j = false
     | None => head jobs = None /\ conditionHolds (cc_Conditions c) ConditionRepoHostReady = true /\
               conditionHolds (cc_Conditions c) ConditionReplicaRepoReady = true
     end) ->
    wps replica_create_guard h' (let! e := applyReplicaCreateBackup RELATED_IMAGE_PGBACKREST snapshots operatorPod
      selectorString c job sa configHash repo in Ret (c, e)) (fun _ r => completes (fst r))).
  { intros h' job Hjob. rewrite wps_bind. apply wps_applyReplicaCreate; [|by left]. intros h2 j Hj Hname.
    split_and!; [by exists i|by exists status|done|]. destruct job as [job|]; destruct Hjob as [-> Hjob]; [|done].
    split; [by apply Hname|done]. }
  destruct jobs as [|job l] eqn:Ej.
  - destruct (conditionHolds (cc_Conditions c) ConditionRepoHostReady) eqn:E1; simpl negb; cbn [orb]; [|by left].
    destruct (conditionHolds (cc_Conditions c) ConditionReplicaRepoReady) eqn:E2; simpl negb; cbn iota; [|by left].
    by apply Happly.
  - assert (Hj : head jobs = Some job) by by rewrite Ej.
    assert (Hdelete : JobFailed job = true \/ ~ current_job job ->
      wps replica_create_guard h (let! r := call (Delete KJob (objectKey (j_Meta job)) Background) in
        Ret (c, match r with Ok _ => None | Err e => Some e end)) (fun _ r => completes (fst r))).
    { intros Hd. split; [by exists job|]. intros r. by left. }
    destruct (JobFailed job) eqn:Ef; cbn [orb]; [apply Hdelete; by left|].
    case_bool_decide as Er; cbn [negb orb]; [|apply Hdelete; right; intros [Hl _]; by apply Er].
    case_bool_decide as Eh; cbn [negb orb]; [|apply Hdelete; right; intros [_ Hc]; by apply Eh].
    assert (Hcur : current_job job) by (split; congruence).
    destruct (JobCompleted job) eqn:Ecp.
    + simpl. right. exists status, job. split_and!; [done| |exact Hj|done|done|done].
      unfold repoStatus. simpl. rewrite find_setReplicaCreateComplete.
      change (List.find (fun s => bool_decide (rst_Name s = repo_Name repo)) (ps_Repos (backrest c)))
        with (repoStatus c (repo_Name repo)). by rewrite Es.
    + by apply Happly.
Qed.

(** The first backup runs until it is complete, once at a time.  Its job is
    applied only while an instance can write, its repository has a status and
    it is not complete: anew when the repository host and the stanza are ready,
    otherwise under the name of the job that there is, if that is for the same
    repository and configuration and has not finished.  A job is deleted only if
    it failed or is for another repository or configuration.  The backup becomes
    complete only when such a job completes, and the condition on which other
    backups and replicas wait says exactly whether it is. *)
Theorem replica_create_calls h :
  wps replica_create_guard h
    (reconcileReplicaCreateBackup RELATED_IMAGE_PGBACKREST snapshots operatorPod selectorString c o jobs sa configHash repo)
    (fun _ r => completes (fst r) /\
       (conditionHolds (cc_Conditions (fst r)) ConditionReplicaCreate = true <->
        exists s, repoStatus (fst r) (repo_Name repo) = Some s /\ rst_ReplicaCreateBackupComplete s = true)).
Proof.
  unfold reconcileReplicaCreateBackup. rewrite wps_bind. eapply wps_conseq; [apply replicaCreateBody_calls|].
  intros h1 [c' err] Hc. rewrite wps_bind. apply wps_setCondition; [done|]. intros h2 now Hp. cbn [fst wps] in *.
  split; [exact Hc|]. rewrite repoStatus_conditions, conditionHolds_set. unfold replicaCreate.
  destruct (repoStatus c' (repo_Name repo)) as [s|]; [destruct (rst_ReplicaCreateBackupComplete s) eqn:E|];
    cbn [fst]; rewrite bool_decide_eq_true; (split; [try done; intros _; by exists s|]); try done.
  - intros (s' & [= <-] & Hs). congruence.
  - by intros (s' & Hs & _).
Qed.
End ReplicaCreate.

(** *** Manual backups *)

(** What does not change while the outcome of a manual backup is recorded. *)
Definition like (c c' : CrunchyCluster) : Prop :=
  cc_Meta c' = cc_Meta c /\ cc_Backups c' = cc_Backups c /\ ps_Repos (backrest c') = ps_Repos (backrest c) /\
  forall t, t <> ConditionManualBackupSuccessful ->
    conditionHolds (cc_Conditions c') t = conditionHolds (cc_Conditions c) t.

Lemma like_refl c : like c c.
Proof. done. Qed.

Lemma like_trans c1 c2 c3 : like c1 c2 -> like c2 c3 -> like c1 c3.
Proof.
  intros (L1 & L2 & L3 & L4) (K1 & K2 & K3 & K4). split_and!; [congruence..|]. intros t Ht. by rewrite K4, L4.
Qed.

Lemma like_set now c t s r m g : t = ConditionManualBackupSuccessful ->
  like c (onClusterConditions (fun l => SetStatusCondition now l (mkCondition t s r m g now)) c).
Proof.
  intros ->. split_and!; [done..|]. intros t Ht. unfold conditionHolds, cc_Conditions. cbn.
  by rewrite SetStatusCondition_other.
Qed.

Lemma like_remove c : like c (onClusterConditions (fun l => RemoveStatusCondition l ConditionManualBackupSuccessful) c).
Proof.
  split_and!; [done..|]. intros t Ht. unfold conditionHolds, cc_Conditions. cbn. by rewrite RemoveStatusCondition_other.
Qed.

Lemma wps_observeManualJob (G : history -> op -> Prop) h c job Q :
  (forall h, G h Now) -> (forall h' c', h `prefix_of` h' -> like c c' -> Q h' c') ->
  wps G h (observeManualJob c job) Q.
Proof.
  intros Hg Hq. unfold observeManualJob.
  destruct (ps_ManualBackup (backrest c)) as [st|]; [|by apply Hq].
  destruct (bool_decide _); [|by apply Hq]. rewrite wps_bind. destruct (outcomeCondition job) as [s|]; [|by apply Hq].
  apply wps_setCondition; [done|]. intros h' now Hp. apply Hq; [done|].
  eapply like_trans; [by apply like_set|done].
Qed.

Section Manual.
Context (jobs : list Job) (sa : string) (o : observedInstances).

Definition requested (c : CrunchyCluster) : string := annotation (cc_Meta c) PGBackRestBackup.

(** The backup that was read needs a job. *)
Definition needs_job (c : CrunchyCluster) (h : history) : Prop :=
  exists b, read h KBackup (cc_Namespace c, requested c) b /\ b_PGCluster b = cc_Name c /\
    isDeleting (b_Meta b) = false /\ IsTerminal (b_State b) = false /\ bs_JobName (b_Status b) = "".

#[export] Instance needs_job_grows c : Grows (needs_job c).
Proof. unfold needs_job. apply _. Qed.

Definition manual_guard (c : CrunchyCluster) (h : history) (op : op) : Prop :=
  match op with
  | Get KBackup at_ => at_ = (cc_Namespace c, requested c) /\ jobs = []
  | Delete KJob at_ Background => exists job, head jobs = Some job /\ at_ = objectKey (j_Meta job) /\
      (JobCompleted job = true \/ JobFailed job = true) /\ requested c <> "" /\
      annotation (j_Meta job) PGBackRestBackup <> requested c
  | Apply KJob j =>
      requested c <> "" /\ annotation (j_Meta j) PGBackRestBackup = requested c /\
      FinalizerKeepJob ∈ om_Finalizers (j_Meta j) /\ is_Some (writableInstance o) /\
      conditionHolds (cc_Conditions c) ConditionRepoHostReady = true /\
      conditionHolds (cc_Conditions c) ConditionReplicaCreate = true /\
      (exists manual status, pa_Manual (cc_Backups c) = Some manual /\ hasRepoOption (man_Options manual) = false /\
         status ∈ ps_Repos (backrest c) /\ rst_Name status = man_RepoName manual /\ rst_StanzaCreated status = true) /\
      match head jobs with
      | Some job => om_Name (j_Meta j) = om_Name (j_Meta job) /\ om_ResourceVersion (j_Meta j) = om_ResourceVersion (j_Meta job)
      | None => needs_job c h
      end
  | op => quiet op
  end.

Lemma wps_applyManual c c' h job manual repo Q : like c c' ->
  (forall h' j, h `prefix_of` h' -> annotation (j_Meta j) PGBackRestBackup = requested c ->
     om_Finalizers (j_Meta j) = [FinalizerKeepJob] ->
     (forall job', job = Some job' -> om_Name (j_Meta j) = om_Name (j_Meta job') /\
        om_ResourceVersion (j_Meta j) = om_ResourceVersion (j_Meta job')) -> manual_guard c h' (Apply KJob j)) ->
  (forall h' r, Q h' r) ->
  wps (manual_guard c) h (applyManualBackup RELATED_IMAGE_PGBACKREST snapshots operatorPod selectorString c' job sa
    (requested c) manual repo) Q.
Proof.
  intros Hlike Ha Hq. unfold applyManualBackup. rewrite wps_bind. split; [done|]. intros rnd. cbv zeta.
  set (h1 := h ++ _). assert (Hp : h `prefix_of` h1) by by apply prefix_app_r. cbn [wps]. rewrite wps_bind.
  apply wps_InitImage; [done|]. intros h2 [image|e] Hp2; [|apply Hq].
  split; [|intros r; apply Hq]. apply Ha; [by etransitivity| |done|by intros ? ->].
  unfold annotation. cbn [backupJob j_Meta om_Annotations].
  erewrite js_Annotations_own; [|done|apply backupAnnotations_own, lookup_singleton_eq]. done.
Qed.

Lemma lastNamed_spec {A} (name : A -> string) n l x : lastNamed name n l = Some x -> x ∈ l /\ name x = n.
Proof.
  unfold lastNamed. intros Hl. apply last_Some in Hl as [l' Hl].
  assert (Hx : x ∈ List.filter (fun x => bool_decide (name x = n)) l) by (rewrite Hl; apply elem_of_app; right; left).
  apply elem_of_bfilter in Hx as [? Hn%bool_decide_eq_true]. done.
Qed.

Lemma wps_startManual c c' h job manual Q : like c c' ->
  requested c <> "" -> is_Some (writableInstance o) -> pa_Manual (cc_Backups c) = Some manual -> head jobs = job ->
  (job = None -> needs_job c h) -> (forall h' r, Q h' r) ->
  wps (manual_guard c) h (startManualBackup RELATED_IMAGE_PGBACKREST snapshots operatorPod selectorString c' job sa
    (requested c) manual) Q.
Proof.
  intros Hlike Hreq Hw Hm Hj Hneeds Hq. pose proof Hlike as (Hmeta & Hb & Hr & Hc). unfold startManualBackup.
  rewrite !Hc by done. destruct (conditionHolds (cc_Conditions c) ConditionRepoHostReady) eqn:E1; simpl negb; cbn iota; [|apply Hq].
  destruct (conditionHolds (cc_Conditions c) ConditionReplicaCreate) eqn:E2; simpl negb; cbn iota; [|apply Hq].
  rewrite Hr. destruct (lastNamed rst_Name (man_RepoName manual) (ps_Repos (backrest c))) as [status|] eqn:Es; [|split; [done|intros; apply Hq]].
  apply lastNamed_spec in Es as [Hs1 Hs2].
  destruct (rst_StanzaCreated status) eqn:Est; simpl negb; cbn iota; [|split; [done|intros; apply Hq]].
  destruct (lastNamed repo_Name _ _) as [repo|]; [|apply Hq]. destruct (nonempty (repo_Name repo)); simpl negb; cbn iota; [|apply Hq].
  destruct (hasRepoOption (man_Options manual)) eqn:Eo; [split; [done|intros; apply Hq]|].
  apply wps_applyManual; [done| |done]. intros h' j Hp Ha Hf Hn. split_and!; [done|done|rewrite Hf; left|done|done|done| |].
  - by exists manual, status.
  - rewrite Hj. destruct job as [job|]; [by apply Hn|]. eapply (grows (P := needs_job c)); [by apply Hneeds|done].
Qed.

(** The status of a new backup. *)
Definition fresh_status (c : CrunchyCluster) (new : option PGBackRestJobStatus) : Prop :=
  new = None \/ new = Some (mkJobStatus (requested c) false 0 0 None None 0).

Lemma wps_manualBody c h :
  wps (manual_guard c) h (manualBody RELATED_IMAGE_PGBACKREST snapshots operatorPod selectorString c jobs sa o)
    (fun _ r => fresh_status c r.1.2).
Proof.
  unfold manualBody. fold (requested c). cbv zeta. rewrite wps_bind.
  assert (Hobs : forall Q, (forall h' c', h `prefix_of` h' -> like c c' -> Q h' c') ->
    wps (manual_guard c) h (match head jobs with Some j => observeManualJob c j | None => Ret c end) Q).
  { intros Q HQ. destruct (head jobs) as [j|]; [by apply wps_observeManualJob|]. by apply HQ. }
  apply Hobs. clear Hobs. intros h1 c1 Hp1 Hlike. pose proof Hlike as (Hmeta & Hb & Hr & Hc).
  destruct (from_option (supersededJob (requested c)) false (head jobs)) eqn:Esup.
  { destruct (head jobs) as [job|] eqn:Ej; [|done]. simpl in Esup. unfold supersededJob in Esup.
    apply andb_true_iff in Esup as [[Hfin Hne]%andb_true_iff Hid%negb_true_iff%bool_decide_eq_false].
    split; [|intros r; by left]. exists job. split_and!; [done|done|by apply orb_true_iff|by destruct (requested c)|done]. }
  destruct (writableInstance o) as [i|] eqn:Ei; [|by left].
  destruct (pa_Manual (cc_Backups c1)) as [manual|] eqn:Em; [|by left]. rewrite Hb in Em.
  destruct (nonempty (requested c)) eqn:Ene; simpl negb; cbn iota; [|by left].
  assert (Hreq : requested c <> "") by (by destruct (requested c)).
  set (known := match ps_ManualBackup (backrest c1) with Some st => bool_decide (jst_ID st = requested c) | None => false end).
  assert (Hnew : fresh_status c (if known then None else Some (mkJobStatus (requested c) false 0 0 None None 0)))
    by (destruct known; [by left|by right]).
  set (c2 := if known then c1 else _).
  assert (Hlike2 : like c c2) by (unfold c2; destruct known; [done|by apply (like_trans _ _ _ Hlike), like_remove]).
  destruct (known && _); [exact Hnew|]. rewrite wps_bind.
  assert (Hstart : forall h', (head jobs = None -> needs_job c h') ->
    wps (manual_guard c) h' (let! e := startManualBackup RELATED_IMAGE_PGBACKREST snapshots operatorPod selectorString c2
      (head jobs) sa (requested c) manual in Ret (c2, (if known then None else Some (mkJobStatus (requested c) false 0 0 None None 0)), e))
      (fun _ r => fresh_status c r.1.2)).
  { intros h' Hn. rewrite wps_bind. by apply wps_startManual. }
  destruct (head jobs) as [job|] eqn:Ej; [by apply Hstart|].
  unfold manualBackupJobNeeded. rewrite wps_bind. split.
  { unfold cc_Namespace. destruct Hlike2 as [-> _]. split; [done|by destruct jobs]. }
  intros r. destruct r as [b|e]; cbn [wps]; [|destruct (IsNotFound e); exact Hnew].
  destruct (bool_decide (b_PGCluster b = cc_Name c2)) eqn:E1; cbn [negb]; [|exact Hnew].
  destruct (isDeleting (b_Meta b)) eqn:E2; cbn [orb]; [exact Hnew|]. destruct (IsTerminal (b_State b)) eqn:E3; [exact Hnew|].
  destruct (nonempty (bs_JobName (b_Status b))) eqn:E4; cbn [negb]; [exact Hnew|].
  apply Hstart. intros _. exists b. unfold cc_Name, cc_Namespace in *. destruct Hlike2 as [Hm2 _]. rewrite Hm2 in *.
  split_and!; [apply elem_of_snoc|by apply bool_decide_eq_true in E1|done|done|by destruct (bs_JobName (b_Status b))].
Qed.

(** The cluster that the function works on. *)
Definition seen (c : CrunchyCluster) (h : history) (current : CrunchyCluster) : Prop :=
  current = c \/ read h KCrunchy (objectKey (cc_Meta c)) current.

Definition manual_calls (c : CrunchyCluster) (h : history) (op : op) : Prop :=
  op = Get KCrunchy (objectKey (cc_Meta c)) \/ exists current, seen c h current /\ manual_guard current h op.

(** The cluster that the first call read. *)
Definition first_read (h : history) : option CrunchyCluster :=
  match h with
  | Ev (Get k at_) r :: _ =>
      match k return result (obj k) -> option CrunchyCluster with
      | KCrunchy => fun r : result CrunchyCluster => match r with Ok current => Some current | Err _ => None end
      | _ => fun _ => None
      end r
  | _ => None
  end.

Definition from_read (c : CrunchyCluster) (h : history) (r : CrunchyCluster) : Prop :=
  forall current, first_read h = Some current -> cc_PGBackRest current <> None ->
    exists new, fresh_status current new /\ r = recordNew new c.

Lemma wps_manual c current h :
  seen c h current ->
  wps (manual_calls c) h (manualBody RELATED_IMAGE_PGBACKREST snapshots operatorPod selectorString current jobs sa o)
    (fun _ r => fresh_status current r.1.2).
Proof.
  intros Hs. eapply wps_mono; [| |eapply (wps_invariant _ (fun h => seen c h current)); [|apply wps_manualBody]].
  - intros h' op [Hs' Hg]. right. by exists current.
  - done.
  - intros h' Hp. destruct Hs as [?|Hr]; [by left|right]. by eapply elem_of_grow.
Qed.

Lemma reconcileManualBackup_spec c :
  wps (manual_calls c) []
    (reconcileManualBackup RELATED_IMAGE_PGBACKREST snapshots operatorPod selectorString c jobs sa o)
    (fun h r => from_read c h (fst r)).
Proof.
  unfold reconcileManualBackup. rewrite wps_bind. split; [by left|]. intros r. cbn [app wps].
  set (h1 := [Ev (Get KCrunchy (objectKey (cc_Meta c))) r]).
  assert (Hfirst : forall h, h1 `prefix_of` h -> first_read h = match r with Ok current => Some current | Err _ => None end)
    by (intros h [t ->]; by destruct r).
  assert (Hown : (forall current, r = Ok current -> cc_PGBackRest current = None) ->
    wps (manual_calls c) h1 (let! b := manualBody RELATED_IMAGE_PGBACKREST snapshots operatorPod selectorString c jobs sa o in
      Ret (recordNew b.1.2 b.1.1, b.2)) (fun h r => from_read c h (fst r))).
  { intros Hn. rewrite wps_bind. eapply wps_conseq; [apply wps_prefix, wps_manual; by left|].
    intros h' b [Hp _] current Hc Hs. destruct Hs. apply Hn. rewrite (Hfirst h' Hp) in Hc. destruct r; by simplify_eq. }
  destruct r as [current|e]; [|destruct (IsNotFound e); [by apply Hown|by intros ? ?]].
  destruct (cc_PGBackRest current) as [st|] eqn:Es; [|apply Hown; by intros ? [= <-]].
  rewrite wps_bind. eapply wps_conseq; [apply wps_prefix, wps_manual|].
  - right. apply elem_of_snoc with (h := []).
  - intros h' b [Hp Hb] current' Hc Hs. rewrite (Hfirst h' Hp) in Hc. simplify_eq. by exists b.1.2.
Qed.

(** A manual backup gets one job, when it can run.  A job is applied only
    for the backup that the cluster's annotation requests, while an instance
    can write, the repository host is ready, the first backup is complete, the
    stanza of its repository is there and its options leave the choice of the
    repository alone.  If there is a job already, the one that is applied has
    its name and its version, so that an outdated copy cannot bring back what
    was removed from it; otherwise the backup has been read, belongs to the
    cluster, is neither finished nor being deleted, and has no job.  A job is
    deleted only when it has finished and another backup is requested.  All of
    this is about the cluster as it was read anew or, without a status there,
    the given one. *)
Theorem manual_backup_calls c :
  wps (manual_calls c) []
    (reconcileManualBackup RELATED_IMAGE_PGBACKREST snapshots operatorPod selectorString c jobs sa o)
    (fun _ _ => True).
Proof. eapply wps_conseq; [apply reconcileManualBackup_spec|done]. Qed.

(** The outcome of a manual backup is never recorded.  Once the cluster has
    a status, the function records the end of the job, its counts and the
    condition for success in the copy that it has read and drops, so the
    cluster whose status is written afterwards keeps its conditions, and the
    status of the manual backup is unchanged or that of a backup that has only
    just been requested. *)
Theorem manual_backup_outcome_is_lost c :
  wps (fun _ _ => True) []
    (reconcileManualBackup RELATED_IMAGE_PGBACKREST snapshots operatorPod selectorString c jobs sa o)
    (fun h r => forall current, first_read h = Some current -> cc_PGBackRest current <> None ->
       cc_Conditions (fst r) = cc_Conditions c /\
       (fst r = c \/ ps_ManualBackup (backrest (fst r)) =
          Some (mkJobStatus (annotation (cc_Meta current) PGBackRestBackup) false 0 0 None None 0))).
Proof.
  eapply wps_mono; [| |apply reconcileManualBackup_spec]; [done|]. intros h [c' e] Hr current Hf Hs.
  destruct (Hr current Hf Hs) as (new & [->| ->] & ->); (split; [done|]); [by left|by right].
Qed.
End Manual.

(** *** Scheduled backups *)
Section Scheduled.
Context `{ControllerRuntime} (c : CrunchyCluster) (sa : string) (cronjobs : list CronJob).

(** The CronJob of a schedule of the specification. *)
Definition scheduled (repo : PGBackRestRepo) (type_ schedule : string) (j : CronJob) : Prop :=
  cj_Schedule j = schedule /\ cj_Forbid j = true /\
  (cj_Suspend j = true <-> cc_Shutdown c = Some true \/ IsStandby (config c) = true) /\
  om_Controller (cj_Meta j) = Some (om_UID (cc_Meta c)) /\
  om_Name (cj_Meta j) = match currentCronJob c (repo_Name repo) type_ cronjobs with
                        | Some j => om_Name (cj_Meta j)
                        | None => meta_Name (PGBackRestCronJob (config c) type_ (repo_Name repo))
                        end.

Definition schedule_guard (h : history) (op : op) : Prop :=
  match op with
  | Apply KCronJob j => exists repo type_ schedule, repo ∈ specRepos c /\ (repo, type_, schedule) ∈ schedulesOf repo /\
      scheduled repo type_ schedule j /\ ClusterBootstrapped c = true /\
      conditionHolds (cc_Conditions c) ConditionReplicaCreate = true /\
      exists status, status ∈ ps_Repos (backrest c) /\ rst_Name status = repo_Name repo /\ rst_StanzaCreated status = true
  | op => quiet op
  end.

Lemma suspend_spec : deref (cc_Shutdown c) false || IsStandby (config c) = true <->
  cc_Shutdown c = Some true \/ IsStandby (config c) = true.
Proof. destruct (cc_Shutdown c) as [[]|]; simpl; naive_solver. Qed.

Lemma wps_cronJob h repo type_ schedule Q :
  repo ∈ specRepos c -> (repo, type_, schedule) ∈ schedulesOf repo -> (forall h' r, Q h' r) ->
  wps schedule_guard h (reconcilePGBackRestCronJob RELATED_IMAGE_PGBACKREST snapshots operatorPod selectorString c repo
    type_ schedule sa cronjobs) Q.
Proof.
  intros Hr Hs Hq. unfold reconcilePGBackRestCronJob. cbv zeta.
  destruct (ClusterBootstrapped c) eqn:E1; simpl negb; cbn iota; [|apply Hq].
  destruct (conditionHolds (cc_Conditions c) ConditionReplicaCreate) eqn:E2; simpl negb; cbn iota; [|apply Hq].
  destruct (lastNamed rst_Name (repo_Name repo) (ps_Repos (backrest c))) as [status|] eqn:Es; [|split; [done|intros; apply Hq]].
  apply lastNamed_spec in Es as [Hs1 Hs2].
  destruct (rst_StanzaCreated status) eqn:Est; simpl negb; cbn iota; [|split; [done|intros; apply Hq]].
  rewrite wps_bind. apply wps_InitImage; [done|]. intros h2 [image|e] _; [|apply Hq].
  unfold applyCronJob. rewrite wps_bind. set (j := mkCronJob _ _ _ _ _).
  assert (Hend : forall h' err, wps schedule_guard h' (let! _ := match err with
    | Some _ => call (Event "Warning" EventUnableToCreatePGBackRestCronJob) | None => Ret tt end in Ret err) Q).
  { intros h' [e|]; [split; [done|intros; apply Hq]|apply Hq]. }
  destruct (SetControllerReference (cc_Meta c) (cj_Meta j)) as [m|e] eqn:Em; [|apply Hend].
  apply SetControllerReference_spec in Em. rewrite wps_bind. split; [|intros r; apply Hend].
  exists repo, type_, schedule. split_and!; [done|done| |done|done|by exists status].
  rewrite Em. split_and!; [done|done|exact suspend_spec|done|done].
Qed.

Lemma elem_of_schedulesOf repo r t s : (r, t, s) ∈ schedulesOf repo -> r = repo.
Proof.
  unfold schedulesOf. destruct (repo_Schedules repo) as [[full diff incr]|]; [|by intros ?%elem_of_nil].
  simpl. rewrite !elem_of_app. destruct full, diff, incr; simpl; rewrite ?list_elem_of_singleton;
    intros [Hin|[Hin|Hin]]; try (by apply elem_of_nil in Hin); by simplify_eq.
Qed.

(** CronJobs follow the schedules, after the first backup.  A CronJob is
    applied only for a schedule of a repository of the specification, with that
    schedule, under the name of the one that exists for the repository and type
    of backup if there is one, owned by the cluster, so that runs never overlap,
    and suspended exactly when the cluster is shut down or a standby; and only
    when the cluster is bootstrapped, its first backup is complete and the
    stanza of the repository is there. *)
Theorem scheduled_backup_calls h :
  wps schedule_guard h
    (reconcileScheduledBackups RELATED_IMAGE_PGBACKREST snapshots operatorPod selectorString c sa cronjobs)
    (fun _ _ => True).
Proof.
  unfold reconcileScheduledBackups. generalize false as requeue.
  assert (Hl : forall x, x ∈ flat_map schedulesOf (specRepos c) -> x.1.1 ∈ specRepos c /\ x ∈ schedulesOf x.1.1).
  { intros [[r t] s] Hx. apply list_elem_of_In, in_flat_map in Hx as (repo & Hr & Hx). apply list_elem_of_In in Hr, Hx.
    pose proof (elem_of_schedulesOf _ _ _ _ Hx) as ->. done. }
  revert h Hl. generalize (flat_map schedulesOf (specRepos c)) as l.
  induction l as [|[[repo type_] schedule] l IH]; intros h Hl requeue; simpl; [done|].
  destruct (Hl (repo, type_, schedule) ltac:(left)) as [Hr Hs]. apply wps_bind, wps_cronJob; [done|done|].
  intros h' r. apply IH. intros x Hx. apply Hl. by right.
Qed.
End Scheduled.
End JobProofs.

(** ** Stanzas *)
Section StanzaProofs.
Context `{MetaConditions} (c : CrunchyCluster) (o : observedInstances) (configHash : string).

Definition stanzaExec (pod : key) : op := Exec pod "database" None (stanzaCommand configHash (specRepos c)).

(** The command for the stanzas ended without an error. *)
Definition stanza_ran (h : history) : Prop :=
  exists i out, writableInstance o = Some i /\ out_Err out = None /\
    (Ev (stanzaExec (cc_Namespace c, i_Name i +:+ "-0")) out : event resp) ∈ h.

#[export] Instance stanza_ran_grows : Grows stanza_ran.
Proof. unfold stanza_ran. apply _. Qed.

Definition stanza_guard (h : history) (op : op) : Prop :=
  match op with
  | Exec pod container stdin command => container = "database" /\ stdin = None /\
      (exists i, writableInstance o = Some i /\ pod = (cc_Namespace c, i_Name i +:+ "-0")) /\
      (exists s, s ∈ ps_Repos (backrest c) /\ rst_StanzaCreated s = false) /\
      (command = stanzaCommand configHash (specRepos c) \/
       command = ["bash"; "-ceu"; "--"; archivePushScript] /\ stanza_ran h)
  | Event _ _ | Now => True
  | _ => False
  end.

(** The statuses afterwards. *)
Definition stanza_statuses (h : history) (c' : CrunchyCluster) : Prop :=
  backrest c' = backrest c \/
  (stanza_ran h /\ ps_Repos (backrest c') = map (fun rs => rs <| rst_StanzaCreated := true |>) (ps_Repos (backrest c))).

Lemma stanzaResult_fresh out : stanzaResult out = Ok false -> out_Err out = None.
Proof. unfold stanzaResult. destruct (out_Err out); [|done]. by repeat case_bool_decide. Qed.

Lemma wps_stanza G h pod (k : result bool -> program (CrunchyCluster * (bool * option error))) Q :
  (G h (Exec pod "database" None (stanzaCommand configHash (specRepos c))) /\
   forall out, wps G (h ++ [Ev (Exec pod "database" None (stanzaCommand configHash (specRepos c)) : op) out])
     (k (stanzaResult out)) Q) ->
  wps G h (bind (StanzaCreateOrUpgrade pod configHash (specRepos c)) k) Q.
Proof. intros [HG Hk]. rewrite wps_bind. split; [done|]. intros out. apply Hk. Qed.

Lemma wps_history G h pod (k : string * option error -> program (CrunchyCluster * (bool * option error))) Q :
  (G h (Exec pod "database" None ["bash"; "-ceu"; "--"; archivePushScript]) /\
   forall out r, wps G (h ++ [Ev (Exec pod "database" None ["bash"; "-ceu"; "--"; archivePushScript] : op) out]) (k r) Q) ->
  wps G h (bind (ArchivePushHistoryFiles pod) k) Q.
Proof. intros [HG Hk]. rewrite wps_bind. split; [done|]. intros out. apply Hk. Qed.

Lemma stanzaBody_calls :
  wps stanza_guard [] (stanzaBody c o configHash) (fun h r => stanza_statuses h (fst r)).
Proof.
  unfold stanzaBody. destruct (writableInstance o) as [i|] eqn:Ei; [|by left].
  destruct (forallb rst_StanzaCreated (ps_Repos (backrest c))) eqn:Ea; [by left|]. cbv zeta.
  assert (Hs : exists s, s ∈ ps_Repos (backrest c) /\ rst_StanzaCreated s = false).
  { revert Ea. generalize (ps_Repos (backrest c)) as l. induction l as [|s l IH]; [done|]. simpl.
    intros [E|(s' & ? & ?)%IH]%andb_false_iff; [exists s; by split; [left|]|exists s'; split; [by right|done]]. }
  apply wps_stanza. split; [split_and!; [done|done|by exists i|done|by left]|]. intros out. cbn [app].
  destruct (stanzaResult out) as [[]|e] eqn:Eo; [by left| |rewrite wps_call_bind; split; [done|]; intros r; by left].
  apply stanzaResult_fresh in Eo. rewrite wps_call_bind. split; [done|]. intros r. set (h1 := _ ++ _).
  assert (Hran : stanza_ran h1) by (exists i, out; split_and!; [done|done|apply elem_of_app; left; left]).
  apply wps_history. split; [split_and!; [done|done|by exists i|done|by right]|].
  intros out2 r2. rewrite wps_bind.
  assert (Hend : forall h', h1 `prefix_of` h' ->
    stanza_statuses h' (onBackrest (fun s => s <| ps_Repos ::= map (fun rs => rs <| rst_StanzaCreated := true |>) |>) c)).
  { intros h' Hp. right. split; [by eapply (grows (P := stanza_ran))|done]. }
  destruct (snd r2); [split; [done|]; intros r3|]; apply Hend.
  - rewrite <- app_assoc. by apply prefix_app_r.
  - by apply prefix_app_r.
Qed.

(** Stanzas are created on the primary, and a repository is only then
    ready.  The command runs in the pod of the first instance that can write,
    with the current hash of the configuration, and only while a repository has
    no stanza; history files are pushed only after it has succeeded.  The
    statuses of the repositories change only when the command has run without an
    error, and then all of them have their stanza; the condition for the first
    repository says whether it has. *)
Theorem stanza_calls :
  wps stanza_guard [] (reconcileStanzaCreate c o configHash) (fun h r =>
    stanza_statuses h (fst r) /\
    forall repo l, specRepos c = repo :: l ->
      (conditionHolds (cc_Conditions (fst r)) ConditionReplicaRepoReady = true <->
       exists s, repoStatus (fst r) (repo_Name repo) = Some s /\ rst_StanzaCreated s = true)).
Proof.
  unfold reconcileStanzaCreate. rewrite wps_bind. eapply wps_conseq; [apply stanzaBody_calls|].
  intros h [c' r] Hc. destruct (specRepos c) as [|repo l] eqn:Er; [by split|]. cbn [fst] in *.
  rewrite wps_bind. apply wps_setCondition; [done|]. intros h2 now Hp. cbn [fst wps].
  split.
  - destruct Hc as [Hc|[Hr Hc]]; [by left|right]. split; [by eapply (grows (P := stanza_ran))|done].
  - intros repo' l' [= <- <-]. rewrite repoStatus_conditions, conditionHolds_set. unfold replicaRepoReady.
    destruct (repoStatus c' (repo_Name repo)) as [s|]; [destruct (rst_StanzaCreated s) eqn:E|];
      cbn [fst]; rewrite bool_decide_eq_true; (split; [try done; intros _; by exists s|]); try done.
    + intros (s' & [= <-] & Hs). congruence.
    + by intros (s' & Hs & _).
Qed.
End StanzaProofs.

(** ** Examples *)
Module ExampleRepos.
Definition cluster : CrunchyCluster := ExampleInstances.cluster [ExampleInstances.set1 2].

(** The claim of the repository [repo], bound to a volume. *)
Definition claim (repo volume : string) : PVC :=
  mkPVC (ExampleInstances.meta ("hippo-" +:+ repo) {[LabelPGBackRestRepo := repo]} ∅)
    (mkClaim "1Gi" None) volume true.

Definition before : list RepoStatus :=
  [mkRepoStatus "repo1" true "pv1" true true "" ""; mkRepoStatus "repo2" false "" true true "h2" ""].
End ExampleRepos.

#[local] Existing Instance ListConditions.conditions.
#[local] Existing Instance MergeSort.package.
#[local] Existing Instance ConcreteLabels.matching.
#[local] Existing Instance DottedVersions.versions.

Lemma read_error_pauses_cluster_witness :
  exists c', exec (backupsGate ExampleRepos.cluster ExampleRepos.cluster)
    [Ev (Get KSts (repoHostKey ExampleRepos.cluster) : op) (Err (ApiError (OtherReason "Timeout")) : result StatefulSet);
     Ev (Now : op) 7%Z;
     Ev (StatusPatch KCrunchy ExampleRepos.cluster c' : op) (Ok ExampleRepos.cluster : result CrunchyCluster)] (c', inr None) /\
    (exists cond, FindStatusCondition (cc_Conditions c') PostgresClusterProgressing = Some cond /\
      cond_Status cond = ConditionFalse /\ cond_Reason cond = "Paused").
Proof. apply read_error_pauses_cluster. reflexivity. Defined.

(** The volume is replaced and the options of the second repository change:
    both start again. *)
Lemma repo_status_follows_configuration_witness :
  let hashes : gmap string string := {["repo2" := "h3"]} in
  let l := getRepoVolumeStatus "repo1" ExampleRepos.before [ExampleRepos.claim "repo1" "pv9"] hashes ["repo2"] ∅ in
  map (fun s => (rst_Name s, rst_StanzaCreated s, rst_ReplicaCreateBackupComplete s)) l =
    [("repo1", false, false); ("repo2", false, false)] /\
  map rst_Name l ≡ₚ ["repo1"; "repo2"].
Proof.
  intros hashes l. split; [by vm_compute|].
  destruct (repo_status_follows_configuration "repo1" ExampleRepos.before [ExampleRepos.claim "repo1" "pv9"] hashes
              ["repo2"] ∅ ltac:(by vm_compute)) as [Hn _].
  exact Hn.
Defined.

(** The schedule of the full backups of [repo1] was removed. *)
Lemma removed_schedule_keeps_its_cronjob_witness :
  let repo := mkRepo "repo1" None None None None None in
  let c := ExampleRepos.cluster <| cc_Backups ::= fun b => b <| pa_Repos := [repo] |> |> in
  let labels := backupLabels c (PGBackRestCronJobLabels "hippo" "repo1" Full) in
  let j := mkCronJob (ExampleInstances.meta "hippo-repo1-full" labels ∅) "0 1 * * *" false true None in
  schedulesOf repo = [] /\
  exists n, exec (listOwned KCronJob c true) [Ev (ownedList c KCronJob) (Ok [j] : result (list CronJob)) : event resp]
    (Ok (repeat j (S n))).
Proof.
  intros repo c labels j. split; [done|].
  apply (removed_schedule_keeps_its_cronjob c repo Full j); [left|done| |done].
  intros l _. split; apply lookup_empty.
Defined.
