(* ===== verification/Certificates.v ===== *)
(** * The certificates of a PostgresCluster

    [internal/controller/postgrescluster/pki.go]: the condition about TLS
    Secrets, the root, the certificate of the cluster's services and those of
    the instances, with the internal policies (Pki.v), with cert-manager
    (CertManager.v), or with what the user provides.  [s] is the source of
    randomness; each policy that looks at the clock reads it once. *)
From S2P Require Import Prelude GoStrings Cluster Prog Errors Naming Objects Client Lease Passwords Pki CertManager PgBouncer RepoBackups.

Definition clusterCertFile : string := "tls.crt".
Definition clusterKeyFile : string := "tls.key".
Definition rootCertFile : string := "ca.crt".

Definition ConditionTypeTLSSecretsReady : string := "TLSSecretsReady".

(** The annotation of Secrets that cert-manager writes *)
Definition certificateNameAnnotation : string := "cert-manager.io/certificate-name".

(** [secret.Data[key]]: nil reads as no bytes *)
Definition dataOf (secret : DataObject) (key : string) : string := default "" (d_Data secret !! key).

Definition clusterCertSecretProjection (name : string) : Projection :=
  mkFileProjection name
    [(clusterCertFile, clusterCertFile); (clusterKeyFile, clusterKeyFile); (rootCertFile, rootCertFile)] None.

Section ClusterCertificates.
Context `{ControllerRuntime} `{CertManager} `{LabelMatching} `{GoVersion} `{MetaConditions} `{X509}.
(** [CERTMANAGER_NAMESPACE], [err.Error()], whether the controller has a REST
    configuration, the canonical name of the API server *)
Context (env : string) (errorText : error -> string) (restConfig : bool) (cname : option string).

(** ** The condition *)

(** What [checkSecret] has found: Secrets that are missing, and those without
    some of their keys *)
Definition checked : Type := list string * list string.

Definition emptyKeys (secret : DataObject) (requiredKeys : list string) : list string :=
  List.filter (fun key => negb (nonempty (dataOf secret key))) requiredKeys.

Definition checkSecret (cluster : CrunchyCluster) (projection : option Projection) (secretName : string)
    (requiredKeys : list string) (acc : checked) : action checked :=
  let secretName := match projection with Some p => prj_Name p | None => secretName end in
  let! r := call (Get KSecret (cc_Namespace cluster, secretName)) in
  match r with
  | Ok secret =>
      let keys := emptyKeys secret requiredKeys in
      if bool_decide (keys = []) then Ret (Ok acc)
      else Ret (Ok (fst acc, snd acc ++ [secretName +:+ " (missing or empty keys: " +:+ Join keys ", " +:+ ")"]))
  | Err e =>
      if IsNotFound e then Ret (Ok (fst acc ++ [secretName], snd acc))
      else Ret (Err (Wrap ("get TLS secret " +:+ secretName) e))
  end.

Fixpoint checkInstances (cluster : CrunchyCluster) (instances : list StatefulSet) (acc : checked) : action checked :=
  match instances with
  | [] => Ret (Ok acc)
  | instance :: instances =>
      do! acc := checkSecret cluster None (om_Name (st_Meta instance) +:+ "-certs") [] acc or "check instance TLS secret" in
      checkInstances cluster instances acc
  end.

Definition checkPgBouncer (cluster : CrunchyCluster) (acc : checked) : action checked :=
  match pc_Proxy (config cluster) with
  | Some (mkProxy (Some b)) =>
      let secretName := meta_Name (ClusterPGBouncer (config cluster)) in
      match pgb_CustomTLSSecret b with
      | None => do! acc := checkSecret cluster None secretName
                  [CertFrontendAuthoritySecretKey; CertFrontendSecretKey; CertFrontendPrivateKeySecretKey] acc
                  or "check PgBouncer TLS secret" in Ret (Ok acc)
      | Some p => do! acc := checkSecret cluster (Some p) secretName [] acc or "check custom PgBouncer TLS secret" in Ret (Ok acc)
      end
  | _ => Ret (Ok acc)
  end.

Definition selectInstances (cluster : CrunchyCluster) : ListSelector :=
  ByLabels (SetSelector {[LabelCluster := cc_Name cluster; LabelData := DataPostgres]}).

(** All checks, in their order *)
Definition checkSecrets (cluster : CrunchyCluster) : action checked :=
  do! acc := checkSecret cluster (cc_CustomRootCATLSSecret cluster) (meta_Name (PostgresRootCASecret (config cluster))) [] ([], [])
    or "check root ca secret" in
  do! acc := checkSecret cluster (cc_CustomTLSSecret cluster) (meta_Name (PostgresTLSSecret (config cluster))) [] acc
    or "check custom tls secret" in
  do! acc := checkSecret cluster (cc_CustomReplicationClientTLSSecret cluster)
    (meta_Name (ReplicationClientCertSecret (config cluster))) [] acc or "check replication client cert secret" in
  do! acc := checkSecret cluster None (meta_Name (PGBackRestSecret (config cluster))) [] acc or "check pgBackRest TLS secret" in
  do! acc := checkPgBouncer cluster acc in
  match cc_CustomTLSSecret cluster with
  | None =>
      do! instances := call (ListAll KSts (cc_Namespace cluster) (selectInstances cluster)) or "list instances to check TLS secrets" in
      checkInstances cluster instances acc
  | Some _ => Ret (Ok acc)
  end.

Definition setTLSCondition (cluster : CrunchyCluster) (status : ConditionStatus) (reason message : string)
    : action CrunchyCluster :=
  let! now := call Now in
  Ret (Ok (onClusterConditions (fun l => SetStatusCondition now l
    (mkCondition ConditionTypeTLSSecretsReady status reason message (om_Generation (cc_Meta cluster)) 0)) cluster)).

(** The cluster with its condition *)
Definition reconcileTLSCondition (cluster : CrunchyCluster) : action CrunchyCluster :=
  let policy := GetCertManagementPolicy (cc_TLS cluster) in
  if negb (bool_decide (policy = CertManagementUserProvidedOnly)) then
    setTLSCondition cluster ConditionTrue "TLSSecretsFound" ("certManagementPolicy is " +:+ policy)
  else
    do! acc := checkSecrets cluster in
    let '(missing, invalid) := acc in
    if negb (bool_decide (missing = [])) then
      setTLSCondition cluster ConditionFalse "TLSSecretsMissing"
        ("Missing user-provided TLS secrets: " +:+ Join missing ", " +:+ ". certManagementPolicy is userProvidedOnly")
    else if negb (bool_decide (invalid = [])) then
      setTLSCondition cluster ConditionFalse "TLSSecretsInvalid"
        ("Invalid user-provided TLS secrets: " +:+ Join invalid ", " +:+ ". certManagementPolicy is userProvidedOnly")
    else setTLSCondition cluster ConditionTrue "TLSSecretsFound" "".

(** ** Whether cert-manager is used *)
Definition shouldUseCertManager (cluster : CrunchyCluster) : action bool :=
  if negb (bool_decide (GetCertManagementPolicy (cc_TLS cluster) = CertManagementAuto)) then Ret (Ok false)
  else if negb restConfig then Ret (Ok false)
  else
    let! r := Check errorText (cc_Namespace cluster) in
    match r with
    | Ok _ => Ret (Ok true)
    | Err e => if Is e "cert-manager is not found" || Is e "cert-manager is not ready" then Ret (Ok false) else Ret (Err e)
    end.

(** Errors count as no. *)
Definition shouldReconcileCertManagerCertificate (cluster : CrunchyCluster) (certName : string) : program bool :=
  let! r := shouldUseCertManager cluster in
  match r with
  | Ok true =>
      let! r := CertificateExists (cc_Namespace cluster) certName in
      Ret (match r with Ok exists_ => exists_ | Err _ => false end)
  | _ => Ret false
  end.

Definition isRootCACertManagerManaged (cluster : CrunchyCluster) : action bool :=
  match cc_CustomRootCATLSSecret cluster with
  | Some _ => Ret (Ok false)
  | None =>
      do! mode := ResolveIssuerMode cluster or "failed to resolve issuer mode" in
      do! useCertManager := shouldUseCertManager cluster in
      if negb (bool_decide (mode = IssuerModeManagedNamespaced)) then
        if negb useCertManager then Ret (Err (New "cert-manager is required when spec.tls.issuerConf is set"))
        else Ret (Ok true)
      else if negb useCertManager then Ret (Ok false)
      else
        let! r := call (Get KSecret (AsObjectKey (PostgresRootCASecret (config cluster)))) in
        match r with
        | Err e => if IsNotFound e then Ret (Ok true) else Ret (Err e)
        | Ok rootSecret => Ret (Ok (nonempty (annotation (d_Meta rootSecret) certificateNameAnnotation)))
        end
  end.

(** ** The root *)
Definition rootSecretMeta (cluster : CrunchyCluster) (mode : IssuerMode) : NamedMeta := caSecret env cluster mode.

Definition waitingForCA : error := New "waiting for cert-manager to issue a valid CA certificate".

(** The Secret of cert-manager; [None] without cert-manager *)
Definition reconcileCertManagerRootCertificate (cluster : CrunchyCluster) : action (option DataObject) :=
  do! useCertManager := shouldUseCertManager cluster or "error deciding whether to use cert-manager" in
  if negb useCertManager then Ret (Ok None)
  else
    do! _ := ApplyCAIssuer cluster or "error applying CA issuer" in
    do! _ := ApplyCACertificate env cluster or "error applying CA certificate" in
    do! mode := ResolveIssuerMode cluster or "failed to resolve issuer mode" in
    let! r := call (Get KSecret (AsObjectKey (rootSecretMeta cluster mode))) in
    match r with
    | Ok secret => Ret (Ok (Some secret))
    | Err e => if IsNotFound e then Ret (Err (New "waiting for cert-manager to issue CA certificate"))
               else Ret (Err (Wrap "error getting cert-manager CA secret" e))
    end.

Definition keyCertificate : string := "root.crt".
Definition keyPrivateKey : string := "root.key".

(** The keys of the certificate and of the private key in the Secret of the
    root: those of the custom one's items, the last where there are several *)
Definition rootKeys (custom : option Projection) : string * string :=
  match custom with
  | None => (keyCertificate, keyPrivateKey)
  | Some p =>
      fold_left (fun '(crt, key) '(k, path) =>
        if bool_decide (path = keyCertificate) then (k, key)
        else if bool_decide (path = keyPrivateKey) then (crt, k) else (crt, key)) (prj_Items p) (keyCertificate, keyPrivateKey)
  end.

(** What a Secret holds; texts that cannot be read leave nothing. *)
Definition storedRoot (secret : DataObject) (crt key : string) : RootCertificateAuthority :=
  mkRoot (fst (cert_UnmarshalText (dataOf secret crt) noCertificate)) (fst (key_UnmarshalText (dataOf secret key) noKey)).

(** [reconcileRootCertificate], under the policy [userProvidedOnly] *)
Definition userProvidedRoot (secret : DataObject) (certificateKey privateKey : string) : action (option RootCertificateAuthority) :=
  let name := om_Name (d_Meta secret) in
  match cert_UnmarshalText (dataOf secret certificateKey) noCertificate with
  | (_, Some e) => Ret (Err (Wrap ("parse certificate in user-provided root CA secret " +:+ Quote name) e))
  | (crt, None) =>
      match key_UnmarshalText (dataOf secret privateKey) noKey with
      | (_, Some e) => Ret (Err (Wrap ("parse private key in user-provided root CA secret " +:+ Quote name) e))
      | (key, None) =>
          let! now := call Now in
          if RootIsValid now (mkRoot crt key) then Ret (Ok (Some (mkRoot crt key)))
          else Ret (Err (New ("user-provided root CA secret " +:+ Quote name +:+ " is invalid")))
      end
  end.

(** The Secret with the internal root *)
Definition rootIntent (cluster : CrunchyCluster) (m : ObjectMeta) (crt key : string) : DataObject :=
  mkData m {[keyCertificate := crt; keyPrivateKey := key]}.

Definition rootMeta (cluster : CrunchyCluster) : ObjectMeta :=
  metaOf (PostgresRootCASecret (config cluster))
    <| om_Labels := md_Labels (cc_Metadata cluster) |> <| om_Annotations := md_Annotations (cc_Metadata cluster) |>.

Definition applyRoot (cluster : CrunchyCluster) (root : RootCertificateAuthority) : action (option RootCertificateAuthority) :=
  match SetControllerReference (cc_Meta cluster) (rootMeta cluster) with
  | Err e => Ret (Err e)
  | Ok m =>
      match cert_MarshalText (root_Certificate root) with
      | Err e => Ret (Err e)
      | Ok crt =>
          match key_MarshalText (root_PrivateKey root) with
          | Err e => Ret (Err e)
          | Ok key =>
              do! _ := call (Apply KSecret (rootIntent cluster m crt key)) in
              Ret (Ok (Some root))
          end
      end
  end.

(** [reconcileRootCertificate], from where the internal root is read *)
Definition internalRoot (cluster : CrunchyCluster) (secret : DataObject) (certificateKey privateKey : string) (s : source)
    : action (option RootCertificateAuthority) :=
  let root := storedRoot secret certificateKey privateKey in
  match cc_CustomRootCATLSSecret cluster with
  | Some _ => Ret (Ok (Some root))
  | None =>
      let! now := call Now in
      if RootIsValid now root then applyRoot cluster root
      else
        let! now := call Now in
        match fst (NewRootCertificateAuthority now s) with
        | Err e => Ret (Err e)
        | Ok root => applyRoot cluster root
        end
  end.

(** The Secret that is there, or the one of cert-manager, and the error that
    reading has left; an error of cert-manager ends everything. *)
Definition existingRoot (cluster : CrunchyCluster) (at_ : key) : action (DataObject * option error) :=
  let nothing := mkData (emptyMeta (snd at_) (fst at_)) ∅ in
  let! r := call (Get KSecret at_) in
  match r with
  | Ok secret => Ret (Ok (secret, None))
  | Err e =>
      if IsNotFound e then
        do! secret := reconcileCertManagerRootCertificate cluster in
        Ret (Ok (default nothing secret, None))
      else Ret (Ok (nothing, Some e))
  end.

(** [None] is an issuer from outside: there is no root. *)
Definition reconcileRootCertificate (cluster : CrunchyCluster) (s : source) : action (option RootCertificateAuthority) :=
  let policy := GetCertManagementPolicy (cc_TLS cluster) in
  do! mode := ResolveIssuerMode cluster or "failed to resolve issuer mode" in
  if bool_decide (mode = IssuerModeExternal) then Ret (Ok None)
  else
    let at_ := AsObjectKey (rootSecretMeta cluster mode) in
    let at_ := match cc_CustomRootCATLSSecret cluster with Some p => (fst at_, prj_Name p) | None => at_ end in
    let '(certificateKey, privateKey) := rootKeys (cc_CustomRootCATLSSecret cluster) in
    do! existing := existingRoot cluster at_ in
    let '(secret, err) := existing in
    if bool_decide (policy = CertManagementUserProvidedOnly) then
      match err with
      | Some e => Ret (Err (Wrap "get user-provided root CA secret" e))
      | None => userProvidedRoot secret certificateKey privateKey
      end
    else if bool_decide (policy = CertManagementAuto) && bool_decide (err = None) &&
            nonempty (annotation (d_Meta secret) certificateNameAnnotation) then
      do! _ := reconcileCertManagerRootCertificate cluster in
      let root := storedRoot secret "tls.crt" "tls.key" in
      let! now := call Now in
      if RootIsValid now root then Ret (Ok (Some root)) else Ret (Err waitingForCA)
    else if bool_decide (mode = IssuerModeManagedCluster) then Ret (Err waitingForCA)
    else match err with
         | Some e => Ret (Err e)
         | None => internalRoot cluster secret certificateKey privateKey s
         end.

(** ** The certificate of the services *)
Definition serviceNamed (service : Service) : Named :=
  mkNamed (om_Namespace (svc_Meta service)) (om_Name (svc_Meta service)) "".

(** The names of both services, the primary's first *)
Definition serviceNames (cluster : CrunchyCluster) (primaryService replicaService : Service) (w1 w2 : string)
    : result (list string) :=
  match ServiceDNSNames cname (serviceNamed primaryService) (cc_DNSSuffix cluster) with
  | Err e => Err (Wrap w1 e)
  | Ok primary =>
      match ServiceDNSNames cname (serviceNamed replicaService) (cc_DNSSuffix cluster) with
      | Err e => Err (Wrap w2 e)
      | Ok replica => Ok (primary ++ replica)
      end
  end.

Definition reconcileUserProvidedClusterCertificate (cluster : CrunchyCluster) : action Projection :=
  let m := PostgresTLSSecret (config cluster) in
  do! secret := call (Get KSecret (AsObjectKey m)) or ("get user-provided TLS secret " +:+ meta_Name m) in
  match List.find (fun key => negb (nonempty (dataOf secret key))) [clusterCertFile; clusterKeyFile; rootCertFile] with
  | Some key =>
      Ret (Err (New ("user-provided TLS secret " +:+ Quote (om_Name (d_Meta secret)) +:+ " is missing key " +:+ Quote key)))
  | None => Ret (Ok (clusterCertSecretProjection (om_Name (d_Meta secret))))
  end.

(** The leaf that is stored; what cannot be read is no certificate. *)
Definition storedLeaf (secret : DataObject) (crt key : string) : LeafCertificate :=
  mkLeaf (fst (cert_UnmarshalText (dataOf secret crt) noCertificate)) (fst (key_UnmarshalText (dataOf secret key) noKey)).

(** A nil root can be asked whether a leaf is its own, but not to make one. *)
Definition regenerate (now : Z) (root : option RootCertificateAuthority) (leaf : LeafCertificate) (commonName : string)
    (dnsNames : list string) (s : source) : result LeafCertificate :=
  match root with
  | Some root => fst (RegenerateLeafWhenNecessary now root leaf commonName dnsNames s)
  | None => Err (New "panic: nil pointer dereference")
  end.

Definition clusterCertificateMeta (cluster : CrunchyCluster) (controller : option string) : ObjectMeta :=
  metaOf (PostgresTLSSecret (config cluster))
    <| om_Annotations := Merge [md_Annotations (cc_Metadata cluster)] |>
    <| om_Labels := Merge [md_Labels (cc_Metadata cluster);
                           certificateLabels cluster {[LabelCluster := cc_Name cluster; LabelClusterCertificate := "postgres-tls"]} ""] |>
    <| om_Controller := controller |>.

Definition reconcileInternalClusterCertificate (cluster : CrunchyCluster) (root : option RootCertificateAuthority)
    (primaryService replicaService : Service) (s : source) : action Projection :=
  let m := PostgresTLSSecret (config cluster) in
  let! r := call (Get KSecret (AsObjectKey m)) in
  match (match r with
         | Ok o => Ok o
         | Err e => if IsNotFound e then Ok (mkData (metaOf m) ∅) else Err (Wrap "get secret" e)
         end) with
  | Err e => Ret (Err e)
  | Ok existing =>
      match serviceNames cluster primaryService replicaService "get primary service dns names" "get replica service dns names" with
      | Err e => Ret (Err e)
      | Ok dnsNames =>
          let dnsFQDN := hd "" dnsNames in
          let! now := call Now in
          match regenerate now root (storedLeaf existing "tls.crt" "tls.key") dnsFQDN dnsNames s with
          | Err e => Ret (Err e)
          | Ok leaf =>
              match cert_MarshalText (leaf_Certificate leaf), key_MarshalText (leaf_PrivateKey leaf),
                    cert_MarshalText (match root with Some root => root_Certificate root | None => noCertificate end) with
              | Ok crt, Ok key, Ok ca =>
                  do! _ := call (Apply KSecret (mkData (clusterCertificateMeta cluster (om_Controller (d_Meta existing)))
                             {["tls.crt" := crt; "tls.key" := key; "ca.crt" := ca]})) in
                  Ret (Ok (clusterCertSecretProjection (meta_Name m)))
              | Err e, _, _ | Ok _, Err e, _ | Ok _, Ok _, Err e => Ret (Err e)
              end
          end
      end
  end.

Definition reconcileCertManagerClusterCertificate (cluster : CrunchyCluster) (primaryService replicaService : Service)
    : action Projection :=
  do! mode := ResolveIssuerMode cluster or "failed to resolve issuer mode" in
  do! _ := (if bool_decide (mode = IssuerModeExternal) then Ret (Ok tt)
            else bindr (ApplyIssuer env cluster) (Wrap "failed to apply TLS issuer") (fun _ => Ret (Ok tt))) in
  match serviceNames cluster primaryService replicaService "get primary service DNS names" "get replica service DNS names" with
  | Err e => Ret (Err e)
  | Ok dnsNames =>
      do! _ := ApplyClusterCertificate cluster dnsNames or "failed to apply cluster certificate" in
      Ret (Ok (clusterCertSecretProjection (meta_Name (PostgresTLSSecret (config cluster)))))
  end.

Definition reconcileClusterCertificate (cluster : CrunchyCluster) (root : option RootCertificateAuthority)
    (primaryService replicaService : Service) (s : source) : action Projection :=
  match cc_CustomTLSSecret cluster with
  | Some p => Ret (Ok p)
  | None =>
      if bool_decide (GetCertManagementPolicy (cc_TLS cluster) = CertManagementUserProvidedOnly) then
        reconcileUserProvidedClusterCertificate cluster
      else
        do! certManagerManaged := isRootCACertManagerManaged cluster or "failed to check if cert-manager manages root CA" in
        if certManagerManaged then reconcileCertManagerClusterCertificate cluster primaryService replicaService
        else
          let! stale := shouldReconcileCertManagerCertificate cluster (ClusterCertificateName cluster) in
          (* its error is only logged *)
          let! _ := (if stale then ignore (reconcileCertManagerClusterCertificate cluster primaryService replicaService)
                     else Ret (Ok tt)) in
          reconcileInternalClusterCertificate cluster root primaryService replicaService s
  end.

(** ** The certificate of an instance *)

(** The leaf, and [intent] with its two keys *)
Definition instanceCertificate (instance : Named) (existing intent : DataObject) (root : option RootCertificateAuthority)
    (dnsSuffix : string) (s : source) : action (LeafCertificate * DataObject) :=
  let dnsNames := InstancePodDNSNames cname instance dnsSuffix in
  let dnsFQDN := hd "" dnsNames in
  let! now := call Now in
  match regenerate now root (storedLeaf existing "dns.crt" "dns.key") dnsFQDN dnsNames s with
  | Err e => Ret (Err e)
  | Ok leaf =>
      match cert_MarshalText (leaf_Certificate leaf), key_MarshalText (leaf_PrivateKey leaf) with
      | Ok crt, Ok key =>
          Ret (Ok (leaf, intent <| d_Data ::= fun d => <["dns.key" := key]> (<["dns.crt" := crt]> d) |>))
      | Err e, _ | Ok _, Err e => Ret (Err e)
      end
  end.
End ClusterCertificates.

(** ** Properties *)
Section CertificateProperties.
Context `{ControllerRuntime} `{CertManager} `{LabelMatching} `{GoVersion} `{MetaConditions} `{X509}.
Context (env : string) (errorText : error -> string) (restConfig : bool) (cname : option string) (cluster : CrunchyCluster).

Abbreviation policy := (GetCertManagementPolicy (cc_TLS cluster)).

(** A time that was read *)
Definition clock (h : history) (now : Z) : Prop := (Ev (Now : op) now : event resp) ∈ h.

#[local] Instance grows_clock now : Grows (fun h => clock h now).
Proof. unfold clock. apply _. Qed.

#[local] Instance grows_absent k at_ : Grows (fun h => absent h k at_).
Proof. unfold absent. apply _. Qed.

(** A part of the program that makes its own calls *)
Lemma wps_part {A} (G' G : history -> op -> Prop) h (p : program A) Q :
  (forall h o, G' h o -> G h o) -> wps G' h p (fun _ _ => True) ->
  (forall h' a, h `prefix_of` h' -> Q h' a) -> wps G h p Q.
Proof. intros HG Hp HQ. eapply wps_mono; [exact HG| |by apply wps_prefix]. intros h' a [? _]. by apply HQ. Qed.

(** *** What is stored reads back *)
Definition readsAs (crt key : string) (c : Certificate) (k : PrivateKey) : Prop :=
  cert_UnmarshalText crt noCertificate = (c, None) /\ key_UnmarshalText key noKey = (k, None).

Lemma written_readsAs c k crt key : readable c -> is_Some (ecdsa k) ->
  cert_MarshalText c = Ok crt -> key_MarshalText k = Ok key -> readsAs crt key c k.
Proof.
  intros Hr [e He] Hc Hk. destruct k as [k]. simpl in He. subst k. split.
  - destruct (readable_text c Hr) as (text & Ht & _ & Hb). rewrite Hc in Ht. injection Ht as <-. apply Hb.
  - unfold key_MarshalText in Hk. cbn [ecdsa] in Hk. destruct (MarshalECPrivateKey e) as [der|] eqn:Em; [|done].
    destruct (key_text e der Em) as (text & Ht & _ & Hb). unfold key_MarshalText in Ht. cbn [ecdsa] in Ht. rewrite Em, Hk in Ht.
    injection Ht as <-. apply Hb.
Qed.

Lemma stored_readable data : is_Some (x509 (fst (cert_UnmarshalText data noCertificate))) ->
  readable (fst (cert_UnmarshalText data noCertificate)).
Proof.
  destruct (cert_UnmarshalText data noCertificate) as [c [e|]] eqn:E; [|intros _; by eapply Unmarshal_readable].
  unfold cert_UnmarshalText in E. repeat case_match; simplify_eq; by intros [].
Qed.

Lemma new_root_form t0 s root s' : NewRootCertificateAuthority t0 s = (Ok root, s') ->
  readable (root_Certificate root) /\ is_Some (ecdsa (root_PrivateKey root)) /\ RootIsValid t0 root = true.
Proof.
  intros Hn. pose proof (new_root_is_valid _ _ _ _ Hn t0) as [Hv _].
  unfold NewRootCertificateAuthority in Hn. destruct (GenerateKey s) as [[key|] s1]; [|done].
  destruct (generateSerialNumber s1) as [[serial|] s2]; [|done]. unfold generateRootCertificate in Hn.
  destruct (parsed _ _) as [[c|] s3] eqn:Hp; [|done]. injection Hn as <- _. apply parsed_inv in Hp as (der & _ & Hp).
  destruct (Parse_Raw _ _ Hp) as [Hraw _]. split_and!; [|by eexists|apply Hv; unfold hour, second; lia].
  exists c, []. split_and!; [done|by rewrite Hraw|done].
Qed.

Lemma valid_stored_root now secret crt key : RootIsValid now (storedRoot secret crt key) = true ->
  readable (root_Certificate (storedRoot secret crt key)) /\ is_Some (ecdsa (root_PrivateKey (storedRoot secret crt key))).
Proof.
  intros (c & k & Hc & Hk & _)%RootIsValid_inv. split; [|by eexists].
  apply stored_readable. by eexists.
Qed.

(** *** cert-manager is asked only where the policy allows it *)
Lemma shouldUseCertManager_wps G h Q :
  (policy = CertManagementAuto -> forall h, G h (NewChecker (cc_Namespace cluster)) /\ G h (CheckCertManager (cc_Namespace cluster))) ->
  (forall h' b, h `prefix_of` h' -> (b = true -> policy = CertManagementAuto) -> Q h' (Ok b)) -> (forall h' e, Q h' (Err e)) ->
  wps G h (shouldUseCertManager errorText restConfig cluster) Q.
Proof.
  intros HG HO HE. unfold shouldUseCertManager. case_bool_decide as Ep; cbn [negb]; [|by apply HO].
  destruct restConfig; cbn [negb]; [|by apply HO]. unfold Check. rewrite wps_bind.
  apply (wps_conseq _ _ _ (fun h' _ => h `prefix_of` h')).
  - rewrite wps_bindr. split; [by apply HG|]. intros [a|e]; simpl; [|by apply prefix_app_r].
    split; [by apply HG|]. intros [b|e]; simpl; repeat case_match; by do 2 apply prefix_app_r.
  - intros h' [a|e] Hp; [by apply HO|]. case_match; [by apply HO|apply HE].
Qed.
(** *** The root *)
Definition rootKey : key := AsObjectKey (PostgresRootCASecret (config cluster)).

(** Where the root may have been read: nothing was there, or this Secret *)
Definition observed (h : history) (old : DataObject) : Prop :=
  absent h KSecret rootKey /\ d_Data old = ∅ \/ read h KSecret rootKey old.

#[local] Instance grows_observed old : Grows (fun h => observed h old).
Proof. unfold observed. apply _. Qed.

(** When the Secret of the root is written, and with what: there is no custom
    one and no cert-manager behind it; what is written is good now and reads
    back; and it is what was there, unless that was bad. *)
Definition root_written (h : history) (new : DataObject) : Prop :=
  policy <> CertManagementUserProvidedOnly /\ cc_CustomRootCATLSSecret cluster = None /\
  resolved cluster h IssuerModeManagedNamespaced /\
  objectKey (d_Meta new) = rootKey /\ om_Controller (d_Meta new) = Some (om_UID (cc_Meta cluster)) /\
  exists old root now,
    observed h old /\ (policy = CertManagementAuto -> annotation (d_Meta old) certificateNameAnnotation = "") /\
    clock h now /\ RootIsValid now root = true /\
    readsAs (dataOf new keyCertificate) (dataOf new keyPrivateKey) (root_Certificate root) (root_PrivateKey root) /\
    (root = storedRoot old keyCertificate keyPrivateKey \/
     exists now', clock h now' /\ RootIsValid now' (storedRoot old keyCertificate keyPrivateKey) = false).

(** The calls for the root *)
Definition root_call (h : history) (o : op) : Prop :=
  match o with
  | Get KSecret _ | Now => True
  | NewChecker _ | CheckCertManager _ => policy = CertManagementAuto
  | Apply KSecret new => root_written h new
  | _ => policy = CertManagementAuto /\
         (issuer_call cluster (caIssuerRef cluster) (fun _ => SelfSigned) h o \/ ca_call env cluster h o)
  end.

Lemma resolve_auto name : specifiedMode cluster = inr name -> policy = CertManagementAuto.
Proof. unfold specifiedMode. by case_bool_decide. Qed.

Lemma resolve_root_wps h Q :
  (forall h' mode, h `prefix_of` h' -> resolved cluster h' mode -> Q h' (Ok mode)) ->
  (forall h' e, Q h' (Err e)) -> wps root_call h (ResolveIssuerMode cluster) Q.
Proof.
  intros HO HE. apply resolve_wps; [|done|done]. intros name Hn. split; [by eapply resolve_auto|]. by left.
Qed.

(** The mode that decides where the root is *)
Lemma resolved_cluster h mode name : specifiedMode cluster = inr name -> resolved cluster h mode ->
  mode <> IssuerModeManagedNamespaced.
Proof.
  unfold resolved. intros ->. intros (r & _ & Hr). unfold modeOf in Hr. destruct r as [i|e]; repeat case_match; by simplify_eq.
Qed.

Lemma resolved_namespaced h h' mode : resolved cluster h IssuerModeManagedNamespaced -> resolved cluster h' mode ->
  mode = IssuerModeManagedNamespaced.
Proof.
  intros Hm Hm'. destruct (specifiedMode cluster) as [m|name] eqn:E.
  - unfold resolved in *. rewrite E in *. congruence.
  - by destruct (resolved_cluster h _ name E Hm).
Qed.

Lemma reconcileCertManagerRootCertificate_wps h Q :
  (forall h' secret, h `prefix_of` h' ->
     match secret with
     | Some secret => policy = CertManagementAuto /\
                      exists mode, resolved cluster h' mode /\ read h' KSecret (AsObjectKey (caSecret env cluster mode)) secret
     | None => True
     end -> Q h' (Ok secret)) ->
  (forall h' e, Q h' (Err e)) ->
  wps root_call h (reconcileCertManagerRootCertificate env errorText restConfig cluster) Q.
Proof.
  intros HO HE. unfold reconcileCertManagerRootCertificate. rewrite wps_bindr.
  apply shouldUseCertManager_wps; [by split| |by intros]. intros h1 [] Hp1 Hauto; cbn [negb]; [|by apply HO].
  specialize (Hauto eq_refl). rewrite wps_bindr.
  apply (wps_part (issuer_call cluster (caIssuerRef cluster) (fun _ => SelfSigned))); [|apply ApplyCAIssuer_wps|].
  { intros h' o Ho. case_op o; (split; [done|by left]). }
  intros h2 [[]|e] Hp2; [|by apply HE]. rewrite wps_bindr.
  apply (wps_part (ca_call env cluster)); [|apply ApplyCACertificate_wps|].
  { intros h' o Ho. case_op o; try (destruct Ho; done); (split; [done|by right]). }
  intros h3 [[]|e] Hp3; [|by apply HE]. rewrite wps_bindr. apply resolve_root_wps; [|by intros].
  intros h4 mode Hp4 Hm. apply wps_call_bind. split; [done|]. intros [secret|e]; [|case_match; apply HE].
  apply HO; [|split; [done|]].
  - do 3 (etransitivity; [done|]). etransitivity; [done|]. by apply prefix_app_r.
  - exists mode. split; [by eapply (grows (P := fun h => resolved cluster h mode)), prefix_app_r|apply elem_of_snoc].
Qed.

Lemma existingRoot_wps h at_ Q :
  (forall h' secret, h `prefix_of` h' ->
     absent h' KSecret at_ /\ secret = mkData (emptyMeta (snd at_) (fst at_)) ∅ \/ read h' KSecret at_ secret \/
     (exists mode, resolved cluster h' mode /\ read h' KSecret (AsObjectKey (caSecret env cluster mode)) secret) ->
     Q h' (Ok (secret, None))) ->
  (forall h' secret e, Q h' (Ok (secret, Some e))) -> (forall h' e, Q h' (Err e)) ->
  wps root_call h (existingRoot env errorText restConfig cluster at_) Q.
Proof.
  intros HO HS HE. unfold existingRoot. apply wps_call_bind. split; [done|]. intros [secret|e].
  - apply HO; [by apply prefix_app_r|]. right. left. apply elem_of_snoc.
  - destruct (IsNotFound e) eqn:En; [|apply HS]. rewrite wps_bindr. apply reconcileCertManagerRootCertificate_wps; [|done].
    intros h' secret Hp Hs. assert (Habs : absent h' KSecret at_).
    { eapply (grows (P := fun h => absent h KSecret at_)); [|exact Hp]. exists e. split; [apply elem_of_snoc|done]. }
    apply HO; [etransitivity; [by apply prefix_app_r|done]|]. destruct secret as [secret|]; [right; right; apply Hs|by left].
Qed.

(** A root that has no certificate or key is written nowhere. *)
Lemma applyRoot_wps h old root now Q :
  policy <> CertManagementUserProvidedOnly -> cc_CustomRootCATLSSecret cluster = None ->
  resolved cluster h IssuerModeManagedNamespaced -> observed h old ->
  (policy = CertManagementAuto -> annotation (d_Meta old) certificateNameAnnotation = "") ->
  clock h now -> RootIsValid now root = true -> readable (root_Certificate root) -> is_Some (ecdsa (root_PrivateKey root)) ->
  (root = storedRoot old keyCertificate keyPrivateKey \/
   exists now', clock h now' /\ RootIsValid now' (storedRoot old keyCertificate keyPrivateKey) = false) ->
  (forall h', h `prefix_of` h' -> Q h' (Ok (Some root))) -> (forall h' e, Q h' (Err e)) ->
  wps root_call h (applyRoot cluster root) Q.
Proof.
  intros Hp Hc Hm Ho Ha Hn Hv Hr Hk Hor HO HE. unfold applyRoot.
  destruct (SetControllerReference _ _) as [m|] eqn:Es; [|apply HE]. apply SetControllerReference_spec in Es as ->.
  destruct (cert_MarshalText (root_Certificate root)) as [crt|] eqn:Ec; [|apply HE].
  destruct (key_MarshalText (root_PrivateKey root)) as [key|] eqn:Ek; [|apply HE].
  rewrite wps_bindr. split; [|intros [a|e]; [|apply HE]; apply HO; by apply prefix_app_r].
  split_and!; try done. exists old, root, now. split_and!; try done.
  unfold dataOf, rootIntent. cbn [d_Data]. simpl_map. cbn [default from_option]. by apply written_readsAs.
Qed.

Lemma internalRoot_wps h old s Q :
  policy <> CertManagementUserProvidedOnly ->
  resolved cluster h IssuerModeManagedNamespaced -> (cc_CustomRootCATLSSecret cluster = None -> observed h old) ->
  (policy = CertManagementAuto -> annotation (d_Meta old) certificateNameAnnotation = "") ->
  (forall h' root, h `prefix_of` h' -> (exists now, clock h' now /\ RootIsValid now root = true) -> Q h' (Ok (Some root))) ->
  (cc_CustomRootCATLSSecret cluster <> None -> forall crt key, Q h (Ok (Some (storedRoot old crt key)))) ->
  (forall h' e, Q h' (Err e)) ->
  wps root_call h (internalRoot cluster old (fst (rootKeys (cc_CustomRootCATLSSecret cluster)))
    (snd (rootKeys (cc_CustomRootCATLSSecret cluster))) s) Q.
Proof.
  intros Hp Hm Ho Ha HO HC HE. unfold internalRoot.
  destruct (cc_CustomRootCATLSSecret cluster) as [p|] eqn:Ec; [by apply HC|]. cbn [rootKeys fst snd].
  apply wps_call_bind. split; [done|]. intros now. set (h1 := h ++ _). assert (Hp1 : h `prefix_of` h1) by by apply prefix_app_r.
  assert (Hn : clock h1 now) by apply elem_of_snoc. clearbody h1. specialize (Ho eq_refl).
  destruct (RootIsValid now _) eqn:Hv.
  - destruct (valid_stored_root _ _ _ _ Hv) as [Hr Hk]. apply (applyRoot_wps h1 old _ now); try done.
    + by eapply (grows (P := fun h => resolved cluster h _)).
    + by eapply (grows (P := fun h => observed h old)).
    + by left.
    + intros h' Hp'. apply HO; [by etransitivity|]. exists now. split; [by eapply (grows (P := fun h => clock h now))|done].
  - apply wps_call_bind. split; [done|]. intros now2. set (h2 := h1 ++ _).
    assert (Hp2 : h1 `prefix_of` h2) by by apply prefix_app_r.
    assert (Hn2 : clock h2 now2) by apply elem_of_snoc. clearbody h2.
    destruct (NewRootCertificateAuthority now2 s) as [[root|e] s'] eqn:En; [|apply HE]. cbn [fst].
    destruct (new_root_form _ _ _ _ En) as (Hr & Hk & Hv2).
    assert (Hp3 : h `prefix_of` h2) by by etransitivity.
    apply (applyRoot_wps h2 old _ now2); try done.
    + by eapply (grows (P := fun h => resolved cluster h _)).
    + by eapply (grows (P := fun h => observed h old)).
    + right. exists now. split; [by eapply (grows (P := fun h => clock h now))|done].
    + intros h' Hp'. apply HO; [by etransitivity|]. exists now2. split; [by eapply (grows (P := fun h => clock h now2))|done].
Qed.

(** What the root that is returned is: good at a time that was read, or, with
    a custom Secret under another policy than [userProvidedOnly], whatever that
    Secret has. *)
Definition root_outcome (h : history) (r : result (option RootCertificateAuthority)) : Prop :=
  match r with
  | Ok (Some root) =>
      (exists now, clock h now /\ RootIsValid now root = true) \/
      (policy <> CertManagementUserProvidedOnly /\ cc_CustomRootCATLSSecret cluster <> None /\
       exists secret crt key, root = storedRoot secret crt key)
  | Ok None => resolved cluster h IssuerModeExternal
  | Err _ => True
  end.

Lemma returned_if_valid h root e :
  wps root_call h (let! now := call Now in if RootIsValid now root then Ret (Ok (Some root)) else Ret (Err e)) root_outcome.
Proof.
  apply wps_call_bind. split; [done|]. intros now. destruct (RootIsValid now root) eqn:E; [|done].
  left. exists now. split; [apply elem_of_snoc|done].
Qed.

Lemma userProvidedRoot_wps h secret crt key : wps root_call h (userProvidedRoot secret crt key) root_outcome.
Proof.
  unfold userProvidedRoot. destruct (cert_UnmarshalText _ _) as [c [e|]]; [done|].
  destruct (key_UnmarshalText _ _) as [k [e|]]; [done|]. apply returned_if_valid.
Qed.

(** The reconciliation of the root, in every execution.  cert-manager is
    asked, and its issuers and the certificate of its root applied, only under
    the policy [auto].  The operator writes a Secret only for its own root:
    never under [userProvidedOnly], never with a custom root, never over the
    Secret of cert-manager and never for an issuer of the whole Kubernetes
    cluster or from outside.  What it writes is a root that is good at that
    time and that reads back from the Secret; it is the root that was there
    unless that one was bad.  Every root that is returned is good, but for a
    custom one, and none is returned only for an issuer from outside. *)
Theorem root_calls h s : wps root_call h (reconcileRootCertificate env errorText restConfig cluster s) root_outcome.
Proof.
  unfold reconcileRootCertificate. rewrite wps_bindr. apply resolve_root_wps; [|done]. intros h0 mode _ Hm.
  case_bool_decide as Hx; [by subst mode|]. rewrite (surjective_pairing (rootKeys _)). rewrite wps_bindr.
  apply existingRoot_wps; [| |done].
  - intros h1 secret Hp1 Hs. assert (Hm1 : resolved cluster h1 mode) by by eapply (grows (P := fun h => resolved cluster h mode)).
    case_bool_decide as Hu; [apply userProvidedRoot_wps|].
    rewrite (bool_decide_eq_true_2 (None = None)), andb_true_r by done.
    destruct (bool_decide (policy = CertManagementAuto) && nonempty (annotation _ _)) eqn:Ha.
    + rewrite wps_bindr. apply reconcileCertManagerRootCertificate_wps; [|done]. intros h2 o _ _. apply returned_if_valid.
    + destruct mode; [|done..]. apply (internalRoot_wps h1 secret s); try done.
      * intros Hc. rewrite Hc in Hs. destruct Hs as [[Hs ->]|[Hs|(mode & Hm' & Hs)]]; [by left|by right|].
        right. by rewrite (resolved_namespaced _ _ _ Hm1 Hm') in Hs.
      * intros Hauto. rewrite (bool_decide_eq_true_2 _ Hauto) in Ha. cbn [andb] in Ha. by destruct (annotation _ _).
      * intros h' root _ Hr. by left.
      * intros Hc crt key. right. split_and!; [done|done|by exists secret, crt, key].
  - intros h1 secret e. repeat (case_bool_decide; cbn [andb]; try done).
Qed.

(** *** The certificate of the services *)
Lemma regenerate_form now root secret crt key commonName dnsNames s leaf :
  regenerate now root (storedLeaf secret crt key) commonName dnsNames s = Ok leaf ->
  exists r, root = Some r /\ readable (leaf_Certificate leaf) /\ is_Some (ecdsa (leaf_PrivateKey leaf)) /\
    (RootIsValid now r = true -> goodLeaf now r leaf commonName dnsNames) /\
    (leaf = storedLeaf secret crt key \/ ~ goodLeaf now r (storedLeaf secret crt key) commonName dnsNames).
Proof.
  unfold regenerate. destruct root as [r|]; [|done].
  destruct (RegenerateLeafWhenNecessary _ _ _ _ _ _) as [[l|e] s'] eqn:E; [|done]. cbn [fst]. intros [= <-]. exists r.
  destruct (RegenerateLeaf_inv _ _ _ _ _ _ _ _ E) as [(-> & _ & Hg)|[Hg Hn]].
  - pose proof Hg as (_ & c & k & _ & Hc & Hk & _). split_and!; [done| |by eexists|done|by left].
    apply stored_readable. by exists c.
  - split_and!; [done|by eapply generated_readable| |by apply generated_good|by right].
    destruct Hg as (? & ? & k & ? & ? & ? & ? & ? & _ & _ & _ & _ & _ & ->). by eexists.
Qed.

Section Services.
Context (root : option RootCertificateAuthority) (primaryService replicaService : Service).

Definition tlsKey : key := AsObjectKey (PostgresTLSSecret (config cluster)).

(** The names of the services *)
Definition names : list string :=
  match serviceNames cname cluster primaryService replicaService "" "" with Ok l => l | Err _ => [] end.

Lemma serviceNames_names w1 w2 l : serviceNames cname cluster primaryService replicaService w1 w2 = Ok l -> l = names.
Proof. unfold names, serviceNames. repeat case_match; congruence. Qed.

(** When the operator writes the Secret of the services: with a leaf that is
    good for a good root, the one that was there unless it was not, with its
    key and the root *)
Definition leaf_written (h : history) (new : DataObject) : Prop :=
  policy <> CertManagementUserProvidedOnly /\ cc_CustomTLSSecret cluster = None /\ objectKey (d_Meta new) = tlsKey /\
  (cc_CustomRootCATLSSecret cluster <> None \/ resolved cluster h IssuerModeManagedNamespaced) /\
  exists old r leaf now crt key ca,
    root = Some r /\ (absent h KSecret tlsKey /\ d_Data old = ∅ \/ read h KSecret tlsKey old) /\ clock h now /\
    d_Data new = {["tls.crt" := crt; "tls.key" := key; "ca.crt" := ca]} /\
    readsAs crt key (leaf_Certificate leaf) (leaf_PrivateKey leaf) /\ cert_MarshalText (root_Certificate r) = Ok ca /\
    (RootIsValid now r = true -> goodLeaf now r leaf (hd "" names) names) /\
    (leaf = storedLeaf old "tls.crt" "tls.key" \/ ~ goodLeaf now r (storedLeaf old "tls.crt" "tls.key") (hd "" names) names).

Definition clusterLeaf_call : history -> op -> Prop :=
  let duration := certDuration cluster tls_CertValidityDuration in
  certificate_call cluster tlsKey (freshLeaf cluster (snd tlsKey) (cc_Name cluster +:+ "-postgres") names serverUsages duration None)
    (leafWish cluster duration None).

Definition services_call (h : history) (o : op) : Prop :=
  match o with
  | Now => True
  | Get KSecret at_ => at_ = tlsKey \/ policy = CertManagementAuto /\ at_ = AsObjectKey (PostgresRootCASecret (config cluster))
  | NewChecker _ | CheckCertManager _ => policy = CertManagementAuto
  | Apply KSecret new => leaf_written h new
  | _ => policy = CertManagementAuto /\
         (issuer_call cluster (issuerRef cluster) (fun mode => CA (meta_Name (caSecret env cluster mode))) h o \/
          clusterLeaf_call h o)
  end.

(** The Certificate of the services is as it has to be, and cert-manager
    issues for it. *)
Definition certificate_settled (h : history) : Prop :=
  policy = CertManagementAuto /\
  certificate_done cluster tlsKey (leafWish cluster (certDuration cluster tls_CertValidityDuration) None) h (Ok tt).

(** The Secret of the services was written as it has to be. *)
Definition leaf_applied (h : history) : Prop :=
  exists new a, (Ev (Apply KSecret new : op) (Ok a : result DataObject) : event resp) ∈ h /\ leaf_written h new.

(** The three files of a Secret, under their own names *)
Definition mounted (name : string) : Projection :=
  mkFileProjection name [("tls.crt", "tls.crt"); ("tls.key", "tls.key"); ("ca.crt", "ca.crt")] None.

(** The projection that is returned, and what it rests on: a custom one, one
    of the Secret that the user provided and that was read with all its files,
    or one of the Secret that cert-manager or the operator makes *)
Definition services_outcome (h : history) (r : result Projection) : Prop :=
  match r with
  | Ok p =>
      match cc_CustomTLSSecret cluster with
      | Some custom => p = custom
      | None =>
          if decide (policy = CertManagementUserProvidedOnly) then
            exists secret, read h KSecret tlsKey secret /\ p = mounted (om_Name (d_Meta secret)) /\
              (forall key, key ∈ ["tls.crt"; "tls.key"; "ca.crt"] -> nonempty (dataOf secret key) = true) /\
              forall key path, (key, path) ∈ prj_Items p -> nonempty (dataOf secret key) = true
          else p = mounted (snd tlsKey) /\ (certificate_settled h \/ leaf_applied h)
      end
  | Err _ => True
  end.

#[local] Instance grows_leaf_written new : Grows (fun h => leaf_written h new).
Proof. unfold leaf_written. apply _. Qed.

Lemma resolve_services_wps h Q :
  (forall h' mode, h `prefix_of` h' -> resolved cluster h' mode -> Q h' (Ok mode)) ->
  (forall h' e, Q h' (Err e)) -> wps services_call h (ResolveIssuerMode cluster) Q.
Proof.
  intros HO HE. apply resolve_wps; [|done|done]. intros name Hn. split; [by eapply resolve_auto|]. by left.
Qed.

Lemma reconcileInternal_wps h s :
  policy <> CertManagementUserProvidedOnly -> cc_CustomTLSSecret cluster = None ->
  (cc_CustomRootCATLSSecret cluster <> None \/ resolved cluster h IssuerModeManagedNamespaced) ->
  wps services_call h (reconcileInternalClusterCertificate cname cluster root primaryService replicaService s) services_outcome.
Proof.
  intros Hp Hc Hm. unfold reconcileInternalClusterCertificate. apply wps_call_bind. split; [by left|]. intros r.
  set (h1 := h ++ _).
  assert (Hm1 : cc_CustomRootCATLSSecret cluster <> None \/ resolved cluster h1 IssuerModeManagedNamespaced).
  { destruct Hm as [Hm|Hm]; [by left|right]. by eapply (grows (P := fun h => resolved cluster h _)), prefix_app_r. }
  assert (Hin : got KSecret tlsKey r ∈ h1) by apply elem_of_snoc. clearbody h1.
  match goal with |- wps _ _ (match ?x with _ => _ end) _ => destruct x as [old|e] eqn:Eo; [|done] end.
  assert (Hold : absent h1 KSecret tlsKey /\ d_Data old = ∅ \/ read h1 KSecret tlsKey old).
  { destruct r as [o|e]; [injection Eo as <-; by right|]. destruct (IsNotFound e) eqn:En; [|done]. injection Eo as <-.
    left. split; [by exists e|done]. }
  destruct (serviceNames _ _ _ _ _ _) as [l|e] eqn:El; [|done]. apply serviceNames_names in El as ->.
  apply wps_call_bind. split; [done|]. intros now. set (h2 := h1 ++ _). assert (Hn : clock h2 now) by apply elem_of_snoc.
  assert (Hp2 : h1 `prefix_of` h2) by by apply prefix_app_r. clearbody h2.
  destruct (regenerate _ _ _ _ _ _) as [leaf|e] eqn:Er; [|done].
  apply regenerate_form in Er as (ra & -> & Hr & Hk & Hg & Hor).
  destruct (cert_MarshalText (leaf_Certificate leaf)) as [crt|e] eqn:Ec; [|done].
  destruct (key_MarshalText (leaf_PrivateKey leaf)) as [key|e] eqn:Ek; [|done].
  destruct (cert_MarshalText (root_Certificate ra)) as [ca|e] eqn:Eca; [|done].
  assert (Hw : leaf_written h2 (mkData (clusterCertificateMeta cluster (om_Controller (d_Meta old)))
                 {["tls.crt" := crt; "tls.key" := key; "ca.crt" := ca]})); cycle 1.
  { rewrite wps_bindr. split; [exact Hw|]. intros [a|e]; [|done]. cbn [wps services_outcome]. rewrite Hc.
    rewrite decide_False by done. split; [done|]. right. eexists _, a. split; [apply elem_of_snoc|].
    eapply (grows (P := fun h => leaf_written h _)); [exact Hw|by apply prefix_app_r]. }
  split_and!; try done.
  - destruct Hm1 as [Hm1|Hm1]; [by left|right]. by eapply (grows (P := fun h => resolved cluster h _)).
  - exists old, ra, leaf, now, crt, key, ca. split_and!; try done; [|by apply written_readsAs].
    destruct Hold as [[Ha Hd]|Hr']; [left|right].
    + split; [by eapply (grows (P := fun h => absent h KSecret tlsKey))|done].
    + by eapply (grows (P := fun h => read h KSecret tlsKey old)).
Qed.

Lemma reconcileCertManagerCluster_wps h Q :
  policy = CertManagementAuto ->
  (forall h', certificate_settled h' -> Q h' (Ok (clusterCertSecretProjection (snd tlsKey)))) ->
  (forall h' e, Q h' (Err e)) ->
  wps services_call h (reconcileCertManagerClusterCertificate env cname cluster primaryService replicaService) Q.
Proof.
  intros Hp HO HE. unfold reconcileCertManagerClusterCertificate. rewrite wps_bindr.
  apply resolve_services_wps; [|done]. intros h1 mode _ _. rewrite wps_bindr.
  assert (Hnext : forall h2, wps services_call h2
    match serviceNames cname cluster primaryService replicaService "get primary service DNS names" "get replica service DNS names" with
    | Err e => Ret (Err e)
    | Ok dnsNames =>
        do! _ := ApplyClusterCertificate cluster dnsNames or "failed to apply cluster certificate" in
        Ret (Ok (clusterCertSecretProjection (meta_Name (PostgresTLSSecret (config cluster)))))
    end Q).
  { intros h2. destruct (serviceNames _ _ _ _ _ _) as [l|e] eqn:El; [|apply HE].
    apply serviceNames_names in El as ->. rewrite wps_bindr.
    eapply (wps_mono clusterLeaf_call); [| |apply (ApplyClusterCertificate_ok cluster names h2)].
    - intros h' o Ho. case_op o; try done; (split; [done|by right]).
    - intros h' [[]|e] Hd; [|apply HE]. apply HO. by split. }
  case_bool_decide as Hx; [apply Hnext|]. rewrite wps_bindr.
  apply (wps_part (issuer_call cluster (issuerRef cluster) (fun mode => CA (meta_Name (caSecret env cluster mode)))));
    [|apply ApplyIssuer_wps|intros h' [[]|e] _; [apply Hnext|apply HE]].
  intros h' o Ho. case_op o; (split; [done|by left]).
Qed.

Lemma shouldUse_services_wps h Q :
  (forall h' b, h `prefix_of` h' -> (b = true -> policy = CertManagementAuto) -> Q h' (Ok b)) -> (forall h' e, Q h' (Err e)) ->
  wps services_call h (shouldUseCertManager errorText restConfig cluster) Q.
Proof. by apply shouldUseCertManager_wps. Qed.

(** Without cert-manager behind the root, the root is a custom one or belongs
    to a mode without an issuer of its own. *)
Lemma isRootManaged_wps h (Q : history -> result bool -> Prop) :
  (forall h' (b : bool), h `prefix_of` h' ->
     (if b then policy = CertManagementAuto
      else cc_CustomRootCATLSSecret cluster <> None \/ resolved cluster h' IssuerModeManagedNamespaced) -> Q h' (Ok b)) ->
  (forall h' e, Q h' (Err e)) ->
  wps services_call h (isRootCACertManagerManaged errorText restConfig cluster) Q.
Proof.
  intros HO HE. unfold isRootCACertManagerManaged.
  destruct (cc_CustomRootCATLSSecret cluster) as [p|] eqn:Ec; [by apply HO; [|left]|].
  rewrite wps_bindr. apply resolve_services_wps; [|done]. intros h1 mode Hp1 Hm. rewrite wps_bindr.
  apply shouldUse_services_wps; [|done]. intros h2 b Hp2 Hb.
  assert (Hm2 : resolved cluster h2 mode) by by eapply (grows (P := fun h => resolved cluster h mode)).
  assert (Hp3 : h `prefix_of` h2) by by etransitivity.
  case_bool_decide as Hx; cbn [negb].
  - subst mode. destruct b; cbn [negb]; [|apply HO; [done|by right]].
    specialize (Hb eq_refl). apply wps_call_bind. split; [by right|].
    intros [secret|e]; [|destruct (IsNotFound e); [|apply HE]].
    + apply HO; [etransitivity; [done|by apply prefix_app_r]|]. destruct (nonempty _); [done|]. right.
      by eapply (grows (P := fun h => resolved cluster h _)), prefix_app_r.
    + apply HO; [etransitivity; [done|by apply prefix_app_r]|done].
  - destruct b; cbn [negb]; [by apply HO; auto|apply HE].
Qed.

Lemma shouldReconcile_wps h (Q : history -> bool -> Prop) :
  (forall h' b, h `prefix_of` h' -> (b = true -> policy = CertManagementAuto) -> Q h' b) ->
  wps services_call h (shouldReconcileCertManagerCertificate errorText restConfig cluster (ClusterCertificateName cluster)) Q.
Proof.
  intros HO. unfold shouldReconcileCertManagerCertificate. rewrite wps_bind.
  eapply wps_conseq; [apply wps_prefix, (shouldUse_services_wps _ (fun _ r => r = Ok true -> policy = CertManagementAuto))|].
  - intros h' b _ Hb [= ->]. by apply Hb.
  - done.
  - intros h' r [Hp Hr]. destruct r as [[|]|e]; [|by apply HO..]. unfold CertificateExists. rewrite wps_bind. apply wps_call_bind.
    split; [split; [by apply Hr|by right]|]. intros [c|e].
    + apply HO; [etransitivity; [done|by apply prefix_app_r]|by intros; apply Hr].
    + destruct (IsNotFound e); (apply HO; [etransitivity; [done|by apply prefix_app_r]|done]).
Qed.

(** C27: The reconciliation of the certificate of the services, in every
    execution.  A custom Secret is used as it is.  Under the policy
    [userProvidedOnly] nothing is written, and the Secret that is used has been
    read with all three files, which are those that are mounted.  Otherwise the
    Secret of the services is used, and only when cert-manager has a
    Certificate for it that is as it has to be, or when the operator has
    written the Secret with success.  cert-manager is asked, and the issuer and
    the Certificate applied, only under the policy [auto].  The operator writes
    the Secret itself only for a root that is not of an issuer of the whole
    Kubernetes cluster or from outside, with a leaf that is good for that root
    and for exactly the names of both services, with its key and the
    certificate of the root; a leaf that is good stays as it is. *)
Theorem cluster_certificate_calls h s :
  wps services_call h
    (reconcileClusterCertificate env errorText restConfig cname cluster root primaryService replicaService s) services_outcome.
Proof.
  unfold reconcileClusterCertificate.
  destruct (cc_CustomTLSSecret cluster) as [p|] eqn:Ec; [cbn [wps services_outcome]; by rewrite Ec|].
  case_bool_decide as Hu.
  - unfold reconcileUserProvidedClusterCertificate. rewrite wps_bindr. split; [by left|]. intros [secret|e]; [|done].
    cbn [wps].
    match goal with |- context [List.find ?f ?l] => destruct (List.find f l) as [key|] eqn:Ef; [done|] end.
    cbn [wps services_outcome]. rewrite Ec, decide_True by done. exists secret.
    assert (Hkeys : forall key, key ∈ ["tls.crt"; "tls.key"; "ca.crt"] -> nonempty (dataOf secret key) = true).
    { intros key Hin%list_elem_of_In. apply negb_false_iff. exact (List.find_none _ _ Ef key Hin). }
    split_and!; [apply elem_of_snoc|done|done|]. intros key path Hin. apply Hkeys.
    cbn [clusterCertSecretProjection prj_Items] in Hin. set_solver.
  - rewrite wps_bindr. apply isRootManaged_wps; [|done]. intros h1 b Hp1 Hb. destruct b.
    + apply reconcileCertManagerCluster_wps; [done| |done]. intros h' Hd. cbn [services_outcome].
      rewrite Ec, decide_False by done. split; [done|by left].
    + rewrite wps_bind. apply shouldReconcile_wps. intros h2 b Hp2 Hauto. rewrite wps_bind.
      assert (Hlast : forall h3, h2 `prefix_of` h3 -> wps services_call h3
        (reconcileInternalClusterCertificate cname cluster root primaryService replicaService s) services_outcome).
      { intros h3 Hp3. apply reconcileInternal_wps; [done|done|]. destruct Hb as [Hb|Hb]; [by left|right].
        eapply (grows (P := fun h => resolved cluster h _)); [exact Hb|by etransitivity]. }
      destruct b; [|by apply Hlast]. rewrite wps_ignore.
      eapply wps_conseq; [apply wps_prefix, (reconcileCertManagerCluster_wps _ (fun _ _ => True)); [by apply Hauto|done..]|].
      intros h3 r [Hp3 _]. by apply Hlast.
Qed.
End Services.

(** *** The condition about TLS Secrets *)

(** A Secret and the keys it has to have *)
Definition requirement : Type := string * list string.

Definition secretName (p : option Projection) (name : string) : string := match p with Some p => prj_Name p | None => name end.

Definition pgBouncerRequirements : list requirement :=
  match pc_Proxy (config cluster) with
  | Some (mkProxy (Some b)) =>
      let name := cc_Name cluster +:+ "-pgbouncer" in
      match pgb_CustomTLSSecret b with
      | None => [(name, [CertFrontendAuthoritySecretKey; CertFrontendSecretKey; CertFrontendPrivateKeySecretKey])]
      | Some p => [(prj_Name p, [])]
      end
  | _ => []
  end.

Definition requirements (instances : list StatefulSet) : list requirement :=
  [(secretName (cc_CustomRootCATLSSecret cluster) (cc_Name cluster +:+ "-cluster-ca-cert"), []);
   (secretName (cc_CustomTLSSecret cluster) (cc_Name cluster +:+ "-cluster-cert"), []);
   (secretName (cc_CustomReplicationClientTLSSecret cluster) (cc_Name cluster +:+ "-replication-cert"), []);
   (cc_Name cluster +:+ "-pgbackrest", [])] ++
  pgBouncerRequirements ++ map (fun i => (om_Name (st_Meta i) +:+ "-certs", [])) instances.

Definition satisfied (h : history) (q : requirement) : Prop :=
  exists secret, read h KSecret (cc_Namespace cluster, fst q) secret /\
    forall key, key ∈ snd q -> nonempty (dataOf secret key) = true.

Definition refused (h : history) (q : requirement) : Prop :=
  absent h KSecret (cc_Namespace cluster, fst q) \/
  exists secret key, read h KSecret (cc_Namespace cluster, fst q) secret /\ key ∈ snd q /\ nonempty (dataOf secret key) = false.

#[local] Instance grows_satisfied q : Grows (fun h => satisfied h q).
Proof. unfold satisfied. apply _. Qed.

#[local] Instance grows_refused q : Grows (fun h => refused h q).
Proof. unfold refused. apply _. Qed.

(** What the checks have found about the Secrets so far *)
Definition found (h : history) (acc : checked) (l : list requirement) : Prop :=
  if bool_decide (acc = ([], [])) then Forall (satisfied h) l else Exists (refused h) l.

#[local] Instance grows_found acc l : Grows (fun h => found h acc l).
Proof.
  intros h h' Hf Hp. unfold found in *. case_bool_decide.
  - eapply Forall_impl; [exact Hf|]. intros q Hq. by eapply (grows (P := fun h => satisfied h q)).
  - eapply Exists_impl; [exact Hf|]. intros q Hq. by eapply (grows (P := fun h => refused h q)).
Qed.

(** The checks only read. *)
Definition tls_call (h : history) (o : op) : Prop :=
  match o with
  | Now => True
  | Get KSecret at_ => policy = CertManagementUserProvidedOnly /\ fst at_ = cc_Namespace cluster
  | ListAll KSts ns sel =>
      policy = CertManagementUserProvidedOnly /\ ns = cc_Namespace cluster /\ sel = selectInstances cluster
  | _ => False
  end.

Lemma emptyKeys_nil secret keys : emptyKeys secret keys = [] <-> forall key, key ∈ keys -> nonempty (dataOf secret key) = true.
Proof.
  unfold emptyKeys. split.
  - intros E key Hin. destruct (nonempty (dataOf secret key)) eqn:En; [done|]. exfalso.
    assert (Hf : key ∈ List.filter (fun key => negb (nonempty (dataOf secret key))) keys)
      by (apply list_elem_of_In, filter_In; rewrite <- list_elem_of_In; by rewrite En).
    rewrite E in Hf. by apply not_elem_of_nil in Hf.
  - induction keys as [|k keys IH]; intros Hk; [done|]. simpl. rewrite (Hk k) by left. apply IH. intros key Hin. apply Hk. by right.
Qed.

Lemma checkSecret_wps h p name keys acc l Q :
  policy = CertManagementUserProvidedOnly -> found h acc l ->
  (forall h' acc', h `prefix_of` h' -> found h' acc' (l ++ [(secretName p name, keys)]) -> Q h' (Ok acc')) ->
  (forall h' e, Q h' (Err e)) -> wps tls_call h (checkSecret cluster p name keys acc) Q.
Proof.
  intros Hp Hf HO HE. unfold checkSecret. fold (secretName p name). apply wps_call_bind. split; [done|]. intros r.
  set (h1 := h ++ _). assert (Hp1 : h `prefix_of` h1) by by apply prefix_app_r.
  assert (Hin : got KSecret (cc_Namespace cluster, secretName p name) r ∈ h1) by apply elem_of_snoc.
  pose proof (grows (P := fun h => found h acc l) _ _ Hf Hp1) as Hf1. clearbody h1. unfold found in Hf1.
  assert (Hbad : forall acc', acc' <> ([], []) -> refused h1 (secretName p name, keys) ->
            found h1 acc' (l ++ [(secretName p name, keys)])).
  { intros acc' Hne Hr. unfold found. rewrite bool_decide_eq_false_2 by done. apply Exists_app. right. by constructor. }
  destruct r as [secret|e].
  - destruct (decide (emptyKeys secret keys = [])) as [E|E]; [rewrite bool_decide_eq_true_2 by done|rewrite bool_decide_eq_false_2 by done];
      apply HO; try done.
    + unfold found. case_bool_decide; [|apply Exists_app; by left]. apply Forall_app. split; [done|]. constructor; [|done].
      exists secret. split; [done|]. by apply emptyKeys_nil.
    + apply Hbad; [destruct acc as [m i]; intros [= _ Hx]; by apply app_eq_nil in Hx as [_ ?]|]. right.
      destruct (emptyKeys secret keys) as [|key ks] eqn:Ek; [done|].
      assert (Hk : key ∈ emptyKeys secret keys) by (rewrite Ek; left).
      apply list_elem_of_In, filter_In in Hk as [Hk1%list_elem_of_In Hk2%negb_true_iff]. by exists secret, key.
  - destruct (IsNotFound e) eqn:En; [|apply HE]. apply HO; [done|].
    apply Hbad; [destruct acc as [m i]; intros [= Hx _]; by apply app_eq_nil in Hx as [_ ?]|]. left. by exists e.
Qed.

Lemma checkInstances_wps instances : forall h acc l Q,
  policy = CertManagementUserProvidedOnly -> found h acc l ->
  (forall h' acc', h `prefix_of` h' ->
     found h' acc' (l ++ map (fun i => (om_Name (st_Meta i) +:+ "-certs", [])) instances) -> Q h' (Ok acc')) ->
  (forall h' e, Q h' (Err e)) -> wps tls_call h (checkInstances cluster instances acc) Q.
Proof.
  induction instances as [|i instances IH]; intros h acc l Q Hp Hf HO HE; cbn [checkInstances map] in *.
  - apply HO; [done|]. by rewrite app_nil_r.
  - rewrite wps_bindr. apply (checkSecret_wps _ None _ [] acc l); [done|done| |done]. intros h1 acc1 Hp1 Hf1.
    apply (IH h1 acc1 (l ++ [(om_Name (st_Meta i) +:+ "-certs", [])])); [done|done| |done].
    intros h2 acc2 Hp2 Hf2. apply HO; [by etransitivity|]. by rewrite <- app_assoc in Hf2.
Qed.

Lemma checkPgBouncer_wps h acc l Q :
  policy = CertManagementUserProvidedOnly -> found h acc l ->
  (forall h' acc', h `prefix_of` h' -> found h' acc' (l ++ pgBouncerRequirements) -> Q h' (Ok acc')) ->
  (forall h' e, Q h' (Err e)) -> wps tls_call h (checkPgBouncer cluster acc) Q.
Proof.
  intros Hp Hf HO HE. unfold checkPgBouncer, pgBouncerRequirements in *.
  destruct (pc_Proxy (config cluster)) as [[[b|]]|]; try (apply HO; [done|by rewrite app_nil_r]).
  destruct (pgb_CustomTLSSecret b) as [p|]; rewrite wps_bindr.
  - by apply (checkSecret_wps _ (Some p) _ [] acc l).
  - by apply (checkSecret_wps _ None _ _ acc l).
Qed.

(** The instances whose Secrets matter: none with a custom Secret of the
    services *)
Definition listed (h : history) (instances : list StatefulSet) : Prop :=
  match cc_CustomTLSSecret cluster with
  | Some _ => instances = []
  | None => (Ev (ListAll KSts (cc_Namespace cluster) (selectInstances cluster) : op) (Ok instances) : event resp) ∈ h
  end.

#[local] Instance grows_listed instances : Grows (fun h => listed h instances).
Proof. unfold listed. destruct (cc_CustomTLSSecret cluster); apply _. Qed.

Lemma checkSecrets_wps h Q :
  policy = CertManagementUserProvidedOnly ->
  (forall h' acc instances, h `prefix_of` h' ->
     listed h' instances ->
     found h' acc (requirements instances) -> Q h' (Ok acc)) ->
  (forall h' e, Q h' (Err e)) -> wps tls_call h (checkSecrets cluster) Q.
Proof.
  intros Hp HO HE. unfold checkSecrets, listed in *.
  assert (Hnil : found h ([], []) []) by (unfold found; by rewrite bool_decide_eq_true_2).
  rewrite wps_bindr. apply (checkSecret_wps _ _ _ _ _ []); [done|done| |done]. intros h1 acc1 Hp1 Hf1.
  rewrite wps_bindr. eapply checkSecret_wps; [done|exact Hf1| |done]. intros h2 acc2 Hp2 Hf2.
  rewrite wps_bindr. eapply checkSecret_wps; [done|exact Hf2| |done]. intros h3 acc3 Hp3 Hf3.
  rewrite wps_bindr. eapply checkSecret_wps; [done|exact Hf3| |done]. intros h4 acc4 Hp4 Hf4.
  rewrite wps_bindr. eapply checkPgBouncer_wps; [done|exact Hf4| |done]. intros h5 acc5 Hp5 Hf5.
  assert (Hpre : h `prefix_of` h5) by (transitivity h1; [done|]; transitivity h2; [done|]; transitivity h3; [done|]; by transitivity h4).
  cbn [app] in Hf5. destruct (cc_CustomTLSSecret cluster) as [p|] eqn:Ec.
  - apply (HO _ _ []); [done|done|]. unfold requirements. rewrite Ec. cbn [map]. rewrite app_nil_r. exact Hf5.
  - rewrite wps_bindr. split; [done|]. intros [instances|e]; [|apply HE]. cbn [wps].
    set (h6 := h5 ++ _). assert (Hp6 : h5 `prefix_of` h6) by by apply prefix_app_r.
    apply (checkInstances_wps _ h6 acc5 _ _ Hp (grows_found _ _ _ _ Hf5 Hp6)); [|done].
    intros h7 acc6 Hp7 Hf6. apply (HO _ _ instances).
    + transitivity h5; [done|]. by transitivity h6.
    + eapply elem_of_grow; [apply elem_of_snoc|exact Hp7].
    + unfold requirements. rewrite Ec. exact Hf6.
Qed.

(** What becomes of the condition *)
Definition tls_outcome (h : history) (r : result CrunchyCluster) : Prop :=
  match r with
  | Ok after =>
      exists now status reason message,
        after = onClusterConditions (fun l => SetStatusCondition now l
          (mkCondition ConditionTypeTLSSecretsReady status reason message (om_Generation (cc_Meta cluster)) 0)) cluster /\
        (policy <> CertManagementUserProvidedOnly -> status = ConditionTrue) /\
        (policy = CertManagementUserProvidedOnly -> exists instances,
           listed h instances /\
           (status = ConditionTrue /\ Forall (satisfied h) (requirements instances) \/
            status = ConditionFalse /\ Exists (refused h) (requirements instances)))
  | Err _ => True
  end.

(** The condition about TLS Secrets.  Only under [userProvidedOnly] the
    Secrets matter, and they are only read; otherwise the condition is true at
    once.  Then it is true exactly when every Secret that is required was there
    (for PgBouncer's own with its three keys) and false when one was missing or
    lacked a key: those of the root, the services and the replication user,
    custom ones instead where they are given, those of pgBackRest and PgBouncer,
    and one for each instance unless the Secret of the services is custom.
    Nothing else of the cluster changes; an answer that is an error leaves the
    condition alone. *)
Theorem tls_condition h : wps tls_call h (reconcileTLSCondition cluster) tls_outcome.
Proof.
  unfold reconcileTLSCondition, setTLSCondition. case_bool_decide as Hu; cbn [negb].
  - rewrite wps_bindr. apply checkSecrets_wps; [done| |done]. intros h1 [missing invalid] instances _ Hl Hf.
    assert (Hset : forall status reason message,
      (status = ConditionTrue /\ Forall (satisfied h1) (requirements instances) \/
       status = ConditionFalse /\ Exists (refused h1) (requirements instances)) ->
      wps tls_call h1 (setTLSCondition cluster status reason message) tls_outcome).
    { intros status reason message Hs. apply wps_call_bind. split; [done|]. intros now.
      exists now, status, reason, message. split_and!; [done|done|]. intros _. exists instances. split.
      - by eapply (grows (P := fun h => listed h instances)), prefix_app_r.
      - destruct Hs as [[-> Hs]|[-> Hs]]; [left|right]; (split; [done|]).
        + eapply Forall_impl; [exact Hs|]. intros q Hq. by eapply (grows (P := fun h => satisfied h q)), prefix_app_r.
        + eapply Exists_impl; [exact Hs|]. intros q Hq. by eapply (grows (P := fun h => refused h q)), prefix_app_r. }
    unfold found in Hf. destruct (decide (missing = [])) as [->|Hm].
    + rewrite (bool_decide_eq_true_2 (@nil string = [])) by done. cbn [negb]. destruct (decide (invalid = [])) as [->|Hi].
      * rewrite bool_decide_eq_true_2 in Hf by done. rewrite bool_decide_eq_true_2 by done. apply Hset. by left.
      * rewrite (bool_decide_eq_false_2 (@eq checked _ ([], []))) in Hf by congruence.
        rewrite bool_decide_eq_false_2 by done. apply Hset. by right.
    + rewrite (bool_decide_eq_false_2 (@eq checked _ ([], []))) in Hf by congruence.
      rewrite bool_decide_eq_false_2 by done. apply Hset. by right.
  - apply wps_call_bind. split; [done|]. intros now. by exists now, ConditionTrue, "TLSSecretsFound", ("certManagementPolicy is " +:+ policy).
Qed.

(** ** What the code does not catch *)

(** A custom Secret of the root that is not there is no error under the policy
    of the operator: the root that is returned has no certificate ... *)
Lemma missing_custom_root_is_returned s p :
  policy = CertManagementOperatorProvidedOnly -> cc_CustomRootCATLSSecret cluster = Some p ->
  exec (reconcileRootCertificate env errorText restConfig cluster s)
    [got KSecret (cc_Namespace cluster, prj_Name p) (Err (ApiError NotFound))] (Ok (Some (mkRoot noCertificate noKey))).
Proof.
  intros Hp Hc. assert (Hm : specifiedMode cluster = inl IssuerModeManagedNamespaced) by (unfold specifiedMode; by rewrite Hp).
  unfold reconcileRootCertificate, ResolveIssuerMode. rewrite Hm, Hc, Hp. cbn [bindr bind]. rewrite bool_decide_eq_false_2 by done.
  rewrite (surjective_pairing (rootKeys _)). exists (Err (ApiError NotFound)), []. split; [done|].
  unfold reconcileCertManagerRootCertificate, shouldUseCertManager. rewrite Hp. cbn [bindr bind default from_option].
  change (IsNotFound (ApiError NotFound)) with true. cbn iota. rewrite (bool_decide_eq_false_2 (_ = CertManagementAuto)) by done.
  cbn [negb bindr bind andb]. rewrite !(bool_decide_eq_false_2) by done. cbn [bindr bind andb].
  unfold internalRoot. rewrite Hc. cbn [exec]. split; [done|]. f_equal. f_equal.
  unfold storedRoot, dataOf. change (default ?a None) with a. cbn [d_Data]. rewrite !lookup_empty. change (default ?a None) with a.
  unfold cert_UnmarshalText, key_UnmarshalText. by rewrite pem_Decode_nothing.
Qed.

(** ... and making a leaf with it is a nil dereference. *)
Lemma root_without_certificate_makes_no_leaf now leaf commonName dnsNames s :
  exists e, regenerate now (Some (mkRoot noCertificate noKey)) leaf commonName dnsNames s = Err e.
Proof.
  unfold regenerate, RegenerateLeafWhenNecessary, leafIsValid. cbn [x509 root_Certificate noCertificate andb].
  unfold GenerateLeafCertificate. destruct (GenerateKey s) as [[key|e] s1]; [|by eexists].
  destruct (generateSerialNumber s1) as [[serial|e] s2]; by eexists.
Qed.

(** With an issuer from outside there is no root, even if a custom one is
    given; its services' certificate is then made internally, which is a nil
    dereference as well. *)
Lemma custom_root_ignored_for_external_issuer s p ic :
  policy = CertManagementAuto -> cc_CustomRootCATLSSecret cluster = Some p -> issuerConf cluster = Some ic ->
  ir_Kind ic ∉ [""; IssuerKind; ClusterIssuerKind] ->
  exec (reconcileRootCertificate env errorText restConfig cluster s) [] (Ok None) /\
  exec (isRootCACertManagerManaged errorText restConfig cluster) [] (Ok false).
Proof.
  intros Hp Hc Hi Hk. assert (Hm : specifiedMode cluster = inl IssuerModeExternal).
  { unfold specifiedMode. rewrite Hp, Hi. rewrite bool_decide_eq_true_2 by done. cbn [negb].
    rewrite !bool_decide_eq_false_2; [done|..]; intros E; apply Hk; rewrite E; set_solver. }
  split.
  - unfold reconcileRootCertificate, ResolveIssuerMode. by rewrite Hm.
  - unfold isRootCACertManagerManaged. by rewrite Hc.
Qed.
End CertificateProperties.
