(* ===== verification/KeyProvider.v ===== *)
(** * The key provider of pg_tde

    [internal/pgtde/postgres.go]: the SQL that installs the extension and
    configures its Vault key provider, the phases of a change of credentials,
    and the volume that holds them; and, of
    [internal/controller/postgrescluster/postgres.go], the reconcilers that run
    it, for clusters in recovery and for the others. *)
From S2P Require Import Prelude GoStrings Cluster Parameters Prog Errors Naming Objects Client Psql ObservedInstances ClusterStatus RepoBackups.

(** ** Names *)
Definition PGTDEVolume : string := "pg-tde".
Definition PGTDEMountPath : string := "/pgconf/tde".
Definition PGTDEVaultProvider : string := "vault-provider".
Definition PGTDEGlobalKey : string := "global-master-key".
Definition TempTokenPath : string := "/pgdata/tde-new-token".
Definition TempCAPath : string := "/pgdata/tde-new-ca.crt".

Definition pgtdeEnabled (cluster : CrunchyCluster) : bool := ext_PGTDE_Enabled (pc_Extensions (cc_Config cluster)).

(** The variables of almost every command: abort when one statement fails, and
    print no successful ones. *)
Definition onErrorStop : gmap string string := {[ "ON_ERROR_STOP" := "on"; "QUIET" := "on" ]}.

(** ** The extension *)
Definition enableInPostgreSQL (exec : Executor) : program (option error) :=
  let! out := ExecInAllDatabases exec
    (Join ["SET client_min_messages = WARNING;"; "CREATE EXTENSION IF NOT EXISTS pg_tde;"; "ALTER EXTENSION pg_tde UPDATE;"] (char newline))
    onErrorStop in
  Ret (out_Err out).

Definition disableInPostgreSQL (exec : Executor) : program (option error) :=
  let! out := ExecInAllDatabases exec
    (Join ["SET client_min_messages = WARNING;"; "DROP EXTENSION IF EXISTS pg_tde;"] (char newline)) onErrorStop in
  Ret (out_Err out).

Definition ReconcileExtension (exec : Executor) (cluster : CrunchyCluster) : program (option error) :=
  if negb (pgtdeEnabled cluster) then disableInPostgreSQL exec else enableInPostgreSQL exec.

Definition readOnlyPSQLArgs : list string := ["--no-align"; "--tuples-only"].

(** [strings.Cut] with a separator of one character: what is before it *)
Definition Cut_before (s : string) (sep : ascii) : string := default "" (head (Split s sep)).

Definition psqlStderr (stderr : string) : string :=
  let line := Cut_before (TrimSpace stderr) newline in
  if bool_decide (line = "") then "psql failed" else line.

Definition observeSQL : string :=
  "SELECT EXISTS (SELECT 1 FROM pg_catalog.pg_extension WHERE extname = 'pg_tde')".

Definition ObserveExtension (exec : Executor) : action bool :=
  let! out := ExecPsql exec observeSQL onErrorStop readOnlyPSQLArgs in
  match out_Err out with
  | Some e => Ret (Err (Wrap (psqlStderr (out_Stderr out)) e))
  | None =>
      let result := TrimSpace (out_Stdout out) in
      Ret (if bool_decide (result = "t") then Ok true
           else if bool_decide (result = "f") then Ok false
           else Err (New ("unexpected result from pg_extension: " +:+ Quote (out_Stdout out))))
  end.

Definition verifySQL : string := "SELECT pg_tde_verify_default_key()".

Definition VerifyPrincipalKey (exec : Executor) : program (option error) :=
  let! out := ExecPsql exec verifySQL onErrorStop readOnlyPSQLArgs in
  Ret (Wrap (psqlStderr (out_Stderr out)) <$> out_Err out).

(** ** The vault *)
Definition HasCA (vault : PGTDEVaultSpec) : bool := nonempty (va_CASecret vault).1 && nonempty (va_CASecret vault).2.

(** The paths of the token and of the certificate of the CA, "" for none *)
Definition VaultCredentialPaths (vault : PGTDEVaultSpec) : string * string :=
  (PGTDEMountPath +:+ "/" +:+ (va_TokenSecret vault).2,
   if HasCA vault then PGTDEMountPath +:+ "/" +:+ (va_CASecret vault).2 else "").

Definition TempVaultCredentialPaths (vault : PGTDEVaultSpec) : string * string :=
  (TempTokenPath, if HasCA vault then TempCAPath else "").

(** The SQL that adds the provider or changes it, and its variables *)
Definition vaultSQL (function : string) : string :=
  Join ["SET client_min_messages = WARNING;";
        "SELECT " +:+ function +:+ "(
			    :'provider_name', :'vault_host', :'vault_mount_path', :'token_path', NULLIF(:'ca_path', '')
			);"] (char newline).

Definition vaultVariables (vault : PGTDEVaultSpec) (paths : string * string) : gmap string string :=
  <["provider_name" := PGTDEVaultProvider]> (<["vault_host" := va_Host vault]>
  (<["vault_mount_path" := va_MountPath vault]> (<["token_path" := paths.1]> (<["ca_path" := paths.2]> onErrorStop)))).

Definition addVaultProvider (exec : Executor) (vault : PGTDEVaultSpec) (paths : string * string) : program (option error) :=
  let! out := ExecPsql exec (vaultSQL "pg_tde_add_global_key_provider_vault_v2") (vaultVariables vault paths) [] in
  Ret (out_Err out).

Definition changeVaultProvider (exec : Executor) (vault : PGTDEVaultSpec) (paths : string * string) : program (option error) :=
  let! out := ExecPsql exec (vaultSQL "pg_tde_change_global_key_provider_vault_v2") (vaultVariables vault paths) [] in
  Ret (out_Err out).

Definition keySQL (function : string) : string :=
  Join ["SET client_min_messages = WARNING;"; "SELECT " +:+ function +:+ "(:'global_key', :'provider_name');"] (char newline).

Definition keyVariables (clusterID : string) : gmap string string :=
  <["provider_name" := PGTDEVaultProvider]> (<["global_key" := PGTDEGlobalKey +:+ "-" +:+ clusterID]> onErrorStop).

Definition createGlobalKey (exec : Executor) (clusterID : string) : program (option error) :=
  let! out := ExecPsql exec (keySQL "pg_tde_create_key_using_global_key_provider") (keyVariables clusterID) [] in
  Ret (out_Err out).

Definition setDefaultKey (exec : Executor) (clusterID : string) : program (option error) :=
  let! out := ExecPsql exec (keySQL "pg_tde_set_default_key_using_global_key_provider") (keyVariables clusterID) [] in
  Ret (out_Err out).

(** The key of a cluster that has had no provider yet *)
Definition reconcileKey (exec : Executor) (clusterID : string) : program (option error) :=
  let! createErr := createGlobalKey exec clusterID in
  let! err := setDefaultKey exec clusterID in
  Ret (match err with
       | Some err => Some (match createErr with
                           | Some createErr => Wrap "create global key" createErr
                           | None => Wrap "set default key" err
                           end)
       | None => None
       end).

(** The caller has made sure that there is a vault. *)
Definition ReconcileVaultProvider (exec : Executor) (cluster : CrunchyCluster) (vault : PGTDEVaultSpec)
    (paths : string * string) : program (option error) :=
  if negb (bool_decide (cc_PGTDERevision cluster = "")) then changeVaultProvider exec vault paths
  else
    let! addErr := addVaultProvider exec vault paths in
    match addErr with
    | Some addErr =>
        let! err := changeVaultProvider exec vault paths in
        match err with
        | Some _ => Ret (Some (Wrap "add vault provider" addErr))
        | None => reconcileKey exec (om_UID (cc_Meta cluster))
        end
    | None => reconcileKey exec (om_UID (cc_Meta cluster))
    end.

(** ** Where a change of credentials stands *)
Inductive Phase := InitialSetup | Configured | StageCredentials | Finalize.

#[export] Instance Phase_eq_dec : EqDecision Phase.
Proof. solve_decision. Defined.

Record vaultChange := mkChange {
  vc_Phase : Phase;
  vc_Paths : string * string;
  vc_TempPaths : string * string;
  vc_StandardRevision : string;
  vc_TempRevision : string
}.

Section Revisions.
Context `{SafeEncode}.

(** [util.SafeHash32] of a function that writes this text and does not fail *)
Definition SafeHash32 (text : string) : string := SafeEncodeString (pretty (fnv32 text)).

(** Writing to a hash never fails, so neither does this. *)
Definition VaultRevision (vault : PGTDEVaultSpec) (paths : string * string) : string :=
  SafeHash32 (Join (map Quote
    [va_Host vault; va_MountPath vault; (va_TokenSecret vault).1; (va_TokenSecret vault).2;
     (va_CASecret vault).1; (va_CASecret vault).2; paths.1; paths.2]) "").

Definition VaultChangeFor (cluster : CrunchyCluster) (vault : PGTDEVaultSpec) : vaultChange :=
  let paths := VaultCredentialPaths vault in
  let tempPaths := TempVaultCredentialPaths vault in
  let standard := VaultRevision vault paths in
  let temp := VaultRevision vault tempPaths in
  let revision := cc_PGTDERevision cluster in
  mkChange (if bool_decide (revision = "") then InitialSetup
            else if bool_decide (revision = standard) then Configured
            else if bool_decide (revision = temp) then Finalize
            else StageCredentials) paths tempPaths standard temp.
End Revisions.

(** ** The volume with the credentials *)

(** The first one of a name is replaced, or the new one is added at the end. *)
Fixpoint replaceNamed {A} (name : A -> string) (new : A) (l : list A) : option (list A) :=
  match l with
  | [] => None
  | x :: l => if bool_decide (name x = PGTDEVolume) then Some (new :: l) else (fun l => x :: l) <$> replaceNamed name new l
  end.

Definition putNamed {A} (name : A -> string) (new : A) (l : list A) : list A := default (l ++ [new]) (replaceNamed name new l).

Definition findNamed {A} (name : A -> string) (l : list A) : option A := List.find (fun x => bool_decide (name x = PGTDEVolume)) l.

(** The first container of the database, changed *)
Fixpoint onDatabase (f : Container -> Container) (l : list Container) : list Container :=
  match l with
  | [] => []
  | c :: l => if bool_decide (ct_Name c = ContainerDatabase) then f c :: l else c :: onDatabase f l
  end.

Definition databaseContainer (l : list Container) : option Container :=
  List.find (fun c => bool_decide (ct_Name c = ContainerDatabase)) l.

Definition oldMount (existing : PodSpec) : option VolumeMount :=
  c ← databaseContainer (psp_Containers existing); findNamed vm_Name (ct_VolumeMounts c).

(** [existing] is the template of the StatefulSet as it is in the cluster. *)
Definition PreserveOldTDEVolume (podSpec existing : PodSpec) : PodSpec :=
  match findNamed fst (psp_Volumes existing) with
  | None => podSpec
  | Some oldVolume =>
      let podSpec := podSpec <| psp_Volumes ::= putNamed fst oldVolume |> in
      match oldMount existing with
      | None => podSpec
      | Some oldMount =>
          podSpec <| psp_Containers ::= onDatabase (fun c => c <| ct_VolumeMounts ::= putNamed vm_Name oldMount |>) |>
      end
  end.

(** ** The reconcilers *)
Section Reconcile.
Context `{MetaConditions} `{SafeEncode}.
(** the text of an error, and [equality.Semantic.DeepEqual] of two statuses *)
Context (errorText : error -> string) (statusEqual : CrunchyCluster -> CrunchyCluster -> bool).

(** [meta.SetStatusCondition(&cluster.Status.Conditions, ...)] *)
Definition setCondition (type_ : string) (status : ConditionStatus) (reason message : string)
    (cluster : CrunchyCluster) : program CrunchyCluster :=
  let! now := call Now in
  Ret (onClusterConditions (fun l => SetStatusCondition now l
    (mkCondition type_ status reason message (om_Generation (cc_Meta cluster)) 0)) cluster).

Definition ReportExtension (cluster : CrunchyCluster) (err : option error) : program CrunchyCluster :=
  let enabled := pgtdeEnabled cluster in
  match err with
  | Some _ =>
      let! _ := call (Event "Warning" (if enabled then "PGTDEInstallFailed" else "PGTDEDisableFailed")) in
      Ret cluster
  | None =>
      if enabled
      then setCondition PGTDEEnabled ConditionTrue "Enabled" "pg_tde is enabled in PerconaPGCluster" cluster
      else setCondition PGTDEEnabled ConditionFalse "Disabled" "pg_tde is disabled in PerconaPGCluster" cluster
  end.

(** The condition of the extension on a standby: status, reason, message *)
Definition standbyExtension (installed enabled : bool) : ConditionStatus * string * string :=
  match installed, enabled with
  | true, true => (ConditionTrue, "ReplicatedFromSource", "pg_tde arrived with the data replicated from the source cluster")
  | true, false => (ConditionTrue, "RecoveryCannotDrop",
      "pg_tde is disabled in PerconaPGCluster but the extension is still" +:+
      " installed; a cluster in recovery cannot drop it. Disable pg_tde on the source" +:+
      " cluster, or promote this one first.")
  | false, true => (ConditionFalse, "RecoveryCannotInstall",
      "pg_tde is enabled in PerconaPGCluster but the extension is not" +:+
      " installed; a cluster in recovery cannot install it. Enable pg_tde on the source" +:+ " cluster.")
  | false, false => (ConditionFalse, "Disabled", "pg_tde is disabled in PerconaPGCluster")
  end.

Definition standbyProvider (installed : bool) (keyErr : option error) : ConditionStatus * string * string :=
  if negb installed
  then (ConditionFalse, "ExtensionNotInstalled", "pg_tde is not installed, so it has no key provider")
  else match keyErr with
       | Some e => (ConditionFalse, "KeyUnavailable",
                    "pg_tde could not fetch its principal key on the standby leader: " +:+ errorText e)
       | None => (ConditionTrue, "ReplicatedFromSource", "pg_tde fetched its principal key using the replicated key provider")
       end.

Definition ReportStandby (cluster : CrunchyCluster) (installed : bool) (keyErr : option error) : program CrunchyCluster :=
  let '(status, reason, message) := standbyExtension installed (pgtdeEnabled cluster) in
  let! cluster := setCondition PGTDEEnabled status reason message cluster in
  if negb (pgtdeEnabled cluster) || negb (bool_decide (is_Some (cc_Vault cluster)))
     || negb (bool_decide (cc_PGTDERevision cluster = ""))
  then Ret cluster
  else let '(status, reason, message) := standbyProvider installed keyErr in
       setCondition PGTDEVaultProviderReady status reason message cluster.

(** Its result is the cluster with its status. *)
Definition reconcilePGTDEStandby (cluster : CrunchyCluster) (instances : observedInstances) : program CrunchyCluster :=
  if negb (IsStandby (cc_Config cluster)) then Ret cluster
  else if negb (pgtdeEnabled cluster) && negb (IsStatusConditionTrue (cc_Conditions cluster) PGTDEEnabled) then Ret cluster
  else match standbyLeaderPod instances ContainerDatabase with
       | None => Ret cluster
       | Some (pod, _) =>
           let pgExecutor := podExecutor (objectKey (p_Meta pod)) ContainerDatabase in
           let! installed := ObserveExtension pgExecutor in
           match installed with
           | Err _ => Ret cluster
           | Ok true =>
               let! keyErr := VerifyPrincipalKey pgExecutor in
               ReportStandby cluster true keyErr
           | Ok false => ReportStandby cluster false None
           end
       end.

(** The function that the controller passes on: it writes the status when that
    differs, and a successful answer replaces the cluster. *)
Definition patchStatus (before cluster : CrunchyCluster) : program (CrunchyCluster * option error) :=
  if statusEqual before cluster then Ret (cluster, None)
  else
    let! r := call (StatusPatch KCrunchy before cluster) in
    Ret (match r with Ok c => (c, None) | Err e => (cluster, Some e) end).

(** *** Files in the containers *)

(** [strconv.Atoi] *)
Definition isNumber (s : string) : bool :=
  match s with
  | String "-" s | String "+" s => nonempty s && all_chars is_digit s
  | s => nonempty s && all_chars is_digit s
  end.

Definition Atoi (s : string) : result Z :=
  match ParseInt s with
  | Some z => Ok z
  | None => Err (New ("strconv.Atoi: parsing " +:+ Quote s +:+ ": " +:+
                      (if isNumber s then "value out of range" else "invalid syntax")))
  end.

Definition writeCommand (path : string) : list string :=
  ["bash"; "-ceu"; "umask 077; cat > " +:+ path +:+ "; wc -c < " +:+ path].

Definition writeTempFile (pod : Pod) (container path data : string) : program (option error) :=
  let! out := call (Exec (objectKey (p_Meta pod)) container (Some data) (writeCommand path)) in
  match out_Err out with
  | Some e => Ret (Some (Wrap ("write " +:+ path +:+ ": " +:+ out_Stderr out) e))
  | None =>
      Ret (match Atoi (TrimSpace (out_Stdout out)) with
           | Err e => Some (Wrap ("check size of " +:+ path) e)
           | Ok written =>
               if bool_decide (written = Z.of_nat (String.length data)) then None
               else Some (New ("wrote " +:+ pretty written +:+ " of " +:+ pretty (String.length data) +:+ " bytes to " +:+ path))
           end)
  end.

Definition removeCommand (paths : list string) : list string := ["bash"; "-ceu"; "rm -f " +:+ Join paths " "].

Definition removeTempFiles (pod : Pod) (container : string) (paths : list string) : program (option error) :=
  let! out := call (Exec (objectKey (p_Meta pod)) container None (removeCommand paths)) in
  Ret (Wrap ("remove " +:+ Join paths ", " +:+ ": " +:+ out_Stderr out) <$> out_Err out).

(** All pods are visited; the first error is returned. *)
Fixpoint cleanupTempPGTDEFiles (pods : list Pod) (container : string) (err : option error) : program (option error) :=
  match pods with
  | [] => Ret err
  | pod :: pods =>
      let! e := removeTempFiles pod container [TempTokenPath; TempCAPath] in
      cleanupTempPGTDEFiles pods container
        (match err, e with
         | None, Some e => Some (Wrap ("pod " +:+ om_Name (p_Meta pod)) e)
         | _, _ => err
         end)
  end.

Definition pgTDESecretValue (namespace : string) (secretRef : string * string) : action string :=
  do! secret := call (Get KSecret (namespace, secretRef.1)) or ("get secret " +:+ Quote secretRef.1) in
  Ret (match d_Data secret !! secretRef.2 with
       | Some data => Ok data
       | None => Err (New ("key " +:+ Quote secretRef.2 +:+ " not found in secret " +:+ Quote secretRef.1))
       end).

(** The files, each a path with its content *)
Fixpoint stageFiles (pod : Pod) (container : string) (files : list (string * string)) : program (option error) :=
  match files with
  | [] => Ret None
  | (path, data) :: files =>
      let! err := writeTempFile pod container path data in
      match err with
      | Some e => Ret (Some (Wrap ("pod " +:+ om_Name (p_Meta pod)) e))
      | None => stageFiles pod container files
      end
  end.

Fixpoint stagePods (pods : list Pod) (container : string) (files : list (string * string)) : program (option error) :=
  match pods with
  | [] => Ret None
  | pod :: pods =>
      let! err := stageFiles pod container files in
      match err with Some e => Ret (Some e) | None => stagePods pods container files end
  end.

Definition stagedFiles (namespace : string) (vault : PGTDEVaultSpec) (paths : string * string) : action (list (string * string)) :=
  do! token := pgTDESecretValue namespace (va_TokenSecret vault) or "token secret" in
  if HasCA vault then
    do! ca := pgTDESecretValue namespace (va_CASecret vault) or "CA secret" in
    Ret (Ok [(paths.1, token); (paths.2, ca)])
  else Ret (Ok [(paths.1, token)]).

Definition stagePGTDEVaultCredentials (namespace : string) (vault : PGTDEVaultSpec) (pods : list Pod)
    (container : string) (paths : string * string) : program (option error) :=
  let! files := stagedFiles namespace vault paths in
  match files with
  | Err e => Ret (Some e)
  | Ok files => stagePods pods container files
  end.

(** *** A cluster that is not in recovery *)
Definition setPGTDEVaultProviderCondition : CrunchyCluster -> program CrunchyCluster :=
  setCondition PGTDEVaultProviderReady ConditionTrue "Configured" "pg_tde vault key provider matches the spec".

(** The provider names the credentials in the specification.  A failed cleanup
    is logged. *)
Definition alreadyConfigured (before cluster : CrunchyCluster) (pods : list Pod) : program (CrunchyCluster * option error) :=
  match FindStatusCondition (cc_Conditions cluster) PGTDEVaultProviderReady with
  | Some condition =>
      if bool_decide (cond_Status condition = ConditionTrue) then Ret (cluster, None)
      else let! cluster := setPGTDEVaultProviderCondition cluster in
           let! _ := cleanupTempPGTDEFiles pods ContainerDatabase None in
           patchStatus before cluster
  | None => let! cluster := setPGTDEVaultProviderCondition cluster in
            let! _ := cleanupTempPGTDEFiles pods ContainerDatabase None in
            patchStatus before cluster
  end.

(** The new revision; the phase is not [Configured]. *)
Definition changeProvider (cluster : CrunchyCluster) (vault : PGTDEVaultSpec) (pods : list Pod) (exec : Executor)
    (change : vaultChange) : action string :=
  match vc_Phase change with
  | InitialSetup =>
      let! err := ReconcileVaultProvider exec cluster vault (vc_Paths change) in
      Ret (match err with Some e => Err e | None => Ok (vc_StandardRevision change) end)
  | Finalize =>
      let! err := ReconcileVaultProvider exec cluster vault (vc_Paths change) in
      match err with
      | Some e => Ret (Err e)
      | None =>
          let! _ := cleanupTempPGTDEFiles pods ContainerDatabase None in
          Ret (Ok (vc_StandardRevision change))
      end
  | Configured | StageCredentials =>
      let! err := stagePGTDEVaultCredentials (cc_Namespace cluster) vault pods ContainerDatabase (vc_TempPaths change) in
      match err with
      | Some e => Ret (Err e)
      | None =>
          let! err := ReconcileVaultProvider exec cluster vault (vc_TempPaths change) in
          Ret (match err with Some e => Err e | None => Ok (vc_TempRevision change) end)
      end
  end.

Definition reportFailure (before cluster : CrunchyCluster) (e : error) : program (CrunchyCluster * option error) :=
  let! _ := call (Event "Warning" "PGTDEVaultProviderChangeFailed") in
  let! cluster := setCondition PGTDEVaultProviderReady ConditionFalse "ChangeFailed" (errorText e) cluster in
  let! r := patchStatus before cluster in
  Ret (r.1, Some e).

Definition recordRevision (before cluster : CrunchyCluster) (change : vaultChange) (revision : string)
    : program (CrunchyCluster * option error) :=
  let cluster := cluster <| cc_PGTDERevision := revision |> in
  let! cluster :=
    (if bool_decide (revision = vc_TempRevision change)
     then setCondition PGTDEVaultProviderReady ConditionFalse "ChangeInProgress"
            "waiting for Pods to restart with the new vault credentials" cluster
     else setPGTDEVaultProviderCondition cluster) in
  let! r := patchStatus before cluster in
  Ret (r.1, Wrap "patch status" <$> r.2).

Definition reconcileProvider (before cluster : CrunchyCluster) (vault : PGTDEVaultSpec) (pods : list Pod) (pod : Pod)
    : program (CrunchyCluster * option error) :=
  let change := VaultChangeFor cluster vault in
  if bool_decide (vc_Phase change = Configured) then alreadyConfigured before cluster pods
  else
    let! revision := changeProvider cluster vault pods (podExecutor (objectKey (p_Meta pod)) ContainerDatabase) change in
    match revision with
    | Err e => reportFailure before cluster e
    | Ok revision => recordRevision before cluster change revision
    end.

(** Past [allRunning] the code asks for it twice more, to no effect. *)
Definition reconcilePGTDEProviders (before cluster : CrunchyCluster) (instances : observedInstances)
    : program (CrunchyCluster * option error) :=
  match cc_Vault cluster with
  | Some vault =>
      if negb (pgtdeEnabled cluster) then
        Ret (onClusterConditions (fun l => RemoveStatusCondition l PGTDEVaultProviderReady) (cluster <| cc_PGTDERevision := "" |>), None)
      else if IsStandby (cc_Config cluster) then Ret (cluster, None)
      else if existsb (fun i => negb (known_true (PodMatchesPodTemplate i))) (forCluster instances) then Ret (cluster, None)
      else
        let (pods, allRunning) := runningPods instances ContainerDatabase in
        if negb allRunning then
          if IsStatusConditionTrue (cc_Conditions cluster) PGTDEVaultProviderReady then Ret (cluster, None)
          else let! cluster := setCondition PGTDEVaultProviderReady ConditionFalse "WaitingForInstances"
                 "waiting for all instances to be running to stage vault credentials" cluster in
               patchStatus before cluster
        else if existsb (fun p => bool_decide (om_Annotations (p_Meta p) !! TDEInstalledAnnotation = None)) pods
        then Ret (cluster, None)
        else match writablePod instances ContainerDatabase with
             | None => Ret (cluster, None)
             | Some (pod, _) => reconcileProvider before cluster vault pods pod
             end
  | None =>
      Ret (onClusterConditions (fun l => RemoveStatusCondition l PGTDEVaultProviderReady) (cluster <| cc_PGTDERevision := "" |>), None)
  end.

(** *** The volume of an instance

    What [reconcileInstance] does to the template of an instance before it adds
    pgBackRest to it. *)
Definition heldForChange (cluster : CrunchyCluster) : bool :=
  match cc_Vault cluster with
  | Some vault => bool_decide (vc_Phase (VaultChangeFor cluster vault) = StageCredentials)
  | None => false
  end.

Definition heldForDrop (cluster : CrunchyCluster) : bool :=
  negb (pgtdeEnabled cluster) && IsStatusConditionTrue (cc_Conditions cluster) PGTDEEnabled.

Definition instanceVolume (cluster : CrunchyCluster) (podSpec existing : PodSpec) : PodSpec :=
  let podSpec := if heldForChange cluster then PreserveOldTDEVolume podSpec existing else podSpec in
  if heldForDrop cluster then PreserveOldTDEVolume podSpec existing else podSpec.
End Reconcile.

(** ** What is sent *)

(** psql is given this SQL with these variables. *)
Definition sends (sql : string) (vars : gmap string string) (stdin : option string) (command : list string) : Prop :=
  stdin = Some sql /\ exists order, order ≡ₚ keys vars /\
  command = ["psql"; "-Xw"; "--file=-"] ++ sortStrings (setArgs vars order ++ []).

(** The provider is pointed at credentials at these paths. *)
Definition points (vault : PGTDEVaultSpec) (paths : string * string) (stdin : option string) (command : list string) : Prop :=
  exists function, (function = "pg_tde_add_global_key_provider_vault_v2" \/ function = "pg_tde_change_global_key_provider_vault_v2") /\
  sends (vaultSQL function) (vaultVariables vault paths) stdin command.

Definition makes_key (clusterID : string) (stdin : option string) (command : list string) : Prop :=
  exists function, (function = "pg_tde_create_key_using_global_key_provider" \/ function = "pg_tde_set_default_key_using_global_key_provider") /\
  sends (keySQL function) (keyVariables clusterID) stdin command.

Definition ran (h : history) (pod : key) (stdin : option string) (command : list string) (out : ExecOutput) : Prop :=
  Ev (Exec pod ContainerDatabase stdin command : op) (out : resp (Exec pod ContainerDatabase stdin command)) ∈ h.

#[export] Instance grows_ran pod stdin command out : Grows (fun h => ran h pod stdin command out).
Proof. intros h h'. apply elem_of_grow. Qed.

(** The provider was pointed there. *)
Definition pointed (h : history) (pod : key) (vault : PGTDEVaultSpec) (paths : string * string) : Prop :=
  exists stdin command out, ran h pod stdin command out /\ points vault paths stdin command /\ out_Err out = None.

(** A pod has the whole of a file. *)
Definition written (h : history) (path data : string) (pod : Pod) : Prop :=
  exists out, ran h (objectKey (p_Meta pod)) (Some data) (writeCommand path) out /\ out_Err out = None /\
    ParseInt (TrimSpace (out_Stdout out)) = Some (Z.of_nat (String.length data)).

Definition secretValue (h : history) (namespace : string) (ref : string * string) (data : string) : Prop :=
  exists secret, read h KSecret (namespace, ref.1) secret /\ d_Data secret !! ref.2 = Some data.

Definition in_place (h : history) (namespace : string) (pods : list Pod) (path : string) (ref : string * string) : Prop :=
  exists data, secretValue h namespace ref data /\ Forall (written h path data) pods.

(** Every pod has the token, and the certificate if there is one. *)
Definition staged (h : history) (namespace : string) (pods : list Pod) (vault : PGTDEVaultSpec) : Prop :=
  in_place h namespace pods TempTokenPath (va_TokenSecret vault) /\
  (HasCA vault = true -> in_place h namespace pods TempCAPath (va_CASecret vault)).

(** *** Rules *)
Section SendRules.
Context (G : history -> op -> Prop) (pod : key).

Lemma ExecPsql_wps h sql vars (Q : history -> ExecOutput -> Prop) :
  (forall h keys, G h (RangeOrder keys)) ->
  (forall h' stdin command, h `prefix_of` h' -> sends sql vars stdin command ->
     G h' (Exec pod ContainerDatabase stdin command) /\
     forall out h2, h' `prefix_of` h2 -> ran h2 pod stdin command out -> Q h2 out) ->
  wps G h (ExecPsql (podExecutor pod ContainerDatabase) sql vars []) Q.
Proof.
  intros Hr Hs. unfold ExecPsql. apply wps_call_bind. split; [apply Hr|]. intros [order Horder]. cbn [proj1_sig podExecutor].
  assert (Hsend : sends sql vars (Some sql) (["psql"; "-Xw"; "--file=-"] ++ sortStrings (setArgs vars order ++ [])))
    by (split; [done|by exists order]).
  match goal with |- wps _ ?h1 _ _ => destruct (Hs h1 _ _ ltac:(by apply prefix_app_r) Hsend) as [Hg Hq] end.
  apply wps_call. split; [exact Hg|]. intros out. apply Hq; [by apply prefix_app_r|apply elem_of_snoc].
Qed.

Lemma vaultSQL_wps h function vault paths (Q : history -> option error -> Prop) :
  function = "pg_tde_add_global_key_provider_vault_v2" \/ function = "pg_tde_change_global_key_provider_vault_v2" ->
  (forall h keys, G h (RangeOrder keys)) ->
  (forall h' stdin command, h `prefix_of` h' -> points vault paths stdin command -> G h' (Exec pod ContainerDatabase stdin command)) ->
  (forall h' e, h `prefix_of` h' -> (e = None -> pointed h' pod vault paths) -> Q h' e) ->
  wps G h (let! out := ExecPsql (podExecutor pod ContainerDatabase) (vaultSQL function) (vaultVariables vault paths) [] in
           Ret (out_Err out)) Q.
Proof.
  intros Hf Hr Hg HQ. apply wps_bind. apply ExecPsql_wps; [done|]. intros h' stdin command Hp Hs.
  assert (Hpoints : points vault paths stdin command) by by exists function.
  split; [by apply Hg|]. intros out h2 Hp2 Hran. apply HQ; [by etransitivity|]. intros He. by exists stdin, command, out.
Qed.

Lemma keySQL_wps h function clusterID (Q : history -> option error -> Prop) :
  function = "pg_tde_create_key_using_global_key_provider" \/ function = "pg_tde_set_default_key_using_global_key_provider" ->
  (forall h keys, G h (RangeOrder keys)) ->
  (forall h' stdin command, h `prefix_of` h' -> makes_key clusterID stdin command -> G h' (Exec pod ContainerDatabase stdin command)) ->
  (forall h' e, h `prefix_of` h' -> Q h' e) ->
  wps G h (let! out := ExecPsql (podExecutor pod ContainerDatabase) (keySQL function) (keyVariables clusterID) [] in
           Ret (out_Err out)) Q.
Proof.
  intros Hf Hr Hg HQ. apply wps_bind. apply ExecPsql_wps; [done|]. intros h' stdin command Hp Hs.
  split; [apply Hg; [done|by exists function]|]. intros out h2 Hp2 _. apply HQ. by etransitivity.
Qed.

#[local] Instance grows_pointed vault paths : Grows (fun h => pointed h pod vault paths).
Proof. unfold pointed. apply _. Qed.

Lemma reconcileKey_wps h clusterID (Q : history -> option error -> Prop) :
  (forall h keys, G h (RangeOrder keys)) ->
  (forall h' stdin command, h `prefix_of` h' -> makes_key clusterID stdin command -> G h' (Exec pod ContainerDatabase stdin command)) ->
  (forall h' e, h `prefix_of` h' -> Q h' e) ->
  wps G h (reconcileKey (podExecutor pod ContainerDatabase) clusterID) Q.
Proof.
  intros Hr Hg HQ. unfold reconcileKey, createGlobalKey, setDefaultKey. apply wps_bind.
  apply keySQL_wps; [by left|done|done|]. intros h1 e1 Hp1. apply wps_bind.
  apply keySQL_wps; [by right|done| |].
  - intros h' stdin command Hp. apply Hg. by etransitivity.
  - intros h2 e Hp2. cbn [wps]. apply HQ. by etransitivity.
Qed.

(** The provider is pointed where it should be, or there is an error; a key is
    made only where there was no provider. *)
Lemma ReconcileVaultProvider_wps h cluster vault paths (Q : history -> option error -> Prop) :
  (forall h keys, G h (RangeOrder keys)) ->
  (forall h' stdin command, h `prefix_of` h' ->
     points vault paths stdin command \/ (cc_PGTDERevision cluster = "" /\ makes_key (om_UID (cc_Meta cluster)) stdin command) ->
     G h' (Exec pod ContainerDatabase stdin command)) ->
  (forall h' e, h `prefix_of` h' -> (e = None -> pointed h' pod vault paths) -> Q h' e) ->
  wps G h (ReconcileVaultProvider (podExecutor pod ContainerDatabase) cluster vault paths) Q.
Proof.
  intros Hr Hg HQ. unfold ReconcileVaultProvider, addVaultProvider, changeVaultProvider.
  case_bool_decide as Hrev; cbn [negb].
  - assert (Hkey : forall h', h `prefix_of` h' -> pointed h' pod vault paths ->
      wps G h' (reconcileKey (podExecutor pod ContainerDatabase) (om_UID (cc_Meta cluster))) Q).
    { intros h' Hp Hpt. apply reconcileKey_wps; [done| |].
      - intros h2 stdin command Hp2 Hk. apply Hg; [by etransitivity|by right].
      - intros h2 e Hp2. apply HQ; [by etransitivity|]. intros _. by apply (grows (P := fun h => pointed h pod vault paths) h'). }
    apply wps_bind. apply vaultSQL_wps; [by left|done|by intros; apply Hg; [|left]|].
    intros h1 [addErr|] Hp1 Hpt; [|by apply Hkey; [|apply Hpt]]. apply wps_bind.
    apply vaultSQL_wps; [by right|done|intros; apply Hg; [by etransitivity|by left]|].
    intros h2 [e|] Hp2 Hpt2; [|apply Hkey; [by etransitivity|by apply Hpt2]]. cbn [wps]. apply HQ; [by etransitivity|done].
  - apply vaultSQL_wps; [by right|done|by intros; apply Hg; [|left]|done].
Qed.

Lemma removeTempFiles_wps h p (Q : history -> option error -> Prop) :
  G h (Exec (objectKey (p_Meta p)) ContainerDatabase None (removeCommand [TempTokenPath; TempCAPath])) ->
  (forall out h', h `prefix_of` h' ->
     ran h' (objectKey (p_Meta p)) None (removeCommand [TempTokenPath; TempCAPath]) out ->
     forall e, (e = None <-> out_Err out = None) -> Q h' e) ->
  wps G h (removeTempFiles p ContainerDatabase [TempTokenPath; TempCAPath]) Q.
Proof.
  intros Hg HQ. unfold removeTempFiles. apply wps_call_bind. split; [done|]. intros out. cbn [wps].
  apply (HQ out); [by apply prefix_app_r|apply elem_of_snoc|]. destruct (out_Err out); cbn; by split.
Qed.

Lemma cleanupTemp_wps pods (Q : history -> option error -> Prop) h err :
  (forall h' p, h `prefix_of` h' -> p ∈ pods ->
     G h' (Exec (objectKey (p_Meta p)) ContainerDatabase None (removeCommand [TempTokenPath; TempCAPath]))) ->
  (forall h' e, h `prefix_of` h' -> Q h' e) ->
  wps G h (cleanupTempPGTDEFiles pods ContainerDatabase err) Q.
Proof.
  revert h err. induction pods as [|p pods IH]; intros h err Hg HQ; cbn [cleanupTempPGTDEFiles]; [by apply HQ|].
  apply wps_bind. apply removeTempFiles_wps; [by apply Hg; [|left]|]. intros out h1 Hp1 _ e _. apply IH.
  - intros h' q Hp Hq. apply Hg; [by etransitivity|by right].
  - intros h' e' Hp. apply HQ. by etransitivity.
Qed.
End SendRules.

(** *** Staging *)
#[export] Instance grows_written path data pod : Grows (fun h => written h path data pod).
Proof. unfold written. apply _. Qed.

Lemma Forall_written_grows h h' path data pods :
  Forall (written h path data) pods -> h `prefix_of` h' -> Forall (written h' path data) pods.
Proof. intros Hw Hp. eapply Forall_impl; [exact Hw|]. intros p Hx. by apply (grows (P := fun h => written h path data p) h). Qed.

#[export] Instance grows_in_place ns pods path ref : Grows (fun h => in_place h ns pods path ref).
Proof.
  intros h h' (data & (secret & Hr & Hd) & Hw) Hp. exists data. split; [|by eapply Forall_written_grows].
  exists secret. split; [|done]. by apply (grows (P := fun h => read h KSecret (ns, ref.1) secret) h).
Qed.

#[export] Instance grows_staged ns pods vault : Grows (fun h => staged h ns pods vault).
Proof. unfold staged. apply _. Qed.

Section StagingRules.
Context (G : history -> op -> Prop) (namespace : string).

Lemma pgTDESecretValue_wps h ref (Q : history -> result string -> Prop) :
  G h (Get KSecret (namespace, ref.1)) ->
  (forall h' r, h `prefix_of` h' -> (forall data, r = Ok data -> secretValue h' namespace ref data) -> Q h' r) ->
  wps G h (pgTDESecretValue namespace ref) Q.
Proof.
  intros Hg HQ. unfold pgTDESecretValue. apply wps_get_bindr. split; [done|]. intros [secret|e]; cbn [wps].
  - apply HQ; [by apply prefix_app_r|]. intros data Hd. destruct (d_Data secret !! ref.2) as [data'|] eqn:E; [|done].
    injection Hd as ->. exists secret. split; [apply elem_of_snoc|done].
  - apply HQ; [by apply prefix_app_r|done].
Qed.

Lemma writeTempFile_wps h pod path data (Q : history -> option error -> Prop) :
  G h (Exec (objectKey (p_Meta pod)) ContainerDatabase (Some data) (writeCommand path)) ->
  (forall h' e, h `prefix_of` h' -> (e = None -> written h' path data pod) -> Q h' e) ->
  wps G h (writeTempFile pod ContainerDatabase path data) Q.
Proof.
  intros Hg HQ. unfold writeTempFile. apply wps_call_bind. split; [done|]. intros out.
  assert (Hran : ran (h ++ [Ev (Exec (objectKey (p_Meta pod)) ContainerDatabase (Some data) (writeCommand path) : op)
    (out : resp (Exec _ _ _ _))]) (objectKey (p_Meta pod)) (Some data) (writeCommand path) out) by apply elem_of_snoc.
  destruct (out_Err out) as [e|] eqn:Eo; cbn [wps]; (apply HQ; [by apply prefix_app_r|]); [done|].
  unfold Atoi. destruct (ParseInt _) as [n|] eqn:En; [|done]. case_bool_decide as Hn; [|done].
  intros _. exists out. by rewrite En, Hn.
Qed.

(** The files that are written, with the reason. *)
Definition files_of (h : history) (vault : PGTDEVaultSpec) (files : list (string * string)) : Prop :=
  exists token, secretValue h namespace (va_TokenSecret vault) token /\
  ((HasCA vault = false /\ files = [(TempTokenPath, token)]) \/
   (HasCA vault = true /\ exists ca, secretValue h namespace (va_CASecret vault) ca /\
    files = [(TempTokenPath, token); (TempCAPath, ca)])).

Lemma stagedFiles_wps h vault (Q : history -> result (list (string * string)) -> Prop) :
  (forall h' ref, h `prefix_of` h' -> ref = va_TokenSecret vault \/ ref = va_CASecret vault -> G h' (Get KSecret (namespace, ref.1))) ->
  (forall h' e, h `prefix_of` h' -> Q h' (Err e)) ->
  (forall h' files, h `prefix_of` h' -> files_of h' vault files -> Q h' (Ok files)) ->
  wps G h (stagedFiles namespace vault (TempVaultCredentialPaths vault)) Q.
Proof.
  intros Hg HE HQ. unfold stagedFiles. apply wps_bindr. apply pgTDESecretValue_wps; [apply Hg; [done|by left]|].
  intros h1 [token|e] Hp1 Ht; [|by apply HE]. specialize (Ht token eq_refl). unfold TempVaultCredentialPaths.
  destruct (HasCA vault) eqn:EC; cbn [fst snd].
  - apply wps_bindr. apply pgTDESecretValue_wps; [apply Hg; [done|by right]|].
    intros h2 [ca|e] Hp2 Hca; [|apply HE; by etransitivity]. cbn [wps]. apply HQ; [by etransitivity|].
    exists token. split.
    + destruct Ht as (s & Hs & Hd). exists s. split; [|done]. by apply (grows (P := fun h => read h KSecret _ s) h1).
    + right. split; [done|]. exists ca. by split; [apply Hca|].
  - cbn [wps]. apply HQ; [done|]. exists token. split; [done|]. by left.
Qed.

Lemma stageFiles_wps pod (Q : history -> option error -> Prop) files : forall h,
  (forall h' path data, h `prefix_of` h' -> (path, data) ∈ files ->
     G h' (Exec (objectKey (p_Meta pod)) ContainerDatabase (Some data) (writeCommand path))) ->
  (forall h' e, h `prefix_of` h' -> (e = None -> forall path data, (path, data) ∈ files -> written h' path data pod) -> Q h' e) ->
  wps G h (stageFiles pod ContainerDatabase files) Q.
Proof.
  revert Q. induction files as [|[path data] files IH]; intros Q h Hg HQ; cbn [stageFiles].
  - apply HQ; [done|]. intros _ path data Hin. by apply not_elem_of_nil in Hin.
  - apply wps_bind. apply writeTempFile_wps; [by apply Hg; [|left]|]. intros h1 [e|] Hp1 Hw; [by apply HQ|].
    apply IH.
    + intros h' p d Hp Hin. apply Hg; [by etransitivity|by right].
    + intros h' e Hp Hall. apply HQ; [by etransitivity|]. intros He p d [[= -> ->]|Hin]%elem_of_cons.
      * by apply (grows (P := fun h => written h path data pod) h1); [apply Hw|].
      * by apply Hall.
Qed.

Lemma stagePods_wps files pods : forall (Q : history -> option error -> Prop) h,
  (forall h' pod path data, h `prefix_of` h' -> pod ∈ pods -> (path, data) ∈ files ->
     G h' (Exec (objectKey (p_Meta pod)) ContainerDatabase (Some data) (writeCommand path))) ->
  (forall h' e, h `prefix_of` h' ->
     (e = None -> forall path data, (path, data) ∈ files -> Forall (written h' path data) pods) -> Q h' e) ->
  wps G h (stagePods pods ContainerDatabase files) Q.
Proof.
  induction pods as [|pod pods IH]; intros Q h Hg HQ; cbn [stagePods].
  - apply HQ; [done|]. intros; constructor.
  - apply wps_bind. apply stageFiles_wps; [by intros; apply Hg; [|left|]|]. intros h1 [e|] Hp1 Hw; [by apply HQ|].
    apply IH.
    + intros h' p path data Hp Hpod. apply Hg; [by etransitivity|by right].
    + intros h' e Hp Hall. apply HQ; [by etransitivity|]. intros He path data Hin. constructor; [|by apply Hall].
      by apply (grows (P := fun h => written h path data pod) h1); [apply Hw|].
Qed.

Lemma stage_wps h vault pods (Q : history -> option error -> Prop) :
  (forall h' ref, h `prefix_of` h' -> ref = va_TokenSecret vault \/ ref = va_CASecret vault -> G h' (Get KSecret (namespace, ref.1))) ->
  (forall h' pod path data, h `prefix_of` h' -> pod ∈ pods -> path = TempTokenPath \/ path = TempCAPath ->
     G h' (Exec (objectKey (p_Meta pod)) ContainerDatabase (Some data) (writeCommand path))) ->
  (forall h' e, h `prefix_of` h' -> (e = None -> staged h' namespace pods vault) -> Q h' e) ->
  wps G h (stagePGTDEVaultCredentials namespace vault pods ContainerDatabase (TempVaultCredentialPaths vault)) Q.
Proof.
  intros Hg Hw HQ. unfold stagePGTDEVaultCredentials. apply wps_bind.
  apply stagedFiles_wps; [done|by intros; apply HQ|]. intros h1 files Hp1 Hf. apply stagePods_wps.
  - intros h' pod path data Hp Hpod Hin. apply Hw; [by etransitivity|done|].
    destruct Hf as (token & _ & [[_ ->]|(_ & ca & _ & ->)]); rewrite ?elem_of_cons, elem_of_nil in Hin; [left|]; intuition congruence.
  - intros h' e Hp Hall. apply HQ; [by etransitivity|]. intros He. specialize (Hall He).
    destruct Hf as (token & (s & Hs & Hd) & Hf).
    assert (Ht : secretValue h' namespace (va_TokenSecret vault) token)
      by (exists s; split; [by apply (grows (P := fun h => read h KSecret _ s) h1)|done]).
    destruct Hf as [[HC ->]|(HC & ca & (s' & Hs' & Hd') & ->)].
    + split; [exists token; split; [done|apply Hall; by left]|congruence].
    + split; [exists token; split; [done|apply Hall; by left]|]. intros _. exists ca.
      split; [|apply Hall; right; by left]. exists s'. split; [|done]. by apply (grows (P := fun h => read h KSecret _ s') h1).
Qed.
End StagingRules.

(** ** The calls of the reconciler *)

(** Every instance has the template of the specification, a running database
    and an installed extension. *)
Definition settled (instances : observedInstances) : Prop :=
  Forall (fun i => known_true (PodMatchesPodTemplate i) = true) (forCluster instances) /\
  (runningPods instances ContainerDatabase).2 = true /\
  Forall (fun p => is_Some (om_Annotations (p_Meta p) !! TDEInstalledAnnotation)) (runningPods instances ContainerDatabase).1.

Section Ready.
Context `{MetaConditions}.

Definition ready (c : CrunchyCluster) : Prop := IsStatusConditionTrue (cc_Conditions c) PGTDEVaultProviderReady = true.

Lemma setCondition_wps (G : history -> op -> Prop) h status reason message c (Q : history -> CrunchyCluster -> Prop) :
  G h Now ->
  (forall h' f, h `prefix_of` h' -> (ready (onClusterConditions f c) <-> status = ConditionTrue) ->
     Q h' (onClusterConditions f c)) ->
  wps G h (setCondition PGTDEVaultProviderReady status reason message c) Q.
Proof.
  intros Hg HQ. unfold setCondition. apply wps_call_bind. split; [done|]. intros now. cbn [wps].
  apply HQ; [by apply prefix_app_r|]. unfold ready, IsStatusConditionTrue, cc_Conditions. cbn.
  rewrite IsStatusConditionPresentAndEqual_spec.
  destruct (SetStatusCondition_same now (pc_Conditions (cc_Config c))
    (mkCondition PGTDEVaultProviderReady status reason message (om_Generation (cc_Meta c)) 0)) as [time Ht].
  cbn [cond_Type] in Ht. rewrite Ht. cbn. apply bool_decide_eq_true.
Qed.
End Ready.

Section Calls.
Context `{MetaConditions} `{SafeEncode}.
Context (errorText : error -> string) (statusEqual : CrunchyCluster -> CrunchyCluster -> bool).
Context (before cluster : CrunchyCluster) (instances : observedInstances) (vault : PGTDEVaultSpec).
Let change : vaultChange := VaultChangeFor cluster vault.
Let pods : list Pod := (runningPods instances ContainerDatabase).1.

(** The pod that runs the SQL *)
Definition is_writable (at_ : key) : Prop :=
  exists pod i, writablePod instances ContainerDatabase = Some (pod, i) /\ at_ = objectKey (p_Meta pod).

(** Where the provider may be pointed: at the mount paths for the first
    set-up and at the end of a change, else at the staged copies. *)
Definition where_to (h : history) (paths : string * string) : Prop :=
  (paths = VaultCredentialPaths vault /\ (vc_Phase change = InitialSetup \/ vc_Phase change = Finalize)) \/
  (paths = TempVaultCredentialPaths vault /\ vc_Phase change = StageCredentials /\ staged h (cc_Namespace cluster) pods vault).

Definition provider_exec (h : history) (at_ : key) (stdin : option string) (command : list string) : Prop :=
  (exists paths, is_writable at_ /\ points vault paths stdin command /\ where_to h paths) \/
  (is_writable at_ /\ vc_Phase change = InitialSetup /\ makes_key (om_UID (cc_Meta cluster)) stdin command) \/
  (exists pod path data, pod ∈ pods /\ at_ = objectKey (p_Meta pod) /\ stdin = Some data /\ vc_Phase change = StageCredentials /\
     (path = TempTokenPath \/ path = TempCAPath) /\ command = writeCommand path) \/
  (exists pod, pod ∈ pods /\ at_ = objectKey (p_Meta pod) /\ stdin = None /\ command = removeCommand [TempTokenPath; TempCAPath] /\
     (vc_Phase change = Configured \/
      vc_Phase change = Finalize /\ exists w, is_writable w /\ pointed h w vault (VaultCredentialPaths vault))).

(** The status afterwards: the revision changes only with the provider, and
    the provider is reported ready only when it names the mount paths. *)
Definition provider_status (h : history) (c : CrunchyCluster) : Prop :=
  (cc_PGTDERevision c = cc_PGTDERevision cluster /\ (ready c -> ready cluster \/ vc_Phase change = Configured)) \/
  exists w, is_writable w /\
    (((vc_Phase change = InitialSetup \/ vc_Phase change = Finalize) /\
      cc_PGTDERevision c = vc_StandardRevision change /\ pointed h w vault (VaultCredentialPaths vault)) \/
     (vc_Phase change = StageCredentials /\ cc_PGTDERevision c = vc_TempRevision change /\
      pointed h w vault (TempVaultCredentialPaths vault) /\ ~ ready c)).

Definition provider_call (h : history) (o : op) : Prop :=
  match o with
  | Now | RangeOrder _ => True
  | Event type_ _ => type_ = "Warning"
  | Get KSecret at_ => vc_Phase change = StageCredentials /\
      (at_ = (cc_Namespace cluster, (va_TokenSecret vault).1) \/ at_ = (cc_Namespace cluster, (va_CASecret vault).1))
  | Exec at_ container stdin command => settled instances /\ container = ContainerDatabase /\ provider_exec h at_ stdin command
  | StatusPatch KCrunchy b c => b = before /\ provider_status h c
  | _ => False
  end.

#[local] Instance grows_provider_status c : Grows (fun h => provider_status h c).
Proof.
  unfold provider_status. apply grows_or; [apply grows_const|]. apply grows_exist. intros w. apply grows_and; [apply grows_const|].
  apply grows_or; repeat apply grows_and; try apply grows_const; unfold pointed; apply _.
Qed.

(** The cluster at the end: the answer of the API server, or what was to be
    written. *)
Definition provider_result (h : history) (c : CrunchyCluster) : Prop :=
  provider_status h c \/ exists b c', Ev (StatusPatch KCrunchy b c' : op) (Ok c : result CrunchyCluster) ∈ h.

Lemma patchStatus_wps h c (Q : history -> CrunchyCluster * option error -> Prop) :
  provider_status h c ->
  (forall h' r, h `prefix_of` h' -> provider_result h' r.1 -> Q h' r) ->
  wps provider_call h (patchStatus statusEqual before c) Q.
Proof.
  intros Hs HQ. unfold patchStatus. destruct (statusEqual before c); cbn [wps].
  - apply HQ; [done|by left].
  - split; [by split|]. intros [c'|e]; cbn [wps]; (apply HQ; [by apply prefix_app_r|]).
    + right. exists before, c. apply elem_of_snoc.
    + left. apply (grows (P := fun h => provider_status h c) h); [done|by apply prefix_app_r].
Qed.


(** What the statement of a new revision says of the history. *)
Definition justified (h : history) (revision : string) : Prop :=
  exists w, is_writable w /\
    (((vc_Phase change = InitialSetup \/ vc_Phase change = Finalize) /\
      revision = vc_StandardRevision change /\ pointed h w vault (VaultCredentialPaths vault)) \/
     (vc_Phase change = StageCredentials /\ revision = vc_TempRevision change /\
      pointed h w vault (TempVaultCredentialPaths vault))).

Lemma phase_revision : vc_Phase change = InitialSetup <-> cc_PGTDERevision cluster = "".
Proof. unfold change, VaultChangeFor. cbn. repeat case_bool_decide; split; congruence. Qed.

Context (Hsettled : settled instances).

Lemma provide_wps h pod i paths (Q : history -> option error -> Prop) :
  writablePod instances ContainerDatabase = Some (pod, i) ->
  (forall h', h `prefix_of` h' -> where_to h' paths) ->
  (forall h' e, h `prefix_of` h' -> (e = None -> pointed h' (objectKey (p_Meta pod)) vault paths) -> Q h' e) ->
  wps provider_call h (ReconcileVaultProvider (podExecutor (objectKey (p_Meta pod)) ContainerDatabase) cluster vault paths) Q.
Proof.
  intros Hpod Hw HQ. assert (is_writable (objectKey (p_Meta pod))) by by exists pod, i.
  apply ReconcileVaultProvider_wps; [done| |done]. intros h' stdin command Hp [Hpt|[Hr Hk]]; (split; [done|split; [done|]]).
  - left. exists paths. split_and!; [done|done|by apply Hw].
  - right. left. split_and!; [done|by apply phase_revision|done].
Qed.

Lemma changeProvider_wps h pod i (Q : history -> result string -> Prop) :
  writablePod instances ContainerDatabase = Some (pod, i) -> vc_Phase change <> Configured ->
  (forall h' e, h `prefix_of` h' -> Q h' (Err e)) ->
  (forall h' revision, h `prefix_of` h' -> justified h' revision -> Q h' (Ok revision)) ->
  wps provider_call h
    (changeProvider cluster vault pods (podExecutor (objectKey (p_Meta pod)) ContainerDatabase) change) Q.
Proof.
  intros Hpod Hc HE HQ. assert (Hw : is_writable (objectKey (p_Meta pod))) by by exists pod, i.
  unfold changeProvider. destruct (vc_Phase change) eqn:Eph; [|done|..]; apply wps_bind.
  - apply (provide_wps h pod i); [done| |].
    { intros h' _. left. split; [done|by left]. }
    intros h' [e|] Hp Hpt; cbn [wps]; [by apply HE|]. apply HQ; [done|]. exists (objectKey (p_Meta pod)). split; [done|].
    left. split_and!; [by left|done|by apply Hpt].
  - apply stage_wps.
    + intros h' ref Hp [-> | ->]; (split; [done|]); [by left|by right].
    + intros h' p path data Hp Hin Hpath. split_and!; [done|done|]. right. right. left. by exists p, path, data.
    + intros h1 [e|] Hp1 Hst; cbn [wps]; [by apply HE|]. apply wps_bind. apply (provide_wps h1 pod i); [done| |].
      { intros h' Hp. right. split_and!; [done|done|].
        apply (grows (P := fun h => staged h (cc_Namespace cluster) pods vault) h1); [by apply Hst|done]. }
      intros h2 [e|] Hp2 Hpt; cbn [wps]; [apply HE; by etransitivity|]. apply HQ; [by etransitivity|].
      exists (objectKey (p_Meta pod)). split; [done|]. right. split_and!; [done|done|by apply Hpt].
  - apply (provide_wps h pod i); [done| |].
    { intros h' _. left. split; [done|by right]. }
    intros h1 [e|] Hp1 Hpt; cbn [wps]; [by apply HE|]. specialize (Hpt eq_refl). apply wps_bind.
    assert (Hlater : forall h', h1 `prefix_of` h' -> pointed h' (objectKey (p_Meta pod)) vault (VaultCredentialPaths vault)).
    { intros h' Hp. destruct Hpt as (s & c & out & Hr & Hx). exists s, c, out. split; [|done]. by eapply elem_of_grow. }
    apply cleanupTemp_wps.
    + intros h' p Hp Hin. split_and!; [done|done|]. right. right. right. exists p. split_and!; try done.
      right. split; [done|]. exists (objectKey (p_Meta pod)). split; [done|by apply Hlater].
    + intros h2 e Hp2. cbn [wps]. apply HQ; [by etransitivity|]. exists (objectKey (p_Meta pod)). split; [done|].
      left. split_and!; [by right|done|by apply Hlater].
Qed.

Lemma alreadyConfigured_wps h (Q : history -> CrunchyCluster * option error -> Prop) :
  vc_Phase change = Configured ->
  (forall h' r, h `prefix_of` h' -> provider_result h' r.1 -> Q h' r) ->
  wps provider_call h (alreadyConfigured statusEqual before cluster pods) Q.
Proof.
  intros Hph HQ.
  assert (Hset : wps provider_call h
    (let! cluster := setPGTDEVaultProviderCondition cluster in
     let! _ := cleanupTempPGTDEFiles pods ContainerDatabase None in patchStatus statusEqual before cluster) Q).
  { apply wps_bind. apply setCondition_wps; [done|]. intros h1 f Hp1 _. apply wps_bind. apply cleanupTemp_wps.
    - intros h' p Hp Hin. split_and!; [done|done|]. right. right. right. exists p. split_and!; try done. by left.
    - intros h2 e Hp2. apply patchStatus_wps; [left; split; [done|intros _; by right]|].
      intros h3 r Hp3. apply HQ. etransitivity; [|done]. by etransitivity. }
  unfold alreadyConfigured. destruct (FindStatusCondition _ _) as [cond|]; [|done].
  case_bool_decide; [|done]. cbn [wps]. apply HQ; [done|]. left. left. split; [done|intros _; by right].
Qed.

Lemma reportFailure_wps h e (Q : history -> CrunchyCluster * option error -> Prop) :
  (forall h' r, h `prefix_of` h' -> provider_result h' r.1 -> Q h' r) ->
  wps provider_call h (reportFailure errorText statusEqual before cluster e) Q.
Proof.
  intros HQ. unfold reportFailure. apply wps_call_bind. split; [done|]. intros []. apply wps_bind. apply setCondition_wps; [done|].
  intros h1 f Hp1 Hready. apply wps_bind. apply patchStatus_wps.
  - left. split; [done|]. intros Hr. by apply Hready in Hr.
  - intros h2 r Hp2 Hr. cbn [wps]. apply HQ; [|done]. etransitivity; [|done]. etransitivity; [|done]. by apply prefix_app_r.
Qed.

Lemma recordRevision_wps h revision (Q : history -> CrunchyCluster * option error -> Prop) :
  justified h revision ->
  (forall h' r, h `prefix_of` h' -> provider_result h' r.1 -> Q h' r) ->
  wps provider_call h (recordRevision statusEqual before cluster change revision) Q.
Proof.
  intros (w & Hw & Hj) HQ. unfold recordRevision. cbv zeta. apply wps_bind.
  assert (Hnext : forall h1 c, h `prefix_of` h1 -> cc_PGTDERevision c = revision ->
    (revision = vc_TempRevision change -> ~ ready c) ->
    wps provider_call h1 (let! r := patchStatus statusEqual before c in Ret (r.1, Wrap "patch status" <$> r.2)) Q).
  { intros h1 c Hp1 Hrev Hnr.
    assert (Hlater : forall paths, pointed h w vault paths -> pointed h1 w vault paths).
    { intros paths (s & cmd & out & Hr & Hx). exists s, cmd, out. split; [by eapply elem_of_grow|done]. }
    apply wps_bind. apply patchStatus_wps.
    - right. exists w. split; [done|]. destruct Hj as [(Hph & E & Hpt)|(Hph & E & Hpt)]; [left|right].
      + split_and!; [done|by rewrite Hrev|by apply Hlater].
      + split_and!; [done|by rewrite Hrev|by apply Hlater|by apply Hnr].
    - intros h2 r Hp2 Hr. cbn [wps]. apply HQ; [by etransitivity|done]. }
  case_bool_decide as Et; (apply setCondition_wps; [done|]); intros h1 f Hp1 Hready; (apply Hnext; [done|done|]).
  - intros _ Hr. by apply Hready in Hr.
  - done.
Qed.

Lemma reconcileProvider_wps h pod i (Q : history -> CrunchyCluster * option error -> Prop) :
  writablePod instances ContainerDatabase = Some (pod, i) ->
  (forall h' r, h `prefix_of` h' -> provider_result h' r.1 -> Q h' r) ->
  wps provider_call h (reconcileProvider errorText statusEqual before cluster vault pods pod) Q.
Proof.
  intros Hpod HQ. unfold reconcileProvider. cbv zeta. fold change. case_bool_decide as Hc; [by apply alreadyConfigured_wps|].
  apply wps_bind. eapply changeProvider_wps; [done|done| |].
  - intros h1 e Hp1. apply reportFailure_wps. intros h2 r Hp2. apply HQ. by etransitivity.
  - intros h1 revision Hp1 Hj. apply recordRevision_wps; [done|]. intros h2 r Hp2. apply HQ. by etransitivity.
Qed.
End Calls.

Lemma existsb_negb_Forall {A} (f : A -> bool) l : existsb (fun x => negb (f x)) l = false -> Forall (fun x => f x = true) l.
Proof.
  induction l as [|x l IH]; cbn; [constructor|]. intros [Hx Hl]%orb_false_iff. constructor; [by destruct (f x)|by apply IH].
Qed.

Section Theorems.
Context `{MetaConditions} `{SafeEncode}.
Context (errorText : error -> string) (statusEqual : CrunchyCluster -> CrunchyCluster -> bool).

(** C29: what is done about the key provider.  No command runs before every
    instance has the template of the specification, a running database and an
    installed extension.  The provider is pointed at the staged copies only
    when every pod has the whole token (and certificate) that was read from the
    Secrets, and at the mount paths only for the first set-up or after such a
    change; the copies are removed only when it names the mount paths again,
    and a key is made only where there was no provider.  The recorded revision
    changes only with the provider, to what it then names, and the provider is
    reported as ready only when that is the mount paths. *)
Theorem key_provider_calls (before cluster : CrunchyCluster) (instances : observedInstances) (vault : PGTDEVaultSpec) :
  cc_Vault cluster = Some vault -> pgtdeEnabled cluster = true ->
  wps (provider_call before cluster instances vault) []
    (reconcilePGTDEProviders errorText statusEqual before cluster instances)
    (fun h r => provider_result cluster instances vault h r.1).
Proof.
  intros Hv He. unfold reconcilePGTDEProviders. rewrite Hv, He. cbn [negb].
  assert (Hsame : forall h, provider_result cluster instances vault h cluster) by (intros h; left; left; auto).
  destruct (IsStandby _); [apply Hsame|]. destruct (existsb _ (forCluster instances)) eqn:Em; [apply Hsame|].
  destruct (runningPods instances ContainerDatabase) as [pods running] eqn:Erun. destruct running; cbn [negb].
  - destruct (existsb _ pods) eqn:Ea; [apply Hsame|]. destruct (writablePod _ _) as [[pod i]|] eqn:Ew; [|apply Hsame].
    replace pods with (runningPods instances ContainerDatabase).1 by by rewrite Erun.
    apply (reconcileProvider_wps errorText statusEqual before cluster instances vault) with (i := i); [|done|by intros].
    split_and!; [by apply existsb_negb_Forall|by rewrite Erun|]. rewrite Erun. cbn [fst]. apply Forall_forall. intros p Hp.
    destruct (om_Annotations (p_Meta p) !! TDEInstalledAnnotation) as [a|] eqn:E; [done|]. exfalso.
    apply not_true_iff_false in Ea. apply Ea. apply existsb_exists. exists p. split; [by apply list_elem_of_In|].
    by rewrite bool_decide_eq_true_2.
  - destruct (IsStatusConditionTrue _ _); [apply Hsame|]. apply wps_bind. apply setCondition_wps; [done|]. intros h1 f Hp1 Hr.
    apply patchStatus_wps; [|by intros]. left. split; [done|]. intros Hready. by apply Hr in Hready.
Qed.

(** *** A change goes through *)

(** Everything works, but perhaps for the removal of files, which is the only
    command without an input: commands succeed and write whole files, the
    Secrets have the keys, and the API server answers the status it is sent. *)
Definition works (vault : PGTDEVaultSpec) (e : event resp) : Prop :=
  let '(Ev o r) := e in
  match o return resp o -> Prop with
  | Exec _ _ stdin command => fun r => (is_Some stdin -> out_Err r = None) /\
      (forall path data, command = writeCommand path -> stdin = Some data ->
         ParseInt (TrimSpace (out_Stdout r)) = Some (Z.of_nat (String.length data)))
  | Get KSecret at_ => fun r : result DataObject => exists secret, r = Ok secret /\
      forall ref, ref = va_TokenSecret vault \/ ref = va_CASecret vault -> ref.1 = at_.2 -> is_Some (d_Data secret !! ref.2)
  | StatusPatch _ _ c => fun r => r = Ok c
  | _ => fun _ => True
  end r.

Definition all_work (vault : PGTDEVaultSpec) (h : history) : Prop := Forall (works vault) h.

Definition anything (h : history) (o : op) : Prop := True.

Lemma anything_wps {A} h (p : program A) : wps anything h p (fun _ _ => True).
Proof. revert h. induction p as [a|o k IH]; intros h; cbn [wps]; [done|]. split; [done|]. intros r. apply IH. Qed.

#[export] Instance result_string_eq_dec : EqDecision (result string).
Proof. solve_decision. Defined.

Lemma all_work_prefix vault h h' : h `prefix_of` h' -> all_work vault h' -> all_work vault h.
Proof. intros [t ->]. unfold all_work. rewrite Forall_app. by intros [? _]. Qed.

Lemma all_work_last vault h e : all_work vault (h ++ [e]) -> works vault e.
Proof. unfold all_work. rewrite Forall_app, Forall_singleton. by intros [_ ?]. Qed.

Section Success.
Context (vault : PGTDEVaultSpec) (pod : key).

Lemma ExecPsql_works h sql vars (Q : history -> option error -> Prop) :
  (forall h' e, h `prefix_of` h' -> (all_work vault h' -> e = None) -> Q h' e) ->
  wps anything h (let! out := ExecPsql (podExecutor pod ContainerDatabase) sql vars [] in Ret (out_Err out)) Q.
Proof.
  intros HQ. apply wps_bind. unfold ExecPsql. apply wps_call_bind. split; [done|]. intros [order Horder].
  cbn [proj1_sig podExecutor]. split; [done|]. intros out. cbn [wps].
  apply HQ; [etransitivity; by apply prefix_app_r|]. intros Hw%all_work_last. destruct Hw as [Hw _]. by apply Hw.
Qed.

Lemma reconcileKey_works h id (Q : history -> option error -> Prop) :
  (forall h' e, h `prefix_of` h' -> (all_work vault h' -> e = None) -> Q h' e) ->
  wps anything h (reconcileKey (podExecutor pod ContainerDatabase) id) Q.
Proof.
  intros HQ. unfold reconcileKey. apply wps_bind. apply ExecPsql_works. intros h1 e1 Hp1 He1. apply wps_bind.
  apply ExecPsql_works. intros h2 e2 Hp2 He2. cbn [wps]. apply HQ; [by etransitivity|]. intros Hw. by rewrite He2.
Qed.

Lemma ReconcileVaultProvider_works h cluster paths (Q : history -> option error -> Prop) :
  (forall h' e, h `prefix_of` h' -> (all_work vault h' -> e = None) -> Q h' e) ->
  wps anything h (ReconcileVaultProvider (podExecutor pod ContainerDatabase) cluster vault paths) Q.
Proof.
  intros HQ. unfold ReconcileVaultProvider. destruct (negb _); [by apply ExecPsql_works|]. apply wps_bind.
  apply ExecPsql_works. intros h1 [e1|] Hp1 He1.
  - apply wps_bind. apply ExecPsql_works. intros h2 [e2|] Hp2 He2; cbn [wps].
    + apply HQ; [by etransitivity|]. intros Hw. specialize (He2 Hw). done.
    + apply reconcileKey_works. intros h3 e3 Hp3. apply HQ. etransitivity; [|done]. by etransitivity.
  - apply reconcileKey_works. intros h3 e3 Hp3. apply HQ. by etransitivity.
Qed.

Lemma cleanup_works pods (Q : history -> option error -> Prop) h err :
  (forall h' e, h `prefix_of` h' -> Q h' e) -> wps anything h (cleanupTempPGTDEFiles pods ContainerDatabase err) Q.
Proof. intros HQ. by apply cleanupTemp_wps. Qed.

Lemma pgTDESecretValue_works namespace h ref (Q : history -> result string -> Prop) :
  ref = va_TokenSecret vault \/ ref = va_CASecret vault ->
  (forall h' r, h `prefix_of` h' -> (all_work vault h' -> exists data, r = Ok data) -> Q h' r) ->
  wps anything h (pgTDESecretValue namespace ref) Q.
Proof.
  intros Href HQ. unfold pgTDESecretValue. apply wps_get_bindr. split; [done|]. intros r.
  assert (Hr : all_work vault (h ++ [got KSecret (namespace, ref.1) r]) ->
    exists secret data, r = Ok secret /\ d_Data secret !! ref.2 = Some data).
  { intros Hw%all_work_last. destruct Hw as (secret & -> & Hk). destruct (Hk ref) as [data Hd]; [done|done|].
    by exists secret, data. }
  destruct r as [secret|e]; cbn [wps]; (apply HQ; [by apply prefix_app_r|]); intros (s & data & [= <-] & Hd)%Hr.
  rewrite Hd. by exists data.
Qed.

Lemma stageFiles_works p (Q : history -> option error -> Prop) files : forall h,
  (forall h' e, h `prefix_of` h' -> (all_work vault h' -> e = None) -> Q h' e) ->
  wps anything h (stageFiles p ContainerDatabase files) Q.
Proof.
  revert Q. induction files as [|[path data] files IH]; intros Q h HQ; cbn [stageFiles]; [by apply HQ|].
  apply wps_bind. unfold writeTempFile. apply wps_call_bind. split; [done|]. intros out.
  set (h1 := h ++ _). assert (Hp1 : h `prefix_of` h1) by by apply prefix_app_r.
  assert (Hw : all_work vault h1 -> out_Err out = None /\
    ParseInt (TrimSpace (out_Stdout out)) = Some (Z.of_nat (String.length data))).
  { intros [He Hs]%all_work_last. split; [by apply He|]. by eapply Hs. }
  destruct (out_Err out) as [e|] eqn:Eo; cbn [wps].
  - apply HQ; [done|]. intros Hx%Hw. by destruct Hx.
  - unfold Atoi. destruct (ParseInt _) as [n|] eqn:En; [case_bool_decide as Hn|].
    + apply IH. intros h' e Hp. apply HQ. by etransitivity.
    + cbn [wps]. apply HQ; [done|]. intros [_ Hx]%Hw. congruence.
    + cbn [wps]. apply HQ; [done|]. intros [_ Hx]%Hw. done.
Qed.

Lemma stagePods_works files pods : forall (Q : history -> option error -> Prop) h,
  (forall h' e, h `prefix_of` h' -> (all_work vault h' -> e = None) -> Q h' e) ->
  wps anything h (stagePods pods ContainerDatabase files) Q.
Proof.
  induction pods as [|p pods IH]; intros Q h HQ; cbn [stagePods]; [by apply HQ|]. apply wps_bind. apply stageFiles_works.
  intros h1 [e|] Hp1 He; [by apply HQ|]. apply IH. intros h' e Hp. apply HQ. by etransitivity.
Qed.

Lemma stage_works namespace h pods paths (Q : history -> option error -> Prop) :
  (forall h' e, h `prefix_of` h' -> (all_work vault h' -> e = None) -> Q h' e) ->
  wps anything h (stagePGTDEVaultCredentials namespace vault pods ContainerDatabase paths) Q.
Proof.
  intros HQ. unfold stagePGTDEVaultCredentials, stagedFiles. apply wps_bind.
  assert (Hfail : forall (h' : history) (e : error), h `prefix_of` h' -> (all_work vault h' -> False) -> Q h' (Some e)).
  { intros h' e Hp Hx. apply HQ; [done|]. by intros Hw%Hx. }
  assert (Hgo : forall h' files, h `prefix_of` h' -> wps anything h' (stagePods pods ContainerDatabase files) Q).
  { intros h' files Hp. apply stagePods_works. intros h2 e Hp2. apply HQ. by etransitivity. }
  apply wps_bindr. apply pgTDESecretValue_works; [by left|]. intros h1 [token|e] Hp1 Ht; cbn [wps].
  2: { apply Hfail; [done|]. by intros [? ?]%Ht. }
  destruct (HasCA vault); [|by apply Hgo]. apply wps_bindr. apply pgTDESecretValue_works; [by right|].
  intros h2 [ca|e] Hp2 Hca; cbn [wps]; [apply Hgo; by etransitivity|]. apply Hfail; [by etransitivity|]. by intros [? ?]%Hca.
Qed.
End Success.

Lemma VaultChangeFor_phase cluster vault revision :
  vc_Phase (VaultChangeFor (cluster <| cc_PGTDERevision := revision |>) vault) =
  if bool_decide (revision = "") then InitialSetup
  else if bool_decide (revision = vc_StandardRevision (VaultChangeFor cluster vault)) then Configured
  else if bool_decide (revision = vc_TempRevision (VaultChangeFor cluster vault)) then Finalize
  else StageCredentials.
Proof. done. Qed.

Lemma pretty_N_go_nonempty n c t : pretty_N_go n (String c t) <> "".
Proof.
  revert c t. induction (N.lt_wf_0 n) as [n _ IH]. intros c t. destruct (decide (n = 0)%N) as [->|Hn].
  - by rewrite pretty_N_go_0.
  - rewrite pretty_N_go_step by lia. apply IH. apply N.div_lt; lia.
Qed.

Lemma pretty_N_nonempty (n : N) : pretty n <> "".
Proof.
  unfold pretty, pretty_N. case_decide as Hn; [done|]. rewrite pretty_N_go_step by lia. apply pretty_N_go_nonempty.
Qed.

Lemma SafeHash32_nonempty text : SafeHash32 text <> "".
Proof.
  intros E. assert (Hl : String.length (SafeHash32 text) = 0) by by rewrite E. unfold SafeHash32 in Hl.
  rewrite SafeEncodeString_length in Hl. apply (pretty_N_nonempty (fnv32 text)). by destruct (pretty (fnv32 text)).
Qed.

(** The phase after one pass, and after the next *)
Definition next_phase (p : Phase) : Phase := if bool_decide (p = StageCredentials) then Finalize else Configured.

Lemma phase_advances cluster vault revision :
  let change := VaultChangeFor cluster vault in
  vc_StandardRevision change <> vc_TempRevision change ->
  revision = (if bool_decide (vc_Phase change = StageCredentials) then vc_TempRevision change else vc_StandardRevision change) ->
  vc_Phase (VaultChangeFor (cluster <| cc_PGTDERevision := revision |>) vault) = next_phase (vc_Phase change).
Proof.
  intros change Hne ->. rewrite VaultChangeFor_phase. unfold next_phase. fold change.
  assert (Hs : vc_StandardRevision change <> "" /\ vc_TempRevision change <> "") by (split; apply SafeHash32_nonempty).
  revert Hne Hs. generalize (vc_Phase change), (vc_StandardRevision change), (vc_TempRevision change).
  intros phase standard temp Hne [??]. repeat case_bool_decide; congruence.
Qed.

Lemma patchStatus_works h before c vault (Q : history -> CrunchyCluster * option error -> Prop) :
  (forall h' r, h `prefix_of` h' -> (all_work vault h' -> r = (c, None)) -> Q h' r) ->
  wps anything h (patchStatus statusEqual before c) Q.
Proof.
  intros HQ. unfold patchStatus. destruct (statusEqual before c); cbn [wps]; [by apply HQ|].
  split; [done|]. intros r. cbn [wps]. apply HQ; [by apply prefix_app_r|]. intros Hw%all_work_last. cbn in Hw. by subst r.
Qed.

(** What one pass leaves behind when everything works *)
Definition gone_through (cluster : CrunchyCluster) (vault : PGTDEVaultSpec) (r : CrunchyCluster * option error) : Prop :=
  let phase := vc_Phase (VaultChangeFor cluster vault) in
  r.2 = None /\ cc_Vault r.1 = cc_Vault cluster /\ pgtdeEnabled r.1 = pgtdeEnabled cluster /\
  vc_Phase (VaultChangeFor r.1 vault) = next_phase phase /\ (ready r.1 <-> phase <> StageCredentials).

Section OnePass.
Context (before cluster : CrunchyCluster) (vault : PGTDEVaultSpec) (pods : list Pod) (at_ : key).
Let change : vaultChange := VaultChangeFor cluster vault.
Context (Hne : vc_StandardRevision change <> vc_TempRevision change).

Lemma alreadyConfigured_works h (Q : history -> CrunchyCluster * option error -> Prop) :
  vc_Phase change = Configured ->
  (forall h' r, h `prefix_of` h' -> (all_work vault h' -> gone_through cluster vault r) -> Q h' r) ->
  wps anything h (alreadyConfigured statusEqual before cluster pods) Q.
Proof.
  intros Hph HQ. unfold gone_through in HQ. fold change in HQ. rewrite Hph in HQ.
  assert (Hset : wps anything h
    (let! cluster := setPGTDEVaultProviderCondition cluster in
     let! _ := cleanupTempPGTDEFiles pods ContainerDatabase None in patchStatus statusEqual before cluster) Q).
  { apply wps_bind. apply setCondition_wps; [done|]. intros h1 f Hp1 Hr. apply wps_bind. apply cleanup_works.
    intros h2 e Hp2. apply (patchStatus_works _ _ _ vault). intros h3 r Hp3 Hw. apply HQ.
    - etransitivity; [|done]. by etransitivity.
    - intros Ha. rewrite (Hw Ha). split_and!; [done|done|done|exact Hph|]. rewrite Hr. by split. }
  unfold alreadyConfigured. destruct (FindStatusCondition _ _) as [cond|] eqn:Ef; [|done].
  case_bool_decide as Ec; [|done]. cbn [wps]. apply HQ; [done|]. intros _. split_and!; [done|done|done|exact Hph|].
  split; [done|]. intros _. unfold ready, IsStatusConditionTrue. cbn [fst]. rewrite IsStatusConditionPresentAndEqual_spec, Ef.
  by apply bool_decide_eq_true_2.
Qed.

Lemma changeProvider_works h (Q : history -> result string -> Prop) :
  vc_Phase change <> Configured ->
  (forall h' r, h `prefix_of` h' -> (all_work vault h' -> r = Ok (if bool_decide (vc_Phase change = StageCredentials)
     then vc_TempRevision change else vc_StandardRevision change)) -> Q h' r) ->
  wps anything h (changeProvider cluster vault pods (podExecutor at_ ContainerDatabase) change) Q.
Proof.
  intros Hc HQ. unfold changeProvider. destruct (vc_Phase change) eqn:Eph; [|done|..]; apply wps_bind.
  - apply (ReconcileVaultProvider_works vault). intros h1 e Hp1 He. cbn [wps]. apply HQ; [done|]. intros Hw. by rewrite He.
  - apply (stage_works vault). intros h1 [e|] Hp1 He; cbn [wps].
    { apply HQ; [done|]. intros Hw%He. done. }
    apply wps_bind. apply (ReconcileVaultProvider_works vault). intros h2 e Hp2 He2. cbn [wps].
    apply HQ; [by etransitivity|]. intros Hw. by rewrite He2.
  - apply (ReconcileVaultProvider_works vault). intros h1 [e|] Hp1 He; cbn [wps].
    { apply HQ; [done|]. intros Hw%He. done. }
    apply wps_bind. apply cleanup_works. intros h2 e Hp2. cbn [wps]. apply HQ; [by etransitivity|]. done.
Qed.

Lemma recordRevision_works h revision (Q : history -> CrunchyCluster * option error -> Prop) :
  revision = (if bool_decide (vc_Phase change = StageCredentials) then vc_TempRevision change else vc_StandardRevision change) ->
  (forall h' r, h `prefix_of` h' -> (all_work vault h' -> gone_through cluster vault r) -> Q h' r) ->
  wps anything h (recordRevision statusEqual before cluster change revision) Q.
Proof.
  intros Hrev HQ. unfold recordRevision. cbv zeta. apply wps_bind. pose proof (phase_advances cluster vault revision Hne Hrev) as Hph.
  assert (Hend : forall h1 f status, h `prefix_of` h1 -> (status = ConditionTrue <-> vc_Phase change <> StageCredentials) ->
    (ready (onClusterConditions f (cluster <| cc_PGTDERevision := revision |>)) <-> status = ConditionTrue) ->
    wps anything h1 (let! r := patchStatus statusEqual before (onClusterConditions f (cluster <| cc_PGTDERevision := revision |>)) in
                     Ret (r.1, Wrap "patch status" <$> r.2)) Q).
  { intros h1 f status Hp1 Hs Hr. apply wps_bind. apply (patchStatus_works _ _ _ vault). intros h2 r Hp2 Hw. cbn [wps].
    apply HQ; [by etransitivity|]. intros Ha. rewrite (Hw Ha). split_and!; [done|done|done|exact Hph|]. by rewrite Hr. }
  destruct (decide (vc_Phase change = StageCredentials)) as [E|E].
  - rewrite bool_decide_eq_true_2 in Hrev by done. rewrite (bool_decide_eq_true_2 (revision = _)) by done.
    apply setCondition_wps; [done|]. intros h1 f Hp1 Hr. eapply Hend; [done| |exact Hr]. by split.
  - rewrite bool_decide_eq_false_2 in Hrev by done. rewrite (bool_decide_eq_false_2 (revision = _)) by congruence.
    apply setCondition_wps; [done|]. intros h1 f Hp1 Hr. by eapply Hend; [done| |exact Hr].
Qed.
End OnePass.

(** A provider that is configured and ready is left alone. *)
Lemma configured_quiet before cluster instances vault :
  cc_Vault cluster = Some vault -> pgtdeEnabled cluster = true ->
  vc_Phase (VaultChangeFor cluster vault) = Configured -> ready cluster ->
  reconcilePGTDEProviders errorText statusEqual before cluster instances = Ret (cluster, None).
Proof.
  intros Hv He Hph Hr. unfold reconcilePGTDEProviders. rewrite Hv, He. cbn [negb].
  destruct (IsStandby _); [done|]. destruct (existsb _ (forCluster instances)); [done|].
  destruct (runningPods instances ContainerDatabase) as [pods []]; cbn [negb]; [|by rewrite Hr].
  destruct (existsb _ pods); [done|]. destruct (writablePod _ _) as [[pod i]|]; [|done].
  unfold reconcileProvider. cbv zeta. rewrite bool_decide_eq_true_2 by done. unfold alreadyConfigured.
  unfold ready, IsStatusConditionTrue in Hr. rewrite IsStatusConditionPresentAndEqual_spec in Hr.
  destruct (FindStatusCondition _ _) as [cond|]; [|done]. by rewrite Hr.
Qed.

(** C30: a change of credentials goes through.  When every instance has its
    template and everything works, a pass over changed credentials leaves the
    cluster in the phase after it: the volume is no longer held, so the
    instances are rolled, and the provider is not reported ready; the next pass
    leaves it configured and ready, and then nothing is done any more.  That
    holds although the staged copies could not be removed: the failure of that
    is not noticed, and nothing tries again. *)
Theorem change_goes_through (before cluster : CrunchyCluster) (instances : observedInstances) (vault : PGTDEVaultSpec) pod i :
  cc_Vault cluster = Some vault -> pgtdeEnabled cluster = true -> IsStandby (cc_Config cluster) = false ->
  settled instances -> writablePod instances ContainerDatabase = Some (pod, i) ->
  vc_StandardRevision (VaultChangeFor cluster vault) <> vc_TempRevision (VaultChangeFor cluster vault) ->
  wps anything [] (reconcilePGTDEProviders errorText statusEqual before cluster instances)
    (fun h r => all_work vault h -> gone_through cluster vault r /\ heldForChange r.1 = false /\
       (vc_Phase (VaultChangeFor cluster vault) <> StageCredentials -> forall before' instances',
          reconcilePGTDEProviders errorText statusEqual before' r.1 instances' = Ret (r.1, None))).
Proof.
  intros Hv He Hsb (Hm & Hrun & Hann) Hpod Hne.
  assert (Hend : forall r, gone_through cluster vault r -> gone_through cluster vault r /\ heldForChange r.1 = false /\
    (vc_Phase (VaultChangeFor cluster vault) <> StageCredentials -> forall before' instances',
       reconcilePGTDEProviders errorText statusEqual before' r.1 instances' = Ret (r.1, None))).
  { intros r Hr. split; [done|]. destruct Hr as (_ & Hvr & Her & Hph & Hready). split.
    - unfold heldForChange. rewrite Hvr, Hv, Hph. unfold next_phase. apply bool_decide_eq_false_2. by case_bool_decide.
    - intros Hns before' instances'. apply (configured_quiet _ _ _ vault); [congruence|congruence| |by apply Hready].
      rewrite Hph. unfold next_phase. by rewrite bool_decide_eq_false_2. }
  unfold reconcilePGTDEProviders. rewrite Hv, He, Hsb. cbn [negb].
  replace (existsb _ (forCluster instances)) with false.
  2: { symmetry. apply not_true_iff_false. intros Hx%existsb_exists. destruct Hx as (x & Hin%list_elem_of_In & Hx).
       rewrite Forall_forall in Hm. by rewrite (Hm x Hin) in Hx. }
  destruct (runningPods instances ContainerDatabase) as [pods running] eqn:Er. cbn [fst snd] in *. rewrite Hrun. cbn [negb].
  replace (existsb _ pods) with false.
  2: { symmetry. apply not_true_iff_false. intros Hx%existsb_exists. destruct Hx as (x & Hin%list_elem_of_In & Hx).
       apply bool_decide_eq_true in Hx. rewrite Forall_forall in Hann. destruct (Hann x Hin) as [a Ha]. congruence. }
  rewrite Hpod. unfold reconcileProvider. cbv zeta. case_bool_decide as Hc.
  - apply (alreadyConfigured_works before cluster vault); [done|]. intros h r _ Hw Ha. by apply Hend, Hw.
  - apply wps_bind. apply changeProvider_works; [done|]. intros h1 r Hp1 Hw.
    destruct (decide (r = Ok (if bool_decide (vc_Phase (VaultChangeFor cluster vault) = StageCredentials)
        then vc_TempRevision (VaultChangeFor cluster vault) else vc_StandardRevision (VaultChangeFor cluster vault)))) as [->|E].
    + apply (recordRevision_works before cluster vault); [done|done|]. intros h2 r Hp2 Hw2 Ha. by apply Hend, Hw2.
    + eapply wps_conseq; [apply wps_prefix, anything_wps|]. intros h2 r2 [Hp2 _] Ha. exfalso.
      apply E, Hw. by apply (all_work_prefix _ h1) in Ha.
Qed.
End Theorems.

(** ** The volume *)
Section Named.
Context {A : Type} (name : A -> string).

Definition others (l : list A) : list A := List.filter (fun x => negb (bool_decide (name x = PGTDEVolume))) l.

Lemma findNamed_name l x : findNamed name l = Some x -> name x = PGTDEVolume.
Proof. intros Hf. apply find_some in Hf as [_ Hx]. by apply bool_decide_eq_true in Hx. Qed.

Lemma replaceNamed_spec new l : name new = PGTDEVolume ->
  match replaceNamed name new l with
  | Some l' => findNamed name l' = Some new /\ others l' = others l
  | None => findNamed name l = None
  end.
Proof.
  intros Hn. induction l as [|x l IH]; [done|]. unfold findNamed, others in *. cbn. case_bool_decide as E; cbn.
  - by rewrite (bool_decide_eq_true_2 (name new = _)).
  - destruct (replaceNamed name new l) as [l'|]; cbn; rewrite ?bool_decide_eq_false_2 by done; [|done].
    cbn. by destruct IH as [-> ->].
Qed.

Lemma findNamed_snoc l x : findNamed name l = None -> name x = PGTDEVolume ->
  findNamed name (l ++ [x]) = Some x /\ others (l ++ [x]) = others l.
Proof.
  intros Hf Hx. unfold findNamed, others in *. induction l as [|y l IH]; cbn in *.
  - by rewrite bool_decide_eq_true_2.
  - case_bool_decide; [done|]. destruct (IH Hf) as [-> ->]. done.
Qed.

(** The new one is there, and all others are as they were. *)
Lemma putNamed_spec new l : name new = PGTDEVolume ->
  findNamed name (putNamed name new l) = Some new /\ others (putNamed name new l) = others l.
Proof.
  intros Hn. pose proof (replaceNamed_spec new l Hn) as Hr. unfold putNamed.
  destruct (replaceNamed name new l); cbn; [done|by apply findNamed_snoc].
Qed.

Lemma replaceNamed_again new l l' : name new = PGTDEVolume ->
  replaceNamed name new l = Some l' -> replaceNamed name new l' = Some l'.
Proof.
  intros Hn. revert l'. induction l as [|x l IH]; intros l'; cbn; [done|]. case_bool_decide as E.
  - intros [= <-]. cbn. by rewrite bool_decide_eq_true_2.
  - destruct (replaceNamed name new l) as [m|]; [|done]. intros [= <-]. cbn. rewrite bool_decide_eq_false_2 by done.
    by rewrite (IH m).
Qed.

Lemma putNamed_again new l : name new = PGTDEVolume -> putNamed name new (putNamed name new l) = putNamed name new l.
Proof.
  intros Hn. unfold putNamed at 2 3. destruct (replaceNamed name new l) as [m|] eqn:E; cbn.
  - unfold putNamed. by rewrite (replaceNamed_again new l m).
  - unfold putNamed. assert (Ha : replaceNamed name new (l ++ [new]) = Some (l ++ [new])); [|by rewrite Ha].
    induction l as [|x l IH]; cbn in *; [by rewrite bool_decide_eq_true_2|]. case_bool_decide; [done|].
    destruct (replaceNamed name new l); [done|]. by rewrite IH.
Qed.
End Named.

Lemma onDatabase_twice f l : (forall c, ct_Name (f c) = ct_Name c) -> (forall c, f (f c) = f c) ->
  onDatabase f (onDatabase f l) = onDatabase f l.
Proof.
  intros Hn Hf. induction l as [|c l IH]; cbn; [done|]. case_bool_decide as E; cbn.
  - rewrite bool_decide_eq_true_2 by (by rewrite Hn). by rewrite Hf.
  - rewrite bool_decide_eq_false_2 by done. by rewrite IH.
Qed.

Lemma PreserveOldTDEVolume_twice podSpec existing :
  PreserveOldTDEVolume (PreserveOldTDEVolume podSpec existing) existing = PreserveOldTDEVolume podSpec existing.
Proof.
  unfold PreserveOldTDEVolume. destruct (findNamed fst (psp_Volumes existing)) as [v|] eqn:Ev; [|done].
  pose proof (putNamed_again fst v (psp_Volumes podSpec) (findNamed_name _ _ _ Ev)) as Hv.
  revert Hv. generalize (putNamed fst v) as f. intros f Hv. destruct (oldMount existing) as [m|] eqn:Em.
  - assert (Hm : forall l, putNamed vm_Name m (putNamed vm_Name m l) = putNamed vm_Name m l).
    { intros l. apply putNamed_again. unfold oldMount in Em. destruct (databaseContainer _) as [c|]; [|done].
      by apply (findNamed_name _ _ _ Em). }
    revert Hm. generalize (putNamed vm_Name m) as g. intros g Hg.
    assert (Hc : forall l, onDatabase (fun c => c <| ct_VolumeMounts ::= g |>) (onDatabase (fun c => c <| ct_VolumeMounts ::= g |>) l) =
      onDatabase (fun c => c <| ct_VolumeMounts ::= g |>) l).
    { intros l. apply onDatabase_twice; [done|]. intros c. unfold set_field. cbn. by rewrite Hg. }
    revert Hc. generalize (onDatabase (fun c => c <| ct_VolumeMounts ::= g |>)) as k. intros k Hk.
    unfold set_field. cbn. by rewrite Hv, Hk.
  - unfold set_field. cbn. by rewrite Hv.
Qed.

(** What a pod keeps of the old volume: the volume, its mount in the container
    of the database, and nothing else of the old template. *)
Definition keeps_volume (podSpec existing result : PodSpec) : Prop :=
  match findNamed fst (psp_Volumes existing) with
  | None => result = podSpec
  | Some volume =>
      findNamed fst (psp_Volumes result) = Some volume /\
      others fst (psp_Volumes result) = others fst (psp_Volumes podSpec) /\
      psp_InitContainers result = psp_InitContainers podSpec /\
      length (psp_Containers result) = length (psp_Containers podSpec) /\
      (forall n c, psp_Containers podSpec !! n = Some c -> ct_Name c <> ContainerDatabase -> psp_Containers result !! n = Some c) /\
      (forall c, databaseContainer (psp_Containers podSpec) = Some c ->
         exists c', databaseContainer (psp_Containers result) = Some c' /\
         (forall m, oldMount existing = Some m -> findNamed vm_Name (ct_VolumeMounts c') = Some m) /\
         others vm_Name (ct_VolumeMounts c') = others vm_Name (ct_VolumeMounts c) /\
         c' = c <| ct_VolumeMounts := ct_VolumeMounts c' |>)
  end.

Lemma length_onDatabase f l : length (onDatabase f l) = length l.
Proof. induction l as [|c l IH]; cbn; [done|]. case_bool_decide; cbn; congruence. Qed.

Lemma onDatabase_other f l n c : l !! n = Some c -> ct_Name c <> ContainerDatabase -> onDatabase f l !! n = Some c.
Proof.
  revert n. induction l as [|d l IH]; intros n; [done|]. cbn. case_bool_decide as E; destruct n as [|n]; cbn; [|done|done|apply IH].
  by intros [= ->].
Qed.

Lemma onDatabase_database f l c : (forall c, ct_Name (f c) = ct_Name c) ->
  databaseContainer l = Some c -> databaseContainer (onDatabase f l) = Some (f c).
Proof.
  intros Hn. unfold databaseContainer. induction l as [|d l IH]; cbn; [done|]. case_bool_decide as E; cbn.
  - intros [= ->]. by rewrite bool_decide_eq_true_2 by (by rewrite Hn).
  - rewrite bool_decide_eq_false_2 by done. apply IH.
Qed.

Lemma PreserveOldTDEVolume_spec podSpec existing : keeps_volume podSpec existing (PreserveOldTDEVolume podSpec existing).
Proof.
  unfold keeps_volume, PreserveOldTDEVolume. destruct (findNamed fst (psp_Volumes existing)) as [v|] eqn:Ev; [|done].
  destruct (putNamed_spec fst v (psp_Volumes podSpec) (findNamed_name _ _ _ Ev)) as [Hv Ho].
  destruct (oldMount existing) as [m|] eqn:Em.
  - assert (Hm : vm_Name m = PGTDEVolume).
    { unfold oldMount in Em. destruct (databaseContainer _) as [c|]; [|done]. by apply (findNamed_name _ _ _ Em). }
    split_and!; [done|done|done|apply length_onDatabase|intros n c; apply onDatabase_other|]. intros c Hc.
    destruct (putNamed_spec vm_Name m (ct_VolumeMounts c) Hm) as [Hp Hq].
    exists (c <| ct_VolumeMounts ::= putNamed vm_Name m |>). split_and!; [by apply onDatabase_database| |done|done].
    by intros m' [= <-].
  - split_and!; [done|done|done|done|done|]. intros c Hc. exists c. split_and!; [done|done|done|]. by destruct c.
Qed.

Section Volume.
Context `{MetaConditions} `{SafeEncode}.

(** The template is what [PreserveOldTDEVolume] makes of it when the volume is
    held, however many reasons there are, and unchanged otherwise. *)
Lemma instanceVolume_spec cluster podSpec existing :
  instanceVolume cluster podSpec existing =
  if heldForChange cluster || heldForDrop cluster then PreserveOldTDEVolume podSpec existing else podSpec.
Proof.
  unfold instanceVolume. destruct (heldForChange cluster), (heldForDrop cluster); cbn; [|done..].
  apply PreserveOldTDEVolume_twice.
Qed.

(** C31: when an instance keeps the volume of its old credentials.  It does
    exactly while the cluster has a vault and a revision is recorded that is
    that of neither pair of paths of the present vault, the credentials' own or
    the staged ones, or while a disabled extension is still installed.  It then
    has the volume and the mount of the StatefulSet as it is, also when the new
    template has none, and everything else of the new template; otherwise the
    new template is used as it is.  The recorded revision is what the operator
    last wrote down; it can be empty although the provider names old
    credentials, as [enabled_again_is_not_held] shows. *)
Theorem volume_is_held cluster podSpec existing :
  let held :=
    (exists vault, cc_Vault cluster = Some vault /\ cc_PGTDERevision cluster <> "" /\
       cc_PGTDERevision cluster <> VaultRevision vault (VaultCredentialPaths vault) /\
       cc_PGTDERevision cluster <> VaultRevision vault (TempVaultCredentialPaths vault)) \/
    (pgtdeEnabled cluster = false /\ IsStatusConditionTrue (cc_Conditions cluster) PGTDEEnabled = true) in
  (held -> keeps_volume podSpec existing (instanceVolume cluster podSpec existing)) /\
  (~ held -> instanceVolume cluster podSpec existing = podSpec).
Proof.
  intros held. rewrite instanceVolume_spec.
  assert (Hh : heldForChange cluster || heldForDrop cluster = true <-> held).
  { rewrite orb_true_iff. unfold held, heldForChange, heldForDrop. rewrite andb_true_iff, negb_true_iff. apply or_iff_compat_r.
    destruct (cc_Vault cluster) as [vault|]; [|split; [done|by intros (v & [=] & _)]]. rewrite bool_decide_eq_true.
    unfold VaultChangeFor. cbn. split.
    - intros Hx. exists vault. repeat case_bool_decide; by split_and!.
    - intros (v & [= <-] & H1 & H2 & H3). by rewrite !bool_decide_eq_false_2. }
  rewrite <- Hh. destruct (heldForChange cluster || heldForDrop cluster); split; intros Hx; try done.
  apply PreserveOldTDEVolume_spec.
Qed.

(** An extension that is disabled but cannot be dropped keeps its volume; the
    provider's revision, however, is forgotten at once.  When the extension is
    enabled again, with whatever vault, the volume is no longer held: the
    instances are given the new credentials although the provider, which is
    still installed, names the old ones. *)
Theorem enabled_again_is_not_held errorText statusEqual before cluster instances vault podSpec existing :
  pgtdeEnabled cluster = false ->
  exists c, reconcilePGTDEProviders errorText statusEqual before cluster instances = Ret (c, None) /\
    pgtdeEnabled c = false /\ cc_PGTDERevision c = "" /\
    forall c', cc_Vault c' = Some vault -> pgtdeEnabled c' = true -> cc_PGTDERevision c' = cc_PGTDERevision c ->
      instanceVolume c' podSpec existing = podSpec.
Proof.
  intros He. exists (onClusterConditions (fun l => RemoveStatusCondition l PGTDEVaultProviderReady) (cluster <| cc_PGTDERevision := "" |>)).
  split_and!; [|done|done|].
  - unfold reconcilePGTDEProviders. rewrite He. by destruct (cc_Vault cluster).
  - intros c' Hv He' Hr. unfold instanceVolume, heldForChange, heldForDrop. rewrite Hv, He'. cbn [negb andb].
    rewrite bool_decide_eq_false_2; [done|]. unfold VaultChangeFor. cbn. by rewrite bool_decide_eq_true_2 by exact Hr.
Qed.
End Volume.

(** ** A cluster in recovery *)
Section Standby.
Context `{MetaConditions} `{SafeEncode}.
Context (errorText : error -> string) (cluster : CrunchyCluster) (instances : observedInstances).

(** A question that psql is asked *)
Definition asks (sql : string) (stdin : option string) (command : list string) : Prop :=
  stdin = Some sql /\ exists order, order ≡ₚ keys onErrorStop /\
  command = ["psql"; "-Xw"; "--file=-"] ++ sortStrings (setArgs onErrorStop order ++ readOnlyPSQLArgs).

Definition is_leader (at_ : key) : Prop :=
  exists pod i, standbyLeaderPod instances ContainerDatabase = Some (pod, i) /\ at_ = objectKey (p_Meta pod).

Definition standby_call (h : history) (o : op) : Prop :=
  match o with
  | Now | RangeOrder _ => True
  | Exec at_ container stdin command => container = ContainerDatabase /\ is_leader at_ /\
      (asks observeSQL stdin command \/ asks verifySQL stdin command)
  | _ => False
  end.

(** The answer to a question *)
Definition answered (h : history) (sql : string) (out : ExecOutput) : Prop :=
  exists at_ stdin command, is_leader at_ /\ asks sql stdin command /\ ran h at_ stdin command out.

Definition conditionTrue (c : CrunchyCluster) (type_ : string) : bool := IsStatusConditionTrue (cc_Conditions c) type_.

(** What the status says of an extension that is installed or not, and of a key
    that was fetched or not. *)
Definition standby_status (installed fetched : bool) (c : CrunchyCluster) : Prop :=
  (exists f, c = onClusterConditions f cluster) /\
  conditionTrue c PGTDEEnabled = installed /\
  conditionTrue c PGTDEVaultProviderReady =
    (if pgtdeEnabled cluster && bool_decide (is_Some (cc_Vault cluster)) && bool_decide (cc_PGTDERevision cluster = "")
     then installed && fetched else conditionTrue cluster PGTDEVaultProviderReady).

Lemma ask_wps h at_ sql (Q : history -> ExecOutput -> Prop) :
  is_leader at_ -> sql = observeSQL \/ sql = verifySQL ->
  (forall h' out, h `prefix_of` h' -> answered h' sql out -> Q h' out) ->
  wps standby_call h (ExecPsql (podExecutor at_ ContainerDatabase) sql onErrorStop readOnlyPSQLArgs) Q.
Proof.
  intros Hl Hsql HQ. unfold ExecPsql. apply wps_call_bind. split; [done|]. intros [order Horder]. cbn [proj1_sig podExecutor].
  assert (Ha : asks sql (Some sql) (["psql"; "-Xw"; "--file=-"] ++ sortStrings (setArgs onErrorStop order ++ readOnlyPSQLArgs)))
    by (split; [done|by exists order]).
  split; [split_and!; [done|done|destruct Hsql as [-> | ->]; [by left|by right]]|]. intros out. cbn [wps].
  apply HQ; [etransitivity; by apply prefix_app_r|]. eexists _, _, _. split_and!; [done|exact Ha|apply elem_of_snoc].
Qed.

Lemma conditionTrue_set now c cond type_ :
  conditionTrue (onClusterConditions (fun l => SetStatusCondition now l cond) c) type_ =
  if bool_decide (type_ = cond_Type cond) then bool_decide (cond_Status cond = ConditionTrue) else conditionTrue c type_.
Proof.
  unfold conditionTrue, IsStatusConditionTrue, cc_Conditions. cbn. rewrite !IsStatusConditionPresentAndEqual_spec.
  case_bool_decide as E.
  - subst type_. destruct (SetStatusCondition_same now (pc_Conditions (cc_Config c)) cond) as [time Ht]. by rewrite Ht.
  - by rewrite SetStatusCondition_other.
Qed.

Lemma onClusterConditions_twice f g c : onClusterConditions f (onClusterConditions g c) = onClusterConditions (fun l => f (g l)) c.
Proof. done. Qed.

Lemma ReportStandby_wps h installed keyErr (Q : history -> CrunchyCluster -> Prop) :
  (forall h' c, h `prefix_of` h' -> standby_status installed (bool_decide (keyErr = None)) c -> Q h' c) ->
  wps standby_call h (ReportStandby errorText cluster installed keyErr) Q.
Proof.
  intros HQ. unfold ReportStandby. destruct (standbyExtension installed (pgtdeEnabled cluster)) as [[status reason] message] eqn:Es.
  assert (Hs : bool_decide (status = ConditionTrue) = installed)
    by (destruct installed, (pgtdeEnabled cluster); cbn in Es; by injection Es as <- _ _).
  apply wps_bind. unfold setCondition. apply wps_call_bind. split; [done|]. intros now. cbn [wps].
  set (c1 := onClusterConditions _ cluster). set (h1 := h ++ _). assert (Hp1 : h `prefix_of` h1) by by apply prefix_app_r.
  assert (Hc1 : conditionTrue c1 PGTDEEnabled = installed).
  { unfold c1. rewrite conditionTrue_set. cbn [cond_Type cond_Status]. by rewrite bool_decide_eq_true_2. }
  change (pgtdeEnabled c1) with (pgtdeEnabled cluster). change (cc_Vault c1) with (cc_Vault cluster).
  change (cc_PGTDERevision c1) with (cc_PGTDERevision cluster).
  destruct (pgtdeEnabled cluster && bool_decide (is_Some (cc_Vault cluster)) && bool_decide (cc_PGTDERevision cluster = "")) eqn:E.
  - replace (negb _ || _ || _) with false by (symmetry; by rewrite <- !negb_andb, E).
    destruct (standbyProvider _ installed keyErr) as [[status' reason'] message'] eqn:Ep.
    assert (Hp : bool_decide (status' = ConditionTrue) = installed && bool_decide (keyErr = None))
      by (destruct installed, keyErr; cbn in Ep; by injection Ep as <- _ _).
    apply wps_call_bind. split; [done|]. intros now'. cbn [wps]. apply HQ; [etransitivity; [done|by apply prefix_app_r]|].
    split_and!; [unfold c1; rewrite onClusterConditions_twice; by eexists| |].
    + rewrite conditionTrue_set. cbn [cond_Type]. by rewrite bool_decide_eq_false_2.
    + rewrite E, conditionTrue_set. cbn [cond_Type cond_Status]. by rewrite bool_decide_eq_true_2.
  - replace (negb _ || _ || _) with true by (symmetry; by rewrite <- !negb_andb, E). cbn [wps]. apply HQ; [done|].
    split_and!; [by eexists|done|]. rewrite E. unfold c1. rewrite conditionTrue_set. cbn [cond_Type].
    by rewrite bool_decide_eq_false_2.
Qed.

(** A cluster in recovery is only asked.  The only commands are two
    questions to the standby leader, whether the extension is installed and,
    when it is, whether its key can be fetched.  Without a readable answer to
    the first the status stays as it is; else the extension is reported enabled
    exactly when it is installed, whatever the specification says, so an
    extension that is disabled but installed keeps its library and its volume;
    and, while no revision is recorded, the provider of a specified vault is
    reported ready exactly when the key was fetched. *)
Theorem standby_is_only_asked :
  wps standby_call [] (reconcilePGTDEStandby errorText cluster instances)
    (fun h c => c = cluster \/
       exists installed fetched out, answered h observeSQL out /\ out_Err out = None /\
         TrimSpace (out_Stdout out) = (if installed : bool then "t" else "f") /\
         (installed = true -> exists key, answered h verifySQL key /\ fetched = bool_decide (out_Err key = None)) /\
         standby_status installed fetched c /\
         (installed = true -> pgtdeEnabled cluster = false -> heldForDrop c = true)).
Proof.
  assert (Hheld : forall installed fetched c, standby_status installed fetched c ->
    installed = true -> pgtdeEnabled cluster = false -> heldForDrop c = true).
  { intros installed fetched c ((f & ->) & Hc & _) -> He. unfold heldForDrop. change (pgtdeEnabled _) with (pgtdeEnabled cluster).
    by rewrite He. }
  unfold reconcilePGTDEStandby. destruct (negb (IsStandby _)); [by left|]. destruct (negb _ && negb _); [by left|].
  destruct (standbyLeaderPod _ _) as [[pod i]|] eqn:El; [|by left].
  assert (Hl : is_leader (objectKey (p_Meta pod))) by by exists pod, i.
  apply wps_bind. unfold ObserveExtension. apply wps_bind. apply ask_wps; [done|by left|]. intros h1 out _ Ha.
  destruct (out_Err out) as [e|] eqn:Ee; cbn [wps]; [by left|].
  destruct (decide (TrimSpace (out_Stdout out) = "t")) as [Et|Et].
  - rewrite (bool_decide_eq_true_2 (_ = "t")) by done. apply wps_bind. unfold VerifyPrincipalKey. apply wps_bind.
    apply ask_wps; [done|by right|]. intros h2 key Hp2 Hk. cbn [wps]. apply ReportStandby_wps. intros h3 c Hp3 Hs. right.
    assert (Hgrow : forall h h' sql out, answered h sql out -> h `prefix_of` h' -> answered h' sql out).
    { intros g g' sql o (a & s & cmd & Hx & Hy & Hz) Hp. exists a, s, cmd. split_and!; [done|done|by eapply elem_of_grow]. }
    exists true, (bool_decide (out_Err key = None)), out. split_and!; [|done|done| | |].
    + eapply Hgrow; [exact Ha|by etransitivity].
    + intros _. exists key. split; [by eapply Hgrow|done].
    + by destruct (out_Err key).
    + by eapply Hheld.
  - rewrite (bool_decide_eq_false_2 (_ = "t")) by done. case_bool_decide as Ef; [|by left].
    apply ReportStandby_wps. intros h3 c Hp3 Hs. right. exists false, true, out. split_and!; [|done|done|done|done|done].
    destruct Ha as (a & s & cmd & Hx & Hy & Hz). exists a, s, cmd. split_and!; [done|done|by eapply elem_of_grow].
Qed.
End Standby.

(** ** Examples *)
Module ExampleTDE.
#[local] Existing Instance ListConditions.conditions.
#[local] Existing Instance ConcreteEncode.encode.

Definition tdePod (name role : string) : Pod :=
  ExampleInstances.pod name role "new" <| p_Meta ::= fun m =>
    m <| om_Annotations := {[ TDEInstalledAnnotation := "true"; "status" := "{" +:+ jsonString "role" role +:+ "}" ]} |> |>.

Definition tdeInstance (name role : string) : Instance :=
  mkInstance name [tdePod name role] (Some (ExampleInstances.runner name)) (Some (ExampleInstances.set1 2)).

Definition instances : observedInstances :=
  mkObserved [tdeInstance "a" "primary"; tdeInstance "b" "replica"] ∅ ∅ ∅.

Definition vault : PGTDEVaultSpec := mkVault "https://vault:8200" "tde" ("vault-secret", "token") ("vault-secret", "ca.crt").

(** A cluster with pg_tde, and with a revision *)
Definition cluster (revision : string) : CrunchyCluster :=
  ExampleInstances.cluster [ExampleInstances.set1 2]
    <| cc_Vault := Some vault |> <| cc_PGTDERevision := revision |>
    <| cc_Config ::= fun p => p <| pc_Extensions := mkExtensions false false false false false true false |> |>.

Lemma settled_instances : settled instances.
Proof.
  split_and!; [|by vm_compute|].
  - apply (bool_decide_eq_true_1 _). by vm_compute.
  - apply (bool_decide_eq_true_1 _). by vm_compute.
Qed.

Definition noMeta : ObjectMeta := ExampleInstances.meta "vault-secret" ∅ ∅.
Definition secret : DataObject := mkData noMeta {[ "token" := "s.abc"; "ca.crt" := "PEM" ]}.

(** A cluster where everything works but the removal of files *)
Definition answer (o : op) (w : unit) : unit * resp o :=
  (tt, match o return resp o with
       | Get KSecret _ => Ok secret
       | StatusPatch _ _ c => Ok c
       | Exec _ _ stdin command =>
           match stdin return ExecOutput with
           | Some data => mkExecOutput (pretty (String.length data)) "" None
           | None => mkExecOutput "" "" (Some (New "rm: cannot remove"))
           end
       | RangeOrder keys => exist _ keys (Permutation_refl keys)
       | Now => 0%Z
       | Event _ _ => tt
       | Get _ _ => Err (New "")
       | ListAll _ _ _ => Err (New "")
       | Create _ _ | Update _ _ | StatusUpdate _ _ | Patch _ _ _ => Err (New "")
       | RawPatch _ _ _ | Apply _ _ => Err (New "")
       | RESTMapping _ _ => Err (New "")
       | Delete _ _ _ | DeleteAllOf _ _ _ => Err (New "")
       | Rand _ => ""
       | NewExecClient => Err (New "")
       | LatestCommit _ _ => Err (New "")
       | WatcherExists _ | SendStop _ => false
       | AddWatcher _ => Err (New "")
       | RemoveWatcher _ | GoWatch _ => tt
       | WatcherNames => []
       | NewChecker _ | CheckCertManager _ => Err (New "")
       end).

Definition pass (c : CrunchyCluster) : nat * CrunchyCluster * option error :=
  let '(_, tr, r) := run answer (reconcilePGTDEProviders (fun _ => "") (fun _ _ => false) c c instances) tt in
  (length tr, r.1, r.2).

Definition seen (c : CrunchyCluster) : Phase * bool := (vc_Phase (VaultChangeFor c vault), conditionTrue c PGTDEVaultProviderReady).

(** Two passes: ten calls, to read two Secrets, stage four files and point the
    provider at them; six, to point it at the mount paths and fail to remove the
    copies; and a third pass without any. *)
Example two_passes :
  let '(n1, c1, e1) := pass (cluster "abc") in
  let '(n2, c2, e2) := pass c1 in
  let '(n3, c3, e3) := pass c2 in
  (n1, e1, seen c1) = (10, None, (Finalize, false)) /\
  (n2, e2, seen c2) = (6, None, (Configured, true)) /\ (n3, e3, seen c3) = (0, None, (Configured, true)).
Proof. by vm_compute. Qed.
End ExampleTDE.

Section Witnesses.
#[local] Existing Instance ListConditions.conditions.
#[local] Existing Instance ConcreteEncode.encode.
Import ExampleTDE.

Lemma key_provider_calls_witness :
  vc_Phase (VaultChangeFor (cluster "abc") vault) = StageCredentials /\
  wps (provider_call (cluster "abc") (cluster "abc") instances vault) []
    (reconcilePGTDEProviders (fun _ => "") (fun _ _ => false) (cluster "abc") (cluster "abc") instances)
    (fun h r => provider_result (cluster "abc") instances vault h r.1).
Proof. split; [by vm_compute|]. apply key_provider_calls; by vm_compute. Defined.

Lemma change_goes_through_witness :
  wps anything [] (reconcilePGTDEProviders (fun _ => "") (fun _ _ => false) (cluster "abc") (cluster "abc") instances)
    (fun h r => all_work vault h -> vc_Phase (VaultChangeFor r.1 vault) = Finalize /\ heldForChange r.1 = false).
Proof.
  eapply wps_conseq.
  - eapply (change_goes_through (fun _ => "") (fun _ _ => false) _ _ _ vault);
      [by vm_compute|by vm_compute|by vm_compute|exact settled_instances|by vm_compute|by vm_compute].
  - intros h r Hr Hw. destruct (Hr Hw) as ((_ & _ & _ & Hph & _) & Hheld & _). split; [by rewrite Hph; vm_compute|done].
Defined.
End Witnesses.
