(* ===== verification/Databases.v ===== *)
(** * Databases and extensions

    [reconcilePostgresDatabases] and [reconcileDatabaseInitSQL] of
    [internal/controller/postgrescluster/postgres.go], the packages of the
    extensions, and [internal/postgres/databases.go].  The SQL runs twice: once
    against an executor that only hashes it, and, when the hash is a new one,
    for real. *)
From S2P Require Import Prelude GoStrings Ini Cluster Prog Errors Naming Objects Client Psql ObservedInstances RepoBackups KeyProvider.

(** ** Extensions *)
Definition inAllDatabases (exec : Executor) (sql : string) : program (option error) :=
  let! out := ExecInAllDatabases exec sql onErrorStop in Ret (out_Err out).

Definition inPostgres (exec : Executor) (sql : string) : program (option error) :=
  let! out := ExecPsql exec sql onErrorStop ["--dbname=postgres"] in Ret (out_Err out).

Definition createSQL (extension : string) : string :=
  "SET client_min_messages = WARNING; CREATE EXTENSION IF NOT EXISTS " +:+ extension +:+
  "; ALTER EXTENSION " +:+ extension +:+ " UPDATE;".
Definition dropSQL (extension : string) : string :=
  "SET client_min_messages = WARNING; DROP EXTENSION IF EXISTS " +:+ extension +:+ ";".

(** [EnableInPostgreSQL] and [DisableInPostgreSQL] of each package *)
Definition pgaudit_Enable (exec : Executor) := inAllDatabases exec (createSQL "pgaudit").
Definition pgaudit_Disable (exec : Executor) := inAllDatabases exec (dropSQL "pgaudit").
Definition pgstatmonitor_Enable (exec : Executor) := inAllDatabases exec (createSQL "pg_stat_monitor").
Definition pgstatmonitor_Disable (exec : Executor) := inAllDatabases exec (dropSQL "pg_stat_monitor").
Definition pgvector_Enable (exec : Executor) := inAllDatabases exec (createSQL "vector").
Definition pgvector_Disable (exec : Executor) := inAllDatabases exec (dropSQL "vector").
Definition pgrepack_Enable (exec : Executor) := inAllDatabases exec (createSQL "pg_repack").
Definition pgrepack_Disable (exec : Executor) := inAllDatabases exec (dropSQL "pg_repack").
Definition setuser_Enable (exec : Executor) := inAllDatabases exec (createSQL "set_user").
Definition setuser_Disable (exec : Executor) := inAllDatabases exec (dropSQL "set_user").
Definition pgcron_Enable (exec : Executor) := inPostgres exec (createSQL "pg_cron").
Definition pgcron_Disable (exec : Executor) := inPostgres exec (dropSQL "pg_cron").

Definition statStatementsSQL : string :=
  "SET client_min_messages = WARNING; CREATE EXTENSION IF NOT EXISTS pg_stat_statements;".
Definition pgstatstatements_Enable (exec : Executor) := inAllDatabases exec statStatementsSQL.
Definition pgstatstatements_Disable (exec : Executor) := inAllDatabases exec (dropSQL "pg_stat_statements").

Definition postgis_Enable (exec : Executor) : program (option error) :=
  inAllDatabases exec (Join ["SET client_min_messages = WARNING;";
    "CREATE EXTENSION IF NOT EXISTS postgis;"; "CREATE EXTENSION IF NOT EXISTS postgis_topology;";
    "CREATE EXTENSION IF NOT EXISTS fuzzystrmatch;"; "CREATE EXTENSION IF NOT EXISTS postgis_tiger_geocoder;"] (char newline)).

(** ** JSON

    Strings as [encoding/json] writes them without escaping HTML.  The text is
    UTF-8: its bytes outside ASCII are kept, but for the two line separators of
    Unicode. *)
Definition json_char (c : ascii) : string :=
  let escaped d := String backslash (char d) in
  if decide (c = dquote) then escaped dquote
  else if decide (c = backslash) then escaped backslash
  else match N.to_nat (code c) with
       | 8 => escaped "b"%char
       | 9 => escaped "t"%char
       | 10 => escaped "n"%char
       | 12 => escaped "f"%char
       | 13 => escaped "r"%char
       | _ => if (code c <? 32)%N
              then escaped "u"%char +:+ "00" +:+ char (hex_digit (code c / 16)) +:+ char (hex_digit (code c mod 16))
              else char c
       end.

Fixpoint json_body (s : string) : string :=
  match s with
  | EmptyString => EmptyString
  | String "226" (String "128" (String "168" s)) => String backslash "u2028" +:+ json_body s
  | String "226" (String "128" (String "169" s)) => String backslash "u2029" +:+ json_body s
  | String c s => json_char c +:+ json_body s
  end.

Definition json_text (s : string) : string := char dquote +:+ json_body s +:+ char dquote.

(** A list of strings *)
Definition json_list (l : list string) : string := "[" +:+ Join (map json_text l) "," +:+ "]".

(** An object with these members, in the order of the keys *)
Definition json_object (members : list (string * string)) : string :=
  "{" +:+ Join (map (fun m => json_text m.1 +:+ ":" +:+ m.2) members) "," +:+ "}".

(** ** Databases *)
Definition endOfCopy : string := String backslash ".".

(** A temporary table with a row of JSON each *)
Definition copyLine : string := String backslash "copy input (data) from stdin with (format text)".

Definition inputTable (rows : list string) : string :=
  char newline +:+ Lines (["CREATE TEMPORARY TABLE input (id serial, data json);"; copyLine] ++ rows ++ [endOfCopy]).

Definition databaseRow (name : string) : string := json_object [("database", json_text name)].

Definition createDatabasesSQL (databases : list string) : string :=
  "SET search_path TO '';" +:+ inputTable (map databaseRow databases) +:+ "
SELECT pg_catalog.format('CREATE DATABASE %I',
       pg_catalog.json_extract_path_text(input.data, 'database'))
  FROM input
 WHERE NOT EXISTS (
       SELECT 1 FROM pg_catalog.pg_database
       WHERE datname = pg_catalog.json_extract_path_text(input.data, 'database'))
 ORDER BY input.id
\gexec
".

Definition CreateDatabasesInPostgreSQL (exec : Executor) (databases : list string) : program (option error) :=
  let! out := ExecPsql exec (createDatabasesSQL databases) onErrorStop [] in Ret (out_Err out).

(** ** What is to be done *)

(** The variables that [create] sets: which extensions are as specified, and
    how pg_tde fared, if it ran. *)
Record created := mkCreated {
  pgAuditOK : bool;
  pgStatMonitorOK : bool;
  pgStatStatementsOK : bool;
  pgvectorOK : bool;
  pgRepackOK : bool;
  pgCronOK : bool;
  setUserOK : bool;
  pgTdeOK : bool;
  postgisInstallOK : bool;
  pgTdeRan : bool;
  pgTdeErr : option error
}.

Definition noneCreated : created :=
  mkCreated false false false false false false false false false false None.

(** Enable or disable; a failure is an event. *)
Definition toggle (enabled : bool) (enable disable : program (option error)) (enableFailed disableFailed : string) : program bool :=
  let! err := (if enabled then enable else disable) in
  match err with
  | None => Ret true
  | Some _ => let! _ := call (Event "Warning" (if enabled then enableFailed else disableFailed)) in Ret false
  end.

(** An extension that the user installs by other means is not disabled. *)
Definition toggleCustom (enabled : bool) (customExtensions : list string) (name : string)
    (enable disable : program (option error)) (enableFailed disableFailed : string) : program bool :=
  if negb enabled && bool_decide (name ∈ customExtensions) then Ret true
  else toggle enabled enable disable enableFailed disableFailed.

Section Create.
Context `{GoVersion}.
Context (cluster : CrunchyCluster) (customExtensions databases : list string).
Let ext : ExtensionsSpec := pc_Extensions (cc_Config cluster).

Definition createExtensions (exec : Executor) : program created :=
  let! pgStatMonitorOK := toggle (ext_PGStatMonitor ext) (pgstatmonitor_Enable exec) (pgstatmonitor_Disable exec)
    "pgStatMonitorDisabled" "pgStatMonitorEnabled" in
  let! pgAuditOK := toggle (ext_PGAudit ext) (pgaudit_Enable exec) (pgaudit_Disable exec) "pgAuditDisabled" "pgAuditEnabled" in
  let! pgStatStatementsOK := toggle (ext_PGStatStatements ext) (pgstatstatements_Enable exec) (pgstatstatements_Disable exec)
    "pgStatStatementsDisabled" "pgStatStatementsEnabled" in
  let! pgvectorOK := toggle (cc_PGVector cluster) (pgvector_Enable exec) (pgvector_Disable exec) "pgvectorDisabled" "pgvectorEnabled" in
  let! pgRepackOK := toggle (cc_PGRepack cluster) (pgrepack_Enable exec) (pgrepack_Disable exec) "pgRepackDisabled" "pgRepackEnabled" in
  let! pgCronOK := toggleCustom (ext_PGCron ext) customExtensions "pg_cron" (pgcron_Enable exec) (pgcron_Disable exec)
    "pgCronDisabled" "pgCronEnabled" in
  let! setUserOK := toggleCustom (ext_SetUser ext) customExtensions "set_user" (setuser_Enable exec) (setuser_Disable exec)
    "setUserDisabled" "setUserEnabled" in
  let! pgTdeErr := ReconcileExtension exec cluster in
  let! postgisInstallOK :=
    (if bool_decide (cc_PostGISVersion cluster = "") then Ret true
     else toggle true (postgis_Enable exec) (Ret None) "PostGISDisabled" "") in
  Ret (mkCreated pgAuditOK pgStatMonitorOK pgStatStatementsOK pgvectorOK pgRepackOK pgCronOK setUserOK
    (bool_decide (pgTdeErr = None)) postgisInstallOK true pgTdeErr).

(** [st] is what a run before this one has left. *)
Definition create (exec : Executor) (st : created) : program (created * option error) :=
  let version := label (cc_Meta cluster) LabelVersion in
  match NewVersion version with
  | None => Ret (st, Some (New ("malformed version: " +:+ version)))
  | Some _ =>
      let! out := ExecInAllDatabases exec ("SELECT '" +:+ version +:+ "';") {[ "QUIET" := "on" ]} in
      match out_Err out with
      | Some e => Ret (st, Some e)
      | None =>
          let! st := createExtensions exec in
          let! err := CreateDatabasesInPostgreSQL exec databases in
          Ret (st, err)
      end
  end.
End Create.

(** ** The run that only hashes

    Its executor writes each command, as [fmt.Fprint] prints a slice, and its
    input to the hash, and succeeds. *)
Definition printed (command : list string) (stdin : option string) : string :=
  "[" +:+ Join command " " +:+ "]" +:+ default "" stdin.

Fixpoint hashRun {A} (text : string) (p : program A) : program (A * string) :=
  match p with
  | Ret a => Ret (a, text)
  | Call o k =>
      match o as o return (resp o -> string -> program (A * string)) -> program (A * string) with
      | Exec _ _ stdin command => fun go => go (mkExecOutput "" "" None) (text +:+ printed command stdin)
      | o => fun go => Call o (fun r => go r text)
      end (fun r text => hashRun text (k r))
  end.

(** ** The reconcilers *)
Section Reconcile.
Context `{GoVersion} `{MetaConditions} `{SafeEncode}.
Context (statusEqual : CrunchyCluster -> CrunchyCluster -> bool).

Definition customExtensionNames (cluster : CrunchyCluster) : action (list string) :=
  let! r := call (Get KPGCluster (cc_Namespace cluster, cc_Name cluster)) in
  Ret (match r with
       | Ok c => Ok (os_InstalledCustomExtensions (c_Observed c))
       | Err e => if IsNotFound e then Ok [] else Err (Wrap "get PerconaPGCluster for custom extensions" e)
       end).

(** The databases that should exist: those of the users, or one with the name
    of the cluster. *)
Definition specifiedDatabases (cluster : CrunchyCluster) : program (gset string) :=
  match cc_Users cluster with
  | None =>
      if 63 <? String.length (cc_Name cluster)
      then let! _ := call (Event "Warning" "InvalidDatabase") in Ret ∅
      else Ret {[ cc_Name cluster ]}
  | Some users => Ret (list_to_set (mjoin (map (fun u => default [] (u_Databases u)) users)))
  end.

(** [sets.List] *)
Definition sets_List (s : gset string) : list string := sortStrings (elements s).

Definition allExtensionsOK (st : created) (err : option error) : bool :=
  bool_decide (err = None) && pgStatMonitorOK st && pgAuditOK st && pgvectorOK st && postgisInstallOK st &&
  pgRepackOK st && pgCronOK st && setUserOK st && pgTdeOK st.

(** What is recorded of a run.  An error of writing the status is logged. *)
Definition recordDatabases (before cluster : CrunchyCluster) (revision : string) (st : created) (err : option error)
    : program (CrunchyCluster * option error) :=
  let! cluster := (if pgTdeRan st then ReportExtension cluster (pgTdeErr st) else Ret cluster) in
  let ok := allExtensionsOK st err in
  let cluster := if ok then cluster <| cc_DatabaseRevision := revision |> else cluster in
  if pgTdeRan st || ok then
    let! r := patchStatus statusEqual before cluster in
    Ret (r.1, err)
  else Ret (cluster, err).

Definition applyDatabases (before cluster : CrunchyCluster) (customExtensions databases : list string) (exec : Executor)
    : program (CrunchyCluster * option error) :=
  let! dry := hashRun "" (create cluster customExtensions databases exec noneCreated) in
  let '((st, err), text) := dry in
  match err with
  | Some e => recordDatabases before cluster "" st (Some e)
  | None =>
      let revision := SafeHash32 text in
      if bool_decide (revision = cc_DatabaseRevision cluster) then Ret (cluster, None)
      else
        let! r := create cluster customExtensions databases exec
          (mkCreated (pgAuditOK st) (pgStatMonitorOK st) (pgStatStatementsOK st) (pgvectorOK st) (pgRepackOK st)
             (pgCronOK st) (setUserOK st) (pgTdeOK st) (postgisInstallOK st) false None) in
        recordDatabases before cluster revision r.1 r.2
  end.

Definition reconcilePostgresDatabases (before cluster : CrunchyCluster) (instances : observedInstances)
    : program (CrunchyCluster * option error) :=
  if existsb (fun i => negb (known_true (PodMatchesPodTemplate i))) (forCluster instances) then Ret (cluster, None)
  else match writablePod instances ContainerDatabase with
       | None => Ret (cluster, None)
       | Some (pod, _) =>
           let! databases := specifiedDatabases cluster in
           let! customExtensions := customExtensionNames cluster in
           match customExtensions with
           | Err e => Ret (cluster, Some e)
           | Ok customExtensions =>
               applyDatabases before cluster customExtensions (sets_List databases)
                 (podExecutor (objectKey (p_Meta pod)) ContainerDatabase)
           end
       end.

(** *** SQL of the user *)
Definition initSQL (cluster : CrunchyCluster) (ref : string * string) : action string :=
  do! cm := call (Get KConfigMap (cc_Namespace cluster, ref.1)) in
  Ret (match d_Data cm !! ref.2 with
       | Some data => Ok data
       | None => Err (New ("ConfigMap did not contain expected key: " +:+ ref.2))
       end).

Definition reconcileDatabaseInitSQL (cluster : CrunchyCluster) (instances : observedInstances)
    : program (CrunchyCluster * option error) :=
  match cc_DatabaseInitSQL cluster with
  | None => Ret (cluster <| cc_StatusDatabaseInitSQL := None |>, None)
  | Some ref =>
      match cc_StatusDatabaseInitSQL cluster with
      | Some _ => Ret (cluster, None)
      | None =>
          let! data := initSQL cluster ref in
          match data with
          | Err e => Ret (cluster, Some e)
          | Ok data =>
              match writablePod instances ContainerDatabase with
              | None => Ret (cluster, None)
              | Some (pod, _) =>
                  let! out := ExecPsql (podExecutor (objectKey (p_Meta pod)) ContainerDatabase) data ∅ [] in
                  Ret (match out_Err out with
                       | Some e => (cluster, Some e)
                       | None => (cluster <| cc_StatusDatabaseInitSQL := Some ref.1 |>, None)
                       end)
              end
          end
      end
  end.
End Reconcile.

(** ** What a program runs

    [script p l Q]: the commands that [p] runs are those of [l], in that order,
    whatever else is answered, as long as they succeed; a failure of
    pg_stat_statements is tolerated. *)
Definition commandOf : Type := option string * list string.

Definition tolerated (stdin : option string) (out : ExecOutput) : Prop :=
  out_Err out = None \/ stdin = Some statStatementsSQL \/ stdin = Some (dropSQL "pg_stat_statements").

Fixpoint script {A} (p : program A) : list commandOf -> (A -> Prop) -> Prop :=
  match p with
  | Ret a => fun l Q => l = [] /\ Q a
  | Call o k => fun l Q =>
      match o as o return (resp o -> list commandOf -> Prop) -> Prop with
      | Exec _ _ stdin command => fun go =>
          exists l', l = (stdin, command) :: l' /\ forall out, tolerated stdin out -> go out l'
      | _ => fun go => forall r, go r l
      end (fun r l => script (k r) l Q)
  end.

Definition commandOfEvent (e : event resp) : option commandOf :=
  match e with Ev (Exec _ _ stdin command) _ => Some (stdin, command) | _ => None end.

(** The commands of a history, and their text as the hash has it *)
Definition commands (h : history) : list commandOf := omap commandOfEvent h.
Definition render (l : list commandOf) : string := Join (map (fun c => printed c.2 c.1) l) "".

Definition tolerated_event (e : event resp) : Prop :=
  match e with
  | Ev o r => match o as o return resp o -> Prop with Exec _ _ stdin _ => fun out => tolerated stdin out | _ => fun _ => True end r
  end.

Lemma script_conseq {A} (p : program A) l (Q Q' : A -> Prop) : script p l Q -> (forall a, Q a -> Q' a) -> script p l Q'.
Proof.
  intros Hp HQ. revert l Hp. induction p as [a|o k IH]; intros l; cbn [script]; [intros [-> Ha]; split; auto|].
  destruct o; try (intros Hp r; by apply IH, Hp).
  intros (l' & -> & Hp). exists l'. split; [done|]. intros out Hout. by apply IH, Hp.
Qed.

Lemma script_bind {A B} (p : program A) (f : A -> program B) l1 l2 Q :
  script p l1 (fun a => script (f a) l2 Q) -> script (bind p f) (l1 ++ l2) Q.
Proof.
  revert l1. induction p as [a|o k IH]; intros l1; cbn [script bind]; [by intros [-> Ha]|].
  destruct o; try (intros Hp r; by apply IH, Hp).
  intros (l' & -> & Hp). exists (l' ++ l2). split; [done|]. intros out Hout. by apply IH, Hp.
Qed.

Lemma script_last {A B} (p : program A) (f : A -> program B) l Q :
  script p l (fun a => script (f a) [] Q) -> script (bind p f) l Q.
Proof. intros Hp. rewrite <- (app_nil_r l). by apply script_bind. Qed.

(** The run that hashes ends in a result of the script, and the text is that
    of its commands, none of which is run. *)
Lemma render_cons c l : render (c :: l) = printed c.2 c.1 +:+ render l.
Proof.
  unfold render. cbn [map]. destruct l as [|d l]; cbn [map Join].
  - by rewrite app_nil_r_str.
  - by rewrite app_nil_l_str.
Qed.

Definition no_exec (h : history) (o : op) : Prop := match o with Exec _ _ _ _ => False | _ => True end.

Lemma hashRun_wps {A} (p : program A) l Q : script p l Q -> forall h text,
  wps no_exec h (hashRun text p) (fun h' r =>
    Q r.1 /\ r.2 = text +:+ render l /\ commands h' = commands h).
Proof.
  revert l. induction p as [a|o k IH]; intros l Hp h text; cbn [script hashRun] in *.
  - destruct Hp as [-> Ha]. cbn. by rewrite app_nil_r_str.
  - assert (Hgo : forall (r : resp o) (Hr : script (k r) l Q) e, commandOfEvent e = None ->
      wps no_exec (h ++ [e]) (hashRun text (k r)) (fun h' r => Q r.1 /\ r.2 = text +:+ render l /\ commands h' = commands h)).
    { intros r Hr e He. eapply wps_conseq; [by apply IH|]. intros h' a (Ha & Ht & Hc). split_and!; [done|done|].
      rewrite Hc. unfold commands. rewrite omap_app. cbn. by rewrite He, app_nil_r. }
    destruct o; try (split; [done|]; intros r; by apply Hgo).
    destruct Hp as (l' & -> & Hp). eapply wps_conseq; [apply IH, Hp; by left|]. intros h' a (Ha & Ht & Hc).
    split_and!; [done| |done]. rewrite Ht, render_cons. cbn [fst snd]. by rewrite app_assoc_str.
Qed.

#[local] Instance tolerated_event_dec e : Decision (tolerated_event e).
Proof. destruct e as [o r]. destruct o; cbn; unfold tolerated; apply _. Defined.

(** The real run runs those commands too, when they succeed. *)
Lemma script_wps {A} (p : program A) l Q : script p l Q -> forall h,
  wps anything h p (fun h' a => exists t, h' = h ++ t /\ (Forall tolerated_event t -> commands t = l /\ Q a)).
Proof.
  revert l. induction p as [a|o k IH]; intros l Hp h; cbn [script] in *.
  - destruct Hp as [-> Ha]. exists []. by rewrite app_nil_r.
  - assert (Hgo : forall (r : resp o) l', (tolerated_event (Ev o r) -> script (k r) l' Q) ->
      (forall t, commands t = l' -> commands (Ev o r :: t) = l) ->
      wps anything (h ++ [Ev o r]) (k r) (fun h' a => exists t, h' = h ++ t /\ (Forall tolerated_event t -> commands t = l /\ Q a))).
    { intros r l' Hr Hl. destruct (decide (tolerated_event (Ev o r))) as [Ht|Ht].
      - eapply wps_conseq; [by apply (IH r l'), Hr|]. intros h' a (t & -> & Hx). exists (Ev o r :: t).
        rewrite <- app_assoc. split; [done|]. intros [_ Hall]%Forall_cons. destruct (Hx Hall). split; [by apply Hl|done].
      - eapply wps_conseq; [apply wps_prefix, anything_wps|]. intros h' a [[t ->] _]. exists (Ev o r :: t).
        rewrite <- app_assoc. split; [done|]. by intros [? _]%Forall_cons. }
    destruct o; try (split; [done|]; intros r; apply (Hgo r l); [by intros|by intros t <-]).
    destruct Hp as (l' & -> & Hp). split; [done|]. intros out. apply (Hgo out l'); [by apply Hp|by intros t <-].
Qed.

(** ** The two runs of [create] *)

(** A program whose commands are known, whatever it returns *)
Definition runs {A} (p : program A) (l : list commandOf) : Prop := script p l (fun _ => True).

(** It only talks to one container. *)
Definition sends_to (at_ : key) (o : op) : Prop :=
  match o with
  | Exec a container _ _ => a = at_ /\ container = ContainerDatabase
  | RangeOrder _ => True
  | Event type_ _ => type_ = "Warning"
  | _ => False
  end.
Definition only_sends {A} (at_ : key) (p : program A) : Prop :=
  forall h, wps (fun _ o => sends_to at_ o) h p (fun _ _ => True).

(** [h'] is [h] and calls that are tolerated if [P]. *)
Definition ensures (h h' : history) (P : Prop) : Prop := exists t, h' = h ++ t /\ (P -> Forall tolerated_event t).
Definition tells {A} (P : A -> Prop) (p : program A) : Prop := forall h, wps anything h p (fun h' a => ensures h h' (P a)).

Section Programs.
Context {A B : Type}.

Lemma runs_bind (p : program A) (f : A -> program B) l1 l2 : runs p l1 -> (forall a, runs (f a) l2) -> runs (bind p f) (l1 ++ l2).
Proof. intros Hp Hf. apply script_bind. eapply script_conseq; [exact Hp|]. intros a _. apply Hf. Qed.

Lemma only_sends_bind at_ (p : program A) (f : A -> program B) :
  only_sends at_ p -> (forall a, only_sends at_ (f a)) -> only_sends at_ (bind p f).
Proof. intros Hp Hf h. apply wps_bind. eapply wps_conseq; [apply Hp|]. intros h' a _. apply Hf. Qed.

Lemma only_sends_ret at_ (a : A) : only_sends at_ (Ret a).
Proof. done. Qed.

Lemma ensures_refl h P : ensures h h P.
Proof. exists []. by rewrite app_nil_r. Qed.

Lemma ensures_trans h1 h2 h3 (P Q R : Prop) : ensures h1 h2 P -> ensures h2 h3 Q -> (R -> P /\ Q) -> ensures h1 h3 R.
Proof.
  intros (t1 & -> & H1) (t2 & -> & H2) HR. exists (t1 ++ t2). rewrite <- app_assoc. split; [done|].
  intros [HP HQ]%HR. apply Forall_app. auto.
Qed.

Lemma ensures_snoc h e (P : Prop) : (P -> tolerated_event e) -> ensures h (h ++ [e]) P.
Proof. intros He. exists [e]. split; [done|]. intros HP. constructor; [by apply He|constructor]. Qed.

Lemma ensures_weaken h h' (P Q : Prop) : ensures h h' P -> (Q -> P) -> ensures h h' Q.
Proof. intros (t & -> & Ht) HQ. exists t. auto. Qed.

(** One more step of a program, and what has held so far *)
Lemma tells_step h0 h (S : Prop) (P : A -> Prop) (p : program A) (f : A -> program B) Q :
  ensures h0 h S -> tells P p -> (forall h' a, ensures h0 h' (S /\ P a) -> wps anything h' (f a) Q) ->
  wps anything h (bind p f) Q.
Proof.
  intros HS Hp Hf. apply wps_bind. eapply wps_conseq; [apply Hp|]. intros h' a Ha. apply Hf.
  by eapply ensures_trans; [exact HS|exact Ha|].
Qed.
End Programs.

Section Steps.
Context (at_ : key).
Abbreviation exec := (podExecutor at_ ContainerDatabase).

Definition psqlCommand (sql : string) (vars : gmap string string) (args : list string) : commandOf :=
  (Some sql, ["psql"; "-Xw"; "--file=-"] ++ sortStrings (setArgs vars (keys vars) ++ args)).

Definition allDatabasesCommand (sql : string) (vars : gmap string string) : commandOf :=
  (Some sql, ["bash"; "-ceu"; "--"; databasesScript; "-";
    "SET search_path = '';" +:+ "SELECT datname FROM pg_catalog.pg_database" +:+
    " WHERE datallowconn AND datname NOT IN ('template0')"] ++ sortStrings (setArgs vars (keys vars))).

Lemma ExecPsql_script sql vars args (Q : ExecOutput -> Prop) :
  (forall out, tolerated (Some sql) out -> Q out) -> script (ExecPsql exec sql vars args) [psqlCommand sql vars args] Q.
Proof.
  intros HQ [order Ho]. cbn. exists []. split; [|by split; [|apply HQ]]. unfold psqlCommand. do 3 f_equal.
  apply (f_equal (fun l => ["psql"; "-Xw"; "--file=-"] ++ l)), sortStrings_Permutation. unfold setArgs. by rewrite Ho.
Qed.

Lemma ExecInAllDatabases_script sql vars (Q : ExecOutput -> Prop) :
  (forall out, tolerated (Some sql) out -> Q out) -> script (ExecInAllDatabases exec sql vars) [allDatabasesCommand sql vars] Q.
Proof.
  intros HQ [order Ho]. cbn. exists []. split; [|by split; [|apply HQ]]. unfold allDatabasesCommand. do 2 f_equal.
  cbn [app]. do 6 f_equal. apply sortStrings_Permutation. unfold setArgs. by rewrite Ho.
Qed.

Lemma ExecPsql_sends sql vars args : only_sends at_ (ExecPsql exec sql vars args).
Proof. intros h. split; [done|]. intros order. by split. Qed.

Lemma ExecInAllDatabases_sends sql vars : only_sends at_ (ExecInAllDatabases exec sql vars).
Proof. intros h. split; [done|]. intros order. by split. Qed.

Lemma ExecPsql_tells sql vars args : tells (fun out => tolerated (Some sql) out) (ExecPsql exec sql vars args).
Proof.
  intros h. split; [done|]. intros order. split; [done|]. intros out. cbn [wps]. rewrite <- app_assoc. eexists. split; [done|].
  intros Ht. constructor; [done|]. constructor; [done|constructor].
Qed.

Lemma ExecInAllDatabases_tells sql vars : tells (fun out => tolerated (Some sql) out) (ExecInAllDatabases exec sql vars).
Proof.
  intros h. split; [done|]. intros order. split; [done|]. intros out. cbn [wps]. rewrite <- app_assoc. eexists. split; [done|].
  intros Ht. constructor; [done|]. constructor; [done|constructor].
Qed.
End Steps.

Lemma no_commands_tolerated t : commands t = [] -> Forall tolerated_event t.
Proof.
  unfold commands. induction t as [|[o r] t IH]; [constructor|]. intros Ht. constructor; [by destruct o|].
  apply IH. by destruct o.
Qed.

(** *** Extensions, and all of it *)
Section CreateRuns.
Context (at_ : key).
Abbreviation exec := (podExecutor at_ ContainerDatabase).
Definition is_None {A} (x : option A) : Prop := x = None.

Lemma wps_Ret {A} G h (a : A) (Q : history -> A -> Prop) : Q h a -> wps G h (Ret a) Q.
Proof. done. Qed.

Lemma out_Err_runs (p : program ExecOutput) l : script p l (fun _ => True) -> runs (let! out := p in Ret (out_Err out)) l.
Proof. intros Hp. apply script_last. by eapply script_conseq. Qed.

Lemma out_Err_tells sql (p : program ExecOutput) : tells (fun out => tolerated (Some sql) out) p ->
  tells is_None (let! out := p in Ret (out_Err out)).
Proof.
  intros Hp h. apply wps_bind. eapply wps_conseq; [apply Hp|]. intros h' out He. apply wps_Ret.
  eapply ensures_weaken; [exact He|]. by left.
Qed.

Lemma out_Err_sends (p : program ExecOutput) : only_sends at_ p -> only_sends at_ (let! out := p in Ret (out_Err out)).
Proof. intros Hp. apply only_sends_bind; [done|]. intros out. apply only_sends_ret. Qed.

Lemma inAllDatabases_runs sql : runs (inAllDatabases exec sql) [allDatabasesCommand sql onErrorStop].
Proof. by apply out_Err_runs, ExecInAllDatabases_script. Qed.
Lemma inAllDatabases_tells sql : tells is_None (inAllDatabases exec sql).
Proof. apply (out_Err_tells sql), ExecInAllDatabases_tells. Qed.
Lemma inAllDatabases_sends sql : only_sends at_ (inAllDatabases exec sql).
Proof. apply out_Err_sends, ExecInAllDatabases_sends. Qed.

Lemma inPostgres_runs sql : runs (inPostgres exec sql) [psqlCommand sql onErrorStop ["--dbname=postgres"]].
Proof. by apply out_Err_runs, ExecPsql_script. Qed.
Lemma inPostgres_tells sql : tells is_None (inPostgres exec sql).
Proof. apply (out_Err_tells sql), ExecPsql_tells. Qed.
Lemma inPostgres_sends sql : only_sends at_ (inPostgres exec sql).
Proof. apply out_Err_sends, ExecPsql_sends. Qed.

(** pg_stat_statements is tolerated in any case. *)
Lemma statStatements_tells sql : sql = statStatementsSQL \/ sql = dropSQL "pg_stat_statements" ->
  tells (fun _ => True) (inAllDatabases exec sql).
Proof.
  intros Hsql h. apply wps_bind. eapply wps_conseq; [apply (ExecInAllDatabases_tells _ sql)|]. intros h' out He. apply wps_Ret.
  eapply ensures_weaken; [exact He|]. intros _. right. destruct Hsql as [-> | ->]; auto.
Qed.

Section Toggle.
Context (enabled : bool) (enable disable : program (option error)) (e1 e2 : string).

Lemma toggle_runs l1 l2 : runs enable l1 -> runs disable l2 -> runs (toggle enabled enable disable e1 e2) (if enabled then l1 else l2).
Proof.
  intros H1 H2. unfold toggle. apply script_last. eapply script_conseq; [destruct enabled; [exact H1|exact H2]|].
  intros [e|] _; [|by split]. by intros r.
Qed.

Lemma toggle_tells (P : option error -> Prop) (R : bool -> Prop) : (forall e, R (bool_decide (e = None)) -> P e) ->
  tells P enable -> tells P disable -> tells R (toggle enabled enable disable e1 e2).
Proof.
  intros HPR H1 H2 h. unfold toggle. apply wps_bind. eapply wps_conseq; [destruct enabled; [apply H1|apply H2]|].
  intros h' [e|] He; cbn [wps].
  - split; [done|]. intros r. cbn [wps]. eapply (ensures_trans h h'); [exact He|by apply (ensures_snoc h' _ True)|].
    intros HR. split; [|done]. apply HPR. by rewrite bool_decide_eq_false_2.
  - eapply ensures_weaken; [exact He|]. intros HR. apply HPR. by rewrite bool_decide_eq_true_2.
Qed.

Lemma toggle_tells_ok : tells is_None enable -> tells is_None disable -> tells (fun ok => ok = true) (toggle enabled enable disable e1 e2).
Proof. apply toggle_tells. intros e He. by apply bool_decide_eq_true in He. Qed.

Lemma toggle_sends : only_sends at_ enable -> only_sends at_ disable -> only_sends at_ (toggle enabled enable disable e1 e2).
Proof.
  intros H1 H2. unfold toggle. apply only_sends_bind; [by destruct enabled|]. intros [e|] h; [|done]. by split.
Qed.
End Toggle.

Section ToggleCustom.
Context (enabled : bool) (custom : list string) (name : string) (enable disable : program (option error)) (e1 e2 : string).

Lemma toggleCustom_runs l1 l2 : runs enable l1 -> runs disable l2 ->
  runs (toggleCustom enabled custom name enable disable e1 e2)
    (if negb enabled && bool_decide (name ∈ custom) then [] else if enabled then l1 else l2).
Proof. intros H1 H2. unfold toggleCustom. destruct (negb enabled && _); [done|by apply toggle_runs]. Qed.

Lemma toggleCustom_tells : tells is_None enable -> tells is_None disable ->
  tells (fun ok => ok = true) (toggleCustom enabled custom name enable disable e1 e2).
Proof. intros H1 H2. unfold toggleCustom. destruct (negb enabled && _); [intros h; apply ensures_refl|by apply toggle_tells_ok]. Qed.

Lemma toggleCustom_sends : only_sends at_ enable -> only_sends at_ disable ->
  only_sends at_ (toggleCustom enabled custom name enable disable e1 e2).
Proof. intros H1 H2. unfold toggleCustom. destruct (negb enabled && _); [done|by apply toggle_sends]. Qed.
End ToggleCustom.

Context `{GoVersion} (cluster : CrunchyCluster) (custom databases : list string).

Lemma ReconcileExtension_runs : exists l, runs (ReconcileExtension exec cluster) l.
Proof. unfold ReconcileExtension. destruct (negb _); eexists; apply inAllDatabases_runs. Qed.
Lemma ReconcileExtension_tells : tells is_None (ReconcileExtension exec cluster).
Proof. unfold ReconcileExtension. destruct (negb _); apply inAllDatabases_tells. Qed.
Lemma ReconcileExtension_sends : only_sends at_ (ReconcileExtension exec cluster).
Proof. unfold ReconcileExtension. destruct (negb _); apply inAllDatabases_sends. Qed.

Definition postgis (exec : Executor) : program bool :=
  if bool_decide (cc_PostGISVersion cluster = "") then Ret true
  else toggle true (postgis_Enable exec) (Ret None) "PostGISDisabled" "".

Lemma postgis_runs : exists l, runs (postgis exec) l.
Proof.
  unfold postgis. case_bool_decide; [by exists []|]. eexists. apply (toggle_runs true _ _ _ _ _ []); [apply inAllDatabases_runs|done].
Qed.
Lemma postgis_tells : tells (fun ok => ok = true) (postgis exec).
Proof.
  unfold postgis. case_bool_decide; [intros h; apply ensures_refl|].
  apply toggle_tells_ok; [apply inAllDatabases_tells|intros h; apply ensures_refl].
Qed.
Lemma postgis_sends : only_sends at_ (postgis exec).
Proof. unfold postgis. case_bool_decide; [done|]. apply toggle_sends; [apply inAllDatabases_sends|done]. Qed.

(** The commands of the extensions are known, and so is the container. *)
Lemma createExtensions_runs : exists l, runs (createExtensions cluster custom exec) l.
Proof.
  destruct ReconcileExtension_runs as [l1 H1], postgis_runs as [l2 H2]. eexists. unfold createExtensions.
  repeat lazymatch goal with
  | |- runs (bind (toggle _ _ _ _ _) _) _ => apply runs_bind; [apply toggle_runs; apply inAllDatabases_runs|intros]
  | |- runs (bind (toggleCustom _ _ _ (setuser_Enable _) _ _ _) _) _ => apply runs_bind; [apply toggleCustom_runs; apply inAllDatabases_runs|intros]
  | |- runs (bind (toggleCustom _ _ _ _ _ _ _) _) _ => apply runs_bind; [apply toggleCustom_runs; apply inPostgres_runs|intros]
  end.
  apply runs_bind; [exact H1|]. intros e. apply runs_bind; [exact H2|]. intros ok. by split.
Qed.

Lemma createExtensions_sends : only_sends at_ (createExtensions cluster custom exec).
Proof.
  unfold createExtensions.
  repeat lazymatch goal with
  | |- only_sends _ (bind (toggle _ _ _ _ _) _) => apply only_sends_bind; [apply toggle_sends; apply inAllDatabases_sends|intros]
  | |- only_sends _ (bind (toggleCustom _ _ _ (setuser_Enable _) _ _ _) _) =>
      apply only_sends_bind; [apply toggleCustom_sends; apply inAllDatabases_sends|intros]
  | |- only_sends _ (bind (toggleCustom _ _ _ _ _ _ _) _) => apply only_sends_bind; [apply toggleCustom_sends; apply inPostgres_sends|intros]
  end.
  apply only_sends_bind; [apply ReconcileExtension_sends|]. intros e. apply only_sends_bind; [apply postgis_sends|]. intros ok.
  apply only_sends_ret.
Qed.

(** Everything went well, pg_stat_statements apart. *)
Definition extensionsOK (st : created) : Prop := allExtensionsOK st None = true.

Lemma createExtensions_tells : tells extensionsOK (createExtensions cluster custom exec).
Proof.
  intros h. unfold createExtensions.
  eapply (tells_step h h True); [apply ensures_refl|apply toggle_tells_ok; apply inAllDatabases_tells|]. intros h1 ok1 E1.
  eapply tells_step; [exact E1|apply toggle_tells_ok; apply inAllDatabases_tells|]. intros h2 ok2 E2.
  eapply tells_step; [exact E2|apply (toggle_tells _ _ _ _ _ (fun _ => True) (fun _ => True)); [done|..];
    apply statStatements_tells; [by left|by right]|]. intros h3 ok3 E3.
  eapply tells_step; [exact E3|apply toggle_tells_ok; apply inAllDatabases_tells|]. intros h4 ok4 E4.
  eapply tells_step; [exact E4|apply toggle_tells_ok; apply inAllDatabases_tells|]. intros h5 ok5 E5.
  eapply tells_step; [exact E5|apply toggleCustom_tells; apply inPostgres_tells|]. intros h6 ok6 E6.
  eapply tells_step; [exact E6|apply toggleCustom_tells; apply inAllDatabases_tells|]. intros h7 ok7 E7.
  eapply tells_step; [exact E7|apply ReconcileExtension_tells|]. intros h8 e8 E8.
  eapply tells_step; [exact E8|apply postgis_tells|]. intros h9 ok9 E9. apply wps_Ret.
  eapply ensures_weaken; [exact E9|]. unfold extensionsOK, allExtensionsOK, is_None. cbn. rewrite !andb_true_iff, bool_decide_eq_true. tauto.
Qed.

(** The same for all of [create]. *)
Lemma create_runs : exists l, forall st, runs (create cluster custom databases exec st) l.
Proof.
  unfold create. destruct (NewVersion _); [|by exists []]. destruct createExtensions_runs as [l1 H1].
  eexists. intros st. apply script_bind. apply ExecInAllDatabases_script. intros out [Hout|[Hout|Hout]]; [|done..].
  rewrite Hout. apply runs_bind; [exact H1|]. intros st'. eapply (runs_bind _ _ [_] []).
  - by apply out_Err_runs, ExecPsql_script.
  - intros err. by split.
Qed.

Lemma create_sends st : only_sends at_ (create cluster custom databases exec st).
Proof.
  unfold create. destruct (NewVersion _); [|done]. apply only_sends_bind; [apply ExecInAllDatabases_sends|]. intros out.
  destruct (out_Err out); [done|]. apply only_sends_bind; [apply createExtensions_sends|]. intros st'.
  apply only_sends_bind; [apply out_Err_sends, ExecPsql_sends|]. intros err. apply only_sends_ret.
Qed.

Lemma create_tells st : tells (fun r => allExtensionsOK r.1 r.2 = true) (create cluster custom databases exec st).
Proof.
  intros h. unfold create. destruct (NewVersion _); [|apply ensures_refl].
  eapply (tells_step h h True); [apply ensures_refl|apply ExecInAllDatabases_tells|]. intros h1 out E1.
  destruct (out_Err out) as [e|] eqn:Eo; [by apply wps_Ret; eapply ensures_weaken; [exact E1|]; unfold allExtensionsOK; cbn|].
  eapply tells_step; [exact E1|apply createExtensions_tells|]. intros h2 st' E2.
  eapply tells_step; [exact E2|apply (out_Err_tells (createDatabasesSQL databases)), ExecPsql_tells|]. intros h3 err E3.
  apply wps_Ret. eapply ensures_weaken; [exact E3|]. cbn. intros Ha.
  assert (Herr : err = None) by (unfold allExtensionsOK in Ha; rewrite !andb_true_iff, bool_decide_eq_true in Ha; tauto).
  subst err. split_and!; [done|by left|exact Ha|done].
Qed.
End CreateRuns.

(** ** The calls of the reconciler *)
Lemma sends_anywhere {A} (G : op -> Prop) (p : program A) h h' :
  wps (fun _ o => G o) h p (fun _ _ => True) -> wps (fun _ o => G o) h' p (fun _ _ => True).
Proof. revert h h'. induction p as [a|o k IH]; intros h h'; cbn [wps]; [done|]. intros [Ho Hk]. split; [done|]. intros r. by eapply IH. Qed.

Lemma hashRun_sends {A} at_ (p : program A) text : only_sends at_ p -> only_sends at_ (hashRun text p).
Proof.
  intros Hp h. specialize (Hp h). revert h text Hp. induction p as [a|o k IH]; intros h text; cbn [hashRun wps]; [done|].
  intros [Ho Hk]. destruct o; try (split; [exact Ho|intros r; apply IH; by eapply sends_anywhere]).
  apply IH. eapply sends_anywhere, Hk.
Qed.

Section DatabaseCalls.
Context `{GoVersion} `{MetaConditions} `{SafeEncode}.
Context (statusEqual : CrunchyCluster -> CrunchyCluster -> bool).
Context (before cluster : CrunchyCluster) (instances : observedInstances).

(** All commands of the history succeeded, but perhaps those about
    pg_stat_statements, and the revision is their hash. *)
Definition applied (h : history) (revision : string) : Prop :=
  revision = SafeHash32 (render (commands h)) /\ Forall tolerated_event h.

Definition database_status (h : history) (c : CrunchyCluster) : Prop :=
  cc_DatabaseRevision c = cc_DatabaseRevision cluster \/ applied h (cc_DatabaseRevision c).

Definition database_call (h : history) (o : op) : Prop :=
  match o with
  | Now | RangeOrder _ => True
  | Event type_ _ => type_ = "Warning"
  | Get KPGCluster at_ => at_ = (cc_Namespace cluster, cc_Name cluster)
  | Exec at_ container _ _ => container = ContainerDatabase /\ is_writable instances at_ /\
      Forall (fun i => known_true (PodMatchesPodTemplate i) = true) (forCluster instances)
  | StatusPatch KCrunchy b c => b = before /\ database_status h c
  | _ => False
  end.

Definition database_result (h : history) (c : CrunchyCluster) : Prop :=
  database_status h c \/ exists b c', Ev (StatusPatch KCrunchy b c' : op) (Ok c : result CrunchyCluster) ∈ h.

Lemma applied_snoc h e revision : commandOfEvent e = None -> tolerated_event e -> applied h revision -> applied (h ++ [e]) revision.
Proof.
  intros He Ht [-> Hh]. split; [|by apply Forall_snoc]. unfold commands. rewrite omap_app. cbn. by rewrite He, app_nil_r.
Qed.

Lemma database_status_snoc h e c : commandOfEvent e = None -> tolerated_event e -> database_status h c -> database_status (h ++ [e]) c.
Proof. intros He Ht [Hs|Hs]; [by left|right]. by apply applied_snoc. Qed.

Lemma patchDatabases_wps h c (Q : history -> CrunchyCluster * option error -> Prop) :
  database_status h c -> (forall h' r, database_result h' r.1 -> Q h' r) ->
  wps database_call h (patchStatus statusEqual before c) Q.
Proof.
  intros Hs HQ. unfold patchStatus. destruct (statusEqual before c); cbn [wps]; [apply HQ; by left|].
  split; [by split|]. intros [c'|e]; cbn [wps]; apply HQ.
  - right. exists before, c. apply elem_of_snoc.
  - left. by apply database_status_snoc.
Qed.

Lemma ReportExtension_wps h c err (Q : history -> CrunchyCluster -> Prop) :
  (forall e f, commandOfEvent e = None -> tolerated_event e -> Q (h ++ [e]) (onClusterConditions f c)) ->
  wps database_call h (ReportExtension c err) Q.
Proof.
  intros HQ. unfold ReportExtension. assert (Hid : c = onClusterConditions id c) by by destruct c as [? []].
  destruct err as [e|]; [|destruct (pgtdeEnabled c)]; cbn [wps bind call]; (split; [done|]); intros r; cbn [wps]; [|by apply HQ..].
  rewrite Hid at 2. by apply HQ.
Qed.

Lemma recordDatabases_wps h revision st err (Q : history -> CrunchyCluster * option error -> Prop) :
  (allExtensionsOK st err = true -> applied h revision) ->
  (forall h' r, database_result h' r.1 -> Q h' r) ->
  wps database_call h (recordDatabases statusEqual before cluster revision st err) Q.
Proof.
  intros Hok HQ. unfold recordDatabases.
  assert (Hnext : forall h' f, (allExtensionsOK st err = true -> applied h' revision) ->
    wps database_call h' (let c := if allExtensionsOK st err then onClusterConditions f cluster <| cc_DatabaseRevision := revision |>
                                   else onClusterConditions f cluster in
      if pgTdeRan st || allExtensionsOK st err then let! r := patchStatus statusEqual before c in Ret (r.1, err) else Ret (c, err)) Q).
  { intros h' f Hh'. cbv zeta.
    assert (Hs : database_status h' (if allExtensionsOK st err then onClusterConditions f cluster <| cc_DatabaseRevision := revision |>
      else onClusterConditions f cluster)) by (destruct (allExtensionsOK st err); [right; by apply Hh'|by left]).
    destruct (pgTdeRan st || _); [|apply wps_Ret, HQ; by left]. apply wps_bind. apply patchDatabases_wps; [done|].
    intros h2 r Hr. apply wps_Ret. by apply HQ. }
  apply wps_bind. destruct (pgTdeRan st) eqn:Er.
  - apply ReportExtension_wps. intros e f He Ht. apply Hnext. intros Ha. by apply applied_snoc, Hok.
  - apply wps_Ret. cbv zeta. specialize (Hnext h id Hok). cbv zeta in Hnext.
    assert (Hid : onClusterConditions id cluster = cluster) by by destruct cluster as [? []]. by rewrite Hid in Hnext.
Qed.

Section Applied.
Context (at_ : key) (Hat : is_writable instances at_).
Context (Hmatch : Forall (fun i => known_true (PodMatchesPodTemplate i) = true) (forCluster instances)).

Lemma sends_call h o : sends_to at_ o -> database_call h o.
Proof. destruct o; cbn; try done. by intros [-> ->]. Qed.

Lemma applyDatabases_wps h custom databases (Q : history -> CrunchyCluster * option error -> Prop) :
  commands h = [] -> Forall tolerated_event h ->
  (forall h' r, database_result h' r.1 -> Q h' r) ->
  wps database_call h (applyDatabases statusEqual before cluster custom databases (podExecutor at_ ContainerDatabase)) Q.
Proof.
  intros Hc Hh HQ. unfold applyDatabases. apply wps_bind.
  destruct (create_runs at_ cluster custom databases) as [l Hl].
  pose proof (wps_prefix _ _ _ _ (wps_and _ _ _ _ _ _ (hashRun_wps _ _ _ (Hl noneCreated) h "")
    (hashRun_sends at_ _ "" (create_sends at_ cluster custom databases noneCreated) h))) as Hdry.
  eapply wps_mono; [| |exact Hdry].
  { intros h' o [_ Ho]. by apply sends_call. }
  intros h1 [[st err] text] [[t1 ->] [(_ & Ht & Hc1) _]]. cbn [fst snd] in Ht. rewrite app_nil_l_str in Ht. subst text.
  destruct err as [e|]; [apply recordDatabases_wps; [by unfold allExtensionsOK|done]|].
  cbv zeta. case_bool_decide; [apply wps_Ret, HQ; left; by left|]. apply wps_bind.
  set (st' := mkCreated _ _ _ _ _ _ _ _ _ _ _). clearbody st'.
  assert (Ht1 : Forall tolerated_event t1).
  { apply no_commands_tolerated. unfold commands in *. rewrite omap_app, Hc in Hc1. exact Hc1. }
  pose proof (wps_and _ _ _ _ _ _ (create_sends at_ cluster custom databases st' (h ++ t1))
    (wps_and _ _ _ _ _ _ (script_wps _ _ _ (Hl st') (h ++ t1)) (create_tells at_ cluster custom databases st' (h ++ t1)))) as Hreal.
  eapply wps_mono; [| |exact Hreal].
  { intros h' o [Ho _]. by apply sends_call. }
  intros h2 [st2 err] [_ [(t & -> & Hrun) (t' & E & Hok)]]. apply app_inv_head in E as <-. cbn [fst snd] in *.
  apply recordDatabases_wps; [|done]. intros Ha. specialize (Hok Ha). destruct (Hrun Hok) as [Hl2 _]. split.
  - unfold commands in *. by rewrite omap_app, Hc1, Hc, Hl2.
  - by rewrite !Forall_app.
Qed.

End Applied.

(** C32: which SQL is recorded as applied.  Commands run only in the container
    of a writable instance when every instance has its template.  The recorded
    revision changes only to the hash of exactly the commands that were run,
    with their input and in their order, when all of them succeeded; a failure
    of pg_stat_statements, though, is recorded as a success. *)
Theorem recorded_sql_was_applied :
  wps database_call [] (reconcilePostgresDatabases statusEqual before cluster instances)
    (fun h r => database_result h r.1).
Proof.
  assert (Hsame : forall h, database_result h cluster) by (intros h; left; by left).
  unfold reconcilePostgresDatabases. destruct (existsb _ _) eqn:Em; [apply Hsame|].
  apply existsb_negb_Forall in Em. destruct (writablePod _ _) as [[pod i]|] eqn:Ew; [|apply Hsame].
  assert (Hw : is_writable instances (objectKey (p_Meta pod))) by by exists pod, i.
  assert (Hnext : forall h databases, commands h = [] -> Forall tolerated_event h ->
    wps database_call h (let! customExtensions := customExtensionNames cluster in
      match customExtensions with
      | Err e => Ret (cluster, Some e)
      | Ok customExtensions => applyDatabases statusEqual before cluster customExtensions (sets_List databases)
          (podExecutor (objectKey (p_Meta pod)) ContainerDatabase)
      end) (fun h r => database_result h r.1)).
  { intros h databases Hc Hh. apply wps_bind. split; [done|]. intros r. cbn [wps].
    match goal with |- wps _ ?h1 _ _ =>
      assert (Hc1 : commands h1 = []) by (unfold commands in *; by rewrite omap_app, Hc);
      assert (Hh1 : Forall tolerated_event h1) by (by apply Forall_snoc) end.
    cbn [bind wps]. destruct r as [c|e]; [|destruct (IsNotFound e); [|apply Hsame]]; apply (applyDatabases_wps _ Hw Em); done. }
  apply wps_bind. unfold specifiedDatabases.
  destruct (cc_Users cluster) as [users|]; [by apply Hnext|]. destruct (63 <? _); [|by apply Hnext].
  split; [done|]. intros r. cbn [wps]. apply Hnext; [done|]. by apply Forall_snoc.
Qed.
End DatabaseCalls.

(** ** The rows, as psql and PostgreSQL read them *)




































(** ** SQL of the user *)
Section InitSQL.
Context (cluster : CrunchyCluster) (instances : observedInstances).

Definition init_call (h : history) (o : op) : Prop :=
  match o with
  | RangeOrder _ => True
  | Get KConfigMap at_ => exists ref, cc_DatabaseInitSQL cluster = Some ref /\ cc_StatusDatabaseInitSQL cluster = None /\
      at_ = (cc_Namespace cluster, ref.1)
  | Exec at_ container stdin _ => container = ContainerDatabase /\ is_writable instances at_ /\
      exists ref cm data, cc_DatabaseInitSQL cluster = Some ref /\ cc_StatusDatabaseInitSQL cluster = None /\
        read h KConfigMap (cc_Namespace cluster, ref.1) cm /\ d_Data cm !! ref.2 = Some data /\ stdin = Some data
  | _ => False
  end.

(** SQL of the user runs only while none is recorded, and is that of the
    ConfigMap; its name is recorded exactly when the SQL has succeeded, and
    forgotten with the specification. *)
Theorem init_sql_calls :
  wps init_call [] (reconcileDatabaseInitSQL cluster instances) (fun h r =>
    match cc_DatabaseInitSQL cluster, cc_StatusDatabaseInitSQL cluster with
    | None, _ => cc_StatusDatabaseInitSQL r.1 = None
    | Some _, Some name => cc_StatusDatabaseInitSQL r.1 = Some name
    | Some ref, None =>
        (exists at_ stdin command out, ran h at_ stdin command out /\ out_Err out = None /\
           cc_StatusDatabaseInitSQL r.1 = Some ref.1 /\ r.2 = None) \/
        cc_StatusDatabaseInitSQL r.1 = None
    end).
Proof.
  unfold reconcileDatabaseInitSQL. destruct (cc_DatabaseInitSQL cluster) as [ref|] eqn:Er; [|done].
  destruct (cc_StatusDatabaseInitSQL cluster) as [name|] eqn:Es; [done|]. apply wps_bind. unfold initSQL. apply wps_get_bindr.
  split; [by exists ref|]. intros [cm|e]; cbn [wps]; [|by right]. destruct (d_Data cm !! ref.2) as [data|] eqn:Ed; [|by right].
  destruct (writablePod _ _) as [[pod i]|] eqn:Ew; [|by right]. apply wps_bind. split; [done|]. intros order. split.
  - split_and!; [done|by exists pod, i|]. exists ref, cm, data. split_and!; try done.
    apply elem_of_app. left. apply elem_of_snoc.
  - intros out. cbn [wps]. destruct (out_Err out) as [e|] eqn:Eo; [by right|]. left. eexists _, _, _, out.
    split_and!; [apply elem_of_snoc|done|done|done].
Qed.
End InitSQL.

(** ** Examples *)
Module ExampleDatabases.
#[local] Existing Instance ListConditions.conditions.
#[local] Existing Instance ConcreteEncode.encode.
#[local] Existing Instance DottedVersions.versions.

Definition cluster : CrunchyCluster :=
  ExampleTDE.cluster "" <| cc_Meta ::= fun m => m <| om_Labels := {[ LabelVersion := "2.8.0" ]} |> |>.

(** Everything works but what is asked of pg_stat_statements. *)
Definition answer (o : op) (w : unit) : unit * resp o :=
  match o as o return unit * resp o with
  | Exec _ _ stdin _ =>
      (tt, if bool_decide (stdin = Some (dropSQL "pg_stat_statements"))
           then mkExecOutput "" "" (Some (New "cannot drop")) else mkExecOutput "" "" None)
  | Get _ _ => (tt, Err (ApiError NotFound))
  | o => ExampleTDE.answer o tt
  end.

Definition executed (tr : history) : nat := length (commands tr).

Definition pass (c : CrunchyCluster) : nat * CrunchyCluster * option error :=
  let '(_, tr, r) := run answer (reconcilePostgresDatabases (fun _ _ => false) c c ExampleTDE.instances) tt in
  (executed tr, r.1, r.2).

(** Ten commands run, one of them fails, and the revision is recorded: the
    next pass runs none. *)
Example failed_statistics_are_recorded :
  let '(n1, c1, e1) := pass cluster in
  let '(n2, c2, e2) := pass c1 in
  (n1, e1, bool_decide (cc_DatabaseRevision c1 = "")) = (10, None, false) /\ (n2, e2) = (0, None).
Proof. vm_compute. split; reflexivity. Qed.
End ExampleDatabases.
