(* ===== verification/Users.v ===== *)
(** * The users of PostgreSQL

    [internal/postgres/users.go]: the SQL that creates users, sets their
    options and passwords, and grants them access; and
    [reconcilePostgresUsersInPostgreSQL] of
    [internal/controller/postgrescluster/postgres.go], which hashes that SQL
    and runs it when the hash is a new one. *)
From S2P Require Import Prelude GoStrings Ini Cluster Prog Errors Naming Objects Client Psql ObservedInstances RepoBackups KeyProvider Databases.

(** ** Options of roles

    [pg_query] parses a statement and prints a parsed one again. *)
Class PgQuery := {
  statement : Type;
  roleOption : Type;
  Parse : string -> option (list statement);
  (** [GetStmt().GetAlterRoleStmt().GetOptions()], and a statement with others *)
  GetOptions : statement -> list roleOption;
  SetOptions : list roleOption -> statement -> statement;
  GetDefname : roleOption -> string;
  Deparse : list statement -> string;
  GetOptions_SetOptions l s : GetOptions (SetOptions l s) = l
}.

Definition AlterRolePrefix : string := "ALTER ROLE " +:+ char dquote +:+ "any" +:+ char dquote +:+ " WITH ".

(** The letter s in any case has a third form, the long s. *)
Fixpoint fold_s (s : string) : string :=
  match s with
  | EmptyString => EmptyString
  | String "197" (String "191" s) => String "s" (fold_s s)
  | String c s => String c (fold_s s)
  end.

Section SQL.
Context `{PgQuery}.

Definition isPassword (option : roleOption) : bool := bool_decide (ToLower (fold_s (GetDefname option)) = "password").

Definition sanitizeAlterRoleOptions (options : string) : string :=
  match Parse (AlterRolePrefix +:+ options) with
  | Some [stmt] =>
      let next := List.filter (fun o => negb (isPassword o)) (GetOptions stmt) in
      if bool_decide (length next = 0) then "" else TrimPrefix (Deparse [SetOptions next stmt]) AlterRolePrefix
  | _ => ""
  end.

(** ** The SQL *)

(** The encoder of the rows does not escape HTML; nil is null. *)
Definition json_databases (databases : option (list string)) : string :=
  match databases with Some l => json_list l | None => "null" end.

(** [json.HTMLEscape]: no other character of JSON has these bytes. *)
Fixpoint HTMLEscape (s : string) : string :=
  match s with
  | EmptyString => EmptyString
  | String c s =>
      (if decide (c = "<"%char) then String backslash "u003c"
       else if decide (c = ">"%char) then String backslash "u003e"
       else if decide (c = "&"%char) then String backslash "u0026" else char c) +:+ HTMLEscape s
  end.

(** [json.Marshal], which escapes HTML *)
Definition marshal_databases (databases : option (list string)) : string := HTMLEscape (json_databases databases).

Definition userRow (verifiers : gmap string string) (spec : PostgresUserSpec) : string :=
  let postgres := bool_decide (u_Name spec = "postgres") in
  json_object
    [("databases", json_databases (if postgres then Some ["postgres"] else u_Databases spec));
     ("options", json_text (if postgres then "LOGIN SUPERUSER" else sanitizeAlterRoleOptions (u_Options spec)));
     ("username", json_text (u_Name spec));
     ("verifier", json_text (default "" (verifiers !! u_Name spec)))].

Definition usersSQL (rows : list string) : string :=
  "SET search_path TO '';" +:+ inputTable rows +:+ "BEGIN;" +:+ "
SELECT pg_catalog.format('CREATE USER %I',
       pg_catalog.json_extract_path_text(input.data, 'username'))
  FROM input
 WHERE NOT EXISTS (
       SELECT 1 FROM pg_catalog.pg_roles
       WHERE rolname = pg_catalog.json_extract_path_text(input.data, 'username'))
 ORDER BY input.id
\gexec
" +:+ "
SELECT pg_catalog.format('ALTER ROLE %I WITH %s PASSWORD %L',
       pg_catalog.json_extract_path_text(input.data, 'username'),
       pg_catalog.json_extract_path_text(input.data, 'options'),
       pg_catalog.json_extract_path_text(input.data, 'verifier'))
  FROM input ORDER BY input.id
\gexec
" +:+ "
SELECT pg_catalog.format('GRANT ALL PRIVILEGES ON DATABASE %I TO %I',
       pg_catalog.json_array_elements_text(
       pg_catalog.json_extract_path(
       pg_catalog.json_strip_nulls(input.data), 'databases')),
       pg_catalog.json_extract_path_text(input.data, 'username'))
  FROM input ORDER BY input.id
\gexec
" +:+ "COMMIT;".

Definition RESERVED_SCHEMA_NAMES : list string := ["public"; "pgbouncer"; "monitor"].

Definition hasDatabases (spec : PostgresUserSpec) : bool := negb (bool_decide (default [] (u_Databases spec) = [])).

(** The databases of a user, as a query *)
Definition userDatabasesSQL : string := "SET search_path TO '';" +:+ "SELECT * FROM json_array_elements_text(:'databases');".

Definition schemaSQL : string :=
  Join ["SET client_min_messages = WARNING;"; sh "CREATE SCHEMA IF NOT EXISTS :`username` AUTHORIZATION :`username`;"] (char newline).

Definition schemaVariables (spec : PostgresUserSpec) : gmap string string :=
  <["databases" := marshal_databases (u_Databases spec)]> (<["username" := u_Name spec]> onErrorStop).

Definition getsSchema (spec : PostgresUserSpec) : bool :=
  negb (bool_decide (u_Name spec ∈ RESERVED_SCHEMA_NAMES)) && hasDatabases spec.

(** The error of the last command, or of none *)
Fixpoint writeUsersSchemasInPostgreSQL (exec : Executor) (users : list PostgresUserSpec) (err : option error) : program (option error) :=
  match users with
  | [] => Ret err
  | spec :: users =>
      if getsSchema spec then
        let! out := ExecInDatabasesFromQuery exec userDatabasesSQL schemaSQL (schemaVariables spec) in
        writeUsersSchemasInPostgreSQL exec users (out_Err out)
      else writeUsersSchemasInPostgreSQL exec users err
  end.

Definition grantSQL (name : string) : string :=
  let username := char dquote +:+ name +:+ char dquote in
  Join ["SET client_min_messages = WARNING;";
        "GRANT ALL PRIVILEGES ON SCHEMA public TO " +:+ username +:+ ";";
        "GRANT ALL PRIVILEGES ON ALL TABLES IN SCHEMA public TO " +:+ username +:+ ";";
        "GRANT ALL PRIVILEGES ON ALL SEQUENCES IN SCHEMA public TO " +:+ username +:+ ";";
        "ALTER DEFAULT PRIVILEGES FOR ROLE " +:+ username +:+ " IN SCHEMA public GRANT ALL PRIVILEGES ON TABLES TO " +:+ username +:+ ";";
        "ALTER DEFAULT PRIVILEGES FOR ROLE " +:+ username +:+ " IN SCHEMA public GRANT ALL PRIVILEGES ON SEQUENCES TO " +:+ username +:+ ";"]
    (char newline).

Definition grantVariables (spec : PostgresUserSpec) : gmap string string :=
  <["databases" := marshal_databases (u_Databases spec)]> onErrorStop.

Definition grantUserAccessToPublicSchemaInPostgreSQL (exec : Executor) (spec : PostgresUserSpec) : program (option error) :=
  let! out := ExecInDatabasesFromQuery exec userDatabasesSQL (grantSQL (u_Name spec)) (grantVariables spec) in
  Ret (out_Err out).

Section Write.
Context `{GoVersion} (cluster : CrunchyCluster).

Definition getsGrant (spec : PostgresUserSpec) : bool :=
  hasDatabases spec && bool_decide (0 <= CompareVersion (config cluster) "2.7.0")%Z
  && bool_decide (u_GrantPublicSchemaAccess spec = Some true).

(** [err] is the error so far. *)
Fixpoint grantUsers (exec : Executor) (users : list PostgresUserSpec) (err : option error) : program (option error) :=
  match users with
  | [] => Ret err
  | spec :: users =>
      if getsGrant spec then
        let! e := grantUserAccessToPublicSchemaInPostgreSQL exec spec in
        match e with Some e => Ret (Some e) | None => grantUsers exec users None end
      else grantUsers exec users err
  end.

(** The feature gate and the annotation, in any case *)
Definition createsSchemas (featureEnabled : bool) : bool :=
  featureEnabled && bool_decide (ToLower <$> (om_Annotations (cc_Meta cluster) !! AutoCreateUserSchemaAnnotation) = Some "true").

Definition WriteUsersInPostgreSQL (featureEnabled : bool) (exec : Executor) (users : list PostgresUserSpec)
    (verifiers : gmap string string) : program (option error) :=
  let! out := ExecPsql exec (usersSQL (map (userRow verifiers) users)) onErrorStop [] in
  let! err := (if createsSchemas featureEnabled then writeUsersSchemasInPostgreSQL exec users None else Ret (out_Err out)) in
  grantUsers exec users err.
End Write.
End SQL.

(** ** The reconciler *)
Section Reconcile.
Context `{PgQuery} `{GoVersion} `{SafeEncode}.

(** The verifiers of the Secrets, by the name of the user *)
Definition userVerifiers (userSecrets : gmap string DataObject) : gmap string string :=
  (fun secret => default "" (d_Data secret !! "verifier")) <$> userSecrets.

(** The loop finds the pod that [writablePod] finds. *)
Definition reconcilePostgresUsersInPostgreSQL (featureEnabled : bool) (cluster : CrunchyCluster) (instances : observedInstances)
    (specUsers : list PostgresUserSpec) (userSecrets : gmap string DataObject) : program (CrunchyCluster * option error) :=
  match writablePod instances ContainerDatabase with
  | None => Ret (cluster, None)
  | Some (pod, _) =>
      let exec := podExecutor (objectKey (p_Meta pod)) ContainerDatabase in
      let write := WriteUsersInPostgreSQL cluster featureEnabled exec specUsers (userVerifiers userSecrets) in
      let! dry := hashRun "" write in
      match dry.1 with
      | Some e => Ret (cluster, Some e)
      | None =>
          let revision := SafeHash32 dry.2 in
          if bool_decide (revision = cc_UsersRevision cluster) then Ret (cluster, None)
          else
            let! err := write in
            match err with
            | Some e => Ret (cluster, Some e)
            | None => Ret (cluster <| cc_UsersRevision := revision |>, None)
            end
      end
  end.
End Reconcile.

(** ** Options never hold a password *)
Section Options.
Context `{PgQuery}.

(** The options of a role are nothing, or those of one statement, none of them
    a password, printed. *)
Lemma sanitized_options options :
  sanitizeAlterRoleOptions options = "" \/
  exists stmt, sanitizeAlterRoleOptions options = TrimPrefix (Deparse [stmt]) AlterRolePrefix /\
    GetOptions stmt <> [] /\ Forall (fun o => isPassword o = false) (GetOptions stmt).
Proof.
  unfold sanitizeAlterRoleOptions. destruct (Parse _) as [[|stmt [|]]|]; [by left| |by left..]. cbv zeta.
  case_bool_decide as Hl; [by left|]. right. eexists. split; [done|]. rewrite GetOptions_SetOptions. split; [intros E; by rewrite E in Hl|].
  apply Forall_forall. intros o [_ Ho]%list_elem_of_In%filter_In. by apply negb_true_iff.
Qed.
End Options.

(** ** What is run and what is returned *)




Section Run.
Context (at_ : key).
Abbreviation exec := (podExecutor at_ ContainerDatabase).






End Run.

(** ** Writing the users *)
Section WriteUsers.
Context `{PgQuery} `{GoVersion}.
Context (cluster : CrunchyCluster) (featureEnabled : bool) (at_ : key) (verifiers : gmap string string) (users : list PostgresUserSpec).
Abbreviation exec := (podExecutor at_ ContainerDatabase).
















End WriteUsers.


Section UserCalls.
Context `{PgQuery} `{GoVersion} `{SafeEncode}.
Context (featureEnabled : bool) (cluster : CrunchyCluster) (instances : observedInstances).
Context (specUsers : list PostgresUserSpec) (userSecrets : gmap string DataObject).

Definition with_databases (spec : PostgresUserSpec) : Prop := exists db l, u_Databases spec = Some (db :: l).

#[local] Instance with_databases_dec spec : Decision (with_databases spec).
Proof. destruct (u_Databases spec) as [[|db l]|] eqn:E; [right|left; by exists db, l|right]; intros (? & ? & ?); congruence. Defined.

Definition schemas_wanted : Prop :=
  featureEnabled = true /\ exists v, om_Annotations (cc_Meta cluster) !! AutoCreateUserSchemaAnnotation = Some v /\ ToLower v = "true".

#[local] Instance schemas_wanted_dec : Decision schemas_wanted.
Proof.
  destruct (om_Annotations (cc_Meta cluster) !! AutoCreateUserSchemaAnnotation) as [v|] eqn:E.
  - destruct (decide (featureEnabled = true /\ ToLower v = "true")) as [[Hf Hl]|Hn]; [left; split; [done|by exists v]|right].
    intros (Hf & v' & Hv & Hl). apply Hn. split; [done|congruence].
  - right. intros (_ & v & Hv & _). congruence.
Defined.

(** Access is granted since version 2.7.0. *)
Definition granted (spec : PostgresUserSpec) : Prop :=
  with_databases spec /\ (0 <= CompareVersion (config cluster) "2.7.0")%Z /\ u_GrantPublicSchemaAccess spec = Some true.

#[local] Instance granted_dec spec : Decision (granted spec).
Proof. unfold granted. apply _. Defined.










End UserCalls.

(** ** Examples *)

(** A parser of options without arguments, and of passwords *)
Module SimpleOptions.
#[global] Instance pg_query : PgQuery := {|
  statement := list string;
  roleOption := string;
  Parse sql := let (rest, found) := CutPrefix sql AlterRolePrefix in
               if found then Some [Split rest " "] else None;
  GetOptions s := s;
  SetOptions l _ := l;
  GetDefname o := if HasPrefix o "PASSWORD=" then "password" else ToLower o;
  Deparse l := Join (map (fun s => AlterRolePrefix +:+ Join s " ") l) ";";
  GetOptions_SetOptions _ _ := eq_refl
|}.
End SimpleOptions.

Module ExampleUsers.
#[local] Existing Instance SimpleOptions.pg_query.
#[local] Existing Instance ConcreteEncode.encode.
#[local] Existing Instance DottedVersions.versions.

Example passwords_are_removed :
  (sanitizeAlterRoleOptions "LOGIN PASSWORD='x' CREATEDB", sanitizeAlterRoleOptions "PASSWORD='x'") = ("LOGIN CREATEDB", "").
Proof. by vm_compute. Qed.

(** The rows and the variables write the same names differently. *)
Example html_is_escaped :
  (json_databases (Some ["a<b"]), marshal_databases (Some ["a<b"])) =
  (Concat ["["; char dquote; "a<b"; char dquote; "]"], Concat ["["; char dquote; "a\u003cb"; char dquote; "]"]).
Proof. by vm_compute. Qed.

Definition user : PostgresUserSpec := mkUser "rhino" (Some ["zoo"]) "" None "" (Some true).

Definition cluster (annotations : gmap string string) : CrunchyCluster :=
  ExampleTDE.cluster "" <| cc_Meta ::= fun m => m <| om_Labels := {[ LabelVersion := "2.8.0" ]} |> <| om_Annotations := annotations |> |>.

(** PostgreSQL refuses to create the users; it grants whatever it is asked. *)
Definition answer (o : op) (w : unit) : unit * resp o :=
  match o as o return unit * resp o with
  | Exec _ _ _ command =>
      (tt, mkExecOutput "" "" (if bool_decide (head command = Some "psql") then Some (New "cannot create role") else None))
  | o => ExampleTDE.answer o tt
  end.

Definition pass (featureEnabled : bool) (users : list PostgresUserSpec) (c : CrunchyCluster) : nat * CrunchyCluster * option error :=
  let '(_, tr, r) := run answer (reconcilePostgresUsersInPostgreSQL featureEnabled c ExampleTDE.instances users ∅) tt in
  (length (commands tr), r.1, r.2).

(** The failure is lost in the success of a grant: the revision is recorded,
    and the next pass runs nothing. *)
Example failed_users_are_recorded :
  let '(n1, c1, e1) := pass false [user] (cluster ∅) in
  let '(n2, c2, e2) := pass false [user] c1 in
  (n1, e1, bool_decide (cc_UsersRevision c1 = "")) = (2, None, false) /\ (n2, e2) = (0, None).
Proof. vm_compute. split; reflexivity. Qed.

(** Without a grant it is returned, unless schemas are created. *)
Example failed_users_alone :
  let user := mkUser "rhino" None "" None "" None in
  let c := cluster (<[AutoCreateUserSchemaAnnotation := "True"]> ∅) in
  (pass false [user] c).2 = Some (New "cannot create role") /\ (pass true [user] c).2 = None.
Proof. vm_compute. split; reflexivity. Qed.
End ExampleUsers.
