(* ===== verification/Watchers.v ===== *)
(** * Watchers of write-ahead logs

    One goroutine per cluster ([percona/watcher/wal.go]) looks for commits newer
    than the latest restorable time.  The operator keeps a registry of them
    ([percona/utils/registry]) and stops them through one channel for all
    ([percona/controller/pgcluster/controller.go] and [finalizer.go]). *)
From S2P Require Import Prelude GoStrings Cluster Prog Errors Naming Objects Client BackupUtils.

(** ** The registry *)
Definition Registry : Type := gset string.

Definition IsExist (r : Registry) (name : string) : bool := bool_decide (name ∈ r).

Definition Add (r : Registry) (name : string) : Registry * result unit :=
  if IsExist r name then (r, Err (New ("object with " +:+ name +:+ " was already registered")))
  else ({[name]} ∪ r, Ok tt).

Definition Remove (r : Registry) (name : string) : Registry := r ∖ {[name]}.

(** ** Starting and stopping *)

(** [GetWALWatcher] *)
Definition watcherName (cluster : key) : string := fst cluster +:+ "-" +:+ snd cluster +:+ "-wal-watcher".

Definition clusterKey (cr : PerconaPGCluster) : key := (c_Namespace cr, c_Name cr).

Definition nilDereference : error := New "nil pointer dereference".

Definition startExternalWatchers (cr : PerconaPGCluster) : action unit :=
  if negb (IsEnabled (c_Backups cr)) then Ret (Ok tt)
  else
    match bk_TrackLatestRestorableTime (c_Backups cr) with
    | None => Ret (Err nilDereference)
    | Some false => Ret (Ok tt)
    | Some true =>
        let name := watcherName (clusterKey cr) in
        let! exists_ := call (WatcherExists name) in
        if exists_ : bool then Ret (Ok tt)
        else
          do! _ := call (AddWatcher name) or "add WAL watcher" in
          let! _ := call (GoWatch (clusterKey cr)) in
          Ret (Ok tt)
    end.

Definition stopWALWatcher (cr : PerconaPGCluster) : program unit :=
  let name := watcherName (clusterKey cr) in
  let! exists_ := call (WatcherExists name) in
  if negb exists_ then Ret tt
  else
    let! _ := call (SendStop (clusterKey cr)) in
    call (RemoveWatcher name).

Definition stopExternalWatcher (cr : PerconaPGCluster) : action unit :=
  if negb (IsEnabled (c_Backups cr)) then Ret (Ok tt)
  else
    match bk_TrackLatestRestorableTime (c_Backups cr) with
    | None => Ret (Err nilDereference)
    | Some true => Ret (Ok tt)
    | Some false => let! _ := stopWALWatcher cr in Ret (Ok tt)
    end.

Definition reconcileExternalWatchers (cr : PerconaPGCluster) : action unit :=
  do! _ := startExternalWatchers cr or "start external watchers" in
  stopExternalWatcher cr.

Fixpoint removeWatchers (names : list string) : program unit :=
  match names with
  | [] => Ret tt
  | name :: names => let! _ := call (RemoveWatcher name) in removeWatchers names
  end.

(** The finalizer: one event, and the registry is emptied. *)
Definition stopExternalWatchers (cr : PerconaPGCluster) : action unit :=
  let! _ := call (SendStop (clusterKey cr)) in
  let! names := call WatcherNames in
  let! _ := removeWatchers names in
  Ret (Ok tt).

(** ** The registry, the goroutines and the channel *)
Record World := mkWorld {
  w_Registry : Registry;
  (** the clusters that are watched, once for each goroutine *)
  w_Running : list key
}.

(** What a call does, with its answer.  A goroutine receives a stop event when
    it waits for one; it ends when the event names its cluster and drops the
    event otherwise.  A send that nobody waits for is given up. *)
Definition effect (w : World) (e : event resp) (w' : World) : Prop :=
  let '(Ev o r) := e in
  match o return resp o -> Prop with
  | WatcherExists name => fun b => b = IsExist (w_Registry w) name /\ w' = w
  | AddWatcher name => fun a =>
      a = snd (Add (w_Registry w) name) /\ w' = mkWorld (fst (Add (w_Registry w) name)) (w_Running w)
  | RemoveWatcher name => fun _ => w' = mkWorld (Remove (w_Registry w) name) (w_Running w)
  | WatcherNames => fun names => (forall n, n ∈ names <-> n ∈ w_Registry w) /\ w' = w
  | GoWatch c => fun _ => w' = mkWorld (w_Registry w) (c :: w_Running w)
  | SendStop c => fun received : bool =>
      if received
      then (exists l1 l2, w_Running w = l1 ++ c :: l2 /\ w' = mkWorld (w_Registry w) (l1 ++ l2)) \/
           (exists c', c' ∈ w_Running w /\ c' <> c /\ w' = w)
      else w' = w
  | _ => fun _ => w' = w
  end r.

Inductive effects : World -> history -> World -> Prop :=
| effects_nil w : effects w [] w
| effects_cons w e w1 h w2 : effect w e w1 -> effects w1 h w2 -> effects w (e :: h) w2.

(** The operator at work: reconciles of clusters that are there, clusters that
    become unmanaged, deletions of clusters; and watchers that end because their
    cluster could not be read, for any reason. *)
Inductive step : World -> World -> Prop :=
| step_reconcile cr h r w w' :
    exec (reconcileExternalWatchers cr) h r -> effects w h w' -> step w w'
| step_unmanaged cr h r w w' : exec (stopWALWatcher cr) h r -> effects w h w' -> step w w'
| step_finalizer cr h r w w' : exec (stopExternalWatchers cr) h r -> effects w h w' -> step w w'
| step_ended r l1 c l2 : step (mkWorld r (l1 ++ c :: l2)) (mkWorld r (l1 ++ l2)).

(** Goroutines that watch one cluster. *)
Definition watching (w : World) (c : key) : nat := count_occ (fun a b => decide (a = b)) (w_Running w) c.

(** ** Properties *)
Definition tracking (cr : PerconaPGCluster) : Prop :=
  IsEnabled (c_Backups cr) = true /\ bk_TrackLatestRestorableTime (c_Backups cr) = Some true.

(** At most one goroutine for each cluster, and its name is registered. *)
Definition tracked (w : World) : Prop :=
  NoDup (w_Running w) /\ forall c, c ∈ w_Running w -> watcherName c ∈ w_Registry w.

Lemma effects_inv w e h w2 : effects w (e :: h) w2 -> exists w1, effect w e w1 /\ effects w1 h w2.
Proof. inversion 1; subst. by eexists. Qed.

Lemma effects_end w w' : effects w [] w' -> w' = w.
Proof. by inversion 1. Qed.

(** The three ways a start can go. *)
Lemma start_exec cr h r w w' :
  tracking cr -> exec (reconcileExternalWatchers cr) h r -> effects w h w' ->
  let name := watcherName (clusterKey cr) in
  r = Ok tt /\
  ((name ∈ w_Registry w /\ w' = w) \/
   (name ∉ w_Registry w /\ w' = mkWorld ({[name]} ∪ w_Registry w) (clusterKey cr :: w_Running w))).
Proof.
  intros [He Ht] Hex Heff. unfold reconcileExternalWatchers, startExternalWatchers, stopExternalWatcher in Hex.
  rewrite He, Ht in Hex. simpl in Hex. destruct Hex as (b & h1 & -> & Hex).
  apply effects_inv in Heff as (w1 & [-> ->] & Heff). unfold IsExist in *.
  case_bool_decide as Hin; simpl in Hex.
  - destruct Hex as [-> ->]. apply effects_end in Heff. split; [done|by left].
  - destruct Hex as (a & h2 & -> & Hex). apply effects_inv in Heff as (w1 & [-> ->] & Heff).
    unfold Add, IsExist in *. rewrite bool_decide_eq_false_2 in Hex, Heff by done. simpl in Hex, Heff.
    destruct Hex as ([] & h3 & -> & -> & ->). apply effects_inv in Heff as (w2 & -> & Heff).
    apply effects_end in Heff. split; [done|]. by right.
Qed.

(** The steps of an operator that never stops a watcher. *)
Inductive quiet_step : World -> World -> Prop :=
| quiet_reconcile cr h r w w' :
    tracking cr -> exec (reconcileExternalWatchers cr) h r -> effects w h w' -> quiet_step w w'
| quiet_ended r l1 c l2 : quiet_step (mkWorld r (l1 ++ c :: l2)) (mkWorld r (l1 ++ l2)).

Lemma quiet_tracked w w' : quiet_step w w' -> tracked w -> tracked w'.
Proof.
  intros Hs [Hnd Hreg]. destruct Hs as [cr h r w w' Ht Hex Heff|r l1 c l2].
  - destruct (start_exec cr h r w w' Ht Hex Heff) as (_ & [[_ ->]|[Hn ->]]); [by split|]. split; simpl.
    + constructor; [|done]. intros Hin. by apply Hn, Hreg.
    + intros c [->|Hc]%elem_of_cons; [set_solver|]. apply Hreg in Hc. set_solver.
  - simpl in *. split; simpl.
    + rewrite <- Permutation_middle, NoDup_cons in Hnd. by destruct Hnd.
    + intros c' Hc'. apply Hreg. rewrite elem_of_app, elem_of_cons in *. tauto.
Qed.

Lemma watching_NoDup w c : NoDup (w_Running w) -> (watching w c <= 1)%nat.
Proof. intros Hnd. apply NoDup_ListNoDup in Hnd. unfold watching. by apply (proj1 (NoDup_count_occ _ _)). Qed.

(** While no watcher is stopped, a cluster has at most one watcher.  In an
    operator that has only started watchers, and in which watchers have ended by
    themselves, every cluster is watched by at most one goroutine; and a
    reconcile of a cluster that tracks its latest restorable time succeeds and
    starts one unless its name is taken, which it stays when a watcher ends. *)
Theorem watchers_unique w :
  rtc quiet_step (mkWorld ∅ []) w ->
  (forall c, (watching w c <= 1)%nat) /\
  forall cr h r w', tracking cr -> exec (reconcileExternalWatchers cr) h r -> effects w h w' ->
    let name := watcherName (clusterKey cr) in
    r = Ok tt /\ name ∈ w_Registry w' /\
    if decide (name ∈ w_Registry w) then w' = w else watching w' (clusterKey cr) = 1%nat.
Proof.
  intros Hr. assert (Ht : tracked w).
  { assert (H0 : tracked (mkWorld ∅ [])) by (split; [constructor|by intros c ?%elem_of_nil]).
    revert H0. induction Hr as [w|w1 w2 w3 Hs Hr IH]; [done|]. intros Ht. by eapply IH, quiet_tracked. }
  destruct Ht as [Hnd Hreg]. split; [intros c; by apply watching_NoDup|]. intros cr h r w' Ht Hex Heff name.
  destruct (start_exec cr h r w w' Ht Hex Heff) as (-> & [[Hin ->]|[Hin ->]]); simpl.
  - split_and!; [done|done|by rewrite decide_True].
  - split_and!; [done|set_solver|]. rewrite decide_False by done. unfold watching. simpl.
    rewrite decide_True by done. f_equal. apply count_occ_not_In. intros Hc%list_elem_of_In. by apply Hin, Hreg.
Qed.

(** The history of a start, and of a finalizer whose event another cluster's
    watcher has received. *)
Definition started (c : key) : history :=
  [Ev (WatcherExists (watcherName c) : op) false; Ev (AddWatcher (watcherName c) : op) (Ok tt);
   Ev (GoWatch c : op) tt].
Definition finalized (c : key) (name : string) : history :=
  [Ev (SendStop c : op) true; Ev (WatcherNames : op) [name]; Ev (RemoveWatcher name : op) tt].

Lemma start_effects cr w : tracking cr -> watcherName (clusterKey cr) ∉ w_Registry w ->
  step w (mkWorld ({[watcherName (clusterKey cr)]} ∪ w_Registry w) (clusterKey cr :: w_Running w)).
Proof.
  intros [He Ht] Hn. apply (step_reconcile cr (started (clusterKey cr)) (Ok tt)).
  - unfold reconcileExternalWatchers, startExternalWatchers, stopExternalWatcher. rewrite He, Ht.
    exists false. eexists. split; [done|]. exists (Ok tt). eexists. split; [done|]. exists tt. eexists. split; [done|].
    simpl. done.
  - eapply effects_cons; [split; [|done]; unfold IsExist; by rewrite bool_decide_eq_false_2|].
    apply (effects_cons _ _ (mkWorld ({[watcherName (clusterKey cr)]} ∪ w_Registry w) (w_Running w))).
    { unfold effect, Add, IsExist. by rewrite bool_decide_eq_false_2. }
    eapply effects_cons; [done|]. apply effects_nil.
Qed.

(** The deletion of one cluster gives another a second watcher.  The
    finalizer sends its event on the channel that all watchers read, where the
    other cluster's watcher can receive and drop it, and then empties the whole
    registry; the next reconcile of the other cluster finds no watcher
    registered and starts one more, next to the one that still runs. *)
Theorem watcher_started_twice cr other :
  tracking cr -> clusterKey other <> clusterKey cr ->
  exists w, rtc step (mkWorld ∅ []) w /\ watching w (clusterKey cr) = 2%nat.
Proof.
  intros Ht Hne. set (c := clusterKey cr) in *. set (name := watcherName c).
  exists (mkWorld ({[name]} ∪ ∅) [c; c]). split; [|by unfold watching; simpl; destruct (decide (c = c))].
  eapply rtc_l; [apply (start_effects cr (mkWorld ∅ []) Ht); simpl; set_solver|]. simpl. fold c name.
  eapply rtc_l.
  { apply (step_finalizer other (finalized (clusterKey other) name) (Ok tt) _ (mkWorld ∅ [c])).
    - unfold stopExternalWatchers, finalized. exists true. eexists. split; [done|]. exists [name]. eexists. split; [done|].
      exists tt, []. done.
    - eapply effects_cons; [right; exists c; split_and!; [left|congruence|done]|].
      eapply effects_cons; [split; [simpl; set_solver|done]|]. eapply effects_cons; [|apply effects_nil].
      simpl. f_equal. unfold Remove. set_solver. }
  eapply rtc_l; [apply (start_effects cr (mkWorld ∅ [c]) Ht); simpl; set_solver|]. reflexivity.
Qed.

(** The name of a watcher is not the cluster's alone. *)
Lemma watcher_names_collide : watcherName ("a", "b-c") = watcherName ("a-b", "c").
Proof. done. Qed.

(** ** Examples *)
Module ExampleWatchers.
Definition cluster : PerconaPGCluster :=
  examplePGCluster <| c_Backups ::= fun b => b <| bk_TrackLatestRestorableTime := Some true |> |>.
Definition other : PerconaPGCluster :=
  cluster <| c_Meta ::= fun m => mkMeta "cluster2" (om_Namespace m) (om_UID m) (om_ResourceVersion m)
    (om_Generation m) (om_CreationTimestamp m) None ∅ ∅ [] None "" |>.

Lemma tracking_cluster : tracking cluster.
Proof. done. Qed.
End ExampleWatchers.

Lemma watchers_unique_witness :
  let c := clusterKey ExampleWatchers.cluster in
  let w := mkWorld ({[watcherName c]} ∪ ∅) [c] in
  rtc quiet_step (mkWorld ∅ []) w /\ watching w c = 1%nat /\ (watching w c <= 1)%nat.
Proof.
  intros c w. assert (Hr : rtc quiet_step (mkWorld ∅ []) w).
  { apply rtc_once, (quiet_reconcile ExampleWatchers.cluster (started c) (Ok tt)).
    - exact ExampleWatchers.tracking_cluster.
    - exists false. eexists. split; [done|]. exists (Ok tt). eexists. split; [done|]. exists tt. eexists. by split.
    - eapply effects_cons; [by split|]. eapply effects_cons; [by split|]. eapply effects_cons; [done|]. apply effects_nil. }
  split; [exact Hr|]. split; [by vm_compute|]. destruct (watchers_unique w Hr) as [Hu _]. exact (Hu c).
Defined.

Lemma watcher_started_twice_witness :
  exists w, rtc step (mkWorld ∅ []) w /\ watching w ("default", "cluster1") = 2%nat.
Proof.
  refine (watcher_started_twice ExampleWatchers.cluster ExampleWatchers.other ExampleWatchers.tracking_cluster _).
  by vm_compute.
Defined.
