(* ===== verification/ClusterDeletion.v ===== *)
(** * Deleting a PerconaPGCluster, and leaving it alone

    The branch of [Reconcile] in [percona/controller/pgcluster/controller.go]
    for a cluster that is being deleted, with the finalizers of [finalizer.go],
    and the branch for an unmanaged one. *)
From S2P Require Import Prelude GoStrings GoTime Cluster Prog Errors Naming Objects.
From S2P Require Import Client BackupUtils Watchers.

(** ** Finalizers *)
Section Finalizers.
Context `{ControllerRuntime}.

(** Deletes each object of a list; one that is gone already is skipped. *)
Fixpoint deleteListed (k : kind) (at_ : list key) : action unit :=
  match at_ with
  | [] => Ret (Ok tt)
  | key :: rest =>
      let! r := call (Delete k key NoOptions) in
      match IgnoreNotFound (err_of r) with
      | Some e => Ret (Err (Wrap "delete" e))
      | None => deleteListed k rest
      end
  end.

Definition clusterSelector (cr : PerconaPGCluster) : ListSelector :=
  ByLabels (SetSelector {[LabelCluster := c_Name cr]}).

Definition deletePVC (cr : PerconaPGCluster) : action unit :=
  do! pvcs := call (ListAll KPVC (c_Namespace cr) (clusterSelector cr)) or "get PVC list" in
  deleteListed KPVC (map (fun p => objectKey (pvc_Meta p)) pvcs).

Definition userSecretSelector (cr : PerconaPGCluster) : ListSelector :=
  ByLabels (SetSelector {[LabelCluster := c_Name cr; LabelRole := RolePostgresUser]}).

Definition deleteUserSecrets (cr : PerconaPGCluster) : action unit :=
  do! secrets := call (ListAll KSecret (c_Namespace cr) (userSecretSelector cr)) or "get secret list" in
  deleteListed KSecret (map (fun s => objectKey (d_Meta s)) secrets).

Definition deletePVCAndSecrets (cr : PerconaPGCluster) : action unit :=
  do! _ := deletePVC cr in deleteUserSecrets cr.

(** The secrets that the operator makes itself, by their names. *)
Definition ownTLSSecrets (cr : PerconaPGCluster) : list key :=
  let crunchy := namedCluster (c_Namespace cr) (c_Name cr) in
  let unless (custom : option SecretProjection) (m : NamedMeta) :=
    match custom with None => [AsObjectKey m] | Some _ => [] end in
  [AsObjectKey (PGBackRestSecret crunchy); AsObjectKey (ClusterPGBouncer crunchy)] ++
  unless (sec_CustomRootCATLSSecret (c_Secrets cr)) (PostgresRootCASecret crunchy) ++
  unless (sec_CustomTLSSecret (c_Secrets cr)) (PostgresTLSSecret crunchy) ++
  unless (sec_CustomReplicationClientTLSSecret (c_Secrets cr)) (ReplicationClientCertSecret crunchy).

Definition setSecretSelector (cr : PerconaPGCluster) (set : PGInstanceSetSpec) : ListSelector :=
  ByLabels (SetSelector {[LabelCluster := c_Name cr; LabelInstanceSet := set_Name set]}).

Fixpoint instanceTLSSecrets (cr : PerconaPGCluster) (sets : list PGInstanceSetSpec) : action (list key) :=
  match sets with
  | [] => Ret (Ok [])
  | set :: sets =>
      do! secrets := call (ListAll KSecret (c_Namespace cr) (setSecretSelector cr set))
        or "get instance TLS secrets" in
      do! rest := instanceTLSSecrets cr sets in
      Ret (Ok (map (fun s => objectKey (d_Meta s)) secrets ++ rest))
  end.

(** [ToCrunchy] fails when the owner reference cannot be set. *)
Definition deleteTLSSecrets (cr : PerconaPGCluster) : action unit :=
  match SetControllerReference (c_Meta cr)
          (mkMeta (c_Name cr) (c_Namespace cr) "" "" 0 0 None ∅ ∅ [] None "") with
  | Err e => Ret (Err (Wrap "to crunchy" e))
  | Ok _ =>
      do! ofInstances := instanceTLSSecrets cr (c_InstanceSets cr) in
      deleteListed KSecret (ownTLSSecrets cr ++ ofInstances)
  end.

(** *** Backups *)

(** [repoNameRegex]: ^repo[1-4]$ *)
Definition repoNames : list string := ["repo1"; "repo2"; "repo3"; "repo4"].

Definition stanzaDelete (repoName : string) : list string :=
  ["bash"; "-ceu"; "--";
   "pgbackrest --stanza=db --log-level-console=info stop --force && " +:+
   "pgbackrest --stanza=db --log-level-console=info --repo=" +:+ TrimPrefix repoName "repo" +:+
   " stanza-delete --force"].

Fixpoint deleteStanzas (pod : key) (repos : list PGBackRestRepo) : action unit :=
  match repos with
  | [] => Ret (Ok tt)
  | repo :: repos =>
      if negb (bool_decide (repo_Name repo ∈ repoNames)) then Ret (Err (New "invalid repo name"))
      else
        let! out := call (Exec pod "database" None (stanzaDelete (repo_Name repo))) in
        match out_Err out with
        | Some e => Ret (Err (Wrap "delete backups" e))
        | None => deleteStanzas pod repos
        end
  end.

Fixpoint deleteBackupObjects (cr : PerconaPGCluster) (backups : list PerconaPGBackup) : action unit :=
  match backups with
  | [] => Ret (Ok tt)
  | b :: backups =>
      if negb (bool_decide (b_PGCluster b = c_Name cr)) then deleteBackupObjects cr backups
      else
        do! _ := call (Delete KBackup (objectKey (b_Meta b)) NoOptions) or "delete backup" in
        deleteBackupObjects cr backups
  end.

Definition podSelector (cr : PerconaPGCluster) : ListSelector :=
  ByLabels (SetSelector {[LabelPerconaInstance := c_Name cr; LabelPerconaComponent := "pg"]}).

Definition deleteBackups (cr : PerconaPGCluster) : action unit :=
  do! pods := call (ListAll KPod (c_Namespace cr) (podSelector cr)) in
  match pods with
  | [] => Ret (Err (New "no pods found"))
  | pod :: _ =>
      do! _ := deleteStanzas (c_Namespace cr, om_Name (p_Meta pod)) (bk_Repos (c_Backups cr)) in
      do! backups := call (ListAll KBackup (c_Namespace cr) Everything) or "failed to list backup jobs" in
      deleteBackupObjects cr backups
  end.

(** *** Running them *)
Definition finalizerEntry : Type := string * (PerconaPGCluster -> action unit).

Definition prePostgresClusterDeletionFinalizers : list finalizerEntry :=
  [(FinalizerStopWatchers, stopExternalWatchers); (FinalizerDeleteBackups, deleteBackups)].

Definition postPostgresClusterDeletionFinalizers : list finalizerEntry :=
  [(FinalizerDeletePVC, deletePVCAndSecrets); (FinalizerDeleteSSL, deleteTLSSecrets)].

(** The object, whose finalizers go one by one, and the error. *)
Fixpoint runFinalizers (cr : PerconaPGCluster) (finalizers : list finalizerEntry)
    : program (PerconaPGCluster * result unit) :=
  match finalizers with
  | [] => Ret (cr, Ok tt)
  | (name, fn) :: finalizers =>
      let! (cr, r) := RunFinalizer (k := KPGCluster) cr name fn in
      match r with
      | Err e => Ret (cr, Err (Wrap ("run finalizer " +:+ name) e))
      | Ok _ => runFinalizers cr finalizers
      end
  end.

(** ** Deletion: the time after which to come back, and the error *)
Definition reconcileDeletion (cr : PerconaPGCluster) : program (Z * option error) :=
  let at_ := clusterKey cr in
  let! (cr, r) := runFinalizers cr prePostgresClusterDeletionFinalizers in
  match r with
  | Err e => Ret ((5 * second)%Z, Some (Wrap "run pre-postgrescluster finalizers" e))
  | Ok _ =>
      let! r := call (Delete KCrunchy at_ NoOptions) in
      match IgnoreNotFound (err_of r) with
      | Some e => Ret ((5 * second)%Z, Some (Wrap "delete postgres cluster" e))
      | None =>
          let! r := call (Get KCrunchy at_) in
          match r with
          | Ok _ => Ret ((5 * second)%Z, None)
          | Err e =>
              if negb (IsNotFound e) then Ret ((5 * second)%Z, Some (Wrap "get postgres cluster" e))
              else
                let! (cr, r) := runFinalizers cr postPostgresClusterDeletionFinalizers in
                match r with
                | Err e => Ret ((5 * second)%Z, Some (Wrap "run post-postgrescluster finalizers" e))
                | Ok _ => Ret (0%Z, None)
                end
          end
      end
  end.
End Finalizers.

(** ** Unmanaged clusters *)
Definition backupJobSelector (cr : PerconaPGCluster) : ListSelector :=
  ByLabels (ParsedSelector (mkSelector {[LabelCluster := c_Name cr]} [(LabelPGBackRestBackup, OpExists)])).

Definition activeBackup (cr : PerconaPGCluster) (b : PerconaPGBackup) : bool :=
  bool_decide (b_PGCluster b = c_Name cr) &&
  (bool_decide (b_State b = BackupStarting) || bool_decide (b_State b = BackupRunning)).

Definition isBackupRunning (cr : PerconaPGCluster) : action bool :=
  do! jobs := call (ListAll KJob (c_Namespace cr) (backupJobSelector cr)) or "get backup jobs" in
  if existsb (fun job => negb (JobFailed job || JobCompleted job)) jobs then Ret (Ok true)
  else
    do! backups := call (ListAll KBackup (c_Namespace cr) Everything) or "list backups" in
    Ret (Ok (existsb (activeBackup cr) backups)).

Definition makePostgresClusterUnmanaged (postgresCluster : key) : action unit :=
  let! r := call (Get KCrunchy postgresCluster) in
  match r with
  | Err e => Ret (if IsNotFound e then Ok tt else Err e)
  | Ok c =>
      if default false (cc_Paused c) then Ret (Ok tt)
      else ignore (call (Patch KCrunchy c (c <| cc_Paused := Some true |>)))
  end.

(** The cluster with which the reconcile goes on, if it does. *)
Definition reconcileUnmanaged (cr : PerconaPGCluster) : action (option PerconaPGCluster) :=
  if negb (default false (c_Unmanaged cr)) then Ret (Ok (Some cr))
  else
    do! backupRunning := isBackupRunning cr or "is backup running" in
    if backupRunning then Ret (Ok (Some (cr <| c_Unmanaged := Some false |>)))
    else
      do! _ := makePostgresClusterUnmanaged (clusterKey cr) or "make PostgresCluster unmanaged" in
      let! _ := stopWALWatcher cr in
      Ret (Ok None).

Section UnmanagedCalls.
Context (cr : PerconaPGCluster).

(** No backup of the cluster was seen at work: neither a job nor an object. *)
Definition no_backup_running (h : history) : Prop :=
  exists (jobs : list Job) (backups : list PerconaPGBackup),
    (Ev (ListAll KJob (c_Namespace cr) (backupJobSelector cr) : op) (Ok jobs : result (list Job)) : event resp) ∈ h /\
    (Ev (ListAll KBackup (c_Namespace cr) Everything : op) (Ok backups : result (list PerconaPGBackup)) : event resp) ∈ h /\
    (forall job, job ∈ jobs -> JobFailed job = true \/ JobCompleted job = true) /\
    forall b, b ∈ backups -> b_PGCluster b = c_Name cr -> b_State b <> BackupStarting /\ b_State b <> BackupRunning.

#[export] Instance grows_no_backup : Grows no_backup_running.
Proof. unfold no_backup_running. apply _. Qed.

Definition unmanaged_call (h : history) (o : op) : Prop :=
  c_Unmanaged cr = Some true /\
  match o with
  | ListAll KJob _ _ | ListAll KBackup _ _ => True
  | Get KCrunchy k => no_backup_running h /\ k = clusterKey cr
  | Patch KCrunchy c c' => no_backup_running h /\ got KCrunchy (clusterKey cr) (Ok c) ∈ h /\
      cc_Paused c <> Some true /\ c' = c <| cc_Paused := Some true |>
  | WatcherExists name | RemoveWatcher name => no_backup_running h /\ name = watcherName (clusterKey cr)
  | SendStop k => no_backup_running h /\ k = clusterKey cr
  | _ => False
  end.

Lemma stopWALWatcher_safe h : c_Unmanaged cr = Some true -> no_backup_running h ->
  wps unmanaged_call h (stopWALWatcher cr) (fun h' _ => no_backup_running h').
Proof.
  intros Hu Hn. simpl. split; [done|]. intros [|]; simpl; [|by eapply grows; [|by apply prefix_app_r]].
  split; [split; [done|]; split; [by eapply grows; [|by apply prefix_app_r]|done]|]. intros b.
  rewrite <- app_assoc. split; [split; [done|]; split; [by eapply grows; [|by apply prefix_app_r]|done]|]. intros u.
  rewrite <- app_assoc. by eapply grows; [|by apply prefix_app_r].
Qed.

Lemma isBackupRunning_safe : c_Unmanaged cr = Some true ->
  wps unmanaged_call [] (isBackupRunning cr) (fun h r => r = Ok false -> no_backup_running h).
Proof.
  intros Hu. unfold isBackupRunning. apply wps_list_bindr. split; [done|].
  intros [jobs|e]; [|done]. change (list (obj KJob)) with (list Job) in jobs.
  destruct (existsb (fun job => negb (JobFailed job || JobCompleted job)) jobs) eqn:Ej; [done|].
  apply wps_list_bindr. split; [done|]. intros [backups|e]; [|done]. simpl wps. intros [= Eb].
  exists jobs, backups. split_and!; [set_solver|set_solver| |].
  - intros job Hj. by apply orb_true_iff, negb_false_iff, (proj1 (existsb_false _ _) Ej job).
  - intros b Hb Hc. pose proof (proj1 (existsb_false _ _) Eb b Hb) as Hf. unfold activeBackup in Hf.
    rewrite (bool_decide_eq_true_2 _ Hc) in Hf. simpl in Hf.
    by apply orb_false_iff in Hf as [H1%bool_decide_eq_false H2%bool_decide_eq_false].
Qed.

Lemma makePostgresClusterUnmanaged_safe h : c_Unmanaged cr = Some true -> no_backup_running h ->
  wps unmanaged_call h (makePostgresClusterUnmanaged (clusterKey cr)) (fun h' _ => no_backup_running h').
Proof.
  intros Hu Hn. assert (Hg : forall e, no_backup_running (h ++ [e])) by (intros; by eapply grows; [|by apply prefix_app_r]).
  unfold makePostgresClusterUnmanaged. apply wps_call_bind. split; [done|]. intros [c|e]; [|apply Hg].
  cbv beta iota. destruct (default false (cc_Paused c)) eqn:Ep; [apply Hg|]. rewrite wps_ignore. split.
  - split; [done|]. split_and!; [apply Hg|apply elem_of_snoc| |done]. intros E. by rewrite E in Ep.
  - intros r. simpl. eapply grows; [apply Hg|by apply prefix_app_r].
Qed.

(** When an unmanaged cluster is left alone.  In every execution, the
    PostgresCluster is paused, and the watcher stopped, only when the cluster is
    set to be unmanaged and neither a backup job nor a backup object was at work
    in it; the reconcile goes no further exactly then, and when it goes on the
    cluster counts as managed.  A PostgresCluster that is gone or paused is left
    as it is, otherwise only its pause is changed. *)
Theorem unmanaged_waits_for_backups :
  wps unmanaged_call [] (reconcileUnmanaged cr) (fun h r =>
    match r with
    | Ok None => c_Unmanaged cr = Some true /\ no_backup_running h
    | Ok (Some c) => c_Unmanaged c <> Some true /\ (c = cr \/ c = cr <| c_Unmanaged := Some false |>)
    | Err _ => c_Unmanaged cr = Some true
    end).
Proof.
  unfold reconcileUnmanaged. destruct (c_Unmanaged cr) as [[|]|] eqn:Hu; simpl negb; cbv iota;
    [|split; [congruence|by left]|split; [congruence|by left]].
  rewrite wps_bindr. eapply wps_conseq; [by apply isBackupRunning_safe|]. intros h1 [[|]|e] Hn; [split; [done|by right]| |done].
  specialize (Hn eq_refl). rewrite wps_bindr. eapply wps_conseq; [by apply makePostgresClusterUnmanaged_safe|].
  intros h2 [u|e] Hn2; [|done]. rewrite wps_bind. eapply wps_conseq; [by apply stopWALWatcher_safe|]. by intros h3 u2 Hn3.
Qed.
End UnmanagedCalls.

(** ** The calls of a deletion *)
Section DeletionCalls.
Context `{ControllerRuntime} (cr : PerconaPGCluster).

Definition finalizersOf (c : PerconaPGCluster) : list string := om_Finalizers (c_Meta c).

Definition clusterPatch (o o' : PerconaPGCluster) (r : result PerconaPGCluster) : event resp :=
  Ev (Patch KPGCluster o o' : op) r.

(** The object that is reconciled, or what a later patch made of it. *)
Definition known (c : PerconaPGCluster) (h : history) : Prop :=
  c = cr \/ exists o o' r, clusterPatch o o' r ∈ h /\ (r = Ok c \/ c = o').

Definition listed (k : kind) (ns : string) (selector : ListSelector) (l : list (obj k)) (h : history) : Prop :=
  (Ev (ListAll k ns selector : op) (Ok l : result (list (obj k))) : event resp) ∈ h.

(** A deletion of each was answered: it is deleted, or was not there. *)
Definition deleted (k : kind) (at_ : list key) (h : history) : Prop :=
  forall key, key ∈ at_ -> exists r : result unit,
    (Ev (Delete k key NoOptions : op) r : event resp) ∈ h /\ IgnoreNotFound (err_of r) = None.

(** The pods of the database, as they were listed *)
Definition pod_listed (c : PerconaPGCluster) (at_ : key) (h : history) : Prop :=
  exists (pods : list Pod) (pod : Pod), listed KPod (c_Namespace c) (podSelector c) pods h /\ pod ∈ pods /\
    at_ = (c_Namespace c, om_Name (p_Meta pod)).

(** Each repository was emptied. *)
Definition stanzas_deleted (c : PerconaPGCluster) (h : history) : Prop :=
  forall repo, repo ∈ bk_Repos (c_Backups c) -> exists pod (out : ExecOutput),
    (Ev (Exec pod "database" None (stanzaDelete (repo_Name repo)) : op) out : event resp) ∈ h /\ out_Err out = None.

Definition backup_listed (c : PerconaPGCluster) (b : PerconaPGBackup) (h : history) : Prop :=
  exists l : list PerconaPGBackup, listed KBackup (c_Namespace c) Everything l h /\ b ∈ l /\ b_PGCluster b = c_Name c.

Definition backups_deleted (c : PerconaPGCluster) (h : history) : Prop :=
  exists l : list PerconaPGBackup, listed KBackup (c_Namespace c) Everything l h /\
    forall b, b ∈ l -> b_PGCluster b = c_Name c ->
      (Ev (Delete KBackup (objectKey (b_Meta b)) NoOptions : op) (Ok tt : result unit) : event resp) ∈ h.

(** Volumes and user secrets, as they were listed, by their keys. *)
Definition volumes_listed (c : PerconaPGCluster) (at_ : list key) (h : history) : Prop :=
  exists pvcs : list PVC, listed KPVC (c_Namespace c) (clusterSelector c) pvcs h /\
    at_ = map (fun p => objectKey (pvc_Meta p)) pvcs.

Definition secrets_listed (c : PerconaPGCluster) (selector : ListSelector) (at_ : list key) (h : history) : Prop :=
  exists secrets : list DataObject, listed KSecret (c_Namespace c) selector secrets h /\
    at_ = map (fun s => objectKey (d_Meta s)) secrets.

Definition volumes_deleted (c : PerconaPGCluster) (h : history) : Prop :=
  exists at_, volumes_listed c at_ h /\ deleted KPVC at_ h.

Definition users_deleted (c : PerconaPGCluster) (h : history) : Prop :=
  exists at_, secrets_listed c (userSecretSelector c) at_ h /\ deleted KSecret at_ h.

(** The secrets with certificates: the operator's own, and those of every
    instance set. *)
Definition certificates_deleted (c : PerconaPGCluster) (h : history) : Prop :=
  deleted KSecret (ownTLSSecrets c) h /\
  forall set, set ∈ c_InstanceSets c -> exists at_,
    secrets_listed c (setSecretSelector c set) at_ h /\ deleted KSecret at_ h.

(** The PostgresCluster was looked for and not found. *)
Definition gone (h : history) : Prop :=
  exists e, got KCrunchy (clusterKey cr) (Err e) ∈ h /\ IsNotFound e = true.

(** The names in the registry were read and removed. *)
Definition names_removed (h : history) : Prop :=
  exists names : list string, (Ev (WatcherNames : op) names : event resp) ∈ h /\
    forall name, name ∈ names -> exists u, (Ev (RemoveWatcher name : op) u : event resp) ∈ h.

Definition stop_sent (c : PerconaPGCluster) (h : history) : Prop :=
  exists b, (Ev (SendStop (clusterKey c) : op) b : event resp) ∈ h.

(** The watchers of a cluster that has any were told to stop. *)
Definition watchers_told (h : history) : Prop :=
  FinalizerStopWatchers ∈ finalizersOf cr -> stop_sent cr h.

Definition finished (c : PerconaPGCluster) (f : string) (h : history) : Prop :=
  if decide (f = FinalizerStopWatchers) then stop_sent c h /\ names_removed h
  else if decide (f = FinalizerDeleteBackups) then stanzas_deleted c h /\ backups_deleted c h
  else if decide (f = FinalizerDeletePVC) then gone h /\ volumes_deleted c h /\ users_deleted c h
  else if decide (f = FinalizerDeleteSSL) then gone h /\ certificates_deleted c h
  else False.

(** An answer that is the sentinel by which a finalizer asks to be waited for.
    Neither a call nor [SetControllerReference] answers it; a theorem about
    all answers has to say so. *)
Definition pending_answer (h : history) : Prop :=
  (exists ev e, ev ∈ h /\ answer_err ev = Some e /\ isPending e = true) \/
  exists owner o e, SetControllerReference owner o = Err e /\ isPending e = true.

(** A finalizer that the cluster has is finished. *)
Definition settled (f : string) (h : history) : Prop :=
  exists c, known c h /\ (f ∈ finalizersOf c -> finished c f h \/ pending_answer h).

Definition deletion_call (h : history) (o : op) : Prop :=
  exists c, known c h /\
  match o with
  | SendStop k => FinalizerStopWatchers ∈ finalizersOf c /\ k = clusterKey c
  | WatcherNames | RemoveWatcher _ => FinalizerStopWatchers ∈ finalizersOf c
  | ListAll KPod ns selector => FinalizerDeleteBackups ∈ finalizersOf c /\ watchers_told h /\
      ns = c_Namespace c /\ selector = podSelector c
  | ListAll KBackup ns selector => FinalizerDeleteBackups ∈ finalizersOf c /\ watchers_told h /\
      ns = c_Namespace c /\ selector = Everything
  | Exec pod container None command => FinalizerDeleteBackups ∈ finalizersOf c /\ watchers_told h /\
      pod_listed c pod h /\ container = "database" /\
      exists repo, repo ∈ bk_Repos (c_Backups c) /\ repo_Name repo ∈ repoNames /\ command = stanzaDelete (repo_Name repo)
  | Delete KBackup k _ => FinalizerDeleteBackups ∈ finalizersOf c /\ watchers_told h /\ stanzas_deleted c h /\
      exists b, backup_listed c b h /\ k = objectKey (b_Meta b)
  | Delete KCrunchy k _ => k = clusterKey cr /\ watchers_told h /\ settled FinalizerDeleteBackups h
  | Get KCrunchy k => k = clusterKey cr
  | ListAll KPVC ns selector => gone h /\ FinalizerDeletePVC ∈ finalizersOf c /\
      ns = c_Namespace c /\ selector = clusterSelector c
  | Delete KPVC k _ => gone h /\ FinalizerDeletePVC ∈ finalizersOf c /\ exists at_, volumes_listed c at_ h /\ k ∈ at_
  | ListAll KSecret ns selector => gone h /\ ns = c_Namespace c /\
      (FinalizerDeletePVC ∈ finalizersOf c /\ volumes_deleted c h /\ selector = userSecretSelector c \/
       FinalizerDeleteSSL ∈ finalizersOf c /\ exists set, set ∈ c_InstanceSets c /\ selector = setSecretSelector c set)
  | Delete KSecret k _ => gone h /\
      (FinalizerDeletePVC ∈ finalizersOf c /\ (exists at_, secrets_listed c (userSecretSelector c) at_ h /\ k ∈ at_) \/
       FinalizerDeleteSSL ∈ finalizersOf c /\ (k ∈ ownTLSSecrets c \/ exists set at_,
         set ∈ c_InstanceSets c /\ secrets_listed c (setSecretSelector c set) at_ h /\ k ∈ at_))
  | Patch KPGCluster o o' => o = c /\ exists f fs, finished c f h /\
      o' = c <| c_Meta ::= fun m => m <| om_Finalizers := fs |> |> /\
      forall g, g ∈ fs <-> g <> f /\ g ∈ finalizersOf c
  | _ => False
  end.

Abbreviation safe := (wps deletion_call).

#[export] Instance grows_known c : Grows (known c).
Proof. unfold known. apply _. Qed.

#[export] Instance grows_pending : Grows pending_answer.
Proof. unfold pending_answer. apply _. Qed.

#[export] Instance grows_gone : Grows gone.
Proof. unfold gone. apply _. Qed.

#[export] Instance grows_listed k ns selector l : Grows (listed k ns selector l).
Proof. unfold listed. apply _. Qed.

#[export] Instance grows_deleted k at_ : Grows (deleted k at_).
Proof. unfold deleted. apply _. Qed.

#[export] Instance grows_pod_listed c at_ : Grows (pod_listed c at_).
Proof. unfold pod_listed. apply _. Qed.

#[export] Instance grows_names_removed : Grows names_removed.
Proof. unfold names_removed. apply _. Qed.

#[export] Instance grows_stanzas c : Grows (stanzas_deleted c).
Proof. unfold stanzas_deleted. apply _. Qed.

#[export] Instance grows_backup_listed c b : Grows (backup_listed c b).
Proof. unfold backup_listed. apply _. Qed.

#[export] Instance grows_backups c : Grows (backups_deleted c).
Proof. unfold backups_deleted. apply _. Qed.

#[export] Instance grows_volumes_listed c at_ : Grows (volumes_listed c at_).
Proof. unfold volumes_listed. apply _. Qed.

#[export] Instance grows_secrets_listed c selector at_ : Grows (secrets_listed c selector at_).
Proof. unfold secrets_listed. apply _. Qed.

#[export] Instance grows_volumes c : Grows (volumes_deleted c).
Proof. unfold volumes_deleted. apply _. Qed.

#[export] Instance grows_users c : Grows (users_deleted c).
Proof. unfold users_deleted. apply _. Qed.

#[export] Instance grows_certificates c : Grows (certificates_deleted c).
Proof. unfold certificates_deleted. apply _. Qed.

#[export] Instance grows_stop_sent c : Grows (stop_sent c).
Proof. unfold stop_sent. apply _. Qed.

#[export] Instance grows_told : Grows watchers_told.
Proof. unfold watchers_told. apply _. Qed.

#[export] Instance grows_finished c f : Grows (finished c f).
Proof. unfold finished. repeat case_decide; apply _. Qed.

#[export] Instance grows_settled f : Grows (settled f).
Proof. unfold settled. apply _. Qed.

(** The history grew, and a success left [P] of its value; a failure is the
    sentinel only where [X] holds. *)
Definition leads_or {A} (X : history -> Prop) (h : history) (P : A -> history -> Prop)
    (h' : history) (r : result A) : Prop :=
  h `prefix_of` h' /\ match r with Ok a => P a h' | Err e => isPending e = true -> X h' end.

Abbreviation leads := (leads_or pending_answer).

Lemma leads_after {A} X h h1 (P : A -> history -> Prop) h' r :
  h `prefix_of` h1 -> leads_or X h1 P h' r -> leads_or X h P h' r.
Proof. intros Hp [Hp1 Hr]. split; [by transitivity h1|done]. Qed.

Lemma leads_impl {A} X h (P P' : A -> history -> Prop) h' r :
  (forall a, h `prefix_of` h' -> P a h' -> P' a h') -> leads_or X h P h' r -> leads_or X h P' h' r.
Proof. intros HP [Hp Hr]. split; [done|]. destruct r; auto. Qed.

(** Steps in sequence. *)
Lemma leads_bindr {A B} h (p : action A) w (f : A -> action B) P Q :
  (forall e, isPending (w e) = isPending e) -> safe h p (leads h P) ->
  (forall h1 a, h `prefix_of` h1 -> P a h1 -> safe h1 (f a) (leads h1 Q)) ->
  safe h (bindr p w f) (leads h Q).
Proof.
  intros Hw Hp Hf. rewrite wps_bindr. eapply wps_conseq; [exact Hp|]. intros h1 [a|e] [Hp1 Hr].
  - eapply wps_conseq; [by apply Hf|]. intros h' r. by apply leads_after.
  - split; [done|]. by rewrite Hw.
Qed.

Lemma leads_list k ns selector h : deletion_call h (ListAll k ns selector) ->
  safe h (call (ListAll k ns selector)) (leads h (listed k ns selector)).
Proof.
  intros HG. split; [done|]. intros r. change (result (list (obj k))) in r. split; [by apply prefix_app_r|].
  destruct r as [l|e]; [apply elem_of_snoc|]. intros He. left. eexists _, e. by split; [apply elem_of_snoc|].
Qed.

(** Each of a list of objects is deleted. *)
Lemma deleteListed_safe k at_ : forall h,
  (forall h' key, h `prefix_of` h' -> key ∈ at_ -> deletion_call h' (Delete k key NoOptions)) ->
  safe h (deleteListed k at_) (leads h (fun _ => deleted k at_)).
Proof.
  induction at_ as [|key at_ IH]; intros h HG; simpl; [split; [done|]; by intros key ?%elem_of_nil|].
  split; [apply HG; [done|left]|]. intros r. change (result unit) in r. set (h1 := h ++ _).
  assert (Hp1 : h `prefix_of` h1) by by apply prefix_app_r.
  destruct (IgnoreNotFound (err_of r)) as [e|] eqn:Er.
  - split; [done|]. intros He. left. eexists _, e. split; [apply elem_of_snoc|]. split; [|exact He].
    by destruct r as [u|e']; simpl in *; [done|destruct (IsNotFound e'); [done|injection Er as ->]].
  - eapply wps_conseq; [apply IH; intros h' key' Hp Hin; apply HG; [by transitivity h1|by right]|].
    intros h' r' Hl. eapply leads_after; [exact Hp1|]. eapply leads_impl; [|exact Hl].
    intros u Hp Hd key' [->|Hin]%elem_of_cons; [|by apply Hd]. exists r. split; [|done].
    eapply elem_of_grow; [apply elem_of_snoc|exact Hp].
Qed.

Section OneObject.
Context (c : PerconaPGCluster).

(** The finalizer of volumes and users. *)
Lemma deletePVC_safe h : known c h -> gone h -> FinalizerDeletePVC ∈ finalizersOf c ->
  safe h (deletePVC c) (leads h (fun _ => volumes_deleted c)).
Proof.
  intros Hk Hg Hf. eapply leads_bindr; [done|apply leads_list; by exists c|]. intros h1 pvcs Hp1 Hl.
  eapply wps_conseq; [apply deleteListed_safe|].
  - intros h' key Hp Hin. assert (h `prefix_of` h') by by transitivity h1.
    exists c. split_and!; [by eapply grows|by eapply grows|done|]. eexists. split; [|exact Hin].
    exists pvcs. split; [by eapply grows|done].
  - intros h2 r. apply leads_impl. intros u Hp Hd. eexists. split; [|exact Hd].
    exists pvcs. split; [by eapply grows|done].
Qed.

Lemma deleteUserSecrets_safe h : known c h -> gone h -> FinalizerDeletePVC ∈ finalizersOf c ->
  volumes_deleted c h -> safe h (deleteUserSecrets c) (leads h (fun _ => users_deleted c)).
Proof.
  intros Hk Hg Hf Hv. eapply leads_bindr; [done|apply leads_list; exists c; split_and!; [done..|by left]|].
  intros h1 secrets Hp1 Hl. eapply wps_conseq; [apply deleteListed_safe|].
  - intros h' key Hp Hin. assert (h `prefix_of` h') by by transitivity h1.
    exists c. split_and!; [by eapply grows|by eapply grows|]. left. split; [done|]. eexists. split; [|exact Hin].
    exists secrets. split; [by eapply grows|done].
  - intros h2 r. apply leads_impl. intros u Hp Hd. eexists. split; [|exact Hd].
    exists secrets. split; [by eapply grows|done].
Qed.

Lemma deletePVCAndSecrets_safe h : known c h -> gone h -> FinalizerDeletePVC ∈ finalizersOf c ->
  safe h (deletePVCAndSecrets c) (leads h (fun _ => finished c FinalizerDeletePVC)).
Proof.
  intros Hk Hg Hf. eapply leads_bindr; [done|by apply deletePVC_safe|]. intros h1 u Hp1 Hv. cbv beta in Hv.
  eapply wps_conseq; [apply deleteUserSecrets_safe; [by eapply grows|by eapply grows|done|done]|].
  intros h2 r. apply leads_impl. intros u2 Hp2 Hu.
  change (gone h2 /\ volumes_deleted c h2 /\ users_deleted c h2). split_and!; [|by eapply grows|done].
  eapply grows; [exact Hg|by transitivity h1].
Qed.

(** The keys of the secrets of each set, among which there are no others. *)
Definition instance_secrets (sets : list PGInstanceSetSpec) (at_ : list key) (h : history) : Prop :=
  (forall key, key ∈ at_ -> exists set at_set,
     set ∈ sets /\ secrets_listed c (setSecretSelector c set) at_set h /\ key ∈ at_set) /\
  forall set, set ∈ sets -> exists at_set,
    secrets_listed c (setSecretSelector c set) at_set h /\ at_set ⊆ at_.

#[export] Instance grows_instance_secrets sets at_ : Grows (instance_secrets sets at_).
Proof. unfold instance_secrets. apply _. Qed.

Lemma instance_secrets_cons set sets at_set at_ h :
  secrets_listed c (setSecretSelector c set) at_set h -> instance_secrets sets at_ h ->
  instance_secrets (set :: sets) (at_set ++ at_) h.
Proof.
  intros Hl [Ho Hs]. split.
  - intros key [Hin|(set' & l & Hin & Hr)%Ho]%elem_of_app.
    + exists set, at_set. split_and!; [left|done..].
    + exists set', l. destruct Hr. split_and!; [by right|done..].
  - intros set' [->|(l & Hin & Hr)%Hs]%elem_of_cons; [exists at_set|exists l]; (split; [done|]); set_solver.
Qed.

Lemma instanceTLSSecrets_safe sets : forall h, known c h -> gone h -> FinalizerDeleteSSL ∈ finalizersOf c ->
  (forall set, set ∈ sets -> set ∈ c_InstanceSets c) ->
  safe h (instanceTLSSecrets c sets) (leads h (instance_secrets sets)).
Proof.
  induction sets as [|set sets IH]; intros h Hk Hg Hf Hin; cbn [instanceTLSSecrets].
  { split; [done|]. by split; intros ? ?%elem_of_nil. }
  eapply leads_bindr; [done|apply leads_list; exists c; split_and!; [done..|right; split; [done|]]|].
  { exists set. split; [apply Hin; left|done]. }
  intros h1 secrets Hp1 Hl. eapply leads_bindr; [done|apply IH; [by eapply grows|by eapply grows|done|]|].
  { intros set' Hset. apply Hin. by right. }
  intros h2 rest Hp2 Hr. split; [done|]. apply instance_secrets_cons; [|done].
  exists secrets. split; [by eapply grows|done].
Qed.

Lemma deleteTLSSecrets_safe h : known c h -> gone h -> FinalizerDeleteSSL ∈ finalizersOf c ->
  safe h (deleteTLSSecrets c) (leads h (fun _ => finished c FinalizerDeleteSSL)).
Proof.
  intros Hk Hg Hf. unfold deleteTLSSecrets. destruct (SetControllerReference _ _) eqn:Er; cycle 1.
  { split; [done|]. intros He. right. by eexists _, _, _. }
  eapply leads_bindr; [done|by apply instanceTLSSecrets_safe|]. intros h1 l Hp1 Hl.
  eapply wps_conseq; [apply deleteListed_safe|].
  - intros h' key Hp Hin. assert (h `prefix_of` h') by by transitivity h1. exists c.
    split_and!; [by eapply grows|by eapply grows|]. right. split; [done|].
    apply elem_of_app in Hin as [Hin|Hin]; [by left|right]. by apply (grows (P := instance_secrets _ _) _ _ Hl Hp).
  - intros h2 r. apply leads_impl. intros u Hp Hd.
    change (gone h2 /\ certificates_deleted c h2). split; [eapply grows; [exact Hg|by transitivity h1]|].
    destruct (grows (P := instance_secrets _ _) _ _ Hl Hp) as [_ Hs]. split.
    + intros key Hin. apply Hd, elem_of_app. by left.
    + intros set (at_ & Hls & Hsub)%Hs. exists at_. split; [done|]. intros key Hin. apply Hd, elem_of_app. auto.
Qed.

(** The finalizer of watchers. *)
Lemma removeWatchers_safe names : forall h, known c h -> FinalizerStopWatchers ∈ finalizersOf c ->
  safe h (removeWatchers names) (fun h' _ => h `prefix_of` h' /\
    forall name, name ∈ names -> exists u, (Ev (RemoveWatcher name : op) u : event resp) ∈ h').
Proof.
  induction names as [|name names IH]; intros h Hk Hf; simpl; [split; [done|]; by intros name ?%elem_of_nil|].
  split; [by exists c|]. intros u. set (h1 := h ++ _). assert (Hp1 : h `prefix_of` h1) by by apply prefix_app_r.
  eapply wps_conseq; [apply IH; [by eapply grows|done]|].
  intros h' r' [Hp Hn]. split; [by transitivity h1|]. intros name' [->|Hin]%elem_of_cons; [|by apply Hn].
  exists u. eapply elem_of_grow; [apply elem_of_snoc|exact Hp].
Qed.

Lemma stopExternalWatchers_safe h : known c h -> FinalizerStopWatchers ∈ finalizersOf c ->
  safe h (stopExternalWatchers c) (leads_or (fun _ => False) h (fun _ => finished c FinalizerStopWatchers)).
Proof.
  intros Hk Hf. unfold stopExternalWatchers. apply wps_call_bind. split; [by exists c|]. intros b.
  set (h1 := h ++ _). assert (Hp1 : h `prefix_of` h1) by by apply prefix_app_r.
  apply wps_call_bind. split; [exists c; split; [by eapply grows|done]|]. intros names. rewrite wps_bind.
  set (h2 := h1 ++ _). assert (Hp2 : h1 `prefix_of` h2) by by apply prefix_app_r.
  assert (Hp : h `prefix_of` h2) by by transitivity h1.
  eapply wps_conseq; [apply removeWatchers_safe; [by eapply grows|done]|].
  intros h3 [] [Hp3 Hn]. split; [by transitivity h2|].
  change (stop_sent c h3 /\ names_removed h3). split; [|exists names; split; [|done]].
  - exists b. eapply elem_of_grow; [apply elem_of_snoc|by transitivity h2].
  - eapply elem_of_grow; [apply elem_of_snoc|exact Hp3].
Qed.

(** The finalizer of backups. *)
Lemma deleteStanzas_safe pod repos : forall h, known c h -> FinalizerDeleteBackups ∈ finalizersOf c ->
  watchers_told h -> pod_listed c pod h -> (forall repo, repo ∈ repos -> repo ∈ bk_Repos (c_Backups c)) ->
  safe h (deleteStanzas pod repos) (leads h (fun _ h' =>
    forall repo, repo ∈ repos -> exists pod (out : ExecOutput),
      (Ev (Exec pod "database" None (stanzaDelete (repo_Name repo)) : op) out : event resp) ∈ h' /\ out_Err out = None)).
Proof.
  induction repos as [|repo repos IH]; intros h Hk Hf Hw Hpod Hin; simpl.
  { split; [done|]. by intros repo ?%elem_of_nil. }
  case_bool_decide as Hn; simpl; [|done]. split.
  { exists c. split_and!; [done..|]. exists repo. split_and!; [apply Hin; left|done|done]. }
  intros out. set (h1 := h ++ _). assert (Hp1 : h `prefix_of` h1) by by apply prefix_app_r.
  destruct (out_Err out) as [e|] eqn:Eo.
  { split; [done|]. intros He. left. eexists _, e. split; [apply elem_of_snoc|]. by split. }
  eapply wps_conseq; [apply IH; [by eapply grows|done|by eapply grows|by eapply grows|intros r Hr; apply Hin; by right]|].
  intros h2 r Hl. eapply leads_after; [exact Hp1|]. eapply leads_impl; [|exact Hl].
  intros u Hp2 Hr repo' [->|Hr']%elem_of_cons; [|by apply Hr]. exists pod, out. split; [|done].
  eapply elem_of_grow; [apply elem_of_snoc|exact Hp2].
Qed.

Lemma deleteBackupObjects_safe backups : forall h, known c h -> FinalizerDeleteBackups ∈ finalizersOf c ->
  watchers_told h -> stanzas_deleted c h ->
  (forall b, b ∈ backups -> b_PGCluster b = c_Name c -> backup_listed c b h) ->
  safe h (deleteBackupObjects c backups) (leads h (fun _ h' =>
    forall b, b ∈ backups -> b_PGCluster b = c_Name c ->
      (Ev (Delete KBackup (objectKey (b_Meta b)) NoOptions : op) (Ok tt : result unit) : event resp) ∈ h')).
Proof.
  induction backups as [|b backups IH]; intros h Hk Hf Hw Hst Hl; simpl.
  { split; [done|]. by intros b ?%elem_of_nil. }
  case_bool_decide as Hb; simpl; cycle 1.
  { eapply wps_conseq; [apply IH; [done|done|done|done|intros b' Hb'; apply Hl; by right]|].
    intros h' r. apply leads_impl. intros u Hp Hr b' [->|Hb']%elem_of_cons; [done|by apply Hr]. }
  split; [exists c; split_and!; [done..|]; exists b; split; [apply Hl; [left|done]|done]|].
  intros r. change (result unit) in r. set (h1 := h ++ _).
  assert (Hp1 : h `prefix_of` h1) by by apply prefix_app_r. destruct r as [[]|e]; cycle 1.
  { split; [done|]. intros He. left. eexists _, e. split; [apply elem_of_snoc|]. by split. }
  eapply wps_conseq; [apply IH; [by eapply grows|done|by eapply grows|by eapply grows|]|].
  { intros b' Hb' Hc. eapply grows; [|exact Hp1]. apply Hl; [by right|done]. }
  intros h2 r Hr. eapply leads_after; [exact Hp1|]. eapply leads_impl; [|exact Hr].
  intros u Hp2 Hd b' [->|Hb']%elem_of_cons Hc; [|by apply Hd]. eapply elem_of_grow; [apply elem_of_snoc|exact Hp2].
Qed.

Lemma deleteBackups_safe h : known c h -> FinalizerDeleteBackups ∈ finalizersOf c -> watchers_told h ->
  safe h (deleteBackups c) (leads h (fun _ => finished c FinalizerDeleteBackups)).
Proof.
  intros Hk Hf Hw. eapply leads_bindr; [done|apply leads_list; by exists c|].
  intros h1 [|pod pods] Hp1 Hpods; [by split|].
  assert (Hk1 : known c h1) by by eapply grows. assert (Hw1 : watchers_told h1) by by eapply grows.
  eapply leads_bindr; [done|apply (deleteStanzas_safe _ (bk_Repos (c_Backups c))); try done|].
  { exists (pod :: pods), pod. split_and!; [done|left|done]. } intros h2 u Hp2 Hst. cbv beta in Hst.
  assert (Hk2 : known c h2) by by eapply grows. assert (Hw2 : watchers_told h2) by by eapply grows.
  eapply leads_bindr; [done|apply leads_list; by exists c|]. intros h3 backups Hp3 Hl.
  eapply wps_conseq; [apply deleteBackupObjects_safe; [by eapply grows|done|by eapply grows|by eapply grows|]|].
  { intros b Hb Hc. by exists backups. }
  intros h4 r. apply leads_impl. intros u4 Hp4 Hr.
  change (stanzas_deleted c h4 /\ backups_deleted c h4). split.
  - eapply grows; [exact Hst|by transitivity h3].
  - exists backups. split; [by eapply grows|done].
Qed.
End OneObject.

(** A finalizer that the object has is run and then removed. *)
Lemma RunFinalizer_safe X `{!Grows X} c name fn h : known c h ->
  (name ∈ finalizersOf c -> safe h (fn c) (leads_or X h (fun _ => finished c name))) ->
  safe h (RunFinalizer (k := KPGCluster) c name fn) (fun h' '(c', r) => h `prefix_of` h' /\ known c' h' /\
    match r with Ok _ => name ∈ finalizersOf c -> finished c name h' \/ X h' | Err _ => True end).
Proof.
  intros Hk Hfn. unfold RunFinalizer. rewrite ContainsFinalizer_spec.
  change (om_Finalizers (meta (k := KPGCluster) c)) with (finalizersOf c).
  destruct (decide (name ∈ finalizersOf c)) as [Hin|Hin]; cycle 1.
  { by rewrite bool_decide_eq_false_2 by done. }
  rewrite bool_decide_eq_true_2 by done. cbn [negb]. rewrite wps_bind.
  eapply wps_conseq; [by apply Hfn|]. intros h1 [[]|e] [Hp Hr]; cycle 1.
  { assert (Hk1 : known c h1) by by eapply grows. destruct (isPending e); split_and!; try done. intros _. right. by apply Hr. }
  pose proof (RemoveFinalizer_spec (finalizersOf c) name) as HRF.
  destruct (RemoveFinalizer (finalizersOf c) name) as [fs ch]. simpl in HRF. destruct HRF as (Hch & _ & Hg).
  rewrite (bool_decide_eq_true_2 _ Hin) in Hch. subst ch.
  set (c' := c <| c_Meta ::= fun m => m <| om_Finalizers := fs |> |>).
  change (onMeta (k := KPGCluster) (fun m => m <| om_Finalizers := fs |>) c) with c'. cbv zeta.
  apply wps_call_bind. split.
  { exists c. split; [by eapply grows|]. split; [done|]. by exists name, fs. }
  intros r2. change (obj KPGCluster) with PerconaPGCluster in r2. set (h2 := h1 ++ _).
  assert (Hp2 : h1 `prefix_of` h2) by by apply prefix_app_r. assert (Hpp : h `prefix_of` h2) by by transitivity h1.
  assert (Hk2 : forall c2, r2 = Ok c2 \/ c2 = c' -> known c2 h2).
  { intros c2 Hc2. right. exists c, c', r2. split; [apply elem_of_snoc|]. exact Hc2. }
  assert (Hfin : finished c name h2) by by eapply grows.
  destruct r2 as [c2|e]; cbv beta iota; [|destruct (IsNotFound e)]; split_and!; try done;
    try (apply Hk2; by (left + right)); by left.
Qed.

(** Two finalizers, one after the other. *)
Lemma two_finalizers_safe X `{!Grows X} h c f1 fn1 f2 fn2 : known c h ->
  (f1 ∈ finalizersOf c -> safe h (fn1 c) (leads_or X h (fun _ => finished c f1))) ->
  (forall c1 h1, h `prefix_of` h1 -> known c1 h1 -> (f1 ∈ finalizersOf c -> finished c f1 h1 \/ X h1) ->
     f2 ∈ finalizersOf c1 -> safe h1 (fn2 c1) (leads h1 (fun _ => finished c1 f2))) ->
  safe h (runFinalizers c [(f1, fn1); (f2, fn2)]) (fun h' '(c', r) => h `prefix_of` h' /\ known c' h' /\
    match r with
    | Ok _ => (f1 ∈ finalizersOf c -> finished c f1 h' \/ X h') /\ settled f2 h'
    | Err _ => True
    end).
Proof.
  intros Hk H1 H2. cbn [runFinalizers]. rewrite wps_bind. eapply wps_conseq; [by apply (RunFinalizer_safe X)|].
  intros h1 [c1 [b|e]] (Hp1 & Hk1 & Hr1); [|by split_and!]. cbv beta iota. rewrite wps_bind.
  eapply wps_conseq; [apply (RunFinalizer_safe pending_answer); [exact Hk1|by apply H2]|].
  intros h2 [c2 [b2|e]] (Hp2 & Hk2 & Hr2); (assert (h `prefix_of` h2) by by transitivity h1); [|by split_and!].
  cbn. split_and!; [done|done| |exists c1; split; [by eapply grows|done]].
  intros Hf. destruct (Hr1 Hf); [left|right]; by eapply grows.
Qed.

(** Before the PostgresCluster: watchers, then backups. *)
Lemma pre_finalizers_safe :
  safe [] (runFinalizers cr prePostgresClusterDeletionFinalizers) (fun h' '(c', r) => known c' h' /\
    match r with Ok _ => watchers_told h' /\ settled FinalizerDeleteBackups h' | Err _ => True end).
Proof.
  eapply wps_conseq; [apply (two_finalizers_safe (fun _ => False)); [by left| |]|].
  - intros Hin. apply stopExternalWatchers_safe; [by left|done].
  - intros c1 h1 Hp1 Hk1 Hw Hin. apply deleteBackups_safe; [done..|]. intros Hf. destruct (Hw Hf) as [[Hs _]|[]]. exact Hs.
  - intros h' [c' [u|e]] (_ & Hk & Hr); (split; [done|]); [|done]. destruct Hr as [Hw Hs].
    split; [|done]. intros Hf. destruct (Hw Hf) as [[Hs' _]|[]]. exact Hs'.
Qed.

(** After it: volumes, users and certificates. *)
Lemma post_finalizers_safe h c : known c h -> gone h ->
  safe h (runFinalizers c postPostgresClusterDeletionFinalizers) (fun h' '(_, r) => h `prefix_of` h' /\
    match r with Ok _ => settled FinalizerDeletePVC h' /\ settled FinalizerDeleteSSL h' | Err _ => True end).
Proof.
  intros Hk Hg. eapply wps_conseq; [apply (two_finalizers_safe pending_answer); [exact Hk| |]|].
  - intros Hin. by apply deletePVCAndSecrets_safe.
  - intros c1 h1 Hp1 Hk1 _ Hin. apply deleteTLSSecrets_safe; [done|by eapply grows|done].
  - intros h' [c' [u|e]] (Hp & Hk' & Hr); (split; [done|]); [|done]. destruct Hr as [Hv Hs].
    split; [|done]. exists c. split; [by eapply grows|done].
Qed.

(** C15: the order in which a cluster is deleted, in every execution.  Watchers
    are told to stop before any backup is looked at; the PostgresCluster is
    deleted only after that, and when the finalizer for backups was absent or is
    finished: every repository was emptied, in a pod of the cluster, and every
    backup object that was listed is deleted.  Only those commands run, and
    their repository is one of repo1 to repo4 of the specification, so that
    nothing else of it reaches the shell.  Volumes and secrets are deleted only
    after the PostgresCluster was not found any more, only for their finalizers,
    and only those that were listed for the cluster, its users and its instance
    sets, or that the operator makes for it.  A finalizer is removed only when
    its work is done, alone, by a patch that changes nothing else: the watchers
    were told and their names removed; the repositories and backups are deleted;
    a deletion of every listed volume and user secret was answered, by success
    or by not found; and the same of every secret with certificates.  Without an
    error the deletion of the PostgresCluster was answered; without a delay as
    well it is gone, and each of the four finalizers was absent or its work is
    done.  An answer that is the sentinel by which a finalizer asks to be waited
    for ([pending_answer]), which no call gives, would leave the work of the
    finalizers for backups, volumes and secrets open. *)
Theorem deletion_order :
  wps deletion_call [] (reconcileDeletion cr) (fun h r =>
    (snd r = None -> deleted KCrunchy [clusterKey cr] h) /\
    (r = (0%Z, None) -> gone h /\ watchers_told h /\ settled FinalizerDeleteBackups h /\
       settled FinalizerDeletePVC h /\ settled FinalizerDeleteSSL h)).
Proof.
  unfold reconcileDeletion. rewrite wps_bind. eapply wps_conseq; [apply pre_finalizers_safe|].
  intros h1 [c1 [u|e]] [Hk1 Hr]; [|done]. destruct Hr as [Hw Hb]. cbv beta iota.
  apply wps_call_bind. split; [by exists c1|]. intros r. change (resp (Delete _ _ _)) with (result unit) in r.
  set (h2 := h1 ++ _). assert (Hp2 : h1 `prefix_of` h2) by by apply prefix_app_r.
  destruct (IgnoreNotFound (err_of r)) eqn:Ed; [done|].
  assert (Hd : deleted KCrunchy [clusterKey cr] h2).
  { intros key ->%list_elem_of_singleton. exists r. split; [apply elem_of_snoc|done]. }
  apply wps_call_bind. split; [by exists cr; split; [left|]|]. intros r'. set (h3 := h2 ++ _).
  assert (Hp3 : h2 `prefix_of` h3) by by apply prefix_app_r.
  destruct r' as [c|e]; [by split; [intros _; eapply grows|]|]. cbv beta iota.
  destruct (IsNotFound e) eqn:En; [|done]. cbn [negb].
  assert (Hg : gone h3) by (exists e; split; [apply elem_of_snoc|done]). assert (Hp13 : h1 `prefix_of` h3) by by transitivity h2.
  rewrite wps_bind. eapply wps_conseq; [apply post_finalizers_safe; [by eapply grows|done]|].
  intros h4 [c4 [u4|e4]] [Hp4 Hr]; [|done]. assert (h1 `prefix_of` h4) by by transitivity h3.
  destruct Hr as [Hv Hs]. split; intros _; [eapply grows; [exact Hd|by transitivity h3]|].
  split_and!; [by eapply grows..|done|done].
Qed.

(** A list of pods that came back empty. *)
Definition no_pods (e : event resp) : Prop :=
  let '(Ev o r) := e in
  match o return resp o -> Prop with
  | ListAll k _ _ => match k return result (list (obj k)) -> Prop with
                     | KPod => fun r => r = Ok []
                     | _ => fun _ => False
                     end
  | _ => fun _ => False
  end r.

(** A cluster whose backups are to be deleted cannot be deleted while it has
    no pods, for example while it is paused.  Once its watchers are stopped, a
    reconcile that lists no pod ends there, with an error, to be repeated: no
    other call is made, the PostgresCluster is not deleted and the finalizer
    stays. *)
Theorem deletion_waits_for_a_pod (h : history) (r : Z * option error) :
  FinalizerDeleteBackups ∈ finalizersOf cr -> FinalizerStopWatchers ∉ finalizersOf cr ->
  exec (reconcileDeletion cr) h r ->
  (forall e, head h = Some e -> no_pods e) ->
  length h = 1%nat /\ exists e, r = ((5 * second)%Z, Some e).
Proof.
  intros Hb Hw Hex Hh. unfold reconcileDeletion in Hex.
  cbn [runFinalizers prePostgresClusterDeletionFinalizers] in Hex. unfold RunFinalizer at 1 in Hex.
  rewrite ContainsFinalizer_spec in Hex. change (om_Finalizers (meta (k := KPGCluster) cr)) with (finalizersOf cr) in Hex.
  rewrite bool_decide_eq_false_2 in Hex by done. simpl in Hex. unfold RunFinalizer in Hex.
  rewrite ContainsFinalizer_spec in Hex. change (om_Finalizers (meta (k := KPGCluster) cr)) with (finalizersOf cr) in Hex.
  rewrite bool_decide_eq_true_2 in Hex by done. unfold deleteBackups in Hex. simpl in Hex.
  destruct Hex as (pods & h' & -> & Hex). specialize (Hh _ eq_refl). simpl in Hh. subst pods.
  simpl in Hex. destruct Hex as [-> ->]. split; [done|by eexists].
Qed.
End DeletionCalls.

(** ** Examples *)
#[local] Existing Instance ConcreteRuntime.runtime.

Definition deletedCluster : PerconaPGCluster :=
  examplePGCluster <| c_Meta ::= fun m => m <| om_Finalizers := [FinalizerDeleteBackups; FinalizerDeletePVC] |> |>.

Lemma deletion_waits_for_a_pod_witness :
  let h := [Ev (ListAll KPod "default" (podSelector deletedCluster) : op) (Ok [] : result (list Pod)) : event resp] in
  exists r, exec (reconcileDeletion deletedCluster) h r /\ length h = 1%nat /\ exists e, r = ((5 * second)%Z, Some e).
Proof.
  intros h. eexists. assert (Hex : exec (reconcileDeletion deletedCluster) h
    ((5 * second)%Z, Some (Wrap "run pre-postgrescluster finalizers"
       (Wrap ("run finalizer " +:+ FinalizerDeleteBackups)
         (Wrap ("run finalizer " +:+ FinalizerDeleteBackups) (New "no pods found")))))).
  { eexists _, _. split; [reflexivity|]. by split. }
  split; [exact Hex|].
  apply (deletion_waits_for_a_pod deletedCluster h); [by left| |exact Hex|by intros e [= <-]].
  change (FinalizerStopWatchers ∉ [FinalizerDeleteBackups; FinalizerDeletePVC]). apply (bool_decide_unpack _). by vm_compute.
Defined.
