(* ===== verification/Schedules.v ===== *)
(** * Scheduled backups

    The registry of scheduled backups ([percona/controller/pgcluster/cron.go])
    and the code that keeps it in step with the specification of a cluster and
    that runs when a schedule fires ([schedule.go]).  The cron library itself is
    the interface [CronLibrary]. *)
From S2P Require Import Prelude GoStrings Cluster Prog Errors Naming Objects Client BackupUtils Instances.

(** ** The cron library: [github.com/robfig/cron] *)

(** What a schedule runs: the closures of [createScheduledBackupFunc] and
    [createScheduledSnapshotFunc]. *)
Inductive CronFunc :=
| ScheduledBackup (backupName backupType repoName namespace clusterName : string)
| ScheduledSnapshot (backupName namespace clusterName : string).

#[export] Instance CronFunc_eq_dec : EqDecision CronFunc.
Proof. solve_decision. Defined.

(** The two kinds of schedules: fields, as in "0 0 * * 6", and a constant
    delay, as in "@every 1h". *)
Inductive ParsedSchedule := SpecSchedule | ConstantDelaySchedule.

Class CronLibrary := {
  Cron : Type;
  ParseStandard : string -> result ParsedSchedule;
  (** the entries that run, by identifier *)
  Entries : Cron -> gmap Z CronFunc;
  CronSchedule : Cron -> CronFunc -> Cron * Z;
  CronRemove : Cron -> Z -> Cron;
  CronSchedule_spec c f :
    Entries c !! (CronSchedule c f).2 = None /\
    Entries (CronSchedule c f).1 = <[(CronSchedule c f).2 := f]> (Entries c);
  CronRemove_spec c id : Entries (CronRemove c id) = delete id (Entries c)
}.

(** ** [cron.go] *)
Record BackupScheduleJob := mkScheduleJob { sj_schedule : string; sj_id : Z }.

Section CronRegistry.
Context `{CronLibrary}.

Record CronRegistry := mkRegistry { crons : Cron; backupJobs : gmap string BackupScheduleJob }.

(** A panic leaves the registry as it was at that point. *)
Inductive outcome := Done (r : result unit) | Panic.

Definition backupJobKey (name namespace : string) : string := name +:+ "-" +:+ namespace.

(** The type assertion panics for a schedule of the other kind. *)
Definition AddFuncWithSeconds (r : CronRegistry) (spec : string) (cmd : CronFunc)
    : CronRegistry * option (result Z) :=
  match ParseStandard spec with
  | Err e => (r, Some (Err (Wrap "failed to parse cron schedule" e)))
  | Ok ConstantDelaySchedule => (r, None)
  | Ok SpecSchedule =>
      let '(c, id) := CronSchedule (crons r) cmd in
      (mkRegistry c (backupJobs r), Some (Ok id))
  end.

Definition DeleteBackupJob (r : CronRegistry) (name namespace : string) : CronRegistry :=
  let key := backupJobKey name namespace in
  match backupJobs r !! key with
  | Some sch => mkRegistry (CronRemove (crons r) (sj_id sch)) (delete key (backupJobs r))
  | None => r
  end.

Definition ApplyBackupJob (r : CronRegistry) (name namespace schedule : string) (cmd : CronFunc)
    : CronRegistry * outcome :=
  let key := backupJobKey name namespace in
  if match backupJobs r !! key with Some sch => bool_decide (sj_schedule sch = schedule) | None => false end
  then (r, Done (Ok tt))
  else
    let r := DeleteBackupJob r name namespace in
    match AddFuncWithSeconds r schedule cmd with
    | (r, None) => (r, Panic)
    | (r, Some (Err e)) => (r, Done (Err (Wrap "failed to add backup job" e)))
    | (r, Some (Ok jobID)) =>
        (mkRegistry (crons r) (<[key := mkScheduleJob schedule jobID]> (backupJobs r)), Done (Ok tt))
    end.

(** ** [schedule.go] *)
Definition Full : string := "full".
Definition Differential : string := "diff".
Definition Incremental : string := "incr".

Definition crunchy (cr : PerconaPGCluster) : PostgresCluster := namedCluster (c_Namespace cr) (c_Name cr).

Definition scheduleName (cr : PerconaPGCluster) (backupType repoName : string) : NamedMeta :=
  PGBackRestCronJob (crunchy cr) backupType repoName.

(** The schedule of one type; the empty one is none, [None] is no type. *)
Definition scheduleOf (schedules : PGBackRestBackupSchedules) (backupType : string) : option string :=
  if bool_decide (backupType = Full) then Some (default "" (sched_Full schedules))
  else if bool_decide (backupType = Differential) then Some (default "" (sched_Differential schedules))
  else if bool_decide (backupType = Incremental) then Some (default "" (sched_Incremental schedules))
  else None.

(** The closure for one repository and type. *)
Definition backupFunc (cr : PerconaPGCluster) (repoName backupType : string) : CronFunc :=
  ScheduledBackup (meta_Name (scheduleName cr backupType repoName)) backupType repoName (c_Namespace cr) (c_Name cr).

(** A schedule that cannot be added is logged. *)
Definition reconcileScheduledBackup (r : CronRegistry) (cr : PerconaPGCluster) (repo : PGBackRestRepo)
    (backupType : string) : CronRegistry * outcome :=
  let name := scheduleName cr backupType (repo_Name repo) in
  match repo_Schedules repo with
  | None => (DeleteBackupJob r (meta_Name name) (meta_Namespace name), Done (Ok tt))
  | Some schedules =>
      match scheduleOf schedules backupType with
      | None => (r, Done (Err (New ("invalid backup type " +:+ backupType))))
      | Some schedule =>
          if negb (nonempty schedule)
          then (DeleteBackupJob r (meta_Name name) (meta_Namespace name), Done (Ok tt))
          else
            match ApplyBackupJob r (meta_Name name) (meta_Namespace name) schedule
                    (backupFunc cr (repo_Name repo) backupType) with
            | (r, Panic) => (r, Panic)
            | (r, Done _) => (r, Done (Ok tt))
            end
      end
  end.

Definition snapshotName (cr : PerconaPGCluster) : NamedMeta := VolumeSnapshotCronJob (crunchy cr).

Definition snapshotFunc (cr : PerconaPGCluster) : CronFunc :=
  ScheduledSnapshot (meta_Name (snapshotName cr)) (c_Namespace cr) (c_Name cr).

Definition reconcileScheduledSnapshots (r : CronRegistry) (cr : PerconaPGCluster) (schedule : option string)
    : CronRegistry * outcome :=
  let name := snapshotName cr in
  let schedule := default "" schedule in
  if negb (nonempty schedule)
  then (DeleteBackupJob r (meta_Name name) (meta_Namespace name), Done (Ok tt))
  else ApplyBackupJob r (meta_Name name) (meta_Namespace name) schedule (snapshotFunc cr).

(** The two loops: each repository, each type. *)
Definition repoTypes (repos : list PGBackRestRepo) : list (PGBackRestRepo * string) :=
  flat_map (fun repo => map (pair repo) [Full; Differential; Incremental]) repos.

Fixpoint reconcileAll (r : CronRegistry) (cr : PerconaPGCluster) (l : list (PGBackRestRepo * string))
    : CronRegistry * outcome :=
  match l with
  | [] => (r, Done (Ok tt))
  | (repo, t) :: l =>
      match reconcileScheduledBackup r cr repo t with
      | (r, Done (Ok _)) => reconcileAll r cr l
      | (r, Done (Err e)) =>
          (r, Done (Err (Wrap ("failed to reconcile scheduled " +:+ t +:+ " backup for " +:+ repo_Name repo +:+ " repo") e)))
      | (r, Panic) => (r, Panic)
      end
  end.

(** [BackupSnapshots] is the feature gate. *)
Definition reconcileScheduledBackups (BackupSnapshots : bool) (r : CronRegistry) (cr : PerconaPGCluster)
    : CronRegistry * outcome :=
  match reconcileAll r cr (repoTypes (bk_Repos (c_Backups cr))) with
  | (r, Done (Ok _)) =>
      match bk_VolumeSnapshots (c_Backups cr) with
      | Some snapshots =>
          if IsVolumeSnapshotsEnabled (c_Backups cr) && BackupSnapshots then
            match reconcileScheduledSnapshots r cr (vs_Schedule snapshots) with
            | (r, Done (Err e)) => (r, Done (Err (Wrap "failed to reconcile scheduled snapshots" e)))
            | other => other
            end
          else (r, Done (Ok tt))
      | None => (r, Done (Ok tt))
      end
  | other => other
  end.
End CronRegistry.

(** ** When a schedule fires *)
Section Fired.
Context `{ControllerRuntime, GoVersion, MetaConditions}.

(** Whether the job is to be deleted from the registry, or the outcome. *)
Inductive Fired := DeletesJob | Finished (r : result unit).

Definition newScheduled (backupName namespace : string) (metadata : option Metadata) (spec : ObjectMeta -> PerconaPGBackup)
    : PerconaPGBackup :=
  let md := default (mkMetadata ∅ ∅) metadata in
  spec (mkMeta "" namespace "" "" 0 0 None (md_Labels md) (md_Annotations md) [] None (backupName +:+ "-")).

Definition noStatus : PerconaPGBackupStatus := mkBackupStatus "" BackupNew "" None "" "" None None "" "" 0 "" None None [].

Definition scheduledBackup (backupName backupType repoName namespace : string) (cr : PerconaPGCluster) : PerconaPGBackup :=
  newScheduled backupName namespace
    (if bool_decide (0 <= c_CompareVersion cr "2.6.0")%Z then c_Metadata cr else None)
    (fun m => mkBackup m (c_Name cr) (Some repoName) None ["--type=" +:+ backupType] [] [] noStatus).

Definition scheduledSnapshot (backupName namespace : string) (cr : PerconaPGCluster) : PerconaPGBackup :=
  newScheduled backupName namespace (c_Metadata cr)
    (fun m => mkBackup m (c_Name cr) None (Some BackupMethodVolumeSnapshot) [] [] [] noStatus).

Definition notReadyForBackup (cr : PerconaPGCluster) : bool :=
  match FindStatusCondition (c_Conditions cr) ConditionClusterIsReadyForBackup with
  | Some condition => bool_decide (cond_Status condition = ConditionFalse)
  | None => false
  end.

Definition createBackup (backupName : string) (pb : PerconaPGBackup) : program Fired :=
  let! r := call (Create KBackup pb) in
  Ret (Finished (match r with Ok _ => Ok tt | Err e => Err (Wrap ("failed to create PerconaPGBackup " +:+ backupName) e) end)).

Definition createScheduledBackup (backupName backupType repoName namespace clusterName : string) : program Fired :=
  let! r := call (Get KPGCluster (namespace, clusterName)) in
  match r with
  | Err e => Ret (if IsNotFound e then DeletesJob else Finished (Err e))
  | Ok cr =>
      if negb (bool_decide (c_State cr = AppStateReady)) then Ret (Finished (Ok tt))
      else if notReadyForBackup cr then Ret (Finished (Ok tt))
      else createBackup backupName (scheduledBackup backupName backupType repoName namespace cr)
  end.

Definition createScheduledSnapshot (backupName namespace clusterName : string) : program Fired :=
  let! r := call (Get KPGCluster (namespace, clusterName)) in
  match r with
  | Err e => Ret (if IsNotFound e then DeletesJob else Finished (Err e))
  | Ok cr =>
      if negb (bool_decide (c_State cr = AppStateReady)) then Ret (Finished (Ok tt))
      else createBackup backupName (scheduledSnapshot backupName namespace cr)
  end.

(** The closure that runs, and the name of its job. *)
Definition fire (f : CronFunc) : program Fired :=
  match f with
  | ScheduledBackup b t repo ns c => createScheduledBackup b t repo ns c
  | ScheduledSnapshot b ns c => createScheduledSnapshot b ns c
  end.

Definition jobOf (f : CronFunc) : string :=
  match f with
  | ScheduledBackup b _ _ ns _ => backupJobKey b ns
  | ScheduledSnapshot b ns _ => backupJobKey b ns
  end.
End Fired.

(** ** The registry and the schedules that run *)
Section Invariant.
Context `{CronLibrary}.

(** Each registered job is an entry that runs its schedule, and each entry is
    registered: none is lost and none runs twice. *)
Definition consistent (r : CronRegistry) : Prop :=
  (forall key j, backupJobs r !! key = Some j ->
     ParseStandard (sj_schedule j) = Ok SpecSchedule /\
     exists f, Entries (crons r) !! sj_id j = Some f /\ jobOf f = key) /\
  (forall id f, Entries (crons r) !! id = Some f -> exists j, backupJobs r !! jobOf f = Some j /\ sj_id j = id).

Lemma DeleteBackupJob_jobs r name ns :
  backupJobs (DeleteBackupJob r name ns) = delete (backupJobKey name ns) (backupJobs r).
Proof. unfold DeleteBackupJob. case_match eqn:E; [done|]. by rewrite delete_id. Qed.

Lemma DeleteBackupJob_consistent r name ns : consistent r -> consistent (DeleteBackupJob r name ns).
Proof.
  intros [Hj He]. unfold DeleteBackupJob. destruct (backupJobs r !! backupJobKey name ns) as [s|] eqn:Es; [|done].
  destruct (Hj _ _ Es) as (_ & g & Hg & Hgk). split; simpl.
  - intros key j [Hne Hlk]%lookup_delete_Some. destruct (Hj _ _ Hlk) as (Hp & f & Hf & Hk). split; [done|].
    exists f. split; [|done]. rewrite CronRemove_spec, lookup_delete_ne; [done|]. intros Eid. rewrite <- Eid in Hf. congruence.
  - intros id f. rewrite CronRemove_spec. intros [Hne Hlk]%lookup_delete_Some.
    destruct (He _ _ Hlk) as (j & Hlj & <-). exists j. split; [|done]. rewrite lookup_delete_ne; [done|].
    intros E. rewrite <- E in Hlj. congruence.
Qed.

Lemma ApplyBackupJob_consistent r name ns schedule cmd : jobOf cmd = backupJobKey name ns ->
  consistent r -> consistent (fst (ApplyBackupJob r name ns schedule cmd)).
Proof.
  intros Hcmd Hc. unfold ApplyBackupJob. destruct (match _ with Some _ => _ | None => _ end); [done|].
  pose proof (DeleteBackupJob_consistent r name ns Hc) as Hd.
  pose proof (DeleteBackupJob_jobs r name ns) as Hdj.
  unfold AddFuncWithSeconds. destruct (ParseStandard schedule) as [[]|e] eqn:Ep; [|done..].
  set (d := DeleteBackupJob r name ns) in *. destruct Hd as [Hj He].
  pose proof (CronSchedule_spec (crons d) cmd) as [Hnew Hins]. destruct (CronSchedule (crons d) cmd) as [c id]; simpl in *.
  assert (Hfree : backupJobs d !! backupJobKey name ns = None) by (by rewrite Hdj, lookup_delete_eq).
  split; simpl.
  - intros key j [[<- <-]|[Hne Hlk]]%lookup_insert_Some; simpl.
    + split; [done|]. exists cmd. rewrite Hins, lookup_insert_eq. done.
    + destruct (Hj _ _ Hlk) as (Hp & f & Hf & Hk). split; [done|]. exists f. split; [|done].
      rewrite Hins, lookup_insert_ne; [done|]. intros E. rewrite <- E in Hf. congruence.
  - intros i f. rewrite Hins. intros [[<- <-]|[Hne Hlk]]%lookup_insert_Some.
    + rewrite Hcmd, lookup_insert_eq. by eexists.
    + destruct (He _ _ Hlk) as (j & Hlj & <-). exists j. split; [|done]. rewrite lookup_insert_ne; [done|].
      intros E. rewrite <- E in Hlj. congruence.
Qed.

Lemma reconcileScheduledBackup_consistent r cr repo t :
  consistent r -> consistent (fst (reconcileScheduledBackup r cr repo t)).
Proof.
  intros Hc. unfold reconcileScheduledBackup. destruct (repo_Schedules repo); [|by apply DeleteBackupJob_consistent].
  destruct (scheduleOf _ t); [|done]. destruct (negb _); [by apply DeleteBackupJob_consistent|].
  pose proof (ApplyBackupJob_consistent r (meta_Name (scheduleName cr t (repo_Name repo)))
    (meta_Namespace (scheduleName cr t (repo_Name repo))) s (backupFunc cr (repo_Name repo) t) eq_refl Hc) as Ha.
  by destruct (ApplyBackupJob _ _ _ _ _) as [r' []].
Qed.

Lemma reconcileAll_consistent l cr : forall r, consistent r -> consistent (fst (reconcileAll r cr l)).
Proof.
  induction l as [|[repo t] l IH]; intros r Hc; simpl; [done|].
  pose proof (reconcileScheduledBackup_consistent r cr repo t Hc).
  destruct (reconcileScheduledBackup r cr repo t) as [r' [[u|e]|]]; [by apply IH|done|done].
Qed.

Lemma reconcileScheduledBackups_consistent bs r cr :
  consistent r -> consistent (fst (reconcileScheduledBackups bs r cr)).
Proof.
  intros Hc. unfold reconcileScheduledBackups.
  pose proof (reconcileAll_consistent (repoTypes (bk_Repos (c_Backups cr))) cr r Hc) as Ha.
  destruct (reconcileAll _ _ _) as [r' [[u|e]|]]; [|done|done].
  destruct (bk_VolumeSnapshots _) as [v|]; [|done]. destruct (_ && _); [|done]. unfold reconcileScheduledSnapshots.
  destruct (negb _); [by apply DeleteBackupJob_consistent|].
  pose proof (ApplyBackupJob_consistent r' (meta_Name (snapshotName cr)) (meta_Namespace (snapshotName cr))
    (default "" (vs_Schedule v)) (snapshotFunc cr) eq_refl Ha) as Hs.
  by destruct (ApplyBackupJob _ _ _ _ _) as [r2 [[]|]].
Qed.
End Invariant.

Section Steps.
Context `{CronLibrary, ControllerRuntime, GoVersion, MetaConditions}.

(** The registry in use: reconciles of clusters, however they end, and entries
    that fire and find that their cluster is gone. *)
Inductive schedule_step (r : CronRegistry) : CronRegistry -> Prop :=
| step_reconcile bs cr : schedule_step r (fst (reconcileScheduledBackups bs r cr))
| step_fire id f h : Entries (crons r) !! id = Some f -> exec (fire f) h DeletesJob ->
    schedule_step r (match f with ScheduledBackup name _ _ ns _ | ScheduledSnapshot name ns _ => DeleteBackupJob r name ns end).

(** No schedule is lost and none runs twice.  Whatever clusters are
    reconciled, with valid schedules or not, and whichever entries fire: each
    registered job has a schedule that can be parsed and an entry of its own that
    runs for it, and every entry of the cron library is registered, so that it can
    be found and stopped. *)
Theorem schedules_consistent c r :
  Entries c = ∅ -> rtc schedule_step (mkRegistry c ∅) r -> consistent r.
Proof.
  intros He Hr. assert (Hc : consistent (mkRegistry c ∅)).
  { split; simpl; [by intros ?? ?%lookup_empty_Some|]. rewrite He. by intros ?? ?%lookup_empty_Some. }
  revert Hc. induction Hr as [r|r1 r2 r3 Hs Hr IH]; [done|]. intros Hc. apply IH.
  destruct Hs as [bs cr|id f h Hf Hex]; [by apply reconcileScheduledBackups_consistent|].
  destruct f; by apply DeleteBackupJob_consistent.
Qed.
End Steps.

(** ** The registry follows the specification *)
Section Specification.
Context `{CronLibrary}.

Definition types : list string := [Full; Differential; Incremental].

(** The schedule that the specification asks for, and that the cron library
    accepts. *)
Definition valid (schedule : string) : option string :=
  match ParseStandard schedule with Ok SpecSchedule => Some schedule | _ => None end.

(** The empty schedule is none. *)
Definition wanted (schedule : string) : option string := if nonempty schedule then valid schedule else None.

Definition desired (repo : PGBackRestRepo) (backupType : string) : option string :=
  s ← repo_Schedules repo ≫= fun schedules => scheduleOf schedules backupType; wanted s.

Definition scheduleKey (cr : PerconaPGCluster) (e : PGBackRestRepo * string) : string :=
  backupJobKey (meta_Name (scheduleName cr (snd e) (repo_Name (fst e)))) (c_Namespace cr).

Definition snapshotKey (cr : PerconaPGCluster) : string :=
  backupJobKey (meta_Name (snapshotName cr)) (c_Namespace cr).

Definition registered (r : CronRegistry) (key : string) : option string := sj_schedule <$> backupJobs r !! key.

Definition others_kept (keys : list string) (r r' : CronRegistry) : Prop :=
  forall key, key ∉ keys -> backupJobs r' !! key = backupJobs r !! key.

Lemma DeleteBackupJob_registered r name ns :
  registered (DeleteBackupJob r name ns) (backupJobKey name ns) = None /\
  others_kept [backupJobKey name ns] r (DeleteBackupJob r name ns).
Proof.
  unfold registered, others_kept. rewrite DeleteBackupJob_jobs, lookup_delete_eq. split; [done|].
  intros key Hk. rewrite lookup_delete_ne; [done|]. intros <-. apply Hk. by left.
Qed.

(** Without a panic, the answer is whether the schedule is valid. *)
Lemma ApplyBackupJob_registered r name ns schedule cmd r' a :
  consistent r -> ApplyBackupJob r name ns schedule cmd = (r', Done a) ->
  registered r' (backupJobKey name ns) = valid schedule /\ others_kept [backupJobKey name ns] r r' /\
  (a = Ok tt <-> is_Some (valid schedule)).
Proof.
  intros [Hc _]. unfold ApplyBackupJob.
  destruct (match _ with Some _ => _ | None => _ end) eqn:E.
  { intros [= <- <-]. unfold registered. destruct (backupJobs r !! _) as [j|] eqn:Ej; [|done].
    apply bool_decide_eq_true in E as <-. destruct (Hc _ _ Ej) as (Hp & _). unfold valid. by rewrite Hp. }
  destruct (DeleteBackupJob_registered r name ns) as [Hd Ho]. unfold AddFuncWithSeconds, valid.
  destruct (ParseStandard schedule) as [[]|e] eqn:Ep; [|done|intros [= <- <-]; split_and!; [done|done|]].
  - destruct (CronSchedule _ cmd) as [c id]. intros [= <- <-]. unfold registered. simpl. rewrite lookup_insert_eq.
    split_and!; [done| |done]. intros key Hk. simpl. rewrite lookup_insert_ne; [by apply Ho|]. intros <-. apply Hk. by left.
  - split; [done|]. by intros [].
Qed.

Lemma reconcileScheduledBackup_registered r cr repo t r' :
  consistent r -> t ∈ types -> reconcileScheduledBackup r cr repo t = (r', Done (Ok tt)) ->
  registered r' (scheduleKey cr (repo, t)) = desired repo t /\ others_kept [scheduleKey cr (repo, t)] r r'.
Proof.
  intros Hc Ht. unfold reconcileScheduledBackup, desired, wanted.
  destruct (repo_Schedules repo) as [s|]; [|intros [= <-]; apply DeleteBackupJob_registered].
  assert (Hs : is_Some (scheduleOf s t)).
  { unfold types in Ht. repeat (apply elem_of_cons in Ht as [->|Ht]; [by eexists|]). by apply elem_of_nil in Ht. }
  destruct Hs as [schedule Hs]. rewrite Hs. simpl.
  destruct (nonempty schedule) eqn:En; [|intros [= <-]; rewrite Hs; simpl; rewrite En; apply DeleteBackupJob_registered].
  simpl. destruct (ApplyBackupJob _ _ _ _ _) as [r2 [a|]] eqn:Ea; [|done]. intros [= <-].
  destruct (ApplyBackupJob_registered _ _ _ _ _ _ _ Hc Ea) as (H1 & H2 & _). rewrite Hs. simpl. rewrite En. by split.
Qed.

Lemma reconcileScheduledSnapshots_registered r cr schedule r' :
  consistent r -> reconcileScheduledSnapshots r cr schedule = (r', Done (Ok tt)) ->
  registered r' (snapshotKey cr) = wanted (default "" schedule) /\ others_kept [snapshotKey cr] r r'.
Proof.
  intros Hc. unfold reconcileScheduledSnapshots, wanted.
  destruct (nonempty _); simpl; [|intros [= <-]; apply DeleteBackupJob_registered]. intros Ea.
  by destruct (ApplyBackupJob_registered _ _ _ _ _ _ _ Hc Ea) as (H1 & H2 & _).
Qed.

Lemma reconcileAll_registered cr l : forall r r',
  consistent r -> NoDup (map (scheduleKey cr) l) -> (forall e, e ∈ l -> snd e ∈ types) ->
  reconcileAll r cr l = (r', Done (Ok tt)) ->
  (forall repo t, (repo, t) ∈ l -> registered r' (scheduleKey cr (repo, t)) = desired repo t) /\
  others_kept (map (scheduleKey cr) l) r r'.
Proof.
  induction l as [|[repo t] l IH]; intros r r' Hc Hnd Ht; simpl.
  { intros [= <-]. split; [by intros ?? ?%elem_of_nil|done]. }
  pose proof (reconcileScheduledBackup_consistent r cr repo t Hc) as Hc1.
  destruct (reconcileScheduledBackup r cr repo t) as [r1 [[[]|e]|]] eqn:E1; [|done|done]. intros Hr.
  simpl in Hnd. apply NoDup_cons in Hnd as [Hni Hnd].
  destruct (reconcileScheduledBackup_registered _ _ _ _ _ Hc (Ht (repo, t) ltac:(by left)) E1) as [H1 Ho1].
  destruct (IH _ _ Hc1 Hnd ltac:(intros; apply Ht; by right) Hr) as [H2 Ho2]. split.
  - intros repo' t' [[= -> ->]|Hin]%elem_of_cons; [|by apply H2].
    unfold registered. rewrite Ho2 by done. exact H1.
  - intros key [Hk1 Hk2]%not_elem_of_cons. rewrite Ho2 by done. apply Ho1. by rewrite list_elem_of_singleton.
Qed.
End Specification.

Section Keys.
Context (cr : PerconaPGCluster).

Lemma types_length t : t ∈ types -> t = Full \/ t = Differential \/ t = Incremental.
Proof. unfold types. rewrite !elem_of_cons, elem_of_nil. tauto. Qed.

(** The part of a key between the cluster's name and its namespace. *)
Lemma key_inj s s' : backupJobKey (c_Name cr +:+ "-" +:+ s) (c_Namespace cr) =
  backupJobKey (c_Name cr +:+ "-" +:+ s') (c_Namespace cr) -> s = s'.
Proof.
  unfold backupJobKey. rewrite <- !app_assoc_str. intros E%app_inj_r_str%app_inj_r_str.
  by apply app_inj_l_str in E.
Qed.

Lemma scheduleKey_inj e e' : snd e ∈ types -> snd e' ∈ types -> scheduleKey cr e = scheduleKey cr e' ->
  repo_Name (fst e) = repo_Name (fst e') /\ snd e = snd e'.
Proof.
  intros Ht%types_length Ht'%types_length E. apply (key_inj _ _) in E. rewrite <- !app_assoc_str in E.
  destruct Ht as [Ht|[Ht|Ht]], Ht' as [Ht'|[Ht'|Ht']]; rewrite Ht, Ht' in E |- *;
    (apply app_inj_length_str in E as [E E2]; [|done]); try done;
    by (split; [apply app_inj_r_str in E|]).
Qed.

Lemma all_chars_no_dash (s t : string) : all_chars (fun c => negb (bool_decide (c = "-"%char))) (s +:+ "-" +:+ t) = false.
Proof. rewrite !all_chars_app. simpl. by rewrite andb_false_r. Qed.

Lemma snapshotKey_fresh l : (forall e, e ∈ l -> snd e ∈ types) -> snapshotKey cr ∉ map (scheduleKey cr) l.
Proof.
  intros _ ([repo t] & E & _)%list_elem_of_fmap. apply (key_inj "snapshot" (repo_Name repo +:+ "-" +:+ t)) in E.
  pose proof (all_chars_no_dash (repo_Name repo) t) as Hd. by rewrite <- E in Hd.
Qed.

Lemma repoTypes_types repos e : e ∈ repoTypes repos -> fst e ∈ repos /\ snd e ∈ types.
Proof.
  unfold repoTypes. rewrite list_elem_of_In, in_flat_map. intros (repo & Hr & He).
  apply list_elem_of_In in He, Hr. apply list_elem_of_fmap in He as (t & -> & Ht). done.
Qed.

Lemma repoTypes_intro repos repo t : repo ∈ repos -> t ∈ types -> (repo, t) ∈ repoTypes repos.
Proof.
  intros Hr Ht. unfold repoTypes. rewrite list_elem_of_In, in_flat_map. exists repo. split; [by apply list_elem_of_In|].
  apply list_elem_of_In, list_elem_of_fmap. by exists t.
Qed.

Lemma scheduleKeys_NoDup repos : NoDup (map repo_Name repos) -> NoDup (map (scheduleKey cr) (repoTypes repos)).
Proof.
  induction repos as [|repo repos IH]; [constructor|]. simpl. intros [Hni Hnd]%NoDup_cons.
  assert (Hne : forall t t', t ∈ types -> t' ∈ types -> t <> t' -> scheduleKey cr (repo, t) <> scheduleKey cr (repo, t')).
  { intros t t' H1 H2 Hne E. by apply scheduleKey_inj in E as [_ ?]. }
  assert (Hout : forall t, t ∈ types -> scheduleKey cr (repo, t) ∉ map (scheduleKey cr) (repoTypes repos)).
  { intros t Ht ([repo' t'] & E & Hin)%list_elem_of_fmap. apply repoTypes_types in Hin as [Hr Ht'].
    apply scheduleKey_inj in E as [En _]; [|done|done]. apply Hni. apply list_elem_of_fmap.
    exists repo'. split; [exact En|done]. }
  assert (Hf : Full ∈ types /\ Differential ∈ types /\ Incremental ∈ types) by (unfold types; set_solver).
  destruct Hf as (Hf & Hd & Hi). repeat constructor; rewrite ?not_elem_of_cons; split_and?; auto.
Qed.
End Keys.

(** What a reconcile makes of the schedules.  When it succeeds, for each
    repository of the specification and each type of backup exactly the schedule
    that is set runs, if the cron library accepts it, and none otherwise; and
    likewise for volume snapshots while they are enabled.  Everything else stays:
    the schedules of other clusters, but also those of a repository that was
    removed from the specification, and the schedule of snapshots after they are
    disabled. *)
Theorem schedules_follow_specification `{CronLibrary} bs r r' cr :
  consistent r -> NoDup (map repo_Name (bk_Repos (c_Backups cr))) ->
  reconcileScheduledBackups bs r cr = (r', Done (Ok tt)) ->
  let snapshots := IsVolumeSnapshotsEnabled (c_Backups cr) && bs in
  (forall repo t, repo ∈ bk_Repos (c_Backups cr) -> t ∈ types ->
     registered r' (scheduleKey cr (repo, t)) = desired repo t) /\
  (forall v, bk_VolumeSnapshots (c_Backups cr) = Some v -> snapshots = true ->
     registered r' (snapshotKey cr) = wanted (default "" (vs_Schedule v))) /\
  others_kept (map (scheduleKey cr) (repoTypes (bk_Repos (c_Backups cr))) ++
               if snapshots then [snapshotKey cr] else []) r r'.
Proof.
  intros Hc Hnd Hrec snapshots. unfold reconcileScheduledBackups in Hrec.
  set (l := repoTypes _) in *.
  assert (Hl : forall e, e ∈ l -> snd e ∈ types) by (intros e He; by apply repoTypes_types in He as [_ ?]).
  assert (Hin : forall repo t, repo ∈ bk_Repos (c_Backups cr) -> t ∈ types -> (repo, t) ∈ l) by exact (repoTypes_intro _).
  pose proof (reconcileAll_consistent l cr r Hc) as Hc1.
  destruct (reconcileAll r cr l) as [r1 [[[]|e]|]] eqn:E1; [|done|done].
  destruct (reconcileAll_registered cr l r r1 Hc (scheduleKeys_NoDup cr _ Hnd) Hl E1) as [H1 Ho1].
  pose proof (snapshotKey_fresh cr l Hl) as Hfresh. unfold snapshots. unfold IsVolumeSnapshotsEnabled in *.
  destruct (bk_VolumeSnapshots (c_Backups cr)) as [v|]; [|injection Hrec as <-; rewrite app_nil_r; split_and!; [auto|done|done]].
  destruct (nonempty (vs_ClassName v) && bs); cycle 1.
  { injection Hrec as <-. rewrite app_nil_r. split_and!; [auto|done|done]. }
  destruct (reconcileScheduledSnapshots r1 cr (vs_Schedule v)) as [r2 [[[]|e]|]] eqn:E2; [|done|done].
  injection Hrec as <-. destruct (reconcileScheduledSnapshots_registered _ _ _ _ Hc1 E2) as [H2 Ho2]. split_and!.
  - intros repo t Hr Ht. unfold registered. rewrite Ho2; [by apply H1; auto|].
    rewrite list_elem_of_singleton. intros E. apply Hfresh. rewrite <- E. apply list_elem_of_fmap.
    exists (repo, t). split; [done|by apply Hin].
  - by intros v' [= <-] _.
  - intros key [Hk1 Hk2]%not_elem_of_app. by rewrite Ho2, Ho1.
Qed.

Section ConstantDelay.
Context `{CronLibrary}.

Lemma reconcileScheduledBackup_outcome r cr repo t : t ∈ types ->
  snd (reconcileScheduledBackup r cr repo t) = Done (Ok tt) \/ snd (reconcileScheduledBackup r cr repo t) = Panic.
Proof.
  intros Ht. unfold reconcileScheduledBackup. destruct (repo_Schedules repo) as [s|]; [|by left].
  assert (Hs : is_Some (scheduleOf s t)) by (apply types_length in Ht as [->|[->| ->]]; by eexists).
  destruct Hs as [schedule ->]. destruct (negb _); [by left|].
  destruct (ApplyBackupJob _ _ _ _ _) as [r2 [a|]]; [by left|by right].
Qed.

Lemma constant_delay_panics r cr repo t s :
  consistent r -> (repo_Schedules repo ≫= fun schedules => scheduleOf schedules t) = Some s -> nonempty s = true ->
  ParseStandard s = Ok ConstantDelaySchedule -> snd (reconcileScheduledBackup r cr repo t) = Panic.
Proof.
  intros [Hc _] Hs Hn Hp. unfold reconcileScheduledBackup. destruct (repo_Schedules repo) as [sch|]; [|done].
  simpl in Hs. rewrite Hs, Hn. simpl. unfold ApplyBackupJob.
  destruct (backupJobs r !! _) as [j|] eqn:Ej; unfold AddFuncWithSeconds; [|by rewrite Hp].
  case_bool_decide as E; [|by rewrite Hp]. destruct (Hc _ _ Ej) as (Hj & _). congruence.
Qed.

(** A schedule with a constant delay, such as "@every 1h", stops the
    reconciliation of its cluster.  The registry takes the schedule for one with
    fields and panics; as nothing is registered, so does every later reconcile, and
    none of the steps after the schedules (volumes, the PostgresCluster, the
    status) is ever reached. *)
Theorem constant_delay_always_panics bs r cr repo t s :
  consistent r -> repo ∈ bk_Repos (c_Backups cr) -> t ∈ types ->
  (repo_Schedules repo ≫= fun schedules => scheduleOf schedules t) = Some s -> nonempty s = true ->
  ParseStandard s = Ok ConstantDelaySchedule ->
  snd (reconcileScheduledBackups bs r cr) = Panic /\ consistent (fst (reconcileScheduledBackups bs r cr)).
Proof.
  intros Hc Hr Ht Hs Hn Hp. split; [|by apply reconcileScheduledBackups_consistent].
  assert (Hl : forall e, e ∈ repoTypes (bk_Repos (c_Backups cr)) -> snd e ∈ types)
    by (intros e He; by apply repoTypes_types in He as [_ ?]).
  pose proof (repoTypes_intro (bk_Repos (c_Backups cr)) repo t Hr Ht) as Hin.
  assert (Hall : snd (reconcileAll r cr (repoTypes (bk_Repos (c_Backups cr)))) = Panic).
  { revert r Hc. induction (repoTypes _) as [|[repo' t'] l IH]; intros r Hc; [by apply elem_of_nil in Hin|].
    simpl. pose proof (reconcileScheduledBackup_consistent r cr repo' t' Hc) as Hc'.
    pose proof (reconcileScheduledBackup_outcome r cr repo' t' (Hl (repo', t') ltac:(by left))) as Ho.
    apply elem_of_cons in Hin as [[= <- <-]|Hin].
    - pose proof (constant_delay_panics r cr repo t s Hc Hs Hn Hp) as Hpanic.
      by destruct (reconcileScheduledBackup r cr repo t) as [r1 [a|]].
    - destruct (reconcileScheduledBackup r cr repo' t') as [r1 [[[]|e]|]]; [|by destruct Ho|done].
      apply IH; [intros; apply Hl; by right|done|done]. }
  unfold reconcileScheduledBackups. destruct (reconcileAll r cr _) as [r1 [a|]]; done.
Qed.
End ConstantDelay.

(** ** A schedule that fires *)
Section FiredCalls.
Context `{ControllerRuntime, GoVersion, MetaConditions} (f : CronFunc).

Definition firedCluster : key :=
  match f with ScheduledBackup _ _ _ ns c | ScheduledSnapshot _ ns c => (ns, c) end.

Definition fired_call (h : history) (o : op) : Prop :=
  match o with
  | Get KPGCluster k => k = firedCluster
  | Create KBackup b => exists cr, got KPGCluster firedCluster (Ok cr) ∈ h /\ c_State cr = AppStateReady /\
      match f with
      | ScheduledBackup name t repo ns _ => notReadyForBackup cr = false /\ b = scheduledBackup name t repo ns cr
      | ScheduledSnapshot name ns _ => b = scheduledSnapshot name ns cr
      end
  | _ => False
  end.

(** Its backup is created only for a ready cluster, and the schedule is deleted
    only when the cluster is gone.  The condition for backups is not asked for
    a snapshot. *)
Lemma fired_calls :
  wps fired_call [] (fire f) (fun h r =>
    r = DeletesJob -> exists e, got KPGCluster firedCluster (Err e) ∈ h /\ IsNotFound e = true).
Proof.
  assert (Hnf : forall e, (if IsNotFound e then DeletesJob else Finished (Err e)) = DeletesJob ->
    exists e0, got KPGCluster firedCluster (Err e0) ∈ [got KPGCluster firedCluster (Err e)] /\ IsNotFound e0 = true).
  { intros e He. exists e. split; [by left|]. by destruct (IsNotFound e). }
  unfold fire, fired_call, firedCluster in *. destruct f; unfold createScheduledBackup, createScheduledSnapshot; (apply wps_call_bind; split; [done|]); intros [cr|e]; try exact (Hnf e).
  - cbv beta iota. case_bool_decide as Es; [|done]. simpl negb. cbv iota. destruct (notReadyForBackup cr) eqn:En; [done|].
    split; [exists cr; split; [apply elem_of_snoc|by split_and!]|]. by intros [b|e].
  - cbv beta iota. case_bool_decide as Es; [|done]. simpl negb. cbv iota.
    split; [exists cr; split; [apply elem_of_snoc|by split_and!]|]. by intros [b|e].
Qed.
End FiredCalls.

(** ** Examples *)
Module ExampleCron.
Definition parse (s : string) : result ParsedSchedule :=
  if HasPrefix s "@every " then Ok ConstantDelaySchedule
  else if nonempty s then Ok SpecSchedule else Err (New "empty spec string").

Definition library : CronLibrary.
Proof.
  refine (Build_CronLibrary (gmap Z CronFunc) parse id (fun c f => (<[fresh (dom c) := f]> c, fresh (dom c)))
    (fun c i => delete i c) _ _).
  - intros c f. split; [|done]. apply not_elem_of_dom, is_fresh.
  - done.
Defined.

Definition repo (schedule : string) : PGBackRestRepo :=
  mkRepo "repo1" None None None None (Some (mkSchedules (Some schedule) None None)).

Definition cluster (schedule : string) : PerconaPGCluster :=
  examplePGCluster <| c_Backups ::= fun b => b <| bk_Repos := [repo schedule] |> |>.
End ExampleCron.

#[local] Existing Instance ExampleCron.library.
#[local] Existing Instance ConcreteRuntime.runtime.

Definition emptyRegistry : CronRegistry := mkRegistry (∅ : gmap Z CronFunc) ∅.

Lemma emptyRegistry_consistent : consistent emptyRegistry.
Proof. split; intros k x Hk; exfalso; revert Hk; cbn; by rewrite lookup_empty. Qed.

Lemma constant_delay_always_panics_witness :
  snd (reconcileScheduledBackups false emptyRegistry (ExampleCron.cluster "@every 1h")) = Panic.
Proof.
  apply (constant_delay_always_panics false emptyRegistry (ExampleCron.cluster "@every 1h")
    (ExampleCron.repo "@every 1h") Full "@every 1h" emptyRegistry_consistent);
    [by left|by left|by vm_compute..].
Defined.

Lemma schedules_follow_specification_witness :
  let r := reconcileScheduledBackups false emptyRegistry (ExampleCron.cluster "0 0 * * 6") in
  snd r = Done (Ok tt) /\ registered (fst r) "cluster1-repo1-full-default" = Some "0 0 * * 6".
Proof.
  set (cr := ExampleCron.cluster "0 0 * * 6"). set (repo := ExampleCron.repo "0 0 * * 6").
  assert (Hs : snd (reconcileScheduledBackups false emptyRegistry cr) = Done (Ok tt)) by (vm_compute; reflexivity).
  assert (Hk : scheduleKey cr (repo, Full) = "cluster1-repo1-full-default") by (vm_compute; reflexivity).
  assert (Hd : desired repo Full = Some "0 0 * * 6") by (vm_compute; reflexivity).
  destruct (reconcileScheduledBackups false emptyRegistry cr) as [r o] eqn:E. simpl in Hs |- *. subst o. split; [done|].
  destruct (schedules_follow_specification false emptyRegistry r cr emptyRegistry_consistent) as (H1 & _); [|exact E|].
  - simpl. repeat constructor. by intros ?%elem_of_nil.
  - rewrite <- Hk, <- Hd. apply H1; [by left|by left].
Defined.

#[local] Existing Instance ListConditions.conditions.
#[local] Existing Instance DottedVersions.versions.

(** After a reconcile of a cluster with a schedule. *)
Lemma schedules_consistent_witness :
  let r := fst (reconcileScheduledBackups false emptyRegistry (ExampleCron.cluster "0 0 * * 6")) in
  size (backupJobs r) = 1%nat /\ consistent r.
Proof.
  intros r. split; [by vm_compute|]. apply (schedules_consistent (crons emptyRegistry) r); [reflexivity|].
  apply rtc_once. exact (step_reconcile emptyRegistry false (ExampleCron.cluster "0 0 * * 6")).
Defined.
