(* ===== verification/Snapshots.v ===== *)
(** * Volume snapshot backups

    [percona/controller/pgbackup/snapshots]: the state machine of reconcile.go
    and the offline executor of offline.go, which suspends one replica of the
    cluster while its volumes are snapshotted. *)
From S2P Require Import Prelude GoStrings Cluster Prog Errors Naming Objects Client Psql BackupUtils.
From S2P Require Import Instances.

(** [reconcile.Result]: the delay after which to reconcile again, in seconds;
    0 for none. *)
Definition Result : Type := Z.

Definition annotationBackupTarget : string := PrefixPerconaPGV2 +:+ "backup-target".

(** nanoseconds *)
Definition second : Z := 1000000000.
Definition defaultSnapshotErrorDeadline : Z := 5 * 60 * second.

Definition errVolumeSnapshotFailed : error := Sentinel "volume snapshot failed".
Definition isSnapshotFailed (e : error) : bool := Is e "volume snapshot failed".

(** The [snapshotExecutor] interface: prepare the cluster and name the instance
    whose volumes to snapshot; undo it. *)
Record snapshotExecutor := mkExecutor {
  exec_prepare : action string;
  exec_finalize : action unit
}.

Section Offline.
Context `{ControllerRuntime}.
Context (cluster : PerconaPGCluster) (backup : PerconaPGBackup).

(** ** [offline.go] *)
Definition newSnapshotConfig (volumeSnapshots : VolumeSnapshotsSpec) : OfflineSnapshotConfig :=
  let defaultConfig := DefaultOfflineSnapshotConfig in
  match vs_OfflineConfig volumeSnapshots with
  | None => defaultConfig
  | Some config =>
      match off_Checkpoint config with
      | None => mkOffline (off_Checkpoint defaultConfig)
      | Some _ => config
      end
  end.

Definition getBackupTarget : action string :=
  let name := annotation (b_Meta backup) annotationBackupTarget in
  if nonempty name then Ret (Ok name) else
  do! replicas := GetReplicaPods cluster or "failed to get replica pods" in
  match replicas with
  | [] => Ret (Err (New "no replica pods found"))
  | targetPod :: _ =>
      let instanceName := label (p_Meta targetPod) LabelInstance in
      if negb (nonempty instanceName)
      then Ret (Err (New "cannot determine instance name from pod labels"))
      else Ret (Ok instanceName)
  end.

(** A nil [Checkpoint] would be a panic; [newSnapshotConfig] never leaves one. *)
Definition checkpoint (config : OfflineSnapshotConfig) (instanceName : string) : action unit :=
  match off_Checkpoint config with
  | None => Ret (Err panic)
  | Some cp =>
      if negb (deref (cp_Enabled cp) true) then Ret (Ok tt) else
      let timeoutSeconds := deref (cp_TimeoutSeconds cp) 300%Z in
      let! out := ExecInDatabasesFromQuery
        (podExecutor (c_Namespace cluster, instanceName +:+ "-0") ContainerDatabase)
        "SELECT pg_catalog.current_database()"
        "SET statement_timeout = :'timeout'; CHECKPOINT;"
        {["timeout" := pretty timeoutSeconds +:+ "s"; "ON_ERROR_STOP" := "on"; "QUIET" := "on"]} in
      match out_Err out with
      | Some e => Ret (Err (Wrap "failed to execute checkpoint" e))
      | None =>
          if nonempty (out_Stderr out)
          then Ret (Err (New ("checkpoint failed: " +:+ out_Stderr out)))
          else Ret (Ok tt)
      end
  end.

Definition suspendInstance (instanceName : string) : action unit :=
  do! _ := PollUntilContextTimeout (SuspendInstance (c_Namespace cluster, instanceName))
           or "failed to wait for suspension" in
  Ret (Ok tt).

Definition resumeInstance (instanceName : string) : action unit :=
  do! _ := PollUntilContextTimeout (UnsuspendInstance (c_Namespace cluster, instanceName))
           or "failed to wait for unsuspend" in
  Ret (Ok tt).

Definition prepare (config : OfflineSnapshotConfig) : action string :=
  do! targetInstance := getBackupTarget or "failed to get backup target pod" in
  do! _ := checkpoint config targetInstance or "failed to checkpoint instance" in
  do! _ := suspendInstance targetInstance or "failed to suspend instance" in
  Ret (Ok targetInstance).

Definition finalize : action unit :=
  do! targetInstance := getBackupTarget or "failed to get backup target" in
  do! _ := resumeInstance targetInstance or "failed to resume instance" in
  Ret (Ok tt).

Definition newOfflineExec (volumeSnapshots : VolumeSnapshotsSpec) : snapshotExecutor :=
  mkExecutor (prepare (newSnapshotConfig volumeSnapshots)) finalize.

Definition VolumeSnapshotModeOffline : string := "offline".

Definition newSnapshotExec (volumeSnapshots : VolumeSnapshotsSpec) : result snapshotExecutor :=
  if decide (vs_Mode volumeSnapshots = VolumeSnapshotModeOffline)
  then Ok (newOfflineExec volumeSnapshots)
  else Err (New ("invalid or unsupported volume snapshot mode: " +:+ vs_Mode volumeSnapshots)).
End Offline.

(** ** [reconcile.go] *)
Section Snapshots.
Context `{ControllerRuntime}.
(** [feature.Enabled(ctx, feature.BackupSnapshots)] *)
Context (BackupSnapshots : bool).
(** the text of a multierror *)
Context (multierror : list error -> string).

Section Reconciler.
Context (cluster : PerconaPGCluster) (className : string) (backup : PerconaPGBackup).
Context (exec : snapshotExecutor).

Definition setStatus (f : PerconaPGBackupStatus -> PerconaPGBackupStatus) (bcp : PerconaPGBackup)
    : PerconaPGBackup := bcp <| b_Status ::= f |>.

(** [prepare] of the reconciler: the cluster is prepared, then the target is
    recorded, then the finalizer is added. *)
Definition prepareBackup : action unit :=
  if ContainsFinalizer (om_Finalizers (b_Meta backup)) FinalizerSnapshotInProgress
  then Ret (Ok tt) else
  do! targetInstance := exec_prepare exec or "failed to prepare for snapshot" in
  let backup' := backup <| b_Meta ::= fun m =>
    m <| om_Annotations ::= fun a => <[annotationBackupTarget := targetInstance]> a |> |> in
  do! _ := call (Patch KBackup backup backup') or "failed to patch backup annotations" in
  do! _ := RetryOnConflict (
      do! bcp := call (Get KBackup (objectKey (b_Meta backup'))) in
      let bcp' := bcp <| b_Meta ::= fun m =>
        m <| om_Finalizers ::= fun l => (AddFinalizer l FinalizerSnapshotInProgress).1 |> |> in
      ignore (call (Patch KBackup bcp bcp')))
    or "failed to add backup finalizer" in
  Ret (Ok tt).

Definition complete : action unit :=
  if negb (ContainsFinalizer (om_Finalizers (b_Meta backup)) FinalizerSnapshotInProgress)
  then Ret (Ok tt) else
  do! _ := exec_finalize exec or "finalize failed" in
  do! _ := RetryOnConflict (
      do! bcp := call (Get KBackup (objectKey (b_Meta backup))) in
      let bcp' := bcp <| b_Meta ::= fun m =>
        m <| om_Finalizers ::= fun l => (RemoveFinalizer l FinalizerSnapshotInProgress).1 |> |> in
      ignore (call (Patch KBackup bcp bcp')))
    or "failed to remove finalizer" in
  Ret (Ok tt).

Definition ensureSnapshot (volumeSnapshot : VolumeSnapshot) : action (VolumeSnapshot * bool) :=
  let! r := call (Create KSnapshot volumeSnapshot) in
  match r with
  | Ok created => Ret (Ok (created, true))
  | Err e => match IgnoreAlreadyExists (Some e) with
             | Some e => Ret (Err e)
             | None => Ret (Ok (volumeSnapshot, false))
             end
  end.

Definition shouldFailSnapshot (volumeSnapshot : VolumeSnapshot) : program bool :=
  match s_Status volumeSnapshot with
  | Some st =>
      match vss_Error st with
      | Some err =>
          match vse_Time err with
          | Some errAt =>
              let! now := call Now in
              Ret (bool_decide (errAt + defaultSnapshotErrorDeadline < now)%Z)
          | None => Ret false
          end
      | None => Ret false
      end
  | None => Ret false
  end.

Definition reconcileSnapshot (volumeSnapshot : VolumeSnapshot) : action (VolumeSnapshot * bool) :=
  do! (volumeSnapshot, created) := ensureSnapshot volumeSnapshot or "failed to ensure snapshot" in
  if created then Ret (Ok (volumeSnapshot, false)) else
  do! volumeSnapshot := call (Get KSnapshot (objectKey (s_Meta volumeSnapshot)))
                        or "failed to get volume snapshot" in
  match s_Status volumeSnapshot with
  | None => Ret (Ok (volumeSnapshot, false))
  | Some st =>
      if deref (vss_ReadyToUse st) false then Ret (Ok (volumeSnapshot, true)) else
      match vss_Error st with
      | Some err =>
          let message := deref (vse_Message err) "" in
          let! fail := shouldFailSnapshot volumeSnapshot in
          if negb fail then Ret (Ok (volumeSnapshot, false)) else
          Ret (Err (Wrap ("VolumeSnapshot " +:+ om_Name (s_Meta volumeSnapshot) +:+ " failed: " +:+
                          message) errVolumeSnapshotFailed))
      | None => Ret (Ok (volumeSnapshot, false))
      end
  end.

Definition generateSnapshotIntent (snapshotRole sourcePVC : string) : result VolumeSnapshot :=
  let name := b_Name backup +:+ "-" +:+ snapshotRole in
  let m := mkMeta name (b_Namespace backup) "" "" 0 0 None ∅ ∅ [] None "" in
  match SetControllerReference (b_Meta backup) m with
  | Ok m => Ok (mkSnapshot m (Some className) (Some sourcePVC) None)
  | Err e => Err (Wrap "failed to set owner reference on volume snapshot" e)
  end.

(** The part the three reconcilers share: make the intent for a role,
    reconcile the snapshot, and record its name in the status. *)
Definition reconcileRole (role targetPVC : string) (record : string -> SnapshotStatus -> SnapshotStatus)
    : action bool :=
  match generateSnapshotIntent role targetPVC with
  | Err e => Ret (Err (Wrap "failed to generate snapshot intent" e))
  | Ok volumeSnapshot =>
      do! (volumeSnapshot, ok) := reconcileSnapshot volumeSnapshot or "failed to reconcile snapshot" in
      do! _ := UpdateStatusM backup (fun bcp => Ret (
          match bs_Snapshot (b_Status bcp) with
          | None => None
          | Some s => Some (setStatus (fun st =>
                st <| bs_Snapshot := Some (record (om_Name (s_Meta volumeSnapshot)) s) |>) bcp)
          end)) or "failed to update backup status" in
      Ret (Ok ok)
  end.

Definition reconcileDataSnapshot (targetPVC : string) : action bool :=
  reconcileRole RolePostgresData targetPVC (fun name s => s <| snap_Data := Some name |>).

Definition reconcileWALSnapshot (targetPVC : string) : action bool :=
  if negb (nonempty targetPVC) then Ret (Ok true) else
  reconcileRole RolePostgresWAL targetPVC (fun name s => s <| snap_WAL := Some name |>).

(** The loop of [reconcileTablespaceSnapshot], over the visiting order. *)
Fixpoint tablespaceLoop (order : list string) (targetPVCs : gmap string string) (done_ : bool)
    : action bool :=
  match order with
  | [] => Ret (Ok done_)
  | tsName :: order =>
      do! ok := reconcileRole (tsName +:+ "-" +:+ RoleTablespace) (default "" (targetPVCs !! tsName))
                  (fun name s => s <| snap_Tablespaces ::= fun m => <[tsName := name]> m |>) in
      tablespaceLoop order targetPVCs (done_ && ok)
  end.

Definition reconcileTablespaceSnapshot (targetPVCs : gmap string string) : action bool :=
  if bool_decide (targetPVCs = ∅) then Ret (Ok true) else
  let! order := call (RangeOrder (keys targetPVCs)) in
  tablespaceLoop (proj1_sig order) targetPVCs true.

Definition instanceVolumes (targetInstance role msg : string) : action (list PVC) :=
  do! volumes := call (ListAll KPVC (c_Namespace cluster) (ByLabels (SetSelector
       {[LabelInstance := targetInstance; LabelRole := role]}))) or msg in
  Ret (Ok volumes).

Definition pvcName (p : PVC) : string := om_Name (pvc_Meta p).

Definition getTargetPVCs : action (string * string * gmap string string) :=
  let targetInstance := annotation (b_Meta backup) annotationBackupTarget in
  if negb (nonempty targetInstance) then Ret (Err (New "backup target instance is not found")) else
  do! dataVolumes := instanceVolumes targetInstance RolePostgresData "failed to list data volumes" in
  match dataVolumes with
  | [dataVolume] =>
      do! walVolumes := instanceVolumes targetInstance RolePostgresWAL "failed to list WAL volumes" in
      let walPVC := match walVolumes with [v] => pvcName v | _ => "" end in
      do! tablespaceVolumes := instanceVolumes targetInstance RoleTablespace
                                 "failed to list tablespace volumes" in
      let tablespacePVCs := fold_left (fun m vol => <[label (pvc_Meta vol) LabelData := pvcName vol]> m)
                              tablespaceVolumes ∅ in
      Ret (Ok (pvcName dataVolume, walPVC, tablespacePVCs))
  | _ => Ret (Err (New ("unexpected number of data volumes: " +:+
                        pretty (Z.of_nat (length dataVolumes)))))
  end.

Definition reconcileNew : action Result :=
  if negb (bool_decide (c_State cluster = AppStateReady)) then Ret (Ok 5%Z) else
  do! _ := UpdateStatus backup (setStatus (fun s =>
      s <| bs_State := BackupStarting |> <| bs_BackupType := "snapshot" |>))
    or "failed to update backup status" in
  Ret (Ok 0%Z).

Definition reconcileStarting : action Result :=
  do! _ := prepareBackup in
  do! _ := UpdateStatus backup (setStatus (fun s =>
      s <| bs_State := BackupRunning |> <| bs_Snapshot := Some (mkSnapshotStatus None None ∅) |>))
    or "failed to update backup status" in
  Ret (Ok 0%Z).

(** A step of [reconcileRunning]: a failed volume snapshot is collected, any
    other error returned. *)
Definition collect (p : action bool) (msg : string) (errs : list error)
    (k : bool -> list error -> action Result) : action Result :=
  let! r := p in
  match r with
  | Ok ok => k ok errs
  | Err e => if isSnapshotFailed e then k false (errs ++ [e]) else Ret (Err (Wrap msg e))
  end.

(** A terminal state, at the present time. *)
Definition finishStatus (f : PerconaPGBackupStatus -> PerconaPGBackupStatus) (bcp : PerconaPGBackup)
    : program (option PerconaPGBackup) :=
  let! now := call Now in
  Ret (Some (setStatus (fun s => f s <| bs_CompletedAt := Some now |>) bcp)).

Definition reconcileRunning : action Result :=
  do! (dataPVC, walPVC, tablespacePVCs) := getTargetPVCs or "failed to get target PVCs" in
  collect (reconcileDataSnapshot dataPVC) "failed to reconcile data snapshot" [] (fun dataOk errs =>
  collect (reconcileWALSnapshot walPVC) "failed to reconcile WAL snapshot" errs (fun walOk errs =>
  collect (reconcileTablespaceSnapshot tablespacePVCs) "failed to reconcile tablespace snapshot" errs
    (fun tablespaceOk errs =>
  match errs with
  | _ :: _ =>
      do! _ := UpdateStatusM backup (finishStatus (fun s => s <| bs_State := BackupFailed |>
            <| bs_Error := "one or more snapshots failed: " +:+ multierror errs |>))
        or "failed to update backup status" in
      Ret (Err (Wrap (multierror errs) errVolumeSnapshotFailed))
  | [] =>
      if negb dataOk || negb walOk || negb tablespaceOk then Ret (Ok 5%Z) else
      do! _ := complete or "failed to complete snapshot" in
      do! _ := UpdateStatusM backup (finishStatus (fun s => s <| bs_State := BackupSucceeded |>))
        or "failed to update backup status" in
      Ret (Ok 0%Z)
  end))).

Definition reconcile : action Result :=
  let completed := do! _ := complete in Ret (Ok 0%Z) in
  if isDeleting (b_Meta backup) then completed else
  match b_State backup with
  | BackupNew => reconcileNew
  | BackupStarting => reconcileStarting
  | BackupRunning => reconcileRunning
  | BackupFailed | BackupSucceeded => completed
  | BackupOtherState _ => Ret (Ok 0%Z)
  end.
End Reconciler.

Definition failWith (backup : PerconaPGBackup) (message : string) : action unit :=
  UpdateStatus backup (setStatus (fun s => s <| bs_State := BackupFailed |> <| bs_Error := message |>)).

(** [snapshots.Reconcile] *)
Definition snapshotsReconcile (pgBackup : PerconaPGBackup) (pgCluster : PerconaPGCluster)
    : action Result :=
  if negb BackupSnapshots then
    do! _ := failWith pgBackup "Feature gate 'BackupSnapshots' is not enabled"
             or "failed to update backup status" in
    Ret (Ok 0%Z)
  else
  match bk_VolumeSnapshots (c_Backups pgCluster) with
  | Some volumeSnapshots =>
      if negb (IsVolumeSnapshotsEnabled (c_Backups pgCluster)) then
        do! _ := failWith pgBackup "Volume snapshots are not enabled for this cluster"
                 or "failed to update backup status" in
        Ret (Ok 0%Z)
      else
      match newSnapshotExec pgCluster pgBackup volumeSnapshots with
      | Err stsErr =>
          do! _ := failWith pgBackup ("invalid or unsupported volume snapshot mode: " +:+
                                      vs_Mode volumeSnapshots) or "failed to update backup status" in
          Ret (Err stsErr)
      | Ok exec => reconcile pgCluster (vs_ClassName volumeSnapshots) pgBackup exec
      end
  | None =>
      do! _ := failWith pgBackup "Volume snapshots are not enabled for this cluster"
               or "failed to update backup status" in
      Ret (Ok 0%Z)
  end.
End Snapshots.

(** ** Specification *)

(** What a [snapshotExecutor] promises: which calls it makes, what holds when
    it has prepared the cluster for a target, and when it has undone that. *)
Class ExecutorSpec (exec : snapshotExecutor) := {
  exec_call : history -> op -> Prop;
  prepared : history -> string -> Prop;
  finalized : history -> Prop;
  exec_prepare_spec h : wps exec_call h (exec_prepare exec) (fun h' r =>
    match r with Ok t => prepared h' t | Err _ => True end);
  exec_finalize_spec h : wps exec_call h (exec_finalize exec) (fun h' r =>
    match r with Ok _ => finalized h' | Err _ => True end);
  prepared_grow h h' t : prepared h t -> h `prefix_of` h' -> prepared h' t;
  finalized_grow h h' : finalized h -> h `prefix_of` h' -> finalized h'
}.

Section SnapshotSpec.
Context `{ControllerRuntime}.
Context (multierror : list error -> string).
Context (cluster : PerconaPGCluster) (className : string) (backup : PerconaPGBackup).
Context (exec : snapshotExecutor) `{!ExecutorSpec exec}.

Definition hasFinalizer (b : PerconaPGBackup) : Prop :=
  FinalizerSnapshotInProgress ∈ om_Finalizers (b_Meta b).

Definition snapshotKey (role : string) : key := (b_Namespace backup, b_Name backup +:+ "-" +:+ role).

(** A snapshot of this backup was read as ready to use. *)
Definition snapshot_ready (h : history) (role : string) : Prop :=
  exists (s : VolumeSnapshot) st, read h KSnapshot (snapshotKey role) s /\
    s_Status s = Some st /\ vss_ReadyToUse st = Some true.

(** A snapshot was read with an error older than the deadline at a later clock
    reading; or some call answered the error that stands for this. *)
Definition snapshot_failed (h : history) : Prop :=
  (exists (s : VolumeSnapshot) at_ st err t now, read h KSnapshot at_ s /\
     s_Status s = Some st /\ vss_Error st = Some err /\ vse_Time err = Some t /\
     (Ev (Now : op) (now : resp Now)) ∈ h /\ (t + defaultSnapshotErrorDeadline < now)%Z) \/
  (exists ev e, ev ∈ h /\ answer_err ev = Some e /\ isSnapshotFailed e = true).

(** The volumes of the target with a role, as listed. *)
Definition volumes_listed (h : history) (role : string) (l : list PVC) : Prop :=
  let sel := ByLabels (SetSelector
    {[LabelInstance := annotation (b_Meta backup) annotationBackupTarget; LabelRole := role]}) in
  (Ev (ListAll KPVC (c_Namespace cluster) sel : op) (Ok l : result (list PVC))) ∈ h.

(** Every volume of the target that the listings show has a snapshot that was
    read as ready. *)
Definition all_volumes_ready (h : history) : Prop :=
  exists dl wl tl,
    volumes_listed h RolePostgresData dl /\ volumes_listed h RolePostgresWAL wl /\
    volumes_listed h RoleTablespace tl /\
    length dl = 1%nat /\ snapshot_ready h RolePostgresData /\
    (forall v, wl = [v] -> pvcName v <> "" -> snapshot_ready h RolePostgresWAL) /\
    (forall v, v ∈ tl -> snapshot_ready h (label (pvc_Meta v) LabelData +:+ "-" +:+ RoleTablespace)).

(** The transitions of the state, from that of the backup as it was given. *)
Definition snap_transition (h : history) (s : PGBackupState) : Prop :=
  match b_State backup, s with
  | BackupNew, BackupStarting => c_State cluster = AppStateReady
  | BackupStarting, BackupRunning =>
      hasFinalizer backup \/
      (exists t, prepared h t) /\
      exists b1 b2 b3 : PerconaPGBackup, hasFinalizer b2 /\
        (Ev (Patch KBackup b1 b2 : op) (Ok b3 : result PerconaPGBackup)) ∈ h
  | BackupRunning, BackupFailed => snapshot_failed h
  | BackupRunning, BackupSucceeded =>
      all_volumes_ready h /\ (hasFinalizer backup -> finalized h)
  | _, _ => False
  end.

(** The calls of the reconciler itself. *)
Definition own_call (h : history) (o : op) : Prop :=
  match o with
  | Get _ _ | ListAll _ _ _ | Now | RangeOrder _ => True
  | Create KSnapshot s =>
      exists role, objectKey (s_Meta s) = snapshotKey role /\
        om_Controller (s_Meta s) = Some (om_UID (b_Meta backup)) /\ s_ClassName s = Some className
  | Patch KBackup b1 b2 =>
      b_Status b2 = b_Status b1 /\
      (hasFinalizer b2 -> hasFinalizer b1 \/ exists t, prepared h t) /\
      (hasFinalizer b1 -> hasFinalizer b2 \/ finalized h)
  | StatusUpdate KBackup b =>
      exists b0, read h KBackup (objectKey (b_Meta backup)) b0 /\ b_Meta b = b_Meta b0 /\
        (b_State b = b_State b0 \/ snap_transition h (b_State b))
  | _ => False
  end.

Definition snap_call (h : history) (o : op) : Prop := exec_call h o \/ own_call h o.

Abbreviation safe := (wps snap_call).

(** *** Lemmas *)

Lemma ready_grow h h' role : snapshot_ready h role -> h `prefix_of` h' -> snapshot_ready h' role.
Proof.
  intros (s & st & Hr & ?) Hp. exists s, st. split; [by eapply elem_of_grow|done].
Qed.

Lemma failed_grow h h' : snapshot_failed h -> h `prefix_of` h' -> snapshot_failed h'.
Proof.
  intros [(s & a & st & err & t & now & Hr & ? & ? & ? & Hn & ?)|(ev & e & Hin & ?)] Hp.
  - left. exists s, a, st, err, t, now. split_and!; try done; by eapply elem_of_grow.
  - right. exists ev, e. split; [by eapply elem_of_grow|done].
Qed.

Lemma own_safe {A} h (p : program A) Q : wps own_call h p Q -> safe h p Q.
Proof. intros Hp. eapply wps_mono; [| |exact Hp]; [by right|done]. Qed.

Lemma exec_safe {A} h (p : program A) Q : wps exec_call h p Q -> safe h p Q.
Proof. intros Hp. eapply wps_mono; [| |exact Hp]; [by left|done]. Qed.

(** An error that stands for a failed snapshot has that cause. *)
Definition err_post (h : history) (e : error) : Prop := isSnapshotFailed e = true -> snapshot_failed h.

Lemma err_post_last h ev e e' :
  answer_err ev = Some e -> isSnapshotFailed e' = isSnapshotFailed e -> err_post (h ++ [ev]) e'.
Proof.
  intros He Heq Hs. right. exists ev, e. split_and!; [apply elem_of_snoc|done|by rewrite <- Heq].
Qed.

(** A status update that keeps the state, or makes an allowed transition. *)
Lemma status_update_safe (f : PerconaPGBackup -> program (option PerconaPGBackup)) h :
  (forall h' b0, h `prefix_of` h' -> wps own_call h' (f b0) (fun h2 r =>
     match r with
     | Some b => b_Meta b = b_Meta b0 /\ (b_State b = b_State b0 \/ snap_transition h2 (b_State b))
     | None => True
     end)) ->
  wps own_call h (UpdateStatusM backup f) (fun h' r =>
    match r with Ok _ => True | Err e => err_post h' e end).
Proof.
  intros Hf. unfold UpdateStatusM. apply RetryOnConflict_prefix. intros h' Hp.
  apply wps_get_bindr. split; [done|]. intros [b0|e].
  - rewrite wps_bind. eapply wps_conseq.
    { apply wps_prefix, Hf. by apply prefix_app_r. }
    intros h2 [b|] [Hp2 Hb]; [|done]. destruct Hb as [Hm Hb]. rewrite wps_ignore. split.
    + exists b0. split; [|done]. by eapply elem_of_grow; [apply elem_of_snoc|].
    + intros [b'|e]; [done|]. by eapply err_post_last.
  - by eapply err_post_last.
Qed.
Lemma reconcileSnapshot_safe role h (vs : VolumeSnapshot) :
  objectKey (s_Meta vs) = snapshotKey role ->
  om_Controller (s_Meta vs) = Some (om_UID (b_Meta backup)) -> s_ClassName vs = Some className ->
  wps own_call h (reconcileSnapshot vs) (fun h' r =>
    match r with
    | Ok (_, true) => snapshot_ready h' role
    | Ok (_, false) => True
    | Err e => err_post h' e
    end).
Proof.
  intros Hk Hc Hcl. unfold reconcileSnapshot. rewrite wps_bindr. unfold ensureSnapshot.
  apply wps_call_bind. split; [by exists role|]. intros [created|e]; [done|].
  destruct (IgnoreAlreadyExists (Some e)) as [e'|] eqn:Ei; simpl in Ei.
  { destruct (IsAlreadyExists e); [done|]. injection Ei as <-. by eapply err_post_last. }
  cbn [wps]. rewrite Hk. apply wps_get_bindr. split; [done|]. intros [s|e2].
  2:{ by eapply err_post_last. }
  destruct (s_Status s) as [st|] eqn:Es; [|done].
  destruct (vss_ReadyToUse st) as [[|]|] eqn:Er; cbn [deref default].
  { exists s, st. split_and!; [apply elem_of_snoc|done..]. }
  all: destruct (vss_Error st) as [err|] eqn:Ee; [|done].
  all: unfold id; cbv iota zeta; rewrite wps_bind; unfold shouldFailSnapshot; rewrite Es, Ee.
  all: destruct (vse_Time err) as [t|] eqn:Et; [|done].
  all: split; [done|]; intros now; cbn [wps bind].
  all: case_bool_decide as Hlt; [|done]; intros _; left.
  all: exists s, (snapshotKey role), st, err, t, now.
  all: split_and!; try done; [|apply elem_of_snoc].
  all: eapply elem_of_grow; [apply elem_of_snoc|by apply prefix_app_r].
Qed.

Lemma reconcileRole_safe role pvc record h :
  wps own_call h (reconcileRole className backup role pvc record) (fun h' r =>
    match r with
    | Ok true => snapshot_ready h' role
    | Ok false => True
    | Err e => err_post h' e
    end).
Proof.
  unfold reconcileRole, generateSnapshotIntent.
  destruct (SetControllerReference _ _) as [m|e] eqn:Em.
  2:{ intros Hs. unfold isSnapshotFailed in Hs. simpl in Hs.
      by rewrite (SetControllerReference_error _ _ _ _ Em) in Hs. }
  apply SetControllerReference_spec in Em. subst m.
  rewrite wps_bindr. eapply wps_conseq; [by apply (reconcileSnapshot_safe role)|].
  intros h1 [[vs ok]|e] Hr; [|done]. rewrite wps_bindr. eapply wps_conseq.
  { apply wps_prefix, status_update_safe. intros h' b0 _. simpl.
    destruct (bs_Snapshot (b_Status b0)); [|done]. by split; [|left]. }
  intros h2 [[]|e] [Hp He]; [|done]. destruct ok; [|done]. by eapply ready_grow.
Qed.
Lemma reconcileWAL_safe pvc h :
  wps own_call h (reconcileWALSnapshot className backup pvc) (fun h' r =>
    match r with
    | Ok true => pvc <> "" -> snapshot_ready h' RolePostgresWAL
    | Ok false => True
    | Err e => err_post h' e
    end).
Proof.
  unfold reconcileWALSnapshot. destruct pvc as [|c pvc]; [by intros []|]. cbn [nonempty negb].
  eapply wps_conseq; [apply reconcileRole_safe|]. intros h' [[|]|e] Hr; [by intros _|done|done].
Qed.

Definition tablespaceRole (name : string) : string := name +:+ "-" +:+ RoleTablespace.

Lemma tablespaceLoop_safe order pvcs done_ : forall h,
  wps own_call h (tablespaceLoop className backup order pvcs done_) (fun h' r =>
    match r with
    | Ok true => done_ = true /\ forall n, n ∈ order -> snapshot_ready h' (tablespaceRole n)
    | Ok false => True
    | Err e => err_post h' e
    end).
Proof.
  revert done_. induction order as [|n order IH]; intros done_ h.
  - simpl. destruct done_; [|done]. split; [done|]. by intros n ?%not_elem_of_nil.
  - cbn [tablespaceLoop]. rewrite wps_bindr. eapply wps_conseq; [apply reconcileRole_safe|].
    intros h1 [ok|e] Hr; [|done]. eapply wps_conseq; [apply wps_prefix, IH|].
    intros h2 [[|]|e] [Hp Hr2]; [|done|done]. destruct Hr2 as [Hd Hall].
    apply andb_true_iff in Hd as [-> ->]. split; [done|].
    intros m [->|Hm]%elem_of_cons; [by eapply ready_grow|by apply Hall].
Qed.

Lemma reconcileTablespace_safe pvcs h :
  wps own_call h (reconcileTablespaceSnapshot className backup pvcs) (fun h' r =>
    match r with
    | Ok true => forall n, is_Some (pvcs !! n) -> snapshot_ready h' (tablespaceRole n)
    | Ok false => True
    | Err e => err_post h' e
    end).
Proof.
  unfold reconcileTablespaceSnapshot. case_bool_decide as E.
  { subst. intros n [v Hv]. by rewrite lookup_empty in Hv. }
  apply wps_call_bind. split; [done|]. intros [order Ho]. simpl.
  eapply wps_conseq; [apply tablespaceLoop_safe|]. intros h' [[|]|e] Hr; [|done|done].
  intros n [v Hv]. apply Hr. rewrite Ho. unfold keys. apply list_elem_of_fmap.
  exists (n, v). split; [done|]. by apply elem_of_map_to_list.
Qed.

Lemma tablespaceMap_dom (tl : list PVC) (v : PVC) : forall m : gmap string string,
  v ∈ tl \/ is_Some (m !! label (pvc_Meta v) LabelData) ->
  is_Some (fold_left (fun m vol => <[label (pvc_Meta vol) LabelData := pvcName vol]> m) tl m
             !! label (pvc_Meta v) LabelData).
Proof.
  induction tl as [|u tl IH]; intros m Hv; simpl.
  - by destruct Hv as [?%not_elem_of_nil|].
  - apply IH. destruct Hv as [[->|Hv]%elem_of_cons|Hv]; [right|by left|right].
    + by rewrite lookup_insert_eq.
    + by apply lookup_insert_is_Some'; right.
Qed.

(** What [getTargetPVCs] returns is what was listed. *)
Lemma getTargetPVCs_safe h :
  wps own_call h (getTargetPVCs cluster backup) (fun h' r =>
    match r with
    | Ok (_, wal, ts) => exists dl wl tl,
        volumes_listed h' RolePostgresData dl /\ volumes_listed h' RolePostgresWAL wl /\
        volumes_listed h' RoleTablespace tl /\ length dl = 1%nat /\
        (forall v, wl = [v] -> pvcName v = wal) /\
        (forall v, v ∈ tl -> is_Some (ts !! label (pvc_Meta v) LabelData))
    | Err _ => True
    end).
Proof.
  unfold getTargetPVCs, instanceVolumes. case_match; [done|].
  rewrite wps_bindr. apply wps_list_bindr. split; [done|]. intros [dl|e]; [|done].
  cbn [wps]. destruct dl as [|d [|? ?]]; [done| |done].
  rewrite wps_bindr. apply wps_list_bindr. split; [done|]. intros [wl|e]; [|done].
  cbn [wps]. rewrite wps_bindr. apply wps_list_bindr. split; [done|]. intros [tl|e]; [|done].
  cbn [wps]. exists [d], wl, tl. split_and!.
  - eapply elem_of_grow; [apply elem_of_snoc|]. by do 2 apply prefix_app_r.
  - eapply elem_of_grow; [apply elem_of_snoc|]. by apply prefix_app_r.
  - apply elem_of_snoc.
  - done.
  - by intros v ->.
  - intros v Hv. apply tablespaceMap_dom. by left.
Qed.
(** A patch of a fresh backup's finalizers, retried. *)
Lemma finalizer_patch_safe (f : list string -> list string) k h :
  (forall h' b1 b2, h `prefix_of` h' ->
     b2 = b1 <| b_Meta ::= fun m => m <| om_Finalizers ::= f |> |> -> own_call h' (Patch KBackup b1 b2)) ->
  safe h (RetryOnConflict (
      do! bcp := call (Get KBackup k) in
      let bcp' := bcp <| b_Meta ::= fun m => m <| om_Finalizers ::= f |> |> in
      ignore (call (Patch KBackup bcp bcp'))))
    (fun h' r => h `prefix_of` h' /\ match r with
       | Ok _ => exists b1 b2 b3 : PerconaPGBackup,
           b2 = b1 <| b_Meta ::= fun m => m <| om_Finalizers ::= f |> |> /\
           (Ev (Patch KBackup b1 b2 : op) (Ok b3 : result PerconaPGBackup)) ∈ h'
       | Err _ => True
       end).
Proof.
  intros Hf. apply wps_prefix, RetryOnConflict_prefix. intros h' Hp.
  apply wps_get_bindr. split; [by right|]. intros [b1|e]; [|done]. cbv zeta.
  rewrite wps_ignore. split.
  - right. apply (Hf _ b1); [by apply prefix_app_r|reflexivity].
  - intros [b3|e]; [|done]. do 3 eexists. split; [reflexivity|]. apply elem_of_snoc.
Qed.

Lemma complete_safe h :
  safe h (complete backup exec) (fun h' r =>
    h `prefix_of` h' /\
    match r with Ok _ => hasFinalizer backup -> finalized h' | Err _ => True end).
Proof.
  apply wps_prefix. unfold complete. rewrite ContainsFinalizer_spec.
  case_bool_decide as Ef; [|intros Hb; by destruct (Ef Hb)]. cbn [negb]. rewrite wps_bindr.
  eapply wps_conseq; [apply exec_safe, exec_finalize_spec|]. intros h1 [[]|e] Hfin; [|done].
  rewrite wps_bindr. eapply wps_conseq; [apply finalizer_patch_safe|].
  - intros h' b1 b2 Hp ->. split; [done|]. split.
    + intros Hb. left. apply (RemoveFinalizer_spec (om_Finalizers (b_Meta b1))) in Hb. apply Hb.
    + intros _. right. by eapply finalized_grow.
  - intros h2 [[]|e] [Hp _]; [|done]. intros _. by eapply finalized_grow.
Qed.

Lemma prepareBackup_safe h :
  safe h (prepareBackup backup exec) (fun h' r =>
    match r with
    | Ok _ => hasFinalizer backup \/
        (exists t, prepared h' t) /\
        exists b1 b2 b3 : PerconaPGBackup, hasFinalizer b2 /\
          (Ev (Patch KBackup b1 b2 : op) (Ok b3 : result PerconaPGBackup)) ∈ h'
    | Err _ => True
    end).
Proof.
  unfold prepareBackup. rewrite ContainsFinalizer_spec. case_bool_decide as Ef; [by left|].
  rewrite wps_bindr. eapply wps_conseq; [apply exec_safe, exec_prepare_spec|].
  intros h1 [t|e] Hprep; [|done]. cbv zeta. apply wps_call_bind. split.
  { right. split_and!; [done|by left|by left]. }
  intros [b|e]; [|done]. rewrite wps_bindr. eapply wps_conseq; [apply finalizer_patch_safe|].
  - intros h' b1 b2 Hp ->. split; [done|]. split.
    + intros _. right. exists t. eapply prepared_grow; [done|]. etransitivity; [|done].
      by apply prefix_app_r.
    + intros Hb. left. apply (AddFinalizer_spec (om_Finalizers (b_Meta b1))). by right.
  - intros h2 [[]|e] [Hp Hb]; [|done]. right. split.
    + exists t. eapply prepared_grow; [done|]. etransitivity; [|done]. by apply prefix_app_r.
    + destruct Hb as (b1 & b2 & b3 & -> & Hin). do 3 eexists. split; [|exact Hin].
      apply (AddFinalizer_spec (om_Finalizers (b_Meta b1))). by left.
Qed.

(** A transition with a status update whose callback may read the clock. *)
Lemma transition_safe (P : history -> Prop) s (f : PerconaPGBackup -> program (option PerconaPGBackup)) h :
  P h -> (forall h' h2, P h' -> h' `prefix_of` h2 -> P h2) ->
  (forall h, P h -> snap_transition h s) ->
  (forall h' b0, wps own_call h' (f b0) (fun h2 r =>
     exists b, r = Some b /\ b_Meta b = b_Meta b0 /\ b_State b = s)) ->
  safe h (UpdateStatusM backup f) (fun h' _ => h `prefix_of` h').
Proof.
  intros HP Hgrow Hs Hf. eapply wps_conseq.
  { apply wps_prefix, own_safe, status_update_safe. intros h' b0 Hp.
    eapply wps_conseq; [apply wps_prefix, Hf|].
    intros h2 r [Hp2 (b & -> & Hm & <-)]. split; [done|]. right. apply Hs.
    apply (Hgrow h); [done|]. by transitivity h'. }
  by intros h' r [Hp _].
Qed.

Lemma reconcileNew_safe : b_State backup = BackupNew -> forall h,
  safe h (reconcileNew cluster backup) (fun _ _ => True).
Proof.
  intros HN h. unfold reconcileNew. case_bool_decide as Er; [|done]. cbn [negb].
  rewrite wps_bindr. eapply wps_conseq.
  { apply (transition_safe (fun _ => True) BackupStarting); [done..| |].
    - intros h' _. unfold snap_transition. by rewrite HN.
    - intros h' b0. eexists. by split_and!. }
  by intros h' [[]|e] _.
Qed.

Lemma reconcileStarting_safe : b_State backup = BackupStarting -> forall h,
  safe h (reconcileStarting backup exec) (fun _ _ => True).
Proof.
  intros HN h. unfold reconcileStarting. rewrite wps_bindr.
  eapply wps_conseq; [apply prepareBackup_safe|]. intros h1 [[]|e] Hprep; [|done].
  rewrite wps_bindr. eapply wps_conseq.
  { apply (transition_safe (fun h => hasFinalizer backup \/ (exists t, prepared h t) /\
        exists b1 b2 b3 : PerconaPGBackup, hasFinalizer b2 /\
          (Ev (Patch KBackup b1 b2 : op) (Ok b3 : result PerconaPGBackup)) ∈ h) BackupRunning);
      [done| | |].
    - intros h' h2 [?|[[t Ht] (b1 & b2 & b3 & Hb & Hin)]] Hp; [by left|right]. split.
      + exists t. by eapply prepared_grow.
      + exists b1, b2, b3. split; [done|]. by eapply elem_of_grow.
    - intros h' Hh. unfold snap_transition. by rewrite HN.
    - intros h' b0. eexists. by split_and!. }
  by intros h' [[]|e] _.
Qed.
(** A collected step: its success, and the cause of the errors so far. *)
Lemma collect_safe (P : history -> Prop) (p : action bool) msg errs
    (k : bool -> list error -> action Result) h :
  (errs <> [] -> snapshot_failed h) ->
  wps own_call h p (fun h' r =>
    match r with Ok true => P h' | Ok false => True | Err e => err_post h' e end) ->
  (forall h' ok errs', h `prefix_of` h' -> (ok = true -> errs' = errs /\ P h') ->
     (errs' <> [] -> snapshot_failed h') -> safe h' (k ok errs') (fun _ _ => True)) ->
  safe h (collect p msg errs k) (fun _ _ => True).
Proof.
  intros Herr Hp Hk. unfold collect. rewrite wps_bind.
  eapply wps_conseq; [apply wps_prefix, own_safe, Hp|]. intros h' [ok|e] [Hpre Hr].
  - apply Hk; [done| |].
    + intros ->. by split.
    + intros He. eapply failed_grow; [by apply Herr|done].
  - case_match eqn:Ef; [|done]. apply Hk; [done|done|]. intros _. by apply Hr.
Qed.

Lemma finishStatus_wps s f h' b0 :
  (forall st, bs_State (f st) = s) ->
  wps own_call h' (finishStatus f b0) (fun _ r =>
    exists b, r = Some b /\ b_Meta b = b_Meta b0 /\ b_State b = s).
Proof.
  intros Hf. split; [done|]. intros now. eexists. split_and!; [reflexivity|done|]. apply Hf.
Qed.

Lemma all_volumes_ready_grow h h' :
  all_volumes_ready h -> h `prefix_of` h' -> all_volumes_ready h'.
Proof.
  intros (dl & wl & tl & Hd & Hw & Ht & Hl & Hrd & Hrw & Hrt) Hp.
  exists dl, wl, tl. split_and!; try by eapply elem_of_grow.
  - done.
  - by eapply ready_grow.
  - intros v Hv Hn. eapply ready_grow; [by eapply Hrw|done].
  - intros v Hv. eapply ready_grow; [by apply Hrt|done].
Qed.

Lemma reconcileRunning_safe : b_State backup = BackupRunning -> forall h,
  safe h (reconcileRunning multierror cluster className backup exec) (fun _ _ => True).
Proof.
  intros HN h. unfold reconcileRunning. rewrite wps_bindr.
  eapply wps_conseq; [apply own_safe, getTargetPVCs_safe|].
  intros h1 [[[data wal] ts]|e] Hpvcs; [|done].
  destruct Hpvcs as (dl & wl & tl & Hd & Hw & Ht & Hl & Hwal & Hts).
  apply (collect_safe (fun h => snapshot_ready h RolePostgresData)); [done|apply reconcileRole_safe|].
  intros h2 ok1 e1 Hp2 Hok1 He1.
  apply (collect_safe (fun h => wal <> "" -> snapshot_ready h RolePostgresWAL));
    [done|apply reconcileWAL_safe|].
  intros h3 ok2 e2 Hp3 Hok2 He2.
  apply (collect_safe (fun h => forall n, is_Some (ts !! n) -> snapshot_ready h (tablespaceRole n)));
    [done|apply reconcileTablespace_safe|].
  intros h4 ok3 e3 Hp4 Hok3 He3.
  destruct e3 as [|e e3].
  2:{ assert (Hf : snapshot_failed h4) by by apply He3. rewrite wps_bindr. eapply wps_conseq.
      { apply (transition_safe snapshot_failed BackupFailed); [done| | |].
        - intros h' h5. apply failed_grow.
        - intros h' Hh. unfold snap_transition. by rewrite HN.
        - intros h' b0. by apply finishStatus_wps. }
      by intros h5 [[]|e'] _. }
  destruct (negb ok1 || negb ok2 || negb ok3) eqn:Eok; [done|].
  apply orb_false_iff in Eok as [[E1 E2]%orb_false_iff E3]. bool_to_prop.
  destruct (Hok3 E3) as [<- Hr3], (Hok2 E2) as [<- Hr2], (Hok1 E1) as [_ Hr1].
  assert (Hall : all_volumes_ready h4).
  { assert (h2 `prefix_of` h4) by by transitivity h3. assert (h1 `prefix_of` h4) by by transitivity h2.
    exists dl, wl, tl. split_and!; try by eapply elem_of_grow.
    - done.
    - by eapply ready_grow.
    - intros v Hv Hn. rewrite (Hwal v Hv) in Hn. eapply ready_grow; [by apply Hr2|done].
    - intros v Hv. by apply Hr3, Hts. }
  rewrite wps_bindr. eapply wps_conseq; [apply complete_safe|]. intros h5 [[]|e] [Hp5 Hfin]; [|done].
  rewrite wps_bindr. eapply wps_conseq.
  { apply (transition_safe (fun h => all_volumes_ready h /\ (hasFinalizer backup -> finalized h))
             BackupSucceeded).
    - split; [by eapply all_volumes_ready_grow|done].
    - intros h' h6 [Ha Hf] Hp. split; [by eapply all_volumes_ready_grow|].
      intros Hb. eapply finalized_grow; [by apply Hf|done].
    - intros h' Hh. unfold snap_transition. by rewrite HN.
    - intros h' b0. by apply finishStatus_wps. }
  by intros h6 [[]|e] _.
Qed.
Lemma reconcile_safe h :
  safe h (reconcile multierror cluster className backup exec) (fun _ _ => True).
Proof.
  unfold reconcile.
  assert (Hc : safe h (do! _ := complete backup exec in Ret (Ok 0%Z)) (fun _ _ => True)).
  { rewrite wps_bindr. eapply wps_conseq; [apply complete_safe|]. by intros h' [[]|e] _. }
  destruct (isDeleting (b_Meta backup)); [exact Hc|].
  destruct (b_State backup) eqn:ES; [| | |exact Hc|exact Hc|done].
  - by apply reconcileNew_safe.
  - by apply reconcileStarting_safe.
  - by apply reconcileRunning_safe.
Qed.
End SnapshotSpec.

(** ** The offline executor meets the specification *)
Section OfflineSpec.
Context `{ControllerRuntime}.
Context (cluster : PerconaPGCluster) (backup : PerconaPGBackup) (vs : VolumeSnapshotsSpec).

(** The instance the backup works on: the recorded one, or else that of the
    first pod listed with the replica role. *)
Definition isTarget (h : history) (t : string) : Prop :=
  t <> "" /\
  let recorded := annotation (b_Meta backup) annotationBackupTarget in
  if decide (recorded = "") then
    exists pod pods,
      (Ev (ListAll KPod (c_Namespace cluster) (ByLabels (SetSelector
        {["app.kubernetes.io/instance" := c_Name cluster;
          "postgres-operator.crunchydata.com/role" := RolePatroniReplica]})) : op)
        (Ok (pod :: pods) : result (list Pod))) ∈ h /\ t = label (p_Meta pod) LabelInstance
  else t = recorded.

Definition offline_call (h : history) (o : op) : Prop :=
  match o with
  | Get KSts _ | ListAll KPod _ _ | RangeOrder _ => True
  | Exec pod container _ _ =>
      exists t, isTarget h t /\ pod = (c_Namespace cluster, t +:+ "-0") /\ container = ContainerDatabase
  | Patch KSts _ _ =>
      exists t, isTarget h t /\ (exists on, suspension_patch (c_Namespace cluster, t) on h o)
  | _ => False
  end.

Definition offline_prepared (h : history) (t : string) : Prop :=
  isTarget h t /\ seen_suspended (c_Namespace cluster, t) h.
Definition offline_finalized (h : history) : Prop :=
  exists t, isTarget h t /\ seen_running (c_Namespace cluster, t) h.

Lemma isTarget_grow h h' t : isTarget h t -> h `prefix_of` h' -> isTarget h' t.
Proof.
  intros [Hne Ht] Hp. split; [done|]. simpl in *. case_decide; [|done].
  destruct Ht as (pod & pods & Hin & ->). exists pod, pods. split; [by eapply elem_of_grow|done].
Qed.

Lemma getBackupTarget_wps h :
  wps offline_call h (getBackupTarget cluster backup) (fun h' r =>
    match r with Ok t => isTarget h' t | Err _ => True end).
Proof.
  unfold getBackupTarget. destruct (annotation (b_Meta backup) annotationBackupTarget) as [|c n] eqn:Ea.
  - cbn [nonempty negb]. rewrite wps_bindr. unfold GetReplicaPods, rolePods.
    apply wps_list_bindr. split; [done|]. intros [[|pod pods]|e]; [done| |done]. cbn [wps].
    destruct (nonempty (label (p_Meta pod) LabelInstance)) eqn:En; [|done]. split.
    + by intros E; rewrite E in En.
    + simpl. rewrite Ea. rewrite decide_True by done. exists pod, pods.
      split; [apply elem_of_snoc|done].
  - split; [done|]. simpl. by rewrite Ea.
Qed.

Lemma checkpoint_wps config t h : isTarget h t ->
  wps offline_call h (checkpoint cluster config t) (fun _ _ => True).
Proof.
  intros Ht. unfold checkpoint. destruct (off_Checkpoint config); [|done]. case_match; [done|].
  cbv zeta. rewrite wps_bind. unfold ExecInDatabasesFromQuery. apply wps_call_bind. split; [done|].
  intros [order Ho]. split; [|intros out; cbn [wps]; destruct (out_Err out); [done|];
    by destruct (nonempty (out_Stderr out))].
  exists t. split_and!; [|done|done]. eapply isTarget_grow; [done|]. by apply prefix_app_r.
Qed.

(** Calls on the target, once it is known. *)
Lemma target_calls h t (p : action unit) Q :
  isTarget h t ->
  wps (fun h o => o = Get KSts (c_Namespace cluster, t) \/
                  (exists on, suspension_patch (c_Namespace cluster, t) on h o)) h p Q ->
  wps offline_call h p (fun h' r => h `prefix_of` h' /\ Q h' r).
Proof.
  intros Ht Hp. apply wps_prefix.
  assert (Hgen : forall h1, h `prefix_of` h1 ->
     wps (fun h o => o = Get KSts (c_Namespace cluster, t) \/
                     (exists on, suspension_patch (c_Namespace cluster, t) on h o)) h1 p Q ->
     wps offline_call h1 p Q); [|by apply Hgen].
  clear Hp. induction p as [a|o k IH]; intros h1 Hh1; [done|]. intros [Ho Hk]. split.
  - destruct Ho as [->|[on Ho]]; [done|].
    case_op o.
    exists t. split; [by eapply isTarget_grow|by exists on].
  - intros r. apply IH; [by apply prefix_app_r|done].
Qed.

Lemma suspendInstance_wps t h : isTarget h t ->
  wps offline_call h (suspendInstance cluster t) (fun h' r =>
    h `prefix_of` h' /\
    match r with Ok _ => seen_suspended (c_Namespace cluster, t) h' | Err _ => True end).
Proof.
  intros Ht. apply (target_calls h t); [done|]. unfold suspendInstance. rewrite wps_bindr.
  eapply wps_conseq.
  { apply (instance_poll_wps _ _ (seen_suspended (c_Namespace cluster, t))). intros h'.
    apply SuspendInstance_wps; [by left|intros ? ? ?; right; by eexists]. }
  by intros h' [[]|e] Hr.
Qed.

Lemma resumeInstance_wps t h : isTarget h t ->
  wps offline_call h (resumeInstance cluster t) (fun h' r =>
    h `prefix_of` h' /\
    match r with Ok _ => seen_running (c_Namespace cluster, t) h' | Err _ => True end).
Proof.
  intros Ht. apply (target_calls h t); [done|]. unfold resumeInstance. rewrite wps_bindr.
  eapply wps_conseq.
  { apply (instance_poll_wps _ _ (seen_running (c_Namespace cluster, t))). intros h'.
    apply UnsuspendInstance_wps; [by left|intros ? ? ?; right; by eexists]. }
  by intros h' [[]|e] Hr.
Qed.

Lemma offline_prepare_wps h :
  wps offline_call h (exec_prepare (newOfflineExec cluster backup vs)) (fun h' r =>
    match r with Ok t => offline_prepared h' t | Err _ => True end).
Proof.
  simpl. unfold prepare. rewrite wps_bindr. eapply wps_conseq; [apply getBackupTarget_wps|].
  intros h1 [t|e] Ht; [|done]. rewrite wps_bindr.
  eapply wps_conseq; [by apply wps_prefix, (checkpoint_wps _ t)|]. intros h2 [[]|e] [Hp _]; [|done].
  rewrite wps_bindr. eapply wps_conseq; [apply (suspendInstance_wps t); by eapply isTarget_grow|].
  intros h3 [[]|e] [Hp3 Hs]; [|done]. split; [|done].
  eapply isTarget_grow; [done|]. by transitivity h2.
Qed.

Lemma offline_finalize_wps h :
  wps offline_call h (exec_finalize (newOfflineExec cluster backup vs)) (fun h' r =>
    match r with Ok _ => offline_finalized h' | Err _ => True end).
Proof.
  simpl. unfold finalize. rewrite wps_bindr. eapply wps_conseq; [apply getBackupTarget_wps|].
  intros h1 [t|e] Ht; [|done]. rewrite wps_bindr.
  eapply wps_conseq; [by apply (resumeInstance_wps t)|]. intros h2 [[]|e] [Hp Hr]; [|done].
  exists t. split; [by eapply isTarget_grow|done].
Qed.

#[export] Program Instance offline_spec : ExecutorSpec (newOfflineExec cluster backup vs) := {
  exec_call := offline_call;
  prepared := offline_prepared;
  finalized := offline_finalized;
  exec_prepare_spec := offline_prepare_wps;
  exec_finalize_spec := offline_finalize_wps
}.
Next Obligation.
  intros h h' t [Ht (sts & Hr & Hs)] Hp. split; [by eapply isTarget_grow|].
  exists sts. split; [by eapply elem_of_grow|done].
Qed.
Next Obligation.
  intros h h' (t & Ht & sts & Hr & Hs) Hp. exists t. split; [by eapply isTarget_grow|].
  exists sts. split; [by eapply elem_of_grow|done].
Qed.
End OfflineSpec.

(** ** Properties *)

(** C14: the snapshot state machine, for every executor that meets its
    specification and in every execution.  A backup status is only written
    from a fresh copy, with its state unchanged or moved along New, Starting,
    Running, and then Failed or Succeeded: Starting for a ready cluster,
    Running only once the cluster has been prepared and the finalizer that
    will undo this is on the backup, Failed only after a snapshot has reported
    an error for longer than the deadline, and Succeeded only when every
    volume listed for the target has a snapshot that was read as ready and
    what was prepared has been undone.  The finalizer is put on only after the
    preparation and taken off only after it was undone, and the snapshots
    created are owned by the backup. *)
Theorem snapshot_state_machine `{ControllerRuntime} (multierror : list error -> string)
    (cluster : PerconaPGCluster) (className : string) (backup : PerconaPGBackup)
    (exec : snapshotExecutor) `{!ExecutorSpec exec} :
  wps (snap_call cluster className backup exec) []
    (reconcile multierror cluster className backup exec) (fun _ _ => True).
Proof. apply reconcile_safe. Qed.

(** Whether snapshot backups can run at all in a cluster. *)
Definition snapshotsUsable (BackupSnapshots : bool) (cluster : PerconaPGCluster)
    : option VolumeSnapshotsSpec :=
  match bk_VolumeSnapshots (c_Backups cluster) with
  | Some vs =>
      if BackupSnapshots && IsVolumeSnapshotsEnabled (c_Backups cluster) &&
         bool_decide (vs_Mode vs = VolumeSnapshotModeOffline)
      then Some vs else None
  | None => None
  end.

(** The calls of a refusal: a failed state is written to a fresh copy. *)
Definition refusal_call (backup : PerconaPGBackup) (h : history) (o : op) : Prop :=
  match o with
  | Get KBackup at_ => at_ = objectKey (b_Meta backup)
  | StatusUpdate KBackup b =>
      b_State b = BackupFailed /\ exists b0, read h KBackup (objectKey (b_Meta backup)) b0 /\
        b_Meta b = b_Meta b0
  | _ => False
  end.

Lemma failWith_wps (backup : PerconaPGBackup) `{ControllerRuntime} msg h :
  wps (refusal_call backup) h (failWith backup msg) (fun _ _ => True).
Proof.
  unfold failWith. apply UpdateStatus_wps. intros h' Hp. split; [done|].
  intros [b|e]; [|done]. split; [|done]. split; [done|]. exists b. split; [apply elem_of_snoc|done].
Qed.

(** The calls of a snapshot backup: those of a refusal when snapshot backups
    cannot run in the cluster. *)
Definition snapshots_call `{ControllerRuntime} (BackupSnapshots : bool) (backup : PerconaPGBackup)
    (cluster : PerconaPGCluster) : history -> op -> Prop :=
  match snapshotsUsable BackupSnapshots cluster with
  | Some vs => snap_call cluster (vs_ClassName vs) backup (newOfflineExec cluster backup vs)
  | None => refusal_call backup
  end.

Lemma snapshotsReconcile_safe `{ControllerRuntime} (BackupSnapshots : bool)
    (multierror : list error -> string) (backup : PerconaPGBackup) (cluster : PerconaPGCluster) :
  wps (snapshots_call BackupSnapshots backup cluster) []
    (snapshotsReconcile BackupSnapshots multierror backup cluster) (fun _ _ => True).
Proof.
  unfold snapshots_call, snapshotsReconcile, snapshotsUsable.
  destruct BackupSnapshots; cbn [negb andb].
  2:{ assert (Hr : wps (refusal_call backup) [] (do! _ := failWith backup
        "Feature gate 'BackupSnapshots' is not enabled" or "failed to update backup status" in
        Ret (Ok 0%Z)) (fun _ _ => True)).
      { rewrite wps_bindr. eapply wps_conseq; [apply failWith_wps|]. by intros h [[]|e] _. }
      by destruct (bk_VolumeSnapshots (c_Backups cluster)). }
  destruct (bk_VolumeSnapshots (c_Backups cluster)) as [vs|].
  2:{ rewrite wps_bindr. eapply wps_conseq; [apply failWith_wps|]. by intros h [[]|e] _. }
  destruct (IsVolumeSnapshotsEnabled (c_Backups cluster)); cbn [negb andb].
  2:{ rewrite wps_bindr. eapply wps_conseq; [apply failWith_wps|]. by intros h [[]|e] _. }
  unfold newSnapshotExec. case_decide as Em.
  - rewrite bool_decide_eq_true_2 by done.
    apply reconcile_safe.
  - rewrite bool_decide_eq_false_2 by done.
    rewrite wps_bindr. eapply wps_conseq; [apply failWith_wps|]. by intros h [[]|e] _.
Qed.

(** Volume snapshot backups with the offline executor, in every execution.
    When they can run, every call is one of the state machine above with the
    offline executor: StatefulSets are changed only in the suspension
    annotation and only at the target, which is the recorded instance or that
    of the first pod with the replica role; Succeeded is written, and the
    finalizer taken off, only after the target was read as not suspended and
    with ready pods.  When they cannot run, the backup is failed and nothing
    else is called. *)
Theorem offline_snapshot_backups `{ControllerRuntime} (BackupSnapshots : bool)
    (multierror : list error -> string) (backup : PerconaPGBackup) (cluster : PerconaPGCluster) :
  wps (snapshots_call BackupSnapshots backup cluster) []
    (snapshotsReconcile BackupSnapshots multierror backup cluster) (fun _ _ => True).
Proof. apply snapshotsReconcile_safe. Qed.


(** ** What can go wrong *)

#[local] Existing Instance ConcreteRuntime.runtime.

(** A snapshot backup that has succeeded is marked as failed when it is
    reconciled after volume snapshots were disabled for its cluster (or the
    feature gate was closed), whatever it holds: the check comes before the
    state is looked at. *)
Theorem disabled_snapshots_fail_finished_backups
    (BackupSnapshots : bool) (multierror : list error -> string)
    (backup : PerconaPGBackup) (cluster : PerconaPGCluster) :
  snapshotsUsable BackupSnapshots cluster = None -> b_State backup = BackupSucceeded ->
  exists (tr : history) r b',
    exec (snapshotsReconcile BackupSnapshots multierror backup cluster) tr r /\
    tr = [got KBackup (objectKey (b_Meta backup)) (Ok backup); statusWritten b' (Ok b')] /\
    b_State b' = BackupFailed /\ b_Meta b' = b_Meta backup.
Proof.
  intros Hu Hs.
  assert (Hfail : forall msg, exists b',
    exec (failWith backup msg)
      [got KBackup (objectKey (b_Meta backup)) (Ok backup); statusWritten b' (Ok b')] (Ok tt) /\
    b_State b' = BackupFailed /\ b_Meta b' = b_Meta backup).
  { intros msg.
    exists (setStatus (fun s => s <| bs_State := BackupFailed |> <| bs_Error := msg |>) backup).
    split; [|by split]. simpl. eexists _, _. split; [reflexivity|]. simpl. eexists _, _. by split. }
  assert (Hret : forall msg (r : result Result), exists tr b',
    exec (do! _ := failWith backup msg or "failed to update backup status" in Ret r) tr r /\
    tr = [got KBackup (objectKey (b_Meta backup)) (Ok backup); statusWritten b' (Ok b')] /\
    b_State b' = BackupFailed /\ b_Meta b' = b_Meta backup).
  { intros msg r. destruct (Hfail msg) as (b' & Hex & ?). eexists _, b'.
    split; [|by split]. apply exec_bind. eexists _, _, []. split_and!; [|exact Hex|done].
    by rewrite app_nil_r. }
  unfold snapshotsReconcile, snapshotsUsable in *.
  destruct BackupSnapshots; cbn [negb andb] in *.
  2:{ destruct (Hret "Feature gate 'BackupSnapshots' is not enabled" (Ok 0%Z)) as (tr & b' & ?).
      by exists tr, (Ok 0%Z), b'. }
  destruct (bk_VolumeSnapshots (c_Backups cluster)) as [vs|].
  2:{ destruct (Hret "Volume snapshots are not enabled for this cluster" (Ok 0%Z)) as (tr & b' & ?).
      by exists tr, (Ok 0%Z), b'. }
  destruct (IsVolumeSnapshotsEnabled (c_Backups cluster)); cbn [negb andb] in *.
  2:{ destruct (Hret "Volume snapshots are not enabled for this cluster" (Ok 0%Z)) as (tr & b' & ?).
      by exists tr, (Ok 0%Z), b'. }
  unfold newSnapshotExec. case_decide as Em; [by rewrite bool_decide_eq_true_2 in Hu|].
  match goal with |- context [Err (New ?m)] =>
    destruct (Hret m (Err (New m))) as (tr & b' & ?); by exists tr, (Err (New m)), b' end.
Qed.

(** *** Examples *)
Definition exampleSnapshots : VolumeSnapshotsSpec :=
  mkVolumeSnapshots None VolumeSnapshotModeOffline "csi" None [].

Definition exampleSnapshotCluster : PerconaPGCluster :=
  examplePGCluster <| c_Backups ::= fun b => b <| bk_VolumeSnapshots := Some exampleSnapshots |> |>.

Definition exampleSnapshotBackup (s : PGBackupState) : PerconaPGBackup :=
  exampleBackup "snap1" s None <| b_Method := Some BackupMethodVolumeSnapshot |> <| b_RepoName := None |>.

Lemma snapshot_state_machine_witness :
  let b := exampleSnapshotBackup BackupNew in
  wps (snap_call exampleSnapshotCluster "csi" b
         (newOfflineExec exampleSnapshotCluster b exampleSnapshots)) []
    (reconcile (fun _ => "") exampleSnapshotCluster "csi" b
       (newOfflineExec exampleSnapshotCluster b exampleSnapshots)) (fun _ _ => True).
Proof.
  exact (snapshot_state_machine (fun _ => "") exampleSnapshotCluster "csi"
    (exampleSnapshotBackup BackupNew)
    (newOfflineExec exampleSnapshotCluster (exampleSnapshotBackup BackupNew) exampleSnapshots)).
Defined.

Lemma offline_snapshot_backups_witness :
  wps (snapshots_call true (exampleSnapshotBackup BackupNew) exampleSnapshotCluster) []
    (snapshotsReconcile true (fun _ => "") (exampleSnapshotBackup BackupNew)
       exampleSnapshotCluster) (fun _ _ => True).
Proof.
  exact (offline_snapshot_backups true (fun _ => "") (exampleSnapshotBackup BackupNew)
    exampleSnapshotCluster).
Defined.

Lemma disabled_snapshots_fail_finished_backups_witness :
  snapshotsUsable true examplePGCluster = None /\
  exists (tr : history) r b',
    exec (snapshotsReconcile true (fun _ => "")
        (exampleSnapshotBackup BackupSucceeded) examplePGCluster) tr r /\
    tr = [got KBackup ("default", "snap1") (Ok (exampleSnapshotBackup BackupSucceeded));
          statusWritten b' (Ok b')] /\
    b_State b' = BackupFailed /\ b_Meta b' = exampleMeta "snap1".
Proof.
  split; [reflexivity|].
  exact (disabled_snapshots_fail_finished_backups true (fun _ => "")
    (exampleSnapshotBackup BackupSucceeded) examplePGCluster eq_refl eq_refl).
Defined.

(** A server with one replica pod and its StatefulSet that answers reads and
    patches of the StatefulSet until its budget is used up. *)
Definition timeout : error := ApiError (OtherReason "Timeout").

Definition suspendingServer (o : op) (w : StatefulSet * nat) : (StatefulSet * nat) * resp o :=
  match o return (StatefulSet * nat) * resp o with
  | Get k _ =>
      match k return (StatefulSet * nat) * result (obj k) with
      | KSts => match w.2 with S n => ((w.1, n), Ok w.1) | O => (w, Err timeout) end
      | _ => (w, Err timeout)
      end
  | Patch k _ new =>
      match k return obj k -> (StatefulSet * nat) * result (obj k) with
      | KSts => fun sts => match w.2 with S n => ((sts, n), Ok sts) | O => (w, Err timeout) end
      | _ => fun _ => (w, Err timeout)
      end new
  | ListAll k _ _ =>
      match k return (StatefulSet * nat) * result (list (obj k)) with
      | KPod => (w, Ok [mkPod (exampleMeta "cluster1-instance1-abcd-0"
                  <| om_Labels := ({[LabelInstance := "cluster1-instance1-abcd"]} : gmap string string) |>) "Running" [] [] [] None None [] []])
      | _ => (w, Err timeout)
      end
  | Create _ _ | Update _ _ | StatusUpdate _ _ | StatusPatch _ _ _ | Delete _ _ _
  | RawPatch _ _ _ | Apply _ _ | RESTMapping _ _ | DeleteAllOf _ _ _ | LatestCommit _ _ | NewExecClient =>
      (w, Err timeout)
  | Event _ _ => (w, tt)
  | Rand _ => (w, "")
  | Exec _ _ _ _ => (w, mkExecOutput "" "" None)
  | Now => (w, 0%Z)
  | WatcherExists _ | SendStop _ => (w, false)
  | AddWatcher _ => (w, Ok tt)
  | RemoveWatcher _ | GoWatch _ => (w, tt)
  | WatcherNames => (w, [])
  | NewChecker _ | CheckCertManager _ => (w, Ok tt)
  | RangeOrder keys => (w, exist _ keys (Permutation_refl keys))
  end.

Definition runningInstance : StatefulSet :=
  mkSts (exampleMeta "cluster1-instance1-abcd") 1 1 1 "" (mkTemplate [] [] []) "" ∅ None.

(** A write that would let a later reconciliation undo the suspension. *)
Definition records_suspension (e : event resp) : bool :=
  match e with
  | Ev (Patch KBackup _ _) _ | Ev (StatusUpdate KBackup _) _ | Ev (Update KBackup _) _ => true
  | _ => false
  end.

(** A successful patch that suspends an instance. *)
Definition suspends (e : event resp) : bool :=
  let '(Ev o r) := e in
  match o return resp o -> bool with
  | Patch k orig new =>
      match k return obj k -> obj k -> result (obj k) -> bool with
      | KSts => fun orig new r =>
          negb (isSuspended orig) && isSuspended new && match r with Ok _ => true | Err _ => false end
      | _ => fun _ _ _ => false
      end orig new
  | _ => fun _ => false
  end r.

(** An instance can stay suspended for good.  A backup that is starting
    suspends its target before it records the target and adds the finalizer;
    when waiting for the suspension fails, neither is written, and once the
    backup is deleted there is no finalizer, so completing it does nothing. *)
Theorem suspension_can_leak :
  let backup := exampleSnapshotBackup BackupStarting in
  let deleted := backup <| b_Meta ::= fun m => m <| om_DeletionTimestamp := Some 300%Z |> |> in
  (exists (tr : history) r,
     exec (snapshotsReconcile true (fun _ => "") backup exampleSnapshotCluster) tr r /\
     is_Some (err_of r) /\ existsb suspends tr = true /\ existsb records_suspension tr = false) /\
  snapshotsReconcile true (fun _ => "") deleted exampleSnapshotCluster = Ret (Ok 0%Z).
Proof.
  split; [|by vm_compute].
  pose proof (run_exec suspendingServer
    (snapshotsReconcile true (fun _ => "") (exampleSnapshotBackup BackupStarting)
       exampleSnapshotCluster) (runningInstance, 3%nat)) as Hrun.
  set (out := run suspendingServer _ _) in Hrun.
  assert (Hout : is_Some (err_of out.2) /\ existsb suspends out.1.2 = true /\
                 existsb records_suspension out.1.2 = false).
  { split_and!; [|by vm_compute..]. vm_compute. by eexists. }
  destruct out as [[w tr] r]. by exists tr, r.
Qed.
