(* ===== verification/BackupJob.v ===== *)
(** * Running a pgBackRest backup

    The functions of [percona/controller/pgbackup/controller.go] that start a
    backup, find its job, finish it and clean up, and the pgBackRest commands
    of [percona/pgbackrest/pgbackrest.go]. *)
From S2P Require Import Prelude GoStrings Cluster Prog Errors Naming Objects Client Psql BackupUtils.

(** ** [percona/pgbackrest/pgbackrest.go] *)
Record InfoBackup := mkInfoBackup {
  ib_Annotation : gmap string string;
  ib_Label : string;
  ib_Type : string;
  ib_Delta : Z;
  (** [Timestamp.Start], in seconds since 1970 *)
  ib_Start : Z
}.

(** The status code is a JSON number; it is compared with integers. *)
Record InfoStanza := mkInfoStanza {
  is_Name : string;
  is_Backup : list InfoBackup;
  is_Message : string;
  is_Code : Z
}.

Definition InfoOutput : Type := list InfoStanza.

Definition ErrNoValidBackups : error := Sentinel "no valid backups".
Definition ErrStanzaNotCreated : error := Sentinel "pgBackRest stanza not created".

Definition statusOK : Z := 0.
Definition statusNoValidBackups : Z := 2.
Definition statusOther : Z := 99.

(** The loop over the stanzas: the first whose status is not OK decides. *)
Fixpoint checkStanzas (l : InfoOutput) : option error :=
  match l with
  | [] => None
  | elem :: l =>
      if decide (is_Code elem = statusNoValidBackups) then Some ErrNoValidBackups
      else if decide (is_Code elem = statusOther) then Some ErrStanzaNotCreated
      else if decide (is_Code elem = statusOK) then checkStanzas l
      else Some (New ("pgBackRest info command failed with code " +:+ pretty (is_Code elem) +:+ ": " +:+
                      is_Message elem))
  end.

Section PgBackRest.
(** [json.Unmarshal] into an [InfoOutput] *)
Context (unmarshalInfo : string -> result InfoOutput).

Definition repoArg (repoName : string) : string := "--repo=" +:+ TrimPrefix repoName "repo".

Definition GetInfo (pod : Pod) (repoName : string) : action InfoOutput :=
  do! _ := call NewExecClient or "failed to create client" in
  let! out := call (Exec (objectKey (p_Meta pod)) ContainerDatabase None
    ["pgbackrest"; "info"; "--output=json"; repoArg repoName; "--log-level-console=info"]) in
  match out_Err out with
  | Some e => Ret (Err (Wrap ("exec: " +:+ out_Stderr out) e))
  | None =>
      match unmarshalInfo (out_Stdout out) with
      | Err e => Ret (Err (Wrap "failed to unmarshal pgBackRest info output" e))
      | Ok info => match checkStanzas info with
                   | Some e => Ret (Err e)
                   | None => Ret (Ok info)
                   end
      end
  end.

Definition SetAnnotationsToBackup (pod : Pod) (stanza backupSet repoName : string)
    (annotations : gmap string string) : action unit :=
  do! _ := call NewExecClient or "failed to create client" in
  let! order := call (RangeOrder (keys annotations)) in
  let annotationsOpts :=
    map (fun k => "--annotation=" +:+ k +:+ "=" +:+ default "" (annotations !! k)) (proj1_sig order) in
  let cmd := ["pgbackrest"; "--stanza=" +:+ stanza; "--set=" +:+ backupSet; repoArg repoName] ++
             annotationsOpts ++ ["annotate"] in
  let! out := call (Exec (objectKey (p_Meta pod)) ContainerDatabase None cmd) in
  match out_Err out with
  | Some e => Ret (Err (Wrap ("exec: " +:+ out_Stderr out) e))
  | None => Ret (Ok tt)
  end.

(** ** Repositories *)
Definition getRepo (pg : PerconaPGCluster) (pb : PerconaPGBackup) : option PGBackRestRepo :=
  let repoName := deref (b_RepoName pb) "" in
  List.find (fun r => bool_decide (repoName = repo_Name r)) (bk_Repos (c_Backups pg)).

Definition getDestination (pg : PerconaPGCluster) (pb : PerconaPGBackup) : string :=
  match getRepo pg pb with
  | None => ""
  | Some repo =>
      let repoPath := default "" (bk_Global (c_Backups pg) !! (repo_Name repo +:+ "-path")) in
      match repo_S3 repo, repo_GCS repo, repo_Azure repo with
      | Some s3, _, _ => "s3://" +:+ path_Join [s3_Bucket s3; repoPath]
      | None, Some bucket, _ => "gs://" +:+ path_Join [bucket; repoPath]
      | None, None, Some container => "azure://" +:+ path_Join [container; repoPath]
      | None, None, None => ""
      end
  end.

Definition storageType (repo : PGBackRestRepo) : StorageType :=
  match repo_S3 repo, repo_Azure repo, repo_GCS repo with
  | Some _, _, _ => StorageS3
  | None, Some _, _ => StorageAzure
  | None, None, Some _ => StorageGCS
  | None, None, None => StorageFilesystem
  end.

(** ** The backup in the output of pgBackRest *)
Definition isOurBackup (pgBackup : PerconaPGBackup) (backup : InfoBackup) : bool :=
  let a k := default "" (ib_Annotation backup !! k) in
  if bool_decide (ib_Annotation backup = ∅) then false
  else if nonempty (a PGBackrestAnnotationJobName) &&
          negb (bool_decide (a PGBackrestAnnotationJobName = bs_JobName (b_Status pgBackup))) then false
  else
    let backupType := a PGBackrestAnnotationJobType in
    negb ((negb (bool_decide (backupType = annotation (b_Meta pgBackup) AnnotationPGBackrestBackupJobType)) ||
           negb (bool_decide (backupType = BackupReplicaCreate))) &&
          negb (bool_decide (a PGBackrestAnnotationBackupName = b_Name pgBackup))).

Fixpoint findBackupInPGBackrestInfo (infoOutput : InfoOutput) (pgBackup : PerconaPGBackup)
    : option (string * InfoBackup) :=
  match infoOutput with
  | [] => None
  | stanzaInfo :: infoOutput =>
      match List.find (isOurBackup pgBackup) (is_Backup stanzaInfo) with
      | Some backup => Some (is_Name stanzaInfo, backup)
      | None => findBackupInPGBackrestInfo infoOutput pgBackup
      end
  end.
End PgBackRest.

Definition ErrBackupJobNotFound : error := Sentinel "backup Job not found".
Definition isJobNotFound (e : error) : bool := Is e "backup Job not found".

Definition checkBackupJob (job : Job) : PGBackupState :=
  if JobCompleted job then BackupSucceeded
  else if JobFailed job then BackupFailed
  else BackupRunning.

Section BackupJob.
Context `{ControllerRuntime, LabelMatching, MetaConditions}.
Context (unmarshalInfo : string -> result InfoOutput).

Definition clusterKey (pb : PerconaPGBackup) : key := (b_Namespace pb, b_PGCluster pb).

Definition updatePGBackrestInfo (pod : Pod) (pgBackup : PerconaPGBackup) : action unit :=
  let repoName := deref (b_RepoName pgBackup) "" in
  do! infoOutput := GetInfo unmarshalInfo pod repoName or "get pgBackRest info" in
  match findBackupInPGBackrestInfo infoOutput pgBackup with
  | None => Ret (Ok tt)
  | Some (stanzaName, backup) =>
      let st := b_Status pgBackup in
      do! _ := (if negb (bool_decide (bs_BackupName st = ib_Label backup)) ||
                   negb (bool_decide (bs_BackupType st = ib_Type backup)) ||
                   negb (bool_decide (bs_Size st = ib_Delta backup))
                then UpdateStatus pgBackup (fun bcp => bcp <| b_Status ::= fun s =>
                       s <| bs_BackupName := ib_Label backup |> <| bs_BackupType := ib_Type backup |>
                         <| bs_Size := ib_Delta backup |> |>)
                else Ret (Ok tt)) or "update PGBackup status" in
      do! _ := SetAnnotationsToBackup pod stanzaName (ib_Label backup) repoName
                 {[PGBackrestAnnotationJobName := bs_JobName st]} or "set annotations to backup" in
      Ret (Ok tt)
  end.

Definition getBackupInProgress (clusterName ns : string) : action string :=
  do! pgCluster := call (Get KPGCluster (ns, clusterName)) or "get PostgresCluster" in
  do! crunchyCluster := call (Get KCrunchy (ns, clusterName)) or "get PostgresCluster" in
  let inCrunchy := annotation (cc_Meta crunchyCluster) (ToCrunchyAnnotation AnnotationBackupInProgress) in
  if nonempty inCrunchy then Ret (Ok inCrunchy)
  else Ret (Ok (annotation (c_Meta pgCluster) AnnotationBackupInProgress)).

(** [deleteAnnotation] of [finishBackup]: true when the upstream cluster no
    longer has the annotation; otherwise it is deleted from ours. *)
Definition deleteAnnotation (pgBackup : PerconaPGBackup) (annotation_ : string) : action bool :=
  do! pgCluster := call (Get KCrunchy (clusterKey pgBackup)) or "get PostgresCluster" in
  match om_Annotations (cc_Meta pgCluster) !! ToCrunchyAnnotation annotation_ with
  | None => Ret (Ok true)
  | Some _ =>
      do! _ := RetryOnConflict (
        do! perconaPGCluster := call (Get KPGCluster (clusterKey pgBackup)) or "get PerconaPGCluster" in
        match om_Annotations (c_Meta perconaPGCluster) !! annotation_ with
        | None => Ret (Ok tt)
        | Some _ => ignore (call (Update KPGCluster (perconaPGCluster <| c_Meta ::= fun m =>
                      m <| om_Annotations ::= delete annotation_ |> |>)))
        end) in
      Ret (Ok false)
  end.

(** The updates of [finishBackup] between the two annotations. *)
Definition removeJobLabels (pgBackup : PerconaPGBackup) (job : Job) : action unit :=
  RetryOnConflict (
    do! j := call (Get KJob (objectKey (j_Meta job))) or "get job" in
    ignore (call (Update KJob (j <| j_Meta ::= fun m =>
      m <| om_Labels ::= fun l => l ∖ PGBackRestLabels (b_PGCluster pgBackup) |> |>)))).

Definition clearManualBackup (pgBackup : PerconaPGBackup) : action unit :=
  RetryOnConflict (
    do! pgCluster := call (Get KCrunchy (clusterKey pgBackup)) or "get PostgresCluster" in
    match cc_PGBackRest pgCluster with
    | None => Ret (Err panic)
    | Some st => ignore (call (StatusUpdate KCrunchy
        (pgCluster <| cc_PGBackRest := Some (st <| ps_ManualBackup := None |>) |>)))
    end).

(** [Some n] asks to be called again after [n] seconds. *)
Definition finishBackup (pgBackup : PerconaPGBackup) (job : option Job) : action (option Z) :=
  do! _ := (match job with
            | Some j =>
                if bool_decide (checkBackupJob j = BackupSucceeded) then
                  do! readyPod := GetReadyInstancePod (b_PGCluster pgBackup) (b_Namespace pgBackup)
                                  or "get ready instance pod" in
                  do! _ := updatePGBackrestInfo readyPod pgBackup or "update pgbackrest info" in
                  Ret (Ok tt)
                else Ret (Ok tt)
            | None => Ret (Ok tt)
            end) in
  let foreign := match job with
                 | Some j => negb (bool_decide (label (j_Meta j) LabelPGBackRestBackup = BackupManual))
                 | None => false
                 end in
  if foreign then Ret (Ok None) else
  do! runningBackup := getBackupInProgress (b_PGCluster pgBackup) (b_Namespace pgBackup)
                       or "get backup in progress" in
  if negb (bool_decide (runningBackup = b_Name pgBackup)) then Ret (Ok None) else
  do! deleted := deleteAnnotation pgBackup PGBackRestBackup
                 or ("delete " +:+ PGBackRestBackup +:+ " annotation") in
  if negb deleted then Ret (Ok (Some 5%Z)) else
  do! _ := (match job with
            | Some j => do! _ := removeJobLabels pgBackup j or "update backup job labels" in Ret (Ok tt)
            | None => Ret (Ok tt)
            end) in
  do! _ := clearManualBackup pgBackup or "update postgrescluster" in
  do! _ := deleteAnnotation pgBackup AnnotationBackupInProgress
           or ("delete " +:+ AnnotationBackupInProgress +:+ " annotation") in
  Ret (Ok (Some 5%Z)).

Definition startBackup (pb : PerconaPGBackup) : action unit :=
  do! _ := RetryOnConflict (
      do! pg := call (Get KPGCluster (clusterKey pb)) in
      let a := annotation (c_Meta pg) AnnotationBackupInProgress in
      if nonempty a && negb (bool_decide (a = b_Name pb))
      then Ret (Err (New ("backup " +:+ a +:+ " already in progress")))
      else
        let pg := pg <| c_Meta ::= fun m => m <| om_Annotations ::= fun l =>
            <[AnnotationBackupInProgress := b_Name pb]> (<[PGBackRestBackup := b_Name pb]> l) |> |> in
        let pg := pg <| c_Backups ::= fun b => b <| bk_Manual :=
            Some (mkManual (deref (b_RepoName pb) "") (b_Options pb) (b_Env pb) (b_EnvFrom pb)) |> |> in
        ignore (call (Update KPGCluster pg)))
    or "update PostgresCluster" in
  Ret (Ok tt).

Definition findBackupJob (pb : PerconaPGBackup) : action Job :=
  let jobName := annotation (b_Meta pb) AnnotationPGBackrestBackupJobName in
  if nonempty jobName || nonempty (bs_JobName (b_Status pb)) then
    let jobName := if nonempty jobName then jobName else bs_JobName (b_Status pb) in
    do! job := call (Get KJob (b_Namespace pb, jobName)) or "get backup job by .status.jobName" in
    Ret (Ok job)
  else
    do! jobList := call (ListAll KJob (b_Namespace pb) (ByLabels
        (PGBackRestBackupJobSelector (b_PGCluster pb) (deref (b_RepoName pb) "") BackupManual)))
      or "get backup jobs" in
    match List.find (fun job => bool_decide (om_Annotations (j_Meta job) !! PGBackRestBackup =
                                             Some (b_Name pb))) jobList with
    | Some job => Ret (Ok job)
    | None => Ret (Err ErrBackupJobNotFound)
    end.

(** nanoseconds *)
Definition twoMinutes : Z := 2 * 60 * 1000000000.

Definition failIfClusterIsNotReady (pgCluster : PerconaPGCluster) (pgBackup : PerconaPGBackup)
    : action unit :=
  match FindStatusCondition (c_Conditions pgCluster) ConditionClusterIsReadyForBackup with
  | None => Ret (Ok tt)
  | Some condition =>
      if bool_decide (cond_Status condition = ConditionTrue) then Ret (Ok tt) else
      let! now := call Now in
      if bool_decide (now < cond_LastTransitionTime condition + twoMinutes)%Z then Ret (Ok tt) else
      do! crunchyCluster := call (Get KCrunchy (objectKey (c_Meta pgCluster))) or "get PostgresCluster" in
      let has a := bool_decide (is_Some (om_Annotations (cc_Meta crunchyCluster) !! ToCrunchyAnnotation a)) in
      if negb (has PGBackRestBackup) then Ret (Ok tt) else
      if negb (has AnnotationBackupInProgress) then Ret (Ok tt) else
      do! _ := UpdateStatus pgBackup (fun bcp => bcp <| b_Status ::= fun s =>
                 s <| bs_State := BackupFailed |> |>) or "update PGBackup status" in
      Ret (Ok tt)
  end.

(** ** Finalizers *)

(** The local object gets the finalizers even when the patch fails, hence the
    pair. *)
Definition ensureFinalizers (pgBackup : PerconaPGBackup) : program (PerconaPGBackup * result unit) :=
  let '(fs, changed) := AddFinalizer (om_Finalizers (b_Meta pgBackup)) FinalizerDeleteBackup in
  if negb changed then Ret (pgBackup, Ok tt) else
  let pgBackup' := pgBackup <| b_Meta ::= fun m => m <| om_Finalizers := fs |> |> in
  let! r := call (Patch KBackup pgBackup pgBackup') in
  match r with
  | Ok _ => Ret (pgBackup', Ok tt)
  | Err e => Ret (pgBackup', Err (Wrap "remove finalizers" e))
  end.

(** Delete a job with its pods and let it go; a job that is gone is fine. *)
Definition deleteJob (job : Job) : action unit :=
  let! r := call (Delete KJob (objectKey (j_Meta job)) Foreground) in
  match IgnoreNotFound (err_of r) with
  | Some e => Ret (Err (Wrap "delete backup job" e))
  | None => Ret (Ok tt)
  end.

(** [findBackupJob], where a missing job is not an error *)
Definition findJobIfAny (pgBackup : PerconaPGBackup) : action (option Job) :=
  let! r := findBackupJob pgBackup in
  match r with
  | Ok job => Ret (Ok (Some job))
  | Err e => if isJobNotFound e || IsNotFound e then Ret (Ok None)
             else Ret (Err (Wrap "find backup job" e))
  end.

(** [deleteBackupFinalizer] without and with a cluster. *)
Definition deleteBackupWithoutCluster (pgBackup : PerconaPGBackup) : action unit :=
  do! job := findJobIfAny pgBackup in
  match job with
  | None => Ret (Ok tt)
  | Some job =>
      do! _ := (if negb (isDeleting (j_Meta job)) then deleteJob job else Ret (Ok tt)) in
      do! _ := RemoveKeepJobFinalizer job or "remove keep-job finalizer" in
      Ret (Err ErrFinalizerPending)
  end.

Definition deleteBackupWithCluster (pgBackup : PerconaPGBackup) : action unit :=
  do! job := findJobIfAny pgBackup in
  match job, nonempty (bs_JobName (b_Status pgBackup)) with
  | Some j, false =>
      do! _ := UpdateStatus pgBackup (fun bcp => bcp <| b_Status ::= fun s =>
                 s <| bs_JobName := om_Name (j_Meta j) |> |>) or "update backup job name" in
      Ret (Err ErrFinalizerPending)
  | _, _ =>
      do! rr := finishBackup pgBackup job or "failed to finish backup" in
      let again := match rr with Some n => negb (bool_decide (n = 0%Z)) | None => false end in
      if again then Ret (Err ErrFinalizerPending) else
      match job with
      | Some j =>
          if isDeleting (b_Meta pgBackup) then
            do! _ := deleteJob j in
            do! _ := RemoveKeepJobFinalizer j or "remove keep-job finalizer" in
            Ret (Ok tt)
          else Ret (Ok tt)
      | None => Ret (Ok tt)
      end
  end.

Definition deleteBackupFinalizer (pg : option PerconaPGCluster) (pgBackup : PerconaPGBackup)
    : action unit :=
  match pg with
  | None => deleteBackupWithoutCluster pgBackup
  | Some _ => deleteBackupWithCluster pgBackup
  end.

Definition snapshotInProgressFinalizer (pg : option PerconaPGCluster) (_ : PerconaPGBackup)
    : action unit :=
  match pg with Some _ => Ret (Err ErrFinalizerPending) | None => Ret (Ok tt) end.

(** The loop of [runFinalizers], in the order the map is visited. *)
Fixpoint finalizerLoop (order : list string) (pg : option PerconaPGCluster)
    (pgBackup : PerconaPGBackup) (finished : bool) : action bool :=
  match order with
  | [] => Ret (Ok finished)
  | finalizer :: order =>
      let f := if decide (finalizer = FinalizerDeleteBackup) then deleteBackupFinalizer pg
               else snapshotInProgressFinalizer pg in
      let! (pgBackup, r) := RunFinalizer (k := KBackup) pgBackup finalizer f in
      match r with
      | Err e => Ret (Err (Wrap ("run finalizer " +:+ finalizer) e))
      | Ok done_ => finalizerLoop order pg pgBackup (finished && done_)
      end
  end.

Definition runFinalizers (pgBackup : PerconaPGBackup) : action bool :=
  let! r := call (Get KPGCluster (clusterKey pgBackup)) in
  let pg : result (option PerconaPGCluster) :=
    match r with
    | Ok pg => Ok (if isDeleting (c_Meta pg) then None else Some pg)
    | Err e => if IsNotFound e then Ok None else Err (Wrap "get PostgresCluster" e)
    end in
  match pg with
  | Err e => Ret (Err e)
  | Ok pg =>
      let! order := call (RangeOrder [FinalizerDeleteBackup; FinalizerSnapshotInProgress]) in
      finalizerLoop (proj1_sig order) pg pgBackup true
  end.
End BackupJob.
