(* ===== verification/WALWatcher.v ===== *)
(** * What a watcher of write-ahead logs looks for

    One tick of [watchCommitTimestamps] in [percona/watcher/wal.go]: the time of
    the latest commit on the primary, against the latest backup. *)
From S2P Require Import Prelude GoStrings GoTime Cluster Prog Errors Naming Objects Client.
From S2P Require Import BackupUtils Instances BackupJob Watchers.

Definition LatestCommitTimestampFile : string := "/pgdata/latest_commit_timestamp.txt".

Definition LatestTimestampFileNotFound : error := Sentinel (LatestCommitTimestampFile +:+ " not found in container").
Definition PrimaryPodNotFound : error := Sentinel "primary pod not found".
Definition LatestTimestampIsBeforeBackupStart : error :=
  Sentinel "latest commit timestamp is before backup start timestamp".

(** [errors.Wrap(PrimaryPodNotFound, err.Error())]: the cause is the sentinel. *)
Definition noPrimary (e : error) : error := Wrap "get primary" PrimaryPodNotFound.

Section WAL.
Context `{ControllerRuntime, GoVersion}.
Context (unmarshalInfo : string -> result InfoOutput).

(** The first backup of this job in the output of pgBackRest. *)
Definition startOfJob (info : InfoOutput) (jobName : string) : option Z :=
  let ours b := bool_decide (default "" (ib_Annotation b !! PGBackrestAnnotationJobName) = jobName) in
  (fun b => ib_Start b * second)%Z <$> List.find ours (concat (map is_Backup info)).

Definition getBackupStartTimestamp (cr : PerconaPGCluster) (backup : PerconaPGBackup) : action Z :=
  let! r := GetPrimaryPod cr in
  match r with
  | Err e => Ret (Err (noPrimary e))
  | Ok primary =>
      do! info := GetInfo unmarshalInfo primary (deref (b_RepoName backup) "") or "get pgbackrest info" in
      match startOfJob info (bs_JobName (b_Status backup)) with
      | Some t => Ret (Ok t)
      | None => Ret (Err (New "backup not found in pgbackrest info"))
      end
  end.

Definition getLatestCommitTimestamp (cr : PerconaPGCluster) (backup : PerconaPGBackup) : action Z :=
  let! r := GetPrimaryPod cr in
  match r with
  | Err e => Ret (Err (noPrimary e))
  | Ok primary =>
      let! out := call (Exec (objectKey (p_Meta primary)) "database" None ["cat"; LatestCommitTimestampFile]) in
      match out_Err out with
      | Some e =>
          if Contains (out_Stderr out) "No such file or directory" then Ret (Err LatestTimestampFileNotFound)
          else Ret (Err (Wrap ("get latest commit timestamp from container, stderr: " +:+ out_Stderr out) e))
      | None =>
          match parseCommitTime (TrimSpace (out_Stdout out)) with
          | None => Ret (Err (Wrap "parse commit timestamp" (New "parsing time")))
          | Some commitTs =>
              do! backupStartTs := getBackupStartTimestamp cr backup or "get backup start timestamp" in
              if bool_decide (commitTs < backupStartTs)%Z then Ret (Err LatestTimestampIsBeforeBackupStart)
              else Ret (Ok commitTs)
          end
      end
  end.

(** What a tick of the watcher comes to. *)
Inductive Tick :=
| TickEnds                                  (** the goroutine returns *)
| TickIdle                                  (** it waits for the next tick *)
| TickTriggers (backup : PerconaPGBackup).  (** it asks for a reconcile of the backup *)

Definition newerThan (ts : Z) (latestRestorableTime : option Z) : bool :=
  match latestRestorableTime with None => true | Some t => bool_decide (t < ts)%Z end.

Definition watchTick (cr : PerconaPGCluster) : program Tick :=
  let! r := call (Get KPGCluster (Watchers.clusterKey cr)) in
  match r with
  | Err _ => Ret TickEnds
  | Ok localCr =>
      if negb (IsEnabled (c_Backups localCr)) then Ret TickIdle
      else
        let! r := GetLatestBackup localCr in
        match r with
        | Err _ => Ret TickIdle
        | Ok latestBackup =>
            let! r := getLatestCommitTimestamp localCr latestBackup in
            match r with
            | Err _ => Ret TickIdle
            | Ok ts =>
                if newerThan ts (bs_LatestRestorableTime (b_Status latestBackup))
                then Ret (TickTriggers latestBackup) else Ret TickIdle
            end
        end
  end.
End WAL.

(** ** The calls of a tick *)
Section TickCalls.
Context `{ControllerRuntime, GoVersion} (unmarshalInfo : string -> result InfoOutput) (cr : PerconaPGCluster).

(** A tick reads: two kinds of commands run in a pod, and both only print. *)
Definition tick_call (h : history) (o : op) : Prop :=
  match o with
  | Get KPGCluster k => k = Watchers.clusterKey cr
  | ListAll KBackup _ _ | ListAll KPod _ _ | NewExecClient => True
  | Exec _ container None command => container = "database" /\
      (command = ["cat"; LatestCommitTimestampFile] \/ exists repoName,
       command = ["pgbackrest"; "info"; "--output=json"; repoArg repoName; "--log-level-console=info"])
  | _ => False
  end.

(** A command printed this. *)
Definition command_output (h : history) (command : list string) (out : ExecOutput) : Prop :=
  exists pod, (Ev (Exec pod "database" None command : op) out : event resp) ∈ h /\ out_Err out = None.

(** The commit [ts] was read, and it is not older than the backup. *)
Definition committed (h : history) (backup : PerconaPGBackup) (ts : Z) : Prop :=
  (exists out, command_output h ["cat"; LatestCommitTimestampFile] out /\
     parseCommitTime (TrimSpace (out_Stdout out)) = Some ts) /\
  exists out info start,
    command_output h ["pgbackrest"; "info"; "--output=json"; repoArg (deref (b_RepoName backup) "");
                      "--log-level-console=info"] out /\
    unmarshalInfo (out_Stdout out) = Ok info /\ checkStanzas info = None /\
    startOfJob info (bs_JobName (b_Status backup)) = Some start /\ (start <= ts)%Z.

#[export] Instance grows_command_output command out : Grows (fun h => command_output h command out).
Proof. unfold command_output. apply _. Qed.

Abbreviation safe := (wps tick_call).

Lemma GetPrimaryPod_tick c h : safe h (GetPrimaryPod c) (fun h' _ => h `prefix_of` h').
Proof.
  eapply wps_conseq; [apply wps_prefix|by intros h' r [Hp _]]. instantiate (1 := fun _ _ => True).
  unfold GetPrimaryPod. destruct (NewVersion _); [|done]. unfold rolePods. apply wps_list_bindr. split; [done|].
  intros [[|pod [|]]|e]; done.
Qed.

Lemma GetInfo_tick pod repoName h :
  safe h (GetInfo unmarshalInfo pod repoName) (fun h' r => h `prefix_of` h' /\
    forall info, r = Ok info -> checkStanzas info = None /\ exists out,
      command_output h' ["pgbackrest"; "info"; "--output=json"; repoArg repoName; "--log-level-console=info"] out /\
      unmarshalInfo (out_Stdout out) = Ok info).
Proof.
  apply wps_prefix. unfold GetInfo. apply wps_call_bind. split; [done|]. intros [u|e]; [|done].
  apply wps_call_bind. split; [split; [done|right; by eexists]|]. intros out.
  destruct (out_Err out) eqn:Eo; [done|]. destruct (unmarshalInfo (out_Stdout out)) as [info|e] eqn:Eu; [|done].
  destruct (checkStanzas info) eqn:Ec; [done|]. intros i [= <-]. split; [done|]. exists out. split; [|done].
  eexists. split; [apply elem_of_snoc|done].
Qed.

Lemma getLatestCommitTimestamp_tick c backup h :
  safe h (getLatestCommitTimestamp unmarshalInfo c backup) (fun h' r => h `prefix_of` h' /\
    forall ts, r = Ok ts -> committed h' backup ts).
Proof.
  apply wps_prefix. unfold getLatestCommitTimestamp. rewrite wps_bind. eapply wps_conseq; [apply GetPrimaryPod_tick|].
  intros h1 [primary|e] _; [|done]. apply wps_call_bind. split; [split; [done|by left]|]. intros out.
  destruct (out_Err out) eqn:Eo; [by destruct (Contains _ _)|].
  destruct (parseCommitTime _) as [commitTs|] eqn:Ep; [|done].
  assert (Hc : forall h', h1 ++ [Ev _ out] `prefix_of` h' -> command_output h' ["cat"; LatestCommitTimestampFile] out).
  { intros h' Hp. eapply (grows (P := fun h => command_output h _ _)); [|exact Hp]. eexists. split; [apply elem_of_snoc|done]. }
  rewrite wps_bindr. unfold getBackupStartTimestamp. rewrite wps_bind.
  eapply wps_conseq; [apply GetPrimaryPod_tick|]. intros h2 [p2|e] Hp2; [|done]. rewrite wps_bindr.
  eapply wps_conseq; [apply GetInfo_tick|]. intros h3 [info|e] [Hp3 Hi]; [|done].
  destruct (Hi info eq_refl) as (Hck & iout & Hio & Hu). destruct (startOfJob _ _) as [start|] eqn:Es; [|done].
  simpl. case_bool_decide as Hlt; [done|]. intros ts [= <-]. split.
  - exists out. split; [apply Hc; by transitivity h2|done].
  - exists iout, info, start. split_and!; [done..|lia].
Qed.

Lemma latestOf_candidate items b : latestOf items = Ok b -> b ∈ items /\ isCandidate b.
Proof.
  assert (Hg : forall l seen latest running, (forall c, latest = Some c -> c ∈ seen /\ isCandidate c) ->
    forall c, fst (fold_left latestStep l (latest, running)) = Some c -> c ∈ seen ++ l /\ isCandidate c).
  { induction l as [|a l IH]; intros seen latest running Hl c Hc; [simpl in Hc; rewrite app_nil_r; by apply Hl|].
    rewrite cons_middle, app_assoc. cbn [fold_left] in Hc.
    destruct (latestStep (latest, running) a) as [latest' running'] eqn:Es. apply (IH (seen ++ [a]) latest' running'); [|done].
    intros c' ->. rewrite elem_of_app, list_elem_of_singleton. unfold latestStep in Es.
    assert (Hk : latest = Some c' -> (c' ∈ seen \/ c' = a) /\ isCandidate c') by (intros Hk; destruct (Hl c' Hk); auto).
    case_bool_decide as Hm; [simplify_eq; auto|].
    assert (Ha : b_State a = BackupSucceeded -> isCandidate a).
    { intros Ha. split; [|done]. by destruct (b_Method a) as [[]|]. }
    repeat case_match; simplify_eq; auto. }
  unfold latestOf. pose proof (Hg items [] None false) as Hf.
  destruct (fold_left latestStep items (None, false)) as [[l|] running] eqn:El; [|by destruct running].
  destruct (bs_CompletedAt (b_Status l)); [|by destruct running]. intros [= ->]. by apply Hf.
Qed.

Definition listed_backup (c : PerconaPGCluster) (b : PerconaPGBackup) (h : history) : Prop :=
  exists items : list PerconaPGBackup,
    (Ev (ListAll KBackup (c_Namespace c) (ByPGCluster (c_Name c)) : op)
      (Ok items : result (list PerconaPGBackup)) : event resp) ∈ h /\ b ∈ items.

#[export] Instance grows_listed_backup c b : Grows (listed_backup c b).
Proof. unfold listed_backup. apply _. Qed.

Lemma GetLatestBackup_tick c h :
  safe h (GetLatestBackup c) (fun h' r => h `prefix_of` h' /\
    forall b, r = Ok b -> listed_backup c b h' /\ isCandidate b).
Proof.
  apply wps_prefix. unfold GetLatestBackup. apply wps_list_bindr. split; [done|]. intros [[|b0 items]|e]; [done| |done].
  intros b [Hin Hc]%latestOf_candidate. split; [|done]. exists (b0 :: items). split; [apply elem_of_snoc|done].
Qed.

(** What makes a watcher ask for a reconcile.  A tick changes nothing: it
    reads objects, prints the file of the latest commit and the backups that
    pgBackRest knows.  It asks for the reconcile of a backup only when backups are
    enabled, the backup is a listed pgBackRest backup that succeeded, and a commit
    was read that is not older than the start that pgBackRest gives for the
    backup's job, and newer than its latest restorable time if it has one.  The
    watcher ends exactly on an error of the read of its cluster, whatever the
    error is. *)
Theorem tick_triggers :
  wps tick_call [] (watchTick unmarshalInfo cr) (fun h t =>
    (exists r, [got KPGCluster (Watchers.clusterKey cr) r] `prefix_of` h /\ (t = TickEnds <-> exists e, r = Err e)) /\
    forall backup, t = TickTriggers backup ->
      exists (c : PerconaPGCluster) ts,
        got KPGCluster (Watchers.clusterKey cr) (Ok c) ∈ h /\ IsEnabled (c_Backups c) = true /\
        listed_backup c backup h /\ isCandidate backup /\ committed h backup ts /\
        forall t, bs_LatestRestorableTime (b_Status backup) = Some t -> (t < ts)%Z).
Proof.
  unfold watchTick. apply wps_call_bind. split; [done|]. intros [c|e]; cycle 1.
  { split; [|done]. exists (Err e). split; [done|]. split; [by eexists|done]. }
  set (h := [] ++ _). change (resp (Get KPGCluster (Watchers.clusterKey cr))) with (result PerconaPGCluster) in *.
  assert (Hidle : forall h' t, h `prefix_of` h' -> t <> TickEnds -> exists r : result (obj KPGCluster),
    [got KPGCluster (Watchers.clusterKey cr) r] `prefix_of` h' /\ (t = TickEnds <-> exists e, r = Err e)).
  { intros h' t Hp Ht. exists (Ok c). split; [done|]. split; [done|]. by intros [e [=]]. }
  cbv beta iota. destruct (IsEnabled (c_Backups c)) eqn:Ee; simpl negb; cbv iota; [|by split; [apply Hidle|]].
  rewrite wps_bind. eapply wps_conseq; [apply GetLatestBackup_tick|].
  intros h1 [backup|e] [Hp1 Hb]; [|by split; [apply Hidle|]]. destruct (Hb backup eq_refl) as [Hl Hc].
  rewrite wps_bind. eapply wps_conseq; [apply getLatestCommitTimestamp_tick|].
  intros h2 [ts|e] [Hp2 Hts]; (assert (Hp : h `prefix_of` h2) by by transitivity h1); [|by split; [apply Hidle|]].
  destruct (newerThan ts _) eqn:En; (split; [by apply Hidle|]); [|done]. intros b [= <-].
  exists c, ts. split_and!; [|done| |done|by apply Hts|].
  - eapply elem_of_grow; [apply elem_of_snoc|exact Hp].
  - by eapply (grows (P := listed_backup c backup)).
  - intros t Ht. unfold newerThan in En. rewrite Ht in En. by apply bool_decide_eq_true in En.
Qed.
End TickCalls.

(** The file of the latest commit is read exactly.  The archive command writes
    one line, a date and a time with microseconds and Z or an offset in whole
    hours; for every such line of a date that exists the parsed instant is the one
    it denotes, in nanoseconds since 1970, where the days are counted by the
    calendar: the number of the day after a date is one more, and the first of
    January 1970 has number zero. *)
Theorem commit_time_roundtrip year month day hour min sec usec offset :
  (0 <= year < 10000 -> 1 <= month <= 12 -> 1 <= day <= daysIn month year -> 0 <= hour < 24 ->
   0 <= min < 60 -> 0 <= sec < 60 -> 0 <= usec < 1000000 -> -24 <= offset <= 24 ->
   parseCommitTime (TrimSpace (printTime year month day hour min sec usec offset +:+ char newline)) =
     Some ((((dayNumber year month day * 24 + hour - offset) * 60 + min) * 60 + sec) * second + usec * 1000) /\
   dayNumber 1970 1 1 = 0 /\
   let '(y', m', d') := nextDay year month day in dayNumber y' m' d' = dayNumber year month day + 1)%Z.
Proof.
  intros. rewrite TrimSpace_printTime by lia. rewrite parse_printTime by done. split_and!; [|done|by apply dayNumber_next].
  f_equal. unfold Date, second. lia.
Qed.

Lemma commit_time_roundtrip_witness :
  parseCommitTime (TrimSpace ("2024-02-29T23:59:59.123456+02" +:+ char newline)) =
    Some (1709243999123456000)%Z.
Proof.
  destruct (commit_time_roundtrip 2024 2 29 23 59 59 123456 2) as [E _]; [first [lia|by vm_compute]..|].
  change (printTime 2024 2 29 23 59 59 123456 2) with "2024-02-29T23:59:59.123456+02" in E.
  rewrite E. by vm_compute.
Defined.
