(* ===== verification/ClusterBackups.v ===== *)
(** * Backups of a cluster, seen from the cluster

    [percona/controller/pgcluster/backup.go]: a backup object for every job that
    has none, and the removal of backup objects that pgBackRest no longer
    knows. *)
From S2P Require Import Prelude GoStrings Cluster Prog Errors Naming Objects Client.
From S2P Require Import BackupUtils Instances BackupJob ClusterStatus.

Section ClusterBackups.
Context `{ControllerRuntime, GoVersion, MetaConditions, LabelMatching}.
Context (unmarshalInfo : string -> result InfoOutput) (errorText : error -> string).
(** [errorText] is the text of an error, which for an answer of the API is the
    API server's. *)

(** [PerconaPGBackup.CompareVersion] *)
Definition b_CompareVersion (b : PerconaPGBackup) (ver : string) : Z :=
  if nonempty (bs_CRVersion (b_Status b)) then Compare (Must (bs_CRVersion (b_Status b))) (Must ver) else (-1)%Z.

Definition ofRepo (cr : PerconaPGCluster) (repoName : string) (b : PerconaPGBackup) : bool :=
  bool_decide (b_PGCluster b = c_Name cr) && bool_decide (deref (b_RepoName b) "" = repoName).

Definition listPGBackups (cr : PerconaPGCluster) (repoName : string) : action (list PerconaPGBackup) :=
  do! pbList := call (ListAll KBackup (c_Namespace cr) Everything) or "failed to list backup jobs" in
  Ret (Ok (List.filter (ofRepo cr repoName) pbList)).

Definition jobsSelector (cr : PerconaPGCluster) (repoName : string) : ListSelector :=
  ByLabels (SetSelector (delete LabelPGBackRestBackup (PGBackRestBackupJobLabels (c_Name cr) repoName ""))).

Definition listBackupJobs (cr : PerconaPGCluster) (repoName : string) : action (list Job) :=
  do! jobs := call (ListAll KJob (c_Namespace cr) (jobsSelector cr repoName)) or "failed to list backup jobs" in
  Ret (Ok jobs).

Definition ownsJob (job : Job) (pb : PerconaPGBackup) : bool :=
  bool_decide (annotation (b_Meta pb) AnnotationPGBackrestBackupJobName = om_Name (j_Meta job)) ||
  bool_decide (bs_JobName (b_Status pb) = om_Name (j_Meta job)).

Definition findPGBackup (cr : PerconaPGCluster) (job : Job) (repoName : string) : action (option PerconaPGBackup) :=
  do! pbList := listPGBackups cr repoName or "failed to list backup jobs" in
  Ret (Ok (List.find (ownsJob job) pbList)).

(** *** Jobs without a backup *)
Definition releaseJob (cr : PerconaPGCluster) (job : Job) : action unit :=
  RetryOnConflict (
    do! j := call (Get KJob (objectKey (j_Meta job))) or "get job" in
    ignore (call (Update KJob (j <| j_Meta ::= fun m =>
      m <| om_Finalizers := fst (RemoveFinalizer (om_Finalizers (j_Meta j)) FinalizerKeepJob) |>
        <| om_Labels ::= fun l => l ∖ PGBackRestLabels (c_Name cr) |> |>)))).

Definition backupForJob (cr : PerconaPGCluster) (job : Job) (repoName : string) : PerconaPGBackup :=
  let own : gmap string string := {[AnnotationPGBackrestBackupJobName := om_Name (j_Meta job)]} in
  let '(labels, annotations) :=
    match (if bool_decide (0 <= c_CompareVersion cr "2.6.0")%Z then c_Metadata cr else None) with
    | Some md => (md_Labels md, Merge [md_Annotations md; own])
    | None => (∅, own)
    end in
  mkBackup (mkMeta "" (om_Namespace (j_Meta job)) "" "" 0 0 None labels annotations [] None (om_Name (j_Meta job) +:+ "-"))
    (c_Name cr) (Some repoName) None [] [] []
    (mkBackupStatus "" BackupNew "" None "" "" None None "" "" 0 "" None None []).

(** The backup becomes the only owner of the job. *)
Definition adoptJob (pb : PerconaPGBackup) (job : Job) : action unit :=
  RetryOnConflict (
    do! j := call (Get KJob (objectKey (j_Meta job))) in
    match SetControllerReference (b_Meta pb) (j_Meta j <| om_Controller := None |>) with
    | Err e => Ret (Err (Wrap "failed to set controller reference" e))
    | Ok m => ignore (call (Update KJob (j <| j_Meta := m |>)))
    end).

Definition reconcileBackupJob (cr : PerconaPGCluster) (job : Job) (repoName : string) : action unit :=
  do! pb := findPGBackup cr job repoName or "failed to find PerconaPGBackup for job" in
  let adopt pb := do! _ := adoptJob pb job or "failed to update backup job" in Ret (Ok tt) in
  match pb with
  | Some pb => adopt pb
  | None =>
      if bool_decide (label (j_Meta job) LabelPGBackRestBackup = BackupManual) then
        do! _ := (if (JobCompleted job || JobFailed job) &&
                     ContainsFinalizer (om_Finalizers (j_Meta job)) FinalizerKeepJob
                  then releaseJob cr job else Ret (Ok tt)) or "update backup job labels and finalizers" in
        Ret (Ok tt)
      else if bool_decide (om_DeletionTimestamp (j_Meta job) <> None) then Ret (Ok tt)
      else
        do! pb := call (Create KBackup (backupForJob cr job repoName)) or "failed to create PerconaPGBackup" in
        adopt pb
  end.

Fixpoint reconcileJobs (cr : PerconaPGCluster) (repoName : string) (jobs : list Job) : action unit :=
  match jobs with
  | [] => Ret (Ok tt)
  | job :: jobs =>
      do! _ := reconcileBackupJob cr job repoName or "failed to reconcile backup job" in
      reconcileJobs cr repoName jobs
  end.

Fixpoint reconcileBackupJobs (cr : PerconaPGCluster) (repos : list PGBackRestRepo) : action unit :=
  match repos with
  | [] => Ret (Ok tt)
  | repo :: repos =>
      do! jobs := listBackupJobs cr (repo_Name repo) or "failed to list backup jobs" in
      do! _ := reconcileJobs cr (repo_Name repo) jobs in
      reconcileBackupJobs cr repos
  end.

(** *** Backups that pgBackRest does not know *)
Definition backupPresent (info : InfoOutput) (pgBackup : PerconaPGBackup) : bool :=
  existsb (fun b => bool_decide (default "" (ib_Annotation b !! PGBackrestAnnotationJobName) = bs_JobName (b_Status pgBackup)))
    (flat_map is_Backup info).

Definition outdated (info : InfoOutput) (pgBackup : PerconaPGBackup) : bool :=
  bool_decide (b_State pgBackup = BackupSucceeded) && bool_decide (0 <= b_CompareVersion pgBackup "2.4.0")%Z &&
  negb (backupPresent info pgBackup).

Definition deleteOutdated (pgBackup : PerconaPGBackup) : action unit :=
  let jobKey := (b_Namespace pgBackup, bs_JobName (b_Status pgBackup)) in
  let! r := call (Get KJob jobKey) in
  match IgnoreNotFound (err_of r) with
  | Some e => Ret (Err (Wrap "get backup job" e))
  | None =>
      do! _ := (match r with
                | Ok job => call (Delete KJob (objectKey (j_Meta job)) Foreground)
                | Err _ => Ret (Ok tt)
                end) or "delete job" in
      do! _ := call (Delete KBackup (objectKey (b_Meta pgBackup)) NoOptions) or "delete backup" in
      Ret (Ok tt)
  end.

Fixpoint deleteAllOutdated (info : InfoOutput) (pbList : list PerconaPGBackup) : action unit :=
  match pbList with
  | [] => Ret (Ok tt)
  | pgBackup :: pbList =>
      if outdated info pgBackup
      then do! _ := deleteOutdated pgBackup in deleteAllOutdated info pbList
      else deleteAllOutdated info pbList
  end.

(** Errors of pgBackRest that pass with time. *)
Definition infoNotYet (e : error) : bool :=
  Is e "no valid backups" || Is e "pgBackRest stanza not created" || Contains (errorText e) "container not found".

Definition cleanupRepo (cr : PerconaPGCluster) (repo : PGBackRestRepo) : action unit :=
  if bool_decide (is_Some (repo_Volume repo)) && negb (conditionHolds (c_Conditions cr) ConditionRepoHostReady)
  then Ret (Ok tt)
  else
    do! pbList := listPGBackups cr (repo_Name repo) or "list pg-backups" in
    match pbList with
    | [] => Ret (Ok tt)
    | _ =>
        let! pod := GetReadyInstancePod (c_Name cr) (c_Namespace cr) in
        match pod with
        | Err _ => Ret (Ok tt)
        | Ok readyPod =>
            let! r := GetInfo unmarshalInfo readyPod (repo_Name repo) in
            match r with
            | Err e => Ret (if infoNotYet e then Ok tt else Err (Wrap "get pgBackRest info" e))
            | Ok info => deleteAllOutdated info pbList
            end
        end
    end.

Fixpoint cleanupRepos (cr : PerconaPGCluster) (repos : list PGBackRestRepo) : action unit :=
  match repos with
  | [] => Ret (Ok tt)
  | repo :: repos => do! _ := cleanupRepo cr repo in cleanupRepos cr repos
  end.

Definition cleanupOutdatedBackups (cr : PerconaPGCluster) : action unit :=
  if negb (IsEnabled (c_Backups cr)) then Ret (Ok tt)
  else if negb (bool_decide (c_State cr = AppStateReady)) then Ret (Ok tt)
  else cleanupRepos cr (bk_Repos (c_Backups cr)).

(** An error of the clean-up is logged. *)
Definition reconcileBackups (cr : PerconaPGCluster) : action unit :=
  do! _ := reconcileBackupJobs cr (bk_Repos (c_Backups cr)) or "reconcile backup jobs" in
  let! _ := cleanupOutdatedBackups cr in
  Ret (Ok tt).

(** *** The annotation of a manual backup *)
Definition withoutManual (cr : PerconaPGCluster) : PerconaPGCluster :=
  cr <| c_Meta ::= fun m => m <| om_Annotations ::= delete PGBackRestBackup |> |>.

(** The object with which the reconcile goes on. *)
Definition removeStaleBackupAnnotation (cr : PerconaPGCluster) : action PerconaPGCluster :=
  let backupName := annotation (c_Meta cr) PGBackRestBackup in
  if negb (nonempty backupName) then Ret (Ok cr)
  else
    let! r := call (Get KBackup (c_Namespace cr, backupName)) in
    match r with
    | Err e => Ret (if IsNotFound e then Ok (withoutManual cr) else Err (Wrap "get PerconaPGBackup" e))
    | Ok pgBackup => Ret (Ok (if negb (bool_decide (b_PGCluster pgBackup = c_Name cr)) then withoutManual cr else cr))
    end.
End ClusterBackups.

(** ** The calls of a reconcile *)
Section BackupCalls.
Context `{ControllerRuntime, GoVersion, MetaConditions, LabelMatching}.
Context (unmarshalInfo : string -> result InfoOutput) (errorText : error -> string) (cr : PerconaPGCluster).

Definition backups_listed (h : history) (repoName : string) (l : list PerconaPGBackup) : Prop :=
  exists all : list PerconaPGBackup, l = List.filter (ofRepo cr repoName) all /\
    (Ev (ListAll KBackup (c_Namespace cr) Everything : op) (Ok all : result (list PerconaPGBackup)) : event resp) ∈ h.

Definition job_listed (h : history) (repoName : string) (job : Job) : Prop :=
  exists jobs : list Job, job ∈ jobs /\
    (Ev (ListAll KJob (c_Namespace cr) (jobsSelector cr repoName) : op) (Ok jobs : result (list Job)) : event resp) ∈ h.

(** No listed backup of the repository is the job's. *)
Definition unowned (h : history) (repoName : string) (job : Job) : Prop :=
  exists l, backups_listed h repoName l /\ forall b, b ∈ l -> ownsJob job b = false.

(** The backup of a job: listed, or created for it. *)
Definition backup_of (h : history) (repoName : string) (job : Job) (pb : PerconaPGBackup) : Prop :=
  (exists l, backups_listed h repoName l /\ pb ∈ l /\ ownsJob job pb = true) \/
  (Ev (Create KBackup (backupForJob cr job repoName) : op) (Ok pb : result PerconaPGBackup) : event resp) ∈ h.

(** The cluster is ready, pgBackRest was asked for the repository of a succeeded
    backup, and does not know a backup of its job. *)
Definition forgotten (h : history) (pgBackup : PerconaPGBackup) : Prop :=
  IsEnabled (c_Backups cr) = true /\ c_State cr = AppStateReady /\ exists repo l pod out info,
    repo ∈ bk_Repos (c_Backups cr) /\ backups_listed h (repo_Name repo) l /\ pgBackup ∈ l /\
    b_State pgBackup = BackupSucceeded /\ (0 <= b_CompareVersion pgBackup "2.4.0")%Z /\
    (Ev (Exec pod "database" None ["pgbackrest"; "info"; "--output=json"; repoArg (repo_Name repo);
                                   "--log-level-console=info"] : op) out : event resp) ∈ h /\
    out_Err out = None /\ unmarshalInfo (out_Stdout out) = Ok info /\ checkStanzas info = None /\
    forall stanza b, stanza ∈ info -> b ∈ is_Backup stanza ->
      default "" (ib_Annotation b !! PGBackrestAnnotationJobName) <> bs_JobName (b_Status pgBackup).

Definition job_of (pgBackup : PerconaPGBackup) : key := (b_Namespace pgBackup, bs_JobName (b_Status pgBackup)).

Definition cluster_backup_call (h : history) (o : op) : Prop :=
  match o with
  | ListAll KBackup _ _ | ListAll KJob _ _ | ListAll KPod _ _ | NewExecClient | Get KJob _ => True
  | Exec _ container None command => container = "database" /\ exists repoName,
      command = ["pgbackrest"; "info"; "--output=json"; repoArg repoName; "--log-level-console=info"]
  | Create KBackup b => exists job repo, repo ∈ bk_Repos (c_Backups cr) /\
      job_listed h (repo_Name repo) job /\ unowned h (repo_Name repo) job /\
      label (j_Meta job) LabelPGBackRestBackup <> BackupManual /\ om_DeletionTimestamp (j_Meta job) = None /\
      b = backupForJob cr job (repo_Name repo)
  | Update KJob j' => exists job j repo, repo ∈ bk_Repos (c_Backups cr) /\
      job_listed h (repo_Name repo) job /\ read h KJob (objectKey (j_Meta job)) j /\
      ((unowned h (repo_Name repo) job /\ label (j_Meta job) LabelPGBackRestBackup = BackupManual /\
        (JobCompleted job = true \/ JobFailed job = true) /\
        exists fs ls, j' = j <| j_Meta ::= fun m => m <| om_Finalizers := fs |> <| om_Labels := ls |> |> /\
          (forall f, f ∈ fs <-> f <> FinalizerKeepJob /\ f ∈ om_Finalizers (j_Meta j)) /\
          ls = om_Labels (j_Meta j) ∖ PGBackRestLabels (c_Name cr)) \/
       exists pb, backup_of h (repo_Name repo) job pb /\
         j' = j <| j_Meta ::= fun m => m <| om_Controller := Some (om_UID (b_Meta pb)) |> |>)
  | Delete KJob k _ => exists b job, forgotten h b /\ read h KJob (job_of b) job /\ k = objectKey (j_Meta job)
  | Delete KBackup k _ => exists b, forgotten h b /\ k = objectKey (b_Meta b) /\
      ((exists job, (Ev (Delete KJob (objectKey (j_Meta job)) Foreground : op) (Ok tt : result unit) : event resp) ∈ h /\
          read h KJob (job_of b) job) \/
       exists e, got KJob (job_of b) (Err e) ∈ h /\ IsNotFound e = true)
  | _ => False
  end.

Abbreviation safe := (wps cluster_backup_call).

#[export] Instance grows_backups_listed repoName l : Grows (fun h => backups_listed h repoName l).
Proof. unfold backups_listed. apply _. Qed.
#[export] Instance grows_job_listed repoName job : Grows (fun h => job_listed h repoName job).
Proof. unfold job_listed. apply _. Qed.
#[export] Instance grows_unowned repoName job : Grows (fun h => unowned h repoName job).
Proof. unfold unowned. apply _. Qed.
#[export] Instance grows_backup_of repoName job pb : Grows (fun h => backup_of h repoName job pb).
Proof. unfold backup_of. apply _. Qed.
#[export] Instance grows_forgotten b : Grows (fun h => forgotten h b).
Proof. unfold forgotten. apply _. Qed.

Lemma listPGBackups_safe repoName h :
  safe h (listPGBackups cr repoName) (fun h' r => h `prefix_of` h' /\ forall l, r = Ok l -> backups_listed h' repoName l).
Proof.
  apply wps_prefix. unfold listPGBackups. apply wps_list_bindr. split; [done|]. intros [all|e]; [|done].
  intros l [= <-]. exists all. split; [done|apply elem_of_snoc].
Qed.

(** One job, of a repository. *)
Section OneJob.
Context (repo : PGBackRestRepo) (job : Job) (Hrepo : repo ∈ bk_Repos (c_Backups cr)).

Lemma releaseJob_safe h : job_listed h (repo_Name repo) job -> unowned h (repo_Name repo) job ->
  label (j_Meta job) LabelPGBackRestBackup = BackupManual -> (JobCompleted job || JobFailed job) = true ->
  safe h (releaseJob cr job) (fun h' _ => h `prefix_of` h').
Proof.
  intros Hl Hu Hm Hd%orb_true_iff. eapply wps_conseq; [apply wps_prefix|by intros h' r [Hp _]].
  instantiate (1 := fun _ _ => True). unfold releaseJob. apply RetryOnConflict_prefix. intros h' Hp.
  apply wps_get_bindr. split; [done|]. intros [j|e]; [|done]. rewrite wps_ignore. split; [|done].
  assert (Hp' : h `prefix_of` h' ++ [got KJob (objectKey (j_Meta job)) (Ok j)]) by (etransitivity; [exact Hp|by apply prefix_app_r]).
  exists job, j, repo. split_and!; [done|by eapply (grows (P := fun h => job_listed h _ _))|apply elem_of_snoc|]. left.
  split_and!; [by eapply (grows (P := fun h => unowned h _ _))|done|done|]. eexists _, _. split; [reflexivity|]. split; [|done].
  intros f. by destruct (RemoveFinalizer_spec (om_Finalizers (j_Meta j)) FinalizerKeepJob) as (_ & _ & Hf).
Qed.

Lemma adoptJob_safe h pb : job_listed h (repo_Name repo) job -> backup_of h (repo_Name repo) job pb ->
  safe h (adoptJob pb job) (fun h' _ => h `prefix_of` h').
Proof.
  intros Hl Hb. eapply wps_conseq; [apply wps_prefix|by intros h' r [Hp _]].
  instantiate (1 := fun _ _ => True). unfold adoptJob. apply RetryOnConflict_prefix. intros h' Hp.
  apply wps_get_bindr. split; [done|]. intros [j|e]; [|done]. destruct (SetControllerReference _ _) as [m|e] eqn:Em; [|done].
  apply SetControllerReference_spec in Em as ->. rewrite wps_ignore. split; [|done].
  assert (Hp' : h `prefix_of` h' ++ [got KJob (objectKey (j_Meta job)) (Ok j)]) by (etransitivity; [exact Hp|by apply prefix_app_r]).
  exists job, j, repo. split_and!; [done|by eapply (grows (P := fun h => job_listed h _ _))|apply elem_of_snoc|]. right.
  exists pb. split; [by eapply (grows (P := fun h => backup_of h _ _ _))|done].
Qed.

Lemma reconcileBackupJob_safe h : job_listed h (repo_Name repo) job ->
  safe h (reconcileBackupJob cr job (repo_Name repo)) (fun h' _ => h `prefix_of` h').
Proof.
  intros Hl. eapply wps_conseq; [apply wps_prefix|by intros h' r [Hp _]]. instantiate (1 := fun _ _ => True).
  unfold reconcileBackupJob, findPGBackup. rewrite !wps_bindr. eapply wps_conseq; [apply listPGBackups_safe|].
  intros h1 [l|e] [Hp1 Hr]; [|done]. specialize (Hr l eq_refl). simpl.
  assert (Hl1 : job_listed h1 (repo_Name repo) job) by by eapply (grows (P := fun h => job_listed h _ _)).
  destruct (List.find (ownsJob job) l) as [pb|] eqn:Ef.
  - apply find_some in Ef as [Hin Ho]. rewrite wps_bindr. eapply wps_conseq; [apply adoptJob_safe; [done|]|by intros h2 [u|e] _].
    left. exists l. split_and!; [done|by apply list_elem_of_In|done].
  - assert (Hu : unowned h1 (repo_Name repo) job).
    { exists l. split; [done|]. intros b Hb%list_elem_of_In. by apply (find_none _ _ Ef). }
    case_bool_decide as Hm.
    + rewrite wps_bindr. destruct (_ && _) eqn:Ec; [|done]. apply andb_true_iff in Ec as [Ec _].
      eapply wps_conseq; [by apply releaseJob_safe|]. by intros h2 [u|e] _.
    + case_bool_decide as Hd; [done|]. apply wps_call_bind. split.
      * exists job, repo. split_and!; [done..| |done]. destruct (om_DeletionTimestamp _); [|done]. by destruct Hd.
      * intros [pb|e]; [|done]. rewrite wps_bindr.
        eapply wps_conseq; [apply adoptJob_safe|by intros h2 [u|e] _].
        -- eapply (grows (P := fun h => job_listed h _ _)); [exact Hl1|by apply prefix_app_r].
        -- right. apply elem_of_snoc.
Qed.
End OneJob.

Lemma reconcileJobs_safe repo jobs : repo ∈ bk_Repos (c_Backups cr) -> forall h,
  (forall job, job ∈ jobs -> job_listed h (repo_Name repo) job) ->
  safe h (reconcileJobs cr (repo_Name repo) jobs) (fun h' _ => h `prefix_of` h').
Proof.
  intros Hr. induction jobs as [|job jobs IH]; intros h Hl; [simpl; reflexivity|]. cbn [reconcileJobs]. rewrite wps_bindr.
  eapply wps_conseq; [apply reconcileBackupJob_safe; [done|apply Hl; by left]|]. intros h1 [u|e] Hp; [|done].
  eapply wps_conseq; [apply IH|intros h2 r Hp2; by transitivity h1].
  intros j Hj. eapply (grows (P := fun h => job_listed h _ _)); [apply Hl; by right|done].
Qed.

Lemma reconcileBackupJobs_safe repos : (forall repo, repo ∈ repos -> repo ∈ bk_Repos (c_Backups cr)) -> forall h,
  safe h (reconcileBackupJobs cr repos) (fun h' _ => h `prefix_of` h').
Proof.
  induction repos as [|repo repos IH]; intros Hs h; [simpl; reflexivity|]. cbn [reconcileBackupJobs]. rewrite wps_bindr. unfold listBackupJobs.
  apply wps_list_bindr. split; [done|]. intros [jobs|e]; [|by apply prefix_app_r]. cbn [wps]. rewrite wps_bindr.
  eapply wps_conseq; [apply reconcileJobs_safe; [apply Hs; by left|]|].
  - intros job Hj. exists jobs. split; [done|apply elem_of_snoc].
  - intros h1 [u|e] Hp; (assert (Hp' : h `prefix_of` h1) by (etransitivity; [by apply prefix_app_r|exact Hp])); [|done].
    eapply wps_conseq; [apply IH; intros; apply Hs; by right|intros h2 r Hp2; by transitivity h1].
Qed.

Lemma deleteOutdated_safe h b : forgotten h b -> safe h (deleteOutdated b) (fun h' _ => h `prefix_of` h').
Proof.
  intros Hf. eapply wps_conseq; [apply wps_prefix|by intros h' r [Hp _]]. instantiate (1 := fun _ _ => True).
  assert (Hg : forall h', h `prefix_of` h' -> forgotten h' b) by (intros; by eapply (grows (P := fun h => forgotten h b))).
  unfold deleteOutdated. apply wps_call_bind. split; [done|]. change (resp (Get KJob _)) with (result Job).
  intros r. set (h1 := h ++ _). assert (Hp1 : h `prefix_of` h1) by by apply prefix_app_r.
  cbv beta zeta. destruct (IgnoreNotFound _) eqn:Ei; [done|]. destruct r as [job|e]; rewrite wps_bindr.
  - split; [exists b, job; split_and!; [auto|apply elem_of_snoc|done]|]. intros [[]|e]; [|done]. set (h2 := h1 ++ _).
    assert (Hp2 : h1 `prefix_of` h2) by by apply prefix_app_r.
    cbn [wps]. rewrite wps_bindr. split; [|by intros [u|e]]. exists b. split_and!; [apply Hg; by transitivity h1|done|]. left.
    exists job. split; [apply elem_of_snoc|]. eapply elem_of_grow; [apply elem_of_snoc|exact Hp2].
  - cbn [wps]. rewrite wps_bindr. split; [|by intros [u|e']]. exists b. split_and!; [auto|done|]. right.
    exists e. split; [apply elem_of_snoc|]. simpl in Ei. by destruct (IsNotFound e).
Qed.

Lemma deleteAllOutdated_safe info l : forall h, (forall b, b ∈ l -> outdated info b = true -> forgotten h b) ->
  safe h (deleteAllOutdated info l) (fun h' _ => h `prefix_of` h').
Proof.
  induction l as [|b l IH]; intros h Hl; [simpl; reflexivity|]. cbn [deleteAllOutdated].
  destruct (outdated info b) eqn:Eo; [|apply IH; intros; apply Hl; [by right|done]]. rewrite wps_bindr.
  eapply wps_conseq; [apply deleteOutdated_safe, Hl; [by left|done]|]. intros h1 [u|e] Hp; [|done].
  eapply wps_conseq; [apply IH|intros h2 r Hp2; by transitivity h1]. intros b' Hb Ho.
  eapply (grows (P := fun h => forgotten h b')); [apply Hl; [by right|done]|done].
Qed.

Lemma cleanupRepo_safe repo h : IsEnabled (c_Backups cr) = true -> c_State cr = AppStateReady ->
  repo ∈ bk_Repos (c_Backups cr) ->
  safe h (cleanupRepo unmarshalInfo errorText cr repo) (fun h' _ => h `prefix_of` h').
Proof.
  intros He Hst Hr. eapply wps_conseq; [apply wps_prefix|by intros h' r [Hp _]]. instantiate (1 := fun _ _ => True).
  unfold cleanupRepo. destruct (_ && _); [done|]. rewrite wps_bindr. eapply wps_conseq; [apply listPGBackups_safe|].
  intros h1 [l|e] [Hp1 Hl]; [|done]. specialize (Hl l eq_refl). destruct l as [|b0 l0] eqn:El; [done|]. rewrite <- El in *.
  rewrite wps_bind. eapply wps_conseq.
  { instantiate (1 := fun h' _ => h1 `prefix_of` h'). eapply wps_conseq; [apply wps_prefix|by intros h' r [Hp _]].
    instantiate (1 := fun _ _ => True). unfold GetReadyInstancePod. destruct (AsSelector _); [|done].
    apply wps_list_bindr. split; [done|]. intros [pods|e]; [|done]. by case_match. }
  intros h2 [pod|e] Hp2; [|done]. rewrite wps_bind. unfold GetInfo. apply wps_call_bind. split; [done|]. intros [u|e]; [|done].
  apply wps_call_bind. split; [split; [done|by eexists]|]. intros out. set (h3 := (h2 ++ _) ++ _).
  assert (Hp3 : h1 `prefix_of` h3) by (etransitivity; [exact Hp2|]; unfold h3; rewrite <- app_assoc; by apply prefix_app_r).
  destruct (out_Err out) eqn:Eo; [done|]. destruct (unmarshalInfo (out_Stdout out)) as [info|e] eqn:Eu; [|done].
  destruct (checkStanzas info) eqn:Ec; [done|]. cbn [wps].
  eapply wps_conseq; [apply deleteAllOutdated_safe|done]. intros b Hb Ho. unfold outdated, backupPresent in Ho.
  apply andb_true_iff in Ho as [[Hs%bool_decide_eq_true Hv%bool_decide_eq_true]%andb_true_iff Hn%negb_true_iff].
  split; [done|]. split; [done|]. exists repo, l, (objectKey (p_Meta pod)), out, info. split_and!; try done.
  - by eapply (grows (P := fun h => backups_listed h _ _)).
  - apply elem_of_snoc.
  - intros stanza ib Hin Hib. apply (bool_decide_eq_false_1 _), (proj1 (existsb_false _ _) Hn ib).
    apply list_elem_of_In, in_flat_map. exists stanza. split; by apply list_elem_of_In.
Qed.

Lemma cleanupRepos_safe repos : IsEnabled (c_Backups cr) = true -> c_State cr = AppStateReady -> (forall repo, repo ∈ repos -> repo ∈ bk_Repos (c_Backups cr)) -> forall h,
  safe h (cleanupRepos unmarshalInfo errorText cr repos) (fun h' _ => h `prefix_of` h').
Proof.
  intros He Hst. induction repos as [|repo repos IH]; intros Hs h; [simpl; reflexivity|]. cbn [cleanupRepos]. rewrite wps_bindr.
  eapply wps_conseq; [apply cleanupRepo_safe; [done|done|apply Hs; by left]|]. intros h1 [u|e] Hp; [|done].
  eapply wps_conseq; [apply IH; intros; apply Hs; by right|intros h2 r Hp2; by transitivity h1].
Qed.

(** C19: what becomes of backups and their jobs, in every execution.  A backup is
    created only for a listed job of a repository of the specification that no
    listed backup of the repository owns, that is not manual and is not being
    deleted.  A job is changed only to make its backup, listed or created, its
    controller, or, when a manual job has ended without a backup, to release it:
    the finalizer and the labels of pgBackRest go, nothing else changes.  A backup
    is deleted only when the cluster is ready with backups enabled, the backup has
    succeeded, pgBackRest was asked for its repository and knows no backup with its
    job, and the job was deleted before or not found. *)
Theorem backups_and_jobs_agree :
  wps cluster_backup_call [] (reconcileBackups unmarshalInfo errorText cr) (fun _ _ => True).
Proof.
  unfold reconcileBackups. rewrite wps_bindr. eapply wps_conseq; [by apply reconcileBackupJobs_safe|].
  intros h1 [u|e] Hp; [|done]. rewrite wps_bind. unfold cleanupOutdatedBackups.
  destruct (IsEnabled _) eqn:Ee; [|done]. case_bool_decide as Hst; [|done]. simpl negb. cbv iota.
  eapply wps_conseq; [by apply cleanupRepos_safe|done].
Qed.
End BackupCalls.
