(* ===== verification/BackupController.v ===== *)
(** * The backup controller

    [PGBackupReconciler.Reconcile] of [percona/controller/pgbackup/controller.go],
    one definition per part of the function: the preamble and one per state. *)
From S2P Require Import Prelude GoStrings Cluster Prog Errors Naming Objects Client Psql Lease BackupUtils.
From S2P Require Import BackupLease Instances Snapshots BackupJob.

Section Controller.
Context `{ControllerRuntime, LabelMatching, MetaConditions}.
Context (unmarshalInfo : string -> result InfoOutput).
(** [feature.Enabled(ctx, feature.BackupSnapshots)] *)
Context (BackupSnapshots : bool).
Context (multierror : list error -> string).

(** [failBackup] also changes the caller's copy. *)
Definition failBackup (pgBackup : PerconaPGBackup) (reason : string) : action PerconaPGBackup :=
  let fail := setStatus (fun s => s <| bs_State := BackupFailed |> <| bs_Error := reason |>) in
  do! _ := UpdateStatus pgBackup fail in
  Ret (Ok (fail pgBackup)).

Definition clusterNotFound (pgBackup : PerconaPGBackup) : error :=
  New ("PostgresCluster " +:+ b_PGCluster pgBackup +:+ " is not found").

(** *** [case v2.BackupNew] *)
Definition reconcileNewBackup (pgCluster : option PerconaPGCluster) (pgBackup : PerconaPGBackup)
    : action Result :=
  match pgCluster with
  | None => Ret (Err (clusterNotFound pgBackup))
  | Some pgCluster =>
      if negb (IsEnabled (c_Backups pgCluster)) then
        do! _ := failBackup pgBackup "Backups are not enabled in the PerconaPGCluster configuration"
                 or "update PGBackup status" in
        Ret (Ok 0%Z)
      else if deref (c_Pause pgCluster) false then Ret (Ok 5%Z) else
      let! r := findBackupJob pgBackup in
      do! _ := (match r with
                | Ok _ => Ret (Ok tt)
                | Err e =>
                    if negb (isJobNotFound e) then Ret (Err (Wrap "find backup job" e)) else
                    do! _ := startBackup pgBackup or "failed to start backup" in
                    Ret (Ok tt)
                end) in
      match getRepo pgCluster pgBackup with
      | None => Ret (Err (New ("'" +:+ deref (b_RepoName pgBackup) "" +:+ "' repo not defined")))
      | Some repo =>
          do! _ := UpdateStatus pgBackup (setStatus (fun s => s
              <| bs_Destination := getDestination pgCluster pgBackup |>
              <| bs_Image := bk_Image (c_Backups pgCluster) |>
              <| bs_Repo := Some repo |>
              <| bs_CRVersion := c_CRVersion pgCluster |>
              <| bs_StorageType := Some (storageType repo) |>
              <| bs_State := BackupStarting |>)) or "update PGBackup status" in
          Ret (Ok 0%Z)
      end
  end.

(** Record the type of the job in the backup's annotations. *)
Definition annotateJobType (pgBackup : PerconaPGBackup) (job : Job) : action unit :=
  RetryOnConflict (
    do! bcp := call (Get KBackup (objectKey (b_Meta pgBackup))) or "get PGBackup" in
    let jobType := label (j_Meta job) LabelPGBackRestBackup in
    if bool_decide (jobType = BackupReplicaCreate) || bool_decide (jobType = BackupManual) then
      ignore (call (Update KBackup (bcp <| b_Meta ::= fun m => m <| om_Annotations ::= fun a =>
        <[AnnotationPGBackrestBackupJobType := jobType]> a |> |>)))
    else Ret (Err (New ("unknown value for " +:+ LabelPGBackRestBackup +:+ " label: " +:+ jobType)))).

(** *** [case v2.BackupStarting] *)
Definition reconcileStartingBackup (pgCluster : option PerconaPGCluster) (pgBackup : PerconaPGBackup)
    : action Result :=
  match pgCluster with
  | None => Ret (Err (clusterNotFound pgBackup))
  | Some pgCluster =>
      let! r := findBackupJob pgBackup in
      match r with
      | Err e =>
          if isJobNotFound e then
            do! _ := failIfClusterIsNotReady pgCluster pgBackup
                     or "fail if cluster is not ready for backup" in
            Ret (Ok 5%Z)
          else Ret (Err (Wrap "find backup job" e))
      | Ok job =>
          do! _ := annotateJobType pgBackup job or "update PGBackup" in
          do! _ := UpdateStatus pgBackup (setStatus (fun s => s
              <| bs_State := BackupRunning |> <| bs_JobName := om_Name (j_Meta job) |>))
            or "update PGBackup status" in
          Ret (Ok 0%Z)
      end
  end.

(** *** [case v2.BackupRunning] *)
Definition reconcileRunningBackup (pgCluster : option PerconaPGCluster) (pgBackup : PerconaPGBackup)
    : action Result :=
  let! r := call (Get KJob (b_Namespace pgBackup, bs_JobName (b_Status pgBackup))) in
  match r with
  | Err e =>
      if IsNotFound e then
        do! _ := UpdateStatus pgBackup (setStatus (fun s => s <| bs_State := BackupFailed |>))
                 or "update PGBackup status" in
        Ret (Ok 0%Z)
      else Ret (Err (Wrap "get backup job" e))
  | Ok job =>
      let status := checkBackupJob job in
      match status with
      | BackupFailed | BackupSucceeded =>
          let! (pgBackup, r) := RunFinalizer (k := KBackup) pgBackup FinalizerDeleteBackup
                                  (deleteBackupFinalizer unmarshalInfo pgCluster) in
          match r with
          | Err e => Ret (Err (Wrap "failed to run delete-backup finalizer" e))
          | Ok false => Ret (Ok 5%Z)
          | Ok true =>
              do! _ := UpdateStatus pgBackup (setStatus (fun s => s
                  <| bs_CompletedAt := j_CompletionTime job |> <| bs_State := status |>))
                or "update PGBackup status" in
              Ret (Ok 0%Z)
          end
      | _ => Ret (Ok 5%Z)
      end
  end.

(** *** [case v2.BackupSucceeded] *)
Definition reconcileSucceededBackup (pgCluster : option PerconaPGCluster) (pgBackup : PerconaPGBackup)
    : action Result :=
  let! r := findBackupJob pgBackup in
  do! _ := (match r with
            | Ok job =>
                if ContainsFinalizer (om_Finalizers (j_Meta job)) FinalizerKeepJob then
                  do! _ := RemoveKeepJobFinalizer job or "remove keep-job finalizer" in Ret (Ok tt)
                else Ret (Ok tt)
            | Err _ => Ret (Ok tt)
            end) in
  match pgCluster with
  | None => Ret (Ok 0%Z)
  | Some pgCluster =>
      do! latestBackup := GetLatestBackup pgCluster or "get latest backup" in
      if negb (bool_decide (objectKey (b_Meta latestBackup) = objectKey (b_Meta pgBackup)))
      then Ret (Ok 0%Z) else
      let! r := call (LatestCommit pgCluster pgBackup) in
      match r with
      | Err _ => Ret (Ok 0%Z)
      | Ok latestRestorableTime =>
          do! _ := UpdateStatus pgBackup (setStatus (fun s =>
                     s <| bs_LatestRestorableTime := latestRestorableTime |>))
                   or "update PGBackup status" in
          Ret (Ok 0%Z)
      end
  end.

(** The [switch] on the state. *)
Definition reconcileState (pgCluster : option PerconaPGCluster) (pgBackup : PerconaPGBackup)
    : action Result :=
  match b_State pgBackup with
  | BackupNew => reconcileNewBackup pgCluster pgBackup
  | BackupStarting => reconcileStartingBackup pgCluster pgBackup
  | BackupRunning => reconcileRunningBackup pgCluster pgBackup
  | BackupSucceeded => reconcileSucceededBackup pgCluster pgBackup
  | BackupFailed | BackupOtherState _ => Ret (Ok 0%Z)
  end.

(** From the check of the backup's method to the end. *)
Definition reconcilePgBackRest (pgCluster : option PerconaPGCluster) (pgBackup : PerconaPGBackup)
    : action Result :=
  if isDeleting (b_Meta pgBackup) || bool_decide (b_State pgBackup = BackupFailed) then
    do! _ := runFinalizers unmarshalInfo pgBackup or "failed to run finalizers" in
    Ret (Ok 5%Z)
  else
  let! (pgBackup, r) := (if negb (IsTerminal (b_State pgBackup)) then ensureFinalizers pgBackup
                         else Ret (pgBackup, Ok tt)) in
  match r with
  | Err e => Ret (Err (Wrap "ensure finalizers" e))
  | Ok _ =>
      if negb (nonempty (deref (b_RepoName pgBackup) "")) then
        do! _ := failBackup pgBackup "repoName is required when method is 'pgbackrest'"
                 or "failed to update backup status" in
        Ret (Err (New "'repoName' is required when method is 'pgbackrest'"))
      else reconcileState pgCluster pgBackup
  end.

(** A backup whose cluster is gone or going fails while it is under way. *)
Definition failWithoutCluster (pgCluster : option PerconaPGCluster) (pgBackup : PerconaPGBackup)
    : action PerconaPGBackup :=
  match b_State pgBackup with
  | BackupStarting | BackupRunning =>
      let statusError := "PerconaPGCluster " +:+ b_PGCluster pgBackup +:+
        (if pgCluster is Some _ then " is being deleted" else " is not found") in
      do! pgBackup := failBackup pgBackup statusError or "update backup status" in
      Ret (Ok pgBackup)
  | _ => Ret (Ok pgBackup)
  end.

(** After the cluster has been read. *)
Definition reconcileWithCluster (pgCluster : option PerconaPGCluster) (pgBackup : PerconaPGBackup)
    : action Result :=
  let unmanaged := match pgCluster with Some c => deref (c_Unmanaged c) false | None => false end in
  if unmanaged && negb (isDeleting (b_Meta pgBackup)) then Ret (Ok 0%Z) else
  let live := match pgCluster with
              | Some c => if isDeleting (c_Meta c) then None else Some c
              | None => None
              end in
  do! pgBackup := (match live with
                   | None => failWithoutCluster pgCluster pgBackup
                   | Some _ => Ret (Ok pgBackup)
                   end) in
  do! ok := handleLease live pgBackup or "failed to process lease" in
  if negb ok then Ret (Ok 10%Z) else
  match live with
  | Some cluster =>
      if bool_decide (b_Method pgBackup = Some BackupMethodVolumeSnapshot)
      then snapshotsReconcile BackupSnapshots multierror pgBackup cluster
      else reconcilePgBackRest live pgBackup
  | None => reconcilePgBackRest live pgBackup
  end.

(** [Reconcile] *)
Definition Reconcile (request : key) : action Result :=
  let! r := call (Get KBackup request) in
  match r with
  | Err e => Ret (match IgnoreNotFound (Some e) with Some e => Err e | None => Ok 0%Z end)
  | Ok pgBackup =>
      let pgBackup := Default pgBackup in
      let! r := call (Get KPGCluster (request.1, b_PGCluster pgBackup)) in
      match r with
      | Err e =>
          if IsNotFound e then reconcileWithCluster None pgBackup
          else Ret (Err (Wrap "get PerconaPGCluster" e))
      | Ok pgCluster => reconcileWithCluster (Some pgCluster) pgBackup
      end
  end.
End Controller.

(** ** Specification *)

(** A job that an answer in the history shows. *)
Definition job_seen (h : history) (job : Job) : Prop :=
  (exists at_, read h KJob at_ job) \/
  (exists ns sel l, (Ev (ListAll KJob ns sel : op) (Ok l : result (list Job))) ∈ h /\ job ∈ l).

(** What the history says of a backup [b]. *)
Section Evidence.
Context (b : PerconaPGBackup).

(** The search for its job came to nothing. *)
Definition job_missing (h : history) : Prop :=
  (exists ev e, ev ∈ h /\ answer_err ev = Some e /\ (isJobNotFound e || IsNotFound e) = true) \/
  (exists ns sel l, (Ev (ListAll KJob ns sel : op) (Ok l : result (list Job))) ∈ h /\
     forall job, job ∈ l -> om_Annotations (j_Meta job) !! PGBackRestBackup <> Some (b_Name b)).

(** The backup that the two objects of its cluster, as read, say is in
    progress. *)
Definition in_progress_is (h : history) (n : string) : Prop :=
  exists (c : PerconaPGCluster) (cc : CrunchyCluster),
    read h KPGCluster (clusterKey b) c /\ read h KCrunchy (clusterKey b) cc /\
    let inCrunchy := annotation (cc_Meta cc) (ToCrunchyAnnotation AnnotationBackupInProgress) in
    n = if nonempty inCrunchy then inCrunchy else annotation (c_Meta c) AnnotationBackupInProgress.

(** The cluster has nothing left of the backup: another backup or none is in
    progress, or the backup has no job, or one the operator made itself. *)
Definition released (h : history) : Prop :=
  (exists n, in_progress_is h n /\ n <> b_Name b) \/
  (exists job, job_seen h job /\ label (j_Meta job) LabelPGBackRestBackup <> BackupManual) \/
  job_missing h.

(** The cluster object that [startBackup] writes. *)
Definition started (pg : PerconaPGCluster) : PerconaPGCluster :=
  pg <| c_Meta ::= fun m => m <| om_Annotations ::= fun l =>
       <[AnnotationBackupInProgress := b_Name b]> (<[PGBackRestBackup := b_Name b]> l) |> |>
     <| c_Backups ::= fun s => s <| bk_Manual := Some (mkManual (deref (b_RepoName b) "")
          (b_Options b) (b_Env b) (b_EnvFrom b)) |> |>.

Definition without_annotation (a : string) (pg : PerconaPGCluster) : PerconaPGCluster :=
  pg <| c_Meta ::= fun m => m <| om_Annotations ::= delete a |> |>.

(** The writes of the cluster: starting the backup when none or this one is in
    progress, and removing its annotations when it is the one in progress. *)
Definition cluster_write_ok (h : history) (pg : PerconaPGCluster) : Prop :=
  exists pg0, read h KPGCluster (clusterKey b) pg0 /\
    ((pg = started pg0 /\ (annotation (c_Meta pg0) AnnotationBackupInProgress = "" \/
                           annotation (c_Meta pg0) AnnotationBackupInProgress = b_Name b)) \/
     (in_progress_is h (b_Name b) /\
      (pg = without_annotation PGBackRestBackup pg0 \/
       pg = without_annotation AnnotationBackupInProgress pg0))).

Lemma job_seen_grow h h' job : job_seen h job -> h `prefix_of` h' -> job_seen h' job.
Proof.
  intros [[at_ Hr]|(ns & sel & l & Hin & Hj)] Hp.
  - left. exists at_. by eapply elem_of_grow.
  - right. exists ns, sel, l. split; [by eapply elem_of_grow|done].
Qed.

Lemma job_missing_grow h h' : job_missing h -> h `prefix_of` h' -> job_missing h'.
Proof.
  intros [(ev & e & Hin & He)|(ns & sel & l & Hin & Hl)] Hp.
  - left. exists ev, e. split; [by eapply elem_of_grow|done].
  - right. exists ns, sel, l. split; [by eapply elem_of_grow|done].
Qed.

Lemma in_progress_grow h h' n : in_progress_is h n -> h `prefix_of` h' -> in_progress_is h' n.
Proof.
  intros (c & cc & Hc & Hcc & Hn) Hp. exists c, cc. split_and!; [by eapply elem_of_grow..|done].
Qed.

Lemma released_grow h h' : released h -> h `prefix_of` h' -> released h'.
Proof.
  intros [(n & Hn & Hne)|[(job & Hj & Hl)|Hm]] Hp.
  - left. exists n. split; [by eapply in_progress_grow|done].
  - right. left. exists job. split; [by eapply job_seen_grow|done].
  - right. right. by eapply job_missing_grow.
Qed.
End Evidence.

Section Spec.
Context `{ControllerRuntime, LabelMatching, MetaConditions}.
Context (unmarshalInfo : string -> result InfoOutput).
(** the live cluster, and the backup as it was given *)
Context (pgCluster : option PerconaPGCluster) (pgBackup : PerconaPGBackup).

(** The transitions of the state. *)
Definition pg_transition (h : history) (s : PGBackupState) : Prop :=
  let job_key := (b_Namespace pgBackup, bs_JobName (b_Status pgBackup)) in
  (nonempty (deref (b_RepoName pgBackup) "") = false /\ s = BackupFailed) \/
  match b_State pgBackup, s with
  | BackupNew, BackupStarting => exists c, pgCluster = Some c /\ IsEnabled (c_Backups c) = true /\
      deref (c_Pause c) false = false /\ is_Some (getRepo c pgBackup) /\
      ((exists job, job_seen h job) \/
       exists pg0 pg', (Ev (Update KPGCluster (started pgBackup pg0) : op)
                          (Ok pg' : result PerconaPGCluster)) ∈ h)
  | BackupNew, BackupFailed => exists c, pgCluster = Some c /\ IsEnabled (c_Backups c) = false
  | BackupStarting, BackupRunning => exists job, job_seen h job /\
      (label (j_Meta job) LabelPGBackRestBackup = BackupManual \/
       label (j_Meta job) LabelPGBackRestBackup = BackupReplicaCreate)
  | BackupStarting, BackupFailed => exists c cond now, pgCluster = Some c /\
      FindStatusCondition (c_Conditions c) ConditionClusterIsReadyForBackup = Some cond /\
      cond_Status cond <> ConditionTrue /\
      (Ev (Now : op) (now : resp Now)) ∈ h /\ (cond_LastTransitionTime cond + twoMinutes <= now)%Z
  | BackupRunning, BackupSucceeded => exists job, read h KJob job_key job /\ JobCompleted job = true
  | BackupRunning, BackupFailed =>
      (exists e, got KJob job_key (Err e) ∈ h /\ IsNotFound e = true) \/
      (exists job, read h KJob job_key job /\ JobFailed job = true /\ JobCompleted job = false)
  | _, _ => False
  end.

(** The calls made for the backup [b]. *)
Definition call_for (b : PerconaPGBackup) (h : history) (o : op) : Prop :=
  match o with
  | Get _ _ | ListAll _ _ _ | Now | RangeOrder _ | LatestCommit _ _ | NewExecClient
  | Exec _ _ _ _ => True
  | StatusUpdate KBackup b' => exists at_ b0, read h KBackup at_ b0 /\ b_Meta b' = b_Meta b0 /\
      (b_State b' = b_State b0 \/ pg_transition h (b_State b'))
  | Update KBackup b' => exists at_ b0, read h KBackup at_ b0 /\ b_Status b' = b_Status b0 /\
      om_Finalizers (b_Meta b') = om_Finalizers (b_Meta b0)
  | Patch KBackup b1 b2 => b_Status b2 = b_Status b1 /\
      (FinalizerDeleteBackup ∈ om_Finalizers (b_Meta b1) ->
       FinalizerDeleteBackup ∈ om_Finalizers (b_Meta b2) \/ released b h)
  | Update KPGCluster pg => cluster_write_ok b h pg
  | StatusUpdate KCrunchy _ => in_progress_is b h (b_Name b)
  | Update KJob job => exists job0, job_seen h job0 /\ j_Conditions job = j_Conditions job0 /\
      om_Annotations (j_Meta job) = om_Annotations (j_Meta job0)
  | Delete KJob _ _ => isDeleting (b_Meta pgBackup) = true \/ b_State pgBackup = BackupFailed \/
                       pgCluster = None
  | _ => False
  end.

(** The backup as it was given, or as the server returned it after a change of
    its finalizers. *)
Definition ours (h : history) (b : PerconaPGBackup) : Prop :=
  exists b0 fs, b = b0 <| b_Meta ::= fun m => m <| om_Finalizers := fs |> |> /\
    (b0 = pgBackup \/
     exists b1 b2, (Ev (Patch KBackup b1 b2 : op) (Ok b0 : result PerconaPGBackup)) ∈ h).

Definition pg_call (h : history) (o : op) : Prop := exists b, ours h b /\ call_for b h o.

(** *** Lemmas on the functions for one backup *)
Section ForOne.
Context (b : PerconaPGBackup).
Abbreviation safe := (wps (call_for b)).

(** An error that says the job is missing comes from the search for it. *)
Definition missing_post (h : history) (e : error) : Prop :=
  (isJobNotFound e || IsNotFound e) = true -> job_missing b h.

Lemma missing_last h ev e e' : answer_err ev = Some e ->
  (isJobNotFound e' || IsNotFound e') = (isJobNotFound e || IsNotFound e) ->
  missing_post (h ++ [ev]) e'.
Proof.
  intros He Heq Hm. left. exists ev, e. split_and!; [apply elem_of_snoc|done|congruence].
Qed.

Lemma findBackupJob_safe h :
  safe h (findBackupJob b) (fun h' r => h `prefix_of` h' /\
    match r with Ok job => job_seen h' job | Err e => missing_post h' e end).
Proof.
  apply wps_prefix. unfold findBackupJob. case_match.
  - apply wps_get_bindr. split; [done|]. intros [job|e]; [|by eapply missing_last].
    left. eexists. apply elem_of_snoc.
  - apply wps_list_bindr. split; [done|]. intros [l|e]; [|by eapply missing_last].
    match goal with |- context [List.find ?f l] => destruct (List.find f l) as [job|] eqn:Ef end.
    + apply List.find_some in Ef as [Hin _]. right. eexists _, _, l.
      split; [apply elem_of_snoc|by apply list_elem_of_In].
    + intros _. right. eexists _, _, l. split; [apply elem_of_snoc|].
      intros job Hj. apply list_elem_of_In in Hj. pose proof (List.find_none _ _ Ef job Hj) as E.
      simpl in E. by bool_to_prop.
Qed.

Lemma findJobIfAny_safe h :
  safe h (findJobIfAny b) (fun h' r => h `prefix_of` h' /\
    match r with Ok (Some job) => job_seen h' job | Ok None => job_missing b h' | Err _ => True end).
Proof.
  unfold findJobIfAny. rewrite wps_bind. eapply wps_conseq; [apply findBackupJob_safe|].
  intros h' [job|e] [Hp Hr]; [done|]. case_match eqn:E; (split; [done|]); [by apply Hr|done].
Qed.

(** A status update that keeps the state. *)
Lemma keep_state_safe (b1 : PerconaPGBackup) (f : PerconaPGBackupStatus -> PerconaPGBackupStatus) h :
  (forall st, bs_State (f st) = bs_State st) ->
  safe h (UpdateStatus b1 (setStatus f)) (fun h' _ => h `prefix_of` h').
Proof.
  intros Hf. eapply wps_conseq; [apply wps_prefix, (UpdateStatus_wps _ _ _ (fun _ _ => True))|].
  - intros h' Hp. split; [done|]. intros [b0|e]; [|done]. split; [|done].
    exists (objectKey (b_Meta b1)), b0. split_and!; [apply elem_of_snoc|done|]. left. apply Hf.
  - by intros h' r [Hp _].
Qed.

(** A transition. *)
Lemma transition_to_safe (b1 : PerconaPGBackup) s (f : PerconaPGBackupStatus -> PerconaPGBackupStatus) h :
  (forall st, bs_State (f st) = s) ->
  (forall h', h `prefix_of` h' -> pg_transition h' s) ->
  safe h (UpdateStatus b1 (setStatus f)) (fun h' _ => h `prefix_of` h').
Proof.
  intros Hf Ht. eapply wps_conseq; [apply wps_prefix, (UpdateStatus_wps _ _ _ (fun _ _ => True))|].
  - intros h' Hp. split; [done|]. intros [b0|e]; [|done]. split; [|done].
    exists (objectKey (b_Meta b1)), b0. split_and!; [apply elem_of_snoc|done|]. right.
    unfold b_State. simpl. rewrite Hf. apply Ht. by apply prefix_app_r.
  - by intros h' r [Hp _].
Qed.
(** Calls that read only are always allowed. *)
Lemma GetInfo_safe pod repo h :
  safe h (GetInfo unmarshalInfo pod repo) (fun h' _ => h `prefix_of` h').
Proof.
  eapply wps_conseq; [apply wps_prefix|by intros h' r [Hp _]].
  instantiate (1 := fun _ _ => True). unfold GetInfo. apply wps_call_bind. split; [done|].
  intros [[]|e]; [|done]. apply wps_call_bind. split; [done|]. intros out.
  destruct (out_Err out); [done|]. destruct (unmarshalInfo _) as [info|e]; [|done].
  by destruct (checkStanzas info).
Qed.

Lemma SetAnnotationsToBackup_safe pod stanza set repo annotations h :
  safe h (SetAnnotationsToBackup pod stanza set repo annotations) (fun h' _ => h `prefix_of` h').
Proof.
  eapply wps_conseq; [apply wps_prefix|by intros h' r [Hp _]].
  instantiate (1 := fun _ _ => True). unfold SetAnnotationsToBackup.
  apply wps_call_bind. split; [done|]. intros [[]|e]; [|done].
  apply wps_call_bind. split; [done|]. intros order. cbv zeta.
  apply wps_call_bind. split; [done|]. intros out. by destruct (out_Err out).
Qed.

Lemma updatePGBackrestInfo_safe pod b1 h :
  safe h (updatePGBackrestInfo unmarshalInfo pod b1) (fun h' _ => h `prefix_of` h').
Proof.
  unfold updatePGBackrestInfo. rewrite wps_bindr. eapply wps_conseq; [apply GetInfo_safe|].
  intros h1 [info|e] Hp; [|done]. destruct (findBackupInPGBackrestInfo info b1) as [[stanza ib]|]; [|done].
  cbv zeta. rewrite wps_bindr.
  assert (Hset : forall h2, h `prefix_of` h2 -> safe h2 (do! _ := SetAnnotationsToBackup pod stanza
    (ib_Label ib) (deref (b_RepoName b1) "") {[PGBackrestAnnotationJobName := bs_JobName (b_Status b1)]}
    or "set annotations to backup" in Ret (Ok tt)) (fun h' _ => h `prefix_of` h')).
  { intros h2 Hp2. rewrite wps_bindr. eapply wps_conseq; [apply SetAnnotationsToBackup_safe|].
    intros h3 [[]|e] Hp3; simpl; by transitivity h2. }
  case_match; [|by apply Hset].
  eapply wps_conseq; [by apply (keep_state_safe b1)|]. intros h2 [[]|e] Hp2; simpl;
    [apply Hset|]; by transitivity h1.
Qed.

Lemma GetReadyInstancePod_safe cl ns h :
  safe h (GetReadyInstancePod cl ns) (fun h' _ => h `prefix_of` h').
Proof.
  unfold GetReadyInstancePod. destruct (AsSelector _); [|simpl; reflexivity].
  apply wps_list_bindr. split; [done|]. intros [pods|e]; simpl; [|by apply prefix_app_r].
  case_match; by apply prefix_app_r.
Qed.

Lemma getBackupInProgress_safe h :
  safe h (getBackupInProgress (b_PGCluster b) (b_Namespace b)) (fun h' r => h `prefix_of` h' /\
    match r with Ok n => in_progress_is b h' n | Err _ => True end).
Proof.
  apply wps_prefix. unfold getBackupInProgress. apply wps_get_bindr. split; [done|].
  intros [c|e]; [|done]. apply wps_get_bindr. split; [done|]. intros [cc|e]; [|done].
  cbv zeta. assert (Hread : forall n, n = (if nonempty (annotation (cc_Meta cc)
      (ToCrunchyAnnotation AnnotationBackupInProgress))
      then annotation (cc_Meta cc) (ToCrunchyAnnotation AnnotationBackupInProgress)
      else annotation (c_Meta c) AnnotationBackupInProgress) ->
    in_progress_is b ((h ++ [got KPGCluster (clusterKey b) (Ok c)]) ++
                      [got KCrunchy (clusterKey b) (Ok cc)]) n).
  { intros n Hn. exists c, cc. split_and!; [|apply elem_of_snoc|done].
    eapply elem_of_grow; [apply elem_of_snoc|by apply prefix_app_r]. }
  revert Hread. destruct (nonempty (annotation (cc_Meta cc) _)); intros Hread; by apply Hread.
Qed.

Lemma deleteAnnotation_safe a h :
  a = PGBackRestBackup \/ a = AnnotationBackupInProgress -> in_progress_is b h (b_Name b) ->
  safe h (deleteAnnotation b a) (fun h' _ => h `prefix_of` h').
Proof.
  intros Ha Hn. eapply wps_conseq; [apply wps_prefix|by intros h' r [Hp _]].
  instantiate (1 := fun _ _ => True). unfold deleteAnnotation.
  apply wps_get_bindr. split; [done|]. intros [cc|e]; [|done].
  destruct (om_Annotations (cc_Meta cc) !! _); [|done]. rewrite wps_bindr.
  apply RetryOnConflict_prefix. intros h' Hp. apply wps_get_bindr. split; [done|].
  intros [pg|e]; [|done]. destruct (om_Annotations (c_Meta pg) !! a); [|done].
  rewrite wps_ignore. split; [|by intros [?|?]]. exists pg. split; [apply elem_of_snoc|]. right. split.
  - eapply in_progress_grow; [done|]. etransitivity; [|by apply prefix_app_r].
    etransitivity; [by apply prefix_app_r|done].
  - destruct Ha as [->| ->]; [by left|by right].
Qed.

Lemma removeJobLabels_safe job h :
  safe h (removeJobLabels b job) (fun h' _ => h `prefix_of` h').
Proof.
  eapply wps_conseq; [apply wps_prefix|by intros h' r [Hp _]].
  instantiate (1 := fun _ _ => True). unfold removeJobLabels. apply RetryOnConflict_prefix.
  intros h' Hp. apply wps_get_bindr. split; [done|]. intros [j|e]; [|done].
  rewrite wps_ignore. split; [|done]. exists j. split; [|done]. left. eexists. apply elem_of_snoc.
Qed.

Lemma clearManualBackup_safe h : in_progress_is b h (b_Name b) ->
  safe h (clearManualBackup b) (fun h' _ => h `prefix_of` h').
Proof.
  intros Hn. eapply wps_conseq; [apply wps_prefix|by intros h' r [Hp _]].
  instantiate (1 := fun _ _ => True). unfold clearManualBackup. apply RetryOnConflict_prefix.
  intros h' Hp. apply wps_get_bindr. split; [done|]. intros [cc|e]; [|done].
  destruct (cc_PGBackRest cc); [|done]. rewrite wps_ignore. split; [|done].
  eapply in_progress_grow; [done|]. etransitivity; [done|]. by apply prefix_app_r.
Qed.

Lemma RemoveKeepJobFinalizer_safe job h :
  safe h (RemoveKeepJobFinalizer job) (fun h' _ => h `prefix_of` h').
Proof.
  eapply wps_conseq; [apply wps_prefix|by intros h' r [Hp _]].
  instantiate (1 := fun _ _ => True). unfold RemoveKeepJobFinalizer. apply RetryOnConflict_prefix.
  intros h' Hp. apply wps_call_bind. split; [done|]. intros [j|e]; [|done].
  destruct (RemoveFinalizer _ _) as [fs [|]]; [|done]. cbn [negb]. rewrite wps_ignore.
  split; [|done]. exists j. split; [|done]. left. eexists. apply elem_of_snoc.
Qed.

Lemma deleteJob_safe job h :
  isDeleting (b_Meta pgBackup) = true \/ b_State pgBackup = BackupFailed \/ pgCluster = None ->
  safe h (deleteJob job) (fun h' _ => h `prefix_of` h').
Proof.
  intros Hd. unfold deleteJob. apply wps_call_bind. split; [done|]. intros r.
  destruct (IgnoreNotFound (err_of r)); by apply prefix_app_r.
Qed.
(** [finishBackup] says it is done only when the cluster has nothing left of
    the backup. *)
Lemma finishBackup_safe job h :
  (match job with Some j => job_seen h j | None => job_missing b h end) ->
  safe h (finishBackup unmarshalInfo b job) (fun h' r => h `prefix_of` h' /\
    match r with
    | Ok None => released b h'
    | Ok (Some n) => n <> 0%Z
    | Err _ => True
    end).
Proof.
  intros Hjob. apply wps_prefix. unfold finishBackup. rewrite wps_bindr.
  eapply wps_conseq.
  { instantiate (1 := fun h' r => h `prefix_of` h'). destruct job as [j|]; [|simpl; reflexivity].
    case_match; [|simpl; reflexivity]. rewrite wps_bindr.
    eapply wps_conseq; [apply GetReadyInstancePod_safe|]. intros h1 [pod|e] Hp1; [|done].
    rewrite wps_bindr. eapply wps_conseq; [apply updatePGBackrestInfo_safe|].
    intros h2 [[]|e] Hp2; simpl; by transitivity h1. }
  intros h1 [[]|e] Hp1; [|done]. cbv zeta.
  match goal with |- context [if ?c then _ else _] => destruct c eqn:Ef end.
  { right. left. destruct job as [j|]; [|done]. exists j. bool_to_prop.
    split; [by eapply job_seen_grow|done]. }
  rewrite wps_bindr. eapply wps_conseq; [apply getBackupInProgress_safe|].
  intros h2 [n|e] [Hp2 Hn]; [|done]. case_bool_decide as En; cbn [negb].
  2:{ left. by exists n. }
  subst n. rewrite wps_bindr. eapply wps_conseq; [apply deleteAnnotation_safe; [by left|done]|].
  intros h3 [[|]|e] Hp3; cbn [negb]; [|done|done]. rewrite wps_bindr. eapply wps_conseq.
  { instantiate (1 := fun h' r => h3 `prefix_of` h'). destruct job as [j|]; [|simpl; reflexivity].
    rewrite wps_bindr. eapply wps_conseq; [apply removeJobLabels_safe|]. by intros h4 [[]|e] Hp4. }
  intros h4 [[]|e] Hp4; [|done]. rewrite wps_bindr.
  assert (H24 : h2 `prefix_of` h4) by by transitivity h3.
  eapply wps_conseq; [apply clearManualBackup_safe; by eapply in_progress_grow|].
  intros h5 [[]|e] Hp5; [|done]. rewrite wps_bindr.
  eapply wps_conseq; [apply deleteAnnotation_safe; [by right|]|].
  { eapply in_progress_grow; [done|]. by transitivity h4. }
  by intros h6 [[|]|e] Hp6.
Qed.

(** The cluster argument of the finalizer decides how the job is treated. *)
Lemma deleteBackupFinalizer_safe pg h :
  pg = pgCluster \/ isDeleting (b_Meta pgBackup) = true \/ b_State pgBackup = BackupFailed ->
  (isDeleting (b_Meta b) = true ->
     isDeleting (b_Meta pgBackup) = true \/ b_State pgBackup = BackupFailed) ->
  safe h (deleteBackupFinalizer unmarshalInfo pg b) (fun h' r => h `prefix_of` h' /\
    match r with Ok _ => released b h' | Err _ => True end).
Proof.
  intros Hpg Hdel. apply wps_prefix. destruct pg as [c|]; simpl.
  - unfold deleteBackupWithCluster. rewrite wps_bindr. eapply wps_conseq; [apply findJobIfAny_safe|].
    intros h1 [job|e] [Hp1 Hj]; [|done].
    assert (Hfin : safe h1 (
      do! rr := finishBackup unmarshalInfo b job or "failed to finish backup" in
      if match rr with Some n => negb (bool_decide (n = 0%Z)) | None => false end
      then Ret (Err ErrFinalizerPending)
      else match job with
           | Some j => if isDeleting (b_Meta b)
                       then do! _ := deleteJob j in
                            do! _ := RemoveKeepJobFinalizer j or "remove keep-job finalizer" in
                            Ret (Ok tt)
                       else Ret (Ok tt)
           | None => Ret (Ok tt)
           end) (fun h' r => match r with Ok _ => released b h' | Err _ => True end)).
    { rewrite wps_bindr. eapply wps_conseq; [by apply finishBackup_safe; destruct job|].
      intros h2 [[n|]|e] [Hp2 Hr]; [|  |done].
      - by rewrite bool_decide_eq_false_2.
      - destruct job as [j|]; [|done]. destruct (isDeleting (b_Meta b)) eqn:Ed; [|done].
        rewrite wps_bindr. eapply wps_conseq; [apply deleteJob_safe; destruct (Hdel eq_refl); auto|].
        intros h3 [[]|e] Hp3; [|done]. rewrite wps_bindr.
        eapply wps_conseq; [apply RemoveKeepJobFinalizer_safe|]. intros h4 [[]|e] Hp4; [|done].
        simpl. eapply released_grow; [done|]. by transitivity h3. }
    destruct job as [j|]; [|exact Hfin]. destruct (nonempty _); [exact Hfin|].
    rewrite wps_bindr. eapply wps_conseq; [by apply (keep_state_safe b)|]. by intros h2 [[]|e] _.
  - unfold deleteBackupWithoutCluster. rewrite wps_bindr.
    eapply wps_conseq; [apply findJobIfAny_safe|]. intros h1 [[job|]|e] [Hp1 Hj]; [| |done].
    2:{ right. by right. }
    rewrite wps_bindr. eapply wps_conseq.
    { instantiate (1 := fun _ _ => True). case_match; [|done].
      eapply wps_conseq; [apply deleteJob_safe|done]. destruct Hpg as [<-|[?|?]]; auto. }
    intros h2 [[]|e] _; [|done]. rewrite wps_bindr.
    eapply wps_conseq; [apply RemoveKeepJobFinalizer_safe|]. by intros h3 [[]|e] _.
Qed.
End ForOne.

Abbreviation safe := (wps pg_call).

Lemma ours_grow h h' b : ours h b -> h `prefix_of` h' -> ours h' b.
Proof.
  intros (b0 & fs & Hb & [H'|(b1 & b2 & Hin)]) Hp; exists b0, fs; (split; [done|]); [by left|].
  right. exists b1, b2. by eapply elem_of_grow.
Qed.

Lemma ours_self h : ours h pgBackup.
Proof. exists pgBackup, (om_Finalizers (b_Meta pgBackup)). split; [|by left]. by destruct pgBackup as [[]]. Qed.

Lemma for_one {A} b h (p : program A) Q : ours h b -> wps (call_for b) h p Q -> safe h p Q.
Proof.
  revert h. induction p as [a|o k IH]; intros h Hb; [done|]. intros [Ho Hk]. split.
  - by exists b.
  - intros r. apply IH; [|done]. eapply ours_grow; [done|]. by apply prefix_app_r.
Qed.

(** [RunFinalizer] with the delete-backup finalizer: the local copy stays one
    of ours. *)
Lemma run_delete_safe b pg h :
  ours h b -> pg = pgCluster \/ isDeleting (b_Meta pgBackup) = true \/ b_State pgBackup = BackupFailed ->
  (isDeleting (b_Meta b) = true -> isDeleting (b_Meta pgBackup) = true \/ b_State pgBackup = BackupFailed) ->
  safe h (RunFinalizer (k := KBackup) b FinalizerDeleteBackup (deleteBackupFinalizer unmarshalInfo pg))
    (fun h' '(b', _) => h `prefix_of` h' /\ ours h' b').
Proof.
  intros Hb Hpg Hdel. eapply wps_conseq; [apply wps_prefix|].
  - instantiate (1 := fun h' '(b', _) => ours h' b'). apply RunFinalizer_wps; [done|]. intros _.
    eapply wps_conseq; [apply (for_one b); [done|by apply deleteBackupFinalizer_safe]|].
    intros h1 [[]|e] [Hp Hr].
    + intros fs Hfs. cbv zeta. split.
      * exists b. split; [by eapply ours_grow|]. split; [done|]. intros _. by right.
      * intros [b3|e].
        -- exists b3, (om_Finalizers (b_Meta b3)). split; [by destruct b3 as [[]]|]. right.
           eexists _, _. apply elem_of_snoc.
        -- destruct Hb as (b0 & fs0 & -> & Hb). exists b0, fs. split; [done|].
           destruct Hb as [->|(b1 & b2 & Hin)]; [by left|]. right. exists b1, b2.
           eapply elem_of_grow; [done|]. etransitivity; [done|]. by apply prefix_app_r.
    + by eapply ours_grow.
  - intros h' [b' r] [Hp Ho]. done.
Qed.

Lemma run_snapshot_safe b pg h :
  ours h b ->
  safe h (RunFinalizer (k := KBackup) b FinalizerSnapshotInProgress (snapshotInProgressFinalizer pg))
    (fun h' '(b', _) => h `prefix_of` h' /\ ours h' b').
Proof.
  intros Hb. eapply wps_conseq; [apply wps_prefix|].
  - instantiate (1 := fun h' '(b', _) => ours h' b'). apply RunFinalizer_wps; [done|]. intros _.
    unfold snapshotInProgressFinalizer. destruct pg as [c|]; [done|].
    intros fs Hfs. cbv zeta. split.
    + exists b. split; [done|]. split; [done|]. intros Hin. left. by apply Hfs.
    + intros [b3|e].
      * exists b3, (om_Finalizers (b_Meta b3)). split; [by destruct b3 as [[]]|]. right.
        eexists _, _. apply elem_of_snoc.
      * destruct Hb as (b0 & fs0 & -> & Hb). exists b0, fs. split; [done|].
        destruct Hb as [->|(b1 & b2 & Hin)]; [by left|]. right. exists b1, b2.
        eapply elem_of_grow; [done|]. by apply prefix_app_r.
  - intros h' [b' r] [Hp Ho]. done.
Qed.

Lemma finalizerLoop_safe order pg b finished h :
  ours h b -> isDeleting (b_Meta pgBackup) = true \/ b_State pgBackup = BackupFailed ->
  Forall (fun f => f = FinalizerDeleteBackup \/ f = FinalizerSnapshotInProgress) order ->
  safe h (finalizerLoop unmarshalInfo order pg b finished) (fun _ _ => True).
Proof.
  intros Hb Hd Ho. revert b finished h Hb.
  induction Ho as [|f order Hf _ IH]; intros b finished h Hb; [done|].
  cbn [finalizerLoop]. rewrite wps_bind. eapply wps_conseq.
  { instantiate (1 := fun h' '(b', _) => h `prefix_of` h' /\ ours h' b').
    destruct Hf as [->| ->].
    - rewrite decide_True by done. apply run_delete_safe; auto.
    - rewrite decide_False by done. by apply run_snapshot_safe. }
  intros h' [b' [d|e]] [_ Ho']; [|done]. by apply IH.
Qed.

Lemma runFinalizers_safe h :
  isDeleting (b_Meta pgBackup) = true \/ b_State pgBackup = BackupFailed ->
  safe h (runFinalizers unmarshalInfo pgBackup) (fun _ _ => True).
Proof.
  intros Hd. unfold runFinalizers. apply wps_call_bind. split; [by exists pgBackup; split; [apply ours_self|]|].
  intros r. cbv zeta. case_match; [|done].
  apply wps_call_bind. split; [by exists pgBackup; split; [apply ours_self|]|].
  intros [order Ho]. simpl. apply finalizerLoop_safe; [apply ours_self|done|].
  rewrite Ho. apply Forall_cons_2; [by left|]. apply Forall_cons_2; [by right|]. apply Forall_nil_2.
Qed.

(** A call for the backup as it was given. *)
Lemma own_call_safe {A} h (p : program A) Q : wps (call_for pgBackup) h p Q -> safe h p Q.
Proof. apply for_one, ours_self. Qed.

Lemma startBackup_safe h :
  safe h (startBackup pgBackup) (fun h' r =>
    match r with
    | Ok _ => exists pg0 pg', (Ev (Update KPGCluster (started pgBackup pg0) : op)
                                 (Ok pg' : result PerconaPGCluster)) ∈ h'
    | Err _ => True
    end).
Proof.
  apply own_call_safe. unfold startBackup. rewrite wps_bindr. eapply wps_conseq.
  { instantiate (1 := fun h' r => match r with
      | Ok _ => exists pg0 pg', (Ev (Update KPGCluster (started pgBackup pg0) : op)
                                   (Ok pg' : result PerconaPGCluster)) ∈ h'
      | Err _ => True end).
    apply RetryOnConflict_prefix. intros h' Hp. apply wps_get_bindr. split; [done|].
    intros [pg|e]; [|done]. cbv zeta. destruct (nonempty _ && _) eqn:Ea; [done|].
    rewrite wps_ignore. split.
    - exists pg. split; [apply elem_of_snoc|]. left. split; [done|].
      apply andb_false_iff in Ea as [Ea|Ea].
      + left. by destruct (annotation (c_Meta pg) AnnotationBackupInProgress).
      + right. by bool_to_prop.
    - intros [pg'|e]; [|done]. exists pg, pg'. apply elem_of_snoc. }
  by intros h' [[]|e] Hr.
Qed.

(** From here on the state of the given backup is known. *)
Lemma failBackup_safe msg h :
  (forall h', h `prefix_of` h' -> pg_transition h' BackupFailed) ->
  safe h (failBackup pgBackup msg) (fun _ _ => True).
Proof.
  intros Ht. unfold failBackup. rewrite wps_bindr.
  eapply wps_conseq; [apply own_call_safe, (transition_to_safe _ _ BackupFailed); [done|exact Ht]|].
  by intros h' [[]|e] _.
Qed.

Lemma reconcileNewBackup_safe h : b_State pgBackup = BackupNew ->
  safe h (reconcileNewBackup pgCluster pgBackup) (fun _ _ => True).
Proof.
  intros HN. unfold reconcileNewBackup. destruct pgCluster as [c|] eqn:Ec; [|done].
  destruct (IsEnabled (c_Backups c)) eqn:Een; cbn [negb].
  2:{ rewrite wps_bindr. eapply wps_conseq.
      { apply failBackup_safe. intros h' _. right. rewrite HN. by exists c. }
      by intros h' [?|e] _. }
  destruct (deref (c_Pause c) false) eqn:Epa; [done|]. rewrite wps_bind.
  eapply wps_conseq; [apply own_call_safe, findBackupJob_safe|]. intros h1 r [Hp1 Hr].
  rewrite wps_bindr. eapply wps_conseq.
  { instantiate (1 := fun h' r => match r with
      | Ok _ => (exists job, job_seen h' job) \/
                exists pg0 pg', (Ev (Update KPGCluster (started pgBackup pg0) : op)
                                   (Ok pg' : result PerconaPGCluster)) ∈ h'
      | Err _ => True end).
    destruct r as [job|e]; [by left; exists job|]. case_match; [done|]. rewrite wps_bindr.
    eapply wps_conseq; [apply startBackup_safe|]. intros h2 [[]|e'] Hs; [|done]. by right. }
  intros h2 [[]|e] Hs; [|done]. destruct (getRepo c pgBackup) as [repo|] eqn:Er; [|done].
  rewrite wps_bindr. eapply wps_conseq.
  { apply own_call_safe, (transition_to_safe _ _ BackupStarting); [done|]. intros h' Hp. right.
    rewrite HN. exists c. split_and!; [done..|by eexists|].
    destruct Hs as [[job Hj]|(pg0 & pg' & Hin)].
    - left. exists job. by eapply job_seen_grow.
    - right. exists pg0, pg'. by eapply elem_of_grow. }
  by intros h' [[]|e] _.
Qed.

Lemma annotateJobType_safe job h :
  safe h (annotateJobType pgBackup job) (fun h' r => h `prefix_of` h' /\
    match r with
    | Ok _ => label (j_Meta job) LabelPGBackRestBackup = BackupManual \/
              label (j_Meta job) LabelPGBackRestBackup = BackupReplicaCreate
    | Err _ => True
    end).
Proof.
  apply own_call_safe, wps_prefix. unfold annotateJobType. apply RetryOnConflict_prefix. intros h' Hp.
  apply wps_get_bindr. split; [done|]. intros [bcp|e]; [|done]. cbv zeta.
  destruct (_ || _) eqn:El; [|done]. rewrite wps_ignore. split.
  - exists (objectKey (b_Meta pgBackup)), bcp. split_and!; [apply elem_of_snoc|done|done].
  - intros [b'|e]; [|done]. apply orb_true_iff in El as [El|El]; bool_to_prop; [by right|by left].
Qed.

Lemma failIfClusterIsNotReady_safe c h :
  b_State pgBackup = BackupStarting -> pgCluster = Some c ->
  safe h (failIfClusterIsNotReady c pgBackup) (fun _ _ => True).
Proof.
  intros HN Hc. apply own_call_safe. unfold failIfClusterIsNotReady.
  destruct (FindStatusCondition _ _) as [cond|] eqn:Ef; [|done].
  case_bool_decide as Es; [done|]. apply wps_call_bind. split; [done|]. intros now.
  case_bool_decide as Et; [done|]. apply wps_get_bindr. split; [done|]. intros [cc|e]; [|done].
  cbv zeta. case_match; [done|]. case_match; [done|]. rewrite wps_bindr. eapply wps_conseq.
  { apply (transition_to_safe _ _ BackupFailed); [done|]. intros h' Hp. right. rewrite HN.
    exists c, cond, now. split_and!; [done..| |].
    - eapply elem_of_grow; [apply elem_of_snoc|]. etransitivity; [|done]. by apply prefix_app_r.
    - simpl in Et. lia. }
  by intros h' [[]|e] _.
Qed.

Lemma reconcileStartingBackup_safe h : b_State pgBackup = BackupStarting ->
  safe h (reconcileStartingBackup pgCluster pgBackup) (fun _ _ => True).
Proof.
  intros HN. unfold reconcileStartingBackup. destruct pgCluster as [c|] eqn:Ec; [|done].
  rewrite wps_bind. eapply wps_conseq; [apply own_call_safe, findBackupJob_safe|].
  intros h1 [job|e] [Hp1 Hr].
  - rewrite wps_bindr. eapply wps_conseq; [apply annotateJobType_safe|].
    intros h2 [[]|e] [Hp2 Hl]; [|done]. rewrite wps_bindr. eapply wps_conseq.
    { apply own_call_safe, (transition_to_safe _ _ BackupRunning); [done|]. intros h' Hp. right.
      rewrite HN. exists job. split; [|done]. eapply job_seen_grow; [done|]. by transitivity h2. }
    by intros h' [[]|e] _.
  - case_match; [|done]. rewrite wps_bindr.
    eapply wps_conseq; [by apply failIfClusterIsNotReady_safe|]. by intros h' [[]|e'] _.
Qed.

Lemma reconcileRunningBackup_safe h :
  b_State pgBackup = BackupRunning ->
  safe h (reconcileRunningBackup unmarshalInfo pgCluster pgBackup) (fun _ _ => True).
Proof.
  intros HN. unfold reconcileRunningBackup. apply wps_call_bind.
  split; [by exists pgBackup; split; [apply ours_self|]|]. intros [job|e].
  2:{ destruct (IsNotFound e) eqn:En; [|done]. rewrite wps_bindr. eapply wps_conseq.
      { apply own_call_safe, (transition_to_safe _ _ BackupFailed); [done|]. intros h' Hp. right.
        rewrite HN. left. exists e. split; [|done]. by eapply elem_of_grow; [apply elem_of_snoc|]. }
      by intros h' [[]|e'] _. }
  set (h1 := h ++ _). cbv zeta.
  assert (Hread : read h1 KJob (b_Namespace pgBackup, bs_JobName (b_Status pgBackup)) job)
    by apply elem_of_snoc.
  assert (Hend : forall s, s = BackupFailed \/ s = BackupSucceeded -> checkBackupJob job = s ->
    safe h1 (let! (pgBackup, r) := RunFinalizer (k := KBackup) pgBackup FinalizerDeleteBackup
               (deleteBackupFinalizer unmarshalInfo pgCluster) in
             match r with
             | Err e => Ret (Err (Wrap "failed to run delete-backup finalizer" e))
             | Ok false => Ret (Ok 5%Z)
             | Ok true =>
                 do! _ := UpdateStatus pgBackup (setStatus (fun st => st
                     <| bs_CompletedAt := j_CompletionTime job |> <| bs_State := s |>))
                   or "update PGBackup status" in
                 Ret (Ok 0%Z)
             end) (fun _ _ => True)).
  { intros s Hs Hj. rewrite wps_bind. eapply wps_conseq.
    { apply run_delete_safe; [apply ours_self|by left|]. auto. }
    intros h2 [b' [[|]|e]] [Hp2 Hb']; [|done|done]. rewrite wps_bindr. eapply wps_conseq.
    { apply own_call_safe, (transition_to_safe _ _ s); [done|]. intros h' Hp. right. rewrite HN.
      assert (Hread' : read h' KJob (b_Namespace pgBackup, bs_JobName (b_Status pgBackup)) job)
        by (eapply elem_of_grow; [exact Hread|by transitivity h2]).
      unfold checkBackupJob in Hj. destruct (JobCompleted job) eqn:Ejc.
      - subst s. exists job. done.
      - destruct (JobFailed job) eqn:Ejf; [|destruct Hs; congruence]. subst s. right. by exists job. }
    by intros h' [[]|e] _. }
  destruct (checkBackupJob job) eqn:Ejob; try done; apply Hend; auto.
Qed.

Lemma reconcileSucceededBackup_safe h :
  safe h (reconcileSucceededBackup pgCluster pgBackup) (fun _ _ => True).
Proof.
  apply own_call_safe. unfold reconcileSucceededBackup. rewrite wps_bind.
  eapply wps_conseq; [apply findBackupJob_safe|]. intros h1 r _. rewrite wps_bindr.
  eapply wps_conseq.
  { instantiate (1 := fun _ _ => True). destruct r as [job|e]; [|done]. case_match; [|done].
    rewrite wps_bindr. eapply wps_conseq; [apply RemoveKeepJobFinalizer_safe|].
    by intros h2 [[]|e] _. }
  intros h2 [[]|e] _; [|done]. destruct pgCluster as [c|]; [|done]. rewrite wps_bindr.
  eapply wps_conseq.
  { instantiate (1 := fun _ _ => True). unfold GetLatestBackup. apply wps_list_bindr.
    split; [done|]. by intros [[|? ?]|e]. }
  intros h3 [latest|e] _; [|done]. case_match; [done|]. apply wps_call_bind. split; [done|].
  intros [t|e]; [|done]. rewrite wps_bindr.
  eapply wps_conseq; [by apply keep_state_safe|]. by intros h4 [[]|e] _.
Qed.

Lemma reconcileState_safe h :
  safe h (reconcileState unmarshalInfo pgCluster pgBackup) (fun _ _ => True).
Proof.
  unfold reconcileState. destruct (b_State pgBackup) eqn:E; try done.
  - by apply reconcileNewBackup_safe.
  - by apply reconcileStartingBackup_safe.
  - by apply reconcileRunningBackup_safe.
  - apply reconcileSucceededBackup_safe.
Qed.
End Spec.

(** The whole of the pgBackRest part works on the backup as given, but for its
    finalizers. *)
Section Machine.
Context `{ControllerRuntime, LabelMatching, MetaConditions}.

Definition withFinalizers (fs : list string) (b : PerconaPGBackup) : PerconaPGBackup :=
  b <| b_Meta ::= fun m => m <| om_Finalizers := fs |> |>.

Definition pgbackrest_call (pgCluster : option PerconaPGCluster) (pgBackup : PerconaPGBackup)
    (h : history) (o : op) : Prop :=
  exists fs, pg_call pgCluster (withFinalizers fs pgBackup) h o.

Lemma withFinalizers_safe {A} c b fs h (p : program A) Q :
  wps (pg_call c (withFinalizers fs b)) h p Q -> wps (pgbackrest_call c b) h p Q.
Proof.
  revert h. induction p as [a|o k IH]; intros h; [done|]. intros [Ho Hk]. split.
  - by exists fs.
  - intros r. by apply IH.
Qed.

Lemma withFinalizers_same b : withFinalizers (om_Finalizers (b_Meta b)) b = b.
Proof. by destruct b as [[]]. Qed.

Lemma ensureFinalizers_safe c b h :
  wps (pgbackrest_call c b) h (ensureFinalizers b) (fun _ r => exists fs, fst r = withFinalizers fs b).
Proof.
  unfold ensureFinalizers.
  pose proof (AddFinalizer_spec (om_Finalizers (b_Meta b)) FinalizerDeleteBackup) as (_ & _ & Hadd).
  destruct (AddFinalizer _ _) as [fs [|]]; cbn [negb].
  2:{ exists (om_Finalizers (b_Meta b)). by rewrite withFinalizers_same. }
  - apply wps_call_bind. split.
    + exists (om_Finalizers (b_Meta b)). rewrite withFinalizers_same. exists b.
      split; [apply ours_self|]. split; [done|]. intros _. left. apply Hadd. by left.
    + intros [r|e]; by eexists.
Qed.

Lemma reconcilePgBackRest_safe unmarshalInfo pgCluster pgBackup :
  wps (pgbackrest_call pgCluster pgBackup) []
    (reconcilePgBackRest unmarshalInfo pgCluster pgBackup) (fun _ _ => True).
Proof.
  unfold reconcilePgBackRest. destruct (isDeleting _ || _) eqn:Ed.
  - apply (withFinalizers_safe _ _ (om_Finalizers (b_Meta pgBackup))). rewrite withFinalizers_same.
    rewrite wps_bindr. eapply wps_conseq.
    { apply runFinalizers_safe. apply orb_true_iff in Ed as [?|?]; bool_to_prop; auto. }
    by intros h [?|e] _.
  - rewrite wps_bind. eapply wps_conseq.
    { instantiate (1 := fun _ r => exists fs, fst r = withFinalizers fs pgBackup).
      destruct (negb (IsTerminal _)); [apply ensureFinalizers_safe|].
      exists (om_Finalizers (b_Meta pgBackup)). by rewrite withFinalizers_same. }
    intros h [b' [[]|e]] [fs E]; [|done]. simpl in E. subst b'. apply (withFinalizers_safe _ _ fs).
    destruct (nonempty _) eqn:En; cbn [negb]; [apply reconcileState_safe|].
    rewrite wps_bindr. eapply wps_conseq; [apply failBackup_safe; intros h' _; by left|].
    by intros h' [?|e] _.
Qed.

(** C5: every call of the pgBackRest part of a reconcile is one its state allows:
    each change of the backup's state is a transition of the state machine
    backed by what was read in this reconcile; the cluster is marked with a
    backup only when no other backup is in progress, and its marks are removed
    only by the backup they name; the delete-backup finalizer goes only when
    the cluster is rid of the backup; a job is deleted only for a backup that
    is deleted, has failed or has no cluster. *)
Theorem pgbackrest_state_machine
    (unmarshalInfo : string -> result InfoOutput)
    (pgCluster : option PerconaPGCluster) (pgBackup : PerconaPGBackup) :
  wps (pgbackrest_call pgCluster pgBackup) []
    (reconcilePgBackRest unmarshalInfo pgCluster pgBackup) (fun _ _ => True).
Proof. apply reconcilePgBackRest_safe. Qed.
End Machine.

(** ** The whole reconcile *)
Section Whole.
Context `{ControllerRuntime, LabelMatching, MetaConditions}.
Context (unmarshalInfo : string -> result InfoOutput) (BackupSnapshots : bool)
        (multierror : list error -> string) (request : key).

(** The cluster as far as backups may use it. *)
Definition liveCluster (pgCluster : option PerconaPGCluster) : option PerconaPGCluster :=
  match pgCluster with
  | Some c => if isDeleting (c_Meta c) then None else Some c
  | None => None
  end.

(** The answer about the cluster. *)
Definition cluster_answer (pgCluster : option PerconaPGCluster) (r : result PerconaPGCluster) : Prop :=
  match r with
  | Ok c => pgCluster = Some c
  | Err e => pgCluster = None /\ IsNotFound e = true
  end.

Definition unmanaged (pgCluster : option PerconaPGCluster) : bool :=
  match pgCluster with Some c => deref (c_Unmanaged c) false | None => false end.

(** The copy of the backup after the check of its cluster. *)
Definition checked (live : option PerconaPGCluster) (b b' : PerconaPGBackup) : Prop :=
  b' = b \/
  (live = None /\ (b_State b = BackupStarting \/ b_State b = BackupRunning) /\
   exists msg, b' = setStatus (fun s => s <| bs_State := BackupFailed |> <| bs_Error := msg |>) b).

(** What the lease part has established. *)
Definition may_work (live : option PerconaPGCluster) (b : PerconaPGBackup) (h : history) : Prop :=
  needs_no_lease live b \/
  exists h1 h2, (h1 ++ h2) `prefix_of` h /\
    lease_granted (backupLeaseName (b_PGCluster b)) (backupLeaseHolder b) (b_Namespace b) h2.

(** The calls once the backup and its cluster have been read. *)
Definition cluster_call (pgCluster : option PerconaPGCluster) (b : PerconaPGBackup)
    (h : history) (o : op) : Prop :=
  let live := liveCluster pgCluster in
  (unmanaged pgCluster = false \/ isDeleting (b_Meta b) = true) /\
  ((live = None /\ (b_State b = BackupStarting \/ b_State b = BackupRunning) /\ refusal_call b h o) \/
   exists b', checked live b b' /\ exists h1,
     (on_suffix h1 (lease_call_ok b') h o \/
      (may_work live b' h1 /\
       match live with
       | Some c =>
           if bool_decide (b_Method b = Some BackupMethodVolumeSnapshot)
           then on_suffix h1 (snapshots_call BackupSnapshots b' c) h o
           else on_suffix h1 (pgbackrest_call live b') h o
       | None => on_suffix h1 (pgbackrest_call live b') h o
       end))).

Definition reconcile_call (h : history) (o : op) : Prop :=
  (h = [] /\ o = Get KBackup request) \/
  exists b0, let b := Default b0 in
    (h = [got KBackup request (Ok b0)] /\ o = Get KPGCluster (request.1, b_PGCluster b)) \/
    exists r pgCluster, cluster_answer pgCluster r /\
      [got KBackup request (Ok b0); got KPGCluster (request.1, b_PGCluster b) r] `prefix_of` h /\
      cluster_call pgCluster b h o.

Lemma failWithoutCluster_safe pgCluster b h :
  liveCluster pgCluster = None ->
  wps (fun h o => (b_State b = BackupStarting \/ b_State b = BackupRunning) /\ refusal_call b h o) h
    (failWithoutCluster pgCluster b) (fun _ r =>
      match r with Ok b' => checked (liveCluster pgCluster) b b' | Err _ => True end).
Proof.
  intros Hl. unfold failWithoutCluster.
  assert (Hf : forall msg,
    b_State b = BackupStarting \/ b_State b = BackupRunning ->
    wps (fun h o => (b_State b = BackupStarting \/ b_State b = BackupRunning) /\ refusal_call b h o) h
      (do! b' := failBackup b msg or "update backup status" in Ret (Ok b')) (fun _ r =>
      match r with Ok b' => checked (liveCluster pgCluster) b b' | Err _ => True end)).
  { intros msg Hs. rewrite wps_bindr. unfold failBackup. rewrite wps_bindr.
    eapply wps_conseq.
    - apply (UpdateStatus_wps _ _ _ (fun _ _ => True)). intros h' _. split; [done|].
      intros [b0|e]; [|done]. split; [|done]. split; [done|]. split; [done|].
      exists b0. split; [apply elem_of_snoc|done].
    - intros h' [[]|e] _; [|done]. right. split_and!; [done..|]. by exists msg. }
  destruct (b_State b) eqn:Es; try (by left); apply Hf; auto.
Qed.

Lemma reconcileWithCluster_safe pgCluster b h :
  wps (cluster_call pgCluster b) h
    (reconcileWithCluster unmarshalInfo BackupSnapshots multierror pgCluster b) (fun _ _ => True).
Proof.
  unfold reconcileWithCluster. change (match pgCluster with
    | Some c => deref (c_Unmanaged c) false | None => false end) with (unmanaged pgCluster).
  destruct (unmanaged pgCluster && _) eqn:Eu; [done|].
  assert (Hu : unmanaged pgCluster = false \/ isDeleting (b_Meta b) = true).
  { apply andb_false_iff in Eu as [?|?]; bool_to_prop; auto. }
  cbv zeta. change (match pgCluster with Some c => if isDeleting (c_Meta c) then None else Some c
    | None => None end) with (liveCluster pgCluster).
  rewrite wps_bindr. eapply wps_conseq.
  { instantiate (1 := fun _ r => match r with Ok b' => checked (liveCluster pgCluster) b b'
                                 | Err _ => True end).
    destruct (liveCluster pgCluster) eqn:El; [by left|]. rewrite <- El.
    eapply wps_mono; [| |by apply failWithoutCluster_safe]; [|done].
    intros h' o [Hs Ho]. split; [done|]. by left. }
  intros h1 [b'|e] Hc; [|done]. rewrite wps_bindr. eapply wps_conseq.
  { eapply wps_mono; [| |eapply wps_own, handleLease_wps]; [|done].
    intros h' o Ho. split; [done|]. right. exists b'. split; [done|]. exists h1. by left. }
  intros h2 [[|]|e] (hl & -> & Hl); cbn [negb]; [|done|done].
  assert (Hw : may_work (liveCluster pgCluster) b' (h1 ++ hl)).
  { destruct Hl as [?|Hl]; [by left|]. right. by exists h1, hl. }
  assert (Hm : b_Method b' = b_Method b) by by destruct Hc as [->|(_ & _ & msg & ->)].
  rewrite Hm. destruct (liveCluster pgCluster) as [c|] eqn:El.
  - case_bool_decide as Em.
    + eapply wps_mono; [| |eapply wps_own, snapshotsReconcile_safe]; [|done].
      intros h' o Ho. split; [done|]. right. rewrite El. exists b'. split; [done|].
      exists (h1 ++ hl). right. split; [done|]. by rewrite bool_decide_eq_true_2.
    + eapply wps_mono; [| |eapply wps_own, reconcilePgBackRest_safe]; [|done].
      intros h' o Ho. split; [done|]. right. rewrite El. exists b'. split; [done|].
      exists (h1 ++ hl). right. split; [done|]. by rewrite bool_decide_eq_false_2.
  - eapply wps_mono; [| |eapply wps_own, reconcilePgBackRest_safe]; [|done].
    intros h' o Ho. split; [done|]. right. rewrite El. exists b'. split; [done|].
    exists (h1 ++ hl). by right.
Qed.

(** C1: a reconcile of a backup, in every execution.  It reads the backup and
    its cluster.  For an unmanaged cluster nothing else happens unless the
    backup is being deleted; a backup under way whose cluster is gone or going
    is failed.  Then the lease is handled, and the backup itself is worked on
    only when it was granted the cluster's lease in this reconcile or needs
    none; volume snapshots are taken only in a live cluster, and every call is
    one that the state machine of the backup's method allows. *)
Theorem Reconcile_safe :
  wps reconcile_call [] (Reconcile unmarshalInfo BackupSnapshots multierror request) (fun _ _ => True).
Proof.
  unfold Reconcile. apply wps_call_bind. split; [by left|]. intros [b0|e]; [|done].
  cbv zeta. apply wps_call_bind. split.
  { right. exists b0. by left. }
  intros r. set (h := _ ++ _).
  assert (Hgo : forall pgCluster, cluster_answer pgCluster r ->
    wps reconcile_call h (reconcileWithCluster unmarshalInfo BackupSnapshots multierror
      pgCluster (Default b0)) (fun _ _ => True)).
  { intros pgCluster Ha. eapply wps_mono; [| |
      eapply (wps_invariant _ (fun h' => h `prefix_of` h')), reconcileWithCluster_safe]; [|done|done].
    intros h' o [Hp Ho]. right. exists b0. right. by exists r, pgCluster. }
  destruct r as [c|e]; [by apply Hgo|]. destruct (IsNotFound e) eqn:En; [|done]. by apply Hgo.
Qed.
End Whole.

(** ** What can go wrong *)
#[local] Existing Instance ConcreteRuntime.runtime.
#[local] Existing Instance ConcreteLabels.matching.
#[local] Existing Instance ListConditions.conditions.

Definition exampleInfo (s : string) : result InfoOutput := Err (New s).

(** The interfaces of the two theorems above can be met: the clause of the
    state machine for a running backup, with concrete ones. *)
Lemma pgbackrest_state_machine_witness :
  wps (pgbackrest_call (Some examplePGCluster) (exampleBackup "b1" BackupRunning None)) []
    (reconcilePgBackRest exampleInfo (Some examplePGCluster) (exampleBackup "b1" BackupRunning None))
    (fun _ _ => True).
Proof. exact (pgbackrest_state_machine exampleInfo (Some examplePGCluster) _). Defined.

Lemma Reconcile_safe_witness :
  wps (reconcile_call true ("default", "b1")) []
    (Reconcile exampleInfo true (fun _ => "") ("default", "b1")) (fun _ _ => True).
Proof. exact (Reconcile_safe exampleInfo true (fun _ => "") ("default", "b1")). Defined.

(** A volume snapshot backup that has succeeded and is at rest is marked as
    failed, for want of a repository it never needed, by the first reconcile
    after its cluster is gone: without a cluster its method is not looked
    at. *)
Theorem finished_snapshot_backup_fails_without_cluster `{LabelMatching, MetaConditions}
    (unmarshalInfo : string -> result InfoOutput) (BackupSnapshots : bool)
    (multierror : list error -> string) (request : key) (b : PerconaPGBackup) (e : error) :
  objectKey (b_Meta b) = request -> b_Method b = Some BackupMethodVolumeSnapshot ->
  b_State b = BackupSucceeded -> deref (b_RepoName b) "" = "" -> isDeleting (b_Meta b) = false ->
  IsStatusConditionPresentAndEqual (bs_Conditions (b_Status b)) ConditionBackupLeaseAcquired
    ConditionTrue = false ->
  IsNotFound e = true ->
  exists b' : PerconaPGBackup, b_State b' = BackupFailed /\
    exec (Reconcile unmarshalInfo BackupSnapshots multierror request)
      [got KBackup request (Ok b); got KPGCluster (request.1, b_PGCluster b) (Err e);
       got KBackup request (Ok b); statusWritten b' (Ok b')]
      (Err (New "'repoName' is required when method is 'pgbackrest'")).
Proof.
  intros <- Hm Hs Hr Hd Hc He. eexists (setStatus (fun s => s <| bs_State := BackupFailed |>
    <| bs_Error := "repoName is required when method is 'pgbackrest'" |>) b).
  split; [done|]. unfold Reconcile. apply exec_call_bind. cbv beta iota zeta.
  assert (HD : Default b = b) by (unfold Default; rewrite Hm; cbv beta iota zeta; rewrite Hm; reflexivity).
  rewrite HD. apply exec_call_bind. cbv beta iota zeta. rewrite He.
  unfold reconcileWithCluster, failWithoutCluster. cbn [andb]. rewrite Hs. cbn [bindr bind].
  unfold handleLease, releaseLeaseIfNeeded. rewrite Hs. cbn [IsTerminal orb andb].
  rewrite bool_decide_eq_true_2 by done. cbn [orb]. rewrite Hc. cbn [negb bindr bind].
  unfold reconcilePgBackRest. rewrite Hd, Hs. cbn. rewrite Hr. cbn.
  eexists _, _. split; [reflexivity|]. cbn. by eexists _, _.
Qed.

Lemma finished_snapshot_backup_fails_without_cluster_witness :
  let b := exampleSnapshotBackup BackupSucceeded in
  isDeleting (b_Meta b) = false /\
  exists b' : PerconaPGBackup, b_State b' = BackupFailed /\
    exec (Reconcile exampleInfo true (fun _ => "") ("default", "snap1"))
      [got KBackup ("default", "snap1") (Ok b);
       got KPGCluster ("default", "cluster1") (Err (ApiError NotFound));
       got KBackup ("default", "snap1") (Ok b); statusWritten b' (Ok b')]
      (Err (New "'repoName' is required when method is 'pgbackrest'")).
Proof.
  intros b. split; [reflexivity|].
  exact (finished_snapshot_backup_fails_without_cluster exampleInfo true (fun _ => "")
    ("default", "snap1") b (ApiError NotFound) eq_refl eq_refl eq_refl eq_refl eq_refl eq_refl eq_refl).
Defined.
