(* ===== verification/Restore.v ===== *)
(** * pgBackRest restores

    [PGBackRestRestore] of [percona/controller/pgrestore/utils]: how a restore
    with pgBackRest is started, watched and ended through the cluster
    object. *)
From S2P Require Import Prelude GoStrings Cluster Prog Errors Naming Objects Client.

Section Utils.
Context `{ControllerRuntime}.
Context (pgCluster : PerconaPGCluster) (pgRestore : PerconaPGRestore).

Definition emptySource : DataSource := mkSource "" "" "" [] None [] [].

(** The cluster [Start] writes. *)
Definition startedCluster : PerconaPGCluster :=
  let restore := default (mkRestoreSpec None (Some emptySource)) (bk_Restore (c_Backups pgCluster)) in
  let source := default emptySource (rs_Source restore) in
  let tolerations := match ds_Tolerations source with
                     | Some t => Some t
                     | None => match bk_JobTolerations (c_Backups pgCluster) with
                               | Some t => t
                               | None => None
                               end
                     end in
  let source := source <| ds_RepoName := deref (r_RepoName pgRestore) "" |> <| ds_Options := r_Options pgRestore |>
                  <| ds_Tolerations := tolerations |> <| ds_Env := r_Env pgRestore |>
                  <| ds_EnvFrom := r_EnvFrom pgRestore |> in
  pgCluster <| c_Meta ::= fun m => m <| om_Annotations ::= fun a =>
                 <[PGBackRestRestore := r_Name pgRestore]> a |> |>
            <| c_Backups ::= fun b => b <| bk_Restore := Some (mkRestoreSpec (Some true) (Some source)) |> |>.

Definition Start : action unit :=
  if bool_decide (om_Annotations (c_Meta pgCluster) !! PGBackRestRestore = Some (r_Name pgRestore))
  then Ret (Ok tt) else
  do! postgresCluster := call (Get KCrunchy (objectKey (c_Meta pgCluster))) or "get PostgresCluster" in
  let status := default (mkPGBackRestStatus None None None []) (cc_PGBackRest postgresCluster) in
  let postgresCluster' := postgresCluster <| cc_PGBackRest := Some (status
        <| ps_Restore := Some (mkJobStatus "" false 0 0 None None 0) |>) |> in
  do! _ := call (StatusPatch KCrunchy postgresCluster postgresCluster')
    or "patch PostgresCluster status failed trying to initialize PGBackRest restore status" in
  do! _ := call (Patch KPGCluster pgCluster startedCluster)
    or "patch PostgresCluster status failed trying to start restore" in
  Ret (Ok tt).

(** The cluster [DisableRestore] writes. *)
Definition disabledCluster : PerconaPGCluster :=
  let restore := default (mkRestoreSpec None (Some emptySource)) (bk_Restore (c_Backups pgCluster)) in
  pgCluster <| c_Meta ::= fun m => m <| om_Annotations ::= delete PGBackRestRestore |> |>
            <| c_Backups ::= fun b => b <| bk_Restore := Some (restore <| rs_Enabled := Some false |>) |> |>.

Definition DisableRestore : action unit :=
  if bool_decide (r_State pgRestore = RestoreSucceeded) || bool_decide (r_State pgRestore = RestoreFailed)
  then Ret (Ok tt) else
  do! _ := call (Patch KPGCluster pgCluster disabledCluster) or "patch PGCluster" in
  Ret (Ok tt).

(** What the restore status of a cluster says. *)
Definition observed (cluster : PerconaPGCluster) : PGRestoreState * option Z :=
  match c_RestoreStatus cluster with
  | None => (RestoreStarting, None)
  | Some restoreStatus =>
      if jst_Finished restoreStatus && bool_decide (0 < jst_Succeeded restoreStatus)%Z
      then (RestoreSucceeded, jst_CompletionTime restoreStatus)
      else if jst_Finished restoreStatus && bool_decide (0 < jst_Failed restoreStatus)%Z
      then (RestoreFailed, None)
      else (RestoreRunning, None)
  end.

Definition ObserveStatus : action (PGRestoreState * option Z) :=
  do! cluster := call (Get KPGCluster (objectKey (c_Meta pgCluster))) or "get PerconaPGCluster" in
  Ret (Ok (observed cluster)).
End Utils.
