(* ===== verification/SnapshotRestore.v ===== *)
(** * Restores of volume snapshots

    [percona/controller/pgrestore/snapshot]: the cluster's instances are
    suspended, their volumes are recreated from the snapshots of a backup and
    prepared by a job, pgBackRest may replay WAL, and the instances are
    resumed. *)
From S2P Require Import Prelude GoStrings Cluster Prog Errors Naming Objects Client Lease BackupUtils.
From S2P Require Import Psql Instances Snapshots Restore.

(** ** The job that prepares the volumes *)
Section PrepareJob.
Context (cluster : PerconaPGCluster).

(** A mount path is empty when the volume is not mounted. *)
Record instancePrepareInfo := mkPrepareInfo { dataMountPath : string; walMountPath : string }.

Definition instanceSetSpecForName (name : string) : option PGInstanceSetSpec :=
  List.find (fun s => bool_decide (set_Name s = name)) (c_InstanceSets cluster).

Definition named (instance : StatefulSet) : Named :=
  mkNamed (om_Namespace (st_Meta instance)) (om_Name (st_Meta instance)) "".

(** Volumes are pairs of a name and a claim, mounts of a name and a path. *)
Definition appendDataVolume (volumes mounts : list (string * string)) (instance : StatefulSet)
    (mountPath : string) : list (string * string) * list (string * string) :=
  let name := om_Name (st_Meta instance) +:+ "-pgdata" in
  (volumes ++ [(name, meta_Name (InstancePostgresDataVolume (named instance)))],
   mounts ++ [(name, mountPath)]).

Definition appendWALVolume (volumes mounts : list (string * string)) (instance : StatefulSet)
    (mountPath : string) : list (string * string) * list (string * string) :=
  let name := om_Name (st_Meta instance) +:+ "-pgwal" in
  (volumes ++ [(name, meta_Name (InstancePostgresWALVolume (named instance)))],
   mounts ++ [(name, mountPath)]).

(** One iteration of the loop of [buildPrepareJobVolumes]. *)
Definition addInstance (pitrEnabled : bool)
    (acc : list (string * string) * list (string * string) * list instancePrepareInfo)
    (instance : StatefulSet) :=
  let '(volumes, mounts, infos) := acc in
  let instanceSetSpec := instanceSetSpecForName (label (st_Meta instance) LabelInstanceSet) in
  let hasWALVolume := match instanceSetSpec with
                      | Some s => bool_decide (is_Some (set_WALVolume s))
                      | None => false
                      end in
  let needDataVolume := negb pitrEnabled || negb hasWALVolume in
  let name := om_Name (st_Meta instance) in
  let dataPath := if needDataVolume then path_Join ["/"; name; "pgdata"] else "" in
  let walPath := if hasWALVolume then path_Join ["/"; name; "pgwal"] else "" in
  let '(volumes, mounts) := if needDataVolume then appendDataVolume volumes mounts instance dataPath
                            else (volumes, mounts) in
  let '(volumes, mounts) := if hasWALVolume then appendWALVolume volumes mounts instance walPath
                            else (volumes, mounts) in
  (volumes, mounts, infos ++ [mkPrepareInfo dataPath walPath]).

Definition buildPrepareJobVolumes (instances : list StatefulSet) (pitrEnabled : bool) :=
  fold_left (addInstance pitrEnabled) instances ([], [], []).

(** The directory or file a line of the script works on. *)
Definition walDirOf (pgVersion : Z) (info : instancePrepareInfo) : string :=
  let walBase := if nonempty (walMountPath info) then walMountPath info else dataMountPath info in
  path_Join [walBase; "pg" +:+ pretty pgVersion +:+ "_wal"].

Definition signalFileOf (pgVersion : Z) (info : instancePrepareInfo) : string :=
  path_Join [path_Join [dataMountPath info; "pg" +:+ pretty pgVersion]; "skip-wal-recovery"].

Definition scriptPart (pgVersion : Z) (pitrEnabled : bool) (info : instancePrepareInfo) : string :=
  if pitrEnabled then "find " +:+ Quote (walDirOf pgVersion info) +:+ " -mindepth 1 -delete"
  else "touch " +:+ Quote (signalFileOf pgVersion info).

Definition buildPrepareJobScript (infos : list instancePrepareInfo) (pgVersion : Z)
    (pitrEnabled : bool) : string :=
  Join ("set -e" :: map (scriptPart pgVersion pitrEnabled) infos) (char newline).

(** The annotation of the pod, a constant, and the fixed resources of its
    container are left out. *)
Definition generatePrepareJob (job : Job) (instances : list StatefulSet) (restore : PerconaPGRestore) : Job :=
  let pitrEnabled := bool_decide (is_Some (r_RepoName restore)) &&
                     nonempty (r_VolumeSnapshotBackupName restore) in
  let '(volumes, mounts, infos) := buildPrepareJobVolumes instances pitrEnabled in
  let script := buildPrepareJobScript infos (c_PostgresVersion cluster) pitrEnabled in
  let tolerations := match bk_VolumeSnapshots (c_Backups cluster) with
                     | Some vs => vs_JobTolerations vs
                     | None => []
                     end in
  job <| j_Spec := Some (plainJobSpec (c_Image cluster) ["bash"; "-c"; script] volumes mounts tolerations []) |>.
End PrepareJob.

(** ** The reconciler *)
Section Restorer.
Context `{ControllerRuntime}.
(** [feature.Enabled(ctx, feature.BackupSnapshots)] *)
Context (BackupSnapshots : bool).
(** a time in the format [time.RFC3339] of the process's time zone *)
Context (RFC3339 : Z -> string).

(** [PerconaPGRestore.UpdateStatus] *)
Definition UpdateRestoreStatus (pgRestore : PerconaPGRestore)
    (updateFunc : PerconaPGRestore -> program PerconaPGRestore) : action unit :=
  RetryOnConflict (
    do! restore := call (Get KRestore (objectKey (r_Meta pgRestore))) or "get PGRestore" in
    let! restore := updateFunc restore in
    ignore (call (StatusUpdate KRestore restore))).

Definition setRestoreState (s : PGRestoreState) (r : PerconaPGRestore) : program PerconaPGRestore :=
  Ret (r <| r_State := s |>).

(** The loops over instances that ask a question of each: go on after a "no",
    stop at an error. *)
Fixpoint allOf {A} (f : A -> action bool) (msg : string) (l : list A) (acc : bool) : action bool :=
  match l with
  | [] => Ret (Ok acc)
  | x :: l => do! ok := f x or msg in allOf f msg l (acc && ok)
  end.

Section Reconciler.
Context (cluster : PerconaPGCluster) (backup : PerconaPGBackup) (restore : PerconaPGRestore).

Definition instancesSelector : ListSelector :=
  ByLabels (SetSelector {[LabelCluster := c_Name cluster; LabelData := DataPostgres]}).

Definition suspendAllInstances : action bool :=
  do! instances := call (ListAll KSts (c_Namespace cluster) instancesSelector) or "list instances" in
  allOf (fun i : StatefulSet => SuspendInstance (objectKey (st_Meta i))) "suspend instance" instances true.

Definition unsuspendAllInstances : action bool :=
  do! instances := call (ListAll KSts (c_Namespace cluster) instancesSelector) or "list instances" in
  allOf (fun i : StatefulSet => UnsuspendInstance (objectKey (st_Meta i))) "unsuspend instance" instances true.

(** *** Volumes *)
Inductive volumeContextInfo := VolumeData | VolumeWAL | VolumeTablespace (tablespaceName : string).

Definition pvcSpecFromDataSource (volCtxInfo : volumeContextInfo) (instanceSetName snapshotName : string)
    : result ClaimSpec :=
  match List.find (fun s => bool_decide (set_Name s = instanceSetName)) (c_InstanceSets cluster) with
  | None => Err (New "instance set not found")
  | Some instanceSetSpec =>
      let from (c : ClaimSpec) := c <| claim_Snapshot := Some snapshotName |> in
      match volCtxInfo with
      | VolumeData => Ok (from (set_DataVolume instanceSetSpec))
      | VolumeWAL => match set_WALVolume instanceSetSpec with
                     | Some c => Ok (from c)
                     | None => Err (New "volume spec not found in instance spec")
                     end
      | VolumeTablespace ts =>
          match List.find (fun t => bool_decide (t.1 = ts)) (set_Tablespaces instanceSetSpec) with
          | Some t => Ok (from t.2)
          | None => Err (New "tablespace not found")
          end
      end
  end.

Definition createPVCFromSnapshot (volCtxInfo : volumeContextInfo) (pvc : NamedMeta)
    (instance : StatefulSet) (snapshotName : string) : action unit :=
  let instanceSetName := label (st_Meta instance) LabelInstanceSet in
  if negb (nonempty instanceSetName) then Ret (Err (New "instance set name is not known")) else
  match pvcSpecFromDataSource volCtxInfo instanceSetName snapshotName with
  | Err e => Ret (Err (Wrap "get PVC spec from data source" e))
  | Ok spec =>
      let m := emptyMeta (meta_Name pvc) (meta_Namespace pvc)
                 <| om_Annotations := ({[AnnotationSnapshotRestore := r_Name restore]} : gmap string string) |> in
      do! _ := call (Create KPVC (mkPVC m spec "" false)) or "create PVC" in
      Ret (Ok tt)
  end.

Definition reconcileInstancePVC (volCtxInfo : volumeContextInfo) (pvc : NamedMeta)
    (instance : StatefulSet) (snapshotName : string) : action bool :=
  let! r := call (Get KPVC (AsObjectKey pvc)) in
  match r with
  | Err e =>
      if IsNotFound e then
        do! _ := createPVCFromSnapshot volCtxInfo pvc instance snapshotName
                 or "create PVC from data source" in
        Ret (Ok true)
      else Ret (Err (Wrap "get observed PVC" e))
  | Ok observedPVC =>
      if bool_decide (annotation (pvc_Meta observedPVC) AnnotationSnapshotRestore = r_Name restore)
      then Ret (Ok true)
      else if isDeleting (pvc_Meta observedPVC) then Ret (Ok false)
      else
        do! _ := call (Delete KPVC (objectKey (pvc_Meta observedPVC)) NoOptions) or "delete PVC" in
        Ret (Ok false)
  end.

Definition reconcileDataVolume (instance : StatefulSet) : action bool :=
  match bs_Snapshot (b_Status backup) with
  | Some s =>
      match snap_Data s with
      | Some snapshotName =>
          reconcileInstancePVC VolumeData (InstancePostgresDataVolume (named instance)) instance snapshotName
      | None => Ret (Err (New "data volume snapshot not known"))
      end
  | None => Ret (Err (New "data volume snapshot not known"))
  end.

Definition reconcileWALVolume (instance : StatefulSet) : action bool :=
  match bs_Snapshot (b_Status backup) with
  | Some s =>
      match snap_WAL s with
      | Some snapshotName =>
          reconcileInstancePVC VolumeWAL (InstancePostgresWALVolume (named instance)) instance snapshotName
      | None => Ret (Ok true)
      end
  | None => Ret (Ok true)
  end.

Definition reconcileTablespaceVolumes (instance : StatefulSet) : action bool :=
  match bs_Snapshot (b_Status backup) with
  | Some s =>
      if bool_decide (snap_Tablespaces s = ∅) then Ret (Ok true) else
      let! order := call (RangeOrder (keys (snap_Tablespaces s))) in
      allOf (fun tsName =>
          reconcileInstancePVC (VolumeTablespace tsName)
            (InstanceTablespaceDataVolume (named instance) tsName) instance
            (default "" (snap_Tablespaces s !! tsName)))
        "reconcile tablespace volume" (proj1_sig order) true
  | None => Ret (Ok true)
  end.

Definition reconcileInstance (instance : StatefulSet) : action bool :=
  do! dataOk := reconcileDataVolume instance or "reconcile data volume" in
  do! walOk := reconcileWALVolume instance or "reconcile WAL volume" in
  do! tablespaceOk := reconcileTablespaceVolumes instance or "reconcile tablespace volumes" in
  Ret (Ok (dataOk && walOk && tablespaceOk)).

Definition reconcileInstances (instances : list StatefulSet) : action bool :=
  allOf reconcileInstance "reconcile instance" instances true.

(** *** The job *)
Definition isPrepared : bool :=
  bool_decide (is_Some (om_Annotations (r_Meta restore) !! AnnotationPVCsPreparedAt)).

Definition runPrepareJob (instances : list StatefulSet) : action bool :=
  let jobKey := (c_Namespace cluster, r_Name restore +:+ "-prepare") in
  if isPrepared then
    let! r := call (Delete KJob jobKey Foreground) in
    Ret (match IgnoreNotFound (err_of r) with Some e => Err e | None => Ok true end)
  else
  let! r := call (Get KJob jobKey) in
  match r with
  | Err e =>
      if negb (IsNotFound e) then Ret (Err (Wrap "get prepare job" e)) else
      let job := generatePrepareJob cluster (mkJob (emptyMeta jobKey.2 jobKey.1) [] None 0 0 None None 0 None None "")
                   instances restore in
      match SetControllerReference (r_Meta restore) (j_Meta job) with
      | Err e => Ret (Err (Wrap "set controller reference" e))
      | Ok m =>
          do! _ := call (Create KJob (job <| j_Meta := m |>)) or "create prepare job" in
          Ret (Ok false)
      end
  | Ok job =>
      if bool_decide (is_Some (j_CompletionTime job)) && bool_decide (0 < j_Succeeded job)%Z
      then Ret (Ok true)
      else if bool_decide (0 < j_Failed job)%Z then
        do! _ := UpdateRestoreStatus restore (setRestoreState RestoreFailed) or "update restore status" in
        Ret (Ok true)
      else Ret (Ok false)
  end.

(** The local object gets the annotation, which nothing reads afterwards in
    the same reconcile. *)
Definition reconcilePrepareJobAnnotation : action unit :=
  if isPrepared then Ret (Ok tt) else
  let! now := call Now in
  do! _ := call (Patch KRestore restore (restore <| r_Meta ::= fun m => m <| om_Annotations ::= fun a =>
              <[AnnotationPVCsPreparedAt := RFC3339 now]> a |> |>)) or "patch restore annotations" in
  Ret (Ok tt).

(** *** The replay of WAL *)
Definition restorePITR : action bool :=
  match r_RepoName restore with
  | None => Ret (Ok true)
  | Some _ =>
      do! (status, _) := ObserveStatus cluster or "observe PITR status" in
      match status with
      | RestoreStarting => do! _ := Start cluster restore in Ret (Ok false)
      | RestoreSucceeded => do! _ := DisableRestore cluster restore in Ret (Ok true)
      | RestoreFailed =>
          do! _ := UpdateRestoreStatus restore (setRestoreState RestoreFailed) or "update restore status" in
          Ret (Ok true)
      | _ => Ret (Ok false)
      end
  end.

Definition reconcileLeaderEndpoints : action unit :=
  let postgresCluster := namedCluster (c_Namespace cluster) (c_Name cluster) in
  let leader := AsObjectKey (PatroniLeaderEndpoints postgresCluster) in
  let! r := call (Get KEndpoints leader) in
  match r with
  | Err e => Ret (match IgnoreNotFound (Some e) with Some e => Err e | None => Ok tt end)
  | Ok leaderEp =>
      match ep_Subsets leaderEp with
      | _ :: _ => Ret (Ok tt)
      | [] =>
          let! r := call (Delete KEndpoints leader NoOptions) in
          match IgnoreNotFound (err_of r) with
          | Some e => Ret (Err (Wrap "delete leader endpoints" e))
          | None => Ret (Ok tt)
          end
      end
  end.

(** *** Finalizers *)
Definition ensureFinalizers : action unit :=
  let '(fs, changed) := AddFinalizer (om_Finalizers (r_Meta restore)) FinalizerSnapshotRestore in
  if negb changed then Ret (Ok tt) else
  do! _ := call (Patch KRestore restore (restore <| r_Meta ::= fun m => m <| om_Finalizers := fs |> |>))
           or "patch finalizers" in
  Ret (Ok tt).

Definition rmScript : string :=
  "rm -f " +:+ char dquote +:+ "${PGDATA}/skip-wal-recovery" +:+ char dquote.

Fixpoint cleanPods (pods : list Pod) : action unit :=
  match pods with
  | [] => Ret (Ok tt)
  | pod :: pods =>
      let! out := call (Exec (c_Namespace cluster, om_Name (p_Meta pod)) ContainerDatabase None
                          ["sh"; "-c"; rmScript]) in
      match out_Err out with Some e => Ret (Err e) | None => cleanPods pods end
  end.

Definition cleanupSkipRecoveryFile : action unit :=
  match r_RepoName restore with
  | Some _ => Ret (Ok tt)
  | None =>
      do! pods := call (ListAll KPod (c_Namespace cluster) instancesSelector) or "list pods" in
      cleanPods pods
  end.

Definition finalizeSnapshotRestore : action unit :=
  do! done_ := unsuspendAllInstances or "resume cluster" in
  if negb done_ then Ret (Err ErrFinalizerPending) else
  do! _ := cleanupSkipRecoveryFile or "cleanup" in
  Ret (Ok tt).

Definition runFinalizers : action bool :=
  let! (_, r) := RunFinalizer (k := KRestore) restore FinalizerSnapshotRestore
                   (fun _ => finalizeSnapshotRestore) in
  match r with
  | Ok done_ => Ret (Ok done_)
  | Err e => Ret (Err (Wrap ("run finalizer " +:+ FinalizerSnapshotRestore) e))
  end.

(** *** The states *)
Definition reconcileNew : action Result :=
  let other (r : PerconaPGRestore) :=
    bool_decide (r_PGCluster r = c_Name cluster) && negb (IsCompleted r) &&
    negb (bool_decide (r_Name r = r_Name restore)) in
  match bk_Restore (c_Backups cluster) with
  | Some (mkRestoreSpec (Some true) _) => Ret (Ok 5%Z)
  | _ =>
      do! restores := call (ListAll KRestore (c_Namespace cluster) Everything) or "list restores" in
      if existsb other restores then Ret (Ok 5%Z) else
      do! _ := UpdateRestoreStatus restore (setRestoreState RestoreStarting) or "update restore status" in
      Ret (Ok 0%Z)
  end.

Definition reconcileStarting : action Result :=
  do! ok := suspendAllInstances or "shutdown cluster" in
  if negb ok then Ret (Ok 5%Z) else
  do! _ := ensureFinalizers or "ensure finalizers" in
  do! _ := UpdateRestoreStatus restore (setRestoreState RestoreRunning) or "update restore status" in
  Ret (Ok 0%Z).

(** The part of [reconcileRunning] after the volumes have been prepared. *)
Definition finishRestore : action Result :=
  do! ok := restorePITR or "restore PITR" in
  if negb ok then Ret (Ok 5%Z) else
  do! _ := reconcileLeaderEndpoints or "reconcile leader endpoints" in
  do! ok := unsuspendAllInstances or "resume cluster" in
  if negb ok then Ret (Ok 5%Z) else
  do! _ := UpdateRestoreStatus restore (fun r =>
             let! now := call Now in
             Ret (r <| r_State := RestoreSucceeded |> <| r_CompletedAt := Some now |>))
           or "update restore status" in
  Ret (Ok 0%Z).

Definition reconcileRunning : action Result :=
  do! instances := call (ListAll KSts (c_Namespace cluster) instancesSelector) or "list instances" in
  do! ok := reconcileInstances instances or "reconcile instances" in
  if negb ok then Ret (Ok 5%Z) else
  do! ok := runPrepareJob instances or "run prepare job" in
  if negb ok then Ret (Ok 5%Z) else
  do! _ := reconcilePrepareJobAnnotation or "reconcile prepare job annotation" in
  finishRestore.

Definition finalized : action Result :=
  do! ok := runFinalizers or "run finalizers" in
  Ret (Ok (if ok then 0 else 5)%Z).

Definition reconcile : action Result :=
  if isDeleting (r_Meta restore) then finalized else
  match r_State restore with
  | RestoreNew => reconcileNew
  | RestoreStarting => reconcileStarting
  | RestoreRunning => reconcileRunning
  | RestoreSucceeded | RestoreFailed => finalized
  | RestoreOtherState _ => Ret (Ok 0%Z)
  end.
End Reconciler.

(** [Reconcile] *)
Definition snapshotRestoreReconcile (pg : PerconaPGCluster) (restore : PerconaPGRestore) : action Result :=
  if negb BackupSnapshots then Ret (Ok 0%Z) else
  do! backup := call (Get KBackup (c_Namespace pg, r_VolumeSnapshotBackupName restore)) or "get backup" in
  reconcile pg backup restore.
End Restorer.

(** ** Specification *)
Section Spec.
Context `{ControllerRuntime}.
Context (RFC3339 : Z -> string).
Context (cluster : PerconaPGCluster) (backup : PerconaPGBackup) (restore : PerconaPGRestore).

Definition instances_listed (h : history) (l : list StatefulSet) : Prop :=
  (Ev (ListAll KSts (c_Namespace cluster) (instancesSelector cluster) : op)
      (Ok l : result (list StatefulSet))) ∈ h.

Definition instanceKeyOf (i : StatefulSet) : key := objectKey (st_Meta i).

(** Every instance of some listing has the property. *)
Definition all_instances (P : StatefulSet -> history -> Prop) (h : history) : Prop :=
  exists l, instances_listed h l /\ forall i, i ∈ l -> P i h.

Definition all_suspended : history -> Prop := all_instances (fun i => seen_suspended (instanceKeyOf i)).
Definition all_resumed : history -> Prop := all_instances (fun i => seen_running (instanceKeyOf i)).

(** The claims of an instance that the backup has a snapshot for. *)
Definition volumeOf (i : StatefulSet) (pvc : key) (snapshot : string) : Prop :=
  exists s, bs_Snapshot (b_Status backup) = Some s /\
    ((snap_Data s = Some snapshot /\ pvc = AsObjectKey (InstancePostgresDataVolume (named i))) \/
     (snap_WAL s = Some snapshot /\ pvc = AsObjectKey (InstancePostgresWALVolume (named i))) \/
     exists ts, snap_Tablespaces s !! ts = Some snapshot /\
       pvc = AsObjectKey (InstanceTablespaceDataVolume (named i) ts)).

Definition marked (m : ObjectMeta) : Prop := annotation m AnnotationSnapshotRestore = r_Name restore.

(** A claim of this restore: read as marked, or created, marked, from the
    snapshot. *)
Definition volume_restored (pvc : key) (snapshot : string) (h : history) : Prop :=
  (exists p : PVC, read h KPVC pvc p /\ marked (pvc_Meta p)) \/
  (exists p r : PVC, (Ev (Create KPVC p : op) (Ok r : result PVC)) ∈ h /\
     objectKey (pvc_Meta p) = pvc /\ marked (pvc_Meta p) /\ claim_Snapshot (pvc_Spec p) = Some snapshot).

Definition instance_restored (i : StatefulSet) (h : history) : Prop :=
  is_Some (bs_Snapshot (b_Status backup) ≫= snap_Data) /\
  forall pvc snapshot, volumeOf i pvc snapshot -> volume_restored pvc snapshot h.

Definition all_restored : history -> Prop := all_instances instance_restored.

Definition prepareKey : key := (c_Namespace cluster, r_Name restore +:+ "-prepare").

(** The volumes have been prepared, or the job that should have has failed. *)
Definition job_succeeded (h : history) : Prop :=
  exists job, read h KJob prepareKey job /\ is_Some (j_CompletionTime job) /\ (0 < j_Succeeded job)%Z.
Definition job_failed (h : history) : Prop :=
  exists job, read h KJob prepareKey job /\ (0 < j_Failed job)%Z.
Definition job_over (h : history) : Prop :=
  isPrepared restore = true \/ job_succeeded h \/ job_failed h.

(** What the cluster says of the replay of WAL. *)
Definition pitr_is (s : PGRestoreState) (h : history) : Prop :=
  is_Some (r_RepoName restore) /\
  exists c, read h KPGCluster (objectKey (c_Meta cluster)) c /\ (observed c).1 = s.
Definition pitr_over (h : history) : Prop :=
  r_RepoName restore = None \/ pitr_is RestoreSucceeded h \/ pitr_is RestoreFailed h.

(** The transitions of the state. *)
Definition snap_restore_transition (h : history) (s : PGRestoreState) : Prop :=
  match r_State restore, s with
  | RestoreNew, RestoreStarting =>
      (forall source, bk_Restore (c_Backups cluster) <> Some (mkRestoreSpec (Some true) source)) /\
      exists l, (Ev (ListAll KRestore (c_Namespace cluster) Everything : op)
                    (Ok l : result (list PerconaPGRestore))) ∈ h /\
        forall r, r ∈ l -> r_PGCluster r = c_Name cluster -> r_Name r <> r_Name restore -> IsCompleted r = true
  | RestoreStarting, RestoreRunning => all_suspended h
  | RestoreRunning, RestoreFailed => all_restored h /\ (job_failed h \/ job_over h /\ pitr_is RestoreFailed h)
  | RestoreRunning, RestoreSucceeded => all_restored h /\ job_over h /\ pitr_over h /\ all_resumed h
  | _, _ => False
  end.

Definition running : Prop := isDeleting (r_Meta restore) = false /\ r_State restore = RestoreRunning.

Definition hasRestoreFinalizer (r : PerconaPGRestore) : Prop :=
  FinalizerSnapshotRestore ∈ om_Finalizers (r_Meta r).

(** The calls of a reconcile. *)
Definition snap_restore_call (h : history) (o : op) : Prop :=
  match o with
  | Get _ _ | ListAll _ _ _ | Now | RangeOrder _ => True
  | Patch KSts _ _ => exists l i on, instances_listed h l /\ i ∈ l /\
      suspension_patch (instanceKeyOf i) on h o /\
      if on then isDeleting (r_Meta restore) = false /\ r_State restore = RestoreStarting
      else isDeleting (r_Meta restore) = true \/ IsCompleted restore = true \/
           (running /\ all_restored h /\ job_over h /\ pitr_over h)
  | Delete KPVC at_ _ => running /\ exists l i pvc snapshot p, instances_listed h l /\ i ∈ l /\
      volumeOf i pvc snapshot /\ read h KPVC pvc p /\ at_ = objectKey (pvc_Meta p) /\
      ~ marked (pvc_Meta p) /\ isDeleting (pvc_Meta p) = false
  | Create KPVC p => running /\ exists l i snapshot e, instances_listed h l /\ i ∈ l /\
      volumeOf i (objectKey (pvc_Meta p)) snapshot /\ marked (pvc_Meta p) /\
      claim_Snapshot (pvc_Spec p) = Some snapshot /\
      got KPVC (objectKey (pvc_Meta p)) (Err e) ∈ h /\ IsNotFound e = true
  | Create KJob j => running /\ all_restored h /\ objectKey (j_Meta j) = prepareKey /\
      om_Controller (j_Meta j) = Some (om_UID (r_Meta restore)) /\ isPrepared restore = false
  | Delete KJob at_ _ => running /\ at_ = prepareKey /\ isPrepared restore = true
  | Patch KRestore r1 r2 => r_State r2 = r_State r1 /\ r_CompletedAt r2 = r_CompletedAt r1 /\
      (hasRestoreFinalizer r2 -> hasRestoreFinalizer r1 \/ all_suspended h) /\
      (hasRestoreFinalizer r1 -> hasRestoreFinalizer r2 \/ all_resumed h) /\
      (isPrepared r2 = true -> isPrepared r1 = true \/ (all_restored h /\ job_over h))
  | StatusUpdate KRestore r => exists r0, read h KRestore (objectKey (r_Meta restore)) r0 /\
      r_Meta r = r_Meta r0 /\ isDeleting (r_Meta restore) = false /\ snap_restore_transition h (r_State r)
  | StatusPatch KCrunchy _ _ =>
      running /\ all_restored h /\ job_over h /\ pitr_is RestoreStarting h
  | Patch KPGCluster c1 c2 => running /\ all_restored h /\ job_over h /\ c1 = cluster /\
      ((pitr_is RestoreStarting h /\ c2 = startedCluster cluster restore) \/
       (pitr_is RestoreSucceeded h /\ c2 = disabledCluster cluster))
  | Delete KEndpoints at_ _ => running /\ all_restored h /\ job_over h /\ pitr_over h /\
      exists ep, read h KEndpoints at_ ep /\ ep_Subsets ep = []
  | Exec _ container _ command => all_resumed h /\ r_RepoName restore = None /\
      container = ContainerDatabase /\ command = ["sh"; "-c"; rmScript]
  | _ => False
  end.

Abbreviation safe := (wps snap_restore_call).

#[local] Instance all_instances_grows P : (forall i, Grows (P i)) -> Grows (all_instances P).
Proof. intros HP. unfold all_instances, instances_listed. apply _. Qed.
#[local] Instance seen_running_grows k : Grows (seen_running k).
Proof. unfold seen_running. apply _. Qed.
#[local] Instance seen_suspended_grows k : Grows (seen_suspended k).
Proof. unfold seen_suspended. apply _. Qed.
#[local] Instance volume_restored_grows pvc s : Grows (volume_restored pvc s).
Proof. unfold volume_restored. apply _. Qed.
#[local] Instance instance_restored_grows i : Grows (instance_restored i).
Proof. unfold instance_restored. apply _. Qed.
#[local] Instance all_restored_grows : Grows all_restored.
Proof. unfold all_restored. apply _. Qed.
#[local] Instance job_over_grows : Grows job_over.
Proof. unfold job_over, job_succeeded, job_failed. apply _. Qed.
#[local] Instance pitr_is_grows s : Grows (pitr_is s).
Proof. unfold pitr_is. apply _. Qed.
#[local] Instance pitr_over_grows : Grows pitr_over.
Proof. unfold pitr_over. apply _. Qed.

(** A loop that asks every element stops or has asked all. *)
Lemma allOf_wps {A} (f : A -> action bool) msg (P : A -> history -> Prop) l acc h G :
  (forall x, Grows (P x)) ->
  (forall x h', x ∈ l -> h `prefix_of` h' ->
     wps G h' (f x) (fun h2 r => match r with Ok true => P x h2 | _ => True end)) ->
  wps G h (allOf f msg l acc) (fun h2 r =>
    h `prefix_of` h2 /\
    match r with Ok true => acc = true /\ forall x, x ∈ l -> P x h2 | _ => True end).
Proof.
  intros HP. revert acc h. induction l as [|x l IH]; intros acc h Hf.
  - simpl. split; [done|]. destruct acc; [|done]. split; [done|]. by intros x ?%not_elem_of_nil.
  - cbn [allOf]. rewrite wps_bindr. eapply wps_conseq.
    { apply wps_prefix, Hf; [by left|done]. }
    intros h1 [ok|e] [Hp Hx]; [|done]. eapply wps_conseq.
    { apply IH. intros y h' Hy Hp'. apply Hf; [by right|by transitivity h1]. }
    intros h2 [[|]|e] [Hp2 Hr]; (split; [by transitivity h1|]); [|done..].
    destruct Hr as [Hacc Hl]. apply andb_true_iff in Hacc as [-> ->]. split; [done|].
    intros y [->|Hy]%elem_of_cons; [by eapply grows|by apply Hl].
Qed.

Lemma UpdateRestoreStatus_safe f h :
  isDeleting (r_Meta restore) = false ->
  (forall h' r0, h `prefix_of` h' ->
     safe h' (f r0) (fun h2 r => h' `prefix_of` h2 /\ r_Meta r = r_Meta r0 /\
       snap_restore_transition h2 (r_State r))) ->
  safe h (UpdateRestoreStatus restore f) (fun h' _ => h `prefix_of` h').
Proof.
  intros Hd Hf. eapply wps_conseq; [apply wps_prefix|by intros h' r [Hp _]].
  instantiate (1 := fun _ _ => True). unfold UpdateRestoreStatus. apply RetryOnConflict_prefix.
  intros h' Hp. apply wps_get_bindr. split; [done|]. intros [r0|e]; [|done].
  rewrite wps_bind. eapply wps_conseq.
  { apply Hf. etransitivity; [done|]. by apply prefix_app_r. }
  intros h2 r (Hp2 & Hm & Ht). rewrite wps_ignore. split; [|done]. exists r0. split_and!; try done.
  eapply elem_of_grow; [apply elem_of_snoc|done].
Qed.

Lemma setRestoreState_safe s h :
  isDeleting (r_Meta restore) = false ->
  (forall h', h `prefix_of` h' -> snap_restore_transition h' s) ->
  safe h (UpdateRestoreStatus restore (setRestoreState s)) (fun h' _ => h `prefix_of` h').
Proof.
  intros Hd Ht. apply UpdateRestoreStatus_safe; [done|]. intros h' r0 Hp. simpl.
  split_and!; [done..|by apply Ht].
Qed.

(** *** Instances *)

(** The calls on one listed instance. *)
Lemma instance_calls {A} i (on : bool) l h (p : program A) Q :
  instances_listed h l -> i ∈ l ->
  (forall h', h `prefix_of` h' ->
     if on then isDeleting (r_Meta restore) = false /\ r_State restore = RestoreStarting
     else isDeleting (r_Meta restore) = true \/ IsCompleted restore = true \/
          (running /\ all_restored h' /\ job_over h' /\ pitr_over h')) ->
  wps (fun h o => o = Get KSts (instanceKeyOf i) \/ suspension_patch (instanceKeyOf i) on h o) h p Q ->
  safe h p Q.
Proof.
  intros Hl Hi Hs Hp.
  pose proof (wps_invariant _ (fun h' => h `prefix_of` h') h p Q (fun _ Hpre => Hpre) Hp) as Hp'.
  eapply wps_mono; [|intros ? ? HQ; exact HQ|exact Hp']. clear Hp Hp'.
  intros h' o [Hpre [->|Ho]]; [done|].
  case_op o.
  exists l, i, on. split_and!; [by eapply elem_of_grow|done..|]. by apply Hs.
Qed.

Lemma suspendAll_safe h :
  isDeleting (r_Meta restore) = false -> r_State restore = RestoreStarting ->
  safe h (suspendAllInstances cluster) (fun h' r => h `prefix_of` h' /\
    match r with Ok true => all_suspended h' | _ => True end).
Proof.
  intros Hd Hs. apply wps_prefix. unfold suspendAllInstances. apply wps_list_bindr. split; [done|].
  intros [l|e]; [|done]. set (h1 := h ++ _).
  assert (Hl : instances_listed h1 l) by apply elem_of_snoc.
  eapply wps_conseq.
  { apply (allOf_wps _ _ (fun i => seen_suspended (instanceKeyOf i))); [apply _|].
    intros i h' Hi Hp. apply (instance_calls i true l); [by eapply elem_of_grow|done..|].
    apply SuspendInstance_wps; [by left|by right]. }
  intros h2 [[|]|e] [Hp Hr]; [|done..]. exists l. split; [by eapply elem_of_grow|]. by apply Hr.
Qed.

Lemma unsuspendAll_safe h :
  (forall h', h `prefix_of` h' ->
     isDeleting (r_Meta restore) = true \/ IsCompleted restore = true \/
     (running /\ all_restored h' /\ job_over h' /\ pitr_over h')) ->
  safe h (unsuspendAllInstances cluster) (fun h' r => h `prefix_of` h' /\
    match r with Ok true => all_resumed h' | _ => True end).
Proof.
  intros Hs. apply wps_prefix. unfold unsuspendAllInstances. apply wps_list_bindr. split; [done|].
  intros [l|e]; [|done]. set (h1 := h ++ _).
  assert (Hl : instances_listed h1 l) by apply elem_of_snoc.
  eapply wps_conseq.
  { apply (allOf_wps _ _ (fun i => seen_running (instanceKeyOf i))); [apply _|].
    intros i h' Hi Hp. apply (instance_calls i false l); [by eapply elem_of_grow|done| |].
    - intros h2 Hp2. apply Hs. transitivity h'; [|done]. transitivity h1; [|done].
      by apply prefix_app_r.
    - apply UnsuspendInstance_wps; [by left|by right]. }
  intros h2 [[|]|e] [Hp Hr]; [|done..]. exists l. split; [by eapply elem_of_grow|]. by apply Hr.
Qed.

(** *** Volumes *)
Section Volumes.
Context (Hrun : running).

Lemma createPVC_safe ctx pvc i l snapshot h e :
  instances_listed h l -> i ∈ l -> volumeOf i (AsObjectKey pvc) snapshot ->
  got KPVC (AsObjectKey pvc) (Err e) ∈ h -> IsNotFound e = true ->
  safe h (createPVCFromSnapshot cluster restore ctx pvc i snapshot) (fun h' r =>
    match r with Ok _ => volume_restored (AsObjectKey pvc) snapshot h' | Err _ => True end).
Proof.
  intros Hl Hi Hv Hgot He. unfold createPVCFromSnapshot. case_match; [done|].
  destruct (pvcSpecFromDataSource _ _ _ _) as [spec|e'] eqn:Es; [|done].
  assert (Hspec : claim_Snapshot spec = Some snapshot).
  { unfold pvcSpecFromDataSource in Es. repeat case_hyp Es; by simplify_eq. }
  cbv zeta. apply wps_call_bind.
  assert (Hm : forall m : ObjectMeta, annotation (m <| om_Annotations := ({[AnnotationSnapshotRestore := r_Name restore]}
    : gmap string string) |>) AnnotationSnapshotRestore = r_Name restore).
  { intros m. unfold annotation. simpl. by rewrite lookup_singleton. }
  split.
  - split; [done|]. exists l, i, snapshot, e. split_and!; try done; apply Hm.
  - intros [p'|e']; [|done]. right. eexists _, p'. split; [apply elem_of_snoc|].
    split_and!; try done; apply Hm.
Qed.

Lemma reconcileInstancePVC_safe ctx pvc i l snapshot h :
  instances_listed h l -> i ∈ l -> volumeOf i (AsObjectKey pvc) snapshot ->
  safe h (reconcileInstancePVC cluster restore ctx pvc i snapshot) (fun h' r =>
    match r with Ok true => volume_restored (AsObjectKey pvc) snapshot h' | _ => True end).
Proof.
  intros Hl Hi Hv. unfold reconcileInstancePVC. apply wps_call_bind. split; [done|].
  intros [p|e]; cbv beta iota.
  - case_bool_decide as Em.
    + left. exists p. split; [apply elem_of_snoc|done].
    + destruct (isDeleting (pvc_Meta p)) eqn:Ed; [done|]. apply wps_call_bind. split.
      * split; [done|]. exists l, i, (AsObjectKey pvc), snapshot, p.
        split_and!; try done; [by eapply elem_of_grow; [|by apply prefix_app_r]|apply elem_of_snoc].
      * by intros [?|?].
  - destruct (IsNotFound e) eqn:En; [|done]. rewrite wps_bindr. eapply wps_conseq.
    { eapply createPVC_safe; [|done..|apply elem_of_snoc|done].
      by eapply elem_of_grow; [|by apply prefix_app_r]. }
    by intros h' [[]|e'] Hr.
Qed.

Lemma reconcileInstance_safe i l h :
  instances_listed h l -> i ∈ l ->
  safe h (reconcileInstance cluster backup restore i) (fun h' r =>
    match r with Ok true => instance_restored i h' | _ => True end).
Proof.
  intros Hl Hi. unfold reconcileInstance, reconcileDataVolume, reconcileWALVolume,
    reconcileTablespaceVolumes, instance_restored, volumeOf.
  destruct (bs_Snapshot (b_Status backup)) as [s|] eqn:Es; [|done].
  destruct (snap_Data s) as [d|] eqn:Ed; [|done]. rewrite wps_bindr. eapply wps_conseq.
  { apply wps_prefix, (reconcileInstancePVC_safe _ _ i l); [done..|]. exists s. auto. }
  intros h1 [dataOk|e] [Hp1 Hd1]; [|done]. rewrite wps_bindr. eapply wps_conseq.
  { instantiate (1 := fun h2 r => h1 `prefix_of` h2 /\ match r with
      | Ok true => forall w, snap_WAL s = Some w ->
          volume_restored (AsObjectKey (InstancePostgresWALVolume (named i))) w h2
      | _ => True end).
    destruct (snap_WAL s) as [w|] eqn:Ew; [|by split].
    eapply wps_conseq; [apply wps_prefix, (reconcileInstancePVC_safe _ _ i l)|].
    - by eapply elem_of_grow.
    - done.
    - exists s. auto.
    - intros h2 [[|]|e] [Hp Hr]; (split; [done|]); [|done..]. by intros w' [= <-]. }
  intros h2 [walOk|e] [Hp2 Hw]; [|done]. rewrite wps_bindr. eapply wps_conseq.
  { instantiate (1 := fun h3 r => h2 `prefix_of` h3 /\ match r with
      | Ok true => forall ts t, snap_Tablespaces s !! ts = Some t ->
          volume_restored (AsObjectKey (InstanceTablespaceDataVolume (named i) ts)) t h3
      | _ => True end).
    case_bool_decide as Et. { split; [done|]. rewrite Et. by intros ts t ?%lookup_empty_Some. }
    apply wps_call_bind. split; [done|]. intros [order Ho]. eapply wps_conseq.
    - apply (allOf_wps _ _ (fun ts h' => forall t, snap_Tablespaces s !! ts = Some t ->
        volume_restored (AsObjectKey (InstanceTablespaceDataVolume (named i) ts)) t h')); [apply _|].
      intros ts h' Hts Hp. assert (is_Some (snap_Tablespaces s !! ts)) as [t Et'].
      { simpl in Hts. rewrite Ho in Hts. by apply elem_of_keys. }
      rewrite Et'. eapply wps_conseq; [apply (reconcileInstancePVC_safe _ _ i l)|].
      + eapply elem_of_grow; [exact Hl|]. transitivity h1; [done|]. transitivity h2; [done|].
        etransitivity; [|done]. by apply prefix_app_r.
      + done.
      + exists s. eauto 6.
      + intros h3 [[|]|e] Hr; [|done..]. by intros t' [= <-].
    - intros h3 [[|]|e] [Hp Hr]; (split; [etransitivity; [|done]; by apply prefix_app_r|]); [|done..].
      intros ts t Ht. apply Hr; [|done]. simpl. rewrite Ho. by apply elem_of_keys; exists t. }
  intros h3 [tsOk|e] [Hp3 Ht]; [|done]. simpl. destruct dataOk, walOk, tsOk; try done.
  split; [exists d; exact Ed|].
  intros pvc snap (s' & [= <-] & [[E ->]|[[E ->]|(ts & E & ->)]]).
  - rewrite Ed in E. simplify_eq. eapply grows; [exact Hd1|]. by transitivity h2.
  - eapply grows; [by apply Hw|done].
  - by apply Ht.
Qed.
End Volumes.

(** *** The steps of a running restore *)
Section Running.
Context (Hrun : running).

Lemma runPrepareJob_safe l h :
  all_restored h ->
  safe h (runPrepareJob cluster restore l) (fun h' r => h `prefix_of` h' /\
    match r with Ok true => job_over h' | _ => True end).
Proof.
  intros Hr. apply wps_prefix. unfold runPrepareJob. destruct (isPrepared restore) eqn:Ep.
  - apply wps_call_bind. split; [done|]. intros r. cbn [wps].
    destruct (IgnoreNotFound (err_of r)); [done|by left].
  - apply wps_call_bind. split; [done|]. intros [job|e].
    + set (h1 := h ++ _). assert (Hj : read h1 KJob prepareKey job) by apply elem_of_snoc.
      destruct (_ && _) eqn:Ec.
      { right. left. exists job. bool_to_prop. done. }
      clear Ec. case_bool_decide as Ef; [|done]. rewrite wps_bindr.
      assert (Hjf : job_failed h1) by (exists job; done). eapply wps_conseq.
      { apply setRestoreState_safe; [apply Hrun|]. intros h' Hp. unfold snap_restore_transition.
        rewrite (proj2 Hrun). split.
        - eapply grows; [exact Hr|]. etransitivity; [|done]. by apply prefix_app_r.
        - left. destruct Hjf as (j & ? & ?). exists j. split; [by eapply elem_of_grow|done]. }
      intros h' [[]|e] Hp; [|done]. right. right.
      destruct Hjf as (j & ? & ?). exists j. split; [by eapply elem_of_grow|done].
    + destruct (IsNotFound e); cbn [negb]; [|done]. cbv zeta.
      destruct (SetControllerReference _ _) as [m|e'] eqn:Es; [|done].
      apply wps_call_bind. split; [|by intros [?|?]].
      assert (Hg : forall inst, j_Meta (generatePrepareJob cluster (mkJob (emptyMeta prepareKey.2
        prepareKey.1) [] None 0 0 None None 0 None None "") inst restore) = emptyMeta prepareKey.2 prepareKey.1).
      { intros inst. unfold generatePrepareJob. by destruct (buildPrepareJobVolumes _ _ _) as [[? ?] ?]. }
      apply SetControllerReference_spec in Es. subst m. simpl in *. rewrite Hg.
      split_and!; try done; try apply Hrun.
      eapply grows; [exact Hr|]. by apply prefix_app_r.
Qed.

Lemma reconcilePrepareJobAnnotation_safe h :
  all_restored h -> job_over h ->
  safe h (reconcilePrepareJobAnnotation RFC3339 restore) (fun h' _ => h `prefix_of` h').
Proof.
  intros Hr Hj. eapply wps_conseq; [apply wps_prefix|by intros h' r [Hp _]].
  instantiate (1 := fun _ _ => True). unfold reconcilePrepareJobAnnotation. case_match; [done|].
  apply wps_call_bind. split; [done|]. intros now. apply wps_call_bind. split; [|by intros [?|?]].
  split_and!; try done; try by left. intros _. right.
  split; (eapply grows; [done|]; by apply prefix_app_r).
Qed.

Lemma Start_safe h :
  all_restored h -> job_over h -> pitr_is RestoreStarting h ->
  safe h (Start cluster restore) (fun _ _ => True).
Proof.
  intros Hr Hj Hp. unfold Start. case_match; [done|]. apply wps_get_bindr. split; [done|].
  intros [cc|e]; [|done]. cbv zeta. apply wps_call_bind.
  assert (Hs : forall h', h `prefix_of` h' -> all_restored h' /\ job_over h' /\ pitr_is RestoreStarting h')
    by (intros h' Hpre; split_and!; by eapply grows).
  split; [split; [done|]; apply Hs; by apply prefix_app_r|]. intros [cc'|e]; [|done].
  apply wps_call_bind. split; [|by intros [?|?]].
  match goal with |- snap_restore_call ?h' _ =>
    assert (Hp2 : h `prefix_of` h') by (etransitivity; by apply prefix_app_r) end.
  destruct (Hs _ Hp2) as (? & ? & ?). split_and!; try done. by left.
Qed.

Lemma restorePITR_safe h :
  all_restored h -> job_over h ->
  safe h (restorePITR cluster restore) (fun h' r => h `prefix_of` h' /\
    match r with Ok true => pitr_over h' | _ => True end).
Proof.
  intros Hr Hj. apply wps_prefix. unfold restorePITR. destruct (r_RepoName restore) as [repo|] eqn:Erepo.
  2:{ by left. }
  rewrite wps_bindr. unfold ObserveStatus. apply wps_get_bindr. split; [done|].
  intros [c|e]; [|done]. set (h1 := h ++ _). cbn [wps].
  assert (Hp1 : h `prefix_of` h1) by by apply prefix_app_r.
  assert (Hr1 : all_restored h1) by by eapply grows.
  assert (Hj1 : job_over h1) by by eapply grows.
  assert (Ho : forall s t, observed c = (s, t) -> pitr_is s h1).
  { intros s t E. split; [by rewrite Erepo|]. exists c. split; [apply elem_of_snoc|]. by rewrite E. }
  destruct (observed c) as [status t] eqn:E. specialize (Ho status t eq_refl).
  destruct status; try done.
  - rewrite wps_bindr. eapply wps_conseq; [by apply Start_safe|]. by intros h2 [[]|e] _.
  - rewrite wps_bindr. eapply wps_conseq.
    { apply setRestoreState_safe; [apply Hrun|]. intros h' Hp. unfold snap_restore_transition.
      rewrite (proj2 Hrun). split; [by eapply grows|]. right. split; by eapply grows. }
    intros h2 [[]|e] Hp; [|done]. right. right. by eapply grows.
  - rewrite wps_bindr. unfold DisableRestore. rewrite (proj2 Hrun).
    rewrite !bool_decide_eq_false_2 by done. cbn [orb]. rewrite wps_bindr. split.
    { split_and!; try done. right. done. }
    intros [c'|e]; [|done]. cbn [wps]. right. left. eapply grows; [done|]. by apply prefix_app_r.
Qed.

Lemma reconcileLeaderEndpoints_safe h :
  all_restored h -> job_over h -> pitr_over h ->
  safe h (reconcileLeaderEndpoints cluster) (fun h' _ => h `prefix_of` h').
Proof.
  intros Hr Hj Hp. eapply wps_conseq; [apply wps_prefix|by intros h' r [Hp' _]].
  instantiate (1 := fun _ _ => True). unfold reconcileLeaderEndpoints. cbv zeta.
  apply wps_call_bind. split; [done|]. intros [ep|e]; [|done].
  destruct (ep_Subsets ep) eqn:Es; [|done]. apply wps_call_bind. split.
  - split_and!; try done; try (eapply grows; [done|]; by apply prefix_app_r).
    exists ep. split; [apply elem_of_snoc|done].
  - intros r. by destruct (IgnoreNotFound (err_of r)).
Qed.

Lemma finishRestore_safe h :
  all_restored h -> job_over h -> safe h (finishRestore cluster restore) (fun _ _ => True).
Proof.
  intros Hr Hj. unfold finishRestore. rewrite wps_bindr.
  eapply wps_conseq; [by apply restorePITR_safe|]. intros h1 [[|]|e] [Hp1 Ho]; cbn [negb]; [|done..].
  assert (Hr1 : all_restored h1) by by eapply grows.
  assert (Hj1 : job_over h1) by by eapply grows.
  rewrite wps_bindr. eapply wps_conseq; [by apply reconcileLeaderEndpoints_safe|].
  intros h2 [[]|e] Hp2; [|done].
  assert (Hall : forall h', h2 `prefix_of` h' -> all_restored h' /\ job_over h' /\ pitr_over h').
  { intros h' Hp. split_and!; (eapply grows; [done|]; by transitivity h2). }
  rewrite wps_bindr. eapply wps_conseq.
  { apply unsuspendAll_safe. intros h' Hp. right. right. split; [done|]. by apply Hall. }
  intros h3 [[|]|e] [Hp3 Hres]; cbn [negb]; [|done..]. rewrite wps_bindr. eapply wps_conseq.
  { apply UpdateRestoreStatus_safe; [apply Hrun|]. intros h' r0 Hp. apply wps_call_bind.
    split; [done|]. intros now. cbn [wps]. split_and!; [by apply prefix_app_r|done|].
    assert (Hp' : h3 `prefix_of` h' ++ [Ev (Now : op) (now : resp Now)])
      by (etransitivity; [done|]; by apply prefix_app_r).
    unfold snap_restore_transition. rewrite (proj2 Hrun). simpl.
    destruct (Hall _ ltac:(transitivity h3; [exact Hp3|exact Hp'])) as (? & ? & ?).
    split_and!; try done. by eapply grows. }
  by intros h4 [[]|e] _.
Qed.

Lemma restoreRunning_safe h :
  safe h (reconcileRunning RFC3339 cluster backup restore) (fun _ _ => True).
Proof.
  unfold reconcileRunning. apply wps_list_bindr. split; [done|]. intros [l|e]; [|done].
  set (h1 := h ++ _). assert (Hl : instances_listed h1 l) by apply elem_of_snoc.
  rewrite wps_bindr. eapply wps_conseq.
  { apply (allOf_wps _ _ instance_restored); [apply _|]. intros i h' Hi Hp.
    apply (reconcileInstance_safe Hrun i l); [by eapply elem_of_grow|done]. }
  intros h2 [[|]|e] [Hp2 Hr]; cbn [negb]; [|done..].
  assert (Hr2 : all_restored h2).
  { exists l. split; [by eapply elem_of_grow|]. by apply Hr. }
  rewrite wps_bindr. eapply wps_conseq; [by apply runPrepareJob_safe|].
  intros h3 [[|]|e] [Hp3 Hj]; cbn [negb]; [|done..].
  assert (Hr3 : all_restored h3) by by eapply grows.
  rewrite wps_bindr. eapply wps_conseq; [by apply reconcilePrepareJobAnnotation_safe|].
  intros h4 [[]|e] Hp4; [|done]. apply finishRestore_safe; by eapply grows.
Qed.
End Running.

(** *** The other states *)
Lemma restoreNew_safe h :
  isDeleting (r_Meta restore) = false -> r_State restore = RestoreNew ->
  safe h (reconcileNew cluster restore) (fun _ _ => True).
Proof.
  intros Hd HN. unfold reconcileNew. cbv zeta.
  assert (Hgo : (forall source, bk_Restore (c_Backups cluster) <> Some (mkRestoreSpec (Some true) source)) ->
    safe h (do! restores := call (ListAll KRestore (c_Namespace cluster) Everything) or "list restores" in
      if existsb (fun r : PerconaPGRestore => bool_decide (r_PGCluster r = c_Name cluster) && negb (IsCompleted r) &&
                  negb (bool_decide (r_Name r = r_Name restore))) restores then Ret (Ok 5%Z) else
      do! _ := UpdateRestoreStatus restore (setRestoreState RestoreStarting) or "update restore status" in
      Ret (Ok 0%Z)) (fun _ _ => True)).
  { intros Hen. apply wps_list_bindr. split; [done|]. intros [l|e]; [|done].
    match goal with |- context [existsb ?f l] => destruct (existsb f l) eqn:Ex end; [done|]. rewrite wps_bindr. eapply wps_conseq.
    { apply setRestoreState_safe; [done|]. intros h' Hp. unfold snap_restore_transition. rewrite HN.
      split; [done|]. exists l. split; [eapply elem_of_grow; [apply elem_of_snoc|done]|].
      intros r Hr Hc Hne. destruct (IsCompleted r) eqn:Ei; [done|].
      assert (Hf : existsb (fun r : PerconaPGRestore => bool_decide (r_PGCluster r = c_Name cluster) &&
        negb (IsCompleted r) && negb (bool_decide (r_Name r = r_Name restore))) l = true); [|congruence].
      apply existsb_exists. exists r. split; [by apply list_elem_of_In|].
      by rewrite Ei, bool_decide_eq_true_2, bool_decide_eq_false_2. }
    by intros h' [[]|e] _. }
  destruct (bk_Restore (c_Backups cluster)) as [[[[|]|] src]|] eqn:Er; try done; by apply Hgo.
Qed.

Lemma restoreStarting_safe h :
  isDeleting (r_Meta restore) = false -> r_State restore = RestoreStarting ->
  safe h (reconcileStarting cluster restore) (fun _ _ => True).
Proof.
  intros Hd HN. unfold reconcileStarting. rewrite wps_bindr.
  eapply wps_conseq; [by apply suspendAll_safe|]. intros h1 [[|]|e] [Hp1 Hs]; cbn [negb]; [|done..].
  rewrite wps_bindr. eapply wps_conseq.
  { apply wps_prefix. instantiate (1 := fun _ _ => True). unfold ensureFinalizers.
    destruct (AddFinalizer _ _) as [fs [|]] eqn:Ea; cbn [negb]; [|done].
    apply wps_call_bind. split; [|by intros [?|?]]. split_and!; try done; try by left.
    - by right.
    - intros Hf. left.
      pose proof (AddFinalizer_spec (om_Finalizers (r_Meta restore)) FinalizerSnapshotRestore) as (_ & _ & Hadd).
      rewrite Ea in Hadd. apply Hadd. by right. }
  intros h2 [[]|e] [Hp2 _]; [|done]. rewrite wps_bindr. eapply wps_conseq.
  { apply setRestoreState_safe; [done|]. intros h' Hp. unfold snap_restore_transition. rewrite HN.
    eapply grows; [exact Hs|]. by transitivity h2. }
  by intros h3 [[]|e] _.
Qed.

Lemma cleanPods_safe pods h :
  all_resumed h -> r_RepoName restore = None ->
  safe h (cleanPods cluster pods) (fun _ _ => True).
Proof.
  intros Hr Hn. revert h Hr. induction pods as [|pod pods IH]; intros h Hr; [done|].
  cbn [cleanPods]. apply wps_call_bind. split; [done|]. intros out. destruct (out_Err out); [done|].
  apply IH. eapply grows; [done|]. by apply prefix_app_r.
Qed.

Lemma finalized_safe h :
  isDeleting (r_Meta restore) = true \/ IsCompleted restore = true ->
  safe h (finalized cluster restore) (fun _ _ => True).
Proof.
  intros Hd. unfold finalized, runFinalizers. rewrite wps_bindr, wps_bind.
  eapply (wps_conseq _ _ _ (fun _ _ => True)); [|by intros h' [? [?|?]] _].
  unfold RunFinalizer. rewrite ContainsFinalizer_spec. case_bool_decide as Ef; cbn [negb]; [|done].
  rewrite wps_bind. eapply wps_conseq.
  { instantiate (1 := fun h' r => match r with Ok _ => all_resumed h' | Err _ => True end).
    unfold finalizeSnapshotRestore. rewrite wps_bindr. eapply wps_conseq.
    { apply unsuspendAll_safe. intros h' Hp. tauto. }
    intros h1 [[|]|e] [Hp1 Hr]; cbn [negb]; [|done..]. rewrite wps_bindr. eapply wps_conseq.
    { apply wps_prefix. instantiate (1 := fun _ _ => True). unfold cleanupSkipRecoveryFile.
      destruct (r_RepoName restore) eqn:En; [done|]. apply wps_list_bindr. split; [done|].
      intros [pods|e]; [|done]. apply cleanPods_safe; [|done]. eapply grows; [done|]. by apply prefix_app_r. }
    intros h2 [[]|e] [Hp2 _]; [|done]. cbn [wps]. by eapply grows. }
  intros h1 [[]|e] Hr; [|by case_match].
  destruct (RemoveFinalizer _ _) as [fs [|]]; [|done]. cbv zeta. apply wps_call_bind. split.
  - split_and!; try done; try by left. by right.
  - intros [r|e]; [done|]. by destruct (IsNotFound e).
Qed.

Lemma snapshot_reconcile_safe h :
  safe h (reconcile RFC3339 cluster backup restore) (fun _ _ => True).
Proof.
  unfold reconcile. destruct (isDeleting (r_Meta restore)) eqn:Ed.
  { apply finalized_safe. by left. }
  destruct (r_State restore) eqn:Es; try done.
  - by apply restoreNew_safe.
  - by apply restoreStarting_safe.
  - apply restoreRunning_safe. by split.
  - apply finalized_safe. right. unfold IsCompleted. rewrite Es. reflexivity.
  - apply finalized_safe. right. unfold IsCompleted. rewrite Es. reflexivity.
Qed.
End Spec.

(** ** Properties *)

(** The calls of a whole reconcile of a snapshot restore. *)
Definition restore_from_snapshot_call `{ControllerRuntime} (pg : PerconaPGCluster)
    (restore : PerconaPGRestore) (h : history) (o : op) : Prop :=
  let at_ := (c_Namespace pg, r_VolumeSnapshotBackupName restore) in
  o = Get KBackup at_ \/
  exists backup, read h KBackup at_ backup /\ snap_restore_call pg backup restore h o.

Lemma snapshotRestoreReconcile_safe `{ControllerRuntime} BackupSnapshots RFC3339 pg restore :
  wps (restore_from_snapshot_call pg restore) []
    (snapshotRestoreReconcile BackupSnapshots RFC3339 pg restore) (fun _ _ => True).
Proof.
  unfold snapshotRestoreReconcile. destruct BackupSnapshots; [|done]. cbn [negb].
  apply wps_get_bindr. split; [by left|]. intros [backup|e]; [|done]. set (h := [] ++ _).
  assert (Hr : read h KBackup (c_Namespace pg, r_VolumeSnapshotBackupName restore) backup)
    by apply elem_of_snoc.
  pose proof (wps_invariant _ (fun h' => h `prefix_of` h') h _ _ (fun _ Hp => Hp)
    (snapshot_reconcile_safe RFC3339 pg backup restore h)) as Hp.
  eapply wps_mono; [|intros ? ? HQ; exact HQ|exact Hp].
  intros h' o [Hpre Ho]. right. exists backup. split; [by eapply elem_of_grow|done].
Qed.

(** C11: restoring volume snapshots, in every execution.  A claim is deleted only
    while the restore runs, and it is one of a listed instance that the backup
    has a snapshot for, read as not belonging to this restore yet; it is
    created only after it was read as gone, marked and from that snapshot.
    Running is written only when every listed instance was seen suspended; the
    job that prepares the volumes is created only when every volume of every
    listed instance is one of this restore; instances are resumed, and the
    leader endpoints deleted, only after the job and the replay of WAL are
    over, or to clean up; Succeeded is written only when every listed instance
    was seen running again, and the finalizer goes only then too. *)
Theorem snapshot_restore_state_machine `{ControllerRuntime} (BackupSnapshots : bool)
    (RFC3339 : Z -> string) (pg : PerconaPGCluster) (restore : PerconaPGRestore) :
  wps (restore_from_snapshot_call pg restore) []
    (snapshotRestoreReconcile BackupSnapshots RFC3339 pg restore) (fun _ _ => True).
Proof. apply snapshotRestoreReconcile_safe. Qed.

(** A write of the cluster that ends its restore. *)
Definition disables_restore (o : op) : Prop :=
  match o with
  | Patch KPGCluster _ c | Update KPGCluster c =>
      exists source, bk_Restore (c_Backups c) = Some (mkRestoreSpec (Some false) source)
  | _ => False
  end.

(** A replay of WAL that fails blocks all later restores.  Nothing ends the
    cluster's pgBackRest restore unless the cluster was read in the same
    reconcile as reporting success, so after a failure it stays enabled (the
    restore object's deletion does not end it either), and a new restore waits
    as long as it is. *)
Theorem failed_replay_blocks_restores `{ControllerRuntime} (BackupSnapshots : bool)
    (RFC3339 : Z -> string) (pg : PerconaPGCluster) (restore other : PerconaPGRestore)
    (source : option DataSource) :
  wps (fun h o => disables_restore o -> pitr_is pg restore RestoreSucceeded h) []
    (snapshotRestoreReconcile BackupSnapshots RFC3339 pg restore) (fun _ _ => True) /\
  reconcileNew (pg <| c_Backups ::= fun b => b <| bk_Restore := Some (mkRestoreSpec (Some true) source) |> |>)
    other = Ret (Ok 5%Z).
Proof.
  split; [|done]. eapply wps_mono; [|intros ? ? HQ; exact HQ|apply snapshotRestoreReconcile_safe].
  intros h o [->|(backup & _ & Ho)]; [done|].
  case_op o.
  destruct Ho as (_ & _ & _ & _ & [[_ ->]|[Hs ->]]); [|by intros _]. by intros [s [=]].
Qed.

(** When the backup has been deleted the restore can neither go on nor be
    cleaned up: every reconcile, the one after its deletion included, stops
    with an error before anything else, so its finalizer stays and its
    instances stay suspended. *)
Theorem deleted_backup_blocks_restore `{ControllerRuntime} (RFC3339 : Z -> string)
    (pg : PerconaPGCluster) (restore : PerconaPGRestore) (tr : history) (r : result Result) :
  exec (snapshotRestoreReconcile true RFC3339 pg restore) tr r ->
  exists (backup : result PerconaPGBackup) rest,
    tr = got KBackup (c_Namespace pg, r_VolumeSnapshotBackupName restore) backup :: rest /\
    forall e, backup = Err e -> rest = [] /\ r = Err (Wrap "get backup" e).
Proof.
  intros (backup & rest & -> & Hex). exists backup, rest. split; [done|].
  intros e ->. by destruct Hex as [-> ->].
Qed.

(** *** The job *)

Fixpoint last_char (s : string) : option ascii :=
  match s with
  | EmptyString => None
  | String c EmptyString => Some c
  | String _ s => last_char s
  end.

Lemma last_char_app s t : t <> EmptyString -> last_char (s +:+ t) = last_char t.
Proof.
  intros Ht. induction s as [|c s IH]; [done|]. rewrite app_cons_str. simpl.
  destruct (s +:+ t) eqn:E; [|done]. destruct s; [|done]. by rewrite app_nil_l_str in E.
Qed.

Section JobPaths.
Context (cluster : PerconaPGCluster) (pitr : bool).

Definition instanceName (i : StatefulSet) : string := om_Name (st_Meta i).

(** The volumes of an instance: name and claim. *)
Definition volumes_of (i : StatefulSet) : list (string * string) :=
  [(instanceName i +:+ "-pgdata", meta_Name (InstancePostgresDataVolume (named i)));
   (instanceName i +:+ "-pgwal", meta_Name (InstancePostgresWALVolume (named i)))].

(** The directory below which the script works for an instance. *)
Definition workDirOf (info : instancePrepareInfo) : string :=
  if pitr && nonempty (walMountPath info) then walMountPath info else dataMountPath info.

(** What holds of the volumes, mounts and paths once the instances [seen] have
    been added. *)
Definition volumes_ok (seen : list StatefulSet)
    (acc : list (string * string) * list (string * string) * list instancePrepareInfo) : Prop :=
  let '(volumes, mounts, infos) := acc in
  volumes.*1 = mounts.*1 /\
  (forall v, v ∈ volumes -> exists i, i ∈ seen /\ v ∈ volumes_of i) /\
  length infos = length seen /\
  Forall (fun info => workDirOf info <> "" /\ workDirOf info ∈ mounts.*2) infos /\
  (NoDup (map instanceName seen) -> NoDup volumes.*1).

Lemma rooted_Join_nonempty l : path_Join ("/" :: l) <> "".
Proof.
  assert (Hc : forall s, path_Clean s <> "").
  { intros s. unfold path_Clean. cbv zeta. case_match eqn:E; [|done]. intros Hn. by rewrite Hn in E. }
  unfold path_Join. simpl. destruct (List.filter nonempty l); apply Hc.
Qed.

Lemma volume_name_fresh seen i volumes suffix :
  (forall v, v ∈ volumes -> exists j, j ∈ seen /\ v ∈ volumes_of j) ->
  instanceName i ∉ map instanceName seen -> suffix = "-pgdata" \/ suffix = "-pgwal" ->
  instanceName i +:+ suffix ∉ volumes.*1.
Proof.
  intros Hv Hi Hs ([n c] & E & Hin)%list_elem_of_fmap. simpl in E. subst n.
  destruct (Hv _ Hin) as (j & Hj & Hvj).
  assert (Hne : instanceName i <> instanceName j).
  { intros E. apply Hi. rewrite E. apply list_elem_of_In, in_map. by apply list_elem_of_In. }
  unfold volumes_of in Hvj. rewrite !elem_of_cons in Hvj.
  destruct Hvj as [E|[E|?%not_elem_of_nil]]; [| |done]; injection E as E _.
  all: destruct Hs as [->| ->]; try (by apply app_inj_r_str in E);
    apply (f_equal last_char) in E; by rewrite !last_char_app in E.
Qed.

Lemma volumes_ok_snoc seen i volumes mounts infos (vs ms : list (string * string)) info :
  vs.*1 = ms.*1 -> sublist vs (volumes_of i) ->
  workDirOf info <> "" -> workDirOf info ∈ ms.*2 ->
  volumes_ok seen (volumes, mounts, infos) ->
  volumes_ok (seen ++ [i]) (volumes ++ vs, mounts ++ ms, infos ++ [info]).
Proof.
  intros Hvm Hsub Hne Hw (Hn & Hv & Hl & Hf & Hd).
  assert (Hin : forall v, v ∈ vs -> v ∈ volumes_of i) by (intros v; by apply sublist_subseteq).
  split_and!.
  - by rewrite !fmap_app, Hn, Hvm.
  - intros v [Hv'|Hv']%elem_of_app.
    + destruct (Hv v Hv') as (j & Hj & ?). exists j. split; [|done]. apply elem_of_app. by left.
    + exists i. split; [|by apply Hin]. apply elem_of_app. right. by apply list_elem_of_singleton.
  - by rewrite !length_app, Hl.
  - apply Forall_snoc; [|split; [done|]; rewrite fmap_app; apply elem_of_app; by right].
    eapply Forall_impl; [exact Hf|]. intros inf [? ?]. split; [done|].
    rewrite fmap_app. apply elem_of_app. by left.
  - rewrite map_app, NoDup_app. intros (Hs & Hi & _). rewrite fmap_app, NoDup_app. split_and!.
    + by apply Hd.
    + intros n Hn1 Hn2. assert (Hfresh : n = instanceName i +:+ "-pgdata" \/ n = instanceName i +:+ "-pgwal").
      { apply list_elem_of_fmap in Hn2 as ([n' c] & -> & Hin2). apply Hin in Hin2.
        unfold volumes_of in Hin2. rewrite !elem_of_cons in Hin2.
        destruct Hin2 as [E|[E|?%not_elem_of_nil]]; [left|right|done]; by injection E as ->. }
      assert (Hii : instanceName i ∉ map instanceName seen)
        by (intros Hii; apply (Hi _ Hii); by left).
      destruct Hfresh as [->| ->]; eapply volume_name_fresh in Hn1; eauto.
    + eapply sublist_NoDup; [|by apply (fmap_sublist fst), Hsub]. simpl.
      apply NoDup_cons. split; [|apply NoDup_singleton]. intros E%list_elem_of_singleton.
      apply (f_equal last_char) in E. by rewrite !last_char_app in E.
Qed.

Lemma addInstance_ok seen acc i :
  volumes_ok seen acc -> volumes_ok (seen ++ [i]) (addInstance cluster pitr acc i).
Proof.
  destruct acc as [[volumes mounts] infos]. intros Hok. unfold addInstance. cbv zeta.
  pose proof (rooted_Join_nonempty [om_Name (st_Meta i); "pgdata"]) as Hpd.
  pose proof (rooted_Join_nonempty [om_Name (st_Meta i); "pgwal"]) as Hpw.
  assert (Hb : nonempty (path_Join ["/"; om_Name (st_Meta i); "pgwal"]) = true).
  { revert Hpw. generalize (path_Join ["/"; om_Name (st_Meta i); "pgwal"]). intros [|c s] Hn; [by destruct Hn|done]. }
  assert (Hin : forall (x : string) l, x ∈ x :: l) by (intros; apply elem_of_cons; by left).
  assert (Hin2 : forall (x y : string) l, x ∈ y :: x :: l)
    by (intros; rewrite !elem_of_cons; right; by left).
  destruct (match instanceSetSpecForName _ _ with Some _ => _ | None => _ end).
  - destruct pitr eqn:Ep; cbn [negb orb].
    + unfold appendWALVolume. apply volumes_ok_snoc; try done; unfold workDirOf;
        rewrite ?Ep; cbn [walMountPath dataMountPath andb]; rewrite ?Hb; [|done|apply Hin].
      by apply sublist_cons.
    + unfold appendDataVolume, appendWALVolume. rewrite <- !(assoc_L (++)).
      apply volumes_ok_snoc; try done; unfold workDirOf; rewrite ?Ep;
        cbn [walMountPath dataMountPath andb]; [done|apply Hin].
  - rewrite orb_true_r. unfold appendDataVolume.
    apply volumes_ok_snoc; try done; unfold workDirOf; cbn [walMountPath dataMountPath nonempty];
      rewrite ?andb_false_r; [|done|apply Hin].
    by apply sublist_skip, sublist_nil_l.
Qed.

Lemma buildPrepareJobVolumes_ok instances :
  volumes_ok instances (buildPrepareJobVolumes cluster instances pitr).
Proof.
  unfold buildPrepareJobVolumes.
  assert (Hgen : forall l seen acc, volumes_ok seen acc ->
    volumes_ok (seen ++ l) (fold_left (addInstance cluster pitr) l acc)).
  { induction l as [|i l IH]; intros seen acc Hok; simpl; [by rewrite app_nil_r|].
    rewrite cons_middle, (assoc_L (++)). by apply IH, addInstance_ok. }
  apply (Hgen instances []). split_and!; try done.
  by intros v ?%not_elem_of_nil.
Qed.
End JobPaths.

(** The job that prepares restored volumes.  It mounts volumes of the listed
    instances only, each once under a name of its own, and runs one command for
    each instance, below one of its mounts: with a replay of WAL to follow, the
    deletion of what is in the instance's WAL directory, and otherwise the
    creation of the file that makes the instance skip the replay. *)
Theorem prepare_job_paths (cluster : PerconaPGCluster) (job : Job) (instances : list StatefulSet)
    (restore : PerconaPGRestore) :
  let pitr := bool_decide (is_Some (r_RepoName restore)) &&
              nonempty (r_VolumeSnapshotBackupName restore) in
  let pg := "pg" +:+ pretty (c_PostgresVersion cluster) in
  exists spec commands,
    j_Spec (generatePrepareJob cluster job instances restore) = Some spec /\
    js_Command spec = ["bash"; "-c"; Join ("set -e" :: commands) (char newline)] /\
    length commands = length instances /\
    Forall (fun command => exists m, m ∈ (js_Mounts spec).*2 /\ m <> "" /\
      command = if pitr then "find " +:+ Quote (path_Join [m; pg +:+ "_wal"]) +:+ " -mindepth 1 -delete"
                else "touch " +:+ Quote (path_Join [path_Join [m; pg]; "skip-wal-recovery"])) commands /\
    (js_Volumes spec).*1 = (js_Mounts spec).*1 /\
    (forall v, v ∈ js_Volumes spec -> exists i, i ∈ instances /\ v ∈ volumes_of i) /\
    (NoDup (map instanceName instances) -> NoDup (js_Volumes spec).*1).
Proof.
  intros pitr pg. pose proof (buildPrepareJobVolumes_ok cluster pitr instances) as Hok.
  unfold generatePrepareJob. fold pitr. cbv zeta.
  destruct (buildPrepareJobVolumes cluster instances pitr) as [[volumes mounts] infos].
  destruct Hok as (Hn & Hv & Hl & Hf & Hd).
  eexists _, (map (scriptPart (c_PostgresVersion cluster) pitr) infos). split; [reflexivity|]. simpl.
  split; [done|]. split; [by rewrite length_map|]. split_and!; try done.
  apply Forall_map. eapply Forall_impl; [exact Hf|]. intros info [Hne Hin].
  exists (workDirOf pitr info). split_and!; [done..|]. unfold scriptPart, walDirOf, signalFileOf, workDirOf.
  unfold pg. by destruct pitr.
Qed.

#[local] Existing Instance ConcreteRuntime.runtime.

Definition exampleRestore (s : PGRestoreState) : PerconaPGRestore :=
  mkRestore (exampleMeta "restore1") "cluster1" None "snap1" [] [] [] s None.

Definition exampleSnapshotted : PerconaPGBackup :=
  exampleSnapshotBackup BackupSucceeded <| b_Status ::= fun s =>
    s <| bs_Snapshot := Some (mkSnapshotStatus (Some "snap1-pgdata") None ∅) |> |>.

(** A server on which the instance runs on its restored volume, and whose job
    to prepare the volumes has failed. *)
Definition failedJobServer (o : op) (w : unit) : unit * resp o :=
  match o return unit * resp o with
  | Get k _ =>
      match k return unit * result (obj k) with
      | KBackup => (w, Ok exampleSnapshotted)
      | KRestore => (w, Ok (exampleRestore RestoreRunning))
      | KSts => (w, Ok runningInstance)
      | KJob => (w, Ok (mkJob (exampleMeta "restore1-prepare") [] None 0 1 None None 0 None None ""))
      | KPVC => (w, Ok (mkPVC (exampleMeta "cluster1-instance1-abcd-pgdata" <| om_Annotations :=
                   ({[AnnotationSnapshotRestore := "restore1"]} : gmap string string) |>)
                   (mkClaim "1Gi" (Some "snap1-pgdata")) "" false))
      | _ => (w, Err (ApiError NotFound))
      end
  | ListAll k _ _ =>
      match k return unit * result (list (obj k)) with
      | KSts => (w, Ok [runningInstance])
      | _ => (w, Ok [])
      end
  | Create _ o | Update _ o | StatusUpdate _ o | Patch _ _ o | StatusPatch _ _ o => (w, Ok o)
  | Delete _ _ _ | DeleteAllOf _ _ _ | NewExecClient => (w, Ok tt)
  | RawPatch _ _ _ | RESTMapping _ _ => (w, Err (ApiError NotFound))
  | Apply _ o => (w, Ok o)
  | Event _ _ => (w, tt)
  | Rand _ => (w, "")
  | LatestCommit _ _ => (w, Ok None)
  | Exec _ _ _ _ => (w, mkExecOutput "" "" None)
  | Now => (w, 0%Z)
  | WatcherExists _ | SendStop _ => (w, false)
  | AddWatcher _ => (w, Ok tt)
  | RemoveWatcher _ | GoWatch _ => (w, tt)
  | WatcherNames => (w, [])
  | NewChecker _ | CheckCertManager _ => (w, Ok tt)
  | RangeOrder keys => (w, exist _ keys (Permutation_refl keys))
  end.

(** The states of restores written in a history. *)
Definition statesWritten (h : history) : list PGRestoreState :=
  omap (fun e : event resp => match e with
                              | Ev (StatusUpdate KRestore r) _ => Some (r_State r)
                              | _ => None
                              end) h.

(** A restore whose job to prepare the volumes has failed can end as
    succeeded: the failure is written, but the same reconcile goes on with the
    next steps, and when all instances run it writes success over it. *)
Theorem failed_restore_can_succeed :
  exists tr : history,
    exec (snapshotRestoreReconcile true (fun _ => "now") examplePGCluster (exampleRestore RestoreRunning))
      tr (Ok 0%Z) /\
    statesWritten tr = [RestoreFailed; RestoreSucceeded].
Proof.
  pose proof (run_exec failedJobServer (snapshotRestoreReconcile true (fun _ => "now")
    examplePGCluster (exampleRestore RestoreRunning)) tt) as Hrun.
  set (out := run failedJobServer _ _) in Hrun.
  assert (Hout : out.2 = Ok 0%Z /\ statesWritten out.1.2 = [RestoreFailed; RestoreSucceeded])
    by (split; by vm_compute).
  destruct out as [[w tr] r]. simpl in Hout. destruct Hout as [-> Hw]. by exists tr.
Qed.

Lemma snapshot_restore_state_machine_witness :
  wps (restore_from_snapshot_call examplePGCluster (exampleRestore RestoreRunning)) []
    (snapshotRestoreReconcile true (fun _ => "now") examplePGCluster (exampleRestore RestoreRunning))
    (fun _ _ => True).
Proof.
  exact (snapshot_restore_state_machine true (fun _ => "now") examplePGCluster
    (exampleRestore RestoreRunning)).
Defined.

Lemma deleted_backup_blocks_restore_witness :
  let r := exampleRestore RestoreRunning
             <| r_Meta ::= fun m => m <| om_DeletionTimestamp := Some 300%Z |> |> in
  let tr := [got KBackup ("default", "snap1") (Err (ApiError NotFound))] in
  let e : result Result := Err (Wrap "get backup" (ApiError NotFound)) in
  exec (snapshotRestoreReconcile true (fun _ => "now") examplePGCluster r) tr e /\
  exists (backup : result PerconaPGBackup) rest,
    tr = got KBackup ("default", "snap1") backup :: rest /\
    forall e', backup = Err e' -> rest = [] /\ e = Err (Wrap "get backup" e').
Proof.
  intros r tr e.
  assert (Hex : exec (snapshotRestoreReconcile true (fun _ => "now") examplePGCluster r) tr e).
  { apply exec_call_bind. split; reflexivity. }
  split; [exact Hex|].
  exact (deleted_backup_blocks_restore (fun _ => "now") examplePGCluster r tr e Hex).
Defined.
