(* ===== verification/RestoreController.v ===== *)
(** * The restore controller

    [PGRestoreReconciler.Reconcile] of [percona/controller/pgrestore/controller.go]. *)
From S2P Require Import Prelude GoStrings Cluster Prog Errors Naming Objects Client BackupUtils.
From S2P Require Import Snapshots Restore SnapshotRestore.


Section Controller.
Context `{ControllerRuntime}.
(** as for [snapshotRestoreReconcile] *)
Context (BackupSnapshots : bool) (RFC3339 : Z -> string).

(** The update of a whole status as held locally, without a fresh read. *)
Definition setState (pgRestore : PerconaPGRestore) (s : PGRestoreState) (msg : string) : action Result :=
  do! _ := call (StatusUpdate KRestore (pgRestore <| r_State := s |>)) or msg in
  Ret (Ok 0%Z).

(** The patched object replaces the local one. *)
Definition ensureRestoreFinalizers (pr : PerconaPGRestore) : action PerconaPGRestore :=
  let '(fs, changed) := AddFinalizer (om_Finalizers (r_Meta pr)) FinalizerDeleteRestore in
  if negb changed then Ret (Ok pr) else
  do! pr' := call (Patch KRestore pr (pr <| r_Meta ::= fun m => m <| om_Finalizers := fs |> |>))
             or "remove finalizers" in
  Ret (Ok pr').

Definition runRestoreFinalizers (pr : PerconaPGRestore) : action unit :=
  let! r := call (Get KPGCluster (om_Namespace (r_Meta pr), r_PGCluster pr)) in
  match r with
  | Err e =>
      if negb (IsNotFound e) then Ret (Err (Wrap "get PerconaPGCluster" e)) else
      let! (_, r) := RunFinalizer (k := KRestore) pr FinalizerDeleteRestore (fun _ => Ret (Ok tt)) in
      match r with
      | Ok _ => Ret (Ok tt)
      | Err e => Ret (Err (Wrap ("run finalizer " +:+ FinalizerDeleteRestore) e))
      end
  | Ok pg =>
      let! (_, r) := RunFinalizer (k := KRestore) pr FinalizerDeleteRestore (DisableRestore pg) in
      match r with
      | Ok _ => Ret (Ok tt)
      | Err e => Ret (Err (Wrap ("run finalizer " +:+ FinalizerDeleteRestore) e))
      end
  end.

Definition isBootstrap (pgRestore : PerconaPGRestore) : bool :=
  bool_decide (is_Some (om_Annotations (r_Meta pgRestore) !! AnnotationClusterBootstrapRestore)).

(** [case v2.RestoreNew]; a nil [Enabled] is a panic. *)
Definition reconcileNewRestore (pgCluster : PerconaPGCluster) (pgRestore : PerconaPGRestore) : action Result :=
  let start :=
    do! pgRestore := (if isBootstrap pgRestore then Ret (Ok pgRestore) else
                      do! _ := Start pgCluster pgRestore or "start restore" in
                      do! pgRestore := ensureRestoreFinalizers pgRestore or "ensure finalizers" in
                      Ret (Ok pgRestore)) in
    setState pgRestore RestoreStarting "update PGRestore status" in
  match bk_Restore (c_Backups pgCluster) with
  | Some restore =>
      match rs_Enabled restore with
      | None => Ret (Err panic)
      | Some true => Ret (Ok 5%Z)
      | Some false => start
      end
  | None => start
  end.

(** [case v2.RestoreStarting] *)
Definition reconcileStartingRestore (pgCluster : PerconaPGCluster) (pgRestore : PerconaPGRestore) : action Result :=
  let! r := call (Get KJob (c_Namespace pgCluster, c_Name pgCluster +:+ "-pgbackrest-restore")) in
  match r with
  | Err e => if IsNotFound e then Ret (Ok 5%Z) else Ret (Err (Wrap "get restore job" e))
  | Ok _ => setState pgRestore RestoreRunning "update PGRestore status"
  end.

(** [case v2.RestoreRunning] *)
Definition reconcileRunningRestore (pgCluster : PerconaPGCluster) (pgRestore : PerconaPGRestore) : action Result :=
  do! (status, completedAt) := ObserveStatus pgCluster or "observe restore status" in
  let finish pgRestore :=
    do! _ := (if isBootstrap pgRestore then Ret (Ok tt) else
              do! _ := DisableRestore pgCluster pgRestore or "disable restore" in Ret (Ok tt)) in
    setState pgRestore status "update pgRestore status" in
  match status with
  | RestoreFailed => finish pgRestore
  | RestoreSucceeded => finish (pgRestore <| r_CompletedAt := completedAt |>)
  | _ => Ret (Ok 5%Z)
  end.

Definition RestoreReconcile (request : key) : action Result :=
  let! r := call (Get KRestore request) in
  match r with
  | Err e => Ret (match IgnoreNotFound (Some e) with Some e => Err e | None => Ok 0%Z end)
  | Ok pgRestore =>
      do! pgCluster := call (Get KPGCluster (request.1, r_PGCluster pgRestore)) or "get PerconaPGCluster" in
      if deref (c_Unmanaged pgCluster) false && negb (isDeleting (r_Meta pgRestore)) then Ret (Ok 0%Z) else
      if nonempty (r_VolumeSnapshotBackupName pgRestore) then
        snapshotRestoreReconcile BackupSnapshots RFC3339 pgCluster pgRestore
      else
      if isDeleting (r_Meta pgRestore) then
        do! _ := runRestoreFinalizers pgRestore or "failed to run finalizers" in
        Ret (Ok 0%Z)
      else if IsCompleted pgRestore then Ret (Ok 0%Z)
      else match r_State pgRestore with
           | RestoreNew => reconcileNewRestore pgCluster pgRestore
           | RestoreStarting => reconcileStartingRestore pgCluster pgRestore
           | RestoreRunning => reconcileRunningRestore pgCluster pgRestore
           | _ => Ret (Ok 0%Z)
           end
  end.
End Controller.

(** ** Specification *)
Section Spec.
Context `{ControllerRuntime}.
(** as read *)
Context (pgCluster : PerconaPGCluster) (pgRestore : PerconaPGRestore).

Definition hasDeleteFinalizer (r : PerconaPGRestore) : Prop :=
  FinalizerDeleteRestore ∈ om_Finalizers (r_Meta r).

Definition notRestoring : Prop :=
  forall restore, bk_Restore (c_Backups pgCluster) = Some restore -> rs_Enabled restore = Some false.

(** The cluster is marked with this restore and has it enabled. *)
Definition start_recorded (h : history) : Prop :=
  om_Annotations (c_Meta pgCluster) !! PGBackRestRestore = Some (r_Name pgRestore) \/
  exists r, (Ev (Patch KPGCluster pgCluster (startedCluster pgCluster pgRestore) : op)
               (Ok r : result PerconaPGCluster)) ∈ h.

(** The restore of a cluster was disabled. *)
Definition restore_ended (h : history) : Prop :=
  exists c r, (Ev (Patch KPGCluster c (disabledCluster c) : op) (Ok r : result PerconaPGCluster)) ∈ h.

Definition outcome_read (s : PGRestoreState) (t : option Z) (h : history) : Prop :=
  exists c, read h KPGCluster (objectKey (c_Meta pgCluster)) c /\ observed c = (s, t).

(** The transitions of the state. *)
Definition restore_transition (h : history) (s : PGRestoreState) (completedAt : option Z) : Prop :=
  match r_State pgRestore, s with
  | RestoreNew, RestoreStarting =>
      notRestoring /\ (isBootstrap pgRestore = true \/ start_recorded h)
  | RestoreStarting, RestoreRunning =>
      exists job, read h KJob (c_Namespace pgCluster, c_Name pgCluster +:+ "-pgbackrest-restore") job
  | RestoreRunning, RestoreSucceeded =>
      outcome_read RestoreSucceeded completedAt h /\ (isBootstrap pgRestore = true \/ restore_ended h)
  | RestoreRunning, RestoreFailed =>
      outcome_read RestoreFailed None h /\ (isBootstrap pgRestore = true \/ restore_ended h)
  | _, _ => False
  end.

(** The local copy: as read, or as answered to a patch. *)
Definition local_copy (r : PerconaPGRestore) (h : history) : Prop :=
  r = pgRestore \/ exists r1 r2, (Ev (Patch KRestore r1 r2 : op) (Ok r : result PerconaPGRestore)) ∈ h.

Definition restore_call (h : history) (o : op) : Prop :=
  match o with
  | Get _ _ => True
  | StatusUpdate KRestore r =>
      isDeleting (r_Meta pgRestore) = false /\
      exists r0, local_copy r0 h /\ r_Meta r = r_Meta r0 /\
        restore_transition h (r_State r) (r_CompletedAt r)
  | StatusPatch KCrunchy c1 c2 =>
      isDeleting (r_Meta pgRestore) = false /\ r_State pgRestore = RestoreNew /\
      isBootstrap pgRestore = false /\ notRestoring /\
      read h KCrunchy (objectKey (c_Meta pgCluster)) c1 /\ cc_Meta c2 = cc_Meta c1 /\
      (cc_PGBackRest c2 ≫= ps_Restore) = Some (mkJobStatus "" false 0 0 None None 0)
  | Patch KPGCluster c1 c2 =>
      (isDeleting (r_Meta pgRestore) = false /\ isBootstrap pgRestore = false /\ c1 = pgCluster /\
       ((r_State pgRestore = RestoreNew /\ notRestoring /\ c2 = startedCluster pgCluster pgRestore) \/
        (r_State pgRestore = RestoreRunning /\ c2 = disabledCluster pgCluster /\
         exists s t, outcome_read s t h /\ (s = RestoreSucceeded \/ s = RestoreFailed)))) \/
      (isDeleting (r_Meta pgRestore) = true /\ IsCompleted pgRestore = false /\
       hasDeleteFinalizer pgRestore /\ c2 = disabledCluster c1 /\
       read h KPGCluster (om_Namespace (r_Meta pgRestore), r_PGCluster pgRestore) c1)
  | Patch KRestore r1 r2 => r1 = pgRestore /\ r_State r2 = r_State r1 /\
      (hasDeleteFinalizer r2 -> hasDeleteFinalizer r1 \/ start_recorded h) /\
      (hasDeleteFinalizer r1 -> hasDeleteFinalizer r2 \/
         isDeleting (r_Meta pgRestore) = true /\
         (IsCompleted pgRestore = true \/ restore_ended h \/
          exists e, got KPGCluster (om_Namespace (r_Meta pgRestore), r_PGCluster pgRestore) (Err e) ∈ h /\
            IsNotFound e = true))
  | _ => False
  end.

Abbreviation safe := (wps restore_call).

#[local] Instance start_recorded_grows : Grows start_recorded.
Proof. unfold start_recorded. apply _. Qed.
#[local] Instance local_copy_grows r : Grows (local_copy r).
Proof. unfold local_copy. apply _. Qed.

Lemma setState_safe r s msg h :
  isDeleting (r_Meta pgRestore) = false -> local_copy r h ->
  restore_transition h s (r_CompletedAt r) ->
  safe h (setState r s msg) (fun _ _ => True).
Proof.
  intros Hd Hc Ht. unfold setState. apply wps_call_bind. split; [|by intros [?|?]].
  split; [done|]. by exists r.
Qed.

Lemma Start_call_safe h :
  isDeleting (r_Meta pgRestore) = false -> r_State pgRestore = RestoreNew ->
  isBootstrap pgRestore = false -> notRestoring ->
  safe h (Start pgCluster pgRestore) (fun h' r =>
    match r with Ok _ => start_recorded h' | Err _ => True end).
Proof.
  intros Hd HN Hb Hn. unfold Start. case_bool_decide as Ea; [by left|].
  apply wps_get_bindr. split; [done|]. intros [cc|e]; [|done]. cbv zeta. apply wps_call_bind.
  split; [split_and!; [done..|apply elem_of_snoc|done|done]|]. intros [cc'|e]; [|done].
  apply wps_call_bind. split.
  - left. split_and!; try done. by left.
  - intros [c|e]; [|done]. right. exists c. apply elem_of_snoc.
Qed.

Lemma ensureRestoreFinalizers_safe h :
  start_recorded h ->
  safe h (ensureRestoreFinalizers pgRestore) (fun h' r =>
    match r with Ok pr => local_copy pr h' | Err _ => True end).
Proof.
  intros Hs. unfold ensureRestoreFinalizers.
  pose proof (AddFinalizer_spec (om_Finalizers (r_Meta pgRestore)) FinalizerDeleteRestore) as (_ & _ & Hadd).
  destruct (AddFinalizer _ _) as [fs [|]]; cbn [negb]; [|by left].
  apply wps_call_bind. split.
  - split_and!; try done; [by right|]. intros Hf. left. apply Hadd. by right.
  - intros [pr|e]; [|done]. right. eexists _, _. apply elem_of_snoc.
Qed.

Lemma reconcileNewRestore_safe h :
  isDeleting (r_Meta pgRestore) = false -> r_State pgRestore = RestoreNew ->
  safe h (reconcileNewRestore pgCluster pgRestore) (fun _ _ => True).
Proof.
  intros Hd HN. unfold reconcileNewRestore. cbv zeta.
  match goal with |- safe h (match _ with Some r => match _ with Some b => if b then _ else ?s | None => _ end
                             | None => _ end) _ =>
    assert (Hstart : notRestoring -> safe h s (fun _ _ => True)) end.
  { intros Hn. rewrite wps_bindr. eapply wps_conseq.
    - instantiate (1 := fun h' r => match r with
        | Ok pr => local_copy pr h' /\ (isBootstrap pgRestore = true \/ start_recorded h')
        | Err _ => True end).
      destruct (isBootstrap pgRestore) eqn:Eb; [by split; left|].
      rewrite wps_bindr. eapply wps_conseq; [by apply Start_call_safe|]. intros h1 [[]|e] Hs; [|done].
      rewrite wps_bindr. eapply wps_conseq; [by apply wps_prefix, ensureRestoreFinalizers_safe|].
      intros h2 [pr|e] [Hp Hc]; [|done]. split; [done|]. right. by eapply grows.
    - intros h1 [pr|e] Hc; [|done]. destruct Hc as [Hc Hs]. apply setState_safe; [done..|].
      unfold restore_transition. by rewrite HN. }
  destruct (bk_Restore (c_Backups pgCluster)) as [restore|] eqn:Er.
  - destruct (rs_Enabled restore) as [[|]|] eqn:Een; [done| |done]. apply Hstart.
    intros r Hr. by simplify_eq.
  - apply Hstart. intros r Hr. by simplify_eq.
Qed.

Lemma reconcileStartingRestore_safe h :
  isDeleting (r_Meta pgRestore) = false -> r_State pgRestore = RestoreStarting ->
  safe h (reconcileStartingRestore pgCluster pgRestore) (fun _ _ => True).
Proof.
  intros Hd HN. unfold reconcileStartingRestore. apply wps_call_bind. split; [done|].
  intros [job|e]; [|by destruct (IsNotFound e)]. apply setState_safe; [done|by left|].
  unfold restore_transition. rewrite HN. exists job. apply elem_of_snoc.
Qed.

Lemma reconcileRunningRestore_safe h :
  isDeleting (r_Meta pgRestore) = false -> r_State pgRestore = RestoreRunning ->
  safe h (reconcileRunningRestore pgCluster pgRestore) (fun _ _ => True).
Proof.
  intros Hd HN. unfold reconcileRunningRestore. rewrite wps_bindr. unfold ObserveStatus.
  apply wps_get_bindr. split; [done|]. intros [c|e]; [|done]. set (h1 := h ++ _). cbn [wps].
  assert (Ho : outcome_read (observed c).1 (observed c).2 h1).
  { exists c. split; [apply elem_of_snoc|by destruct (observed c)]. }
  assert (Hnone : (observed c).1 = RestoreFailed -> (observed c).2 = None).
  { unfold observed. repeat case_match; done. }
  destruct (observed c) as [s t]. simpl in Ho, Hnone. cbv zeta.
  assert (Hfin : forall r, s = RestoreSucceeded \/ s = RestoreFailed ->
    r = pgRestore \/ r = pgRestore <| r_CompletedAt := t |> ->
    (s = RestoreSucceeded -> r_CompletedAt r = t) ->
    safe h1 (do! _ := (if isBootstrap r then Ret (Ok tt) else
                       do! _ := DisableRestore pgCluster r or "disable restore" in Ret (Ok tt)) in
             setState r s "update pgRestore status") (fun _ _ => True)).
  { intros r Hs Hr Ht.
    assert (Hrb : isBootstrap r = isBootstrap pgRestore) by by destruct Hr as [->| ->].
    assert (Hrs : r_State r = RestoreRunning) by by destruct Hr as [->| ->].
    rewrite Hrb, wps_bindr. eapply wps_conseq.
    - instantiate (1 := fun h2 r => h1 `prefix_of` h2 /\ match r with
        | Ok _ => isBootstrap pgRestore = true \/ restore_ended h2 | Err _ => True end).
      destruct (isBootstrap pgRestore) eqn:Eb; [by split; [|left]|]. apply wps_prefix.
      unfold DisableRestore. rewrite Hrs, !bool_decide_eq_false_2 by done. cbn [orb].
      rewrite wps_bindr. apply wps_call_bind. split.
      + left. split_and!; try done. right. split_and!; [done..|]. by exists s, t.
      + intros [c'|e]; [|done]. right. exists pgCluster, c'. apply elem_of_snoc.
    - intros h2 [[]|e] [Hp Hb]; [|done]. unfold setState. apply wps_call_bind. split; [|by intros [?|?]].
      split; [done|]. exists pgRestore. split; [by left|]. split; [by destruct Hr as [->| ->]|].
      destruct Ho as (c' & Hc' & Ho). unfold restore_transition. rewrite HN. simpl.
      assert (Hread : read h2 KPGCluster (objectKey (c_Meta pgCluster)) c') by by eapply elem_of_grow.
      destruct Hs as [-> | ->]; (split; [|done]); exists c'; (split; [done|]).
      + by rewrite (Ht eq_refl).
      + by rewrite (Hnone eq_refl) in Ho. }
  destruct s; try done.
  - apply Hfin; auto. done.
  - apply Hfin; auto.
Qed.

Lemma run_finalizer_safe f h :
  isDeleting (r_Meta pgRestore) = true ->
  (hasDeleteFinalizer pgRestore -> safe h (f pgRestore) (fun h' r => match r with
     | Ok _ => IsCompleted pgRestore = true \/ restore_ended h' \/
         exists e, got KPGCluster (om_Namespace (r_Meta pgRestore), r_PGCluster pgRestore) (Err e) ∈ h' /\
           IsNotFound e = true
     | Err _ => True end)) ->
  safe h (RunFinalizer (k := KRestore) pgRestore FinalizerDeleteRestore f) (fun _ _ => True).
Proof.
  intros Hd Hf. unfold RunFinalizer. rewrite ContainsFinalizer_spec.
  case_bool_decide as Ef; cbn [negb]; [|done]. rewrite wps_bind. eapply wps_conseq; [by apply Hf|].
  intros h' [[]|e] Hr; [|by case_match]. destruct (RemoveFinalizer _ _) as [fs [|]] eqn:Erm; [|done].
  cbv zeta. apply wps_call_bind. split; [|intros [?|e]; [done|by destruct (IsNotFound e)]].
  split_and!; try done; [by left|]. intros _. right. by split.
Qed.

Lemma runRestoreFinalizers_safe h :
  isDeleting (r_Meta pgRestore) = true ->
  safe h (runRestoreFinalizers pgRestore) (fun _ _ => True).
Proof.
  intros Hd. unfold runRestoreFinalizers. apply wps_call_bind. split; [done|].
  intros [pg|e]; cbv beta iota.
  - rewrite wps_bind. eapply (wps_conseq _ _ _ (fun _ _ => True)); [|by intros h' [? [?|?]] _].
    apply run_finalizer_safe; [done|]. intros Hf. unfold DisableRestore.
    destruct (_ || _) eqn:Ec; [by left|]. apply wps_call_bind. split.
    + right. split_and!; try done. apply elem_of_snoc.
    + intros [c|e]; [|done]. right. left. exists pg, c. apply elem_of_snoc.
  - destruct (IsNotFound e) eqn:En; cbn [negb]; [|done]. rewrite wps_bind.
    eapply (wps_conseq _ _ _ (fun _ _ => True)); [|by intros h' [? [?|?]] _].
    apply run_finalizer_safe; [done|]. intros _. right. right. exists e. split; [apply elem_of_snoc|done].
Qed.
End Spec.

(** ** Properties *)
Definition restore_reconcile_call `{ControllerRuntime} (request : key) (h : history) (o : op) : Prop :=
  (h = [] /\ o = Get KRestore request) \/
  exists r, let at_ := (request.1, r_PGCluster r) in
    (h = [got KRestore request (Ok r)] /\ o = Get KPGCluster at_) \/
    exists c, let start := [got KRestore request (Ok r); got KPGCluster at_ (Ok c)] in
      start `prefix_of` h /\
      (deref (c_Unmanaged c) false = false \/ isDeleting (r_Meta r) = true) /\
      if nonempty (r_VolumeSnapshotBackupName r) then on_suffix start (restore_from_snapshot_call c r) h o
      else restore_call c r h o.

(** C21: a reconcile of a restore, in every execution.  It reads the restore and
    its cluster, and does nothing else for an unmanaged cluster unless the
    restore is being deleted.  A restore of a volume snapshot is that of the
    snapshot state machine.  Otherwise the cluster is told to restore only for
    a new restore while none is enabled, and told to stop only when the
    restore is over or being deleted; each new state is written with the
    evidence for it: Starting when the cluster was told, Running when the job
    exists, Succeeded or Failed as the cluster reports it and after it was told
    to stop; and the finalizer is put on after the cluster was told to restore
    and goes only when it was told to stop, is gone, or the restore is over. *)
Theorem restore_state_machine `{ControllerRuntime} (BackupSnapshots : bool) (RFC3339 : Z -> string)
    (request : key) :
  wps (restore_reconcile_call request) [] (RestoreReconcile BackupSnapshots RFC3339 request)
    (fun _ _ => True).
Proof.
  unfold RestoreReconcile. apply wps_call_bind. split; [by left|]. intros [r|e]; [|done].
  apply wps_get_bindr. split; [right; exists r; by left|]. intros [c|e]; [|done].
  set (h := _ ++ _). destruct (_ && _) eqn:Eu; [done|].
  assert (Hu : deref (c_Unmanaged c) false = false \/ isDeleting (r_Meta r) = true).
  { apply andb_false_iff in Eu as [?|?]; bool_to_prop; auto. }
  assert (Hgo : forall G (p : action Result), wps G h p (fun _ _ => True) ->
    (forall h' o, G h' o -> if nonempty (r_VolumeSnapshotBackupName r)
       then on_suffix h (restore_from_snapshot_call c r) h' o else restore_call c r h' o) ->
    wps (restore_reconcile_call request) h p (fun _ _ => True)).
  { intros G p Hp HG. eapply wps_mono; [|done|apply (wps_invariant _ (fun h' => h `prefix_of` h') h p
      (fun _ _ => True) (fun _ Hp => Hp) Hp)].
    intros h' o [Hpre Ho]. right. exists r. right. exists c. split_and!; [done..|]. by apply HG. }
  destruct (nonempty (r_VolumeSnapshotBackupName r)).
  - eapply Hgo; [|intros h' o Ho; exact Ho]. eapply wps_mono; [intros h' o Ho; exact Ho| |
      apply wps_own, snapshotRestoreReconcile_safe]. done.
  - assert (Hc : forall p : action Result, wps (restore_call c r) h p (fun _ _ => True) ->
      wps (restore_reconcile_call request) h p (fun _ _ => True)) by (intros p Hp; by eapply Hgo).
    destruct (isDeleting (r_Meta r)) eqn:Ed.
    + apply Hc. rewrite wps_bindr. eapply wps_conseq; [by apply runRestoreFinalizers_safe|].
      by intros h' [?|?] _.
    + destruct (IsCompleted r); [done|]. apply Hc. destruct (r_State r) eqn:Es; try done.
      * by apply reconcileNewRestore_safe.
      * by apply reconcileStartingRestore_safe.
      * by apply reconcileRunningRestore_safe.
Qed.

(** A restore whose start was interrupted waits for itself.  When the
    cluster has been told to restore but the finalizer or the state could not
    be written, the restore is still new; every later reconcile then finds a
    restore enabled, takes it for another one and asks to be called again,
    without a write, for as long as the cluster stays as it was written. *)
Theorem interrupted_start_waits_for_itself `{ControllerRuntime} (BackupSnapshots : bool)
    (RFC3339 : Z -> string) (pgRestore : PerconaPGRestore) (pgCluster : PerconaPGCluster) :
  r_State pgRestore = RestoreNew -> isDeleting (r_Meta pgRestore) = false ->
  r_VolumeSnapshotBackupName pgRestore = "" -> deref (c_Unmanaged pgCluster) false = false ->
  exec (RestoreReconcile BackupSnapshots RFC3339 (objectKey (r_Meta pgRestore)))
    [got KRestore (objectKey (r_Meta pgRestore)) (Ok pgRestore);
     got KPGCluster (om_Namespace (r_Meta pgRestore), r_PGCluster pgRestore)
       (Ok (startedCluster pgCluster pgRestore))] (Ok 5%Z).
Proof.
  intros HN Hd Hv Hu. unfold RestoreReconcile. apply exec_call_bind. cbv beta iota.
  apply exec_call_bind. cbv beta iota.
  change (deref (c_Unmanaged (startedCluster pgCluster pgRestore)) false)
    with (deref (c_Unmanaged pgCluster) false).
  rewrite Hu, Hd, Hv. cbn [andb nonempty]. unfold IsCompleted. rewrite HN. by split.
Qed.

#[local] Existing Instance ConcreteRuntime.runtime.

Lemma restore_state_machine_witness :
  wps (restore_reconcile_call ("default", "restore1")) []
    (RestoreReconcile true (fun _ => "now") ("default", "restore1")) (fun _ _ => True).
Proof. exact (restore_state_machine true (fun _ => "now") ("default", "restore1")). Defined.

Lemma interrupted_start_waits_for_itself_witness :
  let r := exampleRestore RestoreNew <| r_VolumeSnapshotBackupName := "" |> <| r_RepoName := Some "repo1" |> in
  isDeleting (r_Meta r) = false /\
  exec (RestoreReconcile true (fun _ => "now") ("default", "restore1"))
    [got KRestore ("default", "restore1") (Ok r);
     got KPGCluster ("default", "cluster1") (Ok (startedCluster examplePGCluster r))] (Ok 5%Z).
Proof.
  intros r. split; [reflexivity|].
  exact (interrupted_start_waits_for_itself true (fun _ => "now") r examplePGCluster
    eq_refl eq_refl eq_refl eq_refl).
Defined.
