(* ===== verification/RestoreInPlace.v ===== *)
(** * Data sources and restores in place

    How a PostgresCluster is initialized from backups, and how a running one is
    taken down and restored: [reconcileDataSource] of
    [internal/controller/postgrescluster/cluster.go] with [observeRestoreEnv],
    [prepareForRestore] and the options of the restore job in [pgbackrest.go].
    What is left out of [reconcileDataSource] is the work of a plan to restore:
    volumes, configuration of the own repositories and the pod of the job. *)
From S2P Require Import Prelude GoStrings Cluster Parameters Prog Errors Naming Objects Client BackupUtils ObservedInstances PatroniControl ClusterStatus PGBackRest RepoBackups Restore.

Definition ConditionPostgresDataInitialized : string := "PostgresDataInitialized".
Definition ConditionPGBackRestRestoreProgressing : string := "PGBackRestoreProgressing".
Definition ReasonReadyForRestore : string := "ReadyForRestore".

(** ** What there is *)
Section Observe.
Context `{LabelMatching, MetaConditions}.

(** The Endpoints of Patroni, and those that exist. *)
Definition patroniEndpoints (c : CrunchyCluster) : list key :=
  map AsObjectKey [PatroniLeaderEndpoints (config c); PatroniDistributedConfiguration (config c); PatroniTrigger (config c)].

Fixpoint getEndpoints (l : list key) : action (list Endpoints) :=
  match l with
  | [] => Ret (Ok [])
  | k :: l =>
      let! r := call (Get KEndpoints k) in
      match r with
      | Ok ep => do! eps := getEndpoints l in Ret (Ok (ep :: eps))
      | Err e => if IsNotFound e then getEndpoints l else Ret (Err e)
      end
  end.

Fixpoint deleteEach (k : kind) (l : list (obj k)) : action unit :=
  match l with
  | [] => Ret (Ok tt)
  | o :: l => do! _ := call (Delete k (objectKey (meta o)) NoOptions) in deleteEach k l
  end.

(** What only the restore job used. *)
Definition deleteRestoreConfig (c : CrunchyCluster) : action unit :=
  let selector := ByLabels (PGBackRestRestoreConfigSelector (cc_Name c)) in
  do! restoreConfigMaps := call (ListAll KConfigMap (cc_Namespace c) selector) in
  do! _ := deleteEach KConfigMap restoreConfigMaps in
  do! restoreSecrets := call (ListAll KSecret (cc_Namespace c) selector) in
  deleteEach KSecret restoreSecrets.

(** The status of the restore follows the job, whichever restore it is of. *)
Definition followRestore (job : Job) (c : CrunchyCluster) : CrunchyCluster :=
  match cc_PGBackRest c with
  | Some ps => c <| cc_PGBackRest := Some (ps <| ps_Restore ::= fmap (followJob job) |>) |>
  | None => c
  end.

Definition observeRestoreJob (c : CrunchyCluster) (job : Job) : program (CrunchyCluster * option error) :=
  let c := followRestore job c in
  if JobCompleted job then
    let! c := setCondition c ConditionPostgresDataInitialized
      (ConditionTrue, "PGBackRestRestoreComplete", "pgBackRest restore completed successfully") in
    let c := onClusterConditions (fun l => RemoveStatusCondition l ConditionPGBackRestRestoreProgressing) c in
    let! r := deleteRestoreConfig c in
    Ret (c, match r with Ok _ => None | Err e => Some e end)
  else if JobFailed job then
    let! c := setCondition c ConditionPostgresDataInitialized
      (ConditionFalse, "PGBackRestRestoreFailed", "pgBackRest restore failed") in
    Ret (c, None)
  else Ret (c, None).

Definition observeRestoreEnv (c : CrunchyCluster) : program (CrunchyCluster * result (list Endpoints * option Job)) :=
  let! eps := getEndpoints (patroniEndpoints c) in
  match eps with
  | Err e => Ret (c, Err e)
  | Ok currentEndpoints =>
      let! restoreJobs := call (ListAll KJob (cc_Namespace c) (ByLabels (PGBackRestRestoreJobSelector (cc_Name c)))) in
      match restoreJobs with
      | Err e => Ret (c, Err e)
      | Ok [] => Ret (c, Ok (currentEndpoints, None))
      | Ok [job] =>
          let! r := observeRestoreJob c job in
          Ret (fst r, match snd r with Some e => Err e | None => Ok (currentEndpoints, Some job) end)
      | Ok _ => Ret (c, Err (New ("invalid number of restore Jobs found when attempting to reconcile a " +:+
                                  "pgBackRest data source")))
      end
  end.
End Observe.

(** ** Taking the cluster down *)
Section Prepare.
Context `{MetaConditions, SafeEncode}.

Definition clusterRunning (o : observedInstances) : bool :=
  existsb (fun i => fst (IsRunning i "database")) (forCluster o).

Definition runnersOf (o : observedInstances) : list StatefulSet := omap i_Runner (forCluster o).

(** The last one that says so. *)
Definition primaryOf (o : observedInstances) : option Instance :=
  last (List.filter (fun i => fst (IsPrimary i)) (forCluster o)).

(** The instance whose volume is restored into.  A primary without an instance
    set in the specification is a nil dereference. *)
Definition chooseStartupInstance (c : CrunchyCluster) (o : observedInstances) : result CrunchyCluster :=
  let starts name set := Ok (c <| cc_StartupInstance := name |> <| cc_StartupInstanceSet := set |>) in
  if nonempty (cc_StartupInstance c) then Ok c
  else
    match primaryOf o with
    | Some primary =>
        match i_Spec primary with
        | Some set => starts (i_Name primary) (is_Name set)
        | None => Err panic
        end
    | None =>
        match runnersOf o with
        | runner :: _ => starts (om_Name (st_Meta runner)) (label (st_Meta runner) LabelInstanceSet)
        | [] =>
            match cc_InstanceSets c with
            | set :: _ =>
                match GenerateStartupInstance (config c) (is_Name set) with
                | Some m => starts (meta_Name m) (is_Name set)
                | None => Err panic
                end
            | [] => Err (New "unable to determine startup instance for restore")
            end
        end
    end.

Definition setPreparingClusterCondition (c : CrunchyCluster) (resource : string) : program CrunchyCluster :=
  setCondition c ConditionPGBackRestRestoreProgressing
    (ConditionTrue, "RestoreInPlaceRequested", "Preparing cluster to restore in-place: " +:+ resource).

Fixpoint deleteExisting (k : kind) (l : list (obj k)) (opts : DeleteOptions) : program (option error) :=
  match l with
  | [] => Ret None
  | o :: l =>
      let! r := call (Delete k (objectKey (meta o)) opts) in
      match r with
      | Ok _ => deleteExisting k l opts
      | Err e => if IsNotFound e then deleteExisting k l opts else Ret (Some e)
      end
  end.

(** The cluster is no longer bootstrapped. *)
Definition forgetDatabase (c : CrunchyCluster) : CrunchyCluster :=
  c <| cc_Patroni ::= fun p => p <| pt_SystemIdentifier := "" |> |>
    <| cc_PGBouncerRevision := "" |> <| cc_ExporterConfiguration := "" |>.

(** One step, by what there still is: the job of an earlier restore, running
    databases, Endpoints of Patroni; when there is none of them the cluster is
    ready. *)
Definition prepareForRestore (c : CrunchyCluster) (observed : observedInstances) (currentEndpoints : list Endpoints)
    (restoreJob : option Job) (restoreID : string) : program (CrunchyCluster * option error) :=
  let c := c <| cc_PGBackRest := Some (emptyBackRest <| ps_Restore := Some (mkJobStatus restoreID false 0 0 None None 0) |>) |> in
  match chooseStartupInstance c observed with
  | Err e => Ret (c, Some e)
  | Ok c =>
      match restoreJob with
      | Some job =>
          let! c := setPreparingClusterCondition c "removing restore job" in
          let! r := call (Delete KJob (objectKey (j_Meta job)) Background) in
          Ret (c, match r with Ok _ => None | Err e => Some e end)
      | None =>
          if clusterRunning observed then
            let! c := setPreparingClusterCondition c "removing runners" in
            let! e := deleteExisting KSts (runnersOf observed) Foreground in
            Ret (c, e)
          else
            match currentEndpoints with
            | [] =>
                let c := onClusterConditions (fun l => RemoveStatusCondition l ConditionPostgresDataInitialized) c in
                let! c := setCondition c ConditionPGBackRestRestoreProgressing
                  (ConditionTrue, ReasonReadyForRestore, "Restoring cluster in-place") in
                Ret (forgetDatabase c, None)
            | _ =>
                let! c := setPreparingClusterCondition c "removing DCS" in
                let! e := deleteExisting KEndpoints currentEndpoints NoOptions in
                Ret (c, e)
            end
      end
  end.
End Prepare.

(** ** Which data to restore, and whether *)
Section DataSources.
Context `{LabelMatching, MetaConditions, SafeEncode}.

(** A plan to restore from the backups of a cluster, or from a repository. *)
Inductive restorePlan :=
| FromCluster (dataSource : DataSource) (configHash : string)
| FromCloud (dataSource : CloudDataSource) (configHash : string).

Definition postgresDataInitRequested (c : CrunchyCluster) : bool :=
  match cc_DataSource c with
  | Some ds => bool_decide (is_Some (cds_PostgresCluster ds)) || bool_decide (is_Some (cds_PGBackRest ds))
  | None => false
  end.

(** [None] is the nil dereference of [enabled]. *)
Definition restoreInPlaceRequested (c : CrunchyCluster) : option bool :=
  if nonempty (annotation (cc_Meta c) PGBackRestRestore) then
    match pa_Restore (cc_Backups c) with
    | Some r => rs_Enabled r
    | None => Some false
    end
  else Some false.

Definition bootstrapID (c : CrunchyCluster) : string := "~pgo-bootstrap-" +:+ cc_Name c.

(** The identifier of the restore that is asked for, and its source. *)
Definition requestedRestore (c : CrunchyCluster) : result (option (string * option DataSource * option CloudDataSource)) :=
  match restoreInPlaceRequested c with
  | None => Err panic
  | Some true =>
      Ok (Some (annotation (cc_Meta c) PGBackRestRestore, pa_Restore (cc_Backups c) ≫= rs_Source, None))
  | Some false =>
      if postgresDataInitRequested c then
        let dataSource := cc_DataSource c ≫= cds_PostgresCluster in
        Ok (Some (bootstrapID c, dataSource,
                  match dataSource with Some _ => None | None => cc_DataSource c ≫= cds_PGBackRest end))
      else Ok None
  end.

Definition restoreConfigs (dataSource : option DataSource) (cloud : option CloudDataSource) : list string :=
  match dataSource, cloud with
  | Some d, _ => ds_ClusterName d :: ds_RepoName d :: ds_Options d
  | None, Some d => cl_Stanza d :: repo_Name (cl_Repo d) :: cl_Options d
  | None, None => []
  end.

Definition restoringInPlace (c : CrunchyCluster) : bool :=
  conditionHolds (cc_Conditions c) ConditionPGBackRestRestoreProgressing.

Definition readyForRestore (c : CrunchyCluster) : bool :=
  match FindStatusCondition (cc_Conditions c) ConditionPGBackRestRestoreProgressing with
  | Some cond => restoringInPlace c && bool_decide (cond_Reason cond = ReasonReadyForRestore)
  | None => false
  end.

(** [status.pgbackrest.restore.id] *)
Definition restoreIDStatus (c : CrunchyCluster) : string :=
  match cc_PGBackRest c ≫= ps_Restore with Some st => jst_ID st | None => "" end.

(** Whether the cluster is to be taken down first. *)
Definition mustPrepare (c : CrunchyCluster) (restoreID configHash : string) (restoreJob : option Job) : bool :=
  let configChanged := match restoreJob with
                       | Some job => negb (bool_decide (configHash = annotation (j_Meta job) PGBackRestConfigHash))
                       | None => false
                       end in
  (restoringInPlace c && (negb (readyForRestore c) || configChanged))
  || negb (bool_decide (restoreID = restoreIDStatus c)).

(** Whether the reconciliation ends here, and the plan that is then to be
    worked on. *)
Definition reconcileDataSource (c : CrunchyCluster) (observed : observedInstances)
    : program (CrunchyCluster * result (bool * option restorePlan)) :=
  let! env := observeRestoreEnv c in
  let '(c, env) := env in
  match env with
  | Err e => Ret (c, Err e)
  | Ok (endpoints, restoreJob) =>
      match requestedRestore c with
      | Err e => Ret (c, Err e)
      | Ok None => Ret (c, Ok (false, None))
      | Ok (Some (restoreID, dataSource, cloudDataSource)) =>
          let configHash := safeHash32 (restoreConfigs dataSource cloudDataSource) in
          if mustPrepare c restoreID configHash restoreJob then
            let! r := prepareForRestore c observed endpoints restoreJob restoreID in
            Ret (fst r, match snd r with Some e => Err e | None => Ok (true, None) end)
          else if conditionHolds (cc_Conditions c) ConditionPostgresDataInitialized then Ret (c, Ok (false, None))
          else
            Ret (c, Ok (true, match dataSource, cloudDataSource with
                              | Some d, _ => Some (FromCluster d configHash)
                              | None, Some d => Some (FromCloud d configHash)
                              | None, None => None
                              end))
      end
  end.
End DataSources.

(** ** Working on a plan *)
Section Restore.
Context `{MetaConditions}.

(** Where the data goes: the instance and its set. *)
Definition restoreTarget (c : CrunchyCluster) : result (string * PostgresInstanceSetSpec) :=
  if negb (nonempty (cc_StartupInstance c)) then Err (New "unable to find instance name for pgBackRest restore Job")
  else if negb (nonempty (cc_StartupInstanceSet c)) then
    Err (New "unable to find instance set name for pgBackRest restore Job")
  else
    match List.find (fun set => bool_decide (is_Name set = cc_StartupInstanceSet c)) (cc_InstanceSets c) with
    | Some set => Ok (cc_StartupInstance c, set)
    | None => Err (New "unable to determine the proper instance set for the restore")
    end.

(** Nothing is restored into a cluster that is bootstrapped. *)
Definition recordBootstrapped (c : CrunchyCluster) : program CrunchyCluster :=
  if conditionHolds (cc_Conditions c) ConditionPostgresDataInitialized then Ret c
  else setCondition c ConditionPostgresDataInitialized
         (ConditionTrue, "ClusterAlreadyBootstrapped", "The cluster is already bootstrapped").

(** *** The options of the restore *)

(** The message for an option that belongs to the operator. *)
Definition refusedOption (opt : string) : option string :=
  if Contains opt "--repo=" || Contains opt "--repo " then
    Some "Option '--repo' is not allowed: please use the 'repoName' field instead."
  else if Contains opt "--stanza" then
    Some ("Option '--stanza' is not allowed: the operator will automatically set this " +:+ "option")
  else if Contains opt "--pg1-path" then
    Some ("Option '--pg1-path' is not allowed: the operator will automatically set this " +:+ "option")
  else if Contains opt "--target-action" then
    Some ("Option '--target-action' is not allowed: the operator will automatically set this " +:+ "option ")
  else if Contains opt "--link-map" then
    Some ("Option '--link-map' is not allowed: the operator will automatically set this " +:+ "option ")
  else None.

(** [postgres.WALDirectory] *)
Definition WALStorage (set : PostgresInstanceSetSpec) : string := if is_WALVolume set then "/pgwal" else "/pgdata".
Definition WALDirectory (c : CrunchyCluster) (set : PostgresInstanceSetSpec) : string :=
  WALStorage set +:+ "/pg" +:+ pretty (pc_PostgresVersion (cc_Config c)) +:+ "_wal".

Definition foundRestoreCommand (opts : list string) : bool :=
  existsb (fun opt => negb (Contains opt "--target") && negb (Contains opt "--delta")
                      && (Contains opt "restore_command" || Contains opt "restore-command")) opts.

Definition restoreOptions (c : CrunchyCluster) (repoName : string) (options : list string)
    (instanceSetName stanzaName : string) : list string :=
  let own := options ++ ["--stanza=" +:+ stanzaName; "--pg1-path=" +:+ DataDirectory (config c);
                         "--repo=" +:+ repoIndex repoName] in
  let foundTarget := existsb (fun opt => Contains opt "--target") own in
  let deltaOptFound := existsb (fun opt => negb (Contains opt "--target") && Contains opt "--delta") own in
  let sets := List.filter (fun set => bool_decide (is_Name set = instanceSetName)) (cc_InstanceSets c) in
  own ++ (if deltaOptFound then [] else ["--delta"]) ++ (if foundTarget then ["--target-action=promote"] else [])
  ++ map (fun set => "--link-map=pg_wal=" +:+ WALDirectory c set) sets
  ++ (if ext_PGTDE_WALEncryption (pc_Extensions (cc_Config c)) && negb (foundRestoreCommand own)
      then ["'--recovery-option=restore_command=" +:+ WALEncryptRestoreCommand (" --repo=" +:+ repoIndex repoName) +:+ "'"]
      else []).

(** The options of the job, or none when an option of the user is refused. *)
Definition restoreJobOptions (c : CrunchyCluster) (repoName : string) (options : list string)
    (instanceSetName stanzaName : string) : program (option (list string)) :=
  match list_find (fun opt => is_Some (refusedOption opt)) options with
  | Some _ => let! _ := call (Event "Warning" "InvalidDataSource") in Ret None
  | None => Ret (Some (restoreOptions c repoName options instanceSetName stanzaName))
  end.
End Restore.

(** *** Configuration of another cluster *)
Section Copies.
Context `{GoVersion, LabelMatching, ControllerRuntime}.

Definition restoreCopyName (name : string) (i : nat) : string := name +:+ "-restorecopy-" +:+ pretty i.

(** How the loop over the configuration goes on. *)
Inductive copied := Copied (name : string) | NotThere | Leave (err : option error).

Definition copyMeta (c : CrunchyCluster) (name : string) : ObjectMeta :=
  mkMeta name (cc_Namespace c) "" "" 0 0 None
    (backupLabels c (PGBackRestRestoreJobLabels (cc_Name c))) (backupAnnotations c ∅) [] None "".

(** [r.apply] of a copy that the cluster owns. *)
Definition applyOwned (k : kind) (c : CrunchyCluster) (o : obj k) : action unit :=
  match SetControllerReference (cc_Meta c) (meta o) with
  | Err e => Ret (Err e)
  | Ok m => ignore (call (Apply k (onMeta (fun _ => m) o)))
  end.
(** A Secret or ConfigMap of the configuration. *)
Definition copyResource (k : kind) (o : obj k -> ObjectMeta -> obj k) (c : CrunchyCluster) (sourceNamespace : string)
    (i : nat) (p : ResourceProjection) : program copied :=
  let! r := call (Get k (sourceNamespace, rp_Name p)) in
  if deref (rp_Optional p) false then
    match r with
    | Err e => Ret (if IsNotFound e then NotThere else Leave (Some e))
    | Ok _ => Ret (Leave None)
    end
  else
    match r with
    | Err e => Ret (Leave (Some e))
    | Ok found =>
        let name := restoreCopyName (rp_Name p) i in
        let! a := applyOwned k c (o found (copyMeta c name)) in
        Ret (match a with Ok _ => Copied name | Err e => Leave (Some e) end)
    end.

Definition withMeta (o : DataObject) (m : ObjectMeta) : DataObject := o <| d_Meta := m |>.

(** One part of an item, and how the loop goes on after it. *)
Definition copyPart (k : kind) (o : obj k -> ObjectMeta -> obj k) (c : CrunchyCluster) (sourceNamespace : string)
    (i : nat) (p : option ResourceProjection) : program (option ResourceProjection * copied) :=
  match p with
  | None => Ret (None, Copied "")
  | Some p =>
      let! r := copyResource k o c sourceNamespace i p in
      Ret (Some match r with Copied name => p <| rp_Name := name |> | _ => p end, r)
  end.

(** The items with the names of their copies, from the index [i] on. *)
Fixpoint copyConfiguration (c : CrunchyCluster) (sourceNamespace : string) (i : nat) (l : list VolumeProjection)
    : program (list VolumeProjection * option error) :=
  match l with
  | [] => Ret ([], None)
  | v :: l =>
      let next (v : VolumeProjection) :=
        let! r := copyConfiguration c sourceNamespace (S i) l in Ret (v :: fst r, snd r) in
      let! r := copyPart KSecret withMeta c sourceNamespace i (vp_Secret v) in
      let v := v <| vp_Secret := fst r |> in
      match snd r with
      | NotThere => next v
      | Leave err => Ret (v :: l, err)
      | Copied _ =>
          let! r := copyPart KConfigMap withMeta c sourceNamespace i (vp_ConfigMap v) in
          let v := v <| vp_ConfigMap := fst r |> in
          match snd r with
          | NotThere | Copied _ => next v
          | Leave err => Ret (v :: l, err)
          end
      end
  end.

Definition copyConfigurationResources (c sourceCluster : CrunchyCluster) : program (CrunchyCluster * option error) :=
  let! r := copyConfiguration c (cc_Namespace sourceCluster) 0 (pa_Configuration (cc_Backups sourceCluster)) in
  Ret (sourceCluster <| cc_Backups ::= fun b => b <| pa_Configuration := fst r |> |>, snd r).

(** [clientCertificates] *)
Definition clientCertificates : list string := ["pgbackrest.ca-roots"; "pgbackrest-client.crt"; "pgbackrest-client.key"].

(** [pgbackrest.RestoreConfig] with a target without data: what the ConfigMap
    and the Secret get. *)
Definition RestoreConfig (sourceConfigMap : gmap string string) (sourceSecret : option (gmap string string))
    : gmap string string * gmap string string :=
  ({[CMInstanceKey := default "" (sourceConfigMap !! CMInstanceKey)]},
   match sourceSecret with
   | Some data => list_to_map (map (fun k => (k, default "" (data !! k))) clientCertificates)
   | None => ∅
   end).

Definition configMeta (m : NamedMeta) (c : CrunchyCluster) (labels : gmap string string) : ObjectMeta :=
  mkMeta (meta_Name m) (meta_Namespace m) "" "" 0 0 None labels (backupAnnotations c ∅) [] None "".

Definition copyRestoreConfiguration (c sourceCluster : CrunchyCluster) : program (CrunchyCluster * option error) :=
  let stop e := Ret (sourceCluster, Some e) in
  let! sourceConfig := call (Get KConfigMap (AsObjectKey (PGBackRestConfig (config sourceCluster)))) in
  match sourceConfig with
  | Err e => stop e
  | Ok sourceConfig =>
      let! sourceSecret := call (Get KSecret (AsObjectKey (PGBackRestSecret (config sourceCluster)))) in
      match (match sourceSecret with
             | Ok s => Ok (Some (d_Data s))
             | Err e => if IsNotFound e then Ok None else Err e
             end) with
      | Err e => stop e
      | Ok sourceSecret =>
          let labels := Merge [md_Labels (cc_Metadata c); md_Labels (pa_Metadata (cc_Backups c));
                               PGBackRestConfigLabels (cc_Name c)] in
          let data := RestoreConfig (d_Data sourceConfig) sourceSecret in
          match SetControllerReference (cc_Meta c)
                  (configMeta (PGBackRestConfig (config c)) c (backupLabels c (PGBackRestConfigLabels (cc_Name c)))),
                SetControllerReference (cc_Meta c) (configMeta (PGBackRestSecret (config c)) c labels) with
          | Ok configMap, Ok secret =>
              let! r := call (Apply KConfigMap (mkData configMap (fst data))) in
              match r with
              | Err e => stop e
              | Ok _ =>
                  let! r := if bool_decide (snd data = ∅) then Ret (Ok tt)
                            else ignore (call (Apply KSecret (mkData secret (snd data)))) in
                  match r with
                  | Err e => stop e
                  | Ok _ => copyConfigurationResources c sourceCluster
                  end
              end
          | Err e, _ | _, Err e => stop e
          end
      end
  end.
End Copies.

(** ** Safety *)
Section RestoreCalls.
Context `{LabelMatching, MetaConditions, SafeEncode}.
Context (c : CrunchyCluster) (o : observedInstances).

Definition restoreJobList : op := ListAll KJob (cc_Namespace c) (ByLabels (PGBackRestRestoreJobSelector (cc_Name c))).

(** The restore jobs that were found. *)
Definition foundJobs (h : history) (jobs : list Job) : Prop :=
  (Ev restoreJobList (Ok jobs : result (list Job)) : event resp) ∈ h.

#[export] Instance foundJobs_grows jobs : Grows (fun h => foundJobs h jobs).
Proof. unfold foundJobs. apply _. Qed.

Definition noEndpoints (h : history) : Prop :=
  forall k, k ∈ patroniEndpoints c -> exists e, IsNotFound e = true /\ got KEndpoints k (Err e) ∈ h.

#[export] Instance noEndpoints_grows : Grows noEndpoints.
Proof. unfold noEndpoints. apply _. Qed.

Definition foundEndpoints (h : history) (ep : Endpoints) : Prop :=
  exists k, k ∈ patroniEndpoints c /\ got KEndpoints k (Ok ep) ∈ h.

#[export] Instance foundEndpoints_grows ep : Grows (fun h => foundEndpoints h ep).
Proof. unfold foundEndpoints. apply _. Qed.

Definition configSelector : ListSelector := ByLabels (PGBackRestRestoreConfigSelector (cc_Name c)).

(** A restore is asked for that is new or in progress. *)
Definition restoreDemanded : Prop :=
  exists id d cl, requestedRestore c = Ok (Some (id, d, cl)) /\ (id <> restoreIDStatus c \/ restoringInPlace c = true).

Definition restore_guard (h : history) (call_ : op) : Prop :=
  match call_ with
  | Get KEndpoints k => k ∈ patroniEndpoints c
  | ListAll KJob ns sel => ListAll KJob ns sel = restoreJobList
  | ListAll KConfigMap ns sel | ListAll KSecret ns sel => ns = cc_Namespace c /\ sel = configSelector
  | Delete KJob at_ Background =>
      exists job, foundJobs h [job] /\ at_ = objectKey (j_Meta job) /\ restoreDemanded
  | Delete KSts at_ Foreground =>
      foundJobs h [] /\ restoreDemanded /\ clusterRunning o = true /\
      exists r, r ∈ runnersOf o /\ at_ = objectKey (st_Meta r)
  | Delete KEndpoints at_ NoOptions =>
      foundJobs h [] /\ restoreDemanded /\ clusterRunning o = false /\
      exists ep, foundEndpoints h ep /\ at_ = objectKey (ep_Meta ep)
  | Delete KConfigMap at_ NoOptions =>
      (exists job, foundJobs h [job] /\ JobCompleted job = true) /\
      exists l x, (Ev (ListAll KConfigMap (cc_Namespace c) configSelector : op) (Ok l : result (list DataObject))) ∈ h /\
        x ∈ l /\ at_ = objectKey (d_Meta x)
  | Delete KSecret at_ NoOptions =>
      (exists job, foundJobs h [job] /\ JobCompleted job = true) /\
      exists l x, (Ev (ListAll KSecret (cc_Namespace c) configSelector : op) (Ok l : result (list DataObject))) ∈ h /\
        x ∈ l /\ at_ = objectKey (d_Meta x)
  | Now => True
  | _ => False
  end.

(** *** The reads *)
Definition endpoints_seen (keys : list key) (h : history) (l : list Endpoints) : Prop :=
  (forall ep, ep ∈ l -> exists k, k ∈ keys /\ got KEndpoints k (Ok ep) ∈ h) /\
  (l = [] -> forall k, k ∈ keys -> exists e, IsNotFound e = true /\ got KEndpoints k (Err e) ∈ h).

Lemma wps_getEndpoints keys : forall h Q,
  (forall k, k ∈ keys -> k ∈ patroniEndpoints c) ->
  (forall h' e, h `prefix_of` h' -> Q h' (Err e)) ->
  (forall h' l, h `prefix_of` h' -> endpoints_seen keys h' l -> Q h' (Ok l)) ->
  wps restore_guard h (getEndpoints keys) Q.
Proof.
  induction keys as [|k keys IH]; intros h Q Hk He Hq; simpl.
  { apply Hq; [done|]. split; [by intros ? ?%elem_of_nil|by intros _ ? ?%elem_of_nil]. }
  split; [apply Hk; left|]. intros r. set (h1 := h ++ _). assert (Hp1 : h `prefix_of` h1) by by apply prefix_app_r.
  assert (Hk' : forall k', k' ∈ keys -> k' ∈ patroniEndpoints c) by (intros; apply Hk; by right).
  destruct r as [ep|e].
  - apply wps_bindr, IH; [done|intros h' e Hp; apply He; by etransitivity|].
    intros h' l Hp [Hl _]. cbn [wps]. apply Hq; [by etransitivity|]. split; [|done].
    intros ep' [->|Hin]%elem_of_cons.
    + exists k. split; [left|]. eapply (grows (P := elem_of _)); [apply elem_of_snoc|done].
    + destruct (Hl ep' Hin) as (k' & ? & ?). exists k'. split; [by right|done].
  - destruct (IsNotFound e) eqn:En; [|by apply He].
    apply IH; [done|intros h' e' Hp; apply He; by etransitivity|].
    intros h' l Hp [Hl Hn]. apply Hq; [by etransitivity|]. split.
    + intros ep Hin. destruct (Hl ep Hin) as (k' & ? & ?). exists k'. split; [by right|done].
    + intros El k' [->|Hin]%elem_of_cons; [|by apply Hn].
      exists e. split; [done|]. eapply (grows (P := elem_of _)); [apply elem_of_snoc|done].
Qed.

Lemma wps_deleteEach k l : forall h Q,
  (forall h' x, h `prefix_of` h' -> x ∈ l -> restore_guard h' (Delete k (objectKey (meta x)) NoOptions)) ->
  (forall h' r, h `prefix_of` h' -> Q h' r) ->
  wps restore_guard h (deleteEach k l) Q.
Proof.
  induction l as [|x l IH]; intros h Q Hd Hq; cbn [deleteEach]; [by apply Hq|].
  apply wps_bindr. split; [apply Hd; [done|left]|]. intros [[]|e]; [|apply Hq; by apply prefix_app_r].
  apply IH; [intros h' x' Hp Hx; apply Hd; [|by right]|intros h' r Hp; apply Hq]; (etransitivity; [|exact Hp]; by apply prefix_app_r).
Qed.

Lemma wps_deleteRestoreConfig h Q :
  (exists job, foundJobs h [job] /\ JobCompleted job = true) ->
  (forall h' r, h `prefix_of` h' -> Q h' r) ->
  wps restore_guard h (deleteRestoreConfig c) Q.
Proof.
  intros Hj Hq. unfold deleteRestoreConfig. apply wps_list_bindr. split; [done|]. intros [maps|e]; [|apply Hq; by apply prefix_app_r].
  set (h1 := h ++ _). assert (Hp1 : h `prefix_of` h1) by by apply prefix_app_r.
  apply wps_bindr, wps_deleteEach.
  - intros h' x Hp Hx. split; [eapply (grows (P := fun h => exists job, foundJobs h [job] /\ _)); [exact Hj|by etransitivity]|].
    exists maps, x. split_and!; [|done|done]. eapply (grows (P := elem_of _)); [apply elem_of_snoc|done].
  - intros h2 [[]|e] Hp2; [|apply Hq; by etransitivity]. apply wps_list_bindr. split; [done|].
    intros [secrets|e]; [|apply Hq; etransitivity; [|by apply prefix_app_r]; by etransitivity].
    set (h3 := h2 ++ _). assert (Hp3 : h2 `prefix_of` h3) by by apply prefix_app_r.
    assert (h `prefix_of` h3) by (do 2 (etransitivity; [eassumption|]); done).
    apply wps_deleteEach.
    + intros h' x Hp Hx. split; [eapply (grows (P := fun h => exists job, foundJobs h [job] /\ _)); [exact Hj|by etransitivity]|].
      exists secrets, x. split_and!; [|done|done]. eapply (grows (P := elem_of _)); [apply elem_of_snoc|done].
    + intros h' r Hp. apply Hq. by etransitivity.
Qed.

(** What the observation of a job changes in the cluster, at most. *)
Definition observed_from (c' : CrunchyCluster) : Prop :=
  (requestedRestore c' = requestedRestore c /\ restoreIDStatus c' = restoreIDStatus c /\
   cc_Patroni c' = cc_Patroni c /\ cc_StartupInstance c' = cc_StartupInstance c) /\
  (restoringInPlace c' = true -> restoringInPlace c = true).

Lemma observed_from_refl : observed_from c.
Proof. done. Qed.

Lemma restoreIDStatus_follow job : restoreIDStatus (followRestore job c) = restoreIDStatus c.
Proof. unfold restoreIDStatus, followRestore. destruct (cc_PGBackRest c) as [[m r rr repos]|] eqn:E; [|by rewrite E].
  cbn. by destruct r. Qed.

Lemma requested_follow job : requestedRestore (followRestore job c) = requestedRestore c.
Proof. unfold followRestore. by destruct (cc_PGBackRest c). Qed.

Lemma conditionHolds_set_other now l cond t :
  t <> cond_Type cond -> conditionHolds (SetStatusCondition now l cond) t = conditionHolds l t.
Proof. intros Ht. unfold conditionHolds. by rewrite SetStatusCondition_other. Qed.

Lemma conditionHolds_remove_other l t t' : t' <> t -> conditionHolds (RemoveStatusCondition l t) t' = conditionHolds l t'.
Proof. intros Ht. unfold conditionHolds. by rewrite RemoveStatusCondition_other. Qed.

Lemma conditionHolds_removed l t : conditionHolds (RemoveStatusCondition l t) t = false.
Proof. unfold conditionHolds. by rewrite RemoveStatusCondition_same. Qed.

Lemma deleteRestoreConfig_names c1 c2 : cc_Meta c1 = cc_Meta c2 -> deleteRestoreConfig c1 = deleteRestoreConfig c2.
Proof. intros E. unfold deleteRestoreConfig, cc_Name, cc_Namespace. by rewrite E. Qed.

Lemma followRestore_same job :
  cc_Meta (followRestore job c) = cc_Meta c /\ cc_Patroni (followRestore job c) = cc_Patroni c /\
  cc_StartupInstance (followRestore job c) = cc_StartupInstance c /\ cc_Conditions (followRestore job c) = cc_Conditions c.
Proof. unfold followRestore. by destruct (cc_PGBackRest c). Qed.

(** The observation sets one condition, and may remove that of the progress. *)
Lemma observed_follow job f :
  (conditionHolds (f (cc_Conditions c)) ConditionPGBackRestRestoreProgressing = true ->
   conditionHolds (cc_Conditions c) ConditionPGBackRestRestoreProgressing = true) ->
  observed_from (onClusterConditions f (followRestore job c)).
Proof.
  intros Hf. destruct (followRestore_same job) as (_ & Hp & Hst & Hc). split; [split_and!|].
  - apply requested_follow.
  - apply restoreIDStatus_follow.
  - exact Hp.
  - exact Hst.
  - unfold restoringInPlace. change (cc_Conditions (onClusterConditions f (followRestore job c)))
      with (f (cc_Conditions (followRestore job c))). by rewrite Hc.
Qed.

Lemma wps_observeRestoreEnv h Q :
  (forall h' c' e, h `prefix_of` h' -> cc_Patroni c' = cc_Patroni c -> Q h' (c', Err e)) ->
  (forall h' c' l job, h `prefix_of` h' -> endpoints_seen (patroniEndpoints c) h' l -> foundJobs h' (option_list job) ->
     observed_from c' -> Q h' (c', Ok (l, job))) ->
  wps restore_guard h (observeRestoreEnv c) Q.
Proof.
  intros He Hq. unfold observeRestoreEnv. rewrite wps_bind. apply wps_getEndpoints; [done|intros h' e Hp; by apply He|].
  intros h1 eps Hp1 Hs. rewrite wps_call_bind. split; [done|]. intros r. set (h2 := h1 ++ _).
  assert (Hp2 : h1 `prefix_of` h2) by by apply prefix_app_r. assert (h `prefix_of` h2) by by etransitivity.
  assert (Hs2 : forall h', h2 `prefix_of` h' -> endpoints_seen (patroniEndpoints c) h' eps).
  { intros h' Hp. destruct Hs as [Hl Hn]. assert (Hp' : h1 `prefix_of` h') by by etransitivity. split.
    - intros ep Hin. destruct (Hl ep Hin) as (k & ? & Hk). exists k. split; [done|]. by eapply (grows (P := elem_of _)).
    - intros E k Hk. destruct (Hn E k Hk) as (e & ? & Hg). exists e. split; [done|]. by eapply (grows (P := elem_of _)). }
  destruct r as [[|job [|job2 jobs]]|e]; cbn [wps]; [| |by apply He|by apply He].
  { apply Hq; [done|by apply Hs2|apply elem_of_snoc|done]. }
  assert (Hf : foundJobs h2 [job]) by apply elem_of_snoc.
  destruct (followRestore_same job) as (Hm & Hpt & _ & _).
  unfold observeRestoreJob. destruct (JobCompleted job) eqn:Ec; [|destruct (JobFailed job)]; rewrite ?wps_bind.
  - apply wps_setCondition; [done|]. intros h3 now Hp3. cbv zeta. rewrite wps_bind.
    rewrite (deleteRestoreConfig_names _ c) by exact Hm. apply wps_deleteRestoreConfig.
    { exists job. split; [by eapply (grows (P := fun h => foundJobs h [job]))|done]. }
    intros h4 r Hp4. assert (h2 `prefix_of` h4) by by etransitivity. assert (h `prefix_of` h4) by by etransitivity.
    destruct r as [[]|e]; cbn [wps fst snd]; [|apply He; [done|exact Hpt]].
    apply Hq; [done|by apply Hs2|by eapply (grows (P := fun h => foundJobs h [job]))|].
    apply (observed_follow job (fun l => RemoveStatusCondition (SetStatusCondition now l _) _)).
    by rewrite conditionHolds_removed.
  - apply wps_setCondition; [done|]. intros h3 now Hp3. cbn [wps fst snd].
    assert (h `prefix_of` h3) by by etransitivity.
    apply Hq; [done|by apply Hs2|by eapply (grows (P := fun h => foundJobs h [job]))|].
    apply (observed_follow job (fun l => SetStatusCondition now l _)). by rewrite conditionHolds_set_other.
  - cbn [wps fst snd]. apply Hq; [done|by apply Hs2|exact Hf|]. by apply (observed_follow job id).
Qed.

Lemma wps_deleteExisting k l opts : forall h Q,
  (forall h' x, h `prefix_of` h' -> x ∈ l -> restore_guard h' (Delete k (objectKey (meta x)) opts)) ->
  (forall h' r, h `prefix_of` h' -> Q h' r) ->
  wps restore_guard h (deleteExisting k l opts) Q.
Proof.
  induction l as [|x l IH]; intros h Q Hd Hq; cbn [deleteExisting]; [by apply Hq|].
  rewrite wps_call_bind. split; [apply Hd; [done|left]|]. intros r.
  set (h1 := h ++ _). assert (Hp1 : h `prefix_of` h1) by by apply prefix_app_r.
  assert (Hrec : wps restore_guard h1 (deleteExisting k l opts) Q).
  { apply IH; [intros h' x' Hp Hx; apply Hd; [|by right]|intros h' r' Hp; apply Hq]; by etransitivity. }
  destruct r as [[]|e]; [exact Hrec|]. destruct (IsNotFound e); [exact Hrec|by apply Hq].
Qed.

Lemma chooseStartupInstance_same c1 c2 :
  chooseStartupInstance c1 o = Ok c2 ->
  cc_Patroni c2 = cc_Patroni c1 /\ cc_PGBackRest c2 = cc_PGBackRest c1 /\ requestedRestore c2 = requestedRestore c1 /\
  cc_Conditions c2 = cc_Conditions c1.
Proof. unfold chooseStartupInstance. intros Hc. repeat case_hyp Hc; try done; injection Hc as <-; done. Qed.

(** The cluster has lost its database. *)
Definition forgotten (h : history) (c' : CrunchyCluster) : Prop :=
  restoreDemanded /\ foundJobs h [] /\ clusterRunning o = false /\ noEndpoints h /\
  readyForRestore c' = true /\ pt_SystemIdentifier (cc_Patroni c') = "" /\
  conditionHolds (cc_Conditions c') ConditionPostgresDataInitialized = false.

(** The conditions of a cluster that is ready. *)
Definition readyConditions (now : Z) (g : Z) (l : list Condition) : list Condition :=
  SetStatusCondition now (RemoveStatusCondition l ConditionPostgresDataInitialized)
    (mkCondition ConditionPGBackRestRestoreProgressing ConditionTrue ReasonReadyForRestore "Restoring cluster in-place" g now).

Lemma readyConditions_ready now g l c1 :
  cc_Conditions c1 = readyConditions now g l ->
  readyForRestore c1 = true /\ conditionHolds (cc_Conditions c1) ConditionPostgresDataInitialized = false.
Proof.
  intros E. unfold readyForRestore, restoringInPlace. rewrite E. unfold readyConditions. split.
  - unfold conditionHolds.
    destruct (SetStatusCondition_same now (RemoveStatusCondition l ConditionPostgresDataInitialized)
      (mkCondition ConditionPGBackRestRestoreProgressing ConditionTrue ReasonReadyForRestore "Restoring cluster in-place" g now)) as [x Hx].
    cbn [cond_Type] in Hx. rewrite Hx. done.
  - rewrite conditionHolds_set_other by done. apply conditionHolds_removed.
Qed.

Lemma wps_prepareForRestore h c1 eps job id Q :
  restoreDemanded -> endpoints_seen (patroniEndpoints c) h eps -> foundJobs h (option_list job) ->
  (forall h' c' r, h `prefix_of` h' -> cc_Patroni c' = cc_Patroni c1 \/ forgotten h' c' -> Q h' (c', r)) ->
  wps restore_guard h (prepareForRestore c1 o eps job id) Q.
Proof.
  intros Hd [Hl Hn] Hj Hq. unfold prepareForRestore. cbv zeta.
  destruct (chooseStartupInstance _ o) as [c2|e] eqn:Ec; [|apply Hq; [done|by left]].
  apply chooseStartupInstance_same in Ec as (Hpt & _ & _ & Hcc).
  assert (Hset : forall s, wps restore_guard h (setPreparingClusterCondition c2 s) (fun h' c3 =>
            h `prefix_of` h' /\ cc_Patroni c3 = cc_Patroni c1)).
  { intros s. apply wps_setCondition; [done|]. intros h' now Hp. split; [done|exact Hpt]. }
  destruct job as [job|].
  - rewrite wps_bind. eapply wps_conseq; [apply Hset|]. intros h1 c3 [Hp1 Hc3]. rewrite wps_call_bind. split.
    + exists job. split_and!; [by eapply (grows (P := fun h => foundJobs h [job]))|done|done].
    + intros r. cbn [wps]. apply Hq; [etransitivity; [exact Hp1|by apply prefix_app_r]|by left].
  - destruct (clusterRunning o) eqn:Er.
    + rewrite wps_bind. eapply wps_conseq; [apply Hset|]. intros h1 c3 [Hp1 Hc3]. rewrite wps_bind. apply wps_deleteExisting.
      * intros h' x Hp Hx. split_and!; [|done|done|by exists x].
        eapply (grows (P := fun h => foundJobs h [])); [exact Hj|by etransitivity].
      * intros h' r Hp. cbn [wps]. apply Hq; [by etransitivity|by left].
    + destruct eps as [|ep eps].
      * rewrite wps_bind. apply wps_setCondition; [done|]. intros h1 now Hp1. cbn [wps]. apply Hq; [done|]. right.
        match goal with |- forgotten _ ?x =>
          destruct (readyConditions_ready now (om_Generation (cc_Meta c2)) (cc_Conditions c2) x eq_refl) as [Hr Hi] end.
        split_and!; [done|by eapply (grows (P := fun h => foundJobs h []))|done| |exact Hr|done|exact Hi].
        eapply (grows (P := noEndpoints)); [|exact Hp1]. intros k Hk. by apply Hn.
      * rewrite wps_bind. eapply wps_conseq; [apply Hset|]. intros h1 c3 [Hp1 Hc3]. rewrite wps_bind. apply wps_deleteExisting.
        -- intros h' x Hp Hx. split_and!; [|done|done|].
           ++ eapply (grows (P := fun h => foundJobs h [])); [exact Hj|by etransitivity].
           ++ exists x. split; [|done]. destruct (Hl x Hx) as (k & Hk & Hg). exists k. split; [done|].
              eapply (grows (P := elem_of _)); [exact Hg|by etransitivity].
        -- intros h' r Hp. cbn [wps]. apply Hq; [by etransitivity|by left].
Qed.

Definition planOf (d : option DataSource) (cl : option CloudDataSource) : option restorePlan :=
  let configHash := safeHash32 (restoreConfigs d cl) in
  match d, cl with
  | Some d, _ => Some (FromCluster d configHash)
  | None, Some d => Some (FromCloud d configHash)
  | None, None => None
  end.

(** What the result says. *)
Definition restore_result (r : CrunchyCluster * result (bool * option restorePlan)) : Prop :=
  match snd r with
  | Ok (early, Some plan) => early = true /\ exists id d cl,
      requestedRestore c = Ok (Some (id, d, cl)) /\ id = restoreIDStatus (fst r) /\ planOf d cl = Some plan /\
      conditionHolds (cc_Conditions (fst r)) ConditionPostgresDataInitialized = false /\
      (restoringInPlace (fst r) = true -> readyForRestore (fst r) = true)
  | Ok (false, None) => requestedRestore c = Ok None \/
      conditionHolds (cc_Conditions (fst r)) ConditionPostgresDataInitialized = true /\
      exists d cl, requestedRestore c = Ok (Some (restoreIDStatus (fst r), d, cl))
  | _ => True
  end.

(** C12: a cluster is taken down only for a restore, in order.  Only when a
    restore is asked for whose identifier is new, or while one is in progress,
    is anything of the cluster deleted: the job of an earlier restore; then,
    when there is no such job and a database runs, the StatefulSets of the
    instances; then, when none runs, the Endpoints of Patroni that were found.
    The database is forgotten, so that the cluster bootstraps again, only when
    there was no job, no database ran, and none of the Endpoints existed; the
    cluster is then marked as ready and as not initialized.  Data is restored
    only for the restore that the status names, into a cluster that is not
    initialized and, when it was taken down, ready.  Other deletions are of the
    configuration of a restore job that is complete. *)
Theorem restore_in_place_calls :
  wps restore_guard [] (reconcileDataSource c o) (fun h r =>
    (cc_Patroni (fst r) = cc_Patroni c \/ forgotten h (fst r)) /\ restore_result r).
Proof.
  unfold reconcileDataSource. rewrite wps_bind. apply wps_observeRestoreEnv.
  { intros h c' e _ Hp. by split; [left|]. }
  intros h c' eps job _ Hs Hj [(Hreq & Hid & Hpt & _) Hprog]. rewrite Hreq.
  destruct (requestedRestore c) as [[[[id d] cl]|]|e] eqn:Er; cbn [wps fst snd].
  2: { split; [by left|]. by left. }
  2: { by split; [left|]. }
  unfold mustPrepare. cbv zeta.
  destruct (restoringInPlace c' && _ || negb (bool_decide (id = restoreIDStatus c'))) eqn:Em.
  - rewrite wps_bind. apply wps_prepareForRestore; [|done|done|].
    + exists id, d, cl. split; [done|]. apply orb_true_iff in Em as [[Em _]%andb_true_iff|Em]; [right; by apply Hprog|left].
      apply negb_true_iff, bool_decide_eq_false in Em. by rewrite <- Hid.
    + intros h' c'' r _ Hc. cbn [wps fst snd]. split; [rewrite <- Hpt; exact Hc|]. unfold restore_result. by destruct r.
  - apply orb_false_iff in Em as [Ep Hi%negb_false_iff%bool_decide_eq_true].
    destruct (conditionHolds (cc_Conditions c') ConditionPostgresDataInitialized) eqn:Ei; cbn [wps fst snd];
      (split; [by left|]); unfold restore_result; cbn [fst snd].
    + right. split; [done|]. exists d, cl. by rewrite <- Hi.
    + fold (planOf d cl).
      destruct (planOf d cl) as [plan|] eqn:Epl; [|done]. split; [done|]. exists id, d, cl. split_and!; [done|done|done|done|].
      intros Hr. rewrite Hr in Ep. simpl in Ep. apply orb_false_iff in Ep as [Ep _]. by apply negb_false_iff in Ep.
Qed.
End RestoreCalls.

(** ** Progress

    The environment in which what is deleted is gone at once: the restore job,
    the Endpoints, and the instances with their StatefulSets and pods. *)
Record world := mkWorld {
  w_Job : option Job;
  w_Endpoints : gmap key Endpoints;
  w_Instances : list Instance;
  w_Now : Z
}.
#[export] Instance world_eta : Eta world := fun w => mkWorld (w_Job w) (w_Endpoints w) (w_Instances w) (w_Now w).

Definition ownedByRunner (k : key) (i : Instance) : bool :=
  match i_Runner i with Some r => bool_decide (objectKey (st_Meta r) = k) | None => false end.

Definition missing {A} : result A := Err (ApiError NotFound).

Definition serveGet (w : world) (k : kind) (at_ : key) : result (obj k) :=
  match k return result (obj k) with
  | KEndpoints => match w_Endpoints w !! at_ with Some ep => Ok ep | None => missing end
  | _ => missing
  end.

Definition serveList (w : world) (k : kind) : result (list (obj k)) :=
  match k return result (list (obj k)) with
  | KJob => Ok (option_list (w_Job w))
  | _ => Ok []
  end.

Definition serveDelete (w : world) (k : kind) (at_ : key) : world :=
  match k with
  | KJob => w <| w_Job := None |>
  | KSts => w <| w_Instances ::= List.filter (fun i => negb (ownedByRunner at_ i)) |>
  | KEndpoints => w <| w_Endpoints ::= delete at_ |>
  | _ => w
  end.

Definition serve (call_ : op) (w : world) : world * resp call_ :=
  match call_ return world * resp call_ with
  | Get k at_ => (w, serveGet w k at_)
  | ListAll k _ _ => (w, serveList w k)
  | Delete k at_ _ => (serveDelete w k at_, Ok tt)
  | Create _ _ | Update _ _ | StatusUpdate _ _ | Patch _ _ _ | StatusPatch _ _ _ | RawPatch _ _ _ | Apply _ _ => (w, missing)
  | RESTMapping _ _ | DeleteAllOf _ _ _ | NewExecClient | AddWatcher _ => (w, Ok tt)
  | Event _ _ | RemoveWatcher _ | GoWatch _ => (w, tt)
  | Rand _ => (w, "")
  | Exec _ _ _ _ => (w, mkExecOutput "" "" None)
  | LatestCommit _ _ => (w, Ok None)
  | Now => (w, w_Now w)
  | WatcherExists _ | SendStop _ => (w, false)
  | WatcherNames => (w, [])
  | NewChecker _ | CheckCertManager _ => (w, Ok tt)
  | RangeOrder keys => (w, exist _ keys (Permutation_refl keys))
  end.

(** The world after a program, and its result. *)
Definition effect {A} (p : program A) (w : world) : world * A :=
  let '(w, _, a) := run serve p w in (w, a).

Lemma effect_bind {A B} (p : program A) (f : A -> program B) w :
  effect (bind p f) w = let '(w1, a) := effect p w in effect (f a) w1.
Proof.
  revert w. unfold effect. induction p as [a|call_ k IH]; intros w; simpl; [done|].
  destruct (serve call_ w) as [w1 r]. specialize (IH r w1).
  destruct (run serve (bind (k r) f) w1) as [[w2 t2] b]. destruct (run serve (k r) w1) as [[w3 t3] a].
  simpl in *. by destruct (run serve (f a) w3) as [[? ?] ?].
Qed.

Lemma effect_call {A} (call_ : op) (f : resp call_ -> program A) w :
  effect (bind (call call_) f) w = effect (f (snd (serve call_ w))) (fst (serve call_ w)).
Proof. rewrite effect_bind. unfold effect. cbn. by destruct (serve call_ w). Qed.

Lemma effect_ret {A} (a : A) w : effect (Ret a) w = (w, a).
Proof. done. Qed.

Lemma effect_bindr {A B} (p : action A) (f : A -> action B) w :
  effect (bindr p id f) w =
  match effect p w with (w1, Ok a) => effect (f a) w1 | (w1, Err e) => (w1, Err e) end.
Proof. unfold bindr. rewrite effect_bind. by destruct (effect p w) as [w1 [a|e]]. Qed.

Section Progress.
Context `{LabelMatching, MetaConditions, SafeEncode}.

(** Only the instances of the cluster are looked at. *)
Definition observedIn (w : world) : observedInstances := mkObserved (w_Instances w) ∅ ∅ ∅.

Definition pass (c : CrunchyCluster) (w : world) : world * (CrunchyCluster * result (bool * option restorePlan)) :=
  effect (reconcileDataSource c (observedIn w)) w.

Fixpoint passes (n : nat) (c : CrunchyCluster) (w : world) : CrunchyCluster * world :=
  match n with
  | O => (c, w)
  | S n => let '(w, r) := pass c w in passes n (fst r) w
  end.

Definition existing (keys : list key) (w : world) : list Endpoints := omap (fun k => w_Endpoints w !! k) keys.

Lemma effect_getEndpoints keys w : effect (getEndpoints keys) w = (w, Ok (existing keys w)).
Proof.
  induction keys as [|k keys IH]; [done|]. cbn [getEndpoints]. rewrite effect_call. cbn [serve fst snd].
  unfold existing in *. cbn. destruct (w_Endpoints w !! k) as [ep|]; [|exact IH]. by rewrite effect_bindr, IH.
Qed.

Lemma effect_setCondition c t s w : exists now,
  effect (setCondition c t s) w = (w, onClusterConditions (fun l => SetStatusCondition now l
    (mkCondition t s.1.1 s.1.2 s.2 (om_Generation (cc_Meta c)) now)) c).
Proof. by exists (w_Now w). Qed.

(** What the steps of a restore leave as it is. *)
Definition kept (c c' : CrunchyCluster) : Prop :=
  cc_Meta c' = cc_Meta c /\ requestedRestore c' = requestedRestore c /\ cc_InstanceSets c' = cc_InstanceSets c.

Definition kept_all (c c' : CrunchyCluster) : Prop :=
  kept c c' /\ restoreIDStatus c' = restoreIDStatus c /\ cc_StartupInstance c' = cc_StartupInstance c.

Lemma followRestore_kept job c : kept_all c (followRestore job c).
Proof.
  destruct (followRestore_same c job) as (Hm & _ & Hst & _). split_and!; [split_and!| |exact Hst].
  - exact Hm.
  - apply requested_follow.
  - unfold followRestore. by destruct (cc_PGBackRest c).
  - apply restoreIDStatus_follow.
Qed.

Lemma effect_observeRestoreJob c job w : exists c',
  effect (observeRestoreJob c job) w = (w, (c', None)) /\ kept_all c c'.
Proof.
  pose proof (followRestore_kept job c) as Hk. unfold observeRestoreJob.
  destruct (JobCompleted job); [|destruct (JobFailed job)]; (eexists; split; [reflexivity|exact Hk]).
Qed.

Lemma effect_observeRestoreEnv c w : exists c',
  effect (observeRestoreEnv c) w = (w, (c', Ok (existing (patroniEndpoints c) w, w_Job w))) /\
  kept_all c c' /\ (w_Job w = None -> c' = c).
Proof.
  unfold observeRestoreEnv. rewrite effect_bind, effect_getEndpoints, effect_call. cbn [serve serveList fst snd].
  destruct (w_Job w) as [job|] eqn:Ej; cbn [option_list]; [|by exists c].
  change (option_list (Some job)) with [job]. cbv iota. rewrite effect_bind. destruct (effect_observeRestoreJob c job w) as (c' & -> & Hk). by exists c'.
Qed.

(** An instance to restore into can be found. *)
Definition startable (c : CrunchyCluster) (o : observedInstances) : Prop :=
  exists c', chooseStartupInstance c o = Ok c' /\ nonempty (cc_StartupInstance c') = true.

Lemma startable_ext c c' o :
  cc_Meta c' = cc_Meta c -> cc_InstanceSets c' = cc_InstanceSets c -> cc_StartupInstance c' = cc_StartupInstance c ->
  startable c o -> exists c2, chooseStartupInstance c' o = Ok c2 /\ nonempty (cc_StartupInstance c2) = true /\
    cc_Meta c2 = cc_Meta c' /\ cc_InstanceSets c2 = cc_InstanceSets c' /\ requestedRestore c2 = requestedRestore c' /\
    cc_PGBackRest c2 = cc_PGBackRest c'.
Proof.
  intros Hm Hsets Hst (c1 & Hc & Hn). unfold chooseStartupInstance in *.
  assert (Hgen : forall n, GenerateStartupInstance (config c') n = GenerateStartupInstance (config c) n).
  { intros n. unfold GenerateStartupInstance, ofCluster, config, cc_Name, cc_Namespace. cbn. by rewrite Hm. }
  rewrite Hst, Hsets. destruct (nonempty (cc_StartupInstance c)) eqn:En.
  { injection Hc as <-. exists c'. by rewrite Hst. }
  destruct (primaryOf o) as [p|]; [destruct (i_Spec p); [|done]; injection Hc as <-; by eexists|].
  destruct (runnersOf o) as [|r rs]; [|injection Hc as <-; by eexists].
  destruct (cc_InstanceSets c) as [|set sets]; [done|]. rewrite Hgen.
  destruct (GenerateStartupInstance (config c) (is_Name set)); [|done]. injection Hc as <-. by eexists.
Qed.

Definition deleteAll (k : kind) (l : list (obj k)) (w : world) : world :=
  fold_left (fun w x => serveDelete w k (objectKey (meta x))) l w.

Lemma effect_deleteExisting k l opts w : effect (deleteExisting k l opts) w = (deleteAll k l w, None).
Proof. revert w. induction l as [|x l IH]; intros w; cbn [deleteExisting]; [done|]. by rewrite effect_call, IH. Qed.

Lemma deleteAll_runners l w :
  w_Job (deleteAll KSts l w) = w_Job w /\ w_Endpoints (deleteAll KSts l w) = w_Endpoints w /\
  forall i, i ∈ w_Instances (deleteAll KSts l w) ->
    i ∈ w_Instances w /\ forall x, x ∈ l -> ownedByRunner (objectKey (st_Meta x)) i = false.
Proof.
  revert w. induction l as [|x l IH]; intros w; [split_and!; [done..|]; intros i Hi; split; [done|by intros ? ?%elem_of_nil]|].
  destruct (IH (serveDelete w KSts (objectKey (st_Meta x)))) as (Hj & He & Hi). split_and!; [exact Hj|exact He|].
  intros i Hin. destruct (Hi i Hin) as [Hi1 Hi2]. apply elem_of_bfilter in Hi1 as [Hi1 Ho%negb_true_iff]. split; [done|].
  by intros y [->|Hy]%elem_of_cons; [|apply Hi2].
Qed.

Lemma deleteAll_endpoints l w :
  w_Job (deleteAll KEndpoints l w) = w_Job w /\ w_Instances (deleteAll KEndpoints l w) = w_Instances w /\
  forall k ep, w_Endpoints (deleteAll KEndpoints l w) !! k = Some ep ->
    w_Endpoints w !! k = Some ep /\ forall x, x ∈ l -> objectKey (ep_Meta x) <> k.
Proof.
  revert w. induction l as [|x l IH]; intros w; [split_and!; [done..|]; intros k ep Hk; split; [done|by intros ? ?%elem_of_nil]|].
  destruct (IH (serveDelete w KEndpoints (objectKey (ep_Meta x)))) as (Hj & He & Hi). split_and!; [exact Hj|exact He|].
  intros k ep Hk. destruct (Hi k ep Hk) as [Hi1 Hi2].
  change (delete (objectKey (ep_Meta x)) (w_Endpoints w) !! k = Some ep) in Hi1. apply lookup_delete_Some in Hi1 as [Hne Hi1]. split; [done|].
  by intros y [->|Hy]%elem_of_cons; [|apply Hi2].
Qed.

(** The next world, by the stage that was reached. *)
Definition nextWorld (w : world) (eps : list Endpoints) : world :=
  match w_Job w with
  | Some _ => w <| w_Job := None |>
  | None => if clusterRunning (observedIn w) then deleteAll KSts (runnersOf (observedIn w)) w else deleteAll KEndpoints eps w
  end.

Definition nothingLeft (w : world) (eps : list Endpoints) : bool :=
  match w_Job w, clusterRunning (observedIn w), eps with None, false, [] => true | _, _, _ => false end.

Definition databaseForgotten (c : CrunchyCluster) : Prop :=
  readyForRestore c = true /\ conditionHolds (cc_Conditions c) ConditionPostgresDataInitialized = false /\
  pt_SystemIdentifier (cc_Patroni c) = "".

Lemma effect_prepare c w eps id : startable c (observedIn w) -> exists c',
  kept c c' /\ restoreIDStatus c' = id /\ nonempty (cc_StartupInstance c') = true /\
  effect (prepareForRestore c (observedIn w) eps (w_Job w) id) w =
    (if nothingLeft w eps then w else nextWorld w eps, (c', None)) /\
  if nothingLeft w eps then databaseForgotten c' else restoringInPlace c' = true /\ readyForRestore c' = false.
Proof.
  intros Hst. unfold prepareForRestore. cbv zeta.
  match goal with |- context [chooseStartupInstance ?x _] => set (c0 := x) end.
  destruct (startable_ext c c0 _ eq_refl eq_refl eq_refl Hst) as (c2 & -> & Hn & Hm & Hsets & Hreq & Hps).
  assert (Hid : forall f, restoreIDStatus (onClusterConditions f c2) = id).
  { intros f. unfold restoreIDStatus. cbn. by rewrite Hps. }
  assert (Hp : forall s, exists c', setPreparingClusterCondition c2 s = bind (call Now) (fun now => Ret (c' now)) /\
    forall now, kept c (c' now) /\ restoreIDStatus (c' now) = id /\ nonempty (cc_StartupInstance (c' now)) = true /\
      restoringInPlace (c' now) = true /\ readyForRestore (c' now) = false).
  { intros s. eexists. split; [reflexivity|]. intros now. split_and!; [by split_and!|apply Hid|exact Hn|..].
    all: unfold readyForRestore, restoringInPlace, conditionHolds, cc_Conditions; cbn;
      destruct (SetStatusCondition_same now (pc_Conditions (cc_Config c2)) (mkCondition ConditionPGBackRestRestoreProgressing
        ConditionTrue "RestoreInPlaceRequested" ("Preparing cluster to restore in-place: " +:+ s) (om_Generation (cc_Meta c2)) now)) as [t Ht];
      cbn [cond_Type] in Ht; by rewrite Ht. }
  unfold nothingLeft, nextWorld. destruct (w_Job w) as [job|] eqn:Ej.
  - destruct (Hp "removing restore job") as (c' & -> & Hc'). destruct (Hc' (w_Now w)) as (? & ? & ? & ? & ?).
    exists (c' (w_Now w)). by split_and!.
  - destruct (clusterRunning (observedIn w)) eqn:Er.
    + destruct (Hp "removing runners") as (c' & -> & Hc'). destruct (Hc' (w_Now w)) as (? & ? & ? & ? & ?).
      exists (c' (w_Now w)). split_and!; [done..| |done|done]. by rewrite effect_bind, effect_call, effect_ret, effect_bind, effect_deleteExisting.
    + destruct eps as [|ep eps].
      * exists (forgetDatabase (onClusterConditions (readyConditions (w_Now w) (om_Generation (cc_Meta c2))) c2)).
        split_and!; [by split_and!|apply (Hid (fun l => l))|exact Hn|reflexivity|].
        match goal with |- databaseForgotten ?x =>
          destruct (readyConditions_ready (w_Now w) (om_Generation (cc_Meta c2)) (cc_Conditions c2) x eq_refl) end.
        by split_and!.
      * destruct (Hp "removing DCS") as (c' & -> & Hc'). destruct (Hc' (w_Now w)) as (? & ? & ? & ? & ?).
        exists (c' (w_Now w)). split_and!; [done..| |done|done]. by rewrite effect_bind, effect_call, effect_ret, effect_bind, effect_deleteExisting.
Qed.

(** A restore that is asked for and not ready yet. *)
Record preparing (restoreID : string) (c : CrunchyCluster) (w : world) : Prop := {
  pr_requested : exists d cl, requestedRestore c = Ok (Some (restoreID, d, cl));
  pr_pending : restoreID <> restoreIDStatus c \/
    (w_Job w = None /\ restoringInPlace c = true /\ readyForRestore c = false);
  pr_startable : startable c (observedIn w);
  pr_runners : Forall (fun i => is_Some (i_Runner i)) (w_Instances w);
  pr_endpoints : forall k ep, w_Endpoints w !! k = Some ep -> objectKey (ep_Meta ep) = k
}.

(** How many stages there are before the cluster is ready. *)
Definition stages (c : CrunchyCluster) (w : world) : nat :=
  (match w_Job w with Some _ => 1 | None => 0 end) + b2n (clusterRunning (observedIn w))
  + (match existing (patroniEndpoints c) w with [] => 0 | _ => 1 end).

Lemma patroniEndpoints_meta c c' : cc_Meta c' = cc_Meta c -> patroniEndpoints c' = patroniEndpoints c.
Proof. intros E. unfold patroniEndpoints, config, cc_Name, cc_Namespace. cbn. by rewrite E. Qed.

Lemma startable_started c o : nonempty (cc_StartupInstance c) = true -> startable c o.
Proof. intros E. exists c. split; [|done]. unfold chooseStartupInstance. by rewrite E. Qed.

Lemma no_runner_left w : Forall (fun i => is_Some (i_Runner i)) (w_Instances w) ->
  w_Instances (deleteAll KSts (runnersOf (observedIn w)) w) = [].
Proof.
  intros Hr. destruct (deleteAll_runners (runnersOf (observedIn w)) w) as (_ & _ & Hi).
  destruct (w_Instances (deleteAll KSts _ w)) as [|i l]; [done|exfalso]. destruct (Hi i ltac:(left)) as [Hin Ho].
  rewrite Forall_forall in Hr. destruct (Hr i Hin) as [r Er]. specialize (Ho r).
  unfold ownedByRunner in Ho. rewrite Er, bool_decide_eq_true_2 in Ho by done. discriminate Ho.
  apply list_elem_of_omap. by exists i.
Qed.

Lemma no_endpoint_left keys w : (forall k ep, w_Endpoints w !! k = Some ep -> objectKey (ep_Meta ep) = k) ->
  existing keys (deleteAll KEndpoints (existing keys w) w) = [].
Proof.
  intros Hw. destruct (deleteAll_endpoints (existing keys w) w) as (_ & _ & He).
  destruct (existing keys (deleteAll _ _ w)) as [|ep l] eqn:E; [done|exfalso].
  assert (Hin : ep ∈ existing keys (deleteAll KEndpoints (existing keys w) w)) by (rewrite E; left).
  apply list_elem_of_omap in Hin as (k & Hk & Hl). destruct (He k ep Hl) as [Hl0 Hne].
  apply (Hne ep); [|by apply Hw]. apply list_elem_of_omap. by exists k.
Qed.

(** After a step of the preparation the next world is closer. *)
Lemma nextWorld_stages c c' w :
  cc_Meta c' = cc_Meta c -> Forall (fun i => is_Some (i_Runner i)) (w_Instances w) ->
  (forall k ep, w_Endpoints w !! k = Some ep -> objectKey (ep_Meta ep) = k) ->
  nothingLeft w (existing (patroniEndpoints c) w) = false ->
  let w' := nextWorld w (existing (patroniEndpoints c) w) in
  (stages c' w' < stages c w)%nat /\ w_Job w' = None /\
  Forall (fun i => is_Some (i_Runner i)) (w_Instances w') /\
  (forall k ep, w_Endpoints w' !! k = Some ep -> objectKey (ep_Meta ep) = k).
Proof.
  intros Hm Hr He Hn. unfold nothingLeft, nextWorld, stages in *. rewrite (patroniEndpoints_meta _ _ Hm).
  destruct (w_Job w) as [job|] eqn:Ej; cbn zeta; [by split_and!; [cbn; lia|..]|].
  destruct (clusterRunning (observedIn w)) eqn:Er.
  - destruct (deleteAll_runners (runnersOf (observedIn w)) w) as (Hj & Hep & _).
    pose proof (no_runner_left w Hr) as Hi. set (w1 := deleteAll KSts _ w) in *. rewrite Hj, Ej.
    split_and!; [|done|rewrite Hi; by constructor|by rewrite Hep].
    assert (Hex : existing (patroniEndpoints c) w1 = existing (patroniEndpoints c) w) by (unfold existing; by rewrite Hep).
    assert (Hrun : clusterRunning (observedIn w1) = false) by (unfold observedIn; by rewrite Hi).
    rewrite Hex, Hrun. cbn. lia.
  - destruct (deleteAll_endpoints (existing (patroniEndpoints c) w) w) as (Hj & Hi & Hep).
    pose proof (no_endpoint_left (patroniEndpoints c) w He) as Hno.
    destruct (existing (patroniEndpoints c) w) as [|ep eps] eqn:Ee; [done|].
    split_and!; [|by rewrite Hj|by rewrite Hi|by intros k ep' [Hk _]%Hep; apply He].
    set (w1 := deleteAll KEndpoints _ w) in *. rewrite Hj, Ej, Hno.
    assert (Hrun : clusterRunning (observedIn w1) = false) by (rewrite <- Er; unfold observedIn; by rewrite Hi).
    rewrite Hrun. cbn. lia.
Qed.

Lemma pass_step restoreID c w : preparing restoreID c w -> exists c' w',
  pass c w = (w', (c', Ok (true, None))) /\ requestedRestore c' = requestedRestore c /\ restoreIDStatus c' = restoreID /\
  ((preparing restoreID c' w' /\ (stages c' w' < stages c w)%nat) \/ (databaseForgotten c' /\ w_Job w' = None)).
Proof.
  intros [(d & cl & Hreq) Hpend Hst Hr He]. unfold pass, reconcileDataSource. rewrite effect_bind.
  destruct (effect_observeRestoreEnv c w) as (c1 & -> & ((Hm & Hq & Hs) & Hid & Hsi) & Hnone). cbv iota beta.
  rewrite Hq, Hreq. cbv zeta.
  assert (Hmust : mustPrepare c1 restoreID (safeHash32 (restoreConfigs d cl)) (w_Job w) = true).
  { unfold mustPrepare. apply orb_true_iff. destruct Hpend as [Hne|(Hj & Hrp & Hrr)].
    - right. apply negb_true_iff, bool_decide_eq_false. by rewrite Hid.
    - left. rewrite (Hnone Hj), Hrp, Hrr. done. }
  rewrite Hmust, effect_bind.
  destruct (startable_ext c c1 _ Hm Hs Hsi Hst) as (c2 & Hc2 & Hn2 & _).
  destruct (effect_prepare c1 w (existing (patroniEndpoints c) w) restoreID) as (c' & (Hm' & Hq' & _) & Hid' & Hn' & -> & Hc');
    [by exists c2|]. cbv iota beta. cbn [fst snd]. eexists c', _. split; [reflexivity|].
  split; [congruence|]. split; [done|]. destruct (nothingLeft w (existing (patroniEndpoints c) w)) eqn:En.
  - right. split; [done|]. unfold nothingLeft in En. by destruct (w_Job w).
  - left. destruct (nextWorld_stages c c' w ltac:(congruence) Hr He En) as (Hlt & Hj & Hr' & He').
    split; [|done]. constructor; [exists d, cl; congruence|right; by destruct Hc'|by apply startable_started|done|done].
Qed.

Lemma passes_ready n : forall restoreID c w, (stages c w <= n)%nat -> preparing restoreID c w -> exists m c' w',
  (m <= S n)%nat /\ passes m c w = (c', w') /\ databaseForgotten c' /\ w_Job w' = None /\
  requestedRestore c' = requestedRestore c /\ restoreIDStatus c' = restoreID.
Proof.
  induction n as [|n IH]; intros restoreID c w Hn Hp;
    destruct (pass_step restoreID c w Hp) as (c' & w' & Hpass & Hq & Hid & [[Hp' Hlt]|[Hf Hj]]);
    try (exists 1%nat, c', w'; cbn [passes]; rewrite Hpass; split_and!; [lia|done..]).
  - lia.
  - destruct (IH restoreID c' w' ltac:(lia) Hp') as (m & c2 & w2 & Hm & Hps & ? & ? & ? & ?).
    exists (S m), c2, w2. cbn [passes]. rewrite Hpass. split_and!; [lia|done|done|done|congruence|done].
Qed.

Lemma gets_ready restoreID d cl c w :
  requestedRestore c = Ok (Some (restoreID, d, cl)) -> restoreID <> restoreIDStatus c ->
  startable c (observedIn w) -> Forall (fun i => is_Some (i_Runner i)) (w_Instances w) ->
  (forall k ep, w_Endpoints w !! k = Some ep -> objectKey (ep_Meta ep) = k) ->
  exists n c' w', (n <= 4)%nat /\ passes n c w = (c', w') /\ databaseForgotten c' /\ restoreIDStatus c' = restoreID /\
    pass c' w' = (w', (c', Ok (true, planOf d cl))).
Proof.
  intros Hq Hne Hst Hr He.
  assert (Hn : (stages c w <= 3)%nat) by (unfold stages; destruct (w_Job w), (clusterRunning _), (existing _ _); simpl; lia).
  destruct (passes_ready 3 restoreID c w Hn) as (n & c' & w' & Hle & Hps & Hf & Hj & Hq' & Hid).
  { constructor; [by exists d, cl|by left|done..]. }
  exists n, c', w'. split_and!; [done|done|done|done|]. unfold pass, reconcileDataSource. rewrite effect_bind.
  destruct (effect_observeRestoreEnv c' w') as (c1 & -> & _ & Hnone). rewrite (Hnone Hj), Hj. cbv iota beta.
  rewrite Hq', Hq. cbv zeta. destruct Hf as (Hready & Hinit & _). unfold mustPrepare.
  rewrite Hready, Hinit, Hid, bool_decide_eq_true_2 by done. cbn [negb orb andb]. rewrite andb_false_r. reflexivity.
Qed.

(** C13: a restore in place gets ready.  When deletions take effect, a cluster
    whose instances have their StatefulSets and of which a new restore is asked
    for is ready after at most four reconciliations, whatever there was: a job
    of an earlier restore in any state, running instances, Endpoints of Patroni.
    Its database is then forgotten, its status names the restore, and the next
    reconciliation works on the plan and changes nothing else. *)
Theorem restore_in_place_gets_ready restoreID d cl c w :
  requestedRestore c = Ok (Some (restoreID, d, cl)) -> restoreID <> restoreIDStatus c ->
  startable c (observedIn w) -> Forall (fun i => is_Some (i_Runner i)) (w_Instances w) ->
  (forall k ep, w_Endpoints w !! k = Some ep -> objectKey (ep_Meta ep) = k) ->
  exists n c' w', (n <= 4)%nat /\ passes n c w = (c', w') /\ databaseForgotten c' /\ restoreIDStatus c' = restoreID /\
    pass c' w' = (w', (c', Ok (true, planOf d cl))).
Proof. apply gets_ready. Qed.

(** After a restore in place, a cluster that was made from a data source is
    restored from that source again.  The restore leaves its name in the status.
    When the restore is over, the restore controller disables it and removes the
    annotation; the data source of the cluster then counts as a new request,
    because its identifier is not the one in the status.  So the cluster is
    taken down although it is initialized and runs, its database is forgotten,
    and the data source is restored over the one that was restored. *)
Theorem data_source_is_restored_again c w (cr : PerconaPGCluster) :
  annotation (cc_Meta c) PGBackRestRestore = annotation (c_Meta (disabledCluster cr)) PGBackRestRestore ->
  postgresDataInitRequested c = true -> restoreIDStatus c <> bootstrapID c ->
  startable c (observedIn w) -> Forall (fun i => is_Some (i_Runner i)) (w_Instances w) ->
  (forall k ep, w_Endpoints w !! k = Some ep -> objectKey (ep_Meta ep) = k) ->
  exists n c' w' plan, (n <= 4)%nat /\ passes n c w = (c', w') /\ databaseForgotten c' /\
    restoreIDStatus c' = bootstrapID c /\ pass c' w' = (w', (c', Ok (true, Some plan))) /\
    match plan with
    | FromCluster d _ => cc_DataSource c ≫= cds_PostgresCluster = Some d
    | FromCloud d _ => cc_DataSource c ≫= cds_PGBackRest = Some d
    end.
Proof.
  intros Ha Hd Hne Hst Hr He.
  assert (Ha' : annotation (cc_Meta c) PGBackRestRestore = "").
  { rewrite Ha. unfold annotation, disabledCluster. cbn. by rewrite lookup_delete_eq. }
  set (d := cc_DataSource c ≫= cds_PostgresCluster).
  set (cl := match d with Some _ => None | None => cc_DataSource c ≫= cds_PGBackRest end).
  assert (Hq : requestedRestore c = Ok (Some (bootstrapID c, d, cl))).
  { unfold requestedRestore, restoreInPlaceRequested. by rewrite Ha', Hd. }
  destruct (gets_ready (bootstrapID c) d cl c w Hq ltac:(congruence) Hst Hr He) as (n & c' & w' & Hn & Hps & Hf & Hid & Hp).
  assert (Hplan : exists plan, planOf d cl = Some plan /\
    match plan with FromCluster d' _ => d = Some d' | FromCloud d' _ => cc_DataSource c ≫= cds_PGBackRest = Some d' end).
  { unfold postgresDataInitRequested in Hd. unfold cl, d, planOf. destruct (cc_DataSource c) as [[[x|] [y|]]|]; try done; by eexists. }
  destruct Hplan as (plan & Epl & Hsrc). exists n, c', w', plan. rewrite Hp, Epl. by split_and!.
Qed.

(** A finished job of an earlier restore ends a new one.  While a cluster
    is being prepared, a restore job that is complete counts for the restore in
    the status, whichever restore it is of: the cluster is marked as initialized
    and no longer in progress, the status says that the new restore has
    finished, nothing is deleted or restored, and the restore controller sees
    that the restore has succeeded.  The job is deleted by the first step of the
    preparation, so one more look at an outdated cache is enough. *)
Theorem finished_job_ends_any_restore c w job restoreID d cl (cr : PerconaPGCluster) :
  requestedRestore c = Ok (Some (restoreID, d, cl)) -> restoreIDStatus c = restoreID -> restoreID <> "" ->
  restoringInPlace c = true -> readyForRestore c = false ->
  w_Job w = Some job -> JobCompleted job = true -> (0 < j_Succeeded job)%Z ->
  exists c' st, pass c w = (w, (c', Ok (false, None))) /\
    cc_PGBackRest c' ≫= ps_Restore = Some st /\ jst_ID st = restoreID /\
    (observed (cr <| c_RestoreStatus := Some st |>)).1 = RestoreSucceeded.
Proof.
  intros Hq Hid Hne _ _ Hj Hc Hpos. unfold pass, reconcileDataSource. rewrite effect_bind.
  assert (Hobs : exists c1, effect (observeRestoreEnv c) w = (w, (c1, Ok (existing (patroniEndpoints c) w, Some job))) /\
    kept_all c c1 /\ cc_PGBackRest c1 = cc_PGBackRest (followRestore job c) /\
    conditionHolds (cc_Conditions c1) ConditionPostgresDataInitialized = true /\ restoringInPlace c1 = false).
  { unfold observeRestoreEnv. rewrite effect_bind, effect_getEndpoints, effect_call. cbn [serve serveList fst snd].
    rewrite Hj. change (option_list (Some job)) with [job]. cbv iota. rewrite effect_bind. unfold observeRestoreJob. rewrite Hc.
    eexists. split; [reflexivity|]. split; [exact (followRestore_kept job c)|]. split; [reflexivity|].
    unfold restoringInPlace, cc_Conditions. cbn. split; [|apply conditionHolds_removed].
    rewrite conditionHolds_remove_other by done. unfold conditionHolds.
    match goal with |- context [SetStatusCondition ?n ?l ?x] => destruct (SetStatusCondition_same n l x) as [t Ht] end.
    cbn [cond_Type] in Ht. by rewrite Ht. }
  destruct Hobs as (c1 & -> & ((Hm & Hq1 & _) & Hid1 & _) & Hps & Hi & Hrp). cbv iota beta. rewrite Hq1, Hq. cbv zeta.
  assert (Hmust : mustPrepare c1 restoreID (safeHash32 (restoreConfigs d cl)) (Some job) = false).
  { unfold mustPrepare. rewrite Hrp, Hid1, Hid. cbn [andb orb]. by rewrite bool_decide_eq_true_2. }
  rewrite Hmust, Hi. unfold restoreIDStatus in Hid. destruct (cc_PGBackRest c) as [[m [st|] rr repos]|] eqn:Ep;
    [|exfalso; apply Hne; symmetry; exact Hid..].
  exists c1, (followJob job st). split; [reflexivity|]. rewrite Hps. unfold followRestore. rewrite Ep.
  split; [reflexivity|]. split; [exact Hid|]. unfold observed. cbn. rewrite Hc. cbn. by rewrite bool_decide_eq_true_2.
Qed.
End Progress.

(** ** Copies of configuration *)
Section CopyProperties.
Context `{GoVersion, LabelMatching, ControllerRuntime}.

(** An optional Secret ends the copying.  When an optional Secret of the
    configuration of the source cluster exists, the read of it succeeds, and the
    branch that is meant to return its error returns no error at all: that
    Secret is not copied, nothing after it is read or copied, the items keep the
    names that they have in the other namespace, and the restore goes on. *)
Theorem optional_configuration_stops_copying c sourceCluster (v : VolumeProjection) l p (s : DataObject) :
  pa_Configuration (cc_Backups sourceCluster) = v :: l -> vp_Secret v = Some p -> rp_Optional p = Some true ->
  exec (copyConfigurationResources c sourceCluster)
    [got KSecret (cc_Namespace sourceCluster, rp_Name p) (Ok s)] (sourceCluster, None).
Proof.
  intros Hl Hv Hp. unfold copyConfigurationResources. rewrite Hl. cbn [copyConfiguration]. unfold copyPart, copyResource.
  rewrite Hv. eexists _, _. split; [reflexivity|]. cbn [bind]. rewrite Hp.
  split; [done|]. destruct v as [vs vm]. cbn in Hv |- *. subst vs. change (mkVolumeProjection (Some p) vm <| vp_Secret := Some p |> :: l) with (mkVolumeProjection (Some p) vm :: l).
  rewrite <- Hl. reflexivity.
Qed.
End CopyProperties.

(** ** Examples *)
#[local] Existing Instance ConcreteLabels.matching.
#[local] Existing Instance ListConditions.conditions.
#[local] Existing Instance DottedVersions.versions.
#[local] Existing Instance ConcreteRuntime.runtime.
#[local] Existing Instance ConcreteEncode.encode.

(** A running cluster of two that was made from a data source. *)
Module ExampleRestore.
Definition source : DataSource := mkSource "rhino" "" "repo1" [] None [] [].

Definition cluster : CrunchyCluster :=
  ExampleInstances.cluster [ExampleInstances.set1 2]
    <| cc_DataSource := Some (mkClusterSource (Some source) None) |>
    <| cc_PGBackRest := Some (emptyBackRest <| ps_Restore := Some (mkJobStatus "~pgo-bootstrap-hippo" true 1 0 None None 0) |>) |>.

(** A restore is asked for. *)
Definition restoring : CrunchyCluster :=
  cluster <| cc_Meta ::= fun m => m <| om_Annotations := {[PGBackRestRestore := "restore1"]} |> |>
          <| cc_Backups ::= fun b => b <| pa_Restore := Some (mkRestoreSpec (Some true) (Some source)) |> |>.

(** It is over. *)
Definition restored : CrunchyCluster :=
  cluster <| cc_PGBackRest := Some (emptyBackRest <| ps_Restore := Some (mkJobStatus "restore1" true 1 0 None None 0) |>) |>.

Definition leader : Endpoints := mkEndpoints (ExampleInstances.meta "hippo-ha" ∅ ∅) ["10.0.0.1"].

Definition running : world :=
  mkWorld None {[objectKey (ep_Meta leader) := leader]}
    [ExampleInstances.instance "a" "primary" "new"; ExampleInstances.instance "b" "replica" "new"] 7.

Definition oldJob : Job :=
  mkJob (ExampleInstances.meta "hippo-pgbackrest-restore" ∅ {[PGBackRestConfigHash := "old"]})
    [("Complete", ConditionTrue)] (Some 5%Z) 1 0 None None 0 None None "".

(** The restore is being prepared; the cache still has the job of an earlier
    one. *)
Definition preparing : CrunchyCluster :=
  onClusterConditions (fun _ => [mkCondition ConditionPGBackRestRestoreProgressing ConditionTrue "RestoreInPlaceRequested" "" 1 7])
    (restoring <| cc_PGBackRest := Some (emptyBackRest <| ps_Restore := Some (mkJobStatus "restore1" false 0 0 None None 0) |>) |>).

Lemma endpoints_known k ep : w_Endpoints running !! k = Some ep -> objectKey (ep_Meta ep) = k.
Proof.
  change (w_Endpoints running) with ({[objectKey (ep_Meta leader) := leader]} : gmap key Endpoints).
  by intros [<- <-]%lookup_singleton_Some.
Qed.

Lemma all_run : Forall (fun i => is_Some (i_Runner i)) (w_Instances running).
Proof. repeat constructor; by eexists. Qed.
End ExampleRestore.

Lemma restore_in_place_gets_ready_witness :
  exists n c' w', (n <= 4)%nat /\ passes n ExampleRestore.restoring ExampleRestore.running = (c', w') /\
    databaseForgotten c' /\ restoreIDStatus c' = "restore1" /\
    pass c' w' = (w', (c', Ok (true, planOf (Some ExampleRestore.source) None))).
Proof.
  apply (restore_in_place_gets_ready "restore1" (Some ExampleRestore.source) None).
  - reflexivity.
  - vm_compute. discriminate.
  - eexists. split; reflexivity.
  - apply ExampleRestore.all_run.
  - apply ExampleRestore.endpoints_known.
Defined.

Lemma data_source_is_restored_again_witness :
  exists n c' w' plan, (n <= 4)%nat /\ passes n ExampleRestore.restored ExampleRestore.running = (c', w') /\
    databaseForgotten c' /\ restoreIDStatus c' = "~pgo-bootstrap-hippo" /\ pass c' w' = (w', (c', Ok (true, Some plan))) /\
    match plan with
    | FromCluster d _ => Some ExampleRestore.source = Some d
    | FromCloud d _ => None = Some d
    end.
Proof.
  apply (data_source_is_restored_again ExampleRestore.restored ExampleRestore.running examplePGCluster).
  - reflexivity.
  - reflexivity.
  - vm_compute. discriminate.
  - eexists. split; reflexivity.
  - apply ExampleRestore.all_run.
  - apply ExampleRestore.endpoints_known.
Defined.

Lemma finished_job_ends_any_restore_witness :
  let w := ExampleRestore.running <| w_Job := Some ExampleRestore.oldJob |> in
  exists c' st, pass ExampleRestore.preparing w = (w, (c', Ok (false, None))) /\
    cc_PGBackRest c' ≫= ps_Restore = Some st /\ jst_ID st = "restore1" /\
    (observed (examplePGCluster <| c_RestoreStatus := Some st |>)).1 = RestoreSucceeded.
Proof.
  intros w.
  apply (finished_job_ends_any_restore ExampleRestore.preparing w ExampleRestore.oldJob "restore1"
           (Some ExampleRestore.source) None); try reflexivity.
  vm_compute. discriminate.
Defined.

Lemma optional_configuration_stops_copying_witness :
  let secret name optional := mkVolumeProjection (Some (mkResourceProjection name optional)) None in
  let source := ExampleRestore.cluster <| cc_Backups ::= fun b => b <| pa_Configuration :=
    [secret "gcs-ca" (Some true); secret "gcs-key" None] |> |> in
  let s := mkData (ExampleInstances.meta "gcs-ca" ∅ ∅) ∅ in
  exec (copyConfigurationResources ExampleRestore.cluster source)
    [got KSecret ("postgres-operator", "gcs-ca") (Ok s)] (source, None).
Proof.
  intros secret source s.
  apply (optional_configuration_stops_copying ExampleRestore.cluster source (secret "gcs-ca" (Some true))
           [secret "gcs-key" None] (mkResourceProjection "gcs-ca" (Some true)) s); reflexivity.
Defined.
