(* ===== verification/LogicalReplication.v ===== *)
(** * Logical replication

    [internal/logicalreplica/postgres.go]: the names of publications,
    subscriptions and slots, and the queries about them (its pg_hba rules are in
    HBA.v, its ignored slots in Patroni.v).  The texts of
    [percona/controller/pgcluster/logicalreplica.go]: the scripts that seed and
    convert a replica and its postgresql.conf, and the parsing of the answers of
    queries.  How a shell and PostgreSQL read these texts is defined here too. *)
From S2P Require Import Prelude GoStrings Ini Cluster HBA Parameters Prog Errors Naming Objects Client Psql Passwords Instances ClusterStatus PGBackRest.

(** ** Names on the primary *)
Definition maxIdentifierLength : nat := 63.

(** A rune of [sanitize]: every rune that is no ASCII letter or digit, also
    one of several bytes, is one underscore. *)
Definition sanitizeRune (r : string) : ascii :=
  match r with
  | String c EmptyString =>
      if is_lower c || is_digit c then c else if is_upper c then ascii_of_N (code c + 32) else "_"%char
  | _ => "_"%char
  end.

Definition sanitize (s : string) : string := fold_right String EmptyString (map sanitizeRune (runes s)).

Section Identifiers.
Context `{Digests}.

Definition identifier (prefix replica db : string) : string :=
  let sum := sha256 (replica +:+ String "000"%char db) in
  let suffix := "_" +:+ GoStrings.take_string 8 (hex sum) in
  let name := prefix +:+ "_" +:+ sanitize replica +:+ "_" +:+ sanitize db in
  let most := maxIdentifierLength - String.length suffix in
  (if most <? String.length name then GoStrings.take_string most name else name) +:+ suffix.

Definition SlotName (replica db : string) : string := identifier "pgo_lr_slot" replica db.
Definition PublicationName (replica db : string) : string := identifier "pgo_lr_pub" replica db.
Definition SubscriptionName (replica db : string) : string := identifier "pgo_lr_sub" replica db.
End Identifiers.

(** ** Readiness of the primary *)
Definition reasonPrimaryInRecovery : string := "PrimaryInRecovery".
Definition reasonWALLevelNotLogical : string := "WALLevelNotLogical".
Definition reasonReplicationRoleNotReady : string := "ReplicationRoleNotReady".
Definition reasonReplicationHBAMissing : string := "ReplicationHBAMissing".
Definition ReasonRestartPending : string := "RestartPending".

Definition hbaAuthMethod : string := "scram-sha-256".
Definition hbaOrigin : string := "hostssl".

(** Both rules that the query looks for, for a database. *)
Definition hbaRuleQuery (db : string) : string :=
  Join ["EXISTS (";
    "        SELECT 1 FROM pg_catalog.pg_hba_file_rules r";
    "         WHERE r.error IS NULL AND r.type = " +:+ QuoteLiteral hbaOrigin +:+
      " AND r.auth_method = " +:+ QuoteLiteral hbaAuthMethod;
    "           AND " +:+ QuoteLiteral logicalreplica_ReplicationUser +:+ " = ANY (r.user_name) AND '" +:+
      db +:+ "' = ANY (r.database))"] (char newline).

Definition PrimaryReadinessQuery : string :=
  Join ["SELECT coalesce(pg_catalog.string_agg(c.name, ',' ORDER BY c.n), '')";
    "  FROM (VALUES";
    "    (1, " +:+ QuoteLiteral reasonPrimaryInRecovery +:+ ", NOT pg_catalog.pg_is_in_recovery()),";
    "    (2, " +:+ QuoteLiteral reasonWALLevelNotLogical +:+ ", pg_catalog.current_setting('wal_level') = 'logical'),";
    "    (3, " +:+ QuoteLiteral ReasonRestartPending +:+ ", NOT EXISTS (";
    "        SELECT 1 FROM pg_catalog.pg_settings WHERE pending_restart)),";
    "    (4, " +:+ QuoteLiteral reasonReplicationRoleNotReady +:+ ", EXISTS (";
    "        SELECT 1 FROM pg_catalog.pg_authid";
    "         WHERE rolname = " +:+ QuoteLiteral logicalreplica_ReplicationUser;
    "           AND rolcanlogin AND rolreplication AND rolsuper";
    "           AND rolpassword IS NOT NULL";
    "           AND (rolvaliduntil IS NULL OR rolvaliduntil > pg_catalog.now()))),";
    "    (5, " +:+ QuoteLiteral reasonReplicationHBAMissing +:+ ", " +:+ hbaRuleQuery "replication";
    "      AND " +:+ hbaRuleQuery "all" +:+ ")";
    "  ) AS c(n, name, satisfied)";
    " WHERE NOT c.satisfied;"] (char newline).

Definition ParsePrimaryReadinessReasons (stdout : string) : list string :=
  List.filter nonempty (map TrimSpace (Split stdout ","%char)).

Definition PrimaryReadinessMessage (reason : string) : string :=
  if bool_decide (reason = reasonPrimaryInRecovery)
  then "the primary is in recovery; pg_createsubscriber needs a writable publisher"
  else if bool_decide (reason = reasonWALLevelNotLogical)
  then sh "`wal_level` is not `logical`; set it back via spec.patroni.dynamicConfiguration"
  else if bool_decide (reason = ReasonRestartPending)
  then "PostgreSQL has a parameter change pending a restart, which would cut off the bootstrap"
  else if bool_decide (reason = reasonReplicationRoleNotReady)
  then "the " +:+ logicalreplica_ReplicationUser +:+ " role has not been created yet"
  else if bool_decide (reason = reasonReplicationHBAMissing)
  then "the pg_hba rules that let " +:+ logicalreplica_ReplicationUser +:+ " reach the primary have not been written yet"
  else reason.

(** ** Statements about subscriptions and slots *)
Section Statements.
Context `{Digests}.

Definition SubscriptionsEnabledQuery (replica : string) (databases : list string) : string :=
  "SELECT count(*) = " +:+ pretty (length databases) +:+
  " FROM pg_catalog.pg_subscription WHERE subenabled AND subname IN (" +:+
  Join (map (fun db => QuoteLiteral (SubscriptionName replica db)) databases) ", " +:+ ");".

Definition DisableOnErrorSQL (replica db : string) : string :=
  "ALTER SUBSCRIPTION " +:+ Quote (SubscriptionName replica db) +:+ " SET (disable_on_error = true);".

Definition dropSubscriptionSQL (replica db : string) : string :=
  let subscription := Quote (SubscriptionName replica db) in
  "ALTER SUBSCRIPTION " +:+ subscription +:+ " DISABLE; ALTER SUBSCRIPTION " +:+ subscription +:+
  " SET (slot_name = NONE); DROP SUBSCRIPTION " +:+ subscription +:+ ";".

Definition terminateSQL (replica db : string) : string :=
  "SELECT pg_terminate_backend(active_pid) FROM pg_replication_slots WHERE slot_name = " +:+
  QuoteLiteral (SlotName replica db) +:+ " AND active = true;".

Definition dropSlotSQL (replica db : string) : string :=
  "SELECT pg_catalog.pg_drop_replication_slot(slot_name) FROM pg_catalog.pg_replication_slots WHERE slot_name = " +:+
  QuoteLiteral (SlotName replica db) +:+ ";".

Definition dropPublicationSQL (replica db : string) : string :=
  "DROP PUBLICATION IF EXISTS " +:+ Quote (PublicationName replica db) +:+ ";".

Definition countSlotsSQL (replica : string) (databases : list string) : string :=
  "SELECT count(*) FROM pg_catalog.pg_replication_slots WHERE slot_name IN (" +:+
  Join (map (fun db => QuoteLiteral (SlotName replica db)) databases) "," +:+ ");".

Definition subscriptionHealthSQL (replica db : string) : string :=
  "SELECT s.subenabled, (st.pid IS NOT NULL) " +:+
  "FROM pg_catalog.pg_subscription s " +:+
  "LEFT JOIN pg_catalog.pg_stat_subscription st ON st.subid = s.oid AND st.relid IS NULL " +:+
  "WHERE s.subname = " +:+ QuoteLiteral (SubscriptionName replica db) +:+ ";".
End Statements.

Definition capacitySQL : string :=
  "SELECT current_setting('max_replication_slots')::int - (SELECT count(*) FROM pg_catalog.pg_replication_slots), " +:+
  "current_setting('max_wal_senders')::int - (SELECT count(*) FROM pg_catalog.pg_stat_replication);".

Definition databasesSQL (where_ : string) : string :=
  "SELECT datname FROM pg_catalog.pg_database WHERE " +:+ where_ +:+ " ORDER BY datname;".

(** [strconv.Atoi] is [ParseInt]. *)
Definition parseSubscriptionHealth (stdout : string) : result (bool * bool) :=
  let row := TrimSpace stdout in
  if negb (nonempty row) then Ok (false, false)
  else match Split row "|"%char with
       | [a; b] => Ok (bool_decide (TrimSpace a = "t"), bool_decide (TrimSpace b = "t"))
       | _ => Err (New ("unexpected subscription query output: " +:+ Quote stdout))
       end.

(** The loop of [checkPrimaryCapacity]: [limit] is a noun, a parameter and what
    is needed. *)
Definition checkLimit (limit : string * string * Z) (field : string) : option error :=
  let '(noun, parameter, needed) := limit in
  match ParseInt (TrimSpace field) with
  | None => Some (Wrap ("parse free " +:+ noun +:+ ": " +:+ Quote field) (New "invalid syntax"))
  | Some free =>
      if bool_decide (free < needed)%Z
      then Some (New ("primary has " +:+ pretty free +:+ " free " +:+ noun +:+ " but " +:+ pretty needed +:+
             " are needed; raise " +:+ parameter +:+ " via spec.patroni.dynamicConfiguration"))
      else None
  end.

Definition checkLimits (neededSlots neededSenders : Z) (stdout : string) : option error :=
  match Split stdout "|"%char with
  | [slots; senders] =>
      match checkLimit ("replication slots", "max_replication_slots", neededSlots) slots with
      | Some e => Some e
      | None => checkLimit ("WAL senders", "max_wal_senders", neededSenders) senders
      end
  | _ => Some (New ("unexpected capacity query output: " +:+ Quote stdout))
  end.

(** [queryDatabases]: the lines of the answer *)
Definition databaseLines (stdout : string) : list string :=
  List.filter nonempty (map TrimSpace (Split stdout newline)).

(** ** The specification of a replica *)
Definition BootstrapPGBackRest : string := "pgbackrest".
Definition BootstrapPGBaseBackup : string := "pg_basebackup".

Definition BootstrapMethodOrDefault (spec : LogicalReplicaSpec) : string :=
  if nonempty (lr_BootstrapMethod spec) then lr_BootstrapMethod spec else BootstrapPGBackRest.

(** [logicalReplicaCapacity]: slots, and WAL senders *)
Definition logicalReplicaCapacity (spec : LogicalReplicaSpec) (databases : nat) : Z * Z :=
  let n := Z.of_nat databases in
  if bool_decide (BootstrapMethodOrDefault spec = BootstrapPGBaseBackup)
  then (Z.max n 1, Z.max n 2) else (n, n).

(** [LogicalReplicas.ToCrunchy] *)
Definition LogicalReplicas_ToCrunchy (l : list LogicalReplicaSpec) : list string := map lr_Name l.

(** [ValidateLogicalReplicas]; the messages name the first offender. *)
Fixpoint duplicate (seen l : list string) : option string :=
  match l with
  | [] => None
  | x :: l => if bool_decide (x ∈ seen) then Some x else duplicate (x :: seen) l
  end.

Fixpoint validateReplicas (instanceSets seen : list string) (l : list LogicalReplicaSpec) : option error :=
  match l with
  | [] => None
  | replica :: l =>
      let name := lr_Name replica in
      if bool_decide (name ∈ seen)
      then Some (New ("duplicate spec.logicalReplicas name " +:+ Quote name))
      else if bool_decide (name ∈ instanceSets)
      then Some (New ("spec.logicalReplicas name " +:+ Quote name +:+ " conflicts with an instance set of the same name"))
      else match duplicate [] (lr_Databases replica) with
           | Some db => Some (New ("duplicate database " +:+ Quote db +:+ " in spec.logicalReplicas " +:+ Quote name))
           | None => validateReplicas instanceSets (name :: seen) l
           end
  end.

Definition ValidateLogicalReplicas (cr : PerconaPGCluster) : option error :=
  match c_LogicalReplicas cr with
  | [] => None
  | l => validateReplicas (map set_Name (c_InstanceSets cr)) [] l
  end.

(** ** Shell scripts *)
Definition backslash_quote : string := String squote (String backslash (String squote (char squote))).

(** [shellQuote] *)
Definition shellQuote (s : string) : string :=
  char squote +:+ ReplaceAll squote backslash_quote s +:+ char squote.

(** A command over several lines. *)
Definition continuation : string := " " +:+ String backslash (String newline "    ").

Definition Lines (l : list string) : string := Join l (char newline).

Definition logicalReplicaConfigMountPath : string := "/etc/logical-replica".
Definition logicalReplicaConfigFile : string := "postgresql.conf".
Definition logicalReplicaBootstrapConfigFile : string := "bootstrap.conf".
Definition logicalReplicaRecoveryTimeout : Z := 3600.
Definition logicalReplicaPGCtlTimeout : Z := 300.
Definition logicalReplicaWorkerHeadroom : nat := 8.
Definition CertMountPath : string := "/pgconf/tls".

Section Scripts.
Context `{Digests}.

(** The arguments of [pg_createsubscriber] about one database. *)
Definition databaseArgs (replica db : string) : list string :=
  ["--database=" +:+ shellQuote db;
   "--publication=" +:+ PublicationName replica db;
   "--subscription=" +:+ SubscriptionName replica db;
   "--replication-slot=" +:+ SlotName replica db].

Definition createSubscriberArgs (dataDir replica : string) (databases : list string) : list string :=
  ["  pg_createsubscriber";
   "--verbose";
   "--pgdata=" +:+ shellQuote dataDir;
   sh "--publisher-server=`${PUBLISHER_CONNINFO}`";
   "--socketdir=" +:+ shellQuote SocketDirectory;
   "--recovery-timeout=" +:+ pretty logicalReplicaRecoveryTimeout;
   "--config-file=" +:+ shellQuote (logicalReplicaConfigMountPath +:+ "/" +:+ logicalReplicaBootstrapConfigFile)] ++
  mjoin (map (databaseArgs replica) databases) ++
  [sh "`$@`"].

Definition publisherConninfo (primaryHost : string) (port : Z) : string :=
  "host=" +:+ primaryHost +:+ " port=" +:+ pretty port +:+ " user=" +:+ logicalreplica_ReplicationUser +:+
  " dbname=postgres sslmode=verify-ca sslrootcert=" +:+ CertMountPath +:+ "/ca.crt".

Definition logicalReplicaDisableOnErrorCommand (dataDir replica : string) (databases : list string) : string :=
  let options :=
    ["-c config_file=" +:+ logicalReplicaConfigMountPath +:+ "/" +:+ logicalReplicaBootstrapConfigFile;
     "-c listen_addresses=''";
     "-c max_logical_replication_workers=0"] in
  let timeout := " --timeout=" +:+ pretty logicalReplicaPGCtlTimeout in
  Lines (
    ["pg_ctl start --wait" +:+ timeout +:+ " --pgdata=" +:+ shellQuote dataDir +:+
     " --options=" +:+ char dquote +:+ Join options " " +:+ char dquote] ++
    map (fun db => "psql --no-psqlrc --set=ON_ERROR_STOP=on" +:+ " --dbname=" +:+ shellQuote db +:+
                   " --command=" +:+ shellQuote (DisableOnErrorSQL replica db)) databases ++
    ["pg_ctl stop --wait" +:+ timeout +:+ " --mode=fast --pgdata=" +:+ shellQuote dataDir]).

Definition logicalReplicaBootstrapScript (dataDir primaryHost : string) (port : Z) (databases : list string)
    (replica seed : string) : string :=
  Lines [
    "set -euo pipefail";
    "";
    "PUBLISHER_CONNINFO=" +:+ char dquote +:+ publisherConninfo primaryHost port +:+ char dquote;
    "";
    "createsubscriber() {";
    Join (createSubscriberArgs dataDir replica databases) continuation;
    "}";
    "";
    "if [ -s " +:+ shellQuote (path_Join [dataDir; "PG_VERSION"]) +:+ " ]; then";
    sh "  echo `data directory is not empty, refusing to seed over it` >&2";
    "  exit 1";
    "fi";
    "";
    "install --directory --mode=0700 " +:+ shellQuote dataDir;
    "";
    "install --directory --mode=0700 " +:+ shellQuote SocketDirectory;
    "";
    seed;
    "";
    "printf >> " +:+ shellQuote (path_Join [dataDir; "postgresql.auto.conf"]) +:+
      sh " `primary_conninfo = '%s'\n` `${PUBLISHER_CONNINFO}`";
    "";
    "rm -f " +:+ shellQuote (path_Join [dataDir; "patroni.dynamic.json"]);
    "";
    sh "echo `validating prerequisites`";
    "createsubscriber --dry-run";
    "";
    sh "echo `converting to a logical replica`";
    "createsubscriber";
    "";
    sh "echo `disabling the new subscriptions on their first apply error`";
    logicalReplicaDisableOnErrorCommand dataDir replica databases;
    "";
    sh "echo `done`"].
End Scripts.

(** *** Seeds *)
Definition logicalReplicaRestoreOptions (crunchyCR : CrunchyCluster) (dataDir : string) : result (list string) :=
  match pa_Repos (cc_Backups crunchyCR) with
  | [] => Err (New ("cluster has no pgBackRest repository to restore from; " +:+
            "configure spec.backups.pgbackrest.repos or set " +:+
            "spec.logicalReplicas[].bootstrapMethod to pg_basebackup"))
  | repo :: _ =>
      Ok (["--stanza=" +:+ DefaultStanzaName;
           "--pg1-path=" +:+ dataDir;
           "--repo=" +:+ TrimPrefix (repo_Name repo) "repo";
           "--type=standby";
           "--log-level-file=off";
           "--log-level-console=info";
           "--log-level-stderr=info"] ++
          (if existsb is_WALVolume (cc_InstanceSets crunchyCR)
           then ["--link-map=pg_wal=" +:+ path_Join [dataDir; "pg_wal"]] else []))
  end.

Definition logicalReplicaRestoreCommand (crunchyCR : CrunchyCluster) (dataDir : string) : result string :=
  match logicalReplicaRestoreOptions crunchyCR dataDir with
  | Err e => Err e
  | Ok opts => Ok (sh "echo `restoring the data directory from pgBackRest`" +:+ char newline +:+
                   "pgbackrest restore " +:+ Join opts " ")
  end.

Definition logicalReplicaBaseBackupCommand (crunchyCR : CrunchyCluster) (dataDir : string) : string :=
  let command := if ext_PGTDE_Enabled (pc_Extensions (cc_Config crunchyCR))
                 then "pg_tde_basebackup" else "pg_basebackup" in
  let args :=
    [command;
     sh "--dbname=`${PUBLISHER_CONNINFO}`";
     "--pgdata=" +:+ shellQuote dataDir;
     "--wal-method=stream";
     "--checkpoint=fast";
     "--no-password";
     "--verbose";
     "--progress"] in
  sh "echo `streaming a base backup from the primary`" +:+ char newline +:+
  Join args continuation +:+ char newline +:+ char newline +:+
  "touch " +:+ shellQuote (path_Join [dataDir; "standby.signal"]).

Definition logicalReplicaSeedCommand (crunchyCR : CrunchyCluster) (spec : LogicalReplicaSpec) (dataDir : string)
    : result string :=
  let method := BootstrapMethodOrDefault spec in
  if bool_decide (method = BootstrapPGBaseBackup) then Ok (logicalReplicaBaseBackupCommand crunchyCR dataDir)
  else if bool_decide (method = BootstrapPGBackRest) then logicalReplicaRestoreCommand crunchyCR dataDir
  else Err (New ("unknown logical replica bootstrap method " +:+ Quote method)).

(** ** postgresql.conf *)
Definition logicalReplicaPostgresConfig (port : Z) (crunchyCR : CrunchyCluster) (databases : nat)
    (readOnly : bool) : string :=
  let inherited := path_Join [DataDirectory (config crunchyCR); "postgresql.conf"] in
  let lines :=
    ["# Generated by percona-postgresql-operator. Do not edit.";
     "";
     "# The primary's own configuration, as it came back from the backup.";
     "# Settings below this line override it.";
     "include_if_exists '" +:+ inherited +:+ "'";
     "";
     "listen_addresses = '*'";
     "port = " +:+ pretty port;
     "unix_socket_directories = '" +:+ SocketDirectory +:+ "'";
     "";
     "ssl = on";
     "ssl_cert_file = '" +:+ CertMountPath +:+ "/tls.crt'";
     "ssl_key_file = '" +:+ CertMountPath +:+ "/tls.key'";
     "ssl_ca_file = '" +:+ CertMountPath +:+ "/ca.crt'";
     "";
     "# Without this the replica would inherit the pgBackRest archive_command and";
     "# push WAL from a diverged timeline into the source cluster's stanza.";
     "archive_mode = off";
     "archive_command = ''";
     "";
     "# One apply worker and one origin per subscribed database.";
     "max_replication_slots = " +:+ pretty databases;
     "max_logical_replication_workers = " +:+ pretty databases;
     "max_worker_processes = " +:+ pretty (databases + logicalReplicaWorkerHeadroom)%nat;
     "";
     "password_encryption = 'scram-sha-256'"] in
  let lines := if readOnly then lines ++
    ["";
     "# Writing to a logical replica diverges it from the primary, and the";
     "# first conflicting row breaks apply for good. Replication itself keeps";
     "# working: this only disallows SQL commands, which the apply worker";
     "# bypasses.";
     "default_transaction_read_only = on"] else lines in
  Lines lines +:+ char newline.

(** ** Probes *)
Definition defaultProbe (delay period failureThreshold successThreshold : Z) : Probe :=
  mkProbe (Some ["pg_isready"; "-h"; SocketDirectory]) delay period failureThreshold successThreshold 0.

Definition orElse (new old : Z) : Z := if bool_decide (new <> 0)%Z then new else old.

Definition overrideProbe (probe : Probe) (override : option Probe) : Probe :=
  match override with
  | None => probe
  | Some o =>
      mkProbe (match pr_Command o with Some c => Some c | None => pr_Command probe end)
        (orElse (pr_InitialDelaySeconds o) (pr_InitialDelaySeconds probe))
        (orElse (pr_PeriodSeconds o) (pr_PeriodSeconds probe))
        (orElse (pr_FailureThreshold o) (pr_FailureThreshold probe))
        (orElse (pr_SuccessThreshold o) (pr_SuccessThreshold probe))
        (orElse (pr_TimeoutSeconds o) (pr_TimeoutSeconds probe))
  end.

Definition startupProbe (probe : option Probe) : Probe := overrideProbe (defaultProbe 5 5 30 1) probe.
Definition livenessProbe (probe : option Probe) : Probe := overrideProbe (defaultProbe 30 20 6 1) probe.

Definition readinessProbe `{Digests} (replica : string) (databases : list string) (probe : option Probe) : Probe :=
  let readiness := defaultProbe 0 5 2 1 in
  match databases with
  | [] => overrideProbe readiness probe
  | _ =>
      overrideProbe (readiness <| pr_Command := Some ["bash"; "-c"; Lines [
        "set -euo pipefail";
        "pg_isready -q -h " +:+ shellQuote SocketDirectory;
        "psql -XAtqw --command=" +:+ shellQuote (SubscriptionsEnabledQuery replica databases) +:+ " | grep -qx t"]] |>) probe
  end.

(** ** [nss_wrapper]: [postgrescluster/util.go] *)
Definition nssWrapperScript : string :=
  Join ["";
    "# Define nss_wrapper directory and passwd & group files that will be utilized by nss_wrapper.  The";
    "# nss_wrapper_env.sh script (which also sets these vars) isn't sourced here since the nss_wrapper";
    "# has not yet been setup, and we therefore don't yet want the nss_wrapper vars in the environment.";
    "mkdir -p /tmp/nss_wrapper";
    "chmod g+rwx /tmp/nss_wrapper";
    "";
    sh "NSS_WRAPPER_DIR=`/tmp/nss_wrapper/${NSS_WRAPPER_SUBDIR}`";
    sh "NSS_WRAPPER_PASSWD=`${NSS_WRAPPER_DIR}/passwd`";
    sh "NSS_WRAPPER_GROUP=`${NSS_WRAPPER_DIR}/group`";
    "";
    "# create the nss_wrapper directory";
    sh "mkdir -p `${NSS_WRAPPER_DIR}`";
    "";
    "# grab the current user ID and group ID";
    "USER_ID=$(id -u)";
    "export USER_ID";
    "GROUP_ID=$(id -g)";
    "export GROUP_ID";
    "";
    "# get copies of the passwd and group files";
    sh "[[ -f `${NSS_WRAPPER_PASSWD}` ]] || cp `/etc/passwd` `${NSS_WRAPPER_PASSWD}`";
    sh "[[ -f `${NSS_WRAPPER_GROUP}` ]] || cp `/etc/group` `${NSS_WRAPPER_GROUP}`";
    "";
    "# if the username is missing from the passwd file, then add it";
    sh "if [[ ! $(cat `${NSS_WRAPPER_PASSWD}`) =~ ${CRUNCHY_NSS_USERNAME}:x:${USER_ID} ]]; then";
    sh "    echo `nss_wrapper: adding user`";
    sh "    passwd_tmp=`${NSS_WRAPPER_DIR}/passwd_tmp`";
    sh "    cp `${NSS_WRAPPER_PASSWD}` `${passwd_tmp}`";
    sh "    sed -i `/${CRUNCHY_NSS_USERNAME}:x:/d` `${passwd_tmp}`";
    "    # needed for OCP 4.x because crio updates /etc/passwd with an entry for USER_ID";
    sh "    sed -i `/${USER_ID}:x:/d` `${passwd_tmp}`";
    sh "    printf '${CRUNCHY_NSS_USERNAME}:x:${USER_ID}:${GROUP_ID}:${CRUNCHY_NSS_USER_DESC}:${HOME}:/bin/bash\n' >> `${passwd_tmp}`";
    sh "    envsubst < `${passwd_tmp}` > `${NSS_WRAPPER_PASSWD}`";
    sh "    rm `${passwd_tmp}`";
    "else";
    sh "    echo `nss_wrapper: user exists`";
    "fi";
    "";
    "# if the username (which will be the same as the group name) is missing from group file, then add it";
    sh "if [[ ! $(cat `${NSS_WRAPPER_GROUP}`) =~ ${CRUNCHY_NSS_USERNAME}:x:${USER_ID} ]]; then";
    sh "    echo `nss_wrapper: adding group`";
    sh "    group_tmp=`${NSS_WRAPPER_DIR}/group_tmp`";
    sh "    cp `${NSS_WRAPPER_GROUP}` `${group_tmp}`";
    sh "    sed -i `/${CRUNCHY_NSS_USERNAME}:x:/d` `${group_tmp}`";
    sh "    printf '${CRUNCHY_NSS_USERNAME}:x:${USER_ID}:${CRUNCHY_NSS_USERNAME}\n' >> `${group_tmp}`";
    sh "    envsubst < `${group_tmp}` > `${NSS_WRAPPER_GROUP}`";
    sh "    rm `${group_tmp}`";
    "else";
    sh "    echo `nss_wrapper: group exists`";
    "fi";
    "";
    "# export the nss_wrapper env vars";
    "# define nss_wrapper directory and passwd & group files that will be utilized by nss_wrapper";
    sh "NSS_WRAPPER_DIR=`/tmp/nss_wrapper/${NSS_WRAPPER_SUBDIR}`";
    sh "NSS_WRAPPER_PASSWD=`${NSS_WRAPPER_DIR}/passwd`";
    sh "NSS_WRAPPER_GROUP=`${NSS_WRAPPER_DIR}/group`";
    "";
    "export LD_PRELOAD=/usr/lib64/libnss_wrapper.so";
    sh "export NSS_WRAPPER_PASSWD=`${NSS_WRAPPER_PASSWD}`";
    sh "export NSS_WRAPPER_GROUP=`${NSS_WRAPPER_GROUP}`";
    "";
    sh "echo `nss_wrapper: environment configured`";
    ""] (char newline).

Definition postgresNSSWrapperPrefix : string :=
  sh "export NSS_WRAPPER_SUBDIR=postgres CRUNCHY_NSS_USERNAME=postgres CRUNCHY_NSS_USER_DESC=`postgres` ".

Definition NSSWrapperPostgresCommand : string := postgresNSSWrapperPrefix +:+ nssWrapperScript.

Definition NSSWrapperPostgresEnv : list EnvVar :=
  [EnvValue "LD_PRELOAD" "/usr/lib64/libnss_wrapper.so";
   EnvValue "NSS_WRAPPER_PASSWD" "/tmp/nss_wrapper/postgres/passwd";
   EnvValue "NSS_WRAPPER_GROUP" "/tmp/nss_wrapper/postgres/group"].

(** ** Properties of the names *)

(** Letters, digits and underscores: a name that needs no quotes. *)
Definition name_char (c : ascii) : bool := is_lower c || is_digit c || bool_decide (c = "_"%char).

Lemma hex_digit_char n : (n < 16)%N -> name_char (hex_digit n) = true.
Proof.
  intros Hn. assert (Hall : forallb (fun i => name_char (hex_digit (N.of_nat i))) (seq 0 16) = true) by by vm_compute.
  rewrite forallb_forall in Hall. specialize (Hall (N.to_nat n)). rewrite N2Nat.id in Hall.
  apply Hall, in_seq. lia.
Qed.

Lemma hex_chars s : all_chars name_char (hex s) = true.
Proof.
  unfold hex. induction s as [|c s IH]; [done|]. cbn [bind_string]. rewrite !app_assoc_str, !char_app. cbn [all_chars].
  pose proof (code_lt c). rewrite !hex_digit_char, IH; [done| |].
  - apply N.mod_lt. lia.
  - apply N.Div0.div_lt_upper_bound. lia.
Qed.

Lemma hex_length s : String.length (hex s) = 2 * String.length s.
Proof. unfold hex. induction s as [|c s IH]; [done|]. cbn [bind_string]. rewrite !length_app_str, IH. simpl. lia. Qed.

Lemma take_string_beyond p n s : GoStrings.take_string (String.length p + n) (p +:+ s) = p +:+ GoStrings.take_string n s.
Proof. induction p as [|c p IH]; [done|]. simpl. by rewrite app_cons_str, <- IH. Qed.

Lemma lower_of_upper c : is_upper c = true -> is_lower (ascii_of_N (code c + 32)) = true.
Proof.
  unfold is_upper, is_lower. rewrite !andb_true_iff, !N.leb_le. intros [? ?].
  assert (E : code (ascii_of_N (code c + 32)) = (code c + 32)%N) by (apply N_ascii_embedding; lia).
  rewrite E. lia.
Qed.

Lemma sanitizeRune_char r : name_char (sanitizeRune r) = true.
Proof.
  unfold sanitizeRune. destruct r as [|c [|d r]]; [by vm_compute| |by vm_compute].
  destruct (is_lower c) eqn:El; cbn [orb]; [unfold name_char; by rewrite El|].
  destruct (is_digit c) eqn:Ed; [unfold name_char; by rewrite El, Ed|].
  destruct (is_upper c) eqn:Eu; [|by vm_compute]. unfold name_char. by rewrite lower_of_upper.
Qed.

Lemma sanitize_chars s : all_chars name_char (sanitize s) = true.
Proof. unfold sanitize. induction (runes s) as [|r l IH]; simpl; [done|]. by rewrite sanitizeRune_char. Qed.

(** The three kinds of names. *)
Inductive object_kind := Slot | Publication | Subscription.

Definition kind_prefix (k : object_kind) : string :=
  match k with Slot => "pgo_lr_slot" | Publication => "pgo_lr_pub" | Subscription => "pgo_lr_sub" end.

Section Names.
Context `{Digests}.

Definition objectName (k : object_kind) (replica db : string) : string :=
  match k with
  | Slot => SlotName replica db
  | Publication => PublicationName replica db
  | Subscription => SubscriptionName replica db
  end.

(** The 32 bits of the digest that end a name. *)
Definition short_digest (replica db : string) : string :=
  GoStrings.take_string 8 (hex (sha256 (replica +:+ String "000"%char db))).

Lemma short_digest_length replica db : String.length (short_digest replica db) = 8.
Proof. unfold short_digest. rewrite length_take_string, hex_length, sha256_length. done. Qed.

(** A name is a prefix of its parts and the digest, within the bound. *)
Lemma identifier_parts prefix replica db : String.length prefix <= 53 ->
  exists rest, identifier prefix replica db = prefix +:+ "_" +:+ rest +:+ "_" +:+ short_digest replica db /\
    all_chars name_char rest = true /\ String.length (identifier prefix replica db) <= maxIdentifierLength.
Proof.
  intros Hp. unfold identifier. fold (short_digest replica db). cbv zeta.
  assert (Hs : String.length ("_" +:+ short_digest replica db) = 9) by (rewrite length_app_str, short_digest_length; done).
  rewrite Hs. change (maxIdentifierLength - 9) with 54.
  set (tail := sanitize replica +:+ "_" +:+ sanitize db).
  assert (Ht : all_chars name_char tail = true).
  { unfold tail. rewrite !all_chars_app, !sanitize_chars. by vm_compute. }
  assert (Hcut : exists rest, (if 54 <? String.length (prefix +:+ "_" +:+ tail)
      then GoStrings.take_string 54 (prefix +:+ "_" +:+ tail) else prefix +:+ "_" +:+ tail) = prefix +:+ "_" +:+ rest /\
      all_chars name_char rest = true /\ String.length (prefix +:+ "_" +:+ rest) <= 54).
  { destruct (54 <? _) eqn:E; [|exists tail; apply Nat.ltb_ge in E; done].
    apply Nat.ltb_lt in E. exists (GoStrings.take_string (53 - String.length prefix) tail). split_and!.
    - replace 54 with (String.length prefix + S (53 - String.length prefix)) by lia. by rewrite take_string_beyond.
    - by apply all_chars_take.
    - rewrite !length_app_str, length_take_string. simpl. lia. }
  destruct Hcut as (rest & -> & Hr & Hl). exists rest. split_and!; [by rewrite !app_assoc_str|done|].
  rewrite (length_app_str (prefix +:+ _)), Hs. unfold maxIdentifierLength. lia.
Qed.

Lemma objectName_parts k replica db : exists rest,
  objectName k replica db = kind_prefix k +:+ "_" +:+ rest +:+ "_" +:+ short_digest replica db /\
  all_chars name_char rest = true /\ String.length (objectName k replica db) <= maxIdentifierLength.
Proof. destruct k; apply identifier_parts; vm_compute; lia. Qed.

Lemma objectName_chars k replica db : all_chars name_char (objectName k replica db) = true.
Proof.
  destruct (objectName_parts k replica db) as (rest & -> & Hr & _). rewrite !all_chars_app, Hr.
  unfold short_digest. rewrite all_chars_take by apply hex_chars. by destruct k.
Qed.

(** A NUL ends the name of a replica within the digested text. *)
Definition no_nul (s : string) : bool := all_chars (fun c => negb (bool_decide (c = "000"%char))) s.

Lemma nul_separated r d r' d' : no_nul r = true -> no_nul r' = true ->
  r +:+ String "000"%char d = r' +:+ String "000"%char d' -> r = r' /\ d = d'.
Proof.
  revert r'. induction r as [|c r IH]; intros [|c' r']; unfold no_nul; simpl.
  - by intros _ _ [= ->].
  - intros _ Hc [= <- _]. rewrite bool_decide_eq_true_2 in Hc; done.
  - intros Hc _ [= -> _]. rewrite bool_decide_eq_true_2 in Hc; done.
  - intros [_ Hr]%andb_true_iff [_ Hr']%andb_true_iff [= -> Heq]. by destruct (IH r' Hr Hr' Heq) as [-> ->].
Qed.

Lemma plain_Quote s : all_chars name_char s = true -> Quote s = char dquote +:+ s +:+ char dquote.
Proof.
  intros Hs. unfold Quote. f_equal. f_equal. induction s as [|c s IH]; [done|].
  simpl in Hs. apply andb_true_iff in Hs as [Hc Hs]. cbn [bind_string]. rewrite (IH Hs). rewrite <- char_app. f_equal.
  assert (Hall : forallb (fun i => implb (name_char (ascii_of_nat i)) (bool_decide (quote_char (ascii_of_nat i) = char (ascii_of_nat i))))
    (seq 0 256) = true) by by vm_compute.
  rewrite forallb_forall in Hall. specialize (Hall (nat_of_ascii c)). rewrite ascii_nat_embedding, Hc in Hall.
  cbn [implb] in Hall. apply bool_decide_eq_true in Hall; [done|]. apply in_seq. pose proof (nat_ascii_bounded c). lia.
Qed.

Lemma plain_QuoteLiteral s : all_chars name_char s = true -> QuoteLiteral s = " E'" +:+ s +:+ "'".
Proof.
  intros Hs. unfold QuoteLiteral. f_equal. f_equal. unfold escapeLiteral. induction s as [|c s IH]; [done|].
  simpl in Hs. apply andb_true_iff in Hs as [Hc Hs]. cbn [bind_string]. rewrite (IH Hs). unfold escape_char.
  repeat case_decide; subst; done.
Qed.

(** The names of slots, publications and subscriptions are PostgreSQL
    identifiers that need no quotes and are not truncated, whatever the names
    of the replica and the database; names of different kinds differ, and two
    names of a kind are equal only for replicas and databases whose digests
    agree in their first 32 bits. *)
Theorem replication_names (k k' : object_kind) (replica db replica' db' : string) :
  all_chars name_char (objectName k replica db) = true /\
  String.length (objectName k replica db) <= maxIdentifierLength /\
  Quote (objectName k replica db) = char dquote +:+ objectName k replica db +:+ char dquote /\
  QuoteLiteral (objectName k replica db) = " E'" +:+ objectName k replica db +:+ "'" /\
  (objectName k replica db = objectName k' replica' db' ->
    k = k' /\ short_digest replica db = short_digest replica' db') /\
  (no_nul replica = true -> no_nul replica' = true ->
    replica +:+ String "000"%char db = replica' +:+ String "000"%char db' -> replica = replica' /\ db = db').
Proof.
  pose proof (objectName_chars k replica db) as Hc. destruct (objectName_parts k replica db) as (rest & E & _ & Hl).
  split_and!; [done..|by apply plain_Quote|by apply plain_QuoteLiteral| |apply nul_separated].
  destruct (objectName_parts k' replica' db') as (rest' & E' & _ & _). rewrite E, E'. intros Heq. split.
  - destruct k, k'; try done; by injection Heq.
  - assert (Heq' : (kind_prefix k +:+ "_" +:+ rest +:+ "_") +:+ short_digest replica db =
        (kind_prefix k' +:+ "_" +:+ rest' +:+ "_") +:+ short_digest replica' db') by by rewrite !app_assoc_str.
    apply app_inj_length_str in Heq' as [_ ?]; [done|by rewrite !short_digest_length].
Qed.
End Names.

(** ** How a shell reads the scripts *)

(** Characters that mean themselves without quotes. *)
Definition shell_plain (c : ascii) : bool :=
  name_char c || is_upper c || existsb (fun d => bool_decide (c = d)) ["-"; "="; "/"; "."; ","; ":"; "@"; "+"]%char.

Inductive quoting := Unquoted | SingleQuoted | DoubleQuoted.

(** The words of a simple command.  Text in double quotes is kept as it is
    written, before its expansion; an operator, an expansion or a newline
    outside quotes is no part of a simple command. *)
Fixpoint shell_lex (q : quoting) (word : option string) (s : string) : option (list string) :=
  match s with
  | EmptyString => match q with Unquoted => Some (option_list word) | _ => None end
  | String c s' =>
      match q with
      | Unquoted =>
          if decide (c = squote) then shell_lex SingleQuoted (Some (default "" word)) s'
          else if decide (c = dquote) then shell_lex DoubleQuoted (Some (default "" word)) s'
          else if decide (c = backslash) then
            match s' with
            | String d s'' =>
                if decide (d = newline) then shell_lex Unquoted word s''
                else shell_lex Unquoted (Some (default "" word +:+ char d)) s''
            | EmptyString => None
            end
          else if decide (c = " "%char) then
            match word with
            | Some w => cons w <$> shell_lex Unquoted None s'
            | None => shell_lex Unquoted None s'
            end
          else if shell_plain c then shell_lex Unquoted (Some (default "" word +:+ char c)) s'
          else None
      | SingleQuoted =>
          if decide (c = squote) then shell_lex Unquoted word s'
          else shell_lex SingleQuoted (Some (default "" word +:+ char c)) s'
      | DoubleQuoted =>
          if decide (c = dquote) then shell_lex Unquoted word s'
          else if decide (c = backslash) then None
          else shell_lex DoubleQuoted (Some (default "" word +:+ char c)) s'
      end
  end.

Definition shell_words : string -> option (list string) := shell_lex Unquoted None.

(** A part of a command that adds [v] to a word, whatever follows. *)
Definition reads (part v : string) : Prop :=
  forall w rest, shell_lex Unquoted w (part +:+ rest) = shell_lex Unquoted (Some (default "" w +:+ v)) rest.

Lemma reads_app p v p' v' : reads p v -> reads p' v' -> reads (p +:+ p') (v +:+ v').
Proof. intros Hp Hp' w rest. rewrite app_assoc_str, Hp, Hp'. simpl. by rewrite app_assoc_str. Qed.

Lemma shell_plain_cases c : shell_plain c = true ->
  c <> squote /\ c <> dquote /\ c <> backslash /\ c <> " "%char.
Proof. intros Hc. split_and!; intros ->; by vm_compute in Hc. Qed.

Lemma reads_plain s : all_chars shell_plain s = true -> s <> "" -> reads s s.
Proof.
  induction s as [|c s IH]; intros Hs Hne; [done|]. clear Hne. simpl in Hs. apply andb_true_iff in Hs as [Hc Hs].
  assert (Hone : forall w rest, shell_lex Unquoted w (String c rest) =
      shell_lex Unquoted (Some (default "" w +:+ char c)) rest).
  { intros w rest. destruct (shell_plain_cases c Hc) as (? & ? & ? & ?). cbn [shell_lex].
    rewrite !decide_False by done. by rewrite Hc. }
  intros w rest. rewrite app_cons_str, Hone. destruct s as [|d s]; [done|].
  rewrite IH by done. simpl. by rewrite app_assoc_str.
Qed.

Lemma single_quoted s w rest :
  shell_lex SingleQuoted (Some w) (ReplaceAll squote backslash_quote s +:+ String squote rest) =
  shell_lex Unquoted (Some (w +:+ s)) rest.
Proof.
  revert w. induction s as [|c s IH]; intros w.
  - rewrite ReplaceAll_nil, app_nil_l_str, app_nil_r_str. cbn [shell_lex]. by rewrite decide_True.
  - destruct (decide (c = squote)) as [->|Hc].
    + rewrite ReplaceAll_same, app_assoc_str. unfold backslash_quote. rewrite !app_cons_str, char_app. cbn [shell_lex].
      rewrite decide_True by done. rewrite !decide_False by done. rewrite (decide_True (P := backslash = backslash)) by done.
      rewrite (decide_False (P := squote = newline)) by done. rewrite decide_True by done.
      cbn [default from_option]. rewrite IH. cbn [from_option id]. by rewrite !app_assoc_str.
    + rewrite ReplaceAll_other, app_cons_str by done. cbn [shell_lex]. rewrite decide_False by done.
      cbn [default from_option]. rewrite IH. by rewrite app_assoc_str.
Qed.

Lemma reads_shellQuote s : reads (shellQuote s) s.
Proof.
  intros w rest. unfold shellQuote. rewrite char_app, app_cons_str, app_assoc_str, char_app. cbn [shell_lex].
  rewrite decide_True by done. apply single_quoted.
Qed.

(** Text in double quotes without a double quote or a backslash. *)
Definition double_plain (c : ascii) : bool := negb (bool_decide (c = dquote)) && negb (bool_decide (c = backslash)).

Lemma reads_double s : all_chars double_plain s = true -> reads (char dquote +:+ s +:+ char dquote) s.
Proof.
  intros Hs w rest. rewrite char_app, app_cons_str, app_assoc_str, char_app. cbn [shell_lex].
  rewrite decide_False by done. rewrite decide_True by done. generalize (default "" w) as u. clear w.
  induction s as [|c s IH]; intros u.
  - rewrite app_nil_l_str, app_nil_r_str. cbn [shell_lex]. by rewrite decide_True.
  - simpl in Hs. apply andb_true_iff in Hs as [Hc Hs]. unfold double_plain in Hc. bool_to_prop.
    rewrite app_cons_str. cbn [shell_lex]. rewrite !decide_False by done. cbn [default from_option].
    rewrite (IH Hs). by rewrite app_assoc_str.
Qed.

Lemma lex_continuation w rest :
  shell_lex Unquoted (Some w) (continuation +:+ rest) = cons w <$> shell_lex Unquoted None rest.
Proof. reflexivity. Qed.

Lemma lex_space w rest :
  shell_lex Unquoted (Some w) (" " +:+ rest) = cons w <$> shell_lex Unquoted None rest.
Proof. reflexivity. Qed.

(** Parts that are joined are words of their own. *)
Lemma shell_words_Join sep parts words :
  (forall w rest, shell_lex Unquoted (Some w) (sep +:+ rest) = cons w <$> shell_lex Unquoted None rest) ->
  Forall2 reads parts words -> shell_words (Join parts sep) = Some words.
Proof.
  intros Hsep. unfold shell_words. induction 1 as [|p v parts words Hp Hparts IH]; [done|].
  destruct Hparts as [|p' v' parts words Hp' Hparts].
  - cbn [Join]. rewrite <- (app_nil_r_str p), Hp. done.
  - cbn [Join]. rewrite Hp, Hsep. cbn [Join] in IH. by rewrite IH.
Qed.

Lemma reads_word_quoted p s : all_chars shell_plain p = true -> p <> "" -> reads (p +:+ shellQuote s) (p +:+ s).
Proof. intros. apply reads_app; [by apply reads_plain|apply reads_shellQuote]. Qed.

Lemma name_shell_plain s : all_chars name_char s = true -> all_chars shell_plain s = true.
Proof. apply all_chars_impl. intros c Hc. unfold shell_plain. by rewrite Hc. Qed.

Lemma reads_spaces p v : reads p v -> forall rest,
  shell_lex Unquoted None ("  " +:+ p +:+ rest) = shell_lex Unquoted (Some v) rest.
Proof. intros Hp rest. change (shell_lex Unquoted None ("  " +:+ p +:+ rest)) with (shell_lex Unquoted None (p +:+ rest)). by rewrite Hp. Qed.

Lemma shell_words_indent p l sep : shell_words (Join (("  " +:+ p) :: l) sep) = shell_words (Join (p :: l) sep).
Proof. destruct l as [|p' l]; cbn [Join]; [|rewrite app_assoc_str]; done. Qed.

Lemma reads_double_quoted p s : all_chars shell_plain p = true -> p <> "" -> all_chars double_plain s = true ->
  reads (p +:+ char dquote +:+ s +:+ char dquote) (p +:+ s).
Proof. intros. apply reads_app; [by apply reads_plain|by apply reads_double]. Qed.

(** Words that are quoted where they have to be. *)
Ltac read_words :=
  repeat match goal with
  | |- Forall2 reads _ _ => constructor
  | |- reads (?p +:+ shellQuote ?s) (?p +:+ ?s) => apply reads_word_quoted; done
  | |- reads ?p ?p => apply reads_plain; [by vm_compute|done]
  end.

Lemma Join_middle l x k sep : l <> [] -> k <> [] ->
  Join (l ++ x :: k) sep = Join l sep +:+ sep +:+ x +:+ sep +:+ Join k sep.
Proof. intros Hl Hk. rewrite Join_app by done. do 2 f_equal. by apply (Join_app [x]). Qed.

Section Commands.
Context `{Digests}.

Lemma reads_name p k replica db : all_chars shell_plain p = true -> p <> "" ->
  reads (p +:+ objectName k replica db) (p +:+ objectName k replica db).
Proof.
  intros Hp Hne. apply reads_plain; [|by destruct p].
  rewrite all_chars_app, Hp. apply name_shell_plain, objectName_chars.
Qed.

(** What the arguments about a database are for. *)
Definition databaseWords (replica db : string) : list string :=
  ["--database=" +:+ db;
   "--publication=" +:+ objectName Publication replica db;
   "--subscription=" +:+ objectName Subscription replica db;
   "--replication-slot=" +:+ objectName Slot replica db].

Lemma databaseArgs_read replica db : Forall2 reads (databaseArgs replica db) (databaseWords replica db).
Proof.
  unfold databaseArgs, databaseWords. constructor; [by apply reads_word_quoted|].
  constructor; [by apply (reads_name _ Publication)|]. constructor; [by apply (reads_name _ Subscription)|].
  constructor; [by apply (reads_name _ Slot)|]. constructor.
Qed.

Lemma Forall2_mjoin_map {A} (f g : A -> list string) (l : list A) :
  (forall x, Forall2 reads (f x) (g x)) -> Forall2 reads (mjoin (map f l)) (mjoin (map g l)).
Proof. intros Hfg. induction l as [|x l IH]; [constructor|]. apply Forall2_app; [apply Hfg|apply IH]. Qed.

(** The command that disables a subscription on its first error. *)
Definition disableCommand (replica db : string) : string :=
  "psql --no-psqlrc --set=ON_ERROR_STOP=on" +:+ " --dbname=" +:+ shellQuote db +:+
  " --command=" +:+ shellQuote (DisableOnErrorSQL replica db).

Lemma disableCommand_join replica db :
  disableCommand replica db = Join ["psql"; "--no-psqlrc"; "--set=ON_ERROR_STOP=on"; "--dbname=" +:+ shellQuote db;
    "--command=" +:+ shellQuote (DisableOnErrorSQL replica db)] " ".
Proof. unfold disableCommand. cbn [Join]. by rewrite !app_assoc_str. Qed.

(** C35: Whatever the databases are named, the shell reads the bootstrap's
    commands as they are meant: pg_createsubscriber gets one [--database] with
    the very name of each database and the names of its objects, in the order
    of the list, psql connects to the database with that name and runs the one
    statement for it, and pg_basebackup gets the directory; nothing in a name
    is an operator, an expansion or another word. *)
Theorem bootstrap_commands_read_as_meant (dataDir replica : string) (databases : list string) (db : string)
    (crunchyCR : CrunchyCluster) :
  shell_words (Join (createSubscriberArgs dataDir replica databases) continuation) =
    Some (["pg_createsubscriber"; "--verbose"; "--pgdata=" +:+ dataDir; "--publisher-server=${PUBLISHER_CONNINFO}";
           "--socketdir=/tmp/postgres"; "--recovery-timeout=3600"; "--config-file=/etc/logical-replica/bootstrap.conf"] ++
          mjoin (map (databaseWords replica) databases) ++ ["$@"]) /\
  shell_words (disableCommand replica db) =
    Some ["psql"; "--no-psqlrc"; "--set=ON_ERROR_STOP=on"; "--dbname=" +:+ db;
          "--command=" +:+ DisableOnErrorSQL replica db] /\
  (db ∈ databases -> exists before after, logicalReplicaDisableOnErrorCommand dataDir replica databases =
     before +:+ char newline +:+ disableCommand replica db +:+ char newline +:+ after) /\
  shell_words ("touch " +:+ shellQuote (path_Join [dataDir; "standby.signal"])) =
    Some ["touch"; path_Join [dataDir; "standby.signal"]] /\
  exists command, logicalReplicaBaseBackupCommand crunchyCR dataDir =
      sh "echo `streaming a base backup from the primary`" +:+ char newline +:+ command +:+ char newline +:+
      char newline +:+ "touch " +:+ shellQuote (path_Join [dataDir; "standby.signal"]) /\
    shell_words command = Some
      [if ext_PGTDE_Enabled (pc_Extensions (cc_Config crunchyCR)) then "pg_tde_basebackup" else "pg_basebackup";
       "--dbname=${PUBLISHER_CONNINFO}"; "--pgdata=" +:+ dataDir; "--wal-method=stream"; "--checkpoint=fast";
       "--no-password"; "--verbose"; "--progress"].
Proof.
  split_and!.
  - change (createSubscriberArgs dataDir replica databases) with
      (("  " +:+ "pg_createsubscriber") :: tail (createSubscriberArgs dataDir replica databases)).
    rewrite shell_words_indent. apply shell_words_Join; [apply lex_continuation|].
    unfold createSubscriberArgs. cbn [app tail]. repeat (apply Forall2_cons; split).
    + read_words.
    + read_words.
    + read_words.
    + by apply (reads_double_quoted "--publisher-server=" "${PUBLISHER_CONNINFO}").
    + by apply (reads_word_quoted "--socketdir=" "/tmp/postgres").
    + by apply (reads_plain "--recovery-timeout=3600").
    + by apply (reads_word_quoted "--config-file=" "/etc/logical-replica/bootstrap.conf").
    + apply Forall2_app; [by apply Forall2_mjoin_map, databaseArgs_read|].
      apply Forall2_cons; split; [|constructor]. by apply (reads_double "$@").
  - rewrite disableCommand_join. apply shell_words_Join; [apply lex_space|]. read_words.
  - intros (l1 & l2 & ->)%list_elem_of_split. unfold logicalReplicaDisableOnErrorCommand. cbv zeta. unfold Lines.
    rewrite map_app. cbn [map]. rewrite <- (app_assoc (map _ l1)), app_assoc, <- app_comm_cons.
    eexists _, _. apply Join_middle; [done|by destruct l2].
  - apply (shell_words_Join " " ["touch"; _] ["touch"; _]); [apply lex_space|]. read_words. apply reads_shellQuote.
  - eexists. split; [unfold logicalReplicaBaseBackupCommand; reflexivity|].
    apply shell_words_Join; [apply lex_continuation|]. apply Forall2_cons; split; [destruct (ext_PGTDE_Enabled _); read_words|].
    apply Forall2_cons; split; [by apply (reads_double_quoted "--dbname=" "${PUBLISHER_CONNINFO}")|]. read_words.
Qed.
End Commands.

(** ** How PostgreSQL reads the configuration *)

(** The setting of a line, if it has one. *)
Definition setting_of (line : string) : option (string * string) :=
  if HasPrefix line "#" then None
  else match cut "="%char line with Some (k, v) => Some (TrimSpace k, TrimSpace v) | None => None end.

(** The settings of a file in order; the file that it includes has the
    settings [inherited]. *)
Definition conf_settings (inherited : list (string * string)) (text : string) : list (string * string) :=
  mjoin (map (fun line => if HasPrefix line "include_if_exists" then inherited else option_list (setting_of line))
    (Split text newline)).

Definition last_setting (key : string) (l : list (string * string)) : option string :=
  fold_left (fun acc kv => if bool_decide (kv.1 = key) then Some kv.2 else acc) l None.

(** The last setting of a parameter is the one in effect. *)
Definition effective (inherited : list (string * string)) (text key : string) : option string :=
  last_setting key (conf_settings inherited text).

Definition one_line (s : string) : bool := all_chars (fun c => negb (bool_decide (c = newline))) s.

Lemma Split_text_lines l : l <> [] -> Forall (fun s => one_line s = true) l -> Split (Lines l) newline = l.
Proof.
  intros Hne. induction 1 as [|s l Hs Hl IH]; [done|]. destruct l as [|t l]; [by apply Split_no_sep|].
  change (Lines (s :: t :: l)) with (s +:+ char newline +:+ Lines (t :: l)). rewrite Split_app by done. by rewrite IH.
Qed.

Lemma pretty_Z_chars f (z : Z) : (forall c, is_digit c = true -> f c = true) -> f "-"%char = true ->
  all_chars f (pretty z) = true.
Proof.
  intros Hd Hm. destruct z; [simpl; by rewrite Hd|apply (all_chars_impl is_digit f), (pretty_N_digits (Npos _)); done|].
  change (all_chars f ("-" +:+ pretty (Npos p)) = true). rewrite all_chars_app. simpl. rewrite Hm.
  by apply (all_chars_impl is_digit f), pretty_N_digits.
Qed.

Lemma digit_not c d : is_digit d = false -> is_digit c = true -> negb (bool_decide (c = d)) = true.
Proof. intros Hd Hc. case_bool_decide; [congruence|done]. Qed.

Lemma data_path cluster file : all_chars (fun c => negb (bool_decide (c = "/"%char))) file = true ->
  file <> "" -> file <> "." -> file <> ".." ->
  path_Join [DataDirectory cluster; file] = DataDirectory cluster +:+ "/" +:+ file.
Proof.
  intros Hf He Hd Hdd. unfold DataDirectory, path_Join. set (v := pretty (pc_PostgresVersion cluster)).
  assert (Hv : all_chars (fun c => negb (bool_decide (c = "/"%char))) ("pg" +:+ v) = true).
  { rewrite all_chars_app. unfold v. rewrite pretty_Z_chars; [done| |done]. intros c. by apply digit_not. }
  replace (List.filter nonempty ["/pgdata/pg" +:+ v; file]) with ["/pgdata/pg" +:+ v; file] by (by destruct file).
  cbn [Join]. unfold path_Clean.
  assert (Hs : Split (("/pgdata/pg" +:+ v) +:+ "/" +:+ file) "/"%char = [""; "pgdata"; "pg" +:+ v; file]).
  { change (("/pgdata/pg" +:+ v) +:+ "/" +:+ file) with
      ("" +:+ char "/" +:+ "pgdata" +:+ char "/" +:+ (("pg" +:+ v) +:+ char "/" +:+ file)).
    rewrite !Split_app by done. by rewrite Split_no_sep. }
  rewrite Hs. change (HasPrefix _ "/") with true. cbv iota. cbn [clean_components].
  rewrite (decide_True (P := "" = "" \/ _)) by (by left). rewrite !decide_False by (intros ?; naive_solver).
  reflexivity.
Qed.

Definition config_lines (port : Z) (crunchyCR : CrunchyCluster) (n : nat) : list (string * string) :=
  [("listen_addresses", "'*'"); ("port", pretty port); ("unix_socket_directories", "'/tmp/postgres'");
   ("ssl", "on"); ("ssl_cert_file", "'/pgconf/tls/tls.crt'"); ("ssl_key_file", "'/pgconf/tls/tls.key'");
   ("ssl_ca_file", "'/pgconf/tls/ca.crt'"); ("archive_mode", "off"); ("archive_command", "''");
   ("max_replication_slots", pretty n); ("max_logical_replication_workers", pretty n);
   ("max_worker_processes", pretty (n + 8)%nat); ("password_encryption", "'scram-sha-256'")].

Lemma first_last_digits s : all_chars (fun c => negb (is_space c)) s = true -> TrimSpace (" " +:+ s) = s.
Proof.
  intros Hs. unfold TrimSpace, TrimFunc. change (trim_left is_space (" " +:+ s)) with (trim_left is_space s).
  destruct s as [|c s]; [done|].
  assert (Hl : last_not is_space (String c s) = true) by by apply last_not_all.
  simpl in Hs. apply andb_true_iff in Hs as [Hc Hs].
  rewrite trim_left_id by done. by apply trim_right_id.
Qed.

Lemma setting_number k s : all_chars (fun c => negb (bool_decide (c = "="%char))) k = true -> HasPrefix k "#" = false ->
  k <> "" -> TrimSpace (k +:+ " ") = k -> all_chars (fun c => negb (is_space c)) s = true ->
  setting_of (k +:+ " = " +:+ s) = Some (k, s).
Proof.
  intros Hk Hh Hne Ht Hs. unfold setting_of.
  replace (HasPrefix (k +:+ " = " +:+ s) "#") with false by (destruct k; [done|]; simpl in *; done).
  replace (k +:+ " = " +:+ s) with ((k +:+ " ") +:+ String "=" (" " +:+ s)) by by rewrite app_assoc_str.
  rewrite cut_first by (rewrite all_chars_app, Hk; done). by rewrite Ht, first_last_digits.
Qed.

Lemma digit_not_space c : is_digit c = true -> negb (is_space c) = true.
Proof.
  unfold is_digit, is_space. intros [?%N.leb_le ?%N.leb_le]%andb_true_iff.
  rewrite negb_orb, negb_andb. apply andb_true_iff. split; [apply orb_true_iff; right|]; apply negb_true_iff; [apply N.leb_gt|apply N.eqb_neq]; lia.
Qed.

Lemma number_word (z : Z) : all_chars (fun c => negb (is_space c)) (pretty z) = true.
Proof. apply pretty_Z_chars; [apply digit_not_space|done]. Qed.

Lemma count_word (n : nat) : all_chars (fun c => negb (is_space c)) (pretty n) = true.
Proof. apply (all_chars_impl is_digit); [apply digit_not_space|apply pretty_nat_digits]. Qed.

Lemma no_space_one_line s : all_chars (fun c => negb (is_space c)) s = true -> one_line s = true.
Proof. apply all_chars_impl. intros c Hc. case_bool_decide; [by subst c|done]. Qed.

Lemma config_settings inherited port crunchyCR n readOnly :
  conf_settings inherited (logicalReplicaPostgresConfig port crunchyCR n readOnly) =
  inherited ++ config_lines port crunchyCR n ++
  (if readOnly then [("default_transaction_read_only", "on")] else []).
Proof.
  unfold conf_settings, logicalReplicaPostgresConfig. cbv zeta.
  rewrite data_path by done. set (file := DataDirectory _).
  assert (Hfile : one_line file = true).
  { unfold file, DataDirectory, one_line. rewrite all_chars_app. apply (no_space_one_line (pretty _)), number_word. }
  change (Lines ?l +:+ char newline) with (Lines l +:+ char newline +:+ "").
  rewrite Split_concat, Split_text_lines.
  - set (f := fun line => if HasPrefix line "include_if_exists" then inherited else option_list (setting_of line)).
    assert (Hf : forall k s, all_chars (fun c => negb (bool_decide (c = "="%char))) k = true -> HasPrefix k "#" = false ->
        k <> "" -> TrimSpace (k +:+ " ") = k -> all_chars (fun c => negb (is_space c)) s = true ->
        HasPrefix (k +:+ " = " +:+ s) "include_if_exists" = false -> f (k +:+ " = " +:+ s) = [(k, s)]).
    { intros k s Hk Hh Hne Ht Hs Hi. unfold f. rewrite Hi. by rewrite setting_number. }
    pose proof (Hf "port" (pretty port) eq_refl eq_refl ltac:(done) eq_refl (number_word _) eq_refl) as H1.
    pose proof (Hf "max_replication_slots" (pretty n) eq_refl eq_refl ltac:(done) eq_refl (count_word _) eq_refl) as H2.
    pose proof (Hf "max_logical_replication_workers" (pretty n) eq_refl eq_refl ltac:(done) eq_refl (count_word _) eq_refl) as H3.
    pose proof (Hf "max_worker_processes" (pretty (n + 8)%nat) eq_refl eq_refl ltac:(done) eq_refl (count_word _) eq_refl) as H4.
    clear Hf Hfile. clearbody file.
    assert (Hi : f ("include_if_exists '" +:+ (file +:+ "/" +:+ "postgresql.conf") +:+ "'") = inherited) by done.
    change (f ("port = " +:+ pretty port) = [("port", pretty port)]) in H1.
    change (f ("max_replication_slots = " +:+ pretty n) = [("max_replication_slots", pretty n)]) in H2.
    change (f ("max_logical_replication_workers = " +:+ pretty n) = [("max_logical_replication_workers", pretty n)]) in H3.
    change (f ("max_worker_processes = " +:+ pretty (n + 8)%nat) = [("max_worker_processes", pretty (n + 8)%nat)]) in H4.
    destruct readOnly; cbn [app map]; unfold logicalReplicaWorkerHeadroom; rewrite H1, H2, H3, H4, Hi;
      unfold f; reflexivity.
  - by destruct readOnly.
  - assert (Hn : forall k s, one_line k = true -> all_chars (fun c => negb (is_space c)) s = true -> one_line (k +:+ s) = true).
    { intros k s Hk Hs. unfold one_line. rewrite all_chars_app. apply andb_true_iff. split; [done|by apply no_space_one_line]. }
    assert (Hi : one_line ("include_if_exists '" +:+ (file +:+ "/" +:+ "postgresql.conf") +:+ "'") = true).
    { unfold one_line in *. rewrite !all_chars_app, Hfile. by vm_compute. }
    pose proof (Hn "port = " (pretty port) eq_refl (number_word _)) as H1.
    pose proof (Hn "max_replication_slots = " (pretty n) eq_refl (count_word _)) as H2.
    pose proof (Hn "max_logical_replication_workers = " (pretty n) eq_refl (count_word _)) as H3.
    pose proof (Hn "max_worker_processes = " (pretty (n + 8)%nat) eq_refl (count_word _)) as H4.
    destruct readOnly; cbn [app]; repeat (apply Forall_cons; split; [first [assumption|by vm_compute]|]); constructor.
Qed.

Lemma last_setting_app key l k :
  last_setting key (l ++ k) = match last_setting key k with Some v => Some v | None => last_setting key l end.
Proof.
  unfold last_setting. rewrite fold_left_app. generalize (fold_left (fun acc kv => if bool_decide (kv.1 = key) then Some kv.2 else acc) l None) as acc.
  induction k as [|[k0 v0] k IH]; intros acc; [done|]. cbn [fold_left fst snd].
  rewrite (IH (if bool_decide (k0 = key) then Some v0 else acc)), (IH (if bool_decide (k0 = key) then Some v0 else None)).
  destruct (fold_left _ k None); [done|]. by destruct (bool_decide _).
Qed.

(** Whatever configuration came back with the seed, the files that the
    operator renders keep a replica from archiving into the stanza of the
    cluster, give it a slot and a worker for each database and more processes
    than databases, and listen on the port with TLS; the file that a replica
    runs with refuses writes, the one for the conversion leaves that as it was,
    and nothing else is changed. *)
Theorem replica_configuration (inherited : list (string * string)) (port : Z) (crunchyCR : CrunchyCluster)
    (n : nat) (readOnly : bool) (key : string) :
  let conf := effective inherited (logicalReplicaPostgresConfig port crunchyCR n readOnly) in
  conf "archive_mode" = Some "off" /\ conf "archive_command" = Some "''" /\
  conf "max_replication_slots" = Some (pretty n) /\ conf "max_logical_replication_workers" = Some (pretty n) /\
  conf "max_worker_processes" = Some (pretty (n + 8)%nat) /\
  conf "port" = Some (pretty port) /\ conf "ssl" = Some "on" /\
  conf "default_transaction_read_only" =
    (if readOnly then Some "on" else last_setting "default_transaction_read_only" inherited) /\
  (key ∉ "default_transaction_read_only" :: (config_lines port crunchyCR n).*1 -> conf key = last_setting key inherited).
Proof.
  intros conf. unfold conf, effective. rewrite config_settings. clear conf.
  split_and!; try (rewrite !last_setting_app; by destruct readOnly).
  intros Hk. rewrite !last_setting_app.
  assert (Hnone : forall l : list (string * string), key ∉ l.*1 -> last_setting key l = None).
  { intros l. induction l as [|[k v] l IH]; [done|]. cbn [fmap list_fmap fst]. intros Hn.
    apply not_elem_of_cons in Hn as [Hne Hn]. change ((k, v) :: l) with ([(k, v)] ++ l). rewrite last_setting_app, IH by done.
    cbn. by rewrite bool_decide_eq_false_2. }
  apply not_elem_of_cons in Hk as [Hr Hk]. rewrite (Hnone (config_lines _ _ _)) by done.
  destruct readOnly; [|done]. rewrite Hnone; [done|]. apply not_elem_of_cons. split; [done|apply not_elem_of_nil].
Qed.
