(* ===== verification/LogicalReplicas.v ===== *)
(** * Logical replicas

    [percona/controller/pgcluster/logicalreplica.go] and
    [logicalreplica_restore.go]: each logical replica of a cluster is seeded
    and converted by a Job, run by a StatefulSet, watched, suspended while the
    cluster is restored or paused, and torn down.  The texts are in
    LogicalReplication.v.

    [errorText] is the text of an error, [getenv] the environment of the
    operator, [operatorPod] the key of its own pod.  A panic unwinds the whole
    reconcile. *)
From S2P Require Import Prelude GoStrings Cluster HBA Parameters Prog Errors Naming Objects Client Psql Passwords BackupUtils Instances ObservedInstances ClusterStatus PGBackRest RepoBackups Certificates RestoreInPlace LogicalReplication.

(** The reasons in a status *)
Definition ReasonSourceSlotMissing : string := "SourceSlotMissing".
Definition ReasonSubscriptionDisabled : string := "SubscriptionDisabled".
Definition ReasonApplyWorkerDown : string := "ApplyWorkerDown".
Definition ReasonBootstrapFailed : string := "BootstrapFailed".
Definition ReasonPodNotFound : string := "LogicalReplicaPodNotFound".
Definition ReasonPrimaryNotReady : string := "PrimaryNotReady".
Definition ReasonClusterPaused : string := "ClusterPaused".
Definition ReasonSourceRestoring : string := "SourceRestoring".
Definition ReasonSourceRestored : string := "SourceRestored".
Definition ReasonSourceUpgraded : string := "SourceUpgraded".
Definition ReasonWaitingForDataVolume : string := "WaitingForDataVolume".
Definition ReasonWaitingForDatabases : string := "WaitingForDatabases".
Definition ReasonAwaitingCleanup : string := "AwaitingCleanup".

Definition logicalReplicaConfigVolume : string := "logical-replica-config".
Definition logicalReplicaSocketVolume : string := "postgres-socket".
Definition logicalReplicaBootstrapContainer : string := "logical-replica-bootstrap".
Definition logicalReplicaComponent : string := "logical-replica".

Definition CertVolume : string := "cert-volume".
Definition PortPostgreSQL : string := "postgres".
Definition ContainerNSSWrapperInit : string := "nss-wrapper-init".

(** [postgres.DataVolumeMount], [pgbackrest.ConfigVolumeMount] *)
Definition DataVolumeMount : VolumeMount := mkMount "postgres-data" "/pgdata" false.
Definition ConfigVolumeMount : VolumeMount := mkMount "pgbackrest-config" "/etc/pgbackrest/conf.d" true.

(** [spec.isPaused] *)
Definition IsPaused (cr : PerconaPGCluster) : bool := deref (c_Pause cr) false.

(** A panic, however it is wrapped on its way up *)
Fixpoint isPanic (e : error) : bool :=
  match e with
  | New s => bool_decide (s = "panic")
  | Wrap _ e => isPanic e
  | _ => false
  end.

(** A name that cannot be made is a panic. *)
Definition named {A} (name : option string) (k : string -> action A) : action A :=
  match name with Some name => k name | None => Ret (Err panic) end.

(** [errors.Wrap] of a returned error *)
Definition wrapped {A} (p : action A) (msg : string) : action A :=
  let! r := p in Ret (match r with Ok a => Ok a | Err e => Err (Wrap msg e) end).

Abbreviation Status := LogicalReplicaStatus.
Abbreviation Spec := LogicalReplicaSpec.

(** Functions that hand back the status they were working on with an error *)
Definition onStatus {A} (p : action A) (status : Status) (w : error -> error)
    (k : A -> program (Status * option error)) : program (Status * option error) :=
  let! r := p in match r with Ok a => k a | Err e => Ret (status, Some (w e)) end.

Notation "'try!' x ':=' p 'with' s 'or' m 'in' k" := (onStatus p s (Wrap m) (fun x => k))
  (at level 10, x pattern, p at level 100, s at level 9, m at level 9, k at level 200) : prog_scope.

Definition setState (state : LogicalReplicaState) (reason message : string) (status : Status) : Status :=
  status <| ls_State := state |> <| ls_Reason := reason |> <| ls_Message := message |>.

Definition logicalReplicaSettled (status : Status) : bool :=
  if bool_decide (ls_State status = ReplicaReady) then true
  else if negb (bool_decide (ls_State status = ReplicaBroken)) then false
  else if bool_decide (ls_Reason status = ReasonSourceUpgraded) then bool_decide (ls_Databases status = [])
  else bool_decide (ls_Reason status = ReasonSourceRestored) ||
       bool_decide (ls_Reason status = ReasonSourceSlotMissing) ||
       bool_decide (ls_Reason status = ReasonBootstrapFailed).

Definition reseedInstructions : string :=
  "remove it from spec.logicalReplicas, wait for its entry to leave status.logicalReplicas, " +:+
  "and add it back to seed it again".

(** [logicalReplicaInvalidation]: the reason and the message *)
Definition upgradedSinceSeeded (cr : PerconaPGCluster) (status : Status) : bool :=
  negb (bool_decide (ls_PostgresVersion status = 0%Z)) &&
  negb (bool_decide (ls_PostgresVersion status = c_PostgresVersion cr)).

Definition logicalReplicaInvalidation (cr : PerconaPGCluster) (status : Status) : string * string :=
  if upgradedSinceSeeded cr status
  then (ReasonSourceUpgraded,
        "this replica holds a PostgreSQL " +:+ pretty (ls_PostgresVersion status) +:+
        " data directory and the cluster now runs " +:+ pretty (c_PostgresVersion cr) +:+
        "; the pg_upgrade job only rewrites the data directories of the instance sets, so " +:+
        "this one cannot be started again; " +:+ reseedInstructions)
  else (ReasonSourceRestored,
        "the cluster was restored in place after this replica was seeded, so its data " +:+
        "can no longer be reconciled with the primary; " +:+ reseedInstructions).

Definition recordedStatus (cr : PerconaPGCluster) (replica : string) : option Status :=
  List.find (fun s => bool_decide (ls_Name s = replica)) (c_LogicalReplicaStatuses cr).

Definition recordedLogicalReplicaReason (cr : PerconaPGCluster) (replica reason : string) : bool :=
  match recordedStatus cr replica with
  | Some s => bool_decide (ls_Reason s = reason)
  | None => false
  end.

Definition logicalReplicaStatusFor (cr : PerconaPGCluster) (replica : string) : Status :=
  match recordedStatus cr replica with
  | Some s => s <| ls_Reason := "" |> <| ls_Message := "" |>
  | None => mkReplicaStatus replica ReplicaBootstrapping "" "" [] None 0 None
  end.

(** ** Suspension: what asks for it *)
Record suspension := mkSuspension {
  Needed : bool;
  Invalidate : bool;
  sus_Reason : string;
  sus_Message : string
}.

Definition restoring (s : suspension) : suspension :=
  mkSuspension true (Invalidate s) ReasonSourceRestoring "the cluster is being restored in place".

Definition invalidating (needed : bool) (s : suspension) : suspension :=
  mkSuspension (needed || Needed s) true ReasonSourceRestored "logical replica invalidated by a restore of the cluster".

Definition clusterSuspension `{MetaConditions} (cr : PerconaPGCluster) : suspension :=
  let s := if IsPaused cr then mkSuspension true false ReasonClusterPaused "the cluster is paused"
           else mkSuspension false false "" "" in
  let s := match bk_Restore (c_Backups cr) with
           | Some r => if bool_decide (rs_Enabled r = Some true) then restoring s else s
           | None => s
           end in
  let s := if nonempty (annotation (c_Meta cr) PGBackRestRestore) then restoring s else s in
  if IsStatusConditionTrue (c_Conditions cr) ConditionPGBackRestRestoreProgressing then invalidating false s else s.

Definition restoreSuspension (cr : PerconaPGCluster) (s : suspension) (pgRestore : PerconaPGRestore) : suspension :=
  if negb (bool_decide (r_PGCluster pgRestore = c_Name cr)) || isDeleting (r_Meta pgRestore) then s
  else match r_State pgRestore with
       | RestoreRunning => invalidating true s
       | RestoreStarting => restoring s
       | _ => s
       end.

Section Replicas.
Context `{ControllerRuntime} `{CreateOrUpdates} `{MetaConditions} `{GoVersion} `{LabelMatching} `{SafeEncode} `{Digests}.
Context (errorText : error -> string) (getenv : string -> string) (operatorPod : result key).
Context (cr : PerconaPGCluster).

(** ** Names and labels *)
Definition logicalReplicaName (replica : string) : string := c_Name cr +:+ "-lr-" +:+ replica.
Definition logicalReplicaObjectName (replica : string) : option string := SafeDNSUniqueName (logicalReplicaName replica).
Definition logicalReplicaPVCName (replica : string) : option string :=
  SafeDNSUniqueName (logicalReplicaName replica +:+ "-pgdata").
Definition logicalReplicaJobName (replica : string) : option string :=
  SafeDNSUniqueName (logicalReplicaName replica +:+ "-bootstrap").
Definition logicalReplicaConfigMapName (replica : string) : option string :=
  SafeDNSUniqueName (logicalReplicaName replica +:+ "-config").
Definition logicalReplicaUserSecretName : string :=
  c_Name cr +:+ "-" +:+ RolePostgresUser +:+ "-" +:+ logicalreplica_ReplicationUser.

Definition logicalReplicaSelector (replica : string) : gmap string string :=
  {[LabelCluster := c_Name cr; LabelLogicalReplica := replica]}.

Definition logicalReplicaLabels (replica : string) : gmap string string :=
  WithPerconaLabels (Merge [logicalReplicaSelector replica; {[LabelOperatorVersion := c_CRVersion cr]}])
    (c_Name cr) logicalReplicaComponent (c_CRVersion cr).

Definition at_ (name : string) : key := (c_Namespace cr, name).

(** Metadata with a name, a namespace and labels *)
Definition newMeta (name : string) (labels : gmap string string) : ObjectMeta :=
  mkMeta name (c_Namespace cr) "" "" 0 0 None labels ∅ [] None "".

(** [SetControllerReference] on an object *)
Definition controlled {k} (o : obj k) : result (obj k) :=
  match SetControllerReference (c_Meta cr) (meta o) with
  | Ok m => Ok (onMeta (fun _ => m) o)
  | Err e => Err e
  end.

(** [PostgresImage] *)
Definition PostgresImage : string :=
  if nonempty (c_Image cr) then c_Image cr else getenv ("RELATED_IMAGE_POSTGRES_" +:+ pretty (c_PostgresVersion cr)).

(** ** Statements on pods *)
Definition execOnPod (pod : Pod) (database sql : string) : action string :=
  let options := ["-t"] ++ (if nonempty database then ["--dbname=" +:+ database] else []) in
  let! out := ExecPsql (databaseOf pod) sql {["ON_ERROR_STOP" := "on"; "QUIET" := "on"]} options in
  Ret (match out_Err out with
       | Some e => Err (Wrap ("execute query: stderr=" +:+ out_Stderr out) e)
       | None => Ok (TrimSpace (out_Stdout out))
       end).

(** The primary, with the error that callers look for when there is none *)
Definition primaryPod : action Pod :=
  let! r := GetPrimaryPod cr in
  Ret (match r with Ok p => Ok p | Err e => Err (Wrap (errorText e) ErrPrimaryPodNotFound) end).

Definition execOnPrimary (database sql : string) : action string :=
  do! primary := primaryPod in
  execOnPod primary database sql.

Definition queryDatabases (pod : Pod) (where_ : string) : action (list string) :=
  do! stdout := execOnPod pod "" (databasesSQL where_) in
  Ret (Ok (databaseLines stdout)).

Definition presentDatabases (pod : Pod) : action (list string) := queryDatabases pod "datallowconn".

Definition isServing (pod : Pod) : bool :=
  negb (isDeleting (p_Meta pod)) && bool_decide (p_Phase pod = "Running") &&
  existsb (fun c => bool_decide (c.1 = ContainerDatabase) && c.2 && bool_decide (c.1 ∈ p_Started pod))
    (p_ContainerStatuses pod).

Definition logicalReplicaPod (replica : string) : action Pod :=
  do! pods := call (ListAll KPod (c_Namespace cr) (ByLabels (SetSelector (logicalReplicaSelector replica))))
    or "list pods" in
  Ret (match List.find isServing pods with
       | Some pod => Ok pod
       | None => Err (New "no running logical replica pod")
       end).

(** ** The status *)
Definition updateLogicalReplicaStatus (statuses : list Status) (readiness : option Condition) : action unit :=
  wrapped (RetryOnConflict (
    do! cluster := call (Get KPGCluster (c_Namespace cr, c_Name cr)) or "get PerconaPGCluster" in
    let cluster := cluster <| c_LogicalReplicaStatuses := statuses |> in
    match readiness with
    | None =>
        ignore (call (StatusUpdate KPGCluster
          (cluster <| c_Conditions ::= fun l => RemoveStatusCondition l ConditionReadyForLogicalReplication |>)))
    | Some condition =>
        let! now := call Now in
        ignore (call (StatusUpdate KPGCluster
          (cluster <| c_Conditions ::= fun l => SetStatusCondition now l
            (mkCondition (cond_Type condition) (cond_Status condition) (cond_Reason condition)
               (cond_Message condition) (om_Generation (c_Meta cluster)) (cond_LastTransitionTime condition)) |>)))
    end)) "update logical replica status".

(** ** Suspension *)
Definition shouldSuspendLogicalReplicas : action suspension :=
  do! restores := call (ListAll KRestore (c_Namespace cr) Everything) or "list restores" in
  Ret (Ok (fold_left (restoreSuspension cr) restores (clusterSuspension cr))).

Definition scaleLogicalReplica (replica : string) (replicas : Z) : action unit :=
  named (logicalReplicaObjectName replica) (fun name =>
    wrapped (RetryOnConflict (
      let! r := call (Get KSts (at_ name)) in
      match r with
      | Err e => Ret (if IsNotFound e then Ok tt else Err e)
      | Ok sts =>
          if bool_decide (st_Replicas sts = replicas) then Ret (Ok tt)
          else ignore (call (Patch KSts sts (sts <| st_Replicas := replicas |>)))
      end)) "scale statefulset").

(** [client.IgnoreNotFound] of a call *)
Definition ignoreNotFound (p : action unit) (w : error -> error) : action unit :=
  let! r := p in
  Ret (match r with Ok _ => Ok tt | Err e => if IsNotFound e then Ok tt else Err (w e) end).

Definition deleteLogicalReplicaJob (replica : string) : action unit :=
  named (logicalReplicaJobName replica) (fun name =>
    ignoreNotFound (call (Delete KJob (at_ name) Foreground)) (Wrap "delete bootstrap job")).

Definition logicalReplicaStatefulSet (replica : string) : action (option StatefulSet) :=
  named (logicalReplicaObjectName replica) (fun name =>
    let! r := call (Get KSts (at_ name)) in
    Ret (match r with
         | Ok sts => Ok (Some sts)
         | Err e => if IsNotFound e then Ok None else Err (Wrap "get statefulset" e)
         end)).

Definition discardLogicalReplicaBootstrap (replica : string) : action unit :=
  named (logicalReplicaJobName replica) (fun name =>
    let! r := call (Get KJob (at_ name)) in
    match r with
    | Err e => Ret (if IsNotFound e then Ok tt else Err (Wrap "get bootstrap job" e))
    | Ok _ =>
        do! _ := deleteLogicalReplicaJob replica in
        do! sts := logicalReplicaStatefulSet replica in
        match sts with
        | Some _ => Ret (Ok tt)
        | None =>
            named (logicalReplicaPVCName replica) (fun pvc =>
              ignoreNotFound (call (Delete KPVC (at_ pvc) NoOptions)) (Wrap "delete data volume"))
        end
    end).

(** A replica whose status is being suspended *)
Definition suspendedStatus (s : suspension) (status : Status) : program Status :=
  let status := setState ReplicaSuspended (sus_Reason s) (sus_Message s) status in
  if Invalidate s && bool_decide (ls_InvalidatedAt status = None)
  then let! now := call Now in Ret (status <| ls_InvalidatedAt := Some now |>)
  else Ret status.

(** The reason of a replica that is not seeded yet stays. *)
Definition canceledStatus (status : Status) : Status :=
  status <| ls_State := ReplicaBootstrapping |>
         <| ls_Message := "the bootstrap was canceled because the logical replica is suspended" |>
         <| ls_Databases := [] |>.

Definition suspendLogicalReplica (s : suspension) (status : Status) : action Status :=
  do! _ := scaleLogicalReplica (ls_Name status) 0 or "stop logical replica" in
  match ls_SeededAt status with
  | Some _ => let! status := suspendedStatus s status in Ret (Ok status)
  | None =>
      do! _ := discardLogicalReplicaBootstrap (ls_Name status) or "discard bootstrap of logical replica" in
      Ret (Ok (canceledStatus status))
  end.

Fixpoint suspendEach (s : suspension) (l : list Status) : action (list Status) :=
  match l with
  | [] => Ret (Ok [])
  | status :: l =>
      do! status := suspendLogicalReplica s status in
      do! statuses := suspendEach s l in
      Ret (Ok (status :: statuses))
  end.

Definition suspendLogicalReplicas (s : suspension) : action unit :=
  do! statuses := suspendEach s (c_LogicalReplicaStatuses cr) in
  updateLogicalReplicaStatus statuses
    (Some (mkCondition ConditionReadyForLogicalReplication ConditionFalse (sus_Reason s) (sus_Message s) 0 0)).

(** ** Readiness of the primary *)
Definition notReady (status : ConditionStatus) (reason message : string) : Condition :=
  mkCondition ConditionReadyForLogicalReplication status reason message 0 0.

Definition observePrimaryReadiness : program Condition :=
  let! r := GetPrimaryPod cr in
  match r with
  | Err e => Ret (notReady ConditionFalse "PrimaryPodNotFound" (errorText e))
  | Ok primary =>
      let! secret := call (Get KSecret (at_ logicalReplicaUserSecretName)) in
      let password := match secret with Ok s => dataOf s "password" | Err _ => "" end in
      if negb (nonempty password)
      then Ret (notReady ConditionFalse "ReplicationSecretMissing"
                  ("waiting for the " +:+ logicalReplicaUserSecretName +:+ " secret"))
      else if PodRequiresRestart primary
      then Ret (notReady ConditionFalse ReasonRestartPending (PrimaryReadinessMessage ReasonRestartPending))
      else
        let! r := execOnPod primary "" PrimaryReadinessQuery in
        Ret (match r with
             | Err e => notReady ConditionUnknown "PrimaryUnreachable" (errorText e)
             | Ok stdout =>
                 match ParsePrimaryReadinessReasons stdout with
                 | reason :: reasons =>
                     notReady ConditionFalse reason (Join (map PrimaryReadinessMessage (reason :: reasons)) "; ")
                 | [] => notReady ConditionTrue "PrimaryReady" "the primary is ready for logical replica bootstrap"
                 end
             end)
  end.

(** ** Teardown *)

(** The subscriptions, whose errors are only logged *)
Fixpoint dropSubscriptions (pod : Pod) (replica : string) (databases : list string) : program unit :=
  match databases with
  | [] => Ret tt
  | db :: databases =>
      let! _ := execOnPod pod db (dropSubscriptionSQL replica db) in
      dropSubscriptions pod replica databases
  end.

Fixpoint dropOnPrimary (primary : Pod) (present : list string) (replica : string) (databases : list string)
    : action unit :=
  match databases with
  | [] => Ret (Ok tt)
  | db :: databases =>
      do! _ := execOnPod primary "" (terminateSQL replica db) or "terminate backend on replication slot" in
      do! _ := execOnPod primary "" (dropSlotSQL replica db) or "drop replication slot" in
      do! _ := (if bool_decide (db ∈ present)
                then execOnPod primary db (dropPublicationSQL replica db)
                else Ret (Ok "")) or "drop publication" in
      dropOnPrimary primary present replica databases
  end.

Definition dropLogicalReplicaObjects (replica : string) (databases : list string) : action unit :=
  match databases with
  | [] => Ret (Ok tt)
  | _ =>
      let! r := logicalReplicaPod replica in
      let! _ := match r with
                | Ok pod => dropSubscriptions pod replica databases
                | Err _ => Ret tt
                end in
      do! primary := primaryPod in
      do! present := presentDatabases primary or "list databases" in
      dropOnPrimary primary present replica databases
  end.

Definition deleteObject (k : kind) (name : option string) : action unit :=
  named name (fun name => ignoreNotFound (call (Delete k (at_ name) NoOptions)) (Wrap "delete object")).

Definition deleteLogicalReplica (replica : string) (databases : list string) : action unit :=
  do! _ := dropLogicalReplicaObjects replica databases or "drop replication objects" in
  do! _ := deleteLogicalReplicaJob replica in
  do! _ := deleteObject KSts (logicalReplicaObjectName replica) in
  do! _ := deleteObject KService (logicalReplicaObjectName replica) in
  do! _ := deleteObject KConfigMap (logicalReplicaConfigMapName replica) in
  deleteObject KPVC (logicalReplicaPVCName replica).

Definition heldStatus (status : Status) : Status :=
  setState ReplicaBroken ReasonAwaitingCleanup
    ("removed from the spec, waiting for a primary to drop its " +:+
     "replication slots and publications on") status.

Definition wanted (replica : string) : bool := existsb (fun s => bool_decide (lr_Name s = replica)) (c_LogicalReplicas cr).

Fixpoint cleanupEach (l : list Status) : action (list Status) :=
  match l with
  | [] => Ret (Ok [])
  | recorded :: l =>
      if wanted (ls_Name recorded) then cleanupEach l
      else
        let! r := deleteLogicalReplica (ls_Name recorded) (ls_Databases recorded) in
        match r with
        | Ok _ => cleanupEach l
        | Err e =>
            if Is e "primary pod not found"
            then do! deferred := cleanupEach l in Ret (Ok (heldStatus recorded :: deferred))
            else Ret (Err (Wrap "delete logical replica" e))
        end
  end.

Definition cleanupRemovedLogicalReplicas : action (list Status) := cleanupEach (c_LogicalReplicaStatuses cr).

(** ** The databases of a replica *)

(** [resolveLogicalReplicaDatabases]: the databases, and those that are missing *)
Definition resolveLogicalReplicaDatabases (spec : Spec) : action (list string * list string) :=
  do! primary := primaryPod in
  match lr_Databases spec with
  | [] =>
      do! databases := queryDatabases primary "datallowconn AND NOT datistemplate AND datname <> 'postgres'" in
      Ret (Ok (databases, []))
  | databases =>
      do! present := presentDatabases primary in
      Ret (Ok (databases, List.filter (fun db => negb (bool_decide (db ∈ present))) databases))
  end.

Definition waitingForDatabases (message : string) : Status -> Status :=
  setState ReplicaBootstrapping ReasonWaitingForDatabases message.

(** Resolved once and then frozen *)
Definition freezeDatabases (crunchyCR : CrunchyCluster) (spec : Spec) (status : Status) : program (Status * option error) :=
  if negb (nonempty (cc_DatabaseRevision crunchyCR))
  then Ret (waitingForDatabases "waiting for the operator to create the databases of the cluster" status, None)
  else
    try! r := resolveLogicalReplicaDatabases spec with status or "resolve databases" in
    let '(databases, missing) := r in
    match missing, databases with
    | _ :: _, _ =>
        Ret (waitingForDatabases ("waiting for these databases of spec.logicalReplicas[].databases " +:+
          "to be created: " +:+ Join missing ", ") status, None)
    | [], [] =>
        Ret (waitingForDatabases ("the cluster has no databases to replicate; create one, or name the " +:+
          "databases this replica covers in spec.logicalReplicas[].databases") status, None)
    | [], _ =>
        Ret (status <| ls_Databases := databases |> <| ls_State := ReplicaBootstrapping |>, None)
    end.

(** ** The volume *)
Definition changePVC (spec : Spec) (pvc : PVC) : result PVC :=
  let pvc := if bool_decide (om_CreationTimestamp (pvc_Meta pvc) = 0%Z)
             then pvc <| pvc_Spec := lr_DataVolumeClaimSpec spec |>
             else pvc <| pvc_Spec ::= fun c => c <| claim_Request := claim_Request (lr_DataVolumeClaimSpec spec) |> |> in
  controlled (k := KPVC) (pvc <| pvc_Meta ::= fun m => m <| om_Labels := logicalReplicaLabels (lr_Name spec) |> |>).

(** Whether a claim that was looked up may be used *)
Definition claimUsable (r : result PVC) : result bool :=
  match r with
  | Ok existing => Ok (negb (isDeleting (pvc_Meta existing)))
  | Err e => if IsNotFound e then Ok true else Err (Wrap "get pvc" e)
  end.

(** Whether the volume is usable *)
Definition reconcileLogicalReplicaPVC (spec : Spec) : action bool :=
  named (logicalReplicaPVCName (lr_Name spec)) (fun name =>
    let! r := call (Get KPVC (at_ name)) in
    match claimUsable r with
    | Err e => Ret (Err e)
    | Ok false => Ret (Ok false)
    | Ok true =>
        do! _ := CreateOrUpdate KPVC (mkPVC (newMeta name ∅) (mkClaim "" None) "" false) (changePVC spec)
          or "create or update pvc" in
        Ret (Ok true)
    end).

(** ** The configuration *)
Definition changeConfigMap (port : Z) (crunchyCR : CrunchyCluster) (spec : Spec) (status : Status) (cm : DataObject)
    : result DataObject :=
  let n := length (ls_Databases status) in
  controlled (k := KConfigMap)
    (cm <| d_Meta ::= fun m => m <| om_Labels := logicalReplicaLabels (lr_Name spec) |> |>
        <| d_Data := {[logicalReplicaConfigFile := logicalReplicaPostgresConfig port crunchyCR n true;
                       logicalReplicaBootstrapConfigFile := logicalReplicaPostgresConfig port crunchyCR n false]} |>).

(** The port is a pointer that is followed. *)
Definition portOf {A} (k : Z -> action A) : action A :=
  match c_Port cr with Some port => k port | None => Ret (Err panic) end.

Definition reconcileLogicalReplicaConfigMap (crunchyCR : CrunchyCluster) (spec : Spec) (status : Status) : action unit :=
  portOf (fun port =>
    named (logicalReplicaConfigMapName (lr_Name spec)) (fun name =>
      wrapped (CreateOrUpdate KConfigMap (mkData (newMeta name ∅) ∅) (changeConfigMap port crunchyCR spec status))
        "create or update configmap")).

(** ** Pods *)
Definition logicalReplicaCertVolumeMount : VolumeMount := mkMount CertVolume CertMountPath true.
Definition logicalReplicaConfigVolumeMount : VolumeMount :=
  mkMount logicalReplicaConfigVolume logicalReplicaConfigMountPath true.
Definition tmpMount : VolumeMount := mkMount "tmp" "/tmp" false.

Definition container (name image command : string) (args : list string) (env : list EnvVar) (resources : string)
    (mounts : list VolumeMount) : Container :=
  mkContainer name image (c_ImagePullPolicy cr) (command :: args) env resources [] mounts None None None.

Definition logicalReplicaNSSWrapperInitContainer (resources : string) : Container :=
  container ContainerNSSWrapperInit PostgresImage "bash" ["-c"; NSSWrapperPostgresCommand] [] resources [tmpMount].

Definition logicalReplicaEnvironment (port : Z) (dataDir : string) : list EnvVar :=
  [EnvValue "PGDATA" dataDir; EnvValue "PGHOST" SocketDirectory; EnvValue "PGPORT" (pretty port);
   EnvSecret "PGPASSWORD" logicalReplicaUserSecretName "password"].

Definition logicalReplicaCertSecret (crunchyCR : CrunchyCluster) : string :=
  match sec_CustomTLSSecret (c_Secrets cr) with
  | Some p => if nonempty (proj_Name p) then proj_Name p else meta_Name (PostgresTLSSecret (config crunchyCR))
  | None => meta_Name (PostgresTLSSecret (config crunchyCR))
  end.

Definition logicalReplicaVolumes (crunchyCR : CrunchyCluster) (pvc configMap : string) : list (string * VolumeSource) :=
  [(CertVolume, FromSecret (logicalReplicaCertSecret crunchyCR) 384);
   (vm_Name DataVolumeMount, FromClaim pvc);
   ("tmp", EmptyDir true);
   ("crunchy-bin", EmptyDir false);
   (logicalReplicaConfigVolume, FromConfigMap configMap)].

(** [k8s.InitContainer] without a component *)
Definition InitContainer (crunchyCR : CrunchyCluster) (componentName image resources : string) : Container :=
  container (componentName +:+ "-init") image "/usr/local/bin/init-entrypoint.sh" [] []
    (default resources (cc_InitResources crunchyCR)) [mkMount "crunchy-bin" "/opt/crunchy" false].

(** [clientCertificates] *)
Definition clientCertificates : list (string * string) :=
  [("pgbackrest.ca-roots", "~postgres-operator/tls-ca.crt");
   ("pgbackrest-client.crt", "~postgres-operator/client-tls.crt");
   ("pgbackrest-client.key", "~postgres-operator/client-tls.key")].

Definition configurationSource (p : VolumeProjection) : FileSource :=
  match vp_Secret p, vp_ConfigMap p with
  | Some s, _ => SecretFiles (mkFileProjection (rp_Name s) [] (rp_Optional s))
  | None, Some c => ConfigMapFiles (mkFileProjection (rp_Name c) [] (rp_Optional c))
  | None, None => OtherFiles ""
  end.

Definition mountInto (names : list string) (mount : VolumeMount) (c : Container) : Container :=
  if bool_decide (ct_Name c ∈ names) then c <| ct_VolumeMounts ::= fun l => l ++ [mount] |> else c.

Definition addConfigVolumeAndMounts (config : list FileSource) (pod : PodSpec) : PodSpec :=
  pod <| psp_Containers ::= map (mountInto [ContainerDatabase; "pgbackrest-config"; "pgbackrest"; "pgbackrest-restore"]
                                  ConfigVolumeMount) |>
      <| psp_Volumes ::= fun l => l ++ [(vm_Name ConfigVolumeMount, Projected config)] |>.

(** [AddConfigToRestorePod], of a cluster that restores from a cluster *)
Definition AddConfigToRestorePod (cluster sourceCluster : CrunchyCluster) (pod : PodSpec) : PodSpec :=
  let configmap := ConfigMapFiles (mkFileProjection (meta_Name (PGBackRestConfig (config cluster)))
                     [(CMInstanceKey, CMInstanceKey)] None) in
  let secret := SecretFiles (mkFileProjection (meta_Name (PGBackRestSecret (config cluster)))
                  clientCertificates (Some true)) in
  let sources := map configurationSource (pa_Configuration (cc_Backups cluster) ++ pa_Configuration (cc_Backups sourceCluster)) in
  let additional := mkMount "postgres-config" "/etc/postgres" true in
  let pod := match cc_ConfigFiles cluster with
             | [] => pod
             | files =>
                 pod <| psp_Containers ::= map (mountInto ["pgbackrest-restore"] additional) |>
                     <| psp_Volumes ::= fun l => l ++ [(vm_Name additional, Projected (sources ++ files))] |>
             end in
  addConfigVolumeAndMounts (sources ++ [configmap; secret]) pod.

(** *** The Job *)
Definition hasPGBackRestRepo (crunchyCR : CrunchyCluster) : bool :=
  negb (bool_decide (pa_Repos (cc_Backups crunchyCR) = [] :> list PGBackRestRepo)).

(** The pod of the Job; [psp_Labels] are those of its template. *)
Definition bootstrapPod (crunchyCR : CrunchyCluster) (spec : Spec) (port : Z) (dataDir script initImage pvc configMap : string)
    : PodSpec :=
  let labels := logicalReplicaLabels (lr_Name spec) in
  let mounts := [tmpMount; logicalReplicaCertVolumeMount; DataVolumeMount;
                 mkMount "crunchy-bin" "/opt/crunchy" false; logicalReplicaConfigVolumeMount] ++
                (if hasPGBackRestRepo crunchyCR then [ConfigVolumeMount] else []) in
  let bootstrap := container logicalReplicaBootstrapContainer PostgresImage "bash" ["-c"; script]
                     (logicalReplicaEnvironment port dataDir ++ NSSWrapperPostgresEnv) (lr_Resources spec) mounts in
  let pod := mkPodSpec labels ∅ "Never"
    [InitContainer crunchyCR ContainerDatabase initImage (lr_Resources spec);
     logicalReplicaNSSWrapperInitContainer (lr_Resources spec)]
    [bootstrap] (logicalReplicaVolumes crunchyCR pvc configMap) (c_ImagePullSecrets cr)
    (lr_Affinity spec) (lr_Tolerations spec) (Some false) (Some false) (default "" (lr_PriorityClassName spec)) in
  if hasPGBackRestRepo crunchyCR then AddConfigToRestorePod crunchyCR crunchyCR pod else pod.

Definition primaryHost (crunchyCR : CrunchyCluster) : string :=
  meta_Name (ClusterPrimaryService (config crunchyCR)) +:+ "." +:+ c_Namespace cr +:+ ".svc".

Definition bootstrapScript (crunchyCR : CrunchyCluster) (spec : Spec) (status : Status) (port : Z) (seed : string) : string :=
  logicalReplicaBootstrapScript (DataDirectory (config crunchyCR)) (primaryHost crunchyCR) port
    (ls_Databases status) (lr_Name spec) seed.

Definition generateLogicalReplicaBootstrapJob (crunchyCR : CrunchyCluster) (spec : Spec) (status : Status) : action Job :=
  let dataDir := DataDirectory (config crunchyCR) in
  match logicalReplicaSeedCommand crunchyCR spec dataDir with
  | Err e => Ret (Err e)
  | Ok seed =>
      portOf (fun port =>
        do! initImage := InitImage operatorPod crunchyCR "" or "get init image" in
        named (logicalReplicaJobName (lr_Name spec)) (fun name =>
        named (logicalReplicaPVCName (lr_Name spec)) (fun pvc =>
        named (logicalReplicaConfigMapName (lr_Name spec)) (fun configMap =>
          let pod := bootstrapPod crunchyCR spec port dataDir (bootstrapScript crunchyCR spec status port seed)
                       initImage pvc configMap in
          Ret (controlled (k := KJob)
            (mkJob (newMeta name (logicalReplicaLabels (lr_Name spec))) [] None 0 0 None None 0 (Some 0%Z) (Some pod) ""))))))
  end.

(** *** The bootstrap *)
Definition checkPrimaryCapacity (neededSlots neededSenders : Z) : program (option error) :=
  let! r := execOnPrimary "" capacitySQL in
  Ret (match r with
       | Err e => Some e
       | Ok stdout => checkLimits neededSlots neededSenders stdout
       end).

Definition bootstrapFailed (job : Job) : Status -> Status :=
  setState ReplicaBroken ReasonBootstrapFailed
    ("bootstrap job failed: " +:+ j_FailedMessage job +:+ "; inspect the " +:+ om_Name (j_Meta job) +:+
     " job, then delete the logical replica and recreate it").

(** The part that makes a new Job *)
Definition startBootstrap (crunchyCR : CrunchyCluster) (spec : Spec) (status : Status) : program (Status * result bool) :=
  let '(neededSlots, neededSenders) := logicalReplicaCapacity spec (length (ls_Databases status)) in
  let! e := checkPrimaryCapacity neededSlots neededSenders in
  match e with
  | Some e => Ret (status <| ls_State := ReplicaBroken |> <| ls_Message := errorText e |>, Ok false)
  | None =>
      let! r := generateLogicalReplicaBootstrapJob crunchyCR spec status in
      match r with
      | Err e => Ret (status, Err (Wrap "generate bootstrap job" e))
      | Ok job =>
          let! r := call (Create KJob job) in
          Ret (match r with
               | Err e => (status, Err (Wrap "create bootstrap job" e))
               | Ok _ => (status <| ls_State := ReplicaBootstrapping |>, Ok false)
               end)
      end
  end.

(** Whether the conversion is complete, with the status as it was changed *)
Definition reconcileLogicalReplicaBootstrap (crunchyCR : CrunchyCluster) (spec : Spec) (status : Status)
    : program (Status * result bool) :=
  match logicalReplicaJobName (lr_Name spec) with
  | None => Ret (status, Err panic)
  | Some name =>
      let! r := call (Get KJob (at_ name)) in
      match r with
      | Ok job =>
          if JobCompleted job then
            let! r := deleteLogicalReplicaJob (lr_Name spec) in
            Ret (status, match r with Ok _ => Ok true | Err e => Err e end)
          else if JobFailed job then Ret (bootstrapFailed job status, Ok false)
          else Ret (status <| ls_State := ReplicaBootstrapping |>, Ok false)
      | Err e =>
          if negb (IsNotFound e) then Ret (status, Err (Wrap "get bootstrap job" e))
          else
            let! r := logicalReplicaStatefulSet (lr_Name spec) in
            match r with
            | Err e => Ret (status, Err e)
            | Ok (Some sts) =>
                Ret (status <| ls_SeededAt := Some (om_CreationTimestamp (st_Meta sts)) |>, Ok true)
            | Ok None => startBootstrap crunchyCR spec status
            end
      end
  end.

(** ** The StatefulSet *)
Definition emptyPod : PodSpec := mkPodSpec ∅ ∅ "" [] [] [] [] None [] None None "".

Definition replicaContainer (spec : Spec) (status : Status) (port : Z) (dataDir : string) : Container :=
  mkContainer ContainerDatabase PostgresImage (c_ImagePullPolicy cr)
    ["postgres"; "-D"; dataDir; "-c";
     "config_file=" +:+ logicalReplicaConfigMountPath +:+ "/" +:+ logicalReplicaConfigFile]
    (logicalReplicaEnvironment port dataDir ++ NSSWrapperPostgresEnv) (lr_Resources spec)
    [(PortPostgreSQL, port)]
    [logicalReplicaCertVolumeMount; DataVolumeMount; tmpMount;
     mkMount logicalReplicaSocketVolume SocketDirectory false; logicalReplicaConfigVolumeMount]
    (Some (startupProbe (lr_StartupProbe spec))) (Some (livenessProbe (lr_LivenessProbe spec)))
    (Some (readinessProbe (lr_Name spec) (ls_Databases status) (lr_ReadinessProbe spec))).

(** The fields of the pod that are set; what is not set stays. *)
Definition replicaPod (crunchyCR : CrunchyCluster) (spec : Spec) (status : Status) (port : Z) (pvc configMap : string)
    (pod : PodSpec) : PodSpec :=
  let dataDir := DataDirectory (config crunchyCR) in
  let metadata := default (mkMetadata ∅ ∅) (lr_Metadata spec) in
  let pod := pod
    <| psp_Labels := Merge [logicalReplicaLabels (lr_Name spec); md_Labels metadata] |>
    <| psp_Annotations := md_Annotations metadata |>
    <| psp_InitContainers := [logicalReplicaNSSWrapperInitContainer (lr_Resources spec)] |>
    <| psp_Containers := [replicaContainer spec status port dataDir] |>
    <| psp_Volumes := logicalReplicaVolumes crunchyCR pvc configMap ++ [(logicalReplicaSocketVolume, EmptyDir true)] |>
    <| psp_ImagePullSecrets := c_ImagePullSecrets cr |>
    <| psp_Affinity := lr_Affinity spec |>
    <| psp_Tolerations := lr_Tolerations spec |>
    <| psp_EnableServiceLinks := Some false |> in
  match lr_PriorityClassName spec with
  | Some c => pod <| psp_PriorityClassName := c |>
  | None => pod
  end.

Definition changeStatefulSet (crunchyCR : CrunchyCluster) (spec : Spec) (status : Status) (port : Z)
    (name pvc configMap : string) (sts : StatefulSet) : result StatefulSet :=
  controlled (k := KSts)
    (sts <| st_Meta ::= fun m => m <| om_Labels := logicalReplicaLabels (lr_Name spec) |> |>
         <| st_Replicas := 1%Z |>
         <| st_ServiceName := name |>
         <| st_Selector := logicalReplicaSelector (lr_Name spec) |>
         <| st_Pod := Some (replicaPod crunchyCR spec status port pvc configMap (default emptyPod (st_Pod sts))) |>).

Definition newStatefulSet (name : string) : StatefulSet :=
  mkSts (newMeta name ∅) 1 0 0 "" (mkTemplate [] [] []) "" ∅ None.

Definition reconcileLogicalReplicaStatefulSet (crunchyCR : CrunchyCluster) (spec : Spec) (status : Status) : action unit :=
  named (logicalReplicaObjectName (lr_Name spec)) (fun name =>
  portOf (fun port =>
  named (logicalReplicaPVCName (lr_Name spec)) (fun pvc =>
  named (logicalReplicaConfigMapName (lr_Name spec)) (fun configMap =>
    wrapped (CreateOrUpdate KSts (newStatefulSet name)
      (changeStatefulSet crunchyCR spec status port name pvc configMap)) "create or update statefulset")))).

(** ** The Service *)
Definition changeService (spec : Spec) (port : Z) (svc : Service) : result Service :=
  let svc := svc <| svc_Meta ::= fun m => m <| om_Labels := logicalReplicaLabels (lr_Name spec) |> |>
                 <| svc_Selector := logicalReplicaSelector (lr_Name spec) |>
                 <| svc_Ports := [(PortPostgreSQL, port, PortPostgreSQL)] |> in
  let svc := match lr_Expose spec with
             | None => svc
             | Some e =>
                 svc <| svc_Type := ex_Type e |>
                     <| svc_LoadBalancerSourceRanges := ex_LoadBalancerSourceRanges e |>
                     <| svc_Meta ::= fun m => m
                          <| om_Annotations ::= fun a => md_Annotations (ex_Metadata e) ∪ a |>
                          <| om_Labels ::= fun l => md_Labels (ex_Metadata e) ∪ l |> |>
             end in
  controlled (k := KService) svc.

Definition reconcileLogicalReplicaService (spec : Spec) : action unit :=
  named (logicalReplicaObjectName (lr_Name spec)) (fun name =>
  portOf (fun port =>
    wrapped (CreateOrUpdate KService (mkService (newMeta name ∅) [] ∅ [] "" []) (changeService spec port))
      "create or update service")).

(** ** Health *)
Definition missingSlots (present n : Z) : Status -> Status :=
  setState ReplicaBroken ReasonSourceSlotMissing
    (pretty (n - present)%Z +:+ " of " +:+ pretty n +:+ " replication slots are missing on the primary, most likely " +:+
     "because it failed over; this replica can no longer catch up, so " +:+ reseedInstructions).

Definition subscriptionDisabled (subscription db : string) : Status -> Status :=
  setState ReplicaBroken ReasonSubscriptionDisabled
    ("subscription " +:+ Quote subscription +:+ " on database " +:+ Quote db +:+ " is disabled, most likely because " +:+
     "applying a change from the primary failed; check the logical replica's logs for the error").

Definition applyWorkerDown (subscription db : string) : Status -> Status :=
  setState ReplicaBroken ReasonApplyWorkerDown
    ("subscription " +:+ Quote subscription +:+ " on database " +:+ Quote db +:+ " is enabled but has no running " +:+
     "apply worker; check the logical replica's logs for why it cannot reach the primary").

Fixpoint checkSubscriptions (pod : Pod) (replica : string) (databases : list string) (status : Status)
    : program (Status * option error) :=
  match databases with
  | [] => Ret (status <| ls_State := ReplicaReady |>, None)
  | db :: databases =>
      let subscription := SubscriptionName replica db in
      let failed := "check subscription " +:+ Quote subscription in
      try! stdout := execOnPod pod db (subscriptionHealthSQL replica db) with status or failed in
      match parseSubscriptionHealth stdout with
      | Err e => Ret (status, Some (Wrap failed e))
      | Ok (false, _) => Ret (subscriptionDisabled subscription db status, None)
      | Ok (true, false) => Ret (applyWorkerDown subscription db status, None)
      | Ok (true, true) => checkSubscriptions pod replica databases status
      end
  end.

Definition checkLogicalReplicaHealth (spec : Spec) (status : Status) : program (Status * option error) :=
  let n := Z.of_nat (length (ls_Databases status)) in
  try! stdout := execOnPrimary "" (countSlotsSQL (lr_Name spec) (ls_Databases status)) with status
    or "count replication slots" in
  match ParseInt (TrimSpace stdout) with
  | None => Ret (status, Some (Wrap ("parse replication slot count: " +:+ Quote stdout) (New "invalid syntax")))
  | Some present =>
      if bool_decide (present < n)%Z then Ret (missingSlots present n status, None)
      else
        let! r := logicalReplicaPod (lr_Name spec) in
        match r with
        | Err _ => Ret (status <| ls_State := ReplicaBootstrapping |> <| ls_Reason := ReasonPodNotFound |>, None)
        | Ok pod => checkSubscriptions pod (lr_Name spec) (ls_Databases status) status
        end
  end.

(** ** One replica *)

(** The cluster went through an upgrade after the replica was seeded. *)
Definition markUpgraded (status : Status) : program Status :=
  if bool_decide (ls_InvalidatedAt status = None) && negb (bool_decide (ls_SeededAt status = None)) &&
     upgradedSinceSeeded cr status
  then let! now := call Now in Ret (status <| ls_InvalidatedAt := Some now |>)
  else Ret status.

Definition stopInvalidated (spec : Spec) (status : Status) : program (Status * option error) :=
  try! _ := scaleLogicalReplica (lr_Name spec) 0 with status or "stop invalidated replica" in
  let '(reason, message) := logicalReplicaInvalidation cr status in
  let! _ := (if recordedLogicalReplicaReason cr (lr_Name spec) reason then Ret tt
             else call (Event "Warning" "LogicalReplicaInvalidated")) in
  let! status := (if bool_decide (reason = ReasonSourceUpgraded) && negb (bool_decide (ls_Databases status = []))
                  then
                    let! r := dropLogicalReplicaObjects (lr_Name spec) (ls_Databases status) in
                    Ret (match r with Ok _ => status <| ls_Databases := [] |> | Err _ => status end)
                  else Ret status) in
  Ret (setState ReplicaBroken reason message status, None).

(** What runs a replica that is seeded. *)
Definition runReplica (crunchyCR : CrunchyCluster) (spec : Spec) (status : Status) : program (Status * option error) :=
  try! _ := reconcileLogicalReplicaStatefulSet crunchyCR spec status with status or "reconcile statefulset" in
  try! _ := reconcileLogicalReplicaService spec with status or "reconcile service" in
  checkLogicalReplicaHealth spec status.

(** The record of a bootstrap that has completed *)
Definition recordBootstrap (status : Status) : program Status :=
  let! status := match ls_SeededAt status with
                 | Some _ => Ret status
                 | None => let! now := call Now in Ret (status <| ls_SeededAt := Some now |>)
                 end in
  Ret (status <| ls_PostgresVersion := c_PostgresVersion cr |>).

Definition seedReplica (crunchyCR : CrunchyCluster) (spec : Spec) (status : Status) : program (Status * option error) :=
  match ls_SeededAt status with
  | Some _ => runReplica crunchyCR spec status
  | None =>
      let! r := reconcileLogicalReplicaBootstrap crunchyCR spec status in
      match r with
      | (status, Err e) => Ret (status, Some e)
      | (status, Ok false) => Ret (status, None)
      | (status, Ok true) =>
          let! status := recordBootstrap status in
          runReplica crunchyCR spec status
      end
  end.

Definition waitingForVolume (pvc : string) : Status -> Status :=
  setState ReplicaBootstrapping ReasonWaitingForDataVolume
    ("waiting for the " +:+ pvc +:+ " volume to be deleted").

Definition waitingForPrimary : Status -> Status :=
  setState ReplicaBootstrapping ReasonPrimaryNotReady
    ("waiting for the primary; see the " +:+ ConditionReadyForLogicalReplication +:+ " condition").

Definition provisionReplica (crunchyCR : CrunchyCluster) (spec : Spec) (status : Status) : program (Status * option error) :=
  try! ready := reconcileLogicalReplicaPVC spec with status or "reconcile pvc" in
  if negb (ready : bool)
  then Ret (waitingForVolume (default "" (logicalReplicaPVCName (lr_Name spec))) status, None)
  else
    try! _ := reconcileLogicalReplicaConfigMap crunchyCR spec status with status or "reconcile configmap" in
    seedReplica crunchyCR spec status.

Definition reconcileLogicalReplica (crunchyCR : CrunchyCluster) (spec : Spec) (primaryReady : bool)
    : program (Status * option error) :=
  let! status := markUpgraded (logicalReplicaStatusFor cr (lr_Name spec)) in
  if negb (bool_decide (ls_InvalidatedAt status = None)) then stopInvalidated spec status
  else if bool_decide (ls_SeededAt status = None) && negb primaryReady then Ret (waitingForPrimary status, None)
  else if bool_decide (ls_Databases status = []) then freezeDatabases crunchyCR spec status
  else provisionReplica crunchyCR spec status.

(** ** All replicas *)
Definition recordError (status : Status) (e : option error) : Status :=
  match e with
  | Some e => status <| ls_State := ReplicaBroken |> <| ls_Message := errorText e |>
  | None => status
  end.

(** [ready] is the readiness of the primary; a panic ends everything. *)
Fixpoint reconcileEach (crunchyCR : CrunchyCluster) (ready : Condition) (specs : list Spec) (statuses : list Status)
    (requeue : bool) : action bool :=
  match specs with
  | [] =>
      do! _ := updateLogicalReplicaStatus statuses (Some ready) in
      Ret (Ok requeue)
  | spec :: specs =>
      let! r := reconcileLogicalReplica crunchyCR spec (bool_decide (cond_Status ready = ConditionTrue)) in
      let '(status, e) := r in
      if existsb isPanic (option_list e) then Ret (Err panic)
      else
        let status := recordError status e in
        let statuses := statuses ++ [status] in
        if bool_decide (ls_State status = ReplicaBootstrapping)
        then
          do! _ := updateLogicalReplicaStatus statuses (Some ready) in
          Ret (Ok true)
        else reconcileEach crunchyCR ready specs statuses (requeue || negb (logicalReplicaSettled status))
  end.

(** Whether any replica is still working towards being ready *)
Definition reconcileLogicalReplicas (crunchyCR : CrunchyCluster) : action bool :=
  if bool_decide (c_CompareVersion cr "3.1.0" < 0)%Z then Ret (Ok false)
  else
    match c_LogicalReplicas cr, c_LogicalReplicaStatuses cr with
    | [], [] =>
        do! _ := updateLogicalReplicaStatus [] None in
        Ret (Ok false)
    | specs, _ =>
        do! s := shouldSuspendLogicalReplicas or "observe restore" in
        if Needed s then do! _ := suspendLogicalReplicas s in Ret (Ok false)
        else
          do! deferred := cleanupRemovedLogicalReplicas or "clean up removed logical replicas" in
          let waiting := negb (bool_decide (deferred = [])) in
          match specs with
          | [] =>
              do! _ := updateLogicalReplicaStatus deferred None in
              Ret (Ok waiting)
          | _ =>
              if negb (bool_decide (c_State cr = AppStateReady)) then Ret (Ok waiting)
              else
                let! ready := observePrimaryReadiness in
                reconcileEach crunchyCR ready specs deferred waiting
          end
    end.
End Replicas.
