(* ===== verification/ReplicaLifecycle.v ===== *)
(** * The life of a logical replica

    What the controller of LogicalReplicas.v may do, and when: a replica is
    seeded once, from a primary that was seen ready; it runs only when it is
    seeded and not invalidated; its slots are dropped before it is forgotten;
    and how its status evolves. *)
From S2P Require Import Prelude GoStrings Cluster HBA Parameters Prog Errors Naming Objects Client Psql Passwords BackupUtils Instances ObservedInstances ClusterStatus PGBackRest RepoBackups CertManager Certificates RestoreInPlace LogicalReplication LogicalReplicas.

Section Lifecycle.
Context `{ControllerRuntime} `{CreateOrUpdates} `{MetaConditions} `{GoVersion} `{LabelMatching} `{SafeEncode} `{Digests}.
Context (errorText : error -> string) (getenv : string -> string) (operatorPod : result key).
Context (cr : PerconaPGCluster) (crunchyCR : CrunchyCluster).

Abbreviation Replica := LogicalReplicaSpec.
Abbreviation Status := LogicalReplicaStatus.

#[local] Instance grows_absent k at_ : Grows (fun h => absent h k at_).
Proof. unfold absent. apply _. Qed.

Lemma absent_last (h : history) k at_ e : IsNotFound e = true -> absent (h ++ [got k at_ (Err e)]) k at_.
Proof. intros He. exists e. split; [apply elem_of_snoc|done]. Qed.

(** ** What a history shows *)

(** The label that Patroni gives the primary: another one since version 4 *)
Definition primary_role (role : string) : Prop :=
  exists patroni, NewVersion (determineVersion cr) = Some patroni /\
    ((0 <= Compare patroni (Must "4.0.0"))%Z /\ role = "primary" \/
     (Compare patroni (Must "4.0.0") < 0)%Z /\ role = "master").

(** The primary, as it was listed: the only pod with that label *)
Definition primary_seen (h : history) (pod : Pod) : Prop :=
  exists role, primary_role role /\ (Ev (ListAll KPod (c_Namespace cr) (ByLabels (SetSelector
      {["app.kubernetes.io/instance" := c_Name cr;
        "postgres-operator.crunchydata.com/role" := role]})) : op)
    (Ok [pod] : resp (ListAll KPod _ _)) : event resp) ∈ h.

#[local] Instance grows_primary_seen pod : Grows (fun h => primary_seen h pod).
Proof. unfold primary_seen. apply _. Qed.

(** A pod that serves a replica *)
Definition serving_seen (h : history) (replica : string) (pod : Pod) : Prop :=
  isServing pod = true /\ exists pods : list Pod,
    pod ∈ pods /\
    (Ev (ListAll KPod (c_Namespace cr) (ByLabels (SetSelector (logicalReplicaSelector cr replica))) : op)
      (Ok pods : resp (ListAll KPod _ _)) : event resp) ∈ h.

#[local] Instance grows_serving_seen replica pod : Grows (fun h => serving_seen h replica pod).
Proof. unfold serving_seen. apply _. Qed.

(** The psql command for a database *)
Definition psqlCommand (database : string) : list string :=
  ["psql"; "-Xw"; "--file=-"] ++
  sortStrings (["--set=ON_ERROR_STOP=on"; "--set=QUIET=on"; "-t"] ++
    (if nonempty database then ["--dbname=" +:+ database] else [])).

(** A statement that ran on a pod without an error, and its output *)
Definition ran (h : history) (pod : Pod) (database sql stdout : string) : Prop :=
  exists out, (Ev (Exec (objectKey (p_Meta pod)) ContainerDatabase (Some sql) (psqlCommand database) : op) out : event resp) ∈ h /\
    out_Err out = None /\ stdout = TrimSpace (out_Stdout out).

#[local] Instance grows_ran pod database sql stdout : Grows (fun h => ran h pod database sql stdout).
Proof. unfold ran. apply _. Qed.

(** A statement is run on a pod. *)
Definition runs (pod : Pod) (database sql : string) (o : op) : Prop :=
  o = Exec (objectKey (p_Meta pod)) ContainerDatabase (Some sql) (psqlCommand database).

(** ** Rules for the helpers *)
Lemma variables_order (order : list string) :
  order ≡ₚ keys ({["ON_ERROR_STOP" := "on"; "QUIET" := "on"]} : gmap string string) ->
  setArgs {["ON_ERROR_STOP" := "on"; "QUIET" := "on"]} order ≡ₚ ["--set=ON_ERROR_STOP=on"; "--set=QUIET=on"].
Proof.
  intros Ho. unfold setArgs. rewrite Ho.
  assert (Hk : keys ({["ON_ERROR_STOP" := "on"; "QUIET" := "on"]} : gmap string string) ≡ₚ ["ON_ERROR_STOP"; "QUIET"]).
  { unfold keys. rewrite map_to_list_insert by done. cbn [fmap list_fmap fst].
    rewrite map_to_list_singleton. done. }
  by rewrite Hk.
Qed.

Lemma execOnPod_wps G h pod database sql (Q : history -> result string -> Prop) :
  (forall h' keys, h `prefix_of` h' -> G h' (RangeOrder keys)) ->
  (forall h' o, h `prefix_of` h' -> runs pod database sql o -> G h' o) ->
  (forall h' r, h `prefix_of` h' -> match r with Ok stdout => ran h' pod database sql stdout | Err _ => True end -> Q h' r) ->
  wps G h (execOnPod pod database sql) Q.
Proof.
  intros Ho Hr HQ. unfold execOnPod, ExecPsql, databaseOf, podExecutor. rewrite wps_bind, wps_call_bind. split; [by apply Ho|].
  intros [order Hp]. simpl.
  assert (Hc : sortStrings (setArgs {["ON_ERROR_STOP" := "on"; "QUIET" := "on"]} order ++
      ["-t"] ++ (if nonempty database then ["--dbname=" +:+ database] else [])) =
    sortStrings (["--set=ON_ERROR_STOP=on"; "--set=QUIET=on"; "-t"] ++ (if nonempty database then ["--dbname=" +:+ database] else []))).
  { apply sortStrings_Permutation. by rewrite (variables_order order Hp). }
  split; [apply Hr; [by apply prefix_app_r|]; unfold runs, psqlCommand; simpl in *; by rewrite <- Hc|].
  intros out. apply HQ; [by do 2 apply prefix_app_r|]. destruct (out_Err out) eqn:E; [done|].
  exists out. split_and!; [|done|done]. unfold psqlCommand. rewrite <- Hc. apply elem_of_snoc.
Qed.

Lemma GetPrimaryPod_wps G h (Q : history -> result Pod -> Prop) :
  (forall h' sel, h `prefix_of` h' -> G h' (ListAll KPod (c_Namespace cr) sel)) ->
  (forall h' r, h `prefix_of` h' -> match r with Ok pod => primary_seen h' pod | Err _ => True end -> Q h' r) ->
  wps G h (GetPrimaryPod cr) Q.
Proof.
  intros HG HQ. unfold GetPrimaryPod. destruct (NewVersion _) as [v|] eqn:Ev; [|by apply HQ].
  assert (Hrole : primary_role (if bool_decide (0 <= Compare v (Must "4.0.0"))%Z then "primary" else "master")).
  { exists v. split; [done|]. case_bool_decide; [by left|right]. split; [lia|done]. }
  unfold rolePods. apply wps_list_bindr. split; [by apply HG|]. intros [pods|e]; [|by apply HQ; [apply prefix_app_r|]].
  destruct pods as [|p [|]]; apply HQ; try done; try by apply prefix_app_r.
  eexists. split; [exact Hrole|apply elem_of_snoc].
Qed.

Lemma primaryPod_wps G h (Q : history -> result Pod -> Prop) :
  (forall h' sel, h `prefix_of` h' -> G h' (ListAll KPod (c_Namespace cr) sel)) ->
  (forall h' r, h `prefix_of` h' -> match r with Ok pod => primary_seen h' pod | Err _ => True end -> Q h' r) ->
  wps G h (primaryPod errorText cr) Q.
Proof.
  intros HG HQ. unfold primaryPod. rewrite wps_bind. apply GetPrimaryPod_wps; [done|].
  intros h' [pod|e] Hp Hs; by apply HQ.
Qed.

Lemma logicalReplicaPod_wps G h replica (Q : history -> result Pod -> Prop) :
  (forall h' sel, h `prefix_of` h' -> G h' (ListAll KPod (c_Namespace cr) sel)) ->
  (forall h' r, h `prefix_of` h' -> match r with Ok pod => serving_seen h' replica pod | Err _ => True end -> Q h' r) ->
  wps G h (logicalReplicaPod cr replica) Q.
Proof.
  intros HG HQ. unfold logicalReplicaPod. apply wps_list_bindr. split; [by apply HG|].
  intros [pods|e]; [|by apply HQ; [apply prefix_app_r|]]. cbn [wps]. apply HQ; [by apply prefix_app_r|].
  destruct (List.find isServing pods) as [pod|] eqn:E; [|done]. apply List.find_some in E as [Hin Hs].
  split; [done|]. exists pods. split; [by apply list_elem_of_In|apply elem_of_snoc].
Qed.

Lemma wrapped_wps {A} G h (p : action A) msg Q :
  wps G h p (fun h' r => Q h' (match r with Ok a => Ok a | Err e => Err (Wrap msg e) end)) -> wps G h (wrapped p msg) Q.
Proof. intros Hp. unfold wrapped. rewrite wps_bind. exact Hp. Qed.

Lemma named_wps {A} G h name (k : string -> action A) Q :
  (name = None -> Q h (Err panic)) -> (forall n, name = Some n -> wps G h (k n) Q) -> wps G h (named name k) Q.
Proof. intros Hn Hk. unfold named. destruct name; [by apply Hk|by apply Hn]. Qed.

Lemma portOf_wps {A} G h (k : Z -> action A) Q :
  (c_Port cr = None -> Q h (Err panic)) -> (forall p, c_Port cr = Some p -> wps G h (k p) Q) -> wps G h (portOf cr k) Q.
Proof. intros Hn Hk. unfold portOf. destruct (c_Port cr); [by apply Hk|by apply Hn]. Qed.

Lemma onStatus_wps {A} G h (p : action A) status w k Q :
  wps G h (onStatus p status w k) Q <->
  wps G h p (fun h' r => match r with Ok a => wps G h' (k a) Q | Err e => Q h' (status, Some (w e)) end).
Proof. unfold onStatus. rewrite wps_bind. split; intros Hp; eapply wps_conseq; try exact Hp; intros h' [a|e]; done. Qed.

Lemma ignoreNotFound_wps G h (p : action unit) w Q :
  wps G h p (fun h' r => Q h' (match r with Ok _ => Ok tt | Err e => if IsNotFound e then Ok tt else Err (w e) end)) ->
  wps G h (ignoreNotFound p w) Q.
Proof. intros Hp. unfold ignoreNotFound. rewrite wps_bind. exact Hp. Qed.

(** What is written at a key has it, or is a change of what was read there. *)
Definition written {k} (h : history) (at_ : key) (o : obj k) : Prop :=
  objectKey (meta o) = at_ \/ exists cur : obj k, read h k at_ cur /\ objectKey (meta o) = objectKey (meta cur).

(** ** What may be done *)
Definition dataDir : string := DataDirectory (config crunchyCR).

(** An object of a replica, by its name *)
Definition is_named (name : option string) (k : key) : Prop := fst k = c_Namespace cr /\ name = Some (snd k).

Abbreviation specs := (c_LogicalReplicas cr).
Abbreviation recorded := (c_LogicalReplicaStatuses cr).
Abbreviation statusOf spec := (logicalReplicaStatusFor cr (lr_Name spec)).

(** The primary carries everything that a bootstrap needs: the password is
    there, no restart is pending, and its answer names nothing that is missing. *)
Definition primary_ready (h : history) : Prop :=
  exists pod secret stdout,
    primary_seen h pod /\ read h KSecret (at_ cr (logicalReplicaUserSecretName cr)) secret /\
    nonempty (dataOf secret "password") = true /\ PodRequiresRestart pod = false /\
    ran h pod "" PrimaryReadinessQuery stdout /\ ParsePrimaryReadinessReasons stdout = [].

#[local] Instance grows_primary_ready : Grows primary_ready.
Proof. unfold primary_ready. apply _. Qed.

(** The primary has the free slots and WAL senders that are needed. *)
Definition capacity_seen (h : history) (needed : Z * Z) : Prop :=
  exists pod stdout a b slots senders,
    primary_seen h pod /\ ran h pod "" capacitySQL stdout /\ Split stdout "|"%char = [a; b] /\
    ParseInt (TrimSpace a) = Some slots /\ (fst needed <= slots)%Z /\
    ParseInt (TrimSpace b) = Some senders /\ (snd needed <= senders)%Z.

#[local] Instance grows_capacity_seen needed : Grows (fun h => capacity_seen h needed).
Proof. unfold capacity_seen. apply _. Qed.

(** The claim is not on its way out. *)
Definition volume_seen (h : history) (pvc : string) : Prop :=
  absent h KPVC (at_ cr pvc) \/ exists p : PVC, read h KPVC (at_ cr pvc) p /\ isDeleting (pvc_Meta p) = false.

#[local] Instance grows_volume_seen pvc : Grows (fun h => volume_seen h pvc).
Proof. unfold volume_seen. apply _. Qed.

(** A replica that is neither seeded nor invalidated, with its databases *)
Definition unseeded (spec : Replica) : Prop :=
  spec ∈ specs /\ ls_SeededAt (statusOf spec) = None /\ ls_InvalidatedAt (statusOf spec) = None /\
  ls_Databases (statusOf spec) <> [].

(** The only Job that is ever made for a replica *)
Definition bootstrap_justified (h : history) (job : Job) : Prop :=
  exists spec port seed initImage name pvc configMap stsName,
    unseeded spec /\ c_Port cr = Some port /\ logicalReplicaSeedCommand crunchyCR spec dataDir = Ok seed /\
    logicalReplicaJobName cr (lr_Name spec) = Some name /\ logicalReplicaPVCName cr (lr_Name spec) = Some pvc /\
    logicalReplicaConfigMapName cr (lr_Name spec) = Some configMap /\
    logicalReplicaObjectName cr (lr_Name spec) = Some stsName /\
    objectKey (j_Meta job) = at_ cr name /\ om_Controller (j_Meta job) = Some (om_UID (c_Meta cr)) /\
    j_BackoffLimit job = Some 0%Z /\
    j_Pod job = Some (bootstrapPod getenv cr crunchyCR spec port dataDir
      (bootstrapScript cr crunchyCR spec (statusOf spec) port seed) initImage pvc configMap) /\
    absent h KJob (at_ cr name) /\ absent h KSts (at_ cr stsName) /\ volume_seen h pvc /\ primary_ready h /\
    capacity_seen h (logicalReplicaCapacity spec (length (ls_Databases (statusOf spec)))).

(** A replica may run: it is not invalidated, and it is recorded as seeded from
    the version of the cluster, or its Job was seen completed, or it has a
    StatefulSet already.  Such a StatefulSet is adopted without a look at the
    version of its data. *)
Definition may_run (h : history) (spec : Replica) : Prop :=
  spec ∈ specs /\ ls_InvalidatedAt (statusOf spec) = None /\ ls_Databases (statusOf spec) <> [] /\
  (ls_SeededAt (statusOf spec) <> None -> upgradedSinceSeeded cr (statusOf spec) = false) /\
  (ls_SeededAt (statusOf spec) <> None \/
   (exists name (job : Job), logicalReplicaJobName cr (lr_Name spec) = Some name /\
      read h KJob (at_ cr name) job /\ JobCompleted job = true) \/
   (exists name (sts : StatefulSet), logicalReplicaObjectName cr (lr_Name spec) = Some name /\ read h KSts (at_ cr name) sts)).

#[local] Instance grows_may_run spec : Grows (fun h => may_run h spec).
Proof. unfold may_run. apply _. Qed.

(** Statuses whose objects on the primary are dropped: of replicas that left the
    specification, and of those that an upgrade has made useless *)
Definition retired (s : Status) : Prop :=
  (s ∈ recorded /\ wanted cr (ls_Name s) = false) \/
  (exists spec, spec ∈ specs /\ ls_Name s = lr_Name spec /\ ls_Databases s = ls_Databases (statusOf spec) /\
     upgradedSinceSeeded cr (statusOf spec) = true /\
     (ls_InvalidatedAt (statusOf spec) <> None \/ ls_SeededAt (statusOf spec) <> None)).

(** All its slots are dropped. *)
Definition slots_dropped (h : history) (s : Status) : Prop :=
  forall db, db ∈ ls_Databases s -> exists pod stdout, primary_seen h pod /\ ran h pod "" (dropSlotSQL (ls_Name s) db) stdout.

#[local] Instance grows_slots_dropped s : Grows (fun h => slots_dropped h s).
Proof. unfold slots_dropped. apply _. Qed.

Definition removed (h : history) (s : Status) : Prop :=
  s ∈ recorded /\ wanted cr (ls_Name s) = false /\ slots_dropped h s.

#[local] Instance grows_removed s : Grows (fun h => removed h s).
Proof. unfold removed. apply _. Qed.

(** The statements that are run, and where *)
Definition statement (h : history) (pod : Pod) (db sql : string) : Prop :=
  (primary_seen h pod /\ db = "" /\
     (sql = PrimaryReadinessQuery \/ sql = capacitySQL \/ (exists w, sql = databasesSQL w) \/
      exists replica l, sql = countSlotsSQL replica l)) \/
  (exists replica, serving_seen h replica pod /\ sql = subscriptionHealthSQL replica db) \/
  (exists s db', retired s /\ db' ∈ ls_Databases s /\
     ((serving_seen h (ls_Name s) pod /\ db = db' /\ sql = dropSubscriptionSQL (ls_Name s) db') \/
      (primary_seen h pod /\ db = "" /\ (sql = terminateSQL (ls_Name s) db' \/ sql = dropSlotSQL (ls_Name s) db')) \/
      (primary_seen h pod /\ db = db' /\ sql = dropPublicationSQL (ls_Name s) db'))).

(** A bootstrap that is thrown away: a Job was there, and no StatefulSet *)
Definition discarded (h : history) (s : Status) (jobAt : key) : Prop :=
  s ∈ recorded /\ ls_SeededAt s = None /\ is_named (logicalReplicaJobName cr (ls_Name s)) jobAt /\
  exists job : Job, read h KJob jobAt job.

Definition replica_call (h : history) (o : op) : Prop :=
  match o with
  | Get _ _ | ListAll _ _ _ | Now | RangeOrder _ | Event _ _ => True
  | Exec _ _ _ _ => exists pod db sql, runs pod db sql o /\ statement h pod db sql
  | Create KJob job => bootstrap_justified h job
  | Create KPVC pvc | Update KPVC pvc =>
      exists spec name, spec ∈ specs /\ logicalReplicaPVCName cr (lr_Name spec) = Some name /\
        written (k := KPVC) h (at_ cr name) pvc /\ volume_seen h name
  | Create KConfigMap c | Update KConfigMap c =>
      exists spec name, spec ∈ specs /\ logicalReplicaConfigMapName cr (lr_Name spec) = Some name /\
        written (k := KConfigMap) h (at_ cr name) c
  | Create KSts sts | Update KSts sts =>
      exists spec name, logicalReplicaObjectName cr (lr_Name spec) = Some name /\
        written (k := KSts) h (at_ cr name) sts /\ st_Replicas sts = 1%Z /\ may_run h spec /\
        exists port, c_Port cr = Some port /\
          psp_Containers <$> st_Pod sts = Some [replicaContainer getenv cr spec (statusOf spec) port dataDir]
  | Create KService svc | Update KService svc =>
      exists spec name, logicalReplicaObjectName cr (lr_Name spec) = Some name /\
        written (k := KService) h (at_ cr name) svc /\ may_run h spec
  | Patch KSts sts sts' =>
      sts' = sts <| st_Replicas := 0%Z |> /\ exists replica k, is_named (logicalReplicaObjectName cr replica) k /\ read h KSts k sts /\
        (replica ∈ map ls_Name recorded \/ exists spec, spec ∈ specs /\ lr_Name spec = replica /\
           (ls_InvalidatedAt (statusOf spec) <> None \/ upgradedSinceSeeded cr (statusOf spec) = true))
  | Delete KJob k opts => opts = Foreground /\
      ((exists s, removed h s /\ is_named (logicalReplicaJobName cr (ls_Name s)) k) \/
       (exists s, discarded h s k) \/
       (exists spec (job : Job), unseeded spec /\ is_named (logicalReplicaJobName cr (lr_Name spec)) k /\
          read h KJob k job /\ JobCompleted job = true))
  | Delete KSts k opts | Delete KService k opts =>
      opts = NoOptions /\ exists s, removed h s /\ is_named (logicalReplicaObjectName cr (ls_Name s)) k
  | Delete KConfigMap k opts =>
      opts = NoOptions /\ exists s, removed h s /\ is_named (logicalReplicaConfigMapName cr (ls_Name s)) k
  | Delete KPVC k opts => opts = NoOptions /\ exists s, is_named (logicalReplicaPVCName cr (ls_Name s)) k /\
      (removed h s \/ exists jobAt stsAt, discarded h s jobAt /\
         is_named (logicalReplicaObjectName cr (ls_Name s)) stsAt /\ absent h KSts stsAt)
  | StatusUpdate KPGCluster c' =>
      exists c statuses conditions, read h KPGCluster (c_Namespace cr, c_Name cr) c /\
        c' = c <| c_LogicalReplicaStatuses := statuses |> <| c_Conditions := conditions |> /\
        forall t, t <> ConditionReadyForLogicalReplication ->
          FindStatusCondition conditions t = FindStatusCondition (c_Conditions c) t
  | _ => False
  end.

Lemma is_named_at name n : name = Some n -> is_named name (at_ cr n).
Proof. by intros ->. Qed.

(** ** The parts *)
Lemma updateStatus_wps h statuses ready (Q : history -> result unit -> Prop) :
  (match ready with Some c => cond_Type c = ConditionReadyForLogicalReplication | None => True end) ->
  (forall h' r, h `prefix_of` h' -> Q h' r) ->
  wps replica_call h (updateLogicalReplicaStatus cr statuses ready) Q.
Proof.
  intros Ht HQ. unfold updateLogicalReplicaStatus. apply wrapped_wps, RetryOnConflict_prefix. intros h1 Hp.
  apply wps_get_bindr. split; [done|]. intros [c|e]; [|by apply HQ; etransitivity; [|apply prefix_app_r]].
  destruct ready as [ready|].
  - apply wps_call_bind. split; [done|]. intros now. rewrite wps_ignore. split.
    + eexists c, statuses, _. split_and!; [|reflexivity|].
      * eapply (grows (P := fun h => read h KPGCluster _ c)); [apply elem_of_snoc|by apply prefix_app_r].
      * intros t Hne. apply SetStatusCondition_other. cbn [cond_Type]. by rewrite Ht.
    + intros r. apply HQ. by do 3 apply prefix_app_r.
  - rewrite wps_ignore. split.
    + eexists c, statuses, _. split_and!; [apply elem_of_snoc|reflexivity|].
      intros t Hne. by apply RemoveStatusCondition_other.
    + intros r. apply HQ. by do 2 apply prefix_app_r.
Qed.

(** A replica that may be stopped *)
Definition may_stop (replica : string) : Prop :=
  replica ∈ map ls_Name recorded \/ exists spec, spec ∈ specs /\ lr_Name spec = replica /\
    (ls_InvalidatedAt (statusOf spec) <> None \/ upgradedSinceSeeded cr (statusOf spec) = true).

Lemma scale_wps h replica (Q : history -> result unit -> Prop) : may_stop replica ->
  (forall h' r, h `prefix_of` h' -> Q h' r) ->
  wps replica_call h (scaleLogicalReplica cr replica 0) Q.
Proof.
  intros Hs HQ. unfold scaleLogicalReplica. apply named_wps; [intros _; by apply HQ|]. intros name Hn.
  apply wrapped_wps, RetryOnConflict_prefix. intros h1 Hp. apply wps_call_bind. split; [done|].
  intros [sts|e]; [|by apply HQ; etransitivity; [|apply prefix_app_r]].
  case_bool_decide as E; [by apply HQ, prefix_app_r|]. rewrite wps_ignore. split; [|by intros r; apply HQ; do 2 apply prefix_app_r].
  split; [done|]. exists replica, (at_ cr name). split_and!; [by apply is_named_at|apply elem_of_snoc|done].
Qed.

Lemma exec_replica_call h o pod db sql : runs pod db sql o -> statement h pod db sql -> replica_call h o.
Proof. intros Hr Hs. pose proof Hr as Hr'. unfold runs in Hr'. subst o. by exists pod, db, sql. Qed.

#[local] Instance grows_statement pod db sql : Grows (fun h => statement h pod db sql).
Proof. unfold statement. apply _. Qed.

Lemma statement_wps h pod db sql (Q : history -> result string -> Prop) : statement h pod db sql ->
  (forall h' r, h `prefix_of` h' -> match r with Ok stdout => ran h' pod db sql stdout | Err _ => True end -> Q h' r) ->
  wps replica_call h (execOnPod pod db sql) Q.
Proof.
  intros Hs HQ. apply execOnPod_wps; [done| |done]. intros h' o Hp Hr. eapply exec_replica_call; [exact Hr|].
  by eapply (grows (P := fun h => statement h pod db sql)).
Qed.

(** *** Dropping the objects of a replica *)
Lemma dropSubscriptions_wps h pod s l (Q : history -> unit -> Prop) :
  retired s -> serving_seen h (ls_Name s) pod -> l ⊆ ls_Databases s ->
  (forall h', h `prefix_of` h' -> Q h' tt) ->
  wps replica_call h (dropSubscriptions pod (ls_Name s) l) Q.
Proof.
  intros Hr. revert h. induction l as [|db l IH]; intros h Hv Hl HQ; [by apply HQ|]. cbn [dropSubscriptions]. rewrite wps_bind.
  apply statement_wps.
  - right. right. exists s, db. split_and!; [done|by apply Hl; left|]. by left.
  - intros h1 r Hp _. apply IH.
    + by eapply (grows (P := fun h => serving_seen h _ pod)).
    + intros x Hx. apply Hl. by right.
    + intros h2 Hp2. apply HQ. by etransitivity.
Qed.

Lemma dropOnPrimary_wps h pod present s l (Q : history -> result unit -> Prop) :
  retired s -> primary_seen h pod -> l ⊆ ls_Databases s ->
  (forall h' r, h `prefix_of` h' ->
     (r = Ok tt -> forall db, db ∈ l -> exists stdout, ran h' pod "" (dropSlotSQL (ls_Name s) db) stdout) -> Q h' r) ->
  wps replica_call h (dropOnPrimary pod present (ls_Name s) l) Q.
Proof.
  intros Hr. revert h Q. induction l as [|db l IH]; intros h Q Hv Hl HQ.
  { apply HQ; [done|]. intros _ db Hdb. by apply elem_of_nil in Hdb. }
  assert (Hdb : db ∈ ls_Databases s) by (apply Hl; by left).
  cbn [dropOnPrimary]. rewrite wps_bindr. apply statement_wps.
  { right. right. exists s, db. split_and!; [done..|]. right. left. auto. }
  intros h1 [o1|e] Hp1 _; [|by apply HQ]. rewrite wps_bindr. apply statement_wps.
  { right. right. exists s, db. split_and!; [done..|]. right. left. split_and!; [|done|by right].
    by eapply (grows (P := fun h => primary_seen h pod)). }
  intros h2 [o2|e] Hp2 Hran; [|by apply HQ; [by etransitivity|]]. rewrite wps_bindr.
  assert (Hrest : forall h3, h2 `prefix_of` h3 -> wps replica_call h3 (dropOnPrimary pod present (ls_Name s) l) Q).
  { intros h3 Hp3. apply IH.
    - eapply (grows (P := fun h => primary_seen h pod)); [done|]. etransitivity; [done|]. by etransitivity.
    - intros x Hx. apply Hl. by right.
    - intros h4 r Hp4 Hdone. apply HQ; [do 3 (etransitivity; [done|]); done|]. intros -> db' [->|Hin]%elem_of_cons; [|by apply Hdone].
      exists o2. eapply (grows (P := fun h => ran h _ _ _ _)); [done|]. by etransitivity. }
  case_bool_decide as Ep; [|by apply Hrest]. apply statement_wps.
  { right. right. exists s, db. split_and!; [done..|]. right. right. split_and!; [|done..].
    eapply (grows (P := fun h => primary_seen h pod)); [done|]. by etransitivity. }
  intros h3 [o3|e] Hp3 _; [by apply Hrest|]. apply HQ; [by do 2 (etransitivity; [done|])|done].
Qed.

Lemma databases_wps h pod where_ (Q : history -> result (list string) -> Prop) : primary_seen h pod ->
  (forall h' r, h `prefix_of` h' -> Q h' r) -> wps replica_call h (queryDatabases pod where_) Q.
Proof.
  intros Hv HQ. unfold queryDatabases. rewrite wps_bindr. apply statement_wps.
  - left. split_and!; [done..|]. right. right. left. by exists where_.
  - intros h1 [o|e] Hp _; by apply HQ.
Qed.

Lemma dropObjects_wps h s (Q : history -> result unit -> Prop) : retired s ->
  (forall h' r, h `prefix_of` h' -> (r = Ok tt -> slots_dropped h' s) -> Q h' r) ->
  wps replica_call h (dropLogicalReplicaObjects errorText cr (ls_Name s) (ls_Databases s)) Q.
Proof.
  intros Hr HQ. unfold dropLogicalReplicaObjects. destruct (ls_Databases s) as [|db0 dbs] eqn:Ed.
  { apply HQ; [done|]. intros _ db. rewrite Ed. by intros ?%elem_of_nil. }
  rewrite <- Ed. rewrite wps_bind. apply logicalReplicaPod_wps; [done|]. intros h1 r Hp1 Hserve.
  assert (Hrest : forall h2, h1 `prefix_of` h2 -> wps replica_call h2
      (do! primary := primaryPod errorText cr in
       do! present := presentDatabases primary or "list databases" in
       dropOnPrimary primary present (ls_Name s) (ls_Databases s)) Q).
  { intros h2 Hp2. assert (Hph : h `prefix_of` h2) by by etransitivity.
    rewrite wps_bindr. apply primaryPod_wps; [done|]. intros h3 [primary|e] Hp3 Hv; [|by apply HQ; [by etransitivity|]].
    rewrite wps_bindr. apply databases_wps; [done|]. intros h4 [present|e] Hp4; [|by apply HQ; [by do 2 (etransitivity; [done|])|]].
    apply dropOnPrimary_wps; [done| |done|].
    - by eapply (grows (P := fun h => primary_seen h primary)).
    - intros h5 r5 Hp5 Hdone. apply HQ; [by do 3 (etransitivity; [done|])|]. intros Hok db Hdb.
      destruct (Hdone Hok db Hdb) as [stdout Hran]. exists primary, stdout. split; [|done].
      eapply (grows (P := fun h => primary_seen h primary)); [done|]. by etransitivity. }
  rewrite wps_bind. destruct r as [pod|e]; [|by apply Hrest].
  by apply dropSubscriptions_wps.
Qed.

Lemma deleteJob_wps h replica (Q : history -> result unit -> Prop) :
  (forall k h', is_named (logicalReplicaJobName cr replica) k -> h `prefix_of` h' -> replica_call h' (Delete KJob k Foreground)) ->
  (forall h' r, h `prefix_of` h' -> Q h' r) ->
  wps replica_call h (deleteLogicalReplicaJob cr replica) Q.
Proof.
  intros HG HQ. unfold deleteLogicalReplicaJob. apply named_wps; [intros _; by apply HQ|]. intros n Hn.
  apply ignoreNotFound_wps. split; [apply HG; [by apply is_named_at|done]|]. intros r. by apply HQ, prefix_app_r.
Qed.

Lemma deleteObject_wps h k name (Q : history -> result unit -> Prop) :
  (forall k', is_named name k' -> replica_call h (Delete k k' NoOptions)) ->
  (forall h' r, h `prefix_of` h' -> Q h' r) ->
  wps replica_call h (deleteObject cr k name) Q.
Proof.
  intros HG HQ. unfold deleteObject. apply named_wps; [intros _; by apply HQ|]. intros n Hn.
  apply ignoreNotFound_wps. split; [by apply HG, is_named_at|]. intros r. by apply HQ, prefix_app_r.
Qed.

(** *** Replicas that left the specification *)
Lemma deleteReplica_wps h s (Q : history -> result unit -> Prop) :
  s ∈ recorded -> wanted cr (ls_Name s) = false ->
  (forall h' r, h `prefix_of` h' -> (r = Ok tt -> slots_dropped h' s) -> Q h' r) ->
  wps replica_call h (deleteLogicalReplica errorText cr (ls_Name s) (ls_Databases s)) Q.
Proof.
  intros Hin Hw HQ. unfold deleteLogicalReplica. rewrite wps_bindr. apply dropObjects_wps; [by left|].
  intros h1 [[]|e] Hp1 Hd; [|by apply HQ]. specialize (Hd eq_refl).
  assert (Hrem : forall h', h1 `prefix_of` h' -> removed h' s).
  { intros h' Hp. split_and!; [done..|]. by eapply (grows (P := fun h => slots_dropped h s)). }
  rewrite wps_bindr. apply deleteJob_wps.
  { intros k h' Hk Hp. split; [done|]. left. exists s. split; [by apply Hrem|done]. }
  intros h2 [[]|e] Hp2; [|by apply HQ; [by etransitivity|]]. rewrite wps_bindr.
  assert (Hp12 : h1 `prefix_of` h2) by done. apply deleteObject_wps.
  { intros k Hk. split; [done|]. exists s. split; [by apply Hrem|done]. }
  intros h3 [[]|e] Hp3; [|by apply HQ; [do 2 (etransitivity; [done|]); done|]]. rewrite wps_bindr.
  assert (Hp13 : h1 `prefix_of` h3) by by etransitivity. apply deleteObject_wps.
  { intros k Hk. split; [done|]. exists s. split; [by apply Hrem|done]. }
  intros h4 [[]|e] Hp4; [|by apply HQ; [do 2 (etransitivity; [done|]); done|]]. rewrite wps_bindr.
  assert (Hp14 : h1 `prefix_of` h4) by by etransitivity. apply deleteObject_wps.
  { intros k Hk. split; [done|]. exists s. split; [by apply Hrem|done]. }
  intros h5 [[]|e] Hp5; [|by apply HQ; [do 2 (etransitivity; [done|]); done|]].
  assert (Hp15 : h1 `prefix_of` h5) by by etransitivity. apply deleteObject_wps.
  { intros k Hk. split; [done|]. exists s. split; [done|]. left. by apply Hrem. }
  intros h6 r Hp6. apply HQ; [do 2 (etransitivity; [done|]); done|]. intros _.
  eapply (grows (P := fun h => slots_dropped h s)); [done|]. by etransitivity.
Qed.

(** A status that is not kept: the replica is wanted, or its slots are gone. *)
Definition accounted (h : history) (deferred : list Status) (s : Status) : Prop :=
  wanted cr (ls_Name s) = true \/ slots_dropped h s \/ heldStatus s ∈ deferred.

Lemma cleanup_wps h l (Q : history -> result (list Status) -> Prop) :
  l ⊆ recorded ->
  (forall h' r, h `prefix_of` h' ->
     match r with
     | Ok deferred => Forall (accounted h' deferred) l /\
                      Forall (fun d => exists s, s ∈ l /\ d = heldStatus s) deferred
     | Err _ => True
     end -> Q h' r) ->
  wps replica_call h (cleanupEach errorText cr l) Q.
Proof.
  revert h Q. induction l as [|s l IH]; intros h Q Hl HQ; [apply HQ; [done|by split; constructor]|]. cbn [cleanupEach].
  assert (Hs : s ∈ recorded) by (apply Hl; by left). assert (Hl' : l ⊆ recorded) by (intros x Hx; apply Hl; by right).
  assert (Hweak : forall deferred, Forall (fun d => exists s, s ∈ l /\ d = heldStatus s) deferred ->
      Forall (fun d => exists s', s' ∈ s :: l /\ d = heldStatus s') deferred).
  { intros deferred Hd. eapply Forall_impl; [exact Hd|]. intros d (x & Hx & ->). exists x. split; [by right|done]. }
  destruct (wanted cr (ls_Name s)) eqn:Ew.
  { apply IH; [done|]. intros h1 [deferred|e] Hp; [|intros _; by apply HQ]. intros [Ha Hd]. apply HQ; [done|].
    split; [|by apply Hweak]. constructor; [by left|done]. }
  rewrite wps_bind. apply deleteReplica_wps; [done..|]. intros h1 [[]|e] Hp1 Hd.
  - apply IH; [done|]. intros h2 [deferred|e] Hp2; [|intros _; apply HQ; [by etransitivity|done]].
    intros [Ha Hd']. apply HQ; [by etransitivity|]. split; [|by apply Hweak]. constructor; [|done]. right. left.
    eapply (grows (P := fun h => slots_dropped h s)); [by apply Hd|done].
  - destruct (Is e _); [|by apply HQ]. rewrite wps_bindr. apply IH; [done|].
    intros h2 [deferred|e2] Hp2; [|intros _; apply HQ; [by etransitivity|done]]. intros [Ha Hd']. apply HQ; [by etransitivity|].
    split; constructor.
    + right. right. by left.
    + eapply Forall_impl; [exact Ha|]. intros x [Hx|[Hx|Hx]]; [by left|right; by left|right; right; by right].
    + exists s. split; [by left|done].
    + by apply Hweak.
Qed.

(** *** Suspension *)
Lemma discard_wps h s (Q : history -> result unit -> Prop) :
  s ∈ recorded -> ls_SeededAt s = None -> (forall h' r, h `prefix_of` h' -> Q h' r) ->
  wps replica_call h (discardLogicalReplicaBootstrap cr (ls_Name s)) Q.
Proof.
  intros Hin Hseed HQ. unfold discardLogicalReplicaBootstrap. apply named_wps; [intros _; by apply HQ|]. intros n Hn.
  apply wps_call_bind. split; [done|]. intros [job|e]; [|by apply HQ, prefix_app_r].
  set (h1 := h ++ _). assert (Hp1 : h `prefix_of` h1) by by apply prefix_app_r.
  assert (Hd : forall h', h1 `prefix_of` h' -> discarded h' s (at_ cr n)).
  { intros h' Hp. split_and!; [done|done|by apply is_named_at|]. exists job.
    eapply (grows (P := fun h => read h KJob _ job)); [apply elem_of_snoc|done]. }
  rewrite wps_bindr. apply deleteJob_wps.
  { intros k h' [Hk1 Hk2] Hp. split; [done|]. right. left. exists s. rewrite Hn in Hk2. injection Hk2 as Hk2.
    replace k with (at_ cr n) by (destruct k; simpl in *; by subst). by apply Hd. }
  intros h2 [[]|e] Hp2; [|by apply HQ; etransitivity]. rewrite wps_bindr. unfold logicalReplicaStatefulSet.
  apply named_wps; [intros _; by apply HQ; etransitivity|]. intros sn Hsn. rewrite wps_bind. apply wps_call. split; [done|].
  intros [sts|e]; [by apply HQ; apply prefix_app_r; etransitivity|]. destruct (IsNotFound e) eqn:Ee; cbn [wps];
    [|by apply HQ; apply prefix_app_r; etransitivity].
  apply named_wps; [intros _; by apply HQ; apply prefix_app_r; etransitivity|]. intros pvc Hpvc.
  apply ignoreNotFound_wps. split.
  - split; [done|]. exists s. split; [by apply is_named_at|]. right. exists (at_ cr n), (at_ cr sn).
    split_and!; [apply Hd; by apply prefix_app_r|by apply is_named_at|by apply absent_last].
  - intros r. apply HQ. do 2 apply prefix_app_r. by etransitivity.
Qed.

Lemma suspendEach_wps h s l (Q : history -> result (list Status) -> Prop) :
  l ⊆ recorded -> (forall h' r, h `prefix_of` h' -> Q h' r) ->
  wps replica_call h (suspendEach cr s l) Q.
Proof.
  revert h Q. induction l as [|x l IH]; intros h Q Hl HQ; [by apply HQ|]. cbn [suspendEach]. rewrite wps_bindr.
  assert (Hin : x ∈ recorded) by (apply Hl; by left).
  assert (Hrest : forall h1 (r : result Status), h `prefix_of` h1 -> match r with
      | Ok a => wps replica_call h1 (do! statuses := suspendEach cr s l in Ret (Ok (a :: statuses))) Q
      | Err e => Q h1 (Err (id e)) end).
  { intros h1 [a|e] Hp; [|by apply HQ]. rewrite wps_bindr. apply IH; [intros y Hy; apply Hl; by right|].
    intros h2 [b|e] Hp2; apply HQ; by etransitivity. }
  unfold suspendLogicalReplica. rewrite wps_bindr. apply scale_wps.
  { left. apply list_elem_of_fmap. by exists x. }
  intros h1 [[]|e] Hp1; [|by apply (Hrest h1 (Err _))]. destruct (ls_SeededAt x) as [t|] eqn:Et.
  - rewrite wps_bind. unfold suspendedStatus. cbv zeta. case_match; [|by apply (Hrest h1 (Ok _))].
    apply wps_call_bind. split; [done|]. intros now. apply (Hrest _ (Ok _)). by apply prefix_app_r.
  - rewrite wps_bindr. apply discard_wps; [done..|]. intros h2 [[]|e] Hp2.
    + apply (Hrest h2 (Ok _)). by etransitivity.
    + apply (Hrest h2 (Err _)). by etransitivity.
Qed.

(** *** The primary *)
Lemma observe_wps h (Q : history -> Condition -> Prop) :
  (forall h' c, h `prefix_of` h' -> cond_Type c = ConditionReadyForLogicalReplication ->
     (cond_Status c = ConditionTrue -> primary_ready h') -> Q h' c) ->
  wps replica_call h (observePrimaryReadiness errorText cr) Q.
Proof.
  intros HQ. unfold observePrimaryReadiness. rewrite wps_bind. apply GetPrimaryPod_wps; [done|].
  intros h1 [primary|e] Hp1 Hv; [|by apply HQ]. apply wps_call_bind. split; [done|]. intros r. cbv zeta.
  destruct r as [secret|e]; [|by apply HQ; [apply prefix_app_r|..]].
  set (h2 := h1 ++ _). assert (Hp2 : h1 `prefix_of` h2) by by apply prefix_app_r.
  destruct (nonempty (dataOf secret "password")) eqn:Epw; cbn [negb]; [|by apply HQ; [etransitivity|..]].
  destruct (PodRequiresRestart primary) eqn:Erst; [by apply HQ; [etransitivity|..]|].
  rewrite wps_bind. apply statement_wps.
  { left. split_and!; [by eapply (grows (P := fun h => primary_seen h primary))|done|by left]. }
  intros h3 [stdout|e] Hp3 Hran; cbn [wps]; [|by apply HQ; [do 2 (etransitivity; [done|])|..]].
  destruct (ParsePrimaryReadinessReasons stdout) as [|reason reasons] eqn:Epr; apply HQ; try done;
    try (do 2 (etransitivity; [done|]); done).
  intros _. exists primary, secret, stdout. split_and!; [| |done..].
  - eapply (grows (P := fun h => primary_seen h primary)); [done|]. by etransitivity.
  - eapply (grows (P := fun h => read h KSecret _ secret)); [apply elem_of_snoc|done].
Qed.

Lemma checkLimit_ok limit field : checkLimit limit field = None ->
  exists free, ParseInt (TrimSpace field) = Some free /\ (limit.2 <= free)%Z.
Proof.
  unfold checkLimit. destruct limit as [[noun parameter] needed]. destruct (ParseInt _) as [free|]; [|done].
  case_bool_decide; [done|]. intros _. exists free. split; [done|]. cbn. lia.
Qed.

Lemma capacity_wps h slots senders (Q : history -> option error -> Prop) :
  (forall h' r, h `prefix_of` h' -> (r = None -> capacity_seen h' (slots, senders)) -> Q h' r) ->
  wps replica_call h (checkPrimaryCapacity errorText cr slots senders) Q.
Proof.
  intros HQ. unfold checkPrimaryCapacity, execOnPrimary. rewrite wps_bind, wps_bindr. apply primaryPod_wps; [done|].
  intros h1 [primary|e] Hp1 Hv; [|by apply HQ]. apply statement_wps.
  { left. split_and!; [done..|]. right. by left. }
  intros h2 [stdout|e] Hp2 Hran; cbn [wps]; [|by apply HQ; [etransitivity|]]. apply HQ; [by etransitivity|].
  unfold checkLimits. destruct (Split stdout "|"%char) as [|a [|b [|]]] eqn:Es; try done.
  destruct (checkLimit _ a) eqn:Ea; [done|]. intros Hb.
  apply checkLimit_ok in Ea as (x & Hx & ?), Hb as (y & Hy & ?).
  exists primary, stdout, a, b, x, y. split_and!; try done. by eapply (grows (P := fun h => primary_seen h primary)).
Qed.

(** *** Objects that are created or updated *)
Lemma controlled_inv {k} (o o' : obj k) : controlled cr o = Ok o' ->
  o' = onMeta (fun _ => meta o <| om_Controller := Some (om_UID (c_Meta cr)) |>) o.
Proof. unfold controlled. destruct (SetControllerReference _ _) as [m|] eqn:E; [|done]. apply SetControllerReference_spec in E. intros [= <-]. by subst m. Qed.

Lemma CreateOrUpdate_written h k (o : obj k) f (Q : history -> result unit -> Prop) :
  (forall x x', f x = Ok x' -> objectKey (meta x') = objectKey (meta x)) ->
  (forall h' x x', h `prefix_of` h' -> f x = Ok x' -> written h' (objectKey (meta o)) x' ->
     replica_call h' (Create k x') /\ replica_call h' (Update k x')) ->
  (forall h' r, h `prefix_of` h' -> Q h' r) ->
  wps replica_call h (CreateOrUpdate k o f) Q.
Proof.
  intros Hf HG HQ. apply CreateOrUpdate_wps; [done|done|]. intros r. cbv zeta.
  assert (Hp : h `prefix_of` h ++ [Ev (Get k (objectKey (meta o)) : op) r]) by by apply prefix_app_r.
  destruct r as [cur|e].
  - destruct (f cur) as [o'|] eqn:E; [|by apply HQ]. split; [by apply HQ|]. split; [|by intros r2; apply HQ, prefix_app_r].
    eapply HG; [done|exact E|]. right. exists cur. split; [apply elem_of_snoc|by apply Hf].
  - destruct (IsNotFound e); [|by apply HQ]. destruct (f o) as [o'|] eqn:E; [|by apply HQ].
    split; [|by intros r2; apply HQ, prefix_app_r]. eapply HG; [done|exact E|]. left. by apply Hf.
Qed.

Lemma reconcilePVC_wps h spec (Q : history -> result bool -> Prop) : spec ∈ specs ->
  (forall h' r, h `prefix_of` h' ->
     (r = Ok true -> exists name, logicalReplicaPVCName cr (lr_Name spec) = Some name /\ volume_seen h' name) -> Q h' r) ->
  wps replica_call h (reconcileLogicalReplicaPVC cr spec) Q.
Proof.
  intros Hin HQ. unfold reconcileLogicalReplicaPVC. apply named_wps; [intros _; by apply HQ|]. intros name Hn.
  apply wps_call_bind. split; [done|]. intros r.
  set (h1 := h ++ _). assert (Hp1 : h `prefix_of` h1) by by apply prefix_app_r.
  destruct (claimUsable r) as [[]|e] eqn:Eu; [|by apply HQ..].
  assert (Hv : volume_seen h1 name).
  { unfold claimUsable in Eu. destruct r as [p|e].
    - right. exists p. split; [apply elem_of_snoc|]. injection Eu as Eu. by apply negb_true_iff.
    - left. destruct (IsNotFound e) eqn:Ee; [|done]. by apply absent_last. }
  rewrite wps_bindr. apply CreateOrUpdate_written.
  - intros x x' Hx. apply controlled_inv in Hx. subst x'. by case_bool_decide.
  - intros h2 x x' Hp2 _ Hw. assert (Hg : replica_call h2 (Create KPVC x')); [|by split].
    exists spec, name. split_and!; [done|done|exact Hw|]. by eapply (grows (P := fun h => volume_seen h name)).
  - intros h2 [[]|e] Hp2; apply HQ; [by etransitivity| |by etransitivity|done].
    intros _. exists name. split; [done|]. by eapply (grows (P := fun h => volume_seen h name)).
Qed.

Lemma reconcileConfigMap_wps h spec status (Q : history -> result unit -> Prop) : spec ∈ specs ->
  (forall h' r, h `prefix_of` h' ->
     (r = Ok tt -> exists name, logicalReplicaConfigMapName cr (lr_Name spec) = Some name) -> Q h' r) ->
  wps replica_call h (reconcileLogicalReplicaConfigMap cr crunchyCR spec status) Q.
Proof.
  intros Hin HQ. unfold reconcileLogicalReplicaConfigMap. apply portOf_wps; [intros _; by apply HQ|]. intros port Hport.
  apply named_wps; [intros _; by apply HQ|]. intros name Hn. apply wrapped_wps. apply CreateOrUpdate_written.
  - intros x x' Hx. apply (controlled_inv (k := KConfigMap)) in Hx. by subst x'.
  - intros h2 x x' Hp2 _ Hw. assert (Hg : replica_call h2 (Create KConfigMap x')); [|by split].
    by exists spec, name.
  - intros h2 r Hp2. apply HQ; [done|]. intros _. by exists name.
Qed.

Lemma reconcileStatefulSet_wps h spec status (Q : history -> result unit -> Prop) : may_run h spec ->
  ls_Databases status = ls_Databases (statusOf spec) ->
  (forall h' r, h `prefix_of` h' -> Q h' r) ->
  wps replica_call h (reconcileLogicalReplicaStatefulSet getenv cr crunchyCR spec status) Q.
Proof.
  intros Hr Hdb HQ. unfold reconcileLogicalReplicaStatefulSet. apply named_wps; [intros _; by apply HQ|]. intros name Hn.
  apply portOf_wps; [intros _; by apply HQ|]. intros port Hport. apply named_wps; [intros _; by apply HQ|]. intros pvc Hpvc.
  apply named_wps; [intros _; by apply HQ|]. intros cm Hcm. apply wrapped_wps. apply CreateOrUpdate_written.
  - intros x x' Hx. apply (controlled_inv (k := KSts)) in Hx. by subst x'.
  - intros h2 x x' Hp2 Hx Hw. assert (Hg : replica_call h2 (Create KSts x')); [|by split].
    apply (controlled_inv (k := KSts)) in Hx.
    exists spec, name. split_and!; [done|exact Hw|by subst x'|by eapply (grows (P := fun h => may_run h spec))|].
    exists port. split; [done|]. subst x'. cbn. unfold replicaPod, replicaContainer. rewrite Hdb. by destruct (lr_PriorityClassName spec).
  - intros h2 r Hp2. by apply HQ.
Qed.

Lemma reconcileService_wps h spec (Q : history -> result unit -> Prop) : may_run h spec ->
  (forall h' r, h `prefix_of` h' -> Q h' r) ->
  wps replica_call h (reconcileLogicalReplicaService cr spec) Q.
Proof.
  intros Hr HQ. unfold reconcileLogicalReplicaService. apply named_wps; [intros _; by apply HQ|]. intros name Hn.
  apply portOf_wps; [intros _; by apply HQ|]. intros port Hport. apply wrapped_wps. apply CreateOrUpdate_written.
  - intros x x' Hx. apply (controlled_inv (k := KService)) in Hx. subst x'. by destruct (lr_Expose spec).
  - intros h2 x x' Hp2 _ Hw. assert (Hg : replica_call h2 (Create KService x')); [|by split].
    exists spec, name. split_and!; [done|exact Hw|]. by eapply (grows (P := fun h => may_run h spec)).
  - intros h2 r Hp2. by apply HQ.
Qed.

(** ** How a status evolves *)

(** From a recorded status to the next one: times and the frozen databases
    stay; a replica is seeded only when it may run; only an upgrade invalidates
    here, and it drops the slots before it forgets the databases. *)
Definition evolves (h : history) (spec : Replica) (s s' : Status) : Prop :=
  ls_Name s' = ls_Name s /\
  (ls_SeededAt s <> None -> ls_SeededAt s' = ls_SeededAt s /\ ls_PostgresVersion s' = ls_PostgresVersion s) /\
  (ls_SeededAt s = None -> ls_SeededAt s' <> None -> may_run h spec /\ ls_PostgresVersion s' = c_PostgresVersion cr) /\
  (ls_InvalidatedAt s <> None -> ls_InvalidatedAt s' = ls_InvalidatedAt s) /\
  (ls_InvalidatedAt s = None -> ls_InvalidatedAt s' <> None -> upgradedSinceSeeded cr s = true /\ ls_SeededAt s <> None) /\
  (ls_Databases s <> [] -> ls_Databases s' <> ls_Databases s ->
     ls_Databases s' = [] /\ upgradedSinceSeeded cr s = true /\ ls_InvalidatedAt s' <> None /\
     exists s0, ls_Name s0 = lr_Name spec /\ ls_Databases s0 = ls_Databases s /\ slots_dropped h s0).

(** What is seen of a replica that is ready: its slots, and each of its
    subscriptions enabled and running *)
Definition healthy (h : history) (replica : string) (databases : list string) : Prop :=
  (exists pod stdout present, primary_seen h pod /\ ran h pod "" (countSlotsSQL replica databases) stdout /\
     ParseInt (TrimSpace stdout) = Some present /\ (Z.of_nat (length databases) <= present)%Z) /\
  forall db, db ∈ databases -> exists pod stdout, serving_seen h replica pod /\
    ran h pod db (subscriptionHealthSQL replica db) stdout /\ parseSubscriptionHealth stdout = Ok (true, true).

(** The outcome for a replica; [status] is its recorded status. *)
Definition replica_outcome (spec : Replica) (h : history) (r : Status * option error) : Prop :=
  let '(s', e) := r in
  evolves h spec (statusOf spec) s' /\
  (e = None -> ls_State s' = ReplicaReady ->
     ls_InvalidatedAt s' = None /\ ls_SeededAt s' <> None /\ ls_Databases s' <> [] /\
     healthy h (lr_Name spec) (ls_Databases s')).

(** A change of the state alone *)
Definition same_data (s s' : Status) : Prop :=
  ls_Name s' = ls_Name s /\ ls_Databases s' = ls_Databases s /\ ls_SeededAt s' = ls_SeededAt s /\
  ls_PostgresVersion s' = ls_PostgresVersion s /\ ls_InvalidatedAt s' = ls_InvalidatedAt s.

Lemma evolves_same h spec s s' : same_data s s' -> evolves h spec s s'.
Proof. intros (Hn & Hd & Hs & Hv & Hi). unfold evolves. rewrite Hd, Hs, Hv, Hi. split_and!; done. Qed.

Lemma outcome_same h spec s' e : same_data (statusOf spec) s' -> (e = None -> ls_State s' <> ReplicaReady) ->
  replica_outcome spec h (s', e).
Proof. intros Hs He. split; [by apply evolves_same|]. intros Hn Hr. by destruct (He Hn). Qed.

(** A replica that runs: its status is that of the record, or newly seeded *)
Definition running_status (h : history) (spec : Replica) (s : Status) : Prop :=
  may_run h spec /\ ls_Name s = ls_Name (statusOf spec) /\ ls_Databases s = ls_Databases (statusOf spec) /\
  ls_InvalidatedAt s = None /\ ls_SeededAt s <> None /\
  (ls_SeededAt (statusOf spec) <> None -> ls_SeededAt s = ls_SeededAt (statusOf spec) /\
     ls_PostgresVersion s = ls_PostgresVersion (statusOf spec)) /\
  (ls_SeededAt (statusOf spec) = None -> ls_PostgresVersion s = c_PostgresVersion cr).

#[local] Instance grows_running spec s : Grows (fun h => running_status h spec s).
Proof. unfold running_status. apply _. Qed.

Lemma running_outcome h spec s s' e : running_status h spec s -> same_data s s' ->
  (e = None -> ls_State s' = ReplicaReady -> healthy h (lr_Name spec) (ls_Databases s')) ->
  replica_outcome spec h (s', e).
Proof.
  intros (Hr & Hn & Hd & Hi & Hs & Hseed & Hnew) (Hn' & Hd' & Hs' & Hv' & Hi') Hh.
  pose proof Hr as (_ & Hinv & Hne & _). split.
  - unfold evolves. rewrite Hn', Hd', Hs', Hv', Hi', Hn, Hd, Hi, Hinv. split_and!; try done. intros Hsn _. by split; [|apply Hnew].
  - intros He Hst. rewrite Hi', Hs'. split_and!; [done|done|by rewrite Hd', Hd|by apply Hh].
Qed.

Lemma same_data_refl s : same_data s s.
Proof. done. Qed.

Lemma checkSubscriptions_wps h pod spec s l done_ :
  serving_seen h (lr_Name spec) pod -> running_status h spec s -> ls_Databases s = done_ ++ l ->
  (exists pod stdout present, primary_seen h pod /\ ran h pod "" (countSlotsSQL (lr_Name spec) (ls_Databases s)) stdout /\
     ParseInt (TrimSpace stdout) = Some present /\ (Z.of_nat (length (ls_Databases s)) <= present)%Z) ->
  (forall db, db ∈ done_ -> exists pod stdout, serving_seen h (lr_Name spec) pod /\
    ran h pod db (subscriptionHealthSQL (lr_Name spec) db) stdout /\ parseSubscriptionHealth stdout = Ok (true, true)) ->
  wps replica_call h (checkSubscriptions pod (lr_Name spec) l s) (replica_outcome spec).
Proof.
  revert h done_. induction l as [|db l IH]; intros h done_ Hv Hr Hl Hslots Hdone; cbn [checkSubscriptions].
  - rewrite app_nil_r in Hl. apply (running_outcome _ _ s); [done|done|]. intros _ _. split; [done|]. cbn. rewrite Hl. exact Hdone.
  - cbv zeta. rewrite onStatus_wps. apply statement_wps; [right; left; by exists (lr_Name spec)|].
    intros h1 r Hp Hran.
    assert (Hr1 : running_status h1 spec s) by by eapply (grows (P := fun h => running_status h spec s)).
    destruct r as [stdout|e]; [|by apply (running_outcome _ _ s)].
    destruct (parseSubscriptionHealth stdout) as [[[|] [|]]|e] eqn:Ep; try by apply (running_outcome _ _ s).
    apply (IH _ (done_ ++ [db])); [|done|by rewrite <- app_assoc| |].
    + by eapply (grows (P := fun h => serving_seen h _ pod)).
    + destruct Hslots as (p & o & n & Hs1 & Hs2 & Hs3). exists p, o, n. split_and!; [| |by destruct Hs3..].
      * by eapply (grows (P := fun h => primary_seen h p)).
      * by eapply (grows (P := fun h => ran h _ _ _ _)).
    + intros db' [Hin|Hin%list_elem_of_singleton]%elem_of_app.
      * destruct (Hdone db' Hin) as (p & o & Hs1 & Hs2 & Hs3). exists p, o. split_and!; [| |done].
        -- by eapply (grows (P := fun h => serving_seen h _ p)).
        -- by eapply (grows (P := fun h => ran h _ _ _ _)).
      * subst db'. exists pod, stdout. split_and!; [by eapply (grows (P := fun h => serving_seen h _ pod))|done|done].
Qed.

Lemma health_wps h spec s : running_status h spec s ->
  wps replica_call h (checkLogicalReplicaHealth errorText cr spec s) (replica_outcome spec).
Proof.
  intros Hr. unfold checkLogicalReplicaHealth. cbv zeta. rewrite onStatus_wps. unfold execOnPrimary. rewrite wps_bindr.
  apply primaryPod_wps; [done|]. intros h1 [primary|e] Hp1 Hv.
  2: { apply (running_outcome _ _ s); [by eapply (grows (P := fun h => running_status h spec s))|done|done]. }
  apply statement_wps.
  { left. split_and!; [done..|]. right. right. right. by eexists _, _. }
  intros h2 r Hp2 Hran.
  assert (Hr2 : running_status h2 spec s) by (eapply (grows (P := fun h => running_status h spec s)); [done|by etransitivity]).
  destruct r as [stdout|e]; [|by apply (running_outcome _ _ s)].
  destruct (ParseInt (TrimSpace stdout)) as [present|] eqn:Epi; [|by apply (running_outcome _ _ s)].
  case_bool_decide as Elt; [by apply (running_outcome _ _ s)|].
  rewrite wps_bind. apply logicalReplicaPod_wps; [done|]. intros h3 r3 Hp3 Hs.
  assert (Hr3 : running_status h3 spec s) by by eapply (grows (P := fun h => running_status h spec s)).
  destruct r3 as [pod|e]; [|by apply (running_outcome _ _ s)].
  apply (checkSubscriptions_wps _ _ _ _ _ []); [done|done|done| |by intros db ?%elem_of_nil].
  exists primary, stdout, present. split_and!; [| |done|lia].
  - eapply (grows (P := fun h => primary_seen h primary)); [done|]. by etransitivity.
  - by eapply (grows (P := fun h => ran h _ _ _ _)).
Qed.

Lemma runReplica_wps h spec s : running_status h spec s ->
  wps replica_call h (runReplica errorText getenv cr crunchyCR spec s) (replica_outcome spec).
Proof.
  intros Hr. pose proof Hr as (Hm & _ & Hd & _). unfold runReplica. rewrite onStatus_wps.
  apply reconcileStatefulSet_wps; [done|done|]. intros h1 r1 Hp1.
  assert (Hr1 : running_status h1 spec s) by by eapply (grows (P := fun h => running_status h spec s)).
  destruct r1 as [[]|e]; [|by apply (running_outcome _ _ s)].
  rewrite onStatus_wps. apply reconcileService_wps; [by destruct Hr1|]. intros h2 r2 Hp2.
  assert (Hr2 : running_status h2 spec s) by by eapply (grows (P := fun h => running_status h spec s)).
  destruct r2 as [[]|e]; [|by apply (running_outcome _ _ s)]. by apply health_wps.
Qed.

(** *** The bootstrap *)
Lemma generate_wps h spec status (Q : history -> result Job -> Prop) :
  (forall h' r, h `prefix_of` h' ->
     match r with
     | Ok job =>
         exists port seed initImage name pvc configMap,
           c_Port cr = Some port /\ logicalReplicaSeedCommand crunchyCR spec dataDir = Ok seed /\
           logicalReplicaJobName cr (lr_Name spec) = Some name /\ logicalReplicaPVCName cr (lr_Name spec) = Some pvc /\
           logicalReplicaConfigMapName cr (lr_Name spec) = Some configMap /\
           objectKey (j_Meta job) = at_ cr name /\ om_Controller (j_Meta job) = Some (om_UID (c_Meta cr)) /\
           j_BackoffLimit job = Some 0%Z /\
           j_Pod job = Some (bootstrapPod getenv cr crunchyCR spec port dataDir
             (bootstrapScript cr crunchyCR spec status port seed) initImage pvc configMap)
     | Err _ => True
     end -> Q h' r) ->
  wps replica_call h (generateLogicalReplicaBootstrapJob getenv operatorPod cr crunchyCR spec status) Q.
Proof.
  intros HQ. unfold generateLogicalReplicaBootstrapJob. cbv zeta. fold dataDir.
  destruct (logicalReplicaSeedCommand crunchyCR spec dataDir) as [seed|e] eqn:Es; [|by apply HQ].
  apply portOf_wps; [intros _; by apply HQ|]. intros port Hport. rewrite wps_bindr.
  apply wps_InitImage; [done|]. intros h1 [image|e] Hp1; [|by apply HQ].
  apply named_wps; [intros _; by apply HQ|]. intros name Hn. apply named_wps; [intros _; by apply HQ|]. intros pvc Hpvc.
  apply named_wps; [intros _; by apply HQ|]. intros cm Hcm. cbn [wps]. apply HQ; [done|].
  destruct (controlled cr _) as [job|] eqn:Ec; [|done]. apply (controlled_inv (k := KJob)) in Ec. subst job.
  by exists port, seed, image, name, pvc, cm.
Qed.

(** What a bootstrap answers: it goes on with a replica that may run. *)
Definition bootstrap_outcome (spec : Replica) (s : Status) (h : history) (r : Status * result bool) : Prop :=
  match r with
  | (s', Ok true) => may_run h spec /\ (s' = s \/ exists t, s' = s <| ls_SeededAt := Some t |>)
  | (s', Ok false) => same_data s s' /\ ls_State s' <> ReplicaReady
  | (s', Err _) => same_data s s'
  end.

Lemma start_wps h spec name stsName pvc (Q : history -> Status * result bool -> Prop) :
  unseeded spec -> logicalReplicaJobName cr (lr_Name spec) = Some name ->
  logicalReplicaPVCName cr (lr_Name spec) = Some pvc -> logicalReplicaObjectName cr (lr_Name spec) = Some stsName ->
  absent h KJob (at_ cr name) -> absent h KSts (at_ cr stsName) -> volume_seen h pvc -> primary_ready h ->
  (forall h' r, h `prefix_of` h' -> bootstrap_outcome spec (statusOf spec) h' r -> Q h' r) ->
  wps replica_call h (startBootstrap errorText getenv operatorPod cr crunchyCR spec (statusOf spec)) Q.
Proof.
  intros Hu Hname Hpvc Hsts Habs Habs' Hvol Hready HQ. unfold startBootstrap.
  destruct (logicalReplicaCapacity spec _) as [slots senders] eqn:Ecap. rewrite wps_bind. apply capacity_wps.
  intros h1 [e|] Hp1 Hcap; [by apply HQ|]. specialize (Hcap eq_refl). rewrite wps_bind. apply generate_wps.
  intros h2 [job|e] Hp2 Hjob; [|by apply HQ; [by etransitivity|]]. assert (Hp : h `prefix_of` h2) by by etransitivity.
  apply wps_call_bind. split.
  - destruct Hjob as (port & seed & image & name' & pvc' & cm & Hport & Hseed & Hn & Hpv & Hcm & Hk & Hc & Hb & Hpod).
    rewrite Hname in Hn. injection Hn as <-. rewrite Hpvc in Hpv. injection Hpv as <-.
    exists spec, port, seed, image, name, pvc, cm, stsName. rewrite Ecap. split_and!; try done.
    + by eapply (grows (P := fun h => absent h KJob _)).
    + by eapply (grows (P := fun h => absent h KSts _)).
    + by eapply (grows (P := fun h => volume_seen h pvc)).
    + by eapply (grows (P := primary_ready)).
    + by eapply (grows (P := fun h => capacity_seen h _)).
  - intros [job'|e]; by apply HQ; [by apply prefix_app_r|].
Qed.

Lemma bootstrap_wps h spec pvc (Q : history -> Status * result bool -> Prop) :
  unseeded spec -> logicalReplicaPVCName cr (lr_Name spec) = Some pvc -> volume_seen h pvc -> primary_ready h ->
  (forall h' r, h `prefix_of` h' -> bootstrap_outcome spec (statusOf spec) h' r -> Q h' r) ->
  wps replica_call h (reconcileLogicalReplicaBootstrap errorText getenv operatorPod cr crunchyCR spec (statusOf spec)) Q.
Proof.
  intros Hu Hpvc Hvol Hready HQ. pose proof Hu as (Hin & Hs & Hi & Hd). unfold reconcileLogicalReplicaBootstrap.
  destruct (logicalReplicaJobName cr (lr_Name spec)) as [name|] eqn:Hname; [|by apply HQ].
  apply wps_call_bind. split; [done|]. intros r. set (h1 := h ++ _). assert (Hp1 : h `prefix_of` h1) by by apply prefix_app_r.
  destruct r as [job|e].
  - assert (Hjob : read h1 KJob (at_ cr name) job) by apply elem_of_snoc.
    destruct (JobCompleted job) eqn:Ec; [|destruct (JobFailed job); apply HQ; [done|by split|done|by split]].
    rewrite wps_bind. apply deleteJob_wps.
    { intros k h' [Hk1 Hk2] Hp. split; [done|]. right. right. exists spec, job. rewrite Hname in Hk2. injection Hk2 as Hk2.
      replace k with (at_ cr name) by (destruct k; simpl in *; by subst). split_and!; [done|by apply is_named_at| |done].
      by eapply (grows (P := fun h => read h KJob _ job)). }
    intros h2 [[]|e] Hp2; apply HQ; try (by etransitivity); [|done]. split; [|by left].
    split_and!; [done..|]. right. left. exists name, job. split_and!; [done| |done].
    by eapply (grows (P := fun h => read h KJob _ job)).
  - destruct (IsNotFound e) eqn:Ee; cbn [negb]; [|by apply HQ]. rewrite wps_bind. unfold logicalReplicaStatefulSet.
    apply named_wps; [intros _; by apply HQ|]. intros sn Hsn. apply wps_call_bind. split; [done|]. intros r.
    set (h2 := h1 ++ _). assert (Hp2 : h1 `prefix_of` h2) by by apply prefix_app_r. assert (Hp : h `prefix_of` h2) by by etransitivity.
    destruct r as [sts|e2]; cbn [wps].
    + apply HQ; [done|]. split; [|right; by eexists]. split_and!; [done..|]. right. right. exists sn, sts.
      split; [done|apply elem_of_snoc].
    + destruct (IsNotFound e2) eqn:Ee2; [|by apply HQ]. apply (start_wps _ _ name sn pvc); try done.
      * apply (grows (P := fun h => absent h KJob (at_ cr name)) h1 h2); [by apply absent_last|done].
      * by apply absent_last.
      * by eapply (grows (P := fun h => volume_seen h pvc)).
      * by eapply (grows (P := primary_ready)).
      * intros h3 r Hp3. apply HQ. by etransitivity.
Qed.

(** *** One replica *)
Lemma statusFor_name replica : ls_Name (logicalReplicaStatusFor cr replica) = replica.
Proof.
  unfold logicalReplicaStatusFor, recordedStatus. destruct (List.find _ _) as [s|] eqn:E; [|done].
  apply List.find_some in E as [_ E]. cbn. by bool_to_prop.
Qed.

Lemma seed_wps h spec pvc : spec ∈ specs -> ls_InvalidatedAt (statusOf spec) = None -> ls_Databases (statusOf spec) <> [] ->
  (ls_SeededAt (statusOf spec) <> None -> upgradedSinceSeeded cr (statusOf spec) = false) ->
  logicalReplicaPVCName cr (lr_Name spec) = Some pvc -> volume_seen h pvc ->
  (ls_SeededAt (statusOf spec) = None -> primary_ready h) ->
  wps replica_call h (seedReplica errorText getenv operatorPod cr crunchyCR spec (statusOf spec)) (replica_outcome spec).
Proof.
  intros Hin Hi Hd Hu Hpvc Hvol Hready. unfold seedReplica. destruct (ls_SeededAt (statusOf spec)) as [t|] eqn:Es.
  - apply runReplica_wps. split_and!; try done; [|by rewrite Es..]. split_and!; try done; by rewrite Es; auto.
  - specialize (Hready eq_refl). rewrite wps_bind. apply (bootstrap_wps _ _ pvc); try done.
    intros h1 [s' [[|]|e]] Hp1 Hout.
    + destruct Hout as [Hm Hs']. unfold recordBootstrap. rewrite wps_bind.
      assert (Hrun : forall h2 t, h1 `prefix_of` h2 -> wps replica_call h2 (runReplica errorText getenv cr crunchyCR spec
          (statusOf spec <| ls_SeededAt := Some t |> <| ls_PostgresVersion := c_PostgresVersion cr |>)) (replica_outcome spec)).
      { intros h2 t Hp2. apply runReplica_wps. split_and!; try done. by eapply (grows (P := fun h => may_run h spec)). }
      destruct Hs' as [->|[t ->]].
      * rewrite Es, wps_bind. apply wps_call_bind. split; [done|]. intros now. cbn [wps bind]. apply (Hrun _ now). by apply prefix_app_r.
      * cbn. by apply (Hrun h1 t).
    + destruct Hout as [Hs' Hst]. apply outcome_same; [done|by intros _].
    + by apply outcome_same.
Qed.

Lemma provision_wps h spec : spec ∈ specs -> ls_InvalidatedAt (statusOf spec) = None -> ls_Databases (statusOf spec) <> [] ->
  (ls_SeededAt (statusOf spec) <> None -> upgradedSinceSeeded cr (statusOf spec) = false) ->
  (ls_SeededAt (statusOf spec) = None -> primary_ready h) ->
  wps replica_call h (provisionReplica errorText getenv operatorPod cr crunchyCR spec (statusOf spec)) (replica_outcome spec).
Proof.
  intros Hin Hi Hd Hu Hready. unfold provisionReplica. rewrite onStatus_wps. apply reconcilePVC_wps; [done|].
  intros h1 [[|]|e] Hp1 Hv; cbn [negb]; [|by apply outcome_same..].
  destruct (Hv eq_refl) as (pvc & Hpvc & Hvol). rewrite onStatus_wps. apply reconcileConfigMap_wps; [done|].
  intros h2 [[]|e] Hp2 _; [|by apply outcome_same]. apply (seed_wps _ _ pvc); try done.
  - by eapply (grows (P := fun h => volume_seen h pvc)).
  - intros Hs. eapply (grows (P := primary_ready)); [by apply Hready|]. by etransitivity.
Qed.

Lemma freeze_wps h spec s : ls_Databases s = [] -> same_data (statusOf spec) s ->
  wps replica_call h (freezeDatabases errorText cr crunchyCR spec s) (replica_outcome spec).
Proof.
  intros Hd Hs. pose proof Hs as (Hn & Hdb & Hse & Hv & Hi). unfold freezeDatabases. destruct (negb _); [by apply outcome_same|].
  rewrite onStatus_wps. unfold resolveLogicalReplicaDatabases. rewrite wps_bindr. apply primaryPod_wps; [done|].
  intros h1 [primary|e] Hp1 Hseen; [|by apply outcome_same].
  assert (Hrest : forall h' (r : result (list string * list string)),
    match r with
    | Ok (databases, missing) =>
        wps replica_call h'
          match missing, databases with
          | _ :: _, _ => Ret (waitingForDatabases ("waiting for these databases of spec.logicalReplicas[].databases " +:+
              "to be created: " +:+ Join missing ", ") s, None)
          | [], [] => Ret (waitingForDatabases ("the cluster has no databases to replicate; create one, or name the " +:+
              "databases this replica covers in spec.logicalReplicas[].databases") s, None)
          | [], _ => Ret (s <| ls_Databases := databases |> <| ls_State := ReplicaBootstrapping |>, None)
          end (replica_outcome spec)
    | Err e => replica_outcome spec h' (s, Some (Wrap "resolve databases" e))
    end).
  { intros h' [[databases [|m missing]]|e]; [|by apply outcome_same..].
    destruct databases as [|d databases]; [by apply outcome_same|]. split; [|done].
    unfold evolves. cbn. rewrite Hn, Hse, Hv, Hi, <- Hdb, Hd. split_and!; done. }
  destruct (lr_Databases spec) as [|d0 ds].
  - rewrite wps_bindr. apply databases_wps; [done|]. intros h2 [dbs|e] Hp2; [apply (Hrest h2 (Ok (dbs, [])))|apply (Hrest h2 (Err _))].
  - rewrite wps_bindr. apply databases_wps; [done|]. intros h2 [present|e] Hp2;
      [apply (Hrest h2 (Ok (d0 :: ds, _)))|apply (Hrest h2 (Err _))].
Qed.

(** What stops a replica is an upgrade that was just recorded, or an invalidation. *)
Lemma stop_wps h spec s : spec ∈ specs ->
  ls_Name s = ls_Name (statusOf spec) -> ls_Databases s = ls_Databases (statusOf spec) ->
  ls_SeededAt s = ls_SeededAt (statusOf spec) -> ls_PostgresVersion s = ls_PostgresVersion (statusOf spec) ->
  ls_InvalidatedAt s <> None ->
  (ls_InvalidatedAt (statusOf spec) <> None -> ls_InvalidatedAt s = ls_InvalidatedAt (statusOf spec)) ->
  (ls_InvalidatedAt (statusOf spec) = None ->
     upgradedSinceSeeded cr (statusOf spec) = true /\ ls_SeededAt (statusOf spec) <> None) ->
  wps replica_call h (stopInvalidated errorText cr spec s) (replica_outcome spec).
Proof.
  intros Hin Hn Hd Hs Hv Hi Hold Hnew. unfold stopInvalidated.
  assert (Hup : upgradedSinceSeeded cr s = upgradedSinceSeeded cr (statusOf spec)) by (unfold upgradedSinceSeeded; by rewrite Hv).
  assert (Hwhy : ls_InvalidatedAt (statusOf spec) <> None \/ ls_SeededAt (statusOf spec) <> None).
  { destruct (ls_InvalidatedAt (statusOf spec)) eqn:E; [by left|]. right. by apply Hnew. }
  assert (Hev0 : forall h' s', same_data s s' -> evolves h' spec (statusOf spec) s').
  { intros h' s' (En & Ed & Es & Ev & Ei). unfold evolves. rewrite En, Ed, Es, Ev, Ei, Hn, Hd, Hs, Hv. split_and!; try done.
    by intros Hnone _; apply Hnew. }
  assert (Hev : forall h' e, replica_outcome spec h' (s, Some e)) by by intros h' e; split; [apply Hev0|].
  assert (Hev' : forall h' reason message, replica_outcome spec h' (setState ReplicaBroken reason message s, None)).
  { intros h' reason message. by split; [apply Hev0|]. }
  rewrite onStatus_wps. apply scale_wps.
  { right. exists spec. split_and!; [done..|]. destruct (ls_InvalidatedAt (statusOf spec)) eqn:E; [by left|].
    right. by apply Hnew. }
  intros h1 [[]|e] Hp1; [|apply Hev].
  destruct (logicalReplicaInvalidation cr s) as [reason message] eqn:Er. rewrite wps_bind.
  assert (Hgo : forall h2, wps replica_call h2
    (let! status := (if bool_decide (reason = ReasonSourceUpgraded) && negb (bool_decide (ls_Databases s = []))
                  then
                    let! r := dropLogicalReplicaObjects errorText cr (lr_Name spec) (ls_Databases s) in
                    Ret (match r with Ok _ => s <| ls_Databases := [] |> | Err _ => s end)
                  else Ret s) in
     Ret (setState ReplicaBroken reason message status, None)) (replica_outcome spec)).
  { intros h2. rewrite wps_bind. destruct (_ && _) eqn:Eb; [|cbn [wps]; apply Hev'].
    apply andb_true_iff in Eb as [Ereason _]. apply bool_decide_eq_true in Ereason. subst reason.
    unfold logicalReplicaInvalidation in Er. destruct (upgradedSinceSeeded cr s) eqn:Eup; [|discriminate Er].
    rewrite <- (statusFor_name (lr_Name spec)), <- Hn. rewrite wps_bind. apply dropObjects_wps.
    - right. exists spec. split_and!; [done|by rewrite Hn, statusFor_name|done|done|done].
    - intros h3 [[]|e] Hp3 Hdrop; cbn [wps]; [|apply Hev']. split; [|done].
      assert (Hgone : forall s', ls_Name s' = ls_Name s -> ls_SeededAt s' = ls_SeededAt s ->
          ls_PostgresVersion s' = ls_PostgresVersion s -> ls_InvalidatedAt s' = ls_InvalidatedAt s -> ls_Databases s' = [] ->
          evolves h3 spec (statusOf spec) s'); [|by apply Hgone].
      intros s' En Es Ev Ei Ed. unfold evolves. rewrite En, Ed, Es, Ev, Ei, Hn, Hs, Hv.
      split_and!; try done; [by intros Hnone _; apply Hnew|]. intros _ _. split_and!; [done|by rewrite <- Hup|done|].
      exists s. split_and!; [by rewrite Hn, statusFor_name|done|by apply Hdrop]. }
  destruct (recordedLogicalReplicaReason cr (lr_Name spec) reason); [apply Hgo|].
  split; [done|]. intros r. apply Hgo.
Qed.

Lemma reconcile_wps h spec (primaryReady : bool) : spec ∈ specs -> (primaryReady = true -> primary_ready h) ->
  wps replica_call h (reconcileLogicalReplica errorText getenv operatorPod cr crunchyCR spec primaryReady) (replica_outcome spec).
Proof.
  intros Hin Hready. unfold reconcileLogicalReplica, markUpgraded. rewrite wps_bind.
  destruct (bool_decide (ls_InvalidatedAt (statusOf spec) = None) && negb (bool_decide (ls_SeededAt (statusOf spec) = None)) &&
     upgradedSinceSeeded cr (statusOf spec)) eqn:E.
  { bool_to_prop. apply wps_call_bind. split; [done|]. intros now. cbn [wps bind]. cbn [ls_InvalidatedAt].
    change (negb (bool_decide (Some now = None))) with true. cbn iota. apply stop_wps; try done; by destruct E as [[-> ?] ?]. }
  cbn [wps]. destruct (decide (ls_InvalidatedAt (statusOf spec) = None)) as [Hi|Hi].
  2: { rewrite bool_decide_eq_false_2 by done. cbn [negb]. by apply stop_wps. }
  rewrite (bool_decide_eq_true_2 _ Hi) in E |- *. cbn [negb].
  destruct (bool_decide (ls_SeededAt (statusOf spec) = None) && negb primaryReady) eqn:Ew; [by apply outcome_same|].
  destruct (decide (ls_Databases (statusOf spec) = [])) as [Ed|Ed].
  { rewrite (bool_decide_eq_true_2 _ Ed). by apply freeze_wps. }
  rewrite (bool_decide_eq_false_2 _ Ed). apply provision_wps; try done.
  - intros Hs. rewrite (bool_decide_eq_false_2 _ Hs) in E. exact E.
  - intros Hs. rewrite (bool_decide_eq_true_2 _ Hs) in Ew. apply Hready. by destruct primaryReady.
Qed.

Lemma each_wps h ready l statuses (requeue : bool) (Q : history -> result bool -> Prop) :
  l ⊆ specs -> cond_Type ready = ConditionReadyForLogicalReplication ->
  (cond_Status ready = ConditionTrue -> primary_ready h) -> (forall h' r, Q h' r) ->
  wps replica_call h (reconcileEach errorText getenv operatorPod cr crunchyCR ready l statuses requeue) Q.
Proof.
  revert h statuses requeue. induction l as [|spec l IH]; intros h statuses requeue Hl Ht Hready HQ; cbn [reconcileEach].
  { rewrite wps_bindr. apply updateStatus_wps; [done|]. by intros h1 [[]|e] _; apply HQ. }
  rewrite wps_bind. eapply wps_conseq.
  { apply wps_prefix, reconcile_wps; [apply Hl; by left|]. intros Ht'. apply Hready. by bool_to_prop. }
  intros h1 [s' e] [Hp1 _]. destruct (existsb _ _); [by apply HQ|]. cbv zeta. case_bool_decide.
  - rewrite wps_bindr. apply updateStatus_wps; [done|]. by intros h2 [[]|e2] _; apply HQ.
  - apply IH; [intros x Hx; apply Hl; by right|done| |done]. intros Hc.
    eapply (grows (P := primary_ready)); [by apply Hready|done].
Qed.

(** C36: Whatever is recorded and asked for, the controller makes a Job only for a
    replica that is neither seeded nor invalidated, once its primary - the only
    pod with the label of the primary - was seen ready and with capacity, and its
    volume was not on its way out.  It runs a StatefulSet only for a replica that
    is not invalidated and has its databases, and that is recorded as seeded, or
    whose Job was seen completed, or whose StatefulSet was already there; a
    seeding that is recorded must be of the version of the cluster, while the
    data of a StatefulSet that is adopted are not looked at.  It deletes the
    volume of a replica only when its slots are dropped, or when its bootstrap is
    thrown away; runs each of its statements where it belongs, those for the
    primary on the primary; and writes nothing else of the cluster than these
    statuses and the condition about the primary. *)
Theorem logical_replica_calls h :
  wps replica_call h (reconcileLogicalReplicas errorText getenv operatorPod cr crunchyCR) (fun _ _ => True).
Proof.
  unfold reconcileLogicalReplicas. case_bool_decide; [done|].
  assert (Hbody : forall h', wps replica_call h'
    (do! s := shouldSuspendLogicalReplicas cr or "observe restore" in
        if Needed s then do! _ := suspendLogicalReplicas cr s in Ret (Ok false)
        else
          do! deferred := cleanupRemovedLogicalReplicas errorText cr or "clean up removed logical replicas" in
          let waiting := negb (bool_decide (deferred = [])) in
          match specs with
          | [] =>
              do! _ := updateLogicalReplicaStatus cr deferred None in
              Ret (Ok waiting)
          | _ =>
              if negb (bool_decide (c_State cr = AppStateReady)) then Ret (Ok waiting)
              else
                let! ready := observePrimaryReadiness errorText cr in
                reconcileEach errorText getenv operatorPod cr crunchyCR ready specs deferred waiting
          end) (fun _ _ => True)).
  { intros h'. rewrite wps_bindr. unfold shouldSuspendLogicalReplicas. apply wps_list_bindr. split; [done|].
    intros [restores|e]; [|done]. cbn [wps]. destruct (Needed _).
    { rewrite wps_bindr. unfold suspendLogicalReplicas. rewrite wps_bindr. apply suspendEach_wps; [done|].
      intros h1 [statuses|e] Hp1; [|done]. apply updateStatus_wps; [done|]. by intros h2 [[]|e]. }
    rewrite wps_bindr. apply cleanup_wps; [done|]. intros h1 [deferred|e] Hp1 _; [|done]. cbv zeta.
    destruct specs as [|spec l] eqn:El.
    - rewrite wps_bindr. apply updateStatus_wps; [done|]. by intros h2 [[]|e].
    - rewrite <- El. destruct (negb _); [done|]. rewrite wps_bind. apply observe_wps.
      intros h2 c Hp2 Ht Hr. by apply each_wps. }
  destruct specs as [|spec l] eqn:El; [destruct recorded as [|s l'] eqn:Es|]; [|apply Hbody..].
  rewrite wps_bindr. apply updateStatus_wps; [done|]. by intros h2 [[]|e].
Qed.

(** C37: Once the readiness of the primary was observed, what one pass of
    [reconcileLogicalReplica] makes of a recorded status: the time of its seeding, the version and the databases that
    were frozen stay; it becomes seeded only when it may run; here only an
    upgrade invalidates it, and its databases are forgotten only after its slots
    were dropped; and it is ready only if it is seeded and not invalidated, the
    primary had all its slots, and each of its subscriptions was seen enabled
    with a running worker. *)
Theorem replica_status_evolves h :
  Forall (fun spec =>
    wps replica_call h
      (let! ready := observePrimaryReadiness errorText cr in
       reconcileLogicalReplica errorText getenv operatorPod cr crunchyCR spec (bool_decide (cond_Status ready = ConditionTrue)))
      (replica_outcome spec)) specs.
Proof.
  apply Forall_forall. intros spec Hin. rewrite wps_bind. apply observe_wps. intros h1 ready Hp _ Hready.
  apply reconcile_wps; [done|]. intros Hb. apply Hready. by bool_to_prop.
Qed.

(** C38: Every recorded replica that left the specification is, when the cleanup
    ends without an error, either rid of the slots of all its recorded databases
    on the primary or held in the status as awaiting its cleanup; and nothing else is held. *)
Theorem removed_replicas_are_accounted h :
  wps replica_call h (cleanupRemovedLogicalReplicas errorText cr) (fun h' r =>
    match r with
    | Ok deferred => Forall (accounted h' deferred) recorded /\
                     Forall (fun d => exists s, s ∈ recorded /\ d = heldStatus s) deferred
    | Err _ => True
    end).
Proof. by apply cleanup_wps. Qed.

(** ** Suspension, in detail *)

(** The StatefulSet of a replica is gone, or scaled to zero. *)
Definition stopped (h : history) (replica : string) : Prop :=
  exists k, is_named (logicalReplicaObjectName cr replica) k /\
    (absent h KSts k \/ exists sts : StatefulSet, read h KSts k sts /\
       (st_Replicas sts = 0%Z \/ exists sts' : StatefulSet,
          (Ev (Patch KSts sts (sts <| st_Replicas := 0%Z |>) : op)
             (Ok sts' : resp (Patch KSts sts (sts <| st_Replicas := 0%Z |>))) : event resp) ∈ h)).

#[local] Instance grows_stopped replica : Grows (fun h => stopped h replica).
Proof. unfold stopped. apply _. Qed.

(** The calls: no statement is run on any pod. *)
Definition suspend_call (s : Status) (h : history) (o : op) : Prop :=
  match o with
  | Get KSts _ | Get KJob _ | Now => True
  | Patch KSts sts sts' => sts' = sts <| st_Replicas := 0%Z |> /\
      exists k, is_named (logicalReplicaObjectName cr (ls_Name s)) k /\ read h KSts k sts
  | Delete KJob k opts =>
      opts = Foreground /\ ls_SeededAt s = None /\ is_named (logicalReplicaJobName cr (ls_Name s)) k
  | Delete KPVC k opts =>
      opts = NoOptions /\ ls_SeededAt s = None /\ is_named (logicalReplicaPVCName cr (ls_Name s)) k /\
      (exists jobAt (job : Job), is_named (logicalReplicaJobName cr (ls_Name s)) jobAt /\ read h KJob jobAt job) /\
      exists stsAt, is_named (logicalReplicaObjectName cr (ls_Name s)) stsAt /\ absent h KSts stsAt
  | _ => False
  end.

(** A deletion was answered: the object is deleted, or was not there. *)
Definition goes (h : history) (k : kind) (at_ : key) (opts : DeleteOptions) : Prop :=
  exists r : result unit, (Ev (Delete k at_ opts : op) r : event resp) ∈ h /\
    (r = Ok tt \/ exists e, r = Err e /\ IsNotFound e = true).

(** A bootstrap is thrown away: there was no Job, or it was deleted with its
    pods, and then the volume as well where there was no StatefulSet. *)
Definition bootstrap_discarded (h : history) (replica : string) : Prop :=
  exists jobAt, is_named (logicalReplicaJobName cr replica) jobAt /\
    (absent h KJob jobAt \/
     (exists job : Job, read h KJob jobAt job) /\ goes h KJob jobAt Foreground /\
     exists stsAt, is_named (logicalReplicaObjectName cr replica) stsAt /\
       ((exists sts : StatefulSet, read h KSts stsAt sts) \/
        absent h KSts stsAt /\ exists pvcAt, is_named (logicalReplicaPVCName cr replica) pvcAt /\ goes h KPVC pvcAt NoOptions)).

Definition suspended_outcome (s : suspension) (h : history) (status status' : Status) : Prop :=
  match ls_SeededAt status with
  | Some _ =>
      ls_State status' = ReplicaSuspended /\ ls_Reason status' = sus_Reason s /\ ls_Message status' = sus_Message s /\
      ls_Name status' = ls_Name status /\ ls_Databases status' = ls_Databases status /\
      ls_SeededAt status' = ls_SeededAt status /\ ls_PostgresVersion status' = ls_PostgresVersion status /\
      (ls_InvalidatedAt status' <> None <-> ls_InvalidatedAt status <> None \/ Invalidate s = true) /\
      (ls_InvalidatedAt status <> None -> ls_InvalidatedAt status' = ls_InvalidatedAt status)
  | None => status' = canceledStatus status /\ bootstrap_discarded h (ls_Name status)
  end.

Lemma stop_replica_wps h status (Q : history -> result unit -> Prop) :
  (forall h' r, h `prefix_of` h' -> (r = Ok tt -> stopped h' (ls_Name status)) -> Q h' r) ->
  wps (suspend_call status) h (scaleLogicalReplica cr (ls_Name status) 0) Q.
Proof.
  intros HQ. unfold scaleLogicalReplica. apply named_wps; [intros _; by apply HQ|]. intros n Hn. apply wrapped_wps.
  apply RetryOnConflict_prefix. intros h1 Hp1. apply wps_call_bind. split; [done|]. intros r.
  set (h2 := h1 ++ _). assert (Hp : h `prefix_of` h2) by by apply prefix_app_r.
  assert (Hk : is_named (logicalReplicaObjectName cr (ls_Name status)) (at_ cr n)) by by apply is_named_at.
  destruct r as [sts|e]; cbn [wps].
  - case_bool_decide as E.
    + apply HQ; [done|]. intros _. exists (at_ cr n). split; [done|]. right. exists sts.
      split; [apply elem_of_snoc|by left].
    + rewrite wps_ignore. split; [split; [done|]; exists (at_ cr n); split; [done|apply elem_of_snoc]|].
      intros [sts'|e]; (apply HQ; [by apply prefix_app_r|]); [|done]. intros _. exists (at_ cr n). split; [done|].
      right. exists sts. split; [|right; exists sts'; apply elem_of_snoc].
      apply (grows (P := fun h => read h KSts (at_ cr n) sts) h2); [apply elem_of_snoc|by apply prefix_app_r].
  - destruct (IsNotFound e) eqn:Ee; apply HQ; try done. intros _. exists (at_ cr n). split; [done|]. left.
    by apply absent_last.
Qed.

Lemma goes_last (h : history) k at_ opts (r : result unit) :
  match r with Ok _ => True | Err e => IsNotFound e = true end ->
  goes (h ++ [Ev (Delete k at_ opts : op) r : event resp]) k at_ opts.
Proof. intros Hr. exists r. split; [apply elem_of_snoc|]. destruct r as [[]|e]; [by left|right; by exists e]. Qed.

#[local] Instance grows_goes k at_ opts : Grows (fun h => goes h k at_ opts).
Proof. unfold goes. apply _. Qed.

(** The volume of a Job that is deleted *)
Lemma discard_volume_wps h status n (job : Job) (Q : history -> result unit -> Prop) : ls_SeededAt status = None ->
  logicalReplicaJobName cr (ls_Name status) = Some n -> read h KJob (at_ cr n) job -> goes h KJob (at_ cr n) Foreground ->
  (forall h' r, h `prefix_of` h' -> (r = Ok tt -> bootstrap_discarded h' (ls_Name status)) -> Q h' r) ->
  wps (suspend_call status) h
    (do! sts := logicalReplicaStatefulSet cr (ls_Name status) in
     match sts with
     | Some _ => Ret (Ok tt)
     | None =>
         named (logicalReplicaPVCName cr (ls_Name status)) (fun pvc =>
           ignoreNotFound (call (Delete KPVC (at_ cr pvc) NoOptions)) (Wrap "delete data volume"))
     end) Q.
Proof.
  intros Hs Hn Hj Hd HQ. rewrite wps_bindr. unfold logicalReplicaStatefulSet.
  apply named_wps; [intros _; by apply HQ|]. intros sn Hsn. rewrite wps_bind. apply wps_call. split; [done|]. intros r.
  set (h1 := h ++ _). assert (Hp1 : h `prefix_of` h1) by by apply prefix_app_r.
  assert (Hj1 : read h1 KJob (at_ cr n) job) by by eapply (grows (P := fun h => read h KJob _ job)).
  assert (Hd1 : goes h1 KJob (at_ cr n) Foreground) by by eapply (grows (P := fun h => goes h KJob _ _)).
  destruct r as [sts|e]; [|destruct (IsNotFound e) eqn:Ee]; cbn [wps].
  - apply HQ; [done|]. intros _. exists (at_ cr n). split; [by apply is_named_at|]. right. split_and!; [by exists job|done|].
    exists (at_ cr sn). split; [by apply is_named_at|]. left. exists sts. apply elem_of_snoc.
  - assert (Ha : absent h1 KSts (at_ cr sn)) by by apply absent_last.
    apply named_wps; [intros _; by apply HQ|]. intros pvc Hpvc. apply ignoreNotFound_wps. split.
    + split_and!; [done|done|by apply is_named_at|exists (at_ cr n), job; by split; [apply is_named_at|]|].
      exists (at_ cr sn). split; [by apply is_named_at|done].
    + intros r2. change (result unit) in r2. apply HQ; [by apply prefix_app_r|]. intros Hr.
      exists (at_ cr n). split; [by apply is_named_at|]. right. split_and!.
      * exists job. by eapply (grows (P := fun h => read h KJob _ job)), prefix_app_r.
      * by eapply (grows (P := fun h => goes h KJob _ _)), prefix_app_r.
      * exists (at_ cr sn). split; [by apply is_named_at|]. right.
        split; [by eapply (grows (P := fun h => absent h KSts _)), prefix_app_r|].
        exists (at_ cr pvc). split; [by apply is_named_at|]. apply goes_last. destruct r2 as [|e2]; [done|].
        by destruct (IsNotFound e2).
  - by apply HQ.
Qed.

Lemma discard_suspend_wps h status (Q : history -> result unit -> Prop) : ls_SeededAt status = None ->
  (forall h' r, h `prefix_of` h' -> (r = Ok tt -> bootstrap_discarded h' (ls_Name status)) -> Q h' r) ->
  wps (suspend_call status) h (discardLogicalReplicaBootstrap cr (ls_Name status)) Q.
Proof.
  intros Hs HQ. unfold discardLogicalReplicaBootstrap. apply named_wps; [intros _; by apply HQ|]. intros n Hn.
  apply wps_call_bind. split; [done|]. intros r. set (h1 := h ++ _). assert (Hp1 : h `prefix_of` h1) by by apply prefix_app_r.
  destruct r as [job|e].
  - assert (Hj : read h1 KJob (at_ cr n) job) by apply elem_of_snoc.
    rewrite wps_bindr. unfold deleteLogicalReplicaJob, named at 1. rewrite Hn. apply ignoreNotFound_wps. split.
    { split_and!; [done|done|by apply is_named_at]. }
    intros r1. change (result unit) in r1. set (h2 := h1 ++ _). assert (Hp2 : h1 `prefix_of` h2) by by apply prefix_app_r.
    assert (Hp : h `prefix_of` h2) by by etransitivity.
    assert (Hrest : match r1 with Ok _ => True | Err e => IsNotFound e = true end -> wps (suspend_call status) h2
      (do! sts := logicalReplicaStatefulSet cr (ls_Name status) in
       match sts with
       | Some _ => Ret (Ok tt)
       | None =>
           named (logicalReplicaPVCName cr (ls_Name status)) (fun pvc =>
             ignoreNotFound (call (Delete KPVC (at_ cr pvc) NoOptions)) (Wrap "delete data volume"))
       end) Q).
    { intros Hr. apply (discard_volume_wps _ _ n job); [done|done| |by apply goes_last|].
      - by eapply (grows (P := fun h => read h KJob _ job)).
      - intros h' r Hp'. apply HQ. by etransitivity. }
    destruct r1 as [[]|e]; [by apply Hrest|]. cbn [wps]. destruct (IsNotFound e) eqn:Ee; [by apply Hrest|by apply HQ].
  - apply HQ; [done|]. destruct (IsNotFound e) eqn:Ee; [|done]. intros _. exists (at_ cr n).
    split; [by apply is_named_at|]. left. by apply absent_last.
Qed.

(** C39: Suspending a replica runs no statement. When it succeeds the StatefulSet was
    seen gone or scaled to zero. A replica that was seeded keeps its databases,
    and is invalidated just when the suspension invalidates or it was before.
    The bootstrap of one that was not is thrown away: there was no Job of it, or
    the Job was deleted with its pods, and then, when there was no StatefulSet,
    its volume was deleted as well; nothing else is deleted, and its databases
    are forgotten - though what the Job has made on the primary stays there. *)
Theorem suspension_of_a_replica s status h :
  wps (suspend_call status) h (suspendLogicalReplica cr s status) (fun h' r =>
    match r with
    | Ok status' => stopped h' (ls_Name status) /\ suspended_outcome s h' status status'
    | Err _ => True
    end).
Proof.
  unfold suspendLogicalReplica, suspended_outcome. rewrite wps_bindr. apply stop_replica_wps.
  intros h1 [[]|e] Hp1 Hstop; [|done]. specialize (Hstop eq_refl). destruct (ls_SeededAt status) as [t|] eqn:Et.
  - rewrite wps_bind. unfold suspendedStatus. cbv zeta. change (ls_InvalidatedAt (setState _ _ _ status)) with (ls_InvalidatedAt status).
    destruct (Invalidate s) eqn:Ei; cbn [andb]; [case_bool_decide as Ed|].
    + apply wps_call_bind. split; [done|]. intros now. split.
      { eapply (grows (P := fun h => stopped h _)); [done|by apply prefix_app_r]. }
      split_and!; try done. split; [by right|done].
    + split; [done|]. split_and!; try done. split; [by left|by intros _].
    + split; [done|]. split_and!; try done. split; [by left|by intros [?|?]].
  - rewrite wps_bindr. apply discard_suspend_wps; [done|]. intros h2 [[]|e] Hp2 Hd; [|done].
    split; [by eapply (grows (P := fun h => stopped h _))|]. split; [done|by apply Hd].
Qed.

(** C40: While the primary is not ready, a replica that is not seeded ends the loop
    over the replicas at once: what is written then are the statuses before it
    and its own, so the records of all the replicas after it are forgotten -
    that they were seeded, their databases and that they were invalidated. *)
Theorem waiting_replica_forgets_later ready spec l statuses requeue :
  ls_SeededAt (statusOf spec) = None -> ls_InvalidatedAt (statusOf spec) = None -> cond_Status ready <> ConditionTrue ->
  reconcileEach errorText getenv operatorPod cr crunchyCR ready (spec :: l) statuses requeue =
    (do! _ := updateLogicalReplicaStatus cr (statuses ++ [waitingForPrimary (statusOf spec)]) (Some ready) in Ret (Ok true)) /\
  forall later, later ∈ l -> lr_Name later ∉ lr_Name spec :: map ls_Name statuses ->
    lr_Name later ∉ map ls_Name (statuses ++ [waitingForPrimary (statusOf spec)]).
Proof.
  intros Hs Hi Hc. split.
  - cbn [reconcileEach]. unfold reconcileLogicalReplica, markUpgraded.
    rewrite Hs, Hi, (bool_decide_eq_false_2 _ Hc). cbn. by rewrite Hi, Hs.
  - intros later _ Hlater. rewrite map_app. intros [Hin|Hin]%elem_of_app; apply Hlater; [by right|].
    apply list_elem_of_singleton in Hin. rewrite Hin. change (ls_Name (waitingForPrimary _)) with (ls_Name (statusOf spec)).
    rewrite statusFor_name. left.
Qed.
End Lifecycle.

#[local] Existing Instance ConcreteRuntime.runtime.
#[local] Existing Instance ConcreteRuntime.createOrUpdates.
#[local] Existing Instance ListConditions.conditions.
#[local] Existing Instance DottedVersions.versions.
#[local] Existing Instance ConcreteLabels.matching.
#[local] Existing Instance ConcreteEncode.encode.
#[local] Existing Instance ConcreteRandom.digests.

(** Two replicas, of which the second is invalidated, and a primary that is away *)
Module ExampleReplicas.
Definition replica (name : string) : LogicalReplicaSpec :=
  mkReplicaSpec name [] "" (mkClaim "1Gi" None) None "" None [] None None None None None.

Definition invalidated : LogicalReplicaStatus :=
  mkReplicaStatus "old" ReplicaBroken ReasonSourceRestored "" ["db"] (Some 10%Z) 17 (Some 20%Z).

Definition cluster : PerconaPGCluster :=
  examplePGCluster <| c_LogicalReplicas := [replica "new"; replica "old"] |>
                   <| c_LogicalReplicaStatuses := [invalidated] |>.

Definition errorText (e : error) : string := "error".
Definition getenv (name : string) : string := "".
Definition operatorPod : result key := Ok ("postgres-operator", "operator").
End ExampleReplicas.

Lemma waiting_replica_forgets_later_witness :
  let cr := ExampleReplicas.cluster in
  let ready := notReady ConditionFalse "PrimaryPodNotFound" "" in
  let waiting := waitingForPrimary (mkReplicaStatus "new" ReplicaBootstrapping "" "" [] None 0 None) in
  reconcileEach ExampleReplicas.errorText ExampleReplicas.getenv ExampleReplicas.operatorPod cr
      (ExampleInstances.cluster []) ready (c_LogicalReplicas cr) [] false =
    (do! _ := updateLogicalReplicaStatus cr [waiting] (Some ready) in Ret (Ok true)) /\
  "old" ∉ map ls_Name [waiting].
Proof.
  intros cr ready waiting.
  destruct (waiting_replica_forgets_later ExampleReplicas.errorText ExampleReplicas.getenv ExampleReplicas.operatorPod cr
    (ExampleInstances.cluster []) ready (ExampleReplicas.replica "new") [ExampleReplicas.replica "old"] [] false)
    as [Heq Hno]; [reflexivity|reflexivity|discriminate|].
  split; [exact Heq|]. apply (Hno (ExampleReplicas.replica "old")); [by left|].
  by intros [?|[]%elem_of_nil]%elem_of_cons.
Defined.
